(* ===== verification/_CoqProject ===== *)
-Q . S2P
Prelude.v
TcTypes.v
TcRwLock.v
TcLock.v
TcLockProps.v
TcLockSystem.v
TcLockTheorems.v
TcIpc.v
TcMsg.v
TcMsgProps.v
TcMsgCommit.v
TcMsgAudit.v
TcMsgTheorems.v
TcVote.v
TcServer.v
TcDb.v
TcOper.v
TcDbTheorems.v
TcOperSimple.v
TcOperConfig.v
TcOperCandidate.v
TcOperAudit.v
TcModule.v
TcOperProps.v
TcTermination.v
TcRequests.v
TcCommitProtocol.v
TcModuleTheorems.v
TcLibTypes.v
TcLib.v
TcLibServices.v
TcLibProps.v
TcLibTheorems.v
TcLibCommit.v
TcLibSequence.v
TcNetwork.v
TcDriverInfo.v
TcDriverResults.v
TcLibAudit.v
MgmtDb.v
UsessTypes.v
UsessBase.v
UsessAuth.v
UsessSessions.v
UsessModule.v
UsessProps.v
UsessIds.v
UsessTable.v
UsessLocking.v
UsessAccess.v
UsessPassword.v
UsessReturns.v
UsessTc.v
CacheKeys.v
CacheTree.v
CacheProps.v
CacheOps.v
CacheSpec.v
CacheDelete.v
CacheClient.v
CacheTheorems.v
DrvCtr.v
DrvLocal.v
DrvInv.v
DrvSteps.v
DrvTheorems.v
DrvTxn.v
DrvEvents.v
DrvVote.v
DrvRequest.v
DrvSession.v
DrvSessionTheorems.v
DrvAudit.v
Capa.v
CapaTheorems.v
UpllLock.v
UpllCtrlr.v
UpllTx.v
UpplTx.v
UpplTheorems.v
