(* ===== verification/Prelude.v ===== *)
(** * Verification of the VTN Coordinator: transactions and sessions

    The coordinator of the VTN project configures virtual networks through
    several daemons: UPLL and UPPL (managers of the logical and the physical
    network) and one driver per type of controller.  The transaction
    coordinator (TC, [src/coordinator/modules/tc]) decides which session may
    configure, read, commit or audit at a time, and drives the commit and audit
    protocols among the daemons.  The daemons take part through a library
    (tclib, [src/coordinator/modules/tclib]).  Users are known to it by the
    sessions that the session manager ([src/coordinator/modules/usess]) gives
    them; a session that goes is reported to TC.  Drivers share the code that
    keeps controllers, their locks and the commands for them
    ([src/coordinator/modules/vtndrvintf]).  This development models TC, tclib,
    the session manager, that common part of the drivers and the capabilities
    of controllers and proves what makes them correct, apart and together.

    ** The program and its model

    - The lock.  [TcReadWriteLock] ([include/tc_module_data.hh]) is a
      readers/writer lock with two policies: exclusive, and one where readers
      run beside a writer except for two privileged sessions (database manager
      and launcher).  TcRwLock models it field by field; counters are
      [uint32_t] values as [Z] with their wrap-around; a broadcast on the
      condition variable is counted in a ghost field.
    - The lock manager.  [TcLock] ([tc_lock.cc]) combines that lock with the
      configuration session, the auto-save flag and the daemon's state.
      TcLock has one definition per method.  A method that may wait returns
      [Blocked]; its loop resumes with [resume_read], [resume_write] or
      [resume_setup].  TcLockSystem is the transition system of any number of
      threads calling these methods, one at a time because all take the global
      mutex; [reachable] is the states it reaches from the initial one.
    - Sessions of the IPC library.  TcIpc models
      [libs/libtc_common/libtc_client_sess_utils.cc] over an arbitrary IPC
      library (record [Ipc]): each library call answers as the record says, as
      a function of all that happened before, and every call is recorded in a
      trace.  Theorems quantify over all such records, so over all behaviours
      of the other daemons.
    - Messages.  [TcMsg] and its subclasses ([tcmsg.cc], [tcmsg_commit.cc],
      [tcmsg_audit.cc]) are TcMsg, TcMsgCommit and TcMsgAudit: a method is a
      program in a monad with the members, the IPC world and early returns.
    - Requests.  TcServer models the server side of a session
      ([libs/libtc_common/libtc_server_sess_utils.cc]).  An operation
      ([tc_operations.cc]) serves one request in phases; TcOper has the phases
      and a record [Vtable] for the virtual methods, TcOperSimple,
      TcOperConfig, TcOperCandidate and TcOperAudit the subclasses
      ([tc_*_operations.cc]).  What other threads do to the shared objects
      between two steps of an operation is a parameter ([Env]); a wait that
      never ends is [None].
    - The database.  TcDb models [tc_db_handler.cc] over ODBC calls given as a
      record; the class [TcDbI] is what the operations see of it.
    - The daemon.  TcModule models [tc_module.cc], [tc_unc_states.cc],
      [tc_taskq.cc] and [tc_lnc_event_handler.cc]: start, stop and activation,
      the services, the tasks and the calls of the session manager.
    - The participants.  [TcLibModule] ([modules/tclib/tclib_module.cc]) serves
      the requests of TC in UPLL, UPPL and the drivers.  TcLibTypes has the
      messages and their reading ([tclib_msg_util.cc]), TcLib the state, the
      interface for handlers and its implementation, TcLibServices the check of
      the sequence of messages and one definition per service, TcLibAudit the
      request of a driver for an audit.  The daemon's handler
      ([TcLibInterface], [include/uncxx/tclib/tclib_interface.hh]) is a type
      class: a call yields a program that may call the library back ([Prog]).
      Use of a session that is gone is [None].
    - The session manager.  [Usess] ([modules/usess/usess.cc]) serves ten kinds
      of requests under a lock.  UsessTypes has the data and the four blocks of
      configuration, UsessBase the members, the environment and the hashes
      ([usess_base_common.cc]), UsessAuth the users and the enable mode
      ([usess_user.cc], [usess_users.cc], [usess_enable.cc]), UsessSessions the
      table of sessions ([usess_sessions.cc], [usess_session.cc]), UsessModule
      the services and the life cycle.  The lock, the clock, [crypt], regular
      expressions, and what the other threads do while one waits for the lock
      are a parameter ([Platform]); TC is known by the class [TcSessions],
      which TcModule implements.  Its database is MgmtDb
      ([libs/mgmt/libuncmgmtdb/mgmt_database.cc]), over ODBC as a parameter.
    - The cache of the drivers.  A driver keeps the configuration of a
      controller, what is to be committed to it and what is known of its
      switches, ports and links in a tree of nodes ([modules/vtncacheutil]).
      CacheKeys has the keys and the names made of them
      ([vtn_conf_utility.hh]), CacheTree the nodes ([confignode.cc]), the tree
      with its search map and vector ([keytree.cc]) and its iterator.  Nodes
      are locations of a heap that tree, map and vector share; use of a node
      that was deleted is [None].
    - The drivers ([modules/vtndrvintf]).  DrvCtr has the controllers of a
      driver process, their counters of readers and writers
      ([controller_utils.hh]), the constructor and destructor of
      [controller_operation] and the framework ([controller_fw.cc]), and
      the transition system of any number of threads with an operation each;
      its rules ([allowed]) say which operations may be started.  DrvTxn has
      the transaction handlers ([vtn_drv_transaction_handle.cc]), an instance
      of [TcLibInterface]; DrvRequest the entry point, the configuration, audit
      and controller requests ([request_template.hh]), the reads
      ([vtn_read_handler.cc]) and the pings; DrvEvents the events for UPPL and
      the life cycle ([vtn_drv_module.cc]).  The drivers proper are parameters
      ([driver], [services]) over a world [W] of controllers; a null pointer
      that is dereferenced ends the process.
    - Capabilities ([modules/capa]).  Capa has the types of keys and their
      attributes ([ctrlr_capa_defines.cc]), the read accessors of
      configuration files ([libpfc_util/conf.c]) over parsed files, the
      capabilities of a version ([ctrlr_capability.cc]) and the module
      ([capa_module.cc]).  A run ends, is undefined or goes on for ever
      ([Run]); what opening a file gives is a parameter.
    - UPLL, the manager of the logical network ([modules/upll]), as far as its
      own state goes that does not depend on the types of keys.  UpllLock has
      the locks on the configurations ([config_lock.cc]), which calls each
      request ([config_mgr.cc]) and each handler make on them, and the threads
      that make these calls.  UpllCtrlr has the controllers that it knows, their
      path faults and the states of the ports of disconnected ones
      ([ctrlr_mgr.cc]).  UpllTx has its part in commits, audits and the other
      operations ([tx_mgr.cc]) and the handlers of the coordinator's calls
      ([tclib_intf_impl.cc]), as programs that record every call to a manager of
      keys, a lock or the database; what such a call answers is a parameter that
      may depend on all calls before ([Env]).
    - UPPL, the manager of the physical network ([modules/uppl]), as far as it
      takes part in transactions.  UpplTx has the state of a transaction with
      the keys that it found modified ([itc_transaction_request.cc]), the
      operations on the configuration databases ([itc_db_config.cc]) and the
      handlers of the coordinator's calls ([physical_core.cc]).  The tables,
      UPLL, the drivers and the receivers of notifications are a parameter as
      for UPLL; a list that is read past its end is undefined ([Wild]).

    ** Files

    - Prelude: machine words, notations, tactics, lemmas on lists and sets.
    - TcTypes: the enumerations of the sources.
    - TcRwLock, TcLock: the lock and the lock manager.
    - TcLockProps: the rules its clients follow, the effects of the methods,
      and the invariants (counters, privileged flags, configuration session).
    - TcLockSystem: threads, reachability, the invariant of all reachable
      states, an interpreter of runs.
    - TcLockTheorems: mutual exclusion, ownership of a commit, refinement of
      the configuration session to an abstract machine, stability of the write
      lock, wake-ups, admission by the daemon's state, round trips.
    - TcIpc, TcMsg, TcMsgCommit, TcMsgAudit: sessions and messages.
    - TcMsgProps: weakest preconditions for the monad, and the frame rules
      [keeps].
    - TcMsgTheorems: notifications and the undo of a transaction start.
    - TcVote: the vote and the global phase of a commit.
    - TcServer, TcDb, TcOper, TcOperSimple, TcOperConfig, TcOperCandidate,
      TcOperAudit, TcModule: requests, database and daemon.
    - TcDbTheorems: statements, the two tables and their round trips, and the
      handler as an instance of [TcDbI].
    - TcOperProps: weakest preconditions of operations, assertions that last
      whatever the other threads do, and a concrete setting for the witnesses.
    - TcTermination: requests are answered.
    - TcRequests: requests give back the write lock; the class [Exclusive]
      states what a subclass promises to the phases.
    - TcCommitProtocol: the run of a commit.
    - TcModuleTheorems: activation and start-up.
    - TcLibTypes, TcLib, TcLibServices, TcLibAudit: the participants' library.
    - TcLibProps: weakest preconditions of its services, what a handler may
      change, termination of the walk over the results of drivers.
    - TcLibTheorems: requests are answered; the counter of requests.
    - TcLibCommit, TcLibSequence: what a commit message does to a participant,
      and which sequences of messages it takes.
    - TcNetwork: TC over a network of participants.
    - TcDriverInfo, TcDriverResults: what participants and drivers write is
      what TC and the participants read.
    - MgmtDb, UsessTypes, UsessBase, UsessAuth, UsessSessions, UsessModule: the
      session manager and its database; at the end of UsessModule there are the
      shipped configuration and a database, to evaluate.
    - UsessProps: postconditions; programs that leave the sessions alone
      ([Frames]); what keeps a predicate of the table ([Kept]).
    - UsessIds, UsessTable: identifiers; the invariants of the table.
    - UsessLocking: the lock and the database after a request.
    - UsessAccess, UsessPassword: who may delete and enable; passwords.
    - UsessReturns: every call returns.
    - UsessTc: the session manager over the coordinator.
    - CacheKeys, CacheTree: the configuration cache.
    - CacheProps, CacheOps: the invariant of tree, map and heap, the
      traversals, and the changes that keep it.
    - CacheSpec: the abstract map, and the state that stands for it; additions
      and updates refine it.
    - CacheDelete: deletions and iterations refine it.
    - CacheClient, CacheTheorems: sequences of requests; the destructor; names
      that collide.
    - DrvCtr, DrvTxn, DrvRequest, DrvEvents: the drivers.
    - DrvLocal, DrvInv, DrvSteps: the invariant of the threads at one
      controller, of all of them, and its preservation.
    - DrvTheorems: exclusion and progress of the threads, and what happens
      beyond the rules.
    - DrvVote, DrvSession: the abstract state of a driver process, and each
      operation on it as a refinement.
    - DrvSessionTheorems: sessions; commands end to end.
    - DrvAudit: audits of a controller.
    - Capa, CapaTheorems: the capabilities.
    - UpllLock: the locks on configurations, threads, exclusion and progress.
    - UpllCtrlr: controllers, path faults and disconnected controllers.
    - UpllTx: transactions and the handlers of the coordinator's calls.
    - UpplTx: transactions of UPPL, its databases, and its handlers.
    - UpplTheorems: the phases of a commit, its termination and notifications.

    ** What the theorems show

    The lock: exclusion of readers and writers in every reachable state, the
    counters stay in the range the code asserts, writers are preferred, no
    wake-up is lost in exclusive mode, acquisition and release are inverse, an
    acquisition is admitted only by the right state of the daemon.  Three
    theorems show limits of the code: the exclusion of privileged readers fails
    when one of them asks twice, a wake-up can be lost where readers and
    writers overlap, and an audit that polls for the end of set-up stops all
    others.  The configuration session: it refines a four-phase machine; its
    identifiers are fresh; a commit in progress owns it.  The protocol: a
    transaction start that a participant refuses is undone in reverse order, as
    far as the others answer; the vote phase is all or nothing; a global commit
    never turns into an abort; notifications are sent in order.  The requests:
    all but a timed acquisition are answered, if no single wait for a mutex or
    for IPC lasts for ever; those that take the write lock give it back,
    whichever phase fails; the commit sends its four messages in order, under
    the lock, and succeeds only if all did, unless the lock is reset meanwhile,
    as the stop of the daemon does.  The daemon: activation gives back the transition lock; the
    start-up audits what the failed daemon recorded before it announces the end
    of set-up.  The database: what is recorded is read back; statements are
    freed, but for a column that cannot be bound; a failover count of four
    digits is truncated.  The participants: every request is answered without
    use of a session that is gone, as long as none is left over from an earlier
    request; a commit message reaches the handler exactly
    if it fits the phase and the identifiers, and the sequences that reach it
    are the transactions of a grammar; a START with unknown identifiers blocks
    a participant, notifications are counted as requests for ever, and the
    version of a controller may be taken for that of another.  Both together: a
    transaction start is all or nothing in the participants, unless one refuses
    the end that undoes it; the controllers that are named, the results that are
    reported (those with versions first) and the audits that are asked for
    arrive as they were sent.

    The session manager: sessions are stored under their own identifiers, with
    known types and modes, and are enabled only for administrators; the limits
    of the configuration hold and no session gets a fixed identifier; the
    search for an identifier yields the next free one, but after a reload it
    may lie outside the new range; deletion succeeds exactly for those who may
    delete; the enable mode takes the password, or the web administrator; a new
    password is committed and is the one that enables; a request gives back the
    lock and leaves no transaction open, but a failed start gives back a lock
    that it does not hold; every call returns, those that handle passwords if
    the database and [crypt] can be used.  With TC: the configuration of a
    session that is deleted is free afterwards, if it has no write in
    progress.

    The cache: whatever is asked of it, it is a map from identities to
    elements, whose deletions take a subtree and whose iterations meet every
    element once, after its parent; no freed node is used and none is freed
    twice.  The destructor misses nodes that were added after an iteration, and
    different elements whose names are concatenated to the same text are taken
    for one.

    The drivers: under the rules, one of which is that nobody is woken
    spuriously, no thread uses a deleted controller, updates and deletions are
    alone and threads do not block one another; two writers that were woken
    together lock out all later ones, a reader that was woken may use a
    controller that is gone, and a deletion that is woken spuriously deletes a
    controller under its readers.  Whatever the sequence of
    requests, pings and transaction calls, a driver process whose controllers
    nobody else writes to is a map from names to controllers with pending
    commands; commands are executed once, in order, by the vote, and a vote
    that fails and names an unknown controller ends the process.  An audit lists
    all that the driver has below what is listed, elements of equal identity
    once, and nothing else.  UPPL hears
    of a domain before its ports.

    The capabilities: the module answers what the nearest version defines, from
    a version through its parents, up to the first attribute that none defines,
    and accepts the versions of controllers that are not less than an actual
    version, whose components are taken modulo 256; a version that is its own ancestor is
    loaded for ever.

    UPLL: whatever its threads do they share configurations only for reading
    and do not block one another, but for reads that lock a configuration twice
    where the locks prefer writers.  The list of controllers is a map, and a
    walk over it meets each controller once; path faults are counted, and states
    of ports are kept while their controller is disconnected.  Its transactions
    use the database in order and in the scope of a lock whatever goes wrong,
    but for a start-up without [tclib], and commit only what no manager refused;
    its replies keep the order of a commit; the recovery after a failover
    succeeds on an active node only, and the test that is to refuse it there
    reads flags that nobody sets.

    UPPL: what it does keeps the phases of a commit whatever it is asked, though
    a start out of phase may give a transaction up and a result out of phase is
    answered with success; its database is committed at most once for a
    transaction that got through start and vote, and no list is read past its
    end; every call returns, but for versions and created boundaries that cannot
    be read.  A commit notifies exactly what
    vanishes, is new or changes, with the values before and after.

    ** Bounds

    Loops of the sources run over lists (participants,
    drivers, controllers) and are structural.  Waiting loops are steps of the
    transition system; in an operation a wait has at most two rounds ([await]
    has fuel 2): a thread that polled for the end of set-up may then wait for
    the lock, and [e_wait] gives the objects at the last wake-up of each wait.
    The walk over the results of the drivers ([controller_loop]) moves forward
    in every round, so that one round per argument is enough fuel, which
    [request_defined] uses: no request runs out of it.
    [uint32_t] and [uint8_t] values wrap as in the code.
    The search for an identifier has one more round than there are sessions,
    and every round but the last meets one.
    The table of types of keys has five levels below the root, and traversals
    of the cache have fuel 6 ([levels]); [cache_refines] shows it to be enough.
    The loops over a vector of the cache ([commit_loop], [fetch_children],
    [audit_entries]) have one round per element.
    The searches through parents of versions have one more round than there are
    versions with a parent ([rounds]); [find_version_diverges] shows that one
    that has not ended then never does.
    The number of threads is bounded only by the range of the waiter counter;
    those of UPLL ([UpllLock]) are not bounded.  A walk over the controllers has
    as many rounds as there are controllers ([walk_meets_all]).
    Three loops of UPPL may go on with the same key ([old_deleted],
    [old_updated], [boundary_status]) and have fuel; twelve times the largest
    number of modified rows is enough where the keys can be read
    ([uppl_follows_phases]), and where not no fuel is ([unreadable_version_hangs],
    [unreadable_boundary_hangs]).

    ** Not modelled

    Logging, memory allocation failures, and the assertions, which a release
    build compiles out.  The IPC library and the other daemons are parameters.
    The registration of handlers with the event system ([init], [fini]) is
    glue.  Requests to a participant are served one at a time, which the
    coordinator sees to and the participant does not: it sets [sess_] without a
    lock; the request of TC is copied, not shared.  That a wait for a mutex may
    not end is part of the lock's transition system, but not of the operations
    of TC.  In the session manager a
    fixed array of characters is the string before its terminator, passwords
    are not erased from buffers, and the [Fini] of users and of the enable mode
    do nothing.  Printing of the cache is left out, and the values of its
    elements are opaque but for the VLAN that is part of a name.  Of the drivers
    two-phase votes are modelled but not part of the refinement, which is for
    drivers that execute at the vote, as the OpenDaylight driver does; errors
    of [post] of timers and events are ignored as in the code.  Of the
    capabilities the parser of the files, the dumps for debugging and the lock,
    which is held for the whole of each call, are left out.  Of UPLL
    the managers of the types of keys and the access to the database are
    parameters, and the mutex of the batch mode, which is always the last one
    that is locked, is left out; calls of the coordinator come one at a time.  Of UPPL the tables of
    the types of keys, audits, imports and the events of the drivers are left
    out; rows are opaque but for the type of a controller, and the values that
    are freed or leak are not followed.  The database layer, the drivers' REST
    code, the C core and the Java API are outside the plan. *)

From stdpp Require Export base gmap sets list strings numbers.

(** ** Machine words

    The sources use [uint32_t] counters; a value is a [Z] and every increment
    or decrement the code performs is written with its wrap-around. *)

Definition UINT32_MAX : Z := 4294967295.
Definition UINT32_MOD : Z := 4294967296.

Definition is_u32 (z : Z) : Prop := (0 <= z <= UINT32_MAX)%Z.

(** [++x] on a [uint32_t]. *)
Definition u32_inc (z : Z) : Z := ((z + 1) mod UINT32_MOD)%Z.

(** [--x] on a [uint32_t]. *)
Definition u32_dec (z : Z) : Z := ((z - 1) mod UINT32_MOD)%Z.

(** Conversion of an integer to [uint8_t] (the type of the IPC error codes
    and of the small fields of the messages). *)
Definition u8 (z : Z) : Z := (z mod 256)%Z.

(** ** Notations and automation *)

Declare Scope vtn_scope.
Delimit Scope vtn_scope with vtn.
Open Scope vtn_scope.

(** Boolean equality test of the C++ code, at any type with decidable
    equality. *)
Notation "x ==? y" := (bool_decide (x = y)) (at level 70, no associativity) : vtn_scope.
Notation "x !=? y" := (negb (bool_decide (x = y))) (at level 70, no associativity) : vtn_scope.

Create HintDb vtn.

Ltac ulia := unfold is_u32, UINT32_MAX, UINT32_MOD in *; lia.

(** Turn the boolean tests of the code in the context into propositions. *)
Ltac bool_norm :=
  repeat match goal with
  | H : bool_decide _ = true |- _ => apply bool_decide_eq_true_1 in H
  | H : bool_decide _ = false |- _ => apply bool_decide_eq_false_1 in H
  | H : negb _ = true |- _ => apply negb_true_iff in H
  | H : negb _ = false |- _ => apply negb_false_iff in H
  | H : _ && _ = true |- _ => apply andb_true_iff in H; destruct H
  | H : _ || _ = false |- _ => apply orb_false_iff in H; destruct H
  | H : _ && _ = false |- _ => apply andb_false_iff in H
  | H : _ || _ = true |- _ => apply orb_true_iff in H
  end.

(** Case split on the innermost scrutinee of an [if] or [match] of the goal. *)
Ltac split_match :=
  match goal with
  | |- context [match ?x with _ => _ end] =>
      lazymatch x with
      | context [match _ with _ => _ end] => fail
      | _ => let E := fresh "E" in destruct x eqn:E
      end
  end.

(** The same in a hypothesis. *)
Ltac split_match_in H :=
  match type of H with
  | context [match ?x with _ => _ end] =>
      lazymatch x with
      | context [match _ with _ => _ end] => fail
      | _ => let E := fresh "E" in destruct x eqn:E
      end
  end.

(** ** Generic lemmas *)

Lemma u32_inc_small z : (0 <= z < UINT32_MAX)%Z -> u32_inc z = (z + 1)%Z.
Proof. intros H. unfold u32_inc. apply Z.mod_small. ulia. Qed.

Lemma u32_dec_small z : (0 < z <= UINT32_MAX)%Z -> u32_dec z = (z - 1)%Z.
Proof. intros H. unfold u32_dec. apply Z.mod_small. ulia. Qed.

Lemma u32_inc_u32 z : is_u32 (u32_inc z).
Proof.
  unfold u32_inc. pose proof (Z.mod_pos_bound (z + 1) UINT32_MOD) as H.
  ulia.
Qed.

Lemma u32_dec_u32 z : is_u32 (u32_dec z).
Proof.
  unfold u32_dec. pose proof (Z.mod_pos_bound (z - 1) UINT32_MOD) as H.
  ulia.
Qed.

#[export] Hint Resolve u32_inc_u32 u32_dec_u32 : vtn.

(** Invariants over a step relation: what holds initially and is preserved
    by every step holds of every reachable state. *)
Lemma rtc_invariant {A} (R : relation A) (P : A -> Prop) (x y : A) :
  P x -> (forall a b, P a -> R a b -> P b) -> rtc R x y -> P y.
Proof. intros Hx Hstep Hr. induction Hr; eauto. Qed.

(** Size of a finite set after inserting or removing an element. *)
Lemma size_insert_new (x : Z) (s : gset Z) :
  x ∉ s -> size ({[x]} ∪ s) = S (size s).
Proof. intros H. rewrite size_union by set_solver. by rewrite size_singleton. Qed.

Lemma size_remove_old (x : Z) (s : gset Z) :
  x ∈ s -> size s = S (size (s ∖ {[x]})).
Proof.
  intros H. rewrite <- (size_insert_new x (s ∖ {[x]})) by set_solver.
  f_equal. rewrite <- union_difference_L; set_solver.
Qed.
