(* ===== verification/TcTypes.v ===== *)
(** * Data types of the transaction coordinator

    The enumerations of [modules/tc/include/tc_module_data.hh],
    [modules/tc/include/tc_lock.hh], [modules/tc/include/tcmsg.hh],
    [include/unc/tc/external/tc_services.h], [include/uncxx/tclib/tclib_defs.hh]
    and [include/unc/keytype.h], with decidable equality.  An enumeration whose
    values the code obtains by casting an integer received over IPC
    ([TcServiceType]) is kept as an integer with named constants, because a
    value outside the enumeration can flow through the code. *)

From S2P Require Import Prelude.

Local Open Scope Z_scope.

Inductive TcState := TC_INIT | TC_ACT | TC_SBY | TC_STOP | TC_ACT_FAIL.

Inductive TcOperation :=
| TC_OPERATION_NONE
| TC_ACQUIRE_CONFIG_SESSION
| TC_RELEASE_CONFIG_SESSION
| TC_FORCE_ACQUIRE_CONFIG_SESSION
| TC_ACQUIRE_READ_SESSION
| TC_RELEASE_READ_SESSION
| TC_ACQUIRE_WRITE_SESSION
| TC_RELEASE_WRITE_SESSION
| TC_AUTO_SAVE_ENABLE
| TC_AUTO_SAVE_DISABLE
| TC_AUTO_SAVE_GET
| TC_ACQUIRE_READ_LOCK_FOR_STATE_TRANSITION
| TC_RELEASE_READ_LOCK_FOR_STATE_TRANSITION.

Inductive TcWriteOperation :=
| TC_WRITE_NONE
| TC_AUDIT_USER
| TC_AUDIT_DRIVER
| TC_COMMIT
| TC_ABORT_CANDIDATE_CONFIG
| TC_CLEAR_STARTUP_CONFIG
| TC_SAVE_STARTUP_CONFIG.

Inductive TcNotifyOperation := TC_NOTIFY_NONE | TC_NOTIFY_ACQUIRE | TC_NOTIFY_RELEASE.

Inductive TcSessionOperationProgress :=
| TC_NO_OPERATION_PROGRESS
| TC_CONFIG_COMMIT_PROGRESS
| TC_WRITE_AUDIT_USER_PROGRESS
| TC_WRITE_AUDIT_DRIVER_PROGRESS
| TC_CONFIG_NOTIFY_ACQUIRE_PROGRESS
| TC_CONFIG_NOTIFY_RELEASE_PROGRESS
| TC_CONFIG_NO_NOTIFY_PROGRESS
| TC_READ_PROGRESS
| TC_WRITE_ABORT_CANDIDATE_CONFIG_PROGRESS
| TC_WRITE_SAVE_STARTUP_CONFIG_PROGRESS
| TC_WRITE_CLEAR_STARTUP_CONFIG_PROGRESS
| TC_INVALID_OPERATION_PROGRESS.

Inductive TcLockRet :=
| TC_LOCK_SUCCESS
| TC_LOCK_NO_CONFIG_SESSION_EXIST
| TC_LOCK_NOT_ACQUIRED
| TC_LOCK_INVALID_CONFIG_ID
| TC_LOCK_INVALID_OPERATION
| TC_LOCK_INVALID_SESSION_ID
| TC_LOCK_INVALID_UNC_STATE
| TC_LOCK_ALREADY_ACQUIRED
| TC_LOCK_BUSY
| TC_LOCK_OPERATION_NOT_ALLOWED
| TC_LOCK_INVALID_PARAMS
| TC_LOCK_FAILURE.

Inductive TcDaemonName :=
| TC_NONE | TC_UPLL | TC_UPPL
| TC_DRV_OPENFLOW | TC_DRV_OVERLAY | TC_DRV_POLC | TC_DRV_ODL.

(** Return values of the message layer. *)
Inductive TcOperRet :=
| TCOPER_RET_SUCCESS
| TCOPER_RET_FAILURE
| TCOPER_RET_FATAL
| TCOPER_RET_ABORT
| TCOPER_RET_NO_DRIVER
| TCOPER_RET_UNKNOWN
| TCOPER_RET_SIMPLIFIED_AUDIT.

Inductive TcUtilRet := TCUTIL_RET_SUCCESS | TCUTIL_RET_FAILURE | TCUTIL_RET_FATAL.

(** Status values returned to the client, with the values the response
    message carries. *)
Inductive TcOperStatus :=
| TC_OPER_FAILURE
| TC_OPER_INVALID_INPUT
| TC_OPER_SUCCESS
| TC_CONFIG_NOT_PRESENT
| TC_CONFIG_PRESENT
| TC_STATE_CHANGED
| TC_INVALID_CONFIG_ID
| TC_INVALID_OPERATION_TYPE
| TC_INVALID_SESSION_ID
| TC_INVALID_STATE
| TC_OPER_ABORT
| TC_SESSION_ALREADY_ACTIVE
| TC_SESSION_NOT_ACTIVE
| TC_SYSTEM_BUSY
| TC_SYSTEM_FAILURE
| TC_OPER_FORBIDDEN
| TC_OPER_DRIVER_NOT_PRESENT
| TC_OPER_SIMPLIFIED_AUDIT.

Definition TcOperStatus_value (s : TcOperStatus) : Z :=
  match s with
  | TC_OPER_FAILURE => -11
  | TC_OPER_INVALID_INPUT => -10
  | TC_OPER_SUCCESS => 0
  | TC_CONFIG_NOT_PRESENT => 100
  | TC_CONFIG_PRESENT => 101
  | TC_STATE_CHANGED => 102
  | TC_INVALID_CONFIG_ID => 103
  | TC_INVALID_OPERATION_TYPE => 104
  | TC_INVALID_SESSION_ID => 105
  | TC_INVALID_STATE => 106
  | TC_OPER_ABORT => 107
  | TC_SESSION_ALREADY_ACTIVE => 108
  | TC_SESSION_NOT_ACTIVE => 109
  | TC_SYSTEM_BUSY => 110
  | TC_SYSTEM_FAILURE => 111
  | TC_OPER_FORBIDDEN => 112
  | TC_OPER_DRIVER_NOT_PRESENT => 200
  | TC_OPER_SIMPLIFIED_AUDIT => 201
  end.

(** [TcServiceType], an enumeration the code casts an arbitrary [uint32_t]
    to. *)
Definition TcServiceType := Z.
Definition TC_OP_CONFIG_ACQUIRE : TcServiceType := 0.
Definition TC_OP_CONFIG_RELEASE : TcServiceType := 1.
Definition TC_OP_CONFIG_ACQUIRE_TIMED : TcServiceType := 2.
Definition TC_OP_CONFIG_ACQUIRE_FORCE : TcServiceType := 3.
Definition TC_OP_CANDIDATE_COMMIT : TcServiceType := 4.
Definition TC_OP_CANDIDATE_ABORT : TcServiceType := 5.
Definition TC_OP_RUNNING_SAVE : TcServiceType := 6.
Definition TC_OP_CLEAR_STARTUP : TcServiceType := 7.
Definition TC_OP_READ_ACQUIRE : TcServiceType := 8.
Definition TC_OP_READ_RELEASE : TcServiceType := 9.
Definition TC_OP_AUTOSAVE_GET : TcServiceType := 10.
Definition TC_OP_AUTOSAVE_ENABLE : TcServiceType := 11.
Definition TC_OP_AUTOSAVE_DISABLE : TcServiceType := 12.
Definition TC_OP_USER_AUDIT : TcServiceType := 13.
Definition TC_OP_DRIVER_AUDIT : TcServiceType := 14.
Definition TC_OP_INVALID : TcServiceType := 15.

(** [unc_keytype_datatype_t] and [unc_keytype_ctrtype_t], also cast from
    integers (a database column, an IPC field). *)
Definition UNC_DT_INVALID : Z := 0.
Definition UNC_DT_STATE : Z := 1.
Definition UNC_DT_CANDIDATE : Z := 2.
Definition UNC_DT_RUNNING : Z := 3.
Definition UNC_DT_STARTUP : Z := 4.
Definition UNC_DT_IMPORT : Z := 5.
Definition UNC_DT_AUDIT : Z := 6.

Definition UNC_CT_UNKNOWN : Z := 0.
Definition UNC_CT_PFC : Z := 1.
Definition UNC_CT_VNP : Z := 2.
Definition UNC_CT_POLC : Z := 3.
Definition UNC_CT_VAN : Z := 4.
Definition UNC_CT_ODC : Z := 5.

(** Reserved session identifiers of [include/unc/usess_ipc.h]. *)
Definition USESS_ID_DB_MGMT : Z := 128.
Definition USESS_ID_LAUNCHER : Z := 129.

(** Message types sent to the TC library of the daemons. *)
Inductive TcMsgOperType :=
| MSG_NONE
| MSG_NOTIFY_CONFIGID
| MSG_SETUP
| MSG_SETUP_COMPLETE
| MSG_COMMIT_TRANS_START
| MSG_COMMIT_VOTE
| MSG_COMMIT_DRIVER_VOTE
| MSG_COMMIT_VOTE_DRIVER_RESULT
| MSG_COMMIT_GLOBAL
| MSG_COMMIT_DRIVER_GLOBAL
| MSG_COMMIT_GLOBAL_DRIVER_RESULT
| MSG_COMMIT_TRANS_END
| MSG_AUDIT_START
| MSG_AUDIT_TRANS_START
| MSG_AUDIT_VOTE
| MSG_AUDIT_DRIVER_VOTE
| MSG_AUDIT_VOTE_DRIVER_RESULT
| MSG_AUDIT_GLOBAL
| MSG_AUDIT_DRIVER_GLOBAL
| MSG_AUDIT_GLOBAL_DRIVER_RESULT
| MSG_AUDIT_TRANS_END
| MSG_AUDIT_END
| MSG_SAVE_CONFIG
| MSG_CLEAR_CONFIG
| MSG_ABORT_CANDIDATE
| MSG_AUDITDB
| MSG_COMMIT_ABORT
| MSG_AUDIT_ABORT
| MSG_GET_DRIVERID
| MSG_CONTROLLER_TYPE
| MSG_AUTOSAVE_ENABLE
| MSG_AUTOSAVE_DISABLE
| MSG_MAX.

(** The numeric value a message type has on the wire. *)
Definition TcMsgOperType_value (m : TcMsgOperType) : Z :=
  match m with
  | MSG_NONE => 0 | MSG_NOTIFY_CONFIGID => 1 | MSG_SETUP => 2
  | MSG_SETUP_COMPLETE => 3 | MSG_COMMIT_TRANS_START => 4
  | MSG_COMMIT_VOTE => 5 | MSG_COMMIT_DRIVER_VOTE => 6
  | MSG_COMMIT_VOTE_DRIVER_RESULT => 7 | MSG_COMMIT_GLOBAL => 8
  | MSG_COMMIT_DRIVER_GLOBAL => 9 | MSG_COMMIT_GLOBAL_DRIVER_RESULT => 10
  | MSG_COMMIT_TRANS_END => 11 | MSG_AUDIT_START => 12
  | MSG_AUDIT_TRANS_START => 13 | MSG_AUDIT_VOTE => 14
  | MSG_AUDIT_DRIVER_VOTE => 15 | MSG_AUDIT_VOTE_DRIVER_RESULT => 16
  | MSG_AUDIT_GLOBAL => 17 | MSG_AUDIT_DRIVER_GLOBAL => 18
  | MSG_AUDIT_GLOBAL_DRIVER_RESULT => 19 | MSG_AUDIT_TRANS_END => 20
  | MSG_AUDIT_END => 21 | MSG_SAVE_CONFIG => 22 | MSG_CLEAR_CONFIG => 23
  | MSG_ABORT_CANDIDATE => 24 | MSG_AUDITDB => 25 | MSG_COMMIT_ABORT => 26
  | MSG_AUDIT_ABORT => 27 | MSG_GET_DRIVERID => 28 | MSG_CONTROLLER_TYPE => 29
  | MSG_AUTOSAVE_ENABLE => 30 | MSG_AUTOSAVE_DISABLE => 31 | MSG_MAX => 32
  end.

(** Services of the TC library. *)
Inductive TcLibServiceId :=
| TCLIB_NOTIFY_SESSION_CONFIG
| TCLIB_COMMIT_TRANSACTION
| TCLIB_COMMIT_DRV_VOTE_GLOBAL
| TCLIB_COMMIT_DRV_RESULT
| TCLIB_COMMIT_GLOBAL_ABORT
| TCLIB_AUDIT_TRANSACTION
| TCLIB_AUDIT_DRV_VOTE_GLOBAL
| TCLIB_AUDIT_DRV_RESULT
| TCLIB_AUDIT_GLOBAL_ABORT
| TCLIB_SAVE_CONFIG
| TCLIB_CLEAR_STARTUP
| TCLIB_USER_ABORT
| TCLIB_SETUP
| TCLIB_SETUP_COMPLETE
| TCLIB_GET_DRIVERID
| TCLIB_AUDIT_CONFIG
| TCLIB_CONTROLLER_TYPE
| TCLIB_AUTOSAVE_ENABLE
| TCLIB_AUTOSAVE_DISABLE.

(** Response values of the TC library ([TcCommonRet]); a response is a
    [pfc_ipcresp_t], an integer. *)
Definition TC_SUCCESS : Z := 0.
Definition TC_FAILURE : Z := 1.
Definition TC_SIMPLIFIED_AUDIT : Z := 2.

Inductive TcTransEndResult := TRANS_END_FAILURE | TRANS_END_SUCCESS.
Inductive TcAuditResult := TC_AUDIT_FAILURE | TC_AUDIT_SUCCESS | TC_SIMPLIFIED_AUDIT_SUCCESS.

Definition TcTransEndResult_value (r : TcTransEndResult) : Z :=
  match r with TRANS_END_FAILURE => 0 | TRANS_END_SUCCESS => 1 end.

#[export] Instance TcState_eq_dec : EqDecision TcState.
Proof. solve_decision. Defined.
#[export] Instance TcOperation_eq_dec : EqDecision TcOperation.
Proof. solve_decision. Defined.
#[export] Instance TcWriteOperation_eq_dec : EqDecision TcWriteOperation.
Proof. solve_decision. Defined.
#[export] Instance TcNotifyOperation_eq_dec : EqDecision TcNotifyOperation.
Proof. solve_decision. Defined.
#[export] Instance TcLockRet_eq_dec : EqDecision TcLockRet.
Proof. solve_decision. Defined.
#[export] Instance TcDaemonName_eq_dec : EqDecision TcDaemonName.
Proof. solve_decision. Defined.
#[export] Instance TcOperRet_eq_dec : EqDecision TcOperRet.
Proof. solve_decision. Defined.
#[export] Instance TcUtilRet_eq_dec : EqDecision TcUtilRet.
Proof. solve_decision. Defined.
#[export] Instance TcOperStatus_eq_dec : EqDecision TcOperStatus.
Proof. solve_decision. Defined.
#[export] Instance TcMsgOperType_eq_dec : EqDecision TcMsgOperType.
Proof. solve_decision. Defined.
#[export] Instance TcLibServiceId_eq_dec : EqDecision TcLibServiceId.
Proof. solve_decision. Defined.
#[export] Instance TcTransEndResult_eq_dec : EqDecision TcTransEndResult.
Proof. solve_decision. Defined.
#[export] Instance TcAuditResult_eq_dec : EqDecision TcAuditResult.
Proof. solve_decision. Defined.

(** Daemon names are the keys of the channel map ([std::map], iterated in
    the order of the enumeration). *)
#[export] Instance TcDaemonName_countable : Countable TcDaemonName.
Proof.
  refine (inj_countable'
    (fun d => match d with
       | TC_NONE => 0 | TC_UPLL => 1 | TC_UPPL => 2 | TC_DRV_OPENFLOW => 3
       | TC_DRV_OVERLAY => 4 | TC_DRV_POLC => 5 | TC_DRV_ODL => 6 end)%nat
    (fun n => match n with
       | 0 => TC_NONE | 1 => TC_UPLL | 2 => TC_UPPL | 3 => TC_DRV_OPENFLOW
       | 4 => TC_DRV_OVERLAY | 5 => TC_DRV_POLC | _ => TC_DRV_ODL end)%nat _).
  by intros [].
Defined.
