(* ===== verification/TcRwLock.v ===== *)
(** * The read/write lock of the transaction coordinator

    [TcReadWriteLock] of [modules/tc/include/tc_module_data.hh]: a counting
    read lock and an exclusive write lock that are either one lock (field
    [rw_owner]) or, when [simultaneous_read_write_allowed] is configured, two
    (fields [r_owner] and [w_owner]), where only the reads of the database
    manager and of the launcher exclude writers.

    Every method runs with the global mutex held, so each is a function on the
    lock's state.  The condition variable is modelled by the number of
    broadcasts issued on it.  [PFC_ASSERT] is compiled out of release builds:
    the methods do not test it, and the assertions are proved separately on
    the reachable states (file TcLockProps). *)

From S2P Require Import Prelude TcTypes.

Local Open Scope Z_scope.

Record TcReadWriteLock := mkRw {
  rw_owner : Z;
  r_owner : Z;
  r_db_mgmt_session : bool;
  r_launcher_session : bool;
  w_owner : Z;
  r_waiter : Z;
  w_session_id : Z;
  w_waiter : Z;
  w_operation : TcWriteOperation;
  db_mgmt_session_id_ : Z;
  launcher_session_id_ : Z;
  is_simultaneous_read_write_allowed_ : bool;
  rw_broadcasts : Z    (* broadcasts issued on the condition variable *)
}.

Definition R_READERS_MAX : Z := UINT32_MAX - 1.
Definition RW_OWNER_WRLOCKED : Z := UINT32_MAX.

(** The constructor's initial values. *)
Definition rw_new : TcReadWriteLock :=
  mkRw 0 0 false false 0 0 0 0 TC_WRITE_NONE 0 0 true 0.

Section Setters.

Context (l : TcReadWriteLock).

Definition set_rw_owner (v : Z) : TcReadWriteLock :=
  mkRw v (r_owner l) (r_db_mgmt_session l) (r_launcher_session l) (w_owner l)
    (r_waiter l) (w_session_id l) (w_waiter l) (w_operation l)
    (db_mgmt_session_id_ l) (launcher_session_id_ l)
    (is_simultaneous_read_write_allowed_ l) (rw_broadcasts l).

Definition set_r_owner (v : Z) : TcReadWriteLock :=
  mkRw (rw_owner l) v (r_db_mgmt_session l) (r_launcher_session l) (w_owner l)
    (r_waiter l) (w_session_id l) (w_waiter l) (w_operation l)
    (db_mgmt_session_id_ l) (launcher_session_id_ l)
    (is_simultaneous_read_write_allowed_ l) (rw_broadcasts l).

Definition set_r_flags (dbm lnc : bool) : TcReadWriteLock :=
  mkRw (rw_owner l) (r_owner l) dbm lnc (w_owner l)
    (r_waiter l) (w_session_id l) (w_waiter l) (w_operation l)
    (db_mgmt_session_id_ l) (launcher_session_id_ l)
    (is_simultaneous_read_write_allowed_ l) (rw_broadcasts l).

Definition set_w_owner (v : Z) : TcReadWriteLock :=
  mkRw (rw_owner l) (r_owner l) (r_db_mgmt_session l) (r_launcher_session l) v
    (r_waiter l) (w_session_id l) (w_waiter l) (w_operation l)
    (db_mgmt_session_id_ l) (launcher_session_id_ l)
    (is_simultaneous_read_write_allowed_ l) (rw_broadcasts l).

Definition set_waiters (r w : Z) : TcReadWriteLock :=
  mkRw (rw_owner l) (r_owner l) (r_db_mgmt_session l) (r_launcher_session l)
    (w_owner l) r (w_session_id l) w (w_operation l)
    (db_mgmt_session_id_ l) (launcher_session_id_ l)
    (is_simultaneous_read_write_allowed_ l) (rw_broadcasts l).

Definition set_writer_info (sid : Z) (op : TcWriteOperation) : TcReadWriteLock :=
  mkRw (rw_owner l) (r_owner l) (r_db_mgmt_session l) (r_launcher_session l)
    (w_owner l) (r_waiter l) sid (w_waiter l) op
    (db_mgmt_session_id_ l) (launcher_session_id_ l)
    (is_simultaneous_read_write_allowed_ l) (rw_broadcasts l).

Definition set_broadcasts (v : Z) : TcReadWriteLock :=
  mkRw (rw_owner l) (r_owner l) (r_db_mgmt_session l) (r_launcher_session l)
    (w_owner l) (r_waiter l) (w_session_id l) (w_waiter l) (w_operation l)
    (db_mgmt_session_id_ l) (launcher_session_id_ l)
    (is_simultaneous_read_write_allowed_ l) v.

End Setters.

(** [TcReadWriteLock::init]. *)
Definition rw_init (db_mgmt_sess_id launcher_sess_id : Z) (is_allowed : bool)
    (l : TcReadWriteLock) : TcReadWriteLock :=
  mkRw (rw_owner l) (r_owner l) (r_db_mgmt_session l) (r_launcher_session l)
    (w_owner l) (r_waiter l) (w_session_id l) (w_waiter l) (w_operation l)
    db_mgmt_sess_id launcher_sess_id is_allowed (rw_broadcasts l).

(** [isReadAlwaysSucess] (the spelling of the source). *)
Definition isReadAlwaysSucess (session_id : Z) (l : TcReadWriteLock) : bool :=
  (session_id !=? db_mgmt_session_id_ l) &&
  (session_id !=? launcher_session_id_ l) &&
  is_simultaneous_read_write_allowed_ l.

Definition isWaiting (l : TcReadWriteLock) : bool :=
  (r_waiter l !=? 0) || (w_waiter l !=? 0).

Definition wakeUp (l : TcReadWriteLock) : TcReadWriteLock :=
  if isWaiting l then set_broadcasts l (rw_broadcasts l + 1) else l.

(** [waitForRead] and [waitForWrite] increment a waiter count, release the
    mutex in [rw_cond.wait], and decrement the count when the thread has the
    mutex again: the two halves. *)
Definition waitForRead_enter (l : TcReadWriteLock) : TcReadWriteLock :=
  set_waiters l (u32_inc (r_waiter l)) (w_waiter l).
Definition waitForRead_leave (l : TcReadWriteLock) : TcReadWriteLock :=
  set_waiters l (u32_dec (r_waiter l)) (w_waiter l).
Definition waitForWrite_enter (l : TcReadWriteLock) : TcReadWriteLock :=
  set_waiters l (r_waiter l) (u32_inc (w_waiter l)).
Definition waitForWrite_leave (l : TcReadWriteLock) : TcReadWriteLock :=
  set_waiters l (r_waiter l) (u32_dec (w_waiter l)).

Definition canReadLock (session_id : Z) (l : TcReadWriteLock) : bool :=
  if is_simultaneous_read_write_allowed_ l then
    if (session_id ==? db_mgmt_session_id_ l) ||
       (session_id ==? launcher_session_id_ l)
    then (w_owner l !=? RW_OWNER_WRLOCKED) && (w_waiter l ==? 0)
    else true
  else (rw_owner l !=? RW_OWNER_WRLOCKED) && (w_waiter l ==? 0).

Definition setReader (session_id : Z) (l : TcReadWriteLock) : TcReadWriteLock :=
  if is_simultaneous_read_write_allowed_ l then
    let l1 := set_r_owner l (u32_inc (r_owner l)) in
    if session_id ==? db_mgmt_session_id_ l1
    then set_r_flags l1 true (r_launcher_session l1)
    else if session_id ==? launcher_session_id_ l1
    then set_r_flags l1 (r_db_mgmt_session l1) true
    else l1
  else set_rw_owner l (u32_inc (rw_owner l)).

Definition canWriteLock (l : TcReadWriteLock) : bool :=
  if is_simultaneous_read_write_allowed_ l then
    (r_db_mgmt_session l ==? false) && (r_launcher_session l ==? false) &&
    (w_owner l ==? 0)
  else rw_owner l ==? 0.

Definition clearWriter (l : TcReadWriteLock) : TcReadWriteLock :=
  set_writer_info l 0 TC_WRITE_NONE.

Definition setWriter (session_id : Z) (operation : TcWriteOperation)
    (l : TcReadWriteLock) : TcReadWriteLock :=
  let l1 := if is_simultaneous_read_write_allowed_ l
            then set_w_owner l RW_OWNER_WRLOCKED
            else set_rw_owner l RW_OWNER_WRLOCKED in
  set_writer_info l1 session_id operation.

Definition isWriteHeld (l : TcReadWriteLock) : bool :=
  if is_simultaneous_read_write_allowed_ l
  then w_owner l ==? RW_OWNER_WRLOCKED
  else rw_owner l ==? RW_OWNER_WRLOCKED.

(** The overload with a session argument. *)
Definition isWriteHeldBy (session_id : Z) (l : TcReadWriteLock) : bool :=
  isWriteHeld l && (w_session_id l ==? session_id).

(** [tryLock(session_id)]: the read lock. *)
Definition tryReadLock (session_id : Z) (l : TcReadWriteLock) : bool * TcReadWriteLock :=
  if canReadLock session_id l then (true, setReader session_id l) else (false, l).

(** [tryLock(session_id, operation)]: the write lock. *)
Definition tryWriteLock (session_id : Z) (operation : TcWriteOperation)
    (l : TcReadWriteLock) : bool * TcReadWriteLock :=
  if canWriteLock l then (true, setWriter session_id operation l) else (false, l).

(** [unlock(session_id)]: the read lock. *)
Definition unlockRead (session_id : Z) (l : TcReadWriteLock) : TcReadWriteLock :=
  if is_simultaneous_read_write_allowed_ l then
    let l1 := if session_id ==? db_mgmt_session_id_ l
              then set_r_flags l false (r_launcher_session l)
              else if session_id ==? launcher_session_id_ l
              then set_r_flags l (r_db_mgmt_session l) false
              else l in
    let l2 := set_r_owner l1 (u32_dec (r_owner l1)) in
    if r_owner l2 ==? 0 then wakeUp l2 else l2
  else
    let l1 := set_rw_owner l (u32_dec (rw_owner l)) in
    if rw_owner l1 ==? 0 then wakeUp l1 else l1.

(** What [unlock(session_id, operation)] does once the owner is checked. *)
Definition write_released (l : TcReadWriteLock) : TcReadWriteLock :=
  wakeUp (set_w_owner (set_rw_owner (clearWriter l) 0) 0).

(** [unlock(session_id, operation)]: the write lock. *)
Definition unlockWrite (session_id : Z) (operation : TcWriteOperation)
    (l : TcReadWriteLock) : bool * TcReadWriteLock :=
  if negb (isWriteHeldBy session_id l) || (w_operation l !=? operation)
  then (false, l)
  else (true, write_released l).

(** ** Counting readers

    [rw_counts n l]: the lock's own counter agrees with [n] read owners, and a
    held write lock excludes what its mode says it excludes. *)

Definition rw_counts (n : Z) (l : TcReadWriteLock) : Prop :=
  if is_simultaneous_read_write_allowed_ l then
    r_owner l = n /\
    (w_owner l = 0 \/
     (w_owner l = RW_OWNER_WRLOCKED /\ r_db_mgmt_session l = false /\
      r_launcher_session l = false))
  else
    (rw_owner l = RW_OWNER_WRLOCKED /\ n = 0) \/ (rw_owner l = n /\ n <> RW_OWNER_WRLOCKED).

(** The privileged sessions the module configures. *)
Definition rw_ids (l : TcReadWriteLock) : Prop :=
  db_mgmt_session_id_ l = USESS_ID_DB_MGMT /\ launcher_session_id_ l = USESS_ID_LAUNCHER.

(** A free write lock has no owner recorded. *)
Definition rw_free_ok (l : TcReadWriteLock) : Prop :=
  isWriteHeld l = false -> w_operation l = TC_WRITE_NONE /\ w_session_id l = 0.

Ltac unfold_rw :=
  unfold rw_counts, rw_ids, rw_free_ok, unlockRead, unlockWrite, setReader, setWriter,
    canReadLock, canWriteLock, isWriteHeldBy, isWriteHeld, wakeUp, isWaiting,
    clearWriter, waitForRead_enter, waitForRead_leave, waitForWrite_enter,
    waitForWrite_leave, set_rw_owner, set_r_owner, set_r_flags, set_w_owner,
    set_waiters, set_writer_info, set_broadcasts in *.

Ltac rlia :=
  unfold R_READERS_MAX, RW_OWNER_WRLOCKED, is_u32,
    UINT32_MAX, UINT32_MOD, USESS_ID_DB_MGMT, USESS_ID_LAUNCHER in *; simpl in *; lia.

(** Destruct the lock and the boolean tests of one method. *)
Ltac rw_cases l :=
  destruct l as [rwo ro dbm lnc wo rw wsid ww wop dbid lid sim bc];
  unfold_rw; destruct sim; simpl in *;
  repeat (split_match; simpl in * ); bool_norm.

Section RwFacts.

Context (l : TcReadWriteLock).

Lemma setReader_counts n sid :
  canReadLock sid l = true -> rw_ids l -> 0 <= n < R_READERS_MAX ->
  rw_counts n l -> rw_counts (n + 1) (setReader sid l).
Proof.
  intros Hc [E1 E2] Hn Hl. rw_cases l; subst;
    try (rewrite u32_inc_small by rlia); try (intuition (first [done | rlia])).
  all: naive_solver rlia.
Qed.

Lemma unlockRead_counts n sid :
  0 < n <= R_READERS_MAX -> rw_counts n l -> rw_counts (n - 1) (unlockRead sid l).
Proof.
  intros Hn Hl. rw_cases l; subst; intuition subst;
    try (rewrite u32_dec_small by rlia); intuition (first [done | rlia]).
Qed.

Lemma setWriter_counts n sid op :
  canWriteLock l = true -> 0 <= n -> rw_counts n l -> rw_counts n (setWriter sid op l).
Proof. intros Hc Hn Hl. rw_cases l; subst; intuition (first [done | rlia]). Qed.

Lemma write_released_counts n :
  isWriteHeld l = true -> 0 <= n <= R_READERS_MAX ->
  rw_counts n l -> rw_counts n (write_released l).
Proof.
  intros Hh Hn Hl. unfold write_released. rw_cases l; intuition (first [done | rlia]).
Qed.

Lemma set_waiters_counts n r w : rw_counts n l -> rw_counts n (set_waiters l r w).
Proof. done. Qed.

Lemma wakeUp_counts n : rw_counts n l -> rw_counts n (wakeUp l).
Proof. unfold wakeUp. by destruct (isWaiting l). Qed.

(** Only acquiring and releasing the write lock change whether it is held. *)
Lemma setReader_held n sid :
  canReadLock sid l = true -> 0 <= n < R_READERS_MAX -> rw_counts n l ->
  isWriteHeld (setReader sid l) = isWriteHeld l.
Proof.
  intros Hc Hn Hl. rw_cases l; try done; subst; intuition subst;
    try (rewrite u32_inc_small by rlia); repeat case_bool_decide; try done; rlia.
Qed.

Lemma unlockRead_held n sid :
  0 < n <= R_READERS_MAX -> rw_counts n l ->
  isWriteHeld (unlockRead sid l) = isWriteHeld l.
Proof.
  intros Hn Hl. rw_cases l; try done; subst; intuition subst;
    repeat match goal with H : context [u32_dec _] |- _ =>
      rewrite u32_dec_small in H by rlia end;
    try (rewrite u32_dec_small by rlia); repeat case_bool_decide; try done; rlia.
Qed.

Lemma setWriter_held sid op : isWriteHeld (setWriter sid op l) = true.
Proof. rw_cases l; try done; by apply bool_decide_eq_true_2. Qed.

Lemma write_released_held : isWriteHeld (write_released l) = false.
Proof. unfold write_released. rw_cases l; done. Qed.

Lemma wakeUp_held : isWriteHeld (wakeUp l) = isWriteHeld l.
Proof. unfold wakeUp. by destruct (isWaiting l). Qed.

(** Who the writer is, and the configured sessions, are unchanged by reads. *)
Lemma setReader_writer sid :
  w_operation (setReader sid l) = w_operation l /\
  w_session_id (setReader sid l) = w_session_id l.
Proof. rw_cases l; done. Qed.

Lemma unlockRead_writer sid :
  w_operation (unlockRead sid l) = w_operation l /\
  w_session_id (unlockRead sid l) = w_session_id l.
Proof. rw_cases l; done. Qed.

Lemma wakeUp_writer :
  w_operation (wakeUp l) = w_operation l /\ w_session_id (wakeUp l) = w_session_id l.
Proof. rw_cases l; done. Qed.

Lemma write_released_free : rw_free_ok (write_released l).
Proof. unfold write_released. rw_cases l; done. Qed.

Lemma setReader_ids sid : rw_ids l -> rw_ids (setReader sid l).
Proof. rw_cases l; done. Qed.

Lemma unlockRead_ids sid : rw_ids l -> rw_ids (unlockRead sid l).
Proof. rw_cases l; done. Qed.

Lemma setWriter_ids sid op : rw_ids l -> rw_ids (setWriter sid op l).
Proof. rw_cases l; done. Qed.

Lemma write_released_ids : rw_ids l -> rw_ids (write_released l).
Proof. unfold write_released. rw_cases l; done. Qed.

Lemma wakeUp_ids : rw_ids l -> rw_ids (wakeUp l).
Proof. unfold wakeUp. by destruct (isWaiting l). Qed.

(** The privileged flags after a read is taken or given back. *)
Lemma setReader_flags sid :
  rw_ids l -> is_simultaneous_read_write_allowed_ l = true ->
  (r_db_mgmt_session (setReader sid l) = true <->
   r_db_mgmt_session l = true \/ sid = USESS_ID_DB_MGMT) /\
  (r_launcher_session (setReader sid l) = true <->
   r_launcher_session l = true \/ sid = USESS_ID_LAUNCHER).
Proof.
  intros [E1 E2] Hs. rw_cases l; try done; subst; intuition (first [done | rlia]).
Qed.

Lemma unlockRead_flags sid :
  rw_ids l -> is_simultaneous_read_write_allowed_ l = true ->
  (r_db_mgmt_session (unlockRead sid l) = true <->
   r_db_mgmt_session l = true /\ sid <> USESS_ID_DB_MGMT) /\
  (r_launcher_session (unlockRead sid l) = true <->
   r_launcher_session l = true /\ sid <> USESS_ID_LAUNCHER).
Proof.
  intros [E1 E2] Hs. rw_cases l; try done; subst; intuition (first [done | rlia]).
Qed.

(** No method changes the configured mode. *)
Definition mode : bool := is_simultaneous_read_write_allowed_ l.

Lemma setReader_mode sid :
  is_simultaneous_read_write_allowed_ (setReader sid l) = mode.
Proof. unfold mode. rw_cases l; done. Qed.

Lemma unlockRead_mode sid :
  is_simultaneous_read_write_allowed_ (unlockRead sid l) = mode.
Proof. unfold mode. rw_cases l; done. Qed.

Lemma setWriter_mode sid op :
  is_simultaneous_read_write_allowed_ (setWriter sid op l) = mode.
Proof. unfold mode. rw_cases l; done. Qed.

Lemma wakeUp_mode : is_simultaneous_read_write_allowed_ (wakeUp l) = mode.
Proof. unfold mode. rw_cases l; done. Qed.

Lemma write_released_mode : is_simultaneous_read_write_allowed_ (write_released l) = mode.
Proof. unfold mode, write_released. rw_cases l; done. Qed.

Lemma setWriter_flags sid op :
  r_db_mgmt_session (setWriter sid op l) = r_db_mgmt_session l /\
  r_launcher_session (setWriter sid op l) = r_launcher_session l.
Proof. rw_cases l; done. Qed.

Lemma wakeUp_flags :
  r_db_mgmt_session (wakeUp l) = r_db_mgmt_session l /\
  r_launcher_session (wakeUp l) = r_launcher_session l.
Proof. rw_cases l; done. Qed.

Lemma write_released_flags :
  r_db_mgmt_session (write_released l) = r_db_mgmt_session l /\
  r_launcher_session (write_released l) = r_launcher_session l.
Proof. unfold write_released. rw_cases l; done. Qed.

End RwFacts.


#[export] Hint Resolve setReader_ids unlockRead_ids setWriter_ids write_released_ids
  wakeUp_ids write_released_free setWriter_held : vtn.
