(* ===== verification/TcLock.v ===== *)
(** * The exclusion object of the transaction coordinator

    [TcLock] of [modules/tc/tc_lock.cc] and [modules/tc/include/tc_lock.hh]:
    the configuration session, the read sessions, the read/write lock, the
    auto-save flag and the UNC state.  Every public method takes the global
    mutex for its whole body, so a method is one atomic function on the
    object's state, except where it waits: the two methods that wait on the
    condition variable (read lock for a state transition, write lock for a
    driver audit) and the one that polls [setup_complete_done_] return
    [Blocked], and a [resume_...] function is the code that runs when the thread
    goes on. *)

From S2P Require Import Prelude TcTypes TcRwLock.

Local Open Scope Z_scope.

Definition TC_START_CONFIG_ID : Z := 1.

(** ** State *)

Record TcConfigLock := mkConf {
  config_id : Z;
  session_id : Z;
  marked_session_id : Z;
  is_taken : bool;
  is_notify_pending : bool;
  notify_operation : TcNotifyOperation
}.

Record TcStateLock := mkStateLock {
  current_state : TcState;
  state_transition_in_progress : bool
}.

Record TcLock := mkLock {
  tc_config_lock_ : TcConfigLock;
  read_sessions : gset Z;           (* tc_read_lock_.read_sessions *)
  tc_rwlock_ : TcReadWriteLock;
  is_enable : bool;                 (* tc_auto_save_.is_enable *)
  tc_state_lock_ : TcStateLock;
  setup_complete_done_ : bool
}.

Definition conf_new : TcConfigLock := mkConf 0 0 0 false false TC_NOTIFY_NONE.
Definition state_new : TcStateLock := mkStateLock TC_INIT false.
Definition lock_new : TcLock := mkLock conf_new ∅ rw_new false state_new false.

Definition set_conf (s : TcLock) (c : TcConfigLock) : TcLock :=
  mkLock c (read_sessions s) (tc_rwlock_ s) (is_enable s) (tc_state_lock_ s)
    (setup_complete_done_ s).
Definition set_sessions (s : TcLock) (r : gset Z) : TcLock :=
  mkLock (tc_config_lock_ s) r (tc_rwlock_ s) (is_enable s) (tc_state_lock_ s)
    (setup_complete_done_ s).
Definition set_rwlock (s : TcLock) (l : TcReadWriteLock) : TcLock :=
  mkLock (tc_config_lock_ s) (read_sessions s) l (is_enable s) (tc_state_lock_ s)
    (setup_complete_done_ s).
Definition set_auto_save (s : TcLock) (b : bool) : TcLock :=
  mkLock (tc_config_lock_ s) (read_sessions s) (tc_rwlock_ s) b (tc_state_lock_ s)
    (setup_complete_done_ s).
Definition set_state_lock (s : TcLock) (t : TcStateLock) : TcLock :=
  mkLock (tc_config_lock_ s) (read_sessions s) (tc_rwlock_ s) (is_enable s) t
    (setup_complete_done_ s).
Definition set_setup_complete (s : TcLock) (b : bool) : TcLock :=
  mkLock (tc_config_lock_ s) (read_sessions s) (tc_rwlock_ s) (is_enable s)
    (tc_state_lock_ s) b.

(** What a thread that could not go on waits for. *)
Inductive WaitKind :=
| WaitRead (session_id : Z)     (* in waitForRead, state transition *)
| WaitWrite (session_id : Z)    (* in waitForWrite, driver audit *)
| WaitSetup (session_id : Z).   (* polling setup_complete_done_, mutex held *)

Inductive LockRes :=
| Done (ret : TcLockRet) (s : TcLock)
| Blocked (k : WaitKind) (s : TcLock).

Definition res_state (r : LockRes) : TcLock :=
  match r with Done _ s => s | Blocked _ s => s end.

(** A method that cannot wait. *)
Definition returns (p : TcLockRet * TcLock) : LockRes := Done p.1 p.2.

(** ** Resetting and reading the state *)

Definition ResetTcGlobalDataOnStateTransition (s : TcLock) : TcLock :=
  let c := tc_config_lock_ s in
  let l := tc_rwlock_ s in
  mkLock
    (mkConf (config_id c) 0 0 false false TC_NOTIFY_NONE)
    ∅
    (clearWriter
       (set_r_flags (set_w_owner (set_r_owner (set_rw_owner l 1) 1) 0) false false))
    false
    (tc_state_lock_ s)
    false.

Definition GetUncCurrentState (s : TcLock) : TcState := current_state (tc_state_lock_ s).

Definition IsStateTransitionInProgress (s : TcLock) : bool :=
  state_transition_in_progress (tc_state_lock_ s).

(** ** The configuration session *)

Definition GetConfigId (config_id : Z) : Z :=
  if config_id ==? UINT32_MAX then TC_START_CONFIG_ID else u32_inc config_id.

Definition UpdateConfigData (sid : Z) (s : TcLock) : TcLock :=
  let c := tc_config_lock_ s in
  set_conf s (mkConf (GetConfigId (config_id c)) sid (marked_session_id c)
                true true TC_NOTIFY_ACQUIRE).

Definition AcquireConfigLock (sid : Z) (s : TcLock) : TcLockRet * TcLock :=
  let c := tc_config_lock_ s in
  if state_transition_in_progress (tc_state_lock_ s) then
    (TC_LOCK_OPERATION_NOT_ALLOWED, s)
  else if negb (is_taken c) && negb (is_notify_pending c) then
    (TC_LOCK_SUCCESS, UpdateConfigData sid s)
  else (TC_LOCK_BUSY, s).

(** Commit or abort of the candidate configuration holds the write lock. *)
Definition candidate_write_held (s : TcLock) : bool :=
  ((w_operation (tc_rwlock_ s) ==? TC_COMMIT) ||
   (w_operation (tc_rwlock_ s) ==? TC_ABORT_CANDIDATE_CONFIG)) &&
  isWriteHeld (tc_rwlock_ s).

Definition ReleaseConfigLock (sid cid : Z) (s : TcLock) : TcLockRet * TcLock :=
  let c := tc_config_lock_ s in
  if is_taken c then
    if sid !=? session_id c then (TC_LOCK_INVALID_SESSION_ID, s)
    else if cid !=? config_id c then (TC_LOCK_INVALID_CONFIG_ID, s)
    else if negb (is_notify_pending c) && negb (candidate_write_held s) then
      (TC_LOCK_SUCCESS,
       set_conf s (mkConf (config_id c) (session_id c) (marked_session_id c)
                     false true TC_NOTIFY_RELEASE))
    else (TC_LOCK_BUSY, s)
  else (TC_LOCK_NOT_ACQUIRED, s).

Definition ForceAcquireConfigLock (sid : Z) (s : TcLock) : TcLockRet * TcLock :=
  let c := tc_config_lock_ s in
  if state_transition_in_progress (tc_state_lock_ s) then
    (TC_LOCK_OPERATION_NOT_ALLOWED, s)
  else if is_notify_pending c ||
          (is_taken c && isWriteHeld (tc_rwlock_ s) &&
           ((w_operation (tc_rwlock_ s) ==? TC_COMMIT) ||
            (w_operation (tc_rwlock_ s) ==? TC_ABORT_CANDIDATE_CONFIG)))
  then (TC_LOCK_BUSY, s)
  else (TC_LOCK_SUCCESS, UpdateConfigData sid s).

(** ** Read sessions *)

Definition AcquireReadLock (sid : Z) (s : TcLock) : TcLockRet * TcLock :=
  let '(ok, l1) := tryReadLock sid (tc_rwlock_ s) in
  if negb ok then (TC_LOCK_BUSY, s)
  else if bool_decide (sid ∈ read_sessions s) then
    (TC_LOCK_ALREADY_ACQUIRED, set_rwlock s (unlockRead sid l1))
  else
    (TC_LOCK_SUCCESS, set_sessions (set_rwlock s l1) ({[sid]} ∪ read_sessions s)).

Definition ReleaseReadLock (sid : Z) (s : TcLock) : TcLockRet * TcLock :=
  if bool_decide (sid ∈ read_sessions s) then
    (TC_LOCK_SUCCESS,
     set_rwlock (set_sessions s (read_sessions s ∖ {[sid]}))
       (unlockRead sid (tc_rwlock_ s)))
  else (TC_LOCK_NOT_ACQUIRED, s).

(** One evaluation of the loop condition of
    [TcAcquireReadLockForStateTransition] and what follows it. *)
Definition read_transition_loop (sid : Z) (s : TcLock) : LockRes :=
  if negb (canReadLock sid (tc_rwlock_ s)) ||
     state_transition_in_progress (tc_state_lock_ s)
  then Blocked (WaitRead sid) (set_rwlock s (waitForRead_enter (tc_rwlock_ s)))
  else
    Done TC_LOCK_SUCCESS
      (set_rwlock
         (set_state_lock s (mkStateLock (current_state (tc_state_lock_ s)) true))
         (setReader sid (tc_rwlock_ s))).

Definition TcAcquireReadLockForStateTransition (sid : Z) (s : TcLock) : LockRes :=
  read_transition_loop sid s.

(** The thread returns from [waitForRead]. *)
Definition resume_read (sid : Z) (s : TcLock) : LockRes :=
  let s1 := set_rwlock s (waitForRead_leave (tc_rwlock_ s)) in
  if current_state (tc_state_lock_ s1) ==? TC_STOP
  then Done TC_LOCK_INVALID_UNC_STATE s1
  else read_transition_loop sid s1.

Definition TcReleaseReadLockForStateTransition (sid : Z) (s : TcLock)
    : TcLockRet * TcLock :=
  if state_transition_in_progress (tc_state_lock_ s) then
    (TC_LOCK_SUCCESS,
     set_rwlock
       (set_state_lock s (mkStateLock (current_state (tc_state_lock_ s)) false))
       (unlockRead sid (tc_rwlock_ s)))
  else (TC_LOCK_NOT_ACQUIRED, s).

(** ** The state gate *)

Definition TcOperationIsAllowed (sid : Z) (operation : TcOperation) (s : TcLock)
    : TcLockRet :=
  let state := current_state (tc_state_lock_ s) in
  let gate :=
    match state with
    | TC_ACT => TC_LOCK_SUCCESS
    | TC_SBY | TC_ACT_FAIL =>
        if (operation !=? TC_ACQUIRE_READ_SESSION) &&
           (operation !=? TC_ACQUIRE_READ_LOCK_FOR_STATE_TRANSITION)
        then TC_LOCK_INVALID_UNC_STATE else TC_LOCK_SUCCESS
    | TC_INIT =>
        if operation !=? TC_ACQUIRE_READ_LOCK_FOR_STATE_TRANSITION
        then TC_LOCK_INVALID_UNC_STATE else TC_LOCK_SUCCESS
    | TC_STOP => TC_LOCK_INVALID_UNC_STATE
    end in
  if gate !=? TC_LOCK_SUCCESS then gate
  else if state ==? TC_ACT then
    let marked := marked_session_id (tc_config_lock_ s) in
    if (marked !=? 0) && (marked ==? sid)
    then TC_LOCK_OPERATION_NOT_ALLOWED else TC_LOCK_SUCCESS
  else TC_LOCK_SUCCESS.

(** ** The write lock *)

(** One evaluation of the loop condition of
    [AcquireWriteLockForAuditDriver] and what follows it. *)
Definition write_audit_loop (sid : Z) (s : TcLock) : LockRes :=
  if canWriteLock (tc_rwlock_ s)
  then Done TC_LOCK_SUCCESS (set_rwlock s (setWriter sid TC_AUDIT_DRIVER (tc_rwlock_ s)))
  else Blocked (WaitWrite sid) (set_rwlock s (waitForWrite_enter (tc_rwlock_ s))).

Definition AcquireWriteLockForAuditDriver (sid : Z) (s : TcLock) : LockRes :=
  if negb (setup_complete_done_ s) then Blocked (WaitSetup sid) s
  else write_audit_loop sid s.

(** The thread tests [TcIsSetupCompleteDone()] again after [usleep]. *)
Definition resume_setup (sid : Z) (s : TcLock) : LockRes :=
  AcquireWriteLockForAuditDriver sid s.

(** The thread returns from [waitForWrite]. *)
Definition resume_write (sid : Z) (s : TcLock) : LockRes :=
  let s1 := set_rwlock s (waitForWrite_leave (tc_rwlock_ s)) in
  let ret := TcOperationIsAllowed sid TC_ACQUIRE_WRITE_SESSION s1 in
  if ret !=? TC_LOCK_SUCCESS then Done ret s1 else write_audit_loop sid s1.

(** [tryLock] for a write operation, and its result as a [TcLockRet]. *)
Definition try_write (sid : Z) (op : TcWriteOperation) (s : TcLock) : TcLockRet * TcLock :=
  let '(ok, l1) := tryWriteLock sid op (tc_rwlock_ s) in
  if ok then (TC_LOCK_SUCCESS, set_rwlock s l1) else (TC_LOCK_BUSY, s).

Definition AcquireWriteLockForCommit (sid : Z) (s : TcLock) : TcLockRet * TcLock :=
  let c := tc_config_lock_ s in
  if negb (is_taken c) || is_notify_pending c || (session_id c !=? sid)
  then (TC_LOCK_BUSY, s)
  else try_write sid TC_COMMIT s.

Definition AcquireWriteLockForAbortCandidateConfig (sid : Z) (s : TcLock)
    : TcLockRet * TcLock :=
  let c := tc_config_lock_ s in
  if negb (is_taken c) || is_notify_pending c || (session_id c !=? sid)
  then (TC_LOCK_BUSY, s)
  else try_write sid TC_ABORT_CANDIDATE_CONFIG s.

Definition AcquireWriteLockForAuditUser (sid : Z) (s : TcLock) : TcLockRet * TcLock :=
  try_write sid TC_AUDIT_USER s.

Definition AcquireWriteLockForSaveStartupConfig (sid : Z) (s : TcLock)
    : TcLockRet * TcLock :=
  try_write sid TC_SAVE_STARTUP_CONFIG s.

Definition AcquireWriteLockForClearStartupConfig (sid : Z) (s : TcLock)
    : TcLockRet * TcLock :=
  try_write sid TC_CLEAR_STARTUP_CONFIG s.

Definition AcquireWriteLock (sid : Z) (write_operation : TcWriteOperation)
    (s : TcLock) : LockRes :=
  match write_operation with
  | TC_AUDIT_DRIVER => AcquireWriteLockForAuditDriver sid s
  | TC_COMMIT => returns (AcquireWriteLockForCommit sid s)
  | TC_ABORT_CANDIDATE_CONFIG => returns (AcquireWriteLockForAbortCandidateConfig sid s)
  | TC_AUDIT_USER => returns (AcquireWriteLockForAuditUser sid s)
  | TC_CLEAR_STARTUP_CONFIG => returns (AcquireWriteLockForClearStartupConfig sid s)
  | TC_SAVE_STARTUP_CONFIG => returns (AcquireWriteLockForSaveStartupConfig sid s)
  | TC_WRITE_NONE => Done TC_LOCK_INVALID_OPERATION s
  end.

Definition ReleaseWriteLock (sid : Z) (op : TcWriteOperation) (s : TcLock)
    : TcLockRet * TcLock :=
  let '(ok, l1) := unlockWrite sid op (tc_rwlock_ s) in
  (if ok then TC_LOCK_SUCCESS else TC_LOCK_NOT_ACQUIRED, set_rwlock s l1).

(** ** Auto save *)

Definition AutoSaveEnable (s : TcLock) : TcLockRet * TcLock :=
  if is_enable s then (TC_LOCK_BUSY, s) else (TC_LOCK_SUCCESS, set_auto_save s true).

Definition AutoSaveDisable (s : TcLock) : TcLockRet * TcLock :=
  if is_enable s then (TC_LOCK_SUCCESS, set_auto_save s false) else (TC_LOCK_FAILURE, s).

(** ** UNC state and session marks *)

Definition TcUpdateUncState (new_state : TcState) (s : TcLock) : TcLock :=
  let cur := current_state (tc_state_lock_ s) in
  if (cur !=? new_state) && (cur !=? TC_STOP) then
    set_rwlock
      (set_state_lock s
         (mkStateLock new_state (state_transition_in_progress (tc_state_lock_ s))))
      (wakeUp (tc_rwlock_ s))
  else s.

Definition TcMarkSessionId (sid : Z) (s : TcLock) : TcLockRet * TcLock :=
  let c := tc_config_lock_ s in
  if is_taken c && (marked_session_id c ==? 0) && (sid ==? session_id c) then
    (TC_LOCK_SUCCESS,
     set_conf s (mkConf (config_id c) (session_id c) sid (is_taken c)
                   (is_notify_pending c) (notify_operation c)))
  else (TC_LOCK_FAILURE, s).

Definition GetMarkedSessionId (s : TcLock) : Z := marked_session_id (tc_config_lock_ s).

(** ** Acquiring and releasing a lock *)

(** The common shape of the two auto-save cases of [GetLock]: take the
    auto-save flag, then the write lock, and give the flag back if the write
    lock is not available. *)
Definition auto_save_then_write (sid : Z) (wop : TcWriteOperation) (s : TcLock) : LockRes :=
  let '(ret, s1) := AutoSaveEnable s in
  if ret ==? TC_LOCK_SUCCESS then
    match AcquireWriteLock sid wop s1 with
    | Done ret2 s2 =>
        if ret2 !=? TC_LOCK_SUCCESS then Done ret2 (AutoSaveDisable s2).2
        else Done ret2 s2
    | Blocked k s2 => Blocked k s2
    end
  else Done ret s1.

Definition GetLock (sid : Z) (tc_operation : TcOperation)
    (write_operation : TcWriteOperation) (s : TcLock) : LockRes :=
  let ret := TcOperationIsAllowed sid tc_operation s in
  if ret !=? TC_LOCK_SUCCESS then Done ret s
  else
    match tc_operation with
    | TC_ACQUIRE_CONFIG_SESSION => returns (AcquireConfigLock sid s)
    | TC_ACQUIRE_READ_SESSION => returns (AcquireReadLock sid s)
    | TC_ACQUIRE_WRITE_SESSION => AcquireWriteLock sid write_operation s
    | TC_FORCE_ACQUIRE_CONFIG_SESSION => returns (ForceAcquireConfigLock sid s)
    | TC_AUTO_SAVE_ENABLE => auto_save_then_write sid TC_CLEAR_STARTUP_CONFIG s
    | TC_AUTO_SAVE_DISABLE => auto_save_then_write sid TC_SAVE_STARTUP_CONFIG s
    | TC_AUTO_SAVE_GET => returns (AutoSaveEnable s)
    | TC_ACQUIRE_READ_LOCK_FOR_STATE_TRANSITION =>
        TcAcquireReadLockForStateTransition sid s
    | _ => Done TC_LOCK_INVALID_OPERATION s
    end.

Definition NotifyConfigIdSessionIdDone (cid sid : Z)
    (config_notify_operation : TcNotifyOperation) (s : TcLock) : TcLockRet * TcLock :=
  let c := tc_config_lock_ s in
  if notify_operation c !=? config_notify_operation then (TC_LOCK_INVALID_OPERATION, s)
  else if session_id c ==? sid then
    if config_id c !=? cid then (TC_LOCK_INVALID_CONFIG_ID, s)
    else
      let sess := if config_notify_operation ==? TC_NOTIFY_RELEASE
                  then 0 else session_id c in
      let marked := if marked_session_id c ==? sid then 0 else marked_session_id c in
      (TC_LOCK_SUCCESS,
       set_conf s (mkConf (config_id c) sess marked (is_taken c) false TC_NOTIFY_NONE))
  else (TC_LOCK_INVALID_SESSION_ID, s).

(** The common shape of the two auto-save cases of [ReleaseLock]. *)
Definition auto_save_release (sid : Z) (wop : TcWriteOperation) (s : TcLock)
    : TcLockRet * TcLock :=
  let '(ret, s1) := AutoSaveDisable s in
  if ret ==? TC_LOCK_SUCCESS then
    let '(ret2, s2) := ReleaseWriteLock sid wop s1 in
    if ret2 !=? TC_LOCK_SUCCESS then (ret2, (AutoSaveEnable s2).2) else (ret2, s2)
  else (ret, s1).

Definition ReleaseLock (sid cid : Z) (tc_operation : TcOperation)
    (write_operation : TcWriteOperation) (s : TcLock) : TcLockRet * TcLock :=
  match tc_operation with
  | TC_RELEASE_CONFIG_SESSION => ReleaseConfigLock sid cid s
  | TC_RELEASE_READ_SESSION => ReleaseReadLock sid s
  | TC_RELEASE_WRITE_SESSION => ReleaseWriteLock sid write_operation s
  | TC_AUTO_SAVE_ENABLE => auto_save_release sid TC_CLEAR_STARTUP_CONFIG s
  | TC_AUTO_SAVE_DISABLE => auto_save_release sid TC_SAVE_STARTUP_CONFIG s
  | TC_AUTO_SAVE_GET => AutoSaveDisable s
  | TC_RELEASE_READ_LOCK_FOR_STATE_TRANSITION =>
      TcReleaseReadLockForStateTransition sid s
  | _ => (TC_LOCK_INVALID_OPERATION, s)
  end.

(** ** Queries *)

(** The result is the return value and what is stored through the two
    pointers; the pointers of the callers are never null. *)
Definition GetConfigIdSessionId (s : TcLock) : TcLockRet * option (Z * Z) :=
  let c := tc_config_lock_ s in
  if current_state (tc_state_lock_ s) !=? TC_ACT then (TC_LOCK_INVALID_UNC_STATE, None)
  else if is_taken c then (TC_LOCK_SUCCESS, Some (session_id c, config_id c))
  else (TC_LOCK_NO_CONFIG_SESSION_EXIST, Some (0, 0)).

(** First block of [GetSessionOperation]: the session holds the write lock. *)
Definition write_progress (sid : Z) (s : TcLock) : option TcSessionOperationProgress :=
  if isWriteHeldBy sid (tc_rwlock_ s) then
    let taken := is_taken (tc_config_lock_ s) in
    match w_operation (tc_rwlock_ s) with
    | TC_COMMIT => if taken then Some TC_CONFIG_COMMIT_PROGRESS else None
    | TC_AUDIT_USER => Some TC_WRITE_AUDIT_USER_PROGRESS
    | TC_AUDIT_DRIVER => Some TC_WRITE_AUDIT_DRIVER_PROGRESS
    | TC_ABORT_CANDIDATE_CONFIG =>
        if taken then Some TC_WRITE_ABORT_CANDIDATE_CONFIG_PROGRESS else None
    | TC_SAVE_STARTUP_CONFIG => Some TC_WRITE_SAVE_STARTUP_CONFIG_PROGRESS
    | TC_CLEAR_STARTUP_CONFIG => Some TC_WRITE_CLEAR_STARTUP_CONFIG_PROGRESS
    | TC_WRITE_NONE => None
    end
  else None.

Definition GetSessionOperation (sid : Z) (s : TcLock) : TcSessionOperationProgress :=
  let c := tc_config_lock_ s in
  match write_progress sid s with
  | Some p => p
  | None =>
      if (is_taken c || is_notify_pending c) && (session_id c ==? sid) then
        match notify_operation c with
        | TC_NOTIFY_NONE => TC_CONFIG_NO_NOTIFY_PROGRESS
        | TC_NOTIFY_ACQUIRE => TC_CONFIG_NOTIFY_ACQUIRE_PROGRESS
        | TC_NOTIFY_RELEASE => TC_CONFIG_NOTIFY_RELEASE_PROGRESS
        end
      else if bool_decide (sid ∈ read_sessions s) then TC_READ_PROGRESS
      else TC_NO_OPERATION_PROGRESS
  end.

(** ** Initialisation and the setup-complete flag *)

Definition TcInitWRLock (simultaneous_read_write_allowed : bool) (s : TcLock) : TcLock :=
  set_rwlock s (rw_init USESS_ID_DB_MGMT USESS_ID_LAUNCHER
                  simultaneous_read_write_allowed (tc_rwlock_ s)).

Definition TcSetSetupComplete (is_done : bool) (s : TcLock) : TcLock :=
  set_setup_complete s is_done.

Definition TcIsSetupCompleteDone (s : TcLock) : bool := setup_complete_done_ s.

(** The object when the module's [init] has returned. *)
Definition lock_init (simultaneous : bool) : TcLock := TcInitWRLock simultaneous lock_new.

(** ** The public calls, as data

    [lock_call] is what one thread can do to the object in one mutex section;
    the interleavings of the threads of the daemon are sequences of such
    calls and of resumptions. *)

Inductive LockOp :=
| OpGetLock (sid : Z) (op : TcOperation) (wop : TcWriteOperation)
| OpReleaseLock (sid cid : Z) (op : TcOperation) (wop : TcWriteOperation)
| OpNotifyDone (cid sid : Z) (nop : TcNotifyOperation)
| OpMarkSession (sid : Z)
| OpUpdateState (st : TcState)
| OpSetSetupComplete (b : bool)
| OpReset.

Definition lock_call (o : LockOp) (s : TcLock) : LockRes :=
  match o with
  | OpGetLock sid op wop => GetLock sid op wop s
  | OpReleaseLock sid cid op wop => returns (ReleaseLock sid cid op wop s)
  | OpNotifyDone cid sid nop => returns (NotifyConfigIdSessionIdDone cid sid nop s)
  | OpMarkSession sid => returns (TcMarkSessionId sid s)
  | OpUpdateState st => Done TC_LOCK_SUCCESS (TcUpdateUncState st s)
  | OpSetSetupComplete b => Done TC_LOCK_SUCCESS (TcSetSetupComplete b s)
  | OpReset => Done TC_LOCK_SUCCESS (ResetTcGlobalDataOnStateTransition s)
  end.

Definition resume (k : WaitKind) (s : TcLock) : LockRes :=
  match k with
  | WaitRead sid => resume_read sid s
  | WaitWrite sid => resume_write sid s
  | WaitSetup sid => resume_setup sid s
  end.
