(* ===== verification/TcLockProps.v ===== *)
(** * Invariants of the exclusion object

    The calls the daemon's threads make on [TcLock], interleaved in any order
    and with any thread waiting, as a step relation; the client protocol the
    callers follow; and the invariants that hold of every reachable state:
    consistency of the reader counts, exclusion of readers and writers, and
    ownership of the configuration session by the session that commits. *)

From S2P Require Import Prelude TcTypes TcRwLock TcLock.

Local Open Scope Z_scope.

(** ** The client protocol

    What the callers in [tc_module.cc] and the operation classes guarantee:
    the state leaves ACT only for STOP and never returns to INIT; the global
    data is reset only by the thread that holds the state-transition lock in a
    state other than ACT ([HandleAct]), or after STOP ([HandleStop]); state transitions use
    session 0; and fewer than 2^32 - 3 sessions read at the same time. *)

Definition update_ok (cur new : TcState) : bool :=
  match new with
  | TC_STOP | TC_ACT => true
  | TC_SBY | TC_ACT_FAIL => cur !=? TC_ACT
  | TC_INIT => false
  end.

Definition state_of (s : TcLock) : TcState := current_state (tc_state_lock_ s).
Definition in_transition (s : TcLock) : bool :=
  state_transition_in_progress (tc_state_lock_ s).

Definition client_ok (o : LockOp) (s : TcLock) : Prop :=
  match o with
  | OpGetLock sid TC_ACQUIRE_READ_SESSION _ =>
      Z.of_nat (size (read_sessions s)) < R_READERS_MAX - 1
  | OpGetLock sid TC_ACQUIRE_READ_LOCK_FOR_STATE_TRANSITION _ => sid = 0
  | OpReleaseLock sid _ TC_RELEASE_READ_LOCK_FOR_STATE_TRANSITION _ => sid = 0
  | OpUpdateState st => update_ok (state_of s) st = true
  | OpReset => state_of s = TC_STOP \/ (in_transition s = true /\ state_of s <> TC_ACT)
  | _ => True
  end.

(** Which sessions may ask again for a read lock they already hold. *)
Definition reacquire_ok (again : Z -> Prop) (o : LockOp) (s : TcLock) : Prop :=
  match o with
  | OpGetLock sid TC_ACQUIRE_READ_SESSION _ => sid ∈ read_sessions s -> again sid
  | _ => True
  end.

Definition anyone (sid : Z) : Prop := True.

(** All but the database manager and the launcher. *)
Definition not_privileged (sid : Z) : Prop :=
  sid <> USESS_ID_DB_MGMT /\ sid <> USESS_ID_LAUNCHER.

(** What a set of calls may do: which sessions re-acquire a read lock they
    hold, which sessions release locks, and whether the data is reset. *)
Record Rules := mkRules {
  may_reread : Z -> Prop;
  may_release : Z -> Prop;
  may_reset : Prop
}.

Definition call_ok (R : Rules) (o : LockOp) (s : TcLock) : Prop :=
  match o with
  | OpGetLock sid TC_ACQUIRE_READ_SESSION _ => sid ∈ read_sessions s -> may_reread R sid
  | OpReleaseLock sid _ _ _ => may_release R sid
  | OpReset => may_reset R
  | _ => True
  end.

(** Every session may release and the data may be reset. *)
Definition rules (again : Z -> Prop) : Rules := mkRules again anyone True.

Lemma reacquire_call_ok again o s : reacquire_ok again o s -> call_ok (rules again) o s.
Proof. by destruct o. Qed.

(** The waits: a waiting thread is one that called with session 0 (state
    transition and driver audit both use it). *)
Definition wait_ok (k : WaitKind) : Prop :=
  match k with WaitRead sid => sid = 0 | _ => True end.

(** ** Invariant of the counts and of the write lock *)

Definition n_readers (s : TcLock) : Z :=
  Z.of_nat (size (read_sessions s)) + Z.b2z (in_transition s).

(** The bound on the sessions that read. *)
Definition readers_bounded (s : TcLock) : Prop :=
  Z.of_nat (size (read_sessions s)) < R_READERS_MAX.

(** The count the lock keeps is the number of readers, or, once the object
    was reset after STOP with no transition in progress, one. *)
Definition count_of (n : Z) (s : TcLock) : Prop :=
  n = n_readers s \/
  (state_of s = TC_STOP /\ read_sessions s = ∅ /\ in_transition s = false /\ n = 1).

Record counts_inv (s : TcLock) : Prop := {
  ci_ids : rw_ids (tc_rwlock_ s);
  ci_bound : readers_bounded s;
  ci_counts : exists n, count_of n s /\ rw_counts n (tc_rwlock_ s);
  ci_held : isWriteHeld (tc_rwlock_ s) = true ->
    state_of s = TC_ACT \/ state_of s = TC_STOP;
  ci_free : rw_free_ok (tc_rwlock_ s)
}.

(** The privileged flags tell exactly which privileged sessions read. *)
Definition flags_inv (s : TcLock) : Prop :=
  is_simultaneous_read_write_allowed_ (tc_rwlock_ s) = true ->
  (r_db_mgmt_session (tc_rwlock_ s) = true <-> USESS_ID_DB_MGMT ∈ read_sessions s) /\
  (r_launcher_session (tc_rwlock_ s) = true <-> USESS_ID_LAUNCHER ∈ read_sessions s).

(** ** Invariant of the configuration session *)

Record config_inv (s : TcLock) : Prop := {
  cf_u32 : is_u32 (config_id (tc_config_lock_ s));
  cf_taken : is_taken (tc_config_lock_ s) = true -> config_id (tc_config_lock_ s) <> 0;
  cf_notify :
    match notify_operation (tc_config_lock_ s) with
    | TC_NOTIFY_NONE => is_notify_pending (tc_config_lock_ s) = false
    | TC_NOTIFY_ACQUIRE => is_notify_pending (tc_config_lock_ s) = true /\
                           is_taken (tc_config_lock_ s) = true
    | TC_NOTIFY_RELEASE => is_notify_pending (tc_config_lock_ s) = true /\
                           is_taken (tc_config_lock_ s) = false
    end;
  cf_free : is_taken (tc_config_lock_ s) = false ->
    is_notify_pending (tc_config_lock_ s) = false -> session_id (tc_config_lock_ s) = 0;
  cf_commit : candidate_write_held s = true ->
    is_taken (tc_config_lock_ s) = true /\
    is_notify_pending (tc_config_lock_ s) = false /\
    session_id (tc_config_lock_ s) = w_session_id (tc_rwlock_ s)
}.

(** ** Automation: unfold a call completely and split on its tests *)

Ltac unfold_lock :=
  unfold lock_call, resume, returns, GetLock, ReleaseLock, NotifyConfigIdSessionIdDone,
    TcMarkSessionId, TcUpdateUncState, TcSetSetupComplete, TcOperationIsAllowed,
    ResetTcGlobalDataOnStateTransition, AcquireConfigLock, AcquireReadLock,
    AcquireWriteLock, ForceAcquireConfigLock, ReleaseConfigLock, ReleaseReadLock,
    ReleaseWriteLock, auto_save_then_write, auto_save_release, AutoSaveEnable,
    AutoSaveDisable, TcAcquireReadLockForStateTransition, read_transition_loop,
    TcReleaseReadLockForStateTransition, AcquireWriteLockForAuditDriver,
    write_audit_loop, AcquireWriteLockForCommit, AcquireWriteLockForAbortCandidateConfig,
    AcquireWriteLockForAuditUser, AcquireWriteLockForSaveStartupConfig,
    AcquireWriteLockForClearStartupConfig, try_write, resume_read, resume_write,
    resume_setup, UpdateConfigData, candidate_write_held, tryReadLock, tryWriteLock,
    set_conf, set_sessions, set_rwlock, set_auto_save, set_state_lock,
    set_setup_complete, state_of, in_transition in *.

(** ** Atomic effects

    Every call is a sequence of at most three of these changes, each under the
    condition the code has tested. *)

Definition candidate_op (op : TcWriteOperation) : Prop :=
  op = TC_COMMIT \/ op = TC_ABORT_CANDIDATE_CONFIG.

(** The configuration session is held by [sid] with no notification pending. *)
Definition config_held_by (sid : Z) (s : TcLock) : Prop :=
  is_taken (tc_config_lock_ s) = true /\
  is_notify_pending (tc_config_lock_ s) = false /\
  session_id (tc_config_lock_ s) = sid.

(** The waiter counter is below its width. *)
Definition waiters_bounded (s : TcLock) : Prop :=
  0 <= w_waiter (tc_rwlock_ s) < UINT32_MAX.

Section Protocol.

(** What the callers may do. *)
Context (R : Rules).

Inductive lock_eff : TcLock -> TcLock -> Prop :=
| eff_auto_save s b : lock_eff s (set_auto_save s b)
| eff_setup s b : lock_eff s (set_setup_complete s b)
| eff_conf_acquire s sid :
    in_transition s = false ->
    is_notify_pending (tc_config_lock_ s) = false ->
    (is_taken (tc_config_lock_ s) = true -> candidate_write_held s = false) ->
    lock_eff s (UpdateConfigData sid s)
| eff_conf_release s :
    is_taken (tc_config_lock_ s) = true ->
    is_notify_pending (tc_config_lock_ s) = false ->
    candidate_write_held s = false ->
    lock_eff s (set_conf s (mkConf (config_id (tc_config_lock_ s))
      (session_id (tc_config_lock_ s)) (marked_session_id (tc_config_lock_ s))
      false true TC_NOTIFY_RELEASE))
| eff_conf_notify s sid cid nop :
    notify_operation (tc_config_lock_ s) = nop ->
    session_id (tc_config_lock_ s) = sid ->
    config_id (tc_config_lock_ s) = cid ->
    lock_eff s (set_conf s (mkConf (config_id (tc_config_lock_ s))
      (if nop ==? TC_NOTIFY_RELEASE then 0 else session_id (tc_config_lock_ s))
      (if marked_session_id (tc_config_lock_ s) ==? sid then 0
       else marked_session_id (tc_config_lock_ s))
      (is_taken (tc_config_lock_ s)) false TC_NOTIFY_NONE))
| eff_mark s sid :
    is_taken (tc_config_lock_ s) = true ->
    sid = session_id (tc_config_lock_ s) ->
    lock_eff s (set_conf s (mkConf (config_id (tc_config_lock_ s))
      (session_id (tc_config_lock_ s)) sid (is_taken (tc_config_lock_ s))
      (is_notify_pending (tc_config_lock_ s)) (notify_operation (tc_config_lock_ s))))
| eff_read_acquire s sid :
    canReadLock sid (tc_rwlock_ s) = true ->
    sid ∉ read_sessions s ->
    state_of s <> TC_STOP ->
    Z.of_nat (size (read_sessions s)) < R_READERS_MAX - 1 ->
    lock_eff s (set_sessions (set_rwlock s (setReader sid (tc_rwlock_ s)))
                  ({[sid]} ∪ read_sessions s))
| eff_read_again s sid :
    may_reread R sid ->
    canReadLock sid (tc_rwlock_ s) = true ->
    sid ∈ read_sessions s ->
    state_of s <> TC_STOP ->
    Z.of_nat (size (read_sessions s)) < R_READERS_MAX - 1 ->
    lock_eff s (set_rwlock s (unlockRead sid (setReader sid (tc_rwlock_ s))))
| eff_read_release s sid :
    sid ∈ read_sessions s ->
    lock_eff s (set_rwlock (set_sessions s (read_sessions s ∖ {[sid]}))
                  (unlockRead sid (tc_rwlock_ s)))
| eff_trans_acquire s :
    canReadLock 0 (tc_rwlock_ s) = true ->
    in_transition s = false ->
    state_of s <> TC_STOP ->
    Z.of_nat (size (read_sessions s)) < R_READERS_MAX ->
    lock_eff s (set_rwlock (set_state_lock s (mkStateLock (state_of s) true))
                  (setReader 0 (tc_rwlock_ s)))
| eff_trans_release s :
    in_transition s = true ->
    lock_eff s (set_rwlock (set_state_lock s (mkStateLock (state_of s) false))
                  (unlockRead 0 (tc_rwlock_ s)))
| eff_write_acquire s sid op :
    canWriteLock (tc_rwlock_ s) = true ->
    state_of s = TC_ACT ->
    op <> TC_WRITE_NONE ->
    (candidate_op op -> config_held_by sid s) ->
    lock_eff s (set_rwlock s (setWriter sid op (tc_rwlock_ s)))
| eff_write_release s sid :
    may_release R sid ->
    isWriteHeldBy sid (tc_rwlock_ s) = true ->
    lock_eff s (set_rwlock s (write_released (tc_rwlock_ s)))
| eff_waiters s r w :
    w_waiter (tc_rwlock_ s) <= w ->
    lock_eff s (set_rwlock s (set_waiters (tc_rwlock_ s) r w))
| eff_state s st :
    update_ok (state_of s) st = true ->
    state_of s <> TC_STOP ->
    lock_eff s (set_rwlock (set_state_lock s (mkStateLock st (in_transition s)))
                  (wakeUp (tc_rwlock_ s)))
| eff_reset s :
    may_reset R ->
    state_of s = TC_STOP \/ (in_transition s = true /\ state_of s <> TC_ACT) ->
    lock_eff s (ResetTcGlobalDataOnStateTransition s).

#[local] Hint Constructors lock_eff : vtn.

(** A waiting or calling thread's result is reached by atomic effects. *)
Abbreviation lock_effs := (rtc lock_eff).

#[local] Hint Resolve rtc_refl rtc_once : vtn.

Lemma allowed_not_stop sid op s :
  TcOperationIsAllowed sid op s = TC_LOCK_SUCCESS -> state_of s <> TC_STOP.
Proof. unfold TcOperationIsAllowed, state_of. by destruct (current_state _). Qed.

Lemma allowed_write sid op s :
  TcOperationIsAllowed sid op s = TC_LOCK_SUCCESS ->
  op <> TC_ACQUIRE_READ_SESSION ->
  op <> TC_ACQUIRE_READ_LOCK_FOR_STATE_TRANSITION ->
  state_of s = TC_ACT.
Proof.
  unfold TcOperationIsAllowed, state_of.
  destruct (current_state _); intros H H1 H2; try done;
    revert H; repeat case_bool_decide; done.
Qed.

Lemma try_write_effs sid op s :
  state_of s = TC_ACT -> op <> TC_WRITE_NONE ->
  (candidate_op op -> config_held_by sid s) ->
  lock_effs s (try_write sid op s).2.
Proof.
  intros. unfold try_write, tryWriteLock.
  destruct (canWriteLock _) eqn:E; simpl; eauto with vtn.
Qed.

Lemma write_audit_loop_effs sid s :
  state_of s = TC_ACT -> waiters_bounded s ->
  lock_effs s (res_state (write_audit_loop sid s)).
Proof.
  intros Hs Hw. unfold write_audit_loop. destruct (canWriteLock _) eqn:E; simpl.
  - apply rtc_once, eff_write_acquire; try done. intros [|]; done.
  - unfold waitForWrite_enter. apply rtc_once, eff_waiters.
    unfold waiters_bounded in Hw. rewrite u32_inc_small by ulia. ulia.
Qed.

Lemma AcquireWriteLock_effs sid op s :
  state_of s = TC_ACT -> waiters_bounded s ->
  lock_effs s (res_state (AcquireWriteLock sid op s)).
Proof.
  intros Hs Hw. destruct op; simpl; auto using rtc_refl;
    try (apply try_write_effs; [done|done|by intros [|]]).
  - unfold AcquireWriteLockForAuditDriver.
    destruct (setup_complete_done_ s); simpl; auto using rtc_refl, write_audit_loop_effs.
  - unfold AcquireWriteLockForCommit. split_match; simpl; auto using rtc_refl.
    bool_norm. apply try_write_effs; done.
  - unfold AcquireWriteLockForAbortCandidateConfig.
    split_match; simpl; auto using rtc_refl.
    bool_norm. apply try_write_effs; done.
Qed.

Lemma auto_save_then_write_effs sid op s :
  state_of s = TC_ACT -> waiters_bounded s ->
  lock_effs s (res_state (auto_save_then_write sid op s)).
Proof.
  intros Hs Hwb. unfold auto_save_then_write, AutoSaveEnable.
  destruct (is_enable s); simpl; auto using rtc_refl.
  eapply rtc_l; [apply (eff_auto_save s true)|].
  pose proof (AcquireWriteLock_effs sid op (set_auto_save s true) Hs Hwb) as Hw.
  destruct (AcquireWriteLock _ _ _) as [r s2|k s2]; simpl in *; [|done].
  case_bool_decide; simpl; [done|].
  etrans; [done|]. unfold AutoSaveDisable.
  destruct (is_enable s2); simpl; eauto with vtn.
Qed.

Lemma ReleaseWriteLock_effs sid op s :
  may_release R sid -> lock_effs s (ReleaseWriteLock sid op s).2.
Proof.
  intros Hrel.
  unfold ReleaseWriteLock, unlockWrite. split_match; bool_norm; simpl.
  - destruct s; apply rtc_refl.
  - eauto with vtn.
Qed.

Lemma auto_save_release_effs sid op s :
  may_release R sid -> lock_effs s (auto_save_release sid op s).2.
Proof.
  intros Hrel.
  unfold auto_save_release, AutoSaveDisable.
  destruct (is_enable s); simpl; auto using rtc_refl.
  eapply rtc_l; [apply (eff_auto_save s false)|].
  pose proof (ReleaseWriteLock_effs sid op (set_auto_save s false) Hrel) as Hw.
  destruct (ReleaseWriteLock _ _ _) as [r s2]; simpl in *.
  case_bool_decide; simpl; [done|].
  etrans; [done|]. unfold AutoSaveEnable.
  destruct (is_enable s2); simpl; eauto with vtn.
Qed.

Lemma read_transition_loop_effs s :
  state_of s <> TC_STOP -> Z.of_nat (size (read_sessions s)) < R_READERS_MAX ->
  lock_effs s (res_state (read_transition_loop 0 s)).
Proof.
  intros Hs Hn. unfold read_transition_loop. split_match; simpl.
  - unfold waitForRead_enter. apply rtc_once, eff_waiters. reflexivity.
  - bool_norm. apply rtc_once, eff_trans_acquire; done.
Qed.

Lemma AcquireReadLock_effs sid s :
  (sid ∈ read_sessions s -> may_reread R sid) -> state_of s <> TC_STOP ->
  Z.of_nat (size (read_sessions s)) < R_READERS_MAX - 1 ->
  lock_effs s (AcquireReadLock sid s).2.
Proof.
  intros Ha Hs Hn. unfold AcquireReadLock, tryReadLock.
  destruct (canReadLock _ _) eqn:E; simpl; [|auto using rtc_refl].
  case_bool_decide; simpl; apply rtc_once; auto with vtn.
Qed.

Lemma GetLock_effs sid op wop s :
  client_ok (OpGetLock sid op wop) s -> call_ok R (OpGetLock sid op wop) s ->
  readers_bounded s -> waiters_bounded s ->
  lock_effs s (res_state (GetLock sid op wop s)).
Proof.
  intros Hok Hag Hb Hw. unfold GetLock. case_bool_decide as Ha; simpl; [|auto using rtc_refl].
  pose proof (allowed_not_stop _ _ _ Ha).
  destruct op; simpl; auto using rtc_refl.
  - unfold AcquireConfigLock. repeat split_match; simpl; auto using rtc_refl.
    bool_norm. apply rtc_once, eff_conf_acquire; try done; congruence.
  - unfold ForceAcquireConfigLock. repeat split_match; simpl; auto using rtc_refl.
    bool_norm. apply rtc_once, eff_conf_acquire; try done. intros Ht.
    unfold candidate_write_held. rewrite Ht in *. destruct (isWriteHeld _); [|apply andb_false_r].
    rewrite andb_true_r. naive_solver.
  - apply AcquireReadLock_effs; [exact Hag|assumption|exact Hok].
  - apply AcquireWriteLock_effs; [by eapply allowed_write|done].
  - apply auto_save_then_write_effs; [by eapply allowed_write|done].
  - apply auto_save_then_write_effs; [by eapply allowed_write|done].
  - unfold AutoSaveEnable. destruct (is_enable s); simpl; eauto with vtn.
  - simpl in Hok. subst sid. apply read_transition_loop_effs; assumption.
Qed.

Lemma ReleaseLock_effs sid cid op wop s :
  client_ok (OpReleaseLock sid cid op wop) s -> may_release R sid ->
  lock_effs s (ReleaseLock sid cid op wop s).2.
Proof.
  intros Hok Hrel. destruct op; simpl; auto using rtc_refl, ReleaseWriteLock_effs,
    auto_save_release_effs.
  - unfold ReleaseConfigLock. repeat split_match; simpl; auto using rtc_refl.
    bool_norm. apply rtc_once, eff_conf_release; done.
  - unfold ReleaseReadLock. case_bool_decide; simpl; eauto with vtn.
  - unfold AutoSaveDisable. destruct (is_enable s); simpl; eauto with vtn.
  - simpl in Hok. subst sid. unfold TcReleaseReadLockForStateTransition.
    split_match; simpl; [|auto using rtc_refl].
    apply rtc_once. by apply (eff_trans_release s).
Qed.

(** Every call a client may make is a sequence of atomic effects. *)
Lemma lock_call_effs o s :
  client_ok o s -> call_ok R o s -> readers_bounded s -> waiters_bounded s ->
  lock_effs s (res_state (lock_call o s)).
Proof.
  intros Hok Hag Hb Hw. destruct o; simpl.
  - by apply GetLock_effs.
  - by apply ReleaseLock_effs.
  - unfold NotifyConfigIdSessionIdDone.
    case_bool_decide as E1; simpl; [|auto using rtc_refl].
    case_bool_decide as E2; simpl; [|auto using rtc_refl].
    case_bool_decide as E3; simpl; [|auto using rtc_refl].
    apply rtc_once. by eapply eff_conf_notify.
  - unfold TcMarkSessionId. split_match; simpl; [|auto using rtc_refl].
    bool_norm. apply rtc_once, eff_mark; done.
  - unfold TcUpdateUncState. split_match; [|auto using rtc_refl].
    bool_norm. apply rtc_once. by apply (eff_state s st).
  - eauto with vtn.
  - eauto with vtn.
Qed.

(** A resumed thread first takes itself out of the waiter count. *)
Definition resume_leave (k : WaitKind) (s : TcLock) : TcLock :=
  match k with
  | WaitRead _ => set_rwlock s (waitForRead_leave (tc_rwlock_ s))
  | WaitWrite _ => set_rwlock s (waitForWrite_leave (tc_rwlock_ s))
  | WaitSetup _ => s
  end.

(** What it does next is again a sequence of atomic effects. *)
Lemma resume_effs k s :
  wait_ok k -> readers_bounded s -> waiters_bounded (resume_leave k s) ->
  (forall sid, k = WaitSetup sid -> state_of s = TC_ACT) ->
  lock_effs (resume_leave k s) (res_state (resume k s)).
Proof.
  intros Hk Hb Hw Hact. destruct k as [sid|sid|sid]; simpl in *.
  - subst sid. unfold resume_read.
    case_bool_decide; simpl; [apply rtc_refl|]. by apply read_transition_loop_effs.
  - unfold resume_write. case_bool_decide as Ha; simpl; [|apply rtc_refl].
    apply write_audit_loop_effs; [|done]. by eapply allowed_write in Ha.
  - unfold resume_setup, AcquireWriteLockForAuditDriver.
    split_match; simpl; [apply rtc_refl|].
    apply write_audit_loop_effs; [|done]. by eapply Hact.
Qed.

(** ** Preservation of the counts *)

Lemma n_readers_bounds s : readers_bounded s -> 0 <= n_readers s <= R_READERS_MAX.
Proof.
  unfold n_readers, readers_bounded. destruct (in_transition s); simpl; lia.
Qed.

Lemma readers_pos (x : Z) (r : gset Z) : x ∈ r -> 1 <= Z.of_nat (size r).
Proof. intros H. rewrite (size_remove_old x) by done. lia. Qed.

(** A live object counts its readers exactly. *)
Lemma count_live n s : state_of s <> TC_STOP -> count_of n s -> n = n_readers s.
Proof. intros Hs [?|(?&_)]; done. Qed.

Lemma count_bounds n s : readers_bounded s -> count_of n s -> 0 <= n <= R_READERS_MAX.
Proof.
  intros Hb [->|(_&_&_&->)]; [by apply n_readers_bounds|]. rlia.
Qed.

(** Effects that leave readers, write lock and state alone. *)
Definition same_core (s s' : TcLock) : Prop :=
  tc_rwlock_ s' = tc_rwlock_ s /\ read_sessions s' = read_sessions s /\
  tc_state_lock_ s' = tc_state_lock_ s.

Lemma counts_inv_core s s' : same_core s s' -> counts_inv s -> counts_inv s'.
Proof.
  intros (E1 & E2 & E3) [Hi Hb Hc Hh Hf].
  unfold readers_bounded, count_of, n_readers, state_of, in_transition in *.
  constructor; unfold readers_bounded, count_of, n_readers, state_of, in_transition;
    rewrite ?E1, ?E2, ?E3; assumption.
Qed.

Section Effects.

Context (s : TcLock) (Hinv : counts_inv s).

Lemma counts_read_acquire sid :
  canReadLock sid (tc_rwlock_ s) = true -> sid ∉ read_sessions s ->
  state_of s <> TC_STOP ->
  Z.of_nat (size (read_sessions s)) < R_READERS_MAX - 1 ->
  counts_inv (set_sessions (set_rwlock s (setReader sid (tc_rwlock_ s)))
                ({[sid]} ∪ read_sessions s)).
Proof.
  destruct Hinv as [Hi Hb (n & Hn & Hc) Hh Hf]. intros Hr Hs Hst Hlt.
  apply count_live in Hn; [|done]. subst n.
  assert (0 <= n_readers s < R_READERS_MAX) as Hn.
  { unfold n_readers. destruct (in_transition s); simpl; lia. }
  destruct (setReader_writer (tc_rwlock_ s) sid) as [Ew1 Ew2].
  constructor; simpl; auto with vtn.
  - unfold readers_bounded. simpl. rewrite size_insert_new by done. lia.
  - exists (n_readers s + 1). split; [|by apply setReader_counts].
    left. unfold n_readers, in_transition. simpl. rewrite size_insert_new by done. lia.
  - rewrite (setReader_held _ (n_readers s)) by done. done.
  - unfold rw_free_ok. rewrite (setReader_held _ (n_readers s)), Ew1, Ew2 by done. done.
Qed.

Lemma counts_read_release sid :
  sid ∈ read_sessions s ->
  counts_inv (set_rwlock (set_sessions s (read_sessions s ∖ {[sid]}))
                (unlockRead sid (tc_rwlock_ s))).
Proof.
  destruct Hinv as [Hi Hb (n & Hn & Hc) Hh Hf]. intros Hs.
  assert (n = n_readers s) as ->.
  { destruct Hn as [->|(_&E&_)]; [done|]. set_solver. }
  pose proof (readers_pos _ _ Hs) as Hp.
  pose proof (n_readers_bounds s Hb) as [_ Hmax].
  assert (0 < n_readers s <= R_READERS_MAX) as Hb'.
  { unfold n_readers in *. destruct (in_transition s); simpl in *; lia. }
  destruct (unlockRead_writer (tc_rwlock_ s) sid) as [Ew1 Ew2].
  pose proof (size_remove_old sid _ Hs) as Hsz.
  constructor; simpl; auto with vtn.
  - unfold readers_bounded in *. simpl. lia.
  - exists (n_readers s - 1). split; [|by apply unlockRead_counts].
    left. unfold n_readers, in_transition. simpl. lia.
  - rewrite (unlockRead_held _ (n_readers s)) by done. done.
  - unfold rw_free_ok. rewrite (unlockRead_held _ (n_readers s)), Ew1, Ew2 by done. done.
Qed.

(** Taking and giving back the same read lock. *)
Lemma counts_read_again sid :
  canReadLock sid (tc_rwlock_ s) = true ->
  state_of s <> TC_STOP ->
  Z.of_nat (size (read_sessions s)) < R_READERS_MAX - 1 ->
  counts_inv (set_rwlock s (unlockRead sid (setReader sid (tc_rwlock_ s)))).
Proof.
  destruct Hinv as [Hi Hb (n & Hn & Hc) Hh Hf]. intros Hr Hst Hlt.
  apply count_live in Hn; [|done]. subst n.
  assert (0 <= n_readers s < R_READERS_MAX) as Hn.
  { unfold n_readers. destruct (in_transition s); simpl; lia. }
  pose proof (setReader_counts _ (n_readers s) sid Hr Hi Hn Hc) as Hc'.
  pose proof (setReader_held _ (n_readers s) sid Hr Hn Hc) as Hh'.
  destruct (setReader_writer (tc_rwlock_ s) sid) as [Ew1 Ew2].
  destruct (unlockRead_writer (setReader sid (tc_rwlock_ s)) sid) as [Ew3 Ew4].
  assert (0 < n_readers s + 1 <= R_READERS_MAX) as Hn' by lia. clear Hlt.
  constructor; simpl; auto with vtn.
  - exists (n_readers s). split; [by left|].
    replace (n_readers s) with (n_readers s + 1 - 1) by lia. by apply unlockRead_counts.
  - rewrite (unlockRead_held _ (n_readers s + 1)), Hh' by done. done.
  - unfold rw_free_ok. rewrite (unlockRead_held _ (n_readers s + 1)), Hh' by done.
    rewrite Ew3, Ew4, Ew1, Ew2. done.
Qed.

Lemma counts_trans_acquire :
  canReadLock 0 (tc_rwlock_ s) = true -> in_transition s = false ->
  state_of s <> TC_STOP ->
  counts_inv (set_rwlock (set_state_lock s (mkStateLock (state_of s) true))
                (setReader 0 (tc_rwlock_ s))).
Proof.
  destruct Hinv as [Hi Hb (n & Hn & Hc) Hh Hf]. intros Hr Ht Hst.
  apply count_live in Hn; [|done]. subst n.
  assert (0 <= n_readers s < R_READERS_MAX) as Hn.
  { unfold n_readers, readers_bounded in *. rewrite Ht. simpl. lia. }
  destruct (setReader_writer (tc_rwlock_ s) 0) as [Ew1 Ew2].
  constructor; simpl; auto with vtn.
  - exists (n_readers s + 1). split; [|by apply setReader_counts].
    left. unfold n_readers. rewrite Ht. unfold in_transition. simpl. lia.
  - rewrite (setReader_held _ (n_readers s)) by done. done.
  - unfold rw_free_ok. rewrite (setReader_held _ (n_readers s)), Ew1, Ew2 by done. done.
Qed.

Lemma counts_trans_release :
  in_transition s = true ->
  counts_inv (set_rwlock (set_state_lock s (mkStateLock (state_of s) false))
                (unlockRead 0 (tc_rwlock_ s))).
Proof.
  destruct Hinv as [Hi Hb (n & Hn & Hc) Hh Hf]. intros Ht.
  destruct Hn as [->|(_&_&E&_)]; [|congruence].
  assert (0 < n_readers s <= R_READERS_MAX) as Hn.
  { unfold n_readers, readers_bounded in *. rewrite Ht. simpl. lia. }
  destruct (unlockRead_writer (tc_rwlock_ s) 0) as [Ew1 Ew2].
  constructor; simpl; auto with vtn.
  - exists (n_readers s - 1). split; [|by apply unlockRead_counts].
    left. unfold n_readers. rewrite Ht. unfold in_transition. simpl. lia.
  - rewrite (unlockRead_held _ (n_readers s)) by done. done.
  - unfold rw_free_ok. rewrite (unlockRead_held _ (n_readers s)), Ew1, Ew2 by done. done.
Qed.

Lemma counts_write_acquire sid op :
  canWriteLock (tc_rwlock_ s) = true -> state_of s = TC_ACT ->
  counts_inv (set_rwlock s (setWriter sid op (tc_rwlock_ s))).
Proof.
  destruct Hinv as [Hi Hb (n & Hn & Hc) Hh Hf]. intros Hr Ht.
  pose proof (count_bounds _ _ Hb Hn).
  constructor; simpl; auto with vtn.
  - exists n. split; [done|]. apply setWriter_counts; [done|lia|done].
  - unfold rw_free_ok. by rewrite setWriter_held.
Qed.

Lemma counts_write_release :
  isWriteHeld (tc_rwlock_ s) = true ->
  counts_inv (set_rwlock s (write_released (tc_rwlock_ s))).
Proof.
  destruct Hinv as [Hi Hb (n & Hn & Hc) Hh Hf]. intros Hr.
  pose proof (count_bounds _ _ Hb Hn).
  constructor; simpl; auto with vtn.
  exists n. split; [done|]. by apply write_released_counts.
Qed.

Lemma counts_state st :
  update_ok (state_of s) st = true -> state_of s <> TC_STOP ->
  counts_inv (set_rwlock (set_state_lock s (mkStateLock st (in_transition s)))
                (wakeUp (tc_rwlock_ s))).
Proof.
  destruct Hinv as [Hi Hb (n & Hn & Hc) Hh Hf]. intros Hu Hst.
  apply count_live in Hn; [|done]. subst n.
  destruct (wakeUp_writer (tc_rwlock_ s)) as [Ew1 Ew2].
  constructor; simpl; auto with vtn.
  - exists (n_readers s). split; [by left|by apply wakeUp_counts].
  - rewrite wakeUp_held. intros Hw. destruct (Hh Hw) as [E|E]; [|done].
    unfold state_of in *. simpl. rewrite E in Hu. destruct st; try done; auto.
  - unfold rw_free_ok. rewrite wakeUp_held, Ew1, Ew2. done.
Qed.

Lemma counts_reset :
  state_of s = TC_STOP \/ (in_transition s = true /\ state_of s <> TC_ACT) ->
  counts_inv (ResetTcGlobalDataOnStateTransition s).
Proof.
  destruct Hinv as [Hi Hb Hc Hh Hf]. intros Hor.
  constructor; simpl.
  - done.
  - unfold readers_bounded, ResetTcGlobalDataOnStateTransition. cbn [read_sessions].
    rewrite size_empty. rlia.
  - exists 1. split.
    + unfold count_of, n_readers, in_transition, state_of in *. simpl.
      destruct (state_transition_in_progress (tc_state_lock_ s)) eqn:E; [by left|].
      right. naive_solver.
    + unfold rw_counts. simpl.
      destruct (is_simultaneous_read_write_allowed_ _); [auto|right; split; rlia].
  - unfold isWriteHeld. simpl. destruct (is_simultaneous_read_write_allowed_ _); done.
  - done.
Qed.

End Effects.

(** Who waits is not part of the counts. *)
Lemma counts_waiters s r w :
  counts_inv s -> counts_inv (set_rwlock s (set_waiters (tc_rwlock_ s) r w)).
Proof. intros []. by constructor. Qed.

(** The counts invariant holds along every sequence of effects. *)
Lemma counts_inv_eff s s' : counts_inv s -> lock_eff s s' -> counts_inv s'.
Proof.
  intros Hinv Heff. inversion Heff; subst;
    try (eapply counts_inv_core; [|exact Hinv]; done).
  - by apply counts_read_acquire.
  - by apply counts_read_again.
  - by apply counts_read_release.
  - by apply counts_trans_acquire.
  - by apply counts_trans_release.
  - by apply counts_write_acquire.
  - apply counts_write_release; [done|]. unfold isWriteHeldBy in *. by bool_norm.
  - apply counts_waiters; exact Hinv.
  - by apply counts_state.
  - by apply counts_reset.
Qed.

Lemma counts_inv_effs s s' : lock_effs s s' -> counts_inv s -> counts_inv s'.
Proof. intros Hr Hi. eapply rtc_invariant; eauto using counts_inv_eff. Qed.

(** ** Preservation of the configuration session *)

(** Effects on the read/write lock that keep who writes. *)
Lemma candidate_same s s' :
  w_operation (tc_rwlock_ s') = w_operation (tc_rwlock_ s) ->
  isWriteHeld (tc_rwlock_ s') = isWriteHeld (tc_rwlock_ s) ->
  candidate_write_held s' = candidate_write_held s.
Proof. intros E1 E2. unfold candidate_write_held. by rewrite E1, E2. Qed.

(** The configuration is unchanged and no candidate write starts. *)
Lemma config_inv_same s s' :
  tc_config_lock_ s' = tc_config_lock_ s ->
  (candidate_write_held s' = true ->
   candidate_write_held s = true /\
   w_session_id (tc_rwlock_ s') = w_session_id (tc_rwlock_ s)) ->
  config_inv s -> config_inv s'.
Proof.
  intros Ec Hcw [H1 H2 H3 H4 H5]. constructor; rewrite ?Ec; try assumption.
  intros Hc. destruct (Hcw Hc) as [Hc' ->]. by apply H5.
Qed.

(** The readers' effects keep the writer. *)
Lemma config_inv_reader s s' :
  tc_config_lock_ s' = tc_config_lock_ s ->
  w_operation (tc_rwlock_ s') = w_operation (tc_rwlock_ s) ->
  w_session_id (tc_rwlock_ s') = w_session_id (tc_rwlock_ s) ->
  isWriteHeld (tc_rwlock_ s') = isWriteHeld (tc_rwlock_ s) ->
  config_inv s -> config_inv s'.
Proof.
  intros Ec E1 E2 E3. apply config_inv_same; [done|].
  rewrite (candidate_same s s') by done. done.
Qed.

Lemma GetConfigId_range c : is_u32 c -> 1 <= GetConfigId c <= UINT32_MAX.
Proof.
  intros H. unfold GetConfigId, TC_START_CONFIG_ID. case_bool_decide; [ulia|].
  rewrite u32_inc_small by ulia. ulia.
Qed.

Lemma config_acquire_inv s sid :
  config_inv s -> is_notify_pending (tc_config_lock_ s) = false ->
  (is_taken (tc_config_lock_ s) = true -> candidate_write_held s = false) ->
  config_inv (UpdateConfigData sid s).
Proof.
  intros [H1 H2 H3 H4 H5] Hp Hc.
  pose proof (GetConfigId_range _ H1) as Hr.
  constructor; simpl; try done; try ulia.
  change (candidate_write_held (UpdateConfigData sid s)) with (candidate_write_held s).
  intros Hcw. destruct (H5 Hcw) as (Ht & _). rewrite (Hc Ht) in Hcw. done.
Qed.

Lemma config_notify_inv s sid cid nop :
  config_inv s ->
  notify_operation (tc_config_lock_ s) = nop ->
  session_id (tc_config_lock_ s) = sid ->
  config_id (tc_config_lock_ s) = cid ->
  config_inv (set_conf s (mkConf (config_id (tc_config_lock_ s))
      (if nop ==? TC_NOTIFY_RELEASE then 0 else session_id (tc_config_lock_ s))
      (if marked_session_id (tc_config_lock_ s) ==? sid then 0
       else marked_session_id (tc_config_lock_ s))
      (is_taken (tc_config_lock_ s)) false TC_NOTIFY_NONE)).
Proof.
  intros [H1 H2 H3 H4 H5] En Es Ei. constructor; simpl; try done.
  - intros Ht _. case_bool_decide; [done|]. apply H4; [done|].
    rewrite En in H3. destruct nop; [done| |done]. destruct H3; congruence.
  - change (candidate_write_held (set_conf s _)) with (candidate_write_held s).
    intros Hcw. destruct (H5 Hcw) as (Ht & Hp & Hw). repeat split; try done.
    rewrite En in H3. destruct nop; [exact Hw| |]; destruct H3; congruence.
Qed.

(** How an effect can change the writer: not at all, by a new writer, or by
    freeing the write lock. *)
Definition writer_same (s s' : TcLock) : Prop :=
  isWriteHeld (tc_rwlock_ s') = isWriteHeld (tc_rwlock_ s) /\
  w_operation (tc_rwlock_ s') = w_operation (tc_rwlock_ s) /\
  w_session_id (tc_rwlock_ s') = w_session_id (tc_rwlock_ s).

Lemma eff_writer_same s s' :
  counts_inv s -> lock_eff s s' ->
  writer_same s s' \/
  (exists sid op, canWriteLock (tc_rwlock_ s) = true /\ op <> TC_WRITE_NONE /\
     (candidate_op op -> config_held_by sid s) /\
     s' = set_rwlock s (setWriter sid op (tc_rwlock_ s))) \/
  (exists sid, may_release R sid /\ isWriteHeldBy sid (tc_rwlock_ s) = true /\
     s' = set_rwlock s (write_released (tc_rwlock_ s))) \/
  (may_reset R /\ s' = ResetTcGlobalDataOnStateTransition s).
Proof.
  intros [Hi Hb (n & Hn & Hc) Hh Hf] Heff. pose proof (count_bounds _ _ Hb Hn) as Hnb.
  unfold writer_same.
  inversion Heff; subst; try (left; done).
  - apply count_live in Hn as ->; [|done]. left. simpl.
    split; [|apply setReader_writer]. apply (setReader_held _ (n_readers s)); try done.
    clear -H2. unfold n_readers. destruct (in_transition s); simpl; lia.
  - apply count_live in Hn as ->; [|done]. left. simpl.
    assert (0 <= n_readers s < R_READERS_MAX) as Hn
      by (clear -H3; unfold n_readers; destruct (in_transition s); simpl; lia).
    destruct (setReader_writer (tc_rwlock_ s) sid) as [E1 E2].
    destruct (unlockRead_writer (setReader sid (tc_rwlock_ s)) sid) as [E3 E4].
    split; [|by rewrite E3, E4].
    transitivity (isWriteHeld (setReader sid (tc_rwlock_ s))).
    + apply (unlockRead_held _ (n_readers s + 1)); [lia|]. by apply setReader_counts.
    + by apply (setReader_held _ (n_readers s)).
  - left. simpl. split; [|apply unlockRead_writer].
    apply (unlockRead_held _ n); [|done]. pose proof (readers_pos _ _ H) as Hp.
    destruct Hn as [->|(_&E&_)]; [|set_solver].
    unfold n_readers in *. destruct (in_transition s); simpl in *; lia.
  - apply count_live in Hn as ->; [|done]. left. simpl.
    split; [|apply setReader_writer]. apply (setReader_held _ (n_readers s)); try done.
    unfold n_readers, readers_bounded in *. rewrite H0. simpl. lia.
  - left. simpl. split; [|apply unlockRead_writer].
    apply (unlockRead_held _ n); [|done].
    destruct Hn as [->|(_&_&E&_)]; [|congruence].
    unfold n_readers in *. rewrite H in *. simpl in *. lia.
  - right; left. eauto 10.
  - right; right; left. eauto.
  - left. simpl. rewrite wakeUp_held. split; [done|apply wakeUp_writer].
  - auto.
Qed.

Lemma setWriter_candidate s sid op :
  candidate_write_held (set_rwlock s (setWriter sid op (tc_rwlock_ s))) = true ->
  candidate_op op.
Proof.
  unfold candidate_write_held. simpl. rewrite setWriter_held, andb_true_r. intros Hc.
  unfold candidate_op. bool_norm. destruct Hc; bool_norm; auto.
Qed.

Lemma setWriter_session sid op l : w_session_id (setWriter sid op l) = sid.
Proof. unfold setWriter. by destruct (is_simultaneous_read_write_allowed_ l). Qed.

Lemma setWriter_operation sid op l : w_operation (setWriter sid op l) = op.
Proof. unfold setWriter. by destruct (is_simultaneous_read_write_allowed_ l). Qed.

(** Effects that leave the configuration alone keep its invariant. *)
Lemma config_inv_rest s s' :
  counts_inv s -> config_inv s -> lock_eff s s' ->
  tc_config_lock_ s' = tc_config_lock_ s -> config_inv s'.
Proof.
  intros Hc Hinv Heff Econf.
  destruct (eff_writer_same _ _ Hc Heff) as
    [(E1&E2&E3)|[(sid&op&Hcan&Hne&Hcand&->)|[(sid&_&Hheld&->)|(_&Er)]]].
  - by apply (config_inv_reader s).
  - destruct Hinv as [H1 H2 H3 H4 H5]. constructor; try assumption.
    intros Hcw. apply setWriter_candidate in Hcw.
    by apply Hcand.
  - apply (config_inv_same s); [done| |done]. unfold candidate_write_held. simpl.
    rewrite write_released_held, andb_false_r. done.
  - subst. apply (config_inv_same s); [done| |done].
    unfold candidate_write_held. simpl. done.
Qed.

Lemma config_reset_inv s :
  config_inv s -> config_inv (ResetTcGlobalDataOnStateTransition s).
Proof. intros [H1 H2 H3 H4 H5]. constructor; done. Qed.

Lemma config_inv_eff s s' :
  counts_inv s -> config_inv s -> lock_eff s s' -> config_inv s'.
Proof.
  intros Hc Hinv Heff.
  inversion Heff; subst; try (apply (config_inv_rest s); [exact Hc|exact Hinv|exact Heff|reflexivity]).
  - by apply config_acquire_inv.
  - destruct Hinv as [H1' H2' H3' H4' H5']. constructor; simpl; try done.
    change (candidate_write_held (set_conf s _)) with (candidate_write_held s). congruence.
  - by eapply config_notify_inv.
  - by destruct Hinv.
  - by apply config_reset_inv.
Qed.

(** ** Preservation of the privileged flags

    This needs the rule that a privileged session does not acquire twice: the
    effect [eff_read_again] of such a session clears its flag. *)

Lemma flags_inv_same s s' :
  is_simultaneous_read_write_allowed_ (tc_rwlock_ s') =
    is_simultaneous_read_write_allowed_ (tc_rwlock_ s) ->
  r_db_mgmt_session (tc_rwlock_ s') = r_db_mgmt_session (tc_rwlock_ s) ->
  r_launcher_session (tc_rwlock_ s') = r_launcher_session (tc_rwlock_ s) ->
  read_sessions s' = read_sessions s -> flags_inv s -> flags_inv s'.
Proof. unfold flags_inv. by intros -> -> -> ->. Qed.

Lemma flags_inv_eff s s' :
  (forall sid, may_reread R sid -> not_privileged sid) ->
  rw_ids (tc_rwlock_ s) -> flags_inv s -> lock_eff s s' -> flags_inv s'.
Proof.
  intros Hnp Hi Hfl Heff. inversion Heff; subst;
    try (apply (flags_inv_same s); done); unfold flags_inv in *;
    cbn [tc_rwlock_ set_rwlock set_sessions set_state_lock read_sessions].
  - rewrite setReader_mode. unfold mode. intros Hm. specialize (Hfl Hm).
    pose proof (setReader_flags _ sid Hi Hm). set_solver.
  - rewrite unlockRead_mode. unfold mode. rewrite setReader_mode. unfold mode. intros Hm.
    specialize (Hfl Hm).
    pose proof (setReader_flags _ sid Hi Hm) as Hf1.
    pose proof (unlockRead_flags (setReader sid (tc_rwlock_ s)) sid
      (setReader_ids _ sid Hi)) as Hf2.
    rewrite setReader_mode in Hf2. specialize (Hf2 Hm).
    destruct (Hnp sid) as [Hp1 Hp2]; [done|]. naive_solver.
  - rewrite unlockRead_mode. unfold mode. intros Hm. specialize (Hfl Hm).
    pose proof (unlockRead_flags _ sid Hi Hm). set_solver.
  - rewrite setReader_mode. unfold mode. intros Hm. specialize (Hfl Hm).
    pose proof (setReader_flags _ 0 Hi Hm) as [Hf1 Hf2].
    rewrite Hf1, Hf2. naive_solver rlia.
  - rewrite unlockRead_mode. unfold mode. intros Hm. specialize (Hfl Hm).
    pose proof (unlockRead_flags _ 0 Hi Hm) as [Hf1 Hf2].
    rewrite Hf1, Hf2. naive_solver rlia.
  - rewrite setWriter_mode. unfold mode. intros Hm. specialize (Hfl Hm).
    destruct (setWriter_flags (tc_rwlock_ s) sid op) as [-> ->]. done.
  - rewrite write_released_mode. unfold mode. intros Hm. specialize (Hfl Hm).
    destruct (write_released_flags (tc_rwlock_ s)) as [-> ->]. done.
  - rewrite wakeUp_mode. unfold mode. intros Hm. specialize (Hfl Hm).
    destruct (wakeUp_flags (tc_rwlock_ s)) as [-> ->]. done.
  - intros _. simpl. set_solver.
Qed.

End Protocol.
