(* ===== verification/TcLockSystem.v ===== *)
(** * The exclusion object shared by the threads of the daemon

    The calls on [TcLock] interleaved in any order: a call runs in one section
    of the global mutex; a thread that waits on the condition variable gives
    the mutex up and may go on at any time, signalled or not (spurious
    wake-ups included); the driver-audit thread that polls
    [setup_complete_done_] keeps the mutex, so that only the unprotected store
    of that flag can run.  Reachability in this system carries the invariants
    of TcLockProps, from which the safety theorems of the object follow. *)

From S2P Require Import Prelude TcTypes TcRwLock TcLock TcLockProps.

Local Open Scope Z_scope.

(** ** The system *)

Record Sys := mkSys {
  sys_lock : TcLock;
  sys_waiting : list (WaitKind * Z);  (* with the broadcasts counted when it began *)
  sys_spin : option Z                 (* a thread polling with the mutex held *)
}.

(** Where the calling thread is after a call. *)
Definition settle (r : LockRes) (rest : list (WaitKind * Z)) : Sys :=
  match r with
  | Done _ l => mkSys l rest None
  | Blocked (WaitSetup sid) l => mkSys l rest (Some sid)
  | Blocked k l => mkSys l ((k, rw_broadcasts (tc_rwlock_ l)) :: rest) None
  end.

Section System.

Context (again : Z -> Prop).

Inductive sys_step : Sys -> Sys -> Prop :=
| step_call S o :
    sys_spin S = None ->
    client_ok o (sys_lock S) ->
    reacquire_ok again o (sys_lock S) ->
    Z.of_nat (length (sys_waiting S)) < UINT32_MAX ->
    sys_step S (settle (lock_call o (sys_lock S)) (sys_waiting S))
| step_resume S k g pre post :
    sys_spin S = None ->
    sys_waiting S = pre ++ (k, g) :: post ->
    sys_step S (settle (resume k (sys_lock S)) (pre ++ post))
| step_spin S sid :
    sys_spin S = Some sid ->
    Z.of_nat (length (sys_waiting S)) < UINT32_MAX ->
    sys_step S (settle (resume_setup sid (sys_lock S)) (sys_waiting S))
| step_setup S b :
    sys_step S (mkSys (TcSetSetupComplete b (sys_lock S)) (sys_waiting S) (sys_spin S)).

Definition sys_init (simultaneous : bool) : Sys := mkSys (lock_init simultaneous) [] None.

Definition reachable (simultaneous : bool) (S : Sys) : Prop :=
  rtc sys_step (sys_init simultaneous) S.

(** ** The waiter counter *)

Definition is_write_wait (w : WaitKind * Z) : bool :=
  match w.1 with WaitWrite _ => true | _ => false end.

Definition n_write_waits (ws : list (WaitKind * Z)) : Z :=
  Z.of_nat (length (List.filter is_write_wait ws)).

Lemma n_write_waits_app ws ws' :
  n_write_waits (ws ++ ws') = n_write_waits ws + n_write_waits ws'.
Proof. unfold n_write_waits. rewrite List.filter_app, length_app. lia. Qed.

Lemma n_write_waits_bounds ws : 0 <= n_write_waits ws <= Z.of_nat (length ws).
Proof.
  unfold n_write_waits. pose proof (List.filter_length_le is_write_wait ws). lia.
Qed.

Lemma n_write_waits_cons w ws :
  n_write_waits (w :: ws) = Z.b2z (is_write_wait w) + n_write_waits ws.
Proof.
  unfold n_write_waits. simpl. destruct (is_write_wait w); simpl length; simpl Z.b2z; lia.
Qed.

(** A blocked writer has counted itself, and nothing else changes the count. *)
Definition waits_counted (s : TcLock) (r : LockRes) : Prop :=
  w_waiter (tc_rwlock_ (res_state r)) =
    match r with
    | Blocked (WaitWrite _) _ => u32_inc (w_waiter (tc_rwlock_ s))
    | _ => w_waiter (tc_rwlock_ s)
    end.

Lemma wakeUp_waiter l : w_waiter (wakeUp l) = w_waiter l.
Proof. unfold wakeUp. by destruct (isWaiting l). Qed.

Lemma setReader_waiter sid l : w_waiter (setReader sid l) = w_waiter l.
Proof. unfold setReader. by repeat split_match. Qed.

Lemma setWriter_waiter sid op l : w_waiter (setWriter sid op l) = w_waiter l.
Proof. unfold setWriter. by destruct (is_simultaneous_read_write_allowed_ l). Qed.

Lemma unlockRead_waiter sid l : w_waiter (unlockRead sid l) = w_waiter l.
Proof. unfold unlockRead. repeat split_match; by rewrite ?wakeUp_waiter. Qed.

Lemma write_released_waiter l : w_waiter (write_released l) = w_waiter l.
Proof. unfold write_released. by rewrite wakeUp_waiter. Qed.

(** Compare the waiter counts of two results. *)
Ltac waiters_done :=
  cbn [res_state fst snd set_rwlock set_conf set_sessions set_auto_save set_state_lock
       set_setup_complete tc_rwlock_];
  rewrite ?wakeUp_waiter, ?unlockRead_waiter, ?setReader_waiter, ?setWriter_waiter,
    ?write_released_waiter; reflexivity.

(** Split a call into its branches first. *)
Ltac waiters_solve :=
  unfold waits_counted, returns;
  repeat (split_match; cbn [res_state fst snd]); waiters_done.

Lemma read_transition_loop_waits sid s : waits_counted s (read_transition_loop sid s).
Proof. unfold read_transition_loop. waiters_solve. Qed.

Lemma write_audit_loop_waits sid s : waits_counted s (write_audit_loop sid s).
Proof. unfold write_audit_loop. waiters_solve. Qed.

Lemma try_write_waits sid op s : waits_counted s (returns (try_write sid op s)).
Proof. unfold try_write, tryWriteLock. waiters_solve. Qed.

Lemma AcquireWriteLock_waits sid op s : waits_counted s (AcquireWriteLock sid op s).
Proof.
  destruct op; try exact (try_write_waits sid _ s); try reflexivity; simpl.
  - unfold AcquireWriteLockForAuditDriver.
    split_match; [reflexivity|apply write_audit_loop_waits].
  - unfold AcquireWriteLockForCommit. split_match; [reflexivity|apply try_write_waits].
  - unfold AcquireWriteLockForAbortCandidateConfig.
    split_match; [reflexivity|apply try_write_waits].
Qed.

Lemma auto_save_then_write_waits sid op s : waits_counted s (auto_save_then_write sid op s).
Proof.
  unfold auto_save_then_write, AutoSaveEnable. destruct (is_enable s); [reflexivity|].
  simpl. pose proof (AcquireWriteLock_waits sid op (set_auto_save s true)) as H.
  destruct (AcquireWriteLock _ _ _) as [r s2|k s2]; [|exact H].
  unfold waits_counted in *. cbn [res_state] in H. unfold AutoSaveDisable. split_match;
    [|exact H]. cbn [res_state]. split_match; exact H.
Qed.

Lemma ReleaseWriteLock_waits sid op s : waits_counted s (returns (ReleaseWriteLock sid op s)).
Proof. unfold ReleaseWriteLock, unlockWrite. waiters_solve. Qed.

Lemma auto_save_release_waits sid op s :
  waits_counted s (returns (auto_save_release sid op s)).
Proof.
  unfold auto_save_release, AutoSaveDisable. destruct (is_enable s); [|reflexivity].
  simpl. pose proof (ReleaseWriteLock_waits sid op (set_auto_save s false)) as H.
  destruct (ReleaseWriteLock _ _ _) as [r s2].
  unfold waits_counted, returns in *. cbn [res_state fst snd] in H.
  unfold AutoSaveEnable. split_match; [|exact H]. cbn [fst snd res_state].
  split_match; exact H.
Qed.

Lemma GetLock_waits sid op wop s : waits_counted s (GetLock sid op wop s).
Proof.
  unfold GetLock. split_match; [reflexivity|].
  destruct op; try reflexivity;
    auto using AcquireWriteLock_waits, auto_save_then_write_waits,
      read_transition_loop_waits.
  - unfold AcquireConfigLock. waiters_solve.
  - unfold ForceAcquireConfigLock. waiters_solve.
  - unfold AcquireReadLock, tryReadLock. waiters_solve.
  - unfold AutoSaveEnable. waiters_solve.
Qed.

Lemma ReleaseLock_waits sid cid op wop s :
  waits_counted s (returns (ReleaseLock sid cid op wop s)).
Proof.
  destruct op; try reflexivity; cbn [ReleaseLock];
    auto using ReleaseWriteLock_waits, auto_save_release_waits.
  - unfold ReleaseConfigLock. waiters_solve.
  - unfold ReleaseReadLock. waiters_solve.
  - unfold AutoSaveDisable. waiters_solve.
  - unfold TcReleaseReadLockForStateTransition. waiters_solve.
Qed.

Lemma lock_call_waits o s : waits_counted s (lock_call o s).
Proof.
  destruct o; cbn [lock_call]; auto using GetLock_waits, ReleaseLock_waits.
  - unfold NotifyConfigIdSessionIdDone. waiters_solve.
  - unfold TcMarkSessionId. waiters_solve.
  - unfold TcUpdateUncState. waiters_solve.
  - waiters_solve.
  - reflexivity.
Qed.

(** A resumed thread counts from the state it leaves the wait in. *)
Lemma resume_waits k s : waits_counted (resume_leave k s) (resume k s).
Proof.
  destruct k; cbn [resume resume_leave].
  - unfold resume_read. split_match; [reflexivity|apply read_transition_loop_waits].
  - unfold resume_write. split_match; [reflexivity|apply write_audit_loop_waits].
  - exact (AcquireWriteLock_waits _ TC_AUDIT_DRIVER s).
Qed.

(** ** The invariant of the system *)

Definition waits_on_cond (k : WaitKind) : Prop :=
  wait_ok k /\ match k with WaitSetup _ => False | _ => True end.

Record sys_inv (S : Sys) : Prop := {
  si_counts : counts_inv (sys_lock S);
  si_config : config_inv (sys_lock S);
  si_waits : Forall (fun w => waits_on_cond w.1) (sys_waiting S);
  si_spin : sys_spin S <> None -> state_of (sys_lock S) = TC_ACT;
  si_length : Z.of_nat (length (sys_waiting S)) <= UINT32_MAX;
  si_waiter : w_waiter (tc_rwlock_ (sys_lock S)) = n_write_waits (sys_waiting S)
}.

Lemma config_inv_effs s s' :
  rtc (lock_eff (rules again)) s s' -> counts_inv s -> config_inv s -> config_inv s'.
Proof.
  induction 1 as [|s1 s2 s3 Heff _ IH]; [done|]. intros Hc Hf.
  apply IH; [by eapply counts_inv_eff|by eapply config_inv_eff].
Qed.

(** A call that waits names the session that called; the two calls that wait
    for the state-transition lock use session 0. *)
Lemma lock_call_wait_ok o s k s' :
  client_ok o s -> lock_call o s = Blocked k s' -> wait_ok k.
Proof.
  destruct o as [sid op wop|sid cid op wop| | | | |]; try done.
  cbn [lock_call]. unfold GetLock. split_match; [done|].
  destruct op; try done; cbn [client_ok]; intros Hok.
  - destruct wop; try done. simpl. unfold AcquireWriteLockForAuditDriver, write_audit_loop.
    repeat split_match; intros [= <- <-]; exact I.
  - unfold auto_save_then_write. split_match. split_match; [|done]. simpl.
    split_match; [done|]. done.
  - unfold auto_save_then_write. split_match. split_match; [|done]. simpl.
    split_match; [done|]. done.
  - unfold TcAcquireReadLockForStateTransition, read_transition_loop.
    split_match; intros [= <- <-]; exact Hok.
Qed.

(** Settling keeps the invariant when the state part does. *)
Lemma settle_inv s r ws :
  counts_inv (res_state r) -> config_inv (res_state r) ->
  Forall (fun w => waits_on_cond w.1) ws ->
  Z.of_nat (length ws) < UINT32_MAX ->
  w_waiter (tc_rwlock_ s) = n_write_waits ws ->
  waits_counted s r ->
  (forall k s', r = Blocked k s' -> wait_ok k) ->
  (forall sid s', r = Blocked (WaitSetup sid) s' -> state_of s' = TC_ACT) ->
  sys_inv (settle r ws).
Proof.
  intros Hc Hf Hws Hlen Hw Hcnt Hok Hsp. unfold waits_counted in Hcnt.
  pose proof (n_write_waits_bounds ws) as Hb.
  destruct r as [ret s'|[sid|sid|sid] s']; simpl in *.
  - constructor; simpl; try done; lia.
  - constructor; simpl; try done; [|lia|].
    + constructor; [|done]. split; [by apply (Hok _ s')|done].
    + rewrite n_write_waits_cons, Hcnt, Hw. simpl. lia.
  - constructor; simpl; try done; [constructor; [by apply conj|done]|lia|].
    + rewrite n_write_waits_cons, Hcnt, Hw. simpl.
      rewrite u32_inc_small by ulia. lia.
  - constructor; simpl; try done; [|lia|lia]. intros _. by apply (Hsp sid).
Qed.

Lemma sys_init_inv sim : sys_inv (sys_init sim).
Proof.
  constructor; [..|done].
  - constructor; try done.
    + exists 0. split; [by left|]. destruct sim; [by split; [|left]|by right].
    + intros H. destruct sim; discriminate H.
  - constructor; done.
  - constructor.
  - done.
  - done.
Qed.

Lemma resume_wait_ok k s k' s' : wait_ok k -> resume k s = Blocked k' s' -> wait_ok k'.
Proof.
  destruct k as [sid|sid|sid]; cbn [resume]; intros Hk.
  - unfold resume_read, read_transition_loop. repeat split_match; intros [= <- <-]. done.
  - unfold resume_write, write_audit_loop. repeat split_match; by intros [= <- <-].
  - unfold resume_setup, AcquireWriteLockForAuditDriver, write_audit_loop.
    repeat split_match; by intros [= <- <-].
Qed.

(** Only a driver audit in state ACT starts polling, and it changes nothing. *)
Lemma lock_call_spin o s sid s' :
  lock_call o s = Blocked (WaitSetup sid) s' -> state_of s' = TC_ACT.
Proof.
  destruct o as [sid' op wop|sid' cid op wop| | | | |]; try done.
  cbn [lock_call]. unfold GetLock. case_bool_decide as Ha; simpl; [|done].
  destruct op; try done.
  - destruct wop; try done. simpl. unfold AcquireWriteLockForAuditDriver, write_audit_loop.
    repeat split_match; intros [= <- <-]; by eapply allowed_write.
  - unfold auto_save_then_write. split_match. split_match; [|done]. simpl. by split_match.
  - unfold auto_save_then_write. split_match. split_match; [|done]. simpl. by split_match.
  - unfold TcAcquireReadLockForStateTransition, read_transition_loop. by split_match.
Qed.

(** Each step from a state with the invariant. *)
Section Steps.

Context (S : Sys) (Hinv : sys_inv S).

Lemma call_inv o :
  client_ok o (sys_lock S) -> reacquire_ok again o (sys_lock S) ->
  Z.of_nat (length (sys_waiting S)) < UINT32_MAX ->
  sys_inv (settle (lock_call o (sys_lock S)) (sys_waiting S)).
Proof.
  destruct Hinv as [Hc Hf Hws Hsp Hlen Hw]. intros Hok Hag Hlt.
  pose proof (ci_bound _ Hc) as Hb.
  pose proof (n_write_waits_bounds (sys_waiting S)) as Hnb.
  assert (rtc (lock_eff (rules again)) (sys_lock S) (res_state (lock_call o (sys_lock S)))) as He.
  { apply lock_call_effs; [exact Hok|by apply reacquire_call_ok|exact Hb|]. unfold waiters_bounded. lia. }
  apply (settle_inv (sys_lock S)); try assumption.
  - by eapply counts_inv_effs.
  - by eapply config_inv_effs.
  - apply lock_call_waits.
  - intros. by eapply lock_call_wait_ok.
  - intros. by eapply lock_call_spin.
Qed.

(** A waiting thread leaves the wait. *)
Lemma leave_inv k g pre post :
  sys_waiting S = pre ++ (k, g) :: post ->
  waits_on_cond k /\ Forall (fun w => waits_on_cond w.1) (pre ++ post) /\
  Z.of_nat (length (pre ++ post)) < UINT32_MAX /\
  w_waiter (tc_rwlock_ (resume_leave k (sys_lock S))) = n_write_waits (pre ++ post) /\
  counts_inv (resume_leave k (sys_lock S)) /\ config_inv (resume_leave k (sys_lock S)).
Proof.
  destruct Hinv as [Hc Hf Hws Hsp Hlen Hw]. intros Hsplit. rewrite Hsplit in *.
  apply Forall_app in Hws as [Hpre Hpost]. inversion Hpost as [|? ? Hk Hpost']; subst.
  rewrite n_write_waits_app, n_write_waits_cons in *. rewrite length_app in *.
  simpl length in Hlen.
  pose proof (n_write_waits_bounds pre). pose proof (n_write_waits_bounds post).
  split_and!; try done; try lia; [by apply Forall_app|..].
  - destruct k; simpl in *; try lia. rewrite u32_dec_small by ulia. lia.
  - destruct k; [by apply counts_waiters|by apply counts_waiters|done].
  - destruct k; by destruct Hf.
Qed.

Lemma resume_inv k g pre post :
  sys_waiting S = pre ++ (k, g) :: post ->
  sys_inv (settle (resume k (sys_lock S)) (pre ++ post)).
Proof.
  intros Hsplit. destruct (leave_inv _ _ _ _ Hsplit) as ([Hk1 Hk2]&Hws&Hlt&Hw&Hc&Hf).
  pose proof (n_write_waits_bounds (pre ++ post)) as Hnb.
  assert (rtc (lock_eff (rules again)) (resume_leave k (sys_lock S))
            (res_state (resume k (sys_lock S)))) as He.
  { apply resume_effs; [done|exact (ci_bound _ (si_counts _ Hinv))| |].
    - unfold waiters_bounded. lia.
    - intros sid ->. done. }
  apply (settle_inv (resume_leave k (sys_lock S))); try assumption.
  - by eapply counts_inv_effs.
  - by eapply config_inv_effs.
  - apply resume_waits.
  - intros. by eapply resume_wait_ok.
  - intros sid s'. destruct k; simpl; try done.
    + unfold resume_read, read_transition_loop. by repeat split_match.
    + unfold resume_write, write_audit_loop. by repeat split_match.
Qed.

Lemma spin_inv sid :
  sys_spin S = Some sid -> Z.of_nat (length (sys_waiting S)) < UINT32_MAX ->
  sys_inv (settle (resume_setup sid (sys_lock S)) (sys_waiting S)).
Proof.
  destruct Hinv as [Hc Hf Hws Hsp Hlen Hw]. intros Hsome Hlt.
  pose proof (n_write_waits_bounds (sys_waiting S)) as Hnb.
  assert (state_of (sys_lock S) = TC_ACT) as Hact by (apply Hsp; by rewrite Hsome).
  assert (rtc (lock_eff (rules again)) (sys_lock S)
            (res_state (resume_setup sid (sys_lock S)))) as He.
  { apply (resume_effs (rules again) (WaitSetup sid) (sys_lock S)); [done|exact (ci_bound _ Hc)| |done].
    unfold waiters_bounded. simpl. lia. }
  apply (settle_inv (sys_lock S)); try assumption.
  - by eapply counts_inv_effs.
  - by eapply config_inv_effs.
  - apply (resume_waits (WaitSetup sid)).
  - intros k s' Hr. by apply (resume_wait_ok (WaitSetup sid) (sys_lock S) k s').
  - intros sid' s'. unfold resume_setup, AcquireWriteLockForAuditDriver, write_audit_loop.
    repeat split_match; by intros [= <- <-].
Qed.

End Steps.

Lemma sys_inv_step S S' : sys_inv S -> sys_step S S' -> sys_inv S'.
Proof.
  intros Hinv Hstep. destruct Hstep.
  - by apply call_inv.
  - by eapply resume_inv.
  - by apply spin_inv.
  - destruct Hinv as [Hc Hf Hws Hsp Hlen Hw]. constructor; try done; simpl.
    + eapply counts_inv_core; [|exact Hc]; done.
    + by destruct Hf.
Qed.

Lemma reachable_inv sim S : reachable sim S -> sys_inv S.
Proof.
  intros Hr. exact (rtc_invariant _ _ _ _ (sys_init_inv sim) sys_inv_step Hr).
Qed.

(** Where a step takes the object: effects, after leaving the wait. *)
Lemma step_effs S S' :
  sys_inv S -> sys_step S S' ->
  (exists k, rtc (lock_eff (rules again)) (resume_leave k (sys_lock S)) (sys_lock S')).
Proof.
  intros Hinv Hstep. assert (forall r ws, sys_lock (settle r ws) = res_state r) as Hset.
  { intros [|[]] ws; done. }
  pose proof (ci_bound _ (si_counts _ Hinv)) as Hb.
  pose proof (n_write_waits_bounds (sys_waiting S)) as Hnb.
  pose proof (si_waiter _ Hinv) as Hw.
  destruct Hstep as [S o Hnone Hok Hag Hlt|S k g pre post Hnone Hsplit|S sid Hsome Hlt|S b];
    rewrite ?Hset.
  - exists (WaitSetup 0). apply lock_call_effs; [exact Hok|by apply reacquire_call_ok|exact Hb|]. unfold waiters_bounded. lia.
  - exists k. destruct (leave_inv _ Hinv _ _ _ _ Hsplit) as ([Hk1 Hk2]&_&Hlt&Hw'&_).
    apply resume_effs; [done|done| |].
    + pose proof (n_write_waits_bounds (pre ++ post)). unfold waiters_bounded. lia.
    + intros sid ->. done.
  - exists (WaitSetup sid). apply (resume_effs (rules again) (WaitSetup sid) (sys_lock S)); try done.
    + unfold waiters_bounded. simpl. lia.
    + intros _ _. apply (si_spin _ Hinv). by rewrite Hsome.
  - exists (WaitSetup 0). apply rtc_once, eff_setup.
Qed.

(** A property of the object that the effects and the waiter counts keep holds
    in every reachable state. *)
Lemma lock_property (P : TcLock -> Prop) sim S :
  P (lock_init sim) ->
  (forall s s', counts_inv s -> P s -> lock_eff (rules again) s s' -> P s') ->
  (forall s r w, P s -> P (set_rwlock s (set_waiters (tc_rwlock_ s) r w))) ->
  reachable sim S -> P (sys_lock S).
Proof.
  intros H0 Heff Hwait Hr.
  assert (sys_inv S /\ P (sys_lock S)) as [_ ?]; [|done].
  refine (rtc_invariant sys_step (fun T => sys_inv T /\ P (sys_lock T)) _ S _ _ Hr).
  { split; [apply sys_init_inv|done]. }
  intros T T' [Hinv HP] Hstep. split; [by eapply sys_inv_step|].
  destruct (step_effs _ _ Hinv Hstep) as [k He].
  assert (counts_inv (resume_leave k (sys_lock T)) /\ P (resume_leave k (sys_lock T)))
    as Hk.
  { pose proof (si_counts _ Hinv).
    destruct k; [split; [by apply counts_waiters|by apply Hwait].. |done]. }
  clear -He Hk Heff. revert Hk. induction He as [|x y z Hxy _ IH]; intros [? ?]; [done|].
  apply IH. split; [by eapply counts_inv_eff|by eapply Heff].
Qed.

(** The mode is fixed by [TcInitWRLock]. *)
Lemma eff_mode R s s' : lock_eff R s s' -> mode (tc_rwlock_ s') = mode (tc_rwlock_ s).
Proof.
  intros Heff. inversion Heff; subst; try done;
    cbn [tc_rwlock_ set_rwlock set_sessions set_state_lock];
    rewrite ?unlockRead_mode, ?setReader_mode, ?setWriter_mode, ?write_released_mode,
      ?wakeUp_mode; try done.
Qed.

Lemma reachable_mode sim S : reachable sim S -> mode (tc_rwlock_ (sys_lock S)) = sim.
Proof.
  apply (lock_property (fun s => mode (tc_rwlock_ s) = sim)); try done.
  intros s s' _ <- Heff. by eapply eff_mode.
Qed.

End System.

(** ** Executable runs

    The steps as a function, so that concrete interleavings can be computed. *)

Section Exec.

Context (again : Z -> Prop) `{!forall x, Decision (again x)}.

#[export] Instance client_ok_dec o s : Decision (client_ok o s).
Proof. destruct o as [? []|? ? []| | | | |]; simpl; apply _. Defined.

#[export] Instance reacquire_ok_dec o s : Decision (reacquire_ok again o s).
Proof. destruct o as [? []|? ? []| | | | |]; simpl; apply _. Defined.

Inductive SysEvent :=
| EvCall (o : LockOp)      (* a thread calls *)
| EvWake (i : nat)         (* the i-th waiting thread goes on *)
| EvPoll                   (* the polling thread tests the flag again *)
| EvSetup (b : bool).      (* the flag is stored without the mutex *)

Definition room (S : Sys) : bool :=
  bool_decide (Z.of_nat (length (sys_waiting S)) < UINT32_MAX).

Definition sys_exec (e : SysEvent) (S : Sys) : option Sys :=
  match e, sys_spin S with
  | EvCall o, None =>
      if bool_decide (client_ok o (sys_lock S)) &&
         bool_decide (reacquire_ok again o (sys_lock S)) && room S
      then Some (settle (lock_call o (sys_lock S)) (sys_waiting S)) else None
  | EvWake i, None =>
      match sys_waiting S !! i with
      | Some (k, _) =>
          Some (settle (resume k (sys_lock S))
                  (take i (sys_waiting S) ++ drop (i + 1) (sys_waiting S)))
      | None => None
      end
  | EvPoll, Some sid =>
      if room S then Some (settle (resume_setup sid (sys_lock S)) (sys_waiting S)) else None
  | EvSetup b, _ =>
      Some (mkSys (TcSetSetupComplete b (sys_lock S)) (sys_waiting S) (sys_spin S))
  | _, _ => None
  end.

Definition sys_run (es : list SysEvent) (S : Sys) : option Sys :=
  fold_left (fun acc e => acc ≫= sys_exec e) es (Some S).

Lemma sys_exec_step e S S' : sys_exec e S = Some S' -> sys_step again S S'.
Proof.
  unfold sys_exec, room. destruct e as [o|i| |b], (sys_spin S) eqn:Es; try done;
    [..|intros [= <-]; rewrite <- Es; constructor|intros [= <-]; rewrite <- Es; constructor].
  - split_match; [|done]. intros [= <-]. bool_norm. by apply step_call.
  - destruct (sys_waiting S !! i) as [[k g]|] eqn:Ei; [|done]. intros [= <-].
    apply (step_resume _ S k g); [done|].
    rewrite Nat.add_1_r. symmetry. by apply take_drop_middle.
  - split_match; [|done]. intros [= <-]. bool_norm. by apply step_spin.
Qed.

Lemma sys_run_rtc es S S' : sys_run es S = Some S' -> rtc (sys_step again) S S'.
Proof.
  unfold sys_run. revert S. induction es as [|e es IH]; intros S; simpl.
  - intros [= <-]. apply rtc_refl.
  - destruct (sys_exec e S) as [S1|] eqn:E; simpl.
    + intros Hrun. eapply rtc_l; [by eapply sys_exec_step|by apply IH].
    + intros Hrun. exfalso. clear -Hrun. induction es; simpl in *; [done|auto].
Qed.

(** The state a run from the initial state ends in. *)
Definition run_from_init (sim : bool) (es : list SysEvent) : Sys :=
  default (sys_init sim) (sys_run es (sys_init sim)).

Lemma run_reachable sim es : reachable again sim (run_from_init sim es).
Proof.
  unfold run_from_init, reachable. destruct (sys_run _ _) eqn:E; simpl;
    [by eapply sys_run_rtc|apply rtc_refl].
Qed.

End Exec.

#[export] Instance anyone_dec x : Decision (anyone x) := left I.
#[export] Instance not_privileged_dec x : Decision (not_privileged x).
Proof. unfold not_privileged. apply _. Defined.
