(* ===== verification/TcLockTheorems.v ===== *)
(** * Theorems on the exclusion object

    What the locks of the transaction coordinator guarantee to the operations
    that use them, in every state the daemon's threads can bring them to:
    the assertions of the read/write lock, exclusion of readers and writers in
    both modes, ownership of a commit, stability of a held write lock, the
    configuration session as an abstract machine, configuration identifiers,
    wake-ups, and the state gate. *)

From S2P Require Import Prelude TcTypes TcRwLock TcLock TcLockProps TcLockSystem.

Local Open Scope Z_scope.

(** ** Reader counts and exclusion *)

(** The counter the readers of the configured mode use. *)
Definition read_owner (l : TcReadWriteLock) : Z :=
  if is_simultaneous_read_write_allowed_ l then r_owner l else rw_owner l.

Lemma counts_positive s n :
  counts_inv s -> 1 <= n_readers s ->
  count_of n s -> rw_counts n (tc_rwlock_ s) -> read_owner (tc_rwlock_ s) = n_readers s.
Proof.
  intros Hc Hp Hn Hr. assert (n = n_readers s) as ->.
  { destruct Hn as [->|(_&E1&E2&_)]; [done|]. unfold n_readers in Hp.
    rewrite E1, E2, size_empty in Hp. simpl in Hp. lia. }
  unfold rw_counts, read_owner in *. destruct (is_simultaneous_read_write_allowed_ _).
  - by destruct Hr.
  - destruct Hr as [[_ E]|[E _]]; [lia|done].
Qed.

(** Whenever a reader (a session in [read_sessions], or the thread of a
    state transition) can release the read lock, the lock's reader counter is
    exactly the number of readers and lies in the range the assertions of
    [TcReadWriteLock::unlock] demand, so the unsigned counter never wraps. *)
Theorem read_unlock_assertion again sim S sid :
  reachable again sim S ->
  sid ∈ read_sessions (sys_lock S) \/ in_transition (sys_lock S) = true ->
  read_owner (tc_rwlock_ (sys_lock S)) = n_readers (sys_lock S) /\
  0 < read_owner (tc_rwlock_ (sys_lock S)) <= R_READERS_MAX.
Proof.
  intros Hr Hsid. apply reachable_inv in Hr. destruct (si_counts _ Hr) as [Hi Hb (n&Hn&Hc) _ _].
  assert (1 <= n_readers (sys_lock S)) as Hpos.
  { unfold n_readers. destruct Hsid as [Hs|Ht].
    - pose proof (readers_pos _ _ Hs). destruct (in_transition _); simpl; lia.
    - rewrite Ht. simpl. lia. }
  pose proof (n_readers_bounds _ Hb).
  rewrite (counts_positive _ n); try done; [split; [done|lia]|apply Hr].
Qed.

Definition one_reader : list SysEvent :=
  [EvCall (OpUpdateState TC_SBY); EvCall (OpGetLock 7 TC_ACQUIRE_READ_SESSION TC_WRITE_NONE)].

Lemma read_unlock_assertion_witness :
  let S := run_from_init anyone false one_reader in
  bool_decide (7 ∈ read_sessions (sys_lock S)) = true /\
  read_owner (tc_rwlock_ (sys_lock S)) = n_readers (sys_lock S).
Proof.
  split; [vm_compute; reflexivity|].
  apply (read_unlock_assertion anyone false _ 7 (run_reachable anyone false one_reader)).
  left. apply (bool_decide_eq_true_1 _). vm_compute. reflexivity.
Defined.

(** C2: in exclusive mode a held write lock excludes every reader and every
    state transition. *)
Theorem write_excludes_readers again S :
  reachable again false S -> isWriteHeld (tc_rwlock_ (sys_lock S)) = true ->
  read_sessions (sys_lock S) = ∅ /\ in_transition (sys_lock S) = false.
Proof.
  intros Hr Hw. pose proof (reachable_mode _ _ _ Hr) as Hm. unfold mode in Hm.
  apply reachable_inv in Hr. destruct (si_counts _ Hr) as [Hi Hb (n&Hn&Hc) _ _].
  unfold rw_counts, isWriteHeld in *. rewrite Hm in *. apply bool_decide_eq_true in Hw.
  assert (n = 0) as ->.
  { destruct Hc as [[_ ->]|[E1 E2]]; [done|]. congruence. }
  destruct Hn as [E|(_&_&_&E)]; [|done]. unfold n_readers in E.
  destruct (in_transition _); simpl in E; [lia|]. split; [|done].
  apply leibniz_equiv, size_empty_inv. lia.
Qed.

(** The daemon becomes active. *)
Definition activate : list SysEvent :=
  [EvCall (OpUpdateState TC_SBY); EvCall (OpUpdateState TC_ACT); EvSetup true].

Definition user_audit (sid : Z) : SysEvent :=
  EvCall (OpGetLock sid TC_ACQUIRE_WRITE_SESSION TC_AUDIT_USER).
Definition read_by (sid : Z) : SysEvent :=
  EvCall (OpGetLock sid TC_ACQUIRE_READ_SESSION TC_WRITE_NONE).
Definition unread_by (sid : Z) : SysEvent :=
  EvCall (OpReleaseLock sid 0 TC_RELEASE_READ_SESSION TC_WRITE_NONE).

Lemma write_excludes_readers_witness :
  let S := run_from_init anyone false (activate ++ [user_audit 5]) in
  isWriteHeld (tc_rwlock_ (sys_lock S)) = true /\ read_sessions (sys_lock S) = ∅.
Proof.
  split; [vm_compute; reflexivity|].
  apply (write_excludes_readers anyone _
    (run_reachable anyone false (activate ++ [user_audit 5]))).
  vm_compute. reflexivity.
Defined.

Lemma reachable_flags sim S :
  reachable not_privileged sim S -> flags_inv (sys_lock S).
Proof.
  apply (lock_property not_privileged flags_inv).
  - intros _. simpl. split; split; intros H; try done; set_solver.
  - intros s s' Hc Hf Heff.
    apply (flags_inv_eff (rules not_privileged) s); [by intros|by destruct Hc|done|done].
  - done.
Qed.

(** Where readers and writers may overlap, a held write lock still
    excludes the readers that may not: the database manager and the launcher,
    provided neither asks for a read lock it already holds. *)
Theorem write_excludes_privileged S :
  reachable not_privileged true S -> isWriteHeld (tc_rwlock_ (sys_lock S)) = true ->
  (USESS_ID_DB_MGMT ∉ read_sessions (sys_lock S)) /\
  (USESS_ID_LAUNCHER ∉ read_sessions (sys_lock S)).
Proof.
  intros Hr Hw. pose proof (reachable_flags _ _ Hr) as Hf.
  pose proof (reachable_mode _ _ _ Hr) as Hm. unfold mode in Hm.
  apply reachable_inv in Hr. destruct (si_counts _ Hr) as [Hi Hb (n&Hn&Hc) _ _].
  destruct (Hf Hm) as [F1 F2]. unfold rw_counts, isWriteHeld in *. rewrite Hm in *.
  apply bool_decide_eq_true in Hw. destruct Hc as [_ [E|(_&E1&E2)]].
  - rewrite Hw in E. discriminate E.
  - rewrite <- F1, <- F2, E1, E2. done.
Qed.

Lemma write_excludes_privileged_witness :
  let S := run_from_init not_privileged true (activate ++ [read_by 9; user_audit 5]) in
  isWriteHeld (tc_rwlock_ (sys_lock S)) = true /\
  USESS_ID_DB_MGMT ∉ read_sessions (sys_lock S).
Proof.
  split; [vm_compute; reflexivity|].
  apply (write_excludes_privileged _
    (run_reachable not_privileged true (activate ++ [read_by 9; user_audit 5]))).
  vm_compute. reflexivity.
Defined.

(** Without that proviso the exclusion fails: a second, refused, read
    request of the database manager clears the flag that records its first
    one, and a writer is admitted beside it. *)
Theorem privileged_reacquire_breaks_exclusion :
  exists S, reachable anyone true S /\
    isWriteHeld (tc_rwlock_ (sys_lock S)) = true /\
    USESS_ID_DB_MGMT ∈ read_sessions (sys_lock S).
Proof.
  exists (run_from_init anyone true
    (activate ++ [read_by USESS_ID_DB_MGMT; read_by USESS_ID_DB_MGMT; user_audit 5])).
  split; [apply run_reachable|]. split; [vm_compute; reflexivity|].
  apply (bool_decide_eq_true_1 _). vm_compute. reflexivity.
Qed.

(** ** Ownership of a commit *)

(** C3: while a commit or an abort of the candidate holds the write lock, the
    configuration session is acquired by that same session with no
    notification pending, and no call of any session can release it or take it
    by force: each such call is refused and changes nothing. *)
Theorem commit_owns_configuration again sim S sid cid :
  reachable again sim S -> candidate_write_held (sys_lock S) = true ->
  config_held_by (w_session_id (tc_rwlock_ (sys_lock S))) (sys_lock S) /\
  (ReleaseConfigLock sid cid (sys_lock S)).2 = sys_lock S /\
  (ReleaseConfigLock sid cid (sys_lock S)).1 <> TC_LOCK_SUCCESS /\
  (ForceAcquireConfigLock sid (sys_lock S)).2 = sys_lock S /\
  (ForceAcquireConfigLock sid (sys_lock S)).1 <> TC_LOCK_SUCCESS /\
  (AcquireConfigLock sid (sys_lock S)).2 = sys_lock S /\
  (AcquireConfigLock sid (sys_lock S)).1 <> TC_LOCK_SUCCESS.
Proof.
  intros Hr Hc. apply reachable_inv in Hr. pose proof (cf_commit _ (si_config _ Hr) Hc) as Hh.
  split; [exact Hh|]. destruct Hh as (Ht & Hp & _).
  unfold ReleaseConfigLock, ForceAcquireConfigLock, AcquireConfigLock.
  rewrite Ht, Hp, Hc. unfold candidate_write_held in Hc.
  apply andb_true_iff in Hc as [-> ->]. simpl.
  repeat split_match; simpl; done.
Qed.

Definition config_by (sid cid : Z) : list SysEvent :=
  [EvCall (OpGetLock sid TC_ACQUIRE_CONFIG_SESSION TC_WRITE_NONE);
   EvCall (OpNotifyDone cid sid TC_NOTIFY_ACQUIRE)].
Definition commit_by (sid : Z) : SysEvent :=
  EvCall (OpGetLock sid TC_ACQUIRE_WRITE_SESSION TC_COMMIT).

Lemma commit_owns_configuration_witness :
  let S := run_from_init anyone true (activate ++ config_by 5 1 ++ [commit_by 5]) in
  candidate_write_held (sys_lock S) = true /\ config_held_by 5 (sys_lock S).
Proof.
  split; [vm_compute; reflexivity|].
  apply (commit_owns_configuration anyone true _ 6 1
    (run_reachable anyone true (activate ++ config_by 5 1 ++ [commit_by 5]))).
  vm_compute. reflexivity.
Defined.

(** ** Stability of a held write lock *)

Definition held_as (sid : Z) (op : TcWriteOperation) (s : TcLock) : Prop :=
  isWriteHeldBy sid (tc_rwlock_ s) = true /\ w_operation (tc_rwlock_ s) = op.

Lemma held_no_second_writer s n :
  rw_counts n (tc_rwlock_ s) -> isWriteHeld (tc_rwlock_ s) = true ->
  canWriteLock (tc_rwlock_ s) = false.
Proof.
  unfold rw_counts, isWriteHeld, canWriteLock.
  destruct (is_simultaneous_read_write_allowed_ _); intros Hc Hw; bool_norm;
    rewrite Hw; vm_compute; [|done]. by repeat split_match.
Qed.

(** The rules of every session but [sid], without a reset. *)
Definition others (sid : Z) : Rules := mkRules anyone (fun x => x <> sid) False.

Lemma held_as_eff sid op s s' :
  counts_inv s -> held_as sid op s -> lock_eff (others sid) s s' -> held_as sid op s'.
Proof.
  intros Hc [Hh Ho] Heff. unfold held_as, isWriteHeldBy in *.
  apply andb_true_iff in Hh as [Hh Hs]. bool_norm.
  destruct (eff_writer_same _ _ _ Hc Heff) as
    [(E1&E2&E3)|[(x&y&Hcan&_)|[(x&Hx&Hheld&_)|(Hf&_)]]].
  - rewrite E1, E2, E3, Hh. split; [|done]. simpl. by apply bool_decide_eq_true.
  - destruct (ci_counts _ Hc) as (n&_&Hn). rewrite (held_no_second_writer s n) in Hcan; done.
  - apply andb_true_iff in Hheld as [_ Hx2]. bool_norm. simpl in Hx. congruence.
  - done.
Qed.

Lemma held_as_effs sid op s s' :
  rtc (lock_eff (others sid)) s s' -> counts_inv s -> held_as sid op s -> held_as sid op s'.
Proof.
  induction 1 as [|s1 s2 s3 Heff _ IH]; [done|]. intros Hc Hh.
  apply IH; [by eapply counts_inv_eff|by eapply held_as_eff].
Qed.

(** A write lock once acquired stays with its session: no call of another
    session (acquisitions by anyone included), and no thread that wakes up,
    takes it away or changes the recorded operation; only a release by the
    session itself or the reset of a state transition does. *)
Theorem write_lock_stable again sim S sid op :
  reachable again sim S -> held_as sid op (sys_lock S) ->
  (forall o, client_ok o (sys_lock S) -> Z.of_nat (length (sys_waiting S)) < UINT32_MAX ->
     o <> OpReset -> (forall cid top wop, o <> OpReleaseLock sid cid top wop) ->
     held_as sid op (res_state (lock_call o (sys_lock S)))) /\
  (forall k g pre post, sys_waiting S = pre ++ (k, g) :: post ->
     held_as sid op (res_state (resume k (sys_lock S)))).
Proof.
  intros Hr Hh. apply reachable_inv in Hr. pose proof (si_counts _ Hr) as Hc. split.
  - intros o Hok Hlen Hnr Hnrel. eapply held_as_effs; [|exact Hc|exact Hh].
    apply lock_call_effs; [exact Hok| |exact (ci_bound _ Hc)|].
    + destruct o as [? []|x c t w| | | | |]; simpl; try done.
      intros ->. by apply (Hnrel c t w).
    + pose proof (n_write_waits_bounds (sys_waiting S)). unfold waiters_bounded.
      rewrite (si_waiter _ Hr). lia.
  - intros k g pre post Hs. destruct (leave_inv _ Hr _ _ _ _ Hs) as ([Hk1 Hk2]&_&Hl&Hw&Hc'&_).
    eapply held_as_effs; [|exact Hc'|by destruct k].
    apply resume_effs; [done|exact (ci_bound _ Hc)| |by intros ? ->].
    pose proof (n_write_waits_bounds (pre ++ post)). unfold waiters_bounded. lia.
Qed.

Lemma write_lock_stable_witness :
  let S := run_from_init anyone true (activate ++ [user_audit 5]) in
  held_as 5 TC_AUDIT_USER (sys_lock S) /\
  held_as 5 TC_AUDIT_USER
    (res_state (lock_call (OpGetLock 6 TC_ACQUIRE_WRITE_SESSION TC_AUDIT_USER) (sys_lock S))).
Proof.
  split; [split; vm_compute; reflexivity|].
  apply (write_lock_stable anyone true _ 5 TC_AUDIT_USER
    (run_reachable anyone true (activate ++ [user_audit 5]))); try done;
    try (vm_compute; reflexivity).
Defined.

(** ** The configuration session as an abstract machine *)

Inductive ConfPhase :=
| Free
| Acquiring (sid : Z)    (* acquired, participants not yet notified *)
| Held (sid : Z)
| Releasing (sid : Z).   (* released, participants not yet notified *)

Record ConfSpec := mkSpec { spec_id : Z; spec_phase : ConfPhase }.

(** What each call answers and does, in terms of the phase; [trans]: a state
    transition is in progress, [busy]: a commit or abort of the candidate
    holds the write lock. *)
Definition spec_acquire (trans : bool) (sid : Z) (a : ConfSpec) : TcLockRet * ConfSpec :=
  if trans then (TC_LOCK_OPERATION_NOT_ALLOWED, a)
  else match spec_phase a with
       | Free => (TC_LOCK_SUCCESS, mkSpec (GetConfigId (spec_id a)) (Acquiring sid))
       | _ => (TC_LOCK_BUSY, a)
       end.

Definition spec_force (trans busy : bool) (sid : Z) (a : ConfSpec) : TcLockRet * ConfSpec :=
  let take := (TC_LOCK_SUCCESS, mkSpec (GetConfigId (spec_id a)) (Acquiring sid)) in
  if trans then (TC_LOCK_OPERATION_NOT_ALLOWED, a)
  else match spec_phase a with
       | Free => take
       | Held _ => if busy then (TC_LOCK_BUSY, a) else take
       | _ => (TC_LOCK_BUSY, a)
       end.

(** The session and configuration identifiers are checked in this order. *)
Definition spec_checked (sid cid owner : Z) (a : ConfSpec) (k : TcLockRet * ConfSpec)
    : TcLockRet * ConfSpec :=
  if sid !=? owner then (TC_LOCK_INVALID_SESSION_ID, a)
  else if cid !=? spec_id a then (TC_LOCK_INVALID_CONFIG_ID, a)
  else k.

Definition spec_release (busy : bool) (sid cid : Z) (a : ConfSpec) : TcLockRet * ConfSpec :=
  match spec_phase a with
  | Free | Releasing _ => (TC_LOCK_NOT_ACQUIRED, a)
  | Acquiring o => spec_checked sid cid o a (TC_LOCK_BUSY, a)
  | Held o =>
      spec_checked sid cid o a
        (if busy then (TC_LOCK_BUSY, a)
         else (TC_LOCK_SUCCESS, mkSpec (spec_id a) (Releasing o)))
  end.

Definition spec_notified (cid sid : Z) (nop : TcNotifyOperation) (a : ConfSpec)
    : TcLockRet * ConfSpec :=
  match spec_phase a, nop with
  | Acquiring o, TC_NOTIFY_ACQUIRE =>
      spec_checked sid cid o a (TC_LOCK_SUCCESS, mkSpec (spec_id a) (Held o))
  | Releasing o, TC_NOTIFY_RELEASE =>
      spec_checked sid cid o a (TC_LOCK_SUCCESS, mkSpec (spec_id a) Free)
  | Held o, TC_NOTIFY_NONE => spec_checked sid cid o a (TC_LOCK_SUCCESS, a)
  | Free, TC_NOTIFY_NONE => spec_checked sid cid 0 a (TC_LOCK_SUCCESS, a)
  | _, _ => (TC_LOCK_INVALID_OPERATION, a)
  end.

(** The phase a concrete configuration lock is in. *)
Definition conf_abs (s : TcLock) : ConfSpec :=
  let c := tc_config_lock_ s in
  mkSpec (config_id c)
    (match is_taken c, is_notify_pending c with
     | false, false => Free
     | true, true => Acquiring (session_id c)
     | true, false => Held (session_id c)
     | false, true => Releasing (session_id c)
     end).

Definition abs_result (r : TcLockRet * TcLock) : TcLockRet * ConfSpec :=
  (r.1, conf_abs r.2).

Section Refinement.

Context (s : TcLock) (Hinv : config_inv s).

Lemma abs_acquire sid :
  abs_result (AcquireConfigLock sid s) = spec_acquire (in_transition s) sid (conf_abs s).
Proof.
  unfold AcquireConfigLock, spec_acquire, abs_result, conf_abs, in_transition.
  destruct (state_transition_in_progress _); [done|].
  by destruct (is_taken _) eqn:E1, (is_notify_pending _) eqn:E2; simpl; rewrite ?E1, ?E2.
Qed.

Lemma abs_force sid :
  abs_result (ForceAcquireConfigLock sid s) =
  spec_force (in_transition s) (candidate_write_held s) sid (conf_abs s).
Proof.
  pose proof (cf_commit _ Hinv) as Hc. unfold candidate_write_held in *.
  unfold ForceAcquireConfigLock, spec_force, abs_result, conf_abs, in_transition.
  rewrite <- andb_assoc, (andb_comm (isWriteHeld _)).
  destruct (state_transition_in_progress _); [done|].
  destruct (is_taken _) eqn:E1, (is_notify_pending _) eqn:E2; simpl; rewrite ?E1, ?E2; try done.
  by destruct (_ && isWriteHeld _); simpl; rewrite ?E1, ?E2.
Qed.

Lemma abs_release sid cid :
  abs_result (ReleaseConfigLock sid cid s) =
  spec_release (candidate_write_held s) sid cid (conf_abs s).
Proof.
  unfold ReleaseConfigLock, spec_release, spec_checked, abs_result, conf_abs.
  destruct (is_taken _) eqn:E1, (is_notify_pending _) eqn:E2; simpl; rewrite ?E1, ?E2; try done;
    repeat (case_bool_decide; simpl; rewrite ?E1, ?E2; try done).
  by destruct (candidate_write_held s); simpl; rewrite ?E1, ?E2.
Qed.

Lemma abs_notified cid sid nop :
  abs_result (NotifyConfigIdSessionIdDone cid sid nop s) =
  spec_notified cid sid nop (conf_abs s).
Proof.
  destruct Hinv as [_ _ Hn Hf _].
  unfold NotifyConfigIdSessionIdDone, spec_notified, spec_checked, abs_result, conf_abs.
  destruct (notify_operation _) eqn:E0, (is_taken _) eqn:E1, (is_notify_pending _) eqn:E2;
    simpl; try (by destruct Hn); destruct nop; simpl;
    rewrite ?E1, ?E2; try done; try rewrite (Hf eq_refl eq_refl).
  all: repeat (case_bool_decide; simpl; rewrite ?E1, ?E2; try done; try congruence).
Qed.

End Refinement.

(** C10: the configuration session implements the abstract machine Free,
    Acquiring, Held, Releasing: in every reachable state each of the four calls
    on it answers exactly the code the machine prescribes and moves it to the
    prescribed phase with the prescribed identifier. *)
Theorem config_session_refines again sim S sid cid nop :
  reachable again sim S ->
  let s := sys_lock S in
  let busy := candidate_write_held s in
  abs_result (AcquireConfigLock sid s) = spec_acquire (in_transition s) sid (conf_abs s) /\
  abs_result (ForceAcquireConfigLock sid s) =
    spec_force (in_transition s) busy sid (conf_abs s) /\
  abs_result (ReleaseConfigLock sid cid s) = spec_release busy sid cid (conf_abs s) /\
  abs_result (NotifyConfigIdSessionIdDone cid sid nop s) =
    spec_notified cid sid nop (conf_abs s).
Proof.
  intros Hr. apply reachable_inv, si_config in Hr. simpl.
  auto using abs_acquire, abs_force, abs_release, abs_notified.
Qed.

Lemma config_session_refines_witness :
  let s := sys_lock (run_from_init anyone true (activate ++ config_by 5 1)) in
  abs_result (ReleaseConfigLock 5 1 s) = spec_release false 5 1 (conf_abs s) /\
  spec_release false 5 1 (conf_abs s) = (TC_LOCK_SUCCESS, mkSpec 1 (Releasing 5)).
Proof.
  split; [|vm_compute; reflexivity].
  apply (config_session_refines anyone true _ 5 1 TC_NOTIFY_NONE
    (run_reachable anyone true (activate ++ config_by 5 1))).
Defined.

(** ** Configuration identifiers *)

(** The identifiers cycle through 1 .. 2^32 - 1. *)
Lemma GetConfigId_iter (k : nat) c :
  1 <= c <= UINT32_MAX ->
  Nat.iter k GetConfigId c = (c - 1 + Z.of_nat k) mod UINT32_MAX + 1.
Proof.
  intros Hc. induction k as [|k IH].
  - simpl. rewrite Z.add_0_r, Z.mod_small by ulia. lia.
  - rewrite Nat.iter_succ, IH. unfold GetConfigId, TC_START_CONFIG_ID.
    replace (c - 1 + Z.of_nat (S k)) with (c - 1 + Z.of_nat k + 1) by lia.
    set (x := c - 1 + Z.of_nat k). assert (0 <= x) by (unfold x; lia).
    pose proof (Z.mod_pos_bound x UINT32_MAX ltac:(ulia)) as Hx.
    rewrite <- (Z.add_mod_idemp_l x 1) by ulia.
    case_bool_decide as E.
    + replace (x mod UINT32_MAX + 1) with UINT32_MAX by lia.
      by rewrite Z.mod_same by ulia.
    + rewrite u32_inc_small by ulia. rewrite (Z.mod_small (_ + 1)) by ulia. done.
Qed.

(** Configuration identifiers are never 0 and none is issued again before
    2^32 - 2 others have been: after the wrap-around the numbering goes on
    from 1. *)
Theorem config_id_fresh c (k : nat) :
  is_u32 c -> 0 < Z.of_nat k < UINT32_MAX ->
  Nat.iter k GetConfigId c <> c /\ 1 <= Nat.iter k GetConfigId c <= UINT32_MAX.
Proof.
  intros Hc Hk. destruct k as [|k]; [lia|].
  assert (Nat.iter (S k) GetConfigId c = Nat.iter k GetConfigId (GetConfigId c)) as E
    by (rewrite Nat.iter_succ_r; done).
  pose proof (GetConfigId_range c Hc) as Hr. rewrite E, GetConfigId_iter by done.
  pose proof (Z.mod_pos_bound (GetConfigId c - 1 + Z.of_nat k) UINT32_MAX ltac:(ulia)) as Hm.
  split; [|lia]. unfold GetConfigId, TC_START_CONFIG_ID in *.
  case_bool_decide as Ec.
  - rewrite Z.mod_small by ulia. ulia.
  - rewrite u32_inc_small in * by ulia. intros E2.
    destruct (decide (c + Z.of_nat k < UINT32_MAX)).
    + rewrite Z.mod_small in E2 by ulia. lia.
    + assert ((c + 1 - 1 + Z.of_nat k) mod UINT32_MAX = c + Z.of_nat k - UINT32_MAX) as E3.
      { symmetry. apply (Z.mod_unique _ _ 1); ulia. }
      ulia.
Qed.

Lemma config_id_fresh_witness :
  Nat.iter 2 GetConfigId UINT32_MAX = 2 /\ Nat.iter 2 GetConfigId UINT32_MAX <> UINT32_MAX.
Proof. split; [reflexivity|]. apply (config_id_fresh UINT32_MAX 2); ulia. Defined.

(** ** Wake-ups and writer preference *)

Lemma wakeUp_wakes l : 0 < w_waiter l -> rw_broadcasts (wakeUp l) = rw_broadcasts l + 1.
Proof.
  intros H. unfold wakeUp, isWaiting.
  rewrite (bool_decide_eq_false_2 (w_waiter l = 0)) by lia. simpl. by rewrite orb_true_r.
Qed.

Lemma wakeUp_mono l : rw_broadcasts l <= rw_broadcasts (wakeUp l).
Proof. unfold wakeUp. destruct (isWaiting l); simpl; lia. Qed.

(** One change of the lock, seen by a writer that waits: the broadcasts only
    grow, and when the lock becomes free a broadcast is issued. *)
Definition wakes (l l' : TcReadWriteLock) : Prop :=
  rw_broadcasts l <= rw_broadcasts l' /\
  (canWriteLock l = false -> canWriteLock l' = false \/ rw_broadcasts l < rw_broadcasts l').

Lemma wakes_same l l' :
  rw_broadcasts l' = rw_broadcasts l -> canWriteLock l' = canWriteLock l -> wakes l l'.
Proof. intros E1 E2. unfold wakes. rewrite E1, E2. split; [lia|auto]. Qed.

Lemma wakes_wakeUp l l' :
  0 < w_waiter l' -> rw_broadcasts l' = rw_broadcasts l -> wakes l (wakeUp l').
Proof.
  intros Hw E. pose proof (wakeUp_wakes _ Hw). unfold wakes. split; [lia|]. right. lia.
Qed.

Lemma unlockRead_wakes sid l :
  mode l = false -> 0 < w_waiter l -> wakes l (unlockRead sid l).
Proof.
  unfold mode. intros Hm Hw. unfold unlockRead. rewrite Hm. case_bool_decide as E.
  - by apply wakes_wakeUp.
  - split; [simpl; lia|]. left. unfold canWriteLock. simpl. rewrite Hm.
    by apply bool_decide_eq_false.
Qed.

Lemma counted_no_write n l : mode l = false -> 1 <= n -> rw_counts n l -> canWriteLock l = false.
Proof.
  unfold mode, rw_counts, canWriteLock. intros -> Hn Hc. apply bool_decide_eq_false.
  destruct Hc as [[-> _]|[-> _]]; rlia.
Qed.

Lemma setReader_broadcasts sid l : rw_broadcasts (setReader sid l) = rw_broadcasts l.
Proof. unfold setReader. by repeat split_match. Qed.

Lemma setReader_wakes sid l n :
  mode l = false -> canReadLock sid l = true -> rw_ids l -> 0 <= n < R_READERS_MAX ->
  rw_counts n l -> wakes l (setReader sid l).
Proof.
  intros Hm Hc Hi Hn Hl. split; [by rewrite setReader_broadcasts|]. left.
  apply (counted_no_write (n + 1)); [|lia|by apply setReader_counts].
  unfold mode. by rewrite setReader_mode.
Qed.

(** Every effect, in exclusive mode with a writer waiting. *)
Lemma eff_wakes R s s' :
  counts_inv s -> mode (tc_rwlock_ s) = false -> 0 < w_waiter (tc_rwlock_ s) ->
  lock_eff R s s' ->
  wakes (tc_rwlock_ s) (tc_rwlock_ s') /\ 0 < w_waiter (tc_rwlock_ s').
Proof.
  intros Hc Hm Hw Heff. destruct Hc as [Hi Hb (n&Hn&Hl) _ _].
  inversion Heff as [ | | | | | |? sid Hcan Hnot Hst Hsz|? sid Hag Hcan Hin Hst Hsz|? sid Hin
    |? Hcan Htr Hst Hsz|? Htr|? sid op Hcan Hst Hop Hcand|? sid Hrel Hh|? r w Hle
    |? st Hu Hst|? Hrst Hst]; subst;
    try (split; [by apply wakes_same|exact Hw]);
    cbn [tc_rwlock_ set_rwlock set_sessions set_state_lock];
    rewrite ?unlockRead_waiter, ?setReader_waiter, ?setWriter_waiter, ?write_released_waiter,
      ?wakeUp_waiter; (split; [|first [exact Hw|simpl; lia]]).
  - apply count_live in Hn as ->; [|done].
    apply (setReader_wakes _ _ (n_readers s)); try done.
    clear -Hsz. unfold n_readers. destruct (in_transition s); simpl; lia.
  - apply count_live in Hn as ->; [|done].
    assert (wakes (setReader sid (tc_rwlock_ s))
              (unlockRead sid (setReader sid (tc_rwlock_ s)))) as [H1 H2].
    { apply unlockRead_wakes; [unfold mode; by rewrite setReader_mode|].
      by rewrite setReader_waiter. }
    assert (wakes (tc_rwlock_ s) (setReader sid (tc_rwlock_ s))) as [H3 H4].
    { apply (setReader_wakes _ _ (n_readers s)); try done.
      clear -Hsz. unfold n_readers. destruct (in_transition s); simpl; lia. }
    split; [lia|]. intros Hcw. destruct (H4 Hcw) as [E|E]; [|right; lia].
    destruct (H2 E); [by left|right; lia].
  - by apply unlockRead_wakes.
  - apply count_live in Hn as ->; [|done].
    apply (setReader_wakes _ _ (n_readers s)); try done.
    unfold n_readers. rewrite Htr. simpl. clear -Hsz. lia.
  - by apply unlockRead_wakes.
  - unfold setWriter, mode in *. rewrite Hm. split; [simpl; lia|]. left.
    unfold canWriteLock. simpl. rewrite Hm. done.
  - unfold write_released. by apply wakes_wakeUp.
  - by apply wakes_same.
  - by apply wakes_wakeUp.
  - split; [simpl; lia|]. left. unfold canWriteLock. simpl. unfold mode in Hm. by rewrite Hm.
Qed.

Lemma effs_wakes R s s' :
  rtc (lock_eff R) s s' -> counts_inv s -> mode (tc_rwlock_ s) = false ->
  0 < w_waiter (tc_rwlock_ s) -> wakes (tc_rwlock_ s) (tc_rwlock_ s').
Proof.
  induction 1 as [s|s1 s2 s3 Heff _ IH]; intros Hc Hm Hw.
  - by apply wakes_same.
  - destruct (eff_wakes _ _ _ Hc Hm Hw Heff) as [[H1 H2] Hw2].
    destruct IH as [H3 H4]; [by eapply counts_inv_eff| |done|].
    { by rewrite (eff_mode _ _ _ Heff). }
    split; [lia|]. intros H. destruct (H2 H) as [E|E]; [|right; lia].
    destruct (H4 E); [by left|right; lia].
Qed.

(** A writer waits without having been signalled only while the lock is not
    free. *)
Definition wait_justified (s : TcLock) (w : WaitKind * Z) : Prop :=
  is_write_wait w = true ->
  w.2 <= rw_broadcasts (tc_rwlock_ s) /\
  (w.2 = rw_broadcasts (tc_rwlock_ s) -> canWriteLock (tc_rwlock_ s) = false).

Lemma justified_kept R s s' ws :
  counts_inv s -> mode (tc_rwlock_ s) = false ->
  w_waiter (tc_rwlock_ s) = n_write_waits ws ->
  rtc (lock_eff R) s s' ->
  Forall (wait_justified s) ws -> Forall (wait_justified s') ws.
Proof.
  intros Hc Hm Hw He. rewrite !Forall_forall. intros Hj w Hin Hww.
  assert (0 < w_waiter (tc_rwlock_ s)) as Hpos.
  { apply List.in_split in Hin as (l1&l2&->).
    rewrite Hw, n_write_waits_app, n_write_waits_cons, Hww. simpl.
    pose proof (n_write_waits_bounds l1). pose proof (n_write_waits_bounds l2). lia. }
  destruct (effs_wakes _ _ _ He Hc Hm Hpos) as [H1 H2].
  destruct (Hj w Hin Hww) as [H3 H4]. split; [lia|]. intros E.
  destruct H2 as [?|?]; [apply H4; lia|done|lia].
Qed.

(** A call or a resumption blocks for writing only when the lock is taken. *)
Definition blocked_justified (r : LockRes) : Prop :=
  match r with
  | Blocked (WaitWrite _) s => canWriteLock (tc_rwlock_ s) = false
  | _ => True
  end.

Lemma write_audit_loop_justified sid s : blocked_justified (write_audit_loop sid s).
Proof. unfold write_audit_loop. by destruct (canWriteLock _) eqn:E. Qed.

Lemma lock_call_justified o s : blocked_justified (lock_call o s).
Proof.
  destruct o as [sid op wop|sid cid op wop| | | | |]; try done.
  cbn [lock_call]. unfold GetLock. split_match; [done|]. destruct op; try done.
  - destruct wop; try done. simpl. unfold AcquireWriteLockForAuditDriver.
    split_match; [done|apply write_audit_loop_justified].
  - unfold auto_save_then_write. split_match. split_match; [|done]. simpl. by split_match.
  - unfold auto_save_then_write. split_match. split_match; [|done]. simpl. by split_match.
  - unfold TcAcquireReadLockForStateTransition, read_transition_loop. by split_match.
Qed.

Lemma resume_justified k s : blocked_justified (resume k s).
Proof.
  destruct k; simpl.
  - unfold resume_read, read_transition_loop. by repeat split_match.
  - unfold resume_write. split_match; [done|apply write_audit_loop_justified].
  - unfold resume_setup, AcquireWriteLockForAuditDriver.
    split_match; [done|apply write_audit_loop_justified].
Qed.

Lemma settle_justified r ws :
  blocked_justified r -> Forall (wait_justified (res_state r)) ws ->
  Forall (wait_justified (sys_lock (settle r ws))) (sys_waiting (settle r ws)).
Proof.
  intros Hb Hws. destruct r as [|[] s]; simpl in *; try done; constructor; try done.
Qed.

Lemma leave_justified k s ws :
  Forall (wait_justified s) ws -> Forall (wait_justified (resume_leave k s)) ws.
Proof. by destruct k. Qed.

Lemma justified_step again S S' :
  sys_inv S -> mode (tc_rwlock_ (sys_lock S)) = false -> sys_step again S S' ->
  Forall (wait_justified (sys_lock S)) (sys_waiting S) ->
  Forall (wait_justified (sys_lock S')) (sys_waiting S').
Proof.
  intros Hinv Hm Hstep Hj. pose proof (si_counts _ Hinv) as Hc.
  pose proof (n_write_waits_bounds (sys_waiting S)) as Hnb.
  pose proof (si_waiter _ Hinv) as Hw. pose proof (ci_bound _ Hc) as Hb.
  destruct Hstep as [S o Hnone Hok Hag Hlt|S k g pre post Hnone Hsplit|S sid Hsome Hlt|S b].
  - apply settle_justified; [apply lock_call_justified|].
    eapply justified_kept; [exact Hc|exact Hm|exact Hw| |exact Hj].
    apply (lock_call_effs (rules again)); [done|by apply reacquire_call_ok|done|].
    unfold waiters_bounded. lia.
  - destruct (leave_inv _ Hinv _ _ _ _ Hsplit) as ([Hk1 Hk2]&_&Hlt&Hw'&Hc'&_).
    apply settle_justified; [apply resume_justified|].
    eapply justified_kept; [exact Hc'|by destruct k|exact Hw'| |].
    + apply (resume_effs (rules again)); [done|done| |by intros ? ->].
      pose proof (n_write_waits_bounds (pre ++ post)). unfold waiters_bounded. lia.
    + apply leave_justified. rewrite Hsplit in Hj.
      apply Forall_app in Hj as [? Hj2]. inversion Hj2. by apply Forall_app.
  - apply settle_justified; [apply (resume_justified (WaitSetup sid))|].
    eapply justified_kept; [exact Hc|exact Hm|exact Hw| |exact Hj].
    apply (resume_effs (rules again) (WaitSetup sid) (sys_lock S)); try done.
    + unfold waiters_bounded. simpl. lia.
    + intros _ _. apply (si_spin _ Hinv). by rewrite Hsome.
  - exact Hj.
Qed.

(** C38: in exclusive mode no wake-up is lost: whenever the lock is free, every
    driver audit still waiting for it has been signalled by a broadcast issued
    after it began to wait. *)
Theorem no_lost_wakeup again S sid g :
  reachable again false S -> (WaitWrite sid, g) ∈ sys_waiting S ->
  canWriteLock (tc_rwlock_ (sys_lock S)) = true ->
  g < rw_broadcasts (tc_rwlock_ (sys_lock S)).
Proof.
  intros Hr Hin Hcan.
  assert (Forall (wait_justified (sys_lock S)) (sys_waiting S)) as Hj.
  { assert (reachable again false S /\
      Forall (wait_justified (sys_lock S)) (sys_waiting S)) as [_ ?]; [|done].
    refine (rtc_ind_r (fun T => reachable again false T /\
      Forall (wait_justified (sys_lock T)) (sys_waiting T)) _ _ _ S Hr).
    - split; [apply rtc_refl|constructor].
    - intros T T' _ Hstep [HT HTj]. split; [by eapply rtc_r|].
      eapply justified_step; [by eapply reachable_inv|by eapply reachable_mode| |]; done. }
  rewrite Forall_forall in Hj. destruct (Hj _ (proj1 (list_elem_of_In _ _) Hin) eq_refl) as [H1 H2]. simpl in *.
  destruct (decide (g = rw_broadcasts (tc_rwlock_ (sys_lock S)))) as [E|E]; [|lia].
  rewrite (H2 E) in Hcan. done.
Qed.

Definition driver_audit : SysEvent :=
  EvCall (OpGetLock 0 TC_ACQUIRE_WRITE_SESSION TC_AUDIT_DRIVER).

Lemma no_lost_wakeup_witness :
  let S := run_from_init anyone false (activate ++ [read_by 9; driver_audit; unread_by 9]) in
  canWriteLock (tc_rwlock_ (sys_lock S)) = true /\ 0 < rw_broadcasts (tc_rwlock_ (sys_lock S)).
Proof.
  split; [vm_compute; reflexivity|].
  apply (no_lost_wakeup anyone _ 0 0
    (run_reachable anyone false (activate ++ [read_by 9; driver_audit; unread_by 9]))).
  - apply list_elem_of_lookup_2 with 0%nat. vm_compute. reflexivity.
  - vm_compute. reflexivity.
Defined.

(** Where readers and writers may overlap a wake-up can be lost: when the
    database manager releases its read lock while some other session still
    reads, the lock is free for a writer, yet the waiting driver audit is not
    signalled. *)
Theorem simultaneous_lost_wakeup :
  exists S sid, reachable not_privileged true S /\
    (WaitWrite sid, rw_broadcasts (tc_rwlock_ (sys_lock S))) ∈ sys_waiting S /\
    canWriteLock (tc_rwlock_ (sys_lock S)) = true.
Proof.
  exists (run_from_init not_privileged true
    (activate ++ [read_by USESS_ID_DB_MGMT; read_by 9; driver_audit;
                  unread_by USESS_ID_DB_MGMT])), 0.
  split; [apply run_reachable|]. split; [|vm_compute; reflexivity].
  apply list_elem_of_lookup_2 with 0%nat. vm_compute. reflexivity.
Qed.

(** In exclusive mode writers are preferred: while a driver audit waits,
    every read request is refused and every state transition waits, so the
    readers it waits for can only leave. *)
Theorem waiting_writer_preferred again S sid g :
  reachable again false S -> (WaitWrite sid, g) ∈ sys_waiting S ->
  let s := sys_lock S in
  (forall x, AcquireReadLock x s = (TC_LOCK_BUSY, s)) /\
  (forall x, TcAcquireReadLockForStateTransition x s =
     Blocked (WaitRead x) (set_rwlock s (waitForRead_enter (tc_rwlock_ s)))).
Proof.
  intros Hr Hin s. pose proof (reachable_mode _ _ _ Hr) as Hm. unfold mode in Hm.
  apply reachable_inv in Hr. pose proof (si_waiter _ Hr) as Hw.
  assert (forall x, canReadLock x (tc_rwlock_ s) = false) as Hno.
  { intros x. unfold canReadLock, s. rewrite Hm, Hw.
    apply list_elem_of_In, List.in_split in Hin as (l1&l2&->).
    rewrite n_write_waits_app, n_write_waits_cons. simpl.
    pose proof (n_write_waits_bounds l1). pose proof (n_write_waits_bounds l2).
    rewrite (bool_decide_eq_false_2 (_ = 0)) by lia. apply andb_false_r. }
  split; intros x.
  - unfold AcquireReadLock, tryReadLock. by rewrite Hno.
  - unfold TcAcquireReadLockForStateTransition, read_transition_loop. by rewrite Hno.
Qed.

Lemma waiting_writer_preferred_witness :
  let s := sys_lock (run_from_init anyone false (activate ++ [read_by 9; driver_audit])) in
  AcquireReadLock 11 s = (TC_LOCK_BUSY, s).
Proof.
  apply (waiting_writer_preferred anyone _ 0 0
    (run_reachable anyone false (activate ++ [read_by 9; driver_audit]))).
  apply list_elem_of_lookup_2 with 0%nat. vm_compute. reflexivity.
Defined.

(** A driver audit that arrives before set-up is complete keeps the global
    mutex while it polls: until the flag is stored no step of any thread
    changes anything, so a daemon whose set-up failed after it became active
    stops serving. *)
Theorem polling_audit_blocks_everyone again S S' sid :
  sys_spin S = Some sid -> setup_complete_done_ (sys_lock S) = false ->
  sys_step again S S' ->
  S' = S \/
  exists b, S' = mkSys (TcSetSetupComplete b (sys_lock S)) (sys_waiting S) (Some sid).
Proof.
  intros Hsp Hsetup Hstep.
  destruct Hstep as [S o Hnone _ _ _|S k g pre post Hnone _|S sid' Hsome _|S b];
    try congruence.
  - left. unfold resume_setup, AcquireWriteLockForAuditDriver. rewrite Hsetup.
    destruct S; simpl in *. congruence.
  - right. exists b. by rewrite Hsp.
Qed.

Definition activating : list SysEvent :=
  [EvCall (OpUpdateState TC_SBY); EvCall (OpUpdateState TC_ACT)].

Lemma polling_audit_blocks_everyone_witness :
  let S := run_from_init anyone true (activating ++ [driver_audit]) in
  S = S \/ exists b, S = mkSys (TcSetSetupComplete b (sys_lock S)) (sys_waiting S) (Some 0).
Proof.
  set (S := run_from_init anyone true (activating ++ [driver_audit])).
  apply (polling_audit_blocks_everyone anyone S S 0); [vm_compute; reflexivity..|].
  apply (sys_exec_step anyone EvPoll). vm_compute. reflexivity.
Defined.

(** ** The state gate *)

(** Which acquisitions each UNC state admits. *)
Definition state_admits (st : TcState) (op : TcOperation) : bool :=
  match st with
  | TC_ACT => true
  | TC_SBY | TC_ACT_FAIL =>
      (op ==? TC_ACQUIRE_READ_SESSION) || (op ==? TC_ACQUIRE_READ_LOCK_FOR_STATE_TRANSITION)
  | TC_INIT => op ==? TC_ACQUIRE_READ_LOCK_FOR_STATE_TRANSITION
  | TC_STOP => false
  end.

Definition admitted (r : LockRes) : bool :=
  match r with Done ret _ => ret ==? TC_LOCK_SUCCESS | Blocked _ _ => true end.

(** An acquisition that succeeds, or waits, was admitted by the state, and
    in the active state its session is not one marked as ended; one that the
    state does not admit changes nothing. *)
Theorem acquisition_gated sid op wop s :
  (admitted (GetLock sid op wop s) = true ->
   state_admits (state_of s) op = true /\
   (state_of s = TC_ACT -> sid <> 0 -> GetMarkedSessionId s <> sid)) /\
  (state_admits (state_of s) op = false ->
   GetLock sid op wop s = Done TC_LOCK_INVALID_UNC_STATE s).
Proof.
  unfold GetLock, TcOperationIsAllowed, state_of, state_admits, GetMarkedSessionId.
  destruct (current_state _); simpl; split; try done.
  all: try (by repeat (case_bool_decide; simpl)).
  intros Ha. split; [done|]. intros _ Hs Hm. revert Ha. rewrite Hm.
  rewrite (bool_decide_eq_false_2 (sid = 0)) by done.
  rewrite (bool_decide_eq_true_2 (sid = sid)) by done. done.
Qed.

(** ** Acquire and release *)

(** The lock without the counters its mode does not use and without the
    broadcasts. *)
Record RwView := mkView {
  view_readers : Z;
  view_writer : option (Z * TcWriteOperation);
  view_flags : bool * bool;
  view_waiters : Z * Z
}.

Definition rw_view (l : TcReadWriteLock) : RwView :=
  mkView
    (if is_simultaneous_read_write_allowed_ l then r_owner l
     else if isWriteHeld l then 0 else rw_owner l)
    (if isWriteHeld l then Some (w_session_id l, w_operation l) else None)
    (if is_simultaneous_read_write_allowed_ l
     then (r_db_mgmt_session l, r_launcher_session l) else (false, false))
    (r_waiter l, w_waiter l).

(** Two states no operation can tell apart. *)
Definition same_view (s s' : TcLock) : Prop :=
  tc_config_lock_ s' = tc_config_lock_ s /\ read_sessions s' = read_sessions s /\
  rw_view (tc_rwlock_ s') = rw_view (tc_rwlock_ s) /\ is_enable s' = is_enable s /\
  tc_state_lock_ s' = tc_state_lock_ s.

#[export] Instance same_view_equivalence : Equivalence same_view.
Proof.
  split.
  - by intros s.
  - intros s t (?&?&?&?&?). by repeat split.
  - intros s t u (?&?&?&?&?) (?&?&?&?&?). repeat split; congruence.
Qed.

Lemma wakeUp_view l : rw_view (wakeUp l) = rw_view l.
Proof. unfold wakeUp. by destruct (isWaiting l). Qed.

Lemma view_write_roundtrip l sid op :
  canWriteLock l = true -> rw_view (write_released (setWriter sid op l)) = rw_view l.
Proof.
  unfold write_released. rewrite wakeUp_view. unfold rw_view, setWriter, isWriteHeld, canWriteLock.
  destruct (is_simultaneous_read_write_allowed_ l) eqn:E; simpl; rewrite E; intros H;
    bool_norm.
  - match goal with Hw : w_owner l = 0 |- _ => by rewrite Hw end.
  - by rewrite H.
Qed.

#[local] Arguments wakeUp : simpl never.

Lemma view_read_roundtrip l sid n :
  canReadLock sid l = true -> rw_ids l -> 0 <= n < R_READERS_MAX -> rw_counts n l ->
  (mode l = true -> sid = USESS_ID_DB_MGMT -> r_db_mgmt_session l = false) ->
  (mode l = true -> sid = USESS_ID_LAUNCHER -> r_launcher_session l = false) ->
  rw_view (unlockRead sid (setReader sid l)) = rw_view l.
Proof.
  destruct l as [rwo ro dbm lnc wo rw wsid ww wop dbid lid sim bc].
  unfold rw_ids, mode; simpl. intros Hcan [-> ->] Hn Hc F1 F2.
  unfold rw_counts, canReadLock in *.
  destruct sim; unfold unlockRead, setReader; simpl in *.
  - destruct Hc as [-> Hc].
    assert (u32_dec (u32_inc n) = n) as E.
    { rewrite u32_inc_small by rlia. rewrite u32_dec_small by rlia. lia. }
    repeat (case_bool_decide; simpl; rewrite ?wakeUp_view);
      unfold rw_view, isWriteHeld; simpl; rewrite ?E; try done;
      first [rewrite F1 by done | rewrite F2 by done]; done.
  - destruct Hc as [[-> ->]|[-> Hne]]; [done|].
    assert (u32_dec (u32_inc n) = n) as E.
    { rewrite u32_inc_small by rlia. rewrite u32_dec_small by rlia. lia. }
    clear Hcan. rewrite E. case_bool_decide; rewrite ?wakeUp_view; done.
Qed.

(** The release that undoes an acquisition. *)
Definition release_of (op : TcOperation) : option TcOperation :=
  match op with
  | TC_ACQUIRE_READ_SESSION => Some TC_RELEASE_READ_SESSION
  | TC_ACQUIRE_WRITE_SESSION => Some TC_RELEASE_WRITE_SESSION
  | TC_AUTO_SAVE_ENABLE | TC_AUTO_SAVE_DISABLE | TC_AUTO_SAVE_GET => Some op
  | TC_ACQUIRE_READ_LOCK_FOR_STATE_TRANSITION =>
      Some TC_RELEASE_READ_LOCK_FOR_STATE_TRANSITION
  | _ => None
  end.

Definition undone (s : TcLock) (r : TcLockRet * TcLock) : Prop :=
  r.1 = TC_LOCK_SUCCESS /\ same_view s r.2.

(** An acquired write lock was set on a free lock, and nothing else changed. *)
Lemma try_write_success sid op s s' :
  try_write sid op s = (TC_LOCK_SUCCESS, s') ->
  canWriteLock (tc_rwlock_ s) = true /\ s' = set_rwlock s (setWriter sid op (tc_rwlock_ s)).
Proof.
  unfold try_write, tryWriteLock. destruct (canWriteLock _); [|done]. by intros [= <-].
Qed.

Lemma AcquireWriteLock_success sid op s s' :
  AcquireWriteLock sid op s = Done TC_LOCK_SUCCESS s' ->
  canWriteLock (tc_rwlock_ s) = true /\ s' = set_rwlock s (setWriter sid op (tc_rwlock_ s)).
Proof.
  assert (forall p, returns p = Done TC_LOCK_SUCCESS s' -> p = (TC_LOCK_SUCCESS, s')) as Hret.
  { intros [r x]. unfold returns. by intros [= -> ->]. }
  destruct op; simpl; try (intros H; apply try_write_success, Hret, H).
  - done.
  - unfold AcquireWriteLockForAuditDriver, write_audit_loop. split_match; [done|].
    destruct (canWriteLock _); [|done]. by intros [= <-].
  - unfold AcquireWriteLockForCommit. split_match; [done|].
    intros H; apply try_write_success, Hret, H.
  - unfold AcquireWriteLockForAbortCandidateConfig. split_match; [done|].
    intros H; apply try_write_success, Hret, H.
Qed.

Lemma release_write_undoes sid op s :
  canWriteLock (tc_rwlock_ s) = true ->
  undone s (ReleaseWriteLock sid op (set_rwlock s (setWriter sid op (tc_rwlock_ s)))).
Proof.
  intros Hcan. unfold ReleaseWriteLock, unlockWrite, isWriteHeldBy.
  cbn [tc_rwlock_ set_rwlock]. rewrite setWriter_held, setWriter_session, setWriter_operation.
  rewrite !bool_decide_eq_true_2 by done. simpl.
  split; [done|]. repeat split; simpl; try done. by apply view_write_roundtrip.
Qed.


Section RoundTrip.

Context (s : TcLock) (Hc : counts_inv s) (Hf : flags_inv s) (Hlive : state_of s <> TC_STOP).

Lemma read_pair_view sid :
  canReadLock sid (tc_rwlock_ s) = true -> sid ∉ read_sessions s ->
  n_readers s < R_READERS_MAX ->
  rw_view (unlockRead sid (setReader sid (tc_rwlock_ s))) = rw_view (tc_rwlock_ s).
Proof.
  intros Hcan Hnot Hb. destruct Hc as [Hi Hbd (n&Hn&Hl) _ _]. apply count_live in Hn as ->; [|done].
  pose proof (n_readers_bounds _ Hbd).
  apply (view_read_roundtrip _ _ (n_readers s)); try done; [lia|..]; intros Hm ->;
    destruct (Hf Hm) as [F1 F2]; apply not_true_is_false; tauto.
Qed.

Lemma release_read_undoes sid s' :
  AcquireReadLock sid s = (TC_LOCK_SUCCESS, s') ->
  Z.of_nat (size (read_sessions s)) < R_READERS_MAX - 1 ->
  undone s (ReleaseReadLock sid s').
Proof.
  unfold AcquireReadLock, tryReadLock. intros H Hsz.
  destruct (canReadLock _ _) eqn:Hcan; simpl in H; [|done].
  case_bool_decide as Hin; [done|]. injection H as <-.
  unfold ReleaseReadLock. cbn [read_sessions set_sessions set_rwlock].
  rewrite bool_decide_eq_true_2 by set_solver. split; [done|].
  split; [done|]. split; [simpl; set_solver|]. split; [|done].
  cbn [tc_rwlock_ set_sessions set_rwlock snd]. apply read_pair_view; try done.
  clear -Hsz. unfold n_readers. destruct (in_transition s); simpl; lia.
Qed.

Lemma release_transition_undoes s' :
  TcAcquireReadLockForStateTransition 0 s = Done TC_LOCK_SUCCESS s' ->
  undone s (TcReleaseReadLockForStateTransition 0 s').
Proof.
  unfold TcAcquireReadLockForStateTransition, read_transition_loop.
  split_match; [done|]. intros [= <-]. bool_norm. split; [done|]. split_and!; try done.
  - simpl. destruct Hc as [Hi Hbd (n&Hn&Hl) _ _]. apply count_live in Hn as ->; [|done].
    apply (view_read_roundtrip _ _ (n_readers s)); try done.
    unfold n_readers, in_transition, readers_bounded in *.
    match goal with E : state_transition_in_progress _ = false |- _ => rewrite E end.
    simpl. lia.
  - simpl. destruct (tc_state_lock_ s); simpl in *. by subst.
Qed.

Lemma auto_save_undoes sid op s' :
  auto_save_then_write sid op s = Done TC_LOCK_SUCCESS s' ->
  undone s (auto_save_release sid op s').
Proof.
  unfold auto_save_then_write, AutoSaveEnable. destruct (is_enable s) eqn:Ee; [done|]. simpl.
  destruct (AcquireWriteLock _ _ _) as [r s2|] eqn:Ea; [|done].
  case_bool_decide as Er; simpl; [|by intros [= ->]]. subst r. intros [= <-].
  apply AcquireWriteLock_success in Ea as [Hcan ->]. simpl in Hcan.
  unfold auto_save_release, AutoSaveDisable. simpl.
  pose proof (release_write_undoes sid op s Hcan) as [H1 (H2&H3&H4&H5&H6)].
  unfold ReleaseWriteLock in *.
  cbn [tc_rwlock_ set_rwlock set_auto_save] in *.
  destruct (unlockWrite _ _ _) as [[] l]; simpl in *; [|done].
  split; [done|]. by repeat split.
Qed.

End RoundTrip.

(** An acquisition that succeeds is undone by the matching release: the
    release succeeds and the object is as before, for reads, writes, the
    auto-save operations and the state-transition lock. *)
Theorem acquire_release_roundtrip sim S sid cid op wop rop s' :
  reachable not_privileged sim S ->
  client_ok (OpGetLock sid op wop) (sys_lock S) ->
  GetLock sid op wop (sys_lock S) = Done TC_LOCK_SUCCESS s' ->
  release_of op = Some rop ->
  undone (sys_lock S) (ReleaseLock sid cid rop wop s').
Proof.
  intros Hr Hok Hget Hrop. pose proof (reachable_flags _ _ Hr) as Hf.
  apply reachable_inv, si_counts in Hr as Hc. unfold GetLock in Hget.
  case_bool_decide as Ha; simpl in Hget; [|congruence].
  pose proof (allowed_not_stop _ _ _ Ha) as Hlive. clear Ha.
  destruct op; try discriminate Hrop; injection Hrop as <-; cbn [ReleaseLock].
  - injection Hget as E1 E2. apply release_read_undoes; try done.
    by rewrite <- E1, <- E2, <- surjective_pairing.
  - apply AcquireWriteLock_success in Hget as [Hcan ->]. by apply release_write_undoes.
  - by apply auto_save_undoes.
  - by apply auto_save_undoes.
  - unfold AutoSaveEnable, returns in Hget. destruct (is_enable _) eqn:E; [done|].
    injection Hget as <-. split; [done|]. repeat split; done.
  - simpl in Hok. subst sid. by apply release_transition_undoes.
Qed.

Lemma acquire_release_roundtrip_witness :
  let s := sys_lock (run_from_init not_privileged true activate) in
  undone s (ReleaseLock 5 0 TC_AUTO_SAVE_ENABLE TC_WRITE_NONE
    (res_state (GetLock 5 TC_AUTO_SAVE_ENABLE TC_WRITE_NONE s))).
Proof.
  apply (acquire_release_roundtrip true _ 5 0 TC_AUTO_SAVE_ENABLE TC_WRITE_NONE
    TC_AUTO_SAVE_ENABLE _ (run_reachable not_privileged true activate));
    vm_compute; reflexivity || exact I.
Defined.
