(* ===== verification/TcIpc.v ===== *)
(** * Client sessions of the transaction coordinator

    [TcClientSessionUtils] of [libs/libtc_common/libtc_client_sess_utils.cc]
    over the IPC library.  The participants (UPLL, UPPL, the drivers) and the
    library are other programs: an [Ipc] says what each call of the library
    returns, as a function of everything that was sent before, so that a
    participant may answer in any way and remember what it was asked.

    The code keeps sessions in a few variables (the members [sess_],
    [upll_sess_], [uppl_sess_] and a local one): a session is named by its
    variable, and a variable holds a session or NULL.  The events record what
    crosses the boundary: sessions opened and closed, requests invoked with
    their arguments and their response. *)

From S2P Require Import Prelude TcTypes.

Local Open Scope Z_scope.

(** ** The interface to the IPC library *)

Inductive IpcValue :=
| VU8 (n : Z)
| VU32 (n : Z)
| VU64 (n : Z)
| VI32 (n : Z)
| VStr (s : string)
| VStruct (def data : string).   (* name of the structure, contents *)

#[export] Instance IpcValue_eq_dec : EqDecision IpcValue.
Proof. solve_decision. Defined.

Inductive IpcEvent :=
| EvOpen (channel : string)
| EvClose (channel : string)
| EvInvoke (channel : string) (service : TcLibServiceId) (args : list IpcValue)
    (resp : option Z).  (* None: the library reported an error *)

(** What the library answers; errors are error numbers, 0 for success. *)
Record Ipc := mkIpc {
  ipc_altopen : list IpcEvent -> string -> Z;
  ipc_settimeout : list IpcEvent -> string -> Z;
  ipc_addoutput : list IpcEvent -> IpcValue -> Z;
  ipc_invoke : list IpcEvent -> string -> TcLibServiceId -> list IpcValue ->
    Z * Z * list IpcValue;    (* error, response code, additional data *)
  ipc_forward : list IpcEvent -> Z
}.

Record ClientSession := mkSess {
  cs_channel : string;
  cs_service : TcLibServiceId;
  cs_output : list IpcValue;
  cs_response : list IpcValue
}.

(** The variables that hold sessions. *)
Inductive SessRef := RSess | RUpll | RUppl | RLocal.

#[export] Instance SessRef_eq_dec : EqDecision SessRef.
Proof. solve_decision. Defined.

Record World := mkWorld {
  w_sess : option ClientSession;
  w_upll : option ClientSession;
  w_uppl : option ClientSession;
  w_local : option ClientSession;
  w_trace : list IpcEvent           (* oldest first *)
}.

Definition world_new : World := mkWorld None None None None [].

Definition get_slot (r : SessRef) (w : World) : option ClientSession :=
  match r with
  | RSess => w_sess w | RUpll => w_upll w | RUppl => w_uppl w | RLocal => w_local w
  end.

Definition set_slot (r : SessRef) (c : option ClientSession) (w : World) : World :=
  match r with
  | RSess => mkWorld c (w_upll w) (w_uppl w) (w_local w) (w_trace w)
  | RUpll => mkWorld (w_sess w) c (w_uppl w) (w_local w) (w_trace w)
  | RUppl => mkWorld (w_sess w) (w_upll w) c (w_local w) (w_trace w)
  | RLocal => mkWorld (w_sess w) (w_upll w) (w_uppl w) c (w_trace w)
  end.

Definition log (e : IpcEvent) (w : World) : World :=
  mkWorld (w_sess w) (w_upll w) (w_uppl w) (w_local w) (w_trace w ++ [e]).

Section Utils.

Context (ipc : Ipc).

(** ** Sessions *)

(** The session is assigned to the variable [r]; false when the result is
    NULL. *)
Definition create_tc_client_session (r : SessRef) (channel_name : string)
    (service_id : TcLibServiceId) (infinite_timeout : bool) (w : World) : bool * World :=
  if ipc_altopen ipc (w_trace w) channel_name !=? 0 then (false, set_slot r None w)
  else
    let w1 := log (EvOpen channel_name) w in
    if infinite_timeout && (ipc_settimeout ipc (w_trace w1) channel_name !=? 0)
    then (false, set_slot r None (log (EvClose channel_name) w1))
    else (true, set_slot r (Some (mkSess channel_name service_id [] [])) w1).

(** The error of [invoke] is kept in a [uint8_t]. *)
Definition tc_session_invoke (r : SessRef) (w : World) : TcUtilRet * Z * World :=
  match get_slot r w with
  | None => (TCUTIL_RET_FAILURE, 0, w)
  | Some c =>
      let '(err, resp, data) :=
        ipc_invoke ipc (w_trace w) (cs_channel c) (cs_service c) (cs_output c) in
      if u8 err !=? 0
      then (TCUTIL_RET_FATAL, 0,
            log (EvInvoke (cs_channel c) (cs_service c) (cs_output c) None) w)
      else (TCUTIL_RET_SUCCESS, resp,
            set_slot r (Some (mkSess (cs_channel c) (cs_service c) (cs_output c) data))
              (log (EvInvoke (cs_channel c) (cs_service c) (cs_output c) (Some resp)) w))
  end.

(** The callers ignore the result of closing the connection. *)
Definition tc_session_close (r : SessRef) (w : World) : World :=
  match get_slot r w with
  | None => w
  | Some c => set_slot r None (log (EvClose (cs_channel c)) w)
  end.

(** ** Adding output: [set_uint8], [set_uint32], [set_uint64], [set_string] *)

Definition add_output (r : SessRef) (v : IpcValue) (w : World) : TcUtilRet * World :=
  match get_slot r w with
  | None => (TCUTIL_RET_FAILURE, w)
  | Some c =>
      if u8 (ipc_addoutput ipc (w_trace w) v) !=? 0 then (TCUTIL_RET_FATAL, w)
      else (TCUTIL_RET_SUCCESS,
            set_slot r (Some (mkSess (cs_channel c) (cs_service c) (cs_output c ++ [v])
                                (cs_response c))) w)
  end.

Definition set_uint8 (r : SessRef) (data : Z) : World -> TcUtilRet * World :=
  add_output r (VU8 (u8 data)).
Definition set_uint32 (r : SessRef) (data : Z) : World -> TcUtilRet * World :=
  add_output r (VU32 data).
Definition set_uint64 (r : SessRef) (data : Z) : World -> TcUtilRet * World :=
  add_output r (VU64 data).
Definition set_string (r : SessRef) (data : string) : World -> TcUtilRet * World :=
  add_output r (VStr data).

(** ** Reading responses

    [getResponseType] reports an error for an index that is not one of a
    response; the count is tested with [>], so that the index equal to the
    count reaches it. *)

Definition getResponseCount (r : SessRef) (w : World) : Z :=
  match get_slot r w with
  | None => 0
  | Some c => Z.of_nat (length (cs_response c))
  end.

Definition response_at (r : SessRef) (index : Z) (w : World) : option IpcValue :=
  match get_slot r w with
  | None => None
  | Some c => cs_response c !! Z.to_nat index
  end.

Definition get_uint8 (r : SessRef) (index : Z) (w : World) : TcUtilRet * Z :=
  match get_slot r w with
  | None => (TCUTIL_RET_FAILURE, 0)
  | Some _ =>
      if bool_decide (getResponseCount r w < index) then (TCUTIL_RET_FAILURE, 0)
      else match response_at r index w with
           | None => (TCUTIL_RET_FATAL, 0)
           | Some (VU8 n) => (TCUTIL_RET_SUCCESS, n)
           | Some _ => (TCUTIL_RET_FAILURE, 0)
           end
  end.

Definition get_uint64 (r : SessRef) (index : Z) (w : World) : TcUtilRet * Z :=
  match get_slot r w with
  | None => (TCUTIL_RET_FAILURE, 0)
  | Some _ =>
      if bool_decide (getResponseCount r w < index) then (TCUTIL_RET_FAILURE, 0)
      else match response_at r index w with
           | None => (TCUTIL_RET_FATAL, 0)
           | Some (VU64 n) => (TCUTIL_RET_SUCCESS, n)
           | Some _ => (TCUTIL_RET_FAILURE, 0)
           end
  end.

(** Unlike the others, [get_string] reports a missing response as FAILURE. *)
Definition get_string (r : SessRef) (index : Z) (w : World) : TcUtilRet * string :=
  match get_slot r w with
  | None => (TCUTIL_RET_FAILURE, EmptyString)
  | Some _ =>
      if bool_decide (getResponseCount r w < index) then (TCUTIL_RET_FAILURE, EmptyString)
      else match response_at r index w with
           | Some (VStr s) => (TCUTIL_RET_SUCCESS, s)
           | _ => (TCUTIL_RET_FAILURE, EmptyString)
           end
  end.

(** [ClientSession::forward(src, 0, UINT32_MAX)]: append every response of
    [src] to the output of [dst]. *)
Definition forward_all (dst src : SessRef) (w : World) : Z * World :=
  let err := ipc_forward ipc (w_trace w) in
  if err !=? 0 then (err, w)
  else match get_slot dst w, get_slot src w with
       | Some d, Some s =>
           (0, set_slot dst (Some (mkSess (cs_channel d) (cs_service d)
                 (cs_output d ++ cs_response s) (cs_response d))) w)
       | _, _ => (0, w)
       end.

End Utils.

(** ** Observing a trace *)

(** The requests that were made, in order. *)
Fixpoint calls (t : list IpcEvent) : list (string * TcLibServiceId * list IpcValue * option Z) :=
  match t with
  | [] => []
  | EvInvoke c s a r :: t' => (c, s, a, r) :: calls t'
  | _ :: t' => calls t'
  end.

Lemma calls_app t t' : calls (t ++ t') = calls t ++ calls t'.
Proof. induction t as [|[] t IH]; simpl; rewrite ?IH; done. Qed.

(** Channels opened and not yet closed, as a signed count per channel. *)
Fixpoint open_count (c : string) (t : list IpcEvent) : Z :=
  match t with
  | [] => 0
  | EvOpen c' :: t' => (if c ==? c' then 1 else 0) + open_count c t'
  | EvClose c' :: t' => (if c ==? c' then -1 else 0) + open_count c t'
  | _ :: t' => open_count c t'
  end.

Lemma open_count_app c t t' : open_count c (t ++ t') = open_count c t + open_count c t'.
Proof. induction t as [|[] t IH]; simpl; rewrite ?IH; lia. Qed.
