(* ===== verification/TcMsg.v ===== *)
(** * Messages of the transaction coordinator

    [TcMsg] of [modules/tc/tcmsg.cc] and the simple notifications: set-up,
    configuration identifier, start-up database, database audit, auto save.
    The record [MsgData] holds the members of the class and of its
    subclasses (the commit and audit messages of TcMsgCommit and TcMsgAudit
    use the rest of it).  A method runs in a monad with the members, the IPC
    world and early returns: [leave r] is the statement [return r] of the
    method, and [method] is the call boundary at which it stops. *)

From S2P Require Import Prelude TcTypes TcIpc.

Local Open Scope Z_scope.

(** ** State *)

Record MsgData := mkMsg {
  session_id_ : Z;
  opertype_ : TcMsgOperType;
  channel_names_ : gmap TcDaemonName string;
  audit_result_ : TcAuditResult;
  trans_result_ : TcTransEndResult;
  abort_on_fail_ : list TcDaemonName;
  autosave_enabled_ : bool;                     (* TcMsgSetUp *)
  config_id_ : Z;                               (* TcMsgNotifyConfigId, TcMsgCommit *)
  target_db_ : Z;                               (* TcMsgAuditDB *)
  fail_oper_ : TcServiceType;
  controller_id_ : string;                      (* TcMsgAudit *)
  driver_id_ : Z;
  reconnect_controller_ : bool;                 (* AuditTransaction *)
  simplified_audit_ : bool;
  user_audit_ : bool;
  commit_number_ : Z;
  commit_date_ : Z;
  commit_application_ : string;
  driverinfo_map_ : list (Z * list string);     (* TwoPhase...; sorted by key *)
  driver_set_ : gset Z;
  driverset_map_ : gmap TcDaemonName (gset Z)
}.

(** The constructors' initial values. *)
Definition msg_new (sess_id : Z) (oper : TcMsgOperType)
    (daemon_names : gmap TcDaemonName string) : MsgData :=
  mkMsg sess_id oper daemon_names TC_AUDIT_SUCCESS TRANS_END_SUCCESS [] false 0
    UNC_DT_INVALID TC_OP_INVALID EmptyString UNC_CT_UNKNOWN false false false 0 0
    EmptyString [] ∅ ∅.

Section Setters.

Context (m : MsgData).

Definition set_audit_result (v : TcAuditResult) : MsgData :=
  mkMsg (session_id_ m) (opertype_ m) (channel_names_ m) v (trans_result_ m)
    (abort_on_fail_ m) (autosave_enabled_ m) (config_id_ m) (target_db_ m) (fail_oper_ m)
    (controller_id_ m) (driver_id_ m) (reconnect_controller_ m) (simplified_audit_ m)
    (user_audit_ m) (commit_number_ m) (commit_date_ m) (commit_application_ m)
    (driverinfo_map_ m) (driver_set_ m) (driverset_map_ m).

Definition set_trans_result (v : TcTransEndResult) : MsgData :=
  mkMsg (session_id_ m) (opertype_ m) (channel_names_ m) (audit_result_ m) v
    (abort_on_fail_ m) (autosave_enabled_ m) (config_id_ m) (target_db_ m) (fail_oper_ m)
    (controller_id_ m) (driver_id_ m) (reconnect_controller_ m) (simplified_audit_ m)
    (user_audit_ m) (commit_number_ m) (commit_date_ m) (commit_application_ m)
    (driverinfo_map_ m) (driver_set_ m) (driverset_map_ m).

Definition set_abort_on_fail (v : list TcDaemonName) : MsgData :=
  mkMsg (session_id_ m) (opertype_ m) (channel_names_ m) (audit_result_ m) (trans_result_ m)
    v (autosave_enabled_ m) (config_id_ m) (target_db_ m) (fail_oper_ m)
    (controller_id_ m) (driver_id_ m) (reconnect_controller_ m) (simplified_audit_ m)
    (user_audit_ m) (commit_number_ m) (commit_date_ m) (commit_application_ m)
    (driverinfo_map_ m) (driver_set_ m) (driverset_map_ m).

Definition set_autosave_enabled (v : bool) : MsgData :=
  mkMsg (session_id_ m) (opertype_ m) (channel_names_ m) (audit_result_ m) (trans_result_ m)
    (abort_on_fail_ m) v (config_id_ m) (target_db_ m) (fail_oper_ m)
    (controller_id_ m) (driver_id_ m) (reconnect_controller_ m) (simplified_audit_ m)
    (user_audit_ m) (commit_number_ m) (commit_date_ m) (commit_application_ m)
    (driverinfo_map_ m) (driver_set_ m) (driverset_map_ m).

Definition set_config_id (v : Z) : MsgData :=
  mkMsg (session_id_ m) (opertype_ m) (channel_names_ m) (audit_result_ m) (trans_result_ m)
    (abort_on_fail_ m) (autosave_enabled_ m) v (target_db_ m) (fail_oper_ m)
    (controller_id_ m) (driver_id_ m) (reconnect_controller_ m) (simplified_audit_ m)
    (user_audit_ m) (commit_number_ m) (commit_date_ m) (commit_application_ m)
    (driverinfo_map_ m) (driver_set_ m) (driverset_map_ m).

Definition set_audit_db (db : Z) (op : TcServiceType) : MsgData :=
  mkMsg (session_id_ m) (opertype_ m) (channel_names_ m) (audit_result_ m) (trans_result_ m)
    (abort_on_fail_ m) (autosave_enabled_ m) (config_id_ m) db op
    (controller_id_ m) (driver_id_ m) (reconnect_controller_ m) (simplified_audit_ m)
    (user_audit_ m) (commit_number_ m) (commit_date_ m) (commit_application_ m)
    (driverinfo_map_ m) (driver_set_ m) (driverset_map_ m).

Definition set_controller (c : string) (d : Z) : MsgData :=
  mkMsg (session_id_ m) (opertype_ m) (channel_names_ m) (audit_result_ m) (trans_result_ m)
    (abort_on_fail_ m) (autosave_enabled_ m) (config_id_ m) (target_db_ m) (fail_oper_ m)
    c d (reconnect_controller_ m) (simplified_audit_ m)
    (user_audit_ m) (commit_number_ m) (commit_date_ m) (commit_application_ m)
    (driverinfo_map_ m) (driver_set_ m) (driverset_map_ m).

Definition set_audit_options (reconnect simplified user : bool) : MsgData :=
  mkMsg (session_id_ m) (opertype_ m) (channel_names_ m) (audit_result_ m) (trans_result_ m)
    (abort_on_fail_ m) (autosave_enabled_ m) (config_id_ m) (target_db_ m) (fail_oper_ m)
    (controller_id_ m) (driver_id_ m) reconnect simplified
    user (commit_number_ m) (commit_date_ m) (commit_application_ m)
    (driverinfo_map_ m) (driver_set_ m) (driverset_map_ m).

Definition set_commit_info (n d : Z) (app : string) : MsgData :=
  mkMsg (session_id_ m) (opertype_ m) (channel_names_ m) (audit_result_ m) (trans_result_ m)
    (abort_on_fail_ m) (autosave_enabled_ m) (config_id_ m) (target_db_ m) (fail_oper_ m)
    (controller_id_ m) (driver_id_ m) (reconnect_controller_ m) (simplified_audit_ m)
    (user_audit_ m) n d app
    (driverinfo_map_ m) (driver_set_ m) (driverset_map_ m).

Definition set_drivers (dm : list (Z * list string)) (ds : gset Z)
    (dsm : gmap TcDaemonName (gset Z)) : MsgData :=
  mkMsg (session_id_ m) (opertype_ m) (channel_names_ m) (audit_result_ m) (trans_result_ m)
    (abort_on_fail_ m) (autosave_enabled_ m) (config_id_ m) (target_db_ m) (fail_oper_ m)
    (controller_id_ m) (driver_id_ m) (reconnect_controller_ m) (simplified_audit_ m)
    (user_audit_ m) (commit_number_ m) (commit_date_ m) (commit_application_ m)
    dm ds dsm.

End Setters.

(** ** The monad of a method *)

Record MSt := mkMSt { m_data : MsgData; m_world : World }.

Definition M (A : Type) : Type := MSt -> (A + TcOperRet) * MSt.

Definition ret {A} (a : A) : M A := fun st => (inl a, st).
Definition bind {A B} (m : M A) (f : A -> M B) : M B := fun st =>
  match m st with
  | (inl a, st1) => f a st1
  | (inr r, st1) => (inr r, st1)
  end.

Declare Scope msg_scope.
Notation "x ← y ; z" := (bind y (fun x => z)) : msg_scope.
Notation "x ;; z" := (bind x (fun _ => z)) : msg_scope.
Open Scope msg_scope.

(** [return r] of the enclosing method. *)
Definition leave {A} (r : TcOperRet) : M A := fun st => (inr r, st).

(** A method: an early return is its result. *)
Definition method (body : M TcOperRet) : M TcOperRet := fun st =>
  match body st with
  | (inl r, st1) => (inl r, st1)
  | (inr r, st1) => (inl r, st1)
  end.

Definition get {A} (f : MsgData -> A) : M A := fun st => (inl (f (m_data st)), st).
Definition modify (f : MsgData -> MsgData) : M unit := fun st =>
  (inl tt, mkMSt (f (m_data st)) (m_world st)).

(** Calls of the session utilities. *)
Definition io {A} (f : World -> A * World) : M A := fun st =>
  let '(a, w) := f (m_world st) in (inl a, mkMSt (m_data st) w).
Definition peek {A} (f : World -> A) : M A := fun st => (inl (f (m_world st)), st).

Definition ReturnUtilResp (ret : TcUtilRet) : TcOperRet :=
  match ret with
  | TCUTIL_RET_SUCCESS => TCOPER_RET_SUCCESS
  | TCUTIL_RET_FAILURE => TCOPER_RET_FAILURE
  | TCUTIL_RET_FATAL => TCOPER_RET_FATAL
  end.

Definition RespondToTc (resp : Z) : TcOperRet :=
  if resp ==? TC_SUCCESS then TCOPER_RET_SUCCESS
  else if resp ==? TC_FAILURE then TCOPER_RET_FAILURE
  else TCOPER_RET_UNKNOWN.

(** [util_resp = ...; if (util_resp != TCUTIL_RET_SUCCESS) return
    ReturnUtilResp(util_resp);] *)
Definition checked (f : World -> TcUtilRet * World) : M unit :=
  r ← io f; if r !=? TCUTIL_RET_SUCCESS then leave (ReturnUtilResp r) else ret tt.

(** The same, closing the session of [v] before it returns. *)
Definition checked_close (v : SessRef) (f : World -> TcUtilRet * World) : M unit :=
  r ← io f;
  if r !=? TCUTIL_RET_SUCCESS
  then io (fun w => (tt, tc_session_close v w));; leave (ReturnUtilResp r)
  else ret tt.

Definition close (v : SessRef) : M unit := io (fun w => (tt, tc_session_close v w)).

Definition GetChannelName (daemon_id : TcDaemonName) : M string :=
  get (fun d => default EmptyString (channel_names_ d !! daemon_id)).

Definition is_empty (s : string) : bool := s ==? EmptyString.

(** [for (it = l.begin(); ...) { body; if (resp == TC_FAILURE) break; }]: the
    body yields the response, the loop the last one. *)
Fixpoint notify_loop (body : TcDaemonName -> M Z) (l : list TcDaemonName) (resp : Z) : M Z :=
  match l with
  | [] => ret resp
  | d :: l' =>
      r ← body d;
      if r ==? TC_FAILURE then ret r else notify_loop body l' r
  end.

Section Messages.

Context (ipc : Ipc).

(** [sess = create_tc_client_session(...); if (NULL == sess) return FATAL;] *)
Definition create (v : SessRef) (channel_name : string) (service : TcLibServiceId)
    (infinite : bool) : M unit :=
  ok ← io (create_tc_client_session ipc v channel_name service infinite);
  if ok then ret tt else leave TCOPER_RET_FATAL.

(** [tc_session_invoke] with its check; the response. *)
Definition invoke (v : SessRef) : M Z :=
  p ← io (fun w => let '(r, resp, w1) := tc_session_invoke ipc v w in ((r, resp), w1));
  if p.1 !=? TCUTIL_RET_SUCCESS then leave (ReturnUtilResp p.1) else ret p.2.

(** The same, closing the session when it fails. *)
Definition invoke_close (v : SessRef) : M Z :=
  p ← io (fun w => let '(r, resp, w1) := tc_session_invoke ipc v w in ((r, resp), w1));
  if p.1 !=? TCUTIL_RET_SUCCESS then close v;; leave (ReturnUtilResp p.1) else ret p.2.

(** The channel of a participant that must have one. *)
Definition channel_of (d : TcDaemonName) : M string :=
  c ← GetChannelName d;
  if is_empty c then leave TCOPER_RET_FAILURE else ret c.

(** ** Notifications *)

Definition TcMsgAutoSave_Execute : M TcOperRet := method (
  oper ← get opertype_;
  service_id ← (match oper with
    | MSG_AUTOSAVE_ENABLE => ret TCLIB_AUTOSAVE_ENABLE
    | MSG_AUTOSAVE_DISABLE => ret TCLIB_AUTOSAVE_DISABLE
    | _ => leave TCOPER_RET_FAILURE
    end : M TcLibServiceId);
  resp ← notify_loop (fun d =>
    channel_name ← channel_of d;
    create RSess channel_name service_id true;;
    sid ← get session_id_;
    checked (set_uint32 ipc RSess sid);;
    resp ← invoke_close RSess;
    close RSess;;
    ret resp) [TC_UPLL; TC_UPPL] 0;
  ret (RespondToTc resp)).

Definition TcMsgSetUp_Execute : M TcOperRet := method (
  oper ← get opertype_;
  service_id ← (match oper with
    | MSG_SETUP => ret TCLIB_SETUP
    | MSG_SETUP_COMPLETE => ret TCLIB_SETUP_COMPLETE
    | _ => leave TCOPER_RET_FAILURE
    end : M TcLibServiceId);
  resp ← notify_loop (fun d =>
    channel_name ← channel_of d;
    create RSess channel_name service_id true;;
    autosave ← get autosave_enabled_;
    checked (set_uint8 ipc RSess (Z.b2z autosave));;
    resp ← invoke RSess;
    close RSess;;
    ret resp) [TC_UPLL; TC_UPPL] 0;
  ret (RespondToTc resp)).

Definition TcMsgNotifyConfigId_Execute : M TcOperRet := method (
  resp ← notify_loop (fun d =>
    channel_name ← channel_of d;
    create RSess channel_name TCLIB_NOTIFY_SESSION_CONFIG false;;
    sid ← get session_id_;
    checked (set_uint32 ipc RSess sid);;
    cid ← get config_id_;
    checked (set_uint32 ipc RSess cid);;
    resp ← invoke RSess;
    close RSess;;
    ret resp) [TC_UPLL; TC_UPPL] 0;
  ret (RespondToTc resp)).

Definition TcMsgToStartupDB_Execute : M TcOperRet := method (
  oper ← get opertype_;
  service_id ← (match oper with
    | MSG_SAVE_CONFIG => ret TCLIB_SAVE_CONFIG
    | MSG_CLEAR_CONFIG => ret TCLIB_CLEAR_STARTUP
    | _ => leave TCOPER_RET_FAILURE
    end : M TcLibServiceId);
  resp ← notify_loop (fun d =>
    channel_name ← channel_of d;
    create RSess channel_name service_id true;;
    sid ← get session_id_;
    (if bool_decide (0 < sid) then checked (set_uint32 ipc RSess sid)
     else leave TCOPER_RET_FAILURE);;
    resp ← invoke RSess;
    close RSess;;
    ret resp) [TC_UPLL; TC_UPPL] 0;
  ret (RespondToTc resp)).

(** [PFC_VERIFY] is compiled out; [ValidateAuditDBAttributes] only checks that
    the operation is one it knows. *)
Definition ValidateAuditDBAttributes (data_base : Z) (operation : TcServiceType) : TcOperRet :=
  if bool_decide (operation ∈
       [TC_OP_CANDIDATE_COMMIT; TC_OP_USER_AUDIT; TC_OP_DRIVER_AUDIT; TC_OP_CANDIDATE_ABORT;
        TC_OP_RUNNING_SAVE; TC_OP_CLEAR_STARTUP; TC_OP_INVALID])
  then TCOPER_RET_SUCCESS else TCOPER_RET_FAILURE.

Definition TcMsgAuditDB_Execute : M TcOperRet := method (
  db ← get target_db_;
  op ← get fail_oper_;
  (if ValidateAuditDBAttributes db op !=? TCOPER_RET_SUCCESS
   then leave TCOPER_RET_FAILURE else ret tt);;
  resp ← notify_loop (fun d =>
    channel_name ← channel_of d;
    create RSess channel_name TCLIB_AUDIT_CONFIG true;;
    checked (set_uint8 ipc RSess db);;
    checked (set_uint8 ipc RSess op);;
    resp ← invoke RSess;
    close RSess;;
    ret resp) [TC_UPPL; TC_UPLL] 0;
  ret (RespondToTc resp)).

(** ** The type of a daemon's controllers, asked at start-up

    The result is the return value and what is stored through the pointer. *)
Definition GetControllerType (channel_name : string) (w : World)
    : (TcOperRet * option Z) * World :=
  let '(ok, w1) := create_tc_client_session ipc RLocal channel_name
                     TCLIB_CONTROLLER_TYPE false w in
  if negb ok then ((TCOPER_RET_FATAL, None), w1)
  else
    let '(ret, resp, w2) := tc_session_invoke ipc RLocal w1 in
    let w3 := tc_session_close RLocal w2 in
    if ret ==? TCUTIL_RET_SUCCESS then ((TCOPER_RET_SUCCESS, Some resp), w3)
    else ((TCOPER_RET_FATAL, None), w3).

End Messages.

(** ** Mapping and results *)

Definition MapTcDriverId (driver_id : Z) : TcDaemonName :=
  if driver_id ==? UNC_CT_PFC then TC_DRV_OPENFLOW
  else if driver_id ==? UNC_CT_VNP then TC_DRV_OVERLAY
  else if driver_id ==? UNC_CT_ODC then TC_DRV_ODL
  else if driver_id ==? UNC_CT_POLC then TC_DRV_POLC
  else TC_NONE.

Definition SetAuditResult (result : TcAuditResult) (m : MsgData) : TcOperRet * MsgData :=
  match result with
  | TC_AUDIT_SUCCESS | TC_AUDIT_FAILURE => (TCOPER_RET_SUCCESS, set_audit_result m result)
  | _ => (TCOPER_RET_FAILURE, m)
  end.

Definition SetTransResult (result : TcTransEndResult) (m : MsgData) : TcOperRet * MsgData :=
  match result with
  | TRANS_END_SUCCESS | TRANS_END_FAILURE =>
      (TCOPER_RET_SUCCESS, set_trans_result m result)
  end.

(** ** Forwarding responses to the client

    The forwarded data, in order; the last response of the UPLL and UPPL
    sessions of an audit's global commit is the audit result and is held
    back.  [forward_err] is what [forwardTo] returns. *)
Definition ForwardResponseInternal (forward_err : Z) (clnt_sess : ClientSession)
    (decr_resp : bool) : TcOperRet * list IpcValue :=
  let n := length (cs_response clnt_sess) in
  if bool_decide (n = 0%nat) then (TCOPER_RET_SUCCESS, [])
  else if forward_err !=? 0 then (TCOPER_RET_FATAL, [])
  else (TCOPER_RET_SUCCESS,
        take (if decr_resp then (n - 1)%nat else n) (cs_response clnt_sess)).

Definition ForwardResponseToVTN (forward_err : SessRef -> Z) (oper : TcMsgOperType)
    (w : World) : TcOperRet * list IpcValue :=
  let decr := oper ==? MSG_AUDIT_GLOBAL in
  let step (acc : TcOperRet * list IpcValue) (r : SessRef) (decr : bool) :=
    if acc.1 !=? TCOPER_RET_SUCCESS then acc
    else match get_slot r w with
         | None => acc
         | Some c =>
             let '(ret, data) := ForwardResponseInternal (forward_err r) c decr in
             if ret !=? TCOPER_RET_SUCCESS then (TCOPER_RET_FATAL, acc.2)
             else (TCOPER_RET_SUCCESS, acc.2 ++ data)
         end in
  step (step (step (TCOPER_RET_SUCCESS, []) RSess false) RUpll decr) RUppl decr.

(** ** Which class handles a message *)

Inductive MsgClass :=
| CTcMsgNotifyConfigId | CTcMsgSetUp | CCommitTransaction | CTwoPhaseCommit
| CAuditTransaction | CTwoPhaseAudit | CTcMsgToStartupDB | CAbortCandidateDB
| CTcMsgAuditDB | CGetDriverId | CTcMsgAutoSave.

Definition CreateInstance (sess_id : Z) (oper : TcMsgOperType)
    (daemon_names : gmap TcDaemonName string) : option (MsgClass * MsgData) :=
  let make c := Some (c, msg_new sess_id oper daemon_names) in
  match oper with
  | MSG_NOTIFY_CONFIGID => make CTcMsgNotifyConfigId
  | MSG_SETUP_COMPLETE | MSG_SETUP => make CTcMsgSetUp
  | MSG_COMMIT_TRANS_START | MSG_COMMIT_TRANS_END => make CCommitTransaction
  | MSG_COMMIT_VOTE | MSG_COMMIT_GLOBAL => make CTwoPhaseCommit
  | MSG_AUDIT_START | MSG_AUDIT_TRANS_START | MSG_AUDIT_TRANS_END | MSG_AUDIT_END =>
      make CAuditTransaction
  | MSG_AUDIT_VOTE | MSG_AUDIT_GLOBAL => make CTwoPhaseAudit
  | MSG_SAVE_CONFIG | MSG_CLEAR_CONFIG => make CTcMsgToStartupDB
  | MSG_ABORT_CANDIDATE => make CAbortCandidateDB
  | MSG_AUDITDB => make CTcMsgAuditDB
  | MSG_GET_DRIVERID => make CGetDriverId
  | MSG_AUTOSAVE_ENABLE | MSG_AUTOSAVE_DISABLE => make CTcMsgAutoSave
  | _ => None
  end.
