(* ===== verification/TcMsgCommit.v ===== *)
(** * Commit messages

    [modules/tc/tcmsg_commit.cc]: abort of the candidate, transaction start
    and end, and the two phases (vote, global commit) with UPLL, UPPL and the
    drivers of the controllers they name. *)

From S2P Require Import Prelude TcTypes TcIpc TcMsg.

Local Open Scope Z_scope.

Definition oper_code (o : TcMsgOperType) : Z := TcMsgOperType_value o.

(** Phases, as the integers sent. *)
Definition COMMIT_VOTE_REQUEST : Z := 1.
Definition TC_COMMIT_VOTE_PHASE : Z := 0.
Definition TC_COMMIT_GLOBAL_COMMIT_PHASE : Z := 1.

(** ** The map from driver types to controllers

    [std::map<unc_keytype_ctrtype_t, std::list<std::string>>]: iterated in the
    order of the keys. *)

Definition dmap_find (k : Z) (m : list (Z * list string)) : option (list string) :=
  snd <$> List.find (fun p => p.1 ==? k) m.

(** [insert] of a key the map does not have. *)
Fixpoint dmap_insert (k : Z) (v : list string) (m : list (Z * list string))
    : list (Z * list string) :=
  match m with
  | [] => [(k, v)]
  | (k', v') :: m' =>
      if bool_decide (k < k') then (k, v) :: m else (k', v') :: dmap_insert k v m'
  end.

Definition dmap_erase (k : Z) (m : list (Z * list string)) : list (Z * list string) :=
  List.filter (fun p => p.1 !=? k) m.

(** [std::list<std::string>]: [sort], [merge] of sorted lists and [unique]. *)
Definition str_lt (a b : string) : bool := String.ltb a b.

Fixpoint insert_sorted (x : string) (l : list string) : list string :=
  match l with
  | [] => [x]
  | y :: l' => if str_lt x y then x :: l else y :: insert_sorted x l'
  end.

(** [sort] is stable: equal elements keep their order. *)
Definition list_sort (l : list string) : list string :=
  fold_left (fun acc x => insert_sorted x acc) l [].

(** [a.merge(b)]: an element of [b] goes before the first greater one of [a]. *)
Fixpoint list_merge (a : list string) : list string -> list string :=
  fix merge_b (b : list string) : list string :=
    match a, b with
    | [], _ => b
    | _, [] => a
    | x :: a', y :: b' => if str_lt y x then y :: merge_b b' else x :: list_merge a' b
    end.

(** [unique]: drop an element equal to the one before it. *)
Fixpoint list_unique (l : list string) : list string :=
  match l with
  | x :: (y :: _) as l' => if x ==? y then list_unique l' else x :: list_unique l'
  | _ => l
  end.

Section Commit.

Context (ipc : Ipc).

(** [if (session_id_ > 0 && config_id_ > 0) { set both } else return FAILURE] *)
Definition set_ids (v : SessRef) : M unit :=
  sid ← get session_id_;
  cid ← get config_id_;
  if bool_decide (0 < sid) && bool_decide (0 < cid)
  then checked (set_uint32 ipc v sid);; checked (set_uint32 ipc v cid)
  else leave TCOPER_RET_FAILURE.

(** ** Requests that undo *)

(** The parameter [abort_on_fail_] hides the member.  An invalid identifier
    returns without closing the session. *)
Definition SendAbortRequest (abort_vec : list TcDaemonName) : M TcOperRet := method (
  oper ← get opertype_;
  (if oper ==? MSG_COMMIT_VOTE then ret tt else leave TCOPER_RET_FAILURE);;
  resp ← notify_loop (fun d =>
    channel_name ← GetChannelName d;
    create ipc RLocal channel_name TCLIB_COMMIT_GLOBAL_ABORT true;;
    checked_close RLocal (set_uint8 ipc RLocal (oper_code MSG_COMMIT_ABORT));;
    sid ← get session_id_;
    cid ← get config_id_;
    (if bool_decide (0 < sid) && bool_decide (0 < cid)
     then checked_close RLocal (set_uint32 ipc RLocal sid);;
          checked_close RLocal (set_uint32 ipc RLocal cid)
     else leave TCOPER_RET_FAILURE);;
    checked_close RLocal (set_uint8 ipc RLocal COMMIT_VOTE_REQUEST);;
    resp ← invoke_close ipc RLocal;
    close RLocal;;
    ret resp) abort_vec 0;
  ret (RespondToTc resp)).

Definition SendTransEndRequest (abort_vec : list TcDaemonName) : M TcOperRet := method (
  resp ← notify_loop (fun d =>
    channel_name ← channel_of d;
    create ipc RLocal channel_name TCLIB_COMMIT_TRANSACTION true;;
    checked_close RLocal (set_uint8 ipc RLocal (oper_code MSG_COMMIT_TRANS_END));;
    sid ← get session_id_;
    cid ← get config_id_;
    (if bool_decide (0 < sid) && bool_decide (0 < cid)
     then checked_close RLocal (set_uint32 ipc RLocal sid);;
          checked_close RLocal (set_uint32 ipc RLocal cid)
     else close RLocal;; leave TCOPER_RET_FAILURE);;
    checked_close RLocal (set_uint8 ipc RLocal (TcTransEndResult_value TRANS_END_FAILURE));;
    resp ← invoke_close ipc RLocal;
    close RLocal;;
    ret resp) (rev abort_vec) 0;
  ret (RespondToTc resp)).

(** ** Abort of the candidate *)

Definition AbortCandidateDB_Execute : M TcOperRet := method (
  resp ← notify_loop (fun d =>
    channel_name ← channel_of d;
    create ipc RSess channel_name TCLIB_USER_ABORT true;;
    set_ids RSess;;
    resp ← invoke ipc RSess;
    close RSess;;
    ret resp) [TC_UPLL; TC_UPPL] 0;
  ret (RespondToTc resp)).

(** ** Transaction start and end *)

Definition CommitTransaction_SendRequest (channel_name : string) : M TcOperRet := method (
  create ipc RSess channel_name TCLIB_COMMIT_TRANSACTION true;;
  oper ← get opertype_;
  checked (set_uint8 ipc RSess (oper_code oper));;
  sid ← get session_id_;
  checked (set_uint32 ipc RSess sid);;
  cid ← get config_id_;
  checked (set_uint32 ipc RSess cid);;
  (if oper ==? MSG_COMMIT_TRANS_END
   then tr ← get trans_result_;
        checked (set_uint8 ipc RSess (TcTransEndResult_value tr))
   else ret tt);;
  resp ← invoke ipc RSess;
  ret_val ←
    (if resp ==? TC_SUCCESS then ret TCOPER_RET_SUCCESS
     else if (resp ==? TC_FAILURE) && (oper ==? MSG_COMMIT_TRANS_START) then
       modify (fun m => set_trans_result m TRANS_END_FAILURE);;
       vec ← get abort_on_fail_;
       match vec with
       | [] => ret TCOPER_RET_ABORT
       | _ =>
           r ← SendTransEndRequest vec;
           ret (if r ==? TCOPER_RET_SUCCESS then TCOPER_RET_ABORT else TCOPER_RET_FATAL)
       end
     else if (resp ==? TC_FAILURE) && (oper ==? MSG_COMMIT_TRANS_END) then
       ret TCOPER_RET_FATAL
     else ret TCOPER_RET_SUCCESS);
  (if ret_val ==? TCOPER_RET_SUCCESS then close RSess else ret tt);;
  ret ret_val).

(** Participants without a channel are skipped; the others are asked until
    one fails, and recorded in [abort_on_fail_]. *)
Fixpoint transaction_loop (l : list TcDaemonName) (ret_val : TcOperRet) : M TcOperRet :=
  match l with
  | [] => ret ret_val
  | d :: l' =>
      channel_name ← GetChannelName d;
      if is_empty channel_name then transaction_loop l' ret_val
      else
        r ← CommitTransaction_SendRequest channel_name;
        if r !=? TCOPER_RET_SUCCESS then leave r
        else modify (fun m => set_abort_on_fail m (abort_on_fail_ m ++ [d]));;
             transaction_loop l' r
  end.

Definition commit_start_order : list TcDaemonName :=
  [TC_DRV_ODL; TC_DRV_OPENFLOW; TC_DRV_OVERLAY; TC_DRV_POLC; TC_UPLL; TC_UPPL].
Definition commit_end_order : list TcDaemonName :=
  [TC_UPPL; TC_UPLL; TC_DRV_POLC; TC_DRV_OVERLAY; TC_DRV_OPENFLOW; TC_DRV_ODL].

Definition CommitTransaction_Execute : M TcOperRet := method (
  sid ← get session_id_;
  cid ← get config_id_;
  (if (sid ==? 0) || (cid ==? 0) then leave TCOPER_RET_FAILURE else ret tt);;
  oper ← get opertype_;
  notifyorder ← (match oper with
    | MSG_COMMIT_TRANS_START => ret commit_start_order
    | MSG_COMMIT_TRANS_END => ret commit_end_order
    | _ => leave TCOPER_RET_FAILURE
    end : M (list TcDaemonName));
  r ← transaction_loop notifyorder TCOPER_RET_SUCCESS;
  modify (fun m => set_abort_on_fail m []);;
  ret r).

(** ** Vote and global commit *)

Definition SetSessionToForwardDriverResult (v : SessRef) : M TcOperRet := method (
  oper ← get opertype_;
  p ← (match oper with
    | MSG_COMMIT_VOTE => ret (MSG_COMMIT_VOTE_DRIVER_RESULT, TC_COMMIT_VOTE_PHASE)
    | MSG_COMMIT_GLOBAL =>
        ret (MSG_COMMIT_GLOBAL_DRIVER_RESULT, TC_COMMIT_GLOBAL_COMMIT_PHASE)
    | _ => leave TCOPER_RET_FAILURE
    end : M (TcMsgOperType * Z));
  checked (set_uint8 ipc v (oper_code p.1));;
  set_ids v;;
  checked (set_uint8 ipc v p.2);;
  ret TCOPER_RET_SUCCESS).

(** [ret_val = f(); if (ret_val != SUCCESS) return r;] *)
Definition or_leave (f : M TcOperRet) (r : TcOperRet) : M unit :=
  x ← f; if x !=? TCOPER_RET_SUCCESS then leave r else ret tt.

(** [ret_val = f(); if (ret_val != SUCCESS) return ret_val;] *)
Definition or_leave_same (f : M TcOperRet) : M unit :=
  x ← f; if x !=? TCOPER_RET_SUCCESS then leave x else ret tt.

Definition CreateSessionsToForwardDriverResult : M TcOperRet := method (
  channel_name ← GetChannelName TC_UPLL;
  create ipc RUpll channel_name TCLIB_COMMIT_DRV_RESULT true;;
  or_leave (SetSessionToForwardDriverResult RUpll) TCOPER_RET_FAILURE;;
  channel_name ← GetChannelName TC_UPPL;
  create ipc RUppl channel_name TCLIB_COMMIT_DRV_RESULT true;;
  or_leave (SetSessionToForwardDriverResult RUppl) TCOPER_RET_FAILURE;;
  ret TCOPER_RET_SUCCESS).

Definition HandleDriverResultResponse (v : SessRef) : M TcOperRet := method (
  oper ← get opertype_;
  resp ← invoke ipc v;
  if (resp ==? TC_FAILURE) && (oper ==? MSG_COMMIT_VOTE) then
    modify (fun m => set_trans_result m TRANS_END_FAILURE);;
    vec ← get abort_on_fail_;
    r ← SendAbortRequest vec;
    ret (if r ==? TCOPER_RET_SUCCESS then TCOPER_RET_ABORT else TCOPER_RET_FATAL)
  else if (resp ==? TC_FAILURE) && (oper ==? MSG_COMMIT_GLOBAL) then ret TCOPER_RET_FATAL
  else ret TCOPER_RET_SUCCESS).

(** Reading the controller information of a response: [idx] is the index of
    the last item read. *)
Fixpoint read_controllers (v : SessRef) (n : nat) (idx : Z) (acc : list string)
    : M (Z * list string) :=
  match n with
  | O => ret (idx, acc)
  | S n' =>
      p ← peek (get_string v (idx + 1));
      if p.1 !=? TCUTIL_RET_SUCCESS then leave (ReturnUtilResp p.1)
      else read_controllers v n' (idx + 1) (acc ++ [p.2])
  end.

(** [get_uint8] with its check. *)
Definition read_uint8 (v : SessRef) (idx : Z) : M Z :=
  p ← peek (get_uint8 v idx);
  if p.1 !=? TCUTIL_RET_SUCCESS then leave (ReturnUtilResp p.1) else ret p.2.

(** The controllers of a driver type are added to those already known. *)
Definition add_controllers (driver_type : Z) (controllers : list string) (m : MsgData)
    : MsgData :=
  let info :=
    match dmap_find driver_type (driverinfo_map_ m) with
    | None => dmap_insert driver_type controllers (driverinfo_map_ m)
    | Some temp_list =>
        dmap_insert driver_type
          (list_unique (list_merge (list_sort controllers) (list_sort temp_list)))
          (dmap_erase driver_type (driverinfo_map_ m))
    end in
  set_drivers m info (driver_set_ m) (driverset_map_ m).

Fixpoint read_drivers (v : SessRef) (n : nat) (idx : Z) : M unit :=
  match n with
  | O => ret tt
  | S n' =>
      driver_type ← read_uint8 v (idx + 1);
      modify (fun m => set_drivers m (driverinfo_map_ m)
                         ({[driver_type]} ∪ driver_set_ m) (driverset_map_ m));;
      count ← read_uint8 v (idx + 2);
      p ← read_controllers v (Z.to_nat count) (idx + 2) [];
      modify (add_controllers driver_type p.2);;
      read_drivers v n' p.1
  end.

Definition GetControllerInfo (v : SessRef) : M TcOperRet := method (
  driver_count ← read_uint8 v 0;
  read_drivers v (Z.to_nat driver_count) 0;;
  ret TCOPER_RET_SUCCESS).

(** Append one value to the sessions of UPLL and UPPL. *)
Definition set_both (x : IpcValue) : M unit :=
  checked (add_output ipc RUpll x);; checked (add_output ipc RUppl x).

Fixpoint dummy_responses (l : list string) : M unit :=
  match l with
  | [] => ret tt
  | c :: l' =>
      set_both (VStr c);;
      set_both (VU32 (TcOperStatus_value TC_OPER_DRIVER_NOT_PRESENT));;
      set_both (VU32 0);;
      set_both (VU64 0);;
      set_both (VU64 0);;
      set_both (VStr EmptyString);;
      dummy_responses l'
  end.

Definition HandleDriverNotPresent (driver : Z) : M TcOperRet := method (
  info ← get driverinfo_map_;
  match dmap_find driver info with
  | Some ctrl_list => dummy_responses ctrl_list;; ret TCOPER_RET_SUCCESS
  | None => ret TCOPER_RET_FAILURE
  end).

Fixpoint set_strings (v : SessRef) (l : list string) : M unit :=
  match l with
  | [] => ret tt
  | s :: l' => checked (set_string ipc v s);; set_strings v l'
  end.

(** [forward] with its check. *)
Definition forward_checked (dst : SessRef) : M unit :=
  err ← io (forward_all ipc dst RSess);
  if err !=? 0 then leave TCOPER_RET_FATAL else ret tt.

(** The response of a driver that succeeded is forwarded when UPLL named the
    driver; for UPPL the list of UPLL is used as well. *)
Definition forward_driver_response (driver : Z) : M unit :=
  dsm ← get driverset_map_;
  let named := bool_decide (driver ∈ default ∅ (dsm !! TC_UPLL)) in
  (if named then forward_checked RUpll else ret tt);;
  (if named then forward_checked RUppl else ret tt).

(** One driver of the loop of [SendRequestToDriver]; the request part.  The
    count of controllers is kept in a [uint8_t]. *)
Definition request_driver (oper : TcMsgOperType) (channel_name : string)
    (clist : list string) : M Z :=
  create ipc RSess channel_name TCLIB_COMMIT_DRV_VOTE_GLOBAL true;;
  checked (set_uint8 ipc RSess (oper_code oper));;
  set_ids RSess;;
  checked (set_uint8 ipc RSess (Z.of_nat (length clist)));;
  set_strings RSess clist;;
  invoke ipc RSess.

(** What follows the driver's response. *)
Definition driver_answered (oper : TcMsgOperType) (driver : Z) (daemon : TcDaemonName)
    (resp : Z) (ret_val : TcOperRet) : M TcOperRet :=
  if resp ==? TC_SUCCESS then
    forward_driver_response driver;;
    modify (fun m => set_abort_on_fail m (abort_on_fail_ m ++ [daemon]));;
    ret TCOPER_RET_SUCCESS
  else if (resp ==? TC_FAILURE) && (oper ==? MSG_COMMIT_VOTE) then
    modify (fun m => set_trans_result m TRANS_END_FAILURE);;
    vec ← get abort_on_fail_;
    r ← SendAbortRequest vec;
    if r ==? TCOPER_RET_SUCCESS then
      modify (fun m => set_drivers (set_abort_on_fail m []) [] (driver_set_ m)
                         (driverset_map_ m));;
      ret TCOPER_RET_ABORT
    else modify (fun m => set_abort_on_fail m []);; ret TCOPER_RET_FATAL
  else if (resp ==? TC_FAILURE) && (oper ==? MSG_COMMIT_GLOBAL) then ret TCOPER_RET_FATAL
  else ret ret_val.

Fixpoint driver_loop (drv_oper : TcMsgOperType) (l : list (Z * list string))
    (ret_val : TcOperRet) : M TcOperRet :=
  match l with
  | [] => ret ret_val
  | (driver, clist) :: l' =>
      let daemon := MapTcDriverId driver in
      (if daemon ==? TC_NONE then leave TCOPER_RET_FATAL else ret tt);;
      channel_name ← GetChannelName daemon;
      if is_empty channel_name then
        or_leave (HandleDriverNotPresent driver) TCOPER_RET_FATAL;;
        driver_loop drv_oper l' TCOPER_RET_SUCCESS
      else
        oper ← get opertype_;
        resp ← request_driver drv_oper channel_name clist;
        r ← driver_answered oper driver daemon resp ret_val;
        if r ==? TCOPER_RET_SUCCESS then close RSess;; driver_loop drv_oper l' r
        else leave r
  end.

Definition SendRequestToDriver : M TcOperRet := method (
  oper ← get opertype_;
  let drv_oper := match oper with
    | MSG_COMMIT_VOTE => MSG_COMMIT_DRIVER_VOTE
    | MSG_COMMIT_GLOBAL => MSG_COMMIT_DRIVER_GLOBAL
    | _ => MSG_NONE
    end in
  or_leave CreateSessionsToForwardDriverResult TCOPER_RET_FAILURE;;
  info ← get driverinfo_map_;
  _ ← driver_loop drv_oper info TCOPER_RET_SUCCESS;
  or_leave_same (HandleDriverResultResponse RUpll);;
  or_leave_same (HandleDriverResultResponse RUppl);;
  ret TCOPER_RET_SUCCESS).

Definition TwoPhaseCommit_SendRequest (channel_name : string) : M TcOperRet := method (
  create ipc RSess channel_name TCLIB_COMMIT_TRANSACTION true;;
  oper ← get opertype_;
  checked (set_uint8 ipc RSess (oper_code oper));;
  sid ← get session_id_;
  checked (set_uint32 ipc RSess sid);;
  cid ← get config_id_;
  checked (set_uint32 ipc RSess cid);;
  resp ← invoke ipc RSess;
  respcount ← peek (getResponseCount RSess);
  ret_val ←
    (if (resp ==? TC_SUCCESS) && bool_decide (0 < respcount) then
       or_leave (GetControllerInfo RSess) TCOPER_RET_FAILURE;;
       ret TCOPER_RET_SUCCESS
     else if (resp ==? TC_FAILURE) && (oper ==? MSG_COMMIT_VOTE) then
       modify (fun m => set_trans_result m TRANS_END_FAILURE);;
       vec ← get abort_on_fail_;
       match vec with
       | [] => ret TCOPER_RET_ABORT
       | _ =>
           r ← SendAbortRequest vec;
           modify (fun m => set_abort_on_fail m []);;
           ret (if r ==? TCOPER_RET_SUCCESS then TCOPER_RET_ABORT else TCOPER_RET_FATAL)
       end
     else if (resp ==? TC_FAILURE) && (oper ==? MSG_COMMIT_GLOBAL) then ret TCOPER_RET_FATAL
     else ret TCOPER_RET_SUCCESS);
  (if ret_val ==? TCOPER_RET_SUCCESS then close RSess else ret tt);;
  ret ret_val).

(** [driverset_map_.insert]: the first entry of a daemon stays. *)
Definition save_driver_set (d : TcDaemonName) (m : MsgData) : MsgData :=
  if driver_set_ m ==? ∅ then m
  else set_drivers m (driverinfo_map_ m) ∅
         (match driverset_map_ m !! d with
          | Some _ => driverset_map_ m
          | None => <[d := driver_set_ m]> (driverset_map_ m)
          end).

Fixpoint vote_loop (l : list TcDaemonName) (ret_val : TcOperRet) : M TcOperRet :=
  match l with
  | [] => ret ret_val
  | d :: l' =>
      channel_name ← channel_of d;
      r ← TwoPhaseCommit_SendRequest channel_name;
      if r !=? TCOPER_RET_SUCCESS then
        modify (fun m => set_abort_on_fail m []);; leave r
      else
        modify (fun m => save_driver_set d (set_abort_on_fail m (abort_on_fail_ m ++ [d])));;
        vote_loop l' r
  end.

Definition TwoPhaseCommit_Execute : M TcOperRet := method (
  sid ← get session_id_;
  cid ← get config_id_;
  (if (sid ==? 0) || (cid ==? 0) then leave TCOPER_RET_FAILURE else ret tt);;
  r ← vote_loop [TC_UPLL; TC_UPPL] TCOPER_RET_SUCCESS;
  info ← get driverinfo_map_;
  match info with
  | [] =>
      or_leave CreateSessionsToForwardDriverResult TCOPER_RET_FAILURE;;
      or_leave (HandleDriverResultResponse RUpll) TCOPER_RET_FAILURE;;
      or_leave (HandleDriverResultResponse RUppl) TCOPER_RET_FAILURE;;
      modify (fun m => set_abort_on_fail m []);;
      ret TCOPER_RET_SUCCESS
  | _ =>
      r ← SendRequestToDriver;
      modify (fun m => set_drivers (set_abort_on_fail m []) (driverinfo_map_ m)
                         (driver_set_ m) ∅);;
      ret r
  end).

End Commit.
