(* ===== verification/TcMsgAudit.v ===== *)
(** * Audit messages

    [modules/tc/tcmsg_audit.cc]: driver identification, audit and transaction
    start and end, and the two phases of the audit of one controller. *)

From S2P Require Import Prelude TcTypes TcIpc TcMsg TcMsgCommit.

Local Open Scope Z_scope.

Definition AUDIT_VOTE_REQUEST : Z := 2.
Definition TC_AUDIT_VOTE_PHASE : Z := 2.
Definition TC_AUDIT_GLOBAL_COMMIT_PHASE : Z := 3.
Definition COMMIT_INFO_START_POS : Z := 3.

Definition TcAuditResult_value (r : TcAuditResult) : Z :=
  match r with
  | TC_AUDIT_FAILURE => 0 | TC_AUDIT_SUCCESS => 1 | TC_SIMPLIFIED_AUDIT_SUCCESS => 2
  end.

(** [(TcAuditResult)(audit_result_ && audit_ret)] *)
Definition audit_and (r : TcAuditResult) (audit_ret : Z) : TcAuditResult :=
  if (TcAuditResult_value r !=? 0) && (audit_ret !=? 0)
  then TC_AUDIT_SUCCESS else TC_AUDIT_FAILURE.

Definition driver_in_range (d : Z) : bool :=
  bool_decide (UNC_CT_PFC <= d) && bool_decide (d <= UNC_CT_ODC).

Section Audit.

Context (ipc : Ipc).

(** [SendRequestToDriver] reads the channel of a driver through
    [channel_names_.find(...)->second] without testing the iterator:
    [end_value] stands for what is read when the driver has no channel. *)
Context (end_value : string).

(** Driver and controller, with the checks of the two methods below; an
    invalid one returns without closing the session. *)
Definition set_controller_ids (v : SessRef) : M unit :=
  drv ← get driver_id_;
  (if driver_in_range drv then checked_close v (set_uint8 ipc v drv)
   else leave TCOPER_RET_FAILURE);;
  ctrl ← get controller_id_;
  if is_empty ctrl then leave TCOPER_RET_FAILURE
  else checked_close v (set_string ipc v ctrl).

Definition TcMsgAudit_SendAbortRequest (abort_vec : list TcDaemonName) : M TcOperRet := method (
  oper ← get opertype_;
  (if oper ==? MSG_AUDIT_VOTE then ret tt else leave TCOPER_RET_FAILURE);;
  resp ← notify_loop (fun d =>
    channel_name ← GetChannelName d;
    create ipc RLocal channel_name TCLIB_AUDIT_GLOBAL_ABORT true;;
    checked_close RLocal (set_uint8 ipc RLocal (oper_code MSG_AUDIT_ABORT));;
    sid ← get session_id_;
    checked_close RLocal (set_uint32 ipc RLocal sid);;
    set_controller_ids RLocal;;
    checked_close RLocal (set_uint8 ipc RLocal AUDIT_VOTE_REQUEST);;
    resp ← invoke_close ipc RLocal;
    close RLocal;;
    ret resp) abort_vec 0;
  ret (RespondToTc resp)).

Definition SendAuditTransEndRequest (abort_vec : list TcDaemonName) (oper : TcMsgOperType)
    : M TcOperRet := method (
  (if (oper !=? MSG_AUDIT_TRANS_END) && (oper !=? MSG_AUDIT_END)
   then leave TCOPER_RET_FAILURE else ret tt);;
  resp ← notify_loop (fun d =>
    channel_name ← channel_of d;
    create ipc RLocal channel_name TCLIB_AUDIT_TRANSACTION true;;
    checked_close RLocal (set_uint8 ipc RLocal (oper_code oper));;
    sid ← get session_id_;
    checked_close RLocal (set_uint32 ipc RLocal sid);;
    set_controller_ids RLocal;;
    (if oper ==? MSG_AUDIT_TRANS_END
     then tr ← get trans_result_;
          checked_close RLocal (set_uint8 ipc RLocal (TcTransEndResult_value tr))
     else ret tt);;
    (if oper ==? MSG_AUDIT_END
     then ar ← get audit_result_;
          checked_close RLocal (set_uint8 ipc RLocal (TcAuditResult_value ar))
     else ret tt);;
    resp ← invoke_close ipc RLocal;
    close RLocal;;
    ret resp) (rev abort_vec) 0;
  ret (RespondToTc resp)).

(** ** Driver identification *)

Definition GetDriverId_Execute : M TcOperRet := method (
  channel_name ← GetChannelName TC_UPPL;
  create ipc RSess channel_name TCLIB_GET_DRIVERID false;;
  ctrl ← get controller_id_;
  checked (set_string ipc RSess ctrl);;
  resp ← invoke ipc RSess;
  modify (fun m => set_controller m (controller_id_ m) resp);;
  ret TCOPER_RET_SUCCESS).

(** ** Audit and transaction start and end *)

(** What a request carries beyond driver and controller. *)
Definition transaction_args (oper : TcMsgOperType) : M unit :=
  match oper with
  | MSG_AUDIT_START =>
      rc ← get reconnect_controller_;
      checked (set_uint8 ipc RSess (Z.b2z rc));;
      sa ← get simplified_audit_;
      checked (set_uint8 ipc RSess (Z.b2z sa));;
      n ← get commit_number_;
      checked (set_uint64 ipc RSess n);;
      d ← get commit_date_;
      checked (set_uint64 ipc RSess d);;
      a ← get commit_application_;
      checked (set_string ipc RSess a)
  | MSG_AUDIT_TRANS_END =>
      tr ← get trans_result_;
      checked (set_uint8 ipc RSess (TcTransEndResult_value tr))
  | MSG_AUDIT_END =>
      ar ← get audit_result_;
      checked (set_uint8 ipc RSess (TcAuditResult_value ar))
  | _ => ret tt
  end.

(** The commit information a driver returns from AUDIT_START, if any. *)
Definition read_commit_info : M unit :=
  respcount ← peek (getResponseCount RSess);
  if bool_decide (respcount < 6) then ret tt
  else
    n ← peek (get_uint64 RSess COMMIT_INFO_START_POS);
    (if n.1 !=? TCUTIL_RET_SUCCESS then leave (ReturnUtilResp n.1) else ret tt);;
    d ← peek (get_uint64 RSess (COMMIT_INFO_START_POS + 1));
    (if d.1 !=? TCUTIL_RET_SUCCESS then leave (ReturnUtilResp d.1) else ret tt);;
    a ← peek (get_string RSess (COMMIT_INFO_START_POS + 2));
    (if a.1 !=? TCUTIL_RET_SUCCESS then leave (ReturnUtilResp a.1) else ret tt);;
    modify (fun m => set_commit_info m n.2 d.2 a.2).

(** The handling of the response, and the value returned. *)
Definition transaction_answered (oper : TcMsgOperType) (resp : Z) : M TcOperRet :=
  if resp ==? TC_SUCCESS then ret TCOPER_RET_SUCCESS
  else if (resp ==? TC_SIMPLIFIED_AUDIT) && (oper ==? MSG_AUDIT_START) then
    modify (fun m => if user_audit_ m then m
                     else set_audit_options m (reconnect_controller_ m) true (user_audit_ m));;
    ret TCOPER_RET_SUCCESS
  else if (resp ==? TC_FAILURE) && (oper ==? MSG_AUDIT_START) then
    modify (fun m => set_audit_result m TC_AUDIT_FAILURE);;
    vec ← get abort_on_fail_;
    match vec with
    | [] => ret TCOPER_RET_ABORT
    | _ =>
        r ← SendAuditTransEndRequest vec MSG_AUDIT_END;
        modify (fun m => set_abort_on_fail m []);;
        ret (match r with
             | TCOPER_RET_SUCCESS => TCOPER_RET_ABORT
             | TCOPER_RET_FAILURE => TCOPER_RET_FATAL
             | _ => r
             end)
    end
  else if (resp ==? TC_FAILURE) && (oper ==? MSG_AUDIT_TRANS_START) then
    modify (fun m => set_trans_result (set_audit_result m TC_AUDIT_FAILURE) TRANS_END_FAILURE);;
    vec ← get abort_on_fail_;
    match vec with
    | [] => ret TCOPER_RET_ABORT
    | _ =>
        r ← SendAuditTransEndRequest vec MSG_AUDIT_TRANS_END;
        modify (fun m => set_abort_on_fail m []);;
        ret (if r !=? TCOPER_RET_SUCCESS then TCOPER_RET_FATAL else TCOPER_RET_ABORT)
    end
  else if (resp ==? TC_FAILURE) &&
          ((oper ==? MSG_AUDIT_END) || (oper ==? MSG_AUDIT_TRANS_END)) then
    modify (fun m => set_audit_result m TC_AUDIT_FAILURE);;
    ret TCOPER_RET_FATAL
  else ret TCOPER_RET_SUCCESS.

Definition AuditTransaction_SendRequest (channel_name : string) : M TcOperRet := method (
  create ipc RSess channel_name TCLIB_AUDIT_TRANSACTION true;;
  oper ← get opertype_;
  checked (set_uint8 ipc RSess (oper_code oper));;
  sid ← get session_id_;
  checked (set_uint32 ipc RSess sid);;
  drv ← get driver_id_;
  checked (set_uint8 ipc RSess drv);;
  ctrl ← get controller_id_;
  checked (set_string ipc RSess ctrl);;
  transaction_args oper;;
  resp ← invoke ipc RSess;
  (if ((resp ==? TC_SIMPLIFIED_AUDIT) || (resp ==? TC_SUCCESS)) && (oper ==? MSG_AUDIT_START)
   then read_commit_info else ret tt);;
  ret_val ← transaction_answered oper resp;
  (if ret_val ==? TCOPER_RET_SUCCESS then close RSess else ret tt);;
  ret ret_val).

Definition audit_order (oper : TcMsgOperType) (driver : Z) : option (list TcDaemonName) :=
  match oper with
  | MSG_AUDIT_START => Some [MapTcDriverId driver; TC_UPPL; TC_UPLL]
  | MSG_AUDIT_END => Some [TC_UPPL; TC_UPLL; MapTcDriverId driver]
  | MSG_AUDIT_TRANS_START => Some [TC_DRV_ODL; TC_DRV_POLC; TC_UPLL; TC_UPPL]
  | MSG_AUDIT_TRANS_END =>
      Some [TC_UPPL; TC_UPLL; TC_DRV_POLC; TC_DRV_OVERLAY; TC_DRV_OPENFLOW; TC_DRV_ODL]
  | _ => None
  end.

Fixpoint audit_loop (oper : TcMsgOperType) (l : list TcDaemonName) (ret_val : TcOperRet)
    : M TcOperRet :=
  match l with
  | [] => ret ret_val
  | d :: l' =>
      channel_name ← GetChannelName d;
      if is_empty channel_name then
        if oper ==? MSG_AUDIT_START then ret TCOPER_RET_NO_DRIVER
        else audit_loop oper l' ret_val
      else
        r ← AuditTransaction_SendRequest channel_name;
        if r !=? TCOPER_RET_SUCCESS then leave r
        else
          simplified ← get simplified_audit_;
          modify (fun m => set_abort_on_fail m (abort_on_fail_ m ++ [d]));;
          audit_loop oper l' (if simplified then TCOPER_RET_SIMPLIFIED_AUDIT else r)
  end.

Definition AuditTransaction_Execute : M TcOperRet := method (
  drv ← get driver_id_;
  ctrl ← get controller_id_;
  (if negb (driver_in_range drv) || is_empty ctrl
   then leave TCOPER_RET_FAILURE else ret tt);;
  oper ← get opertype_;
  notifyorder ← (match audit_order oper drv with
    | Some l => ret l
    | None => leave TCOPER_RET_FAILURE
    end : M (list TcDaemonName));
  r ← audit_loop oper notifyorder TCOPER_RET_SUCCESS;
  modify (fun m => set_abort_on_fail m []);;
  ret r).

(** ** Vote and global commit of an audit *)

Definition TwoPhaseAudit_SetSessionToForwardDriverResult (v : SessRef) : M TcOperRet := method (
  oper ← get opertype_;
  p ← (match oper with
    | MSG_AUDIT_VOTE => ret (MSG_AUDIT_VOTE_DRIVER_RESULT, TC_AUDIT_VOTE_PHASE)
    | MSG_AUDIT_GLOBAL => ret (MSG_AUDIT_GLOBAL_DRIVER_RESULT, TC_AUDIT_GLOBAL_COMMIT_PHASE)
    | _ => leave TCOPER_RET_FAILURE
    end : M (TcMsgOperType * Z));
  checked (set_uint8 ipc v (oper_code p.1));;
  sid ← get session_id_;
  checked (set_uint32 ipc v sid);;
  ctrl ← get controller_id_;
  checked (set_string ipc v ctrl);;
  checked (set_uint8 ipc v p.2);;
  ret TCOPER_RET_SUCCESS).

Definition TwoPhaseAudit_CreateSessionsToForwardDriverResult : M TcOperRet := method (
  channel_name ← GetChannelName TC_UPLL;
  create ipc RUpll channel_name TCLIB_AUDIT_DRV_RESULT true;;
  or_leave (TwoPhaseAudit_SetSessionToForwardDriverResult RUpll) TCOPER_RET_FAILURE;;
  channel_name ← GetChannelName TC_UPPL;
  create ipc RUppl channel_name TCLIB_AUDIT_DRV_RESULT true;;
  or_leave (TwoPhaseAudit_SetSessionToForwardDriverResult RUppl) TCOPER_RET_FAILURE;;
  ret TCOPER_RET_SUCCESS).

(** The last response of a global commit is the participant's audit result. *)
Definition take_audit_result (v : SessRef) : M unit :=
  respcount ← peek (getResponseCount v);
  audit_ret ← read_uint8 v (u32_dec respcount);
  modify (fun m => set_audit_result m (audit_and (audit_result_ m) audit_ret)).

(** A vote failed: the results sent at the end, and the abort requests. *)
Definition audit_vote_failed : M TcOperRet :=
  modify (fun m => set_audit_result (set_trans_result m TRANS_END_FAILURE) TC_AUDIT_FAILURE);;
  vec ← get abort_on_fail_;
  TcMsgAudit_SendAbortRequest vec.

Definition TwoPhaseAudit_HandleDriverResultResponse (v : SessRef) : M TcOperRet := method (
  oper ← get opertype_;
  resp ← invoke ipc v;
  (if (oper ==? MSG_AUDIT_GLOBAL) && (resp ==? TC_SUCCESS)
   then take_audit_result v else ret tt);;
  if (resp ==? TC_FAILURE) && (oper ==? MSG_AUDIT_VOTE) then
    r ← audit_vote_failed;
    ret (if r ==? TCOPER_RET_SUCCESS then TCOPER_RET_ABORT else TCOPER_RET_FATAL)
  else if (resp ==? TC_FAILURE) && (oper ==? MSG_AUDIT_GLOBAL) then
    modify (fun m => set_audit_result m TC_AUDIT_FAILURE);;
    ret TCOPER_RET_FATAL
  else ret TCOPER_RET_SUCCESS).

(** The same code as [TwoPhaseCommit::GetControllerInfo]. *)
Definition TwoPhaseAudit_GetControllerInfo (v : SessRef) : M TcOperRet :=
  GetControllerInfo v.

Definition audit_request_driver (oper : TcMsgOperType) (channel_name : string)
    (clist : list string) : M Z :=
  create ipc RSess channel_name TCLIB_AUDIT_DRV_VOTE_GLOBAL true;;
  checked (set_uint8 ipc RSess (oper_code oper));;
  sid ← get session_id_;
  checked (set_uint32 ipc RSess sid);;
  ctrl ← get controller_id_;
  checked (set_string ipc RSess ctrl);;
  checked (set_uint8 ipc RSess (Z.of_nat (length clist)));;
  set_strings ipc RSess clist;;
  invoke ipc RSess.

Definition audit_driver_answered (oper : TcMsgOperType) (driver : Z) (daemon : TcDaemonName)
    (resp : Z) (ret_val : TcOperRet) : M TcOperRet :=
  if resp ==? TC_SUCCESS then
    forward_driver_response ipc driver;;
    modify (fun m => set_abort_on_fail m (abort_on_fail_ m ++ [daemon]));;
    ret TCOPER_RET_SUCCESS
  else if (resp ==? TC_FAILURE) && (oper ==? MSG_AUDIT_VOTE) then
    r ← audit_vote_failed;
    if r ==? TCOPER_RET_SUCCESS then
      modify (fun m => set_drivers (set_abort_on_fail m []) [] (driver_set_ m)
                         (driverset_map_ m));;
      ret TCOPER_RET_ABORT
    else modify (fun m => set_abort_on_fail m []);; ret TCOPER_RET_FATAL
  else if (resp ==? TC_FAILURE) && (oper ==? MSG_AUDIT_GLOBAL) then
    modify (fun m => set_audit_result m TC_AUDIT_FAILURE);;
    ret TCOPER_RET_FATAL
  else ret ret_val.

Fixpoint audit_driver_loop (drv_oper : TcMsgOperType) (l : list (Z * list string))
    (ret_val : TcOperRet) : M TcOperRet :=
  match l with
  | [] => ret ret_val
  | (driver, clist) :: l' =>
      let daemon := MapTcDriverId driver in
      (if daemon ==? TC_NONE then leave TCOPER_RET_FATAL else ret tt);;
      channel_name ← get (fun m => default end_value (channel_names_ m !! daemon));
      oper ← get opertype_;
      resp ← audit_request_driver drv_oper channel_name clist;
      r ← audit_driver_answered oper driver daemon resp ret_val;
      if r ==? TCOPER_RET_SUCCESS then close RSess;; audit_driver_loop drv_oper l' r
      else leave r
  end.

Definition TwoPhaseAudit_SendRequestToDriver : M TcOperRet := method (
  oper ← get opertype_;
  let drv_oper := match oper with
    | MSG_AUDIT_VOTE => MSG_AUDIT_DRIVER_VOTE
    | MSG_AUDIT_GLOBAL => MSG_AUDIT_DRIVER_GLOBAL
    | _ => MSG_NONE
    end in
  or_leave TwoPhaseAudit_CreateSessionsToForwardDriverResult TCOPER_RET_FAILURE;;
  info ← get driverinfo_map_;
  _ ← audit_driver_loop drv_oper info TCOPER_RET_SUCCESS;
  or_leave_same (TwoPhaseAudit_HandleDriverResultResponse RUpll);;
  or_leave_same (TwoPhaseAudit_HandleDriverResultResponse RUppl);;
  ret TCOPER_RET_SUCCESS).

Definition TwoPhaseAudit_SendRequest (channel_name : string) : M TcOperRet := method (
  create ipc RSess channel_name TCLIB_AUDIT_TRANSACTION true;;
  oper ← get opertype_;
  checked (set_uint8 ipc RSess (oper_code oper));;
  sid ← get session_id_;
  checked (set_uint32 ipc RSess sid);;
  drv ← get driver_id_;
  checked (set_uint8 ipc RSess drv);;
  ctrl ← get controller_id_;
  checked (set_string ipc RSess ctrl);;
  resp ← invoke ipc RSess;
  respcount ← peek (getResponseCount RSess);
  (if (oper ==? MSG_AUDIT_GLOBAL) && (resp ==? TC_SUCCESS)
   then take_audit_result RSess else ret tt);;
  ret_val ←
    (if (resp ==? TC_SUCCESS) && bool_decide (1 < respcount) then
       or_leave (TwoPhaseAudit_GetControllerInfo RSess) TCOPER_RET_FAILURE;;
       ret TCOPER_RET_SUCCESS
     else if (resp ==? TC_FAILURE) && (oper ==? MSG_AUDIT_VOTE) then
       modify (fun m => set_audit_result (set_trans_result m TRANS_END_FAILURE)
                          TC_AUDIT_FAILURE);;
       vec ← get abort_on_fail_;
       match vec with
       | [] => ret TCOPER_RET_ABORT
       | _ =>
           r ← TcMsgAudit_SendAbortRequest vec;
           modify (fun m => set_abort_on_fail m []);;
           ret (if r ==? TCOPER_RET_SUCCESS then TCOPER_RET_ABORT else TCOPER_RET_FATAL)
       end
     else if (resp ==? TC_FAILURE) && (oper ==? MSG_AUDIT_GLOBAL) then
       modify (fun m => set_audit_result m TC_AUDIT_FAILURE);;
       ret TCOPER_RET_FATAL
     else ret TCOPER_RET_SUCCESS);
  (if ret_val ==? TCOPER_RET_SUCCESS then close RSess else ret tt);;
  ret ret_val).

Fixpoint audit_vote_loop (l : list TcDaemonName) (ret_val : TcOperRet) : M TcOperRet :=
  match l with
  | [] => ret ret_val
  | d :: l' =>
      channel_name ← channel_of d;
      r ← TwoPhaseAudit_SendRequest channel_name;
      if r !=? TCOPER_RET_SUCCESS then
        modify (fun m => set_abort_on_fail m []);; leave r
      else
        modify (fun m => save_driver_set d (set_abort_on_fail m (abort_on_fail_ m ++ [d])));;
        audit_vote_loop l' r
  end.

Definition TwoPhaseAudit_Execute : M TcOperRet := method (
  drv ← get driver_id_;
  ctrl ← get controller_id_;
  (if negb (driver_in_range drv) || is_empty ctrl
   then leave TCOPER_RET_FAILURE else ret tt);;
  r ← audit_vote_loop [TC_UPLL; TC_UPPL] TCOPER_RET_SUCCESS;
  info ← get driverinfo_map_;
  match info with
  | [] =>
      or_leave TwoPhaseAudit_CreateSessionsToForwardDriverResult TCOPER_RET_FAILURE;;
      or_leave (TwoPhaseAudit_HandleDriverResultResponse RUpll) TCOPER_RET_FAILURE;;
      or_leave (TwoPhaseAudit_HandleDriverResultResponse RUppl) TCOPER_RET_FAILURE;;
      modify (fun m => set_abort_on_fail m []);;
      ret TCOPER_RET_SUCCESS
  | _ =>
      r ← TwoPhaseAudit_SendRequestToDriver;
      modify (fun m => set_drivers (set_abort_on_fail m []) (driverinfo_map_ m)
                         (driver_set_ m) ∅);;
      ret r
  end).

End Audit.
