(* ===== verification/TcMsgTheorems.v ===== *)
(** * Theorems on messages

    What the participants see: the order in which notifications are sent and
    where they stop, the end requests that undo a failed transaction start,
    and the abort requests that undo a failed vote. *)

From S2P Require Import Prelude TcTypes TcIpc TcMsg TcMsgProps TcMsgCommit.

Local Open Scope Z_scope.

(** ** Orderly sequences of requests *)

Definition Call : Type := string * TcLibServiceId * list IpcValue * option Z.

(** No answer, or the answer TC_FAILURE. *)
Definition failed (c : Call) : Prop :=
  match c.2 with Some r => r = TC_FAILURE | None => True end.

(** The requests made are the first of [reqs], in order; after one that
    failed no other is made; and the result SUCCESS means that all were made
    and none failed. *)
Record orderly (reqs : list (string * TcLibServiceId * list IpcValue)) (cs : list Call)
    (r : TcOperRet) : Prop := {
  ord_prefix : cs.*1 `prefix_of` reqs;
  ord_stop : forall i c, cs !! i = Some c -> failed c -> S i = length cs;
  ord_success : r = TCOPER_RET_SUCCESS -> cs.*1 = reqs /\ Forall (fun c => ~ failed c) cs
}.

Lemma orderly_nil r : orderly [] [] r.
Proof. constructor; simpl; [done|done|]. intros _. split; [done|constructor]. Qed.

Lemma orderly_none reqs r : r <> TCOPER_RET_SUCCESS -> orderly reqs [] r.
Proof. intros Hr. constructor; simpl; [apply prefix_nil|done|done]. Qed.

Lemma orderly_last rq reqs a r :
  r <> TCOPER_RET_SUCCESS -> orderly (rq :: reqs) [(rq, a)] r.
Proof.
  intros Hr. constructor; simpl; [|by intros [|i] c|done].
  apply prefix_cons, prefix_nil.
Qed.

Lemma orderly_cons rq reqs a cs r :
  ~ failed (rq, a) -> orderly reqs cs r -> orderly (rq :: reqs) ((rq, a) :: cs) r.
Proof.
  intros Ha [H1 H2 H3]. constructor; simpl.
  - by apply prefix_cons.
  - intros [|i] c; simpl; [intros [= <-]; done|]. intros Hc Hf. by rewrite (H2 i c).
  - intros Hr. destruct (H3 Hr) as [E H4]. split; [by f_equal|by constructor].
Qed.

(** ** Loops that ask one participant after the other *)

Definition chan (m : MsgData) (d : TcDaemonName) : string :=
  default EmptyString (channel_names_ m !! d).

(** Where a state stands relative to another: same members, and the calls in
    between. *)
Definition after (st : MSt) (cs : list Call) (st' : MSt) : Prop :=
  m_data st' = m_data st /\
  exists t, w_trace (m_world st') = w_trace (m_world st) ++ t /\ calls t = cs.

Lemma after_nil st : after st [] st.
Proof. split; [done|]. exists []. by rewrite app_nil_r. Qed.

Lemma after_trans st st1 st2 cs1 cs2 :
  after st cs1 st1 -> after st1 cs2 st2 -> after st (cs1 ++ cs2) st2.
Proof.
  intros [E1 (t1&Ht1&Hc1)] [E2 (t2&Ht2&Hc2)]. split; [congruence|].
  exists (t1 ++ t2). rewrite Ht2, Ht1, app_assoc. split; [done|].
  by rewrite calls_app, Hc1, Hc2.
Qed.

Lemma after_world st w' t :
  w_trace w' = w_trace (m_world st) ++ t -> after st (calls t) (mkMSt (m_data st) w').
Proof. intros H. split; [done|]. exists t. done. Qed.

(** A body asks participant [d] with the given service and arguments. *)
Definition asks (m : MsgData) (svc : TcLibServiceId) (args : list IpcValue)
    (body : TcDaemonName -> M Z) : Prop :=
  forall d st, m_data st = m ->
    wp (body d)
      (fun r st' => after st [(chan m d, svc, args, Some r)] st')
      (fun e st' => e <> TCOPER_RET_SUCCESS /\
         (after st [] st' \/ after st [(chan m d, svc, args, None)] st')) st.

Definition requests_to (m : MsgData) (svc : TcLibServiceId) (args : list IpcValue)
    (order : list TcDaemonName) : list (string * TcLibServiceId * list IpcValue) :=
  map (fun d => (chan m d, svc, args)) order.

(** The outcome of a method that sends [reqs]. *)
Definition sends (reqs : list (string * TcLibServiceId * list IpcValue)) (st : MSt)
    (r : TcOperRet) (st' : MSt) : Prop :=
  exists cs, after st cs st' /\ orderly reqs cs r.

Lemma notify_loop_sends m svc args body l r0 st :
  asks m svc args body -> m_data st = m ->
  wp (notify_loop body l r0)
    (fun r st' => sends (requests_to m svc args l) st (RespondToTc r) st')
    (fun e st' => sends (requests_to m svc args l) st e st') st.
Proof.
  intros Hb. revert r0 st. induction l as [|d l IH]; intros r0 st Hm; simpl.
  - apply wp_ret. exists []. split; [apply after_nil|apply orderly_nil].
  - apply wp_bind. eapply wp_mono; [by apply Hb| |].
    + intros r st1 Ha. case_bool_decide as Er.
      * apply wp_ret. subst r. eexists. split; [exact Ha|apply orderly_last].
        vm_compute. discriminate.
      * eapply wp_mono; [apply IH; by destruct Ha as [-> _]| |]; simpl.
        -- intros r' st2 (cs&Hcs&Ho). eexists. split; [exact (after_trans _ _ _ _ _ Ha Hcs)|].
           by apply orderly_cons.
        -- intros r' st2 (cs&Hcs&Ho). eexists. split; [exact (after_trans _ _ _ _ _ Ha Hcs)|].
           by apply orderly_cons.
    + intros e st1 [He [Ha|Ha]].
      * eexists. split; [exact Ha|by apply orderly_none].
      * eexists. split; [exact Ha|by apply orderly_last].
Qed.

(** ** Symbolic execution of a body *)

(** Facts about the world a body has reached: the calls so far and the
    session in a variable. *)
Ltac wp_world :=
  match goal with
  | |- wp (bind _ _) _ _ _ => apply wp_bind
  | |- wp (ret _) _ _ _ => apply wp_ret
  | |- wp (leave _) _ _ _ => apply wp_leave
  | |- wp (get _) _ _ _ => apply wp_get
  | |- wp (GetChannelName _) _ _ _ => apply wp_get
  | |- wp (modify _) _ _ _ => apply wp_modify
  | |- wp (create _ _ _ _ _) _ _ _ => apply wp_create; cbn [m_data m_world]; intros
  | |- wp (checked (set_uint8 _ _ _)) _ _ _ => unfold set_uint8
  | |- wp (checked (set_uint32 _ _ _)) _ _ _ => unfold set_uint32
  | |- wp (checked (set_uint64 _ _ _)) _ _ _ => unfold set_uint64
  | |- wp (checked (set_string _ _ _)) _ _ _ => unfold set_string
  | |- wp (checked_close _ (set_uint8 _ _ _)) _ _ _ => unfold set_uint8
  | |- wp (checked_close _ (set_uint32 _ _ _)) _ _ _ => unfold set_uint32
  | |- wp (checked_close _ (set_string _ _ _)) _ _ _ => unfold set_string
  | |- wp (checked (add_output _ _ _)) _ _ _ =>
      eapply wp_checked_add; cbn [m_data m_world]; [eassumption|intros|]
  | |- wp (checked_close _ (add_output _ _ _)) _ _ _ =>
      eapply wp_checked_close_add; cbn [m_data m_world]; [eassumption|intros|intros]
  | |- wp (invoke _ _) _ _ _ =>
      eapply wp_invoke; cbn [m_data m_world]; [eassumption|intros|intros]
  | |- wp (invoke_close _ _) _ _ _ =>
      eapply wp_invoke_close; cbn [m_data m_world]; [eassumption|intros|intros]
  | |- wp (close _) _ _ _ => eapply wp_close; cbn [m_data m_world]; [eassumption|intros]
  | |- wp (channel_of _) _ _ _ => unfold channel_of
  | |- wp (if ?b then _ else _) _ _ _ => destruct b eqn:?
  end; cbn [m_data m_world cs_channel cs_service cs_output cs_response fst snd] in *.

(** Go on to the next value added to a session; failing to add it is closed
    by [done]. *)
Ltac wp_add :=
  repeat match goal with
  | |- wp (bind _ _) _ _ _ => apply wp_bind
  | |- wp (get _) _ _ _ => apply wp_get
  end;
  unfold set_uint8, set_uint32, set_uint64, set_string;
  eapply wp_checked_add; [cbn [m_world]; eassumption| |try done]; intros;
  cbn [m_data m_world cs_channel cs_service cs_output cs_response] in *.

(** Rewrite the trace equations and close an [after] goal. *)
Ltac traces :=
  repeat match goal with
  | H : w_trace ?w = _ |- context [w_trace ?w] => rewrite H
  end.

Lemma after_intro st st' t cs :
  m_data st' = m_data st -> w_trace (m_world st') = w_trace (m_world st) ++ t ->
  calls t = cs -> after st cs st'.
Proof. intros. split; [done|]. eauto. Qed.

Ltac after_solve :=
  eapply after_intro; [reflexivity| |];
  [cbn [m_world]; traces; rewrite <- ?app_assoc; reflexivity
  |rewrite ?calls_app; cbn [calls app request cs_channel cs_service cs_output];
   repeat match goal with H : calls _ = [] |- _ => rewrite H end; reflexivity].

(** Close the goals of a body that [asks]. *)
Ltac asks_solve :=
  let x := fresh "x" in let s := fresh "s" in let E := fresh "E" in
  intros x s E; subst; repeat wp_world;
  try (split; [done|left; first [apply after_nil|after_solve]]);
  try (split; [done|right; after_solve]);
  try after_solve.

(** ** The notifications *)

Section Notifications.

Context (ipc : Ipc).

(** What a notification of each class and type sends, to whom and in which
    order. *)
Definition notification (c : MsgClass) (m : MsgData)
    : option (TcLibServiceId * list IpcValue * list TcDaemonName) :=
  let up := [TC_UPLL; TC_UPPL] in
  match c, opertype_ m with
  | CTcMsgAutoSave, MSG_AUTOSAVE_ENABLE =>
      Some (TCLIB_AUTOSAVE_ENABLE, [VU32 (session_id_ m)], up)
  | CTcMsgAutoSave, MSG_AUTOSAVE_DISABLE =>
      Some (TCLIB_AUTOSAVE_DISABLE, [VU32 (session_id_ m)], up)
  | CTcMsgSetUp, MSG_SETUP => Some (TCLIB_SETUP, [VU8 (u8 (Z.b2z (autosave_enabled_ m)))], up)
  | CTcMsgSetUp, MSG_SETUP_COMPLETE =>
      Some (TCLIB_SETUP_COMPLETE, [VU8 (u8 (Z.b2z (autosave_enabled_ m)))], up)
  | CTcMsgNotifyConfigId, _ =>
      Some (TCLIB_NOTIFY_SESSION_CONFIG, [VU32 (session_id_ m); VU32 (config_id_ m)], up)
  | CTcMsgToStartupDB, MSG_SAVE_CONFIG => Some (TCLIB_SAVE_CONFIG, [VU32 (session_id_ m)], up)
  | CTcMsgToStartupDB, MSG_CLEAR_CONFIG =>
      Some (TCLIB_CLEAR_STARTUP, [VU32 (session_id_ m)], up)
  | CTcMsgAuditDB, _ =>
      Some (TCLIB_AUDIT_CONFIG, [VU8 (u8 (target_db_ m)); VU8 (u8 (fail_oper_ m))],
            [TC_UPPL; TC_UPLL])
  | CAbortCandidateDB, _ =>
      Some (TCLIB_USER_ABORT, [VU32 (session_id_ m); VU32 (config_id_ m)], up)
  | _, _ => None
  end.

Definition execute_notification (c : MsgClass) : M TcOperRet :=
  match c with
  | CTcMsgAutoSave => TcMsgAutoSave_Execute ipc
  | CTcMsgSetUp => TcMsgSetUp_Execute ipc
  | CTcMsgNotifyConfigId => TcMsgNotifyConfigId_Execute ipc
  | CTcMsgToStartupDB => TcMsgToStartupDB_Execute ipc
  | CTcMsgAuditDB => TcMsgAuditDB_Execute ipc
  | CAbortCandidateDB => AbortCandidateDB_Execute ipc
  | _ => ret TCOPER_RET_FAILURE
  end.

(** A method whose loop asks [order] sends those requests. *)
Lemma loop_method m svc args order body st :
  asks m svc args body -> m_data st = m ->
  wp (bind (notify_loop body order 0) (fun resp => ret (RespondToTc resp)))
    (sends (requests_to m svc args order) st) (sends (requests_to m svc args order) st) st.
Proof.
  intros Ha Hm. apply wp_bind. eapply wp_mono; [by apply notify_loop_sends| |].
  - intros r st' H. by apply wp_ret.
  - done.
Qed.

Lemma autosave_sends m svc args order st :
  notification CTcMsgAutoSave m = Some (svc, args, order) -> m_data st = m ->
  wp (TcMsgAutoSave_Execute ipc) (sends (requests_to m svc args order) st)
    (fun _ _ => False) st.
Proof.
  intros Hn Hm. apply wp_method. unfold notification in Hn. repeat wp_world. rewrite Hm.
  destruct (opertype_ m); try done; injection Hn as <- <- <-; apply wp_ret;
    (apply loop_method; [clear; asks_solve|exact Hm]).
Qed.

Lemma setup_sends m svc args order st :
  notification CTcMsgSetUp m = Some (svc, args, order) -> m_data st = m ->
  wp (TcMsgSetUp_Execute ipc) (sends (requests_to m svc args order) st)
    (fun _ _ => False) st.
Proof.
  intros Hn Hm. apply wp_method. unfold notification in Hn. repeat wp_world. rewrite Hm.
  destruct (opertype_ m); try done; injection Hn as <- <- <-; apply wp_ret;
    (apply loop_method; [clear; asks_solve|exact Hm]).
Qed.

Lemma notify_config_sends m svc args order st :
  notification CTcMsgNotifyConfigId m = Some (svc, args, order) -> m_data st = m ->
  wp (TcMsgNotifyConfigId_Execute ipc) (sends (requests_to m svc args order) st)
    (fun _ _ => False) st.
Proof.
  intros Hn Hm. apply wp_method. injection Hn as <- <- <-.
  apply loop_method; [clear; asks_solve|exact Hm].
Qed.

Lemma startup_sends m svc args order st :
  notification CTcMsgToStartupDB m = Some (svc, args, order) -> m_data st = m ->
  wp (TcMsgToStartupDB_Execute ipc) (sends (requests_to m svc args order) st)
    (fun _ _ => False) st.
Proof.
  intros Hn Hm. apply wp_method. unfold notification in Hn. repeat wp_world. rewrite Hm.
  destruct (opertype_ m); try done; injection Hn as <- <- <-; apply wp_ret;
    (apply loop_method; [clear; asks_solve|exact Hm]).
Qed.

Lemma audit_db_sends m svc args order st :
  notification CTcMsgAuditDB m = Some (svc, args, order) -> m_data st = m ->
  wp (TcMsgAuditDB_Execute ipc) (sends (requests_to m svc args order) st)
    (fun _ _ => False) st.
Proof.
  intros Hn Hm. apply wp_method. injection Hn as <- <- <-.
  apply wp_bind, wp_get, wp_bind, wp_get, wp_bind.
  destruct (ValidateAuditDBAttributes _ _ !=? _).
  - apply wp_leave. exists []. split; [apply after_nil|by apply orderly_none].
  - apply wp_ret. rewrite Hm. apply loop_method; [clear; asks_solve|exact Hm].
Qed.

Lemma abort_candidate_sends m svc args order st :
  notification CAbortCandidateDB m = Some (svc, args, order) -> m_data st = m ->
  wp (AbortCandidateDB_Execute ipc) (sends (requests_to m svc args order) st)
    (fun _ _ => False) st.
Proof.
  intros Hn Hm. apply wp_method. injection Hn as <- <- <-.
  apply loop_method; [clear; unfold set_ids; asks_solve|exact Hm].
Qed.

End Notifications.

(** Every notification (set-up, configuration identifier, auto save,
    start-up database, database audit, candidate abort) reaches its
    participants in the prescribed order with the prescribed service and
    arguments, is not sent on after a participant failed or could not be
    reached, and answers SUCCESS only when all participants were asked and
    none failed.  The message itself is unchanged. *)
Theorem notifications_in_order ipc c m svc args order w :
  notification c m = Some (svc, args, order) ->
  exists r st', execute_notification ipc c (mkMSt m w) = (inl r, st') /\
    sends (requests_to m svc args order) (mkMSt m w) r st'.
Proof.
  intros Hn.
  assert (wp (execute_notification ipc c) (sends (requests_to m svc args order) (mkMSt m w))
            (fun _ _ => False) (mkMSt m w)) as Hwp.
  { destruct c; try discriminate Hn; simpl.
    - by apply notify_config_sends.
    - by apply setup_sends.
    - by apply startup_sends.
    - by apply abort_candidate_sends.
    - by apply audit_db_sends.
    - by apply autosave_sends. }
  unfold wp in Hwp. destruct (execute_notification _ _ _) as [[r|r] st']; [|done]. eauto.
Qed.

(** An IPC library and participants without errors. *)
Definition ipc_ok : Ipc :=
  mkIpc (fun _ _ => 0) (fun _ _ => 0) (fun _ _ => 0) (fun _ _ _ _ => (0, TC_SUCCESS, []))
    (fun _ => 0).

Definition two_channels : gmap TcDaemonName string :=
  {[ TC_UPLL := "upll"%string; TC_UPPL := "uppl"%string ]}.

Lemma notifications_in_order_witness :
  let m := msg_new 0 MSG_SETUP two_channels in
  exists r st', execute_notification ipc_ok CTcMsgSetUp (mkMSt m world_new) = (inl r, st') /\
    sends (requests_to m TCLIB_SETUP [VU8 0] [TC_UPLL; TC_UPPL]) (mkMSt m world_new) r st'.
Proof.
  apply (notifications_in_order ipc_ok CTcMsgSetUp _ TCLIB_SETUP [VU8 0] [TC_UPLL; TC_UPPL]).
  reflexivity.
Defined.

(** ** Transaction start and its undoing *)

(** The calls between two states, whatever happened to the members. *)
Definition made (st : MSt) (cs : list Call) (st' : MSt) : Prop :=
  exists t, w_trace (m_world st') = w_trace (m_world st) ++ t /\ calls t = cs.

Lemma made_trans st st1 st2 cs1 cs2 :
  made st cs1 st1 -> made st1 cs2 st2 -> made st (cs1 ++ cs2) st2.
Proof.
  intros (t1&Ht1&Hc1) (t2&Ht2&Hc2). exists (t1 ++ t2).
  rewrite Ht2, Ht1, app_assoc, calls_app, Hc1, Hc2. done.
Qed.

Lemma made_nil st st' : m_world st' = m_world st -> made st [] st'.
Proof. intros E. exists []. rewrite E, app_nil_r. done. Qed.

Lemma after_made st cs st' : after st cs st' -> made st cs st'.
Proof. by intros [_ ?]. Qed.

(** The arguments of a start request, and of the end request that undoes it:
    that one carries the result FAILURE. *)
Definition start_args (m : MsgData) : list IpcValue :=
  [VU8 (u8 (oper_code MSG_COMMIT_TRANS_START)); VU32 (session_id_ m); VU32 (config_id_ m)].
Definition undo_args (m : MsgData) : list IpcValue :=
  [VU8 (u8 (oper_code MSG_COMMIT_TRANS_END)); VU32 (session_id_ m); VU32 (config_id_ m);
   VU8 (u8 (TcTransEndResult_value TRANS_END_FAILURE))].

Section CommitStart.

Context (ipc : Ipc) (m : MsgData).

(** Participants that have a channel. *)
Definition present (l : list TcDaemonName) : list TcDaemonName :=
  List.filter (fun d => negb (is_empty (chan m d))) l.

Definition start_request (d : TcDaemonName) : string * TcLibServiceId * list IpcValue :=
  (chan m d, TCLIB_COMMIT_TRANSACTION, start_args m).

Definition undo_request (d : TcDaemonName) : string * TcLibServiceId * list IpcValue :=
  (chan m d, TCLIB_COMMIT_TRANSACTION, undo_args m).

Definition all_ok (reqs : list (string * TcLibServiceId * list IpcValue)) (cs : list Call)
    : Prop := cs.*1 = reqs /\ Forall (fun c => ~ failed c) cs.

Lemma all_ok_app r1 r2 c1 c2 : all_ok r1 c1 -> all_ok r2 c2 -> all_ok (r1 ++ r2) (c1 ++ c2).
Proof.
  intros [E1 F1] [E2 F2]. split; [by rewrite fmap_app, E1, E2|by apply Forall_app].
Qed.

Lemma all_ok_one rq a : ~ failed (rq, a) -> all_ok [rq] [(rq, a)].
Proof. intros H. split; [done|]. by constructor. Qed.

(** The members a commit message keeps while it runs. *)
Definition same_ids (d : MsgData) : Prop :=
  session_id_ d = session_id_ m /\ config_id_ d = config_id_ m /\
  opertype_ d = opertype_ m /\ channel_names_ d = channel_names_ m.

Lemma chan_same d x : same_ids d -> chan d x = chan m x.
Proof. intros (_&_&_&E). unfold chan. by rewrite E. Qed.

Lemma send_trans_end vec st :
  same_ids (m_data st) ->
  wp (SendTransEndRequest ipc vec)
    (fun r st' => m_data st' = m_data st /\
       exists cs, made st cs st' /\ orderly (map undo_request (rev vec)) cs r)
    (fun _ _ => False) st.
Proof.
  intros Hs. apply wp_method. set (d := m_data st) in *.
  assert (map undo_request (rev vec) =
    requests_to d TCLIB_COMMIT_TRANSACTION (undo_args d) (rev vec)) as ->.
  { apply map_ext. intros x. unfold undo_request, undo_args. rewrite (chan_same d) by done.
    destruct Hs as (->&->&_). done. }
  eapply wp_mono; [apply (loop_method d TCLIB_COMMIT_TRANSACTION (undo_args d));
                   [|reflexivity]| |].
  - clearbody d. clear. unfold undo_args. asks_solve.
  - intros r st' (cs&[E H]&Ho). eauto.
  - intros r st' (cs&[E H]&Ho). eauto.
Qed.

(** What was asked when a start broke off at [d] with [started] in the
    transaction: no request, or one without an answer, and nobody is ended; or
    [d] refused, and the ends sent to those started broke off too. *)
Definition cut_short (started : list TcDaemonName) (d : TcDaemonName) (r : TcOperRet)
    (cs : list Call) : Prop :=
  cs = [] \/ cs = [(start_request d, None)] \/
  exists undone, cs = (start_request d, Some TC_FAILURE) :: undone /\
    orderly (map undo_request (rev started)) undone r.

(** What a start request to one participant leads to. *)
Definition start_outcome (d : TcDaemonName) (st : MSt) (r : TcOperRet) (st' : MSt) : Prop :=
  match r with
  | TCOPER_RET_SUCCESS =>
      m_data st' = m_data st /\ exists a, ~ failed (start_request d, a) /\
        made st [(start_request d, a)] st'
  | TCOPER_RET_ABORT =>
      exists undone, made st ((start_request d, Some TC_FAILURE) :: undone) st' /\
        all_ok (map undo_request (rev (abort_on_fail_ (m_data st)))) undone
  | _ => exists cs, made st cs st' /\ cut_short (abort_on_fail_ (m_data st)) d r cs
  end.

Lemma send_start d st :
  same_ids (m_data st) -> opertype_ m = MSG_COMMIT_TRANS_START ->
  wp (CommitTransaction_SendRequest ipc (chan m d)) (start_outcome d st) (fun _ _ => False) st.
Proof.
  intros Hs Hop. apply wp_method.
  assert (opertype_ (m_data st) = MSG_COMMIT_TRANS_START) as Hop'
    by (destruct Hs as (_&_&->&_); done).
  assert (start_args (m_data st) = start_args m) as Hargs
    by (unfold start_args; destruct Hs as (->&->&_); done).
  assert (forall x, same_ids (set_trans_result (m_data st) x)) as Hs' by done.
  assert (forall w' t, w_trace w' = w_trace (m_world st) ++ t -> calls t = [] ->
    start_outcome d st TCOPER_RET_FATAL (mkMSt (m_data st) w')) as Hnone.
  { intros w' t Ht Hc. exists []. split; [by exists t|by left]. }
  apply wp_bind, wp_create; [|intros w1 t _ Hc Ht _ _; by eapply Hnone]. intros w1 _ Hs1 Ht1.
  apply wp_bind, wp_get. cbn [m_data]. rewrite Hop'.
  do 3 (wp_add; [|eapply Hnone; [traces; reflexivity|done]]).
  apply wp_bind. simpl. apply wp_ret, wp_bind.
  eapply wp_invoke; [cbn [m_world]; eassumption| |]; cycle 1.
  { intros w5 _ _ Ht5. cbn [m_data m_world cs_channel cs_service cs_output] in *.
    exists [(start_request d, None)]. split; [|by right; left]. unfold start_request.
    rewrite <- Hargs. eexists. split; [cbn [m_world]; traces; rewrite <- !app_assoc; reflexivity|].
    reflexivity. }
  intros resp data w5 _ Hs5 Ht5.
  cbn [m_data m_world cs_channel cs_service cs_output] in *.
  assert (made st [(start_request d, Some resp)] (mkMSt (m_data st) w5)) as Hmade.
  { unfold start_request. rewrite <- Hargs. eexists. split.
    - cbn [m_world]. traces. rewrite <- !app_assoc. reflexivity.
    - reflexivity. }
  assert (resp <> TC_FAILURE ->
    wp ((if TCOPER_RET_SUCCESS ==? TCOPER_RET_SUCCESS then close RSess else ret tt);;
        ret TCOPER_RET_SUCCESS) (start_outcome d st) (start_outcome d st)
      (mkMSt (m_data st) w5)) as Hok.
  { intros Hr. apply wp_bind. simpl. eapply wp_close; [cbn [m_world]; eassumption|].
    intros w6 _ _ Ht6. apply wp_ret. split; [done|]. exists (Some resp). split; [done|].
    apply (made_trans _ _ _ [_] [] Hmade). eexists. split; [exact Ht6|done]. }
  apply wp_bind. destruct (resp ==? TC_SUCCESS) eqn:Er;
    [|destruct (resp ==? TC_FAILURE) eqn:Er2]; bool_norm; simpl.
  - apply wp_ret, Hok. subst resp. discriminate.
  - subst resp. apply wp_bind, wp_modify, wp_bind, wp_get. cbn [m_data m_world].
    change (abort_on_fail_ (set_trans_result (m_data st) TRANS_END_FAILURE))
      with (abort_on_fail_ (m_data st)).
    destruct (abort_on_fail_ (m_data st)) as [|x vec] eqn:Ev.
    + apply wp_ret, wp_bind, wp_ret, wp_ret. exists []. rewrite Ev. split; [exact Hmade|].
      split; [done|constructor].
    + apply wp_bind. eapply wp_mono; [apply send_trans_end; apply Hs'| |done].
      intros r st2 [Ed (cs&Hcs&Ho)]. apply wp_ret, wp_bind.
      assert (r <> TCOPER_RET_SUCCESS -> start_outcome d st TCOPER_RET_FATAL st2) as Hcut.
      { intros Hr. eexists. split; [exact (made_trans _ _ _ _ _ Hmade Hcs)|].
        right; right. exists cs. rewrite Ev. split; [done|]. by destruct Ho. }
      destruct r; simpl; apply wp_ret, wp_ret; try by apply Hcut.
      exists cs. rewrite Ev. destruct (ord_success _ _ _ Ho eq_refl) as [E1 E2].
      split; [exact (made_trans _ _ _ _ _ Hmade Hcs)|]. done.
  - apply wp_ret, Hok, Er2.
Qed.

(** The loop over the participants, with [vec] already started. *)
Definition loop_done (l : list TcDaemonName) (st : MSt) (r : TcOperRet) (st' : MSt) : Prop :=
  r = TCOPER_RET_SUCCESS /\
  exists cs, made st cs st' /\ all_ok (map start_request (present l)) cs.

Definition loop_aborted (l : list TcDaemonName) (st : MSt) (r : TcOperRet) (st' : MSt) : Prop :=
  r <> TCOPER_RET_SUCCESS /\
  exists p d q started rest, present l = p ++ d :: q /\
    made st (started ++ rest) st' /\ all_ok (map start_request p) started /\
    if r ==? TCOPER_RET_ABORT
    then exists undone, rest = (start_request d, Some TC_FAILURE) :: undone /\
           all_ok (map undo_request (rev (abort_on_fail_ (m_data st) ++ p))) undone
    else cut_short (abort_on_fail_ (m_data st) ++ p) d r rest.

Lemma present_cons d l :
  present (d :: l) = if is_empty (chan m d) then present l else d :: present l.
Proof. unfold present. simpl. by destruct (is_empty (chan m d)). Qed.

Lemma transaction_loop_spec l st :
  same_ids (m_data st) -> opertype_ m = MSG_COMMIT_TRANS_START ->
  wp (transaction_loop ipc l TCOPER_RET_SUCCESS) (loop_done l st) (loop_aborted l st) st.
Proof.
  intros Hs Hop. revert st Hs. induction l as [|d l IH]; intros st Hs; cbn [transaction_loop].
  - apply wp_ret. split; [done|]. exists []. split; [by apply made_nil|].
    split; [done|constructor].
  - apply wp_bind, wp_get. fold (chan (m_data st) d). rewrite (chan_same (m_data st)) by done.
    unfold loop_done, loop_aborted. rewrite present_cons.
    destruct (is_empty (chan m d)) eqn:Ee; [by apply IH|].
    apply wp_bind. eapply wp_mono; [by apply send_start| |done].
    intros r st1 Ho. case_bool_decide as Er; simpl.
    + subst r. destruct Ho as [Ed (a&Ha&Hm1)]. apply wp_bind, wp_modify.
      eapply wp_mono; [apply IH; simpl; by rewrite Ed| |].
      * intros r st2 [-> (cs&Hm2&Hok)]. split; [done|].
        exists ([(start_request d, a)] ++ cs). split; [by apply (made_trans _ _ _ _ _ Hm1)|].
        by apply (all_ok_app [_]); [apply all_ok_one|].
      * intros r st2 [Hne (p&d2&q&started&rest&Ep&Hm2&Hst&Hun)]. split; [done|].
        exists (d :: p), d2, q, ([(start_request d, a)] ++ started), rest.
        split; [by rewrite Ep|]. split.
        { rewrite <- app_assoc. by apply (made_trans _ _ _ _ _ Hm1). }
        split; [by apply (all_ok_app [_]); [apply all_ok_one|]|].
        simpl in Hun. rewrite Ed, <- app_assoc in Hun. exact Hun.
    + apply wp_leave. split; [done|].
      assert (exists rest, made st rest st1 /\
        if r ==? TCOPER_RET_ABORT
        then exists undone, rest = (start_request d, Some TC_FAILURE) :: undone /\
               all_ok (map undo_request (rev (abort_on_fail_ (m_data st)))) undone
        else cut_short (abort_on_fail_ (m_data st)) d r rest) as (rest&Hm1&Hrest).
      { destruct r; first [done|exact Ho|destruct Ho as (undone&Hm1&Hun); eexists; split; [exact Hm1|]; by exists undone]. }
      exists [], d, (present l), [], rest. rewrite app_nil_r.
      split; [done|]. split; [exact Hm1|]. split; [split; [done|constructor]|exact Hrest].
Qed.

End CommitStart.

(** C6: a transaction start always returns.  It is sent to every participant
    that has a channel, drivers first, in the fixed order.  SUCCESS means that
    each was asked and none failed; ABORT means that one of them failed, no
    later one was asked, and each of those started before it was sent, in
    reverse order, a transaction end with result FAILURE, which none
    refused.  With any other result the start broke off at one participant and
    is not undone, or not wholly: no request could be made to it or it did not
    answer, and then nobody is sent an end; or it failed and the ends, sent
    in reverse order, broke off at the first that was not answered or
    failed. *)
Theorem transaction_start_undone ipc m w :
  opertype_ m = MSG_COMMIT_TRANS_START -> session_id_ m <> 0 -> config_id_ m <> 0 ->
  abort_on_fail_ m = [] ->
  let order := present m commit_start_order in
  exists r st', CommitTransaction_Execute ipc (mkMSt m w) = (inl r, st') /\
  (r = TCOPER_RET_SUCCESS ->
   exists cs, made (mkMSt m w) cs st' /\ all_ok (map (start_request m) order) cs) /\
  (r = TCOPER_RET_ABORT ->
   exists p d q started undone, order = p ++ d :: q /\
     made (mkMSt m w) (started ++ (start_request m d, Some TC_FAILURE) :: undone) st' /\
     all_ok (map (start_request m) p) started /\
     all_ok (map (undo_request m) (rev p)) undone) /\
  (r <> TCOPER_RET_SUCCESS -> r <> TCOPER_RET_ABORT ->
   exists p d q started rest, order = p ++ d :: q /\
     made (mkMSt m w) (started ++ rest) st' /\
     all_ok (map (start_request m) p) started /\ cut_short m p d r rest).
Proof.
  intros Hop Hsid Hcid Hvec order. apply wp_returns.
  apply (wp_mono _ (fun r st' => loop_done m commit_start_order (mkMSt m w) r st' \/
                                 loop_aborted m commit_start_order (mkMSt m w) r st')
                 _ (fun _ _ => False)); [|intros r st'|done].
  - apply wp_method. apply wp_bind, wp_get, wp_bind, wp_get, wp_bind. cbn [m_data].
    rewrite !bool_decide_eq_false_2 by done. apply wp_ret, wp_bind, wp_get. cbn [m_data].
    rewrite Hop. apply wp_bind, wp_ret, wp_bind.
    eapply wp_mono; [by apply transaction_loop_spec| |].
    + intros r1 st1 [-> (cs&Hm&Hok)]. apply wp_bind, wp_modify, wp_ret. left. split; [done|].
      exists cs. done.
    + intros r1 st1 Hab. by right.
  - intros [[-> Hd]|[Hne Ha]].
    + by split_and!.
    + cbn [m_data] in Ha. rewrite Hvec in Ha. destruct Ha as (p&d&q&s&rest&H1&H2&H3&H4).
      split_and!; [done|intros ->; destruct H4 as (u&->&H4); eauto 10|].
      intros _ Hr. rewrite bool_decide_eq_false_2 in H4 by done. eauto 10.
Qed.

(** Participants that answer FAILURE to UPLL's start and SUCCESS otherwise. *)
Definition ipc_upll_fails (svc : TcLibServiceId) (code : Z) : Ipc :=
  mkIpc (fun _ _ => 0) (fun _ _ => 0) (fun _ _ => 0)
    (fun _ ch s args =>
       (0, if (ch ==? "upll"%string) && (s ==? svc) &&
              (nth 0 args (VU8 0) ==? VU8 code) then TC_FAILURE else TC_SUCCESS, []))
    (fun _ => 0).

Definition three_channels : gmap TcDaemonName string :=
  <[TC_DRV_ODL := "odl"%string]> two_channels.

Definition start_message : MsgData :=
  set_config_id (msg_new 5 MSG_COMMIT_TRANS_START three_channels) 1.

Lemma transaction_start_undone_witness :
  let ipc := ipc_upll_fails TCLIB_COMMIT_TRANSACTION (oper_code MSG_COMMIT_TRANS_START) in
  let res := CommitTransaction_Execute ipc (mkMSt start_message world_new) in
  res.1 = inl TCOPER_RET_ABORT /\
  exists p d q started undone,
    present start_message commit_start_order = p ++ d :: q /\
    made (mkMSt start_message world_new)
      (started ++ (start_request start_message d, Some TC_FAILURE) :: undone) res.2 /\
    all_ok (map (start_request start_message) p) started /\
    all_ok (map (undo_request start_message) (rev p)) undone.
Proof.
  intros ipc res. assert (res.1 = inl TCOPER_RET_ABORT) as E by (vm_compute; reflexivity).
  split; [exact E|].
  destruct (transaction_start_undone ipc start_message world_new
    eq_refl ltac:(discriminate) ltac:(discriminate) eq_refl) as (r&st'&Hr&_&Ha&_).
  unfold res in *. rewrite Hr in *. injection E as ->. exact (Ha eq_refl).
Defined.
