(* ===== verification/TcVote.v ===== *)
(** * The vote phase of a commit

    The two-phase protocol from the coordinator's side: which participants
    have voted, which are told to abort when a vote fails, and that the phase
    succeeds only when no participant failed.  The rules here say how each
    step moves the sequence of calls; contents of requests are left out where
    the claim does not need them. *)

From S2P Require Import Prelude TcTypes TcIpc TcMsg TcMsgProps TcMsgCommit TcMsgTheorems.

Local Open Scope Z_scope.

(** A result that is neither success nor a completed abort. *)
Definition hard (r : TcOperRet) : Prop := r <> TCOPER_RET_SUCCESS /\ r <> TCOPER_RET_ABORT.

(** The members the protocol depends on. *)
Definition core_eq (d d' : MsgData) : Prop :=
  session_id_ d' = session_id_ d /\ config_id_ d' = config_id_ d /\
  opertype_ d' = opertype_ d /\ channel_names_ d' = channel_names_ d /\
  abort_on_fail_ d' = abort_on_fail_ d.

Definition slot_is (v : SessRef) (ch : string) (svc : TcLibServiceId) (st : MSt) : Prop :=
  exists c, get_slot v (m_world st) = Some c /\ cs_channel c = ch /\ cs_service c = svc.

(** The calls [cs] were made, nothing of the core changed and the sessions in
    the variables of [keep] are the same. *)
Record moves (keep : SessRef -> Prop) (st : MSt) (cs : list Call) (st' : MSt) : Prop := {
  mv_made : made st cs st';
  mv_core : core_eq (m_data st) (m_data st');
  mv_slots : forall v ch svc, keep v -> slot_is v ch svc st -> slot_is v ch svc st'
}.

Definition all_slots (v : SessRef) : Prop := True.
Definition but (v : SessRef) (r : SessRef) : Prop := r <> v.

Lemma core_eq_refl d : core_eq d d.
Proof. done. Qed.

Lemma core_eq_trans d1 d2 d3 : core_eq d1 d2 -> core_eq d2 d3 -> core_eq d1 d3.
Proof. intros (?&?&?&?&?) (?&?&?&?&?). repeat split; congruence. Qed.

Lemma moves_refl keep st : moves keep st [] st.
Proof. constructor; [by apply made_nil|apply core_eq_refl|done]. Qed.

Lemma moves_trans (keep : SessRef -> Prop) st st1 st2 cs1 cs2 :
  moves keep st cs1 st1 -> moves keep st1 cs2 st2 -> moves keep st (cs1 ++ cs2) st2.
Proof.
  intros [M1 C1 S1] [M2 C2 S2]. constructor;
    [by eapply made_trans|by eapply core_eq_trans|eauto].
Qed.

Lemma moves_weaken (keep keep' : SessRef -> Prop) st cs st' :
  (forall v, keep' v -> keep v) -> moves keep st cs st' -> moves keep' st cs st'.
Proof. intros H [M C S]. constructor; eauto. Qed.

(** Quiet steps make no call. *)
Lemma moves_quiet keep st st1 st2 cs :
  moves keep st cs st1 -> moves keep st1 [] st2 -> moves keep st cs st2.
Proof. intros H1 H2. rewrite <- (app_nil_r cs). by eapply moves_trans. Qed.

Section Loose.

Context (ipc : Ipc).
Implicit Type st : MSt.

Lemma frame_slot v w w' d d' r ch svc :
  frame v w w' -> r <> v -> slot_is r ch svc (mkMSt d w) -> slot_is r ch svc (mkMSt d' w').
Proof.
  intros Hf Hr (c&Hc&?&?). exists c. simpl in *. by rewrite (Hf r Hr).
Qed.

Lemma loose_create v ch svc inf st :
  wp (create ipc v ch svc inf)
    (fun _ st' => moves (but v) st [] st' /\ slot_is v ch svc st') (fun e _ => hard e) st.
Proof.
  apply wp_create; [|done]. intros w' Hf Hs Ht. split.
  - constructor; [|done|].
    + exists [EvOpen ch]. done.
    + intros r c s Hr. destruct st. by eapply frame_slot.
  - eexists. split; [exact Hs|done].
Qed.

Lemma loose_add v x st :
  wp (checked (add_output ipc v x)) (fun _ st' => moves all_slots st [] st')
    (fun e _ => hard e) st.
Proof.
  destruct (get_slot v (m_world st)) as [c|] eqn:Ev.
  - eapply wp_checked_add; [exact Ev| |done]. intros w' Hf Hs Ht. constructor.
    + exists []. rewrite app_nil_r. done.
    + done.
    + intros r ch svc _ Hr. destruct (decide (r = v)) as [->|Hne].
      * destruct Hr as (c'&Hc'&E1&E2). rewrite Ev in Hc'. injection Hc' as <-.
        eexists. split; [exact Hs|done].
      * destruct st. by eapply frame_slot.
  - unfold wp, checked, bind, io, add_output. rewrite Ev. simpl. done.
Qed.

Lemma loose_invoke v ch svc st :
  slot_is v ch svc st ->
  wp (invoke ipc v)
    (fun r st' => exists args, moves all_slots st [(ch, svc, args, Some r)] st')
    (fun e _ => hard e) st.
Proof.
  intros (c&Hc&<-&<-). eapply wp_invoke; [exact Hc| |done].
  intros resp data w' Hf Hs Ht. exists (cs_output c). constructor.
  - eexists. split; [exact Ht|done].
  - done.
  - intros r ch svc _ Hr. destruct (decide (r = v)) as [->|Hne].
    + destruct Hr as (c'&Hc'&<-&<-). rewrite Hc in Hc'. injection Hc' as <-.
      eexists. split; [exact Hs|done].
    + destruct st. by eapply frame_slot.
Qed.

Lemma loose_close v st :
  wp (close v) (fun _ st' => moves (but v) st [] st') (fun _ _ => False) st.
Proof.
  destruct (get_slot v (m_world st)) as [c|] eqn:Ev.
  - eapply wp_close; [exact Ev|]. intros w' Hf Hs Ht. constructor.
    + eexists. split; [exact Ht|done].
    + done.
    + intros r ch svc Hr. destruct st. by eapply frame_slot.
  - unfold wp, close, io, tc_session_close. rewrite Ev. simpl. destruct st.
    apply (moves_refl (but v)).
Qed.

(** A change of members outside the core. *)
Lemma loose_modify f st (Q : unit -> MSt -> Prop) E :
  core_eq (m_data st) (f (m_data st)) ->
  (forall st', moves all_slots st [] st' -> m_data st' = f (m_data st) -> Q tt st') ->
  wp (modify f) Q E st.
Proof.
  intros Hc HQ. apply wp_modify, HQ; [|done]. constructor; [by apply made_nil|done|done].
Qed.

Lemma loose_set_ids v st :
  wp (set_ids ipc v) (fun _ st' => moves all_slots st [] st') (fun e _ => hard e) st.
Proof.
  unfold set_ids. apply wp_bind, wp_get, wp_bind, wp_get. destruct (_ && _); [|done].
  apply wp_bind. eapply wp_mono; [apply loose_add| |done]. intros [] st1 H1.
  eapply wp_mono; [apply loose_add| |done]. intros [] st2 H2. by eapply moves_quiet.
Qed.

Lemma loose_set_strings v l st :
  wp (set_strings ipc v l) (fun _ st' => moves all_slots st [] st') (fun e _ => hard e) st.
Proof.
  revert st. induction l as [|s l IH]; intros st; cbn [set_strings].
  - apply wp_ret, moves_refl.
  - apply wp_bind. eapply wp_mono; [apply loose_add| |done]. intros [] st1 H1.
    eapply wp_mono; [apply IH| |done]. intros [] st2 H2. by eapply moves_quiet.
Qed.

Lemma loose_set_both x st :
  wp (set_both ipc x) (fun _ st' => moves all_slots st [] st') (fun e _ => hard e) st.
Proof.
  apply wp_bind. eapply wp_mono; [apply loose_add| |done]. intros [] st1 H1.
  eapply wp_mono; [apply loose_add| |done]. intros [] st2 H2. by eapply moves_quiet.
Qed.

(** Sequencing quiet steps. *)
Lemma loose_seq {A} (f : M unit) (g : M A) (keep : SessRef -> Prop) st :
  wp f (fun _ st' => moves keep st [] st') (fun e _ => hard e) st ->
  (forall st1, wp g (fun _ st' => moves keep st1 [] st') (fun e _ => hard e) st1) ->
  wp (f;; g) (fun _ st' => moves keep st [] st') (fun e _ => hard e) st.
Proof.
  intros Hf Hg. apply wp_bind. eapply wp_mono; [exact Hf| |done]. intros [] st1 H1.
  eapply wp_mono; [apply Hg| |done]. intros a st2 H2. by eapply moves_quiet.
Qed.

Lemma loose_dummy l st :
  wp (dummy_responses ipc l) (fun _ st' => moves all_slots st [] st') (fun e _ => hard e) st.
Proof.
  revert st. induction l as [|c l IH]; intros st; cbn [dummy_responses].
  - apply wp_ret, moves_refl.
  - repeat (apply loose_seq; [apply loose_set_both|]; clear st; intros st). apply IH.
Qed.

Lemma loose_not_present driver st :
  wp (HandleDriverNotPresent ipc driver)
    (fun r st' => r = TCOPER_RET_SUCCESS -> moves all_slots st [] st') (fun _ _ => False) st.
Proof.
  apply wp_method. apply wp_bind, wp_get. destruct (dmap_find _ _) as [l|]; [|by apply wp_ret].
  apply wp_bind. eapply wp_mono; [apply loose_dummy| |].
  - intros [] st1 H1. by apply wp_ret.
  - intros e st1 [He _] ->. done.
Qed.

Lemma loose_forward dst st :
  wp (forward_checked ipc dst) (fun _ st' => moves all_slots st [] st') (fun e _ => hard e) st.
Proof.
  unfold forward_checked, wp, bind, io, forward_all.
  set (err := ipc_forward ipc (w_trace (m_world st))). case_bool_decide as Ef; simpl.
  2: { rewrite bool_decide_eq_false_2 by done. done. }
  { destruct (get_slot dst (m_world st)) as [d|] eqn:Ed;
      [simpl; destruct (w_sess (m_world st)) as [s|] eqn:Es|]; simpl;
      change (0 !=? 0) with false; cbv iota;
      try (destruct st; apply (moves_refl all_slots)).
    constructor; simpl; [|done|].
    + exists []. simpl. by rewrite trace_set_slot, app_nil_r.
    + intros v ch svc _ (c&Hc&<-&<-). destruct (decide (v = dst)) as [->|Hne].
      * rewrite Ed in Hc. injection Hc as <-. eexists. simpl. by rewrite get_set_slot.
      * exists c. simpl. by rewrite get_set_slot_ne. }
Qed.

Lemma loose_forward_driver driver st :
  wp (forward_driver_response ipc driver) (fun _ st' => moves all_slots st [] st')
    (fun e _ => hard e) st.
Proof.
  unfold forward_driver_response. apply wp_bind, wp_get. cbv zeta.
  destruct (bool_decide _).
  - apply loose_seq; [apply loose_forward|intros; apply loose_forward].
  - apply loose_seq; [apply wp_ret, moves_refl|intros; apply wp_ret, moves_refl].
Qed.

(** Reading controller information makes no call. *)
Lemma loose_read_uint8 v i st :
  wp (read_uint8 v i) (fun _ st' => st' = st) (fun e st' => e <> TCOPER_RET_SUCCESS) st.
Proof.
  unfold read_uint8. apply wp_bind, wp_peek. destruct (get_uint8 _ _ _) as [[] n]; simpl; done.
Qed.

Lemma loose_read_controllers v n i acc st :
  wp (read_controllers v n i acc) (fun _ st' => st' = st)
    (fun e st' => e <> TCOPER_RET_SUCCESS) st.
Proof.
  revert i acc. induction n as [|n IH]; intros i acc; cbn [read_controllers]; [done|].
  apply wp_bind, wp_peek. destruct (get_string _ _ _) as [[] s]; simpl; [apply IH|done|done].
Qed.

Lemma loose_read_drivers v n i st :
  wp (read_drivers v n i) (fun _ st' => moves all_slots st [] st')
    (fun e st' => e <> TCOPER_RET_SUCCESS) st.
Proof.
  revert i st. induction n as [|n IH]; intros i st; cbn [read_drivers].
  { apply wp_ret, moves_refl. }
  apply wp_bind. eapply wp_mono; [apply loose_read_uint8| |done]. intros drv ? ->.
  apply wp_bind, loose_modify; [done|]. intros st1 H1 _.
  apply wp_bind. eapply wp_mono; [apply loose_read_uint8| |done]. intros cnt ? ->.
  apply wp_bind. eapply wp_mono; [apply loose_read_controllers| |done]. intros p ? ->.
  apply wp_bind, loose_modify; [done|]. intros st2 H2 _.
  eapply wp_mono; [apply IH| |done]. intros [] st3 H3.
  eapply moves_quiet; [exact H1|]. by eapply moves_quiet.
Qed.

Lemma loose_controller_info v st :
  wp (GetControllerInfo v)
    (fun r st' => r = TCOPER_RET_SUCCESS -> moves all_slots st [] st') (fun _ _ => False) st.
Proof.
  apply wp_method. apply wp_bind. eapply wp_mono; [apply loose_read_uint8| |].
  - intros n ? ->. apply wp_bind. eapply wp_mono; [apply loose_read_drivers| |].
    + intros [] st1 H1. by apply wp_ret.
    + by intros e st1 He ->.
  - by intros e st1 He ->.
Qed.

(** The sessions that will carry the driver results. *)
Lemma loose_set_forward v st :
  wp (SetSessionToForwardDriverResult ipc v)
    (fun r st' => r = TCOPER_RET_SUCCESS -> moves all_slots st [] st') (fun _ _ => False) st.
Proof.
  apply wp_method. apply wp_bind, wp_get, wp_bind.
  apply (wp_mono _ (fun _ st' => st' = st) _ (fun e _ => e <> TCOPER_RET_SUCCESS)).
  - destruct (opertype_ _); done.
  - intros p ? ->. apply wp_bind. eapply wp_mono; [apply loose_add| |by intros e ? [He _] ->].
    intros [] st1 H1. apply wp_bind. eapply wp_mono; [apply loose_set_ids| |by intros e ? [He _] ->].
    intros [] st2 H2. apply wp_bind. eapply wp_mono; [apply loose_add| |by intros e ? [He _] ->].
    intros [] st3 H3. apply wp_ret. intros _.
    eapply moves_quiet; [exact H1|]. by eapply moves_quiet.
  - by intros e ? He ->.
Qed.

Definition result_sessions (m : MsgData) (st : MSt) : Prop :=
  slot_is RUpll (chan m TC_UPLL) TCLIB_COMMIT_DRV_RESULT st /\
  slot_is RUppl (chan m TC_UPPL) TCLIB_COMMIT_DRV_RESULT st.

Lemma loose_create_sessions st :
  wp (CreateSessionsToForwardDriverResult ipc)
    (fun r st' => r = TCOPER_RET_SUCCESS ->
       made st [] st' /\ core_eq (m_data st) (m_data st') /\ result_sessions (m_data st) st')
    (fun _ _ => False) st.
Proof.
  apply wp_method. apply wp_bind, wp_get, wp_bind.
  eapply wp_mono; [apply loose_create| |by intros e ? [He _] ->]. intros [] st1 [H1 S1].
  apply wp_bind. unfold or_leave. apply wp_bind.
  eapply wp_mono; [apply loose_set_forward| |done]. intros r st2 H2.
  case_bool_decide as Er; simpl; [|by apply wp_leave]. specialize (H2 Er).
  apply wp_ret, wp_bind, wp_get, wp_bind.
  eapply wp_mono; [apply loose_create| |by intros e ? [He _] ->]. intros [] st3 [H3 S3].
  apply wp_bind, wp_bind. eapply wp_mono; [apply loose_set_forward| |done]. intros r' st4 H4.
  case_bool_decide as Er'; simpl; [|by apply wp_leave]. specialize (H4 Er').
  apply wp_ret, wp_ret. intros _.
  assert (core_eq (m_data st) (m_data st2)) as C2
    by (eapply core_eq_trans; [apply H1|apply H2]).
  split; [|split].
  - apply (made_trans _ st1 _ [] []); [apply H1|].
    apply (made_trans _ st2 _ [] []); [apply H2|].
    apply (made_trans _ st3 _ [] []); [apply H3|apply H4].
  - eapply core_eq_trans; [exact C2|]. eapply core_eq_trans; [apply H3|apply H4].
  - split.
    + apply (mv_slots _ _ _ _ H4); [done|]. apply (mv_slots _ _ _ _ H3); [done|].
      by apply (mv_slots _ _ _ _ H2).
    + apply (mv_slots _ _ _ _ H4); [done|]. destruct C2 as (_&_&_&E&_).
      unfold chan. rewrite <- E. exact S3.
Qed.

(** The drivers' part of the phase leaves the map of controllers alone. *)
Lemma keeps_forward_driver driver : keeps driverinfo_map_ (forward_driver_response ipc driver).
Proof. unfold forward_driver_response, forward_checked. auto 12 with keeps. Qed.

Lemma keeps_dummy l : keeps driverinfo_map_ (dummy_responses ipc l).
Proof.
  induction l as [|c l IH]; cbn [dummy_responses]; [done|]. unfold set_both, checked.
  auto 60 with keeps.
Qed.

Lemma keeps_not_present driver : keeps driverinfo_map_ (HandleDriverNotPresent ipc driver).
Proof. unfold HandleDriverNotPresent. auto 12 using keeps_dummy with keeps. Qed.

Lemma keeps_set_strings v l : keeps driverinfo_map_ (set_strings ipc v l).
Proof.
  induction l as [|c l IH]; cbn [set_strings]; [done|]. unfold checked. auto 12 with keeps.
Qed.

Lemma keeps_request_driver oper ch clist :
  keeps driverinfo_map_ (request_driver ipc oper ch clist).
Proof.
  unfold request_driver, set_ids, create, invoke, checked.
  auto 30 using keeps_set_strings with keeps.
Qed.

Lemma keeps_abort vec : keeps driverinfo_map_ (SendAbortRequest ipc vec).
Proof.
  unfold SendAbortRequest, create, checked_close, invoke_close, close, GetChannelName.
  auto 60 with keeps.
Qed.

Lemma keeps_driver_result v : keeps driverinfo_map_ (HandleDriverResultResponse ipc v).
Proof.
  unfold HandleDriverResultResponse, invoke. auto 30 using keeps_abort with keeps.
Qed.

Lemma keeps_create_sessions :
  keeps driverinfo_map_ (CreateSessionsToForwardDriverResult ipc).
Proof.
  unfold CreateSessionsToForwardDriverResult, SetSessionToForwardDriverResult, or_leave,
    set_ids, create, checked, GetChannelName. auto 60 with keeps.
Qed.

End Loose.

(** ** The ledger of votes *)

(** A participant voted when UPLL or UPPL did not refuse the vote request, or
    a driver answered success to its own. *)
Definition voted (c : Call) : bool :=
  let '(_, svc, _, a) := c in
  match svc with
  | TCLIB_COMMIT_TRANSACTION => true
  | TCLIB_COMMIT_DRV_VOTE_GLOBAL => a ==? Some TC_SUCCESS
  | _ => false
  end.

Definition service_of (c : Call) : TcLibServiceId := c.1.1.2.
Definition channel_of_call (c : Call) : string := c.1.1.1.

(** The channels of those who voted, in order. *)
Definition voters (cs : list Call) : list string :=
  map channel_of_call (List.filter voted cs).

Lemma voters_app cs cs' : voters (cs ++ cs') = voters cs ++ voters cs'.
Proof. unfold voters. by rewrite List.filter_app, map_app. Qed.

(** Whom a call was sent to, and for which service. *)
Definition target (c : Call) : string * TcLibServiceId := c.1.1.

(** A call that did not fail and is not an abort request. *)
Definition vote_ok (c : Call) : Prop :=
  ~ failed c /\ service_of c <> TCLIB_COMMIT_GLOBAL_ABORT.

Section Vote.

Context (ipc : Ipc) (m : MsgData) (st0 : MSt).
Hypothesis Hop : opertype_ m = MSG_COMMIT_VOTE \/ opertype_ m = MSG_COMMIT_GLOBAL.

Definition abort_args : list IpcValue :=
  [VU8 (u8 (oper_code MSG_COMMIT_ABORT)); VU32 (session_id_ m); VU32 (config_id_ m);
   VU8 (u8 COMMIT_VOTE_REQUEST)].

Definition abort_request (ch : string) : string * TcLibServiceId * list IpcValue :=
  (ch, TCLIB_COMMIT_GLOBAL_ABORT, abort_args).

(** So far the calls [tr] were made, nobody failed, and those to be told to
    abort are the voters; the participants in [extra] have voted and are not
    yet recorded. *)
Definition ledger (tr : list (string * TcLibServiceId)) (extra : list string) (st : MSt)
    : Prop :=
  exists good, made st0 good st /\ (Forall vote_ok good /\ map target good = tr) /\
    voters good = map (chan m) (abort_on_fail_ (m_data st)) ++ extra /\
    same_ids m (m_data st).

(** A participant failed, and exactly those who voted before it were told to
    abort, in the order of their votes, and none of them refused. *)
Definition aborted (st : MSt) : Prop :=
  opertype_ m = MSG_COMMIT_VOTE /\
  exists good bad aborts, made st0 (good ++ bad :: aborts) st /\ Forall vote_ok good /\
    bad.2 = Some TC_FAILURE /\ all_ok (map abort_request (voters good)) aborts.

(** What a method of the phase may end in. *)
Definition outcome (tr : list (string * TcLibServiceId)) (extra : list string) (r : TcOperRet) (st : MSt) : Prop :=
  match r with
  | TCOPER_RET_SUCCESS => ledger tr extra st
  | TCOPER_RET_ABORT => aborted st
  | _ => True
  end.

Lemma hard_outcome tr extra r st : hard r -> outcome tr extra r st.
Proof. intros [H1 H2]. by destruct r. Qed.

Lemma same_ids_core d d' : same_ids m d -> core_eq d d' -> same_ids m d'.
Proof. intros (?&?&?&?) (?&?&?&?&?). repeat split; congruence. Qed.

(** A step that makes the calls [cs], none of which fails. *)
Lemma ledger_step keep tr extra st cs st' :
  ledger tr extra st -> moves keep st cs st' -> Forall vote_ok cs ->
  ledger (tr ++ map target cs) (extra ++ voters cs) st'.
Proof.
  intros (good&Hm&[Hok <-]&Hv&Hs) [M C S] Hcs. exists (good ++ cs).
  split; [by eapply made_trans|]. split; [by rewrite Forall_app, map_app|].
  split; [|by eapply same_ids_core]. rewrite voters_app, Hv, <- app_assoc.
  destruct C as (_&_&_&_&->). done.
Qed.

Lemma ledger_quiet keep tr extra st st' :
  ledger tr extra st -> moves keep st [] st' -> ledger tr extra st'.
Proof.
  intros H1 H2. rewrite <- (app_nil_r tr), <- (app_nil_r extra).
  by eapply (ledger_step _ _ _ _ []).
Qed.

(** The participant [d] is recorded. *)
Lemma ledger_record tr d st st' :
  ledger tr [chan m d] st -> made st [] st' -> same_ids m (m_data st') ->
  abort_on_fail_ (m_data st') = abort_on_fail_ (m_data st) ++ [d] ->
  ledger tr [] st'.
Proof.
  intros (good&Hm&Hok&Hv&Hs) Hm' Hs' Ha. exists good.
  split; [rewrite <- (app_nil_r good); by eapply made_trans|]. split; [done|].
  split; [|done]. by rewrite Ha, map_app, app_nil_r.
Qed.

Lemma ledger_op tr extra st :
  ledger tr extra st -> opertype_ (m_data st) = opertype_ m.
Proof. by intros (?&_&_&_&_&_&->&_). Qed.

Lemma ledger_chan tr extra st d : ledger tr extra st -> chan (m_data st) d = chan m d.
Proof. intros (?&_&_&_&?). by apply (chan_same m (m_data st)). Qed.

Lemma send_abort vec st :
  opertype_ m = MSG_COMMIT_VOTE -> same_ids m (m_data st) ->
  wp (SendAbortRequest ipc vec)
    (fun r st' => m_data st' = m_data st /\
       exists cs, made st cs st' /\
         orderly (map abort_request (map (chan m) vec)) cs r)
    (fun _ _ => False) st.
Proof.
  intros Hvote Hs. apply wp_method. set (d := m_data st) in *.
  assert (map abort_request (map (chan m) vec) =
    requests_to d TCLIB_COMMIT_GLOBAL_ABORT
      [VU8 (u8 (oper_code MSG_COMMIT_ABORT)); VU32 (session_id_ d); VU32 (config_id_ d);
       VU8 (u8 COMMIT_VOTE_REQUEST)] vec) as ->.
  { unfold requests_to. rewrite map_map. apply map_ext. intros x.
    unfold abort_request, abort_args. rewrite (chan_same m d) by done.
    destruct Hs as (->&->&_). done. }
  apply wp_bind, wp_get, wp_bind. fold d. destruct Hs as (_&_&->&_). rewrite Hvote. simpl.
  apply wp_ret.
  eapply wp_mono; [apply (loop_method d TCLIB_COMMIT_GLOBAL_ABORT
    [VU8 (u8 (oper_code MSG_COMMIT_ABORT)); VU32 (session_id_ d); VU32 (config_id_ d);
       VU8 (u8 COMMIT_VOTE_REQUEST)]); [|reflexivity]| |].
  - clearbody d. clear. asks_solve.
  - intros r st' (cs&[E H]&Ho). eauto.
  - intros r st' (cs&[E H]&Ho). eauto.
Qed.

(** A failed call followed by the abort requests. *)
Lemma abort_after keep tr st bad st1 :
  opertype_ m = MSG_COMMIT_VOTE -> ledger tr [] st -> moves keep st [bad] st1 -> bad.2 = Some TC_FAILURE ->
  wp (SendAbortRequest ipc (abort_on_fail_ (m_data st)))
    (fun r st' => r = TCOPER_RET_SUCCESS -> aborted st') (fun _ _ => False) st1.
Proof.
  intros Hvote (good&Hm&[Hok _]&Hv&Hs) [M C S] Hbad.
  eapply wp_mono; [apply send_abort; [done|by eapply same_ids_core]| |done].
  intros r st' [_ (cs&Hcs&Ho)] ->. destruct (ord_success _ _ _ Ho eq_refl) as [E1 E2].
  rewrite app_nil_r in Hv. split; [done|].
  exists good, bad, cs. split.
  - eapply made_trans; [exact Hm|]. change (bad :: cs) with ([bad] ++ cs). by eapply made_trans.
  - split; [done|]. split; [done|]. rewrite Hv. done.
Qed.

(** The driver result of one of the two managers. *)
Lemma driver_result tr v ch st :
  ledger tr [] st -> slot_is v ch TCLIB_COMMIT_DRV_RESULT st ->
  wp (HandleDriverResultResponse ipc v)
    (fun r st' => outcome (tr ++ [(ch, TCLIB_COMMIT_DRV_RESULT)]) [] r st' /\
       (r = TCOPER_RET_SUCCESS ->
        forall v' c s, slot_is v' c s st -> slot_is v' c s st')) (fun _ _ => False) st.
Proof.
  intros Hl Hv. apply wp_method. apply wp_bind, wp_get, wp_bind.
  rewrite (ledger_op _ _ _ Hl).
  eapply wp_mono; [by apply (loose_invoke ipc v ch)| |].
  2: { intros e st1 He. split; [by apply hard_outcome|]. destruct He. done. }
  intros resp st1 [args H1]. destruct (resp ==? TC_FAILURE) eqn:Er; simpl; bool_norm.
  - destruct Hop as [Hvote|Hglobal]; [|by rewrite Hglobal]. rewrite Hvote. simpl.
    subst resp. apply wp_bind, loose_modify; [done|]. intros st2 H2 Ed.
    apply wp_bind, wp_get.
    assert (abort_on_fail_ (m_data st2) = abort_on_fail_ (m_data st)) as ->.
    { destruct (mv_core _ _ _ _ H2) as (_&_&_&_&->), (mv_core _ _ _ _ H1) as (_&_&_&_&->).
      done. }
    apply wp_bind.
    eapply wp_mono; [apply (abort_after all_slots tr st (ch, TCLIB_COMMIT_DRV_RESULT, args, Some TC_FAILURE));
      [done|done|by eapply moves_quiet|done]| |done].
    intros r st3 Hr. apply wp_ret. case_bool_decide; (split; [|done]); simpl; auto.
  - apply wp_ret. split; [|intros _ v' c s; by apply (mv_slots _ _ _ _ H1)].
    apply (ledger_step all_slots tr [] st [(ch, TCLIB_COMMIT_DRV_RESULT, args, Some resp)]);
      try done. by repeat constructor.
Qed.

Lemma vote_accepted tr extra st :
  ledger tr extra st ->
  wp (close RSess;; ret TCOPER_RET_SUCCESS) (outcome tr extra) (outcome tr extra) st.
Proof.
  intros Hl. apply wp_bind. eapply wp_mono; [apply loose_close| |done].
  intros [] st7 H7. apply wp_ret. by eapply ledger_quiet.
Qed.

(** The vote was refused: those recorded are told to abort. *)
Lemma vote_refused tr tr' extra bad st st1 :
  opertype_ m = MSG_COMMIT_VOTE -> ledger tr [] st -> moves all_slots st [bad] st1 -> bad.2 = Some TC_FAILURE ->
  wp (modify (fun m => set_trans_result m TRANS_END_FAILURE);;
      vec ← get abort_on_fail_;
      match vec with
      | [] => ret TCOPER_RET_ABORT
      | _ =>
          r ← SendAbortRequest ipc vec;
          modify (fun m => set_abort_on_fail m []);;
          ret (if r ==? TCOPER_RET_SUCCESS then TCOPER_RET_ABORT else TCOPER_RET_FATAL)
      end)
    (fun r st' => r <> TCOPER_RET_SUCCESS /\ outcome tr' extra r st') (fun _ _ => False) st1.
Proof.
  intros Hvote Hl H5 Hbad. apply wp_bind, loose_modify; [done|]. intros st6 H6 Ed.
  apply wp_bind, wp_get.
  assert (abort_on_fail_ (m_data st6) = abort_on_fail_ (m_data st)) as Ea.
  { destruct (mv_core _ _ _ _ H6) as (_&_&_&_&->), (mv_core _ _ _ _ H5) as (_&_&_&_&->).
    done. }
  pose proof (moves_quiet _ _ _ _ _ H5 H6) as H56.
  destruct (abort_on_fail_ (m_data st6)) as [|x vec] eqn:Ev.
  - apply wp_ret. split; [done|]. destruct Hl as (good&Hm&[Hg _]&Hv&Hs).
    split; [done|]. exists good, bad, []. split; [eapply made_trans; [exact Hm|apply H56]|].
    split; [done|]. split; [done|]. rewrite Hv, <- Ea. split; [done|constructor].
  - apply wp_bind. rewrite Ea.
    eapply wp_mono; [by apply (abort_after all_slots tr st bad)| |done].
    intros r st7 Hr. apply wp_bind, wp_modify, wp_ret.
    destruct r; (split; [done|]); try exact I. exact (Hr eq_refl).
Qed.

(** The vote request to UPLL or UPPL. *)
Lemma send_vote tr d st :
  ledger tr [] st ->
  wp (TwoPhaseCommit_SendRequest ipc (chan m d))
    (outcome (tr ++ [(chan m d, TCLIB_COMMIT_TRANSACTION)]) [chan m d])
    (fun _ _ => False) st.
Proof.
  intros Hl. apply wp_method. apply wp_bind.
  eapply wp_mono; [apply loose_create| |by intros; apply hard_outcome]. intros [] st1 [H1 S1].
  apply (ledger_quiet _ _ _ _ _ Hl) in H1. clear Hl st. rename H1 into Hl.
  apply wp_bind, wp_get. rewrite (ledger_op _ _ _ Hl). apply wp_bind.
  eapply wp_mono; [apply loose_add| |by intros; apply hard_outcome]. intros [] st2 H2.
  apply wp_bind, wp_get, wp_bind.
  eapply wp_mono; [apply loose_add| |by intros; apply hard_outcome]. intros [] st3 H3.
  apply wp_bind, wp_get, wp_bind.
  eapply wp_mono; [apply loose_add| |by intros; apply hard_outcome]. intros [] st4 H4.
  pose proof (moves_quiet _ _ _ _ _ H2 (moves_quiet _ _ _ _ _ H3 H4)) as H.
  apply (mv_slots _ _ _ _ H) in S1; [|done].
  apply (ledger_quiet _ _ _ _ _ Hl) in H as Hl4.
  apply wp_bind. eapply wp_mono;
    [by apply (loose_invoke ipc RSess (chan m d) TCLIB_COMMIT_TRANSACTION)
    | |by intros; apply hard_outcome].
  intros resp st5 [args H5]. apply wp_bind, wp_peek, wp_bind.
  assert (resp <> TC_FAILURE ->
    ledger (tr ++ [(chan m d, TCLIB_COMMIT_TRANSACTION)]) [chan m d] st5) as Hok.
  { intros Hr. apply (ledger_step all_slots tr [] st4
      [(chan m d, TCLIB_COMMIT_TRANSACTION, args, Some resp)]); try done.
    by repeat constructor. }
  destruct (resp ==? TC_SUCCESS) eqn:E1; [|destruct (resp ==? TC_FAILURE) eqn:E2];
    bool_norm; simpl.
  - assert (resp <> TC_FAILURE) as Hne by (subst; discriminate). apply Hok in Hne as H6.
    destruct (bool_decide (0 < getResponseCount RSess (m_world st5))); simpl.
    + apply wp_bind. unfold or_leave. apply wp_bind.
      eapply wp_mono; [apply loose_controller_info| |done]. intros r st6 Hr.
      destruct r; try exact I. apply wp_ret, wp_ret, vote_accepted.
      eapply ledger_quiet; [exact H6|exact (Hr eq_refl)].
    + subst resp. by apply wp_ret, vote_accepted.
  - subst resp. destruct Hop as [Hvote|Hglobal]; [|by rewrite Hglobal]. rewrite Hvote. simpl.
    eapply wp_mono; [by eapply (vote_refused tr)| |done].
    intros r st6 [Hne Ho]. apply wp_bind. rewrite bool_decide_eq_false_2 by done.
    by apply wp_ret, wp_ret.
  - apply wp_ret, vote_accepted, Hok, E2.
Qed.

Lemma aborted_world st st' : m_world st' = m_world st -> aborted st -> aborted st'.
Proof.
  intros E (Hvote&good&bad&aborts&(t&Ht&Hc)&H). split; [done|]. exists good, bad, aborts.
  split; [|exact H]. exists t. by rewrite E.
Qed.

Lemma same_ids_save d x : same_ids m x -> same_ids m (save_driver_set d x).
Proof. unfold save_driver_set. by case_bool_decide. Qed.

Lemma abort_save d x : abort_on_fail_ (save_driver_set d x) = abort_on_fail_ x.
Proof. unfold save_driver_set. by case_bool_decide. Qed.

(** UPLL and UPPL. *)
Lemma vote_loop_spec tr l st :
  ledger tr [] st ->
  wp (vote_loop ipc l TCOPER_RET_SUCCESS)
    (fun r st' => ledger (tr ++ map (fun d => (chan m d, TCLIB_COMMIT_TRANSACTION)) l) [] st')
    (fun e st' => e <> TCOPER_RET_SUCCESS /\ outcome [] [] e st') st.
Proof.
  revert tr st. induction l as [|d l IH]; intros tr st Hl; cbn [vote_loop].
  { apply wp_ret. by rewrite app_nil_r. }
  apply wp_bind. unfold channel_of. apply wp_bind, wp_get.
  fold (chan (m_data st) d). rewrite (ledger_chan _ _ _ _ Hl).
  destruct (is_empty _); [by apply wp_leave|]. apply wp_ret, wp_bind.
  eapply wp_mono; [by apply send_vote| |done]. intros r st1 Ho. case_bool_decide as Er; simpl.
  - subst r. apply wp_bind, wp_modify. rewrite cons_middle, app_assoc. apply IH.
    destruct Ho as (good&Hg).
    eapply (ledger_record _ d st1); [by exists good|by apply made_nil|..]; simpl.
    + apply same_ids_save. by destruct Hg as (_&_&_&?).
    + by rewrite abort_save.
  - apply wp_bind, wp_modify, wp_leave. split; [done|].
    destruct r; try exact I; [done|]. by eapply aborted_world; [|exact Ho].
Qed.

(** One driver. *)
Lemma loose_request_driver oper ch clist st :
  wp (request_driver ipc oper ch clist)
    (fun resp st' => exists args,
       moves (but RSess) st [(ch, TCLIB_COMMIT_DRV_VOTE_GLOBAL, args, Some resp)] st')
    (fun e _ => hard e) st.
Proof.
  unfold request_driver. apply wp_bind. eapply wp_mono; [apply loose_create| |done].
  intros [] st1 [H1 S1]. apply wp_bind. eapply wp_mono; [apply loose_add| |done].
  intros [] st2 H2. apply wp_bind. eapply wp_mono; [apply loose_set_ids| |done].
  intros [] st3 H3. apply wp_bind. eapply wp_mono; [apply loose_add| |done].
  intros [] st4 H4. apply wp_bind. eapply wp_mono; [apply loose_set_strings| |done].
  intros [] st5 H5.
  pose proof (moves_quiet _ _ _ _ _ H2 (moves_quiet _ _ _ _ _ H3
    (moves_quiet _ _ _ _ _ H4 H5))) as H.
  apply (mv_slots _ _ _ _ H) in S1; [|done].
  eapply wp_mono; [by apply (loose_invoke ipc RSess ch TCLIB_COMMIT_DRV_VOTE_GLOBAL)| |done].
  intros resp st6 [args H6]. exists args.
  apply (moves_trans _ _ _ _ [] [_] H1).
  apply (moves_weaken all_slots); [done|]. exact (moves_trans _ _ _ _ [] [_] H H6).
Qed.

Lemma results_kept st cs st' :
  moves (but RSess) st cs st' -> result_sessions m st -> result_sessions m st'.
Proof. intros [_ _ S] [H1 H2]. split; by apply S. Qed.

(** The drivers that are asked: those that have a channel, in the order of
    the map of controllers. *)
Definition driver_votes (info : list (Z * list string)) : list (string * TcLibServiceId) :=
  map (fun ch => (ch, TCLIB_COMMIT_DRV_VOTE_GLOBAL))
    (List.filter (fun ch => negb (is_empty ch))
       (map (fun p => chan m (MapTcDriverId p.1)) info)).

Lemma driver_answered_spec tr driver daemon args resp st st1 :
  ledger tr [] st -> result_sessions m st1 ->
  moves (but RSess) st
    [(chan m daemon, TCLIB_COMMIT_DRV_VOTE_GLOBAL, args, Some resp)] st1 ->
  wp (driver_answered ipc (opertype_ m) driver daemon resp TCOPER_RET_SUCCESS)
    (fun r st' =>
       outcome (tr ++ [(chan m daemon, TCLIB_COMMIT_DRV_VOTE_GLOBAL)]) [] r st' /\
       (r = TCOPER_RET_SUCCESS -> result_sessions m st' /\
          driverinfo_map_ (m_data st') = driverinfo_map_ (m_data st1)))
    (fun e _ => hard e) st1.
Proof.
  intros Hl Hrs H1. unfold driver_answered.
  destruct (resp ==? TC_SUCCESS) eqn:E1; [|destruct (resp ==? TC_FAILURE) eqn:E2];
    bool_norm; simpl.
  - subst resp. pose proof (ledger_step _ _ _ _ _ _ Hl H1) as Hl1. simpl in Hl1.
    assert (Forall vote_ok [(chan m daemon, TCLIB_COMMIT_DRV_VOTE_GLOBAL, args, Some TC_SUCCESS)])
      as Hok by (by repeat constructor). specialize (Hl1 Hok).
    apply wp_bind. eapply wp_mono;
      [apply (wp_keeps driverinfo_map_); [apply keeps_forward_driver|apply loose_forward_driver]
      | |by intros e ? [He _]]. intros [] st2 [H2 Hi].
    apply wp_bind, wp_modify, wp_ret. apply (ledger_quiet _ _ _ _ _ Hl1) in H2 as Hl2.
    split; [|intros _; split; [|done]; by apply (results_kept st1 [] st2);
      [apply (moves_weaken all_slots)|]].
    destruct Hl2 as (good&Hg).
    eapply (ledger_record _ daemon st2); [by exists good|by apply made_nil|..]; [|done].
    by destruct Hg as (_&_&_&?).
  - subst resp. destruct Hop as [Hvote|Hglobal]; [|by rewrite Hglobal]. rewrite Hvote. simpl.
    apply wp_bind, loose_modify; [done|]. intros st2 H2 _. apply wp_bind, wp_get.
    assert (abort_on_fail_ (m_data st2) = abort_on_fail_ (m_data st)) as ->.
    { destruct (mv_core _ _ _ _ H2) as (_&_&_&_&->), (mv_core _ _ _ _ H1) as (_&_&_&_&->).
      done. }
    apply wp_bind. eapply wp_mono; [apply (abort_after (but RSess) tr st
      (chan m daemon, TCLIB_COMMIT_DRV_VOTE_GLOBAL, args, Some TC_FAILURE)); [done|done| |done]| |done].
    { eapply moves_quiet; [exact H1|]. by apply (moves_weaken all_slots). }
    intros r st3 Hr. case_bool_decide as Er; apply wp_bind, wp_modify, wp_ret; (split; [|done]).
    + by eapply aborted_world; [|exact (Hr Er)].
    + exact I.
  - apply wp_ret. split; [|by intros _]. apply (ledger_step _ _ _ _ _ _ Hl) in H1.
    + unfold voters in H1. simpl in H1. rewrite bool_decide_eq_false_2 in H1 by congruence.
      exact H1.
    + by repeat constructor.
Qed.

(** All drivers. *)
Lemma driver_loop_spec drv_oper l tr st :
  ledger tr [] st -> result_sessions m st ->
  wp (driver_loop ipc drv_oper l TCOPER_RET_SUCCESS)
    (fun r st' => ledger (tr ++ driver_votes l) [] st' /\ result_sessions m st' /\
       driverinfo_map_ (m_data st') = driverinfo_map_ (m_data st))
    (fun e st' => e <> TCOPER_RET_SUCCESS /\ outcome [] [] e st') st.
Proof.
  revert tr st. induction l as [|[driver clist] l IH]; intros tr st Hl Hrs;
    cbn [driver_loop].
  { apply wp_ret. unfold driver_votes. simpl. by rewrite app_nil_r. }
  cbv zeta. unfold driver_votes. cbn [map fst List.filter]. set (daemon := MapTcDriverId driver). apply wp_bind.
  destruct (daemon ==? TC_NONE); [by apply wp_leave|]. apply wp_ret, wp_bind, wp_get.
  fold (chan (m_data st) daemon). rewrite (ledger_chan _ _ _ _ Hl).
  destruct (is_empty _); simpl.
  - apply wp_bind. unfold or_leave. apply wp_bind.
    eapply wp_mono; [apply (wp_keeps driverinfo_map_);
      [apply keeps_not_present|apply loose_not_present]| |by intros e ? [? _]].
    intros r st1 [H1 Hi].
    destruct r; try by apply wp_leave. specialize (H1 eq_refl). apply wp_ret.
    rewrite <- Hi. apply IH.
    + by eapply ledger_quiet.
    + apply (results_kept st []); [by apply (moves_weaken all_slots)|done].
  - apply wp_bind, wp_get.
    rewrite (ledger_op _ _ _ Hl).
    apply wp_bind. eapply wp_mono; [apply (wp_keeps driverinfo_map_);
      [apply keeps_request_driver|apply loose_request_driver]| |].
    2: { intros e st1 [He _]. split; [apply He|by apply hard_outcome]. }
    intros resp st1 [[args H1] Hi1]. apply wp_bind.
    eapply wp_mono; [eapply driver_answered_spec; [exact Hl|by eapply results_kept|exact H1]| |].
    2: { intros e st2 He. split; [apply He|by apply hard_outcome]. }
    intros r st2 [Ho Hr2]. case_bool_decide as Er.
    2: { apply wp_leave. split; [done|]. by destruct r. }
    subst r. destruct (Hr2 eq_refl) as [Hr3 Hi2]. apply wp_bind.
    eapply wp_mono; [apply (wp_keeps driverinfo_map_); [apply keeps_io|apply loose_close]
      | |by intros e ? [? _]].
    intros [] st3 [H3 Hi3]. rewrite cons_middle, app_assoc, <- Hi1, <- Hi2, <- Hi3. apply IH.
    + by eapply ledger_quiet.
    + by eapply results_kept.
Qed.

(** The result of a method that must succeed. *)
Lemma or_leave_spec (f : M TcOperRet) r (P : MSt -> Prop) (E : TcOperRet -> MSt -> Prop) st :
  wp f (fun x st' => x = TCOPER_RET_SUCCESS -> P st') (fun _ _ => False) st ->
  (forall st', E r st') ->
  wp (or_leave f r) (fun _ => P) E st.
Proof.
  intros Hf HE. unfold or_leave. apply wp_bind. eapply wp_mono; [exact Hf| |done].
  intros x st1 H. case_bool_decide; simpl; [by apply wp_ret, H|apply wp_leave, HE].
Qed.

Lemma or_leave_same_spec (f : M TcOperRet) (P : MSt -> Prop) (E : TcOperRet -> MSt -> Prop) st :
  wp f (fun x st' => (x = TCOPER_RET_SUCCESS -> P st') /\ (x <> TCOPER_RET_SUCCESS -> E x st'))
    (fun _ _ => False) st ->
  wp (or_leave_same f) (fun _ => P) E st.
Proof.
  intros Hf. unfold or_leave_same. apply wp_bind. eapply wp_mono; [exact Hf| |done].
  intros x st1 [H1 H2]. case_bool_decide; simpl; [by apply wp_ret, H1|by apply wp_leave, H2].
Qed.

Lemma create_sessions_ledger tr st :
  ledger tr [] st ->
  wp (CreateSessionsToForwardDriverResult ipc)
    (fun r st' => r = TCOPER_RET_SUCCESS -> ledger tr [] st' /\ result_sessions m st')
    (fun _ _ => False) st.
Proof.
  intros Hl. eapply wp_mono; [apply loose_create_sessions| |done].
  intros r st1 H Hr. destruct (H Hr) as (Hm&Hc&Hrs). split.
  - apply (ledger_quiet (fun _ => False) tr [] st); [done|]. by constructor.
  - destruct Hl as (?&_&_&_&Hs). unfold result_sessions in *.
    rewrite !(chan_same m (m_data st)) in Hrs by done. done.
Qed.

Lemma driver_result_outcome tr v ch st :
  ledger tr [] st -> slot_is v ch TCLIB_COMMIT_DRV_RESULT st ->
  wp (HandleDriverResultResponse ipc v)
    (fun x st' =>
       (x = TCOPER_RET_SUCCESS ->
          ledger (tr ++ [(ch, TCLIB_COMMIT_DRV_RESULT)]) [] st' /\
          (forall v' c s, slot_is v' c s st -> slot_is v' c s st') /\
          driverinfo_map_ (m_data st') = driverinfo_map_ (m_data st)) /\
       (x <> TCOPER_RET_SUCCESS -> x <> TCOPER_RET_SUCCESS /\ outcome [] [] x st'))
    (fun _ _ => False) st.
Proof.
  intros Hl Hv. eapply wp_mono; [apply (wp_keeps driverinfo_map_);
    [apply keeps_driver_result|by apply (driver_result tr v ch)]| |by intros e ? [? _]].
  intros x st1 [[Ho Hk] Hi]. split; [intros ->; by split; [|split; [apply Hk|]]|].
  intros Hx. split; [done|]. by destruct x.
Qed.

(** The calls of the phase when nobody fails: UPLL and UPPL are asked, then
    the drivers that have controllers, and both are told the results. *)
Definition result_calls : list (string * TcLibServiceId) :=
  [(chan m TC_UPLL, TCLIB_COMMIT_DRV_RESULT); (chan m TC_UPPL, TCLIB_COMMIT_DRV_RESULT)].
Definition vote_calls : list (string * TcLibServiceId) :=
  map (fun d => (chan m d, TCLIB_COMMIT_TRANSACTION)) [TC_UPLL; TC_UPPL].
Definition phase_calls (info : list (Z * list string)) : list (string * TcLibServiceId) :=
  vote_calls ++ driver_votes info ++ result_calls.

(** The phase ran to its end: all were asked, nobody failed. *)
Definition complete (st : MSt) : Prop :=
  exists good, made st0 good st /\ Forall vote_ok good /\
    map target good = phase_calls (driverinfo_map_ (m_data st)).

(** The driver results are sent to UPLL and then to UPPL. *)
Lemma send_to_drivers st :
  ledger vote_calls [] st ->
  wp (SendRequestToDriver ipc)
    (fun r st' => (r = TCOPER_RET_SUCCESS -> complete st') /\
                  (r = TCOPER_RET_ABORT -> aborted st')) (fun _ _ => False) st.
Proof.
  intros Hl. apply wp_method. apply wp_bind, wp_get, wp_bind.
  set (E := fun r st' => (r = TCOPER_RET_SUCCESS -> complete st') /\
                         (r = TCOPER_RET_ABORT -> aborted st')).
  assert (forall e st1, e <> TCOPER_RET_SUCCESS /\ outcome [] [] e st1 -> E e st1) as HE.
  { intros e st1 [He Ho]. split; [done|]. by intros ->. }
  eapply wp_mono; [apply (or_leave_spec _ _
    (fun st' => ledger vote_calls [] st' /\ result_sessions m st') E);
    [by apply create_sessions_ledger|by intros]| |done].
  intros [] st1 [Hl1 Hr1]. apply wp_bind, wp_get, wp_bind.
  eapply wp_mono; [by apply driver_loop_spec| |exact HE].
  intros _ st2 (Hl2&[Hu Hp]&Hi2). apply wp_bind.
  eapply wp_mono; [by eapply or_leave_same_spec, (driver_result_outcome _ RUpll)| |exact HE].
  intros [] st3 (Hl3&Hk&Hi3). apply wp_bind.
  eapply wp_mono; [eapply or_leave_same_spec, (driver_result_outcome _ RUppl);
    [exact Hl3|by apply Hk]| |exact HE].
  intros [] st4 (Hl4&_&Hi4). apply wp_ret. split; [|done]. intros _.
  destruct Hl4 as (good&Hm&[Hok Ht]&_). exists good. split; [done|]. split; [done|].
  rewrite Ht, Hi4, Hi3, Hi2. unfold phase_calls, result_calls. by rewrite <- !app_assoc.
Qed.

(** The same where every other result is turned into a failure. *)
Lemma driver_result_or_leave tr v ch st :
  ledger tr [] st -> slot_is v ch TCLIB_COMMIT_DRV_RESULT st ->
  wp (or_leave (HandleDriverResultResponse ipc v) TCOPER_RET_FAILURE)
    (fun _ st' =>
       ledger (tr ++ [(ch, TCLIB_COMMIT_DRV_RESULT)]) [] st' /\
       (forall v' c s, slot_is v' c s st -> slot_is v' c s st') /\
       driverinfo_map_ (m_data st') = driverinfo_map_ (m_data st))
    (fun e _ => e = TCOPER_RET_FAILURE) st.
Proof.
  intros Hl Hv. apply or_leave_spec; [|done].
  eapply wp_mono; [by apply (driver_result_outcome tr v ch)| |done]. by intros x st1 [H _].
Qed.

(** Nobody has to be asked but UPLL and UPPL. *)
Lemma send_dummy_results st :
  ledger vote_calls [] st -> driverinfo_map_ (m_data st) = [] ->
  wp (or_leave (CreateSessionsToForwardDriverResult ipc) TCOPER_RET_FAILURE;;
      or_leave (HandleDriverResultResponse ipc RUpll) TCOPER_RET_FAILURE;;
      or_leave (HandleDriverResultResponse ipc RUppl) TCOPER_RET_FAILURE;;
      modify (fun m => set_abort_on_fail m []);;
      ret TCOPER_RET_SUCCESS)
    (fun r st' => r = TCOPER_RET_SUCCESS /\ complete st')
    (fun e _ => e = TCOPER_RET_FAILURE) st.
Proof.
  intros Hl Hinfo. apply wp_bind.
  eapply wp_mono; [apply (or_leave_spec _ _ (fun st' =>
      (ledger vote_calls [] st' /\ result_sessions m st') /\ driverinfo_map_ (m_data st') = [])
    (fun e _ => e = TCOPER_RET_FAILURE))| |done]; [|done|].
  { eapply wp_mono; [apply (wp_keeps driverinfo_map_);
      [apply keeps_create_sessions|by apply create_sessions_ledger]| |by intros e ? [? _]].
    intros x st1 [H Hi] Hx. rewrite <- Hinfo, <- Hi. by split; [apply H|]. }
  intros [] st1 [[Hl1 [Hu Hp]] Hi1]. apply wp_bind.
  eapply wp_mono; [by apply (driver_result_or_leave vote_calls RUpll (chan m TC_UPLL))| |done].
  intros [] st2 (Hl2&Hk&Hi2). apply wp_bind.
  eapply wp_mono; [eapply (driver_result_or_leave _ RUppl); [exact Hl2|by apply Hk]| |done].
  intros [] st3 ((good&Hm&[Hg Ht]&_)&_&Hi3). apply wp_bind, wp_modify, wp_ret.
  split; [done|]. exists good. split; [done|]. split; [done|]. simpl.
  rewrite Ht, Hi3, Hi2, Hi1, <- app_assoc. done.
Qed.

(** The results of the whole phase. *)
Lemma vote_phase_wp :
  st0 = mkMSt m (m_world st0) -> session_id_ m <> 0 -> config_id_ m <> 0 ->
  abort_on_fail_ m = [] ->
  wp (TwoPhaseCommit_Execute ipc)
    (fun r st' => (r = TCOPER_RET_SUCCESS -> complete st') /\
                  (r = TCOPER_RET_ABORT -> aborted st'))
    (fun _ _ => False) st0.
Proof.
  intros Hst Hsid Hcid Hvec. apply wp_method. apply wp_bind, wp_get, wp_bind, wp_get, wp_bind.
  assert (m_data st0 = m) as Hd by (rewrite Hst; done). rewrite Hd.
  rewrite !bool_decide_eq_false_2 by done. apply wp_ret, wp_bind.
  eapply wp_mono; [apply (vote_loop_spec [])| |].
  - exists []. split; [by apply made_nil|]. split; [split; [constructor|done]|].
    rewrite Hd. by rewrite Hvec.
  - intros r0 st1 Hl. apply wp_bind, wp_get.
    destruct (driverinfo_map_ (m_data st1)) as [|x l] eqn:Hi.
    + eapply wp_mono; [by apply send_dummy_results| |].
      * intros r st2 [-> H]. done.
      * intros e st2 ->. done.
    + apply wp_bind. eapply wp_mono; [by apply send_to_drivers| |done].
      intros r st2 [Hc Ha]. apply wp_bind, wp_modify, wp_ret. split; intros ->.
      * destruct (Hc eq_refl) as (good&Hm&H). by exists good.
      * by eapply aborted_world; [|exact (Ha eq_refl)].
  - intros e st1 [He Ho]. split; [done|]. by intros ->.
Qed.

End Vote.

(** C1: the vote phase of a commit is all or nothing.  It always returns.  It
    answers SUCCESS only if UPLL and UPPL were asked to vote, then every
    driver that has controllers and a channel, then both were told the
    results, nothing else was sent and no request failed.  It answers ABORT
    only if some participant failed, nobody was asked after it, and then
    exactly the participants that had voted (UPLL, UPPL and the drivers, in
    the order of their votes) were each told to abort, and none of them
    refused. *)
Theorem vote_phase_atomic ipc m w :
  opertype_ m = MSG_COMMIT_VOTE -> session_id_ m <> 0 -> config_id_ m <> 0 ->
  abort_on_fail_ m = [] ->
  exists r st', TwoPhaseCommit_Execute ipc (mkMSt m w) = (inl r, st') /\
  (r = TCOPER_RET_SUCCESS ->
   exists good, made (mkMSt m w) good st' /\ Forall vote_ok good /\
     map target good = phase_calls m (driverinfo_map_ (m_data st'))) /\
  (r = TCOPER_RET_ABORT ->
   exists good bad aborts, made (mkMSt m w) (good ++ bad :: aborts) st' /\
     Forall vote_ok good /\ bad.2 = Some TC_FAILURE /\
     all_ok (map (abort_request m) (voters good)) aborts).
Proof.
  intros Hop Hsid Hcid Hvec. apply wp_returns.
  eapply wp_mono; [by apply (vote_phase_wp ipc m (mkMSt m w)); [left|..]| |done].
  intros r st' [Hc Ha]. split; [exact Hc|]. intros E. apply (Ha E).
Qed.

(** Participants where UPLL and UPPL name one controller of the ODL driver,
    and the driver refuses its vote. *)
Definition ipc_driver_refuses : Ipc :=
  mkIpc (fun _ _ => 0) (fun _ _ => 0) (fun _ _ => 0)
    (fun _ ch svc args =>
       if svc ==? TCLIB_COMMIT_DRV_VOTE_GLOBAL then (0, TC_FAILURE, [])
       else if (svc ==? TCLIB_COMMIT_TRANSACTION) && (ch ==? "upll"%string)
       then (0, TC_SUCCESS, [VU8 1; VU8 UNC_CT_ODC; VU8 1; VStr "c1"])
       else (0, TC_SUCCESS, []))
    (fun _ => 0).

Definition vote_message : MsgData :=
  set_config_id (msg_new 5 MSG_COMMIT_VOTE three_channels) 1.

Lemma vote_phase_atomic_witness :
  let res := TwoPhaseCommit_Execute ipc_driver_refuses (mkMSt vote_message world_new) in
  res.1 = inl TCOPER_RET_ABORT /\
  exists good bad aborts, made (mkMSt vote_message world_new) (good ++ bad :: aborts) res.2 /\
    Forall vote_ok good /\ bad.2 = Some TC_FAILURE /\
    all_ok (map (abort_request vote_message) (voters good)) aborts.
Proof.
  intros res. assert (res.1 = inl TCOPER_RET_ABORT) as E by (vm_compute; reflexivity).
  split; [exact E|].
  destruct (vote_phase_atomic ipc_driver_refuses vote_message world_new
    eq_refl ltac:(discriminate) ltac:(discriminate) eq_refl) as (r&st'&Hr&_&Ha).
  unfold res in *. rewrite Hr in *. injection E as ->. exact (Ha eq_refl).
Defined.

(** C36: a global commit never ends in ABORT, whatever the participants
    answer: after the votes nobody is told to abort any more.  It answers
    SUCCESS only if UPLL and UPPL were asked to commit, then every driver that
    has controllers and a channel, then both were told the results, nothing
    else was sent and no request failed. *)
Theorem global_commit_outcome ipc m w :
  opertype_ m = MSG_COMMIT_GLOBAL -> session_id_ m <> 0 -> config_id_ m <> 0 ->
  abort_on_fail_ m = [] ->
  exists r st', TwoPhaseCommit_Execute ipc (mkMSt m w) = (inl r, st') /\
  r <> TCOPER_RET_ABORT /\
  (r = TCOPER_RET_SUCCESS ->
   exists good, made (mkMSt m w) good st' /\ Forall vote_ok good /\
     map target good = phase_calls m (driverinfo_map_ (m_data st'))).
Proof.
  intros Hop Hsid Hcid Hvec. apply wp_returns.
  eapply wp_mono; [by apply (vote_phase_wp ipc m (mkMSt m w)); [right|..]| |done].
  intros r st' [Hc Ha]. split; [|exact Hc]. intros E. destruct (Ha E) as [Hv _]. congruence.
Qed.

Definition global_message : MsgData :=
  set_config_id (msg_new 5 MSG_COMMIT_GLOBAL three_channels) 1.

Lemma global_commit_outcome_witness :
  let res := TwoPhaseCommit_Execute ipc_ok (mkMSt global_message world_new) in
  res.1 = inl TCOPER_RET_SUCCESS /\
  exists good, made (mkMSt global_message world_new) good res.2 /\ Forall vote_ok good /\
    map target good = phase_calls global_message (driverinfo_map_ (m_data res.2)).
Proof.
  intros res. assert (res.1 = inl TCOPER_RET_SUCCESS) as E by (vm_compute; reflexivity).
  split; [exact E|].
  destruct (global_commit_outcome ipc_ok global_message world_new
    eq_refl ltac:(discriminate) ltac:(discriminate) eq_refl) as (r&st'&Hr&_&Ha).
  unfold res in *. rewrite Hr in *. injection E as ->. exact (Ha eq_refl).
Defined.
