(* ===== verification/TcServer.v ===== *)
(** * Server sessions of the transaction coordinator

    [TcServerSessionUtils] of [libs/libtc_common/libtc_server_sess_utils.cc]:
    the request of a client (its arguments) and the response under
    construction.  What the IPC library answers is a parameter [SrvIpc].  A
    session pointer may be NULL (an operation that the daemon starts itself),
    so the session is an [option]. *)

From S2P Require Import Prelude TcTypes TcIpc.

Local Open Scope Z_scope.

(** What the library answers: error numbers, 0 for success, as functions of
    the response so far. *)
Record SrvIpc := mkSrvIpc {
  sv_settimeout : list IpcValue -> Z;
  sv_addoutput : list IpcValue -> IpcValue -> Z;
  sv_forward : list IpcValue -> SessRef -> Z
}.

Record ServerSession := mkSrv {
  ss_args : list IpcValue;
  ss_output : list IpcValue
}.

Definition getArgCount (s : ServerSession) : Z := Z.of_nat (length (ss_args s)).

(** ** Reading arguments

    The index equal to the count passes the first test and is reported by
    [getArgType].  [pick] says which type of argument is asked for. *)
Definition get_arg {A} (pick : IpcValue -> option A) (ssess : option ServerSession)
    (index : Z) : TcUtilRet * option A :=
  match ssess with
  | None => (TCUTIL_RET_FAILURE, None)
  | Some s =>
      if bool_decide (getArgCount s < index) then (TCUTIL_RET_FAILURE, None)
      else match ss_args s !! Z.to_nat index with
           | None => (TCUTIL_RET_FATAL, None)
           | Some v => match pick v with
                       | Some a => (TCUTIL_RET_SUCCESS, Some a)
                       | None => (TCUTIL_RET_FAILURE, None)
                       end
           end
  end.

Definition srv_get_uint32 : option ServerSession -> Z -> TcUtilRet * option Z :=
  get_arg (fun v => match v with VU32 n => Some n | _ => None end).
Definition srv_get_int32 : option ServerSession -> Z -> TcUtilRet * option Z :=
  get_arg (fun v => match v with VI32 n => Some n | _ => None end).
Definition srv_get_uint8 : option ServerSession -> Z -> TcUtilRet * option Z :=
  get_arg (fun v => match v with VU8 n => Some n | _ => None end).
Definition srv_get_string : option ServerSession -> Z -> TcUtilRet * option string :=
  get_arg (fun v => match v with VStr s => Some s | _ => None end).
Definition srv_get_uint64 : option ServerSession -> Z -> TcUtilRet * option Z :=
  get_arg (fun v => match v with VU64 n => Some n | _ => None end).

(** A structure of another definition is reported by [getArgument]. *)
Definition srv_get_struct (def : string) (ssess : option ServerSession) (index : Z)
    : TcUtilRet * option string :=
  match get_arg (fun v => match v with VStruct d x => Some (d, x) | _ => None end) ssess index with
  | (TCUTIL_RET_SUCCESS, Some (d, x)) =>
      if d ==? def then (TCUTIL_RET_SUCCESS, Some x) else (TCUTIL_RET_FATAL, None)
  | (r, _) => (r, None)
  end.

(** ** Writing the response *)

Definition srv_add (ipc : SrvIpc) (v : IpcValue) (ssess : option ServerSession)
    : TcUtilRet * option ServerSession :=
  match ssess with
  | None => (TCUTIL_RET_FAILURE, None)
  | Some s =>
      if u8 (sv_addoutput ipc (ss_output s) v) !=? 0 then (TCUTIL_RET_FATAL, ssess)
      else (TCUTIL_RET_SUCCESS, Some (mkSrv (ss_args s) (ss_output s ++ [v])))
  end.

(** A negative [TcOperStatus] is converted to [uint32_t]. *)
Definition srv_set_uint32 (ipc : SrvIpc) (data : Z) :=
  srv_add ipc (VU32 (data mod UINT32_MOD)).

Definition srv_set_uint64 (ipc : SrvIpc) (data : Z) := srv_add ipc (VU64 data).
Definition srv_set_uint8 (ipc : SrvIpc) (data : Z) := srv_add ipc (VU8 (u8 data)).
Definition srv_set_string (ipc : SrvIpc) (data : string) := srv_add ipc (VStr data).
Definition srv_set_struct (ipc : SrvIpc) (def data : string) := srv_add ipc (VStruct def data).

(** [set_srv_timeout(ssess, NULL)] *)
Definition set_srv_timeout (ipc : SrvIpc) (ssess : option ServerSession) : TcUtilRet :=
  match ssess with
  | None => TCUTIL_RET_FAILURE
  | Some s => if sv_settimeout ipc (ss_output s) !=? 0 then TCUTIL_RET_FAILURE
              else TCUTIL_RET_SUCCESS
  end.
