(* ===== verification/TcDb.v ===== *)
(** * The database handler

    [TcDbHandler] of [modules/tc/tc_db_handler.cc]: the table that holds the
    auto-save setting and the recovery table, which tells a daemon that takes
    over which operation was in progress.  The ODBC library and the database
    behind it are a parameter [Odbc] over an abstract database; the SQL text
    the code builds is a string, as in the code.

    Handles are tracked: an environment or connection handle is NULL,
    allocated or freed, and the number of statement handles that are still
    allocated is counted. *)

From S2P Require Import Prelude TcTypes TcIpc TcMsg.
From stdpp Require Import pretty.
From Stdlib Require Import Ascii.

Local Open Scope Z_scope.

Definition SQL_SUCCESS : Z := 0.
Definition SQL_SUCCESS_WITH_INFO : Z := 1.
Definition SQL_NO_DATA : Z := 100.

Definition SAVE_CONF_TABLE : string := "TC_UNC_CONF_TABLE".
Definition RECOVERY_TABLE : string := "TC_RECOVERY_TABLE".

(** The content of a bound variable after a fetch; [CNull] is the indicator
    [SQL_NULL_DATA]. *)
Inductive SqlCell := CNull | CInt (n : Z) | CStr (s : string).

Record Odbc (Db : Type) := mkOdbc {
  sql_alloc_env : Db -> Z;
  sql_set_env_attr : Db -> Z;
  sql_alloc_dbc : Db -> Z;
  sql_driver_connect : Db -> string -> Z;
  sql_disconnect : Db -> Z;
  sql_free_dbc : Db -> Z;
  sql_free_env : Db -> Z;
  sql_alloc_stmt : Db -> Z;
  sql_bind_col : Db -> Z -> Z;
  sql_exec_direct : string -> Db -> Z * Db;
  sql_row_count : string -> Db -> Z * Z;
  sql_fetch : string -> Db -> Z * list SqlCell
}.
#[global] Arguments mkOdbc {Db}.
#[global] Arguments sql_alloc_env {Db}.
#[global] Arguments sql_set_env_attr {Db}.
#[global] Arguments sql_alloc_dbc {Db}.
#[global] Arguments sql_driver_connect {Db}.
#[global] Arguments sql_disconnect {Db}.
#[global] Arguments sql_free_dbc {Db}.
#[global] Arguments sql_free_env {Db}.
#[global] Arguments sql_alloc_stmt {Db}.
#[global] Arguments sql_bind_col {Db}.
#[global] Arguments sql_exec_direct {Db}.
#[global] Arguments sql_row_count {Db}.
#[global] Arguments sql_fetch {Db}.

Inductive HandleState := HNull | HAllocated | HFreed.

Record TcDbHandler (Db : Type) := mkHandler {
  dsn_name_ : string;
  db_env_ : HandleState;
  db_conn_handle_ : HandleState;
  db_stmts : Z;                  (* statement handles not freed yet *)
  db_data : Db
}.
#[global] Arguments mkHandler {Db}.
#[global] Arguments dsn_name_ {Db}.
#[global] Arguments db_env_ {Db}.
#[global] Arguments db_conn_handle_ {Db}.
#[global] Arguments db_stmts {Db}.
#[global] Arguments db_data {Db}.

(** [%d] of a 32-bit value printed through a buffer of four characters. *)
Definition int32 (z : Z) : Z :=
  let m := z mod UINT32_MOD in if bool_decide (m < 2147483648) then m else m - UINT32_MOD.
Definition inttostr (z : Z) : string := String.substring 0 3 (pretty (int32 z)).

Definition sql_ok (ret : Z) : bool := (ret ==? SQL_SUCCESS) || (ret ==? SQL_SUCCESS_WITH_INFO).

Section Handler.

Context {Db : Type} (odbc : Odbc Db).
Implicit Type h : TcDbHandler Db.

Definition set_env h (x : HandleState) :=
  mkHandler (dsn_name_ h) x (db_conn_handle_ h) (db_stmts h) (db_data h).
Definition set_conn h (x : HandleState) :=
  mkHandler (dsn_name_ h) (db_env_ h) x (db_stmts h) (db_data h).
Definition set_stmts h (n : Z) :=
  mkHandler (dsn_name_ h) (db_env_ h) (db_conn_handle_ h) n (db_data h).
Definition set_data h (d : Db) :=
  mkHandler (dsn_name_ h) (db_env_ h) (db_conn_handle_ h) (db_stmts h) d.

(** ** The connection *)

(** [SQLFreeHandle] leaves the variable that names the handle as it is. *)
Definition SetConnectionEnv h : TcOperRet * TcDbHandler Db :=
  if negb (sql_ok (sql_alloc_env odbc (db_data h))) then (TCOPER_RET_FAILURE, h)
  else
    let h1 := set_env h HAllocated in
    if negb (sql_ok (sql_set_env_attr odbc (db_data h1)))
    then (TCOPER_RET_FAILURE, set_env h1 HFreed)
    else if negb (sql_ok (sql_alloc_dbc odbc (db_data h1)))
    then (TCOPER_RET_FAILURE, set_env h1 HFreed)
    else (TCOPER_RET_SUCCESS, set_conn h1 HAllocated).

Definition GetDBConnectString h : string := ("DSN=" +:+ dsn_name_ h)%string.

Definition OpenDBConnection h : TcOperRet * TcDbHandler Db :=
  let '(ret, h1) := SetConnectionEnv h in
  if ret ==? TCOPER_RET_FAILURE then (TCOPER_RET_FAILURE, h1)
  else if negb (sql_ok (sql_driver_connect odbc (db_data h1) (GetDBConnectString h1)))
  then (TCOPER_RET_FAILURE, set_env (set_conn h1 HFreed) HFreed)
  else (TCOPER_RET_SUCCESS, h1).

(** The constructors; the copy constructor opens a connection of its own. *)
Definition TcDbHandler_new (dsn : string) (d : Db) : TcDbHandler Db :=
  (OpenDBConnection (mkHandler dsn HNull HNull 0 d)).2.

Definition CloseDBConnection h : TcOperRet * TcDbHandler Db :=
  let close_env h1 :=
    if db_env_ h1 is HNull then (TCOPER_RET_SUCCESS, h1)
    else if sql_free_env odbc (db_data h1) !=? SQL_SUCCESS then (TCOPER_RET_FAILURE, h1)
    else (TCOPER_RET_SUCCESS, set_env h1 HFreed) in
  if db_conn_handle_ h is HNull then close_env h
  else if sql_disconnect odbc (db_data h) !=? SQL_SUCCESS then (TCOPER_RET_FAILURE, h)
  else if sql_free_dbc odbc (db_data h) !=? SQL_SUCCESS then (TCOPER_RET_FAILURE, h)
  else close_env (set_conn h HFreed).

(** ** Statements *)

Definition alloc_stmt h : bool * TcDbHandler Db :=
  if sql_ok (sql_alloc_stmt odbc (db_data h)) then (true, set_stmts h (db_stmts h + 1))
  else (false, h).
Definition free_stmt h : TcDbHandler Db := set_stmts h (db_stmts h - 1).

(** [SQLExecDirect]; the statement is freed when it fails. *)
Definition exec_stmt (query : string) h : bool * TcDbHandler Db :=
  let '(ret, d) := sql_exec_direct odbc query (db_data h) in
  let h1 := set_data h d in
  if sql_ok ret then (true, h1) else (false, free_stmt h1).

Definition row_query (table_name attribute : string) : string :=
  ("SELECT " +:+ attribute +:+ " FROM " +:+ table_name)%string.

Definition IsRowExists (table_name attribute : string) h : TcOperRet * TcDbHandler Db :=
  let get_query := row_query table_name attribute in
  let '(ok, h1) := alloc_stmt h in
  if negb ok then (TCOPER_RET_FATAL, h1)
  else
    let '(ok, h2) := exec_stmt get_query h1 in
    if negb ok then (TCOPER_RET_FATAL, h2)
    else
      let '(ret, iRow) := sql_row_count odbc get_query (db_data h2) in
      if negb (sql_ok ret) then (TCOPER_RET_FATAL, free_stmt h2)
      else if iRow ==? 0 then (TCOPER_RET_FAILURE, free_stmt h2)
      else (TCOPER_RET_SUCCESS, free_stmt h2).

(** ** The configuration table *)

Definition conf_insert : string :=
  ("INSERT INTO " +:+ SAVE_CONF_TABLE +:+ "(auto_save,date_time)" +:+
   " VALUES(false,CURRENT_TIMESTAMP);")%string.

Definition SetDefaultConfTable h : TcOperRet * TcDbHandler Db :=
  let '(retval, h1) := IsRowExists SAVE_CONF_TABLE "auto_save" h in
  if retval !=? TCOPER_RET_FAILURE then (retval, h1)
  else
    let '(ok, h2) := alloc_stmt h1 in
    if negb ok then (TCOPER_RET_FAILURE, h2)
    else
      let '(ok, h3) := exec_stmt conf_insert h2 in
      if negb ok then (TCOPER_RET_FAILURE, h3) else (TCOPER_RET_SUCCESS, free_stmt h3).

Definition conf_update (auto_save : bool) : string :=
  ("UPDATE " +:+ SAVE_CONF_TABLE +:+ " SET auto_save='" +:+
   (if auto_save then "true" else "false") +:+
   "',date_time=CURRENT_TIMESTAMP WHERE auto_save >= '0';")%string.

Definition UpdateConfTable (auto_save : bool) h : TcOperRet * TcDbHandler Db :=
  let '(retval, h1) := IsRowExists SAVE_CONF_TABLE "auto_save" h in
  if retval !=? TCOPER_RET_SUCCESS then (retval, h1)
  else
    let '(ok, h2) := alloc_stmt h1 in
    if negb ok then (TCOPER_RET_FAILURE, h2)
    else
      let '(ok, h3) := exec_stmt (conf_update auto_save) h2 in
      if negb ok then (TCOPER_RET_FAILURE, h3) else (TCOPER_RET_SUCCESS, free_stmt h3).

Definition conf_select : string := "SELECT auto_save FROM TC_UNC_CONF_TABLE".

(** [ret_data[0]] is '0', 'f' or 'F', or the column is NULL. *)
Definition auto_save_off (c : SqlCell) : bool :=
  match c with
  | CNull => true
  | CStr (String.String a _) =>
      (a ==? "0"%char) || (a ==? "f"%char) || (a ==? "F"%char)
  | _ => false
  end.

(** [auto_save] is what the out-parameter holds before the call; a fetch that
    fails leaves it alone and is reported as success, and a failure to bind
    leaves the statement allocated. *)
Definition GetConfTable (auto_save : bool) h : TcOperRet * bool * TcDbHandler Db :=
  let '(retval, h1) := IsRowExists SAVE_CONF_TABLE "auto_save" h in
  if retval !=? TCOPER_RET_SUCCESS then (retval, auto_save, h1)
  else
    let '(ok, h2) := alloc_stmt h1 in
    if negb ok then (TCOPER_RET_FAILURE, auto_save, h2)
    else if negb (sql_ok (sql_bind_col odbc (db_data h2) 1))
    then (TCOPER_RET_FAILURE, auto_save, h2)
    else
      let '(ok, h3) := exec_stmt conf_select h2 in
      if negb ok then (TCOPER_RET_FAILURE, auto_save, h3)
      else
        let '(ret, cells) := sql_fetch odbc conf_select (db_data h3) in
        if ret ==? SQL_SUCCESS
        then (TCOPER_RET_SUCCESS, negb (auto_save_off (default CNull (cells !! 0%nat))),
              free_stmt h3)
        else (TCOPER_RET_SUCCESS, auto_save, free_stmt h3).

(** ** The recovery table *)

Definition recovery_insert : string :=
  ("INSERT INTO " +:+ RECOVERY_TABLE +:+ "(database,operation,failover_instance,date_time)" +:+
   " VALUES(" +:+ inttostr UNC_DT_INVALID +:+ "," +:+ inttostr TC_OP_INVALID +:+ "," +:+
   inttostr 0 +:+ ",CURRENT_TIMESTAMP);")%string.

(** A failed insertion is reported as success. *)
Definition SetDefaultRecoveryTable h : TcOperRet * TcDbHandler Db :=
  let '(retval, h1) := IsRowExists RECOVERY_TABLE "database" h in
  if retval !=? TCOPER_RET_FAILURE then (retval, h1)
  else
    let '(ok, h2) := alloc_stmt h1 in
    if negb ok then (TCOPER_RET_FAILURE, h2)
    else
      let '(ok, h3) := exec_stmt recovery_insert h2 in
      if negb ok then (TCOPER_RET_SUCCESS, h3) else (TCOPER_RET_SUCCESS, free_stmt h3).

Definition recovery_update (data_base operation failover_instance : Z) : string :=
  ("UPDATE TC_RECOVERY_TABLE SET database=" +:+ inttostr data_base +:+
   ",operation=" +:+ inttostr operation +:+
   ",failover_instance=" +:+ inttostr failover_instance +:+
   ",date_time=CURRENT_TIMESTAMP WHERE database >= 0;")%string.

Definition UpdateRecoveryTable (data_base : Z) (operation : TcServiceType)
    (failover_instance : Z) h : TcOperRet * TcDbHandler Db :=
  let '(retval, h1) := IsRowExists RECOVERY_TABLE "database" h in
  if retval !=? TCOPER_RET_SUCCESS then (retval, h1)
  else if ValidateAuditDBAttributes data_base operation !=? TCOPER_RET_SUCCESS
  then (TCOPER_RET_FAILURE, h1)
  else
    let '(ok, h2) := alloc_stmt h1 in
    if negb ok then (TCOPER_RET_FAILURE, h2)
    else
      let '(ok, h3) := exec_stmt (recovery_update data_base operation failover_instance) h2 in
      if negb ok then (TCOPER_RET_FAILURE, h3) else (TCOPER_RET_SUCCESS, free_stmt h3).

Definition recovery_select : string :=
  ("SELECT database,operation,failover_instance " +:+ "FROM TC_RECOVERY_TABLE")%string.

Definition cell_int (dflt : Z) (c : SqlCell) : Z :=
  match c with CInt n => n | _ => dflt end.

(** [cur] is what the three out-parameters hold before the call.  Any result
    of the fetch but NO_DATA is taken as a row. *)
Definition GetRecoveryTable (cur : Z * TcServiceType * Z) h
    : TcOperRet * (Z * TcServiceType * Z) * TcDbHandler Db :=
  let '(retval, h1) := IsRowExists RECOVERY_TABLE "database" h in
  if retval !=? TCOPER_RET_SUCCESS then (retval, cur, h1)
  else
    let '(ok, h2) := alloc_stmt h1 in
    if negb ok then (TCOPER_RET_FAILURE, cur, h2)
    else if negb (sql_ok (sql_bind_col odbc (db_data h2) 1)) ||
            negb (sql_ok (sql_bind_col odbc (db_data h2) 2)) ||
            negb (sql_ok (sql_bind_col odbc (db_data h2) 3))
    then (TCOPER_RET_FAILURE, cur, h2)
    else
      let '(ok, h3) := exec_stmt recovery_select h2 in
      if negb ok then (TCOPER_RET_FAILURE, cur, h3)
      else
        let '(ret, cells) := sql_fetch odbc recovery_select (db_data h3) in
        let cell i dflt := cell_int dflt (default CNull (cells !! i)) in
        if ret !=? SQL_NO_DATA
        then (TCOPER_RET_SUCCESS,
              (cell 0%nat UNC_DT_INVALID, cell 1%nat TC_OP_INVALID, cell 2%nat 1),
              free_stmt h3)
        else (TCOPER_RET_SUCCESS, cur, free_stmt h3).

(** ** Initialisation *)

Definition InitTcDbTables h : TcOperRet * TcDbHandler Db :=
  let '(ret, h1) := SetDefaultConfTable h in
  if ret !=? TCOPER_RET_SUCCESS then (TCOPER_RET_FAILURE, h1)
  else
    let '(ret, h2) := SetDefaultRecoveryTable h1 in
    if ret !=? TCOPER_RET_SUCCESS then (TCOPER_RET_FAILURE, h2) else (TCOPER_RET_SUCCESS, h2).

Definition InitDB h : TcOperRet * TcDbHandler Db := InitTcDbTables h.

End Handler.
