(* ===== verification/TcOper.v ===== *)
(** * Operations of the transaction coordinator

    [TcOperations] of [modules/tc/tc_operations.cc] and
    [modules/tc/include/tc_operations.hh]: the object that serves one request
    in phases - read the arguments, take the lock, collect the messages, send
    them, release the lock, respond - with virtual methods its subclasses
    supply.  A subclass is a value of the record [Vtable]; its own members are
    the type parameter [X] of the state.

    An operation runs in one thread while others run beside it.  Whatever they
    do to the shared objects (the lock, the static members of
    [TcConfigOperations], the database) between two steps of this operation is
    a parameter [Env], a function of what this operation did so far; so is the
    way a wait ends.  An operation that waits for ever has no result
    ([None]). *)

From S2P Require Import Prelude TcTypes TcRwLock TcLock TcIpc TcMsg TcMsgCommit.
From S2P Require Import TcMsgAudit TcServer.

Local Open Scope Z_scope.

(** ** Message objects *)

(** Virtual [Execute]. *)
Definition TcMsg_Execute (ipc : Ipc) (end_value : string) (c : MsgClass) : M TcOperRet :=
  match c with
  | CTcMsgNotifyConfigId => TcMsgNotifyConfigId_Execute ipc
  | CTcMsgSetUp => TcMsgSetUp_Execute ipc
  | CCommitTransaction => CommitTransaction_Execute ipc
  | CTwoPhaseCommit => TwoPhaseCommit_Execute ipc
  | CAuditTransaction => AuditTransaction_Execute ipc
  | CTwoPhaseAudit => TwoPhaseAudit_Execute ipc end_value
  | CTcMsgToStartupDB => TcMsgToStartupDB_Execute ipc
  | CAbortCandidateDB => AbortCandidateDB_Execute ipc
  | CTcMsgAuditDB => TcMsgAuditDB_Execute ipc
  | CGetDriverId => GetDriverId_Execute ipc
  | CTcMsgAutoSave => TcMsgAutoSave_Execute ipc
  end.

(** A message with its sessions; [mo_world]'s trace is not used. *)
Record MsgObj := mkMsgObj { mo_class : MsgClass; mo_data : MsgData; mo_world : World }.

(** The virtual [SetData]s: a class ignores those it does not override. *)
Definition SetData_config (config_id : Z) (controller_id : string) (driver_id : Z)
    (o : MsgObj) : MsgObj :=
  match mo_class o with
  | CTcMsgNotifyConfigId | CAbortCandidateDB | CCommitTransaction | CTwoPhaseCommit =>
      mkMsgObj (mo_class o) (set_config_id (mo_data o) config_id) (mo_world o)
  | CAuditTransaction | CTwoPhaseAudit | CGetDriverId =>
      mkMsgObj (mo_class o) (set_controller (mo_data o) controller_id driver_id) (mo_world o)
  | _ => o
  end.

Definition SetData_autosave (autosave : bool) (o : MsgObj) : MsgObj :=
  match mo_class o with
  | CTcMsgSetUp => mkMsgObj (mo_class o) (set_autosave_enabled (mo_data o) autosave) (mo_world o)
  | _ => o
  end.

Definition SetData_audit_db (db : Z) (op : TcServiceType) (o : MsgObj) : MsgObj :=
  match mo_class o with
  | CTcMsgAuditDB => mkMsgObj (mo_class o) (set_audit_db (mo_data o) db op) (mo_world o)
  | _ => o
  end.

(** [SetReconnect] and [IsUserAudit]; only [AuditTransaction] has them. *)
Definition SetReconnect (reconnect : bool) (o : MsgObj) : MsgObj :=
  match mo_class o with
  | CAuditTransaction =>
      let m := mo_data o in
      mkMsgObj (mo_class o)
        (set_audit_options m reconnect (simplified_audit_ m) (user_audit_ m)) (mo_world o)
  | _ => o
  end.
Definition IsUserAudit (user : bool) (o : MsgObj) : MsgObj :=
  match mo_class o with
  | CAuditTransaction =>
      let m := mo_data o in
      mkMsgObj (mo_class o)
        (set_audit_options m (reconnect_controller_ m) (simplified_audit_ m) user) (mo_world o)
  | _ => o
  end.

Definition with_msg (f : MsgData -> MsgData) (o : MsgObj) : MsgObj :=
  mkMsgObj (mo_class o) (f (mo_data o)) (mo_world o).

(** [GetResult] *)
Definition GetResult (o : MsgObj) : Z :=
  match mo_class o with CGetDriverId => driver_id_ (mo_data o) | _ => UNC_CT_UNKNOWN end.

Definition trans_result_of (o : MsgObj) : TcTransEndResult := trans_result_ (mo_data o).
Definition audit_result_of (o : MsgObj) : TcAuditResult := audit_result_ (mo_data o).

Definition with_trace (t : list IpcEvent) (w : World) : World :=
  mkWorld (w_sess w) (w_upll w) (w_uppl w) (w_local w) t.

(** The destructor closes the sessions that are still open.  An auto-save
    message opens its connections in a local variable, which the destructor
    does not know. *)
Definition TcMsg_delete (o : MsgObj) (t : list IpcEvent) : list IpcEvent :=
  let w := with_trace t (mo_world o) in
  let w1 := if mo_class o is CTcMsgAutoSave then w else tc_session_close RSess w in
  w_trace (tc_session_close RUppl (tc_session_close RUpll w1)).

(** ** State *)

(** Static members of [TcConfigOperations].  The queue holds pointers to
    operations: an entry names the object, its session and whether its
    condition variable exists. *)
Record ConfigRequest := mkReq { rq_this : Z; rq_session : Z; rq_cond : bool }.

Record ConfigStatics := mkStatics {
  config_mode_available_ : bool;
  config_req_queue_ : list ConfigRequest;
  state_changed_to_sby_ : bool
}.
Definition statics_new : ConfigStatics := mkStatics true [] false.

(** What one operation sees of the database handler. *)
Class TcDbI (D : Type) := {
  db_UpdateConfTable : bool -> D -> TcOperRet * D;
  db_GetConfTable : bool -> D -> TcOperRet * bool * D;
  db_UpdateRecoveryTable : Z -> TcServiceType -> Z -> D -> TcOperRet * D;
  db_GetRecoveryTable : Z * TcServiceType * Z -> D -> TcOperRet * (Z * TcServiceType * Z) * D
}.

(** What threads share. *)
Record Shared (D : Type) := mkShared {
  sh_lock : TcLock;
  sh_conf : ConfigStatics;
  sh_db : D
}.
#[global] Arguments mkShared {D}.
#[global] Arguments sh_lock {D}.
#[global] Arguments sh_conf {D}.
#[global] Arguments sh_db {D}.

(** What an operation did, oldest first.  A message carries the lock as it
    was when the message was sent. *)
Inductive OpEvent :=
| EvLock (o : LockOp) (r : TcLockRet)
| EvMsg (oper : TcMsgOperType) (r : TcOperRet) (s : TcLock)
| EvRecovery (db : Z) (op : TcServiceType) (instance : Z) (r : TcOperRet)
| EvTimer (sid timeout : Z)
| EvSignal (sid : Z)
| EvDispatchAudit (controller : string) (driver : Z)
| EvAlarm (raised : bool).

(** The other threads and the task queues. *)
Record Env (D : Type) := mkEnv {
  e_step : list OpEvent -> Shared D -> Shared D;
  e_wait : list OpEvent -> WaitKind -> Shared D -> option (Shared D);
  e_cond : list OpEvent -> Shared D -> option (Z * Shared D);
  e_post : list OpEvent -> Z
}.
#[global] Arguments mkEnv {D}.
#[global] Arguments e_step {D}.
#[global] Arguments e_wait {D}.
#[global] Arguments e_cond {D}.
#[global] Arguments e_post {D}.

Inductive TcOperEnum :=
| INPUT_VALIDATION | GET_EXCLUSION_PHASE | CREATE_MSG_LIST | EXECUTE_PHASE
| RELEASE_EXCLUSION_PHASE | SEND_RESPONSE_PHASE.

(** The members of the base class. *)
Record OpBase := mkBase {
  op_session_id : Z;
  tc_oper_ : TcServiceType;
  TcOperMessageList : list TcMsgOperType;
  tc_oper_status_ : TcOperEnum;
  audit_db_fail_ : bool
}.

(** [audit_db_fail_] is not initialised: [garbage] is what it happens to
    hold. *)
Definition base_new (garbage : bool) : OpBase := mkBase 0 TC_OP_INVALID [] INPUT_VALIDATION garbage.

Record OpSt (D X : Type) := mkSt {
  st_base : OpBase;
  st_ext : X;
  st_shared : Shared D;
  st_srv : option ServerSession;
  st_trace : list IpcEvent;
  st_log : list OpEvent
}.
#[global] Arguments mkSt {D X}.
#[global] Arguments st_base {D X}.
#[global] Arguments st_ext {D X}.
#[global] Arguments st_shared {D X}.
#[global] Arguments st_srv {D X}.
#[global] Arguments st_trace {D X}.
#[global] Arguments st_log {D X}.

Definition O (D X A : Type) : Type := OpSt D X -> option (A * OpSt D X).

Definition oret {D X A} (a : A) : O D X A := fun st => Some (a, st).
Definition obind {D X A B} (m : O D X A) (f : A -> O D X B) : O D X B := fun st =>
  match m st with
  | Some (a, st1) => f a st1
  | None => None
  end.

Declare Scope oper_scope.
Delimit Scope oper_scope with oper.
Notation "x <- y ; z" := (obind y (fun x => z))
  (at level 20, y at level 100, z at level 200, only parsing) : oper_scope.
Notation "x ;;; z" := (obind x (fun _ => z))
  (at level 100, z at level 200, only parsing, right associativity) : oper_scope.
#[global] Open Scope oper_scope.

(** ** The virtual methods of a subclass *)

Record Vtable (D X : Type) := mkVtable {
  v_HandleArgs : O D X TcOperStatus;
  v_TcGetExclusion : O D X TcOperStatus;
  v_TcReleaseExclusion : O D X TcOperStatus;
  v_TcCreateMsgList : O D X TcOperStatus;
  v_Execute : O D X TcOperStatus;
  v_SendResponse : TcOperStatus -> O D X TcOperStatus
}.
#[global] Arguments mkVtable {D X}.
#[global] Arguments v_HandleArgs {D X}.
#[global] Arguments v_TcGetExclusion {D X}.
#[global] Arguments v_TcReleaseExclusion {D X}.
#[global] Arguments v_TcCreateMsgList {D X}.
#[global] Arguments v_Execute {D X}.
#[global] Arguments v_SendResponse {D X}.

(** What the operations of a daemon have in common. *)
Record Setting (D : Type) := mkSetting {
  set_ipc : Ipc;
  set_end_value : string;
  set_srv_ipc : SrvIpc;
  set_the_env : Env D;
  set_channels : gmap TcDaemonName string
}.
#[global] Arguments mkSetting {D}.
#[global] Arguments set_ipc {D}.
#[global] Arguments set_end_value {D}.
#[global] Arguments set_srv_ipc {D}.
#[global] Arguments set_the_env {D}.
#[global] Arguments set_channels {D}.

Section Oper.

Context {D X : Type} `{TcDbI D} (S : Setting D).
Implicit Type st : OpSt D X.

(** ** Primitives *)

Definition base {A} (f : OpBase -> A) : O D X A := fun st => Some (f (st_base st), st).
Definition set_base (f : OpBase -> OpBase) : O D X unit := fun st =>
  Some (tt, mkSt (f (st_base st)) (st_ext st) (st_shared st) (st_srv st) (st_trace st)
              (st_log st)).
Definition ext {A} (f : X -> A) : O D X A := fun st => Some (f (st_ext st), st).
Definition set_ext (f : X -> X) : O D X unit := fun st =>
  Some (tt, mkSt (st_base st) (f (st_ext st)) (st_shared st) (st_srv st) (st_trace st)
              (st_log st)).
Definition session : O D X (option ServerSession) := fun st => Some (st_srv st, st).

Definition set_session_id (sid : Z) : O D X unit :=
  set_base (fun b => mkBase sid (tc_oper_ b) (TcOperMessageList b) (tc_oper_status_ b)
                       (audit_db_fail_ b)).
Definition set_oper (op : TcServiceType) : O D X unit :=
  set_base (fun b => mkBase (op_session_id b) op (TcOperMessageList b) (tc_oper_status_ b)
                       (audit_db_fail_ b)).
Definition push_msg (m : TcMsgOperType) : O D X unit :=
  set_base (fun b => mkBase (op_session_id b) (tc_oper_ b) (TcOperMessageList b ++ [m])
                       (tc_oper_status_ b) (audit_db_fail_ b)).
Definition set_phase (p : TcOperEnum) : O D X unit :=
  set_base (fun b => mkBase (op_session_id b) (tc_oper_ b) (TcOperMessageList b) p
                       (audit_db_fail_ b)).
Definition set_audit_db_fail (x : bool) : O D X unit :=
  set_base (fun b => mkBase (op_session_id b) (tc_oper_ b) (TcOperMessageList b)
                       (tc_oper_status_ b) x).

Definition put_shared (sh : Shared D) : O D X unit := fun st =>
  Some (tt, mkSt (st_base st) (st_ext st) sh (st_srv st) (st_trace st) (st_log st)).
Definition event (e : OpEvent) : O D X unit := fun st =>
  Some (tt, mkSt (st_base st) (st_ext st) (st_shared st) (st_srv st) (st_trace st)
              (st_log st ++ [e])).

(** The other threads run. *)
Definition interfere : O D X (Shared D) := fun st =>
  let sh := e_step (set_the_env S) (st_log st) (st_shared st) in
  Some (sh, mkSt (st_base st) (st_ext st) sh (st_srv st) (st_trace st) (st_log st)).

(** The end of a wait: [e_wait] gives the objects as they are at the last
    wake-up of the wait.  A thread that polled for the end of set-up may then
    have to wait for the lock, so there are at most two waits. *)
Fixpoint await (n : nat) (log : list OpEvent) (k : WaitKind) (sh : Shared D)
    : option (TcLockRet * Shared D) :=
  match n with
  | 0%nat => None
  | Datatypes.S n' =>
      match e_wait (set_the_env S) log k sh with
      | None => None
      | Some sh1 =>
          match resume k (sh_lock sh1) with
          | Done r s => Some (r, mkShared s (sh_conf sh1) (sh_db sh1))
          | Blocked k' s => await n' log k' (mkShared s (sh_conf sh1) (sh_db sh1))
          end
      end
  end.

(** A call on the lock. *)
Definition lock_do (o : LockOp) : O D X TcLockRet :=
  sh <- interfere;
  match lock_call o (sh_lock sh) with
  | Done r s =>
      put_shared (mkShared s (sh_conf sh) (sh_db sh));;; event (EvLock o r);;; oret r
  | Blocked k s => fun st =>
      match await 2 (st_log st) k (mkShared s (sh_conf sh) (sh_db sh)) with
      | None => None
      | Some (r, sh1) => (put_shared sh1;;; event (EvLock o r);;; oret r) st
      end
  end.

Definition GetLock_do (sid : Z) (op : TcOperation) (wop : TcWriteOperation) :=
  lock_do (OpGetLock sid op wop).
Definition ReleaseLock_do (sid cid : Z) (op : TcOperation) (wop : TcWriteOperation) :=
  lock_do (OpReleaseLock sid cid op wop).

(** A query of the lock. *)
Definition ask {A} (f : TcLock -> A) : O D X A := sh <- interfere; oret (f (sh_lock sh)).

(** Database calls. *)
Definition UpdateRecoveryTable_with (db : Z) (op : TcServiceType) (instance : Z)
    : O D X TcOperRet :=
  sh <- interfere;
  let '(r, d) := db_UpdateRecoveryTable db op instance (sh_db sh) in
  put_shared (mkShared (sh_lock sh) (sh_conf sh) d);;;
  event (EvRecovery db op instance r);;; oret r.

(** The failover instance is 0 by default. *)
Definition UpdateRecoveryTable_do (db : Z) (op : TcServiceType) : O D X TcOperRet :=
  UpdateRecoveryTable_with db op 0.
Definition GetRecoveryTable_do (cur : Z * TcServiceType * Z)
    : O D X (TcOperRet * (Z * TcServiceType * Z)) :=
  sh <- interfere;
  let '(r, row, d) := db_GetRecoveryTable cur (sh_db sh) in
  put_shared (mkShared (sh_lock sh) (sh_conf sh) d);;; oret (r, row).
Definition GetConfTable_do (cur : bool) : O D X (TcOperRet * bool) :=
  sh <- interfere;
  let '(r, b, d) := db_GetConfTable cur (sh_db sh) in
  put_shared (mkShared (sh_lock sh) (sh_conf sh) d);;; oret (r, b).
Definition UpdateConfTable_do (b : bool) : O D X TcOperRet :=
  sh <- interfere;
  let '(r, d) := db_UpdateConfTable b (sh_db sh) in
  put_shared (mkShared (sh_lock sh) (sh_conf sh) d);;; oret r.

(** Messages. *)
Definition create_msg (oper : TcMsgOperType) : O D X (option MsgObj) :=
  sid <- base op_session_id;
  oret (match CreateInstance sid oper (set_channels S) with
        | Some (c, d) => Some (mkMsgObj c d world_new)
        | None => None
        end).

Definition execute_msg (o : MsgObj) : O D X (TcOperRet * MsgObj) :=
  sh <- interfere;
  fun st =>
    let run := TcMsg_Execute (set_ipc S) (set_end_value S) (mo_class o) in
    let '(r, ms) := run (mkMSt (mo_data o) (with_trace (st_trace st) (mo_world o))) in
    let ret_val := match r with inl x => x | inr x => x end in
    Some ((ret_val, mkMsgObj (mo_class o) (m_data ms) (m_world ms)),
          mkSt (st_base st) (st_ext st) (st_shared st) (st_srv st) (w_trace (m_world ms))
            (st_log st ++ [EvMsg (opertype_ (mo_data o)) ret_val (sh_lock sh)])).

Definition delete_msg (o : MsgObj) : O D X unit := fun st =>
  Some (tt, mkSt (st_base st) (st_ext st) (st_shared st) (st_srv st)
              (TcMsg_delete o (st_trace st)) (st_log st)).

(** A value appended to the response. *)
Definition respond_uint32 (data : Z) : O D X TcUtilRet := fun st =>
  let '(r, s) := srv_set_uint32 (set_srv_ipc S) data (st_srv st) in
  Some (r, mkSt (st_base st) (st_ext st) (st_shared st) s (st_trace st) (st_log st)).

(** [resp_tc_msg_->ForwardResponseToVTN( *ssess_ )] *)
Definition forward_response (o : MsgObj) : O D X TcOperRet := fun st =>
  match st_srv st with
  | None => Some (TCOPER_RET_FATAL, st)
  | Some s =>
      let '(r, data) := ForwardResponseToVTN (sv_forward (set_srv_ipc S) (ss_output s))
                          (opertype_ (mo_data o)) (mo_world o) in
      Some (r, mkSt (st_base st) (st_ext st) (st_shared st)
                 (Some (mkSrv (ss_args s) (ss_output s ++ data))) (st_trace st) (st_log st))
  end.

(** ** The request *)

Definition TC_REQ_OP_TYPE_INDEX : Z := 0.
Definition TC_REQ_SESSION_ID_INDEX : Z := 1.
Definition TC_REQ_ARG_INDEX : Z := 2.

(** [if (ret == FAILURE) return INVALID_INPUT; else if (ret == FATAL) return
    FAILURE;] around the reading of an argument. *)
Definition read_arg {A} (r : TcUtilRet * option A) (k : A -> O D X TcOperStatus)
    : O D X TcOperStatus :=
  match r with
  | (TCUTIL_RET_SUCCESS, Some a) => k a
  | (TCUTIL_RET_FATAL, _) => oret TC_OPER_FAILURE
  | _ => oret TC_OPER_INVALID_INPUT
  end.

Definition GetOperType : O D X TcOperStatus :=
  s <- session;
  read_arg (srv_get_uint32 s TC_REQ_OP_TYPE_INDEX) (fun oper_type =>
    set_oper oper_type;;; oret TC_OPER_SUCCESS).

Definition GetSessionId : O D X TcOperStatus :=
  s <- session;
  read_arg (srv_get_uint32 s TC_REQ_SESSION_ID_INDEX) (fun sid =>
    set_session_id sid;;;
    if sid ==? 0 then oret TC_OPER_INVALID_INPUT else oret TC_OPER_SUCCESS).

(** [ret = m; if (ret != TC_OPER_SUCCESS) return ret;] *)
Definition and_then (m k : O D X TcOperStatus) : O D X TcOperStatus :=
  r <- m; if r !=? TC_OPER_SUCCESS then oret r else k.

Definition HandleArgs (getSessionId : O D X TcOperStatus) (TcGetMinArgCount : Z)
    (TcValidateOperType : O D X TcOperStatus)
    (TcCheckOperArgCount : Z -> O D X TcOperStatus)
    (TcValidateOperParams : O D X TcOperStatus) : O D X TcOperStatus :=
  s <- session;
  match s with
  | None => and_then TcValidateOperType (oret TC_OPER_SUCCESS)
  | Some ss =>
      let count := getArgCount ss in
      if (TcGetMinArgCount !=? 0) && bool_decide (TcGetMinArgCount <= count) then
        and_then GetOperType (
        and_then getSessionId (
        and_then TcValidateOperType (
        and_then (TcCheckOperArgCount count) (
        and_then TcValidateOperParams (oret TC_OPER_SUCCESS)))))
      else oret TC_OPER_INVALID_INPUT
  end.

(** ** The response *)

Definition status_of_util (r : TcUtilRet) : TcOperStatus :=
  match r with
  | TCUTIL_RET_SUCCESS => TC_OPER_SUCCESS
  | TCUTIL_RET_FAILURE => TC_OPER_INVALID_INPUT
  | TCUTIL_RET_FATAL => TC_OPER_FAILURE
  end.

Definition SetOperType : O D X TcOperStatus :=
  op <- base tc_oper_; r <- respond_uint32 op; oret (status_of_util r).
Definition SetSessionId : O D X TcOperStatus :=
  sid <- base op_session_id; r <- respond_uint32 sid; oret (status_of_util r).
Definition SetOperStatus (resp_status : TcOperStatus) : O D X TcOperStatus :=
  r <- respond_uint32 (TcOperStatus_value resp_status); oret (status_of_util r).

(** [if (m != TC_OPER_SUCCESS) return TC_OPER_FAILURE;] *)
Definition or_failure (m k : O D X TcOperStatus) : O D X TcOperStatus :=
  r <- m; if r !=? TC_OPER_SUCCESS then oret TC_OPER_FAILURE else k.

Definition SendResponse (SendAdditionalResponse : TcOperStatus -> O D X TcOperStatus)
    (send_oper_status : TcOperStatus) : O D X TcOperStatus :=
  s <- session;
  if s is None then oret send_oper_status
  else if (send_oper_status !=? TC_OPER_INVALID_INPUT) &&
          (send_oper_status !=? TC_OPER_FAILURE) then
    or_failure SetOperType (
    or_failure SetSessionId (
    or_failure (SetOperStatus send_oper_status) (
    SendAdditionalResponse send_oper_status)))
  else oret send_oper_status.

(** ** The phases *)

Section Phases.

Context (v : Vtable D X).

Definition RevokeOperation (oper_status : TcOperStatus) : O D X TcOperStatus :=
  phase <- base tc_oper_status_;
  match phase with
  | INPUT_VALIDATION | GET_EXCLUSION_PHASE => v_SendResponse v oper_status
  | CREATE_MSG_LIST | EXECUTE_PHASE =>
      r <- v_TcReleaseExclusion v;
      if r ==? TC_OPER_SUCCESS then v_SendResponse v oper_status
      else v_SendResponse v TC_SYSTEM_FAILURE
  | RELEASE_EXCLUSION_PHASE => v_SendResponse v TC_SYSTEM_FAILURE
  | SEND_RESPONSE_PHASE => oret TC_OPER_FAILURE
  end.

(** [ret = m; if (ret != TC_OPER_SUCCESS) return RevokeOperation(ret);] *)
Definition or_revoke (m k : O D X TcOperStatus) : O D X TcOperStatus :=
  r <- m; if r !=? TC_OPER_SUCCESS then RevokeOperation r else k.

(** From taking the lock to the response. *)
Definition run_phases : O D X TcOperStatus :=
  set_phase GET_EXCLUSION_PHASE;;;
  or_revoke (v_TcGetExclusion v) (
  set_phase CREATE_MSG_LIST;;;
  or_revoke (v_TcCreateMsgList v) (
  set_phase EXECUTE_PHASE;;;
  or_revoke (v_Execute v) (
  set_phase RELEASE_EXCLUSION_PHASE;;;
  or_revoke (v_TcReleaseExclusion v) (
  v_SendResponse v TC_OPER_SUCCESS)))).

Definition Dispatch : O D X TcOperStatus :=
  set_phase INPUT_VALIDATION;;;
  or_revoke (v_HandleArgs v) run_phases.

End Phases.

(** ** Sending the messages of the list *)

Definition HandleMsgRet (MsgRet : TcOperRet) : TcOperStatus :=
  match MsgRet with
  | TCOPER_RET_FATAL | TCOPER_RET_FAILURE => TC_SYSTEM_FAILURE
  | TCOPER_RET_ABORT => TC_OPER_ABORT
  | TCOPER_RET_NO_DRIVER => TC_OPER_DRIVER_NOT_PRESENT
  | _ => TC_OPER_SUCCESS
  end.

Section Execute.

Context (FillTcMsgData : MsgObj -> TcMsgOperType -> O D X (TcOperStatus * MsgObj)).
Context (handleMsgRet : TcOperRet -> TcOperStatus).

Fixpoint execute_list (l : list TcMsgOperType) : O D X TcOperStatus :=
  match l with
  | [] => oret TC_OPER_SUCCESS
  | m :: l' =>
      o <- create_msg m;
      match o with
      | None => oret TC_SYSTEM_FAILURE
      | Some msg =>
          p <- FillTcMsgData msg m;
          if p.1 !=? TC_OPER_SUCCESS then delete_msg p.2;;; oret TC_SYSTEM_FAILURE
          else
            q <- execute_msg p.2;
            if q.1 !=? TCOPER_RET_SUCCESS then
              delete_msg q.2;;;
              (if m ==? MSG_AUDITDB then set_audit_db_fail true else oret tt);;;
              oret (handleMsgRet q.1)
            else
              (if m ==? MSG_SETUP_COMPLETE
               then lock_do (OpSetSetupComplete true);;; oret tt else oret tt);;;
              delete_msg q.2;;;
              execute_list l'
      end
  end.

Definition Execute : O D X TcOperStatus :=
  l <- base TcOperMessageList;
  if l is [] then oret TC_OPER_FAILURE else execute_list l.

End Execute.

End Oper.

(** An operation object of its own, created, used and dropped by another
    piece of code; the shared objects, the messages sent and the log go on. *)
Definition with_object {D X Y A} (b : OpBase) (y : Y) (srv : option ServerSession)
    (m : O D Y A) : O D X (A * OpSt D Y) := fun st =>
  match m (mkSt b y (st_shared st) srv (st_trace st) (st_log st)) with
  | None => None
  | Some (a, st1) =>
      Some ((a, st1), mkSt (st_base st) (st_ext st) (st_shared st1) (st_srv st) (st_trace st1)
                        (st_log st1))
  end.
