(* ===== verification/TcDbTheorems.v ===== *)
(** * What the tables of the transaction coordinator keep

    The database handler of TcDb over a database that executes the statements
    as SQL says ([SqlLaws]): what is stored is what is read back, statement
    handles are freed, and the width of the number buffer truncates large
    failover counts.  [Tables] is a small database that satisfies the laws, and
    the handler implements the interface [TcDbI] of the operations. *)

From S2P Require Import Prelude TcTypes TcIpc TcMsg TcDb TcServer TcOper.
From stdpp Require Import pretty.
From Stdlib Require Import Ascii.

Local Open Scope Z_scope.

(** The handler as the operations see it. *)
Definition handler_dbi {Db} (odbc : Odbc Db) : TcDbI (TcDbHandler Db) := {|
  db_UpdateConfTable := UpdateConfTable odbc;
  db_GetConfTable := GetConfTable odbc;
  db_UpdateRecoveryTable := UpdateRecoveryTable odbc;
  db_GetRecoveryTable := GetRecoveryTable odbc
|}.

(** ** Statement handles, for any database *)

Section Statements.

Context {Db : Type} (odbc : Odbc Db).
Implicit Type h : TcDbHandler Db.

(** Some column could not be bound in a state the handler saw. *)
Definition bind_fails : Prop := exists d n, sql_ok (sql_bind_col odbc d n) = false.

(** A call that leaves no statement allocated, or [leak] of them. *)
Definition leaks (leak : Z) h h' : Prop := db_stmts h' = db_stmts h + leak.

Lemma IsRowExists_balanced t a h : leaks 0 h (IsRowExists odbc t a h).2.
Proof.
  unfold leaks, IsRowExists, alloc_stmt, exec_stmt, free_stmt, set_stmts, set_data.
  repeat (split_match; simpl in * ); simplify_eq; simpl; lia.
Qed.

Ltac stmts_solve h t a :=
  pose proof (IsRowExists_balanced t a h); unfold leaks in *;
  destruct (IsRowExists odbc t a h) as [r h1];
  unfold alloc_stmt, exec_stmt, free_stmt, set_stmts, set_data in *; simpl in *;
  repeat (split_match; simpl in * ); simplify_eq; simpl in *; bool_norm;
  try (left; lia); try (right; split; [lia|]); try lia.

Lemma SetDefaultConfTable_balanced h : leaks 0 h (SetDefaultConfTable odbc h).2.
Proof. unfold SetDefaultConfTable. stmts_solve h SAVE_CONF_TABLE "auto_save". Qed.

Lemma SetDefaultRecoveryTable_balanced h : leaks 0 h (SetDefaultRecoveryTable odbc h).2.
Proof. unfold SetDefaultRecoveryTable. stmts_solve h RECOVERY_TABLE "database". Qed.

Lemma UpdateConfTable_balanced b h : leaks 0 h (UpdateConfTable odbc b h).2.
Proof. unfold UpdateConfTable. stmts_solve h SAVE_CONF_TABLE "auto_save". Qed.

Lemma UpdateRecoveryTable_balanced db op i h : leaks 0 h (UpdateRecoveryTable odbc db op i h).2.
Proof. unfold UpdateRecoveryTable. stmts_solve h RECOVERY_TABLE "database". Qed.

Lemma GetConfTable_leak b h :
  leaks 0 h (GetConfTable odbc b h).2 \/
  leaks 1 h (GetConfTable odbc b h).2 /\
    (GetConfTable odbc b h).1 = (TCOPER_RET_FAILURE, b) /\ bind_fails.
Proof.
  unfold GetConfTable, bind_fails. stmts_solve h SAVE_CONF_TABLE "auto_save".
  split; [done|]. eauto.
Qed.

Lemma GetRecoveryTable_leak cur h :
  leaks 0 h (GetRecoveryTable odbc cur h).2 \/
  leaks 1 h (GetRecoveryTable odbc cur h).2 /\
    (GetRecoveryTable odbc cur h).1 = (TCOPER_RET_FAILURE, cur) /\ bind_fails.
Proof.
  unfold GetRecoveryTable, bind_fails. stmts_solve h RECOVERY_TABLE "database".
  split; [done|]. repeat match goal with
    | H : _ \/ _ |- _ => destruct H; bool_norm
    end; eauto.
Qed.

End Statements.

(** For every database, each call of the handler frees the statement it
    allocated, except that reading a table whose column cannot be bound leaves
    one statement allocated and fails without a result. *)
Theorem statements_balanced {Db} (odbc : Odbc Db) (h : TcDbHandler Db) :
  leaks 0 h (InitDB odbc h).2 /\
  (forall b, leaks 0 h (UpdateConfTable odbc b h).2) /\
  (forall db op i, leaks 0 h (UpdateRecoveryTable odbc db op i h).2) /\
  (forall b, leaks 0 h (GetConfTable odbc b h).2 \/
     leaks 1 h (GetConfTable odbc b h).2 /\
       (GetConfTable odbc b h).1 = (TCOPER_RET_FAILURE, b) /\ bind_fails odbc) /\
  (forall cur, leaks 0 h (GetRecoveryTable odbc cur h).2 \/
     leaks 1 h (GetRecoveryTable odbc cur h).2 /\
       (GetRecoveryTable odbc cur h).1 = (TCOPER_RET_FAILURE, cur) /\ bind_fails odbc).
Proof.
  split_and!; auto using UpdateConfTable_balanced, UpdateRecoveryTable_balanced,
    GetConfTable_leak, GetRecoveryTable_leak.
  unfold InitDB, InitTcDbTables. pose proof (SetDefaultConfTable_balanced odbc h) as H1.
  destruct (SetDefaultConfTable odbc h) as [r h1]. simpl in H1. split_match; [done|].
  pose proof (SetDefaultRecoveryTable_balanced odbc h1) as H2.
  destruct (SetDefaultRecoveryTable odbc h1) as [r2 h2]. unfold leaks in *. simpl in *.
  split_match; simpl; lia.
Qed.

(** ** Numbers in statements *)

(** Check a property of the numbers in a range by computation. *)
Lemma range_check (f : Z -> bool) (lo n : Z) :
  forallb (fun i => f (lo + Z.of_nat i)) (seq 0 (Z.to_nat n)) = true ->
  forall z, lo <= z < lo + n -> f z = true.
Proof.
  intros H z Hz. rewrite forallb_forall in H. specialize (H (Z.to_nat (z - lo))).
  rewrite Z2Nat.id in H by lia. replace (lo + (z - lo)) with z in H by lia.
  apply H, in_seq. lia.
Qed.

Lemma inttostr_small z : 0 <= z < 1000 -> inttostr z = pretty z.
Proof.
  intros Hz. apply String.eqb_eq.
  apply (range_check (fun z => String.eqb (inttostr z) (pretty z)) 0 1000);
    [vm_compute; reflexivity|lia].
Qed.

(** The buffer holds three digits. *)
Lemma inttostr_truncates z : 1000 <= z < 10000 -> inttostr z = pretty (z / 10).
Proof.
  intros Hz. apply String.eqb_eq.
  apply (range_check (fun z => String.eqb (inttostr z) (pretty (z / 10))) 1000 9000);
    [vm_compute; reflexivity|lia].
Qed.

(** ** A database that does what the statements say *)

(** The statements with their numbers written out. *)
Definition sql_update_recovery (a b c : Z) : string :=
  ("UPDATE TC_RECOVERY_TABLE SET database=" +:+ pretty a +:+ ",operation=" +:+ pretty b +:+
   ",failover_instance=" +:+ pretty c +:+
   ",date_time=CURRENT_TIMESTAMP WHERE database >= 0;")%string.
Definition sql_insert_recovery (a b c : Z) : string :=
  ("INSERT INTO " +:+ RECOVERY_TABLE +:+ "(database,operation,failover_instance,date_time)" +:+
   " VALUES(" +:+ pretty a +:+ "," +:+ pretty b +:+ "," +:+ pretty c +:+
   ",CURRENT_TIMESTAMP);")%string.

(** A statement that succeeds and leads to a state where [P] holds. *)
Definition executes {Db} (odbc : Odbc Db) (query : string) (d : Db) (P : Db -> Prop) : Prop :=
  exists ret d', sql_exec_direct odbc query d = (ret, d') /\ sql_ok ret = true /\ P d'.

(** [conf] and [rec] are the row of the configuration table and of the
    recovery table, if there is one. *)
Class SqlLaws {Db} (odbc : Odbc Db) (conf : Db -> option bool) (rec : Db -> option (Z * Z * Z))
    : Prop := {
  sl_alloc : forall d, sql_ok (sql_alloc_stmt odbc d) = true;
  sl_bind : forall d n, sql_ok (sql_bind_col odbc d n) = true;
  sl_select : forall q d,
    q ∈ [row_query SAVE_CONF_TABLE "auto_save"; row_query RECOVERY_TABLE "database";
         conf_select; recovery_select] ->
    executes odbc q d (fun d' => d' = d);
  sl_count_conf : forall d,
    sql_row_count odbc (row_query SAVE_CONF_TABLE "auto_save") d =
      (SQL_SUCCESS, if conf d is Some _ then 1 else 0);
  sl_count_rec : forall d,
    sql_row_count odbc (row_query RECOVERY_TABLE "database") d =
      (SQL_SUCCESS, if rec d is Some _ then 1 else 0);
  sl_fetch_conf : forall d b, conf d = Some b ->
    sql_fetch odbc conf_select d = (SQL_SUCCESS, [CStr (if b then "1" else "0")%string]);
  sl_fetch_rec : forall d a b c, rec d = Some (a, b, c) ->
    sql_fetch odbc recovery_select d = (SQL_SUCCESS, [CInt a; CInt b; CInt c]);
  sl_update_conf : forall d b0 b, conf d = Some b0 ->
    executes odbc (conf_update b) d (fun d' => conf d' = Some b /\ rec d' = rec d);
  sl_insert_conf : forall d, conf d = None ->
    executes odbc conf_insert d (fun d' => conf d' = Some false /\ rec d' = rec d);
  sl_update_rec : forall d a0 b0 c0 a b c, rec d = Some (a0, b0, c0) -> 0 <= a0 ->
    0 <= a < 1000 -> 0 <= b < 1000 -> 0 <= c < 1000 ->
    executes odbc (sql_update_recovery a b c) d
      (fun d' => rec d' = Some (a, b, c) /\ conf d' = conf d);
  sl_insert_rec : forall d a b c, rec d = None ->
    0 <= a < 1000 -> 0 <= b < 1000 -> 0 <= c < 1000 ->
    executes odbc (sql_insert_recovery a b c) d
      (fun d' => rec d' = Some (a, b, c) /\ conf d' = conf d)
}.

Section Laws.

Context {Db : Type} (odbc : Odbc Db).
Context (conf : Db -> option bool) (rec : Db -> option (Z * Z * Z)).
Context `{!SqlLaws odbc conf rec}.
Implicit Type h : TcDbHandler Db.

Lemma alloc_stmt_ok h : alloc_stmt odbc h = (true, set_stmts h (db_stmts h + 1)).
Proof. unfold alloc_stmt. by rewrite sl_alloc. Qed.

Lemma exec_stmt_ok q h P :
  executes odbc q (db_data h) P ->
  exists d', exec_stmt odbc q h = (true, set_data h d') /\ P d'.
Proof.
  intros (r&d'&E&Hr&HP). exists d'. unfold exec_stmt. rewrite E, Hr. done.
Qed.

Lemma free_set_stmts h d : free_stmt (set_data (set_stmts h (db_stmts h + 1)) d) = set_data h d.
Proof. unfold free_stmt, set_stmts, set_data. simpl. f_equal. lia. Qed.

Lemma set_data_same h : set_data h (db_data h) = h.
Proof. by destruct h. Qed.

(** A test for a row changes nothing. *)
Lemma IsRowExists_counts t a n h :
  row_query t a ∈ [row_query SAVE_CONF_TABLE "auto_save"; row_query RECOVERY_TABLE "database";
                   conf_select; recovery_select] ->
  sql_row_count odbc (row_query t a) (db_data h) = (SQL_SUCCESS, n) ->
  IsRowExists odbc t a h =
    (if n ==? 0 then TCOPER_RET_FAILURE else TCOPER_RET_SUCCESS, h).
Proof.
  intros Hq Hn. unfold IsRowExists. rewrite alloc_stmt_ok. cbn [negb].
  destruct (exec_stmt_ok (row_query t a) (set_stmts h (db_stmts h + 1)) _
    (sl_select _ _ Hq)) as (d'&->&->).
  cbn [negb]. cbn [set_stmts set_data db_data]. rewrite Hn.
  change (sql_ok SQL_SUCCESS) with true. cbn [negb].
  change (mkHandler _ _ _ _ _) with (set_data (set_stmts h (db_stmts h + 1)) (db_data h)).
  rewrite free_set_stmts, set_data_same. by destruct (n ==? 0).
Qed.

Lemma conf_row h :
  IsRowExists odbc SAVE_CONF_TABLE "auto_save" h =
    (if conf (db_data h) is Some _ then TCOPER_RET_SUCCESS else TCOPER_RET_FAILURE, h).
Proof.
  erewrite IsRowExists_counts; [|set_solver|apply sl_count_conf].
  by destruct (conf (db_data h)).
Qed.

Lemma rec_row h :
  IsRowExists odbc RECOVERY_TABLE "database" h =
    (if rec (db_data h) is Some _ then TCOPER_RET_SUCCESS else TCOPER_RET_FAILURE, h).
Proof.
  erewrite IsRowExists_counts; [|set_solver|apply sl_count_rec].
  by destruct (rec (db_data h)).
Qed.

Lemma run_stmt q h P :
  executes odbc q (db_data h) P ->
  exists d', exec_stmt odbc q (set_stmts h (db_stmts h + 1)) =
    (true, set_data (set_stmts h (db_stmts h + 1)) d') /\ P d'.
Proof. intros He. by apply exec_stmt_ok. Qed.

(** Writing the recovery table with the numbers as they are printed. *)
Lemma UpdateRecoveryTable_writes db op i a b c h a0 b0 c0 :
  rec (db_data h) = Some (a0, b0, c0) -> 0 <= a0 ->
  ValidateAuditDBAttributes db op = TCOPER_RET_SUCCESS ->
  inttostr db = pretty a -> inttostr op = pretty b -> inttostr i = pretty c ->
  0 <= a < 1000 -> 0 <= b < 1000 -> 0 <= c < 1000 ->
  exists d', UpdateRecoveryTable odbc db op i h = (TCOPER_RET_SUCCESS, set_data h d') /\
    rec d' = Some (a, b, c) /\ conf d' = conf (db_data h).
Proof.
  intros Hrec Ha0 Hv Ea Eb Ec Ha Hb Hc. unfold UpdateRecoveryTable. rewrite rec_row, Hrec.
  rewrite !bool_decide_eq_true_2 by done. cbn [negb]. rewrite alloc_stmt_ok. cbn [negb].
  unfold recovery_update. rewrite Ea, Eb, Ec.
  destruct (run_stmt (sql_update_recovery a b c) h _
    (sl_update_rec _ _ _ _ _ _ _ Hrec Ha0 Ha Hb Hc)) as (d'&E&Hd).
  unfold sql_update_recovery in E. rewrite E. cbn [negb]. rewrite free_set_stmts. eauto.
Qed.

Lemma GetRecoveryTable_reads h a b c cur :
  rec (db_data h) = Some (a, b, c) ->
  GetRecoveryTable odbc cur h = (TCOPER_RET_SUCCESS, (a, b, c), h).
Proof.
  intros Hrec. unfold GetRecoveryTable. rewrite rec_row, Hrec.
  rewrite bool_decide_eq_true_2 by done. cbn [negb]. rewrite alloc_stmt_ok. cbn [negb].
  rewrite !sl_bind. cbn [negb orb].
  destruct (run_stmt recovery_select h (fun d' => d' = db_data h)) as (d'&->&->).
  { apply sl_select. set_solver. }
  cbn [negb set_data set_stmts db_data].
  rewrite (sl_fetch_rec _ _ _ _ Hrec). cbn [lookup list_lookup default cell_int].
  rewrite bool_decide_eq_false_2 by done. cbn [negb].
  change (mkHandler _ _ _ _ _) with (set_data (set_stmts h (db_stmts h + 1)) (db_data h)).
  by rewrite free_set_stmts, set_data_same.
Qed.

Lemma UpdateConfTable_writes b h b0 :
  conf (db_data h) = Some b0 ->
  exists d', UpdateConfTable odbc b h = (TCOPER_RET_SUCCESS, set_data h d') /\
    conf d' = Some b /\ rec d' = rec (db_data h).
Proof.
  intros Hc. unfold UpdateConfTable. rewrite conf_row, Hc.
  rewrite bool_decide_eq_true_2 by done. cbn [negb]. rewrite alloc_stmt_ok. cbn [negb].
  destruct (run_stmt (conf_update b) h _ (sl_update_conf _ _ b Hc)) as (d'&->&Hd).
  cbn [negb]. rewrite free_set_stmts. eauto.
Qed.

Lemma GetConfTable_reads h b cur :
  conf (db_data h) = Some b -> GetConfTable odbc cur h = (TCOPER_RET_SUCCESS, b, h).
Proof.
  intros Hc. unfold GetConfTable. rewrite conf_row, Hc.
  rewrite bool_decide_eq_true_2 by done. cbn [negb]. rewrite alloc_stmt_ok. cbn [negb].
  rewrite !sl_bind. cbn [negb].
  destruct (run_stmt conf_select h (fun d' => d' = db_data h)) as (d'&->&->).
  { apply sl_select. set_solver. }
  cbn [negb set_data set_stmts db_data].
  rewrite (sl_fetch_conf _ _ Hc). cbn [lookup list_lookup default].
  rewrite bool_decide_eq_true_2 by done.
  change (mkHandler _ _ _ _ _) with (set_data (set_stmts h (db_stmts h + 1)) (db_data h)).
  rewrite free_set_stmts, set_data_same. by destruct b.
Qed.

(** The tables exist after initialisation, with their content kept. *)
Lemma SetDefaultConfTable_inits h :
  exists d', SetDefaultConfTable odbc h = (TCOPER_RET_SUCCESS, set_data h d') /\
    conf d' = Some (default false (conf (db_data h))) /\ rec d' = rec (db_data h).
Proof.
  unfold SetDefaultConfTable. rewrite conf_row. destruct (conf (db_data h)) as [b|] eqn:Hc.
  - rewrite bool_decide_eq_false_2 by done. cbn [negb]. exists (db_data h).
    by rewrite set_data_same.
  - rewrite bool_decide_eq_true_2 by done. cbn [negb]. rewrite alloc_stmt_ok. cbn [negb].
    destruct (run_stmt conf_insert h _ (sl_insert_conf _ Hc)) as (d'&->&Hd).
    cbn [negb]. rewrite free_set_stmts. eauto.
Qed.

Lemma SetDefaultRecoveryTable_inits h :
  exists d', SetDefaultRecoveryTable odbc h = (TCOPER_RET_SUCCESS, set_data h d') /\
    rec d' = Some (default (UNC_DT_INVALID, TC_OP_INVALID, 0) (rec (db_data h))) /\
    conf d' = conf (db_data h).
Proof.
  unfold SetDefaultRecoveryTable. rewrite rec_row. destruct (rec (db_data h)) as [r|] eqn:Hc.
  - rewrite bool_decide_eq_false_2 by done. cbn [negb]. exists (db_data h).
    by rewrite set_data_same.
  - rewrite bool_decide_eq_true_2 by done. cbn [negb]. rewrite alloc_stmt_ok. cbn [negb].
    destruct (run_stmt (sql_insert_recovery UNC_DT_INVALID TC_OP_INVALID 0) h _
      (sl_insert_rec _ UNC_DT_INVALID TC_OP_INVALID 0 Hc ltac:(done) ltac:(done) ltac:(done)))
      as (d'&E&Hd).
    unfold recovery_insert. rewrite !inttostr_small by done.
    unfold sql_insert_recovery in E. rewrite E. cbn [negb]. rewrite free_set_stmts. eauto.
Qed.

Lemma InitDB_inits h :
  exists d', InitDB odbc h = (TCOPER_RET_SUCCESS, set_data h d') /\
    conf d' = Some (default false (conf (db_data h))) /\
    rec d' = Some (default (UNC_DT_INVALID, TC_OP_INVALID, 0) (rec (db_data h))).
Proof.
  unfold InitDB, InitTcDbTables.
  destruct (SetDefaultConfTable_inits h) as (d1&->&Hc&Hr).
  rewrite bool_decide_eq_true_2 by done. cbn [negb].
  destruct (SetDefaultRecoveryTable_inits (set_data h d1)) as (d2&->&Hr2&Hc2).
  rewrite bool_decide_eq_true_2 by done. cbn [negb]. exists d2.
  cbn [set_data db_data] in *. split; [by destruct h|]. by rewrite Hr2, Hr, Hc2.
Qed.

End Laws.

(** An operation that may be recorded has a small number. *)
Lemma recordable_small db op :
  ValidateAuditDBAttributes db op = TCOPER_RET_SUCCESS -> 0 <= op < 1000.
Proof.
  unfold ValidateAuditDBAttributes. split_match; [|done]. intros _. bool_norm.
  repeat (apply elem_of_cons in E as [->|E]; [done|]). by apply elem_of_nil in E.
Qed.

(** Once the tables are initialised, what the operations record - the
    database, the operation and a failover count below 1000 - is what a daemon
    that takes over reads back, the auto-save setting is not disturbed, and the
    next record can be made. *)
Theorem recovery_roundtrip {Db} (odbc : Odbc Db) conf rec `{!SqlLaws odbc conf rec}
    (h : TcDbHandler Db) db op i :
  (forall a b c, rec (db_data h) = Some (a, b, c) -> 0 <= a) ->
  ValidateAuditDBAttributes db op = TCOPER_RET_SUCCESS -> 0 <= db < 1000 -> 0 <= i < 1000 ->
  exists h1 h2, InitDB odbc h = (TCOPER_RET_SUCCESS, h1) /\
    UpdateRecoveryTable odbc db op i h1 = (TCOPER_RET_SUCCESS, h2) /\
    (forall cur, GetRecoveryTable odbc cur h2 = (TCOPER_RET_SUCCESS, (db, op, i), h2)) /\
    (forall cur, GetConfTable odbc cur h2 =
       (TCOPER_RET_SUCCESS, default false (conf (db_data h)), h2)) /\
    (forall b, exists h3, UpdateConfTable odbc b h2 = (TCOPER_RET_SUCCESS, h3) /\
       (forall cur, GetConfTable odbc cur h3 = (TCOPER_RET_SUCCESS, b, h3)) /\
       (forall cur, GetRecoveryTable odbc cur h3 = (TCOPER_RET_SUCCESS, (db, op, i), h3))).
Proof.
  intros Hpos Hv Hdb Hi. destruct (InitDB_inits odbc conf rec h) as (d1&E1&Hc1&Hr1).
  exists (set_data h d1). pose proof (recordable_small _ _ Hv) as Hop.
  destruct (default (UNC_DT_INVALID, TC_OP_INVALID, 0) (rec (db_data h)))
    as [[a0 b0] c0] eqn:Er.
  assert (0 <= a0) as Ha0.
  { destruct (rec (db_data h)) as [[[a b] c]|] eqn:E; simpl in Er; simplify_eq; [|done].
    by eapply Hpos. }
  destruct (UpdateRecoveryTable_writes odbc conf rec db op i db op i (set_data h d1) a0 b0 c0)
    as (d2&E2&Hr2&Hc2); auto using inttostr_small.
  exists (set_data (set_data h d1) d2). cbn [set_data db_data] in *.
  split_and!; [done|done| | |].
  - intros cur. by eapply GetRecoveryTable_reads.
  - intros cur. eapply GetConfTable_reads; [done|]. simpl. by rewrite Hc2.
  - intros b. destruct (UpdateConfTable_writes odbc conf rec b
      (set_data (set_data h d1) d2) (default false (conf (db_data h)))) as (d3&E3&Hc3&Hr3).
    { simpl. by rewrite Hc2. }
    eexists. split_and!; [exact E3| |].
    + intros cur. by eapply GetConfTable_reads.
    + intros cur. eapply GetRecoveryTable_reads; [done|]. simpl in *. by rewrite Hr3.
Qed.

(** A failover count of four digits is stored without its last digit. *)
Theorem failover_count_truncated {Db} (odbc : Odbc Db) conf rec `{!SqlLaws odbc conf rec}
    (h : TcDbHandler Db) a0 b0 c0 db op i :
  rec (db_data h) = Some (a0, b0, c0) -> 0 <= a0 ->
  ValidateAuditDBAttributes db op = TCOPER_RET_SUCCESS -> 0 <= db < 1000 ->
  1000 <= i < 10000 ->
  exists h1, UpdateRecoveryTable odbc db op i h = (TCOPER_RET_SUCCESS, h1) /\
    (forall cur, GetRecoveryTable odbc cur h1 = (TCOPER_RET_SUCCESS, (db, op, i / 10), h1)).
Proof.
  intros Hr Ha0 Hv Hdb Hi. pose proof (recordable_small _ _ Hv) as Hop.
  assert (0 <= i / 10 < 1000) as Hi' by (split; [apply Z.div_pos|apply Z.div_lt_upper_bound]; lia).
  destruct (UpdateRecoveryTable_writes odbc conf rec db op i db op (i / 10) h a0 b0 c0)
    as (d2&E2&Hr2&Hc2); auto using inttostr_small, inttostr_truncates.
  eexists. split; [exact E2|]. intros cur. by eapply GetRecoveryTable_reads.
Qed.

(** ** A small database

    Two tables of at most one row; it reads the numbers of the statements that
    change the recovery table. *)
Module Tables.

Record Db := mkDb { conf_of : option bool; rec_of : option (Z * Z * Z) }.

Definition digit (c : ascii) : option Z :=
  let n := Z.of_nat (nat_of_ascii c) in
  if bool_decide (48 <= n) && bool_decide (n <= 57) then Some (n - 48) else None.

Fixpoint read_num (acc : Z) (s : string) : Z * string :=
  match s with
  | EmptyString => (acc, s)
  | String.String c s' =>
      match digit c with Some k => read_num (10 * acc + k) s' | None => (acc, s) end
  end.

(** [s] without the text [p] in front. *)
Fixpoint strip (p s : string) : option string :=
  match p, s with
  | EmptyString, _ => Some s
  | String.String a p', String.String b s' => if a ==? b then strip p' s' else None
  | _, _ => None
  end.

(** A number after the text [p]. *)
Definition num_after (p s : string) : option (Z * string) :=
  match strip p s with Some s' => Some (read_num 0 s') | None => None end.

Definition three (p1 p2 p3 s : string) : option (Z * Z * Z) :=
  match num_after p1 s with
  | None => None
  | Some (a, s1) =>
      match num_after p2 s1 with
      | None => None
      | Some (b, s2) => match num_after p3 s2 with Some (c, _) => Some (a, b, c) | None => None end
      end
  end.

Definition parse_update : string -> option (Z * Z * Z) :=
  three "UPDATE TC_RECOVERY_TABLE SET database=" ",operation=" ",failover_instance=".
Definition parse_insert : string -> option (Z * Z * Z) :=
  three "INSERT INTO TC_RECOVERY_TABLE(database,operation,failover_instance,date_time) VALUES("
    "," ",".

Definition exec (q : string) (d : Db) : Z * Db :=
  if bool_decide (q = conf_insert) then
    (SQL_SUCCESS, if conf_of d is Some _ then d else mkDb (Some false) (rec_of d))
  else if bool_decide (q = conf_update true) then
    (SQL_SUCCESS, if conf_of d is Some _ then mkDb (Some true) (rec_of d) else d)
  else if bool_decide (q = conf_update false) then
    (SQL_SUCCESS, if conf_of d is Some _ then mkDb (Some false) (rec_of d) else d)
  else match parse_update q, rec_of d with
       | Some r, Some (a0, _, _) =>
           (SQL_SUCCESS, if bool_decide (0 <= a0) then mkDb (conf_of d) (Some r) else d)
       | _, _ =>
           match parse_insert q, rec_of d with
           | Some r, None => (SQL_SUCCESS, mkDb (conf_of d) (Some r))
           | _, _ => (SQL_SUCCESS, d)
           end
       end.

Definition odbc : Odbc Db := mkOdbc
  (fun _ => SQL_SUCCESS) (fun _ => SQL_SUCCESS) (fun _ => SQL_SUCCESS) (fun _ _ => SQL_SUCCESS)
  (fun _ => SQL_SUCCESS) (fun _ => SQL_SUCCESS) (fun _ => SQL_SUCCESS) (fun _ => SQL_SUCCESS)
  (fun _ _ => SQL_SUCCESS) exec
  (fun q d => (SQL_SUCCESS,
     if bool_decide (q = row_query SAVE_CONF_TABLE "auto_save")
     then (if conf_of d is Some _ then 1 else 0)
     else (if rec_of d is Some _ then 1 else 0)))
  (fun q d =>
     if bool_decide (q = conf_select) then
       match conf_of d with
       | Some b => (SQL_SUCCESS, [CStr (if b then "1" else "0")%string])
       | None => (SQL_NO_DATA, [])
       end
     else match rec_of d with
          | Some (a, b, c) => (SQL_SUCCESS, [CInt a; CInt b; CInt c])
          | None => (SQL_NO_DATA, [])
          end).

Lemma strip_app p s : strip p (p +:+ s)%string = Some s.
Proof. induction p as [|a p IH]; simpl; [done|]. by rewrite bool_decide_eq_true_2. Qed.

(** The text of a number is read back, up to the next character that is not a
    digit. *)
Fixpoint value (acc : Z) (s : string) : option Z :=
  match s with
  | EmptyString => Some acc
  | String.String c s' => match digit c with Some k => value (10 * acc + k) s' | None => None end
  end.

Lemma read_num_value s r acc n :
  value acc s = Some n -> read_num n r = (n, r) -> read_num acc (s +:+ r)%string = (n, r).
Proof.
  revert acc. induction s as [|c s IH]; simpl; intros acc Hv Hr; [by simplify_eq|].
  destruct (digit c); [by apply IH|done].
Qed.

Definition reads_back (z : Z) : bool := bool_decide (value 0 (pretty z) = Some z).

Lemma value_pretty z : 0 <= z < 1000 -> value 0 (pretty z) = Some z.
Proof.
  intros Hz. assert (reads_back z = true) as Hr.
  { apply (range_check reads_back 0 1000); [vm_compute; reflexivity|lia]. }
  by apply bool_decide_eq_true_1 in Hr.
Qed.

Lemma num_after_pretty p z r :
  0 <= z < 1000 -> read_num z r = (z, r) ->
  num_after p (p +:+ pretty z +:+ r)%string = Some (z, r).
Proof.
  intros Hz Hr. unfold num_after. rewrite strip_app.
  by rewrite (read_num_value _ _ _ z) by auto using value_pretty.
Qed.

Lemma parse_update_ok a b c :
  0 <= a < 1000 -> 0 <= b < 1000 -> 0 <= c < 1000 ->
  parse_update (sql_update_recovery a b c) = Some (a, b, c).
Proof.
  intros Ha Hb Hc. unfold parse_update, three, sql_update_recovery.
  rewrite num_after_pretty by done. rewrite num_after_pretty by done.
  by rewrite num_after_pretty.
Qed.

Lemma parse_insert_ok a b c :
  0 <= a < 1000 -> 0 <= b < 1000 -> 0 <= c < 1000 ->
  parse_insert (sql_insert_recovery a b c) = Some (a, b, c).
Proof.
  intros Ha Hb Hc. unfold parse_insert, three, sql_insert_recovery.
  match goal with |- context [num_after ?p ?q] =>
    change q with (p +:+ pretty a +:+ "," +:+ pretty b +:+ "," +:+ pretty c +:+
      ",CURRENT_TIMESTAMP);")%string end.
  rewrite num_after_pretty by done. rewrite num_after_pretty by done.
  by rewrite num_after_pretty.
Qed.

(** The statements on the two tables are told apart by their first letters. *)
Lemma exec_update a b c d :
  exec (sql_update_recovery a b c) d =
  match parse_update (sql_update_recovery a b c), rec_of d with
  | Some r, Some (a0, _, _) =>
      (SQL_SUCCESS, if bool_decide (0 <= a0) then mkDb (conf_of d) (Some r) else d)
  | _, _ => (SQL_SUCCESS, d)
  end.
Proof. unfold exec. rewrite !bool_decide_eq_false_2 by done. by repeat split_match. Qed.

Lemma exec_insert a b c d :
  exec (sql_insert_recovery a b c) d =
  match parse_insert (sql_insert_recovery a b c), rec_of d with
  | Some r, None => (SQL_SUCCESS, mkDb (conf_of d) (Some r))
  | _, _ => (SQL_SUCCESS, d)
  end.
Proof. unfold exec. rewrite !bool_decide_eq_false_2 by done. by destruct (rec_of d) as [[[]]|]. Qed.

#[global] Instance laws : SqlLaws odbc conf_of rec_of.
Proof.
  constructor; try done.
  - intros q d Hq. exists SQL_SUCCESS, d. split; [|done].
    repeat (apply elem_of_cons in Hq as [->|Hq]; [by destruct d as [? [[[]]|]]|]).
    by apply elem_of_nil in Hq.
  - intros d b Hb. simpl. by rewrite Hb.
  - intros d a b c Hr. simpl. by rewrite Hr.
  - intros d b0 b Hb. exists SQL_SUCCESS. destruct d as [cf rc]. simpl in *. subst cf.
    destruct b; eexists; (split; [reflexivity|done]).
  - intros d Hd. exists SQL_SUCCESS. destruct d as [cf rc]. simpl in *. subst cf.
    eexists; (split; [reflexivity|done]).
  - intros d a0 b0 c0 a b c Hr Ha0 Ha Hb Hc. exists SQL_SUCCESS. simpl.
    rewrite exec_update, parse_update_ok, Hr by done. rewrite bool_decide_eq_true_2 by done.
    eexists; (split; [reflexivity|done]).
  - intros d a b c Hr Ha Hb Hc. exists SQL_SUCCESS. simpl.
    rewrite exec_insert, parse_insert_ok, Hr by done. eexists; (split; [reflexivity|done]).
Qed.

(** A connected handler of the empty database. *)
Definition handler : TcDbHandler Db := TcDbHandler_new odbc "UNC_DB_DSN" (mkDb None None).

End Tables.

Lemma recovery_roundtrip_witness :
  exists h1 h2, InitDB Tables.odbc Tables.handler = (TCOPER_RET_SUCCESS, h1) /\
    UpdateRecoveryTable Tables.odbc UNC_DT_RUNNING TC_OP_CANDIDATE_COMMIT 7 h1 =
      (TCOPER_RET_SUCCESS, h2) /\
    GetRecoveryTable Tables.odbc (0, 0, 0) h2 =
      (TCOPER_RET_SUCCESS, (UNC_DT_RUNNING, TC_OP_CANDIDATE_COMMIT, 7), h2).
Proof.
  destruct (recovery_roundtrip Tables.odbc Tables.conf_of Tables.rec_of Tables.handler
    UNC_DT_RUNNING TC_OP_CANDIDATE_COMMIT 7) as (h1&h2&E1&E2&E3&_);
    [intros; discriminate|vm_compute; reflexivity|vm_compute; split; congruence..|].
  exists h1, h2. split; [exact E1|]. split; [exact E2|]. apply E3.
Defined.

Lemma failover_count_truncated_witness :
  exists h1, UpdateRecoveryTable Tables.odbc UNC_DT_RUNNING TC_OP_CANDIDATE_COMMIT 1234
      (InitDB Tables.odbc Tables.handler).2 = (TCOPER_RET_SUCCESS, h1) /\
    GetRecoveryTable Tables.odbc (0, 0, 0) h1 =
      (TCOPER_RET_SUCCESS, (UNC_DT_RUNNING, TC_OP_CANDIDATE_COMMIT, 123), h1).
Proof.
  destruct (failover_count_truncated Tables.odbc Tables.conf_of Tables.rec_of
    (InitDB Tables.odbc Tables.handler).2 UNC_DT_INVALID TC_OP_INVALID 0
    UNC_DT_RUNNING TC_OP_CANDIDATE_COMMIT 1234) as (h1&E1&E2);
    [vm_compute; reflexivity|vm_compute; congruence|vm_compute; reflexivity
    |vm_compute; split; congruence..|].
  exists h1. split; [exact E1|]. apply E2.
Defined.
