(* ===== verification/TcOperSimple.v ===== *)
(** * Read access, auto save, start-up database and start-up

    The operations [TcReadOperations] ([tc_read_operations.cc]),
    [TcAutoSaveOperations] ([tc_autosave_operations.cc]), [TcDbOperations]
    ([tc_db_operations.cc]) and [TcStartUpOperations]
    ([tc_startup_operations.cc]), each a table of virtual methods over the
    phases of TcOper. *)

From S2P Require Import Prelude TcTypes TcRwLock TcLock TcIpc TcMsg TcServer TcOper.

Local Open Scope Z_scope.

(** ** Read access *)

Module Read.

Record Ext := mkExt {
  read_handle_ : bool;          (* the task queue pointer is not NULL *)
  arg_timeout_ : bool;
  timeout_ : Z
}.
Definition ext_new (read_handle : bool) : Ext := mkExt read_handle false 0.

Definition UNC_READ_OPER_ARG_COUNT_MIN : Z := 2.
Definition UNC_READ_OPER_ARG_COUNT_MAX : Z := 3.
Definition UNC_READ_RELEASE_ARG_COUNT : Z := 2.

Definition HandleLockRet (lock_ret : TcLockRet) : TcOperStatus :=
  match lock_ret with
  | TC_LOCK_INVALID_UNC_STATE | TC_LOCK_OPERATION_NOT_ALLOWED => TC_INVALID_STATE
  | TC_LOCK_BUSY => TC_SYSTEM_BUSY
  | TC_LOCK_INVALID_SESSION_ID => TC_INVALID_SESSION_ID
  | TC_LOCK_ALREADY_ACQUIRED => TC_SESSION_ALREADY_ACTIVE
  | TC_LOCK_NOT_ACQUIRED => TC_SESSION_NOT_ACTIVE
  | _ => TC_OPER_FAILURE
  end.

Section Methods.

Context {D : Type} `{TcDbI D} (S : Setting D).

Definition TcCheckOperArgCount (avail_count : Z) : O D Ext TcOperStatus :=
  op <- base tc_oper_;
  if op ==? TC_OP_READ_ACQUIRE then
    if bool_decide (UNC_READ_OPER_ARG_COUNT_MAX < avail_count) then oret TC_OPER_INVALID_INPUT
    else if avail_count ==? UNC_READ_OPER_ARG_COUNT_MAX then
      set_ext (fun x => mkExt (read_handle_ x) true (timeout_ x));;; oret TC_OPER_SUCCESS
    else oret TC_OPER_SUCCESS
  else if op ==? TC_OP_READ_RELEASE then
    if avail_count !=? UNC_READ_RELEASE_ARG_COUNT then oret TC_OPER_INVALID_INPUT
    else oret TC_OPER_SUCCESS
  else oret TC_OPER_SUCCESS.

Definition TcValidateOperType : O D Ext TcOperStatus :=
  op <- base tc_oper_;
  if (op !=? TC_OP_READ_ACQUIRE) && (op !=? TC_OP_READ_RELEASE)
  then oret TC_INVALID_OPERATION_TYPE else oret TC_OPER_SUCCESS.

Definition TcValidateOperParams : O D Ext TcOperStatus :=
  op <- base tc_oper_;
  arg <- ext arg_timeout_;
  if (op !=? TC_OP_READ_ACQUIRE) || negb arg then oret TC_OPER_SUCCESS
  else
    s <- session;
    read_arg (srv_get_uint32 s TC_REQ_ARG_INDEX) (fun t =>
      set_ext (fun x => mkExt (read_handle_ x) (arg_timeout_ x) t);;;
      q <- ext read_handle_;
      if (op ==? TC_OP_READ_ACQUIRE) && bool_decide (0 < t) && negb q
      then oret TC_OPER_FAILURE else oret TC_OPER_SUCCESS).

Definition TcGetExclusion : O D Ext TcOperStatus :=
  op <- base tc_oper_;
  sid <- base op_session_id;
  if op ==? TC_OP_READ_RELEASE then
    r <- ReleaseLock_do S sid 0 TC_RELEASE_READ_SESSION TC_WRITE_NONE;
    if r !=? TC_LOCK_SUCCESS then oret (HandleLockRet r) else oret TC_OPER_SUCCESS
  else
    r <- (if op ==? TC_OP_READ_ACQUIRE
          then GetLock_do S sid TC_ACQUIRE_READ_SESSION TC_WRITE_NONE
          else oret TC_LOCK_FAILURE);
    if r !=? TC_LOCK_SUCCESS then oret (HandleLockRet r) else oret TC_OPER_SUCCESS.

(** [read_handle_->PostReadTimer(...)], whose timer releases the lock. *)
Definition Execute : O D Ext TcOperStatus :=
  t <- ext timeout_;
  op <- base tc_oper_;
  if (t ==? 0) || (op ==? TC_OP_READ_RELEASE) then oret TC_OPER_SUCCESS
  else
    sid <- base op_session_id;
    fun st =>
      (event (EvTimer sid t);;;
       if e_post (set_the_env S) (st_log st) !=? 0
       then oret TC_OPER_FAILURE else oret TC_OPER_SUCCESS) st.

Definition vtable : Vtable D Ext := mkVtable
  (HandleArgs GetSessionId UNC_READ_OPER_ARG_COUNT_MIN TcValidateOperType
     TcCheckOperArgCount TcValidateOperParams)
  TcGetExclusion
  (oret TC_OPER_SUCCESS)                       (* TcReleaseExclusion *)
  (oret TC_OPER_SUCCESS)                       (* TcCreateMsgList *)
  Execute
  (SendResponse S oret).

Definition Dispatch : O D Ext TcOperStatus := TcOper.Dispatch vtable.

End Methods.

End Read.

(** ** Auto save *)

Module AutoSave.

Definition Ext : Type := bool.                 (* autosave_ *)
Definition ext_new : Ext := false.

Definition UNC_AUTOSAVE_OPER_ARG_COUNT_MIN : Z := 2.
Definition TC_AUTOSAVE_DISABLED : Z := 0.
Definition TC_AUTOSAVE_ENABLED : Z := 1.

Definition HandleLockRet (lock_ret : TcLockRet) : TcOperStatus :=
  match lock_ret with
  | TC_LOCK_INVALID_UNC_STATE | TC_LOCK_OPERATION_NOT_ALLOWED => TC_INVALID_STATE
  | TC_LOCK_BUSY => TC_SYSTEM_BUSY
  | _ => TC_OPER_FAILURE
  end.

Section Methods.

Context {D : Type} `{TcDbI D} (S : Setting D).

Definition SetAutoSave : O D Ext TcOperStatus :=
  a <- ext id;
  r <- respond_uint32 S (if a : bool then TC_AUTOSAVE_ENABLED else TC_AUTOSAVE_DISABLED);
  if r !=? TCUTIL_RET_SUCCESS then oret TC_OPER_FAILURE else oret TC_OPER_SUCCESS.

Definition TcCheckOperArgCount (avail_count : Z) : O D Ext TcOperStatus :=
  if avail_count !=? UNC_AUTOSAVE_OPER_ARG_COUNT_MIN then oret TC_OPER_INVALID_INPUT
  else oret TC_OPER_SUCCESS.

Definition TcValidateOperType : O D Ext TcOperStatus :=
  op <- base tc_oper_;
  if bool_decide (TC_OP_AUTOSAVE_DISABLE < op) || bool_decide (op < TC_OP_AUTOSAVE_GET)
  then oret TC_INVALID_OPERATION_TYPE else oret TC_OPER_SUCCESS.

(** The operation the lock is taken and released with. *)
Definition lock_operation (op : TcServiceType) : TcOperation :=
  if op ==? TC_OP_AUTOSAVE_GET then TC_AUTO_SAVE_GET
  else if op ==? TC_OP_AUTOSAVE_ENABLE then TC_AUTO_SAVE_ENABLE
  else TC_AUTO_SAVE_DISABLE.

Definition TcGetExclusion : O D Ext TcOperStatus :=
  op <- base tc_oper_;
  sid <- base op_session_id;
  r <- GetLock_do S sid (lock_operation op) TC_WRITE_NONE;
  if r !=? TC_LOCK_SUCCESS then oret (HandleLockRet r) else oret TC_OPER_SUCCESS.

Definition TcReleaseExclusion : O D Ext TcOperStatus :=
  op <- base tc_oper_;
  sid <- base op_session_id;
  r <- ReleaseLock_do S sid 0 (lock_operation op) TC_WRITE_NONE;
  if r !=? TC_LOCK_SUCCESS then oret (HandleLockRet r) else oret TC_OPER_SUCCESS.

(** The notification of UPLL and UPPL after the setting changed. *)
Definition notify_change (m : TcMsgOperType) : O D Ext TcOperStatus :=
  o <- create_msg S m;
  match o with
  | None => oret TC_SYSTEM_FAILURE
  | Some msg =>
      q <- execute_msg S msg;
      delete_msg q.2;;;
      if q.1 !=? TCOPER_RET_SUCCESS then oret (HandleMsgRet q.1) else oret TC_OPER_SUCCESS
  end.

(** The setting is stored and then announced. *)
Definition change_to (b : bool) (m : TcMsgOperType) : O D Ext TcOperStatus :=
  set_ext (fun _ => b);;;
  r <- UpdateConfTable_do S b;
  if r !=? TCOPER_RET_SUCCESS then oret TC_OPER_FAILURE else notify_change m.

Definition Execute : O D Ext TcOperStatus :=
  cur <- ext id;
  p <- GetConfTable_do S cur;
  set_ext (fun _ => p.2);;;
  if p.1 !=? TCOPER_RET_SUCCESS then oret TC_OPER_FAILURE
  else
    op <- base tc_oper_;
    autosave <- ext id;
    if op ==? TC_OP_AUTOSAVE_GET then oret TC_OPER_SUCCESS
    else if op ==? TC_OP_AUTOSAVE_ENABLE then
      if autosave : bool then oret TC_OPER_SUCCESS else change_to true MSG_AUTOSAVE_ENABLE
    else if op ==? TC_OP_AUTOSAVE_DISABLE then
      if autosave then change_to false MSG_AUTOSAVE_DISABLE else oret TC_OPER_SUCCESS
    else oret TC_OPER_FAILURE.

Definition SendAdditionalResponse (oper_stat : TcOperStatus) : O D Ext TcOperStatus :=
  r <- SetAutoSave;
  if r !=? TC_OPER_SUCCESS then oret TC_OPER_FAILURE else oret oper_stat.

Definition vtable : Vtable D Ext := mkVtable
  (HandleArgs GetSessionId UNC_AUTOSAVE_OPER_ARG_COUNT_MIN TcValidateOperType
     TcCheckOperArgCount (oret TC_OPER_SUCCESS))
  TcGetExclusion
  TcReleaseExclusion
  (oret TC_OPER_SUCCESS)                       (* TcCreateMsgList *)
  Execute
  (SendResponse S SendAdditionalResponse).

Definition Dispatch : O D Ext TcOperStatus := TcOper.Dispatch vtable.

End Methods.

End AutoSave.

(** ** Saving and clearing the start-up configuration *)

Module DbOper.

Definition Ext : Type := unit.

Definition UNC_DB_OPER_ARG_COUNT_MIN : Z := 2.

Definition HandleLockRet (lock_ret : TcLockRet) : TcOperStatus :=
  match lock_ret with
  | TC_LOCK_INVALID_UNC_STATE | TC_LOCK_OPERATION_NOT_ALLOWED => TC_INVALID_STATE
  | TC_LOCK_BUSY => TC_SYSTEM_BUSY
  | _ => TC_OPER_FAILURE
  end.

Definition HandleMsgRet (MsgRet : TcOperRet) : TcOperStatus :=
  match MsgRet with
  | TCOPER_RET_FATAL | TCOPER_RET_FAILURE => TC_SYSTEM_FAILURE
  | TCOPER_RET_ABORT => TC_OPER_ABORT
  | _ => TC_OPER_SUCCESS
  end.

Section Methods.

Context {D : Type} `{TcDbI D} (S : Setting D).

Definition TcCheckOperArgCount (avail_count : Z) : O D Ext TcOperStatus :=
  if avail_count !=? UNC_DB_OPER_ARG_COUNT_MIN then oret TC_OPER_INVALID_INPUT
  else oret TC_OPER_SUCCESS.

Definition TcValidateOperType : O D Ext TcOperStatus :=
  op <- base tc_oper_;
  if (op !=? TC_OP_RUNNING_SAVE) && (op !=? TC_OP_CLEAR_STARTUP)
  then oret TC_INVALID_OPERATION_TYPE
  else
    s <- session;
    if set_srv_timeout (set_srv_ipc S) s ==? TCUTIL_RET_FAILURE then oret TC_OPER_FAILURE
    else oret TC_OPER_SUCCESS.

Definition write_operation (op : TcServiceType) : TcWriteOperation :=
  if op ==? TC_OP_RUNNING_SAVE then TC_SAVE_STARTUP_CONFIG else TC_CLEAR_STARTUP_CONFIG.

Definition TcGetExclusion : O D Ext TcOperStatus :=
  op <- base tc_oper_;
  sid <- base op_session_id;
  r <- GetLock_do S sid TC_ACQUIRE_WRITE_SESSION (write_operation op);
  if r !=? TC_LOCK_SUCCESS then oret (HandleLockRet r) else oret TC_OPER_SUCCESS.

Definition TcReleaseExclusion : O D Ext TcOperStatus :=
  op <- base tc_oper_;
  sid <- base op_session_id;
  r <- ReleaseLock_do S sid 0 TC_RELEASE_WRITE_SESSION (write_operation op);
  if r !=? TC_LOCK_SUCCESS then oret (HandleLockRet r) else oret TC_OPER_SUCCESS.

Definition TcCreateMsgList : O D Ext TcOperStatus :=
  op <- base tc_oper_;
  r <- UpdateRecoveryTable_do S UNC_DT_STARTUP
         (if op ==? TC_OP_RUNNING_SAVE then TC_OP_RUNNING_SAVE else TC_OP_CLEAR_STARTUP);
  if r !=? TCOPER_RET_SUCCESS then oret TC_OPER_FAILURE
  else
    l <- base TcOperMessageList;
    match l with
    | [] =>
        push_msg (if op ==? TC_OP_RUNNING_SAVE then MSG_SAVE_CONFIG else MSG_CLEAR_CONFIG);;;
        oret TC_OPER_SUCCESS
    | _ => oret TC_OPER_FAILURE
    end.

Definition FillTcMsgData (o : MsgObj) (m : TcMsgOperType) : O D Ext (TcOperStatus * MsgObj) :=
  oret (TC_OPER_SUCCESS, o).

Definition SendAdditionalResponse (oper_stat : TcOperStatus) : O D Ext TcOperStatus :=
  if oper_stat ==? TC_OPER_SUCCESS then
    r <- UpdateRecoveryTable_do S UNC_DT_INVALID TC_OP_INVALID;
    if r !=? TCOPER_RET_SUCCESS then oret TC_OPER_FAILURE else oret TC_OPER_SUCCESS
  else oret oper_stat.

Definition vtable : Vtable D Ext := mkVtable
  (HandleArgs GetSessionId UNC_DB_OPER_ARG_COUNT_MIN TcValidateOperType
     TcCheckOperArgCount (oret TC_OPER_SUCCESS))
  TcGetExclusion
  TcReleaseExclusion
  TcCreateMsgList
  (Execute S FillTcMsgData HandleMsgRet)
  (SendResponse S SendAdditionalResponse).

(** The class has a [Dispatch] of its own: with auto save enabled there is
    nothing to save, and the start-up configuration may not be cleared. *)
Definition Dispatch : O D Ext TcOperStatus :=
  set_phase INPUT_VALIDATION;;;
  or_revoke vtable (v_HandleArgs vtable) (
  p <- GetConfTable_do S false;
  if p.1 ==? TCOPER_RET_FAILURE then oret TC_OPER_FAILURE
  else
    op <- base tc_oper_;
    if p.2 : bool then
      if op ==? TC_OP_RUNNING_SAVE then v_SendResponse vtable TC_OPER_SUCCESS
      else if op ==? TC_OP_CLEAR_STARTUP then RevokeOperation vtable TC_OPER_FORBIDDEN
      else run_phases vtable
    else run_phases vtable).

End Methods.

End DbOper.

(** ** Start-up of the daemon *)

Module StartUp.

Record Ext := mkExt {
  is_switch_ : bool;
  fail_oper_ : TcServiceType;
  database_type_ : Z
}.
Definition ext_new (is_switch : bool) : Ext := mkExt is_switch TC_OP_INVALID UNC_DT_INVALID.

Section Methods.

Context {D : Type} `{TcDbI D} (S : Setting D).

Definition HandleArgs : O D Ext TcOperStatus :=
  sw <- ext is_switch_;
  if negb sw then oret TC_OPER_SUCCESS
  else
    x <- ext id;
    p <- GetRecoveryTable_do S (database_type_ x, fail_oper_ x, 0);
    set_ext (fun x => mkExt (is_switch_ x) p.2.1.2 p.2.1.1);;;
    if p.1 !=? TCOPER_RET_SUCCESS then oret TC_OPER_FAILURE else oret TC_OPER_SUCCESS.

Definition TcCreateMsgList : O D Ext TcOperStatus :=
  l <- base TcOperMessageList;
  match l with
  | [] =>
      x <- ext id;
      (if negb (is_switch_ x) then push_msg MSG_SETUP
       else if (database_type_ x !=? UNC_DT_INVALID) && (fail_oper_ x !=? TC_OP_INVALID)
       then push_msg MSG_AUDITDB
       else oret tt);;;
      push_msg MSG_SETUP_COMPLETE;;;
      oret TC_OPER_SUCCESS
  | _ => oret TC_OPER_FAILURE
  end.

(** The daemon becomes active before SETUP_COMPLETE is sent. *)
Definition FillTcMsgData (o : MsgObj) (m : TcMsgOperType) : O D Ext (TcOperStatus * MsgObj) :=
  (if m ==? MSG_SETUP_COMPLETE then lock_do S (OpUpdateState TC_ACT);;; oret tt
   else oret tt);;;
  p <- GetConfTable_do S false;
  if p.1 ==? TCOPER_RET_FAILURE then oret (TC_OPER_FAILURE, o)
  else
    x <- ext id;
    let o1 := SetData_autosave p.2 o in
    oret (TC_OPER_SUCCESS,
          if m ==? MSG_AUDITDB then SetData_audit_db (database_type_ x) (fail_oper_ x) o1
          else o1).

Definition SendResponse (ret_ : TcOperStatus) : O D Ext TcOperStatus :=
  if ret_ ==? TC_OPER_SUCCESS then
    r <- UpdateRecoveryTable_do S UNC_DT_INVALID TC_OP_INVALID;
    if r !=? TCOPER_RET_SUCCESS then oret TC_SYSTEM_FAILURE else oret ret_
  else oret ret_.

Definition vtable : Vtable D Ext := mkVtable
  HandleArgs
  (oret TC_OPER_SUCCESS)                       (* TcGetExclusion *)
  (oret TC_OPER_SUCCESS)                       (* TcReleaseExclusion *)
  TcCreateMsgList
  (Execute S FillTcMsgData HandleMsgRet)
  SendResponse.

Definition Dispatch : O D Ext TcOperStatus := TcOper.Dispatch vtable.

End Methods.

End StartUp.
