(* ===== verification/TcOperConfig.v ===== *)
(** * The configuration session

    [TcConfigOperations] of [modules/tc/tc_config_operations.cc]: acquiring
    the configuration session (at once, by force, or waiting for a while in a
    queue) and releasing it.  The queue, the availability flag and the flag of
    a change to standby are static members, so they are shared; each has a
    mutex of its own. *)

From S2P Require Import Prelude TcTypes TcRwLock TcLock TcIpc TcMsg TcServer TcOper.

Local Open Scope Z_scope.

Module Config.

Record Ext := mkExt {
  this : Z;                 (* identity of the object *)
  config_id_ : Z;
  timeout_ : Z
}.
Definition ext_new (this : Z) : Ext := mkExt this 0 0.

Definition UNC_CONFIG_OPER_ARG_COUNT_MIN : Z := 2.
Definition UNC_CONFIG_ACQUIRE_ARG_COUNT : Z := 2.
Definition UNC_CONFIG_RELEASE_ARG_COUNT : Z := 3.
Definition UNC_CONFIG_ACQUIRE_TIMED_ARG_COUNT : Z := 3.

(** ** The queue *)

(** [push_back(this)], after the condition variable was created. *)
Definition InsertConfigRequest (this sid : Z) (c : ConfigStatics) : ConfigStatics :=
  mkStatics (config_mode_available_ c) (config_req_queue_ c ++ [mkReq this sid true])
    (state_changed_to_sby_ c).

(** The first entry of the session goes. *)
Fixpoint remove_request (sid : Z) (q : list ConfigRequest) : list ConfigRequest :=
  match q with
  | [] => []
  | r :: q' => if rq_session r ==? sid then q' else r :: remove_request sid q'
  end.

Definition RemoveConfigRequest (sid : Z) (c : ConfigStatics) : ConfigStatics :=
  mkStatics (config_mode_available_ c) (remove_request sid (config_req_queue_ c))
    (state_changed_to_sby_ c).

Definition RetrieveConfigRequest (c : ConfigStatics) : option ConfigRequest :=
  head (config_req_queue_ c).

Definition IsConfigReqQueueEmpty (c : ConfigStatics) : bool :=
  if config_req_queue_ c is [] then true else false.

Definition IsConfigAcquireAllowed (c : ConfigStatics) : bool :=
  bool_decide (length (config_req_queue_ c) <= 1)%nat.

Definition SetConfigModeAvailability (status : bool) (c : ConfigStatics) : ConfigStatics :=
  mkStatics status (config_req_queue_ c) (state_changed_to_sby_ c).

Definition SetStateChangedToSby (state : bool) (c : ConfigStatics) : ConfigStatics :=
  mkStatics (config_mode_available_ c) (config_req_queue_ c) state.

(** [delete cond_var_; cond_var_ = NULL] *)
Definition delete_cond (this : Z) (c : ConfigStatics) : ConfigStatics :=
  mkStatics (config_mode_available_ c)
    (map (fun r => if rq_this r ==? this then mkReq (rq_this r) (rq_session r) false else r)
       (config_req_queue_ c))
    (state_changed_to_sby_ c).

(** Every waiting request that has a condition variable is signalled, and the
    queue is empty afterwards. *)
Definition ClearConfigAcquisitionQueue (c : ConfigStatics) : list Z * ConfigStatics :=
  (map rq_session (List.filter rq_cond (config_req_queue_ c)),
   mkStatics (config_mode_available_ c) [] (state_changed_to_sby_ c)).

Definition HandleLockRet (lock_ret : TcLockRet) : TcOperStatus :=
  match lock_ret with
  | TC_LOCK_INVALID_UNC_STATE | TC_LOCK_OPERATION_NOT_ALLOWED => TC_INVALID_STATE
  | TC_LOCK_BUSY => TC_SYSTEM_BUSY
  | TC_LOCK_INVALID_SESSION_ID => TC_INVALID_SESSION_ID
  | TC_LOCK_INVALID_CONFIG_ID => TC_INVALID_CONFIG_ID
  | TC_LOCK_NOT_ACQUIRED | TC_LOCK_NO_CONFIG_SESSION_EXIST => TC_CONFIG_NOT_PRESENT
  | _ => TC_OPER_FAILURE
  end.

Section Methods.

Context {D : Type} `{TcDbI D} (S : Setting D).

(** An access to the static members. *)
Definition statics {A} (f : ConfigStatics -> A * ConfigStatics) : O D Ext A :=
  sh <- interfere S;
  let '(a, c) := f (sh_conf sh) in
  put_shared (mkShared (sh_lock sh) c (sh_db sh));;; oret a.
Definition look {A} (f : ConfigStatics -> A) : O D Ext A := statics (fun c => (f c, c)).
Definition change (f : ConfigStatics -> ConfigStatics) : O D Ext unit := statics (fun c => (tt, f c)).

Definition SetConfigId : O D Ext TcOperStatus :=
  cid <- ext config_id_;
  r <- respond_uint32 S cid;
  if r !=? TCUTIL_RET_SUCCESS then oret TC_OPER_FAILURE else oret TC_OPER_SUCCESS.

Definition TcCheckOperArgCount (avail_count : Z) : O D Ext TcOperStatus :=
  op <- base tc_oper_;
  let expect n := if avail_count !=? n then oret TC_OPER_INVALID_INPUT
                  else oret TC_OPER_SUCCESS in
  if (op ==? TC_OP_CONFIG_ACQUIRE) || (op ==? TC_OP_CONFIG_ACQUIRE_FORCE)
  then expect UNC_CONFIG_ACQUIRE_ARG_COUNT
  else if op ==? TC_OP_CONFIG_RELEASE then expect UNC_CONFIG_RELEASE_ARG_COUNT
  else if op ==? TC_OP_CONFIG_ACQUIRE_TIMED then expect UNC_CONFIG_ACQUIRE_TIMED_ARG_COUNT
  else oret TC_OPER_SUCCESS.

(** [TcServiceType] is unsigned, so nothing is below TC_OP_CONFIG_ACQUIRE. *)
Definition TcValidateOperType : O D Ext TcOperStatus :=
  op <- base tc_oper_;
  if bool_decide (op < TC_OP_CONFIG_ACQUIRE) || bool_decide (TC_OP_CONFIG_ACQUIRE_FORCE < op)
  then oret TC_INVALID_OPERATION_TYPE else oret TC_OPER_SUCCESS.

Definition TcValidateOperParams : O D Ext TcOperStatus :=
  op <- base tc_oper_;
  s <- session;
  if op ==? TC_OP_CONFIG_RELEASE then
    read_arg (srv_get_uint32 s TC_REQ_ARG_INDEX) (fun cid =>
      set_ext (fun x => mkExt (this x) cid (timeout_ x));;;
      p <- ask S GetConfigIdSessionId;
      if p.1 !=? TC_LOCK_SUCCESS then oret (HandleLockRet p.1)
      else
        sid <- base op_session_id;
        let '(validate_session_id, validate_config_id) := default (0, 0) p.2 in
        if validate_session_id !=? sid then oret TC_INVALID_SESSION_ID
        else if validate_config_id !=? cid then oret TC_INVALID_CONFIG_ID
        else oret TC_OPER_SUCCESS)
  else if op ==? TC_OP_CONFIG_ACQUIRE_TIMED then
    read_arg (srv_get_int32 s TC_REQ_ARG_INDEX) (fun t =>
      set_ext (fun x => mkExt (this x) (config_id_ x) t);;; oret TC_OPER_SUCCESS)
  else oret TC_OPER_SUCCESS.

Definition TcGetExclusion : O D Ext TcOperStatus :=
  op <- base tc_oper_;
  sid <- base op_session_id;
  cid <- ext config_id_;
  r <- (if op ==? TC_OP_CONFIG_RELEASE
        then ReleaseLock_do S sid cid TC_RELEASE_CONFIG_SESSION TC_WRITE_NONE
        else if (op ==? TC_OP_CONFIG_ACQUIRE) || (op ==? TC_OP_CONFIG_ACQUIRE_TIMED)
        then GetLock_do S sid TC_ACQUIRE_CONFIG_SESSION TC_WRITE_NONE
        else GetLock_do S sid TC_FORCE_ACQUIRE_CONFIG_SESSION TC_WRITE_NONE);
  if r !=? TC_LOCK_SUCCESS then oret (HandleLockRet r) else oret TC_OPER_SUCCESS.

Definition TcReleaseExclusion : O D Ext TcOperStatus :=
  op <- base tc_oper_;
  sid <- base op_session_id;
  cid <- ext config_id_;
  r <- lock_do S (OpNotifyDone cid sid
         (if op ==? TC_OP_CONFIG_RELEASE then TC_NOTIFY_RELEASE else TC_NOTIFY_ACQUIRE));
  if r !=? TC_LOCK_SUCCESS then oret (HandleLockRet r) else oret TC_OPER_SUCCESS.

Definition TcCreateMsgList : O D Ext TcOperStatus :=
  l <- base TcOperMessageList;
  match l with
  | [] => push_msg MSG_NOTIFY_CONFIGID;;; oret TC_OPER_SUCCESS
  | _ => oret TC_OPER_FAILURE
  end.

(** [GetConfigIdSessionId(&session_id_, &config_id_)], its result ignored. *)
Definition FillTcMsgData (o : MsgObj) (m : TcMsgOperType) : O D Ext (TcOperStatus * MsgObj) :=
  op <- base tc_oper_;
  if op !=? TC_OP_CONFIG_RELEASE then
    p <- ask S GetConfigIdSessionId;
    (match p.2 with
     | Some (s, c) =>
         set_session_id s;;; set_ext (fun x => mkExt (this x) c (timeout_ x))
     | None => oret tt
     end);;;
    cid <- ext config_id_;
    oret (TC_OPER_SUCCESS, SetData_config cid EmptyString UNC_CT_UNKNOWN o)
  else oret (TC_OPER_SUCCESS, SetData_config 0 EmptyString UNC_CT_UNKNOWN o).

Definition SendAdditionalResponse (oper_stat : TcOperStatus) : O D Ext TcOperStatus :=
  op <- base tc_oper_;
  if (op !=? TC_OP_CONFIG_RELEASE) && (oper_stat ==? TC_OPER_SUCCESS) then
    r <- SetConfigId;
    if r !=? TC_OPER_SUCCESS then oret r else oret oper_stat
  else oret oper_stat.

Definition vtable : Vtable D Ext := mkVtable
  (HandleArgs GetSessionId UNC_CONFIG_OPER_ARG_COUNT_MIN TcValidateOperType
     TcCheckOperArgCount TcValidateOperParams)
  TcGetExclusion
  TcReleaseExclusion
  TcCreateMsgList
  (Execute S FillTcMsgData HandleMsgRet)
  (SendResponse S SendAdditionalResponse).

(** [SetConfigModeAvailability(PFC_FALSE)] once the lock is taken. *)
Definition acquire_mode : O D Ext TcOperStatus :=
  set_phase GET_EXCLUSION_PHASE;;;
  and_then TcGetExclusion (
  change (SetConfigModeAvailability false);;; oret TC_OPER_SUCCESS).

(** The tail of [HandleTimedConfigAcquisition], after the wait. *)
Definition acquire_after_wait : O D Ext TcOperStatus :=
  me <- ext this;
  sid <- base op_session_id;
  change (delete_cond me);;;
  set_phase GET_EXCLUSION_PHASE;;;
  r <- TcGetExclusion;
  if r !=? TC_OPER_SUCCESS then change (RemoveConfigRequest sid);;; oret r
  else
    change (SetConfigModeAvailability false);;;
    change (RemoveConfigRequest sid);;;
    oret TC_OPER_SUCCESS.

(** [pthread_cond_wait] or [pthread_cond_timedwait]; the result is theirs. *)
Definition cond_wait : O D Ext Z := fun st =>
  match e_cond (set_the_env S) (st_log st) (st_shared st) with
  | None => None
  | Some (r, sh) => (put_shared sh;;; oret r) st
  end.

(** Without a wait the queue's mutex is still held when the change to standby
    is noticed, and locking it again blocks for ever. *)
Definition HandleTimedConfigAcquisition : O D Ext TcOperStatus :=
  t <- ext timeout_;
  if t ==? 0 then
    available <- look config_mode_available_;
    if available : bool then acquire_mode else oret TC_SYSTEM_BUSY
  else
    me <- ext this;
    sid <- base op_session_id;
    change (InsertConfigRequest me sid);;;
    available <- look config_mode_available_;
    allowed <- look IsConfigAcquireAllowed;
    if negb available || negb allowed then
      pthread_ret <- cond_wait;
      if pthread_ret !=? 0 then
        change (fun c => delete_cond me (RemoveConfigRequest sid c));;; oret TC_SYSTEM_BUSY
      else
        sby <- look state_changed_to_sby_;
        if sby : bool then change (delete_cond me);;; oret TC_STATE_CHANGED
        else acquire_after_wait
    else
      sby <- look state_changed_to_sby_;
      if sby : bool then (fun _ => None) else acquire_after_wait.

(** The session is free again: the first waiting request is signalled. *)
Definition HandleConfigRelease : O D Ext unit :=
  r <- statics (fun c => (RetrieveConfigRequest c, SetConfigModeAvailability true c));
  match r with
  | Some rq => if rq_cond rq then event (EvSignal (rq_session rq)) else oret tt
  | None => oret tt
  end.

(** From the collection of the messages on. *)
Definition notify_phases : O D Ext TcOperStatus :=
  set_phase CREATE_MSG_LIST;;;
  or_revoke vtable TcCreateMsgList (
  set_phase EXECUTE_PHASE;;;
  or_revoke vtable (v_Execute vtable) (
  set_phase RELEASE_EXCLUSION_PHASE;;;
  or_revoke vtable TcReleaseExclusion (
  op <- base tc_oper_;
  (if op ==? TC_OP_CONFIG_RELEASE then HandleConfigRelease else oret tt);;;
  v_SendResponse vtable TC_OPER_SUCCESS))).

(** Setting the timeout of the server session is only logged when it fails. *)
Definition Dispatch : O D Ext TcOperStatus :=
  set_phase INPUT_VALIDATION;;;
  or_revoke vtable (v_HandleArgs vtable) (
  op <- base tc_oper_;
  waiting <- (if op ==? TC_OP_CONFIG_ACQUIRE
              then empty <- look IsConfigReqQueueEmpty; oret (negb empty) else oret false);
  if waiting : bool then RevokeOperation vtable TC_SYSTEM_BUSY
  else if op ==? TC_OP_CONFIG_ACQUIRE_TIMED then
    or_revoke vtable HandleTimedConfigAcquisition notify_phases
  else
    set_phase GET_EXCLUSION_PHASE;;;
    or_revoke vtable TcGetExclusion (
    (if (op ==? TC_OP_CONFIG_ACQUIRE) || (op ==? TC_OP_CONFIG_ACQUIRE_FORCE)
     then change (SetConfigModeAvailability false) else oret tt);;;
    notify_phases)).

End Methods.

End Config.
