(* ===== verification/TcOperCandidate.v ===== *)
(** * Commit and abort of the candidate configuration

    [TcCandidateOperations] of [modules/tc/tc_candidate_operations.cc]: the
    sequence transaction start, vote, global commit, transaction end under the
    write lock, with the recovery table telling which database an interrupted
    operation may have left inconsistent. *)

From S2P Require Import Prelude TcTypes TcRwLock TcLock TcIpc TcMsg TcServer TcOper.
From S2P Require Import TcOperConfig.

Local Open Scope Z_scope.

Module Candidate.

Record Ext := mkExt {
  config_id_ : Z;
  resp_tc_msg_ : option MsgObj;
  trans_result_ : TcTransEndResult;
  autosave_enabled_ : bool;
  user_response_ : TcOperStatus
}.
Definition ext_new : Ext := mkExt 0 None TRANS_END_FAILURE false TC_OPER_SUCCESS.

Definition with_config_id (v : Z) (x : Ext) : Ext :=
  mkExt v (resp_tc_msg_ x) (trans_result_ x) (autosave_enabled_ x) (user_response_ x).
Definition with_resp (v : option MsgObj) (x : Ext) : Ext :=
  mkExt (config_id_ x) v (trans_result_ x) (autosave_enabled_ x) (user_response_ x).
Definition with_trans (v : TcTransEndResult) (x : Ext) : Ext :=
  mkExt (config_id_ x) (resp_tc_msg_ x) v (autosave_enabled_ x) (user_response_ x).
Definition with_autosave (v : bool) (x : Ext) : Ext :=
  mkExt (config_id_ x) (resp_tc_msg_ x) (trans_result_ x) v (user_response_ x).
Definition with_response (v : TcOperStatus) (x : Ext) : Ext :=
  mkExt (config_id_ x) (resp_tc_msg_ x) (trans_result_ x) (autosave_enabled_ x) v.

Definition UNC_CANDIDATE_OPS_ARG_COUNT : Z := 3.

Definition HandleLockRet (lock_ret : TcLockRet) : TcOperStatus :=
  match lock_ret with
  | TC_LOCK_INVALID_UNC_STATE | TC_LOCK_OPERATION_NOT_ALLOWED => TC_INVALID_STATE
  | TC_LOCK_BUSY => TC_SYSTEM_BUSY
  | TC_LOCK_NO_CONFIG_SESSION_EXIST => TC_CONFIG_NOT_PRESENT
  | _ => TC_OPER_FAILURE
  end.

Section Methods.

Context {D : Type} `{TcDbI D} (S : Setting D).
(** Identity and uninitialised member of the configuration operation that the
    release of a marked session creates. *)
Context (this : Z) (garbage : bool).

Definition TcCheckOperArgCount (avail_count : Z) : O D Ext TcOperStatus :=
  if avail_count !=? UNC_CANDIDATE_OPS_ARG_COUNT then oret TC_OPER_INVALID_INPUT
  else oret TC_OPER_SUCCESS.

Definition TcValidateOperType : O D Ext TcOperStatus :=
  op <- base tc_oper_;
  if (op !=? TC_OP_CANDIDATE_ABORT) && (op !=? TC_OP_CANDIDATE_COMMIT)
  then oret TC_INVALID_OPERATION_TYPE
  else
    s <- session;
    if set_srv_timeout (set_srv_ipc S) s ==? TCUTIL_RET_FAILURE then oret TC_OPER_FAILURE
    else oret TC_OPER_SUCCESS.

Definition TcValidateOperParams : O D Ext TcOperStatus :=
  s <- session;
  match srv_get_uint32 s TC_REQ_ARG_INDEX with
  | (TCUTIL_RET_SUCCESS, Some cid) =>
      set_ext (with_config_id cid);;;
      p <- ask S GetConfigIdSessionId;
      if p.1 !=? TC_LOCK_SUCCESS then oret (HandleLockRet p.1)
      else
        sid <- base op_session_id;
        let '(validate_session_id, validate_config_id) := default (0, 0) p.2 in
        if validate_session_id !=? sid then oret TC_INVALID_SESSION_ID
        else if validate_config_id !=? cid then oret TC_INVALID_CONFIG_ID
        else oret TC_OPER_SUCCESS
  | _ => oret TC_OPER_FAILURE
  end.

Definition write_operation (op : TcServiceType) : TcWriteOperation :=
  if op ==? TC_OP_CANDIDATE_COMMIT then TC_COMMIT else TC_ABORT_CANDIDATE_CONFIG.

Definition TcGetExclusion : O D Ext TcOperStatus :=
  op <- base tc_oper_;
  sid <- base op_session_id;
  r <- GetLock_do S sid TC_ACQUIRE_WRITE_SESSION (write_operation op);
  if r !=? TC_LOCK_SUCCESS then oret (HandleLockRet r) else oret TC_OPER_SUCCESS.

(** The release of the configuration session by a [TcConfigOperations] object
    of its own, which shares the objects and sends messages. *)
Definition release_config (sid cid : Z) : O D Ext TcOperStatus :=
  p <- with_object (mkBase sid TC_OP_CONFIG_RELEASE [] INPUT_VALIDATION garbage)
         (Config.mkExt this cid 0) None (Config.Dispatch S);
  oret p.1.

(** A session that ended during the operation is released with it. *)
Definition TcReleaseExclusion : O D Ext TcOperStatus :=
  op <- base tc_oper_;
  sid <- base op_session_id;
  cid <- ext config_id_;
  r <- ReleaseLock_do S sid cid TC_RELEASE_WRITE_SESSION (write_operation op);
  if r !=? TC_LOCK_SUCCESS then oret (HandleLockRet r)
  else
    marked <- ask S GetMarkedSessionId;
    if marked !=? sid then oret TC_OPER_SUCCESS else release_config sid cid.

Definition TcCreateMsgList : O D Ext TcOperStatus :=
  cur <- ext autosave_enabled_;
  p <- GetConfTable_do S cur;
  set_ext (with_autosave p.2);;;
  l <- base TcOperMessageList;
  op <- base tc_oper_;
  (match l with
   | [] => if op ==? TC_OP_CANDIDATE_ABORT then push_msg MSG_ABORT_CANDIDATE else oret tt
   | _ => oret tt
   end);;;
  oret TC_OPER_SUCCESS.

Definition FillTcMsgData (o : MsgObj) (m : TcMsgOperType) : O D Ext (TcOperStatus * MsgObj) :=
  x <- ext id;
  let o1 := SetData_config (config_id_ x) EmptyString UNC_CT_UNKNOWN o in
  oret (TC_OPER_SUCCESS,
        if m ==? MSG_COMMIT_TRANS_END
        then with_msg (fun d => (SetTransResult (trans_result_ x) d).2) o1 else o1).

(** Create, fill and execute a message of the protocol; [PFC_VERIFY] is
    compiled out, and the factory knows all of them. *)
Definition send_msg (m : TcMsgOperType) : O D Ext (TcOperRet * MsgObj) :=
  o <- create_msg S m;
  match o with
  | None => (fun _ => None)
  | Some msg => p <- FillTcMsgData msg m; execute_msg S p.2
  end.

Definition TransStartMsg : O D Ext bool :=
  q <- send_msg MSG_COMMIT_TRANS_START;
  if q.1 !=? TCOPER_RET_SUCCESS then
    set_ext (with_response (HandleMsgRet q.1));;; set_ext (with_resp (Some q.2));;; oret false
  else delete_msg q.2;;; oret true.

Definition TransEndMsg : O D Ext bool :=
  q <- send_msg MSG_COMMIT_TRANS_END;
  if q.1 !=? TCOPER_RET_SUCCESS then
    set_ext (with_response TC_SYSTEM_FAILURE);;; delete_msg q.2;;; oret false
  else delete_msg q.2;;; oret true.

(** A vote that failed, but not fatally, still ends the transaction. *)
Definition TransVoteMsg : O D Ext bool :=
  q <- send_msg MSG_COMMIT_VOTE;
  if q.1 !=? TCOPER_RET_SUCCESS then
    if q.1 ==? TCOPER_RET_FATAL then
      set_ext (with_response (HandleMsgRet q.1));;; set_ext (with_resp (Some q.2));;; oret false
    else
      ended <- TransEndMsg;
      if ended : bool then
        set_ext (with_response (HandleMsgRet q.1));;; set_ext (with_resp (Some q.2));;;
        oret false
      else delete_msg q.2;;; oret false
  else delete_msg q.2;;; oret true.

Definition TransGlobalCommitMsg : O D Ext bool :=
  op <- base tc_oper_;
  UpdateRecoveryTable_do S UNC_DT_RUNNING op;;;
  q <- send_msg MSG_COMMIT_GLOBAL;
  set_ext (with_trans (trans_result_of q.2));;;
  if q.1 !=? TCOPER_RET_SUCCESS then
    set_ext (with_response TC_SYSTEM_FAILURE);;; delete_msg q.2;;; oret false
  else set_ext (with_resp (Some q.2));;; oret true.

(** The messages of the list; a failure is kept and the rest is still sent. *)
Fixpoint execute_rest (l : list TcMsgOperType) : O D Ext TcOperStatus :=
  match l with
  | [] => ext user_response_
  | m :: l' =>
      o <- create_msg S m;
      match o with
      | None => oret TC_SYSTEM_FAILURE
      | Some msg =>
          p <- FillTcMsgData msg m;
          q <- execute_msg S p.2;
          (if q.1 !=? TCOPER_RET_SUCCESS
           then set_ext (with_response (HandleMsgRet q.1)) else oret tt);;;
          delete_msg q.2;;;
          execute_rest l'
      end
  end.

(** [if (m() == PFC_FALSE) return user_response_;] *)
Definition step (m : O D Ext bool) (k : O D Ext TcOperStatus) : O D Ext TcOperStatus :=
  ok <- m; if ok : bool then k else ext user_response_.

Definition Execute : O D Ext TcOperStatus :=
  op <- base tc_oper_;
  if op ==? TC_OP_CANDIDATE_COMMIT then
    step TransStartMsg (
    step TransVoteMsg (
    step TransGlobalCommitMsg (
    step TransEndMsg (oret TC_OPER_SUCCESS))))
  else
    UpdateRecoveryTable_do S UNC_DT_CANDIDATE op;;;
    l <- base TcOperMessageList;
    execute_rest l.

Definition SetConfigId : O D Ext TcOperStatus :=
  cid <- ext config_id_;
  r <- respond_uint32 S cid;
  if r !=? TCUTIL_RET_SUCCESS then oret TC_OPER_FAILURE else oret TC_OPER_SUCCESS.

Definition SendResponse (oper_stat : TcOperStatus) : O D Ext TcOperStatus :=
  s <- session;
  if s is None then oret oper_stat
  else
    let rest :=
      o <- ext resp_tc_msg_;
      r <- (match o with Some msg => forward_response S msg | None => oret TCOPER_RET_SUCCESS end);
      if r !=? TCOPER_RET_SUCCESS then oret TC_SYSTEM_FAILURE
      else
        (if oper_stat ==? TC_OPER_SUCCESS
         then UpdateRecoveryTable_do S UNC_DT_INVALID TC_OP_INVALID;;; oret tt else oret tt);;;
        oret oper_stat in
    if (oper_stat !=? TC_OPER_INVALID_INPUT) && (oper_stat !=? TC_OPER_FAILURE) then
      or_failure (SetOperType S) (
      or_failure (SetSessionId S) (
      or_failure SetConfigId (
      or_failure (SetOperStatus S oper_stat) rest)))
    else rest.

Definition vtable : Vtable D Ext := mkVtable
  (HandleArgs GetSessionId UNC_CANDIDATE_OPS_ARG_COUNT TcValidateOperType
     TcCheckOperArgCount TcValidateOperParams)
  TcGetExclusion
  TcReleaseExclusion
  TcCreateMsgList
  Execute
  SendResponse.

Definition Dispatch : O D Ext TcOperStatus := TcOper.Dispatch vtable.

End Methods.

End Candidate.
