(* ===== verification/TcOperAudit.v ===== *)
(** * Audits

    [TcAuditOperations] of [modules/tc/tc_audit_operations.cc].  A user's audit
    runs in the thread of the request.  A driver's request is only accepted
    there and handed to a task queue; the task ([AuditParams] of
    [tc_taskq.cc]) runs the same class without a session. *)

From S2P Require Import Prelude TcTypes TcRwLock TcLock TcIpc TcMsg TcMsgAudit TcServer TcOper.

Local Open Scope Z_scope.

Module Audit.

Record Ext := mkExt {
  controller_id_ : string;
  driver_id_ : Z;
  resp_tc_msg_ : option MsgObj;
  user_response_ : TcOperStatus;
  audit_result_ : TcAuditResult;
  trans_result_ : TcTransEndResult;
  api_audit_ : bool;
  force_reconnect_ : bool
}.
Definition ext_new : Ext :=
  mkExt EmptyString UNC_CT_UNKNOWN None TC_OPER_FAILURE TC_AUDIT_FAILURE TRANS_END_FAILURE
    false false.

Definition with_controller (c : string) (x : Ext) : Ext :=
  mkExt c (driver_id_ x) (resp_tc_msg_ x) (user_response_ x) (audit_result_ x)
    (trans_result_ x) (api_audit_ x) (force_reconnect_ x).
Definition with_driver (d : Z) (x : Ext) : Ext :=
  mkExt (controller_id_ x) d (resp_tc_msg_ x) (user_response_ x) (audit_result_ x)
    (trans_result_ x) (api_audit_ x) (force_reconnect_ x).
Definition with_resp (m : option MsgObj) (x : Ext) : Ext :=
  mkExt (controller_id_ x) (driver_id_ x) m (user_response_ x) (audit_result_ x)
    (trans_result_ x) (api_audit_ x) (force_reconnect_ x).
Definition with_response (r : TcOperStatus) (x : Ext) : Ext :=
  mkExt (controller_id_ x) (driver_id_ x) (resp_tc_msg_ x) r (audit_result_ x)
    (trans_result_ x) (api_audit_ x) (force_reconnect_ x).
Definition with_results (a : TcAuditResult) (t : TcTransEndResult) (x : Ext) : Ext :=
  mkExt (controller_id_ x) (driver_id_ x) (resp_tc_msg_ x) (user_response_ x) a t
    (api_audit_ x) (force_reconnect_ x).
Definition with_api (b : bool) (x : Ext) : Ext :=
  mkExt (controller_id_ x) (driver_id_ x) (resp_tc_msg_ x) (user_response_ x) (audit_result_ x)
    (trans_result_ x) b (force_reconnect_ x).
Definition with_reconnect (b : bool) (x : Ext) : Ext :=
  mkExt (controller_id_ x) (driver_id_ x) (resp_tc_msg_ x) (user_response_ x) (audit_result_ x)
    (trans_result_ x) (api_audit_ x) b.

Definition UNC_AUDIT_OPS_ARG_COUNT : Z := 4.

Definition HandleLockRet (lock_ret : TcLockRet) : TcOperStatus :=
  match lock_ret with
  | TC_LOCK_INVALID_UNC_STATE | TC_LOCK_OPERATION_NOT_ALLOWED => TC_INVALID_STATE
  | TC_LOCK_BUSY => TC_SYSTEM_BUSY
  | TC_LOCK_NO_CONFIG_SESSION_EXIST => TC_CONFIG_NOT_PRESENT
  | _ => TC_OPER_FAILURE
  end.

Section Methods.

Context {D : Type} `{TcDbI D} (S : Setting D).

Definition TcCheckOperArgCount (avail_count : Z) : O D Ext TcOperStatus :=
  if avail_count !=? UNC_AUDIT_OPS_ARG_COUNT then oret TC_OPER_INVALID_INPUT
  else oret TC_OPER_SUCCESS.

Definition GetSessionId : O D Ext TcOperStatus :=
  op <- base tc_oper_;
  if op ==? TC_OP_DRIVER_AUDIT then oret TC_OPER_SUCCESS else TcOper.GetSessionId.

Definition TcValidateOperType : O D Ext TcOperStatus :=
  op <- base tc_oper_;
  if (op !=? TC_OP_USER_AUDIT) && (op !=? TC_OP_DRIVER_AUDIT)
  then oret TC_INVALID_OPERATION_TYPE
  else if op ==? TC_OP_USER_AUDIT then
    s <- session;
    if set_srv_timeout (set_srv_ipc S) s ==? TCUTIL_RET_FAILURE then oret TC_OPER_FAILURE
    else oret TC_OPER_SUCCESS
  else oret TC_OPER_SUCCESS.

(** The driver's request: the task is posted and this object only answers. *)
Definition accept_driver_audit : O D Ext TcOperStatus :=
  s <- session;
  read_arg (srv_get_uint8 s TC_REQ_ARG_INDEX) (fun read_drv_id =>
    set_ext (with_driver read_drv_id);;;
    if read_drv_id ==? UNC_CT_UNKNOWN then oret TC_OPER_INVALID_INPUT
    else
      set_ext (with_api true);;;
      ctrl <- ext controller_id_;
      fun st =>
        (event (EvDispatchAudit ctrl read_drv_id);;;
         if e_post (set_the_env S) (st_log st) !=? 0
         then oret TC_OPER_FAILURE else oret TC_OPER_SUCCESS) st).

Definition TcValidateOperParams : O D Ext TcOperStatus :=
  op <- base tc_oper_;
  s <- session;
  let user := op ==? TC_OP_USER_AUDIT in
  let p := srv_get_string s (if user then TC_REQ_ARG_INDEX else TC_REQ_SESSION_ID_INDEX) in
  let p1 := if user then srv_get_uint8 s (TC_REQ_ARG_INDEX + 1)
            else (TCUTIL_RET_SUCCESS, Some 0) in
  (match p.2 with Some c => set_ext (with_controller c) | None => oret tt end);;;
  if (p.1 ==? TCUTIL_RET_FAILURE) || (p1.1 ==? TCUTIL_RET_FAILURE)
  then oret TC_OPER_INVALID_INPUT
  else if (p.1 ==? TCUTIL_RET_FATAL) || (p1.1 ==? TCUTIL_RET_FATAL)
  then oret TC_OPER_FAILURE
  else
    c <- ext controller_id_;
    if is_empty c then oret TC_OPER_INVALID_INPUT
    else
      set_ext (with_reconnect (default 0 p1.2 !=? 0));;;
      if op ==? TC_OP_DRIVER_AUDIT then accept_driver_audit else oret TC_OPER_SUCCESS.

Definition write_operation (op : TcServiceType) : TcWriteOperation :=
  if op ==? TC_OP_USER_AUDIT then TC_AUDIT_USER else TC_AUDIT_DRIVER.

Definition TcGetExclusion : O D Ext TcOperStatus :=
  op <- base tc_oper_;
  sid <- base op_session_id;
  api <- ext api_audit_;
  if (op !=? TC_OP_USER_AUDIT) && api then oret TC_OPER_SUCCESS
  else
    r <- GetLock_do S sid TC_ACQUIRE_WRITE_SESSION (write_operation op);
    if r !=? TC_LOCK_SUCCESS then oret (HandleLockRet r) else oret TC_OPER_SUCCESS.

Definition TcReleaseExclusion : O D Ext TcOperStatus :=
  api <- ext api_audit_;
  if api : bool then oret TC_OPER_SUCCESS
  else
    op <- base tc_oper_;
    sid <- base op_session_id;
    r <- ReleaseLock_do S sid 0 TC_RELEASE_WRITE_SESSION (write_operation op);
    if r !=? TC_LOCK_SUCCESS then oret (HandleLockRet r) else oret TC_OPER_SUCCESS.

(** The result of [SetAuditResult] is ignored. *)
Definition FillTcMsgData (o : MsgObj) (m : TcMsgOperType) : O D Ext (TcOperStatus * MsgObj) :=
  x <- ext id;
  op <- base tc_oper_;
  if (m !=? MSG_GET_DRIVERID) && (driver_id_ x ==? UNC_CT_UNKNOWN)
  then oret (TC_OPER_INVALID_INPUT, o)
  else
    let o1 := SetData_config 0 (controller_id_ x)
                (if m ==? MSG_GET_DRIVERID then UNC_CT_UNKNOWN else driver_id_ x) o in
    let o2 := if m ==? MSG_AUDIT_START then
                let o' := SetReconnect (force_reconnect_ x) o1 in
                if op ==? TC_OP_USER_AUDIT then IsUserAudit true o' else o'
              else o1 in
    let o3 := if m ==? MSG_AUDIT_TRANS_END
              then with_msg (fun d => (SetTransResult (trans_result_ x) d).2) o2 else o2 in
    oret (TC_OPER_SUCCESS,
          if m ==? MSG_AUDIT_END
          then with_msg (fun d => (SetAuditResult (audit_result_ x) d).2) o3 else o3).

(** The result of [FillTcMsgData] is ignored. *)
Definition send_msg (m : TcMsgOperType) : O D Ext (TcOperRet * MsgObj) :=
  o <- create_msg S m;
  match o with
  | None => (fun _ => None)
  | Some msg => p <- FillTcMsgData msg m; execute_msg S p.2
  end.

(** Keep the message whose response goes to the client. *)
Definition fail_with (r : TcOperStatus) (o : MsgObj) : O D Ext bool :=
  set_ext (with_response r);;; set_ext (with_resp (Some o));;; oret false.

(** A message whose failure is a failure of the system. *)
Definition end_msg (m : TcMsgOperType) : O D Ext bool :=
  q <- send_msg m;
  if q.1 !=? TCOPER_RET_SUCCESS then
    set_ext (with_response TC_SYSTEM_FAILURE);;; delete_msg q.2;;; oret false
  else delete_msg q.2;;; oret true.

Definition AuditTransEnd : O D Ext bool := end_msg MSG_AUDIT_TRANS_END.
Definition AuditEnd : O D Ext bool := end_msg MSG_AUDIT_END.

Definition GetDriverType : O D Ext bool :=
  op <- base tc_oper_;
  if op ==? TC_OP_DRIVER_AUDIT then oret true
  else
    q <- send_msg MSG_GET_DRIVERID;
    if q.1 !=? TCOPER_RET_SUCCESS then
      set_ext (with_response (HandleMsgRet q.1));;; delete_msg q.2;;; oret false
    else
      set_ext (with_driver (GetResult q.2));;;
      if GetResult q.2 ==? UNC_CT_UNKNOWN
      then set_ext (with_resp (Some q.2));;; oret false
      else delete_msg q.2;;; oret true.

Definition AuditStart : O D Ext bool :=
  q <- send_msg MSG_AUDIT_START;
  if (q.1 !=? TCOPER_RET_SUCCESS) && (q.1 !=? TCOPER_RET_SIMPLIFIED_AUDIT)
  then fail_with (HandleMsgRet q.1) q.2
  else
    (if q.1 ==? TCOPER_RET_SIMPLIFIED_AUDIT
     then set_ext (with_response TC_OPER_SIMPLIFIED_AUDIT) else oret tt);;;
    delete_msg q.2;;; oret true.

Definition AuditTransStart : O D Ext bool :=
  q <- send_msg MSG_AUDIT_TRANS_START;
  if q.1 !=? TCOPER_RET_SUCCESS then
    if q.1 ==? TCOPER_RET_FATAL then fail_with (HandleMsgRet q.1) q.2
    else
      ended <- AuditEnd;
      if ended : bool then fail_with (HandleMsgRet q.1) q.2
      else delete_msg q.2;;; oret false
  else delete_msg q.2;;; oret true.

Definition AuditVote : O D Ext bool :=
  q <- send_msg MSG_AUDIT_VOTE;
  if q.1 !=? TCOPER_RET_SUCCESS then
    if q.1 ==? TCOPER_RET_FATAL then fail_with (HandleMsgRet q.1) q.2
    else
      trans_ended <- AuditTransEnd;
      ended <- (if trans_ended : bool then AuditEnd else oret false);
      if ended : bool then fail_with (HandleMsgRet q.1) q.2
      else delete_msg q.2;;; oret false
  else delete_msg q.2;;; oret true.

Definition AuditGlobalCommit : O D Ext bool :=
  op <- base tc_oper_;
  UpdateRecoveryTable_do S UNC_DT_RUNNING op;;;
  q <- send_msg MSG_AUDIT_GLOBAL;
  set_ext (with_results (audit_result_of q.2) (trans_result_of q.2));;;
  if q.1 !=? TCOPER_RET_SUCCESS then
    set_ext (with_response TC_SYSTEM_FAILURE);;; delete_msg q.2;;; oret false
  else set_ext (with_resp (Some q.2));;; oret true.

(** [if (m() == PFC_FALSE) return user_response_;] *)
Definition step (m : O D Ext bool) (k : O D Ext TcOperStatus) : O D Ext TcOperStatus :=
  ok <- m; if ok : bool then k else ext user_response_.

(** The end of the audit, and the recovery table cleared. *)
Definition finish : O D Ext TcOperStatus :=
  x <- ext id;
  op <- base tc_oper_;
  (if (user_response_ x ==? TC_OPER_SIMPLIFIED_AUDIT) && (op ==? TC_OP_DRIVER_AUDIT)
   then set_ext (with_results TC_SIMPLIFIED_AUDIT_SUCCESS (trans_result_ x)) else oret tt);;;
  step AuditEnd (
  r <- UpdateRecoveryTable_do S UNC_DT_INVALID TC_OP_INVALID;
  if r !=? TCOPER_RET_SUCCESS then
    set_ext (with_response TC_OPER_FAILURE);;; oret TC_OPER_FAILURE
  else oret TC_OPER_SUCCESS).

Definition Execute : O D Ext TcOperStatus :=
  api <- ext api_audit_;
  if api : bool then oret TC_OPER_SUCCESS
  else
    known <- GetDriverType;
    if negb known then oret TC_OPER_ABORT
    else
      step AuditStart (
      op <- base tc_oper_;
      resp <- ext user_response_;
      if (op ==? TC_OP_USER_AUDIT) || (resp !=? TC_OPER_SIMPLIFIED_AUDIT) then
        step AuditTransStart (
        step AuditVote (
        step AuditGlobalCommit (
        step AuditTransEnd finish)))
      else finish).

Definition SetAuditOperationStatus : O D Ext TcOperStatus :=
  a <- ext audit_result_;
  r <- respond_uint32 S (TcAuditResult_value a);
  if r !=? TCUTIL_RET_SUCCESS then oret TC_OPER_FAILURE else oret TC_OPER_SUCCESS.

Definition SendAdditionalResponse (oper_stat : TcOperStatus) : O D Ext TcOperStatus :=
  api <- ext api_audit_;
  if api : bool then oret oper_stat
  else
    r <- SetAuditOperationStatus;
    if r !=? TC_OPER_SUCCESS then oret TC_OPER_FAILURE
    else
      op <- base tc_oper_;
      o <- ext resp_tc_msg_;
      match o with
      | Some msg =>
          if op ==? TC_OP_USER_AUDIT then
            ret <- forward_response S msg;
            if ret !=? TCOPER_RET_SUCCESS then oret TC_SYSTEM_FAILURE else oret oper_stat
          else oret oper_stat
      | None => oret oper_stat
      end.

Definition vtable : Vtable D Ext := mkVtable
  (HandleArgs GetSessionId UNC_AUDIT_OPS_ARG_COUNT TcValidateOperType
     TcCheckOperArgCount TcValidateOperParams)
  TcGetExclusion
  TcReleaseExclusion
  (oret TC_OPER_SUCCESS)                       (* TcCreateMsgList *)
  Execute
  (SendResponse S SendAdditionalResponse).

Definition Dispatch : O D Ext TcOperStatus := TcOper.Dispatch vtable.

End Methods.

End Audit.
