(* ===== verification/TcModule.v ===== *)
(** * The module

    [TcModule] of [modules/tc/tc_module.cc], [UncStateHandler] of
    [modules/tc/tc_unc_states.cc], the tasks of [modules/tc/tc_taskq.cc] and
    the list of channels of [modules/tc/tc_lnc_event_handler.cc]: the life
    cycle of the daemon, the services it offers to clients, and the calls of
    the session manager. *)

From S2P Require Import Prelude TcTypes TcRwLock TcLock TcIpc TcMsg TcServer TcOper.
From S2P Require Import TcOperSimple TcOperConfig TcOperCandidate TcOperAudit.

Local Open Scope Z_scope.

(** ** The channels of the daemons *)

Definition TcConvertDriverType (drv_type : Z) : TcDaemonName :=
  if drv_type ==? UNC_CT_PFC then TC_DRV_OPENFLOW
  else if drv_type ==? UNC_CT_VNP then TC_DRV_OVERLAY
  else if drv_type ==? UNC_CT_ODC then TC_DRV_ODL
  else if drv_type ==? UNC_CT_POLC then TC_DRV_POLC
  else TC_NONE.

(** What the launcher answers for a type of daemon: [None] is an error. *)
Record Launcher := mkLauncher {
  ln_logical : option (list string);
  ln_physical : option (list string);
  ln_driver : option (list string)
}.

Section Channels.

Context (ipc : Ipc).

(** [std::map::insert] keeps an entry that exists. *)
Definition map_insert (d : TcDaemonName) (c : string) (m : gmap TcDaemonName string) :=
  match m !! d with Some _ => m | None => <[d := c]> m end.

(** [vector::at(0)] of an empty list throws; the daemon does not start. *)
Definition collect_name (d : TcDaemonName) (names : option (list string))
    (m : gmap TcDaemonName string) : option (gmap TcDaemonName string) :=
  match names with
  | Some (c :: _) => Some (map_insert d c m)
  | _ => None
  end.

Fixpoint collect_drivers (l : list string) (m : gmap TcDaemonName string) (w : World)
    : option (gmap TcDaemonName string) * World :=
  match l with
  | [] => (Some m, w)
  | c :: l' =>
      let '((ret, drv_type), w1) := GetControllerType ipc c w in
      match ret, drv_type with
      | TCOPER_RET_SUCCESS, Some t =>
          let d := TcConvertDriverType t in
          if d ==? TC_NONE then (None, w1) else collect_drivers l' (map_insert d c m) w1
      | _, _ => (None, w1)
      end
  end.

Definition collect_unc_daemon_names (ln : Launcher) (w : World)
    : option (gmap TcDaemonName string) * World :=
  match collect_name TC_UPLL (ln_logical ln) ∅ with
  | None => (None, w)
  | Some m1 =>
      match collect_name TC_UPPL (ln_physical ln) m1 with
      | None => (None, w)
      | Some m2 =>
          match ln_driver ln with
          | None => (None, w)
          | Some l => collect_drivers l m2 w
          end
      end
  end.

End Channels.

(** ** State transitions *)

Inductive UncState := INIT | ACT | SBY | STOP | FAILURE.

#[export] Instance UncState_eq_dec : EqDecision UncState.
Proof. solve_decision. Defined.

Inductive TcApiRet :=
| TC_API_COMMON_SUCCESS | TC_INVALID_PARAM | TC_INVALID_UNC_STATE | TC_NO_CONFIG_SESSION
| TC_API_COMMON_FAILURE.

(** The members of the module that are used after [init]. *)
Record Mod := mkMod {
  state_ : UncState;
  max_failover_instance_ : Z
}.

Definition set_unc_state (u : UncState) (x : Mod) : Mod := mkMod u (max_failover_instance_ x).

Section Module.

Context {D : Type} `{TcDbI D} (S : Setting D).
(** The content of the uninitialised member [audit_db_fail_] and the identity
    of a new object. *)
Context (garbage : bool) (this : Z).

Definition transition_lock : O D Mod TcLockRet :=
  GetLock_do S 0 TC_ACQUIRE_READ_LOCK_FOR_STATE_TRANSITION TC_WRITE_NONE.
Definition transition_unlock : O D Mod TcLockRet :=
  ReleaseLock_do S 0 0 TC_RELEASE_READ_LOCK_FOR_STATE_TRANSITION TC_WRITE_NONE.

(** [ret = ReleaseLock(...); if (ret != SUCCESS) return FALSE; return b;] *)
Definition unlock_and (b : bool) : O D Mod bool :=
  r <- transition_unlock; if r !=? TC_LOCK_SUCCESS then oret false else oret b.

Definition HandleStart : O D Mod bool :=
  r <- transition_lock;
  if r !=? TC_LOCK_SUCCESS then oret false
  else lock_do S (OpUpdateState TC_SBY);;; unlock_and true.

Definition HandleStop : O D Mod bool :=
  lock_do S (OpUpdateState TC_STOP);;; lock_do S OpReset;;; oret true.

(** The start-up failed because the database could not be audited: the number
    of attempts is stored, and the last one allowed gives up with an alarm. *)
Definition audit_db_failed (x : StartUp.Ext) : O D Mod (option bool) :=
  p <- GetRecoveryTable_do S (StartUp.database_type_ x, StartUp.fail_oper_ x, 0);
  if p.1 !=? TCOPER_RET_SUCCESS then oret None
  else
    let '(db, op, inst) := p.2 in
    let inst1 := u32_inc inst in
    UpdateRecoveryTable_with S db op inst1;;;
    limit <- ext max_failover_instance_;
    if bool_decide (limit <= inst1) then
      event (EvAlarm true);;;
      lock_do S (OpUpdateState TC_ACT_FAIL);;;
      b <- unlock_and true; oret (Some b)
    else oret None.

Definition HandleAct (is_switch : bool) : O D Mod bool :=
  r <- transition_lock;
  if r !=? TC_LOCK_SUCCESS then oret false
  else
    lock_do S OpReset;;;
    event (EvAlarm false);;;
    p <- with_object (base_new garbage) (StartUp.ext_new is_switch) None (StartUp.Dispatch S);
    if p.1 !=? TC_OPER_SUCCESS then
      given_up <- (if audit_db_fail_ (st_base p.2) then audit_db_failed (st_ext p.2)
                   else oret None);
      match given_up with
      | Some b => oret b
      | None => unlock_and false
      end
    else
      sh <- interfere S;
      put_shared (mkShared (sh_lock sh) (Config.SetStateChangedToSby false (sh_conf sh))
                    (sh_db sh));;;
      unlock_and true.

(** The event handlers of [UncStateHandler]. *)
Definition unc_start_event_handler_fn : O D Mod unit :=
  u <- ext state_;
  if u !=? INIT then oret tt
  else ok <- HandleStart; set_ext (set_unc_state (if ok : bool then SBY else FAILURE)).

Definition unc_stop_event_handler_fn : O D Mod unit :=
  u <- ext state_;
  if u ==? STOP then oret tt
  else ok <- HandleStop; set_ext (set_unc_state (if ok : bool then STOP else FAILURE)).

Definition unc_act_event_handler_fn (is_active : bool) : O D Mod unit :=
  u <- ext state_;
  if u !=? SBY then oret tt
  else ok <- HandleAct is_active; set_ext (set_unc_state (if ok : bool then ACT else FAILURE)).

(** ** Services *)

Definition HandleConfigRequests (s : ServerSession) : O D Mod TcOperStatus :=
  p <- with_object (base_new garbage) (Config.ext_new this) (Some s) (Config.Dispatch S);
  oret p.1.
Definition HandleStartUpRequests (s : ServerSession) : O D Mod TcOperStatus :=
  p <- with_object (base_new garbage) tt (Some s) (DbOper.Dispatch S); oret p.1.
Definition HandleReadRequests (s : ServerSession) : O D Mod TcOperStatus :=
  p <- with_object (base_new garbage) (Read.ext_new true) (Some s) (Read.Dispatch S);
  oret p.1.
Definition HandleAutoSaveRequests (s : ServerSession) : O D Mod TcOperStatus :=
  p <- with_object (base_new garbage) AutoSave.ext_new (Some s) (AutoSave.Dispatch S);
  oret p.1.

(** The destructors of the last two delete the message they kept. *)
Definition delete_kept (m : option MsgObj) : O D Mod unit :=
  match m with Some o => delete_msg o | None => oret tt end.

Definition HandleCandidateRequests (s : ServerSession) : O D Mod TcOperStatus :=
  p <- with_object (base_new garbage) Candidate.ext_new (Some s)
         (Candidate.Dispatch S this garbage);
  delete_kept (Candidate.resp_tc_msg_ (st_ext p.2));;; oret p.1.
Definition HandleAuditRequests (s : ServerSession) : O D Mod TcOperStatus :=
  p <- with_object (base_new garbage) Audit.ext_new (Some s) (Audit.Dispatch S);
  delete_kept (Audit.resp_tc_msg_ (st_ext p.2));;; oret p.1.

Definition TC_CONFIG_SERVICES : Z := 0.
Definition TC_CANDIDATE_SERVICES : Z := 1.
Definition TC_STARTUP_DB_SERVICES : Z := 2.
Definition TC_READ_ACCESS_SERVICES : Z := 3.
Definition TC_AUTO_SAVE_SERVICES : Z := 4.
Definition TC_AUDIT_SERVICES : Z := 5.

(** A wait for a mutex is a point at which other threads may have changed the
    shared state, and a call over IPC is an answer of the other side: both end
    in this model.  That a wait for the global mutex need not is shown for the
    lock, with the mutex and its owner in the state, by
    [TcLockTheorems.polling_audit_blocks_everyone]. *)
Definition ipcService (s : ServerSession) (service : Z) : O D Mod TcOperStatus :=
  if service ==? TC_CONFIG_SERVICES then HandleConfigRequests s
  else if service ==? TC_STARTUP_DB_SERVICES then HandleStartUpRequests s
  else if service ==? TC_READ_ACCESS_SERVICES then HandleReadRequests s
  else if service ==? TC_AUTO_SAVE_SERVICES then HandleAutoSaveRequests s
  else if service ==? TC_CANDIDATE_SERVICES then HandleCandidateRequests s
  else if service ==? TC_AUDIT_SERVICES then HandleAuditRequests s
  else oret TC_OPER_INVALID_INPUT.

(** ** Tasks *)

(** [ReadParams::HandleReadTimeout] *)
Definition HandleReadTimeout (sid : Z) : O D Mod TcOperStatus :=
  p <- with_object (mkBase sid TC_OP_READ_RELEASE [] INPUT_VALIDATION garbage)
         (Read.ext_new false) None (Read.Dispatch S);
  oret p.1.

(** [AuditParams::HandleDriverAudit] *)
Definition HandleDriverAudit (controller : string) (driver : Z) : O D Mod TcOperStatus :=
  p <- with_object (mkBase 0 TC_OP_DRIVER_AUDIT [] INPUT_VALIDATION garbage)
         (Audit.with_driver driver (Audit.with_controller controller Audit.ext_new)) None
         (Audit.Dispatch S);
  delete_kept (Audit.resp_tc_msg_ (st_ext p.2));;; oret p.1.

(** ** Calls of the session manager *)

Definition api_ret (r : TcLockRet) : TcApiRet :=
  match r with
  | TC_LOCK_INVALID_PARAMS => TC_INVALID_PARAM
  | TC_LOCK_INVALID_UNC_STATE => TC_INVALID_UNC_STATE
  | TC_LOCK_NO_CONFIG_SESSION_EXIST => TC_NO_CONFIG_SESSION
  | TC_LOCK_SUCCESS => TC_API_COMMON_SUCCESS
  | _ => TC_API_COMMON_FAILURE
  end.

Definition TcGetConfigSession : O D Mod (TcApiRet * option (Z * Z)) :=
  p <- ask S GetConfigIdSessionId; oret (api_ret p.1, p.2).

Definition ReleaseConfigSession : O D Mod TcOperStatus :=
  p <- TcGetConfigSession;
  match p with
  | (TC_API_COMMON_SUCCESS, Some (sid, cid)) =>
      q <- with_object (mkBase sid TC_OP_CONFIG_RELEASE [] INPUT_VALIDATION garbage)
             (Config.mkExt this cid 0) None (Config.Dispatch S);
      oret q.1
  | _ => oret TC_OPER_SUCCESS
  end.

Definition TcReleaseSession (sid : Z) : O D Mod TcApiRet :=
  state <- ask S GetUncCurrentState;
  if (state !=? TC_ACT) && (state !=? TC_SBY) then oret TC_INVALID_UNC_STATE
  else
    progress <- ask S (GetSessionOperation sid);
    match progress with
    | TC_READ_PROGRESS =>
        with_object (mkBase sid TC_OP_READ_RELEASE [] INPUT_VALIDATION garbage)
          (Read.ext_new true) None (Read.Dispatch S);;;
        oret TC_API_COMMON_SUCCESS
    | TC_WRITE_ABORT_CANDIDATE_CONFIG_PROGRESS | TC_CONFIG_COMMIT_PROGRESS =>
        r <- lock_do S (OpMarkSession sid);
        if r ==? TC_LOCK_SUCCESS then oret TC_API_COMMON_SUCCESS else oret TC_INVALID_PARAM
    | TC_CONFIG_NO_NOTIFY_PROGRESS =>
        r <- ReleaseConfigSession;
        if r ==? TC_OPER_SUCCESS then oret TC_API_COMMON_SUCCESS else oret TC_INVALID_PARAM
    | TC_NO_OPERATION_PROGRESS => oret TC_INVALID_PARAM
    | _ => oret TC_API_COMMON_SUCCESS
    end.

End Module.
