(* ===== verification/TcOperProps.v ===== *)
(** * Reasoning about operations

    Weakest preconditions for the operation monad of TcOper; what an operation
    may rely on while other threads run; assertions about the lock that
    survive both; and the calls on the lock, with the waits they contain. *)

From S2P Require Import Prelude TcTypes TcRwLock TcLock TcLockProps TcLockSystem TcLockTheorems TcIpc TcMsg TcMsgTheorems TcServer TcDb TcOper TcDbTheorems TcModule.
From S2P Require Import TcLockTheorems TcIpc TcMsg TcServer TcOper.

Local Open Scope Z_scope.

(** ** Weakest preconditions

    [owp m Q st]: if [m] returns, [Q] holds of the result. *)

Definition owp {D X A} (m : O D X A) (Q : A -> OpSt D X -> Prop) (st : OpSt D X) : Prop :=
  match m st with
  | Some (a, st1) => Q a st1
  | None => True
  end.

(** [m] returns from every state. *)
Definition total {D X A} (m : O D X A) : Prop := forall st, is_Some (m st).

#[global] Arguments owp : simpl never.
#[global] Arguments obind : simpl never.

Section Rules.

Context {D X A B : Type}.
Implicit Type st : OpSt D X.

Lemma owp_ret (a : A) (Q : A -> OpSt D X -> Prop) st : Q a st -> owp (oret a) Q st.
Proof. done. Qed.

Lemma owp_bind (m : O D X B) (f : B -> O D X A) (Q : A -> OpSt D X -> Prop) st :
  owp m (fun b => owp (f b) Q) st -> owp (obind m f) Q st.
Proof. unfold owp, obind. by destruct (m st) as [[b st1]|]. Qed.

Lemma owp_mono (m : O D X A) (Q Q' : A -> OpSt D X -> Prop) st :
  owp m Q st -> (forall a st', Q a st' -> Q' a st') -> owp m Q' st.
Proof. unfold owp. destruct (m st) as [[a st1]|]; auto. Qed.

Lemma owp_and (m : O D X A) (Q Q' : A -> OpSt D X -> Prop) st :
  owp m Q st -> owp m Q' st -> owp m (fun a st' => Q a st' /\ Q' a st') st.
Proof. unfold owp. by destruct (m st) as [[a st1]|]. Qed.

Lemma total_ret (a : A) : total (D := D) (X := X) (oret a).
Proof. intros st. by eexists. Qed.

Lemma total_bind (m : O D X B) (f : B -> O D X A) :
  total m -> (forall b, total (f b)) -> total (obind m f).
Proof.
  intros Hm Hf st. unfold obind. destruct (Hm st) as [[b st1] ->]. apply Hf.
Qed.

(** A total operation with a postcondition returns and satisfies it. *)
Lemma total_owp (m : O D X A) (Q : A -> OpSt D X -> Prop) st :
  total m -> owp m Q st -> exists a st', m st = Some (a, st') /\ Q a st'.
Proof. intros Ht. unfold owp. destruct (Ht st) as [[a st1] E]. rewrite E. eauto. Qed.

End Rules.

(** ** The other threads *)

(** Whatever the other threads do between two steps of the operation is
    related by [R], and whatever they do while it waits for [k] by [W k]. *)
Record env_follows {D} (R : TcLock -> TcLock -> Prop) (W : WaitKind -> TcLock -> TcLock -> Prop)
    (env : Env D) : Prop := {
  ef_step : forall log sh, R (sh_lock sh) (sh_lock (e_step env log sh));
  ef_wait : forall log k sh sh1,
    e_wait env log k sh = Some sh1 -> W k (sh_lock sh) (sh_lock sh1);
  ef_cond : forall log sh r sh1,
    e_cond env log sh = Some (r, sh1) -> R (sh_lock sh) (sh_lock sh1)
}.

(** ** Assertions that last

    An assertion [p] on the lock, the members of the operation that tell which
    session it serves, what it was asked and in which phase it is, and the
    members of its class; with a property [good] of the events.  It lasts when
    the other threads cannot break it, and when the messages sent while it
    holds are good. *)

Definition quiet (e : OpEvent) : Prop :=
  match e with EvLock _ _ | EvMsg _ _ _ => False | _ => True end.

Definition Assertion (X : Type) : Type :=
  TcLock -> Z -> TcServiceType -> TcOperEnum -> X -> Prop.

Class Lasting {D X} (S : Setting D) (p : Assertion X) (good : OpEvent -> Prop) : Prop := {
  la_env : forall log sh i o ph x,
    p (sh_lock sh) i o ph x -> p (sh_lock (e_step (set_the_env S) log sh)) i o ph x;
  la_cond : forall log sh r sh1 i o ph x,
    e_cond (set_the_env S) log sh = Some (r, sh1) ->
    p (sh_lock sh) i o ph x -> p (sh_lock sh1) i o ph x;
  la_msg : forall m r s i o ph x, p s i o ph x -> good (EvMsg m r s);
  la_quiet : forall e, quiet e -> good e
}.

(** For assertions about the lock alone. *)
Definition any_event (e : OpEvent) : Prop := True.

(** [p] holds in a state. *)
Definition asserts {D X} (p : Assertion X) (st : OpSt D X) : Prop :=
  p (sh_lock (st_shared st)) (op_session_id (st_base st)) (tc_oper_ (st_base st))
    (tc_oper_status_ (st_base st)) (st_ext st).

(** The log went on from [l0] with good events only. *)
Definition grown (good : OpEvent -> Prop) (l0 l : list OpEvent) : Prop :=
  exists ev, l = l0 ++ ev /\ Forall good ev.

Lemma grown_refl good l : grown good l l.
Proof. exists []. by rewrite app_nil_r. Qed.

Lemma grown_snoc (good : OpEvent -> Prop) l0 l e :
  grown good l0 l -> good e -> grown good l0 (l ++ [e]).
Proof.
  intros (ev&->&Hev) He. exists (ev ++ [e]). rewrite app_assoc. split; [done|].
  apply Forall_app. by repeat constructor.
Qed.

Definition holds {D X} (l0 : list OpEvent) (p : Assertion X) (good : OpEvent -> Prop)
    (st : OpSt D X) : Prop :=
  asserts p st /\ grown good l0 (st_log st).

(** [m] keeps them. *)
Definition stable {D X A} (p : Assertion X) (good : OpEvent -> Prop) (m : O D X A) : Prop :=
  forall l0 st, holds l0 p good st -> owp m (fun _ => holds l0 p good) st.

Section Stable.

Context {D X : Type} `{TcDbI D} (S : Setting D).
Context (p : Assertion X) (good : OpEvent -> Prop).
Context `{!Lasting S p good}.
Local Abbreviation stable := (stable (D := D) (X := X) p good).

Lemma stable_ret {A} (a : A) : stable (oret a).
Proof. by intros l0 st Hst. Qed.

Lemma stable_bind {A B} (m : O D X B) (f : B -> O D X A) :
  stable m -> (forall b, stable (f b)) -> stable (obind m f).
Proof.
  intros Hm Hf l0 st Hst. apply owp_bind. eapply owp_mono; [by apply Hm|].
  intros b st1 H1. by apply Hf.
Qed.

Lemma stable_base {A} (f : OpBase -> A) : stable (base f).
Proof. by intros l0 st Hst. Qed.

Lemma stable_ext {A} (f : X -> A) : stable (ext f).
Proof. by intros l0 st Hst. Qed.

Lemma stable_set_ext f :
  (forall s i o ph x, p s i o ph x -> p s i o ph (f x)) -> stable (set_ext f).
Proof. intros Hf l0 st [Hp Hg]. split; [by apply Hf|done]. Qed.

Lemma stable_set_session_id i' :
  (forall s i o ph x, p s i o ph x -> p s i' o ph x) -> stable (set_session_id i').
Proof. intros Hf l0 st [Hp Hg]. split; [by eapply Hf|done]. Qed.

Lemma stable_set_oper o' :
  (forall s i o ph x, p s i o ph x -> p s i o' ph x) -> stable (set_oper o').
Proof. intros Hf l0 st [Hp Hg]. split; [by eapply Hf|done]. Qed.

Lemma stable_set_phase ph' :
  (forall s i o ph x, p s i o ph x -> p s i o ph' x) -> stable (set_phase ph').
Proof. intros Hf l0 st [Hp Hg]. split; [by eapply Hf|done]. Qed.

Lemma stable_session : stable session.
Proof. by intros l0 st Hst. Qed.

Lemma stable_push_msg m : stable (push_msg m).
Proof. by intros l0 st Hst. Qed.

Lemma stable_set_audit_db_fail b : stable (set_audit_db_fail b).
Proof. by intros l0 st Hst. Qed.

Lemma stable_event e : quiet e -> stable (event e).
Proof.
  intros He l0 st [Hp Hg]. split; [done|]. apply grown_snoc; [done|].
  by apply (la_quiet (S := S) (p := p)).
Qed.

(** After the other threads ran, the object is what they left. *)
Lemma owp_interfere l0 (Q : Shared D -> OpSt D X -> Prop) st :
  holds l0 p good st ->
  (forall sh, let st' := mkSt (st_base st) (st_ext st) sh (st_srv st) (st_trace st) (st_log st) in
     holds l0 p good st' -> Q sh st') ->
  owp (interfere S) Q st.
Proof. intros [Hp Hg] HQ. apply HQ. split; [|done]. by apply la_env. Qed.

(** Changing what is not the lock. *)
Lemma stable_put_shared {A} (sh : Shared D) c d (k : O D X A) l0 st :
  (forall st', holds l0 p good st' -> owp k (fun _ => holds l0 p good) st') ->
  holds l0 p good st -> sh_lock (st_shared st) = sh_lock sh ->
  owp (put_shared (mkShared (sh_lock sh) c d);;; k) (fun _ => holds l0 p good) st.
Proof.
  intros Hk [Hp Hg] E. apply owp_bind, Hk. split; [|done].
  unfold asserts in *. simpl. by rewrite <- E.
Qed.

Lemma stable_ask {A} (f : TcLock -> A) : stable (ask S f).
Proof. intros l0 st Hst. apply owp_bind, (owp_interfere l0); [done|]. intros sh st1 H1. done. Qed.

Lemma stable_recovery db op inst : stable (UpdateRecoveryTable_with S db op inst).
Proof.
  intros l0 st Hst. apply owp_bind, (owp_interfere l0); [done|]. intros sh st1 H1.
  destruct (db_UpdateRecoveryTable _ _ _ _) as [r d].
  apply stable_put_shared; [|done|done]. apply stable_bind; [by apply stable_event|].
  intros. apply stable_ret.
Qed.

Lemma stable_get_recovery cur : stable (GetRecoveryTable_do S cur).
Proof.
  intros l0 st Hst. apply owp_bind, (owp_interfere l0); [done|]. intros sh st1 H1.
  destruct (db_GetRecoveryTable _ _) as [[r row] d].
  apply stable_put_shared; [|done|done]. apply stable_ret.
Qed.

Lemma stable_get_conf cur : stable (GetConfTable_do S cur).
Proof.
  intros l0 st Hst. apply owp_bind, (owp_interfere l0); [done|]. intros sh st1 H1.
  destruct (db_GetConfTable _ _) as [[r row] d].
  apply stable_put_shared; [|done|done]. apply stable_ret.
Qed.

Lemma stable_update_conf b : stable (UpdateConfTable_do S b).
Proof.
  intros l0 st Hst. apply owp_bind, (owp_interfere l0); [done|]. intros sh st1 H1.
  destruct (db_UpdateConfTable _ _) as [r d].
  apply stable_put_shared; [|done|done]. apply stable_ret.
Qed.

Lemma stable_create_msg m : stable (create_msg S m).
Proof. by intros l0 st Hst. Qed.

Lemma stable_execute_msg o : stable (execute_msg S o).
Proof.
  intros l0 st Hst. apply owp_bind, (owp_interfere l0); [done|]. intros sh st1 H1. unfold owp.
  destruct (TcMsg_Execute _ _ _ _) as [r ms]. destruct H1 as [Hp Hg]. split; [done|].
  apply grown_snoc; [done|]. by eapply (la_msg (S := S) (p := p)).
Qed.

Lemma stable_delete_msg o : stable (delete_msg o).
Proof. by intros l0 st Hst. Qed.

Lemma stable_respond n : stable (respond_uint32 S n).
Proof. intros l0 st Hst. unfold owp, respond_uint32. by destruct (srv_set_uint32 _ _ _). Qed.

Lemma stable_forward o : stable (forward_response S o).
Proof.
  intros l0 st Hst. unfold owp, forward_response. destruct (st_srv st); [|done].
  by destruct (ForwardResponseToVTN _ _ _).
Qed.

Lemma stable_never {A} : stable (fun _ => None (A := A * OpSt D X)).
Proof. by intros l0 st Hst. Qed.

(** A choice that the environment makes from the log. *)
Lemma stable_log {A} (f : list OpEvent -> O D X A) :
  (forall l, stable (f l)) -> stable (fun st => f (st_log st) st).
Proof. intros Hf l0 st Hst. by apply Hf. Qed.

End Stable.

Create HintDb stable.
#[export] Hint Extern 1 (Lasting _ _ _) => (eassumption || typeclasses eauto) : stable.
#[export] Hint Resolve stable_ret stable_base stable_ext stable_session
  stable_push_msg stable_set_audit_db_fail stable_ask stable_recovery
  stable_get_recovery stable_get_conf stable_update_conf stable_create_msg stable_execute_msg
  stable_delete_msg stable_respond stable_forward stable_never : stable.
#[export] Hint Extern 1 (stable _ _ (obind _ _)) => apply stable_bind; [|intros ?] : stable.
#[export] Hint Extern 1 (stable _ _ (event _)) => eapply stable_event; [eassumption || typeclasses eauto|exact I] : stable.
#[export] Hint Extern 2 (stable _ _ (if ?b then _ else _)) => destruct b : stable.
#[export] Hint Extern 2 (stable _ _ (match ?x with _ => _ end)) => destruct x : stable.

(** ** Calls on the lock *)

Section Calls.

Context (R : TcLock -> TcLock -> Prop) (W : WaitKind -> TcLock -> TcLock -> Prop).

(** A wait and what follows it. *)
Inductive awaits : WaitKind -> TcLock -> TcLockRet -> TcLock -> Prop :=
| aw_done k s1 s2 r s' :
    W k s1 s2 -> resume k s2 = Done r s' -> awaits k s1 r s'
| aw_more k s1 s2 k' s3 r s' :
    W k s1 s2 -> resume k s2 = Blocked k' s3 -> awaits k' s3 r s' -> awaits k s1 r s'.

(** What a call, with the wait it may contain, does to the object. *)
Inductive lock_result (o : LockOp) (s : TcLock) (r : TcLockRet) (s' : TcLock) : Prop :=
| lr_done : lock_call o s = Done r s' -> lock_result o s r s'
| lr_wait k s1 : lock_call o s = Blocked k s1 -> awaits k s1 r s' -> lock_result o s r s'.

Context {D X : Type} `{TcDbI D} (S : Setting D).
Hypothesis Henv : env_follows R W (set_the_env S).
Implicit Type st : OpSt D X.

Lemma await_awaits n log k sh r sh1 :
  await S n log k sh = Some (r, sh1) -> awaits k (sh_lock sh) r (sh_lock sh1).
Proof.
  revert k sh. induction n as [|n IH]; intros k sh; simpl; [done|].
  destruct (e_wait _ _ _ _) as [sh2|] eqn:Ew; [|done]. apply (ef_wait _ _ _ Henv) in Ew.
  destruct (resume k (sh_lock sh2)) as [r' s|k' s] eqn:Ek.
  - intros [= <- <-]. by eapply aw_done.
  - intros Ha. apply IH in Ha. by eapply aw_more.
Qed.

Lemma owp_lock_do o (Q : TcLockRet -> OpSt D X -> Prop) st :
  (forall s r s' c d, R (sh_lock (st_shared st)) s -> lock_result o s r s' ->
     Q r (mkSt (st_base st) (st_ext st) (mkShared s' c d) (st_srv st) (st_trace st)
            (st_log st ++ [EvLock o r]))) ->
  owp (lock_do S o) Q st.
Proof.
  intros HQ. unfold owp, lock_do, interfere, obind.
  set (sh := e_step (set_the_env S) (st_log st) (st_shared st)).
  assert (R (sh_lock (st_shared st)) (sh_lock sh)) as Hr by apply Henv.
  destruct (lock_call o (sh_lock sh)) as [r s'|k s1] eqn:E; cbn -[await].
  - apply (HQ (sh_lock sh)); [done|by constructor].
  - destruct (await S 2 _ _ _) as [[r [s' c d]]|] eqn:Ew; [|done].
    apply await_awaits in Ew. cbn in *. apply (HQ (sh_lock sh)); [done|].
    by eapply lr_wait.
Qed.

End Calls.

(** A call that cannot wait always returns. *)
Definition never_waits (o : LockOp) : bool :=
  match o with
  | OpGetLock _ TC_ACQUIRE_WRITE_SESSION TC_AUDIT_DRIVER => false
  | OpGetLock _ TC_ACQUIRE_READ_LOCK_FOR_STATE_TRANSITION _ => false
  | _ => true
  end.

Lemma never_waits_done o s : never_waits o = true -> exists r s', lock_call o s = Done r s'.
Proof.
  destruct o as [sid op wop|sid cid op wop| | | | |];
    try solve [intros _; simpl; unfold returns; eauto].
  cbn [lock_call]. unfold GetLock. split_match; [eauto|].
  destruct op; intros Hn; try discriminate Hn; unfold returns; eauto.
  - destruct wop; try discriminate Hn; simpl; unfold returns; eauto.
  - unfold auto_save_then_write. split_match. split_match; [|eauto]. simpl.
    unfold returns. split_match; eauto.
  - unfold auto_save_then_write. split_match. split_match; [|eauto]. simpl.
    unfold returns. split_match; eauto.
Qed.

Lemma total_lock_do {D X} `{TcDbI D} (S : Setting D) o :
  never_waits o = true -> total (X := X) (lock_do S o).
Proof.
  intros Hn st. unfold lock_do, interfere, obind.
  set (sh := e_step _ _ _). destruct (never_waits_done o (sh_lock sh) Hn) as (r&s'&->).
  by eexists.
Qed.

Lemma owp_and_then {D X} (m k : O D X TcOperStatus) (Q : TcOperStatus -> OpSt D X -> Prop) st :
  owp m (fun r st' => if r ==? TC_OPER_SUCCESS then owp k Q st' else Q r st') st ->
  owp (and_then m k) Q st.
Proof.
  intros Hm. apply owp_bind. eapply owp_mono; [exact Hm|]. cbn beta.
  intros r st'. by destruct (r ==? TC_OPER_SUCCESS).
Qed.

(** An object of its own. *)
Lemma owp_with_object {D X Y A} b (y : Y) srv (m : O D Y A)
    (Q : A * OpSt D Y -> OpSt D X -> Prop) (st : OpSt D X) :
  owp m (fun a st1 => Q (a, st1) (mkSt (st_base st) (st_ext st) (st_shared st1) (st_srv st)
                                   (st_trace st1) (st_log st1)))
    (mkSt b y (st_shared st) srv (st_trace st) (st_log st)) ->
  owp (with_object b y srv m) Q st.
Proof. unfold owp, with_object. by destruct (m _) as [[a st1]|]. Qed.

(** ** The common parts of the operations keep what lasts *)

Section Common.

Context {D X : Type} `{TcDbI D} (S : Setting D).
Context (p : Assertion X) (good : OpEvent -> Prop).
Context `{!Lasting S p good}.
Local Abbreviation stable := (stable (D := D) (X := X) p good).

Lemma stable_and_then m k : stable m -> stable k -> stable (and_then m k).
Proof. unfold and_then. eauto with stable. Qed.

Lemma stable_or_failure m k : stable m -> stable k -> stable (or_failure m k).
Proof. unfold or_failure. eauto with stable. Qed.

Lemma stable_read_arg {A} (r : TcUtilRet * option A) k :
  (forall a, stable (k a)) -> stable (read_arg r k).
Proof. intros Hk. unfold read_arg. destruct r as [[] []]; eauto with stable. Qed.

Lemma stable_SetOperType : stable (SetOperType S).
Proof. unfold SetOperType. eauto with stable. Qed.

Lemma stable_SetSessionId : stable (SetSessionId S).
Proof. unfold SetSessionId. eauto with stable. Qed.

Lemma stable_SetOperStatus r : stable (SetOperStatus S r).
Proof. unfold SetOperStatus. eauto with stable. Qed.

Lemma stable_SendResponse f r : (forall r, stable (f r)) -> stable (SendResponse S f r).
Proof.
  intros Hf. unfold SendResponse.
  eauto 9 using stable_or_failure, stable_SetOperType, stable_SetSessionId,
    stable_SetOperStatus with stable.
Qed.

(** Sending a list of messages, one of which may be SETUP_COMPLETE. *)
Lemma stable_execute_list fill hmr l :
  (forall o m, stable (fill o m)) -> stable (lock_do S (OpSetSetupComplete true)) ->
  stable (execute_list S fill hmr l).
Proof.
  intros Hf Hs. induction l as [|m l IH]; simpl; eauto with stable.
  apply stable_bind; [eauto with stable|]. intros [o|]; [|eauto with stable].
  apply stable_bind; [done|]. intros pr.
  repeat (first [apply stable_bind; [|intros ?] | split_match]; eauto with stable).
Qed.

Lemma stable_Execute fill hmr :
  (forall o m, stable (fill o m)) -> stable (lock_do S (OpSetSetupComplete true)) ->
  stable (Execute S fill hmr).
Proof.
  intros Hf Hs. unfold Execute. apply stable_bind; [eauto with stable|].
  intros l. destruct l; [eauto with stable|]. by apply stable_execute_list.
Qed.

Lemma stable_HandleArgs gs n vt ct vp :
  stable GetOperType -> stable gs -> stable vt -> (forall c, stable (ct c)) -> stable vp ->
  stable (HandleArgs gs n vt ct vp).
Proof.
  intros. unfold HandleArgs. apply stable_bind; [eauto with stable|].
  intros [ss|]; [split_match|]; eauto 9 using stable_and_then with stable.
Qed.

Lemma stable_RevokeOperation (v : Vtable D X) r :
  (forall r, stable (v_SendResponse v r)) -> stable (v_TcReleaseExclusion v) ->
  stable (RevokeOperation v r).
Proof.
  intros Hs Hr. unfold RevokeOperation. apply stable_bind; [eauto with stable|].
  intros ph. destruct ph; eauto with stable.
Qed.

Lemma stable_or_revoke (v : Vtable D X) m k :
  (forall r, stable (v_SendResponse v r)) -> stable (v_TcReleaseExclusion v) ->
  stable m -> stable k -> stable (or_revoke v m k).
Proof.
  intros. unfold or_revoke. apply stable_bind; [done|]. intros r.
  split_match; [by apply stable_RevokeOperation|done].
Qed.

End Common.

#[export] Hint Resolve stable_and_then stable_or_failure stable_read_arg stable_SetOperType
  stable_SetSessionId stable_SetOperStatus stable_SendResponse stable_Execute : stable.

(** Follow the structure of the operation. *)
Ltac stable_auto :=
  cbv zeta;
  repeat first
    [ solve [eauto 2 with stable]
    | match goal with
      | |- stable _ _ (obind _ _) => apply stable_bind; [|intros ?]
      | |- stable _ _ (match _ with _ => _ end) => split_match
      | |- stable _ _ (and_then _ _) => unfold and_then
      | |- stable _ _ (or_failure _ _) => unfold or_failure
      | |- stable _ _ (read_arg ?r _) => unfold read_arg
      | |- stable _ _ (or_revoke _ _ _) => apply stable_or_revoke; [intros ?|..]
      | |- stable _ _ (RevokeOperation _ _) => apply stable_RevokeOperation; [intros ?|]
      end ].

(** ** A daemon to evaluate the operations on

    The active daemon with a configuration session of session 5 and identifier
    1, the small database of TcDbTheorems, participants without errors, and no
    other thread: the concrete input of the witnesses about requests. *)

Module Scenario.

Definition D : Type := TcDbHandler Tables.Db.
#[global] Instance D_dbi : TcDbI D := handler_dbi Tables.odbc.

Definition srv_ok : SrvIpc := mkSrvIpc (fun _ => 0) (fun _ _ => 0) (fun _ _ => 0).

(** Nothing happens beside the operation, and no wait ends. *)
Definition alone : Env D :=
  mkEnv (fun _ sh => sh) (fun _ _ _ => None) (fun _ _ => None) (fun _ => 0).

Definition setting_of (ipc : Ipc) : Setting D :=
  mkSetting ipc "end" srv_ok alone two_channels.
Definition setting : Setting D := setting_of ipc_ok.

Definition lock : TcLock := sys_lock (run_from_init anyone true (activate ++ config_by 5 1)).
Definition db : D := (InitDB Tables.odbc Tables.handler).2.

Definition shared : Shared D := mkShared lock statics_new db.

(** The module, idle. *)
Definition idle : OpSt D Mod := mkSt (base_new false) (mkMod ACT 3) shared None [] [].

(** A commit of session 5, and its request of the configuration session. *)
Definition commit_request : ServerSession :=
  mkSrv [VU32 TC_OP_CANDIDATE_COMMIT; VU32 5; VU32 1] [].
Definition acquire_request : ServerSession := mkSrv [VU32 TC_OP_CONFIG_ACQUIRE; VU32 5] [].

End Scenario.
