(* ===== verification/TcTermination.v ===== *)
(** * Requests are answered

    Every service returns, whatever the other threads, the database and the
    other daemons do, except a timed acquisition of the configuration session,
    which waits for its turn.  Waiting calls on the lock are the only other
    way for an operation of the model not to return; no service makes one.  That
    a wait for a mutex or a call over IPC ends is part of the model. *)

From S2P Require Import Prelude TcTypes TcRwLock TcLock TcIpc TcMsg TcServer TcOper.
From S2P Require Import TcOperProps TcOperSimple TcOperConfig TcOperCandidate.
From S2P Require Import TcOperAudit TcModule TcOperProps.

Local Open Scope Z_scope.

(** ** Totality of the primitives *)

Section Total.

Context {D X : Type} `{TcDbI D} (S : Setting D).
Local Abbreviation total := (total (D := D) (X := X)).

Lemma total_base {A} (f : OpBase -> A) : total (base f).
Proof. by eexists. Qed.
Lemma total_set_base f : total (set_base f).
Proof. by eexists. Qed.
Lemma total_ext {A} (f : X -> A) : total (ext f).
Proof. by eexists. Qed.
Lemma total_set_ext f : total (set_ext f).
Proof. by eexists. Qed.
Lemma total_session : total session.
Proof. by eexists. Qed.
Lemma total_event e : total (event e).
Proof. by eexists. Qed.
Lemma total_interfere : total (interfere S).
Proof. by eexists. Qed.
Lemma total_put_shared sh : total (put_shared sh).
Proof. by eexists. Qed.
Lemma total_delete_msg o : total (delete_msg o).
Proof. by eexists. Qed.
Lemma total_create_msg m : total (create_msg S m).
Proof. by eexists. Qed.

Lemma total_execute_msg o : total (execute_msg S o).
Proof.
  apply total_bind; [apply total_interfere|]. intros sh st.
  cbv beta zeta. destruct (TcMsg_Execute _ _ _ _). by eexists.
Qed.

Lemma total_respond n : total (respond_uint32 S n).
Proof. intros st. unfold respond_uint32. destruct (srv_set_uint32 _ _ _). by eexists. Qed.

Lemma total_forward o : total (forward_response S o).
Proof.
  intros st. unfold forward_response. destruct (st_srv st); [|by eexists].
  destruct (ForwardResponseToVTN _ _ _). by eexists.
Qed.

(** The factory knows the message. *)
Lemma total_create_known {A} m (k : MsgObj -> O D X A) :
  (forall i c, is_Some (CreateInstance i m c)) -> (forall o, total (k o)) ->
  total (o <- create_msg S m; match o with None => fun _ => None | Some msg => k msg end).
Proof.
  intros Hm Hk st. unfold obind, create_msg, base, obind, oret.
  destruct (Hm (op_session_id (st_base st)) (set_channels S)) as [[c d] ->]. apply Hk.
Qed.

Lemma total_with_object {Y A} b (y : Y) srv (m : O D Y A) :
  (forall sh t l, is_Some (m (mkSt b y sh srv t l))) -> total (with_object b y srv m).
Proof.
  intros Hm st. unfold with_object.
  destruct (Hm (st_shared st) (st_trace st) (st_log st)) as [[a st1] ->]. by eexists.
Qed.

End Total.

Create HintDb total.
#[export] Hint Resolve total_ret total_base total_set_base total_ext total_set_ext total_session
  total_event total_interfere total_put_shared total_delete_msg total_create_msg
  total_execute_msg total_respond total_forward : total.
#[export] Hint Extern 1 (total (lock_do _ _)) => apply total_lock_do; reflexivity : total.
#[export] Hint Extern 1 (total (GetLock_do _ _ _ _)) => apply total_lock_do; reflexivity : total.
#[export] Hint Extern 1 (total (ReleaseLock_do _ _ _ _ _)) =>
  apply total_lock_do; reflexivity : total.
#[export] Hint Extern 1 (total (set_session_id _)) => apply total_set_base : total.
#[export] Hint Extern 1 (total (set_oper _)) => apply total_set_base : total.
#[export] Hint Extern 1 (total (push_msg _)) => apply total_set_base : total.
#[export] Hint Extern 1 (total (set_phase _)) => apply total_set_base : total.
#[export] Hint Extern 1 (total (set_audit_db_fail _)) => apply total_set_base : total.

(** Follow the structure of the operation. *)
Ltac total_auto :=
  cbv zeta;
  repeat first
    [ solve [eauto 2 with total]
    | match goal with
      | |- total (obind (create_msg _ _) _) =>
          apply total_create_known; [intros; by eexists|intros ?]
      | |- total (obind _ _) => apply total_bind; [|intros ?]
      | |- total (match _ with _ => _ end) => split_match
      | |- total (and_then _ _) => unfold and_then
      | |- total (or_failure _ _) => unfold or_failure
      | |- total (read_arg ?r _) => unfold read_arg
      | |- total (ask _ _) => unfold ask
      | |- total (UpdateRecoveryTable_do _ _ _) =>
          unfold UpdateRecoveryTable_do, UpdateRecoveryTable_with
      | |- total (UpdateConfTable_do _ _) => unfold UpdateConfTable_do
      | |- total (GetConfTable_do _ _) => unfold GetConfTable_do
      | |- total (GetRecoveryTable_do _ _) => unfold GetRecoveryTable_do
      | |- total (HandleArgs _ _ _ _ _) => unfold HandleArgs
      | |- total GetOperType => unfold GetOperType
      | |- total GetSessionId => unfold GetSessionId
      | |- total (SendResponse _ _ _) =>
          unfold SendResponse, SetOperType, SetSessionId, SetOperStatus
      | |- total (or_revoke _ _ _) => unfold or_revoke
      | |- total (RevokeOperation _ _) => unfold RevokeOperation
      | |- total (fun st => _) =>
          let st := fresh "st" in intros st; cbv beta;
          lazymatch goal with |- is_Some (?m st) =>
            let Hm := fresh in enough (total m) as Hm by apply Hm end
      end ].

Section Common.

Context {D X : Type} `{TcDbI D} (S : Setting D).
Local Abbreviation total := (total (D := D) (X := X)).

Lemma total_execute_list fill hmr l :
  (forall o m, total (fill o m)) -> total (execute_list S fill hmr l).
Proof.
  intros Hf. induction l as [|m l IH]; simpl; [eauto with total|].
  apply total_bind; [eauto with total|]. intros [o|]; total_auto.
Qed.

Lemma total_Execute fill hmr : (forall o m, total (fill o m)) -> total (Execute S fill hmr).
Proof.
  intros Hf. unfold Execute. apply total_bind; [eauto with total|].
  intros l. destruct l; [eauto with total|]. by apply total_execute_list.
Qed.

(** The phases of an operation whose methods all return. *)
Lemma total_run_phases (v : Vtable D X) :
  total (v_TcGetExclusion v) -> total (v_TcReleaseExclusion v) -> total (v_TcCreateMsgList v) ->
  total (v_Execute v) -> (forall r, total (v_SendResponse v r)) -> total (run_phases v).
Proof. intros. unfold run_phases. total_auto. Qed.

Lemma total_Dispatch (v : Vtable D X) :
  total (v_HandleArgs v) -> total (v_TcGetExclusion v) -> total (v_TcReleaseExclusion v) ->
  total (v_TcCreateMsgList v) -> total (v_Execute v) -> (forall r, total (v_SendResponse v r)) ->
  total (Dispatch v).
Proof. intros. unfold Dispatch. pose proof (total_run_phases v). total_auto. Qed.

(** A step that returns, followed by one that returns from where it leads. *)
Lemma returns_bind {A B} (m : O D X B) (f : B -> O D X A) (Q : B -> OpSt D X -> Prop) st :
  total m -> owp m Q st -> (forall b st', Q b st' -> is_Some (f b st')) ->
  is_Some (obind m f st).
Proof.
  intros Hm HQ Hf. unfold obind, owp in *. destruct (Hm st) as [[b st1] E].
  rewrite E in *. by apply Hf.
Qed.

End Common.

(** ** The operations *)

Section Operations.

Context {D : Type} `{TcDbI D} (S : Setting D).

Lemma total_GetLock_do {X} sid op wop :
  never_waits (OpGetLock sid op wop) = true ->
  total (D := D) (X := X) (GetLock_do S sid op wop).
Proof. apply total_lock_do. Qed.

Lemma Read_total : total (Read.Dispatch S).
Proof.
  apply total_Dispatch; cbn [Read.vtable v_HandleArgs v_TcGetExclusion v_TcReleaseExclusion
    v_TcCreateMsgList v_Execute v_SendResponse];
    unfold Read.TcValidateOperType, Read.TcCheckOperArgCount, Read.TcValidateOperParams,
      Read.TcGetExclusion, Read.Execute; intros; total_auto.
Qed.

Lemma AutoSave_total : total (AutoSave.Dispatch S).
Proof.
  apply total_Dispatch; cbn [AutoSave.vtable v_HandleArgs v_TcGetExclusion
    v_TcReleaseExclusion v_TcCreateMsgList v_Execute v_SendResponse];
    unfold AutoSave.TcValidateOperType, AutoSave.TcCheckOperArgCount, AutoSave.TcGetExclusion,
      AutoSave.TcReleaseExclusion, AutoSave.Execute, AutoSave.change_to, AutoSave.notify_change,
      AutoSave.SendAdditionalResponse, AutoSave.SetAutoSave; intros; total_auto.
  apply total_GetLock_do. unfold AutoSave.lock_operation. by repeat split_match.
Qed.

Lemma DbOper_total : total (DbOper.Dispatch S).
Proof.
  assert (total (run_phases (DbOper.vtable S))) as Hrun.
  { apply total_run_phases; cbn [DbOper.vtable v_TcGetExclusion v_TcReleaseExclusion
      v_TcCreateMsgList v_Execute v_SendResponse];
      unfold DbOper.TcGetExclusion, DbOper.TcReleaseExclusion, DbOper.TcCreateMsgList,
        DbOper.SendAdditionalResponse; intros; total_auto.
    - apply total_GetLock_do. unfold DbOper.write_operation. by split_match.
    - apply total_Execute. intros. unfold DbOper.FillTcMsgData. total_auto. }
  unfold DbOper.Dispatch. cbn [DbOper.vtable v_HandleArgs v_SendResponse].
  unfold DbOper.TcValidateOperType, DbOper.TcCheckOperArgCount, or_revoke, RevokeOperation.
  cbn [DbOper.vtable v_TcReleaseExclusion v_SendResponse].
  unfold DbOper.TcReleaseExclusion, DbOper.SendAdditionalResponse. total_auto.
Qed.

(** Everything of the configuration session but the timed acquisition. *)
Lemma Config_notify_total : total (Config.notify_phases S).
Proof.
  assert (total (v_Execute (Config.vtable S))) as Hexec.
  { apply total_Execute. intros. unfold Config.FillTcMsgData. total_auto. }
  assert (forall r, total (v_SendResponse (Config.vtable S) r)) as Hsend.
  { intros r. cbn. unfold Config.SendAdditionalResponse, Config.SetConfigId. total_auto. }
  assert (total (Config.TcReleaseExclusion S)) as Hrel.
  { unfold Config.TcReleaseExclusion. total_auto. }
  unfold Config.notify_phases, Config.TcCreateMsgList, Config.HandleConfigRelease,
    Config.statics. total_auto.
Qed.

(** ** What was asked for *)

(** The operation the request names, or the one the object was created for. *)
Definition asked {X} (P : TcServiceType -> Prop) (st : OpSt D X) : Prop :=
  match st_srv st with
  | None => P (tc_oper_ (st_base st))
  | Some _ => forall n, srv_get_uint32 (st_srv st) TC_REQ_OP_TYPE_INDEX =
                          (TCUTIL_RET_SUCCESS, Some n) -> P n
  end.

Definition of_oper {X} (P : TcServiceType -> Prop) : Assertion X := fun _ _ o _ _ => P o.

#[local] Instance of_oper_lasting {X} P : Lasting S (of_oper (X := X) P) any_event.
Proof. by constructor. Qed.

Lemma stable_of_oper {X A} P (m : O D X A) st :
  stable (of_oper P) any_event m -> P (tc_oper_ (st_base st)) ->
  owp m (fun _ st' => P (tc_oper_ (st_base st'))) st.
Proof.
  intros Hm HP. eapply owp_mono; [apply (Hm (st_log st))|by intros ? ? []].
  split; [done|apply grown_refl].
Qed.

Lemma HandleArgs_oper {X} P gs n vt ct vp (st : OpSt D X) :
  stable (of_oper P) any_event gs -> stable (of_oper P) any_event vt ->
  (forall c, stable (of_oper P) any_event (ct c)) -> stable (of_oper P) any_event vp ->
  asked P st ->
  owp (HandleArgs gs n vt ct vp)
    (fun r st' => r = TC_OPER_SUCCESS -> P (tc_oper_ (st_base st'))) st.
Proof.
  intros Hgs Hvt Hct Hvp Hst. unfold asked in Hst. apply owp_bind. unfold owp at 1, session.
  cbn beta iota. destruct (st_srv st) as [ss|] eqn:Es.
  2: { eapply owp_mono; [apply (stable_of_oper P); [stable_auto|exact Hst]|]. auto. }
  split_match; [|by apply owp_ret]. apply owp_and_then.
  unfold owp at 1, GetOperType, obind, session. rewrite Es. unfold read_arg.
  destruct (srv_get_uint32 (Some ss) TC_REQ_OP_TYPE_INDEX) as [[] [op|]]; try done.
  specialize (Hst op eq_refl). unfold set_oper, set_base, oret at 1. cbn beta iota.
  rewrite bool_decide_eq_true_2 by done.
  eapply owp_mono; [apply (stable_of_oper P); [stable_auto|exact Hst]|]. auto.
Qed.

Lemma Config_send_total r : total (v_SendResponse (Config.vtable S) r).
Proof. cbn. unfold Config.SendAdditionalResponse, Config.SetConfigId. total_auto. Qed.

Lemma Config_revoke_total r : total (RevokeOperation (Config.vtable S) r).
Proof.
  unfold RevokeOperation. cbn [Config.vtable v_TcReleaseExclusion].
  unfold Config.TcReleaseExclusion. pose proof Config_send_total. total_auto.
Qed.

Lemma Config_returns st :
  asked (fun o => o <> TC_OP_CONFIG_ACQUIRE_TIMED) st -> is_Some (Config.Dispatch S st).
Proof.
  intros Hst. unfold Config.Dispatch, obind at 1, set_phase, set_base. cbn beta iota.
  unfold or_revoke at 1.
  eapply (returns_bind _ _ (fun r st' => r = TC_OPER_SUCCESS ->
    tc_oper_ (st_base st') <> TC_OP_CONFIG_ACQUIRE_TIMED)).
  - cbn [Config.vtable v_HandleArgs]. unfold Config.TcValidateOperType,
      Config.TcCheckOperArgCount, Config.TcValidateOperParams. total_auto.
  - apply (HandleArgs_oper (fun o => o <> TC_OP_CONFIG_ACQUIRE_TIMED)); [..|exact Hst];
      intros; unfold GetSessionId, Config.TcValidateOperType, Config.TcCheckOperArgCount,
        Config.TcValidateOperParams; stable_auto.
  - intros r st1 Hop. destruct (r ==? TC_OPER_SUCCESS) eqn:Er; cbn [negb].
    2: apply Config_revoke_total.
    bool_norm. specialize (Hop Er). unfold obind at 1, base. cbn beta iota.
    rewrite (bool_decide_eq_false_2 (_ = TC_OP_CONFIG_ACQUIRE_TIMED)) by done.
    match goal with |- is_Some (?m st1) => enough (total m) as Hm by apply Hm end.
    pose proof Config_revoke_total. pose proof Config_notify_total.
    unfold Config.look, Config.change, Config.statics, Config.TcGetExclusion, or_revoke.
    total_auto. by eexists.
Qed.

(** *** Commit and abort *)

Section Candidate.

Context (this : Z) (garbage : bool).

Lemma Candidate_release_total : total (Candidate.TcReleaseExclusion S this garbage).
Proof.
  unfold Candidate.TcReleaseExclusion, Candidate.release_config. total_auto.
  apply total_with_object. intros. by apply Config_returns.
Qed.

Lemma Candidate_send_total m :
  (forall i c, is_Some (CreateInstance i m c)) -> total (Candidate.send_msg S m).
Proof.
  intros Hm. unfold Candidate.send_msg, Candidate.FillTcMsgData.
  apply total_create_known; [done|]. intros. total_auto.
Qed.

Lemma Candidate_rest_total l : total (Candidate.execute_rest S l).
Proof.
  induction l as [|m l IH]; simpl; unfold Candidate.FillTcMsgData; total_auto.
Qed.

Lemma Candidate_execute_total : total (Candidate.Execute S).
Proof.
  pose proof Candidate_rest_total.
  assert (forall m, (forall i c, is_Some (CreateInstance i m c)) ->
    total (Candidate.send_msg S m)) as Hm by apply Candidate_send_total.
  unfold Candidate.Execute, Candidate.step, Candidate.TransStartMsg, Candidate.TransVoteMsg,
    Candidate.TransGlobalCommitMsg, Candidate.TransEndMsg.
  total_auto; apply Hm; by eexists.
Qed.

Lemma Candidate_get_total : total (Candidate.TcGetExclusion S).
Proof.
  unfold Candidate.TcGetExclusion. total_auto.
  apply total_GetLock_do. unfold Candidate.write_operation. by split_match.
Qed.

Lemma Candidate_list_total : total (Candidate.TcCreateMsgList S).
Proof. unfold Candidate.TcCreateMsgList. total_auto. Qed.

Lemma Candidate_total : total (Candidate.Dispatch S this garbage).
Proof.
  apply total_Dispatch; cbn [Candidate.vtable v_HandleArgs v_TcGetExclusion
    v_TcReleaseExclusion v_TcCreateMsgList v_Execute v_SendResponse];
    auto using Candidate_release_total, Candidate_execute_total, Candidate_get_total,
      Candidate_list_total; intros;
    unfold Candidate.TcValidateOperType, Candidate.TcCheckOperArgCount,
      Candidate.TcValidateOperParams, Candidate.SendResponse, Candidate.SetConfigId, SetOperType, SetSessionId, SetOperStatus;
    total_auto.
Qed.

End Candidate.

(** *** Audits *)

(** The operation does not need the lock a driver's audit waits for. *)
Definition audit_waitless (st : OpSt D Audit.Ext) : Prop :=
  tc_oper_ (st_base st) = TC_OP_USER_AUDIT \/ Audit.api_audit_ (st_ext st) = true.

Definition audit_oper (o : TcServiceType) : Prop :=
  o = TC_OP_USER_AUDIT \/ o = TC_OP_DRIVER_AUDIT.

Lemma Audit_params st :
  audit_oper (tc_oper_ (st_base st)) ->
  owp (Audit.TcValidateOperParams S) (fun r st' => r = TC_OPER_SUCCESS -> audit_waitless st') st.
Proof.
  intros Hop. destruct st as [b x sh srv tr lg]. cbn in Hop.
  unfold owp, Audit.TcValidateOperParams, obind, base, session. cbn.
  destruct (srv_get_string srv _) as [r1 c1].
  match goal with |- context [if ?c then srv_get_uint8 ?a ?n else ?d] =>
    destruct (if c then srv_get_uint8 a n else d) as [r2 c2] end. cbn.
  assert (exists x1,
    (match c1 with Some c => set_ext (Audit.with_controller c) | None => oret tt end)
      (mkSt b x sh srv tr lg) = Some (tt, mkSt (D := D) b x1 sh srv tr lg)) as (x1&->)
    by (destruct c1; by eexists).
  cbn. destruct (_ || _); [done|]. destruct (_ || _); [done|].
  destruct (is_empty _); [done|]. cbn.
  destruct (tc_oper_ b ==? TC_OP_DRIVER_AUDIT) eqn:Eo; bool_norm.
  2: { intros _. left. by destruct Hop. }
  unfold Audit.accept_driver_audit, obind, session, read_arg. cbn.
  destruct (srv_get_uint8 srv _) as [[] [d|]]; try done.
  cbn. destruct (d ==? UNC_CT_UNKNOWN); [done|]. cbn.
  destruct (e_post _ _ ==? 0); cbn; [|done]. intros _. by right.
Qed.

Lemma Audit_type st :
  owp (Audit.TcValidateOperType S)
    (fun r st' => r = TC_OPER_SUCCESS -> audit_oper (tc_oper_ (st_base st'))) st.
Proof.
  unfold owp, Audit.TcValidateOperType, obind, base.
  destruct ((_ !=? _) && _) eqn:E; [done|].
  assert (audit_oper (tc_oper_ (st_base st))) as Hop
    by (unfold audit_oper; bool_norm; destruct E; bool_norm; auto).
  unfold session, oret. repeat split_match; by intros ?.
Qed.

Lemma Audit_args st :
  is_Some (st_srv st) ->
  owp (v_HandleArgs (Audit.vtable S)) (fun r st' => r = TC_OPER_SUCCESS -> audit_waitless st') st.
Proof.
  intros [ss Es]. cbn [Audit.vtable v_HandleArgs]. apply owp_bind. unfold owp at 1, session.
  cbn beta iota. rewrite Es. split_match; [|by apply owp_ret].
  assert (forall m k st, (forall st, owp k (fun r st' => r = TC_OPER_SUCCESS ->
    audit_waitless st') st) -> owp (and_then m k) (fun r st' => r = TC_OPER_SUCCESS ->
    audit_waitless st') st) as Hskip.
  { intros m k st' Hk. apply owp_and_then. unfold owp at 1.
    destruct (m st') as [[r st1]|]; [|done]. split_match; [apply Hk|]. bool_norm. by intros ->. }
  apply Hskip. intros st1. apply Hskip. intros st2.
  apply owp_and_then. eapply owp_mono; [apply Audit_type|]. cbn beta. intros r st3 Hop.
  split_match; bool_norm; [|by intros ->]. specialize (Hop E0).
  apply owp_and_then. unfold owp at 1, Audit.TcCheckOperArgCount.
  split_match; [done|]. cbn.
  apply owp_and_then. eapply owp_mono; [by apply Audit_params|]. cbn beta.
  intros r' st4 Hw. split_match; bool_norm; [|by intros ->]. apply owp_ret. auto.
Qed.

Lemma Audit_send_total m :
  (forall i c, is_Some (CreateInstance i m c)) -> total (Audit.send_msg S m).
Proof.
  intros Hm. unfold Audit.send_msg, Audit.FillTcMsgData.
  apply total_create_known; [done|]. intros. total_auto.
Qed.

Lemma Audit_execute_total : total (Audit.Execute S).
Proof.
  assert (forall m, (forall i c, is_Some (CreateInstance i m c)) ->
    total (Audit.send_msg S m)) as Hm by apply Audit_send_total.
  unfold Audit.Execute, Audit.finish, Audit.step, Audit.GetDriverType, Audit.AuditStart,
    Audit.AuditTransStart, Audit.AuditVote, Audit.AuditGlobalCommit, Audit.AuditTransEnd,
    Audit.AuditEnd, Audit.end_msg, Audit.fail_with.
  total_auto; apply Hm; by eexists.
Qed.

Lemma Audit_release_total : total (Audit.TcReleaseExclusion S).
Proof. unfold Audit.TcReleaseExclusion. total_auto. Qed.

Lemma Audit_respond_total r : total (v_SendResponse (Audit.vtable S) r).
Proof.
  cbn. unfold Audit.SendAdditionalResponse, Audit.SetAuditOperationStatus. total_auto.
Qed.

Lemma Audit_revoke_total r : total (RevokeOperation (Audit.vtable S) r).
Proof.
  pose proof Audit_respond_total. pose proof Audit_release_total.
  unfold RevokeOperation. cbn [Audit.vtable v_TcReleaseExclusion]. total_auto.
Qed.

Lemma Audit_get_returns st : audit_waitless st -> is_Some (Audit.TcGetExclusion S st).
Proof.
  intros Hw. unfold Audit.TcGetExclusion. unfold obind at 1, base at 1. cbn beta iota.
  unfold obind at 1, base at 1. cbn beta iota. unfold obind at 1, ext. cbn beta iota.
  match goal with |- is_Some (?m st) => enough (total m) as Hm by apply Hm end.
  destruct (tc_oper_ (st_base st) ==? TC_OP_USER_AUDIT) eqn:Eo; bool_norm.
  - cbn [negb andb]. apply total_bind; [|intros; total_auto]. apply total_GetLock_do.
    unfold Audit.write_operation. by rewrite bool_decide_eq_true_2.
  - destruct Hw as [|Hw]; [done|]. rewrite Hw. cbn [negb andb]. apply total_ret.
Qed.

Lemma Audit_returns st : is_Some (st_srv st) -> is_Some (Audit.Dispatch S st).
Proof.
  intros Hss. unfold Audit.Dispatch, TcOper.Dispatch, obind at 1, set_phase, set_base.
  cbn beta iota. unfold or_revoke at 1.
  eapply (returns_bind _ _ (fun r st' => r = TC_OPER_SUCCESS -> audit_waitless st')).
  - cbn [Audit.vtable v_HandleArgs]. unfold Audit.TcValidateOperType, Audit.GetSessionId,
      Audit.TcCheckOperArgCount, Audit.TcValidateOperParams, Audit.accept_driver_audit.
    total_auto.
  - by apply Audit_args.
  - intros r st1 Hw. split_match; bool_norm; [apply Audit_revoke_total|]. specialize (Hw E).
    unfold run_phases, obind at 1, set_phase, set_base. cbn beta iota. unfold or_revoke at 1.
    unfold obind at 1. cbn [Audit.vtable v_TcGetExclusion].
    match goal with |- context [Audit.TcGetExclusion S ?st2] =>
      destruct (Audit_get_returns st2 Hw) as [[r2 st3] ->] end.
    match goal with |- is_Some (?m st3) => enough (total m) as Hm by apply Hm end.
    pose proof Audit_revoke_total. pose proof Audit_execute_total.
    pose proof Audit_release_total. pose proof Audit_respond_total.
    cbn [Audit.vtable v_TcCreateMsgList v_Execute v_TcReleaseExclusion].
    total_auto; by eexists.
Qed.

End Operations.

(** ** Termination of the services *)

Section Services.

Context {D : Type} `{TcDbI D} (S : Setting D) (garbage : bool) (this : Z).

Lemma ipcService_returns (s : ServerSession) (service : Z) (st : OpSt D Mod) :
  (service = TC_CONFIG_SERVICES ->
   srv_get_uint32 (Some s) TC_REQ_OP_TYPE_INDEX <>
     (TCUTIL_RET_SUCCESS, Some TC_OP_CONFIG_ACQUIRE_TIMED)) ->
  is_Some (ipcService S garbage this s service st).
Proof.
  intros Hs. unfold ipcService.
  unfold HandleConfigRequests, HandleStartUpRequests, HandleReadRequests,
    HandleAutoSaveRequests, HandleCandidateRequests, HandleAuditRequests, delete_kept.
  destruct (service ==? TC_CONFIG_SERVICES) eqn:Ec; bool_norm;
    match goal with |- is_Some (?m st) => enough (total m) as Hm by apply Hm end.
  - apply total_bind; [|intros; total_auto]. apply total_with_object. intros.
    apply Config_returns. cbn. intros n Hn ->. by apply (Hs Ec).
  - total_auto; apply total_with_object; intros;
      first [apply DbOper_total | apply Read_total | apply AutoSave_total
            | apply Candidate_total | by apply Audit_returns; eexists].
Qed.

(** C32: every request is answered: a service returns whatever other threads
    do to the shared state in between and whatever the database and the other
    daemons answer, for every content of the request, except for a timed
    acquisition of the configuration session. That is, the service itself
    neither loops nor waits for a condition; each single wait for a mutex and
    each call over IPC is taken to end. The one place known where a wait for
    the mutex does not end is a driver audit that polls for the end of set-up
    with the mutex held ([polling_audit_blocks_everyone]). *)
Theorem request_returns (s : ServerSession) (service : Z) (st : OpSt D Mod) :
  (service = TC_CONFIG_SERVICES ->
   srv_get_uint32 (Some s) TC_REQ_OP_TYPE_INDEX <>
     (TCUTIL_RET_SUCCESS, Some TC_OP_CONFIG_ACQUIRE_TIMED)) ->
  is_Some (ipcService S garbage this s service st).
Proof. apply ipcService_returns. Qed.

End Services.

Lemma request_returns_witness :
  is_Some (ipcService Scenario.setting false 1 Scenario.acquire_request TC_CONFIG_SERVICES
    Scenario.idle).
Proof.
  apply (request_returns Scenario.setting false 1 Scenario.acquire_request TC_CONFIG_SERVICES
    Scenario.idle).
  intros _. vm_compute. congruence.
Defined.
