(* ===== verification/TcRequests.v ===== *)
(** * Requests give back what they take

    An operation that takes the write lock runs in phases; whichever phase
    fails, and whatever the other threads and the other daemons do meanwhile,
    its session does not hold the write lock when the operation returns.

    The contract between the phases is the class [Exclusive]; the phases of
    TcOper keep it, and each of the operations that write is an instance. *)

From S2P Require Import Prelude TcTypes TcRwLock TcLock TcLockProps TcIpc TcMsg.
From S2P Require Import TcServer TcOper TcOperProps TcOperSimple TcOperConfig.
From S2P Require Import TcOperCandidate TcOperAudit TcModule TcTermination.
From S2P Require Import TcOperProps.

Local Open Scope Z_scope.

(** ** What the other threads may do *)

(** No other thread takes the write lock in the name of session [sid], nor
    changes the operation it is held for; it may be taken away, as it is when
    the daemon stops.  With [auto] no other thread gives back the auto-save
    flag meanwhile. *)
Definition gentle (auto : bool) (sid : Z) (s s' : TcLock) : Prop :=
  isWriteHeldBy sid (tc_rwlock_ s') = true ->
  isWriteHeldBy sid (tc_rwlock_ s) = true /\
  w_operation (tc_rwlock_ s') = w_operation (tc_rwlock_ s) /\
  (auto = true -> is_enable s = true -> is_enable s' = true).

Definition env_gentle {D} (auto : bool) (sid : Z) (env : Env D) : Prop :=
  env_follows (gentle auto sid) (fun _ => gentle auto sid) env.

(** The session does not write. *)
Definition free (sid : Z) (s : TcLock) : Prop := isWriteHeldBy sid (tc_rwlock_ s) = false.

(** If the session writes, it does so for [wop]. *)
Definition mine (auto : bool) (sid : Z) (wop : TcWriteOperation) (s : TcLock) : Prop :=
  isWriteHeldBy sid (tc_rwlock_ s) = true ->
  w_operation (tc_rwlock_ s) = wop /\ (auto = true -> is_enable s = true).

Lemma gentle_refl auto sid s : gentle auto sid s s.
Proof. done. Qed.

Lemma gentle_free auto sid s s' : gentle auto sid s s' -> free sid s -> free sid s'.
Proof.
  unfold gentle, free. destruct (isWriteHeldBy sid (tc_rwlock_ s')); [|done].
  intros H Hf. destruct H as [E _]; [done|]. congruence.
Qed.

Lemma gentle_mine auto sid wop s s' :
  gentle auto sid s s' -> mine auto sid wop s -> mine auto sid wop s'.
Proof.
  unfold gentle, mine. intros Hg Hm Hh. destruct (Hg Hh) as (Hh'&E&Ha).
  destruct (Hm Hh') as [E' Ha']. split; [congruence|auto].
Qed.

Lemma free_mine auto sid wop s : free sid s -> mine auto sid wop s.
Proof. unfold free, mine. congruence. Qed.

(** ** Acquisition and release *)

(** After an attempt to take the write lock for [wop]. *)
Definition acquired (auto : bool) (sid : Z) (wop : TcWriteOperation) (r : TcLockRet)
    (s : TcLock) : Prop :=
  if r ==? TC_LOCK_SUCCESS then mine auto sid wop s else free sid s.

Definition acquiring (auto : bool) (sid : Z) (wop : TcWriteOperation) (res : LockRes) : Prop :=
  match res with
  | Done r s => acquired auto sid wop r s
  | Blocked k s => free sid s /\ wop = TC_AUDIT_DRIVER /\
                   match k with WaitRead _ => False | _ => True end
  end.

Lemma setWriter_mine sid x wop s :
  mine false sid wop (set_rwlock s (setWriter x wop (tc_rwlock_ s))).
Proof. intros _. split; [apply setWriter_operation|done]. Qed.

Lemma write_audit_loop_acquiring sid x s :
  free sid s -> acquiring false sid TC_AUDIT_DRIVER (write_audit_loop x s).
Proof.
  intros Hf. unfold write_audit_loop. destruct (canWriteLock _); simpl; [|done].
  apply setWriter_mine.
Qed.

Lemma try_write_acquiring sid x wop s :
  free sid s -> acquiring false sid wop (returns (try_write x wop s)).
Proof.
  intros Hf. unfold try_write, tryWriteLock.
  destruct (canWriteLock _); simpl; [apply setWriter_mine|done].
Qed.

Lemma AcquireWriteLock_acquiring sid x wop s :
  free sid s -> acquiring false sid wop (AcquireWriteLock x wop s).
Proof.
  intros Hf. destruct wop; cbn [AcquireWriteLock]; try done;
    try (by apply try_write_acquiring).
  all: unfold AcquireWriteLockForCommit, AcquireWriteLockForAbortCandidateConfig,
    AcquireWriteLockForAuditDriver.
  all: split_match; try done; auto using try_write_acquiring, write_audit_loop_acquiring.
Qed.

Lemma GetLock_acquiring sid x wop s :
  free sid s -> acquiring false sid wop (GetLock x TC_ACQUIRE_WRITE_SESSION wop s).
Proof.
  intros Hf. unfold GetLock. destruct (TcOperationIsAllowed _ _ _) eqn:E; simpl;
    try done. by apply AcquireWriteLock_acquiring.
Qed.

Lemma resume_acquiring sid k s :
  free sid s -> match k with WaitRead _ => False | _ => True end ->
  acquiring false sid TC_AUDIT_DRIVER (resume k s).
Proof.
  intros Hf. destruct k as [x|x|x]; simpl; [done|intros _..].
  - unfold resume_write. split_match; [|by apply write_audit_loop_acquiring].
    bool_norm. simpl. unfold acquired. by rewrite bool_decide_eq_false_2.
  - unfold resume_setup, AcquireWriteLockForAuditDriver.
    split_match; [done|by apply write_audit_loop_acquiring].
Qed.

Lemma awaits_acquired auto sid k s r s' :
  awaits (fun _ => gentle auto sid) k s r s' ->
  free sid s -> match k with WaitRead _ => False | _ => True end ->
  acquired false sid TC_AUDIT_DRIVER r s'.
Proof.
  induction 1 as [k s1 s2 r s' Hw Hr|k s1 s2 k' s3 r s' Hw Hr _ IH]; intros Hf Hk.
  - apply (gentle_free _ _ _ _ Hw) in Hf. pose proof (resume_acquiring sid k s2 Hf Hk) as Ha.
    by rewrite Hr in Ha.
  - apply (gentle_free _ _ _ _ Hw) in Hf. pose proof (resume_acquiring sid k s2 Hf Hk) as Ha.
    rewrite Hr in Ha. destruct Ha as (Hf3&_&Hk3). by apply IH.
Qed.

Lemma get_write_acquired auto sid x wop s r s' :
  lock_result (fun _ => gentle auto sid) (OpGetLock x TC_ACQUIRE_WRITE_SESSION wop) s r s' ->
  free sid s -> acquired false sid wop r s'.
Proof.
  intros [Hc|k s1 Hc Ha] Hf; pose proof (GetLock_acquiring sid x wop s Hf) as Hg;
    cbn [lock_call] in Hc; rewrite Hc in Hg; [done|].
  destruct Hg as (Hf1&->&Hk). by eapply awaits_acquired.
Qed.

Lemma ReleaseWriteLock_frees sid wop s :
  mine false sid wop s -> free sid (ReleaseWriteLock sid wop s).2.
Proof.
  unfold mine, free, ReleaseWriteLock, unlockWrite. intros Hm.
  destruct (isWriteHeldBy sid (tc_rwlock_ s)) eqn:E; simpl; [|done].
  destruct Hm as [-> _]; [done|]. rewrite bool_decide_eq_true_2 by done. simpl.
  unfold write_released, isWriteHeldBy, isWriteHeld, wakeUp.
  destruct (isWaiting _); simpl; by destruct (is_simultaneous_read_write_allowed_ _).
Qed.

Lemma release_write_frees W sid cid wop s r s' :
  lock_result W (OpReleaseLock sid cid TC_RELEASE_WRITE_SESSION wop) s r s' ->
  mine false sid wop s -> free sid s'.
Proof.
  intros [Hc|k s1 Hc _] Hm; cbn [lock_call ReleaseLock] in Hc; [|discriminate Hc].
  pose proof (ReleaseWriteLock_frees sid wop s Hm) as Hf.
  destruct (ReleaseWriteLock sid wop s) as [r1 s1]. by injection Hc as <- <-.
Qed.

(** Auto save takes the flag first and the write lock, unless it only reads
    the setting, for one of the start-up configuration operations. *)
Definition auto_write_operation (op : TcServiceType) : TcWriteOperation :=
  if op ==? TC_OP_AUTOSAVE_ENABLE then TC_CLEAR_STARTUP_CONFIG else TC_SAVE_STARTUP_CONFIG.

Lemma auto_save_then_write_acquiring sid x wop s :
  wop <> TC_AUDIT_DRIVER -> free sid s ->
  acquiring true sid wop (auto_save_then_write x wop s).
Proof.
  intros Hw Hf. unfold auto_save_then_write, AutoSaveEnable.
  destruct (is_enable s); simpl; [done|].
  pose proof (AcquireWriteLock_acquiring sid x wop (set_auto_save s true) Hf) as Ha.
  destruct (AcquireWriteLock x wop _) as [r s2|k s2] eqn:E; simpl in *; [|naive_solver].
  destruct (r ==? TC_LOCK_SUCCESS) eqn:Er; bool_norm; simpl; unfold acquired in *.
  - subst r. simpl in *. intros Hh. split; [by apply Ha|intros _].
    assert (is_enable (res_state (AcquireWriteLock x wop (set_auto_save s true))) = true) as He.
    { clear. unfold_lock. destruct wop; repeat split_match; simpl in *; congruence. }
    by rewrite E in He.
  - rewrite !bool_decide_eq_false_2 in * by done. unfold AutoSaveDisable. by destruct (is_enable s2).
Qed.

Lemma get_auto_acquired W sid x op s r s' :
  lock_result W (OpGetLock x (AutoSave.lock_operation op) TC_WRITE_NONE) s r s' ->
  free sid s -> acquired true sid (auto_write_operation op) r s'.
Proof.
  intros Hc Hf.
  assert (acquiring true sid (auto_write_operation op)
            (GetLock x (AutoSave.lock_operation op) TC_WRITE_NONE s)) as Ha.
  { unfold GetLock. destruct (TcOperationIsAllowed _ _ _); simpl; try done.
    unfold AutoSave.lock_operation, auto_write_operation. repeat split_match; bool_norm;
      try (by subst; discriminate); try by apply auto_save_then_write_acquiring.
    all: unfold AutoSaveEnable; destruct (is_enable s); simpl; [done|by apply free_mine]. }
  assert (auto_write_operation op <> TC_AUDIT_DRIVER) as Hw
    by (unfold auto_write_operation; by split_match).
  destruct Hc as [Hc|k s1 Hc _]; cbn [lock_call] in Hc; rewrite Hc in Ha; [done|].
  by destruct Ha as (_&?&_).
Qed.

Lemma auto_save_release_frees sid wop s :
  mine true sid wop s -> free sid (auto_save_release sid wop s).2.
Proof.
  intros Hm. unfold auto_save_release, AutoSaveDisable.
  destruct (is_enable s) eqn:E; simpl.
  - assert (mine false sid wop (set_auto_save s false)) as Hm'
      by (intros Hh; by destruct (Hm Hh)).
    apply ReleaseWriteLock_frees in Hm'.
    destruct (ReleaseWriteLock sid wop _) as [r s2]. simpl in *.
    unfold AutoSaveEnable. destruct (r ==? TC_LOCK_SUCCESS); [done|]. simpl.
    by destruct (is_enable s2).
  - unfold free, mine in *. destruct (isWriteHeldBy sid (tc_rwlock_ s)); [|done].
    destruct Hm as [_ Ha]; [done|]. specialize (Ha eq_refl). congruence.
Qed.

Lemma release_auto_frees W sid op s r s' :
  lock_result W (OpReleaseLock sid 0 (AutoSave.lock_operation op) TC_WRITE_NONE) s r s' ->
  (op = TC_OP_AUTOSAVE_GET -> free sid s) -> mine true sid (auto_write_operation op) s ->
  free sid s'.
Proof.
  intros [Hc|k s1 Hc _] Hg Hm; cbn [lock_call] in Hc; [|discriminate Hc].
  injection Hc as _ <-. unfold AutoSave.lock_operation, auto_write_operation in *.
  destruct (op ==? TC_OP_AUTOSAVE_GET) eqn:E1; bool_norm.
  - specialize (Hg E1). simpl. unfold AutoSaveDisable. by destruct (is_enable s).
  - destruct (op ==? TC_OP_AUTOSAVE_ENABLE); by apply auto_save_release_frees.
Qed.

(** ** The contract of the phases *)

(** The session the request names, or the one the operation was created with,
    is [sid]. *)
Definition reads_session {D X} (sid : Z) (st : OpSt D X) : Prop :=
  match st_srv st with
  | None => op_session_id (st_base st) = sid
  | Some _ => forall n, srv_get_uint32 (st_srv st) TC_REQ_SESSION_ID_INDEX =
                          (TCUTIL_RET_SUCCESS, Some n) -> n = sid
  end.

(** An assertion that does not depend on the phase, in phase [ph]. *)
Definition at_phase {X} (ph : TcOperEnum) (p : TcLock -> Z -> TcServiceType -> X -> Prop)
    : Assertion X := fun s i o ph' x => p s i o x /\ ph' = ph.

(** [Entry] holds when the operation begins, [Ready] once the arguments are
    read, [Held] while the messages are sent, and [Free] when it is over. *)
Class Exclusive {D X} (v : Vtable D X) (sid : Z)
    (Entry Free Ready Held : TcLock -> Z -> TcServiceType -> X -> Prop) : Prop := {
  ex_args : forall ph st, reads_session sid st -> asserts (at_phase ph Entry) st ->
    owp (v_HandleArgs v)
      (fun r => asserts (at_phase ph (if r ==? TC_OPER_SUCCESS then Ready else Free))) st;
  ex_get : forall ph st, asserts (at_phase ph Ready) st ->
    owp (v_TcGetExclusion v)
      (fun r => asserts (at_phase ph (if r ==? TC_OPER_SUCCESS then Held else Free))) st;
  ex_list : forall ph st, asserts (at_phase ph Held) st ->
    owp (v_TcCreateMsgList v) (fun _ => asserts (at_phase ph Held)) st;
  ex_execute : forall ph st, asserts (at_phase ph Held) st ->
    owp (v_Execute v) (fun _ => asserts (at_phase ph Held)) st;
  ex_release : forall ph st, asserts (at_phase ph Held) st ->
    owp (v_TcReleaseExclusion v) (fun _ => asserts (at_phase ph Free)) st;
  ex_respond : forall r ph st, asserts (at_phase ph Free) st ->
    owp (v_SendResponse v r) (fun _ => asserts (at_phase ph Free)) st
}.

Section Phases.

Context {D X : Type} (v : Vtable D X) (sid : Z).
Context (Entry Free Ready Held : TcLock -> Z -> TcServiceType -> X -> Prop).
Context `{!Exclusive v sid Entry Free Ready Held}.
Implicit Type st : OpSt D X.

(** The operation is over and the session writes no more. *)
Local Abbreviation over := (fun _ st => exists ph, asserts (at_phase ph Free) st).

Lemma respond_over r ph st :
  asserts (at_phase ph Free) st -> owp (v_SendResponse v r) over st.
Proof.
  intros Hst. eapply owp_mono; [by apply ex_respond|]. intros r' st' H'. by exists ph.
Qed.

(** A failed phase revokes the operation: what a phase from taking the lock
    on held is given back. *)
Definition revocable (ph : TcOperEnum) : TcLock -> Z -> TcServiceType -> X -> Prop :=
  match ph with CREATE_MSG_LIST | EXECUTE_PHASE => Held | _ => Free end.

Lemma revoke_over r ph st :
  asserts (at_phase ph (revocable ph)) st -> owp (RevokeOperation v r) over st.
Proof.
  intros Hst. assert (tc_oper_status_ (st_base st) = ph) as Hph by apply Hst.
  apply owp_bind. unfold owp at 1, base. cbn beta iota. rewrite Hph.
  destruct ph; try (by eapply respond_over).
  1, 2: apply owp_bind; eapply owp_mono; [by apply ex_release|];
    intros r' st' Hst'; cbn beta in Hst'; split_match; by eapply respond_over.
  apply owp_ret. by exists SEND_RESPONSE_PHASE.
Qed.

(** One phase: it must leave what its revocation needs. *)
Lemma phase_over ph (Pre Post : TcLock -> Z -> TcServiceType -> X -> Prop) m k st :
  asserts (at_phase ph Pre) st ->
  (forall st, asserts (at_phase ph Pre) st ->
     owp m (fun r => asserts (at_phase ph (if r ==? TC_OPER_SUCCESS then Post
                                           else revocable ph))) st) ->
  (forall st, asserts (at_phase ph Post) st -> owp k over st) ->
  owp (or_revoke v m k) over st.
Proof.
  intros Hst Hm Hk. apply owp_bind. eapply owp_mono; [by apply Hm|].
  cbn beta. intros r st1. destruct (r ==? TC_OPER_SUCCESS); simpl; [apply Hk|apply revoke_over].
Qed.

Lemma set_phase_over {ph} ph' (p : TcLock -> Z -> TcServiceType -> X -> Prop)
    (k : O D X TcOperStatus) st :
  asserts (at_phase ph p) st ->
  (forall st, asserts (at_phase ph' p) st -> owp k over st) ->
  owp (set_phase ph';;; k) over st.
Proof. intros [Hp _] Hk. apply owp_bind, Hk. by split. Qed.

Lemma run_phases_over ph st :
  asserts (at_phase ph Ready) st -> owp (run_phases v) over st.
Proof.
  intros Hst. eapply set_phase_over; [exact Hst|]. intros st1 H1.
  eapply phase_over; [exact H1|apply ex_get|]. intros st2 H2.
  eapply set_phase_over; [exact H2|]. intros st3 H3.
  eapply (phase_over _ Held Held); [exact H3| |].
  { intros st4 H4. eapply owp_mono; [by apply ex_list|]. intros r st5. by destruct (_ ==? _). }
  intros st4 H4. eapply set_phase_over; [exact H4|]. intros st5 H5.
  eapply (phase_over _ Held Held); [exact H5| |].
  { intros st6 H6. eapply owp_mono; [by apply ex_execute|]. intros r st7. by destruct (_ ==? _). }
  intros st6 H6. eapply set_phase_over; [exact H6|]. intros st7 H7.
  eapply (phase_over _ Held Free); [exact H7| |].
  { intros st8 H8. eapply owp_mono; [by apply ex_release|]. intros r st9. by destruct (_ ==? _). }
  intros st8 H8. by eapply respond_over.
Qed.

Lemma args_over ph (k : O D X TcOperStatus) st :
  reads_session sid st -> asserts (at_phase ph Entry) st ->
  (forall st, asserts (at_phase INPUT_VALIDATION Ready) st -> owp k over st) ->
  owp (set_phase INPUT_VALIDATION;;; or_revoke v (v_HandleArgs v) k) over st.
Proof.
  intros Hr [Hst _] Hk. apply owp_bind.
  apply owp_bind. eapply owp_mono; [apply (ex_args INPUT_VALIDATION); [exact Hr|by split]|].
  cbn beta. intros r st1. destruct (r ==? TC_OPER_SUCCESS); simpl; [apply Hk|apply revoke_over].
Qed.

Lemma dispatch_over ph st :
  reads_session sid st -> asserts (at_phase ph Entry) st -> owp (Dispatch v) over st.
Proof. intros Hr Hst. eapply args_over; [done..|]. intros. by eapply run_phases_over. Qed.

End Phases.

(** ** Assertions under gentle threads *)

Section Gentle.

Context {D : Type} `{TcDbI D} (S : Setting D) (auto : bool) (sid : Z).
Hypothesis Henv : env_gentle auto sid (set_the_env S).

Lemma gentle_lasting {X} (p : Assertion X) :
  (forall s s' i o ph x, gentle auto sid s s' -> p s i o ph x -> p s' i o ph x) ->
  Lasting S p any_event.
Proof.
  intros Hp. constructor; [| |done|done].
  - intros. eapply Hp; [apply (ef_step _ _ _ Henv)|done].
  - intros log sh r sh1 i o ph x Ec. apply Hp. by eapply (ef_cond _ _ _ Henv).
Qed.

Lemma stable_asserts {X A} (p : Assertion X) (m : O D X A) st :
  stable p any_event m -> asserts p st -> owp m (fun _ => asserts p) st.
Proof.
  intros Hm Hst. eapply owp_mono; [apply (Hm (st_log st))|by intros ? ? []].
  split; [done|apply grown_refl].
Qed.

(** A call that leaves the read/write lock alone. *)
Definition config_call (o : LockOp) : bool :=
  match o with
  | OpGetLock _ (TC_ACQUIRE_CONFIG_SESSION | TC_FORCE_ACQUIRE_CONFIG_SESSION) _
  | OpReleaseLock _ _ TC_RELEASE_CONFIG_SESSION _ | OpNotifyDone _ _ _ | OpMarkSession _
  | OpSetSetupComplete _ => true
  | _ => false
  end.

Lemma config_call_rwlock o s :
  config_call o = true ->
  exists r s', lock_call o s = Done r s' /\ tc_rwlock_ s' = tc_rwlock_ s.
Proof.
  intros Ho. destruct o as [x op wop|x c op wop| | | | |]; try discriminate Ho;
    try (destruct op; try discriminate Ho); cbn [lock_call ReleaseLock]; unfold GetLock, returns;
    try (destruct (TcOperationIsAllowed _ _ _)); simpl;
    unfold AcquireConfigLock, ForceAcquireConfigLock, ReleaseConfigLock,
      NotifyConfigIdSessionIdDone, TcMarkSessionId;
    repeat split_match; simpl; eauto.
Qed.

Lemma stable_config_call {X} (p : Assertion X) o :
  config_call o = true -> Lasting S p any_event ->
  (forall s s' i o ph x, tc_rwlock_ s' = tc_rwlock_ s -> p s i o ph x -> p s' i o ph x) ->
  stable p any_event (lock_do (D := D) (X := X) S o).
Proof.
  intros Ho Hl Hp l0 st Hst. apply owp_bind. apply (owp_interfere S p any_event l0); [done|].
  intros sh st1 [H1 Hg]. unfold owp.
  destruct (config_call_rwlock o (sh_lock sh) Ho) as (r&s'&->&E).
  split; [|by apply grown_snoc]. eapply Hp; [exact E|exact H1].
Qed.

(** The session does not write, whatever the operation is about. *)
Definition free_of {X} : Assertion X := fun s _ _ _ _ => free sid s.

#[local] Instance free_of_lasting {X} : Lasting S (free_of (X := X)) any_event.
Proof. apply gentle_lasting. intros. by eapply gentle_free. Qed.

Lemma free_of_config_call {X} o :
  config_call o = true -> stable (free_of (X := X)) any_event (lock_do (D := D) S o).
Proof.
  intros Ho. apply stable_config_call; [done|apply _|].
  unfold free_of, free. by intros s s' _ _ _ _ ->.
Qed.

End Gentle.

(** Changes of the members that an assertion does not mention. *)
#[export] Hint Extern 1 (stable _ _ (set_ext _)) => apply stable_set_ext; done : stable.
#[export] Hint Extern 1 (stable _ _ (set_session_id _)) =>
  apply stable_set_session_id; done : stable.
#[export] Hint Extern 1 (stable _ _ (set_phase _)) => apply stable_set_phase; done : stable.

(** ** The configuration session never touches the write lock *)

Section ConfigFree.

Context {D : Type} `{TcDbI D} (S : Setting D) (auto : bool) (sid : Z).
Hypothesis Henv : env_gentle auto sid (set_the_env S).

Local Abbreviation stable := (stable (D := D) (X := Config.Ext) (free_of sid) any_event).

#[local] Instance config_lasting : Lasting S (free_of (X := Config.Ext) sid) any_event.
Proof. by eapply free_of_lasting. Qed.

Lemma config_lock_do o : config_call o = true -> stable (lock_do S o).
Proof. by eapply free_of_config_call. Qed.

#[local] Hint Extern 1 (TcOperProps.stable _ _ (lock_do _ _)) =>
  apply config_lock_do; reflexivity : stable.
#[local] Hint Extern 1 (TcOperProps.stable _ _ (GetLock_do _ _ _ _)) =>
  apply config_lock_do; reflexivity : stable.
#[local] Hint Extern 1 (TcOperProps.stable _ _ (ReleaseLock_do _ _ _ _ _)) =>
  apply config_lock_do; reflexivity : stable.

Lemma config_statics {A} (f : ConfigStatics -> A * ConfigStatics) : stable (Config.statics S f).
Proof.
  intros l0 st Hst. apply owp_bind.
  apply (owp_interfere S (free_of sid) any_event l0); [done|].
  intros sh st1 H1. destruct (f (sh_conf sh)) as [a c].
  apply stable_put_shared; [|done|done]. intros st' Hst'. apply stable_ret. exact Hst'.
Qed.

Lemma config_look {A} (f : ConfigStatics -> A) : stable (Config.look S f).
Proof. apply config_statics. Qed.
Lemma config_change f : stable (Config.change S f).
Proof. apply config_statics. Qed.
#[local] Hint Resolve config_statics config_look config_change : stable.

Lemma config_GetOperType : stable GetOperType.
Proof. unfold GetOperType. stable_auto. Qed.
Lemma config_GetSessionId : stable GetSessionId.
Proof. unfold GetSessionId. stable_auto. Qed.

Lemma config_HandleArgs : stable (v_HandleArgs (Config.vtable S)).
Proof.
  apply stable_HandleArgs; auto using config_GetOperType, config_GetSessionId.
  - unfold Config.TcValidateOperType. stable_auto.
  - intros c. unfold Config.TcCheckOperArgCount. stable_auto.
  - unfold Config.TcValidateOperParams. stable_auto.
Qed.

Lemma config_TcGetExclusion : stable (Config.TcGetExclusion S).
Proof. unfold Config.TcGetExclusion. stable_auto. Qed.

Lemma config_TcReleaseExclusion : stable (Config.TcReleaseExclusion S).
Proof. unfold Config.TcReleaseExclusion. stable_auto. Qed.

Lemma config_Execute : stable (v_Execute (Config.vtable S)).
Proof.
  apply stable_Execute; [apply _| |stable_auto]. intros o m.
  unfold Config.FillTcMsgData. stable_auto.
Qed.

Lemma config_SendResponse r : stable (v_SendResponse (Config.vtable S) r).
Proof.
  apply stable_SendResponse. intros r'.
  unfold Config.SendAdditionalResponse, Config.SetConfigId. stable_auto.
Qed.

Lemma config_TcCreateMsgList : stable Config.TcCreateMsgList.
Proof. unfold Config.TcCreateMsgList. stable_auto. Qed.

#[local] Hint Resolve config_TcGetExclusion config_TcReleaseExclusion config_Execute
  config_SendResponse config_TcCreateMsgList : stable.

Lemma config_notify_phases : stable (Config.notify_phases S).
Proof.
  unfold Config.notify_phases, Config.HandleConfigRelease.
  stable_auto.
Qed.

Lemma config_cond_wait : stable (Config.cond_wait S).
Proof.
  intros l0 st [Hp Hg]. unfold owp, Config.cond_wait.
  destruct (e_cond _ _ _) as [[r sh]|] eqn:E; [|done]. split; [|done].
  eapply (la_cond (S := S) (p := free_of sid) (good := any_event)); [exact E|exact Hp].
Qed.

#[local] Hint Resolve config_cond_wait : stable.

Lemma config_timed : stable (Config.HandleTimedConfigAcquisition S).
Proof.
  unfold Config.HandleTimedConfigAcquisition, Config.acquire_mode, Config.acquire_after_wait.
  stable_auto.
Qed.

#[local] Hint Resolve config_HandleArgs config_timed config_notify_phases : stable.

Lemma config_Dispatch : stable (Config.Dispatch S).
Proof. unfold Config.Dispatch. stable_auto. Qed.

End ConfigFree.

(** ** The operations that write *)

Definition freeA {X} (sid : Z) : TcLock -> Z -> TcServiceType -> X -> Prop :=
  fun s _ _ _ => free sid s.
Definition readyA {X} (sid : Z) : TcLock -> Z -> TcServiceType -> X -> Prop :=
  fun s i _ _ => free sid s /\ i = sid.
Definition heldA {X} (auto : bool) (sid : Z) (w : TcServiceType -> TcWriteOperation)
    : TcLock -> Z -> TcServiceType -> X -> Prop :=
  fun s i o _ => i = sid /\ mine auto sid (w o) s.

Section Writers.

Context {D X : Type} `{TcDbI D} (S : Setting D) (auto : bool) (sid : Z).
Hypothesis Henv : env_gentle auto sid (set_the_env S).
Implicit Type st : OpSt D X.

Lemma freeA_lasting ph : Lasting S (at_phase (X := X) ph (freeA sid)) any_event.
Proof.
  eapply gentle_lasting; [exact Henv|]. intros s s' i o ph' x Hg [Hf E].
  split; [by eapply gentle_free|done].
Qed.

Lemma readyA_lasting ph : Lasting S (at_phase (X := X) ph (readyA sid)) any_event.
Proof.
  eapply gentle_lasting; [exact Henv|]. intros s s' i o ph' x Hg [[Hf Ei] E].
  split; [split; [by eapply gentle_free|done]|done].
Qed.

Lemma heldA_lasting w ph : Lasting S (at_phase (X := X) ph (heldA auto sid w)) any_event.
Proof.
  eapply gentle_lasting; [exact Henv|]. intros s s' i o ph' x Hg [[Ei Hm] E].
  split; [split; [done|by eapply gentle_mine]|done].
Qed.

Lemma ready_free ph (r : TcOperStatus) st :
  asserts (at_phase ph (readyA sid)) st ->
  asserts (at_phase ph (if r ==? TC_OPER_SUCCESS then readyA sid else freeA sid)) st.
Proof. intros [[Hf Ei] E]. by destruct (r ==? TC_OPER_SUCCESS). Qed.

(** After the session is known the rest of the validation keeps [readyA]. *)
Lemma validation_ready ph (m k : O D X TcOperStatus) st :
  stable (at_phase ph (readyA sid)) any_event m ->
  (forall st, asserts (at_phase ph (readyA sid)) st ->
     owp k (fun r => asserts (at_phase ph (if r ==? TC_OPER_SUCCESS then readyA sid
                                           else freeA sid))) st) ->
  asserts (at_phase ph (readyA sid)) st ->
  owp (and_then m k) (fun r => asserts (at_phase ph (if r ==? TC_OPER_SUCCESS then readyA sid
                                                    else freeA sid))) st.
Proof.
  intros Hm Hk Hst. apply owp_and_then. eapply owp_mono; [by eapply stable_asserts|].
  cbn beta. intros r st' H'. destruct (r ==? TC_OPER_SUCCESS); [by apply Hk|].
  by destruct H' as [[Hf _] E].
Qed.

Lemma HandleArgs_ready n vt ct vp ph st :
  (forall ph, stable (at_phase ph (readyA sid)) any_event vt) ->
  (forall ph c, stable (at_phase ph (readyA sid)) any_event (ct c)) ->
  (forall ph, stable (at_phase ph (readyA sid)) any_event vp) ->
  reads_session sid st -> asserts (at_phase ph (freeA sid)) st ->
  owp (HandleArgs GetSessionId n vt ct vp)
    (fun r => asserts (at_phase ph (if r ==? TC_OPER_SUCCESS then readyA sid else freeA sid))) st.
Proof.
  intros Hvt Hct Hvp Hr Hst. unfold HandleArgs, session. apply owp_bind.
  unfold owp at 1. cbn beta iota. unfold reads_session in Hr.
  assert (forall st, asserts (at_phase ph (readyA sid)) st ->
    owp (oret TC_OPER_SUCCESS) (fun r => asserts (at_phase ph
      (if r ==? TC_OPER_SUCCESS then readyA sid else freeA sid))) st) as Hend by done.
  destruct (st_srv st) as [ss|] eqn:Es.
  2: { apply validation_ready; [done|done|]. destruct Hst as [Hf E]. by split. }
  split_match; [|done]. apply owp_and_then, owp_bind. unfold owp at 1, session. cbn beta iota.
  rewrite Es. unfold read_arg at 1.
  destruct (srv_get_uint32 (Some ss) TC_REQ_OP_TYPE_INDEX) as [[] [op|]]; try exact Hst.
  apply owp_bind. unfold owp at 1, set_oper, set_base. cbn beta iota. unfold owp at 1, oret.
  cbn. apply owp_and_then, owp_bind. unfold owp at 1, session. cbn. rewrite Es.
  unfold read_arg.
  destruct (srv_get_uint32 (Some ss) TC_REQ_SESSION_ID_INDEX) as [[] [i|]] eqn:Ei;
    try exact Hst.
  rewrite (Hr i eq_refl) in *.
  unfold owp at 1, obind, set_session_id, set_base, oret.
  destruct (sid ==? 0); cbn; [exact Hst|].
  destruct Hst as [Hf Eph].
  apply validation_ready; [done| |by split]. intros st1 H1.
  apply validation_ready; [done| |done]. intros st2 H2.
  by apply validation_ready.
Qed.

(** Taking and giving back the write lock. *)
Lemma take_write w hlr ph st :
  (forall r, hlr r <> TC_OPER_SUCCESS) -> asserts (at_phase ph (readyA sid)) st ->
  owp (op <- base tc_oper_; sid <- base op_session_id;
       r <- GetLock_do S sid TC_ACQUIRE_WRITE_SESSION (w op);
       if r !=? TC_LOCK_SUCCESS then oret (hlr r) else oret TC_OPER_SUCCESS)
    (fun r => asserts (at_phase ph (if r ==? TC_OPER_SUCCESS then heldA false sid w
                                    else freeA sid))) st.
Proof.
  intros Hh [[Hf Ei] Eph]. apply owp_bind. unfold owp at 1, base. cbn beta iota.
  apply owp_bind. unfold owp at 1, base. cbn beta iota. rewrite Ei.
  apply owp_bind, (owp_lock_do _ _ _ Henv). intros s r s' c d HR Hl.
  apply (gentle_free _ _ _ _ HR) in Hf. apply (get_write_acquired auto sid) in Hl; [|done].
  unfold acquired in Hl. destruct (r ==? TC_LOCK_SUCCESS); cbn.
  - apply owp_ret. by split.
  - apply owp_ret. specialize (Hh r). rewrite bool_decide_eq_false_2 by done. by split.
Qed.

Lemma give_write w cid hlr (k : O D X TcOperStatus) ph st :
  (forall st, asserts (at_phase ph (freeA sid)) st ->
     owp k (fun _ => asserts (at_phase ph (freeA sid))) st) ->
  asserts (at_phase ph (heldA auto sid w)) st ->
  owp (r <- ReleaseLock_do S sid cid TC_RELEASE_WRITE_SESSION (w (tc_oper_ (st_base st)));
       if r !=? TC_LOCK_SUCCESS then oret (hlr r) else k)
    (fun _ => asserts (at_phase ph (freeA sid))) st.
Proof.
  intros Hk [[Ei Hm] Eph].
  apply owp_bind, (owp_lock_do _ _ _ Henv). intros s r s' c d HR Hl.
  apply (gentle_mine _ _ _ _ _ HR) in Hm. apply release_write_frees in Hl.
  - split_match; [apply owp_ret; by split|]. apply Hk. by split.
  - intros Hh. by destruct (Hm Hh).
Qed.

End Writers.

(** *** Commit and abort of the candidate configuration *)

Section CandidateExclusive.

Context {D : Type} `{TcDbI D} (S : Setting D) (sid this : Z) (garbage : bool).
Hypothesis Henv : env_gentle false sid (set_the_env S).

#[local] Instance candidate_free ph :
  Lasting S (at_phase (X := Candidate.Ext) ph (freeA sid)) any_event.
Proof. by eapply freeA_lasting. Qed.
#[local] Instance candidate_ready ph :
  Lasting S (at_phase (X := Candidate.Ext) ph (readyA sid)) any_event.
Proof. by eapply readyA_lasting. Qed.

Section Stable.

Context (p : Assertion Candidate.Ext) (good : OpEvent -> Prop) `{!Lasting S p good}.
Hypothesis Hx : forall s i o ph x x', p s i o ph x -> p s i o ph x'.
#[local] Hint Extern 1 (stable _ _ (set_ext _)) =>
  apply stable_set_ext; intros; by eapply Hx : stable.

Lemma candidate_send_msg m : stable p good (Candidate.send_msg S m).
Proof. unfold Candidate.send_msg, Candidate.FillTcMsgData. stable_auto. Qed.
#[local] Hint Resolve candidate_send_msg : stable.

Lemma candidate_execute_rest l : stable p good (Candidate.execute_rest S l).
Proof.
  induction l as [|m l IH]; simpl; unfold Candidate.FillTcMsgData; stable_auto.
Qed.
#[local] Hint Resolve candidate_execute_rest : stable.

Lemma candidate_Execute : stable p good (Candidate.Execute S).
Proof.
  unfold Candidate.Execute, Candidate.step, Candidate.TransStartMsg, Candidate.TransVoteMsg,
    Candidate.TransGlobalCommitMsg, Candidate.TransEndMsg, UpdateRecoveryTable_do.
  stable_auto.
Qed.

Lemma candidate_TcCreateMsgList : stable p good (Candidate.TcCreateMsgList S).
Proof. unfold Candidate.TcCreateMsgList. stable_auto. Qed.

Lemma candidate_SendResponse r : stable p good (Candidate.SendResponse S r).
Proof.
  unfold Candidate.SendResponse, Candidate.SetConfigId, UpdateRecoveryTable_do. stable_auto.
Qed.

Lemma candidate_TcValidateOperType : stable p good (Candidate.TcValidateOperType S).
Proof. unfold Candidate.TcValidateOperType. stable_auto. Qed.

Lemma candidate_TcValidateOperParams : stable p good (Candidate.TcValidateOperParams S).
Proof. unfold Candidate.TcValidateOperParams. stable_auto. Qed.

End Stable.

(** The release of a marked session runs with the write lock already free. *)
Lemma candidate_release_config i cid ph st :
  asserts (at_phase ph (freeA sid)) st ->
  owp (Candidate.release_config S this garbage i cid)
    (fun _ => asserts (at_phase ph (freeA sid))) st.
Proof.
  intros [Hf Eph]. apply owp_bind, owp_with_object.
  eapply owp_mono; [eapply stable_asserts; [by eapply config_Dispatch|exact Hf]|].
  cbn beta. intros r st1 H1. apply owp_ret. by split.
Qed.

#[export] Instance Candidate_exclusive :
  Exclusive (Candidate.vtable S this garbage) sid (freeA sid) (freeA sid) (readyA sid)
    (heldA false sid Candidate.write_operation).
Proof.
  constructor; cbn [v_HandleArgs v_TcGetExclusion v_TcCreateMsgList v_Execute
    v_TcReleaseExclusion v_SendResponse Candidate.vtable]; intros.
  - eapply HandleArgs_ready; eauto; intros.
    + by apply candidate_TcValidateOperType; try apply _.
    + unfold Candidate.TcCheckOperArgCount. stable_auto.
    + by apply candidate_TcValidateOperParams; try apply _.
  - eapply take_write; [done| |done]. by intros [].
  - eapply stable_asserts; [|done]. apply candidate_TcCreateMsgList; [|done].
    by eapply heldA_lasting.
  - eapply stable_asserts; [|done]. apply candidate_Execute; [|done]. by eapply heldA_lasting.
  - unfold Candidate.TcReleaseExclusion, base, ext.
    apply owp_bind; unfold owp at 1; cbn beta iota.
    apply owp_bind; unfold owp at 1; cbn beta iota.
    apply owp_bind; unfold owp at 1; cbn beta iota.
    destruct H0 as [[Ei Hm] Eph] eqn:E. rewrite Ei.
    eapply give_write; [exact Henv| |done]. intros st1 H1. apply owp_bind.
    eapply owp_mono; [eapply stable_asserts; [|exact H1]; stable_auto|]. cbn beta.
    intros marked st2 H2. split_match; [by apply owp_ret|by apply candidate_release_config].
  - eapply stable_asserts; [|done]. apply candidate_SendResponse; apply _.
Qed.

End CandidateExclusive.

(** *** Saving and clearing the start-up configuration *)

Section DbOperExclusive.

Context {D : Type} `{TcDbI D} (S : Setting D) (sid : Z).
Hypothesis Henv : env_gentle false sid (set_the_env S).

#[local] Instance dboper_free ph :
  Lasting S (at_phase (X := DbOper.Ext) ph (freeA sid)) any_event.
Proof. by eapply freeA_lasting. Qed.
#[local] Instance dboper_ready ph :
  Lasting S (at_phase (X := DbOper.Ext) ph (readyA sid)) any_event.
Proof. by eapply readyA_lasting. Qed.
#[local] Instance dboper_held ph :
  Lasting S (at_phase (X := DbOper.Ext) ph (heldA false sid DbOper.write_operation)) any_event.
Proof. by eapply heldA_lasting. Qed.

Lemma dboper_Execute ph :
  stable (at_phase ph (heldA false sid DbOper.write_operation)) any_event
    (Execute S DbOper.FillTcMsgData DbOper.HandleMsgRet).
Proof.
  apply stable_Execute; [apply _|intros; apply stable_ret|].
  apply stable_config_call; [done|apply _|].
  unfold at_phase, heldA, mine. intros s s' i o ph' x -> [[-> Hm] ->].
  split; [split; [done|]|done]. intros Hh. by destruct (Hm Hh).
Qed.

#[export] Instance DbOper_exclusive :
  Exclusive (DbOper.vtable S) sid (freeA sid) (freeA sid) (readyA sid)
    (heldA false sid DbOper.write_operation).
Proof.
  constructor; cbn [v_HandleArgs v_TcGetExclusion v_TcCreateMsgList v_Execute
    v_TcReleaseExclusion v_SendResponse DbOper.vtable]; intros.
  - eapply HandleArgs_ready; eauto; intros; unfold DbOper.TcValidateOperType,
      DbOper.TcCheckOperArgCount; stable_auto.
  - eapply take_write; [done| |done]. by intros [].
  - eapply stable_asserts; [|done]. unfold DbOper.TcCreateMsgList, UpdateRecoveryTable_do.
    stable_auto.
  - eapply stable_asserts; [|done]. apply dboper_Execute.
  - unfold DbOper.TcReleaseExclusion, base.
    apply owp_bind; unfold owp at 1; cbn beta iota.
    apply owp_bind; unfold owp at 1; cbn beta iota.
    assert (op_session_id (st_base st) = sid) as -> by apply H0.
    eapply give_write; [exact Henv| |done]. intros st1 H1. by apply owp_ret.
  - eapply stable_asserts; [|done]. apply stable_SendResponse. intros r'.
    unfold DbOper.SendAdditionalResponse, UpdateRecoveryTable_do. stable_auto.
Qed.

Lemma DbOper_over ph st :
  reads_session sid st -> asserts (at_phase ph (freeA sid)) st ->
  owp (DbOper.Dispatch S) (fun _ st => exists ph, asserts (at_phase ph (freeA sid)) st) st.
Proof.
  intros Hr Hst. eapply args_over; [apply DbOper_exclusive|done..|]. intros st1 H1.
  apply owp_bind. eapply owp_mono; [eapply stable_asserts; [|exact H1]; stable_auto|]. cbn beta.
  intros pr st2 H2.
  assert (asserts (at_phase INPUT_VALIDATION (freeA sid)) st2) as H2f
    by (by destruct H2 as [[? _] ?]).
  split_match; [apply owp_ret; eauto|].
  apply owp_bind. unfold owp at 1, base. cbn beta iota.
  repeat split_match.
  - eapply respond_over; [apply DbOper_exclusive|exact H2f].
  - eapply revoke_over; [apply DbOper_exclusive|exact H2f].
  - eapply run_phases_over; [apply DbOper_exclusive|exact H2].
  - eapply run_phases_over; [apply DbOper_exclusive|exact H2].
Qed.

End DbOperExclusive.

(** *** Auto save *)

Section AutoSaveExclusive.

Context {D : Type} `{TcDbI D} (S : Setting D) (sid : Z).
Hypothesis Henv : env_gentle true sid (set_the_env S).

(** Reading the setting takes only the flag. *)
Definition autosave_held : TcLock -> Z -> TcServiceType -> AutoSave.Ext -> Prop :=
  fun s i o _ => i = sid /\ (o = TC_OP_AUTOSAVE_GET -> free sid s) /\
                 mine true sid (auto_write_operation o) s.

#[local] Instance autosave_free_lasting ph :
  Lasting S (at_phase (X := AutoSave.Ext) ph (freeA sid)) any_event.
Proof. by eapply freeA_lasting. Qed.
#[local] Instance autosave_ready_lasting ph :
  Lasting S (at_phase (X := AutoSave.Ext) ph (readyA sid)) any_event.
Proof. by eapply readyA_lasting. Qed.
#[local] Instance autosave_held_lasting ph : Lasting S (at_phase ph autosave_held) any_event.
Proof.
  eapply gentle_lasting; [exact Henv|]. intros s s' i o ph' x Hg [(Ei&Hf&Hm) E].
  split; [|done]. split_and!; [done| |by eapply gentle_mine].
  intros Eo. eapply gentle_free; [exact Hg|by apply Hf].
Qed.

Lemma autosave_take ph st :
  asserts (at_phase ph (readyA sid)) st ->
  owp (AutoSave.TcGetExclusion S)
    (fun r => asserts (at_phase ph (if r ==? TC_OPER_SUCCESS then autosave_held
                                    else freeA sid))) st.
Proof.
  intros [[Hf Ei] Eph]. apply owp_bind. unfold owp at 1, base. cbn beta iota.
  apply owp_bind. unfold owp at 1, base. cbn beta iota.
  apply owp_bind, (owp_lock_do _ _ _ Henv). intros s r s' c d HR Hl.
  apply (gentle_free _ _ _ _ HR) in Hf. pose proof Hl as Hl'.
  apply (get_auto_acquired _ sid) in Hl; [|done]. unfold acquired in Hl.
  destruct (r ==? TC_LOCK_SUCCESS) eqn:Er; cbn; apply owp_ret.
  - split; [|done]. split_and!; [done| |done]. cbn. intros Eop. rewrite Eop in Hl'.
    destruct Hl' as [Hc|k s1 Hc _]; cbn [lock_call] in Hc; revert Hc; unfold GetLock;
      destruct (TcOperationIsAllowed _ _ _); simpl; try done; unfold AutoSaveEnable, returns;
      destruct (is_enable s); simpl; intros [= <- <-]; done.
  - assert (AutoSave.HandleLockRet r <> TC_OPER_SUCCESS) as Hh by (by destruct r).
    rewrite bool_decide_eq_false_2 by done. by split.
Qed.

Lemma autosave_give ph st :
  asserts (at_phase ph autosave_held) st ->
  owp (AutoSave.TcReleaseExclusion S) (fun _ => asserts (at_phase ph (freeA sid))) st.
Proof.
  intros [(Ei&Hf&Hm) Eph]. apply owp_bind. unfold owp at 1, base. cbn beta iota.
  apply owp_bind. unfold owp at 1, base. cbn beta iota. rewrite Ei.
  apply owp_bind, (owp_lock_do _ _ _ Henv). intros s r s' c d HR Hl.
  apply (gentle_mine _ _ _ _ _ HR) in Hm. apply release_auto_frees in Hl; [|..|done].
  - split_match; apply owp_ret; by split.
  - intros Eop. eapply gentle_free; [exact HR|by apply Hf].
Qed.

#[export] Instance AutoSave_exclusive :
  Exclusive (AutoSave.vtable S) sid (freeA sid) (freeA sid) (readyA sid) autosave_held.
Proof.
  constructor; cbn [v_HandleArgs v_TcGetExclusion v_TcCreateMsgList v_Execute
    v_TcReleaseExclusion v_SendResponse AutoSave.vtable]; intros.
  - eapply HandleArgs_ready; eauto; intros; unfold AutoSave.TcValidateOperType,
      AutoSave.TcCheckOperArgCount; stable_auto.
  - by apply autosave_take.
  - by apply owp_ret.
  - eapply stable_asserts; [|done]. unfold AutoSave.Execute, AutoSave.change_to,
      AutoSave.notify_change. stable_auto.
  - by apply autosave_give.
  - eapply stable_asserts; [|done]. apply stable_SendResponse. intros r'.
    unfold AutoSave.SendAdditionalResponse, AutoSave.SetAutoSave. stable_auto.
Qed.

End AutoSaveExclusive.

(** *** Audits *)

Section AuditExclusive.

Context {D : Type} `{TcDbI D} (S : Setting D) (sid : Z).
Hypothesis Henv : env_gentle false sid (set_the_env S).

(** A driver's request that was handed to a task takes no lock. *)
Definition audit_ready : TcLock -> Z -> TcServiceType -> Audit.Ext -> Prop :=
  fun s i o x => free sid s /\
    (if Audit.api_audit_ x then o <> TC_OP_USER_AUDIT else i = sid).
Definition audit_held : TcLock -> Z -> TcServiceType -> Audit.Ext -> Prop :=
  fun s i o x => if Audit.api_audit_ x then free sid s
                 else i = sid /\ mine false sid (Audit.write_operation o) s.
Definition audit_fresh : TcLock -> Z -> TcServiceType -> Audit.Ext -> Prop :=
  fun s i o x => free sid s /\ Audit.api_audit_ x = false.

#[local] Instance audit_free_lasting ph :
  Lasting S (at_phase (X := Audit.Ext) ph (freeA sid)) any_event.
Proof. by eapply freeA_lasting. Qed.
#[local] Instance audit_ready_lasting ph : Lasting S (at_phase ph audit_ready) any_event.
Proof.
  eapply gentle_lasting; [exact Henv|]. intros s s' i o ph' x Hg [[Hf Ha] E].
  split; [split; [by eapply gentle_free|done]|done].
Qed.
#[local] Instance audit_held_lasting ph : Lasting S (at_phase ph audit_held) any_event.
Proof.
  eapply gentle_lasting; [exact Henv|]. unfold audit_held.
  intros s s' i o ph' x Hg [Hh E]. split; [|done].
  destruct (Audit.api_audit_ x); [by eapply gentle_free|].
  destruct Hh. split; [done|by eapply gentle_mine].
Qed.

(** Before the controller is read: a user's audit and a task know their
    session. *)
Definition audit_mid (task : bool) : TcLock -> Z -> TcServiceType -> Audit.Ext -> Prop :=
  fun s i o x => free sid s /\ Audit.api_audit_ x = false /\
                 (task = true \/ o <> TC_OP_DRIVER_AUDIT -> i = sid).

#[local] Instance audit_mid_lasting task ph :
  Lasting S (at_phase ph (audit_mid task)) any_event.
Proof.
  eapply gentle_lasting; [exact Henv|]. intros s s' i o ph' x Hg [(Hf&Ha&Hi) E].
  split; [split_and!; [by eapply gentle_free|done..]|done].
Qed.

Definition audit_validated (ph : TcOperEnum) (r : TcOperStatus) (st : OpSt D Audit.Ext) : Prop :=
  asserts (at_phase ph (if r ==? TC_OPER_SUCCESS then audit_ready else freeA sid)) st.

Lemma audit_params_ready ph st :
  asserts (at_phase ph (audit_mid false)) st -> owp (Audit.TcValidateOperParams S) (audit_validated ph) st.
Proof.
  intros [(Hf&Ha&Hi) Eph].
  assert (forall x r, r <> TC_OPER_SUCCESS -> audit_validated ph r (mkSt (st_base st) x
    (st_shared st) (st_srv st) (st_trace st) (st_log st))) as Hno.
  { intros x r Hr. unfold audit_validated. rewrite bool_decide_eq_false_2 by done. by split. }
  destruct st as [b x sh srv tr lg]. cbn in *.
  unfold owp, Audit.TcValidateOperParams, obind, base, session. cbn.
  destruct (srv_get_string srv _) as [r1 c1].
  match goal with |- context [if ?c then srv_get_uint8 ?a ?n else ?d] =>
    destruct (if c then srv_get_uint8 a n else d) as [r2 c2] end. cbn.
  assert (exists x1, Audit.api_audit_ x1 = false /\
    (match c1 with Some c => set_ext (Audit.with_controller c) | None => oret tt end)
      (mkSt b x sh srv tr lg) = Some (tt, mkSt (D := D) b x1 sh srv tr lg)) as (x1&Ha1&->)
    by (destruct c1; eexists; (split; [|reflexivity]); done).
  cbn. destruct (_ || _); [by apply Hno|]. destruct (_ || _); [by apply Hno|].
  destruct (is_empty _); [by apply Hno|]. cbn.
  destruct (tc_oper_ b ==? TC_OP_DRIVER_AUDIT) eqn:Eo; bool_norm.
  2: { split; [split; [done|]|done]. cbn. rewrite Ha1. apply Hi. by right. }
  unfold Audit.accept_driver_audit, obind, session, read_arg. cbn.
  destruct (srv_get_uint8 srv _) as [[] [d|]]; try by apply Hno.
  cbn. destruct (d ==? UNC_CT_UNKNOWN); [by apply Hno|]. cbn.
  destruct (e_post _ _ ==? 0); cbn; [|by apply Hno].
  split; [split; [done|]|done]. cbn. by rewrite Eo.
Qed.

Lemma audit_mid_validated task ph (m k : O D Audit.Ext TcOperStatus) st :
  stable (at_phase ph (audit_mid task)) any_event m ->
  (forall st, asserts (at_phase ph (audit_mid task)) st -> owp k (audit_validated ph) st) ->
  asserts (at_phase ph (audit_mid task)) st -> owp (and_then m k) (audit_validated ph) st.
Proof.
  intros Hm Hk Hst. apply owp_and_then. eapply owp_mono; [by eapply stable_asserts|].
  cbn beta. intros r st' H'. unfold audit_validated.
  destruct (r ==? TC_OPER_SUCCESS); [by apply Hk|]. by destruct H' as [[Hf _] E].
Qed.

Lemma audit_type_mid task ph :
  stable (at_phase ph (audit_mid task)) any_event (Audit.TcValidateOperType S).
Proof. unfold Audit.TcValidateOperType. stable_auto. Qed.

(** The end of a validation. *)
Lemma audit_mid_ready ph st :
  asserts (at_phase ph audit_ready) st ->
  owp (oret TC_OPER_SUCCESS) (audit_validated ph) st.
Proof. done. Qed.

(** Once the session is read, or need not be. *)
Lemma audit_session_known ss ph st :
  asserts (at_phase ph (audit_mid false)) st ->
  owp (and_then (Audit.TcValidateOperType S)
        (and_then (Audit.TcCheckOperArgCount (getArgCount ss))
          (and_then (Audit.TcValidateOperParams S) (oret TC_OPER_SUCCESS))))
    (audit_validated ph) st.
Proof.
  intros Hst. eapply audit_mid_validated; [apply audit_type_mid| |exact Hst].
  intros st1 H1. eapply (audit_mid_validated false); [|intros st2 H2|exact H1].
  { unfold Audit.TcCheckOperArgCount. stable_auto. }
  apply owp_and_then. eapply owp_mono; [by apply audit_params_ready|]. cbn beta.
  intros r st3. unfold audit_validated. by destruct (r ==? TC_OPER_SUCCESS) eqn:E.
Qed.

Lemma audit_GetSessionId (Q : TcOperStatus -> OpSt D Audit.Ext -> Prop) st :
  (tc_oper_ (st_base st) = TC_OP_DRIVER_AUDIT -> Q TC_OPER_SUCCESS st) ->
  (tc_oper_ (st_base st) <> TC_OP_DRIVER_AUDIT -> owp TcOper.GetSessionId Q st) ->
  owp Audit.GetSessionId Q st.
Proof.
  intros H1 H2. unfold Audit.GetSessionId. apply owp_bind. unfold owp at 1, base.
  cbn beta iota. split_match; bool_norm; [apply owp_ret|]; auto.
Qed.

Lemma audit_HandleArgs ph st :
  reads_session sid st -> asserts (at_phase ph audit_fresh) st ->
  owp (v_HandleArgs (Audit.vtable S)) (audit_validated ph) st.
Proof.
  intros Hr [[Hf Ha] Eph]. cbn [v_HandleArgs Audit.vtable]. unfold HandleArgs.
  apply owp_bind. unfold owp at 1, session. cbn beta iota. unfold reads_session in Hr.
  assert (forall r, r <> TC_OPER_SUCCESS -> forall b, tc_oper_status_ b = ph ->
    audit_validated ph r (mkSt b (st_ext st) (st_shared st) (st_srv st) (st_trace st)
      (st_log st))) as Hno.
  { intros r Hn b Hb. unfold audit_validated. rewrite bool_decide_eq_false_2 by done. by split. }
  destruct st as [b x sh srv tr lg]. cbn in *. destruct srv as [ss|].
  2: { apply (audit_mid_validated true); [apply audit_type_mid| |by split].
       intros st1 [(Hf1&Ha1&Hi1) E1]. apply owp_ret. split; [split; [done|]|done].
       rewrite Ha1. apply Hi1. by left. }
  split_match; [|by apply Hno]. apply owp_and_then. unfold owp at 1, GetOperType, obind, session.
  cbn [st_srv]. unfold read_arg.
  destruct (srv_get_uint32 (Some ss) TC_REQ_OP_TYPE_INDEX) as [[] [op|]]; try by apply Hno.
  unfold set_oper, set_base, oret. cbn -[Audit.TcCheckOperArgCount].
  apply owp_and_then. apply audit_GetSessionId; cbn [st_base tc_oper_]; intros Eo.
  { apply audit_session_known. split; [split_and!; [done..|]|done].
    intros [|Hn]; [done|]. by destruct Hn. }
  unfold owp at 1, TcOper.GetSessionId, obind, session, read_arg. cbn [st_srv].
  destruct (srv_get_uint32 (Some ss) TC_REQ_SESSION_ID_INDEX) as [[] [i|]] eqn:Ei;
    try by apply Hno.
  rewrite (Hr i eq_refl) in *. unfold set_session_id, set_base, oret.
  destruct (sid ==? 0); [by apply Hno|]. cbn -[Audit.TcCheckOperArgCount].
  apply audit_session_known. by split.
Qed.

Lemma audit_send_msg ph m :
  stable (at_phase ph audit_held) any_event (Audit.send_msg S m).
Proof. unfold Audit.send_msg, Audit.FillTcMsgData. stable_auto. Qed.
#[local] Hint Resolve audit_send_msg : stable.

Lemma audit_end_msg ph m : stable (at_phase ph audit_held) any_event (Audit.end_msg S m).
Proof. unfold Audit.end_msg. stable_auto. Qed.
#[local] Hint Resolve audit_end_msg : stable.

Lemma audit_Execute ph : stable (at_phase ph audit_held) any_event (Audit.Execute S).
Proof.
  unfold Audit.Execute, Audit.finish, Audit.step, Audit.GetDriverType, Audit.AuditStart,
    Audit.AuditTransStart, Audit.AuditVote, Audit.AuditGlobalCommit, Audit.AuditTransEnd,
    Audit.AuditEnd, Audit.fail_with, UpdateRecoveryTable_do.
  stable_auto.
Qed.

Lemma audit_take ph st :
  asserts (at_phase ph audit_ready) st ->
  owp (Audit.TcGetExclusion S)
    (fun r => asserts (at_phase ph (if r ==? TC_OPER_SUCCESS then audit_held else freeA sid))) st.
Proof.
  intros [[Hf Ha] Eph]. unfold Audit.TcGetExclusion.
  do 3 (apply owp_bind; unfold owp at 1, base, ext; cbn beta iota).
  destruct (Audit.api_audit_ (st_ext st)) eqn:Eapi.
  - rewrite bool_decide_eq_false_2 by done. apply owp_ret. split; [|done].
    rewrite bool_decide_eq_true_2 by done. unfold audit_held. by rewrite Eapi.
  - rewrite andb_false_r. rewrite Ha.
    apply owp_bind, (owp_lock_do _ _ _ Henv). intros s r s' c d HR Hl.
    apply (gentle_free _ _ _ _ HR) in Hf. apply (get_write_acquired false sid) in Hl; [|done].
    unfold acquired in Hl. destruct (r ==? TC_LOCK_SUCCESS); cbn; apply owp_ret.
    + split; [|done]. rewrite bool_decide_eq_true_2 by done. unfold audit_held. cbn.
      by rewrite Eapi.
    + assert (Audit.HandleLockRet r <> TC_OPER_SUCCESS) as Hh by (by destruct r).
      rewrite bool_decide_eq_false_2 by done. by split.
Qed.

Lemma audit_give ph st :
  asserts (at_phase ph audit_held) st ->
  owp (Audit.TcReleaseExclusion S) (fun _ => asserts (at_phase ph (freeA sid))) st.
Proof.
  intros [Hh Eph]. unfold Audit.TcReleaseExclusion, audit_held in *.
  apply owp_bind; unfold owp at 1, ext; cbn beta iota.
  destruct (Audit.api_audit_ (st_ext st)) eqn:Eapi; [by apply owp_ret|].
  do 2 (apply owp_bind; unfold owp at 1, base; cbn beta iota).
  destruct Hh as [Ei Hm]. rewrite Ei.
  eapply (give_write S false sid Henv Audit.write_operation); [|by split].
  intros st1 H1. by apply owp_ret.
Qed.

#[export] Instance Audit_exclusive :
  Exclusive (Audit.vtable S) sid audit_fresh (freeA sid) audit_ready audit_held.
Proof.
  constructor.
  - apply audit_HandleArgs.
  - apply audit_take.
  - intros ph st Hst. by apply owp_ret.
  - intros ph st Hst. eapply stable_asserts; [apply audit_Execute|done].
  - apply audit_give.
  - intros r ph st Hst. eapply stable_asserts; [|done]. apply stable_SendResponse. intros r'.
    unfold Audit.SendAdditionalResponse, Audit.SetAuditOperationStatus. stable_auto.
Qed.

End AuditExclusive.

(** ** The theorem *)

Section Services.

Context {D : Type} `{TcDbI D} (S : Setting D) (garbage : bool) (this sid : Z).

(** The services whose operations take the write lock. *)
Definition writing_services : list Z :=
  [TC_CANDIDATE_SERVICES; TC_STARTUP_DB_SERVICES; TC_AUTO_SAVE_SERVICES; TC_AUDIT_SERVICES].

(** The request comes from session [sid]. *)
Definition request_of (s : ServerSession) : Prop :=
  forall n, srv_get_uint32 (Some s) TC_REQ_SESSION_ID_INDEX = (TCUTIL_RET_SUCCESS, Some n) ->
  n = sid.

Lemma candidate_request_frees s st :
  env_gentle false sid (set_the_env S) -> request_of s -> free sid (sh_lock (st_shared st)) ->
  owp (HandleCandidateRequests S garbage this s)
    (fun _ st' => free sid (sh_lock (st_shared st'))) st.
Proof.
  intros Henv Hreq Hf. unfold HandleCandidateRequests.
  apply owp_bind, owp_with_object.
  eapply owp_mono; [eapply dispatch_over; [by apply Candidate_exclusive|exact Hreq|by split]|].
  cbn beta. intros r st1 [ph [H1 _]]. unfold delete_kept. cbn [snd].
  apply owp_bind. by destruct (Candidate.resp_tc_msg_ _).
Qed.

Lemma startup_request_frees s st :
  env_gentle false sid (set_the_env S) -> request_of s -> free sid (sh_lock (st_shared st)) ->
  owp (HandleStartUpRequests S garbage s)
    (fun _ st' => free sid (sh_lock (st_shared st'))) st.
Proof.
  intros Henv Hreq Hf. apply owp_bind, owp_with_object.
  eapply owp_mono; [eapply DbOper_over; [exact Henv|exact Hreq|by split]|].
  cbn beta. by intros r st1 [ph [H1 _]].
Qed.

Lemma autosave_request_frees s st :
  env_gentle true sid (set_the_env S) -> request_of s -> free sid (sh_lock (st_shared st)) ->
  owp (HandleAutoSaveRequests S garbage s)
    (fun _ st' => free sid (sh_lock (st_shared st'))) st.
Proof.
  intros Henv Hreq Hf. apply owp_bind, owp_with_object.
  eapply owp_mono; [eapply dispatch_over; [by apply AutoSave_exclusive|exact Hreq|by split]|].
  cbn beta. by intros r st1 [ph [H1 _]].
Qed.

Lemma audit_request_frees s st :
  env_gentle false sid (set_the_env S) -> request_of s -> free sid (sh_lock (st_shared st)) ->
  owp (HandleAuditRequests S garbage s)
    (fun _ st' => free sid (sh_lock (st_shared st'))) st.
Proof.
  intros Henv Hreq Hf. unfold HandleAuditRequests. apply owp_bind, owp_with_object.
  eapply owp_mono; [eapply dispatch_over; [by apply Audit_exclusive|exact Hreq|by split]|].
  cbn beta. intros r st1 [ph [H1 _]]. unfold delete_kept. cbn [snd].
  apply owp_bind. by destruct (Audit.resp_tc_msg_ _).
Qed.

(** C5: a request to one of the services that take the write lock always
    returns, and when it does its session does not hold the write lock -
    whichever phase of the operation failed, whatever the other daemons and
    the database answered, and also if the daemon was stopped meanwhile. *)
Theorem request_gives_back_lock (s : ServerSession) (service : Z) (st : OpSt D Mod) :
  service ∈ writing_services ->
  env_gentle (service ==? TC_AUTO_SAVE_SERVICES) sid (set_the_env S) ->
  request_of s -> free sid (sh_lock (st_shared st)) ->
  exists r st', ipcService S garbage this s service st = Some (r, st') /\
    free sid (sh_lock (st_shared st')).
Proof.
  intros Hs Henv Hreq Hf.
  assert (is_Some (ipcService S garbage this s service st)) as [[r st'] E].
  { apply ipcService_returns. intros ->. apply (bool_decide_eq_true_2 _) in Hs. by vm_compute in Hs. }
  exists r, st'. split; [exact E|].
  assert (owp (ipcService S garbage this s service)
    (fun _ st' => free sid (sh_lock (st_shared st'))) st) as Hw.
  2: { unfold owp in Hw. by rewrite E in Hw. }
  clear r st' E. unfold writing_services in Hs.
  apply elem_of_cons in Hs as [->|Hs]; [by apply candidate_request_frees|].
  apply elem_of_cons in Hs as [->|Hs]; [by apply startup_request_frees|].
  apply elem_of_cons in Hs as [->|Hs]; [by apply autosave_request_frees|].
  apply elem_of_cons in Hs as [->|Hs]; [by apply audit_request_frees|].
  by apply elem_of_nil in Hs.
Qed.

End Services.

Lemma request_gives_back_lock_witness :
  exists r st', ipcService Scenario.setting false 1 Scenario.commit_request
      TC_CANDIDATE_SERVICES Scenario.idle = Some (r, st') /\
    free 5 (sh_lock (st_shared st')).
Proof.
  apply (request_gives_back_lock Scenario.setting false 1 5 Scenario.commit_request
    TC_CANDIDATE_SERVICES Scenario.idle).
  - apply (bool_decide_eq_true_1 _). vm_compute. reflexivity.
  - constructor; [intros; apply gentle_refl|intros; discriminate..].
  - intros n. vm_compute. congruence.
  - vm_compute. reflexivity.
Defined.
