(* ===== verification/TcCommitProtocol.v ===== *)
(** * The commit of the candidate configuration

    What a commit request does from the moment it holds the write lock: the
    messages it sends, in which order, under which lock, and with which
    status it ends.  The first part bounds what the messages of the commit
    return, so that no answer of a participant is mistaken for success. *)

From S2P Require Import Prelude TcTypes TcRwLock TcLock TcLockProps TcLockSystem.
From S2P Require Import TcLockTheorems TcIpc TcMsg TcMsgProps TcMsgCommit.
From S2P Require Import TcMsgTheorems TcServer TcOper TcOperProps TcOperCandidate.
From S2P Require Import TcModule TcOperProps TcTermination TcRequests.

Local Open Scope Z_scope.

(** ** What the messages return *)

(** The results that [HandleMsgRet] does not turn into success by accident. *)
Definition decided (r : TcOperRet) : Prop :=
  match r with
  | TCOPER_RET_SUCCESS | TCOPER_RET_FAILURE | TCOPER_RET_FATAL | TCOPER_RET_ABORT => True
  | _ => False
  end.

Class Okay (A : Type) := okay : A -> Prop.
#[export] Instance okay_ret : Okay TcOperRet := decided.
#[export] Instance okay_any (A : Type) : Okay A | 100 := fun _ => True.

(** All results and early returns of [m] are decided. *)
Definition yields {A} `{Okay A} (m : M A) : Prop :=
  forall st, match (m st).1 with inl a => okay a | inr e => decided e end.

Section Yields.

Context {A B : Type} `{Okay A} `{Okay B}.

Lemma yields_ret (a : A) : okay a -> yields (ret a).
Proof. by intros Ha st. Qed.

Lemma yields_leave r : decided r -> yields (leave (A := A) r).
Proof. by intros Hr st. Qed.

Lemma yields_bind (m : M B) (k : B -> M A) :
  yields m -> (forall b, okay b -> yields (k b)) -> yields (bind m k).
Proof.
  intros Hm Hk st. unfold bind. specialize (Hm st). destruct (m st) as [[b|e] st1]; [|done].
  by apply Hk.
Qed.

End Yields.

Lemma yields_get {A} (f : MsgData -> A) : yields (H := okay_any A) (get f).
Proof. by intros st. Qed.
Lemma yields_peek {A} (f : World -> A) : yields (H := okay_any A) (peek f).
Proof. by intros st. Qed.
Lemma yields_io {A} (f : World -> A * World) : yields (H := okay_any A) (io f).
Proof. intros st. unfold io. by destruct (f _). Qed.
Lemma yields_modify f : yields (modify f).
Proof. by intros st. Qed.
Lemma yields_method body : yields body -> yields (method body).
Proof. intros Hb st. specialize (Hb st). unfold method. by destruct (body st) as [[]]. Qed.

Lemma util_decided r : decided (ReturnUtilResp r).
Proof. by destruct r. Qed.

(** The two requests that undo may end undecided, which their callers map. *)
Definition tame (m : M TcOperRet) : Prop := forall st, exists r, (m st).1 = inl r.

Lemma method_tame body : tame (method body).
Proof. intros st. unfold method. destruct (body st) as [[r|r] st']; by exists r. Qed.

Lemma yields_tame {A} `{Okay A} m (k : TcOperRet -> M A) :
  tame m -> (forall r, yields (k r)) -> yields (bind m k).
Proof.
  intros Hm Hk st. unfold bind. destruct (Hm st) as [r Hr]. specialize (Hk r).
  destruct (m st) as [[b|e] st1]; simpl in Hr; simplify_eq. apply Hk.
Qed.

Lemma undo_tame ipc vec : tame (SendTransEndRequest ipc vec) /\ tame (SendAbortRequest ipc vec).
Proof. split; apply method_tame. Qed.

Create HintDb yields.
#[export] Hint Resolve yields_get yields_peek yields_io yields_modify util_decided : yields.

(** Follow the structure of the method. *)
Ltac yields_auto :=
  repeat first
    [ solve [eauto 2 with yields]
    | match goal with
      | |- yields (method _) => apply yields_method
      | |- yields (bind (SendTransEndRequest _ _) _) =>
          apply yields_tame; [apply undo_tame|intros ?]
      | |- yields (bind (SendAbortRequest _ _) _) =>
          apply yields_tame; [apply undo_tame|intros ?]
      | |- yields (bind _ _) => apply yields_bind; [|intros ? ?]
      | |- yields (ret _) => apply yields_ret
      | |- yields (leave _) => apply yields_leave
      | |- yields (match _ with _ => _ end) => split_match
      | |- yields (let _ := _ in _) => cbv zeta
      | |- okay (if _ then _ else _) => split_match
      | |- okay _ => first [exact I | assumption]
      | |- decided _ => first [exact I | assumption]
      end ].

Section Commit.

Context (ipc : Ipc).

Lemma yields_checked f : yields (checked f).
Proof. unfold checked. yields_auto. Qed.
Lemma yields_checked_close v f : yields (checked_close v f).
Proof. unfold checked_close. yields_auto. Qed.
Lemma yields_close v : yields (close v).
Proof. apply yields_io. Qed.
Lemma yields_create v c s i : yields (create ipc v c s i).
Proof. unfold create. yields_auto. Qed.
Lemma yields_invoke v : yields (invoke ipc v).
Proof. unfold invoke. yields_auto. Qed.
Lemma yields_invoke_close v : yields (invoke_close ipc v).
Proof. unfold invoke_close. pose proof yields_close. yields_auto. Qed.
Lemma yields_channel d : yields (GetChannelName d).
Proof. apply yields_get. Qed.
#[local] Hint Resolve yields_checked yields_checked_close yields_close yields_create
  yields_invoke yields_invoke_close yields_channel : yields.

Lemma yields_channel_of d : yields (channel_of d).
Proof. unfold channel_of. yields_auto. Qed.
Lemma yields_set_ids v : yields (set_ids ipc v).
Proof. unfold set_ids. yields_auto. Qed.
Lemma yields_or_leave f r : decided r -> yields f -> yields (or_leave f r).
Proof. intros. unfold or_leave. yields_auto. Qed.
Lemma yields_or_leave_same f : yields f -> yields (or_leave_same f).
Proof. intros. unfold or_leave_same. yields_auto. Qed.
#[local] Hint Resolve yields_channel_of yields_set_ids : yields.

Lemma yields_notify_loop body l resp :
  (forall d, yields (body d)) -> yields (notify_loop body l resp).
Proof.
  intros Hb. revert resp. induction l as [|d l IH]; intros resp; simpl; yields_auto.
Qed.

Lemma CommitTransaction_SendRequest_decided ch : yields (CommitTransaction_SendRequest ipc ch).
Proof.
  unfold CommitTransaction_SendRequest. yields_auto.
Qed.
#[local] Hint Resolve CommitTransaction_SendRequest_decided : yields.

Lemma transaction_loop_decided l r : decided r -> yields (transaction_loop ipc l r).
Proof. revert r. induction l as [|d l IH]; intros r Hr; simpl; yields_auto. Qed.

Lemma CommitTransaction_decided : yields (CommitTransaction_Execute ipc).
Proof.
  unfold CommitTransaction_Execute.
  assert (forall l, yields (transaction_loop ipc l TCOPER_RET_SUCCESS)) as Hl
    by (intros; by apply transaction_loop_decided).
  yields_auto.
Qed.

Lemma HandleDriverResultResponse_decided v : yields (HandleDriverResultResponse ipc v).
Proof.
  unfold HandleDriverResultResponse. yields_auto.
Qed.

Lemma SetSession_decided v : yields (SetSessionToForwardDriverResult ipc v).
Proof. unfold SetSessionToForwardDriverResult. yields_auto. Qed.

Lemma CreateSessions_decided : yields (CreateSessionsToForwardDriverResult ipc).
Proof.
  unfold CreateSessionsToForwardDriverResult. pose proof SetSession_decided.
  assert (forall v, yields (or_leave (SetSessionToForwardDriverResult ipc v) TCOPER_RET_FAILURE))
    by (intros; by apply yields_or_leave). yields_auto.
Qed.

Lemma yields_read_uint8 v i : yields (read_uint8 v i).
Proof. unfold read_uint8. yields_auto. Qed.
#[local] Hint Resolve yields_read_uint8 : yields.

Lemma yields_read_controllers v n i acc : yields (read_controllers v n i acc).
Proof. revert i acc. induction n as [|n IH]; intros i acc; simpl; yields_auto. Qed.
#[local] Hint Resolve yields_read_controllers : yields.

Lemma yields_read_drivers v n i : yields (read_drivers v n i).
Proof. revert i. induction n as [|n IH]; intros i; simpl; yields_auto. Qed.
#[local] Hint Resolve yields_read_drivers : yields.

Lemma GetControllerInfo_decided v : yields (GetControllerInfo v).
Proof. unfold GetControllerInfo. yields_auto. Qed.

Lemma TwoPhaseCommit_SendRequest_decided ch : yields (TwoPhaseCommit_SendRequest ipc ch).
Proof.
  assert (yields (or_leave (GetControllerInfo RSess) TCOPER_RET_FAILURE))
    by (apply yields_or_leave; [done|apply GetControllerInfo_decided]).
  unfold TwoPhaseCommit_SendRequest. yields_auto.
Qed.
#[local] Hint Resolve TwoPhaseCommit_SendRequest_decided : yields.

Lemma vote_loop_decided l r : decided r -> yields (vote_loop ipc l r).
Proof. revert r. induction l as [|d l IH]; intros r Hr; simpl; yields_auto. Qed.

Lemma yields_dummy l : yields (dummy_responses ipc l).
Proof. induction l as [|c l IH]; simpl; unfold set_both; yields_auto. Qed.
#[local] Hint Resolve yields_dummy : yields.

Lemma HandleDriverNotPresent_decided d : yields (HandleDriverNotPresent ipc d).
Proof. unfold HandleDriverNotPresent. yields_auto. Qed.

Lemma yields_set_strings v l : yields (set_strings ipc v l).
Proof. induction l as [|s l IH]; simpl; yields_auto. Qed.
#[local] Hint Resolve yields_set_strings : yields.

Lemma yields_request_driver o c l : yields (request_driver ipc o c l).
Proof. unfold request_driver. yields_auto. Qed.
#[local] Hint Resolve yields_request_driver : yields.

Lemma driver_answered_decided o dr da resp r :
  decided r -> yields (driver_answered ipc o dr da resp r).
Proof.
  intros Hr. unfold driver_answered, forward_driver_response, forward_checked. yields_auto.
Qed.
#[local] Hint Resolve driver_answered_decided : yields.

Lemma driver_loop_decided o l r : decided r -> yields (driver_loop ipc o l r).
Proof.
  assert (forall d, yields (or_leave (HandleDriverNotPresent ipc d) TCOPER_RET_FATAL))
    by (intros; apply yields_or_leave; [done|apply HandleDriverNotPresent_decided]).
  revert r. induction l as [|[d c] l IH]; intros r Hr; simpl; yields_auto.
Qed.

Lemma TwoPhaseCommit_decided : yields (TwoPhaseCommit_Execute ipc).
Proof.
  assert (forall l, yields (vote_loop ipc l TCOPER_RET_SUCCESS)) as H1
    by (intros; by apply vote_loop_decided).
  assert (forall o l, yields (driver_loop ipc o l TCOPER_RET_SUCCESS)) as H2
    by (intros; by apply driver_loop_decided).
  assert (yields (or_leave (CreateSessionsToForwardDriverResult ipc) TCOPER_RET_FAILURE)) as H3
    by (apply yields_or_leave; [done|apply CreateSessions_decided]).
  assert (forall v, yields (or_leave (HandleDriverResultResponse ipc v) TCOPER_RET_FAILURE)) as H4
    by (intros; apply yields_or_leave; [done|apply HandleDriverResultResponse_decided]).
  assert (forall v, yields (or_leave_same (HandleDriverResultResponse ipc v))) as H5
    by (intros; apply yields_or_leave_same, HandleDriverResultResponse_decided).
  unfold TwoPhaseCommit_Execute, SendRequestToDriver. yields_auto.
Qed.

End Commit.

(** ** The other threads during a commit *)

(** One step of another thread: an effect on the lock that neither releases
    for session [sid] nor resets, or a thread that begins or ends a wait. *)
Definition peer_step (sid : Z) (s s' : TcLock) : Prop :=
  lock_eff (others sid) s s' \/ exists r w, s' = set_rwlock s (set_waiters (tc_rwlock_ s) r w).

Definition peers (sid : Z) : TcLock -> TcLock -> Prop := rtc (peer_step sid).

Definition env_peers {D} (sid : Z) (env : Env D) : Prop :=
  env_follows (peers sid) (fun _ _ _ => True) env.

(** The invariants of the object, and the session that commits. *)
Definition sound (s : TcLock) : Prop := counts_inv s /\ config_inv s.
Definition committing (sid : Z) (s : TcLock) : Prop := sound s /\ held_as sid TC_COMMIT s.

Lemma peer_step_sound sid s s' : peer_step sid s s' -> sound s -> sound s'.
Proof.
  intros [He|(r&w&->)] [Hc Hf].
  - split; [by eapply counts_inv_eff|by eapply config_inv_eff].
  - split; [by apply counts_waiters|by destruct Hf].
Qed.

Lemma peers_sound sid s s' : peers sid s s' -> sound s -> sound s'.
Proof. induction 1; eauto using peer_step_sound. Qed.

Lemma peers_committing sid s s' : peers sid s s' -> committing sid s -> committing sid s'.
Proof.
  induction 1 as [|s1 s2 s3 Hs _ IH]; [done|]. intros [Hi Hh]. apply IH.
  split; [by eapply peer_step_sound|]. destruct Hs as [He|(r&w&->)]; [|done].
  eapply held_as_eff; [apply Hi|done|done].
Qed.

(** The session that commits owns the configuration. *)
Lemma committing_owns sid s : committing sid s -> config_held_by sid s.
Proof.
  intros [[_ Hf] [Hh Ho]]. unfold isWriteHeldBy in Hh. apply andb_true_iff in Hh as [Hw Hs].
  bool_norm. destruct (cf_commit _ Hf) as (H1&H2&H3).
  - unfold candidate_write_held. rewrite Hw, Ho. done.
  - split_and!; [done|done|congruence].
Qed.

(** Taking the lock for a commit. *)
Lemma commit_acquired sid s s' :
  GetLock sid TC_ACQUIRE_WRITE_SESSION TC_COMMIT s = Done TC_LOCK_SUCCESS s' ->
  sound s -> committing sid s'.
Proof.
  unfold GetLock. destruct (TcOperationIsAllowed _ _ _ !=? _) eqn:Ea; bool_norm; [congruence|].
  pose proof (allowed_write _ _ _ Ea ltac:(done) ltac:(done)) as Hact.
  simpl. unfold AcquireWriteLockForCommit. split_match; [done|]. bool_norm.
  unfold try_write, tryWriteLock, returns. destruct (canWriteLock _) eqn:Ecan; [|done].
  simpl. intros [= <-] [Hc Hf].
  assert (lock_eff (rules anyone) s (set_rwlock s (setWriter sid TC_COMMIT (tc_rwlock_ s)))) as He.
  { apply eff_write_acquire; [done..|]. intros _. by split_and!. }
  split; [split; [by eapply counts_inv_eff|by eapply config_inv_eff]|].
  split; [|apply setWriter_operation]. unfold isWriteHeldBy. cbn [set_rwlock tc_rwlock_].
  rewrite setWriter_held, setWriter_session. by rewrite bool_decide_eq_true_2.
Qed.

(** ** The run of a commit *)

(** A message is sent while its session commits and owns the configuration. *)
Definition under_lock (sid : Z) (e : OpEvent) : Prop :=
  match e with
  | EvMsg _ _ s => held_as sid TC_COMMIT s /\ config_held_by sid s
  | _ => True
  end.

(** The events of a commit and the status it ends with.  A transaction that
    could not be started is over; a vote that was refused ends the
    transaction, unless the refusal is fatal; the recovery table is written
    before the point of no return; what fails after it is a failure of the
    system. *)
Inductive commit_run : list OpEvent -> TcOperStatus -> Prop :=
| cr_start r s :
    r <> TCOPER_RET_SUCCESS -> decided r ->
    commit_run [EvMsg MSG_COMMIT_TRANS_START r s] (HandleMsgRet r)
| cr_fatal s1 s2 :
    commit_run [EvMsg MSG_COMMIT_TRANS_START TCOPER_RET_SUCCESS s1;
                EvMsg MSG_COMMIT_VOTE TCOPER_RET_FATAL s2] TC_SYSTEM_FAILURE
| cr_vote r s1 s2 s3 :
    r <> TCOPER_RET_SUCCESS -> r <> TCOPER_RET_FATAL -> decided r ->
    commit_run [EvMsg MSG_COMMIT_TRANS_START TCOPER_RET_SUCCESS s1;
                EvMsg MSG_COMMIT_VOTE r s2;
                EvMsg MSG_COMMIT_TRANS_END TCOPER_RET_SUCCESS s3] (HandleMsgRet r)
| cr_vote_end r r' s1 s2 s3 :
    r <> TCOPER_RET_SUCCESS -> r <> TCOPER_RET_FATAL -> r' <> TCOPER_RET_SUCCESS ->
    commit_run [EvMsg MSG_COMMIT_TRANS_START TCOPER_RET_SUCCESS s1;
                EvMsg MSG_COMMIT_VOTE r s2;
                EvMsg MSG_COMMIT_TRANS_END r' s3] TC_SYSTEM_FAILURE
| cr_global rec r s1 s2 s3 :
    r <> TCOPER_RET_SUCCESS ->
    commit_run [EvMsg MSG_COMMIT_TRANS_START TCOPER_RET_SUCCESS s1;
                EvMsg MSG_COMMIT_VOTE TCOPER_RET_SUCCESS s2;
                EvRecovery UNC_DT_RUNNING TC_OP_CANDIDATE_COMMIT 0 rec;
                EvMsg MSG_COMMIT_GLOBAL r s3] TC_SYSTEM_FAILURE
| cr_end rec r s1 s2 s3 s4 :
    r <> TCOPER_RET_SUCCESS ->
    commit_run [EvMsg MSG_COMMIT_TRANS_START TCOPER_RET_SUCCESS s1;
                EvMsg MSG_COMMIT_VOTE TCOPER_RET_SUCCESS s2;
                EvRecovery UNC_DT_RUNNING TC_OP_CANDIDATE_COMMIT 0 rec;
                EvMsg MSG_COMMIT_GLOBAL TCOPER_RET_SUCCESS s3;
                EvMsg MSG_COMMIT_TRANS_END r s4] TC_SYSTEM_FAILURE
| cr_done rec s1 s2 s3 s4 :
    commit_run [EvMsg MSG_COMMIT_TRANS_START TCOPER_RET_SUCCESS s1;
                EvMsg MSG_COMMIT_VOTE TCOPER_RET_SUCCESS s2;
                EvRecovery UNC_DT_RUNNING TC_OP_CANDIDATE_COMMIT 0 rec;
                EvMsg MSG_COMMIT_GLOBAL TCOPER_RET_SUCCESS s3;
                EvMsg MSG_COMMIT_TRANS_END TCOPER_RET_SUCCESS s4] TC_OPER_SUCCESS.

(** The results of all messages of a run. *)
Definition results (run : list OpEvent) : list (TcMsgOperType * TcOperRet) :=
  omap (fun e => match e with EvMsg m r _ => Some (m, r) | _ => None end) run.

Definition all_committed : list (TcMsgOperType * TcOperRet) :=
  [(MSG_COMMIT_TRANS_START, TCOPER_RET_SUCCESS); (MSG_COMMIT_VOTE, TCOPER_RET_SUCCESS);
   (MSG_COMMIT_GLOBAL, TCOPER_RET_SUCCESS); (MSG_COMMIT_TRANS_END, TCOPER_RET_SUCCESS)].

Section Run.

Context {D : Type} `{TcDbI D} (S : Setting D) (sid : Z).
Hypothesis Henv : env_peers sid (set_the_env S).
Implicit Type st : OpSt D Candidate.Ext.

(** From [st] the operation went on to [st'] with the events [run]. *)
Record went st (run : list OpEvent) st' : Prop := {
  wn_log : st_log st' = st_log st ++ run;
  wn_base : st_base st' = st_base st;
  wn_lock : committing sid (sh_lock (st_shared st'));
  wn_sent : Forall (under_lock sid) run
}.

Lemma went_trans st st1 st2 run run' :
  went st run st1 -> went st1 run' st2 -> went st (run ++ run') st2.
Proof.
  intros [L1 B1 C1 F1] [L2 B2 C2 F2]. constructor; [|congruence|done|by apply Forall_app].
  by rewrite L2, L1, app_assoc.
Qed.

(** Members of the class and the trace do not matter. *)
Lemma went_same st run st1 st2 :
  went st run st1 -> st_log st2 = st_log st1 -> st_base st2 = st_base st1 ->
  sh_lock (st_shared st2) = sh_lock (st_shared st1) -> went st run st2.
Proof. intros [L1 B1 C1 F1] E1 E2 E3. constructor; try done; congruence. Qed.

Lemma went_refl st : committing sid (sh_lock (st_shared st)) -> went st [] st.
Proof. intros Hc. constructor; [by rewrite app_nil_r|done|done|constructor]. Qed.

Lemma committing_step st :
  committing sid (sh_lock (st_shared st)) ->
  committing sid (sh_lock (e_step (set_the_env S) (st_log st) (st_shared st))).
Proof. apply peers_committing. apply (ef_step _ _ _ Henv). Qed.

(** A message of the commit. *)
Definition commit_msg (m : TcMsgOperType) : Prop :=
  m ∈ [MSG_COMMIT_TRANS_START; MSG_COMMIT_VOTE; MSG_COMMIT_GLOBAL; MSG_COMMIT_TRANS_END].

(** An object for one of them. *)
Definition commit_obj (m : TcMsgOperType) (o : MsgObj) : Prop :=
  opertype_ (mo_data o) = m /\ (mo_class o = CCommitTransaction \/ mo_class o = CTwoPhaseCommit).

Lemma commit_created m i :
  commit_msg m -> exists c d, CreateInstance i m (set_channels S) = Some (c, d) /\
    commit_obj m (mkMsgObj c d world_new).
Proof.
  intros Hm. unfold commit_msg in Hm.
  repeat (apply elem_of_cons in Hm as [->|Hm];
    [do 2 eexists; split; [reflexivity|split; [reflexivity|simpl; auto]]|]).
  by apply elem_of_nil in Hm.
Qed.

Lemma commit_filled m o st :
  commit_obj m o ->
  owp (Candidate.FillTcMsgData o m) (fun p st' => st' = st /\ commit_obj m p.2) st.
Proof.
  intros [Ho Hc]. unfold owp, Candidate.FillTcMsgData, obind, ext, oret.
  split; [done|]. unfold commit_obj, with_msg, SetData_config, SetTransResult in *.
  destruct o as [c d w]. simpl in *. destruct Hc as [-> | ->]; repeat split_match; simpl; auto.
Qed.

Lemma commit_executed m o st :
  commit_obj m o -> committing sid (sh_lock (st_shared st)) ->
  owp (execute_msg S o)
    (fun q st' => decided q.1 /\ st_ext st' = st_ext st /\
       exists s, went st [EvMsg m q.1 s] st') st.
Proof.
  intros [Ho Hc] Hl. unfold owp, execute_msg, obind, interfere.
  set (w := mkMSt (mo_data o) _).
  assert (decided (match (TcMsg_Execute (set_ipc S) (set_end_value S) (mo_class o) w).1 with
                   | inl x => x | inr x => x end)) as Hd.
  { destruct Hc as [-> | ->]; simpl.
    - pose proof (CommitTransaction_decided (set_ipc S) w) as Hy.
      by destruct (CommitTransaction_Execute (set_ipc S) w) as [[]].
    - pose proof (TwoPhaseCommit_decided (set_ipc S) w) as Hy.
      by destruct (TwoPhaseCommit_Execute (set_ipc S) w) as [[]]. }
  destruct (TcMsg_Execute _ _ _ _) as [r ms]. split; [exact Hd|]. split; [done|].
  eexists. rewrite <- Ho. pose proof (committing_step _ Hl) as Hl'.
  constructor; [reflexivity|done|done|]. constructor; [|constructor]. split; [apply Hl'|].
  by apply committing_owns.
Qed.

Lemma send_msg_went m st :
  commit_msg m -> committing sid (sh_lock (st_shared st)) ->
  owp (Candidate.send_msg S m)
    (fun q st' => decided q.1 /\ st_ext st' = st_ext st /\
       exists s, went st [EvMsg m q.1 s] st') st.
Proof.
  intros Hm Hl. apply owp_bind. unfold owp at 1, create_msg, obind, base, oret.
  destruct (commit_created m (op_session_id (st_base st)) Hm) as (c&d&->&Ho).
  apply owp_bind. eapply owp_mono; [by apply commit_filled|]. cbn beta.
  intros p st1 [-> Hp]. by apply commit_executed.
Qed.

(** *** The four steps *)

Definition response (st : OpSt D Candidate.Ext) : TcOperStatus :=
  Candidate.user_response_ (st_ext st).

Ltac went_done := eapply went_same; [eassumption|done..].

Lemma start_went st :
  committing sid (sh_lock (st_shared st)) ->
  owp (Candidate.TransStartMsg S) (fun ok st' => exists r s,
    went st [EvMsg MSG_COMMIT_TRANS_START r s] st' /\ decided r /\
    if ok then r = TCOPER_RET_SUCCESS
    else r <> TCOPER_RET_SUCCESS /\ response st' = HandleMsgRet r) st.
Proof.
  intros Hl. apply owp_bind.
  eapply owp_mono; [apply send_msg_went; [unfold commit_msg; set_solver|done]|].
  cbn beta. intros [r o] st1 (Hd&He&s&Hw). cbn [fst snd] in *.
  split_match; bool_norm; (eexists _, _; split; [went_done|]; by split).
Qed.

Lemma end_went st :
  committing sid (sh_lock (st_shared st)) ->
  owp (Candidate.TransEndMsg S) (fun ok st' => exists r s,
    went st [EvMsg MSG_COMMIT_TRANS_END r s] st' /\
    if ok then r = TCOPER_RET_SUCCESS
    else r <> TCOPER_RET_SUCCESS /\ response st' = TC_SYSTEM_FAILURE) st.
Proof.
  intros Hl. apply owp_bind.
  eapply owp_mono; [apply send_msg_went; [unfold commit_msg; set_solver|done]|].
  cbn beta. intros [r o] st1 (Hd&He&s&Hw). cbn [fst snd] in *.
  split_match; bool_norm; (eexists _, _; split; [went_done|]; done).
Qed.

(** The refused vote with what followed it. *)
Inductive refused st st' : Prop :=
| rf_fatal s :
    went st [EvMsg MSG_COMMIT_VOTE TCOPER_RET_FATAL s] st' -> response st' = TC_SYSTEM_FAILURE ->
    refused st st'
| rf_ended r s s' :
    r <> TCOPER_RET_SUCCESS -> r <> TCOPER_RET_FATAL -> decided r ->
    went st [EvMsg MSG_COMMIT_VOTE r s; EvMsg MSG_COMMIT_TRANS_END TCOPER_RET_SUCCESS s'] st' ->
    response st' = HandleMsgRet r -> refused st st'
| rf_open r r' s s' :
    r <> TCOPER_RET_SUCCESS -> r <> TCOPER_RET_FATAL -> r' <> TCOPER_RET_SUCCESS ->
    went st [EvMsg MSG_COMMIT_VOTE r s; EvMsg MSG_COMMIT_TRANS_END r' s'] st' ->
    response st' = TC_SYSTEM_FAILURE -> refused st st'.

Lemma vote_went st :
  committing sid (sh_lock (st_shared st)) ->
  owp (Candidate.TransVoteMsg S) (fun ok st' =>
    if ok : bool then exists s, went st [EvMsg MSG_COMMIT_VOTE TCOPER_RET_SUCCESS s] st'
    else refused st st') st.
Proof.
  intros Hl. apply owp_bind.
  eapply owp_mono; [apply send_msg_went; [unfold commit_msg; set_solver|done]|].
  cbn beta. intros [r o] st1 (Hd&He&s&Hw). cbn [fst snd] in *.
  split_match; bool_norm; [split_match; bool_norm|].
  - subst r. apply (rf_fatal _ _ s); [went_done|done].
  - apply owp_bind. eapply owp_mono; [apply end_went, Hw|]. cbn beta.
    intros ok st2 (r'&s'&Hw'&Hok). pose proof (went_trans _ _ _ _ _ Hw Hw') as Hww.
    destruct ok.
    + subst r'. apply (rf_ended _ _ r s s'); [done..|went_done|done].
    + apply (rf_open _ _ r r' s s'); [done|done|by destruct Hok|went_done|]. apply Hok.
  - subst r. exists s. went_done.
Qed.

Lemma recovery_went db op i st :
  committing sid (sh_lock (st_shared st)) ->
  owp (UpdateRecoveryTable_with S db op i)
    (fun _ st' => exists r, went st [EvRecovery db op i r] st') st.
Proof.
  intros Hl. unfold owp, UpdateRecoveryTable_with, obind, interfere. cbn beta iota.
  destruct (db_UpdateRecoveryTable _ _ _ _) as [r d]. exists r.
  constructor; [done|done|by apply committing_step|]. by constructor.
Qed.

Lemma global_went st :
  tc_oper_ (st_base st) = TC_OP_CANDIDATE_COMMIT ->
  committing sid (sh_lock (st_shared st)) ->
  owp (Candidate.TransGlobalCommitMsg S) (fun ok st' => exists rec r s,
    went st [EvRecovery UNC_DT_RUNNING TC_OP_CANDIDATE_COMMIT 0 rec;
             EvMsg MSG_COMMIT_GLOBAL r s] st' /\
    if ok : bool then r = TCOPER_RET_SUCCESS
    else r <> TCOPER_RET_SUCCESS /\ response st' = TC_SYSTEM_FAILURE) st.
Proof.
  intros Hop Hl. apply owp_bind. unfold owp at 1, base. cbn beta iota. rewrite Hop.
  apply owp_bind. eapply owp_mono; [by apply recovery_went|]. cbn beta.
  intros _ st1 (rec&Hw1). apply owp_bind.
  eapply owp_mono; [apply send_msg_went; [unfold commit_msg; set_solver|apply Hw1]|].
  cbn beta. intros [r o] st2 (Hd&He&s&Hw2). cbn [fst snd] in *.
  pose proof (went_trans _ _ _ _ _ Hw1 Hw2) as Hw. apply owp_bind.
  unfold owp at 1, set_ext. cbn beta iota.
  split_match; bool_norm; (eexists rec, r, s; split; [went_done|]; done).
Qed.

(** A step of the sequence. *)
Lemma owp_step (m : O D Candidate.Ext bool) k (Q : TcOperStatus -> OpSt D Candidate.Ext -> Prop) st :
  owp m (fun ok st' => if ok : bool then owp k Q st' else Q (response st') st') st ->
  owp (Candidate.step m k) Q st.
Proof.
  intros Hm. apply owp_bind. eapply owp_mono; [exact Hm|]. cbn beta.
  intros ok st'. by destruct ok.
Qed.

Lemma execute_went st :
  tc_oper_ (st_base st) = TC_OP_CANDIDATE_COMMIT ->
  committing sid (sh_lock (st_shared st)) ->
  owp (Candidate.Execute S) (fun r st' => exists run, went st run st' /\ commit_run run r) st.
Proof.
  intros Hop Hl. apply owp_bind. unfold owp at 1, base. cbn beta iota.
  rewrite bool_decide_eq_true_2 by done.
  apply owp_step. eapply owp_mono; [by apply start_went|]. cbn beta.
  intros ok st1 (r1&s1&Hw1&Hd1&Hok). destruct ok; [subst r1|].
  2: { destruct Hok as [Hne ->]. eexists. split; [exact Hw1|by apply cr_start]. }
  apply owp_step. eapply owp_mono; [apply vote_went, Hw1|]. cbn beta.
  intros ok st2 Hok. destruct ok.
  2: { destruct Hok as [s Hw ->|r s s' H1 H2 H3 Hw ->|r r' s s' H1 H2 H3 Hw ->];
         pose proof (went_trans _ _ _ _ _ Hw1 Hw); eexists; (split; [eassumption|]);
         by constructor. }
  destruct Hok as (s2&Hw2). pose proof (went_trans _ _ _ _ _ Hw1 Hw2) as Hw12.
  apply owp_step. eapply owp_mono; [apply global_went; [|apply Hw12]|].
  { by rewrite (wn_base _ _ _ Hw12). }
  cbn beta. intros ok st3 (rec&r3&s3&Hw3&Hok).
  pose proof (went_trans _ _ _ _ _ Hw12 Hw3) as Hw13. destruct ok; [subst r3|].
  2: { destruct Hok as [Hne ->]. eexists. split; [exact Hw13|by apply cr_global]. }
  apply owp_step. eapply owp_mono; [apply end_went, Hw13|]. cbn beta.
  intros ok st4 (r4&s4&Hw4&Hok). pose proof (went_trans _ _ _ _ _ Hw13 Hw4) as Hw14.
  destruct ok; [subst r4; apply owp_ret|destruct Hok as [Hne ->]];
    (eexists; split; [exact Hw14|by constructor]).
Qed.

(** Before that, the lock is taken; the list of messages stays empty. *)
Lemma get_went st :
  tc_oper_ (st_base st) = TC_OP_CANDIDATE_COMMIT -> op_session_id (st_base st) = sid ->
  sound (sh_lock (st_shared st)) ->
  owp (Candidate.TcGetExclusion S) (fun r st' => exists lr,
    st_log st' = st_log st ++ [EvLock (OpGetLock sid TC_ACQUIRE_WRITE_SESSION TC_COMMIT) lr] /\
    st_base st' = st_base st /\
    if r ==? TC_OPER_SUCCESS
    then lr = TC_LOCK_SUCCESS /\ committing sid (sh_lock (st_shared st'))
    else lr <> TC_LOCK_SUCCESS) st.
Proof.
  intros Hop Hsid Hs. do 2 (apply owp_bind; unfold owp at 1, base; cbn beta iota).
  unfold Candidate.write_operation. rewrite Hop, Hsid, bool_decide_eq_true_2 by done.
  apply owp_bind, (owp_lock_do _ _ _ Henv). intros s lr s' c d HR Hl.
  apply (peers_sound _ _ _ HR) in Hs.
  assert (forall k s1, lock_call (OpGetLock sid TC_ACQUIRE_WRITE_SESSION TC_COMMIT) s <>
    Blocked k s1) as Hnb.
  { intros k s1 E. destruct (never_waits_done (OpGetLock sid TC_ACQUIRE_WRITE_SESSION TC_COMMIT) s
      eq_refl) as (r1&s2&E'). congruence. }
  destruct Hl as [Hl|k s1 Hl _]; [|by destruct (Hnb _ _ Hl)].
  destruct (lr ==? TC_LOCK_SUCCESS) eqn:Er; bool_norm; cbn [negb]; apply owp_ret; exists lr;
    (split; [done|]); (split; [done|]).
  - subst lr. rewrite bool_decide_eq_true_2 by done. split; [done|].
    by apply (commit_acquired sid s).
  - assert (Candidate.HandleLockRet lr <> TC_OPER_SUCCESS) as Hh by (by destruct lr).
    by rewrite bool_decide_eq_false_2.
Qed.

Lemma list_went st :
  tc_oper_ (st_base st) = TC_OP_CANDIDATE_COMMIT ->
  committing sid (sh_lock (st_shared st)) ->
  owp (Candidate.TcCreateMsgList S) (fun r st' => r = TC_OPER_SUCCESS /\ went st [] st') st.
Proof.
  intros Hop Hl. unfold owp, Candidate.TcCreateMsgList, GetConfTable_do, obind, ext, interfere,
    base, set_ext. cbn beta iota.
  destruct (db_GetConfTable _ _) as [[r b] d]. cbn -[bool_decide]. rewrite Hop.
  rewrite bool_decide_eq_false_2 by done. destruct (TcOperMessageList _); cbn;
    (split; [done|]); constructor; try done; try (by rewrite app_nil_r);
    by apply committing_step.
Qed.

End Run.

(** A commit reports success exactly if all four messages succeeded. *)
Lemma commit_run_success run r :
  commit_run run r -> r = TC_OPER_SUCCESS <-> results run = all_committed.
Proof.
  unfold results, all_committed. intros Hr. destruct Hr; simpl; try (split; congruence).
  - split; [by destruct r|congruence].
  - split; [by destruct r|congruence].
Qed.

(** C4: the commit of the candidate configuration, from taking the write lock
    on: it always returns; without the lock no message is sent; with it the
    messages START, VOTE, GLOBAL and END are sent in this order as far as they
    succeed, a refused vote is followed by END, the recovery table names the
    running configuration before the global commit, each message is sent while
    the session holds the write lock for the commit and owns the
    configuration, and the status is success exactly if all four succeeded.
    The other threads may call whatever they like of the lock meanwhile, but
    for two things ([env_peers]): no other call for this very session, which
    would take its lock from it, and no reset of the lock, which
    [TcModule::HandleStop] does without asking who holds it. The lock is one
    that its own calls have led to ([sound]). *)
Theorem commit_protocol {D} `{TcDbI D} (S : Setting D) (sid : Z) (st : OpSt D Candidate.Ext) :
  env_peers sid (set_the_env S) -> sound (sh_lock (st_shared st)) ->
  tc_oper_ (st_base st) = TC_OP_CANDIDATE_COMMIT -> op_session_id (st_base st) = sid ->
  exists r st1 lr, Candidate.TcGetExclusion S st = Some (r, st1) /\
    st_log st1 = st_log st ++ [EvLock (OpGetLock sid TC_ACQUIRE_WRITE_SESSION TC_COMMIT) lr] /\
    (r <> TC_OPER_SUCCESS -> lr <> TC_LOCK_SUCCESS) /\
    (r = TC_OPER_SUCCESS -> lr = TC_LOCK_SUCCESS /\
       exists st2 r3 st3 run,
         Candidate.TcCreateMsgList S st1 = Some (TC_OPER_SUCCESS, st2) /\
         Candidate.Execute S st2 = Some (r3, st3) /\
         st_log st3 = st_log st1 ++ run /\ commit_run run r3 /\
         Forall (under_lock sid) run /\
         (r3 = TC_OPER_SUCCESS <-> results run = all_committed)).
Proof.
  intros Henv Hs Hop Hsid.
  destruct (total_owp _ _ st (Candidate_get_total S) (get_went S sid Henv st Hop Hsid Hs))
    as (r&st1&E1&lr&Hlog&Hbase&Hr).
  exists r, st1, lr. split; [exact E1|]. split; [exact Hlog|].
  split; [intros Hne; by rewrite bool_decide_eq_false_2 in Hr|]. intros ->.
  rewrite bool_decide_eq_true_2 in Hr by done. destruct Hr as [Hlr Hl1]. split; [exact Hlr|].
  rewrite <- Hbase in Hop.
  destruct (total_owp _ _ st1 (Candidate_list_total S) (list_went S sid Henv st1 Hop Hl1))
    as (r2&st2&E2&->&Hw2).
  rewrite <- (wn_base _ _ _ _ Hw2) in Hop.
  destruct (total_owp _ _ st2 (Candidate_execute_total S)
    (execute_went S sid Henv st2 Hop (wn_lock _ _ _ _ Hw2))) as (r3&st3&E3&run&Hw3&Hrun).
  exists st2, r3, st3, run. split_and!; [done|done| |done|by apply Hw3|by apply commit_run_success].
  rewrite (wn_log _ _ _ _ Hw3), (wn_log _ _ _ _ Hw2). by rewrite app_nil_r.
Qed.

(** The commit of session 5, just before it takes the lock. *)
Definition commit_state : OpSt Scenario.D Candidate.Ext :=
  mkSt (mkBase 5 TC_OP_CANDIDATE_COMMIT [] GET_EXCLUSION_PHASE false)
    (Candidate.with_config_id 1 Candidate.ext_new) Scenario.shared None [] [].

Lemma commit_protocol_witness :
  exists st1 st2 r3 st3 run,
    Candidate.TcGetExclusion Scenario.setting commit_state = Some (TC_OPER_SUCCESS, st1) /\
    Candidate.TcCreateMsgList Scenario.setting st1 = Some (TC_OPER_SUCCESS, st2) /\
    Candidate.Execute Scenario.setting st2 = Some (r3, st3) /\
    commit_run run r3 /\ Forall (under_lock 5) run.
Proof.
  destruct (commit_protocol Scenario.setting 5 commit_state) as (r&st1&lr&E1&_&_&Hr).
  - constructor; [intros; apply rtc_refl|done|intros; discriminate].
  - pose proof (reachable_inv anyone true _
      (run_reachable anyone true (activate ++ config_by 5 1))) as Hi.
    split; apply Hi.
  - reflexivity.
  - reflexivity.
  - assert (fst <$> Candidate.TcGetExclusion Scenario.setting commit_state =
      Some TC_OPER_SUCCESS) as E by (vm_compute; reflexivity).
    rewrite E1 in E. simpl in E. injection E as ->.
    destruct (Hr eq_refl) as (_&st2&r3&st3&run&E2&E3&_&Hrun&Hlock&_).
    exists st1, st2, r3, st3, run. auto.
Defined.
