(* ===== verification/TcModuleTheorems.v ===== *)
(** * The life cycle of the daemon

    The event handlers of the module: the transition lock is always given
    back, the interrupted operation of the daemon that is taken over is audited
    before set-up ends, and the daemon is active when set-up completes. *)

From S2P Require Import Prelude TcTypes TcRwLock TcLock TcLockProps TcLockSystem.
From S2P Require Import TcLockTheorems TcIpc TcMsg TcMsgTheorems TcServer TcDb.
From S2P Require Import TcOper TcDbTheorems TcOperProps TcOperSimple TcOperConfig.
From S2P Require Import TcModule TcOperProps TcTermination.

Local Open Scope Z_scope.

(** ** Events other than those of the transition lock *)

Definition get_transition : LockOp :=
  OpGetLock 0 TC_ACQUIRE_READ_LOCK_FOR_STATE_TRANSITION TC_WRITE_NONE.
Definition release_transition : LockOp :=
  OpReleaseLock 0 0 TC_RELEASE_READ_LOCK_FOR_STATE_TRANSITION TC_WRITE_NONE.

Definition apart (e : OpEvent) : Prop :=
  match e with
  | EvLock (OpGetLock _ TC_ACQUIRE_READ_LOCK_FOR_STATE_TRANSITION _) _
  | EvLock (OpReleaseLock _ _ TC_RELEASE_READ_LOCK_FOR_STATE_TRANSITION _) _ => False
  | _ => True
  end.

Definition anyA {X} : Assertion X := fun _ _ _ _ _ => True.

Section Transition.

Context {D : Type} `{TcDbI D} (S : Setting D).

#[local] Instance any_lasting {X} : Lasting S (anyA (X := X)) apart.
Proof. constructor; try done. by intros []. Qed.

Lemma env_any : env_follows (fun _ _ => True) (fun _ _ _ => True) (set_the_env S).
Proof. by constructor. Qed.

Lemma stable_lock_any {X} o :
  (forall r, apart (EvLock o r)) -> stable (anyA (X := X)) apart (lock_do (D := D) S o).
Proof.
  intros Ho l0 st [_ Hg]. apply (owp_lock_do _ _ _ env_any). intros s r s' c d _ _.
  split; [done|]. by apply grown_snoc.
Qed.

#[local] Hint Extern 1 (stable _ _ (lock_do _ _)) => apply stable_lock_any; done : stable.
#[local] Hint Extern 1 (stable _ _ (set_ext _)) => apply stable_set_ext; done : stable.
#[local] Hint Extern 1 (stable _ _ (set_phase _)) => apply stable_set_phase; done : stable.

Lemma startup_fill_stable o m : stable anyA apart (StartUp.FillTcMsgData S o m).
Proof. unfold StartUp.FillTcMsgData. stable_auto. Qed.

Lemma startup_execute_stable : stable anyA apart (v_Execute (StartUp.vtable S)).
Proof. apply stable_Execute; [apply _|apply startup_fill_stable|stable_auto]. Qed.
#[local] Hint Resolve startup_execute_stable : stable.

Lemma startup_respond_stable r : stable anyA apart (v_SendResponse (StartUp.vtable S) r).
Proof. cbn. unfold StartUp.SendResponse, UpdateRecoveryTable_do. stable_auto. Qed.
#[local] Hint Resolve startup_respond_stable : stable.

Lemma startup_stable : stable anyA apart (StartUp.Dispatch S).
Proof.
  unfold StartUp.Dispatch, TcOper.Dispatch, run_phases.
  cbn [StartUp.vtable v_HandleArgs v_TcGetExclusion v_TcCreateMsgList v_TcReleaseExclusion].
  unfold StartUp.HandleArgs, StartUp.TcCreateMsgList. stable_auto.
Qed.

(** *** The start-up returns *)

Lemma StartUp_respond_total r : total (v_SendResponse (StartUp.vtable S) r).
Proof. cbn. unfold StartUp.SendResponse. total_auto. Qed.

Lemma StartUp_total : total (StartUp.Dispatch S).
Proof.
  apply total_Dispatch; auto using StartUp_respond_total;
    cbn [StartUp.vtable v_HandleArgs v_TcGetExclusion v_TcReleaseExclusion v_TcCreateMsgList
         v_Execute]; unfold StartUp.HandleArgs, StartUp.TcCreateMsgList; total_auto.
  apply total_Execute. intros. unfold StartUp.FillTcMsgData. total_auto.
Qed.

(** ** The transition lock is given back *)

Context (garbage : bool).
Implicit Type st : OpSt D Mod.

(** After the transition lock was taken: some events, its release, and
    nothing more. *)
Definition released (l : list OpEvent) (b : bool) st : Prop :=
  exists ev ur, st_log st = l ++ ev ++ [EvLock release_transition ur] /\
    Forall apart ev /\ (b = true -> ur = TC_LOCK_SUCCESS).

Lemma unlock_released l b st :
  grown apart l (st_log st) -> owp (unlock_and S b) (released l) st.
Proof.
  intros (ev&E&Hev). apply owp_bind, (owp_lock_do _ _ _ env_any). intros s r s' c d _ _.
  split_match; bool_norm; apply owp_ret; exists ev, r; simpl; rewrite E, <- app_assoc;
    (split; [done|]); done.
Qed.

(** A step without the transition lock. *)
Lemma stable_released {A} l (m : O D Mod A) k st :
  stable anyA apart m -> grown apart l (st_log st) ->
  (forall a st', grown apart l (st_log st') -> owp (k a) (released l) st') ->
  owp (obind m k) (released l) st.
Proof.
  intros Hm Hg Hk. apply owp_bind. eapply owp_mono; [apply (Hm l); by split|].
  intros a st' [_ Hg']. by apply Hk.
Qed.

Lemma startup_object_stable sw :
  stable anyA apart (with_object (X := Mod) (base_new garbage) (StartUp.ext_new sw) None
    (StartUp.Dispatch S)).
Proof.
  intros l0 st [_ Hg]. apply owp_with_object.
  eapply owp_mono; [apply (startup_stable l0); by split|]. cbn beta.
  intros r st1 [_ Hg1]. by split.
Qed.

(** The attempt is counted, and the last one gives up. *)
Lemma failed_released l x st :
  grown apart l (st_log st) ->
  owp (audit_db_failed S x)
    (fun r st' => match r with
                  | Some b => released l b st'
                  | None => grown apart l (st_log st')
                  end) st.
Proof.
  intros Hg. apply owp_bind.
  eapply owp_mono; [apply (stable_get_recovery S anyA apart _ l); by split|].
  intros [r row] st1 [_ Hg1]. cbn [fst snd]. split_match; [by apply owp_ret|].
  destruct row as [[db op] inst]. apply owp_bind.
  eapply owp_mono; [apply (stable_recovery S anyA apart db op (u32_inc inst) l); by split|].
  intros _ st2 [_ Hg2]. apply owp_bind. unfold owp at 1, ext. cbn beta iota.
  split_match; [|by apply owp_ret]. apply owp_bind. unfold owp at 1, event. cbn beta iota.
  apply owp_bind.
  eapply owp_mono; [apply (stable_lock_any (OpUpdateState TC_ACT_FAIL) ltac:(done) l)|].
  { split; [done|]. by apply grown_snoc. }
  intros _ st3 [_ Hg3]. apply owp_bind. eapply owp_mono; [by apply (unlock_released l true)|].
  intros b st4 H4. by apply owp_ret.
Qed.

(** What [HandleAct] does once it has the lock. *)
Definition act_locked (is_switch : bool) : O D Mod bool :=
  lock_do S OpReset;;;
  event (EvAlarm false);;;
  p <- with_object (base_new garbage) (StartUp.ext_new is_switch) None (StartUp.Dispatch S);
  if p.1 !=? TC_OPER_SUCCESS then
    given_up <- (if audit_db_fail_ (st_base p.2) then audit_db_failed S (st_ext p.2)
                 else oret None);
    match given_up with
    | Some b => oret b
    | None => unlock_and S false
    end
  else
    sh <- interfere S;
    put_shared (mkShared (sh_lock sh) (Config.SetStateChangedToSby false (sh_conf sh))
                  (sh_db sh));;;
    unlock_and S true.

Lemma HandleAct_locked is_switch :
  HandleAct S garbage is_switch =
    (r <- transition_lock S;
     if r !=? TC_LOCK_SUCCESS then oret false else act_locked is_switch).
Proof. reflexivity. Qed.

Lemma act_released is_switch l st :
  grown apart l (st_log st) -> owp (act_locked is_switch) (released l) st.
Proof.
  intros Hg. apply stable_released; [apply stable_lock_any; done|done|]. intros _ st1 H1.
  apply stable_released; [stable_auto|done|]. intros _ st2 H2.
  apply stable_released; [apply startup_object_stable|done|]. intros [r x] st3 H3.
  cbn [fst snd]. split_match.
  - apply owp_bind. eapply (owp_mono _ (fun r st' => match r with
      | Some b => released l b st' | None => grown apart l (st_log st') end)).
    + split_match; [by apply failed_released|by apply owp_ret].
    + intros [b|] st4 H4; [by apply owp_ret|by apply unlock_released].
  - apply owp_bind. unfold owp at 1, interfere. cbn beta iota.
    apply owp_bind. unfold owp at 1, put_shared. cbn beta iota. by apply unlock_released.
Qed.

Lemma unlock_total b : total (unlock_and S b).
Proof. unfold unlock_and, transition_unlock. total_auto. Qed.

Lemma act_total is_switch : total (act_locked is_switch).
Proof.
  pose proof unlock_total.
  assert (forall sw, total (with_object (X := Mod) (base_new garbage) (StartUp.ext_new sw) None
    (StartUp.Dispatch S))) as Hs.
  { intros sw. apply total_with_object. intros. apply StartUp_total. }
  unfold act_locked, audit_db_failed, UpdateRecoveryTable_with. total_auto.
Qed.

End Transition.

(** Activation gives back the transition lock exactly once.  If the lock
    is not granted the handler fails and does nothing; if it is granted the
    handler returns, its last action is the release, no other step of it
    touches the lock, and it reports success only if the release succeeded -
    however the start-up ends. *)
Theorem activation_releases {D} `{TcDbI D} (S : Setting D) garbage is_switch (st : OpSt D Mod)
    lr st1 :
  transition_lock S st = Some (lr, st1) ->
  exists b st', HandleAct S garbage is_switch st = Some (b, st') /\
    (lr <> TC_LOCK_SUCCESS -> b = false /\ st' = st1) /\
    (lr = TC_LOCK_SUCCESS -> released (st_log st1) b st').
Proof.
  intros E. rewrite HandleAct_locked. unfold obind. rewrite E.
  destruct (lr ==? TC_LOCK_SUCCESS) eqn:El; bool_norm; cbn [negb].
  - destruct (total_owp _ _ st1 (act_total S garbage is_switch)
      (act_released S garbage is_switch _ st1 (grown_refl _ _))) as (b&st'&E'&Hr).
    exists b, st'. split_and!; [done|done|done].
  - exists false, st1. by split_and!.
Qed.

(** A standby daemon that becomes active. *)
Definition standby : OpSt Scenario.D Mod :=
  mkSt (base_new false) (mkMod SBY 3)
    (mkShared (sys_lock (run_from_init anyone true [EvCall (OpUpdateState TC_SBY)]))
       statics_new Scenario.db) None [] [].

Lemma activation_releases_witness :
  exists st1 b st', transition_lock Scenario.setting standby = Some (TC_LOCK_SUCCESS, st1) /\
    HandleAct Scenario.setting false true standby = Some (b, st') /\
    released (st_log st1) b st'.
Proof.
  destruct (transition_lock Scenario.setting standby) as [[lr st1]|] eqn:E.
  - assert (fst <$> transition_lock Scenario.setting standby = Some TC_LOCK_SUCCESS) as E'
      by (vm_compute; reflexivity).
    rewrite E in E'. simpl in E'. injection E' as ->.
    destruct (activation_releases Scenario.setting false true standby _ _ E)
      as (b&st'&E1&_&Hr).
    exists st1, b, st'. auto.
  - exfalso. assert (fst <$> transition_lock Scenario.setting standby = Some TC_LOCK_SUCCESS) as E'
      by (vm_compute; reflexivity).
    rewrite E in E'. discriminate E'.
Defined.

(** ** The sequence of the start-up *)

(** The daemon becomes active just before it announces the end of set-up, and
    notes the end of set-up just after. *)
Definition activation (m : TcMsgOperType) : list OpEvent :=
  if m ==? MSG_SETUP_COMPLETE then [EvLock (OpUpdateState TC_ACT) TC_LOCK_SUCCESS] else [].
Definition completion (m : TcMsgOperType) : list OpEvent :=
  if m ==? MSG_SETUP_COMPLETE then [EvLock (OpSetSetupComplete true) TC_LOCK_SUCCESS] else [].

(** Sending a list of messages at start-up: the first failure ends it. *)
Inductive list_run : list TcMsgOperType -> list OpEvent -> TcOperStatus -> Prop :=
| lr_nil : list_run [] [] TC_OPER_SUCCESS
| lr_unread m l : list_run (m :: l) (activation m) TC_SYSTEM_FAILURE
| lr_failed m l r s :
    r <> TCOPER_RET_SUCCESS ->
    list_run (m :: l) (activation m ++ [EvMsg m r s]) (HandleMsgRet r)
| lr_sent m l s ev r :
    list_run l ev r ->
    list_run (m :: l) (activation m ++ EvMsg m TCOPER_RET_SUCCESS s :: completion m ++ ev) r.

(** What is sent: a daemon that starts sets up; one that takes over audits the
    operation that was interrupted, if there is one. *)
Definition startup_list (x : StartUp.Ext) : list TcMsgOperType :=
  (if negb (StartUp.is_switch_ x) then [MSG_SETUP]
   else if (StartUp.database_type_ x !=? UNC_DT_INVALID) &&
           (StartUp.fail_oper_ x !=? TC_OP_INVALID)
   then [MSG_AUDITDB] else []) ++ [MSG_SETUP_COMPLETE].

Section StartUpRun.

Context {D : Type} `{TcDbI D} (S : Setting D).
Implicit Type st : OpSt D StartUp.Ext.

(** The log went on with [ev]; the members of the class and the phase are as
    before. *)
Record logged st (ev : list OpEvent) st' : Prop := {
  lg_log : st_log st' = st_log st ++ ev;
  lg_ext : st_ext st' = st_ext st;
  lg_phase : tc_oper_status_ (st_base st') = tc_oper_status_ (st_base st)
}.

Lemma logged_refl st : logged st [] st.
Proof. constructor; [by rewrite app_nil_r|done|done]. Qed.

Lemma logged_trans st st1 st2 ev ev' :
  logged st ev st1 -> logged st1 ev' st2 -> logged st (ev ++ ev') st2.
Proof.
  intros [L1 E1 P1] [L2 E2 P2]. constructor; [by rewrite L2, L1, app_assoc|congruence..].
Qed.

Lemma lock_logged o st :
  (forall s, exists s', lock_call o s = Done TC_LOCK_SUCCESS s') ->
  owp (lock_do S o) (fun _ st' => logged st [EvLock o TC_LOCK_SUCCESS] st') st.
Proof.
  intros Ho. unfold owp, lock_do, obind, interfere.
  destruct (Ho (sh_lock (e_step (set_the_env S) (st_log st) (st_shared st)))) as [s' ->].
  by split.
Qed.

Lemma fill_logged o m st :
  owp (StartUp.FillTcMsgData S o m)
    (fun p st' => logged st (activation m) st' /\ opertype_ (mo_data p.2) = opertype_ (mo_data o))
    st.
Proof.
  apply owp_bind. eapply (owp_mono _ (fun _ st' => logged st (activation m) st')).
  { unfold activation. split_match; bool_norm.
    - apply owp_bind. eapply owp_mono; [apply lock_logged; by eexists|]. done.
    - apply owp_ret, logged_refl. }
  intros [] st1 H1. unfold owp, obind, GetConfTable_do, obind, interfere.
  cbn beta iota. destruct (db_GetConfTable _ _) as [[r b] d]. cbn.
  destruct (r ==? TCOPER_RET_FAILURE); cbn; (split; [by destruct H1; constructor|]); [done|].
  unfold SetData_audit_db, SetData_autosave. destruct o as [[] md mw]; simpl;
    by destruct (m ==? MSG_AUDITDB).
Qed.

Lemma execute_logged o m st :
  opertype_ (mo_data o) = m ->
  owp (execute_msg S o) (fun q st' => exists s, logged st [EvMsg m q.1 s] st') st.
Proof.
  intros <-. unfold owp, execute_msg, obind, interfere. cbn beta iota.
  destruct (TcMsg_Execute _ _ _ _) as [r ms]. eexists. by split.
Qed.

Lemma create_logged m st :
  is_Some (CreateInstance (op_session_id (st_base st)) m (set_channels S)) ->
  owp (create_msg S m) (fun o st' => st' = st /\
    exists msg, o = Some msg /\ opertype_ (mo_data msg) = m) st.
Proof.
  intros [[c d] E]. unfold owp, create_msg, obind, base, oret. rewrite E. split; [done|].
  eexists. split; [done|]. simpl. by destruct m; simpl in E; simplify_eq.
Qed.

Lemma list_logged l st :
  Forall (fun m => forall i c, is_Some (CreateInstance i m c)) l ->
  owp (execute_list S (StartUp.FillTcMsgData S) HandleMsgRet l)
    (fun r st' => exists ev, logged st ev st' /\ list_run l ev r) st.
Proof.
  intros Hl. revert st. induction Hl as [|m l Hm _ IH]; intros st; cbn [execute_list].
  { apply owp_ret. exists []. split; [apply logged_refl|constructor]. }
  apply owp_bind. eapply owp_mono; [apply create_logged, Hm|]. intros ? ? (->&msg&->&Hop).
  apply owp_bind. eapply owp_mono; [apply fill_logged|]. cbn beta.
  intros [fr msg1] st1 [H1 Hop1]. cbn [fst snd] in *.
  destruct (fr !=? TC_OPER_SUCCESS).
  { exists (activation m). split; [by destruct H1; constructor|constructor]. }
  apply owp_bind. eapply owp_mono; [apply (execute_logged _ m); congruence|]. cbn beta.
  intros [r msg2] st2 (s&H2). cbn [fst snd] in *.
  pose proof (logged_trans _ _ _ _ _ H1 H2) as H12.
  destruct (r ==? TCOPER_RET_SUCCESS) eqn:Er; bool_norm; cbn [negb].
  2: { apply owp_bind. unfold owp at 1, delete_msg. cbn beta iota. apply owp_bind.
       destruct H12 as [L12 E12 P12].
       destruct (m ==? MSG_AUDITDB); unfold owp, set_audit_db_fail, set_base, oret;
         cbn beta iota; (eexists; split; [constructor; [exact L12|exact E12|exact P12]|by apply lr_failed]). }
  subst r. apply owp_bind.
  eapply (owp_mono _ (fun _ st' => logged st2 (completion m) st')).
  { unfold completion. split_match; bool_norm.
    - apply owp_bind. eapply owp_mono; [apply lock_logged; by eexists|]. done.
    - apply owp_ret, logged_refl. }
  intros [] st3 H3. apply owp_bind. unfold owp at 1, delete_msg. cbn beta iota.
  eapply owp_mono; [apply IH|]. cbn beta. intros r st4 (ev&H4&Hrun).
  pose proof (logged_trans _ _ _ _ _ H12 H3) as H13.
  eexists. split; [|by apply (lr_sent m l s ev r)].
  destruct H13 as [L E P], H4 as [L4 E4 P4]. cbn [st_log st_ext st_base] in *.
  constructor; [|congruence..]. rewrite L4, L. by rewrite <- !app_assoc.
Qed.

(** The list is collected. *)
Lemma create_list st :
  TcOperMessageList (st_base st) = [] ->
  owp StartUp.TcCreateMsgList (fun r st' => r = TC_OPER_SUCCESS /\ logged st [] st' /\
    TcOperMessageList (st_base st') = startup_list (st_ext st)) st.
Proof.
  intros Hl. unfold owp, StartUp.TcCreateMsgList, obind, base, ext, startup_list.
  rewrite Hl. cbn beta iota. destruct (negb _); [|destruct (_ && _)]; cbn; rewrite Hl;
    (split; [done|]); (split; [|done]); constructor; by rewrite ?app_nil_r.
Qed.

Lemma startup_list_known x :
  Forall (fun m => forall i c, is_Some (CreateInstance i m c)) (startup_list x).
Proof.
  unfold startup_list. apply Forall_app. split; [repeat split_match|]; repeat constructor;
    intros; by eexists.
Qed.

(** From the collection of the messages to the end. *)
Definition startup_end st (r : TcOperStatus) st' : Prop :=
  st_ext st' = st_ext st /\
  exists ev r1, list_run (startup_list (st_ext st)) ev r1 /\
    if r1 ==? TC_OPER_SUCCESS then
      exists rr, st_log st' = st_log st ++ ev ++ [EvRecovery UNC_DT_INVALID TC_OP_INVALID 0 rr] /\
        r = if rr ==? TCOPER_RET_SUCCESS then TC_OPER_SUCCESS else TC_SYSTEM_FAILURE
    else r = r1 /\ st_log st' = st_log st ++ ev.

Lemma run_phases_end st :
  TcOperMessageList (st_base st) = [] ->
  owp (run_phases (StartUp.vtable S)) (startup_end st) st.
Proof.
  intros Hl. apply owp_bind. unfold owp at 1, set_phase, set_base. cbn beta iota.
  apply owp_bind. unfold owp at 1. cbn [StartUp.vtable v_TcGetExclusion oret].
  rewrite bool_decide_eq_true_2 by done. cbn [negb].
  apply owp_bind. unfold owp at 1, set_phase, set_base. cbn beta iota. apply owp_bind.
  cbn [StartUp.vtable v_TcCreateMsgList]. eapply owp_mono; [by apply create_list|].
  cbn beta. cbn [st_base st_ext]. intros ? st2 (->&[L2 E2 P2]&Hl2).
  rewrite bool_decide_eq_true_2 by done. cbn [negb st_log st_ext st_base] in *.
  apply owp_bind. unfold owp at 1, set_phase, set_base. cbn beta iota. apply owp_bind.
  cbn [StartUp.vtable v_Execute]. unfold Execute. apply owp_bind. unfold owp at 1, base.
  cbn [TcOperMessageList st_base]. rewrite Hl2.
  destruct (startup_list (st_ext st)) as [|m l] eqn:Es.
  { exfalso. unfold startup_list in Es. by destruct (app_cons_not_nil _ [] MSG_SETUP_COMPLETE (eq_sym Es)). }
  rewrite <- Es. eapply owp_mono; [apply list_logged, startup_list_known|]. cbn beta.
  intros r1 st3 (ev&[L3 E3 P3]&Hrun). cbn [st_log st_ext st_base tc_oper_status_] in *.
  rewrite app_nil_r in L2. rewrite L2 in L3. rewrite E2 in E3.
  destruct (r1 ==? TC_OPER_SUCCESS) eqn:Er; cbn [negb].
  2: { apply owp_bind. unfold owp at 1, base. cbn beta iota. rewrite P3. apply owp_bind.
       unfold owp at 1. cbn [StartUp.vtable v_TcReleaseExclusion oret].
       rewrite bool_decide_eq_true_2 by done. cbn [StartUp.vtable v_SendResponse].
       unfold StartUp.SendResponse. rewrite Er. apply owp_ret. split; [done|].
       exists ev, r1. rewrite Er. auto. }
  apply owp_bind. unfold owp at 1, set_phase, set_base. cbn beta iota. apply owp_bind.
  unfold owp at 1. cbn [StartUp.vtable v_TcReleaseExclusion oret].
  rewrite bool_decide_eq_true_2 by done. cbn [negb StartUp.vtable v_SendResponse].
  unfold StartUp.SendResponse. rewrite bool_decide_eq_true_2 by done.
  unfold owp, obind, UpdateRecoveryTable_do, UpdateRecoveryTable_with, obind, interfere.
  cbn beta iota. destruct (db_UpdateRecoveryTable _ _ _ _) as [rr d]. cbn.
  destruct (rr ==? TCOPER_RET_SUCCESS) eqn:Err; cbn; (split; [done|]); exists ev, r1;
    rewrite Er; (split; [done|]); exists rr; rewrite Err, L3, <- app_assoc; done.
Qed.

(** What the start-up reads of the failed daemon's operation. *)
Definition recovery_read (x : StartUp.Ext) : Prop :=
  exists d d' inst,
    db_GetRecoveryTable (UNC_DT_INVALID, TC_OP_INVALID, 0) d =
      (TCOPER_RET_SUCCESS, (StartUp.database_type_ x, StartUp.fail_oper_ x, inst), d').

Lemma handle_args is_switch st :
  st_ext st = StartUp.ext_new is_switch ->
  owp (StartUp.HandleArgs S) (fun r st' =>
    st_log st' = st_log st /\ st_base st' = st_base st /\
    StartUp.is_switch_ (st_ext st') = is_switch /\
    (r = TC_OPER_SUCCESS /\ (is_switch = true -> recovery_read (st_ext st')) \/
     r = TC_OPER_FAILURE /\ is_switch = true)) st.
Proof.
  intros Hx. unfold StartUp.HandleArgs. apply owp_bind. unfold owp at 1, ext. rewrite Hx.
  destruct is_switch; cbn [StartUp.is_switch_ StartUp.ext_new negb].
  2: { apply owp_ret. rewrite Hx. split_and!; auto. left. by split. }
  unfold owp, obind, GetRecoveryTable_do, obind, interfere. cbn beta iota.
  rewrite Hx. cbn [st_shared st_log StartUp.database_type_ StartUp.fail_oper_ id StartUp.ext_new].
  set (d := sh_db (e_step (set_the_env S) (st_log st) (st_shared st))).
  destruct (db_GetRecoveryTable (UNC_DT_INVALID, TC_OP_INVALID, 0) d)
    as [[r [[db op] inst]] d'] eqn:Ed.
  cbn. destruct (r ==? TCOPER_RET_SUCCESS) eqn:Er; cbn; split_and!; auto.
  left. split; [done|]. intros _. bool_norm. subst r. by exists d, d', inst.
Qed.

End StartUpRun.

(** C37: the start-up of the daemon always returns.  It reads the record of
    the operation that the failed daemon was in, and audits it, before the end
    of set-up is announced; the daemon is made active just before that
    announcement and the end of set-up is noted just after it; the first
    message that fails ends the sequence; and the record is cleared only after
    all messages were answered, as the last step. *)
Theorem startup_sequence {D} `{TcDbI D} (S : Setting D) is_switch (st : OpSt D StartUp.Ext) :
  st_ext st = StartUp.ext_new is_switch -> TcOperMessageList (st_base st) = [] ->
  exists r st', StartUp.Dispatch S st = Some (r, st') /\
    StartUp.is_switch_ (st_ext st') = is_switch /\
    (r = TC_OPER_FAILURE /\ is_switch = true /\ st_log st' = st_log st \/
     (is_switch = true -> recovery_read (st_ext st')) /\
     exists ev r1, list_run (startup_list (st_ext st')) ev r1 /\
       if r1 ==? TC_OPER_SUCCESS then
         exists rr, st_log st' = st_log st ++ ev ++
                      [EvRecovery UNC_DT_INVALID TC_OP_INVALID 0 rr] /\
           r = if rr ==? TCOPER_RET_SUCCESS then TC_OPER_SUCCESS else TC_SYSTEM_FAILURE
       else r = r1 /\ st_log st' = st_log st ++ ev).
Proof.
  intros Hx Hl. apply total_owp; [apply StartUp_total|].
  apply owp_bind. unfold owp at 1, set_phase, set_base. cbn beta iota. apply owp_bind.
  cbn [StartUp.vtable v_HandleArgs]. eapply owp_mono; [by apply (handle_args _ is_switch)|].
  cbn beta. cbn [st_log st_base]. intros r st1 (L1&B1&Hsw&[(->&Hrow)|(->&Hsw')]).
  - rewrite bool_decide_eq_true_2 by done. cbn [negb].
    eapply owp_mono; [apply run_phases_end; by rewrite B1|]. cbn beta.
    intros r st' (E&Hend). rewrite L1 in Hend. rewrite E. split; [done|]. right. by split.
  - rewrite bool_decide_eq_false_2 by done. cbn [negb]. apply owp_bind.
    unfold owp at 1, base. cbn beta iota. rewrite B1.
    cbn [tc_oper_status_ StartUp.vtable v_SendResponse]. unfold StartUp.SendResponse.
    rewrite bool_decide_eq_false_2 by done. apply owp_ret. split; [done|]. left. by split_and!.
Qed.

(** The daemon that takes over after a commit was interrupted. *)
Definition taking_over : OpSt Scenario.D StartUp.Ext :=
  mkSt (base_new false) (StartUp.ext_new true)
    (mkShared (sys_lock (run_from_init anyone true [EvCall (OpUpdateState TC_SBY)])) statics_new
       (UpdateRecoveryTable Tables.odbc UNC_DT_RUNNING TC_OP_CANDIDATE_COMMIT 0 Scenario.db).2)
    None [] [].

Lemma startup_sequence_witness :
  exists r st', StartUp.Dispatch Scenario.setting taking_over = Some (r, st') /\
    exists ev r1, list_run (startup_list (st_ext st')) ev r1 /\
      startup_list (st_ext st') = [MSG_AUDITDB; MSG_SETUP_COMPLETE].
Proof.
  destruct (startup_sequence Scenario.setting true taking_over) as (r&st'&E&_&Hor);
    [reflexivity..|].
  assert ((fun p => (p.1, startup_list (st_ext p.2))) <$>
    StartUp.Dispatch Scenario.setting taking_over =
    Some (TC_OPER_SUCCESS, [MSG_AUDITDB; MSG_SETUP_COMPLETE])) as E'
    by (vm_compute; reflexivity).
  rewrite E in E'. simpl in E'. injection E' as -> El.
  destruct Hor as [(Hf&_)|(_&ev&r1&Hrun&_)]; [discriminate Hf|].
  exists TC_OPER_SUCCESS, st'. split; [exact E|]. exists ev, r1. auto.
Defined.
