(* ===== verification/TcLibTypes.v ===== *)
(** * The participants' library: data and messages

    [modules/tclib] is linked into UPLL, UPPL and the drivers and receives
    what the transaction coordinator sends.  This file has the enumerations
    and structures of [include/uncxx/tclib/tclib_defs.hh] and
    [tclib/include/tclib_struct_defs.hh], and [TcLibMsgUtil]
    ([tclib_msg_util.cc]), which reads the requests. *)

From S2P Require Import Prelude TcTypes TcIpc TcServer.

Local Open Scope Z_scope.

(** ** Enumerations *)

(** A message type is read as a [uint8_t] and cast; the code treats all
    numbers above the last type alike, here [MSG_MAX]. *)
Definition TcMsgOperTypes : list TcMsgOperType :=
  [MSG_NONE; MSG_NOTIFY_CONFIGID; MSG_SETUP; MSG_SETUP_COMPLETE; MSG_COMMIT_TRANS_START;
   MSG_COMMIT_VOTE; MSG_COMMIT_DRIVER_VOTE; MSG_COMMIT_VOTE_DRIVER_RESULT;
   MSG_COMMIT_GLOBAL; MSG_COMMIT_DRIVER_GLOBAL; MSG_COMMIT_GLOBAL_DRIVER_RESULT;
   MSG_COMMIT_TRANS_END; MSG_AUDIT_START; MSG_AUDIT_TRANS_START; MSG_AUDIT_VOTE;
   MSG_AUDIT_DRIVER_VOTE; MSG_AUDIT_VOTE_DRIVER_RESULT; MSG_AUDIT_GLOBAL;
   MSG_AUDIT_DRIVER_GLOBAL; MSG_AUDIT_GLOBAL_DRIVER_RESULT; MSG_AUDIT_TRANS_END;
   MSG_AUDIT_END; MSG_SAVE_CONFIG; MSG_CLEAR_CONFIG; MSG_ABORT_CANDIDATE; MSG_AUDITDB;
   MSG_COMMIT_ABORT; MSG_AUDIT_ABORT; MSG_GET_DRIVERID; MSG_CONTROLLER_TYPE;
   MSG_AUTOSAVE_ENABLE; MSG_AUTOSAVE_DISABLE].

Definition TcMsgOperType_of (n : Z) : TcMsgOperType :=
  default MSG_MAX (TcMsgOperTypes !! Z.to_nat n).

Inductive TcApiCommonRet :=
| TC_API_COMMON_SUCCESS
| TC_API_COMMON_FAILURE
| TC_INVALID_PARAM
| TC_HANDLER_ALREADY_ACTIVE
| TC_INVALID_SESSION_ID
| TC_INVALID_CONFIG_ID
| TC_INVALID_CONTROLLER_ID
| TC_INVALID_OPER_STATE
| TC_INVALID_KEY_TYPE
| TC_INVALID_KEY_DATA
| TC_INVALID_VALUE_DATA
| TC_INVALID_KEY_STDEF
| TC_INVALID_VALUE_STDEF
| TC_API_FATAL.

#[export] Instance TcApiCommonRet_eq_dec : EqDecision TcApiCommonRet.
Proof. solve_decision. Defined.

(** Phases, end results and controller types are kept as the integers read. *)
Definition TC_AUDIT_GLOBAL_COMMIT_PHASE : Z := 3.

Definition DRV_RESULT_START_POS : Z := 3.
Definition TC_DEFAULT_VALUE : Z := 0.

(** ** Structures *)

Record TcControllerResult := mkResult {
  cr_controller_id : string;
  cr_resp_code : Z;
  cr_num_of_errors : Z;
  cr_key_list : list Z;
  cr_commit_number : Z;
  cr_commit_date : Z;
  cr_commit_application : string
}.

(** [std::map<unc_keytype_ctrtype_t, std::vector<std::string>>], as the list
    of its entries in the order of iteration. *)
Definition TcDriverInfoMap : Type := list (Z * list string).

Record TcCommitTransactionMsg := mkCommitTransactionMsg {
  ct_oper_type : TcMsgOperType;
  ct_session_id : Z;
  ct_config_id : Z;
  ct_end_result : Z                 (* read for the end of a transaction only *)
}.

Record TcCommitDrvVoteGlobalMsg := mkCommitDrvVoteGlobalMsg {
  cv_oper_type : TcMsgOperType;
  cv_session_id : Z;
  cv_config_id : Z;
  cv_cntrl_count : Z;
  cv_cntrl_list : list string
}.

(** Driver results and aborts of a commit have the same layout. *)
Record TcCommitPhaseMsg := mkCommitPhaseMsg {
  cp_oper_type : TcMsgOperType;
  cp_session_id : Z;
  cp_config_id : Z;
  cp_phase : Z
}.

Record TcAuditTransactionMsg := mkAuditTransactionMsg {
  at_oper_type : TcMsgOperType;
  at_session_id : Z;
  at_driver_id : Z;
  at_controller_id : string;
  at_reconnect_controller : Z;      (* these five for the start of an audit *)
  at_simplified_audit : Z;
  at_commit_number : Z;
  at_commit_date : Z;
  at_commit_application : string;
  at_audit_result : Z;              (* for the end of an audit *)
  at_end_result : Z                 (* for the end of a transaction *)
}.

Record TcAuditDrvVoteGlobalMsg := mkAuditDrvVoteGlobalMsg {
  av_oper_type : TcMsgOperType;
  av_session_id : Z;
  av_controller_id : string;
  av_cntrl_count : Z;
  av_cntrl_list : list string
}.

Record TcAuditDrvResultMsg := mkAuditDrvResultMsg {
  ar_oper_type : TcMsgOperType;
  ar_session_id : Z;
  ar_controller_id : string;
  ar_phase : Z
}.

Record TcAuditGlobalAbortMsg := mkAuditGlobalAbortMsg {
  aa_oper_type : TcMsgOperType;
  aa_session_id : Z;
  aa_driver_id : Z;
  aa_controller_id : string;
  aa_phase : Z
}.

Record TcAuditConfigMsg := mkAuditConfigMsg {
  ac_db_type : Z;
  ac_service_type : TcServiceType
}.

(** ** Reading requests

    Every read that fails makes the caller return [TC_FAILURE] and drop the
    structure: [None]. *)

Definition read_ok {A} (r : TcUtilRet * option A) : option A :=
  if r.1 ==? TCUTIL_RET_SUCCESS then r.2 else None.

Section MsgUtil.

Context (session : option ServerSession).

Definition read_u8 (idx : Z) : option Z := read_ok (srv_get_uint8 session idx).
Definition read_u32 (idx : Z) : option Z := read_ok (srv_get_uint32 session idx).
Definition read_u64 (idx : Z) : option Z := read_ok (srv_get_uint64 session idx).
Definition read_str (idx : Z) : option string := read_ok (srv_get_string session idx).

(** A session without arguments is refused before anything is read. *)
Definition nonempty {A} (m : option A) : option A :=
  match session with
  | None => None
  | Some s => if getArgCount s ==? 0 then None else m
  end.

(** The controller identifiers at the [n] indices after [idx]. *)
Fixpoint read_strs (n : nat) (idx : Z) : option (list string) :=
  match n with
  | 0%nat => Some []
  | S n' =>
      c ← read_str (idx + 1);
      l ← read_strs n' (idx + 1);
      Some (c :: l)
  end.

Definition GetCommitTransactionMsg : option TcCommitTransactionMsg := nonempty (
  oper ← read_u8 0;
  sid ← read_u32 1;
  cid ← read_u32 2;
  let oper_type := TcMsgOperType_of oper in
  res ← (if oper_type ==? MSG_COMMIT_TRANS_END then read_u8 3 else Some 0);
  Some (mkCommitTransactionMsg oper_type sid cid res)).

Definition GetCommitDrvVoteGlobalMsg : option TcCommitDrvVoteGlobalMsg := nonempty (
  oper ← read_u8 0;
  sid ← read_u32 1;
  cid ← read_u32 2;
  count ← read_u8 3;
  l ← read_strs (Z.to_nat count) 3;
  Some (mkCommitDrvVoteGlobalMsg (TcMsgOperType_of oper) sid cid count l)).

Definition GetCommitPhaseMsg : option TcCommitPhaseMsg := nonempty (
  oper ← read_u8 0;
  sid ← read_u32 1;
  cid ← read_u32 2;
  phase ← read_u8 3;
  Some (mkCommitPhaseMsg (TcMsgOperType_of oper) sid cid phase)).
Definition GetCommitDrvResultMsg : option TcCommitPhaseMsg := GetCommitPhaseMsg.
Definition GetCommitGlobalAbortMsg : option TcCommitPhaseMsg := GetCommitPhaseMsg.

Definition GetAuditTransactionMsg : option TcAuditTransactionMsg := nonempty (
  oper ← read_u8 0;
  sid ← read_u32 1;
  driver ← read_u8 2;
  controller ← read_str 3;
  match TcMsgOperType_of oper with
  | MSG_AUDIT_START =>
      reconnect ← read_u8 4;
      simplified ← read_u8 5;
      number ← read_u64 6;
      date ← read_u64 7;
      application ← read_str 8;
      Some (mkAuditTransactionMsg MSG_AUDIT_START sid driver controller reconnect simplified
              number date application 0 0)
  | MSG_AUDIT_END =>
      res ← read_u8 4;
      Some (mkAuditTransactionMsg MSG_AUDIT_END sid driver controller 0 0 0 0 EmptyString res 0)
  | MSG_AUDIT_TRANS_END =>
      res ← read_u8 4;
      Some (mkAuditTransactionMsg MSG_AUDIT_TRANS_END sid driver controller 0 0 0 0
              EmptyString 0 res)
  | oper_type =>
      Some (mkAuditTransactionMsg oper_type sid driver controller 0 0 0 0 EmptyString 0 0)
  end).

Definition GetAuditDrvVoteGlobalMsg : option TcAuditDrvVoteGlobalMsg := nonempty (
  oper ← read_u8 0;
  sid ← read_u32 1;
  controller ← read_str 2;
  count ← read_u8 3;
  l ← read_strs (Z.to_nat count) 3;
  Some (mkAuditDrvVoteGlobalMsg (TcMsgOperType_of oper) sid controller count l)).

Definition GetAuditDrvResultMsg : option TcAuditDrvResultMsg := nonempty (
  oper ← read_u8 0;
  sid ← read_u32 1;
  controller ← read_str 2;
  phase ← read_u8 3;
  Some (mkAuditDrvResultMsg (TcMsgOperType_of oper) sid controller phase)).

Definition GetAuditGlobalAbortMsg : option TcAuditGlobalAbortMsg := nonempty (
  oper ← read_u8 0;
  sid ← read_u32 1;
  driver ← read_u8 2;
  controller ← read_str 3;
  phase ← read_u8 4;
  Some (mkAuditGlobalAbortMsg (TcMsgOperType_of oper) sid driver controller phase)).

Definition GetAuditConfigMsg : option TcAuditConfigMsg := nonempty (
  db ← read_u8 0;
  service ← read_u8 1;
  Some (mkAuditConfigMsg db service)).

End MsgUtil.

(** ** Searching the arguments by type *)

Inductive IpcType := IPC_UINT8 | IPC_UINT32 | IPC_UINT64 | IPC_INT32 | IPC_STRING | IPC_STRUCT.

#[export] Instance IpcType_eq_dec : EqDecision IpcType.
Proof. solve_decision. Defined.

Definition type_of (v : IpcValue) : IpcType :=
  match v with
  | VU8 _ => IPC_UINT8 | VU32 _ => IPC_UINT32 | VU64 _ => IPC_UINT64
  | VI32 _ => IPC_INT32 | VStr _ => IPC_STRING | VStruct _ _ => IPC_STRUCT
  end.

(** The index of the first argument of type [t] in [l], which starts at
    index [i]; 0 if there is none. *)
Fixpoint find_type (t : IpcType) (l : list IpcValue) (i : Z) : Z :=
  match l with
  | [] => 0
  | v :: l' => if type_of v ==? t then i else find_type t l' (i + 1)
  end.

(** The first index after [cur_idx] of an argument of type [t]; an index
    beyond the arguments is returned as it is. *)
Definition GetMatchTypeIndex (args : list IpcValue) (cur_idx : Z) (t : IpcType) : Z :=
  if bool_decide (cur_idx < Z.of_nat (length args))
  then find_type t (drop (Z.to_nat (cur_idx + 1)) args) (cur_idx + 1)
  else cur_idx.
