(* ===== verification/TcLib.v ===== *)
(** * The participants' library

    [TcLibModule] of [modules/tclib/tclib_module.cc]: it reads a request of
    the transaction coordinator, checks that the request fits the phase of the
    transaction, calls the daemon's handler ([TcLibInterface]) and writes the
    answer.  UPLL, UPPL and the drivers implement the handler; here it is a
    type class, whose state [H] is any type.

    A handler may call the library back while it runs (to write or read the
    results of controllers); it is a program of such calls, [Prog].

    Requests are served one at a time, as [tclib_ipc_control_mutex_] does.  The
    member [sess_] points to the session of the request; after the request it
    is reset to NULL, or it dangles.  Using it then is an undefined behaviour,
    [None]. *)

From S2P Require Import Prelude TcTypes TcIpc TcServer TcLibTypes.

Local Open Scope Z_scope.

(** ** The handler's side *)

(** What a handler may ask of the library. *)
Inductive ApiCall :=
| TcLibWriteControllerInfo (controller_id : string) (response_code num_of_errors : Z)
| TcLibWriteControllerCommitInfo (controller_id : string) (response_code num_of_errors : Z)
    (commit_number commit_date : Z) (commit_application : string)
| TcLibWriteKeyValueDataInfo (controller_id : string) (key_type : Z) (key_def value_def : string)
    (key_data : string) (value_data : option string)
| TcLibReadKeyValueDataInfo (controller_id : string) (err_pos key_type : Z)
    (key_def value_def : string) (with_value : bool)
| TcLibValidateUpdateMsg (sessionid configid : Z)
| GetSessionAttributes
| IsStartupConfigValid.

Inductive ApiAnswer :=
| ARet (r : TcApiCommonRet)
| AData (key_data : string) (value_data : option string)
| AIds (session_id config_id : Z)
| ABool (b : bool).

Inductive Prog (A : Type) :=
| PRet (a : A)
| PCall (c : ApiCall) (k : ApiAnswer -> Prog A).
Arguments PRet {A} _.
Arguments PCall {A} _ _.

(** The virtual functions, with their arguments. *)
Inductive HandlerCall :=
| HandleCommitTransactionStart (session_id config_id : Z)
| HandleCommitTransactionEnd (session_id config_id end_result : Z)
| HandleCommitVoteRequest (session_id config_id : Z)
| HandleCommitVoteRequest_drv (session_id config_id : Z) (controllers : list string)
| HandleCommitGlobalCommit (session_id config_id : Z)
| HandleCommitGlobalCommit_drv (session_id config_id : Z) (controllers : list string)
| HandleCommitDriverResult (session_id config_id phase : Z) (driver_result : list TcControllerResult)
| HandleCommitGlobalAbort (session_id config_id fail_phase : Z)
| HandleAuditStart (session_id ctr_type : Z) (controller_id : string) (simplified_audit : Z)
    (commit_number commit_date : Z) (commit_application : string)
| HandleAuditStart_drv (session_id ctr_type : Z) (controller_id : string) (force_reconnect : Z)
| HandleAuditEnd (session_id ctr_type : Z) (controller_id : string) (audit_result : Z)
| HandleAuditTransactionStart (session_id ctr_type : Z) (controller_id : string)
| HandleAuditTransactionEnd (session_id ctr_type : Z) (controller_id : string) (end_result : Z)
| HandleAuditVoteRequest (session_id ctr_type : Z) (controller_id : string)
| HandleAuditVoteRequest_drv (session_id : Z) (controller_id : string) (controllers : list string)
| HandleAuditGlobalCommit (session_id ctr_type : Z) (controller_id : string)
| HandleAuditGlobalCommit_drv (session_id : Z) (controller_id : string) (controllers : list string)
| HandleAuditDriverResult (session_id : Z) (controller_id : string) (phase : Z)
    (driver_result : list TcControllerResult)
| HandleAuditGlobalAbort (session_id ctr_type : Z) (controller_id : string) (fail_phase : Z)
| HandleSaveConfiguration (session_id : Z)
| HandleAbortCandidate (session_id config_id : Z)
| HandleClearStartup (session_id : Z)
| HandleAuditConfig (db_target : Z) (fail_oper : TcServiceType)
| HandleSetup
| HandleSetupComplete
| HandleGetControllerType (controller_id : string).

(** The result ([TcCommonRet], or the controller type of
    [HandleGetControllerType]) and the output arguments. *)
Record HandlerResult := mkHRes {
  hr_ret : Z;
  hr_driver_info : TcDriverInfoMap;
  hr_audit_result : option Z        (* None: not assigned *)
}.

(** All results of a program. *)
Fixpoint returns {A} (P : A -> Prop) (p : Prog A) : Prop :=
  match p with
  | PRet a => P a
  | PCall _ k => forall x, returns P (k x)
  end.

(** [HandleGetControllerType()] returns a constant: UNKNOWN for UPLL and UPPL,
    the type of its controllers for a driver. *)
Class TcLibInterface (H : Type) := {
  Handle : HandlerCall -> H -> Prog (HandlerResult * H);
  controller_type : H -> Z;
  controller_type_const c h :
    returns (fun p => controller_type p.2 = controller_type h) (Handle c h)
}.

(** ** State *)

Inductive SessPtr := SNull | SCurrent | SDangling.

#[export] Instance SessPtr_eq_dec : EqDecision SessPtr.
Proof. solve_decision. Defined.

Record TcLibModule (H : Type) := mkLib {
  pTcLibInterface_ : option H;
  sess_ : SessPtr;
  l_session_id : Z;                               (* session_id_ *)
  l_config_id : Z;                                (* config_id_ *)
  controllerid_ : string;
  audit_in_progress_ : bool;
  oper_state_ : TcMsgOperType;
  key_map_ : gmap Z Z;
  controller_key_map_ : gmap string (gmap Z Z);
  commit_phase_result_ : list TcControllerResult;
  auto_save_enabled_ : Z;                         (* pfc_bool_t is a byte *)
  request_counter_ : Z
}.
Arguments mkLib {H} _ _ _ _ _ _ _ _ _ _ _ _.
Arguments pTcLibInterface_ {H} _.
Arguments sess_ {H} _.
Arguments l_session_id {H} _.
Arguments l_config_id {H} _.
Arguments controllerid_ {H} _.
Arguments audit_in_progress_ {H} _.
Arguments oper_state_ {H} _.
Arguments key_map_ {H} _.
Arguments controller_key_map_ {H} _.
Arguments commit_phase_result_ {H} _.
Arguments auto_save_enabled_ {H} _.
Arguments request_counter_ {H} _.

(** The members that change together. *)
Section Setters.

Context {H : Type} (m : TcLibModule H).

Definition set_handler (h : option H) : TcLibModule H :=
  mkLib h (sess_ m) (l_session_id m) (l_config_id m) (controllerid_ m) (audit_in_progress_ m)
    (oper_state_ m) (key_map_ m) (controller_key_map_ m) (commit_phase_result_ m)
    (auto_save_enabled_ m) (request_counter_ m).
Definition set_sess (p : SessPtr) : TcLibModule H :=
  mkLib (pTcLibInterface_ m) p (l_session_id m) (l_config_id m) (controllerid_ m)
    (audit_in_progress_ m) (oper_state_ m) (key_map_ m) (controller_key_map_ m)
    (commit_phase_result_ m) (auto_save_enabled_ m) (request_counter_ m).
Definition set_session_id (sid : Z) : TcLibModule H :=
  mkLib (pTcLibInterface_ m) (sess_ m) sid (l_config_id m) (controllerid_ m)
    (audit_in_progress_ m) (oper_state_ m) (key_map_ m) (controller_key_map_ m)
    (commit_phase_result_ m) (auto_save_enabled_ m) (request_counter_ m).
Definition set_config_id (cid : Z) : TcLibModule H :=
  mkLib (pTcLibInterface_ m) (sess_ m) (l_session_id m) cid (controllerid_ m)
    (audit_in_progress_ m) (oper_state_ m) (key_map_ m) (controller_key_map_ m)
    (commit_phase_result_ m) (auto_save_enabled_ m) (request_counter_ m).
Definition set_controllerid (c : string) : TcLibModule H :=
  mkLib (pTcLibInterface_ m) (sess_ m) (l_session_id m) (l_config_id m) c
    (audit_in_progress_ m) (oper_state_ m) (key_map_ m) (controller_key_map_ m)
    (commit_phase_result_ m) (auto_save_enabled_ m) (request_counter_ m).
Definition set_audit_in_progress (b : bool) : TcLibModule H :=
  mkLib (pTcLibInterface_ m) (sess_ m) (l_session_id m) (l_config_id m) (controllerid_ m) b
    (oper_state_ m) (key_map_ m) (controller_key_map_ m) (commit_phase_result_ m)
    (auto_save_enabled_ m) (request_counter_ m).
Definition set_oper_state (o : TcMsgOperType) : TcLibModule H :=
  mkLib (pTcLibInterface_ m) (sess_ m) (l_session_id m) (l_config_id m) (controllerid_ m)
    (audit_in_progress_ m) o (key_map_ m) (controller_key_map_ m) (commit_phase_result_ m)
    (auto_save_enabled_ m) (request_counter_ m).
Definition set_results (km : gmap Z Z) (ckm : gmap string (gmap Z Z))
    (res : list TcControllerResult) : TcLibModule H :=
  mkLib (pTcLibInterface_ m) (sess_ m) (l_session_id m) (l_config_id m) (controllerid_ m)
    (audit_in_progress_ m) (oper_state_ m) km ckm res (auto_save_enabled_ m)
    (request_counter_ m).
Definition set_auto_save (b : Z) : TcLibModule H :=
  mkLib (pTcLibInterface_ m) (sess_ m) (l_session_id m) (l_config_id m) (controllerid_ m)
    (audit_in_progress_ m) (oper_state_ m) (key_map_ m) (controller_key_map_ m)
    (commit_phase_result_ m) b (request_counter_ m).
Definition set_request_counter (n : Z) : TcLibModule H :=
  mkLib (pTcLibInterface_ m) (sess_ m) (l_session_id m) (l_config_id m) (controllerid_ m)
    (audit_in_progress_ m) (oper_state_ m) (key_map_ m) (controller_key_map_ m)
    (commit_phase_result_ m) (auto_save_enabled_ m) n.

End Setters.

Definition lib_new {H} : TcLibModule H :=
  mkLib None SNull TC_DEFAULT_VALUE TC_DEFAULT_VALUE EmptyString false MSG_NONE ∅ ∅ [] 0 0.

(** Neither [controllerid_], [auto_save_enabled_] nor [request_counter_] are
    reset. *)
Definition fini {H} (m : TcLibModule H) : TcLibModule H :=
  mkLib None SNull TC_DEFAULT_VALUE TC_DEFAULT_VALUE (controllerid_ m) false MSG_NONE ∅ ∅ []
    (auto_save_enabled_ m) (request_counter_ m).

Definition TcLibRegisterHandler {H} (handler : option H) (m : TcLibModule H)
    : TcApiCommonRet * TcLibModule H :=
  match handler with
  | None => (TC_INVALID_PARAM, m)
  | Some h =>
      match pTcLibInterface_ m with
      | None => (TC_API_COMMON_SUCCESS, set_handler m (Some h))
      | Some _ => (TC_HANDLER_ALREADY_ACTIVE, m)
      end
  end.

(** The module, the session of the request it serves, and the calls of the
    handler so far. *)
Record LibSt (H : Type) := mkLibSt {
  ls_mod : TcLibModule H;
  ls_cur : ServerSession;
  ls_calls : list (HandlerCall * HandlerResult)
}.
Arguments mkLibSt {H} _ _ _.
Arguments ls_mod {H} _.
Arguments ls_cur {H} _.
Arguments ls_calls {H} _.

Definition L (H A : Type) : Type := LibSt H -> option (A * LibSt H).

#[export] Instance L_ret {H} : MRet (L H) := fun A a st => Some (a, st).
#[export] Instance L_bind {H} : MBind (L H) := fun A B f m st =>
  match m st with Some (a, st1) => f a st1 | None => None end.

Section Lib.

Context {H : Type} `{TcLibInterface H} (ipc : SrvIpc).

Definition member {A} (f : TcLibModule H -> A) : L H A := fun st => Some (f (ls_mod st), st).
Definition update (f : TcLibModule H -> TcLibModule H) : L H unit := fun st =>
  Some (tt, mkLibSt (f (ls_mod st)) (ls_cur st) (ls_calls st)).

(** The session [sess_] points to. *)
Definition session : L H (option ServerSession) := fun st =>
  match sess_ (ls_mod st) with
  | SNull => Some (None, st)
  | SCurrent => Some (Some (ls_cur st), st)
  | SDangling => None
  end.

Definition set_cur (s : option ServerSession) : L H unit := fun st =>
  Some (tt, mkLibSt (ls_mod st) (default (ls_cur st) s) (ls_calls st)).

(** Append to the response of [sess_]; true if that succeeded. *)
Definition write (v : IpcValue) : L H bool :=
  s ← session;
  let p := srv_add ipc v s in
  set_cur p.2;; mret (p.1 ==? TCUTIL_RET_SUCCESS).

(** Write in turn, until one fails. *)
Fixpoint write_all (l : list IpcValue) : L H bool :=
  match l with
  | [] => mret true
  | v :: l' => ok ← write v; if ok : bool then write_all l' else mret false
  end.

(** ** Results of controllers *)

Definition GetKeyIndex (controller_id : string) (err_pos : Z) : L H (TcApiCommonRet + Z) :=
  ckm ← member controller_key_map_;
  mret (if ckm ==? ∅ then inl TC_INVALID_CONTROLLER_ID
        else match ckm !! controller_id with
             | None => inl TC_INVALID_PARAM
             | Some key_type_map =>
                 if key_type_map ==? ∅ then inl TC_INVALID_KEY_TYPE
                 else match key_type_map !! err_pos with
                      | Some key_index => inr key_index
                      | None => inl TC_INVALID_PARAM
                      end
             end).

(** ** The interface for handlers *)

Definition write_info (controller_id : string) (vs : list IpcValue) : L H ApiAnswer :=
  oper ← member oper_state_;
  if oper ==? MSG_NONE then mret (ARet TC_INVALID_OPER_STATE)
  else
    ok ← write_all vs;
    if ok : bool then update (fun m => set_controllerid m controller_id);; mret (ARet TC_API_COMMON_SUCCESS)
    else mret (ARet TC_API_COMMON_FAILURE).

Definition controller_info (c : string) (resp errors : Z) : list IpcValue :=
  [VStr c; VU32 resp; VU32 errors].
Definition commit_info (number date : Z) (app : string) : list IpcValue :=
  [VU64 number; VU64 date; VStr app].

Definition key_value_data (key_type : Z) (key_def value_def key_data : string)
    (value_data : option string) : list IpcValue :=
  [VU32 key_type; VStruct key_def key_data] ++
  match value_data with Some v => [VStruct value_def v] | None => [] end.

Definition write_key_value (controller_id : string) (vs : list IpcValue) : L H ApiAnswer :=
  oper ← member oper_state_;
  if oper ==? MSG_NONE then mret (ARet TC_INVALID_OPER_STATE)
  else
    c ← member controllerid_;
    if c !=? controller_id then mret (ARet TC_INVALID_CONTROLLER_ID)
    else
      ok ← write_all vs;
      mret (ARet (if ok : bool then TC_API_COMMON_SUCCESS else TC_API_COMMON_FAILURE)).

Definition IsReadKeyValueAllowed (oper_state : TcMsgOperType) : bool :=
  match oper_state with
  | MSG_COMMIT_VOTE_DRIVER_RESULT | MSG_COMMIT_GLOBAL_DRIVER_RESULT
  | MSG_AUDIT_VOTE_DRIVER_RESULT | MSG_AUDIT_GLOBAL_DRIVER_RESULT => true
  | _ => false
  end.

Definition read_key_value (controller_id : string) (err_pos key_type : Z)
    (key_def value_def : string) (with_value : bool) : L H ApiAnswer :=
  oper ← member oper_state_;
  if negb (IsReadKeyValueAllowed oper) then mret (ARet TC_INVALID_OPER_STATE)
  else
    k ← GetKeyIndex controller_id err_pos;
    match k with
    | inl r => mret (ARet r)
    | inr idx =>
        s ← session;
        match read_ok (srv_get_uint32 s idx) with
        | None => mret (ARet TC_API_COMMON_FAILURE)
        | Some local_key_type =>
            if key_type !=? local_key_type then mret (ARet TC_INVALID_KEY_TYPE)
            else match read_ok (srv_get_struct key_def s (idx + 1)) with
                 | None => mret (ARet TC_API_COMMON_FAILURE)
                 | Some key =>
                     if with_value then
                       match read_ok (srv_get_struct value_def s (idx + 2)) with
                       | None => mret (ARet TC_API_COMMON_FAILURE)
                       | Some v => mret (AData key (Some v))
                       end
                     else mret (AData key None)
                 end
        end
    end.

Definition validate_update (sessionid configid : Z) (m : TcLibModule H) : TcApiCommonRet :=
  if (sessionid ==? TC_DEFAULT_VALUE) || (l_session_id m !=? sessionid) then TC_INVALID_SESSION_ID
  else if (l_config_id m ==? TC_DEFAULT_VALUE) || (configid ==? TC_DEFAULT_VALUE) ||
          (l_config_id m !=? configid) then TC_INVALID_CONFIG_ID
  else TC_API_COMMON_SUCCESS.

Definition api (c : ApiCall) : L H ApiAnswer :=
  match c with
  | TcLibWriteControllerInfo c resp errors => write_info c (controller_info c resp errors)
  | TcLibWriteControllerCommitInfo c resp errors number date app =>
      write_info c (controller_info c resp errors ++ commit_info number date app)
  | TcLibWriteKeyValueDataInfo c kt kd vd key value =>
      write_key_value c (key_value_data kt kd vd key value)
  | TcLibReadKeyValueDataInfo c pos kt kd vd b => read_key_value c pos kt kd vd b
  | TcLibValidateUpdateMsg sid cid => r ← member (validate_update sid cid); mret (ARet r)
  | GetSessionAttributes =>
      sid ← member l_session_id; cid ← member l_config_id; mret (AIds sid cid)
  | IsStartupConfigValid => b ← member auto_save_enabled_; mret (ABool (b ==? 0))
  end.

Fixpoint run_prog {A} (p : Prog A) : L H A :=
  match p with
  | PRet a => mret a
  | PCall c k => r ← api c; run_prog (k r)
  end.

(** Call of a virtual function.  The callers have tested the pointer. *)
Definition handle (c : HandlerCall) : L H HandlerResult := fun st =>
  match pTcLibInterface_ (ls_mod st) with
  | None => None
  | Some h =>
      match run_prog (Handle c h) st with
      | None => None
      | Some ((r, h'), st1) =>
          Some (r, mkLibSt (set_handler (ls_mod st1) (Some h')) (ls_cur st1)
                     (ls_calls st1 ++ [(c, r)]))
      end
  end.

Definition handle_ret (c : HandlerCall) : L H Z := r ← handle c; mret (hr_ret r).

(** [if (pTcLibInterface_ == NULL) return TC_FAILURE;] *)
Definition registered (m : L H Z) : L H Z :=
  p ← member pTcLibInterface_; match p with None => mret TC_FAILURE | Some _ => m end.

(** [ret = Get...Msg(sess_, msg); if (ret != TC_SUCCESS) return ret;] *)
Definition with_msg {M} (get : option ServerSession -> option M) (k : M -> L H Z) : L H Z :=
  s ← session;
  match get s with None => mret TC_FAILURE | Some m => k m end.

End Lib.
