(* ===== verification/TcLibServices.v ===== *)
(** * Services of the participants' library

    The sequence of messages a participant accepts, the results of the
    drivers, and the services of [modules/tclib/tclib_module.cc]. *)

From S2P Require Import Prelude TcTypes TcIpc TcServer TcLibTypes TcLib.

Local Open Scope Z_scope.

(** ** The sequence of messages

    Each function answers whether the message may follow the last one. *)

Definition ValidateUpllUpplCommitSequence (oper_state oper_type : TcMsgOperType) : bool :=
  match oper_type with
  | MSG_COMMIT_TRANS_START => oper_state ==? MSG_NONE
  | MSG_COMMIT_VOTE => oper_state ==? MSG_COMMIT_TRANS_START
  | MSG_COMMIT_VOTE_DRIVER_RESULT => oper_state ==? MSG_COMMIT_VOTE
  | MSG_COMMIT_GLOBAL =>
      (oper_state ==? MSG_COMMIT_VOTE_DRIVER_RESULT) || (oper_state ==? MSG_COMMIT_VOTE)
  | MSG_COMMIT_GLOBAL_DRIVER_RESULT => oper_state ==? MSG_COMMIT_GLOBAL
  | MSG_COMMIT_TRANS_END =>
      (oper_state ==? MSG_COMMIT_GLOBAL_DRIVER_RESULT) ||
      (oper_state ==? MSG_COMMIT_TRANS_START) || (oper_state ==? MSG_COMMIT_VOTE) ||
      (oper_state ==? MSG_COMMIT_GLOBAL) || (oper_state ==? MSG_COMMIT_ABORT)
  | MSG_COMMIT_ABORT =>
      (oper_state ==? MSG_COMMIT_VOTE) || (oper_state ==? MSG_COMMIT_VOTE_DRIVER_RESULT)
  | _ => false
  end.

Definition ValidateDriverCommitSequence (oper_state oper_type : TcMsgOperType) : bool :=
  match oper_type with
  | MSG_COMMIT_TRANS_START => oper_state ==? MSG_NONE
  | MSG_COMMIT_DRIVER_VOTE => oper_state ==? MSG_COMMIT_TRANS_START
  | MSG_COMMIT_DRIVER_GLOBAL => oper_state ==? MSG_COMMIT_DRIVER_VOTE
  | MSG_COMMIT_TRANS_END =>
      (oper_state ==? MSG_COMMIT_DRIVER_GLOBAL) || (oper_state ==? MSG_COMMIT_DRIVER_VOTE) ||
      (oper_state ==? MSG_COMMIT_TRANS_START) || (oper_state ==? MSG_COMMIT_ABORT)
  | MSG_COMMIT_ABORT => oper_state ==? MSG_COMMIT_DRIVER_VOTE
  | _ => false
  end.

Definition ValidateUpllUpplAuditSequence (oper_state oper_type : TcMsgOperType) : bool :=
  match oper_type with
  | MSG_AUDIT_START => oper_state ==? MSG_NONE
  | MSG_AUDIT_TRANS_START => oper_state ==? MSG_AUDIT_START
  | MSG_AUDIT_VOTE => oper_state ==? MSG_AUDIT_TRANS_START
  | MSG_AUDIT_VOTE_DRIVER_RESULT => oper_state ==? MSG_AUDIT_VOTE
  | MSG_AUDIT_GLOBAL => oper_state ==? MSG_AUDIT_VOTE_DRIVER_RESULT
  | MSG_AUDIT_GLOBAL_DRIVER_RESULT => oper_state ==? MSG_AUDIT_GLOBAL
  | MSG_AUDIT_TRANS_END =>
      (oper_state ==? MSG_AUDIT_GLOBAL_DRIVER_RESULT) ||
      (oper_state ==? MSG_AUDIT_TRANS_START) || (oper_state ==? MSG_AUDIT_VOTE) ||
      (oper_state ==? MSG_AUDIT_ABORT)
  | MSG_AUDIT_END =>
      (oper_state ==? MSG_AUDIT_TRANS_END) || (oper_state ==? MSG_AUDIT_START) ||
      (oper_state ==? MSG_AUDIT_TRANS_START)
  | MSG_AUDIT_ABORT =>
      (oper_state ==? MSG_AUDIT_VOTE) || (oper_state ==? MSG_AUDIT_VOTE_DRIVER_RESULT)
  | _ => false
  end.

Definition ValidateDriverAuditSequence (audit_in_progress : bool)
    (oper_state oper_type : TcMsgOperType) : bool :=
  match oper_type with
  | MSG_AUDIT_START => audit_in_progress && (oper_state ==? MSG_NONE)
  | MSG_AUDIT_TRANS_START =>
      if audit_in_progress then oper_state ==? MSG_AUDIT_START else oper_state ==? MSG_NONE
  | MSG_AUDIT_DRIVER_VOTE => oper_state ==? MSG_AUDIT_TRANS_START
  | MSG_AUDIT_DRIVER_GLOBAL => oper_state ==? MSG_AUDIT_DRIVER_VOTE
  | MSG_AUDIT_TRANS_END =>
      (oper_state ==? MSG_AUDIT_DRIVER_GLOBAL) || (oper_state ==? MSG_AUDIT_TRANS_START) ||
      (oper_state ==? MSG_AUDIT_DRIVER_VOTE) || (oper_state ==? MSG_AUDIT_ABORT)
  | MSG_AUDIT_END =>
      audit_in_progress &&
      ((oper_state ==? MSG_AUDIT_TRANS_END) || (oper_state ==? MSG_AUDIT_START) ||
       (oper_state ==? MSG_AUDIT_TRANS_START))
  | MSG_AUDIT_ABORT => oper_state ==? MSG_AUDIT_DRIVER_VOTE
  | _ => false
  end.

Definition is_commit_oper (oper_type : TcMsgOperType) : bool :=
  match oper_type with
  | MSG_COMMIT_TRANS_START | MSG_COMMIT_VOTE | MSG_COMMIT_DRIVER_VOTE
  | MSG_COMMIT_VOTE_DRIVER_RESULT | MSG_COMMIT_GLOBAL | MSG_COMMIT_DRIVER_GLOBAL
  | MSG_COMMIT_GLOBAL_DRIVER_RESULT | MSG_COMMIT_TRANS_END | MSG_COMMIT_ABORT => true
  | _ => false
  end.
Definition is_audit_oper (oper_type : TcMsgOperType) : bool :=
  match oper_type with
  | MSG_AUDIT_START | MSG_AUDIT_TRANS_START | MSG_AUDIT_VOTE | MSG_AUDIT_DRIVER_VOTE
  | MSG_AUDIT_VOTE_DRIVER_RESULT | MSG_AUDIT_GLOBAL | MSG_AUDIT_DRIVER_GLOBAL
  | MSG_AUDIT_GLOBAL_DRIVER_RESULT | MSG_AUDIT_TRANS_END | MSG_AUDIT_END
  | MSG_AUDIT_ABORT => true
  | _ => false
  end.

(** ** The results of the drivers

    What [UpdateControllerKeyList] stores while it walks over the arguments:
    the three members, and how the walk ended. *)

Record KeyLists := mkKeys {
  kl_map : gmap Z Z;
  kl_controllers : gmap string (gmap Z Z);
  kl_results : list TcControllerResult
}.

(** [std::map::insert]: an entry that exists stays. *)
Definition map_insert {K V} `{Countable K} (k : K) (v : V) (m : gmap K V) : gmap K V :=
  match m !! k with Some _ => m | None => <[k := v]> m end.

(** The keys of one controller: the rest of the [for] loop, with [n] errors
    left.  [inl]: the function returns; [inr]: the index and the key types. *)
Fixpoint error_loop (n : nat) (args : list IpcValue) (err_count idx : Z) (km : gmap Z Z)
    (keys : list Z) : (Z * gmap Z Z) + (Z * gmap Z Z * list Z) :=
  match n with
  | 0%nat => inr (idx, km, keys)
  | S n' =>
      let idx := GetMatchTypeIndex args idx IPC_UINT32 in
      if idx ==? 0 then inl (TC_SUCCESS, km)
      else match read_u32 (Some (mkSrv args [])) idx with
           | None => inl (TC_FAILURE, km)
           | Some local_kt =>
               error_loop n' args (err_count + 1) idx (map_insert err_count idx km)
                 (keys ++ [local_kt])
           end
  end.

(** The version of the configuration a controller reports, if an argument of
    its type follows; with the index of the last argument read. *)
Definition read_commit_info (args : list IpcValue) (idx : Z)
    : option (Z * (Z * Z * string)) :=
  let s := Some (mkSrv args []) in
  let i := GetMatchTypeIndex args idx IPC_UINT64 in
  if i ==? 0 then Some (idx, (0, 0, EmptyString))
  else
    number ← read_u64 s i;
    date ← read_u64 s (i + 1);
    app ← read_str s (i + 2);
    Some (i + 2, (number, date, app)).

(** One controller: [inl] if the function returns. *)
Definition controller_step (args : list IpcValue) (idx : Z) (k : KeyLists)
    : (Z * KeyLists) + (Z * KeyLists) :=
  let s := Some (mkSrv args []) in
  let idx := GetMatchTypeIndex args idx IPC_STRING in
  if idx ==? 0 then inl (TC_SUCCESS, k)
  else
    match (c ← read_str s idx; resp ← read_u32 s (idx + 1); errors ← read_u32 s (idx + 2);
           info ← read_commit_info args (idx + 2);
           Some (c, resp, errors, info)) with
    | None => inl (TC_FAILURE, k)
    | Some (c, resp, errors, (idx, (number, date, app))) =>
        if errors ==? 0 then
          inr (idx, mkKeys (kl_map k) (kl_controllers k)
                      (kl_results k ++ [mkResult c resp errors [] number date app]))
        else
          match error_loop (Z.to_nat errors) args 0 idx ∅ [] with
          | inl (ret, km) => inl (ret, mkKeys km (kl_controllers k) (kl_results k))
          | inr (idx, km, keys) =>
              inr (idx, mkKeys km (map_insert c km (kl_controllers k))
                          (kl_results k ++ [mkResult c resp errors keys number date app]))
          end
    end.

(** The [while] loop, with fuel. *)
Fixpoint controller_loop (fuel : nat) (args : list IpcValue) (idx : Z) (k : KeyLists)
    : option (Z * KeyLists) :=
  match fuel with
  | 0%nat => None
  | S fuel' =>
      if bool_decide (idx < Z.of_nat (length args)) then
        match controller_step args idx k with
        | inl r => Some r
        | inr (idx, k) => controller_loop fuel' args idx k
        end
      else Some (TC_SUCCESS, k)
  end.

(** Every round moves the index forward, so one round per argument is enough. *)
Definition update_keys (args : list IpcValue) : option (Z * KeyLists) :=
  controller_loop (S (length args)) args DRV_RESULT_START_POS (mkKeys ∅ ∅ []).

Section Services.

Context {H : Type} `{TcLibInterface H} (ipc : SrvIpc).

Definition ReleaseTransactionResources : L H unit :=
  update (fun m => set_results (set_oper_state m MSG_NONE) ∅ ∅ []).

Definition GetControllerType : L H Z :=
  p ← member pTcLibInterface_;
  mret (match p with None => UNC_CT_UNKNOWN | Some h => controller_type h end).

(** The state is updated even if the message does not fit: the assertion in
    between is compiled out. *)
Definition ValidateOperTypeSequence (oper_type : TcMsgOperType) : L H Z :=
  ctr_type ← GetControllerType;
  oper_state ← member oper_state_;
  in_progress ← member audit_in_progress_;
  if negb (is_commit_oper oper_type || is_audit_oper oper_type) then mret TC_FAILURE
  else
    let ok :=
      if is_commit_oper oper_type then
        if ctr_type ==? UNC_CT_UNKNOWN
        then ValidateUpllUpplCommitSequence oper_state oper_type
        else ValidateDriverCommitSequence oper_state oper_type
      else
        if ctr_type ==? UNC_CT_UNKNOWN
        then ValidateUpllUpplAuditSequence oper_state oper_type
        else ValidateDriverAuditSequence in_progress oper_state oper_type in
    update (fun m => set_oper_state m oper_type);;
    mret (if ok : bool then TC_SUCCESS else TC_FAILURE).

Definition UpdateControllerKeyList : L H Z :=
  s ← session;
  match s with
  | None => mret TC_FAILURE
  | Some s =>
      if getArgCount s ==? 0 then mret TC_FAILURE
      else match update_keys (ss_args s) with
           | None => (fun _ => None)
           | Some (ret, k) =>
               update (fun m => set_results m (kl_map k) (kl_controllers k) (kl_results k));;
               mret ret
           end
  end.

(** [if (Validate...(oper_type) != TC_SUCCESS) return TC_FAILURE;] *)
Definition in_sequence (oper_type : TcMsgOperType) (k : L H Z) : L H Z :=
  r ← ValidateOperTypeSequence oper_type;
  if r !=? TC_SUCCESS then mret TC_FAILURE else k.

(** [if (TcLibValidateUpdateMsg(...) != TC_API_COMMON_SUCCESS) return
    TC_FAILURE;] *)
Definition valid_ids (sid cid : Z) (k : L H Z) : L H Z :=
  r ← member (validate_update sid cid);
  if r !=? TC_API_COMMON_SUCCESS then mret TC_FAILURE else k.

(** The same for UPLL and UPPL only. *)
Definition valid_ids_unless_driver (sid cid : Z) (k : L H Z) : L H Z :=
  ctr_type ← GetControllerType;
  if ctr_type ==? UNC_CT_UNKNOWN then valid_ids sid cid k else k.

(** ** Commit *)

Definition NotifySessionConfig (sess : ServerSession) : L H Z :=
  if getArgCount sess ==? 0 then mret TC_FAILURE
  else match read_u32 (Some sess) 0 with
       | None => mret TC_FAILURE
       | Some sid =>
           update (fun m => set_session_id m sid);;
           match read_u32 (Some sess) 1 with
           | None => mret TC_FAILURE
           | Some cid => update (fun m => set_config_id m cid);; mret TC_SUCCESS
           end
       end.

Definition CommitTransStartEnd (msg : TcCommitTransactionMsg) : L H Z := registered (
  match ct_oper_type msg with
  | MSG_COMMIT_TRANS_START =>
      r ← handle_ret ipc (HandleCommitTransactionStart (ct_session_id msg) (ct_config_id msg));
      (if r !=? TC_SUCCESS then ReleaseTransactionResources else mret tt);;
      mret r
  | MSG_COMMIT_TRANS_END =>
      r ← handle_ret ipc (HandleCommitTransactionEnd (ct_session_id msg) (ct_config_id msg)
                            (ct_end_result msg));
      ReleaseTransactionResources;;
      mret r
  | _ => mret TC_FAILURE
  end).

(** The values that describe the drivers; the sizes are cut to a byte. *)
Definition driver_info_values (info : TcDriverInfoMap) : list IpcValue :=
  VU8 (u8 (Z.of_nat (length info))) ::
  concat ((fun p => VU8 (u8 p.1) :: VU8 (u8 (Z.of_nat (length p.2))) :: (VStr <$> p.2)) <$> info).

(** The drivers are written after a handler that succeeded, if it named any;
    [extra] follows them. *)
Definition write_driver_info (r : HandlerResult) (extra : list IpcValue) : L H Z :=
  if hr_ret r !=? TC_SUCCESS then mret (hr_ret r)
  else
    ok ← write_all ipc
           (match hr_driver_info r with
            | [] => extra
            | info => driver_info_values info ++ extra
            end);
    mret (if ok : bool then hr_ret r else TC_FAILURE).

Definition CommitVoteGlobal (msg : TcCommitTransactionMsg) : L H Z := registered (
  match ct_oper_type msg with
  | MSG_COMMIT_VOTE =>
      r ← handle ipc (HandleCommitVoteRequest (ct_session_id msg) (ct_config_id msg));
      write_driver_info r []
  | MSG_COMMIT_GLOBAL =>
      r ← handle ipc (HandleCommitGlobalCommit (ct_session_id msg) (ct_config_id msg));
      write_driver_info r []
  | _ => mret TC_FAILURE
  end).

Definition CommitTransaction : L H Z :=
  with_msg GetCommitTransactionMsg (fun msg =>
    in_sequence (ct_oper_type msg) (
    valid_ids_unless_driver (ct_session_id msg) (ct_config_id msg) (
      match ct_oper_type msg with
      | MSG_COMMIT_TRANS_START | MSG_COMMIT_TRANS_END => CommitTransStartEnd msg
      | MSG_COMMIT_VOTE | MSG_COMMIT_GLOBAL => CommitVoteGlobal msg
      | _ => mret TC_FAILURE
      end))).

Definition CommitDriverVoteGlobal : L H Z := registered (
  with_msg GetCommitDrvVoteGlobalMsg (fun msg =>
    in_sequence (cv_oper_type msg) (
      match cv_oper_type msg with
      | MSG_COMMIT_DRIVER_VOTE =>
          handle_ret ipc (HandleCommitVoteRequest_drv (cv_session_id msg) (cv_config_id msg)
                            (cv_cntrl_list msg))
      | MSG_COMMIT_DRIVER_GLOBAL =>
          handle_ret ipc (HandleCommitGlobalCommit_drv (cv_session_id msg) (cv_config_id msg)
                            (cv_cntrl_list msg))
      | _ => mret TC_SUCCESS
      end))).

Definition CommitDriverResult : L H Z := registered (
  with_msg GetCommitDrvResultMsg (fun msg =>
    in_sequence (cp_oper_type msg) (
    valid_ids (cp_session_id msg) (cp_config_id msg) (
      r ← UpdateControllerKeyList;
      if r !=? TC_SUCCESS then mret r
      else
        results ← member commit_phase_result_;
        handle_ret ipc (HandleCommitDriverResult (cp_session_id msg) (cp_config_id msg)
                          (cp_phase msg) results))))).

Definition CommitGlobalAbort : L H Z := registered (
  with_msg GetCommitGlobalAbortMsg (fun msg =>
    in_sequence (cp_oper_type msg) (
    valid_ids_unless_driver (cp_session_id msg) (cp_config_id msg) (
      handle_ret ipc (HandleCommitGlobalAbort (cp_session_id msg) (cp_config_id msg)
                        (cp_phase msg)))))).

(** ** Audit *)

Definition AuditTransStartEnd (msg : TcAuditTransactionMsg) : L H Z := registered (
  let sid := at_session_id msg in
  let driver := at_driver_id msg in
  let controller := at_controller_id msg in
  match at_oper_type msg with
  | MSG_AUDIT_START =>
      ctr_type ← GetControllerType;
      r ← handle_ret ipc
            (if ctr_type !=? UNC_CT_UNKNOWN
             then HandleAuditStart_drv sid driver controller (at_reconnect_controller msg)
             else HandleAuditStart sid driver controller (at_simplified_audit msg)
                    (at_commit_number msg) (at_commit_date msg) (at_commit_application msg));
      (if (r !=? TC_SUCCESS) && (r !=? TC_SIMPLIFIED_AUDIT) then
         update (fun m => set_audit_in_progress m false);; ReleaseTransactionResources
       else mret tt);;
      mret r
  | MSG_AUDIT_END =>
      r ← handle_ret ipc (HandleAuditEnd sid driver controller (at_audit_result msg));
      update (fun m => set_audit_in_progress m false);;
      ReleaseTransactionResources;;
      mret r
  | MSG_AUDIT_TRANS_START =>
      handle_ret ipc (HandleAuditTransactionStart sid driver controller)
  | MSG_AUDIT_TRANS_END =>
      r ← handle_ret ipc (HandleAuditTransactionEnd sid driver controller (at_end_result msg));
      ctr_type ← GetControllerType;
      in_progress ← member audit_in_progress_;
      (if (ctr_type !=? UNC_CT_UNKNOWN) && negb in_progress
       then ReleaseTransactionResources else mret tt);;
      mret r
  | _ => mret TC_FAILURE
  end).

Definition AuditVoteGlobal (msg : TcAuditTransactionMsg) : L H Z := registered (
  let sid := at_session_id msg in
  let driver := at_driver_id msg in
  let controller := at_controller_id msg in
  match at_oper_type msg with
  | MSG_AUDIT_VOTE =>
      r ← handle ipc (HandleAuditVoteRequest sid driver controller);
      write_driver_info r []
  | MSG_AUDIT_GLOBAL =>
      r ← handle ipc (HandleAuditGlobalCommit sid driver controller);
      write_driver_info r [VU8 (u8 (default 1 (hr_audit_result r)))]
  | _ => mret TC_FAILURE
  end).

Definition AuditTransaction : L H Z :=
  with_msg GetAuditTransactionMsg (fun msg =>
    ctr_type ← GetControllerType;
    (if ctr_type !=? UNC_CT_UNKNOWN
     then update (fun m => set_audit_in_progress m (at_driver_id msg ==? ctr_type))
     else mret tt);;
    in_sequence (at_oper_type msg) (
      match at_oper_type msg with
      | MSG_AUDIT_START | MSG_AUDIT_END | MSG_AUDIT_TRANS_START | MSG_AUDIT_TRANS_END =>
          AuditTransStartEnd msg
      | MSG_AUDIT_VOTE | MSG_AUDIT_GLOBAL => AuditVoteGlobal msg
      | _ => mret TC_FAILURE
      end)).

Definition AuditDriverVoteGlobal : L H Z := registered (
  with_msg GetAuditDrvVoteGlobalMsg (fun msg =>
    in_sequence (av_oper_type msg) (
      match av_oper_type msg with
      | MSG_AUDIT_DRIVER_VOTE =>
          handle_ret ipc (HandleAuditVoteRequest_drv (av_session_id msg) (av_controller_id msg)
                            (av_cntrl_list msg))
      | MSG_AUDIT_DRIVER_GLOBAL =>
          handle_ret ipc (HandleAuditGlobalCommit_drv (av_session_id msg) (av_controller_id msg)
                            (av_cntrl_list msg))
      | _ => mret TC_SUCCESS
      end))).

Definition AuditDriverResult : L H Z := registered (
  with_msg GetAuditDrvResultMsg (fun msg =>
    in_sequence (ar_oper_type msg) (
      r ← UpdateControllerKeyList;
      if r !=? TC_SUCCESS then mret r
      else
        results ← member commit_phase_result_;
        r ← handle ipc (HandleAuditDriverResult (ar_session_id msg) (ar_controller_id msg)
                          (ar_phase msg) results);
        if hr_ret r !=? TC_SUCCESS then mret (hr_ret r)
        else if ar_phase msg ==? TC_AUDIT_GLOBAL_COMMIT_PHASE then
          ok ← write ipc (VU8 (u8 (default 1 (hr_audit_result r))));
          mret (if ok : bool then hr_ret r else TC_FAILURE)
        else mret (hr_ret r)))).

Definition AuditGlobalAbort : L H Z := registered (
  with_msg GetAuditGlobalAbortMsg (fun msg =>
    in_sequence (aa_oper_type msg) (
      handle_ret ipc (HandleAuditGlobalAbort (aa_session_id msg) (aa_driver_id msg)
                        (aa_controller_id msg) (aa_phase msg))))).

(** ** Other services *)

(** The first argument, of a session that must have one. *)
Definition first_u32 (s : option ServerSession) : option Z := nonempty s (read_u32 s 0).

Definition SaveConfiguration : L H Z := registered (
  with_msg first_u32 (fun sid => handle_ret ipc (HandleSaveConfiguration sid))).

Definition ClearStartup : L H Z := registered (
  with_msg first_u32 (fun sid => handle_ret ipc (HandleClearStartup sid))).

Definition AbortCandidate : L H Z := registered (
  with_msg (fun s => sid ← first_u32 s; cid ← read_u32 s 1; Some (sid, cid)) (fun p =>
    handle_ret ipc (HandleAbortCandidate p.1 p.2))).

Definition AuditConfig (sess : ServerSession) : L H Z := registered (
  match GetAuditConfigMsg (Some sess) with
  | None => mret TC_FAILURE
  | Some msg => handle_ret ipc (HandleAuditConfig (ac_db_type msg) (ac_service_type msg))
  end).

(** [Setup] and [SetupComplete] *)
Definition setup_with (sess : ServerSession) (c : HandlerCall) : L H Z := registered (
  match nonempty (Some sess) (read_u8 (Some sess) 0) with
  | None => mret TC_FAILURE
  | Some b => update (fun m => set_auto_save m b);; handle_ret ipc c
  end).
Definition Setup (sess : ServerSession) : L H Z := setup_with sess HandleSetup.
Definition SetupComplete (sess : ServerSession) : L H Z := setup_with sess HandleSetupComplete.

Definition GetDriverId : L H Z :=
  p ← member pTcLibInterface_;
  match p with
  | None => mret UNC_CT_UNKNOWN
  | Some _ =>
      s ← session;
      match nonempty s (read_str s 0) with
      | None => mret UNC_CT_UNKNOWN
      | Some c =>
          update (fun m => set_oper_state m MSG_GET_DRIVERID);;
          r ← handle_ret ipc (HandleGetControllerType c);
          update (fun m => set_oper_state m MSG_NONE);;
          mret r
      end
  end.

Definition NotifyAutoSave (service : TcLibServiceId) : L H Z :=
  match service with
  | TCLIB_AUTOSAVE_ENABLE =>
      update (fun m => set_auto_save m 1);;
      r ← ClearStartup; mret (if r !=? TC_SUCCESS then r else TC_SUCCESS)
  | TCLIB_AUTOSAVE_DISABLE =>
      update (fun m => set_auto_save m 0);;
      r ← SaveConfiguration; mret (if r !=? TC_SUCCESS then r else TC_SUCCESS)
  | _ => mret TC_FAILURE
  end.

(** ** The entry point *)

(** Services that get the session as an argument and leave [sess_] alone. *)
Definition keeps_sess (service : TcLibServiceId) : bool :=
  match service with
  | TCLIB_NOTIFY_SESSION_CONFIG | TCLIB_SETUP | TCLIB_SETUP_COMPLETE | TCLIB_AUDIT_CONFIG => true
  | _ => false
  end.

Definition serve (sess : ServerSession) (service : TcLibServiceId) : L H Z :=
  match service with
  | TCLIB_NOTIFY_SESSION_CONFIG => NotifySessionConfig sess
  | TCLIB_COMMIT_TRANSACTION => CommitTransaction
  | TCLIB_COMMIT_DRV_VOTE_GLOBAL => CommitDriverVoteGlobal
  | TCLIB_COMMIT_DRV_RESULT => CommitDriverResult
  | TCLIB_COMMIT_GLOBAL_ABORT => CommitGlobalAbort
  | TCLIB_AUDIT_TRANSACTION => AuditTransaction
  | TCLIB_AUDIT_DRV_VOTE_GLOBAL => AuditDriverVoteGlobal
  | TCLIB_AUDIT_DRV_RESULT => AuditDriverResult
  | TCLIB_AUDIT_GLOBAL_ABORT => AuditGlobalAbort
  | TCLIB_SAVE_CONFIG => SaveConfiguration
  | TCLIB_CLEAR_STARTUP => ClearStartup
  | TCLIB_USER_ABORT => AbortCandidate
  | TCLIB_SETUP => Setup sess
  | TCLIB_SETUP_COMPLETE => SetupComplete sess
  | TCLIB_GET_DRIVERID => GetDriverId
  | TCLIB_AUDIT_CONFIG => AuditConfig sess
  | TCLIB_CONTROLLER_TYPE => GetControllerType
  | TCLIB_AUTOSAVE_ENABLE | TCLIB_AUTOSAVE_DISABLE => NotifyAutoSave service
  end.

(** [PFC_IPCRESP_FATAL] *)
Definition PFC_IPCRESP_FATAL : Z := -1.

(** The end of a request; the session of the request is destroyed after it. *)
Definition finish_request (m : TcLibModule H) : TcLibModule H :=
  let m1 := set_request_counter m (u32_dec (request_counter_ m)) in
  if request_counter_ m1 ==? 0 then set_sess m1 SNull
  else set_sess m1 (if sess_ m1 ==? SCurrent then SDangling else sess_ m1).
Definition end_request : L H unit := update finish_request.

(** A notification returns before the counter is decremented.

    A request is served as one step, and requests one after the other.  The code
    itself does not see to that: [request_counter_lock_] covers the counter
    only, and [sess_] is set without any lock.  It is the coordinator that waits
    for each answer, but for notifications, which may come during an audit and
    leave [sess_] alone. *)
Definition ipcService (service : TcLibServiceId) : L H Z :=
  p ← member pTcLibInterface_;
  match p with
  | None => mret PFC_IPCRESP_FATAL
  | Some _ =>
      update (fun m => set_request_counter m (u32_inc (request_counter_ m)));;
      (if keeps_sess service then mret tt else update (fun m => set_sess m SCurrent));;
      sess ← (fun st => Some (ls_cur st, st));
      if service ==? TCLIB_NOTIFY_SESSION_CONFIG then NotifySessionConfig sess
      else
        r ← serve sess service;
        end_request;;
        mret r
  end.

End Services.

(** A request to a module: the response code, what was written, and the
    module afterwards; [None] is an undefined behaviour. *)
Definition request {H} `{TcLibInterface H} (ipc : SrvIpc) (service : TcLibServiceId)
    (args : list IpcValue) (m : TcLibModule H)
    : option (Z * list IpcValue * list (HandlerCall * HandlerResult) * TcLibModule H) :=
  match ipcService ipc service (mkLibSt m (mkSrv args []) []) with
  | Some (r, st) => Some (r, ss_output (ls_cur st), ls_calls st, ls_mod st)
  | None => None
  end.
