(* ===== verification/TcLibProps.v ===== *)
(** * Rules for the participants' library

    Total correctness of the programs of TcLib: [lwp m Q st] says that [m]
    has a result from [st] and that [Q] holds of it.  A handler can only add
    to the response and name the controller it writes about ([kept]). *)

From S2P Require Import Prelude TcTypes TcIpc TcServer TcLibTypes TcLib TcLibServices.

Local Open Scope Z_scope.

(** ** Weakest preconditions *)

Definition lwp {H A} (m : L H A) (Q : A -> LibSt H -> Prop) (st : LibSt H) : Prop :=
  match m st with Some (a, st') => Q a st' | None => False end.

Section Rules.

Context {H : Type}.
Implicit Type st : LibSt H.

Lemma lwp_ret {A} (a : A) Q st : Q a st -> lwp (mret a) Q st.
Proof. done. Qed.

Lemma lwp_bind {A B} (m : L H A) (f : A -> L H B) Q st :
  lwp m (fun a => lwp (f a) Q) st -> lwp (m ≫= f) Q st.
Proof. unfold lwp, mbind, L_bind. by destruct (m st) as [[a st1]|]. Qed.

Lemma lwp_mono {A} (m : L H A) (P Q : A -> LibSt H -> Prop) st :
  lwp m P st -> (forall a st', P a st' -> Q a st') -> lwp m Q st.
Proof. unfold lwp. destruct (m st) as [[a st']|]; [|done]. auto. Qed.

Lemma lwp_member {A} (f : TcLibModule H -> A) Q st : Q (f (ls_mod st)) st -> lwp (member f) Q st.
Proof. done. Qed.

Lemma lwp_update f Q st :
  Q tt (mkLibSt (f (ls_mod st)) (ls_cur st) (ls_calls st)) -> lwp (update f) Q st.
Proof. done. Qed.

(** The session is there unless [sess_] dangles. *)
Definition the_session st : option ServerSession :=
  match sess_ (ls_mod st) with SCurrent => Some (ls_cur st) | _ => None end.

Lemma lwp_session Q st :
  sess_ (ls_mod st) <> SDangling -> Q (the_session st) st -> lwp session Q st.
Proof. unfold lwp, session, the_session. by destruct (sess_ (ls_mod st)). Qed.

Lemma lwp_result {A} (m : L H A) Q st : lwp m Q st -> exists a st', m st = Some (a, st') /\ Q a st'.
Proof. unfold lwp. destruct (m st) as [[a st']|]; [|done]. eauto. Qed.

End Rules.

(** ** What a handler can change *)

Definition live {H} (st : LibSt H) : Prop := sess_ (ls_mod st) <> SDangling.

Section Kept.

Context {H : Type} `{TcLibInterface H} (ipc : SrvIpc).
Implicit Type st : LibSt H.

(** The response and [controllerid_]. *)
Definition kept st st' : Prop :=
  exists c out, st' = mkLibSt (set_controllerid (ls_mod st) c)
                        (mkSrv (ss_args (ls_cur st)) out) (ls_calls st).

Lemma kept_refl st : kept st st.
Proof. exists (controllerid_ (ls_mod st)), (ss_output (ls_cur st)). by destruct st as [[] []]. Qed.

Lemma kept_trans st1 st2 st3 : kept st1 st2 -> kept st2 st3 -> kept st1 st3.
Proof. intros (c&o&->) (c'&o'&->). by exists c', o'. Qed.

Lemma kept_sess st st' : kept st st' -> sess_ (ls_mod st') = sess_ (ls_mod st).
Proof. by intros (c&o&->). Qed.

Lemma kept_live st st' : kept st st' -> live st -> live st'.
Proof. unfold live. intros Hk. by rewrite (kept_sess _ _ Hk). Qed.

Lemma write_kept v st : live st -> lwp (write ipc v) (fun _ => kept st) st.
Proof.
  intros Hl. apply lwp_bind, lwp_session; [done|]. apply lwp_bind. unfold lwp, set_cur.
  exists (controllerid_ (ls_mod st)). destruct st as [m [args out] calls].
  assert (set_controllerid m (controllerid_ m) = m) as Hm by (by destruct m).
  cbn [ls_mod ls_cur ls_calls mret L_ret] in *. rewrite Hm. unfold the_session, srv_add.
  unfold live in Hl. cbn [ls_mod ls_cur] in *.
  destruct (sess_ m); [by eexists| |done].
  destruct (u8 (sv_addoutput ipc _ v) !=? 0); by eexists.
Qed.

Lemma write_all_kept vs st : live st -> lwp (write_all ipc vs) (fun _ => kept st) st.
Proof.
  revert st. induction vs as [|v vs IH]; intros st Hl; [apply kept_refl|].
  cbn [write_all]. apply lwp_bind. eapply lwp_mono; [by apply write_kept|].
  cbn beta. intros [] st1 H1; [|done]. eapply lwp_mono; [apply IH; by eapply kept_live|].
  cbn beta. eauto using kept_trans.
Qed.

(** Writing when the library reports no error. *)
Lemma write_all_writes (Hok : forall out x, u8 (sv_addoutput ipc out x) = 0) vs st :
  sess_ (ls_mod st) = SCurrent ->
  lwp (write_all ipc vs)
    (fun ok st' => ok = true /\
       st' = mkLibSt (ls_mod st) (mkSrv (ss_args (ls_cur st)) (ss_output (ls_cur st) ++ vs))
               (ls_calls st)) st.
Proof.
  revert st. induction vs as [|x vs IH]; intros st Hs; cbn [write_all].
  { apply lwp_ret. split; [done|]. rewrite app_nil_r. by destruct st as [? [] ?]. }
  apply lwp_bind, lwp_bind. unfold lwp at 1, session. rewrite Hs. cbn beta iota.
  unfold srv_add. rewrite Hok. cbn [fst snd negb]. apply lwp_bind. unfold lwp at 1, set_cur.
  cbn beta iota. change (0 !=? 0) with false. cbn [fst snd default]. apply lwp_ret.
  change (TCUTIL_RET_SUCCESS ==? TCUTIL_RET_SUCCESS) with true. cbn iota.
  eapply lwp_mono; [by apply IH|]. cbn beta. intros ok st' [-> ->]. split; [done|].
  cbn. by rewrite <- app_assoc.
Qed.

Lemma api_kept c st : live st -> lwp (api ipc c) (fun _ => kept st) st.
Proof.
  intros Hl. destruct c; cbn [api]; unfold write_info, write_key_value.
  1-3: apply lwp_bind, lwp_member; destruct (_ ==? _); [apply kept_refl|].
  1-2: apply lwp_bind; (eapply lwp_mono; [by apply write_all_kept|]);
    intros [] st1 (c&o&->); [eexists _, _; reflexivity|by exists c, o].
  - apply lwp_bind, lwp_member. destruct (_ !=? _); [apply kept_refl|].
    apply lwp_bind. eapply lwp_mono; [by apply write_all_kept|]. done.
  - unfold read_key_value, GetKeyIndex. apply lwp_bind, lwp_member.
    destruct (negb _); [apply kept_refl|]. apply lwp_bind, lwp_bind, lwp_member, lwp_ret.
    repeat case_match; try apply kept_refl; apply lwp_bind, lwp_session; try done;
      repeat case_match; apply kept_refl.
  - apply kept_refl.
  - apply kept_refl.
  - apply kept_refl.
Qed.

Lemma run_prog_kept {A} (P : A -> Prop) (p : Prog A) st :
  live st -> returns P p -> lwp (run_prog ipc p) (fun a st' => P a /\ kept st st') st.
Proof.
  revert st. induction p as [a|c k IH]; intros st Hl Hp; [split; [done|apply kept_refl]|].
  cbn [run_prog]. apply lwp_bind. eapply lwp_mono; [by apply api_kept|].
  cbn beta. intros a st1 H1. eapply lwp_mono; [apply IH; [by eapply kept_live|apply Hp]|].
  cbn beta. intros b st2 [Hb H2]. eauto using kept_trans.
Qed.

(** [r] is one of the handler's answers to [c]: what holds of all of them
    holds of [r]. *)
Definition possible (c : HandlerCall) (r : HandlerResult) : Prop :=
  forall P, (forall h, returns (fun p => P p.1) (Handle c h)) -> P r.

(** A call of the handler: it is recorded, the handler has a new state. *)
Definition handled (c : HandlerCall) (r : HandlerResult) st st' : Prop :=
  possible c r /\
  exists h h' cid out, pTcLibInterface_ (ls_mod st) = Some h /\
    controller_type h' = controller_type h /\
    st' = mkLibSt (set_controllerid (set_handler (ls_mod st) (Some h')) cid)
      (mkSrv (ss_args (ls_cur st)) out) (ls_calls st ++ [(c, r)]).

Lemma returns_and {A} (P Q : A -> Prop) (p : Prog A) :
  returns P p -> returns Q p -> returns (fun a => P a /\ Q a) p.
Proof. induction p as [a|c k IH]; cbn; [done|]. intros HP HQ x. by apply IH. Qed.

Lemma handle_handled c st :
  live st -> is_Some (pTcLibInterface_ (ls_mod st)) ->
  lwp (handle ipc c) (fun r => handled c r st) st.
Proof.
  intros Hl [h Hh]. unfold lwp, handle. rewrite Hh.
  assert (forall P, returns P (Handle c h) ->
    exists r h' cid out, run_prog ipc (Handle c h) st = Some ((r, h'),
      mkLibSt (set_controllerid (ls_mod st) cid) (mkSrv (ss_args (ls_cur st)) out) (ls_calls st)) /\
      P (r, h')) as Hrun.
  { intros P HP. destruct (lwp_result _ _ _ (run_prog_kept P (Handle c h) st Hl HP))
      as ([r h']&st'&E&HP'&(cid&o&->)). eauto 10. }
  destruct (Hrun _ (controller_type_const c h)) as (r&h'&cid&o&E&Ht). rewrite E. split.
  - intros P HP. destruct (Hrun _ (HP h)) as (r2&h2&cid2&o2&E2&HP2). rewrite E in E2.
    injection E2 as <- _ _ _. exact HP2.
  - by exists h, h', cid, o.
Qed.

Lemma handle_ret_handled c st :
  live st -> is_Some (pTcLibInterface_ (ls_mod st)) ->
  lwp (handle_ret ipc c) (fun z st' => exists r, z = hr_ret r /\ handled c r st st') st.
Proof.
  intros Hl Hh. apply lwp_bind. eapply lwp_mono; [by apply handle_handled|].
  cbn beta. intros r st' Hr. exists r. by split.
Qed.

Lemma handled_sess c r st st' : handled c r st st' -> sess_ (ls_mod st') = sess_ (ls_mod st).
Proof. by intros (_&h&h'&cid&o&_&_&->). Qed.

End Kept.

(** ** The walk over the results of the drivers *)

Lemma find_type_range t l i :
  0 < i -> find_type t l i = 0 \/ (i <= find_type t l i < i + Z.of_nat (length l)).
Proof.
  revert i. induction l as [|v l IH]; intros i Hi; [by left|]. cbn [find_type].
  destruct (type_of v ==? t); cbn [length]; [lia|]. destruct (IH (i + 1)); lia.
Qed.

Lemma GetMatchTypeIndex_range args idx t :
  0 <= idx < Z.of_nat (length args) ->
  GetMatchTypeIndex args idx t = 0 \/
  (idx < GetMatchTypeIndex args idx t < Z.of_nat (length args)).
Proof.
  intros Hi. unfold GetMatchTypeIndex. rewrite bool_decide_eq_true_2 by lia.
  pose proof (find_type_range t (drop (Z.to_nat (idx + 1)) args) (idx + 1) ltac:(lia)) as Hr.
  rewrite length_drop in Hr. lia.
Qed.

(** An argument that could be read is one of the arguments. *)
Lemma get_arg_bound {A} pick args out idx (a : A) :
  0 <= idx -> read_ok (get_arg pick (Some (mkSrv args out)) idx) = Some a ->
  idx < Z.of_nat (length args).
Proof.
  intros Hi. unfold read_ok, get_arg. cbn [ss_args].
  destruct (bool_decide (getArgCount _ < idx)); [done|].
  destruct (args !! Z.to_nat idx) eqn:E; [|done]. apply lookup_lt_Some in E. lia.
Qed.

Lemma error_loop_range n args e idx km keys i km' keys' :
  0 <= idx < Z.of_nat (length args) ->
  error_loop n args e idx km keys = inr (i, km', keys') -> idx <= i < Z.of_nat (length args).
Proof.
  revert e idx km keys. induction n as [|n IH]; intros e idx km keys Hi; cbn [error_loop].
  { intros [= -> _ _]. lia. }
  destruct (GetMatchTypeIndex_range args idx IPC_UINT32 Hi) as [->|Hr]; [done|].
  case_bool_decide; [done|]. case_match; [|done]. intros E. apply IH in E; lia.
Qed.

Lemma read_commit_info_range args idx i x :
  0 <= idx < Z.of_nat (length args) -> read_commit_info args idx = Some (i, x) ->
  idx <= i < Z.of_nat (length args).
Proof.
  intros Hi. unfold read_commit_info. cbv zeta.
  destruct (GetMatchTypeIndex_range args idx IPC_UINT64 Hi) as [->|Hr].
  { rewrite bool_decide_eq_true_2 by done. intros [= -> _]. lia. }
  set (j := GetMatchTypeIndex args idx IPC_UINT64) in *. case_bool_decide; [lia|].
  destruct (read_u64 _ j) as [n|]; [|done]. cbn [mbind option_bind].
  destruct (read_u64 _ (j + 1)) as [d|]; [|done]. cbn [mbind option_bind].
  destruct (read_str _ (j + 2)) as [a|] eqn:E3; [|done]. cbn [mbind option_bind].
  intros [= <- _]. apply get_arg_bound in E3; lia.
Qed.

(** Every controller moves the index forward. *)
Lemma controller_step_range args idx k i k' :
  0 <= idx < Z.of_nat (length args) -> controller_step args idx k = inr (i, k') ->
  idx < i < Z.of_nat (length args).
Proof.
  intros Hi. unfold controller_step. cbv zeta.
  destruct (GetMatchTypeIndex_range args idx IPC_STRING Hi) as [->|Hr]; [done|].
  set (j := GetMatchTypeIndex args idx IPC_STRING) in *. case_bool_decide; [lia|].
  destruct (read_str _ j) as [c|]; [|done]. cbn [mbind option_bind].
  destruct (read_u32 _ (j + 1)) as [resp|]; [|done]. cbn [mbind option_bind].
  destruct (read_u32 _ (j + 2)) as [errors|] eqn:E2; [|done]. cbn [mbind option_bind].
  apply get_arg_bound in E2; [|lia].
  destruct (read_commit_info args (j + 2)) as [[i' [[n d] a]]|] eqn:E3; [|done].
  cbn [mbind option_bind]. apply read_commit_info_range in E3; [|lia].
  case_bool_decide; [intros [= -> _]; lia|].
  destruct (error_loop _ _ _ _ _ _) as [[]|[[i'' km'] keys]] eqn:E4; [done|].
  intros [= -> _]. apply error_loop_range in E4; lia.
Qed.

Lemma controller_loop_enough fuel args idx k :
  0 <= idx -> Z.of_nat (length args) - idx < Z.of_nat fuel -> (0 < fuel)%nat ->
  is_Some (controller_loop fuel args idx k).
Proof.
  revert idx k. induction fuel as [|fuel IH]; intros idx k Hi Hf Hp; cbn [controller_loop].
  { lia. }
  destruct (bool_decide (idx < _)) eqn:Eb; bool_norm; [|eauto].
  destruct (controller_step args idx k) as [r|[i k']] eqn:E; [eauto|].
  apply controller_step_range in E; [|lia]. apply IH; lia.
Qed.

(** The fuel of [update_keys] is enough. *)
Lemma update_keys_total args : is_Some (update_keys args).
Proof. apply controller_loop_enough; unfold DRV_RESULT_START_POS; lia. Qed.
