(* ===== verification/TcLibTheorems.v ===== *)
(** * Properties of the participants' library

    Requests are defined and end; what a request does to the phase of the
    transaction; the sequences of messages that make a transaction; the
    counter of requests. *)

From S2P Require Import Prelude TcTypes TcIpc TcServer.
From S2P Require Import TcLibTypes TcLib TcLibServices TcLibProps.

Local Open Scope Z_scope.

(** ** Requests are defined *)

Create HintDb lib.

Section Total.

Context {H : Type} `{TcLibInterface H} (ipc : SrvIpc).
Implicit Type st : LibSt H.

(** A handler is registered and [sess_] may be used. *)
Definition ready st : Prop := live st /\ is_Some (pTcLibInterface_ (ls_mod st)).

(** No service changes which session [sess_] points to, or the counter. *)
Definition steady st st' : Prop :=
  sess_ (ls_mod st') = sess_ (ls_mod st) /\
  request_counter_ (ls_mod st') = request_counter_ (ls_mod st) /\
  is_Some (pTcLibInterface_ (ls_mod st')).

Lemma steady_ready st st' : ready st -> steady st st' -> ready st'.
Proof. unfold ready, live. intros [Hl _] (E&_&Hh). by rewrite E. Qed.

Lemma steady_refl st : ready st -> steady st st.
Proof. by intros [_ Hh]. Qed.

Lemma steady_trans st1 st2 st3 : steady st1 st2 -> steady st2 st3 -> steady st1 st3.
Proof. intros (E1&C1&_) (E2&C2&Hh). split_and!; congruence || done. Qed.

Lemma steady_kept st st' : ready st -> kept st st' -> steady st st'.
Proof. intros [_ Hh] (c&o&->). done. Qed.

Definition total {A} (m : L H A) : Prop := forall st, ready st -> lwp m (fun _ => steady st) st.

Lemma ltotal_ret {A} (a : A) : total (mret a).
Proof. intros st Hst. by apply lwp_ret, steady_refl. Qed.

Lemma ltotal_bind {A B} (m : L H A) (f : A -> L H B) :
  total m -> (forall a, total (f a)) -> total (m ≫= f).
Proof.
  intros Hm Hf st Hst. apply lwp_bind. eapply lwp_mono; [by apply Hm|]. cbn beta.
  intros a st' Hst'. eapply lwp_mono; [apply Hf; by eapply steady_ready|]. cbn beta.
  eauto using steady_trans.
Qed.

Lemma total_member {A} (f : TcLibModule H -> A) : total (member f).
Proof. intros st Hst. by apply lwp_member, steady_refl. Qed.

Lemma total_update f :
  (forall m, sess_ (f m) = sess_ m /\ request_counter_ (f m) = request_counter_ m /\
             pTcLibInterface_ (f m) = pTcLibInterface_ m) ->
  total (update f).
Proof.
  intros Hf st [Hl Hh]. apply lwp_update. destruct (Hf (ls_mod st)) as (E1&E2&E3).
  split_and!; cbn; congruence || by rewrite E3.
Qed.

Lemma ltotal_session : total (session (H:=H)).
Proof. intros st Hst. apply lwp_session; [apply Hst|]. by apply steady_refl. Qed.

Lemma total_write_all vs : total (write_all ipc vs).
Proof.
  intros st Hst. eapply lwp_mono; [apply write_all_kept, Hst|]. cbn beta. eauto using steady_kept.
Qed.

Lemma total_write v : total (write ipc v).
Proof.
  intros st Hst. eapply lwp_mono; [apply write_kept, Hst|]. cbn beta. eauto using steady_kept.
Qed.

Lemma total_handle c : total (handle ipc c).
Proof.
  intros st [Hl Hh]. eapply lwp_mono; [by apply handle_handled|]. cbn beta.
  intros r st' (_&h&h'&cid&o&_&_&->). split_and!; [done|done|by eexists].
Qed.

Lemma total_if {A} (b : bool) (m1 m2 : L H A) : total m1 -> total m2 -> total (if b then m1 else m2).
Proof. by destruct b. Qed.

Lemma total_option {A B} (o : option A) (m1 : A -> L H B) (m2 : L H B) :
  (forall a, total (m1 a)) -> total m2 ->
  total (match o with Some a => m1 a | None => m2 end).
Proof. destruct o; auto. Qed.

Lemma total_registered m : total m -> total (registered m).
Proof. intros Hm. apply ltotal_bind; [apply total_member|]. intros []; [done|apply ltotal_ret]. Qed.

Lemma total_with_msg {M} (get : option ServerSession -> option M) k :
  (forall m, total (k m)) -> total (with_msg get k).
Proof.
  intros Hk. apply ltotal_bind; [apply ltotal_session|]. intros s.
  destruct (get s); [done|apply ltotal_ret].
Qed.

Lemma total_controller_type : total (GetControllerType (H:=H)).
Proof. apply ltotal_bind; [apply total_member|]. intros. apply ltotal_ret. Qed.

End Total.

#[export] Hint Resolve ltotal_ret total_member ltotal_session total_write_all total_write
  total_handle total_if total_option total_registered total_with_msg total_controller_type : lib.

(** Go through a program. *)
Ltac total_auto :=
  repeat first
    [ progress intros
    | assumption
    | apply ltotal_ret | apply total_member | apply ltotal_session | apply total_write_all
    | apply total_write | apply total_handle | apply total_controller_type
    | apply total_registered | apply total_with_msg
    | apply total_update; by intros
    | apply ltotal_bind
    | apply total_if | apply total_option
    | case_match ].

Section Defined.

Context {H : Type} `{TcLibInterface H} (ipc : SrvIpc).
Implicit Type st : LibSt H.

Lemma total_update_keys : total (UpdateControllerKeyList (H:=H)).
Proof.
  apply ltotal_bind; [apply ltotal_session|]. intros [s|]; [|total_auto].
  apply total_if; [total_auto|]. destruct (update_keys_total (ss_args s)) as [[r k] ->].
  total_auto.
Qed.

Lemma serve_total sess service : total (serve ipc sess service).
Proof.
  pose proof total_update_keys as Hk.
  destruct service; cbn [serve];
    unfold NotifySessionConfig, CommitTransaction, CommitDriverVoteGlobal, CommitDriverResult,
      CommitGlobalAbort, AuditTransaction, AuditDriverVoteGlobal, AuditDriverResult,
      AuditGlobalAbort, SaveConfiguration, ClearStartup, AbortCandidate, Setup, SetupComplete,
      GetDriverId, AuditConfig, NotifyAutoSave, setup_with, CommitTransStartEnd,
      CommitVoteGlobal, AuditTransStartEnd, AuditVoteGlobal, write_driver_info, in_sequence,
      valid_ids_unless_driver, valid_ids, handle_ret, ValidateOperTypeSequence,
      ReleaseTransactionResources, SaveConfiguration, ClearStartup;
    total_auto.
Qed.

(** A request whose service uses the session, or that arrives while [sess_]
    does not dangle, ends. *)
Lemma ipcService_defined service st :
  service = TCLIB_NOTIFY_SESSION_CONFIG \/ keeps_sess service = false \/ live st ->
  lwp (ipcService ipc service) (fun _ _ => True) st.
Proof.
  intros Hs. apply lwp_bind, lwp_member. destruct (pTcLibInterface_ (ls_mod st)) as [h|] eqn:Eh; [|done].
  apply lwp_bind, lwp_update, lwp_bind.
  destruct (service ==? TCLIB_NOTIFY_SESSION_CONFIG) eqn:En; bool_norm.
  { subst service. cbn [keeps_sess]. apply lwp_ret, lwp_bind. unfold lwp at 1. cbn beta iota.
    unfold NotifySessionConfig. repeat case_match; done. }
  assert (forall st1, ready st1 ->
    lwp (sess ← (fun st => Some (ls_cur st, st)); r ← serve ipc sess service;
         end_request;; mret r : L H Z) (fun _ _ => True) st1) as Hrun.
  { intros st1 Hr. apply lwp_bind. unfold lwp at 1. cbn beta iota. apply lwp_bind.
    eapply lwp_mono; [by apply serve_total|]. done. }
  destruct (keeps_sess service) eqn:Ek.
  - apply lwp_ret, Hrun. destruct Hs as [->|[?|Hl]]; [done|done|].
    split; [exact Hl|]. cbn. rewrite Eh. by eexists.
  - apply lwp_update, Hrun. split; [done|]. cbn. rewrite Eh. by eexists.
Qed.

End Defined.

(** C33: every request to a participant is answered and has a defined effect,
    for all arguments, all handlers and all answers of the IPC library, if it
    is a notification, or its service sets [sess_], or [sess_] does not point
    to the session of an earlier request, as it may after a notification
    ([notification_never_uncounted]). Requests are served one at a time. *)
Theorem request_defined {H} `{TcLibInterface H} ipc service args (m : TcLibModule H) :
  service = TCLIB_NOTIFY_SESSION_CONFIG \/ keeps_sess service = false \/ sess_ m <> SDangling ->
  is_Some (request ipc service args m).
Proof.
  intros Hs. unfold request.
  destruct (lwp_result _ _ _ (ipcService_defined ipc service (mkLibSt m (mkSrv args []) []) Hs))
    as (r&st&->&_). by eexists.
Qed.

(** ** A handler for the examples *)

(** It refuses the calls that [refuses] says, names the drivers of
    [names], and writes nothing. *)
Record Acceptor := mkAcceptor {
  ac_type : Z;
  ac_refuses : HandlerCall -> bool;
  ac_names : TcDriverInfoMap
}.

#[export] Instance acceptor : TcLibInterface Acceptor := {
  Handle c h := PRet (mkHRes (if ac_refuses h c then TC_FAILURE else TC_SUCCESS)
                        (ac_names h) None, h);
  controller_type := ac_type;
  controller_type_const c h := eq_refl
}.

Definition agreeable (type : Z) : Acceptor := mkAcceptor type (fun _ => false) [].

Definition srv_ok : SrvIpc := mkSrvIpc (fun _ => 0) (fun _ _ => 0) (fun _ _ => 0).

(** UPLL with a registered handler, session 5 and configuration 1. *)
Definition upll : TcLibModule Acceptor :=
  set_config_id (set_session_id (set_handler lib_new (Some (agreeable UNC_CT_UNKNOWN))) 5) 1.

Lemma request_defined_witness :
  is_Some (request srv_ok TCLIB_COMMIT_TRANSACTION
    [VU8 (TcMsgOperType_value MSG_COMMIT_TRANS_START); VU32 5; VU32 1] upll).
Proof. apply request_defined. right. left. reflexivity. Defined.

(** ** The counter of requests *)

Section Counter.

Context {H : Type} `{TcLibInterface H} (ipc : SrvIpc).

(** Requests in turn. *)
Fixpoint requests (l : list (TcLibServiceId * list IpcValue)) (m : TcLibModule H)
    : option (TcLibModule H) :=
  match l with
  | [] => Some m
  | (service, args) :: l' =>
      match request ipc service args m with
      | Some (_, _, _, m') => requests l' m'
      | None => None
      end
  end.

Definition notification (p : TcLibServiceId * list IpcValue) : bool :=
  p.1 ==? TCLIB_NOTIFY_SESSION_CONFIG.
Definition notifications (l : list (TcLibServiceId * list IpcValue)) : nat :=
  length (List.filter notification l).

(** Services other than set-up and audit of the database. *)
Definition ordinary (service : TcLibServiceId) : bool :=
  (service ==? TCLIB_NOTIFY_SESSION_CONFIG) || negb (keeps_sess service).

(** What one request does to the counter and to [sess_]. *)
Definition counted service (m m' : TcLibModule H) : Prop :=
  is_Some (pTcLibInterface_ m') /\
  if service ==? TCLIB_NOTIFY_SESSION_CONFIG
  then request_counter_ m' = u32_inc (request_counter_ m) /\ sess_ m' = sess_ m
  else request_counter_ m' = u32_dec (u32_inc (request_counter_ m)) /\
    sess_ m' = if request_counter_ m' ==? 0 then SNull else SDangling.

Lemma ipcService_counted service (st : LibSt H) :
  ordinary service = true -> is_Some (pTcLibInterface_ (ls_mod st)) ->
  lwp (ipcService ipc service) (fun _ st' => counted service (ls_mod st) (ls_mod st')) st.
Proof.
  intros Hs [h Hh]. apply lwp_bind, lwp_member. rewrite Hh. apply lwp_bind, lwp_update, lwp_bind.
  unfold ordinary in Hs. unfold counted. destruct (service ==? TCLIB_NOTIFY_SESSION_CONFIG) eqn:En.
  - bool_norm. subst service. cbn [keeps_sess]. apply lwp_ret, lwp_bind. unfold lwp at 1. cbn beta iota.
    unfold NotifySessionConfig. repeat case_match; cbn; rewrite ?Hh; split_and!; by eexists || done.
  - apply negb_true_iff in Hs. rewrite Hs. apply lwp_update, lwp_bind. unfold lwp at 1. cbn beta iota.
    apply lwp_bind. eapply lwp_mono.
    + apply serve_total. split; [done|]. cbn. rewrite Hh. by eexists.
    + cbn beta. intros r st' (E1&E2&Hh'). apply lwp_bind, lwp_update, lwp_ret.
      unfold finish_request. cbn [ls_mod sess_ request_counter_ set_sess set_request_counter] in *. rewrite E1, E2.
      destruct (u32_dec _ ==? 0) eqn:E0; cbn [request_counter_ sess_ set_sess set_request_counter pTcLibInterface_];
        rewrite E0; split_and!; done.
Qed.

Lemma request_counted service args (m : TcLibModule H) :
  ordinary service = true -> is_Some (pTcLibInterface_ m) ->
  exists r out calls m', request ipc service args m = Some (r, out, calls, m') /\
    counted service m m'.
Proof.
  intros Hs Hh. unfold request.
  destruct (lwp_result _ _ _ (ipcService_counted service (mkLibSt m (mkSrv args []) []) Hs Hh))
    as (r&st&->&Hc). eauto 10.
Qed.

Lemma u32_dec_inc z : is_u32 z -> u32_dec (u32_inc z) = z.
Proof.
  intros Hz. unfold u32_dec, u32_inc. rewrite Zminus_mod_idemp_l.
  replace (z + 1 - 1) with z by lia. apply Z.mod_small. ulia.
Qed.

Lemma requests_counted l (m : TcLibModule H) :
  forallb (fun p => ordinary p.1) l = true -> is_Some (pTcLibInterface_ m) ->
  is_u32 (request_counter_ m) ->
  exists m', requests l m = Some m' /\ is_Some (pTcLibInterface_ m') /\
    request_counter_ m' = (request_counter_ m + Z.of_nat (notifications l)) mod UINT32_MOD.
Proof.
  revert m. induction l as [|[service args] l IH]; intros m Hl Hh Hc.
  { exists m. split_and!; [done|done|]. cbn. rewrite Z.add_0_r, Z.mod_small; [done|ulia]. }
  cbn in Hl. apply andb_true_iff in Hl as [Hs Hl]. cbn [requests].
  destruct (request_counted service args m Hs Hh) as (r&out&calls&m1&->&Hh1&Hm1).
  unfold notifications. cbn [List.filter]. unfold notification at 1. cbn [fst].
  destruct (service ==? TCLIB_NOTIFY_SESSION_CONFIG); destruct Hm1 as [Hc1 _].
  - assert (is_u32 (request_counter_ m1)) as Hu1
      by (rewrite Hc1; unfold u32_inc; pose proof (Z.mod_pos_bound (request_counter_ m + 1) UINT32_MOD); ulia).
    destruct (IH m1 Hl Hh1 Hu1) as (m2&->&Hh2&Hc2). exists m2. split_and!; [done|done|].
    rewrite Hc2, Hc1. unfold u32_inc. rewrite Zplus_mod_idemp_l. f_equal. cbn [length].
    unfold notifications. lia.
  - rewrite u32_dec_inc in Hc1 by done. rewrite <- Hc1 in Hc.
    destruct (IH m1 Hl Hh1 Hc) as (m2&->&Hh2&Hc2). exists m2. split_and!; [done|done|].
    rewrite Hc2, Hc1. done.
Qed.

End Counter.

(** The counter of requests counts the notifications, because a
    notification returns without decrementing it.  So [sess_] is reset at the
    end of a request only as long as no notification came; afterwards it is
    left pointing to the session of the last request. *)
Theorem notification_never_uncounted {H} `{TcLibInterface H} ipc l service args
    (m : TcLibModule H) :
  forallb (fun p => ordinary p.1) l = true -> keeps_sess service = false ->
  is_Some (pTcLibInterface_ m) -> request_counter_ m = 0 ->
  exists m' r out calls m'', requests ipc l m = Some m' /\
    request_counter_ m' = Z.of_nat (notifications l) mod UINT32_MOD /\
    request ipc service args m' = Some (r, out, calls, m'') /\
    sess_ m'' = if Z.of_nat (notifications l) mod UINT32_MOD ==? 0 then SNull else SDangling.
Proof.
  intros Hl Hs Hh Hc. destruct (requests_counted ipc l m Hl Hh) as (m'&E1&Hh'&Hc');
    [rewrite Hc; ulia|].
  assert (ordinary service = true) as Ho by (unfold ordinary; rewrite Hs; apply orb_true_r).
  destruct (request_counted ipc service args m' Ho Hh') as (r&out&calls&m''&E2&_&Hm2).
  rewrite bool_decide_eq_false_2 in Hm2 by (by intros ->). destruct Hm2 as [Hc2 Hs2].
  exists m', r, out, calls, m''. rewrite Hc, Z.add_0_l in Hc'. split_and!; [done|done|done|].
  rewrite Hs2, Hc2, Hc', u32_dec_inc; [done|].
  pose proof (Z.mod_pos_bound (Z.of_nat (notifications l)) UINT32_MOD). ulia.
Qed.

Lemma notification_never_uncounted_witness :
  exists m' r out calls m'',
    requests srv_ok [(TCLIB_NOTIFY_SESSION_CONFIG, [VU32 5; VU32 1])] upll = Some m' /\
    request srv_ok TCLIB_COMMIT_TRANSACTION
      [VU8 (TcMsgOperType_value MSG_COMMIT_TRANS_START); VU32 5; VU32 1] m' =
      Some (r, out, calls, m'') /\ sess_ m'' = SDangling.
Proof.
  destruct (notification_never_uncounted srv_ok
    [(TCLIB_NOTIFY_SESSION_CONFIG, [VU32 5; VU32 1])] TCLIB_COMMIT_TRANSACTION
    [VU8 (TcMsgOperType_value MSG_COMMIT_TRANS_START); VU32 5; VU32 1] upll)
    as (m'&r&out&calls&m''&E1&_&E2&E3); [reflexivity|reflexivity|by eexists|reflexivity|].
  exists m', r, out, calls, m''. split; [exact E1|]. split; [exact E2|]. rewrite E3.
  vm_compute. reflexivity.
Defined.
