(* ===== verification/TcLibCommit.v ===== *)
(** * A participant in a commit

    What a request of the commit protocol does to a participant, whatever its
    handler answers: which messages are admitted, when the handler is called,
    and the phase afterwards. *)

From S2P Require Import Prelude TcTypes TcIpc TcServer.
From S2P Require Import TcLibTypes TcLib TcLibServices TcLibProps TcLibTheorems.

Local Open Scope Z_scope.

Section Commit.

Context {H : Type} `{TcLibInterface H} (ipc : SrvIpc).
Implicit Type m : TcLibModule H.

(** ** Participants *)

Definition is_driver m : bool :=
  match pTcLibInterface_ m with
  | Some h => controller_type h !=? UNC_CT_UNKNOWN
  | None => false
  end.

(** The participant is the same: its identifiers and the kind of daemon. *)
Record same_participant m m' : Prop := {
  sp_session : l_session_id m' = l_session_id m;
  sp_config : l_config_id m' = l_config_id m;
  sp_driver : is_driver m' = is_driver m;
  sp_handler : is_Some (pTcLibInterface_ m')
}.

Lemma same_trans m1 m2 m3 :
  same_participant m1 m2 -> same_participant m2 m3 -> same_participant m1 m3.
Proof. intros [] []. split; congruence || done. Qed.

Definition in_order m (oper : TcMsgOperType) : bool :=
  if is_driver m then ValidateDriverCommitSequence (oper_state_ m) oper
  else ValidateUpllUpplCommitSequence (oper_state_ m) oper.

(** UPLL and UPPL also check the identifiers. *)
Definition known_ids m (sid cid : Z) : bool :=
  is_driver m || (validate_update sid cid m ==? TC_API_COMMON_SUCCESS).

Definition admits m (oper : TcMsgOperType) (sid cid : Z) : bool :=
  in_order m oper && known_ids m sid cid.

(** ** Requests *)

(** The module while it serves a request that uses [sess_]. *)
Definition begun m : TcLibModule H :=
  set_sess (set_request_counter m (u32_inc (request_counter_ m))) SCurrent.

Lemma finish_same m : same_participant m m -> same_participant m (finish_request m).
Proof. intros []. unfold finish_request. cbv zeta. destruct (_ ==? 0); split; done. Qed.

Lemma finish_oper m : oper_state_ (finish_request m) = oper_state_ m.
Proof. unfold finish_request. cbv zeta. by destruct (_ ==? 0). Qed.

(** A request is its service, between the two updates of the counter. *)
Lemma request_serve service args m
    (Q : Z -> list IpcValue -> list (HandlerCall * HandlerResult) -> TcLibModule H -> Prop) :
  keeps_sess service = false -> is_Some (pTcLibInterface_ m) ->
  lwp (serve ipc (mkSrv args []) service)
    (fun r st => Q r (ss_output (ls_cur st)) (ls_calls st) (finish_request (ls_mod st)))
    (mkLibSt (begun m) (mkSrv args []) []) ->
  exists r out calls m', request ipc service args m = Some (r, out, calls, m') /\
    Q r out calls m'.
Proof.
  intros Hs [h Hh] Hq. unfold request.
  assert (lwp (ipcService ipc service)
    (fun r st => Q r (ss_output (ls_cur st)) (ls_calls st) (ls_mod st))
    (mkLibSt m (mkSrv args []) [])) as Hw.
  { apply lwp_bind, lwp_member. cbn [ls_mod]. rewrite Hh. apply lwp_bind, lwp_update, lwp_bind.
    rewrite Hs. apply lwp_update, lwp_bind. unfold lwp at 1. cbn beta iota.
    rewrite bool_decide_eq_false_2 by (by intros ->). apply lwp_bind. exact Hq. }
  destruct (lwp_result _ _ _ Hw) as (r&st&->&Hr). eauto 10.
Qed.

(** The phase after a message that was admitted, by the handler's answer. *)
Definition phase_after (oper : TcMsgOperType) (answer : Z) : TcMsgOperType :=
  match oper with
  | MSG_COMMIT_TRANS_END => MSG_NONE
  | MSG_COMMIT_TRANS_START => if answer ==? TC_SUCCESS then oper else MSG_NONE
  | _ => oper
  end.

(** Messages whose answer may carry the drivers the handler named; the answer
    is FAILURE if they cannot be written. *)
Definition names_drivers (oper : TcMsgOperType) : bool :=
  (oper ==? MSG_COMMIT_VOTE) || (oper ==? MSG_COMMIT_GLOBAL).

(** The answer to a message that the handler answered with [r]. *)
Definition answers_with (oper : TcMsgOperType) (r : HandlerResult) (ret : Z) : Prop :=
  ret = hr_ret r \/ names_drivers oper = true /\ hr_ret r = TC_SUCCESS /\ ret = TC_FAILURE.

(** What a request may come to: [c] is the call of the handler it stands for. *)
Definition outcome m oper sid cid (c : HandlerCall) (ret : Z)
    (calls : list (HandlerCall * HandlerResult)) m' : Prop :=
  same_participant m m' /\
  if admits m oper sid cid then
    exists r, calls = [(c, r)] /\ possible c r /\ oper_state_ m' = phase_after oper (hr_ret r) /\
      answers_with oper r ret
  else ret = TC_FAILURE /\ calls = [] /\ oper_state_ m' = oper.

(** ** The checks *)

Definition with_oper (oper : TcMsgOperType) (st : LibSt H) : LibSt H :=
  mkLibSt (set_oper_state (ls_mod st) oper) (ls_cur st) (ls_calls st).

Lemma lwp_in_sequence oper k Q st :
  is_commit_oper oper = true ->
  (if in_order (ls_mod st) oper then lwp k Q (with_oper oper st)
   else Q TC_FAILURE (with_oper oper st)) ->
  lwp (in_sequence oper k) Q st.
Proof.
  intros Ho Hq. apply lwp_bind, lwp_bind, lwp_bind, lwp_member, lwp_ret, lwp_bind, lwp_member,
    lwp_bind, lwp_member. rewrite Ho. cbn [orb negb]. apply lwp_bind, lwp_update, lwp_ret.
  unfold in_order, is_driver in Hq. fold (with_oper oper st).
  destruct (pTcLibInterface_ (ls_mod st)) as [h|].
  - destruct (controller_type h ==? UNC_CT_UNKNOWN); cbn [negb] in Hq.
    + destruct (ValidateUpllUpplCommitSequence _ oper); exact Hq.
    + destruct (ValidateDriverCommitSequence _ oper); exact Hq.
  - change (UNC_CT_UNKNOWN ==? UNC_CT_UNKNOWN) with true. cbn iota.
    destruct (ValidateUpllUpplCommitSequence _ oper); exact Hq.
Qed.

Lemma lwp_valid_ids sid cid k Q (st : LibSt H) :
  (if validate_update sid cid (ls_mod st) ==? TC_API_COMMON_SUCCESS then lwp k Q st
   else Q TC_FAILURE st) ->
  lwp (valid_ids sid cid k) Q st.
Proof.
  intros Hq. apply lwp_bind, lwp_member. destruct (_ ==? TC_API_COMMON_SUCCESS); exact Hq.
Qed.

Lemma lwp_valid_ids_unless_driver sid cid k Q (st : LibSt H) :
  (if known_ids (ls_mod st) sid cid then lwp k Q st else Q TC_FAILURE st) ->
  lwp (valid_ids_unless_driver sid cid k) Q st.
Proof.
  intros Hq. apply lwp_bind, lwp_bind, lwp_member, lwp_ret. unfold known_ids, is_driver in Hq.
  destruct (pTcLibInterface_ (ls_mod st)) as [h|].
  - destruct (controller_type h ==? UNC_CT_UNKNOWN); [by apply lwp_valid_ids|exact Hq].
  - by apply lwp_valid_ids.
Qed.

Lemma lwp_registered k Q (st : LibSt H) :
  is_Some (pTcLibInterface_ (ls_mod st)) -> lwp k Q st -> lwp (registered k) Q st.
Proof. intros [h Hh] Hq. apply lwp_bind, lwp_member. by rewrite Hh. Qed.

Lemma lwp_with_msg {M} get (k : M -> L H Z) Q m args msg :
  get (Some (mkSrv args [])) = Some msg ->
  lwp (k msg) Q (mkLibSt (begun m) (mkSrv args []) []) ->
  lwp (with_msg get k) Q (mkLibSt (begun m) (mkSrv args []) []).
Proof.
  intros Hg Hk. apply lwp_bind, lwp_session; [done|].
  change (the_session _) with (Some (mkSrv args [])). by rewrite Hg.
Qed.

(** A message that is not in order, or whose identifiers are not known, is
    refused, but it becomes the phase. *)
Lemma refused m oper sid cid c st :
  is_Some (pTcLibInterface_ m) -> admits m oper sid cid = false ->
  ls_mod st = begun m -> ls_calls st = [] ->
  outcome m oper sid cid c TC_FAILURE (ls_calls (with_oper oper st))
    (finish_request (ls_mod (with_oper oper st))).
Proof.
  intros Hh Ha Hm Hc. unfold outcome. rewrite Ha. cbn. rewrite Hm, Hc. split.
  - eapply same_trans; [|apply finish_same]; split; done.
  - split_and!; [done|done|]. by rewrite finish_oper.
Qed.

(** ** Start, vote, global commit and end *)

Definition transaction_opers : list TcMsgOperType :=
  [MSG_COMMIT_TRANS_START; MSG_COMMIT_VOTE; MSG_COMMIT_GLOBAL; MSG_COMMIT_TRANS_END].

Definition transaction_call (msg : TcCommitTransactionMsg) : HandlerCall :=
  let sid := ct_session_id msg in
  let cid := ct_config_id msg in
  match ct_oper_type msg with
  | MSG_COMMIT_TRANS_START => HandleCommitTransactionStart sid cid
  | MSG_COMMIT_VOTE => HandleCommitVoteRequest sid cid
  | MSG_COMMIT_GLOBAL => HandleCommitGlobalCommit sid cid
  | _ => HandleCommitTransactionEnd sid cid (ct_end_result msg)
  end.

Lemma admitted m oper sid cid c r (st : LibSt H) ret :
  admits m oper sid cid = true -> same_participant m (ls_mod st) -> ls_calls st = [(c, r)] ->
  possible c r -> oper_state_ (ls_mod st) = phase_after oper (hr_ret r) -> answers_with oper r ret ->
  outcome m oper sid cid c ret (ls_calls st) (finish_request (ls_mod st)).
Proof.
  intros Ha Hs Hc Hpos Hp Hr. split.
  - eapply same_trans; [exact Hs|apply finish_same]. destruct Hs. split; done.
  - rewrite Ha. exists r. by rewrite finish_oper.
Qed.

Lemma handled_same c r (st st' : LibSt H) :
  handled c r st st' ->
  same_participant (ls_mod st) (ls_mod st') /\ ls_calls st' = ls_calls st ++ [(c, r)] /\
  oper_state_ (ls_mod st') = oper_state_ (ls_mod st) /\ sess_ (ls_mod st') = sess_ (ls_mod st).
Proof.
  intros (_&h&h'&cid&o&Hh&Ht&->). split_and!; [|done..]. split; try done.
  unfold is_driver. cbn. by rewrite Hh, Ht.
Qed.

Lemma kept_same (st st' : LibSt H) :
  is_Some (pTcLibInterface_ (ls_mod st)) -> kept st st' ->
  same_participant (ls_mod st) (ls_mod st') /\ ls_calls st' = ls_calls st /\
  oper_state_ (ls_mod st') = oper_state_ (ls_mod st).
Proof. intros Hh (c&o&->). split_and!; [|done..]. by split. Qed.

(** Writing the drivers ends with the handler's answer, or with a failure. *)
Lemma write_driver_info_kept r extra (st : LibSt H) :
  live st ->
  lwp (write_driver_info ipc r extra)
    (fun ret st' => kept st st' /\ (ret = hr_ret r \/ hr_ret r = TC_SUCCESS /\ ret = TC_FAILURE)) st.
Proof.
  intros Hl. unfold write_driver_info. destruct (hr_ret r ==? TC_SUCCESS) eqn:Er; bool_norm; cbn [negb].
  - apply lwp_bind. eapply lwp_mono; [by apply write_all_kept|]. cbn beta.
    intros [] st' Hk; apply lwp_ret; auto.
  - apply lwp_ret. split; [apply kept_refl|by left].
Qed.

(** The state in which the handler is called. *)
Record calling m oper (st : LibSt H) : Prop := {
  ca_same : same_participant m (ls_mod st);
  ca_oper : oper_state_ (ls_mod st) = oper;
  ca_live : live st;
  ca_calls : ls_calls st = []
}.

(** The handler is called once. *)
Lemma lwp_answer m oper c st0 (Q : HandlerResult -> LibSt H -> Prop) :
  calling m oper st0 ->
  (forall r st, same_participant m (ls_mod st) -> ls_calls st = [(c, r)] -> possible c r ->
     oper_state_ (ls_mod st) = oper -> live st -> Q r st) ->
  lwp (handle ipc c) Q st0.
Proof.
  intros [Hsm Hop Hl Hc0] Hq. eapply lwp_mono; [apply handle_handled; [done|apply Hsm]|]. cbn beta.
  intros r st Hr. destruct (handled_same _ _ _ _ Hr) as (Hs&Hc&Ho&Hp).
  apply Hq; [by eapply same_trans|by rewrite Hc, Hc0|apply Hr|congruence|unfold live; by rewrite Hp].
Qed.

Lemma same_release m m' : same_participant m m' -> same_participant m
  (set_results (set_oper_state m' MSG_NONE) ∅ ∅ []).
Proof. intros []. by split. Qed.

Section Taken.

Context (m : TcLibModule H) (sid cid : Z) (st0 : LibSt H).

(** The program [k] ends as the outcome of [oper] says. *)
Definition runs oper c (k : L H Z) : Prop :=
  admits m oper sid cid = true -> calling m oper st0 ->
  lwp k (fun ret st => outcome m oper sid cid c ret (ls_calls st) (finish_request (ls_mod st))) st0.

Lemma start_runs : runs MSG_COMMIT_TRANS_START (HandleCommitTransactionStart sid cid)
  (r ← handle_ret ipc (HandleCommitTransactionStart sid cid);
   (if r !=? TC_SUCCESS then ReleaseTransactionResources else mret tt);; mret r).
Proof.
  intros Ha Hst. apply lwp_bind, lwp_bind, (lwp_answer _ _ _ _ _ Hst). intros r st Hs Hc Hpos Ho Hl.
  apply lwp_ret, lwp_bind. destruct (hr_ret r ==? TC_SUCCESS) eqn:Er; cbn [negb].
  - apply lwp_ret, lwp_ret, (admitted _ _ _ _ _ r); [done..| |by left].
    cbn [phase_after]. by rewrite Er.
  - apply lwp_update, lwp_ret, (admitted _ _ _ _ _ r); [done|by apply same_release|done|done| |by left].
    cbn [phase_after]. by rewrite Er.
Qed.

Lemma end_runs e : runs MSG_COMMIT_TRANS_END (HandleCommitTransactionEnd sid cid e)
  (r ← handle_ret ipc (HandleCommitTransactionEnd sid cid e);
   ReleaseTransactionResources;; mret r).
Proof.
  intros Ha Hst. apply lwp_bind, lwp_bind, (lwp_answer _ _ _ _ _ Hst). intros r st Hs Hc Hpos Ho Hl.
  apply lwp_ret, lwp_bind, lwp_update, lwp_ret, (admitted _ _ _ _ _ r);
    [done|by apply same_release|done..|by left].
Qed.

Lemma vote_runs oper c :
  phase_after oper = (fun _ => oper) -> names_drivers oper = true ->
  runs oper c (r ← handle ipc c; write_driver_info ipc r []).
Proof.
  intros Hp Hn Ha Hst. apply lwp_bind, (lwp_answer _ _ _ _ _ Hst). intros r st Hs Hc Hpos Ho Hl.
  eapply lwp_mono; [by apply write_driver_info_kept|]. cbn beta. intros ret st' [Hk Hret].
  destruct (kept_same st st' (sp_handler _ _ Hs) Hk) as (Hs'&Hc'&Ho').
  apply (admitted _ _ _ _ _ r); [done|by eapply same_trans|by rewrite Hc'|done|by rewrite Ho', Hp|].
  destruct Hret as [|[]]; [by left|by right].
Qed.

(** The handler's answer is passed on. *)
Lemma answer_runs oper c : phase_after oper = (fun _ => oper) -> runs oper c (handle_ret ipc c).
Proof.
  intros Hp Ha Hst. apply lwp_bind, (lwp_answer _ _ _ _ _ Hst). intros r st Hs Hc Hpos Ho Hl.
  apply lwp_ret, (admitted _ _ _ _ _ r); [done..| |by left]. by rewrite Hp.
Qed.

End Taken.

Lemma calling_begun m oper args :
  is_Some (pTcLibInterface_ m) ->
  calling m oper (with_oper oper (mkLibSt (begun m) (mkSrv args []) [])).
Proof. by split. Qed.

Lemma commit_transaction_outcome args m msg :
  is_Some (pTcLibInterface_ m) -> GetCommitTransactionMsg (Some (mkSrv args [])) = Some msg ->
  ct_oper_type msg ∈ transaction_opers ->
  exists ret out calls m',
    request ipc TCLIB_COMMIT_TRANSACTION args m = Some (ret, out, calls, m') /\
    outcome m (ct_oper_type msg) (ct_session_id msg) (ct_config_id msg) (transaction_call msg)
      ret calls m'.
Proof.
  intros Hh Hg Ho. apply (request_serve _ _ _ (fun ret out => outcome _ _ _ _ _ ret)); [done..|].
  cbn [serve]. apply lwp_with_msg with (msg := msg); [done|]. apply lwp_in_sequence.
  { repeat (apply elem_of_cons in Ho as [->|Ho]; [done|]). by apply elem_of_nil in Ho. }
  change (in_order _ _) with (in_order m (ct_oper_type msg)).
  destruct (in_order m (ct_oper_type msg)) eqn:Ei.
  2: { apply refused; [done| |done|done]. unfold admits. by rewrite Ei. }
  apply lwp_valid_ids_unless_driver.
  change (known_ids _ _ _) with (known_ids m (ct_session_id msg) (ct_config_id msg)).
  destruct (known_ids m (ct_session_id msg) (ct_config_id msg)) eqn:Ek.
  2: { apply refused; [done| |done|done]. unfold admits. by rewrite Ei, Ek. }
  assert (admits m (ct_oper_type msg) (ct_session_id msg) (ct_config_id msg) = true) as Ha
    by (unfold admits; by rewrite Ei, Ek).
  unfold CommitTransStartEnd, CommitVoteGlobal, transaction_call.
  destruct msg as [oper sid cid e]. cbn [ct_oper_type ct_session_id ct_config_id ct_end_result] in *.
  repeat (apply elem_of_cons in Ho as [->|Ho]); [..|by apply elem_of_nil in Ho];
    (apply lwp_registered; [done|]).
  - apply start_runs; [done|by apply calling_begun].
  - apply vote_runs; [done..|by apply calling_begun].
  - apply vote_runs; [done..|by apply calling_begun].
  - apply end_runs; [done|by apply calling_begun].
Qed.

(** ** The other requests of a commit *)

Lemma commit_abort_outcome args m msg :
  is_Some (pTcLibInterface_ m) -> GetCommitGlobalAbortMsg (Some (mkSrv args [])) = Some msg ->
  cp_oper_type msg = MSG_COMMIT_ABORT ->
  exists ret out calls m',
    request ipc TCLIB_COMMIT_GLOBAL_ABORT args m = Some (ret, out, calls, m') /\
    outcome m MSG_COMMIT_ABORT (cp_session_id msg) (cp_config_id msg)
      (HandleCommitGlobalAbort (cp_session_id msg) (cp_config_id msg) (cp_phase msg))
      ret calls m'.
Proof.
  intros Hh Hg Ho. apply (request_serve _ _ _ (fun ret out => outcome _ _ _ _ _ ret)); [done..|].
  cbn [serve]. apply lwp_registered; [done|]. apply lwp_with_msg with (msg := msg); [done|].
  rewrite Ho. apply lwp_in_sequence; [done|].
  change (in_order _ _) with (in_order m MSG_COMMIT_ABORT).
  destruct (in_order m MSG_COMMIT_ABORT) eqn:Ei.
  2: { apply refused; [done| |done|done]. unfold admits. by rewrite Ei. }
  apply lwp_valid_ids_unless_driver.
  change (known_ids _ _ _) with (known_ids m (cp_session_id msg) (cp_config_id msg)).
  destruct (known_ids m (cp_session_id msg) (cp_config_id msg)) eqn:Ek.
  2: { apply refused; [done| |done|done]. unfold admits. by rewrite Ei, Ek. }
  apply answer_runs; [done| |by apply calling_begun]. unfold admits. by rewrite Ei, Ek.
Qed.

Definition driver_call (msg : TcCommitDrvVoteGlobalMsg) : HandlerCall :=
  match cv_oper_type msg with
  | MSG_COMMIT_DRIVER_VOTE =>
      HandleCommitVoteRequest_drv (cv_session_id msg) (cv_config_id msg) (cv_cntrl_list msg)
  | _ => HandleCommitGlobalCommit_drv (cv_session_id msg) (cv_config_id msg) (cv_cntrl_list msg)
  end.

(** Only drivers take these messages, and they know all identifiers. *)
Lemma driver_admits m oper sid cid :
  in_order m oper = true -> oper ∈ [MSG_COMMIT_DRIVER_VOTE; MSG_COMMIT_DRIVER_GLOBAL] ->
  admits m oper sid cid = true.
Proof.
  intros Hi Ho. unfold admits, known_ids. rewrite Hi. unfold in_order in Hi.
  destruct (is_driver m); [done|]. exfalso.
  repeat (apply elem_of_cons in Ho as [->|Ho]; [done|]). by apply elem_of_nil in Ho.
Qed.

Lemma commit_driver_outcome args m msg :
  is_Some (pTcLibInterface_ m) -> GetCommitDrvVoteGlobalMsg (Some (mkSrv args [])) = Some msg ->
  cv_oper_type msg ∈ [MSG_COMMIT_DRIVER_VOTE; MSG_COMMIT_DRIVER_GLOBAL] ->
  exists ret out calls m',
    request ipc TCLIB_COMMIT_DRV_VOTE_GLOBAL args m = Some (ret, out, calls, m') /\
    outcome m (cv_oper_type msg) (cv_session_id msg) (cv_config_id msg) (driver_call msg)
      ret calls m'.
Proof.
  intros Hh Hg Ho. apply (request_serve _ _ _ (fun ret out => outcome _ _ _ _ _ ret)); [done..|].
  cbn [serve]. apply lwp_registered; [done|]. apply lwp_with_msg with (msg := msg); [done|].
  apply lwp_in_sequence.
  { repeat (apply elem_of_cons in Ho as [->|Ho]; [done|]). by apply elem_of_nil in Ho. }
  change (in_order _ _) with (in_order m (cv_oper_type msg)).
  destruct (in_order m (cv_oper_type msg)) eqn:Ei.
  2: { apply refused; [done| |done|done]. unfold admits. by rewrite Ei. }
  pose proof (driver_admits m _ (cv_session_id msg) (cv_config_id msg) Ei Ho) as Ha.
  unfold driver_call.
  destruct msg as [oper sid cid n l]. cbn [cv_oper_type cv_session_id cv_config_id cv_cntrl_list] in *.
  repeat (apply elem_of_cons in Ho as [->|Ho]); [..|by apply elem_of_nil in Ho];
    (apply answer_runs; [done..|by apply calling_begun]).
Qed.

(** Only UPLL and UPPL take the results of the drivers. *)
Lemma result_order m oper :
  in_order m oper = true ->
  oper ∈ [MSG_COMMIT_VOTE_DRIVER_RESULT; MSG_COMMIT_GLOBAL_DRIVER_RESULT] -> is_driver m = false.
Proof.
  unfold in_order. destruct (is_driver m); [|done]. intros Hi Ho. exfalso.
  repeat (apply elem_of_cons in Ho as [->|Ho]; [done|]). by apply elem_of_nil in Ho.
Qed.

Lemma commit_result_outcome args m msg k :
  is_Some (pTcLibInterface_ m) -> GetCommitDrvResultMsg (Some (mkSrv args [])) = Some msg ->
  cp_oper_type msg ∈ [MSG_COMMIT_VOTE_DRIVER_RESULT; MSG_COMMIT_GLOBAL_DRIVER_RESULT] ->
  update_keys args = Some (TC_SUCCESS, k) ->
  exists ret out calls m',
    request ipc TCLIB_COMMIT_DRV_RESULT args m = Some (ret, out, calls, m') /\
    outcome m (cp_oper_type msg) (cp_session_id msg) (cp_config_id msg)
      (HandleCommitDriverResult (cp_session_id msg) (cp_config_id msg) (cp_phase msg)
         (kl_results k)) ret calls m'.
Proof.
  intros Hh Hg Ho Hk. apply (request_serve _ _ _ (fun ret out => outcome _ _ _ _ _ ret)); [done..|].
  cbn [serve]. apply lwp_registered; [done|]. apply lwp_with_msg with (msg := msg); [done|].
  apply lwp_in_sequence.
  { repeat (apply elem_of_cons in Ho as [->|Ho]; [done|]). by apply elem_of_nil in Ho. }
  change (in_order _ _) with (in_order m (cp_oper_type msg)).
  destruct (in_order m (cp_oper_type msg)) eqn:Ei.
  2: { apply refused; [done| |done|done]. unfold admits. by rewrite Ei. }
  pose proof (result_order _ _ Ei Ho) as Hd. apply lwp_valid_ids.
  change (validate_update _ _ _) with (validate_update (cp_session_id msg) (cp_config_id msg) m).
  destruct (validate_update _ _ m ==? TC_API_COMMON_SUCCESS) eqn:Ek.
  2: { apply refused; [done| |done|done]. unfold admits, known_ids. by rewrite Ei, Hd, Ek. }
  apply lwp_bind, lwp_bind, lwp_session; [done|]. change (the_session _) with (Some (mkSrv args [])).
  cbn iota. destruct (getArgCount (mkSrv args []) ==? 0) eqn:E0.
  { exfalso. unfold GetCommitDrvResultMsg, GetCommitPhaseMsg, nonempty in Hg. by rewrite E0 in Hg. }
  cbn [ss_args]. rewrite Hk. apply lwp_bind, lwp_update, lwp_ret.
  rewrite bool_decide_eq_true_2 by done. cbn [negb]. apply lwp_bind, lwp_member.
  apply answer_runs; [|unfold admits, known_ids; by rewrite Ei, Hd, Ek|by split].
  repeat (apply elem_of_cons in Ho as [->|Ho]; [done|]). by apply elem_of_nil in Ho.
Qed.

End Commit.
