(* ===== verification/TcLibSequence.v ===== *)
(** * Sequences of commit messages

    The requests of a commit as messages; what one does, which sequences a
    participant takes to the end, and how a participant can be left in a phase
    that it does not leave any more. *)

From S2P Require Import Prelude TcTypes TcIpc TcServer.
From S2P Require Import TcLibTypes TcLib TcLibServices TcLibProps TcLibTheorems TcLibCommit.

Local Open Scope Z_scope.

(** ** Messages *)

(** The message type, the identifiers and the call of the handler that a
    request of the commit protocol stands for; [None] for other requests, for
    a type the service is not meant for, and for results that cannot be
    read. *)
Definition commit_message (service : TcLibServiceId) (args : list IpcValue)
    : option (TcMsgOperType * Z * Z * HandlerCall) :=
  let s := Some (mkSrv args []) in
  match service with
  | TCLIB_COMMIT_TRANSACTION =>
      msg ← GetCommitTransactionMsg s;
      if bool_decide (ct_oper_type msg ∈ transaction_opers)
      then Some (ct_oper_type msg, ct_session_id msg, ct_config_id msg, transaction_call msg)
      else None
  | TCLIB_COMMIT_DRV_VOTE_GLOBAL =>
      msg ← GetCommitDrvVoteGlobalMsg s;
      if bool_decide (cv_oper_type msg ∈ [MSG_COMMIT_DRIVER_VOTE; MSG_COMMIT_DRIVER_GLOBAL])
      then Some (cv_oper_type msg, cv_session_id msg, cv_config_id msg, driver_call msg)
      else None
  | TCLIB_COMMIT_DRV_RESULT =>
      msg ← GetCommitDrvResultMsg s;
      match update_keys args with
      | Some (0, k) =>
          if bool_decide (cp_oper_type msg ∈
               [MSG_COMMIT_VOTE_DRIVER_RESULT; MSG_COMMIT_GLOBAL_DRIVER_RESULT])
          then Some (cp_oper_type msg, cp_session_id msg, cp_config_id msg,
                     HandleCommitDriverResult (cp_session_id msg) (cp_config_id msg)
                       (cp_phase msg) (kl_results k))
          else None
      | _ => None
      end
  | TCLIB_COMMIT_GLOBAL_ABORT =>
      msg ← GetCommitGlobalAbortMsg s;
      if cp_oper_type msg ==? MSG_COMMIT_ABORT
      then Some (MSG_COMMIT_ABORT, cp_session_id msg, cp_config_id msg,
                 HandleCommitGlobalAbort (cp_session_id msg) (cp_config_id msg) (cp_phase msg))
      else None
  | _ => None
  end.

Lemma commit_message_outcome {H} `{TcLibInterface H} ipc service args (m : TcLibModule H)
    oper sid cid c :
  is_Some (pTcLibInterface_ m) -> commit_message service args = Some (oper, sid, cid, c) ->
  exists ret out calls m', request ipc service args m = Some (ret, out, calls, m') /\
    outcome m oper sid cid c ret calls m'.
Proof.
  intros Hh Hm. unfold commit_message in Hm. destruct service; try done.
  - destruct (GetCommitTransactionMsg _) as [msg|] eqn:Eg; [|done]. cbn [mbind option_bind] in Hm.
    case_bool_decide; [|done]. injection Hm as <- <- <- <-. by apply commit_transaction_outcome.
  - destruct (GetCommitDrvVoteGlobalMsg _) as [msg|] eqn:Eg; [|done]. cbn [mbind option_bind] in Hm.
    case_bool_decide; [|done]. injection Hm as <- <- <- <-. by apply commit_driver_outcome.
  - destruct (GetCommitDrvResultMsg _) as [msg|] eqn:Eg; [|done]. cbn [mbind option_bind] in Hm.
    destruct (update_keys args) as [[[] k]|] eqn:Ek; try done.
    case_bool_decide; [|done]. injection Hm as <- <- <- <-. by apply commit_result_outcome.
  - destruct (GetCommitGlobalAbortMsg _) as [msg|] eqn:Eg; [|done]. cbn [mbind option_bind] in Hm.
    destruct (cp_oper_type msg ==? MSG_COMMIT_ABORT) eqn:Eo; [|done]. bool_norm.
    injection Hm as <- <- <- <-. by apply commit_abort_outcome.
Qed.

(** C8: what a request of the commit protocol does to a participant.  If the
    message may follow the last one and, for UPLL and UPPL, carries the
    identifiers they were notified of, then the handler is called, exactly
    once and with the contents of the message; its answer is the answer (but
    for drivers it named that cannot be written), and
    the transaction is in the phase of the message, or over after END or a
    START that the handler refused.  Otherwise the request fails, the handler
    is not called - but the message still becomes the phase. *)
Theorem commit_request_outcome {H} `{TcLibInterface H} ipc service args (m : TcLibModule H)
    oper sid cid c :
  is_Some (pTcLibInterface_ m) -> commit_message service args = Some (oper, sid, cid, c) ->
  exists ret out calls m', request ipc service args m = Some (ret, out, calls, m') /\
    same_participant m m' /\
    if admits m oper sid cid then
      exists r, calls = [(c, r)] /\ possible c r /\ oper_state_ m' = phase_after oper (hr_ret r) /\
        answers_with oper r ret
    else ret = TC_FAILURE /\ calls = [] /\ oper_state_ m' = oper.
Proof. apply commit_message_outcome. Qed.

Definition start_5_1 : list IpcValue :=
  [VU8 (TcMsgOperType_value MSG_COMMIT_TRANS_START); VU32 5; VU32 1].

Lemma commit_request_outcome_witness :
  exists ret out calls m',
    request srv_ok TCLIB_COMMIT_TRANSACTION start_5_1 upll = Some (ret, out, calls, m') /\
    oper_state_ m' = MSG_COMMIT_TRANS_START /\ ret = TC_SUCCESS.
Proof.
  destruct (commit_request_outcome srv_ok TCLIB_COMMIT_TRANSACTION start_5_1 upll
    MSG_COMMIT_TRANS_START 5 1 (HandleCommitTransactionStart 5 1)) as (ret&out&calls&m'&E&_&Ho);
    [by eexists|reflexivity|].
  assert ((fun p => (p.1.1.1, oper_state_ p.2)) <$>
    request srv_ok TCLIB_COMMIT_TRANSACTION start_5_1 upll =
    Some (TC_SUCCESS, MSG_COMMIT_TRANS_START)) as E' by (vm_compute; reflexivity).
  rewrite E in E'. injection E' as -> Hm'. exists TC_SUCCESS, out, calls, m'. auto.
Defined.

(** ** Transactions *)

Definition ordered (driver : bool) (phase oper : TcMsgOperType) : bool :=
  if driver then ValidateDriverCommitSequence phase oper
  else ValidateUpllUpplCommitSequence phase oper.

(** The phase after a sequence of messages that all reach a handler which
    agrees; [None] if one is refused. *)
Fixpoint accepts (driver : bool) (phase : TcMsgOperType) (l : list TcMsgOperType)
    : option TcMsgOperType :=
  match l with
  | [] => Some phase
  | o :: l' =>
      if ordered driver phase o then accepts driver (phase_after o TC_SUCCESS) l' else None
  end.

(** The transactions of UPLL and UPPL, and of a driver: given up after the
    start or the vote, aborted, or committed.  UPLL and UPPL may be told the
    results of the drivers after the vote and after the commit. *)
Inductive transaction : bool -> list TcMsgOperType -> Prop :=
| tr_given_up : transaction false [MSG_COMMIT_TRANS_START; MSG_COMMIT_TRANS_END]
| tr_voted : transaction false [MSG_COMMIT_TRANS_START; MSG_COMMIT_VOTE; MSG_COMMIT_TRANS_END]
| tr_aborted results :
    results = [] \/ results = [MSG_COMMIT_VOTE_DRIVER_RESULT] ->
    transaction false ([MSG_COMMIT_TRANS_START; MSG_COMMIT_VOTE] ++ results ++
      [MSG_COMMIT_ABORT; MSG_COMMIT_TRANS_END])
| tr_committed results results' :
    results = [] \/ results = [MSG_COMMIT_VOTE_DRIVER_RESULT] ->
    results' = [] \/ results' = [MSG_COMMIT_GLOBAL_DRIVER_RESULT] ->
    transaction false ([MSG_COMMIT_TRANS_START; MSG_COMMIT_VOTE] ++ results ++
      [MSG_COMMIT_GLOBAL] ++ results' ++ [MSG_COMMIT_TRANS_END])
| td_given_up : transaction true [MSG_COMMIT_TRANS_START; MSG_COMMIT_TRANS_END]
| td_voted :
    transaction true [MSG_COMMIT_TRANS_START; MSG_COMMIT_DRIVER_VOTE; MSG_COMMIT_TRANS_END]
| td_aborted :
    transaction true [MSG_COMMIT_TRANS_START; MSG_COMMIT_DRIVER_VOTE; MSG_COMMIT_ABORT;
      MSG_COMMIT_TRANS_END]
| td_committed :
    transaction true [MSG_COMMIT_TRANS_START; MSG_COMMIT_DRIVER_VOTE; MSG_COMMIT_DRIVER_GLOBAL;
      MSG_COMMIT_TRANS_END].

Lemma transaction_accepted driver t l :
  transaction driver t -> accepts driver MSG_NONE (t ++ l) = accepts driver MSG_NONE l.
Proof. intros []; destruct_or?; subst; reflexivity. Qed.

(** Walk along a sequence that is accepted, message by message, up to the end
    of the first transaction. *)
Ltac walk l Ha :=
  first
    [ lazymatch type of Ha with accepts _ MSG_NONE _ = _ => idtac end;
      match goal with |- exists t l', ?p = t ++ l' /\ _ =>
        let rec go q := lazymatch q with
          | ?o :: l => constr:([o])
          | ?o :: ?q' => let r := go q' in constr:(o :: r)
          end in
        let t := go p in exists t, l; split; [reflexivity|]; split; [|exact Ha];
        first [ constructor
              | exact (tr_aborted [] (or_introl eq_refl))
              | exact (tr_aborted [_] (or_intror eq_refl))
              | exact (tr_committed [] [] (or_introl eq_refl) (or_introl eq_refl))
              | exact (tr_committed [] [_] (or_introl eq_refl) (or_intror eq_refl))
              | exact (tr_committed [_] [] (or_intror eq_refl) (or_introl eq_refl))
              | exact (tr_committed [_] [_] (or_intror eq_refl) (or_intror eq_refl)) ]
      end
    | let o := fresh "o" in
      destruct l as [|o l]; [discriminate Ha|];
      destruct o; try discriminate Ha;
      match type of Ha with accepts ?d ?ph (?o' :: l) = _ =>
        change (accepts d (phase_after o' TC_SUCCESS) l = Some MSG_NONE) in Ha end;
      cbn [phase_after] in Ha; try change (TC_SUCCESS ==? TC_SUCCESS) with true in Ha;
      cbn iota in Ha; walk l Ha ].

Lemma accepted_transaction driver o l :
  accepts driver MSG_NONE (o :: l) = Some MSG_NONE ->
  exists t l', o :: l = t ++ l' /\ transaction driver t /\ accepts driver MSG_NONE l' = Some MSG_NONE.
Proof.
  intros Ha. destruct driver; destruct o; try discriminate Ha;
    match type of Ha with accepts ?d _ _ = _ =>
      change (accepts d MSG_COMMIT_TRANS_START l = Some MSG_NONE) in Ha end; walk l Ha.
Qed.

Lemma accepts_transactions driver l :
  accepts driver MSG_NONE l = Some MSG_NONE <->
  exists ts, l = concat ts /\ Forall (transaction driver) ts.
Proof.
  split.
  - assert (forall n l, (length l < n)%nat -> accepts driver MSG_NONE l = Some MSG_NONE ->
      exists ts, l = concat ts /\ Forall (transaction driver) ts) as Hn; [|by eauto].
    clear l. induction n as [|n IH]; intros l Hn Ha; [lia|].
    destruct l as [|o l]; [by exists []|].
    destruct (accepted_transaction driver o l Ha) as (t&l'&E&Ht&Ha').
    destruct (IH l') as (ts&->&Hts); [|done|].
    + rewrite E, length_app in Hn. destruct Ht; cbn in Hn; lia.
    + exists (t :: ts). split; [exact E|by constructor].
  - intros (ts&->&Hts). induction Hts as [|t ts Ht _ IH]; [done|].
    cbn [concat]. by rewrite transaction_accepted.
Qed.

(** ** Exchanges *)

(** A handler that agrees to everything. *)
Class Agreeable (H : Type) `{TcLibInterface H} : Prop :=
  agrees : forall c h, returns (fun p => hr_ret p.1 = TC_SUCCESS) (Handle c h).

Section Exchange.

Context {H : Type} `{TcLibInterface H} (ipc : SrvIpc).
Implicit Type m : TcLibModule H.

(** Requests in turn: the answers and the calls of the handler. *)
Fixpoint exchange (l : list (TcLibServiceId * list IpcValue)) m
    : option (list (Z * list (HandlerCall * HandlerResult)) * TcLibModule H) :=
  match l with
  | [] => Some ([], m)
  | (service, args) :: l' =>
      match request ipc service args m with
      | Some (ret, _, calls, m1) =>
          match exchange l' m1 with
          | Some (answers, m2) => Some ((ret, calls) :: answers, m2)
          | None => None
          end
      | None => None
      end
  end.

(** The request carries the message [o], with the identifiers of [m]. *)
Definition carries m (req : TcLibServiceId * list IpcValue) (o : TcMsgOperType) : Prop :=
  exists c, commit_message req.1 req.2 = Some (o, l_session_id m, l_config_id m, c).

Definition notified m : Prop :=
  l_session_id m <> TC_DEFAULT_VALUE /\ l_config_id m <> TC_DEFAULT_VALUE.

Lemma notified_known m : notified m -> known_ids m (l_session_id m) (l_config_id m) = true.
Proof.
  intros [Hs Hc]. unfold known_ids, validate_update. apply orb_true_iff. right.
  rewrite (bool_decide_eq_false_2 (l_session_id m = _)) by done.
  rewrite (bool_decide_eq_false_2 (l_config_id m = TC_DEFAULT_VALUE)) by done.
  by rewrite (bool_decide_eq_true_2 (l_session_id m = _)),
    (bool_decide_eq_true_2 (l_config_id m = _)) by done.
Qed.

Lemma same_carries m m' req o : same_participant m m' -> carries m req o -> carries m' req o.
Proof. intros [Es Ec _ _] (c&Hc). exists c. by rewrite Es, Ec. Qed.

Definition reached (a : Z * list (HandlerCall * HandlerResult)) : Prop := a.2 <> [].

Lemma exchange_accepts `{!Agreeable H} l opers m :
  is_Some (pTcLibInterface_ m) -> notified m -> Forall2 (carries m) l opers ->
  exists answers m', exchange l m = Some (answers, m') /\
    forall phase, accepts (is_driver m) (oper_state_ m) opers = Some phase <->
      Forall reached answers /\ oper_state_ m' = phase.
Proof.
  intros Hh Hn Hl. revert m Hh Hn Hl. revert opers.
  induction l as [|[service args] l IH]; intros opers m Hh Hn Hl; inversion Hl as [|? o ? os Hc Hl' E1 E2]; subst.
  { exists [], m. split; [done|]. cbn. intros phase. split; [by intros [= ->]|by intros [_ ->]]. }
  destruct Hc as (c&Hc). cbn [fst snd] in Hc.
  destruct (commit_message_outcome ipc service args m _ _ _ _ Hh Hc)
    as (ret&out&calls&m1&Er&Hs&Ho).
  destruct (IH os m1) as (answers&m2&Ex&Hiff).
  { apply Hs. }
  { destruct Hs as [Es Ec _ _]. unfold notified. by rewrite Es, Ec. }
  { eapply Forall2_impl; [|exact Hl']. intros req o'. by apply same_carries. }
  exists ((ret, calls) :: answers), m2. cbn [exchange]. rewrite Er, Ex. split; [done|].
  intros phase. specialize (Hiff phase). rewrite (sp_driver _ _ Hs) in Hiff.
  rewrite Forall_cons_iff. cbn [accepts].
  unfold admits in Ho. rewrite notified_known, andb_true_r in Ho by done.
  change (in_order m o) with (ordered (is_driver m) (oper_state_ m) o) in Ho.
  destruct (ordered (is_driver m) (oper_state_ m) o).
  - destruct Ho as (r&->&Hp&Hst&_). rewrite Hst, (Hp (fun r => hr_ret r = TC_SUCCESS)) in Hiff
      by apply agrees. rewrite Hiff. unfold reached at 2. cbn. naive_solver.
  - destruct Ho as (_&->&_). unfold reached at 1. cbn. naive_solver.
Qed.

End Exchange.

(** C34: the sequences of messages a participant takes to the end.  Sent to an
    idle participant whose handler agrees to everything, with the identifiers
    it was notified of, a sequence of commit messages is taken - every message
    reaches the handler, and the participant is idle again - exactly if it
    consists of whole transactions. *)
Theorem whole_transactions {H} `{TcLibInterface H} `{!Agreeable H} ipc l opers (m : TcLibModule H) :
  is_Some (pTcLibInterface_ m) -> notified m -> oper_state_ m = MSG_NONE ->
  Forall2 (carries m) l opers ->
  exists answers m', exchange ipc l m = Some (answers, m') /\
    (Forall reached answers /\ oper_state_ m' = MSG_NONE <->
     exists ts, opers = concat ts /\ Forall (transaction (is_driver m)) ts).
Proof.
  intros Hh Hn Hi Hl. destruct (exchange_accepts ipc l opers m Hh Hn Hl) as (answers&m'&Ex&Hiff).
  exists answers, m'. split; [exact Ex|]. rewrite <- accepts_transactions, <- Hiff. by rewrite Hi.
Qed.

(** A handler that agrees, for UPLL. *)
Inductive Yes := yes.

#[export] Instance yes_handler : TcLibInterface Yes := {
  Handle c h := PRet (mkHRes TC_SUCCESS [] None, h);
  controller_type _ := UNC_CT_UNKNOWN;
  controller_type_const c h := eq_refl
}.
#[export] Instance yes_agrees : Agreeable Yes.
Proof. by intros c h. Qed.

Definition upll_yes : TcLibModule Yes :=
  set_config_id (set_session_id (set_handler lib_new (Some yes)) 5) 1.

Definition commit_args (o : TcMsgOperType) : list IpcValue :=
  [VU8 (TcMsgOperType_value o); VU32 5; VU32 1].

(** A commit without drivers, with the results of none. *)
Definition commit_session : list (TcLibServiceId * list IpcValue) :=
  [(TCLIB_COMMIT_TRANSACTION, commit_args MSG_COMMIT_TRANS_START);
   (TCLIB_COMMIT_TRANSACTION, commit_args MSG_COMMIT_VOTE);
   (TCLIB_COMMIT_DRV_RESULT, commit_args MSG_COMMIT_VOTE_DRIVER_RESULT ++ [VU8 0]);
   (TCLIB_COMMIT_TRANSACTION, commit_args MSG_COMMIT_GLOBAL);
   (TCLIB_COMMIT_DRV_RESULT, commit_args MSG_COMMIT_GLOBAL_DRIVER_RESULT ++ [VU8 1]);
   (TCLIB_COMMIT_TRANSACTION, commit_args MSG_COMMIT_TRANS_END ++ [VU8 1])].

Lemma whole_transactions_witness :
  exists answers m', exchange srv_ok commit_session upll_yes = Some (answers, m') /\
    Forall reached answers /\ oper_state_ m' = MSG_NONE.
Proof.
  destruct (whole_transactions srv_ok commit_session
    [MSG_COMMIT_TRANS_START; MSG_COMMIT_VOTE; MSG_COMMIT_VOTE_DRIVER_RESULT; MSG_COMMIT_GLOBAL;
     MSG_COMMIT_GLOBAL_DRIVER_RESULT; MSG_COMMIT_TRANS_END] upll_yes)
    as (answers&m'&E&Hiff); [by eexists|done|done| |].
  { repeat constructor; eexists; reflexivity. }
  exists answers, m'. split; [exact E|]. apply Hiff.
  exists [[MSG_COMMIT_TRANS_START; MSG_COMMIT_VOTE; MSG_COMMIT_VOTE_DRIVER_RESULT; MSG_COMMIT_GLOBAL;
     MSG_COMMIT_GLOBAL_DRIVER_RESULT; MSG_COMMIT_TRANS_END]].
  split; [reflexivity|]. constructor; [|constructor].
  exact (tr_committed [_] [_] (or_intror eq_refl) (or_intror eq_refl)).
Defined.

(** ** A participant that is left in a phase *)

Section Blocked.

Context {H : Type} `{TcLibInterface H} (ipc : SrvIpc).
Implicit Type m : TcLibModule H.

(** A request to start a transaction, with any identifiers. *)
Definition is_start (req : TcLibServiceId * list IpcValue) : Prop :=
  exists sid cid c, commit_message req.1 req.2 = Some (MSG_COMMIT_TRANS_START, sid, cid, c).

(** Refused without a call of the handler. *)
Definition turned_down (a : Z * list (HandlerCall * HandlerResult)) : Prop := a = (TC_FAILURE, []).

Lemma start_turned_down m req sid cid c :
  is_Some (pTcLibInterface_ m) ->
  commit_message req.1 req.2 = Some (MSG_COMMIT_TRANS_START, sid, cid, c) ->
  oper_state_ m <> MSG_NONE \/ known_ids m sid cid = false ->
  exists out m1, request ipc req.1 req.2 m = Some (TC_FAILURE, out, [], m1) /\
    same_participant m m1 /\ oper_state_ m1 = MSG_COMMIT_TRANS_START.
Proof.
  intros Hh Hm Hr. destruct (commit_message_outcome ipc _ _ _ _ _ _ _ Hh Hm)
    as (ret&out&calls&m1&Er&Hs&Ho).
  assert (admits m MSG_COMMIT_TRANS_START sid cid = false) as Ha.
  { unfold admits. destruct Hr as [Hp| ->]; [|apply andb_false_r]. unfold in_order.
    destruct (is_driver m); cbn [ValidateDriverCommitSequence ValidateUpllUpplCommitSequence];
      by rewrite bool_decide_eq_false_2. }
  rewrite Ha in Ho. destruct Ho as (->&->&Ho). by exists out, m1.
Qed.

Lemma starts_turned_down l m :
  is_Some (pTcLibInterface_ m) -> oper_state_ m <> MSG_NONE -> Forall is_start l ->
  exists answers m', exchange ipc l m = Some (answers, m') /\ Forall turned_down answers /\
    oper_state_ m' <> MSG_NONE.
Proof.
  intros Hh Hp Hl. revert m Hh Hp. induction Hl as [|[service args] l (sid&cid&c&Hc) _ IH]; intros m Hh Hp.
  { by exists [], m. }
  destruct (start_turned_down m _ sid cid c Hh Hc (or_introl Hp)) as (out&m1&Er&Hs&Ho).
  destruct (IH m1) as (answers&m2&Ex&Ha&Hp2); [apply Hs|by rewrite Ho|].
  exists ((TC_FAILURE, []) :: answers), m2. cbn [exchange]. cbn [fst snd] in Er.
  rewrite Er, Ex. split_and!; [done|by constructor|done].
Qed.

End Blocked.

(** A START with identifiers that UPLL or UPPL was not notified of blocks
    it: the START is refused, but it becomes the phase, and from then on every
    START is refused without reaching the handler, whatever identifiers it
    carries. *)
Theorem refused_start_blocks {H} `{TcLibInterface H} ipc req l sid cid c (m : TcLibModule H) :
  is_Some (pTcLibInterface_ m) -> known_ids m sid cid = false ->
  commit_message req.1 req.2 = Some (MSG_COMMIT_TRANS_START, sid, cid, c) ->
  Forall is_start l ->
  exists answers m', exchange ipc (req :: l) m = Some (answers, m') /\
    Forall turned_down answers /\ oper_state_ m' <> MSG_NONE.
Proof.
  intros Hh Hk Hc Hl.
  destruct (start_turned_down ipc m req sid cid c Hh Hc (or_intror Hk)) as (out&m1&Er&Hs&Ho).
  destruct (starts_turned_down ipc l m1) as (answers&m2&Ex&Ha&Hp); [apply Hs|by rewrite Ho|done|].
  exists ((TC_FAILURE, []) :: answers), m2. destruct req as [service args]. cbn [exchange].
  cbn [fst snd] in Er. rewrite Er, Ex. split_and!; [done|by constructor|done].
Qed.

(** A START of session 6, then one of session 5, which UPLL knows. *)
Lemma refused_start_blocks_witness :
  exists answers m',
    exchange srv_ok
      [(TCLIB_COMMIT_TRANSACTION,
        [VU8 (TcMsgOperType_value MSG_COMMIT_TRANS_START); VU32 6; VU32 1]);
       (TCLIB_COMMIT_TRANSACTION, start_5_1)] upll_yes = Some (answers, m') /\
    Forall turned_down answers /\ oper_state_ m' <> MSG_NONE.
Proof.
  apply (refused_start_blocks srv_ok _ _ 6 1 (HandleCommitTransactionStart 6 1));
    [by eexists|reflexivity|reflexivity|].
  repeat constructor. do 3 eexists. reflexivity.
Defined.
