(* ===== verification/TcNetwork.v ===== *)
(** * The coordinator and its participants

    The transaction coordinator ([modules/tc]) calls the participants through
    the IPC library; each of them runs [modules/tclib].  Here the two models
    meet: an [Ipc] that delivers every request to the module behind the
    channel, and what a transaction start of the coordinator leaves behind in
    the participants. *)

From S2P Require Import Prelude TcTypes TcIpc TcMsg TcMsgProps TcMsgCommit TcMsgTheorems.
From S2P Require Import TcServer TcLibTypes TcLib TcLibServices TcLibProps TcLibTheorems.
From S2P Require Import TcLibCommit TcLibSequence.

Local Open Scope Z_scope.

(** ** The network *)

Section Network.

Context {H : Type} `{TcLibInterface H} (srv : SrvIpc).

(** The modules of the participants, by channel. *)
Implicit Type net : gmap string (TcLibModule H).

(** A request reaches the module behind the channel: the error, the answer,
    what was written, and the network afterwards. *)
Definition deliver (ch : string) (service : TcLibServiceId) (args : list IpcValue) net
    : Z * Z * list IpcValue * gmap string (TcLibModule H) :=
  match net !! ch with
  | None => (1, 0, [], net)
  | Some m =>
      match TcLibServices.request srv service args m with
      | Some (r, out, _, m') => (0, r, out, <[ch := m']> net)
      | None => (1, 0, [], net)
      end
  end.

(** The network after calls. *)
Fixpoint replay (cs : list Call) net : gmap string (TcLibModule H) :=
  match cs with
  | [] => net
  | (ch, service, args, _) :: cs' => replay cs' (deliver ch service args net).2
  end.

(** The IPC library over the network: requests that were made are in the
    trace, so the network is known from it. *)
Definition network_ipc net : Ipc :=
  mkIpc (fun _ ch => match net !! ch with Some _ => 0 | None => 1 end)
    (fun _ _ => 0) (fun _ _ => 0)
    (fun t ch service args => (deliver ch service args (replay (calls t) net)).1)
    (fun _ => 0).

Lemma replay_app cs cs' net : replay (cs ++ cs') net = replay cs' (replay cs net).
Proof. revert net. induction cs as [|[[[ch s] args] a] cs IH]; intros net; [done|apply IH]. Qed.

(** *** Methods over the network *)

Context (net0 : gmap string (TcLibModule H)).
Let ipc := network_ipc net0.

(** The network as it is now. *)
Definition now (w : World) : gmap string (TcLibModule H) := replay (calls (w_trace w)) net0.

Lemma now_log e w : calls [e] = [] -> now (log e w) = now w.
Proof. intros He. unfold now. cbn. by rewrite calls_app, He, app_nil_r. Qed.

Lemma now_slot v c w : now (set_slot v c w) = now w.
Proof. unfold now. by rewrite trace_set_slot. Qed.

Lemma now_call ch service args a w :
  now (log (EvInvoke ch service args a) w) = (deliver ch service args (now w)).2.
Proof. unfold now. cbn. by rewrite calls_app, replay_app. Qed.

Section Rules.

Context (v : SessRef) (st : MSt).
Let w := m_world st.

Lemma net_create ch service infinite (Q : unit -> MSt -> Prop) E :
  is_Some (net0 !! ch) ->
  (forall w', get_slot v w' = Some (mkSess ch service [] []) -> now w' = now w ->
     Q tt (mkMSt (m_data st) w')) ->
  wp (create ipc v ch service infinite) Q E st.
Proof.
  intros [d Hd] HQ. unfold create, wp, bind, io, create_tc_client_session. fold w.
  cbn [ipc network_ipc ipc_altopen ipc_settimeout]. rewrite Hd. cbn. rewrite andb_false_r.
  apply HQ; [apply get_set_slot|]. by rewrite now_slot, now_log.
Qed.

Lemma net_add c x (Q : unit -> MSt -> Prop) E :
  get_slot v w = Some c ->
  (forall w', get_slot v w' = Some (mkSess (cs_channel c) (cs_service c) (cs_output c ++ [x])
                                (cs_response c)) -> now w' = now w ->
     Q tt (mkMSt (m_data st) w')) ->
  wp (checked (add_output ipc v x)) Q E st.
Proof.
  intros Hs HQ. unfold checked, wp, bind, io, add_output. fold w. rewrite Hs. cbn.
  apply HQ; [apply get_set_slot|apply now_slot].
Qed.

Lemma net_add_close c x (Q : unit -> MSt -> Prop) E :
  get_slot v w = Some c ->
  (forall w', get_slot v w' = Some (mkSess (cs_channel c) (cs_service c) (cs_output c ++ [x])
                                (cs_response c)) -> now w' = now w ->
     Q tt (mkMSt (m_data st) w')) ->
  wp (checked_close v (add_output ipc v x)) Q E st.
Proof.
  intros Hs HQ. unfold checked_close, wp, bind, io, add_output. fold w. rewrite Hs. cbn.
  apply HQ; [apply get_set_slot|apply now_slot].
Qed.

Lemma net_close (Q : unit -> MSt -> Prop) E :
  (forall w', now w' = now w -> Q tt (mkMSt (m_data st) w')) -> wp (close v) Q E st.
Proof.
  intros HQ. unfold close, wp, io, tc_session_close. fold w. cbn. destruct (get_slot v w); apply HQ; [|done].
  by rewrite now_slot, now_log.
Qed.

Lemma net_invoke c ret out net' (Q : Z -> MSt -> Prop) E :
  get_slot v w = Some c ->
  deliver (cs_channel c) (cs_service c) (cs_output c) (now w) = (0, ret, out, net') ->
  (forall w', now w' = net' -> Q ret (mkMSt (m_data st) w')) ->
  wp (invoke ipc v) Q E st /\ wp (invoke_close ipc v) Q E st.
Proof.
  intros Hs Hd HQ. unfold invoke, invoke_close, wp, bind, io, tc_session_invoke. fold w. rewrite Hs.
  cbn [ipc network_ipc ipc_invoke]. change (replay (calls (w_trace w)) net0) with (now w).
  rewrite Hd. cbn. split; apply HQ; by rewrite now_slot, now_call, Hd.
Qed.

End Rules.

End Network.

(** ** A transaction start over the network *)

(** A handler answers a start and an end with SUCCESS or FAILURE: the return
    values that [uncxx/tclib/tclib_interface.hh] documents. *)
Class Decides (H : Type) `{TcLibInterface H} : Prop := {
  decides_start sid cid h :
    returns (fun p => hr_ret p.1 = TC_SUCCESS \/ hr_ret p.1 = TC_FAILURE)
      (Handle (HandleCommitTransactionStart sid cid) h);
  decides_end sid cid result h :
    returns (fun p => hr_ret p.1 = TC_SUCCESS \/ hr_ret p.1 = TC_FAILURE)
      (Handle (HandleCommitTransactionEnd sid cid result) h)
}.

Section Start.

Context {H : Type} `{TcLibInterface H} `{!Decides H} (srv : SrvIpc) (m : MsgData).
Implicit Type net : gmap string (TcLibModule H).

(** The participant behind a channel: it has a handler, takes the identifiers
    of the message, and is in the phase [phase]. *)
Definition in_phase net (phase : TcMsgOperType) (ch : string) : Prop :=
  exists d, net !! ch = Some d /\ is_Some (pTcLibInterface_ d) /\
    known_ids d (session_id_ m) (config_id_ m) = true /\ oper_state_ d = phase.

Lemma known_same (d d' : TcLibModule H) sid cid :
  same_participant d d' -> known_ids d' sid cid = known_ids d sid cid.
Proof. intros [Es Ec Ed _]. unfold known_ids, validate_update. by rewrite Es, Ec, Ed. Qed.

(** One message to a participant that admits it. *)
Lemma delivered net phase ch args oper c :
  in_phase net phase ch -> (forall d, ordered d phase oper = true) ->
  commit_message TCLIB_COMMIT_TRANSACTION args =
    Some (oper, session_id_ m, config_id_ m, c) ->
  names_drivers oper = false ->
  exists r out net', deliver srv ch TCLIB_COMMIT_TRANSACTION args net = (0, hr_ret r, out, net') /\
    possible c r /\ in_phase net' (phase_after oper (hr_ret r)) ch /\
    forall ch', ch' <> ch -> net' !! ch' = net !! ch'.
Proof.
  intros (d&Hd&Hh&Hk&Hp) Ho Hm Hn.
  destruct (commit_message_outcome srv _ args d _ _ _ _ Hh Hm) as (ret&out&calls&d'&Er&Hs&Hout).
  assert (admits d oper (session_id_ m) (config_id_ m) = true) as Ha.
  { unfold admits. rewrite Hk, andb_true_r. specialize (Ho (is_driver d)). rewrite <- Hp in Ho.
    exact Ho. }
  rewrite Ha in Hout. destruct Hout as (r&->&Hpos&Hph&Hret).
  destruct Hret as [-> |[E _]]; [|congruence].
  exists r, out, (<[ch := d']> net). unfold deliver. rewrite Hd, Er. split_and!; [done|done| |].
  - exists d'. split_and!; [by apply lookup_insert_eq|apply Hs|by rewrite (known_same _ _ _ _ Hs)|done].
  - intros ch' Hne. by apply lookup_insert_ne.
Qed.

Lemma in_phase_other net net' phase ch :
  net' !! ch = net !! ch -> in_phase net phase ch -> in_phase net' phase ch.
Proof. intros E (d&Hd&Hr). exists d. by rewrite E. Qed.

Lemma Forall_in_phase_other net net' phase chs :
  (forall ch, ch ∈ chs -> net' !! ch = net !! ch) ->
  Forall (in_phase net phase) chs -> Forall (in_phase net' phase) chs.
Proof.
  rewrite !list.Forall_forall. intros He Hp ch Hch. eapply in_phase_other; [by apply He|by apply Hp].
Qed.

Lemma start_message_read :
  commit_message TCLIB_COMMIT_TRANSACTION (start_args m) =
  Some (MSG_COMMIT_TRANS_START, session_id_ m, config_id_ m,
        HandleCommitTransactionStart (session_id_ m) (config_id_ m)).
Proof. reflexivity. Qed.

Lemma undo_message_read :
  commit_message TCLIB_COMMIT_TRANSACTION (undo_args m) =
  Some (MSG_COMMIT_TRANS_END, session_id_ m, config_id_ m,
        HandleCommitTransactionEnd (session_id_ m) (config_id_ m) 0).
Proof. reflexivity. Qed.

Lemma start_delivered net ch :
  in_phase net MSG_NONE ch ->
  exists ret out net',
    deliver srv ch TCLIB_COMMIT_TRANSACTION (start_args m) net = (0, ret, out, net') /\
    (ret = TC_SUCCESS /\ in_phase net' MSG_COMMIT_TRANS_START ch \/
     ret = TC_FAILURE /\ in_phase net' MSG_NONE ch) /\
    forall ch', ch' <> ch -> net' !! ch' = net !! ch'.
Proof.
  intros Hp. destruct (delivered net MSG_NONE ch _ MSG_COMMIT_TRANS_START _ Hp ltac:(by intros [])
    start_message_read eq_refl)
    as (r&out&net'&E&Hpos&Hph&Hne).
  exists (hr_ret r), out, net'. split; [exact E|]. split; [|exact Hne].
  destruct (Hpos (fun r => hr_ret r = TC_SUCCESS \/ hr_ret r = TC_FAILURE)) as [Er|Er];
    [apply decides_start|..]; rewrite Er in Hph; [by left|by right].
Qed.

(** A handler may refuse to end the transaction. *)
Definition end_refused : Prop :=
  exists r, possible (HandleCommitTransactionEnd (session_id_ m) (config_id_ m) 0) r /\
    hr_ret r = TC_FAILURE.

(** A refused end leaves the participant idle too. *)
Lemma undo_delivered net ch :
  in_phase net MSG_COMMIT_TRANS_START ch ->
  exists ret out net',
    deliver srv ch TCLIB_COMMIT_TRANSACTION (undo_args m) net = (0, ret, out, net') /\
    (ret = TC_SUCCESS \/ ret = TC_FAILURE /\ end_refused) /\
    in_phase net' MSG_NONE ch /\ forall ch', ch' <> ch -> net' !! ch' = net !! ch'.
Proof.
  intros Hp. destruct (delivered net MSG_COMMIT_TRANS_START ch _ MSG_COMMIT_TRANS_END _ Hp
    ltac:(by intros []) undo_message_read eq_refl) as (r&out&net'&E&Hpos&Hph&Hne).
  exists (hr_ret r), out, net'. split; [exact E|]. split; [|done].
  destruct (Hpos (fun r => hr_ret r = TC_SUCCESS \/ hr_ret r = TC_FAILURE)) as [Er|Er];
    [apply decides_end|by left|]. right. split; [exact Er|]. by exists r.
Qed.

(** *** The messages *)

Context (net0 : gmap string (TcLibModule H)).
Let ipc := network_ipc srv net0.
Hypothesis Hop : opertype_ m = MSG_COMMIT_TRANS_START.
Hypothesis Hids : 0 < session_id_ m /\ 0 < config_id_ m.

Let present_now (st : MSt) := now srv net0 (m_world st).

(** The channel is one of the network. *)
Definition connected (d : TcDaemonName) : Prop :=
  is_empty (chan m d) = false /\ is_Some (net0 !! chan m d).

(** From [st] the method keeps the members and changes the phase of [ch]. *)
Definition moved (ch : string) (phase : TcMsgOperType) (st st' : MSt) : Prop :=
  m_data st' = m_data st /\ in_phase (present_now st') phase ch /\
  forall ch', ch' <> ch -> present_now st' !! ch' = present_now st !! ch'.

(** Ending the transaction of [chs] in turn: all are idle, or the loop broke
    off at one, and those after it are still in the transaction. *)
Definition ended (chs : list string) (ok : bool) (st' : MSt) : Prop :=
  if ok then Forall (in_phase (present_now st') MSG_NONE) chs
  else exists p ch q, chs = p ++ ch :: q /\ end_refused /\
    Forall (in_phase (present_now st') MSG_NONE) (p ++ [ch]) /\
    Forall (in_phase (present_now st') MSG_COMMIT_TRANS_START) q.

(** A loop that ends the transaction of each participant in turn. *)
Lemma undo_loop body ds resp st :
  (forall d st, same_ids m (m_data st) -> connected d ->
     in_phase (present_now st) MSG_COMMIT_TRANS_START (chan m d) ->
     wp (body d) (fun r st' => (r = TC_SUCCESS \/ r = TC_FAILURE /\ end_refused) /\
                    moved (chan m d) MSG_NONE st st')
       (fun _ _ => False) st) ->
  same_ids m (m_data st) -> Forall connected ds -> NoDup (map (chan m) ds) ->
  Forall (in_phase (present_now st) MSG_COMMIT_TRANS_START) (map (chan m) ds) ->
  resp = TC_SUCCESS ->
  wp (notify_loop body ds resp)
    (fun r st' => (r = TC_SUCCESS \/ r = TC_FAILURE) /\ m_data st' = m_data st /\
       ended (map (chan m) ds) (r ==? TC_SUCCESS) st' /\
       forall ch, ch ∉ map (chan m) ds -> present_now st' !! ch = present_now st !! ch)
    (fun _ _ => False) st.
Proof.
  intros Hbody. revert resp st. induction ds as [|d ds IH]; intros resp st Hs Hc Hnd Hph ->;
    cbn [notify_loop map] in *.
  { apply wp_ret. split_and!; [by left|done|constructor|done]. }
  apply Forall_cons_iff in Hc as [Hd Hc]. apply Forall_cons_iff in Hph as [Hp Hph].
  apply list.NoDup_cons in Hnd as [Hni Hnd]. apply wp_bind.
  eapply wp_mono; [by apply Hbody| |done]. cbn beta. intros r st1 [Hr (Ed&Hp1&Hne)].
  assert (Forall (in_phase (present_now st1) MSG_COMMIT_TRANS_START) (map (chan m) ds)) as Hph1.
  { eapply Forall_in_phase_other; [|exact Hph]. intros ch Hch. apply Hne. by intros ->. }
  assert (forall st2 : MSt, (forall ch, ch ∉ map (chan m) ds ->
      present_now st2 !! ch = present_now st1 !! ch) ->
    forall ch, ch ∉ chan m d :: map (chan m) ds -> present_now st2 !! ch = present_now st !! ch) as Hout.
  { intros st2 H2 ch Hch. apply not_elem_of_cons in Hch as [H1 H3]. rewrite H2 by done. by apply Hne. }
  destruct Hr as [-> |[-> Href]].
  - change (TC_SUCCESS ==? TC_FAILURE) with false. cbn iota.
    eapply wp_mono; [apply IH; [by rewrite Ed|done|done|done|done]| |done].
    cbn beta. intros r st2 (Hr&Ed2&Hen&Hne2). split_and!; [done|congruence| |by apply Hout].
    assert (in_phase (present_now st2) MSG_NONE (chan m d)) as Hd2.
    { eapply in_phase_other; [by apply Hne2|done]. }
    unfold ended in *. destruct (r ==? TC_SUCCESS); [by constructor|].
    destruct Hen as (p&ch&q&->&Href&Ho&Hin). exists (chan m d :: p), ch, q.
    split_and!; [done|done| |done]. by constructor.
  - change (TC_FAILURE ==? TC_FAILURE) with true. cbn iota. apply wp_ret.
    split_and!; [by right|done| |by apply Hout].
    exists [], (chan m d), (map (chan m) ds). split_and!; [done|done|by constructor|done].
Qed.

(** The same of the vector of those started, which is ended from its end. *)
Definition undone (chs : list string) (ok : bool) (st' : MSt) : Prop :=
  if ok then Forall (in_phase (present_now st') MSG_NONE) chs
  else exists p ch q, chs = p ++ ch :: q /\ end_refused /\
    Forall (in_phase (present_now st') MSG_COMMIT_TRANS_START) p /\
    Forall (in_phase (present_now st') MSG_NONE) (ch :: q).

Lemma ended_undone chs ok st' : ended (rev chs) ok st' -> undone chs ok st'.
Proof.
  unfold ended, undone. destruct ok.
  - intros H1. apply List.Forall_rev in H1. by rewrite rev_involutive in H1.
  - intros (p&ch&q&E&Href&H1&H2). exists (rev q), ch, (rev p).
    apply (f_equal (@rev _)) in E. rewrite rev_involutive, rev_app_distr in E. cbn in E.
    rewrite <- app_assoc in E. cbn in E. split_and!; [done|done|by apply List.Forall_rev|].
    apply List.Forall_rev in H1. by rewrite rev_app_distr in H1.
Qed.

Lemma undo_all vec st :
  same_ids m (m_data st) -> Forall connected vec -> NoDup (map (chan m) vec) ->
  Forall (in_phase (present_now st) MSG_COMMIT_TRANS_START) (map (chan m) vec) ->
  wp (SendTransEndRequest ipc vec)
    (fun r st' => m_data st' = m_data st /\
       undone (map (chan m) vec) (r ==? TCOPER_RET_SUCCESS) st' /\
       forall ch, ch ∉ map (chan m) vec -> present_now st' !! ch = present_now st !! ch)
    (fun _ _ => False) st.
Proof.
  intros Hs Hc Hnd Hph. apply wp_method, wp_bind.
  eapply wp_mono; [apply undo_loop| |done].
  - clear st Hs Hph. intros d st Hs [He Hn] Hp.
    apply wp_bind, wp_bind, wp_get. change (default _ _) with (chan (m_data st) d).
    rewrite (chan_same m) by done. rewrite He. apply wp_ret, wp_bind, net_create; [done|].
    intros w1 S1 N1. apply wp_bind; eapply net_add_close; [exact S1|]. intros w2 S2 N2.
    apply wp_bind, wp_get, wp_bind, wp_get. cbn [m_data]. destruct Hs as (Es&Ec&_). rewrite Es, Ec.
    rewrite (bool_decide_eq_true_2 (0 < session_id_ m)), (bool_decide_eq_true_2 (0 < config_id_ m)) by apply Hids.
    cbn [andb]. apply wp_bind, wp_bind; eapply net_add_close; [exact S2|]. intros w3 S3 N3.
    eapply net_add_close; [exact S3|]. intros w4 S4 N4.
    apply wp_bind; eapply net_add_close; [exact S4|]. intros w5 S5 N5. apply wp_bind.
    destruct (undo_delivered _ _ Hp) as (ret&out&net'&E&Hret&Hp'&Hne).
    unfold present_now in *. cbn [m_data m_world] in *.
    eapply net_invoke; [exact S5| |].
    { cbn [cs_channel cs_service cs_output app]. cbn [m_world]. rewrite N5, N4, N3, N2, N1. exact E. }
    intros w6 N6. apply wp_bind, (net_close srv net0). cbn [m_data m_world]. intros w7 N7. apply wp_ret.
    split; [exact Hret|]. unfold moved, present_now. cbn [m_data m_world]. rewrite N7, N6. split_and!; done.
  - done.
  - rewrite list.Forall_forall in Hc |- *. intros d Hd. apply Hc.
    by rewrite list_elem_of_In, in_rev, <- list_elem_of_In.
  - rewrite map_rev. apply NoDup_ListNoDup, List.NoDup_rev. by apply NoDup_ListNoDup.
  - rewrite map_rev. by apply List.Forall_rev.
  - done.
  - cbn beta. intros r st' (Hr&Ed&Hen&Hne). rewrite map_rev in Hen, Hne. apply ended_undone in Hen.
    apply wp_ret. split_and!; [done| |].
    + by destruct Hr as [-> | ->].
    + intros ch Hch. apply Hne. by rewrite list_elem_of_In, <- in_rev, <- list_elem_of_In.
Qed.

(** How a start that was refused ends: ABORT with everyone idle, or FATAL
    with the first of the participants still in the transaction. *)
Definition refused (chs : list string) (r : TcOperRet) (st' : MSt) : Prop :=
  r = TCOPER_RET_ABORT /\ undone chs true st' \/ r = TCOPER_RET_FATAL /\ undone chs false st'.

Lemma undone_app chs chs' ok st' :
  undone chs ok st' -> Forall (in_phase (present_now st') MSG_NONE) chs' ->
  undone (chs ++ chs') ok st'.
Proof.
  unfold undone. destruct ok; [intros; by apply Forall_app|].
  intros (p&ch&q&->&Href&H1&H2) H3. exists p, ch, (q ++ chs'). rewrite <- app_assoc.
  split_and!; [done|done|done|]. rewrite app_comm_cons. by apply Forall_app.
Qed.

(** The start is sent to one participant, with those of [vec] started: it is
    started too, or nobody is. *)
Lemma start_one d0 st :
  let vec := abort_on_fail_ (m_data st) in
  same_ids m (m_data st) -> connected d0 -> Forall connected vec ->
  NoDup (map (chan m) (vec ++ [d0])) ->
  Forall (in_phase (present_now st) MSG_COMMIT_TRANS_START) (map (chan m) vec) ->
  in_phase (present_now st) MSG_NONE (chan m d0) ->
  wp (CommitTransaction_SendRequest ipc (chan m d0))
    (fun r st' =>
       r = TCOPER_RET_SUCCESS /\ moved (chan m d0) MSG_COMMIT_TRANS_START st st' \/
       refused (map (chan m) (vec ++ [d0])) r st' /\
       forall ch, ch ∉ map (chan m) (vec ++ [d0]) -> present_now st' !! ch = present_now st !! ch)
    (fun _ _ => False) st.
Proof.
  intros vec Hs [He Hn] Hc Hnd Hph Hp. rewrite map_app in *. cbn [map] in *.
  apply list.NoDup_app in Hnd as (Hnd&Hni&_).
  assert (chan m d0 ∉ map (chan m) vec) as Hd by (intros Hin; apply (Hni _ Hin); left).
  apply wp_method, wp_bind, net_create; [done|]. intros w1 S1 N1.
  apply wp_bind, wp_get. cbn [m_data]. destruct Hs as (Es&Ec&Eo&Ech). rewrite Eo, Hop.
  apply wp_bind. eapply net_add; [exact S1|]. intros w2 S2 N2.
  apply wp_bind, wp_get, wp_bind. eapply net_add; [exact S2|]. intros w3 S3 N3.
  apply wp_bind, wp_get, wp_bind. eapply net_add; [exact S3|]. intros w4 S4 N4.
  apply wp_bind, wp_ret, wp_bind. cbn [m_data m_world] in *. unfold present_now in *.
  destruct (start_delivered _ _ Hp) as (resp&out&net'&E&Hr&Hne).
  eapply net_invoke; [exact S4| |].
  { cbn [cs_channel cs_service cs_output app m_world]. rewrite N4, N3, N2, N1, Es, Ec. exact E. }
  cbn [m_data m_world]. intros w5 N5. apply wp_bind. destruct Hr as [[-> Hp']|[-> Hp']].
  - apply wp_ret. apply wp_bind, (net_close srv net0). intros w6 N6. apply wp_ret. left.
    split; [done|]. unfold moved, present_now. cbn [m_data m_world] in *. rewrite N6, N5. done.
  - change (TC_FAILURE ==? TC_SUCCESS) with false. change (TC_FAILURE ==? TC_FAILURE) with true.
    cbn [andb]. rewrite bool_decide_eq_true_2 by done. apply wp_bind, wp_modify, wp_bind, wp_get.
    cbn [m_data set_trans_result abort_on_fail_]. fold vec.
    assert (forall r d w, (forall ch, ch ∉ map (chan m) vec -> now srv net0 w !! ch = net' !! ch) ->
      refused (map (chan m) vec) r (mkMSt d w) ->
      refused (map (chan m) vec ++ [chan m d0]) r (mkMSt d w) /\
      forall ch, ch ∉ map (chan m) vec ++ [chan m d0] -> now srv net0 w !! ch = now srv net0 (m_world st) !! ch)
      as Hfin.
    { intros r d w Hout Hun. split.
      - assert (Forall (in_phase (present_now (mkMSt d w)) MSG_NONE) [chan m d0]) as Hd0.
        { constructor; [|constructor]. eapply in_phase_other; [by apply Hout|done]. }
        destruct Hun as [[-> Hun]|[-> Hun]]; [left|right]; split; try done; by apply undone_app.
      - intros ch Hch. apply not_elem_of_app in Hch as [H1 H2]. rewrite Hout by done. apply Hne.
        intros ->. apply H2. left. }
    destruct vec as [|d1 vec'] eqn:Ev.
    + apply wp_ret, wp_bind, wp_ret, wp_ret. right.
      apply Hfin; cbn [m_world]; [by rewrite N5|left; split; [done|constructor]].
    + rewrite <- Ev in *. apply wp_bind.
      eapply wp_mono; [apply undo_all; [done|done|done|]| |done].
      * unfold present_now. cbn [m_world]. rewrite N5. eapply Forall_in_phase_other; [|exact Hph].
        intros ch Hch. apply Hne. by intros ->.
      * intros r [d w] (_&Hun&Hout). unfold present_now in Hout. cbn [m_data m_world] in *. rewrite N5 in Hout.
        apply wp_ret, wp_bind. destruct (r ==? TCOPER_RET_SUCCESS); apply wp_ret, wp_ret; right;
          apply Hfin; [done|by left|done|by right].
Qed.

Lemma start_loop l st :
  let all := abort_on_fail_ (m_data st) ++ present m l in
  same_ids m (m_data st) -> Forall connected all -> NoDup (map (chan m) all) ->
  Forall (in_phase (present_now st) MSG_COMMIT_TRANS_START)
    (map (chan m) (abort_on_fail_ (m_data st))) ->
  Forall (in_phase (present_now st) MSG_NONE) (map (chan m) (present m l)) ->
  wp (transaction_loop ipc l TCOPER_RET_SUCCESS)
    (fun r st' => r = TCOPER_RET_SUCCESS /\
       Forall (in_phase (present_now st') MSG_COMMIT_TRANS_START) (map (chan m) all))
    (refused (map (chan m) all)) st.
Proof.
  revert st. induction l as [|d l IH]; intros st all Hs Hc Hnd Hst Hno; unfold all in *; cbn [transaction_loop].
  { apply wp_ret. by rewrite app_nil_r. }
  apply wp_bind, wp_get. change (default _ _) with (chan (m_data st) d). rewrite (chan_same m) by done.
  unfold present in *. cbn [List.filter] in *. destruct (is_empty (chan m d)) eqn:He; cbn [negb] in *.
  { by apply IH. }
  fold (present m l) in *. cbn [map] in Hno. apply Forall_cons_iff in Hno as [Hd Hno].
  apply Forall_app in Hc as [Hc1 Hc2]. apply Forall_cons_iff in Hc2 as [Hcd Hc2].
  rewrite cons_middle, app_assoc in Hnd.
  assert (NoDup (map (chan m) (abort_on_fail_ (m_data st) ++ [d])) /\
    forall ch, ch ∈ map (chan m) (present m l) ->
      ch ∉ map (chan m) (abort_on_fail_ (m_data st) ++ [d])) as [Hnd1 Hout].
  { rewrite map_app in Hnd. apply list.NoDup_app in Hnd as (H1&H2&_). split; [done|].
    intros ch Hch Hin. by apply (H2 ch). }
  apply wp_bind. eapply wp_mono; [by apply start_one| |done]. cbn beta.
  intros r st1 [[-> (Ed&Hp&Hne)]|(Hall&Hne)].
  - change (TCOPER_RET_SUCCESS !=? TCOPER_RET_SUCCESS) with false. apply wp_bind, wp_modify.
    assert (abort_on_fail_ (m_data st1) ++ [d] = abort_on_fail_ (m_data st) ++ [d]) as Ev by (by rewrite Ed).
    eapply wp_mono; [apply IH|..]; cbn [m_data set_abort_on_fail abort_on_fail_]; rewrite ?Ev.
    + rewrite Ed. by destruct Hs as (?&?&?&?); repeat split.
    + apply Forall_app. split; [|done]. apply Forall_app. split; [done|by constructor].
    + done.
    + rewrite map_app. apply Forall_app. split; [|by constructor].
      eapply Forall_in_phase_other; [|exact Hst]. intros ch Hch. apply Hne. intros ->.
      rewrite map_app in Hnd1. apply list.NoDup_app in Hnd1 as (_&H2&_). apply (H2 _ Hch). left.
    + eapply Forall_in_phase_other; [|exact Hno]. intros ch Hch. apply Hne. intros ->.
      apply (Hout _ Hch). rewrite map_app. apply elem_of_app. right. left.
    + intros r st2 [-> H2]. rewrite <- app_assoc in H2. by split.
    + intros r st2 H2. by rewrite <- app_assoc in H2.
  - assert (Forall (in_phase (present_now st1) MSG_NONE) (map (chan m) (present m l))) as Hno1.
    { eapply Forall_in_phase_other; [|exact Hno]. intros ch Hch. apply Hne. by apply Hout. }
    assert ((r !=? TCOPER_RET_SUCCESS) = true) as -> by (by destruct Hall as [[-> _]|[-> _]]).
    apply wp_leave. rewrite cons_middle, app_assoc, map_app.
    destruct Hall as [[-> Hun]|[-> Hun]]; [left|right]; (split; [done|by apply undone_app]).
Qed.

End Start.

(** The channels of those who take part in a message. *)
Definition participants (m : MsgData) : list string := map (chan m) (present m commit_start_order).

(** C7: what a transaction start of the coordinator leaves behind in the
    participants.  With every participant idle, reachable over its own channel
    and notified of the identifiers, and handlers that answer a start and an
    end with one of the documented values, there are three outcomes: SUCCESS,
    and every participant is in the transaction; ABORT, because a handler
    refused, and every participant is idle again - those started before the
    refusal too; or FATAL, because a handler refused the start and another
    one refused the end that was to undo it: the undoing goes from the last
    participant started to the first and breaks off there, so the
    participants from that one on are idle and those before it are left in the
    transaction. *)
Theorem start_all_or_none {H} `{TcLibInterface H} `{!Decides H} srv m
    (net : gmap string (TcLibModule H)) :
  opertype_ m = MSG_COMMIT_TRANS_START -> 0 < session_id_ m -> 0 < config_id_ m ->
  abort_on_fail_ m = [] -> NoDup (participants m) ->
  Forall (in_phase m net MSG_NONE) (participants m) ->
  exists r st', CommitTransaction_Execute (network_ipc srv net) (mkMSt m world_new) = (inl r, st') /\
  let net' := now srv net (m_world st') in
  (r = TCOPER_RET_SUCCESS /\ Forall (in_phase m net' MSG_COMMIT_TRANS_START) (participants m) \/
   r = TCOPER_RET_ABORT /\ Forall (in_phase m net' MSG_NONE) (participants m) \/
   r = TCOPER_RET_FATAL /\ end_refused (H := H) m /\
     exists left_in back, participants m = left_in ++ back /\
       Forall (in_phase m net' MSG_COMMIT_TRANS_START) left_in /\
       Forall (in_phase m net' MSG_NONE) back).
Proof.
  intros Hop Hsid Hcid Hvec Hnd Hph. apply wp_returns.
  apply wp_method. apply wp_bind, wp_get, wp_bind, wp_get, wp_bind. cbn [m_data].
  rewrite !bool_decide_eq_false_2 by lia. apply wp_ret, wp_bind, wp_get. cbn [m_data].
  rewrite Hop. apply wp_bind, wp_ret, wp_bind.
  eapply wp_mono; [apply (start_loop srv m net Hop (conj Hsid Hcid)); cbn [m_data]; rewrite ?Hvec|..].
  - done.
  - cbn [app]. apply list.Forall_forall. intros d Hd. unfold participants in Hph.
    rewrite list.Forall_forall in Hph. destruct (Hph (chan m d)) as (x&Hx&_).
    { by apply list_elem_of_fmap_2. }
    split; [|by eexists]. unfold present in Hd. apply list_elem_of_In, filter_In in Hd as [_ Hd].
    by destruct (is_empty (chan m d)).
  - done.
  - constructor.
  - done.
  - cbn beta. intros r st' [-> Hall]. apply wp_bind, wp_modify, wp_ret. left. cbn [m_data] in Hall. by rewrite Hvec in Hall.
  - cbn [m_data]. rewrite Hvec. intros r st' [[-> Hall]|[-> (p&ch&q&E&Href&Hp&Hq)]]; right; [by left|].
    right. split_and!; [done|done|]. by exists p, (ch :: q).
Qed.

(** A daemon with controllers of a type, that may refuse to start and may
    refuse to end. *)
Record Peer := mkPeer {
  peer_type : Z;
  peer_refuses : bool;
  peer_refuses_end : bool
}.

#[export] Instance peer_handler : TcLibInterface Peer := {
  Handle c h :=
    PRet (mkHRes (match c with
                  | HandleCommitTransactionStart _ _ =>
                      if peer_refuses h then TC_FAILURE else TC_SUCCESS
                  | HandleCommitTransactionEnd _ _ _ =>
                      if peer_refuses_end h then TC_FAILURE else TC_SUCCESS
                  | _ => TC_SUCCESS
                  end) [] None, h);
  controller_type := peer_type;
  controller_type_const c h := eq_refl
}.

#[export] Instance peer_decides : Decides Peer.
Proof.
  split; intros; cbn; [destruct (peer_refuses h)|destruct (peer_refuses_end h)]; auto.
Qed.

Definition peer (type : Z) (refuses refuses_end : bool) : TcLibModule Peer :=
  set_config_id (set_session_id (set_handler lib_new (Some (mkPeer type refuses refuses_end))) 5) 1.

(** The ODL driver, UPLL, which may refuse to end, and UPPL, which refuses to
    start. *)
Definition daemons (upll_stays : bool) : gmap string (TcLibModule Peer) :=
  {[ "odl"%string := peer UNC_CT_ODC false false;
     "upll"%string := peer UNC_CT_UNKNOWN false upll_stays;
     "uppl"%string := peer UNC_CT_UNKNOWN true false ]}.

Lemma start_all_or_none_witness :
  let run := CommitTransaction_Execute (network_ipc srv_ok (daemons false)) (mkMSt start_message world_new) in
  let stuck := CommitTransaction_Execute (network_ipc srv_ok (daemons true)) (mkMSt start_message world_new) in
  (run.1 = inl TCOPER_RET_ABORT /\
   Forall (in_phase start_message (now srv_ok (daemons false) (m_world run.2)) MSG_NONE)
     ["odl"; "upll"; "uppl"]%string) /\
  stuck.1 = inl TCOPER_RET_FATAL /\ end_refused (H := Peer) start_message /\
  in_phase start_message (now srv_ok (daemons true) (m_world stuck.2)) MSG_COMMIT_TRANS_START "odl".
Proof.
  assert (forall b, Forall (in_phase start_message (daemons b) MSG_NONE) (participants start_message)) as Hp.
  { intros b. repeat constructor; eexists; split_and!; by eexists || reflexivity. }
  assert (NoDup (participants start_message)) as Hnd.
  { apply (bool_decide_unpack _). vm_compute. exact I. }
  intros run stuck. assert (run.1 = inl TCOPER_RET_ABORT) as E by (vm_compute; reflexivity).
  assert (stuck.1 = inl TCOPER_RET_FATAL) as E' by (vm_compute; reflexivity).
  split; (split; [assumption|]).
  - destruct (start_all_or_none srv_ok start_message (daemons false) eq_refl eq_refl eq_refl eq_refl Hnd (Hp false))
      as (r&st'&Hr&[[-> _]|[[_ Hall]|[-> _]]]); unfold run in *.
    + rewrite Hr in E. discriminate E.
    + rewrite Hr. exact Hall.
    + rewrite Hr in E. discriminate E.
  - destruct (start_all_or_none srv_ok start_message (daemons true) eq_refl eq_refl eq_refl eq_refl Hnd (Hp true))
      as (r&st'&Hr&[[-> _]|[[-> _]|(->&Href&_)]]); unfold stuck in *.
    + rewrite Hr in E'. discriminate E'.
    + rewrite Hr in E'. discriminate E'.
    + split; [exact Href|]. vm_compute. eexists. split; [reflexivity|].
      split; [by eexists|]. split; reflexivity.
Defined.
