(* ===== verification/TcDriverInfo.v ===== *)
(** * The controllers that take part in a transaction

    UPLL and UPPL name, in the answer to a vote or a commit, the controllers
    of each type that are concerned ([TcLibModule::CommitVoteGlobal]); the
    coordinator reads the answers ([TwoPhaseCommit::GetControllerInfo]) and
    merges them.  This file shows that what is written is what is read, and
    what the merge of several answers contains. *)

From Stdlib Require Import Sorted.
From S2P Require Import Prelude TcTypes TcIpc TcMsg TcMsgProps TcMsgCommit TcMsgTheorems.
From S2P Require Import TcServer TcLibTypes TcLib TcLibServices TcLibProps TcLibTheorems.
From S2P Require Import TcLibCommit TcLibSequence.

Local Open Scope Z_scope.

(** ** Lists of names

    The order of strings, and [sort], [merge] and [unique]. *)

Lemma str_lt_irrefl a : str_lt a a = false.
Proof.
  unfold str_lt, String.ltb. pose proof (String.compare_antisym a a) as E.
  by destruct (String.compare a a).
Qed.

Lemma ascii_compare_lt a b : Ascii.compare a b = Lt <-> (Ascii.N_of_ascii a < Ascii.N_of_ascii b)%N.
Proof. apply N.compare_lt_iff. Qed.

Lemma ascii_compare_eq a b : Ascii.compare a b = Eq <-> a = b.
Proof.
  unfold Ascii.compare. rewrite N.compare_eq_iff. split; [|by intros ->].
  intros E. by rewrite <- (Ascii.ascii_N_embedding a), E, Ascii.ascii_N_embedding.
Qed.

Lemma string_compare_lt a : forall b c,
  String.compare a b = Lt -> String.compare b c = Lt -> String.compare a c = Lt.
Proof.
  induction a as [|x a IH]; intros [|y b] [|z c] Hab Hbc; try done. cbn [String.compare] in *.
  destruct (Ascii.compare x y) eqn:Exy; try done.
  - apply ascii_compare_eq in Exy as ->. destruct (Ascii.compare y z); try done. by eapply IH.
  - destruct (Ascii.compare y z) eqn:Eyz; try done.
    + apply ascii_compare_eq in Eyz as ->. by rewrite Exy.
    + replace (Ascii.compare x z) with Lt; [done|]. symmetry.
      rewrite ascii_compare_lt in *. lia.
Qed.

Lemma str_lt_spec a b : str_lt a b = true <-> String.compare a b = Lt.
Proof. unfold str_lt, String.ltb. by destruct (String.compare a b). Qed.

Lemma str_lt_trans a b c : str_lt a b = true -> str_lt b c = true -> str_lt a c = true.
Proof. rewrite !str_lt_spec. apply string_compare_lt. Qed.

(** Not less, the other way round. *)
Definition str_le (a b : string) : Prop := str_lt b a = false.

Lemma str_le_cases a b : str_le a b -> a = b \/ str_lt a b = true.
Proof.
  unfold str_le, str_lt, String.ltb. rewrite (String.compare_antisym b a).
  destruct (String.compare a b) eqn:E; cbn; try done; [|by right].
  left. by apply String.compare_eq_iff.
Qed.

Lemma str_le_trans a b c : str_le a b -> str_le b c -> str_le a c.
Proof.
  intros Hab Hbc. destruct (str_lt c a) eqn:E; [|done]. exfalso.
  destruct (str_le_cases a b Hab) as [-> |H1]; [unfold str_le in *; congruence|].
  destruct (str_le_cases b c Hbc) as [-> |H2]; [unfold str_le in *; congruence|].
  pose proof (str_lt_trans _ _ _ (str_lt_trans _ _ _ H1 H2) E) as Hc.
  by rewrite str_lt_irrefl in Hc.
Qed.

Lemma str_lt_le a b : str_lt a b = true -> str_le a b.
Proof.
  intros H. unfold str_le. destruct (str_lt b a) eqn:E; [|done].
  pose proof (str_lt_trans _ _ _ H E) as Hc. by rewrite str_lt_irrefl in Hc.
Qed.

Lemma insert_sorted_elem x y l : y ∈ insert_sorted x l <-> y = x \/ y ∈ l.
Proof.
  induction l as [|z l IH]; cbn [insert_sorted]; [set_solver|]. destruct (str_lt x z); set_solver.
Qed.

Lemma list_sort_elem y l : y ∈ list_sort l <-> y ∈ l.
Proof.
  assert (forall acc, y ∈ fold_left (fun acc x => insert_sorted x acc) l acc <-> y ∈ acc \/ y ∈ l) as Hf.
  { induction l as [|x l IH]; intros acc; cbn [fold_left]; [set_solver|].
    rewrite IH, insert_sorted_elem. set_solver. }
  unfold list_sort. rewrite Hf. set_solver.
Qed.

Lemma list_merge_elem y a b : y ∈ list_merge a b <-> y ∈ a \/ y ∈ b.
Proof.
  revert b. induction a as [|x a IHa]; intros b; [destruct b; cbn; set_solver|].
  induction b as [|z b IHb]; [cbn; set_solver|].
  cbn [list_merge]. destruct (str_lt z x).
  - rewrite elem_of_cons. change (y ∈ _) with (y ∈ list_merge (x :: a) b) at 1. rewrite IHb. set_solver.
  - rewrite elem_of_cons, IHa. set_solver.
Qed.

Lemma list_unique_elem y l : y ∈ list_unique l <-> y ∈ l.
Proof.
  induction l as [|x [|z l] IH]; [done..|].
  cbn [list_unique] in *. case_bool_decide as E; [subst z; rewrite IH; set_solver|].
  rewrite elem_of_cons, IH. set_solver.
Qed.

Lemma insert_sorted_sorted x l :
  StronglySorted str_le l -> StronglySorted str_le (insert_sorted x l).
Proof.
  induction l as [|y l IH]; intros Hl; cbn [insert_sorted]; [repeat constructor|].
  destruct (str_lt x y) eqn:E.
  - constructor; [done|]. apply StronglySorted_inv in Hl as [_ Hy]. constructor; [by apply str_lt_le|].
    eapply Forall_impl; [|exact Hy]. intros z. apply str_le_trans. by apply str_lt_le.
  - apply StronglySorted_inv in Hl as [Hl Hy]. constructor; [by apply IH|].
    apply list.Forall_forall. intros z Hz. apply insert_sorted_elem in Hz as [-> |Hz]; [done|].
    by apply (proj1 (list.Forall_forall _ _) Hy).
Qed.

Lemma list_sort_sorted l : StronglySorted str_le (list_sort l).
Proof.
  unfold list_sort. assert (StronglySorted str_le []) as H by constructor. revert H.
  generalize (@nil string) as acc.
  induction l as [|x l IH]; intros acc Ha; cbn [fold_left]; [done|]. by apply IH, insert_sorted_sorted.
Qed.

Lemma list_merge_sorted a b :
  StronglySorted str_le a -> StronglySorted str_le b -> StronglySorted str_le (list_merge a b).
Proof.
  revert b. induction a as [|x a IHa]; intros b Ha; [by destruct b|].
  induction b as [|z b IHb]; intros Hb; [done|].
  cbn [list_merge]. destruct (str_lt z x) eqn:E.
  - change (StronglySorted str_le (z :: list_merge (x :: a) b)).
    apply StronglySorted_inv in Hb as [Hb Hz]. constructor; [by apply IHb|].
    apply list.Forall_forall. intros y Hy. apply list_merge_elem in Hy as [Hy|Hy].
    + apply str_le_trans with x; [by apply str_lt_le|]. apply elem_of_cons in Hy as [-> |Hy].
      * apply str_lt_irrefl.
      * apply StronglySorted_inv in Ha as [_ Hx]. by apply (proj1 (list.Forall_forall _ _) Hx).
    + by apply (proj1 (list.Forall_forall _ _) Hz).
  - pose proof (StronglySorted_inv Ha) as [Ha' Hx]. constructor; [by apply IHa|].
    apply list.Forall_forall. intros y Hy. apply list_merge_elem in Hy as [Hy|Hy].
    + by apply (proj1 (list.Forall_forall _ _) Hx).
    + apply elem_of_cons in Hy as [-> |Hy]; [done|].
      apply StronglySorted_inv in Hb as [_ Hz]. apply str_le_trans with z; [done|].
      by apply (proj1 (list.Forall_forall _ _) Hz).
Qed.

Lemma list_unique_nodup l : StronglySorted str_le l -> NoDup (list_unique l).
Proof.
  induction l as [|x [|z l] IH]; intros Hl; [constructor|by apply NoDup_singleton|].
  cbn [list_unique] in *. apply StronglySorted_inv in Hl as [Hl Hx].
  case_bool_decide as E; [by apply IH|]. apply list.NoDup_cons. split; [|by apply IH].
  change (x ∉ list_unique (z :: l)). rewrite list_unique_elem.
  apply Forall_cons_iff in Hx as [Hxz Hx]. apply StronglySorted_inv in Hl as [_ Hz].
  intros [-> |Hin]%elem_of_cons; [done|].
  pose proof (proj1 (list.Forall_forall _ _) Hz _ Hin) as Hzx.
  destruct (str_le_cases _ _ Hxz) as [|Hlt]; [done|]. unfold str_le in Hzx. congruence.
Qed.

(** What a merge of two lists of controllers has. *)
Lemma merged_elem y a b : y ∈ list_unique (list_merge (list_sort a) (list_sort b)) <-> y ∈ a \/ y ∈ b.
Proof. by rewrite list_unique_elem, list_merge_elem, !list_sort_elem. Qed.

Lemma merged_nodup a b : NoDup (list_unique (list_merge (list_sort a) (list_sort b))).
Proof. apply list_unique_nodup, list_merge_sorted; apply list_sort_sorted. Qed.

(** ** The map from driver types to controllers *)

Lemma dmap_find_insert k v m : dmap_find k m = None -> dmap_find k (dmap_insert k v m) = Some v.
Proof.
  unfold dmap_find. induction m as [|[k' v'] m IH]; cbn [dmap_insert List.find].
  { intros _. cbn. by rewrite bool_decide_eq_true_2. }
  cbn [fst]. case_bool_decide as E; [done|]. intros Hm.
  case_bool_decide; cbn [List.find fst]; [by rewrite bool_decide_eq_true_2|].
  rewrite bool_decide_eq_false_2 by done. by apply IH.
Qed.

Lemma dmap_find_insert_ne k k' v m : k' <> k -> dmap_find k' (dmap_insert k v m) = dmap_find k' m.
Proof.
  unfold dmap_find. intros Hk. induction m as [|[x y] m IH]; cbn [dmap_insert List.find fst].
  { by rewrite bool_decide_eq_false_2. }
  case_bool_decide; cbn [List.find fst].
  - by rewrite (bool_decide_eq_false_2 (k = k')).
  - destruct (x ==? k'); [done|apply IH].
Qed.

Lemma dmap_find_erase k m : dmap_find k (dmap_erase k m) = None.
Proof.
  unfold dmap_find, dmap_erase. induction m as [|[x y] m IH]; [done|]. cbn [List.filter fst].
  case_bool_decide as E; cbn [negb]; [done|]. cbn [List.find fst]. by rewrite bool_decide_eq_false_2.
Qed.

Lemma dmap_find_erase_ne k k' m : k' <> k -> dmap_find k' (dmap_erase k m) = dmap_find k' m.
Proof.
  unfold dmap_find, dmap_erase. intros Hk. induction m as [|[x y] m IH]; [done|]. cbn [List.filter fst].
  case_bool_decide as E; cbn [negb List.find fst].
  - subst. by rewrite (bool_decide_eq_false_2 (k = k')).
  - destruct (x ==? k'); [done|apply IH].
Qed.

(** ** Reading an answer *)

Section Reading.

Context (v : SessRef) (resp : list IpcValue).

(** The session has the response [resp]. *)
Definition responded (w : World) : Prop := exists c, get_slot v w = Some c /\ cs_response c = resp.

Lemma response_at_index i w x :
  responded w -> resp !! i = Some x ->
  response_at v (Z.of_nat i) w = Some x /\
  bool_decide (getResponseCount v w < Z.of_nat i) = false.
Proof.
  intros (c&Hc&Hr) Hx. unfold response_at, getResponseCount. rewrite Hc, Hr, Nat2Z.id. split; [done|].
  apply bool_decide_eq_false_2. apply lookup_lt_Some in Hx. lia.
Qed.

Lemma read_uint8_at i n st :
  responded (m_world st) -> resp !! i = Some (VU8 n) -> read_uint8 v (Z.of_nat i) st = (inl n, st).
Proof.
  intros Hr Hx. destruct (response_at_index i _ _ Hr Hx) as [E1 E2].
  unfold read_uint8, bind, peek, get_uint8. destruct Hr as (c&Hc&Hr). rewrite Hc, E2, E1. done.
Qed.

Lemma read_string_at i s st :
  responded (m_world st) -> resp !! i = Some (VStr s) ->
  get_string v (Z.of_nat i) (m_world st) = (TCUTIL_RET_SUCCESS, s).
Proof.
  intros Hr Hx. destruct (response_at_index i _ _ Hr Hx) as [E1 E2].
  unfold get_string. destruct Hr as (c&Hc&Hr). by rewrite Hc, E2, E1.
Qed.

(** What follows the index [i]. *)
Definition following (i : nat) (l : list IpcValue) : Prop := exists rest, drop (S i) resp = l ++ rest.

Lemma following_head i x l : following i (x :: l) -> resp !! S i = Some x /\ following (S i) l.
Proof.
  intros (rest&E). split.
  - rewrite <- (Nat.add_0_r (S i)), <- lookup_drop, E. done.
  - exists rest. by rewrite <- (Nat.add_1_r (S i)), <- drop_drop, E.
Qed.

Lemma following_app i l l' : following i (l ++ l') -> following i l /\ following (i + length l) l'.
Proof.
  intros (rest&E). rewrite <- app_assoc in E. split; [by exists (l' ++ rest)|]. exists rest.
  replace (S (i + length l)) with (S i + length l)%nat by lia.
  by rewrite <- drop_drop, E, drop_app_length.
Qed.

Lemma read_controllers_at names : forall i acc st,
  responded (m_world st) -> following i (VStr <$> names) ->
  read_controllers v (length names) (Z.of_nat i) acc st =
  (inl (Z.of_nat (i + length names), acc ++ names), st).
Proof.
  induction names as [|s names IH]; intros i acc st Hr Hf; cbn [length read_controllers].
  { by rewrite Nat.add_0_r, app_nil_r. }
  apply following_head in Hf as [Hx Hf]. unfold bind, peek.
  replace (Z.of_nat i + 1) with (Z.of_nat (S i)) by lia. rewrite (read_string_at _ s) by done.
  cbn [fst snd]. change (TCUTIL_RET_SUCCESS !=? TCUTIL_RET_SUCCESS) with false. cbn iota.
  rewrite IH by done. rewrite <- app_assoc. replace (S i + length names)%nat with (i + S (length names))%nat by lia. done.
Qed.

End Reading.

(** One driver of an answer, and all of them. *)
Definition learn (m : MsgData) (p : Z * list string) : MsgData :=
  add_controllers p.1 p.2
    (set_drivers m (driverinfo_map_ m) ({[p.1]} ∪ driver_set_ m) (driverset_map_ m)).
Definition learn_all (info : TcDriverInfoMap) (m : MsgData) : MsgData := fold_left learn info m.

(** The map of a participant: a key is a byte, as are the sizes. *)
Definition fits (info : TcDriverInfoMap) : Prop :=
  (length info < 256)%nat /\
  Forall (fun p => 0 <= p.1 < 256 /\ (length p.2 < 256)%nat) info.

Definition driver_values (p : Z * list string) : list IpcValue :=
  VU8 (u8 p.1) :: VU8 (u8 (Z.of_nat (length p.2))) :: (VStr <$> p.2).

Lemma read_drivers_at v resp info : forall i st,
  responded v resp (m_world st) -> following resp i (concat (driver_values <$> info)) ->
  Forall (fun p => 0 <= p.1 < 256 /\ (length p.2 < 256)%nat) info ->
  read_drivers v (length info) (Z.of_nat i) st =
  (inl tt, mkMSt (learn_all info (m_data st)) (m_world st)).
Proof.
  induction info as [|[k names] info IH]; intros i st Hr Hf Hb; cbn [length read_drivers].
  { by destruct st. }
  apply Forall_cons_iff in Hb as [[Hk Hn] Hb]. cbn [fst snd] in *. rewrite fmap_cons in Hf.
  cbn [concat] in Hf. unfold driver_values at 1 in Hf. cbn [fst snd] in Hf.
  assert (u8 k = k) as Ek by (apply Z.mod_small; done).
  assert (u8 (Z.of_nat (length names)) = Z.of_nat (length names)) as En by (apply Z.mod_small; lia).
  rewrite Ek, En in Hf. cbn [app] in Hf.
  apply following_head in Hf as [H1 Hf]. apply following_head in Hf as [H2 Hf].
  apply following_app in Hf as [H3 Hf]. unfold bind, modify.
  replace (Z.of_nat i + 1) with (Z.of_nat (S i)) by lia.
  replace (Z.of_nat i + 2) with (Z.of_nat (S (S i))) by lia.
  rewrite (read_uint8_at v resp _ k) by done.
  rewrite (read_uint8_at v resp _ (Z.of_nat (length names))) by done. rewrite Nat2Z.id.
  rewrite (read_controllers_at v resp) by done. cbn [app fst snd m_data m_world].
  rewrite (length_fmap VStr) in Hf. rewrite IH by done. done.
Qed.

Lemma GetControllerInfo_reads v info extra st :
  responded v (driver_info_values info ++ extra) (m_world st) -> fits info ->
  GetControllerInfo v st =
  (inl TCOPER_RET_SUCCESS, mkMSt (learn_all info (m_data st)) (m_world st)).
Proof.
  intros Hr [Hn Hb]. unfold GetControllerInfo, method, bind. change 0 with (Z.of_nat 0).
  rewrite (read_uint8_at v _ 0 (Z.of_nat (length info)) st Hr).
  2: { cbn. f_equal. f_equal. apply Z.mod_small. lia. }
  rewrite Nat2Z.id, (read_drivers_at v _ info 0 st Hr); [done| |done].
  exists extra. done.
Qed.

(** ** What the coordinator knows after an answer *)

(** The controller [c] of type [t] is one of the map. *)
Definition listed (t : Z) (c : string) (m : TcDriverInfoMap) : Prop :=
  exists l, dmap_find t m = Some l /\ c ∈ l.

(** No controller twice. *)
Definition tidy (m : TcDriverInfoMap) : Prop := forall t l, dmap_find t m = Some l -> NoDup l.

(** The keys of a [std::map] ascend. *)
Definition ascending : TcDriverInfoMap -> Prop := StronglySorted (fun p q => p.1 < q.1).

Lemma learn_find m p t :
  dmap_find t (driverinfo_map_ (learn m p)) =
  if t ==? p.1 then
    Some (match dmap_find t (driverinfo_map_ m) with
          | None => p.2
          | Some l => list_unique (list_merge (list_sort p.2) (list_sort l))
          end)
  else dmap_find t (driverinfo_map_ m).
Proof.
  unfold learn, add_controllers. cbn [driverinfo_map_ set_drivers]. case_bool_decide as E; [subst t|].
  - destruct (dmap_find p.1 (driverinfo_map_ m)) eqn:Ef; [|by apply dmap_find_insert].
    apply dmap_find_insert, dmap_find_erase.
  - destruct (dmap_find p.1 (driverinfo_map_ m)) eqn:Ef; [|by apply dmap_find_insert_ne].
    rewrite dmap_find_insert_ne by done. by apply dmap_find_erase_ne.
Qed.

Lemma learn_listed m p t c :
  listed t c (driverinfo_map_ (learn m p)) <->
  listed t c (driverinfo_map_ m) \/ t = p.1 /\ c ∈ p.2.
Proof.
  unfold listed. rewrite learn_find. case_bool_decide as E; [|naive_solver].
  destruct (dmap_find t (driverinfo_map_ m)) as [l|].
  - setoid_rewrite (inj_iff Some). split.
    + intros (l'&<-&Hc). apply merged_elem in Hc as [Hc|Hc]; [by right|left; eauto].
    + intros H. eexists; split; [done|]. apply merged_elem. naive_solver.
  - naive_solver.
Qed.

Lemma learn_all_listed info m t c :
  listed t c (driverinfo_map_ (learn_all info m)) <->
  listed t c (driverinfo_map_ m) \/ exists l, (t, l) ∈ info /\ c ∈ l.
Proof.
  revert m. induction info as [|[k names] info IH]; intros m; unfold learn_all in *; cbn [fold_left].
  { split; [by left|]. intros [|(l&Hl&_)]; [done|]. by apply elem_of_nil in Hl. }
  rewrite IH, learn_listed. cbn [fst snd]. setoid_rewrite elem_of_cons. split.
  - intros [[|[-> ?]]|(l&?&?)]; [by left|right; eauto|right; eauto].
  - intros [|(l&[[= -> ->]|?]&?)]; [by do 2 left|left; by right|right; eauto].
Qed.

Lemma learn_all_tidy info m :
  Forall (fun p => NoDup p.2) info -> tidy (driverinfo_map_ m) ->
  tidy (driverinfo_map_ (learn_all info m)).
Proof.
  revert m. induction info as [|p info IH]; intros m Hn Ht; [done|].
  apply Forall_cons_iff in Hn as [Hp Hn]. apply IH; [done|]. intros t l. rewrite learn_find.
  case_bool_decide; [|by apply Ht]. intros [= <-].
  destruct (dmap_find t (driverinfo_map_ m)); [apply merged_nodup|done].
Qed.

Lemma learn_all_set info m :
  driver_set_ (learn_all info m) = list_to_set info.*1 ∪ driver_set_ m.
Proof.
  revert m. induction info as [|p info IH]; intros m; unfold learn_all in *; cbn [fold_left].
  { cbn. set_solver. }
  rewrite IH. cbn [learn add_controllers set_drivers driver_set_]. rewrite fmap_cons. cbn. set_solver.
Qed.

Lemma dmap_insert_last k l m : Forall (fun p => p.1 < k) m -> dmap_insert k l m = m ++ [(k, l)].
Proof.
  induction m as [|[k' l'] m IH]; intros Hm; [done|]. apply Forall_cons_iff in Hm as [Hk Hm].
  cbn [dmap_insert fst] in *. rewrite bool_decide_eq_false_2 by lia. cbn. by rewrite IH.
Qed.

Lemma dmap_find_last k m : Forall (fun p => p.1 < k) m -> dmap_find k m = None.
Proof.
  unfold dmap_find. induction m as [|[k' l'] m IH]; intros Hm; [done|].
  apply Forall_cons_iff in Hm as [Hk Hm]. cbn [List.find fst] in *.
  rewrite bool_decide_eq_false_2 by lia. by apply IH.
Qed.

Lemma ascending_before k l m m' : ascending (m ++ (k, l) :: m') -> Forall (fun p => p.1 < k) m.
Proof.
  unfold ascending. induction m as [|p m IH]; intros Hs; [constructor|].
  apply StronglySorted_inv in Hs as [Hs Hp]. constructor; [|by apply IH].
  apply Forall_app in Hp as [_ Hp]. by apply Forall_cons_iff in Hp as [Hp _].
Qed.

Lemma learn_all_exact info m :
  ascending (driverinfo_map_ m ++ info) -> driverinfo_map_ (learn_all info m) = driverinfo_map_ m ++ info.
Proof.
  revert m. induction info as [|[k l] info IH]; intros m Hs; [by rewrite app_nil_r|].
  pose proof (ascending_before _ _ _ _ Hs) as Hb.
  assert (driverinfo_map_ (learn m (k, l)) = driverinfo_map_ m ++ [(k, l)]) as E.
  { unfold learn, add_controllers. cbn [fst snd driverinfo_map_ set_drivers].
    by rewrite dmap_find_last, dmap_insert_last. }
  change (learn_all ((k, l) :: info) m) with (learn_all info (learn m (k, l))).
  rewrite IH; rewrite E, <- app_assoc; done.
Qed.

(** ** What a participant writes *)

Section Writing.

Context {H : Type} `{TcLibInterface H} (ipc : SrvIpc).
Hypothesis Hok : forall out x, u8 (sv_addoutput ipc out x) = 0.

(** The answer to a vote or a commit that the handler agrees to, naming
    [info] and writing nothing itself. *)
Lemma named_drivers m args msg h h' info extra :
  GetCommitTransactionMsg (Some (mkSrv args [])) = Some msg ->
  names_drivers (ct_oper_type msg) = true ->
  admits m (ct_oper_type msg) (ct_session_id msg) (ct_config_id msg) = true ->
  pTcLibInterface_ m = Some h ->
  Handle (transaction_call msg) h = PRet (mkHRes TC_SUCCESS info extra, h') -> info <> [] ->
  exists calls m', TcLibServices.request ipc TCLIB_COMMIT_TRANSACTION args m =
    Some (TC_SUCCESS, driver_info_values info, calls, m').
Proof.
  intros Hg Hn Ha Hh Hc Hi. apply andb_true_iff in Ha as [Ei Ek].
  assert (forall k (c : HandlerCall), c = transaction_call msg ->
    lwp (handle ipc c ≫= fun r => write_driver_info ipc r [])
      (fun r st => r = TC_SUCCESS /\ ss_output (ls_cur st) = driver_info_values info)
      (with_oper k (mkLibSt (begun m) (mkSrv args []) []))) as Hrun.
  { intros k c ->. apply lwp_bind. unfold lwp at 1, handle. cbn [with_oper ls_mod begun pTcLibInterface_
      set_oper_state set_sess set_request_counter]. rewrite Hh, Hc. cbn [run_prog].
    unfold mret, L_ret. cbn beta iota. unfold write_driver_info. cbn [hr_ret hr_driver_info].
    change (TC_SUCCESS !=? TC_SUCCESS) with false. cbn iota. destruct info as [|p info]; [done|].
    apply lwp_bind. eapply lwp_mono; [by apply (write_all_writes _ Hok)|]. cbn beta.
    intros ok st [-> ->]. apply lwp_ret. by rewrite app_nil_r. }
  destruct (request_serve ipc TCLIB_COMMIT_TRANSACTION args m
    (fun r out _ _ => r = TC_SUCCESS /\ out = driver_info_values info)) as (r&out&calls&m'&E&->&->);
    [done|by eexists| |by eauto].
  cbn [serve]. apply lwp_with_msg with (msg := msg); [done|].
  unfold names_drivers in Hn. destruct msg as [oper sid cid e].
  cbn [ct_oper_type ct_session_id ct_config_id] in *.
  apply lwp_in_sequence; [by destruct oper|]. change (in_order _ _) with (in_order m oper). rewrite Ei.
  apply lwp_valid_ids_unless_driver. change (known_ids _ _ _) with (known_ids m sid cid). rewrite Ek.
  unfold CommitVoteGlobal. cbn [ct_oper_type ct_session_id ct_config_id].
  destruct oper; try discriminate Hn; (apply lwp_registered; [by eexists|]); by apply Hrun.
Qed.

End Writing.

(** ** The two sides together *)

(** C35: what a participant names is what the coordinator learns. A
    participant whose handler agrees to a vote or a commit that fits the phase
    and names the controllers [info] answers SUCCESS; the coordinator reads
    the answer to its end, adds the types to the set of drivers, and knows
    each controller it knew before, each one named, and no other, none of them
    twice. The first answer is taken over as it is. [info] has at least one
    and fewer than 256 types of controllers, in ascending order and each with
    fewer than 256 controllers and none twice, since the counts are sent as
    bytes, and every value can be added to the answer. *)
Theorem driver_info_roundtrip {H} `{TcLibInterface H} ipc (m : TcLibModule H) args msg h h'
    info extra v c st :
  (forall out x, u8 (sv_addoutput ipc out x) = 0) ->
  GetCommitTransactionMsg (Some (mkSrv args [])) = Some msg ->
  names_drivers (ct_oper_type msg) = true ->
  admits m (ct_oper_type msg) (ct_session_id msg) (ct_config_id msg) = true ->
  pTcLibInterface_ m = Some h ->
  Handle (transaction_call msg) h = PRet (mkHRes TC_SUCCESS info extra, h') ->
  info <> [] -> fits info -> ascending info -> Forall (fun p => NoDup p.2) info ->
  exists out calls m' st',
    TcLibServices.request ipc TCLIB_COMMIT_TRANSACTION args m = Some (TC_SUCCESS, out, calls, m') /\
    (get_slot v (m_world st) = Some c -> cs_response c = out ->
     GetControllerInfo v st = (inl TCOPER_RET_SUCCESS, st') /\ m_world st' = m_world st /\
     driver_set_ (m_data st') = list_to_set info.*1 ∪ driver_set_ (m_data st) /\
     (forall t ctl, listed t ctl (driverinfo_map_ (m_data st')) <->
        listed t ctl (driverinfo_map_ (m_data st)) \/ exists l, (t, l) ∈ info /\ ctl ∈ l) /\
     (tidy (driverinfo_map_ (m_data st)) -> tidy (driverinfo_map_ (m_data st'))) /\
     (driverinfo_map_ (m_data st) = [] -> driverinfo_map_ (m_data st') = info)).
Proof.
  intros Hok Hg Hn Ha Hh Hc Hi Hf Hs Ht.
  destruct (named_drivers ipc Hok m args msg h h' info extra) as (calls&m'&E); [done..|].
  exists (driver_info_values info), calls, m', (mkMSt (learn_all info (m_data st)) (m_world st)).
  split; [exact E|]. intros Hv Hr. cbn [m_data m_world]. split_and!.
  - apply (GetControllerInfo_reads v info []); [|done]. exists c. by rewrite app_nil_r.
  - done.
  - apply learn_all_set.
  - intros t ctl. apply learn_all_listed.
  - by apply learn_all_tidy.
  - intros E0. rewrite learn_all_exact; by rewrite E0.
Qed.

(** UPLL, which names two controllers of one type and one of another. *)
Inductive Namer := namer.

Definition named : TcDriverInfoMap :=
  [(UNC_CT_PFC, ["c2"; "c1"]%string); (UNC_CT_ODC, ["c3"]%string)].

#[export] Instance namer_handler : TcLibInterface Namer := {
  Handle c h := PRet (mkHRes TC_SUCCESS named None, h);
  controller_type _ := UNC_CT_UNKNOWN;
  controller_type_const c h := eq_refl
}.

Definition upll_namer : TcLibModule Namer :=
  set_oper_state (set_config_id (set_session_id (set_handler lib_new (Some namer)) 5) 1)
    MSG_COMMIT_TRANS_START.

Definition named_session : ClientSession :=
  mkSess "upll" TCLIB_COMMIT_TRANSACTION [] (driver_info_values named).

Lemma driver_info_roundtrip_witness :
  exists st', GetControllerInfo RSess (mkMSt start_message (set_slot RSess (Some named_session) world_new)) =
    (inl TCOPER_RET_SUCCESS, st') /\ driverinfo_map_ (m_data st') = named.
Proof.
  destruct (driver_info_roundtrip srv_ok upll_namer (commit_args MSG_COMMIT_VOTE)
    (mkCommitTransactionMsg MSG_COMMIT_VOTE 5 1 0) namer namer named None RSess named_session
    (mkMSt start_message (set_slot RSess (Some named_session) world_new)))
    as (out&calls&m'&st'&E&Hr); try reflexivity.
  - discriminate.
  - split; [cbn; lia|]. do 2 (constructor; [unfold UNC_CT_PFC, UNC_CT_ODC; cbn; lia|]). constructor.
  - repeat constructor; cbn; lia.
  - repeat constructor; apply (bool_decide_unpack _); vm_compute; exact I.
  - assert ((fun p => p.1.1.2) <$> TcLibServices.request srv_ok TCLIB_COMMIT_TRANSACTION
      (commit_args MSG_COMMIT_VOTE) upll_namer = Some (driver_info_values named)) as E'
      by (vm_compute; reflexivity).
    rewrite E in E'. injection E' as ->. destruct (Hr eq_refl eq_refl) as (Hg&_&_&_&_&Hx).
    exists st'. split; [exact Hg|exact (Hx eq_refl)].
Defined.
