(* ===== verification/TcDriverResults.v ===== *)
(** * The results of the drivers

    A driver reports, per controller, the result and the keys in error
    ([TcLibWriteControllerInfo], [TcLibWriteKeyValueDataInfo]); the
    coordinator appends the reports of all drivers to one request for UPLL and
    UPPL, which find their way through it by the types of its values
    ([UpdateControllerKeyList]) and read the keys back
    ([TcLibReadKeyValueDataInfo]).  This file shows that what was reported is
    what is read, and when it is not. *)

From S2P Require Import Prelude TcTypes TcIpc.
From S2P Require Import TcServer TcLibTypes TcLib TcLibServices TcLibProps TcLibTheorems.
From S2P Require Import TcLibCommit TcLibSequence.

Local Open Scope Z_scope.

(** ** Reports *)

(** A key in error, with the value if there is one. *)
Record KeyReport := mkKeyReport {
  kr_type : Z;
  kr_key_def : string;
  kr_value_def : string;
  kr_key : string;
  kr_value : option string
}.

(** What is reported of a controller: with the version of its configuration
    (number, date and application of the commit), or without: there is a
    [TcLibWriteControllerInfo] of either kind. *)
Record Report := mkReport {
  rp_controller : string;
  rp_response : Z;
  rp_version : option (Z * Z * string);
  rp_keys : list KeyReport
}.

Definition key_values (k : KeyReport) : list IpcValue :=
  key_value_data (kr_type k) (kr_key_def k) (kr_value_def k) (kr_key k) (kr_value k).

Definition version_values (v : option (Z * Z * string)) : list IpcValue :=
  match v with
  | Some (number, date, app) => commit_info number date app
  | None => []
  end.

Definition report_values (r : Report) : list IpcValue :=
  controller_info (rp_controller r) (rp_response r) (Z.of_nat (length (rp_keys r))) ++
  version_values (rp_version r) ++
  concat (key_values <$> rp_keys r).

(** What UPLL and UPPL make of it; no version is version 0. *)
Definition result_of (r : Report) : TcControllerResult :=
  let '(number, date, app) := default (0, 0, EmptyString) (rp_version r) in
  mkResult (rp_controller r) (rp_response r) (Z.of_nat (length (rp_keys r)))
    (kr_type <$> rp_keys r) number date app.

(** Controllers with a version are reported before those without. *)
Fixpoint versions_first (rs : list Report) : bool :=
  match rs with
  | [] => true
  | r :: rs' =>
      match rp_version r with
      | Some _ => versions_first rs'
      | None => forallb (fun r => bool_decide (rp_version r = None)) rs'
      end
  end.

(** The calls a driver makes. *)
Fixpoint key_calls {A} (c : string) (ks : list KeyReport) (k : Prog A) : Prog A :=
  match ks with
  | [] => k
  | x :: ks' =>
      PCall (TcLibWriteKeyValueDataInfo c (kr_type x) (kr_key_def x) (kr_value_def x)
               (kr_key x) (kr_value x)) (fun _ => key_calls c ks' k)
  end.

Fixpoint report_calls {A} (rs : list Report) (k : Prog A) : Prog A :=
  match rs with
  | [] => k
  | r :: rs' =>
      PCall (let errors := Z.of_nat (length (rp_keys r)) in
             match rp_version r with
             | Some (number, date, app) =>
                 TcLibWriteControllerCommitInfo (rp_controller r) (rp_response r) errors number date app
             | None => TcLibWriteControllerInfo (rp_controller r) (rp_response r) errors
             end)
        (fun _ => key_calls (rp_controller r) (rp_keys r) (report_calls rs' k))
  end.

(** ** Finding values by their types *)

Lemma find_type_skip t skip x rest i :
  Forall (fun v => type_of v <> t) skip -> type_of x = t ->
  find_type t (skip ++ x :: rest) i = i + Z.of_nat (length skip).
Proof.
  intros Hs Hx. revert i. induction Hs as [|v skip Hv _ IH]; intros i; cbn [app find_type length].
  - rewrite bool_decide_eq_true_2 by done. lia.
  - rewrite bool_decide_eq_false_2, IH by done. lia.
Qed.

Lemma find_type_none t l i : Forall (fun v => type_of v <> t) l -> find_type t l i = 0.
Proof.
  intros Hl. revert i. induction Hl as [|v l Hv _ IH]; intros i; [done|]. cbn [find_type].
  by rewrite bool_decide_eq_false_2.
Qed.

(** The index of the last value of [pre], which is not empty. *)
Definition last_of (pre : list IpcValue) : Z := Z.of_nat (length pre) - 1.

Lemma GetMatchTypeIndex_after pre l t :
  (0 < length pre)%nat ->
  GetMatchTypeIndex (pre ++ l) (last_of pre) t = find_type t l (Z.of_nat (length pre)).
Proof.
  intros Hp. unfold GetMatchTypeIndex, last_of. rewrite length_app.
  rewrite bool_decide_eq_true_2 by lia.
  replace (Z.of_nat (length pre) - 1 + 1) with (Z.of_nat (length pre)) by lia.
  by rewrite Nat2Z.id, drop_app_length.
Qed.

Lemma match_next pre skip x rest t :
  (0 < length pre)%nat -> Forall (fun v => type_of v <> t) skip -> type_of x = t ->
  GetMatchTypeIndex (pre ++ skip ++ x :: rest) (last_of pre) t = last_of (pre ++ skip ++ [x]).
Proof.
  intros Hp Hs Hx. rewrite GetMatchTypeIndex_after, find_type_skip by done.
  unfold last_of. rewrite !length_app. cbn [length]. lia.
Qed.

Lemma get_arg_at {A} (pick : IpcValue -> option A) args i x a :
  args !! i = Some x -> pick x = Some a ->
  read_ok (get_arg pick (Some (mkSrv args [])) (Z.of_nat i)) = Some a.
Proof.
  intros Hx Ha. unfold get_arg, getArgCount. cbn [ss_args].
  apply lookup_lt_Some in Hx as Hi. rewrite bool_decide_eq_false_2 by lia.
  rewrite Nat2Z.id, Hx, Ha. done.
Qed.

(** [l] is found from index [i] on. *)
Definition located (args : list IpcValue) (i : nat) (l : list IpcValue) : Prop :=
  forall j x, l !! j = Some x -> args !! (i + j)%nat = Some x.

Lemma located_middle pre l rest : located (pre ++ l ++ rest) (length pre) l.
Proof.
  intros j x Hx. rewrite lookup_app_r by lia. replace (length pre + j - length pre)%nat with j by lia.
  by apply lookup_app_l_Some.
Qed.

(** ** The keys of one controller *)

Definition structs : list IpcValue -> Prop := Forall (fun v => type_of v = IPC_STRUCT).

Lemma structs_not l t : t <> IPC_STRUCT -> structs l -> Forall (fun v => type_of v <> t) l.
Proof. intros Ht Hl. eapply Forall_impl; [|exact Hl]. by intros v ->. Qed.

(** A key begins with its type; structures follow. *)
Lemma key_values_shape k :
  exists tl, key_values k = VU32 (kr_type k) :: tl /\ structs tl.
Proof.
  unfold key_values, key_value_data. eexists. split; [reflexivity|].
  destruct (kr_value k); repeat constructor.
Qed.

Lemma read_u32_last pre x rest n :
  x = VU32 n -> read_u32 (Some (mkSrv (pre ++ x :: rest) [])) (last_of (pre ++ [x])) = Some n.
Proof.
  intros ->. unfold last_of. rewrite length_app.
  replace (Z.of_nat (length pre + length [VU32 n]) - 1) with (Z.of_nat (length pre)) by (cbn; lia).
  apply (get_arg_at _ _ _ (VU32 n)); [|done]. by rewrite list_lookup_middle.
Qed.

(** [km] points from the position of an error to its key. *)
Definition points (args : list IpcValue) (km : gmap Z Z) (j : Z) (k : KeyReport) : Prop :=
  exists p, km !! j = Some (Z.of_nat p) /\ located args p (key_values k).

(** Where a walk over the arguments stands: [rest] is still ahead, but for
    structures that are skipped. *)
Definition stands (args pre rest : list IpcValue) : Prop :=
  (0 < length pre)%nat /\ exists skip, structs skip /\ args = pre ++ skip ++ rest.

Lemma error_loop_keys keys args : forall pre rest j km acc,
  stands args pre (concat (key_values <$> keys) ++ rest) ->
  (forall z, j <= z -> km !! z = None) ->
  exists pre' km', error_loop (length keys) args j (last_of pre) km acc =
    inr (last_of pre', km', acc ++ (kr_type <$> keys)) /\
    stands args pre' rest /\ (forall z, z < j -> km' !! z = km !! z) /\
    forall i k, keys !! i = Some k -> points args km' (j + Z.of_nat i) k.
Proof.
  induction keys as [|k keys IH]; intros pre rest j km acc Hst Hkm; cbn [length error_loop]; cbv zeta.
  { exists pre, km. rewrite app_nil_r. split_and!; done. }
  destruct Hst as (Hp&skip&Hs&Ea). destruct (key_values_shape k) as (tl&Ek&Htl).
  rewrite fmap_cons in Ea. cbn [concat] in Ea. rewrite <- app_assoc in Ea.
  set (tail := concat (key_values <$> keys) ++ rest) in *.
  assert (args = (pre ++ skip) ++ VU32 (kr_type k) :: tl ++ tail) as Ea'.
  { rewrite Ea, Ek, <- app_assoc. done. }
  set (pre1 := pre ++ skip ++ [VU32 (kr_type k)]).
  assert (GetMatchTypeIndex args (last_of pre) IPC_UINT32 = last_of pre1) as ->.
  { rewrite Ea', <- app_assoc. by apply match_next; [|apply structs_not|]. }
  assert (1 < length pre1)%nat as Hl by (unfold pre1; rewrite !length_app; cbn; lia).
  rewrite bool_decide_eq_false_2 by (unfold last_of; lia).
  assert (read_u32 (Some (mkSrv args [])) (last_of pre1) = Some (kr_type k)) as ->.
  { rewrite Ea'. unfold pre1. rewrite app_assoc. by apply read_u32_last. }
  unfold map_insert. rewrite Hkm by lia.
  destruct (IH pre1 rest (j + 1) (<[j := last_of pre1]> km) (acc ++ [kr_type k]))
    as (pre'&km'&E&Hst'&Hlow&Hpts).
  { split; [lia|]. exists tl. split; [done|]. rewrite Ea'. unfold pre1. by rewrite <- !app_assoc. }
  { intros z Hz. rewrite lookup_insert_ne by lia. apply Hkm. lia. }
  exists pre', km'. split_and!.
  - rewrite E, <- app_assoc. done.
  - done.
  - intros z Hz. rewrite Hlow by lia. by rewrite lookup_insert_ne by lia.
  - intros [|i] k' Hk'.
    + injection Hk' as <-. exists (length (pre ++ skip)). split.
      * rewrite Hlow by lia. replace (j + Z.of_nat 0) with j by lia. rewrite lookup_insert_eq. f_equal.
        unfold last_of, pre1. rewrite app_assoc, (length_app (pre ++ skip)). cbn [length]. lia.
      * rewrite Ea, app_assoc. apply located_middle.
    + replace (j + Z.of_nat (S i)) with (j + 1 + Z.of_nat i) by lia. by apply Hpts.
Qed.

(** ** One controller *)

Lemma read_commit_info_at args idx q number date app :
  GetMatchTypeIndex args idx IPC_UINT64 = Z.of_nat q ->
  located args q (commit_info number date app) -> (0 < q)%nat ->
  read_commit_info args idx = Some (Z.of_nat (q + 2), (number, date, app)).
Proof.
  intros Em Hl Hq. unfold read_commit_info. cbv zeta. rewrite Em, bool_decide_eq_false_2 by lia.
  assert (read_u64 (Some (mkSrv args [])) (Z.of_nat q) = Some number) as ->.
  { apply (get_arg_at _ _ _ (VU64 number)); [|done]. rewrite <- (Nat.add_0_r q). by apply Hl. }
  replace (Z.of_nat q + 1) with (Z.of_nat (q + 1)) by lia.
  replace (Z.of_nat q + 2) with (Z.of_nat (q + 2)) by lia.
  assert (read_u64 (Some (mkSrv args [])) (Z.of_nat (q + 1)) = Some date) as ->
    by (apply (get_arg_at _ _ _ (VU64 date)); [by apply Hl|done]).
  assert (read_str (Some (mkSrv args [])) (Z.of_nat (q + 2)) = Some app) as ->
    by (apply (get_arg_at _ _ _ (VStr app)); [by apply Hl|done]).
  done.
Qed.

Lemma located_app args q l l' :
  located args q (l ++ l') -> located args q l /\ located args (q + length l) l'.
Proof.
  intros Hl. split; intros j x Hx.
  - apply Hl. by apply lookup_app_l_Some.
  - rewrite <- Nat.add_assoc. apply Hl. rewrite lookup_app_r by lia.
    by replace (length l + j - length l)%nat with j by lia.
Qed.

(** The lists of keys after the keys of one controller. *)
Definition with_keys (r : Report) (km : gmap Z Z) (k : KeyLists) : KeyLists :=
  match rp_keys r with
  | [] => mkKeys (kl_map k) (kl_controllers k) (kl_results k ++ [result_of r])
  | _ => mkKeys km (map_insert (rp_controller r) km (kl_controllers k)) (kl_results k ++ [result_of r])
  end.

(** Without a version, and with none in what follows, nothing is read. *)
Lemma read_commit_info_none pre l :
  (0 < length pre)%nat -> Forall (fun v => type_of v <> IPC_UINT64) l ->
  read_commit_info (pre ++ l) (last_of pre) = Some (last_of pre, (0, 0, EmptyString)).
Proof.
  intros Hp Hl. unfold read_commit_info. cbv zeta.
  by rewrite GetMatchTypeIndex_after, find_type_none by done.
Qed.

Lemma key_values_no_u64 keys :
  Forall (fun v => type_of v <> IPC_UINT64) (concat (key_values <$> keys)).
Proof.
  induction keys as [|k keys IH]; [constructor|]. rewrite fmap_cons. cbn [concat].
  apply Forall_app. split; [|exact IH]. destruct (key_values_shape k) as (tl&->&Htl).
  constructor; [discriminate|by apply structs_not].
Qed.

(** The version of a report, read behind the controller. *)
Lemma read_version args pre r rest :
  (0 < length pre)%nat ->
  args = pre ++ version_values (rp_version r) ++ concat (key_values <$> rp_keys r) ++ rest ->
  (rp_version r = None -> Forall (fun v => type_of v <> IPC_UINT64) rest) ->
  read_commit_info args (last_of pre) =
    Some (last_of (pre ++ version_values (rp_version r)),
          default (0, 0, EmptyString) (rp_version r)).
Proof.
  intros Hp -> Hnone. destruct (rp_version r) as [[[number date] ap]|]; cbn [version_values default].
  - set (tail := concat _ ++ rest).
    rewrite (read_commit_info_at _ _ (length pre) number date ap); [|..|by apply located_middle|lia].
    + unfold last_of. rewrite length_app. cbn [length commit_info]. do 2 f_equal. lia.
    + etransitivity; [apply (match_next pre [] (VU64 number)); [done|constructor|done]|].
      unfold last_of. rewrite length_app. cbn [length app]. lia.
  - rewrite app_nil_r. cbn [app]. apply read_commit_info_none; [done|]. apply Forall_app.
    split; [apply key_values_no_u64|by apply Hnone].
Qed.

Lemma controller_step_report args pre r rest k :
  stands args pre (report_values r ++ rest) ->
  (rp_version r = None -> Forall (fun v => type_of v <> IPC_UINT64) rest) ->
  exists pre' km, controller_step args (last_of pre) k = inr (last_of pre', with_keys r km k) /\
    stands args pre' rest /\
    forall i key, rp_keys r !! i = Some key -> points args km (Z.of_nat i) key.
Proof.
  intros (Hp&skip&Hs&Ea) Hnone. unfold report_values in Ea. rewrite <- !app_assoc in Ea.
  set (c := rp_controller r) in *. set (keys := rp_keys r) in *.
  set (errors := Z.of_nat (length keys)) in *. set (q := length (pre ++ skip)).
  assert (0 < q)%nat as Hq by (unfold q; rewrite length_app; lia).
  set (pre0 := pre ++ skip ++ controller_info c (rp_response r) errors).
  set (pre1 := pre0 ++ version_values (rp_version r)).
  assert (located args q (controller_info c (rp_response r) errors)) as Hl.
  { rewrite Ea, app_assoc. apply located_middle. }
  assert (GetMatchTypeIndex args (last_of pre) IPC_STRING = Z.of_nat q) as Em.
  { rewrite Ea. cbn [controller_info app]. rewrite match_next by (done || by apply structs_not).
    unfold last_of, q. rewrite app_assoc, (length_app (pre ++ skip)). cbn [length]. lia. }
  unfold controller_step. cbv zeta. rewrite Em, bool_decide_eq_false_2 by lia.
  replace (Z.of_nat q + 1) with (Z.of_nat (q + 1)) by lia.
  replace (Z.of_nat q + 2) with (Z.of_nat (q + 2)) by lia.
  assert (read_str (Some (mkSrv args [])) (Z.of_nat q) = Some c) as ->.
  { apply (get_arg_at _ _ _ (VStr c)); [|done]. rewrite <- (Nat.add_0_r q). by apply Hl. }
  assert (read_u32 (Some (mkSrv args [])) (Z.of_nat (q + 1)) = Some (rp_response r)) as ->.
  { apply (get_arg_at _ _ _ (VU32 (rp_response r))); [by apply Hl|done]. }
  assert (read_u32 (Some (mkSrv args [])) (Z.of_nat (q + 2)) = Some errors) as ->.
  { apply (get_arg_at _ _ _ (VU32 errors)); [by apply Hl|done]. }
  assert (Z.of_nat (q + 2) = last_of pre0) as ->
    by (unfold last_of, pre0, q; rewrite !length_app; cbn [length controller_info]; lia).
  assert (args = pre0 ++ version_values (rp_version r) ++ concat (key_values <$> rp_keys r) ++ rest) as Ea0
    by (rewrite Ea; unfold pre0; by rewrite <- !app_assoc).
  assert (0 < length pre0)%nat as Hp0 by (unfold pre0; rewrite length_app; lia).
  rewrite (read_version args pre0 r rest Hp0 Ea0 Hnone). cbn [mbind option_bind].
  fold pre1. assert (stands args pre1 (concat (key_values <$> keys) ++ rest)) as Hst.
  { split; [unfold pre1; rewrite length_app; lia|]. exists []. split; [constructor|].
    rewrite Ea0. unfold pre1. by rewrite <- !app_assoc. }
  unfold with_keys, result_of. fold keys errors c.
  destruct (default (0, 0, EmptyString) (rp_version r)) as [[number date] app].
  destruct (decide (keys = [])) as [Ek|Ek].
  - assert (errors = 0) as E0 by (unfold errors; by rewrite Ek). rewrite E0, Ek.
    rewrite bool_decide_eq_true_2 by done. exists pre1, ∅. rewrite Ek in Hst. split_and!; [done|done|].
    by intros i key Hkey.
  - rewrite bool_decide_eq_false_2 by (unfold errors; by destruct keys).
    unfold errors at 1. rewrite Nat2Z.id.
    destruct (error_loop_keys keys args pre1 rest 0 ∅ [] Hst ltac:(done)) as (pre'&km&E&Hst'&_&Hpts).
    rewrite E. exists pre', km. split_and!; [by destruct keys|done|done].
Qed.

(** ** All controllers *)

(** The lists of keys know the keys of a report. *)
Definition knows (args : list IpcValue) (k : KeyLists) (r : Report) : Prop :=
  rp_keys r <> [] ->
  exists km, kl_controllers k !! rp_controller r = Some km /\
    forall i key, rp_keys r !! i = Some key -> points args km (Z.of_nat i) key.

Lemma with_keys_controllers r km k c :
  c <> rp_controller r -> kl_controllers (with_keys r km k) !! c = kl_controllers k !! c.
Proof.
  intros Hc. unfold with_keys, map_insert. destruct (rp_keys r); cbn [kl_controllers]; [done|].
  destruct (kl_controllers k !! rp_controller r); [done|]. by rewrite lookup_insert_ne.
Qed.

Lemma with_keys_results r km k : kl_results (with_keys r km k) = kl_results k ++ [result_of r].
Proof. unfold with_keys. by destruct (rp_keys r). Qed.

Lemma controller_step_end args pre k :
  stands args pre [] -> controller_step args (last_of pre) k = inl (TC_SUCCESS, k).
Proof.
  intros (Hp&skip&Hs&->). rewrite app_nil_r. unfold controller_step. cbv zeta.
  rewrite GetMatchTypeIndex_after, find_type_none by (done || by apply structs_not).
  by rewrite bool_decide_eq_true_2.
Qed.

(** Reports without versions have no value of the type of a version. *)
Lemma versions_first_cons r rs :
  versions_first (r :: rs) = true ->
  versions_first rs = true /\
  (rp_version r = None -> Forall (fun v => type_of v <> IPC_UINT64) (concat (report_values <$> rs))).
Proof.
  cbn [versions_first]. destruct (rp_version r); [done|]. intros Hall. split; [|intros _].
  - destruct rs as [|x rs]; [done|]. cbn in Hall |- *. apply andb_prop in Hall as [Hx Hall].
    apply bool_decide_eq_true in Hx. by rewrite Hx.
  - induction rs as [|x rs IH]; [constructor|]. cbn in Hall. apply andb_prop in Hall as [Hx Hall].
    apply bool_decide_eq_true in Hx. rewrite fmap_cons. cbn [concat]. apply Forall_app.
    split; [|by apply IH]. unfold report_values. rewrite Hx. cbn [version_values app].
    apply Forall_app. split; [repeat constructor; discriminate|apply key_values_no_u64].
Qed.

Lemma controller_loop_reports args reports : forall fuel pre k,
  stands args pre (concat (report_values <$> reports)) -> (length reports < fuel)%nat ->
  NoDup (rp_controller <$> reports) -> versions_first reports = true ->
  Forall (fun r => kl_controllers k !! rp_controller r = None) reports ->
  exists k', controller_loop fuel args (last_of pre) k = Some (TC_SUCCESS, k') /\
    kl_results k' = kl_results k ++ (result_of <$> reports) /\
    (forall c, c ∉ rp_controller <$> reports -> kl_controllers k' !! c = kl_controllers k !! c) /\
    Forall (knows args k') reports.
Proof.
  induction reports as [|r reports IH]; intros fuel pre k Hst Hf Hnd Hv Hnone;
    (destruct fuel as [|fuel]; [cbn in Hf; lia|]); cbn [controller_loop];
    rewrite bool_decide_eq_true_2 by
      (destruct Hst as (Hp&skip&_&->); unfold last_of; rewrite length_app; lia).
  { rewrite controller_step_end by done. exists k. cbn. rewrite app_nil_r. split_and!; try done; constructor. }
  rewrite fmap_cons in Hst. cbn [concat] in Hst. rewrite fmap_cons in Hnd.
  apply list.NoDup_cons in Hnd as [Hni Hnd]. apply Forall_cons_iff in Hnone as [Hr Hnone].
  apply versions_first_cons in Hv as [Hv Hu64].
  destruct (controller_step_report _ _ _ _ k Hst Hu64) as (pre'&km&E&Hst'&Hpts). rewrite E.
  destruct (IH fuel pre' (with_keys r km k)) as (k'&Ek&Hres&Hsame&Hknows); [done|cbn in Hf; lia|done|done| |].
  { apply list.Forall_forall. intros x Hx. rewrite with_keys_controllers.
    - by apply (proj1 (list.Forall_forall _ _) Hnone).
    - intros Ec. apply Hni. rewrite <- Ec. by apply list_elem_of_fmap_2. }
  exists k'. split_and!.
  - exact Ek.
  - rewrite Hres, with_keys_results, <- app_assoc. done.
  - intros c Hc. rewrite fmap_cons in Hc. apply not_elem_of_cons in Hc as [Hc1 Hc2].
    rewrite Hsame by done. by apply with_keys_controllers.
  - constructor; [|exact Hknows]. intros Hne. exists km. split; [|exact Hpts].
    rewrite Hsame by done. unfold with_keys, map_insert. rewrite Hr.
    destruct (rp_keys r); [done|]. apply lookup_insert_eq.
Qed.

(** The request that forwards reports. *)
Definition result_args (oper sid cid phase : Z) (reports : list Report) : list IpcValue :=
  [VU8 oper; VU32 sid; VU32 cid; VU8 phase] ++ concat (report_values <$> reports).

Lemma report_values_length r : (0 < length (report_values r))%nat.
Proof. unfold report_values. rewrite !length_app. cbn. lia. Qed.

Lemma reports_length reports : (length reports <= length (concat (report_values <$> reports)))%nat.
Proof.
  induction reports as [|r reports IH]; [done|]. rewrite fmap_cons. cbn [concat length].
  rewrite length_app. pose proof (report_values_length r). lia.
Qed.

Lemma update_keys_reports oper sid cid phase reports :
  NoDup (rp_controller <$> reports) -> versions_first reports = true ->
  exists k, update_keys (result_args oper sid cid phase reports) = Some (TC_SUCCESS, k) /\
    kl_results k = result_of <$> reports /\
    Forall (knows (result_args oper sid cid phase reports) k) reports.
Proof.
  intros Hnd Hv. unfold update_keys.
  destruct (controller_loop_reports (result_args oper sid cid phase reports) reports
    (S (length (result_args oper sid cid phase reports)))
    [VU8 oper; VU32 sid; VU32 cid; VU8 phase] (mkKeys ∅ ∅ [])) as (k&E&Hr&_&Hk).
  - split; [cbn; lia|]. exists []. split; [constructor|done].
  - unfold result_args. rewrite length_app. pose proof (reports_length reports). lia.
  - done.
  - done.
  - apply list.Forall_forall. intros r _. done.
  - eauto.
Qed.

(** ** The two sides together *)

Section Sides.

Context {H : Type} `{TcLibInterface H} (ipc : SrvIpc).
Hypothesis Hok : forall out x, u8 (sv_addoutput ipc out x) = 0.

(** [st'] is [st] after the values [vs] were written for the controller [c]. *)
Definition wrote (c : string) (vs : list IpcValue) (st st' : LibSt H) : Prop :=
  st' = mkLibSt (set_controllerid (ls_mod st) c)
          (mkSrv (ss_args (ls_cur st)) (ss_output (ls_cur st) ++ vs)) (ls_calls st).

(** The session is there and an operation is running. *)
Definition writable (st : LibSt H) : Prop :=
  sess_ (ls_mod st) = SCurrent /\ oper_state_ (ls_mod st) <> MSG_NONE.

Lemma write_info_writes c vs st :
  writable st ->
  lwp (write_info ipc c vs) (fun _ => wrote c vs st) st.
Proof.
  intros [Hs Ho]. apply lwp_bind, lwp_member. rewrite bool_decide_eq_false_2 by done. apply lwp_bind.
  eapply lwp_mono; [by apply (write_all_writes _ Hok)|]. cbn beta. intros ok st' [-> ->].
  apply lwp_bind, lwp_update, lwp_ret. done.
Qed.

Lemma write_key_writes c vs st :
  writable st -> controllerid_ (ls_mod st) = c ->
  lwp (write_key_value ipc c vs) (fun _ => wrote c vs st) st.
Proof.
  intros [Hs Ho] Hc. apply lwp_bind, lwp_member. rewrite bool_decide_eq_false_2 by done.
  apply lwp_bind, lwp_member. rewrite (bool_decide_eq_true_2 _ Hc). cbn [negb]. apply lwp_bind.
  eapply lwp_mono; [by apply (write_all_writes _ Hok)|]. cbn beta. intros ok st' [-> ->].
  apply lwp_ret. unfold wrote. f_equal. rewrite <- Hc. by destruct (ls_mod st).
Qed.

Lemma key_calls_write {A} c ks (k : Prog A) (Q : A -> LibSt H -> Prop) st :
  writable st -> controllerid_ (ls_mod st) = c ->
  (forall st', wrote c (concat (key_values <$> ks)) st st' -> lwp (run_prog ipc k) Q st') ->
  lwp (run_prog ipc (key_calls c ks k)) Q st.
Proof.
  revert st. induction ks as [|x ks IH]; intros st Hw Hc Hk; cbn [key_calls run_prog].
  { apply Hk. unfold wrote. cbn. rewrite app_nil_r, <- Hc. by destruct st as [[] [] ?]. }
  apply lwp_bind. cbn [api]. eapply lwp_mono; [by apply write_key_writes|]. cbn beta.
  intros _ st' ->. apply IH; [done|done|]. intros st2 ->. apply Hk. unfold wrote. cbn.
  by rewrite <- app_assoc.
Qed.

Lemma report_calls_write reports st :
  writable st ->
  lwp (run_prog ipc (report_calls reports (PRet tt)))
    (fun _ st' => ss_output (ls_cur st') =
       ss_output (ls_cur st) ++ concat (report_values <$> reports)) st.
Proof.
  revert st. induction reports as [|r reports IH]; intros st Hw; cbn [report_calls run_prog].
  { apply lwp_ret. cbn. by rewrite app_nil_r. }
  apply lwp_bind. eapply (lwp_mono _ (fun _ => wrote (rp_controller r)
    (controller_info (rp_controller r) (rp_response r) (Z.of_nat (length (rp_keys r))) ++
     version_values (rp_version r)) st)).
  { destruct (rp_version r) as [[[number date] app]|]; cbn [api version_values]; rewrite ?app_nil_r;
      by apply write_info_writes. }
  cbn beta. intros _ st1 ->. apply key_calls_write; [done|done|]. intros st2 ->.
  eapply lwp_mono; [by apply IH|]. cbn beta. intros _ st3 ->.
  cbn [ls_cur ls_mod ls_calls ss_output ss_args]. rewrite fmap_cons. cbn [concat].
  unfold report_values at 2. by rewrite <- !app_assoc.
Qed.

Lemma get_struct_at args i def data :
  args !! i = Some (VStruct def data) ->
  read_ok (srv_get_struct def (Some (mkSrv args [])) (Z.of_nat i)) = Some data.
Proof.
  intros Hx. unfold srv_get_struct, get_arg, getArgCount. cbn [ss_args].
  apply lookup_lt_Some in Hx as Hi. rewrite bool_decide_eq_false_2 by lia.
  rewrite Nat2Z.id, Hx. by rewrite bool_decide_eq_true_2.
Qed.

(** A session while results are handled: its arguments and the lists made of
    them. *)
Definition handling (args : list IpcValue) (k : KeyLists) (st : LibSt H) : Prop :=
  sess_ (ls_mod st) = SCurrent /\ ls_cur st = mkSrv args [] /\
  IsReadKeyValueAllowed (oper_state_ (ls_mod st)) = true /\
  controller_key_map_ (ls_mod st) = kl_controllers k.

Lemma key_read_back args k st r i key :
  handling args k st -> knows args k r -> rp_keys r !! i = Some key ->
  api ipc (TcLibReadKeyValueDataInfo (rp_controller r) (Z.of_nat i) (kr_type key)
             (kr_key_def key) (kr_value_def key) (bool_decide (is_Some (kr_value key)))) st =
  Some (AData (kr_key key) (kr_value key), st).
Proof.
  intros (Hs&Hc&Hr&Hm) Hk Hi.
  destruct Hk as (km&Ekm&Hp); [by intros E; rewrite E in Hi|]. destruct (Hp i key Hi) as (p&Ep&Hl).
  assert (kl_controllers k <> ∅) as Hne by (intros E; by rewrite E in Ekm).
  assert (km <> ∅) as Hne' by (intros E; by rewrite E in Ep).
  cbn [api]. unfold read_key_value, GetKeyIndex, member, session, mbind, L_bind, mret, L_ret.
  cbn beta iota. rewrite Hr. cbn [negb]. rewrite Hm, bool_decide_eq_false_2, Ekm by done.
  rewrite bool_decide_eq_false_2, Ep, Hs, Hc by done.
  unfold key_values, key_value_data in Hl.
  pose proof (Hl 0%nat _ eq_refl) as Hz. rewrite Nat.add_0_r in Hz.
  unfold srv_get_uint32. rewrite (get_arg_at _ _ _ _ (kr_type key) Hz eq_refl).
  rewrite bool_decide_eq_true_2 by done. cbn [negb].
  replace (Z.of_nat p + 1) with (Z.of_nat (p + 1)) by lia.
  rewrite (get_struct_at _ _ _ _ (Hl 1%nat _ eq_refl)).
  destruct (kr_value key) as [v|] eqn:Ev; cbn [bool_decide]; [|done].
  replace (Z.of_nat p + 2) with (Z.of_nat (p + 2)) by lia.
  by rewrite (get_struct_at _ _ _ _ (Hl 2%nat _ eq_refl)).
Qed.

End Sides.

Lemma result_header oper sid cid phase l :
  GetCommitDrvResultMsg (Some (mkSrv ([VU8 oper; VU32 sid; VU32 cid; VU8 phase] ++ l) [])) =
  Some (mkCommitPhaseMsg (TcMsgOperType_of oper) sid cid phase).
Proof.
  set (args := [VU8 oper; VU32 sid; VU32 cid; VU8 phase] ++ l).
  unfold GetCommitDrvResultMsg, GetCommitPhaseMsg, nonempty. change (getArgCount _ ==? 0) with false.
  unfold read_u8, read_u32, srv_get_uint8, srv_get_uint32. cbn iota.
  rewrite (get_arg_at _ args 0 (VU8 oper) oper) by done.
  cbn [mbind option_bind]. rewrite (get_arg_at _ args 1 (VU32 sid) sid) by done.
  cbn [mbind option_bind]. rewrite (get_arg_at _ args 2 (VU32 cid) cid) by done.
  cbn [mbind option_bind]. by rewrite (get_arg_at _ args 3 (VU8 phase) phase) by done.
Qed.

(** C9: what drivers report is what UPLL and UPPL are told.  A driver that
    reports [reports] with the interface of the library, each controller with
    the version of its configuration or without one, writes their values, if
    all of them can be added to its answer; a request made of these values
    makes UPLL or UPPL, if the message fits the phase, call its handler once
    with the results in order, controllers, response codes, versions and key
    types; and while the handler runs, each key and value it asks for by
    controller and position is the one the driver wrote.  No controller may be
    reported twice, and none without a version before one with a version: see
    [version_taken_from_later]. *)
Theorem driver_results_roundtrip {H} `{TcLibInterface H} ipc reports oper sid cid phase
    (driver : LibSt H) (m : TcLibModule H) :
  (forall out x, u8 (sv_addoutput ipc out x) = 0) -> NoDup (rp_controller <$> reports) ->
  versions_first reports = true -> writable driver -> is_Some (pTcLibInterface_ m) ->
  oper = MSG_COMMIT_VOTE_DRIVER_RESULT \/ oper = MSG_COMMIT_GLOBAL_DRIVER_RESULT ->
  admits m oper sid cid = true ->
  let args := result_args (TcMsgOperType_value oper) sid cid phase reports in
  (exists driver', run_prog ipc (report_calls reports (PRet tt)) driver = Some (tt, driver') /\
     ss_output (ls_cur driver') =
       ss_output (ls_cur driver) ++ concat (report_values <$> reports)) /\
  (exists ret out r m', TcLibServices.request ipc TCLIB_COMMIT_DRV_RESULT args m =
     Some (ret, out, [(HandleCommitDriverResult sid cid phase (result_of <$> reports), r)], m')) /\
  exists k, update_keys args = Some (TC_SUCCESS, k) /\
    forall st r i key, handling args k st -> r ∈ reports -> rp_keys r !! i = Some key ->
      api ipc (TcLibReadKeyValueDataInfo (rp_controller r) (Z.of_nat i) (kr_type key)
                 (kr_key_def key) (kr_value_def key) (bool_decide (is_Some (kr_value key)))) st =
      Some (AData (kr_key key) (kr_value key), st : LibSt H).
Proof.
  intros Hok Hnd Hv Hw Hh Ho Ha args.
  destruct (update_keys_reports (TcMsgOperType_value oper) sid cid phase reports Hnd Hv)
    as (k&Ek&Hr&Hk). split; [|split].
  - destruct (lwp_result _ _ _ (report_calls_write ipc Hok reports driver Hw)) as ([]&st&E&Hst). eauto.
  - assert (commit_message TCLIB_COMMIT_DRV_RESULT args = Some (oper, sid, cid,
      HandleCommitDriverResult sid cid phase (result_of <$> reports))) as Hm.
    { unfold commit_message, args, result_args in *. rewrite result_header. cbn [mbind option_bind].
      rewrite Ek, Hr. by destruct Ho as [-> | ->]. }
    destruct (commit_message_outcome ipc _ _ m _ _ _ _ Hh Hm) as (ret&out&calls&m'&E&_&Hout).
    rewrite Ha in Hout. destruct Hout as (r&->&_). eauto.
  - exists k. split; [exact Ek|]. intros st r i key Hst Hin Hi. eapply key_read_back; [exact Hst| |exact Hi].
    by apply (proj1 (list.Forall_forall _ _) Hk).
Qed.

(** Three controllers, the first with a version, the second with a key in error, reported by a driver in
    its vote to UPLL, which has voted. *)
Definition three_reports : list Report :=
  [mkReport "c0" 0 (Some (7, 1000, "pfc"%string)) [];
   mkReport "c2" 1 None [mkKeyReport 11 "key_vtn" "val_vtn" "v1" (Some "data")];
   mkReport "c3" 0 None []].

Definition voting_driver : LibSt Yes :=
  mkLibSt (set_sess (set_oper_state upll_yes MSG_COMMIT_DRIVER_VOTE) SCurrent) (mkSrv [] []) [].

Lemma driver_results_roundtrip_witness :
  let args := result_args (TcMsgOperType_value MSG_COMMIT_VOTE_DRIVER_RESULT) 5 1 0 three_reports in
  exists k, update_keys args = Some (TC_SUCCESS, k) /\
    api srv_ok (TcLibReadKeyValueDataInfo "c2" 0 11 "key_vtn" "val_vtn" true)
      (mkLibSt (set_results (set_sess (set_oper_state upll_yes MSG_COMMIT_VOTE_DRIVER_RESULT) SCurrent)
                  (kl_map k) (kl_controllers k) (kl_results k)) (mkSrv args []) []) =
    Some (AData "v1" (Some "data"),
      mkLibSt (set_results (set_sess (set_oper_state upll_yes MSG_COMMIT_VOTE_DRIVER_RESULT) SCurrent)
                  (kl_map k) (kl_controllers k) (kl_results k)) (mkSrv args []) []).
Proof.
  intros args.
  destruct (driver_results_roundtrip srv_ok three_reports MSG_COMMIT_VOTE_DRIVER_RESULT 5 1 0
    voting_driver (set_oper_state upll_yes MSG_COMMIT_VOTE)) as (_&_&k&Ek&Hr).
  - reflexivity.
  - apply (bool_decide_unpack _). vm_compute. exact I.
  - reflexivity.
  - split; [reflexivity|discriminate].
  - by eexists.
  - by left.
  - reflexivity.
  - exists k. split; [exact Ek|].
    apply (Hr _ (mkReport "c2" 1 None [mkKeyReport 11 "key_vtn" "val_vtn" "v1" (Some "data"%string)])
      0%nat (mkKeyReport 11 "key_vtn" "val_vtn" "v1" (Some "data"%string))).
    + split_and!; reflexivity.
    + right. left.
    + reflexivity.
Defined.

(** ** Reports without a version *)

(** A controller without errors, reported without a version: the other
    [TcLibWriteControllerInfo]. *)
Definition bare_values (p : string * Z) : list IpcValue := controller_info p.1 p.2 0.

(** A controller reported without a version takes the version of a later
    controller, and the controllers in between are lost.  If some controllers
    are reported without a version and the last of them with one, UPLL and
    UPPL are told of the first controller only, with the version of the
    last. *)
Theorem version_taken_from_later oper sid cid phase p ps number date app :
  exists k, update_keys ([VU8 oper; VU32 sid; VU32 cid; VU8 phase] ++
      concat (bare_values <$> p :: ps) ++ commit_info number date app) = Some (TC_SUCCESS, k) /\
    kl_results k = [mkResult p.1 p.2 0 [] number date app].
Proof.
  set (hdr := [VU8 oper; VU32 sid; VU32 cid; VU8 phase]).
  set (skip := concat (bare_values <$> ps)).
  set (args := hdr ++ concat (bare_values <$> p :: ps) ++ commit_info number date app).
  assert (args = (hdr ++ bare_values p) ++ skip ++ commit_info number date app) as Ea.
  { unfold args, skip. rewrite fmap_cons. cbn [concat]. by rewrite <- !app_assoc. }
  assert (Forall (fun v => type_of v <> IPC_UINT64) skip) as Hskip.
  { unfold skip. clear. induction ps as [|q ps IH]; [constructor|]. rewrite fmap_cons. cbn [concat].
    apply Forall_app. split; [repeat constructor; discriminate|done]. }
  set (q := (7 + length skip)%nat).
  assert (located args q (commit_info number date app)) as Hl.
  { assert (args = ((hdr ++ bare_values p) ++ skip) ++ commit_info number date app ++ []) as E
      by (by rewrite Ea, app_nil_r, <- app_assoc).
    replace q with (length ((hdr ++ bare_values p) ++ skip)) by (rewrite length_app; done).
    rewrite E. apply located_middle. }
  assert (read_commit_info args 6 = Some (Z.of_nat (q + 2), (number, date, app))) as Ei.
  { apply read_commit_info_at; [|done|lia]. rewrite Ea. etransitivity.
    { apply (match_next (hdr ++ bare_values p) skip (VU64 number) [VU64 date; VStr app]); [cbn; lia|done|done]. }
    unfold last_of, q. rewrite !length_app. cbn [length]. unfold hdr, bare_values. cbn. lia. }
  assert (controller_step args 3 (mkKeys ∅ ∅ []) =
    inr (Z.of_nat (q + 2), mkKeys ∅ ∅ [mkResult p.1 p.2 0 [] number date app])) as Es.
  { unfold controller_step. cbv zeta.
    assert (GetMatchTypeIndex args 3 IPC_STRING = Z.of_nat 4) as -> by
      (change 3 with (last_of hdr); unfold args; by rewrite GetMatchTypeIndex_after by (cbn; lia)).
    rewrite bool_decide_eq_false_2 by done. unfold read_str, read_u32.
    change (Z.of_nat 4 + 1) with (Z.of_nat 5). change (Z.of_nat 4 + 2) with (Z.of_nat 6).
    unfold srv_get_string, srv_get_uint32.
    rewrite (get_arg_at _ args 4 (VStr p.1) p.1), (get_arg_at _ args 5 (VU32 p.2) p.2),
      (get_arg_at _ args 6 (VU32 0) 0) by done.
    change (Z.of_nat 6) with 6. rewrite Ei. done. }
  exists (mkKeys ∅ ∅ [mkResult p.1 p.2 0 [] number date app]). split; [|done].
  assert (length args = q + 3)%nat as Hlen
    by (rewrite Ea; unfold q; rewrite !length_app; cbn [length hdr bare_values controller_info commit_info]; lia).
  unfold update_keys. change DRV_RESULT_START_POS with 3. rewrite Hlen.
  replace (S (q + 3)) with (S (S (q + 2))) by lia. cbn [controller_loop].
  rewrite bool_decide_eq_true_2 by lia. rewrite Es, bool_decide_eq_true_2 by lia.
  replace (Z.of_nat (q + 2)) with (last_of args) by (unfold last_of; lia).
  by rewrite controller_step_end by (split; [lia|exists []; split; [constructor|by rewrite !app_nil_r]]).
Qed.
