(* ===== verification/TcLibAudit.v ===== *)
(** * A driver asks for an audit

    [TcLibAuditControllerRequest] of [modules/tclib/tclib_module.cc]: a driver
    whose controller came up again asks the coordinator to audit it.  The
    client side of the IPC library is a parameter; what the coordinator makes
    of the request is in [TcOperAudit.Audit]. *)

From S2P Require Import Prelude TcTypes TcIpc TcMsg TcServer TcOper TcOperAudit.
From S2P Require Import TcLibTypes TcLib TcLibSequence TcNetwork TcOperProps.

Local Open Scope Z_scope.

(** What the library answers: error numbers, 0 for success. *)
Record TcClient := mkClient {
  cl_altopen : Z * Z;                       (* error, connection *)
  cl_session : Z;
  cl_addoutput : list IpcValue -> IpcValue -> Z;
  cl_invoke : list IpcValue -> Z * Z        (* error, response *)
}.

Inductive ConnEvent := ConnOpen | ConnInvoke (args : list IpcValue) | ConnClose.

(** [set_uint32], [set_string], [set_uint8] of [TcClientSessionUtils] in turn;
    [None] if one failed. *)
Fixpoint add_all (cl : TcClient) (vs args : list IpcValue) : option (list IpcValue) :=
  match vs with
  | [] => Some args
  | x :: vs' =>
      if u8 (cl_addoutput cl args x) !=? 0 then None else add_all cl vs' (args ++ [x])
  end.

(** The arguments; [force_reconnect] is 0. *)
Definition audit_args (controller_id : string) (ctr_type : Z) : list IpcValue :=
  [VU32 TC_OP_DRIVER_AUDIT; VStr controller_id; VU8 (u8 ctr_type); VU8 0].

Definition TcLibAuditControllerRequest {H} `{TcLibInterface H} (cl : TcClient)
    (controller_id : string) (m : TcLibModule H) : TcApiCommonRet * list ConnEvent :=
  match pTcLibInterface_ m with
  | None => (TC_API_COMMON_FAILURE, [])
  | Some h =>
      let ctr_type := controller_type h in
      if ctr_type ==? UNC_CT_UNKNOWN then (TC_API_COMMON_FAILURE, [])
      else
        let '(err, conn) := cl_altopen cl in
        if (err !=? 0) || (conn ==? 0) then (TC_API_FATAL, [])
        else if cl_session cl !=? 0 then (TC_API_FATAL, [ConnOpen; ConnClose])
        else
          match add_all cl (audit_args controller_id ctr_type) [] with
          | None => (TC_API_COMMON_FAILURE, [ConnOpen; ConnClose])
          | Some args =>
              let '(err, resp) := cl_invoke cl args in
              (if err !=? 0 then TC_API_FATAL
               else if resp ==? TcOperStatus_value TC_OPER_SUCCESS then TC_API_COMMON_SUCCESS
               else TC_API_COMMON_FAILURE,
               [ConnOpen; ConnInvoke args; ConnClose])
          end
  end.

Lemma add_all_args cl vs args out : add_all cl vs args = Some out -> out = args ++ vs.
Proof.
  revert args. induction vs as [|x vs IH]; intros args; cbn [add_all].
  - intros [= <-]. by rewrite app_nil_r.
  - destruct (_ !=? 0); [done|]. intros E. apply IH in E as ->. by rewrite <- app_assoc.
Qed.

(** The coordinator's side: a request for an audit is read to its end and
    handed to the task queue. *)
Lemma audit_args_dispatched {D} `{TcDbI D} (S : Setting D) c t out (st : OpSt D Audit.Ext) :
  c <> EmptyString -> 0 < t < 256 -> st_srv st = Some (mkSrv (audit_args c t) out) ->
  exists r st', v_HandleArgs (Audit.vtable S) st = Some (r, st') /\
    st_log st' = st_log st ++ [EvDispatchAudit c t] /\
    (r = TC_OPER_SUCCESS <-> e_post (set_the_env S) (st_log st) = 0).
Proof.
  intros Hc Ht Hs. assert (u8 t = t) as Et by (apply Z.mod_small; lia).
  unfold audit_args in Hs. rewrite Et in Hs. destruct st as [b x sh srv tr log]. cbn in Hs. subst srv.
  destruct c as [|a c]; [done|]. destruct t as [|p|p]; [lia| |lia]. cbn [st_log].
  destruct (e_post (set_the_env S) log) eqn:Ep; eexists _, _;
    (split;
       [cbv -[e_post set_the_env app]; fold (set_the_env S); rewrite Ep; reflexivity
       |split; [reflexivity|split; congruence]]).
Qed.

(** A driver's request for an audit is one the coordinator understands.
    Whatever fails on the way, a connection that was opened is closed, and at
    most one request is made on it; the driver is told of success only if it
    was made.  The coordinator, given this request, reads it to its end,
    hands the audit of this controller, with the type of the driver, to its
    task queue, and accepts exactly if the queue does. *)
Theorem audit_request_understood {H D} `{TcLibInterface H} `{TcDbI D} (S : Setting D) cl c
    (m : TcLibModule H) h ret ev out (st : OpSt D Audit.Ext) :
  pTcLibInterface_ m = Some h -> 0 < controller_type h < 256 -> c <> EmptyString ->
  TcLibAuditControllerRequest cl c m = (ret, ev) ->
  let args := audit_args c (controller_type h) in
  st_srv st = Some (mkSrv args out) ->
  (ev = [] \/ ev = [ConnOpen; ConnClose] \/ ev = [ConnOpen; ConnInvoke args; ConnClose]) /\
  (ret = TC_API_COMMON_SUCCESS -> ev = [ConnOpen; ConnInvoke args; ConnClose]) /\
  exists r st', v_HandleArgs (Audit.vtable S) st = Some (r, st') /\
    st_log st' = st_log st ++ [EvDispatchAudit c (controller_type h)] /\
    (r = TC_OPER_SUCCESS <-> e_post (set_the_env S) (st_log st) = 0).
Proof.
  intros Hh Ht Hc E args Hs.
  assert ((ev = [] \/ ev = [ConnOpen; ConnClose] \/ ev = [ConnOpen; ConnInvoke args; ConnClose]) /\
    (ret = TC_API_COMMON_SUCCESS -> ev = [ConnOpen; ConnInvoke args; ConnClose])) as [He Hr].
  { unfold TcLibAuditControllerRequest in E. rewrite Hh, bool_decide_eq_false_2 in E by (unfold UNC_CT_UNKNOWN; lia).
    destruct (cl_altopen cl) as [err conn]. destruct ((err !=? 0) || (conn ==? 0)); [injection E as <- <-; by split; [auto|]|].
    destruct (cl_session cl !=? 0); [injection E as <- <-; by split; [auto|]|].
    destruct (add_all cl _ []) as [a|] eqn:Ea; [|injection E as <- <-; by split; [auto|]].
    apply add_all_args in Ea as ->. destruct (cl_invoke cl _) as [e resp]. injection E as <- <-. split; auto. }
  split_and!; [exact He|exact Hr|]. by eapply audit_args_dispatched.
Qed.

(** The ODL driver asks for an audit of a controller. *)
Definition client_ok : TcClient :=
  mkClient (0, 1) 0 (fun _ _ => 0) (fun _ => (0, TcOperStatus_value TC_OPER_SUCCESS)).

Definition asked : OpSt Scenario.D Audit.Ext :=
  mkSt (base_new false) Audit.ext_new Scenario.shared
    (Some (mkSrv (audit_args "c1" UNC_CT_ODC) [])) [] [].

Lemma audit_request_understood_witness :
  exists ret ev r st',
    TcLibAuditControllerRequest client_ok "c1" (peer UNC_CT_ODC false false) = (ret, ev) /\
    ret = TC_API_COMMON_SUCCESS /\
    v_HandleArgs (Audit.vtable Scenario.setting) asked = Some (r, st') /\
    st_log st' = [EvDispatchAudit "c1" UNC_CT_ODC].
Proof.
  destruct (TcLibAuditControllerRequest client_ok "c1" (peer UNC_CT_ODC false false)) as [ret ev] eqn:E.
  destruct (audit_request_understood Scenario.setting client_ok "c1" (peer UNC_CT_ODC false false)
    (mkPeer UNC_CT_ODC false false) ret ev [] asked) as (_&_&r&st'&Er&Hl&_);
    [reflexivity|by vm_compute|discriminate|exact E|reflexivity|].
  exists ret, ev, r, st'. split; [reflexivity|]. split; [by injection E|]. split; [exact Er|exact Hl].
Defined.
