(* ===== verification/MgmtDb.v ===== *)
(** * The management database

    [MgmtDatabase] of [libs/mgmt/libuncmgmtdb/mgmt_database.cc], through which
    the session manager reads and changes users and passwords: a connection
    with one transaction, whose end commits if a statement changed something.
    The ODBC library and the database behind it are a parameter [MOdbc] over an
    abstract state; a call answers and changes that state as the parameter
    says.  [None] is an exception that nobody catches. *)

From S2P Require Import Prelude TcDb.

Local Open Scope Z_scope.

Inductive db_err_e :=
| DB_E_OK | DB_E_NG | DB_E_PARA_ERR | DB_E_NOTFOUND | DB_E_UPDATE_ERR | DB_E_TRANSACTION_ERR
| DB_E_CONNECT_ERR | DB_E_ALREADY_CONNECTED | DB_E_FATAL_ERR.

#[export] Instance db_err_e_eq_dec : EqDecision db_err_e.
Proof. solve_decision. Defined.

Inductive db_commit_e := DB_COMMIT | DB_ROLLBACK.

Inductive transaction_status_e :=
| STATUS_TRANSACTION_NONE | STATUS_TRANSACTION_BEGIN | STATUS_TRANSACTION_UPDATE
| STATUS_TRANSACTION_ABORT.

#[export] Instance transaction_status_e_eq_dec : EqDecision transaction_status_e.
Proof. solve_decision. Defined.

(** Types of columns, as ODBC numbers them. *)
Definition SQL_UNKNOWN_TYPE : Z := 0.
Definition SQL_INTEGER : Z := 4.
Definition SQL_SMALLINT : Z := 5.
Definition SQL_FLOAT : Z := 6.
Definition SQL_REAL : Z := 7.
Definition SQL_DOUBLE : Z := 8.
Definition SQL_VARCHAR : Z := 12.
Definition SQL_TYPE_DATE : Z := 91.
Definition SQL_TYPE_TIME : Z := 92.
Definition SQL_TYPE_TIMESTAMP : Z := 93.
Definition SQL_BIGINT : Z := -5.

Inductive variant_data_type_e :=
| VARIANT_UNKNOWN | VARIANT_STRING | VARIANT_INT8 | VARIANT_INT16 | VARIANT_INT32
| VARIANT_INT64 | VARIANT_FLOAT | VARIANT_DOUBLE | VARIANT_TIME | VARIANT_DATE
| VARIANT_TIMESTAMP.

(** A value of a column: its type and the content of the buffer or union,
    [CNull] when nothing was ever stored there. *)
Record variant_t := mkVariant { val_type : variant_data_type_e; val_data : SqlCell }.

Definition variant_new : variant_t := mkVariant VARIANT_UNKNOWN CNull.

(** The string and the number of a value; reading a member that was not
    written yields nothing. *)
Definition string_val (v : variant_t) : option string :=
  match val_data v with CStr s => Some s | _ => None end.
Definition v_int32 (v : variant_t) : option Z :=
  match val_data v with CInt n => Some n | _ => None end.

Record MOdbc (Db : Type) := mkMOdbc {
  m_alloc_env : Db -> Z * Db;
  m_alloc_connect : Db -> Z * Db;
  m_free_connect : Db -> Db;
  m_free_env : Db -> Db;
  m_driver_connect : string -> Db -> Z * Db;
  m_autocommit_off : Db -> Z * Db;
  m_transact : db_commit_e -> Db -> Z * Db;
  m_disconnect : Db -> Z * Db;
  m_alloc_stmt : Db -> bool * Db;
  m_free_stmt : Db -> Db;
  m_exec_direct : string -> Db -> Z * Db;
  m_row_count : Db -> Z * Z * Db;
  m_fetch : list Z -> Db -> Z * list SqlCell * Db
}.
#[global] Arguments mkMOdbc {Db}.
#[global] Arguments m_alloc_env {Db}.
#[global] Arguments m_alloc_connect {Db}.
#[global] Arguments m_free_connect {Db}.
#[global] Arguments m_free_env {Db}.
#[global] Arguments m_driver_connect {Db}.
#[global] Arguments m_autocommit_off {Db}.
#[global] Arguments m_transact {Db}.
#[global] Arguments m_disconnect {Db}.
#[global] Arguments m_alloc_stmt {Db}.
#[global] Arguments m_free_stmt {Db}.
#[global] Arguments m_exec_direct {Db}.
#[global] Arguments m_row_count {Db}.
#[global] Arguments m_fetch {Db}.

Record MgmtDatabase (Db : Type) := mkMgmt {
  henv_ : HandleState;
  hdbc_ : HandleState;
  status_database_ : transaction_status_e;
  mdb : Db
}.
#[global] Arguments mkMgmt {Db}.
#[global] Arguments henv_ {Db}.
#[global] Arguments hdbc_ {Db}.
#[global] Arguments status_database_ {Db}.
#[global] Arguments mdb {Db}.

Section Mgmt.

Context {Db : Type} (odbc : MOdbc Db).
Implicit Type d : MgmtDatabase Db.

Definition MgmtDatabase_new (x : Db) : MgmtDatabase Db :=
  mkMgmt HNull HNull STATUS_TRANSACTION_NONE x.

Definition set_status d (s : transaction_status_e) : MgmtDatabase Db :=
  mkMgmt (henv_ d) (hdbc_ d) s (mdb d).
Definition set_mdb d (x : Db) : MgmtDatabase Db :=
  mkMgmt (henv_ d) (hdbc_ d) (status_database_ d) x.

(** ** Handles *)

Definition Init d : bool * MgmtDatabase Db :=
  let '(rc, x1) := m_alloc_env odbc (mdb d) in
  if rc !=? SQL_SUCCESS then (false, mkMgmt (henv_ d) (hdbc_ d) STATUS_TRANSACTION_NONE x1)
  else
    let '(rc, x2) := m_alloc_connect odbc x1 in
    if rc !=? SQL_SUCCESS
    then (false, mkMgmt HNull HNull STATUS_TRANSACTION_NONE (m_free_env odbc x2))
    else (true, mkMgmt HAllocated HAllocated STATUS_TRANSACTION_NONE x2).

(** ** Transactions *)

Definition BeginTransaction d : db_err_e * MgmtDatabase Db :=
  if status_database_ d !=? STATUS_TRANSACTION_NONE then (DB_E_TRANSACTION_ERR, d)
  else (DB_E_OK, set_status d STATUS_TRANSACTION_BEGIN).

Definition EndTransaction (mode : db_commit_e) d : db_err_e * MgmtDatabase Db :=
  if status_database_ d ==? STATUS_TRANSACTION_NONE then (DB_E_TRANSACTION_ERR, d)
  else
    let commit_mode :=
      if status_database_ d ==? STATUS_TRANSACTION_ABORT then DB_ROLLBACK else mode in
    let '(rc, x) := m_transact odbc commit_mode (mdb d) in
    let d1 := set_mdb d x in
    if rc !=? SQL_SUCCESS then (DB_E_TRANSACTION_ERR, d1)
    else if status_database_ d1 !=? STATUS_TRANSACTION_ABORT
    then (DB_E_OK, set_status d1 STATUS_TRANSACTION_NONE)
    else (DB_E_OK, d1).

Definition Abort d : db_err_e * MgmtDatabase Db :=
  if status_database_ d ==? STATUS_TRANSACTION_NONE then (DB_E_TRANSACTION_ERR, d)
  else (DB_E_OK, set_status d STATUS_TRANSACTION_ABORT).

(** ** The connection *)

Definition MGMTDB_CONNECT_STRING : string := "DSN=UNC_DB_DSN".

Definition Connect d : db_err_e * MgmtDatabase Db :=
  let err_end d1 := (DB_E_CONNECT_ERR, set_mdb d1 (m_disconnect odbc (mdb d1)).2) in
  if status_database_ d !=? STATUS_TRANSACTION_NONE then (DB_E_CONNECT_ERR, d)
  else
    let '(rc, x) := m_driver_connect odbc MGMTDB_CONNECT_STRING (mdb d) in
    let d1 := set_mdb d x in
    if negb (sql_ok rc) then err_end d1
    else
      let '(rc, x) := m_autocommit_off odbc (mdb d1) in
      let d2 := set_mdb d1 x in
      if negb (sql_ok rc) then err_end d2
      else
        let '(e, d3) := BeginTransaction d2 in
        if e !=? DB_E_OK then err_end d3 else (DB_E_OK, d3).

Definition Disconnect d : db_err_e * MgmtDatabase Db :=
  if status_database_ d ==? STATUS_TRANSACTION_NONE then (DB_E_TRANSACTION_ERR, d)
  else
    let mode :=
      if status_database_ d ==? STATUS_TRANSACTION_UPDATE then DB_COMMIT else DB_ROLLBACK in
    let '(func_rtn, d1) := EndTransaction mode d in
    let '(rc, x) := m_disconnect odbc (mdb d1) in
    let d2 := set_mdb d1 x in
    if rc !=? SQL_SUCCESS then (DB_E_NG, d2)
    else (func_rtn, set_status d2 STATUS_TRANSACTION_NONE).

Definition Fini d : bool * MgmtDatabase Db :=
  let d1 := (Disconnect d).2 in
  (true, mkMgmt HNull HNull (status_database_ d1)
           (m_free_env odbc (m_free_connect odbc (mdb d1)))).

(** ** Statements *)

(** The type of the variant a column is bound to. *)
Definition bound_type (fetch_type : Z) : option variant_data_type_e :=
  if fetch_type ==? SQL_VARCHAR then Some VARIANT_STRING
  else if fetch_type ==? SQL_INTEGER then Some VARIANT_INT32
  else if fetch_type ==? SQL_SMALLINT then Some VARIANT_INT16
  else if fetch_type ==? SQL_BIGINT then Some VARIANT_INT64
  else if (fetch_type ==? SQL_REAL) || (fetch_type ==? SQL_FLOAT) then Some VARIANT_FLOAT
  else if fetch_type ==? SQL_DOUBLE then Some VARIANT_DOUBLE
  else if fetch_type ==? SQL_TYPE_DATE then Some VARIANT_DATE
  else if fetch_type ==? SQL_TYPE_TIME then Some VARIANT_TIME
  else if fetch_type ==? SQL_TYPE_TIMESTAMP then Some VARIANT_TIMESTAMP
  else None.

(** A new string buffer holds nothing. *)
Definition SetBindCol (fetch_type : Z) (get_data : variant_t) : db_err_e * variant_t :=
  match bound_type fetch_type with
  | Some VARIANT_STRING => (DB_E_OK, mkVariant VARIANT_STRING CNull)
  | Some t => (DB_E_OK, mkVariant t (val_data get_data))
  | None => (DB_E_NG, get_data)
  end.

(** The columns are bound in order; the first that cannot be ends it. *)
Fixpoint bind_columns (fetch_type : list Z) : option (list variant_t) :=
  match fetch_type with
  | [] => Some []
  | t :: ts =>
      let '(rc, v) := SetBindCol t variant_new in
      if rc !=? DB_E_OK then None
      else match bind_columns ts with Some vs => Some (v :: vs) | None => None end
  end.

(** What a fetch leaves in the bound variables: a NULL column leaves what was
    there. *)
Fixpoint store_row (bound : list variant_t) (cells : list SqlCell) : list variant_t :=
  match bound, cells with
  | v :: vs, CNull :: cs => v :: store_row vs cs
  | v :: vs, c :: cs => mkVariant (val_type v) c :: store_row vs cs
  | vs, _ => vs
  end.

(** The rows; a fetch that finds no more data is an error, like any other. *)
Fixpoint fetch_rows (n : nat) (fetch_type : list Z) (bound : list variant_t) d
    : db_err_e * list (list variant_t) * MgmtDatabase Db :=
  match n with
  | 0%nat => (DB_E_OK, [], d)
  | S n' =>
      let '(rc, cells, x) := m_fetch odbc fetch_type (mdb d) in
      let d1 := set_mdb d x in
      if negb (sql_ok rc) then (DB_E_NG, [], d1)
      else
        let row := store_row bound cells in
        let '(e, rows, d2) := fetch_rows n' fetch_type row d1 in (e, row :: rows, d2)
  end.

(** A negative count of rows makes [resize] throw. *)
Definition DbField2Value (fetch_type : list Z) d
    : option (db_err_e * list (list variant_t) * MgmtDatabase Db) :=
  let '(rc, row_count, x) := m_row_count odbc (mdb d) in
  let d1 := set_mdb d x in
  if rc !=? SQL_SUCCESS then Some (DB_E_NG, [], d1)
  else if bool_decide (row_count < 0) then None
  else match bind_columns fetch_type with
       | None => Some (DB_E_NG, [], d1)
       | Some bound => Some (fetch_rows (Z.to_nat row_count) fetch_type bound d1)
       end.

Definition Exec (sql_statement : string) (update_flag : bool) (fetch_type : list Z) d
    : option (db_err_e * list (list variant_t) * MgmtDatabase Db) :=
  if status_database_ d ==? STATUS_TRANSACTION_NONE then Some (DB_E_TRANSACTION_ERR, [], d)
  else if sql_statement ==? "" then Some (DB_E_PARA_ERR, [], d)
  else
    let '(handle, x) := m_alloc_stmt odbc (mdb d) in
    let d1 := set_mdb d x in
    if negb handle then Some (DB_E_FATAL_ERR, [], d1)
    else
      let '(rc, x) := m_exec_direct odbc sql_statement (mdb d1) in
      let d2 := set_mdb d1 x in
      let free d := set_mdb d (m_free_stmt odbc (mdb d)) in
      if negb (sql_ok rc) then Some (DB_E_NG, [], free d2)
      else
        match (if fetch_type ==? [] then Some (DB_E_OK, [], d2)
               else DbField2Value fetch_type d2) with
        | None => None
        | Some (e, rows, d3) =>
            if e !=? DB_E_OK then Some (e, rows, free d3)
            else
              let d4 :=
                if update_flag && (status_database_ d3 !=? STATUS_TRANSACTION_ABORT)
                then set_status d3 STATUS_TRANSACTION_UPDATE else d3 in
              Some (DB_E_OK, rows, free d4)
        end.

(** ** The interface for C

    An object is a pointer, which may be NULL. *)

Definition mgmtdb_create (x : Db) : option (MgmtDatabase Db) * Db :=
  let '(ret, d) := Init (MgmtDatabase_new x) in
  if ret : bool then (Some d, mdb d) else (None, mdb (Fini d).2).

Definition c_result (e : db_err_e) : Z := if e ==? DB_E_OK then 0 else -1.

Definition mgmtdb_connect (o : option (MgmtDatabase Db)) : Z * option (MgmtDatabase Db) :=
  match o with
  | None => (-1, None)
  | Some d => let '(e, d1) := Connect d in (c_result e, Some d1)
  end.

Definition mgmtdb_disconnect (o : option (MgmtDatabase Db)) : Z * option (MgmtDatabase Db) :=
  match o with
  | None => (-1, None)
  | Some d => (0, Some (Disconnect d).2)
  end.

Definition mgmtdb_abort (o : option (MgmtDatabase Db)) : Z * option (MgmtDatabase Db) :=
  match o with
  | None => (-1, None)
  | Some d => let '(e, d1) := Abort d in (c_result e, Some d1)
  end.

(** The type of the only column that is fetched. *)
Definition data_type_of (data_type : string) : Z :=
  if data_type ==? "NUMBER" then SQL_INTEGER
  else if data_type ==? "TEXT" then SQL_VARCHAR
  else SQL_UNKNOWN_TYPE.

(** The second result is what is stored through [data], if anything. *)
Definition mgmtdb_one_execute (o : option (MgmtDatabase Db)) (sql_statement : string)
    (update : bool) (data_type : string)
    : option (Z * option SqlCell * option (MgmtDatabase Db)) :=
  match o with
  | None => Some (-1, None, None)
  | Some d =>
      let t := data_type_of data_type in
      match Exec sql_statement update (if t ==? SQL_UNKNOWN_TYPE then [] else [t]) d with
      | None => None
      | Some (e, rows, d1) =>
          if (e ==? DB_E_OK) && (t !=? SQL_UNKNOWN_TYPE) then
            match rows with
            | [[v]] => Some (0, Some (val_data v), Some d1)
            | _ => Some (-1, None, Some d1)
            end
          else Some (c_result e, None, Some d1)
      end
  end.

End Mgmt.
