(* ===== verification/UsessTypes.v ===== *)
(** * Data and configuration of the session manager

    The codes of [include/unc/usess_ipc.h], the structures of
    [ipc/usess.ipct] and the four blocks of configuration that
    [modules/usess/usess_conf_*.cc] load.  Numbers that arrive in requests may
    have any value, so codes are numbers, but for the errors, which only the
    module produces.  A fixed array of characters is the string before its
    terminator. *)

From S2P Require Import Prelude.

Local Open Scope Z_scope.

(** ** Codes *)

Inductive usess_ipc_err_e :=
| USESS_E_OK | USESS_E_NG | USESS_E_INVALID_SESSID | USESS_E_NO_SUCH_SESSID
| USESS_E_INVALID_PRIVILEGE | USESS_E_INVALID_MODE | USESS_E_INVALID_SESSTYPE
| USESS_E_INVALID_USER | USESS_E_INVALID_PASSWD | USESS_E_SESS_OVER.

#[export] Instance usess_ipc_err_e_eq_dec : EqDecision usess_ipc_err_e.
Proof. solve_decision. Defined.

Definition USESS_ID_INVALID : Z := 0.

Definition USESS_TYPE_UNKNOWN : Z := 0.
Definition USESS_TYPE_CLI : Z := 1.
Definition USESS_TYPE_CLI_DAEMON : Z := 2.
Definition USESS_TYPE_WEB_API : Z := 3.
Definition USESS_TYPE_WEB_UI : Z := 4.

Definition USER_TYPE_UNKNOWN : Z := 0.
Definition USER_TYPE_OPER : Z := 1.
Definition USER_TYPE_ADMIN : Z := 2.

Definition USESS_MODE_OPER : Z := 1.
Definition USESS_MODE_ENABLE : Z := 2.

Definition CONFIG_STATUS_NONE : Z := 0.
Definition CONFIG_STATUS_TCLOCK : Z := 1.

Definition HASH_TYPE_MD5 : Z := 1.
Definition HASH_TYPE_SHA256 : Z := 5.
Definition HASH_TYPE_SHA512 : Z := 6.

Definition kDefaultUser_CLIAdmin : string := "UNC_CLI_ADMIN".
Definition kDefaultUser_WebAdmin : string := "UNC_WEB_ADMIN".

(** Service identifiers. *)
Definition kUsessSessAdd : Z := 0.
Definition kUsessSessDel : Z := 1.
Definition kUsessSessTypeDel : Z := 2.
Definition kUsessEnable : Z := 3.
Definition kUsessDisable : Z := 4.
Definition kUsessSessCount : Z := 5.
Definition kUsessSessList : Z := 6.
Definition kUsessSessDetail : Z := 7.
Definition kUserUserPasswd : Z := 8.
Definition kUserEnablePasswd : Z := 9.
Definition kUsessIpcNipcs : Z := 10.

(** ** Structures of the requests and responses *)

Record usess_ipc_sess_id_t := mkSessId { id : Z }.

Record usess_ipc_timespec_t := mkTimespec { tv_sec : Z; tv_nsec : Z }.

Record usess_ipc_req_sess_add_t := mkReqAdd {
  add_uname : string;
  add_passwd : string;
  add_login_name : string;
  add_sess_type : Z;
  add_ipaddr : Z;
  add_info : string
}.

Record usess_ipc_res_sess_info_t := mkInfo {
  sess : usess_ipc_sess_id_t;
  sess_type : Z;
  sess_mode : Z;
  user_type : Z;
  config_status : Z;
  login_name : string;
  sess_uname : string;
  ipaddr : Z;
  login_time : usess_ipc_timespec_t;
  info : string
}.

(** The values that travel in requests and responses. *)
Inductive UsessValue :=
| VSessAdd (r : usess_ipc_req_sess_add_t)
| VSessDel (current delsess : usess_ipc_sess_id_t)
| VSessTypeDel (sess_type : Z)
| VSessEnable (current : usess_ipc_sess_id_t) (enable_passwd : string)
| VSessDetail (current detail : usess_ipc_sess_id_t)
| VUserPasswd (current : usess_ipc_sess_id_t) (sess_uname sess_passwd : string)
| VEnablePasswd (current : usess_ipc_sess_id_t) (enable_passwd : string)
| VSessId (s : usess_ipc_sess_id_t)
| VSessInfo (s : usess_ipc_res_sess_info_t)
| VCount (n : Z).

(** ** The configuration file

    A block or an entry of a map, given by its name and key, is a set of
    parameters.  The format file [usess.cfdef] gives each parameter its type,
    so that a value of another type does not occur. *)

Inductive ConfVal := CfBool (b : bool) | CfNum (n : Z) | CfStr (s : string).

Definition ConfBlock : Type := gmap string ConfVal.
Definition ConfFile : Type := string -> string -> option ConfBlock.

Definition getBool (b : ConfBlock) (name : string) (defval : bool) : bool :=
  match b !! name with Some (CfBool x) => x | _ => defval end.
Definition getNumber (b : ConfBlock) (name : string) (defval : Z) : Z :=
  match b !! name with Some (CfNum x) => x | _ => defval end.
Definition getString (b : ConfBlock) (name : string) (defval : string) : string :=
  match b !! name with Some (CfStr x) => x | _ => defval end.

(** *** [UsessConfCommon] *)

Record usess_conf_common_t := mkConfCommon { lock_timeout : usess_ipc_timespec_t }.

Definition common_default : usess_conf_common_t := mkConfCommon (mkTimespec (-1) (-1)).

(** A failed load leaves the default values. *)
Definition UsessConfCommon_LoadConf (f : ConfFile) : usess_ipc_err_e * usess_conf_common_t :=
  match f "usess_conf_common" "" with
  | None => (USESS_E_NG, common_default)
  | Some b =>
      (USESS_E_OK,
       mkConfCommon
         (mkTimespec (getNumber b "lock_timeout_sec" (tv_sec (lock_timeout common_default)))
            (getNumber b "lock_timeout_nsec" (tv_nsec (lock_timeout common_default)))))
  end.

(** *** [UsessConfUser] and [UsessConfEnable] *)

Record usess_conf_user_t := mkConfUser {
  hash_type : Z;
  user_length : Z;
  user_regular : string;
  passwd_length : Z;
  passwd_regular : string
}.

Definition user_default : usess_conf_user_t :=
  mkConfUser HASH_TYPE_MD5 32 "[[:alpha:]_][[:alnum:]_]+" 72 "[[:alnum:][:graph:]]+".

Definition UsessConfUser_LoadConf (f : ConfFile) : usess_ipc_err_e * usess_conf_user_t :=
  match f "usess_conf_user" "" with
  | None => (USESS_E_NG, user_default)
  | Some b =>
      (USESS_E_OK,
       mkConfUser (getNumber b "hash" (hash_type user_default))
         (getNumber b "user_length" (user_length user_default))
         (getString b "user_regular" (user_regular user_default))
         (getNumber b "passwd_length" (passwd_length user_default))
         (getString b "passwd_regular" (passwd_regular user_default)))
  end.

Record usess_conf_enable_t := mkConfEnable {
  en_hash_type : Z;
  en_passwd_length : Z;
  en_passwd_regular : string
}.

Definition enable_default : usess_conf_enable_t :=
  mkConfEnable HASH_TYPE_MD5 72 "[[:alnum:][:graph:]]+".

Definition UsessConfEnable_LoadConf (f : ConfFile) : usess_ipc_err_e * usess_conf_enable_t :=
  match f "usess_conf_enable" "" with
  | None => (USESS_E_NG, enable_default)
  | Some b =>
      (USESS_E_OK,
       mkConfEnable (getNumber b "hash" (en_hash_type enable_default))
         (getNumber b "passwd_length" (en_passwd_length enable_default))
         (getString b "passwd_regular" (en_passwd_regular enable_default)))
  end.

(** *** [UsessConfSession] *)

Inductive usess_conf_session_map_type_e := ID_CLI | ID_WEB_API | ID_WEB_UI | ID_FIXED.

#[export] Instance usess_conf_session_map_type_e_eq_dec :
  EqDecision usess_conf_session_map_type_e.
Proof. solve_decision. Defined.

Record usess_conf_session_connect_num_t := mkConnect { limited : bool; max_session : Z }.
Record usess_conf_session_id_range_t := mkRange { start : Z; end_ : Z }.
Record usess_conf_session_parameter_t := mkParameter {
  range : usess_conf_session_id_range_t;
  connect : usess_conf_session_connect_num_t
}.

(** The array [local] is a function of its index. *)
Record usess_conf_session_t := mkConfSession {
  global : usess_conf_session_connect_num_t;
  local : usess_conf_session_map_type_e -> usess_conf_session_parameter_t
}.

Definition kConfMapKey_ (i : usess_conf_session_map_type_e) : string :=
  match i with
  | ID_CLI => "cli" | ID_WEB_API => "web_api" | ID_WEB_UI => "web_ui" | ID_FIXED => "fixed"
  end.

Definition session_default : usess_conf_session_t :=
  mkConfSession (mkConnect true 64) (fun i =>
    match i with
    | ID_CLI => mkParameter (mkRange 1 127) (mkConnect true 16)
    | ID_WEB_API => mkParameter (mkRange 1024 65535) (mkConnect true 64)
    | ID_WEB_UI => mkParameter (mkRange 256 511) (mkConnect true 24)
    | ID_FIXED => mkParameter (mkRange 128 255) (mkConnect false 0)
    end).

(** One entry of the map; the number of sessions is corrected to the size of
    the range, computed in 32 bits. *)
Definition load_parameter (b : ConfBlock) (dflt : usess_conf_session_parameter_t)
    : usess_conf_session_parameter_t :=
  let s := getNumber b "start_id" (start (range dflt)) in
  let e := getNumber b "end_id" (end_ (range dflt)) in
  let l := getBool b "limited" (limited (connect dflt)) in
  let m := getNumber b "max_session" (max_session (connect dflt)) in
  let range_num := (e - s + 1) mod UINT32_MOD in
  mkParameter (mkRange s e) (mkConnect l (if bool_decide (range_num < m) then range_num else m)).

Definition UsessConfSession_LoadConf (f : ConfFile) : usess_ipc_err_e * usess_conf_session_t :=
  let map_of i := f "usess_session_parameter" (kConfMapKey_ i) in
  match f "usess_session_info" "", map_of ID_CLI, map_of ID_WEB_API, map_of ID_WEB_UI,
        map_of ID_FIXED with
  | Some g, Some cli, Some web_api, Some web_ui, Some fixed =>
      (USESS_E_OK,
       mkConfSession
         (mkConnect (getBool g "limited" (limited (global session_default)))
            (getNumber g "max_session" (max_session (global session_default))))
         (fun i =>
            load_parameter
              match i with
              | ID_CLI => cli | ID_WEB_API => web_api | ID_WEB_UI => web_ui | ID_FIXED => fixed
              end (local session_default i)))
  | _, _, _, _, _ => (USESS_E_NG, session_default)
  end.
