(* ===== verification/UsessBase.v ===== *)
(** * State and environment of the session manager

    The members of [Usess] and of the classes it consists of
    ([modules/usess/include/*.hh]), the environment it runs in, and the monad
    its methods are programs in.  The environment is a parameter [Platform]:
    the database, [crypt], regular expressions, the clock, the lock, and what
    the other threads of the module do while this one does not hold the lock.
    Each call is recorded in a log, and an answer may depend on all that
    happened before.  The transaction coordinator is known by the interface
    [TcSessions].  A call that does not return, or whose behaviour the language
    does not define, has no result ([None]).

    The file also has [UsessBaseCommon] ([usess_base_common.cc]). *)

From S2P Require Import Prelude MgmtDb UsessTypes TcModule.
From stdpp Require Import pretty.

Local Open Scope Z_scope.

(** ** What the session manager asks of the transaction coordinator *)

Class TcSessions (T : Type) := {
  tc_present : T -> bool;
  tc_release_session : Z -> T -> option (TcApiRet * T);
  tc_get_config_session : T -> option (TcApiRet * option (Z * Z) * T)
}.

(** ** Members *)

(** [UsessSession] is its data: it refers to the configuration but never reads
    it.  [table_] is a map in order of its keys. *)
Record UsessSessions := mkSessions {
  table_ : gmap Z usess_ipc_res_sess_info_t;
  sessions_conf_ : usess_conf_session_t;
  allocated_sess_id_ : usess_conf_session_map_type_e -> Z
}.

Record UsessUser := mkUser {
  u_name : string;
  u_passwd_type : Z;
  u_passwd_digest : string;
  u_type : Z;
  u_conf : usess_conf_user_t
}.

Definition UsessUser_new : UsessUser := mkUser "" 0 "" USER_TYPE_UNKNOWN user_default.

(** The members of [Usess], with the configuration file as it was last read. *)
Record Usess (Db : Type) := mkUsess {
  conf_ : usess_conf_common_t;
  database_ : MgmtDatabase Db;
  sessions_ : UsessSessions;
  users_ : usess_conf_user_t;
  enable_ : usess_conf_enable_t;
  event_id_conf_reload_ : bool;       (* a handler is registered *)
  conf_file : ConfFile
}.
#[global] Arguments mkUsess {Db}.
#[global] Arguments conf_ {Db}.
#[global] Arguments database_ {Db}.
#[global] Arguments sessions_ {Db}.
#[global] Arguments users_ {Db}.
#[global] Arguments enable_ {Db}.
#[global] Arguments event_id_conf_reload_ {Db}.
#[global] Arguments conf_file {Db}.

(** ** The environment *)

Inductive LockMode := ReadLock | WriteLock.

Inductive UEvent :=
| ELock (m : LockMode) (rc : Z)
| EUnlock
| EClock
| EOutput (v : UsessValue) (rc : Z)
| ERelease (sid : Z)
| EAddHandler (rc : Z)
| ERemoveHandler (rc : Z)
| EReload (rc : Z).

Record Platform (Db T : Type) := mkPlatform {
  pl_odbc : MOdbc Db;
  pl_crypt : string -> string -> option string;
  pl_regcomp : string -> Z;
  pl_regexec : string -> string -> Z * (Z * Z);
  pl_clock : list UEvent -> Z * usess_ipc_timespec_t;
  pl_lock : list UEvent -> LockMode -> usess_ipc_timespec_t -> Z;
  pl_output : list UEvent -> UsessValue -> Z;
  pl_add_handler : list UEvent -> Z;
  pl_remove_handler : list UEvent -> Z;
  pl_reload : list UEvent -> Z * ConfFile;
  pl_others : list UEvent -> Usess Db * T -> Usess Db * T
}.
#[global] Arguments mkPlatform {Db T}.
#[global] Arguments pl_odbc {Db T}.
#[global] Arguments pl_crypt {Db T}.
#[global] Arguments pl_regcomp {Db T}.
#[global] Arguments pl_regexec {Db T}.
#[global] Arguments pl_clock {Db T}.
#[global] Arguments pl_lock {Db T}.
#[global] Arguments pl_output {Db T}.
#[global] Arguments pl_add_handler {Db T}.
#[global] Arguments pl_remove_handler {Db T}.
#[global] Arguments pl_reload {Db T}.
#[global] Arguments pl_others {Db T}.

(** ** Programs *)

Record USt (Db T : Type) := mkUSt {
  u_mod : Usess Db;
  u_tc : T;
  u_out : list UsessValue;
  u_log : list UEvent
}.
#[global] Arguments mkUSt {Db T}.
#[global] Arguments u_mod {Db T}.
#[global] Arguments u_tc {Db T}.
#[global] Arguments u_out {Db T}.
#[global] Arguments u_log {Db T}.

Definition U (Db T A : Type) : Type := USt Db T -> option (A * USt Db T).

Definition uret {Db T A} (a : A) : U Db T A := fun st => Some (a, st).
Definition ubind {Db T A B} (m : U Db T A) (f : A -> U Db T B) : U Db T B := fun st =>
  match m st with
  | Some (a, st1) => f a st1
  | None => None
  end.
Definition ustuck {Db T A} : U Db T A := fun _ => None.

Declare Scope usess_scope.
Delimit Scope usess_scope with usess.
Notation "'let!' x ':=' m 'in' k" := (ubind m (fun x => k))
  (at level 200, x binder, m at level 100, k at level 200, only parsing) : usess_scope.
Notation "'do!' m 'in' k" := (ubind m (fun _ => k))
  (at level 200, m at level 100, k at level 200, only parsing) : usess_scope.
#[global] Open Scope usess_scope.

Section Programs.

Context {Db T : Type} `{TcSessions T} (P : Platform Db T).
Implicit Type st : USt Db T.

(** [GOTO_IF((rtn != USESS_E_OK), label, ...)] *)
Definition on_ok {A} (m : U Db T usess_ipc_err_e) (label : usess_ipc_err_e -> U Db T A)
    (k : U Db T A) : U Db T A :=
  let! e := m in if e !=? USESS_E_OK then label e else k.

(** Access to the members. *)
Definition member {A} (f : Usess Db -> A) : U Db T A := fun st => Some (f (u_mod st), st).
Definition update (f : Usess Db -> Usess Db) : U Db T unit := fun st =>
  Some (tt, mkUSt (f (u_mod st)) (u_tc st) (u_out st) (u_log st)).
Definition uevent (e : UEvent) : U Db T unit := fun st =>
  Some (tt, mkUSt (u_mod st) (u_tc st) (u_out st) (u_log st ++ [e])).

Definition set_conf (c : usess_conf_common_t) (m : Usess Db) : Usess Db :=
  mkUsess c (database_ m) (sessions_ m) (users_ m) (enable_ m) (event_id_conf_reload_ m)
    (conf_file m).
Definition set_database (d : MgmtDatabase Db) (m : Usess Db) : Usess Db :=
  mkUsess (conf_ m) d (sessions_ m) (users_ m) (enable_ m) (event_id_conf_reload_ m)
    (conf_file m).
Definition set_sessions (s : UsessSessions) (m : Usess Db) : Usess Db :=
  mkUsess (conf_ m) (database_ m) s (users_ m) (enable_ m) (event_id_conf_reload_ m)
    (conf_file m).
Definition set_users (c : usess_conf_user_t) (m : Usess Db) : Usess Db :=
  mkUsess (conf_ m) (database_ m) (sessions_ m) c (enable_ m) (event_id_conf_reload_ m)
    (conf_file m).
Definition set_enable (c : usess_conf_enable_t) (m : Usess Db) : Usess Db :=
  mkUsess (conf_ m) (database_ m) (sessions_ m) (users_ m) c (event_id_conf_reload_ m)
    (conf_file m).
Definition set_handler (b : bool) (m : Usess Db) : Usess Db :=
  mkUsess (conf_ m) (database_ m) (sessions_ m) (users_ m) (enable_ m) b (conf_file m).
Definition set_file (f : ConfFile) (m : Usess Db) : Usess Db :=
  mkUsess (conf_ m) (database_ m) (sessions_ m) (users_ m) (enable_ m)
    (event_id_conf_reload_ m) f.

(** *** The lock

    While a thread waits for the lock the others run; it sees what they left
    once it has the lock. *)
Definition others : U Db T unit := fun st =>
  let '(m, t) := pl_others P (u_log st) (u_mod st, u_tc st) in
  Some (tt, mkUSt m t (u_out st) (u_log st)).

Definition timedlock (mode : LockMode) : U Db T Z :=
  let! c := member conf_ in
  do! others in
  fun st =>
    let rc := pl_lock P (u_log st) mode (lock_timeout c) in
    (do! uevent (ELock mode rc) in uret rc) st.

(** [USESS_WLOCK] and [USESS_RLOCK], as a result code. *)
Definition USESS_LOCK (mode : LockMode) : U Db T usess_ipc_err_e :=
  let! rc := timedlock mode in uret (if rc !=? 0 then USESS_E_NG else USESS_E_OK).
Definition USESS_WLOCK : U Db T usess_ipc_err_e := USESS_LOCK WriteLock.
Definition USESS_RLOCK : U Db T usess_ipc_err_e := USESS_LOCK ReadLock.
Definition USESS_UNLOCK : U Db T unit := uevent EUnlock.

(** *** The database *)

Definition database_do {A} (f : MgmtDatabase Db -> A * MgmtDatabase Db) : U Db T A := fun st =>
  let '(a, d) := f (database_ (u_mod st)) in
  Some (a, mkUSt (set_database d (u_mod st)) (u_tc st) (u_out st) (u_log st)).

Definition db_result (e : db_err_e) : usess_ipc_err_e :=
  if e !=? DB_E_OK then USESS_E_NG else USESS_E_OK.
Definition CONNECT : U Db T usess_ipc_err_e :=
  let! e := database_do (Connect (pl_odbc P)) in uret (db_result e).
Definition DISCONNECT : U Db T usess_ipc_err_e :=
  let! e := database_do (Disconnect (pl_odbc P)) in uret (db_result e).

Definition database_exec (sql : string) (update_flag : bool) (fetch_type : list Z)
    : U Db T (db_err_e * list (list variant_t)) := fun st =>
  match Exec (pl_odbc P) sql update_flag fetch_type (database_ (u_mod st)) with
  | None => None
  | Some (e, rows, d) =>
      Some ((e, rows), mkUSt (set_database d (u_mod st)) (u_tc st) (u_out st) (u_log st))
  end.

(** *** Other services *)

Definition pfc_clock_get_realtime : U Db T (Z * usess_ipc_timespec_t) := fun st =>
  let r := pl_clock P (u_log st) in (do! uevent EClock in uret r) st.

Definition addOutput (v : UsessValue) : U Db T Z := fun st =>
  let rc := pl_output P (u_log st) v in
  Some (rc, mkUSt (u_mod st) (u_tc st) (if rc ==? 0 then u_out st ++ [v] else u_out st)
              (u_log st ++ [EOutput v rc])).

(** [getInstance("tc")] is not NULL. *)
Definition tc_instance : U Db T bool := fun st => Some (tc_present (u_tc st), st).

Definition TcReleaseSession (sid : Z) : U Db T TcApiRet := fun st =>
  match tc_release_session sid (u_tc st) with
  | None => None
  | Some (r, t) => Some (r, mkUSt (u_mod st) t (u_out st) (u_log st ++ [ERelease sid]))
  end.

Definition TcGetConfigSession : U Db T (TcApiRet * option (Z * Z)) := fun st =>
  match tc_get_config_session (u_tc st) with
  | None => None
  | Some (r, p, t) => Some ((r, p), mkUSt (u_mod st) t (u_out st) (u_log st))
  end.

(** ** [UsessBaseCommon]

    [crypt] returns NULL when it cannot hash; the code assigns its result to a
    string without a check. *)
Definition Hash_salt (str salt : string) : option string :=
  if salt ==? "" then Some ""%string else pl_crypt P str salt.

Definition is_hash_type (t : Z) : bool :=
  (t ==? HASH_TYPE_MD5) || (t ==? HASH_TYPE_SHA256) || (t ==? HASH_TYPE_SHA512).

(** The first variant, with a key; [snprintf] writes at most 127 characters. *)
Definition Hash_key (str hash_key : string) (t : Z) : option string :=
  if (hash_key ==? "") || negb (is_hash_type t) then Some ""%string
  else Hash_salt str (String.substring 0 127 ("$" +:+ pretty t +:+ "$" +:+ hash_key)).

Fixpoint zeros (n : nat) : string :=
  match n with 0%nat => "" | S n' => "0" +:+ (zeros n') end.

(** [%014ld] *)
Definition pad014 (z : Z) : string :=
  let digits := pretty (Z.abs z) in
  if bool_decide (z < 0)
  then "-" +:+ zeros (13 - String.length digits) +:+ digits
  else zeros (14 - String.length digits) +:+ digits.

Definition time_salt (hash_key : usess_ipc_timespec_t) (t : Z) : string :=
  String.substring 0 127 ("$" +:+ pretty t +:+ "$" +:+ pad014 (tv_sec hash_key)).

Definition Hash_time (str : string) (hash_key : usess_ipc_timespec_t) (t : Z) : option string :=
  if negb (is_hash_type t) then Some ""%string else Hash_salt str (time_salt hash_key t).

Definition CheckDigest (str hash_str salt : string) : option bool :=
  if (hash_str ==? "") || (salt ==? "") then Some false
  else match Hash_salt str salt with
       | None => None
       | Some cmp_str => Some (cmp_str ==? hash_str)
       end.

(** The whole string has to match; an empty string always does. *)
Definition CheckRegular (check_str regular_str : string) : bool :=
  if check_str ==? "" then true
  else if regular_str ==? "" then false
  else if pl_regcomp P regular_str !=? 0 then false
  else
    let '(rc, (rm_so, rm_eo)) := pl_regexec P regular_str check_str in
    if rc !=? 0 then false
    else (rm_so ==? 0) && (rm_eo ==? Z.of_nat (String.length check_str)).

End Programs.
