(* ===== verification/UsessAuth.v ===== *)
(** * Users, passwords and the enable mode

    [UsessUser] ([usess_user.cc]), [UsessUsers] ([usess_users.cc]) and
    [UsessEnable] ([usess_enable.cc]) of [modules/usess]: what the database
    says of a user, who may do what, and how passwords are checked and
    changed.  SQL statements are the text the code builds. *)

From S2P Require Import Prelude MgmtDb UsessTypes UsessBase.
From stdpp Require Import pretty.

Local Open Scope Z_scope.

(** [char passwd[73]] filled by [strncpy]. *)
Definition passwd_of (field : string) : string := String.substring 0 72 field.

Inductive user_privilege_e := kPrivilegeUserPasswd.
Inductive user_authenticate_e := kAuthenticateSessAdd.
Inductive enable_privilege_e := kPrivilegeEnable | kPrivilegeDisable | kPrivilegeEnablePasswd.
Inductive enable_authenticate_e := kAuthenticateEnable.

Definition user_select (name : string) : string :=
  "SELECT uname, passwd_hash, passwd, usertype" +:+
  "  FROM tbl_unc_usess_user" +:+
  "  WHERE uname = '" +:+ name +:+ "'" +:+
  "  AND (expiration >= CURRENT_DATE OR expiration IS NULL)".

(** [snprintf(hash_type, sizeof(hash_type) - 1, "%d", ...)] *)
Definition hash_number (t : Z) : string := String.substring 0 6 (pretty t).

Definition user_update (hash_passwd : string) (t : Z) (name : string) : string :=
  "UPDATE tbl_unc_usess_user" +:+
  " SET passwd = '" +:+ hash_passwd +:+ "'," +:+
  "   passwd_hash = '" +:+ hash_number t +:+ "'," +:+
  "   expiration = NULL," +:+
  "   modified = CURRENT_TIMESTAMP" +:+
  "   WHERE uname = '" +:+ name +:+ "'".

Definition enable_select : string :=
  "SELECT passwd_hash, passwd " +:+
  "   FROM tbl_unc_usess_enable" +:+
  "   WHERE mode ='" +:+ pretty USESS_MODE_ENABLE +:+ "'".

Definition enable_update (hash_passwd : string) (t : Z) : string :=
  "UPDATE tbl_unc_usess_enable" +:+
  " SET passwd = '" +:+ hash_passwd +:+ "'," +:+
  "     passwd_hash = '" +:+ hash_number t +:+ "'," +:+
  "     modified = CURRENT_TIMESTAMP" +:+
  "   WHERE mode ='" +:+ pretty USESS_MODE_ENABLE +:+ "'".

Section Auth.

Context {Db T : Type} `{TcSessions T} (P : Platform Db T).

(** ** [UsessUser] *)

Section User.

Context (user : UsessUser).

Definition CheckUserName (name : string) : bool :=
  if bool_decide (user_length (u_conf user) < Z.of_nat (String.length name)) then false
  else CheckRegular P name (user_regular (u_conf user)).

Definition User_CheckPassword (passwd : string) : bool :=
  if bool_decide (passwd_length (u_conf user) < Z.of_nat (String.length passwd)) then false
  else CheckRegular P passwd (passwd_regular (u_conf user)).

(** A column that is NULL leaves its variable undefined. *)
Definition SetUserData (rows : list (list variant_t))
    : option (usess_ipc_err_e * UsessUser) :=
  match rows with
  | [[c0; c1; c2; c3]] =>
      match string_val c0, v_int32 c1, string_val c2, v_int32 c3 with
      | Some name, Some t, Some digest, Some ut =>
          Some (USESS_E_OK, mkUser name t digest ut (u_conf user))
      | _, _, _, _ => None
      end
  | _ => Some (USESS_E_NG, user)
  end.

Definition Retrieve (name : string) : U Db T (usess_ipc_err_e * UsessUser) :=
  if negb (CheckUserName name) then uret (USESS_E_INVALID_USER, user)
  else
    let! p := database_exec P (user_select name) false
                [SQL_VARCHAR; SQL_INTEGER; SQL_VARCHAR; SQL_INTEGER] in
    if (p.1 !=? DB_E_OK) || (length p.2 ==? 0%nat) then uret (USESS_E_INVALID_USER, user)
    else match SetUserData p.2 with
         | None => ustuck
         | Some r => uret r
         end.

Definition User_Privilege (mode : user_privilege_e) (s : usess_ipc_res_sess_info_t)
    : usess_ipc_err_e :=
  match mode with
  | kPrivilegeUserPasswd =>
      if sess_mode s !=? USESS_MODE_ENABLE then USESS_E_INVALID_MODE
      else if u_name user !=? sess_uname s then USESS_E_INVALID_USER
      else USESS_E_OK
  end.

Definition User_Authenticate (mode : user_authenticate_e) (t : Z) (passwd : string)
    : option usess_ipc_err_e :=
  match mode with
  | kAuthenticateSessAdd =>
      if (u_name user ==? kDefaultUser_CLIAdmin) || (t ==? USESS_TYPE_CLI)
         || (t ==? USESS_TYPE_CLI_DAEMON) then Some USESS_E_OK
      else if negb (User_CheckPassword passwd) then Some USESS_E_INVALID_PASSWD
      else match CheckDigest P passwd (u_passwd_digest user) (u_passwd_digest user) with
           | None => None
           | Some ok => Some (if ok : bool then USESS_E_OK else USESS_E_INVALID_PASSWD)
           end
  end.

(** The result of reading the clock is not checked. *)
Definition User_ChangePassword (passwd : string) : U Db T usess_ipc_err_e :=
  if negb (User_CheckPassword passwd) then uret USESS_E_INVALID_PASSWD
  else
    let! now := pfc_clock_get_realtime P in
    match Hash_time P passwd now.2 (hash_type (u_conf user)) with
    | None => ustuck
    | Some hash_passwd =>
        if hash_passwd ==? "" then uret USESS_E_NG
        else
          let! p := database_exec P
                      (user_update hash_passwd (hash_type (u_conf user)) (u_name user))
                      true [] in
          uret (db_result p.1)
    end.

End User.

(** ** [UsessUsers] *)

Definition GetUser (name : string) : U Db T (usess_ipc_err_e * UsessUser) :=
  let! c := member users_ in
  Retrieve (mkUser (u_name UsessUser_new) (u_passwd_type UsessUser_new)
              (u_passwd_digest UsessUser_new) (u_type UsessUser_new) c) name.

Definition Users_LoadConf : U Db T usess_ipc_err_e :=
  let! f := member conf_file in
  let '(e, c) := UsessConfUser_LoadConf f in
  do! update (set_users c) in uret e.

Definition Users_Init : U Db T bool :=
  let! e := Users_LoadConf in uret (e ==? USESS_E_OK).

(** ** [UsessEnable] *)

Definition Enable_LoadConf : U Db T usess_ipc_err_e :=
  let! f := member conf_file in
  let '(e, c) := UsessConfEnable_LoadConf f in
  do! update (set_enable c) in uret e.

Definition Enable_Init : U Db T bool :=
  let! e := Enable_LoadConf in uret (e ==? USESS_E_OK).

Definition Enable_CheckPassword (c : usess_conf_enable_t) (passwd : string) : bool :=
  if bool_decide (en_passwd_length c < Z.of_nat (String.length passwd)) then false
  else CheckRegular P passwd (en_passwd_regular c).

Definition Enable_Privilege (mode : enable_privilege_e) (s : usess_ipc_res_sess_info_t)
    : usess_ipc_err_e :=
  match mode with
  | kPrivilegeEnable =>
      if user_type s !=? USER_TYPE_ADMIN then USESS_E_INVALID_PRIVILEGE else USESS_E_OK
  | kPrivilegeDisable => USESS_E_OK
  | kPrivilegeEnablePasswd =>
      if sess_mode s !=? USESS_MODE_ENABLE then USESS_E_INVALID_MODE else USESS_E_OK
  end.

(** The administrator of the web needs no password. *)
Definition web_admin (s : usess_ipc_res_sess_info_t) : bool :=
  (sess_uname s ==? kDefaultUser_WebAdmin) &&
  ((sess_type s ==? USESS_TYPE_WEB_API) || (sess_type s ==? USESS_TYPE_WEB_UI)).

Definition Enable_Authenticate (mode : enable_authenticate_e) (s : usess_ipc_res_sess_info_t)
    (passwd : string) : U Db T usess_ipc_err_e :=
  match mode with
  | kAuthenticateEnable =>
      if web_admin s then uret USESS_E_OK
      else
        let! c := member enable_ in
        if negb (Enable_CheckPassword c passwd) then uret USESS_E_INVALID_PASSWD
        else
          let! p := database_exec P enable_select false [SQL_INTEGER; SQL_VARCHAR] in
          if (p.1 !=? DB_E_OK) || (length p.2 ==? 0%nat) then uret USESS_E_NG
          else match p.2 with
               | [[_; digest]] =>
                   match string_val digest with
                   | None => ustuck
                   | Some d =>
                       match CheckDigest P passwd d d with
                       | None => ustuck
                       | Some ok =>
                           uret (if ok : bool then USESS_E_OK else USESS_E_INVALID_PASSWD)
                       end
                   end
               | _ => uret USESS_E_NG
               end
  end.

Definition Enable_ChangePassword (passwd : string) : U Db T usess_ipc_err_e :=
  let! c := member enable_ in
  if negb (Enable_CheckPassword c passwd) then uret USESS_E_INVALID_PASSWD
  else
    let! now := pfc_clock_get_realtime P in
    match Hash_time P passwd now.2 (en_hash_type c) with
    | None => ustuck
    | Some hash_passwd =>
        if hash_passwd ==? "" then uret USESS_E_INVALID_PASSWD
        else
          let! p := database_exec P (enable_update hash_passwd (en_hash_type c)) true [] in
          uret (db_result p.1)
    end.

End Auth.
