(* ===== verification/UsessSessions.v ===== *)
(** * The table of sessions

    [UsessSessions] ([usess_sessions.cc]) and [UsessSession]
    ([usess_session.cc]) of [modules/usess]: sessions are added with a new
    identifier within the limits of the configuration, deleted, listed, and
    moved between the operator and the enable mode.  A session that goes, or
    that leaves the enable mode, is reported to the transaction coordinator.

    A loop over identifiers counts in 32 bits; its fuel is one more than the
    number of sessions, since every round but the last meets a session. *)

From S2P Require Import Prelude TcModule UsessTypes UsessBase.
From stdpp Require Import sorting.

Local Open Scope Z_scope.

Inductive session_privilege_e :=
| kPrivilegeSessDel | kPrivilegeSessTypeDel | kPrivilegeSessCount | kPrivilegeSessList
| kPrivilegeSessDetail.

Definition CONF_LOCAL_ID (t : Z) : usess_conf_session_map_type_e :=
  if (t ==? USESS_TYPE_CLI) || (t ==? USESS_TYPE_CLI_DAEMON) then ID_CLI
  else if t ==? USESS_TYPE_WEB_API then ID_WEB_API
  else ID_WEB_UI.

Definition IsSessType (t : Z) : bool :=
  (t ==? USESS_TYPE_UNKNOWN) || (t ==? USESS_TYPE_CLI) || (t ==? USESS_TYPE_CLI_DAEMON)
  || (t ==? USESS_TYPE_WEB_API) || (t ==? USESS_TYPE_WEB_UI).

Definition IsUserType (t : Z) : bool :=
  (t ==? USER_TYPE_UNKNOWN) || (t ==? USER_TYPE_OPER) || (t ==? USER_TYPE_ADMIN).

Definition UsessSessions_new : UsessSessions :=
  mkSessions ∅ session_default (fun _ => USESS_ID_INVALID).

Notation table := (gmap Z usess_ipc_res_sess_info_t).

(** The order of iteration of a [std::map]. *)
Definition key_le : relation (Z * usess_ipc_res_sess_info_t) := fun p q => p.1 <= q.1.
#[export] Instance key_le_dec : RelDecision key_le.
Proof. intros p q. unfold key_le. apply _. Defined.

Definition in_order (t : table) : list (Z * usess_ipc_res_sess_info_t) :=
  merge_sort key_le (map_to_list t).

(** ** Identifiers and limits *)

Section Data.

Context (s : UsessSessions).

Definition info_of (t : Z) : usess_conf_session_parameter_t :=
  local (sessions_conf_ s) (CONF_LOCAL_ID t).

Definition GetCount : Z := Z.of_nat (size (table_ s)).

(** The sessions with an identifier from [a] to [b]. *)
Definition count_between (a b : Z) : Z :=
  Z.of_nat (size (filter (fun p => a <= p.1 <= b) (table_ s))).

(** The loop from [lower_bound(start)] to [upper_bound(end)].  If the range is
    the wrong way round the first may lie behind the second, and the loop runs
    over the end of the table. *)
Definition count_range (r : usess_conf_session_id_range_t) : option Z :=
  if bool_decide (end_ r < start r) then
    if bool_decide (filter (fun p => end_ r < p.1 < start r) (table_ s) = ∅) then Some 0
    else None
  else Some (count_between (start r) (end_ r)).

Definition CheckSessTypeCount (t : Z) : option bool :=
  let g := global (sessions_conf_ s) in
  if limited g && bool_decide (max_session g <= GetCount) then Some false
  else
    let i := info_of t in
    if limited (connect i) then
      match count_range (range i) with
      | None => None
      | Some sess_count => Some (negb (bool_decide (max_session (connect i) <= sess_count)))
      end
    else Some true.

(** [for (loop = ...; go_on(loop); ++loop) if (table_.count(loop) == 0) break;]
    yields the identifier where the loop breaks. *)
Fixpoint search (fuel : nat) (go_on : Z -> bool) (loop : Z) : option Z :=
  match fuel with
  | 0%nat => None
  | S fuel' =>
      if go_on loop then
        match table_ s !! loop with
        | None => Some loop
        | Some _ => search fuel' go_on (u32_inc loop)
        end
      else Some USESS_ID_INVALID
  end.

Definition id_search_start (t : Z) : Z :=
  let allocated := allocated_sess_id_ s (CONF_LOCAL_ID t) in
  let r := range (info_of t) in
  if (allocated !=? USESS_ID_INVALID) && bool_decide (allocated < end_ r)
  then allocated + 1 else start r.

Definition find_id (t : Z) : option Z :=
  let r := range (info_of t) in
  let fuel := S (size (table_ s)) in
  match search fuel (fun loop => bool_decide (loop <= end_ r)) (id_search_start t) with
  | None => None
  | Some n =>
      if n ==? USESS_ID_INVALID
      then search fuel (fun loop => bool_decide (loop < id_search_start t)) (start r)
      else Some n
  end.

End Data.

Definition set_table (t : table) (s : UsessSessions) : UsessSessions :=
  mkSessions t (sessions_conf_ s) (allocated_sess_id_ s).
Definition set_session_conf (c : usess_conf_session_t) (s : UsessSessions) : UsessSessions :=
  mkSessions (table_ s) c (allocated_sess_id_ s).
Definition set_allocated (i : usess_conf_session_map_type_e) (n : Z) (s : UsessSessions)
    : UsessSessions :=
  mkSessions (table_ s) (sessions_conf_ s)
    (fun j => if j ==? i then n else allocated_sess_id_ s j).

Definition GetNewSessionId (t : Z) (s : UsessSessions) : option (Z * UsessSessions) :=
  match find_id s t with
  | None => None
  | Some n =>
      if n !=? USESS_ID_INVALID then Some (n, set_allocated (CONF_LOCAL_ID t) n s)
      else Some (n, s)
  end.

(** [std::map::insert] keeps an entry that exists. *)
Definition insert_new (n : Z) (x : usess_ipc_res_sess_info_t) (t : table) : table :=
  match t !! n with Some _ => t | None => <[n := x]> t end.

Definition new_session (n : Z) (req : usess_ipc_req_sess_add_t) (user : UsessUser)
    (now : usess_ipc_timespec_t) : usess_ipc_res_sess_info_t :=
  mkInfo (mkSessId n) (add_sess_type req) USESS_MODE_OPER (u_type user) CONFIG_STATUS_NONE
    (add_login_name req) (add_uname req) (add_ipaddr req) now (add_info req).

(** ** Privileges *)

Definition is_fixed (s : UsessSessions) (n : Z) : bool :=
  let r := range (local (sessions_conf_ s) ID_FIXED) in
  bool_decide (start r <= n) && bool_decide (n <= end_ r).

(** Operators may handle their own session only. *)
Definition own_or_enabled (current target : Z) (x : usess_ipc_res_sess_info_t)
    : usess_ipc_err_e :=
  if sess_mode x ==? USESS_MODE_OPER then
    if current ==? target then USESS_E_OK else USESS_E_INVALID_PRIVILEGE
  else if sess_mode x ==? USESS_MODE_ENABLE then USESS_E_OK
  else USESS_E_INVALID_PRIVILEGE.

Definition Privilege (mode : session_privilege_e) (current target : usess_ipc_sess_id_t)
    (s : UsessSessions) : usess_ipc_err_e :=
  let current_it := table_ s !! id current in
  let target_missing :=
    (id current !=? id target) && negb (bool_decide (is_Some (table_ s !! id target))) in
  if is_fixed s (id current) then
    if target_missing then USESS_E_NO_SUCH_SESSID else USESS_E_OK
  else match current_it with
       | None => USESS_E_INVALID_SESSID
       | Some x =>
           if target_missing then USESS_E_NO_SUCH_SESSID
           else match mode with
                | kPrivilegeSessDel => own_or_enabled (id current) (id target) x
                | kPrivilegeSessCount => USESS_E_OK
                | kPrivilegeSessList => USESS_E_OK
                | kPrivilegeSessDetail => own_or_enabled (id current) (id target) x
                | kPrivilegeSessTypeDel => USESS_E_NG
                end
       end.

(** ** Operations *)

Section Operations.

Context {Db T : Type} `{TcSessions T} (P : Platform Db T).

Definition sessions_do {A} (f : UsessSessions -> option (A * UsessSessions)) : U Db T A :=
  fun st =>
    match f (sessions_ (u_mod st)) with
    | None => None
    | Some (a, s) =>
        Some (a, mkUSt (set_sessions s (u_mod st)) (u_tc st) (u_out st) (u_log st))
    end.
Definition sessions_update (f : UsessSessions -> UsessSessions) : U Db T unit :=
  sessions_do (fun s => Some (tt, f s)).

Definition Sessions_LoadConf : U Db T usess_ipc_err_e :=
  let! f := member conf_file in
  let '(e, c) := UsessConfSession_LoadConf f in
  do! sessions_update (set_session_conf c) in uret e.

Definition Sessions_Init : U Db T bool :=
  let! e := Sessions_LoadConf in
  if e !=? USESS_E_OK then uret false
  else
    do! sessions_update (fun s => mkSessions ∅ (sessions_conf_ s) (fun _ => USESS_ID_INVALID)) in
    uret true.

(** The second result is the identifier of the new session. *)
Definition Add (req : usess_ipc_req_sess_add_t) (user : UsessUser)
    : U Db T (usess_ipc_err_e * usess_ipc_sess_id_t) :=
  let fail e := uret (e, mkSessId USESS_ID_INVALID) in
  let t := add_sess_type req in
  if negb (IsSessType t) then fail USESS_E_INVALID_SESSTYPE
  else if negb (IsUserType (u_type user)) then fail USESS_E_INVALID_USER
  else
    let! room := sessions_do (fun s => match CheckSessTypeCount s t with
                                       | Some b => Some (b, s)
                                       | None => None
                                       end) in
    if negb room then fail USESS_E_SESS_OVER
    else
      let! now := pfc_clock_get_realtime P in
      if now.1 !=? 0 then fail USESS_E_NG
      else
        let! n := sessions_do (GetNewSessionId t) in
        if n ==? USESS_ID_INVALID then fail USESS_E_SESS_OVER
        else
          do! sessions_update (fun s =>
                set_table (insert_new n (new_session n req user now.2) (table_ s)) s) in
          uret (USESS_E_OK, mkSessId n).

(** [Del(const usess_ipc_sess_id_t&)]; what TC answers is only logged. *)
Definition Del_id (target : usess_ipc_sess_id_t) : U Db T usess_ipc_err_e :=
  let! s := member sessions_ in
  if negb (bool_decide (is_Some (table_ s !! id target))) then uret USESS_E_NO_SUCH_SESSID
  else
    let! tc := tc_instance in
    if negb tc then uret USESS_E_NG
    else
      do! TcReleaseSession (id target) in
      do! sessions_update (fun s => set_table (delete (id target) (table_ s)) s) in
      uret USESS_E_OK.

(** The loop over the table, given the entries in order. *)
Fixpoint del_loop (target : Z) (l : list (Z * usess_ipc_res_sess_info_t)) : U Db T unit :=
  match l with
  | [] => uret tt
  | (k, x) :: l' =>
      if sess_type x !=? target then del_loop target l'
      else
        do! TcReleaseSession (id (sess x)) in
        do! sessions_update (fun s => set_table (delete k (table_ s)) s) in
        del_loop target l'
  end.

(** [Del(const usess_type_e)] *)
Definition Del_type (target : Z) : U Db T usess_ipc_err_e :=
  if negb (IsSessType target) then uret USESS_E_INVALID_SESSTYPE
  else
    let! tc := tc_instance in
    if negb tc then uret USESS_E_NG
    else
      let! s := member sessions_ in
      do! del_loop target (in_order (table_ s)) in
      uret USESS_E_OK.

Fixpoint release_loop (l : list (Z * usess_ipc_res_sess_info_t)) : U Db T unit :=
  match l with
  | [] => uret tt
  | (_, x) :: l' => do! TcReleaseSession (id (sess x)) in release_loop l'
  end.

(** [Del(void)] *)
Definition Del_all : U Db T usess_ipc_err_e :=
  let! tc := tc_instance in
  if negb tc then uret USESS_E_NG
  else
    let! s := member sessions_ in
    do! release_loop (in_order (table_ s)) in
    do! sessions_update (set_table ∅) in
    uret USESS_E_OK.

Definition Sessions_Fini : U Db T bool :=
  do! Del_all in
  do! sessions_update (set_table ∅) in
  uret true.

(** The pointer to a session is its key; its data come along. *)
Definition GetSession (target : usess_ipc_sess_id_t)
    : U Db T (usess_ipc_err_e * option usess_ipc_res_sess_info_t) :=
  let! s := member sessions_ in
  match table_ s !! id target with
  | None => uret (USESS_E_NO_SUCH_SESSID, None)
  | Some x => uret (USESS_E_OK, Some x)
  end.

Definition with_config_status (c : Z) (x : usess_ipc_res_sess_info_t)
    : usess_ipc_res_sess_info_t :=
  mkInfo (sess x) (sess_type x) (sess_mode x) (user_type x) c (login_name x) (sess_uname x)
    (ipaddr x) (login_time x) (info x).
Definition with_mode (m : Z) (x : usess_ipc_res_sess_info_t) : usess_ipc_res_sess_info_t :=
  mkInfo (sess x) (sess_type x) m (user_type x) (config_status x) (login_name x) (sess_uname x)
    (ipaddr x) (login_time x) (info x).

(** The session of the configuration, if TC answers as it should. *)
Definition config_owner (r : TcApiRet * option (Z * Z)) : option (option Z) :=
  match r.1 with
  | TC_API_COMMON_SUCCESS => Some (Some match r.2 with Some (sid, _) => sid | None => 0 end)
  | TC_NO_CONFIG_SESSION | TC_INVALID_UNC_STATE => Some None
  | _ => None
  end.

Definition mark_owner (owner : option Z) (n : Z) (x : usess_ipc_res_sess_info_t) :=
  if owner ==? Some n then with_config_status CONFIG_STATUS_TCLOCK x else x.

(** [GetList(const usess_ipc_sess_id_t&, ...)] *)
Definition GetList_id (target : usess_ipc_sess_id_t)
    : U Db T (usess_ipc_err_e * list usess_ipc_res_sess_info_t) :=
  let! s := member sessions_ in
  match table_ s !! id target with
  | None => uret (USESS_E_NO_SUCH_SESSID, [])
  | Some x =>
      let! tc := tc_instance in
      if negb tc then uret (USESS_E_NG, [x])
      else
        let! r := TcGetConfigSession in
        match config_owner r with
        | None => uret (USESS_E_NG, [x])
        | Some owner => uret (USESS_E_OK, [mark_owner owner (id target) x])
        end
  end.

(** [GetList(usess_session_list_v&)] *)
Definition GetList_all : U Db T (usess_ipc_err_e * list usess_ipc_res_sess_info_t) :=
  let! tc := tc_instance in
  if negb tc then uret (USESS_E_NG, [])
  else
    let! r := TcGetConfigSession in
    match config_owner r with
    | None => uret (USESS_E_NG, [])
    | Some owner =>
        let! s := member sessions_ in
        uret (USESS_E_OK,
              (fun p => mark_owner owner (id (sess p.2)) p.2) <$> in_order (table_ s))
    end.

(** [UsessSession::TransitMode] of the session stored under the key [k].  The
    mode that is tested is the old one. *)
Definition TransitMode (k : Z) (mode : Z) : U Db T usess_ipc_err_e :=
  let! s := member sessions_ in
  match table_ s !! k with
  | None => ustuck
  | Some x =>
      if (sess_mode x !=? USESS_MODE_OPER) && (sess_mode x !=? USESS_MODE_ENABLE)
      then uret USESS_E_NG
      else
        let! tc := tc_instance in
        if (mode ==? USESS_MODE_OPER) && negb tc then uret USESS_E_NG
        else
          do! (if mode ==? USESS_MODE_OPER
               then (do! TcReleaseSession (id (sess x)) in uret tt) else uret tt) in
          do! sessions_update (fun s => set_table (<[k := with_mode mode x]> (table_ s)) s) in
          uret USESS_E_OK
  end.

End Operations.
