(* ===== verification/UsessModule.v ===== *)
(** * The module of the session manager

    [Usess] of [modules/usess/usess.cc]: start and stop, reload of the
    configuration, and the ten services.  A service works under the lock of the
    module; adding a session gives the lock up while the password is checked.
    [GOTO_IF] to a label is [on_ok] with the code behind the label. *)

From Stdlib Require Import Ascii.
From S2P Require Import Prelude TcDb TcModule MgmtDb UsessTypes UsessBase UsessAuth UsessSessions.

Local Open Scope Z_scope.

Section Module.

Context {Db T : Type} `{TcSessions T} (P : Platform Db T).

Notation err := usess_ipc_err_e.

(** The labels: give back the lock, or disconnect first. *)
Definition proc_end (e : err) : U Db T err := uret e.
Definition unlock_end (e : err) : U Db T err := do! USESS_UNLOCK in uret e.
Definition disconnect_end (e : err) : U Db T err :=
  do! database_do (Disconnect (pl_odbc P)) in unlock_end e.

(** [ipcsess.getArgument(0, receive_data)]: the request has the structure that
    is asked for, or the call fails. *)
Definition getArgument {A} (pick : UsessValue -> option A) (args : list UsessValue)
    (k : A -> U Db T err) : U Db T err :=
  match args with
  | v :: _ => match pick v with Some a => k a | None => proc_end USESS_E_NG end
  | [] => proc_end USESS_E_NG
  end.

Definition send (v : UsessValue) : U Db T err :=
  let! rc := addOutput P v in uret (if rc !=? 0 then USESS_E_NG else USESS_E_OK).

(** ** Services *)

(** The second half of adding a session, under the lock. *)
Definition add_locked (req : usess_ipc_req_sess_add_t) (user : UsessUser) : U Db T err :=
  let! p := Add P req user in
  if p.1 !=? USESS_E_OK then disconnect_end p.1
  else
    let! e := send (VSessId p.2) in
    do! (if e !=? USESS_E_OK then (do! Del_id p.2 in uret tt) else uret tt) in
    if e !=? USESS_E_OK then disconnect_end USESS_E_NG
    else unlock_end USESS_E_OK.

Definition UsessSessAddHandler (args : list UsessValue) : U Db T err :=
  getArgument (fun v => match v with VSessAdd r => Some r | _ => None end) args (fun req =>
  on_ok (USESS_WLOCK P) proc_end
  (on_ok (CONNECT P) disconnect_end
  (let! p := GetUser P (add_uname req) in
   if p.1 !=? USESS_E_OK then disconnect_end p.1
   else
   on_ok (DISCONNECT P) disconnect_end
   (do! USESS_UNLOCK in
    match User_Authenticate P p.2 kAuthenticateSessAdd (add_sess_type req)
            (passwd_of (add_passwd req)) with
    | None => ustuck
    | Some e =>
        if e !=? USESS_E_OK then proc_end e
        else on_ok (USESS_WLOCK P) proc_end (add_locked req p.2)
    end)))).

Definition UsessSessDelHandler (args : list UsessValue) : U Db T err :=
  getArgument (fun v => match v with VSessDel c d => Some (c, d) | _ => None end) args
  (fun '(current, delsess) =>
  on_ok (USESS_WLOCK P) proc_end
  (let! s := member sessions_ in
  on_ok (uret (Privilege kPrivilegeSessDel current delsess s)) unlock_end
  (on_ok (Del_id delsess) unlock_end
  (unlock_end USESS_E_OK)))).

Definition UsessSessTypeDelHandler (args : list UsessValue) : U Db T err :=
  getArgument (fun v => match v with VSessTypeDel t => Some t | _ => None end) args (fun t =>
  on_ok (USESS_WLOCK P) proc_end
  (on_ok (Del_type t) unlock_end
  (unlock_end USESS_E_OK))).

(** [GetSession] leaves the pointer NULL only if it fails. *)
Definition with_session (target : usess_ipc_sess_id_t) (label : err -> U Db T err)
    (k : usess_ipc_res_sess_info_t -> U Db T err) : U Db T err :=
  let! p := GetSession target in
  match p with
  | (USESS_E_OK, Some x) => k x
  | (USESS_E_OK, None) => ustuck
  | (e, _) => label e
  end.

Definition UsessEnableHandler (args : list UsessValue) : U Db T err :=
  getArgument (fun v => match v with VSessEnable c p => Some (c, p) | _ => None end) args
  (fun '(current, enable_passwd) =>
  on_ok (USESS_WLOCK P) proc_end
  (on_ok (CONNECT P) disconnect_end
  (with_session current disconnect_end (fun x =>
  on_ok (uret (Enable_Privilege kPrivilegeEnable x)) disconnect_end
  (on_ok (Enable_Authenticate P kAuthenticateEnable x (passwd_of enable_passwd)) disconnect_end
  (on_ok (TransitMode (id current) USESS_MODE_ENABLE) disconnect_end
  (on_ok (DISCONNECT P) disconnect_end
  (unlock_end USESS_E_OK)))))))).

Definition UsessDisableHandler (args : list UsessValue) : U Db T err :=
  getArgument (fun v => match v with VSessId c => Some c | _ => None end) args (fun current =>
  on_ok (USESS_WLOCK P) proc_end
  (with_session current unlock_end (fun x =>
  on_ok (uret (Enable_Privilege kPrivilegeDisable x)) unlock_end
  (on_ok (TransitMode (id current) USESS_MODE_OPER) unlock_end
  (unlock_end USESS_E_OK))))).

Definition UsessSessCountHandler (args : list UsessValue) : U Db T err :=
  getArgument (fun v => match v with VSessId c => Some c | _ => None end) args (fun current =>
  on_ok (USESS_RLOCK P) proc_end
  (let! s := member sessions_ in
  on_ok (uret (Privilege kPrivilegeSessCount current current s)) unlock_end
  (on_ok (send (VCount (GetCount s))) unlock_end
  (unlock_end USESS_E_OK)))).

Fixpoint send_list (l : list usess_ipc_res_sess_info_t) : U Db T err :=
  match l with
  | [] => uret USESS_E_OK
  | x :: l' => on_ok (send (VSessInfo x)) uret (send_list l')
  end.

Definition UsessSessListHandler (args : list UsessValue) : U Db T err :=
  getArgument (fun v => match v with VSessId c => Some c | _ => None end) args (fun current =>
  on_ok (USESS_RLOCK P) proc_end
  (let! s := member sessions_ in
  on_ok (uret (Privilege kPrivilegeSessList current current s)) unlock_end
  (let! p := GetList_all in
  if p.1 !=? USESS_E_OK then unlock_end p.1
  else
  on_ok (send_list p.2) unlock_end
  (unlock_end USESS_E_OK)))).

Definition UsessSessDetailHandler (args : list UsessValue) : U Db T err :=
  getArgument (fun v => match v with VSessDetail c d => Some (c, d) | _ => None end) args
  (fun '(current, detail) =>
  on_ok (USESS_RLOCK P) proc_end
  (let! s := member sessions_ in
  on_ok (uret (Privilege kPrivilegeSessDetail current detail s)) unlock_end
  (let! p := GetList_id detail in
  if p.1 !=? USESS_E_OK then unlock_end p.1
  else
  match p.2 with
  | [] => ustuck
  | x :: _ => on_ok (send (VSessInfo x)) unlock_end (unlock_end USESS_E_OK)
  end))).

Definition UserUserPasswdHandler (args : list UsessValue) : U Db T err :=
  getArgument (fun v => match v with VUserPasswd c n p => Some (c, n, p) | _ => None end) args
  (fun '(current, uname, passwd) =>
  on_ok (USESS_WLOCK P) proc_end
  (on_ok (CONNECT P) disconnect_end
  (with_session current disconnect_end (fun x =>
  let! p := GetUser P uname in
  if p.1 !=? USESS_E_OK then disconnect_end p.1
  else
  on_ok (uret (User_Privilege p.2 kPrivilegeUserPasswd x)) disconnect_end
  (on_ok (User_ChangePassword P p.2 (passwd_of passwd)) disconnect_end
  (on_ok (DISCONNECT P) disconnect_end
  (unlock_end USESS_E_OK))))))).

Definition UserEnablePasswdHandler (args : list UsessValue) : U Db T err :=
  getArgument (fun v => match v with VEnablePasswd c p => Some (c, p) | _ => None end) args
  (fun '(current, passwd) =>
  on_ok (USESS_WLOCK P) proc_end
  (on_ok (CONNECT P) disconnect_end
  (with_session current disconnect_end (fun x =>
  on_ok (uret (Enable_Privilege kPrivilegeEnablePasswd x)) disconnect_end
  (on_ok (Enable_ChangePassword P (passwd_of passwd)) disconnect_end
  (on_ok (DISCONNECT P) disconnect_end
  (unlock_end USESS_E_OK))))))).

(** The table of handlers. *)
Definition IpcHandler : list (list UsessValue -> U Db T err) :=
  [UsessSessAddHandler; UsessSessDelHandler; UsessSessTypeDelHandler; UsessEnableHandler;
   UsessDisableHandler; UsessSessCountHandler; UsessSessListHandler; UsessSessDetailHandler;
   UserUserPasswdHandler; UserEnablePasswdHandler].

(** A service identifier is unsigned. *)
Definition ipcService (args : list UsessValue) (service : Z) : U Db T err :=
  if bool_decide (kUsessIpcNipcs <= service) then uret USESS_E_NG
  else match IpcHandler !! Z.to_nat service with
       | None => ustuck
       | Some h => h args
       end.

(** ** Life cycle *)

(** A handler that cannot be removed does not count as a failure. *)
Definition fini_handler : U Db T unit :=
  let! registered := member event_id_conf_reload_ in
  if negb registered then uret tt
  else fun st =>
    let rc := pl_remove_handler P (u_log st) in
    (do! uevent (ERemoveHandler rc) in
     if rc ==? 0 then update (set_handler false) else uret tt) st.

(** Without the lock the members are finalised all the same; the [Fini] of the
    users and of the enable mode do nothing. *)
Definition fini : U Db T bool :=
  do! fini_handler in
  let! lock_rtn := timedlock P WriteLock in
  let! b1 := database_do (Fini (pl_odbc P)) in
  let! b2 := Sessions_Fini in
  do! (if lock_rtn ==? 0 then USESS_UNLOCK else uret tt) in
  uret ((lock_rtn ==? 0) && b1 && b2).

Definition register_reload : U Db T bool :=
  let! registered := member event_id_conf_reload_ in
  if registered : bool then uret true
  else fun st =>
    let rc := pl_add_handler P (u_log st) in
    (do! uevent (EAddHandler rc) in
     do! update (set_handler (rc ==? 0)) in uret (rc ==? 0)) st.

(** The steps of [init] under the lock, up to the first that fails. *)
Definition init_steps : U Db T bool :=
  let! b := database_do (Init (pl_odbc P)) in
  if negb b then uret false
  else
    let! b := Sessions_Init in
    if negb b then uret false
    else
      let! b := Users_Init in
      if negb b then uret false
      else
        let! b := Enable_Init in
        if negb b then uret false else register_reload.

Definition Common_LoadConf : U Db T err :=
  let! f := member conf_file in
  let '(e, c) := UsessConfCommon_LoadConf f in
  do! update (set_conf c) in uret e.

Definition init : U Db T bool :=
  let init_failed := do! fini in uret false in
  let unlock_failed := do! USESS_UNLOCK in init_failed in
  let! e := Common_LoadConf in
  if e !=? USESS_E_OK then unlock_failed
  else
    let! l := USESS_WLOCK P in
    if l !=? USESS_E_OK then init_failed
    else
      let! ok := init_steps in
      if negb ok then unlock_failed
      else do! USESS_UNLOCK in uret true.

(** A block that cannot be loaded takes its default values; the failure is only
    logged. *)
Definition ReloadConfEventHandler (is_reload : bool) : U Db T unit :=
  if negb is_reload then uret tt
  else
    let! rc := (fun st =>
      let '(rc, f) := pl_reload P (u_log st) in
      (do! uevent (EReload rc) in
       do! (if rc ==? 0 then update (set_file f) else uret tt) in uret rc) st) in
    if rc !=? 0 then uret tt
    else
      let! l := USESS_WLOCK P in
      if l !=? USESS_E_OK then uret tt
      else
        do! Common_LoadConf in
        do! Sessions_LoadConf in
        do! Users_LoadConf in
        do! Enable_LoadConf in
        USESS_UNLOCK.

End Module.

(** ** A session manager to evaluate

    The shipped configuration, a database with one user and the password of the
    enable mode, an environment in which every call succeeds and nobody else
    runs, and a coordinator that records what it is told: the concrete input of
    the witnesses about sessions. *)

Module Sessions.

(** ** The coordinator: the sessions it was told to release. *)
Definition Tc : Type := list Z.
#[global] Instance Tc_sessions : TcSessions Tc := {|
  tc_present := fun _ => true;
  tc_release_session := fun sid t => Some (TC_API_COMMON_SUCCESS, t ++ [sid]);
  tc_get_config_session := fun t => Some (TC_NO_CONFIG_SESSION, Some (0, 0), t)
|}.

(** ** The database *)
Record Db := mkDb {
  db_conn : bool;
  db_committed : option string;
  db_working : option string;
  db_selected : option string
}.

Fixpoint strip_prefix (p s : string) : option string :=
  match p, s with
  | EmptyString, _ => Some s
  | String.String a p', String.String b s' =>
      if bool_decide (a = b) then strip_prefix p' s' else None
  | _, _ => None
  end.

Fixpoint until_quote (s : string) : string :=
  match s with
  | EmptyString => EmptyString
  | String.String c s' =>
      if bool_decide (c = "'"%char) then EmptyString else String.String c (until_quote s')
  end.

Definition exec (sql : string) (d : Db) : Z * Db :=
  match strip_prefix "UPDATE tbl_unc_usess_enable SET passwd = '" sql with
  | Some rest => (SQL_SUCCESS, mkDb (db_conn d) (db_committed d) (Some (until_quote rest)) None)
  | None => (SQL_SUCCESS, mkDb (db_conn d) (db_committed d) (db_working d) (db_working d))
  end.

Fixpoint without_quotes (s : string) : string :=
  match s with
  | EmptyString => EmptyString
  | String.String c s' =>
      String.String (if bool_decide (c = "'"%char) then "q"%char else c) (without_quotes s')
  end.

(** A hash without salt. *)
Definition crypt (p s : string) : option string := Some ("$6$" +:+ without_quotes p).

Definition user_row : list SqlCell :=
  [CStr "operator"; CInt 6; CStr "$6$user"; CInt USER_TYPE_ADMIN].

Definition odbc : MOdbc Db := {|
  m_alloc_env := fun d => (SQL_SUCCESS, d);
  m_alloc_connect := fun d => (SQL_SUCCESS, d);
  m_free_connect := fun d => d;
  m_free_env := fun d => d;
  m_driver_connect := fun _ d =>
    (SQL_SUCCESS, mkDb true (db_committed d) (db_committed d) None);
  m_autocommit_off := fun d => (SQL_SUCCESS, d);
  m_transact := fun mode d =>
    (SQL_SUCCESS, mkDb (db_conn d)
       match mode with DB_COMMIT => db_working d | DB_ROLLBACK => db_committed d end
       (db_working d) None);
  m_disconnect := fun d => (SQL_SUCCESS, mkDb false (db_committed d) None None);
  m_alloc_stmt := fun d => (true, d);
  m_free_stmt := fun d => d;
  m_exec_direct := exec;
  m_row_count := fun d => (SQL_SUCCESS, 1, d);
  m_fetch := fun types d =>
    (SQL_SUCCESS,
     if types ==? [SQL_INTEGER; SQL_VARCHAR] then [CInt 6; CStr (default "" (db_selected d))]
     else user_row, d)
|}.

(** ** The configuration *)
Definition parameter (a b : Z) (l : bool) (m : Z) : ConfBlock :=
  <["start_id" := CfNum a]> (<["end_id" := CfNum b]>
    (<["limited" := CfBool l]> {["max_session" := CfNum m]})).

(** [modules/usess/usess.conf], the ranges given. *)
Definition file_with (cli fixed : ConfBlock) : ConfFile := fun name key =>
  if name ==? "usess_conf_common" then
    Some (<["lock_timeout_sec" := CfNum 2]> {["lock_timeout_nsec" := CfNum 0]})
  else if name ==? "usess_session_info" then
    Some (<["limited" := CfBool true]> {["max_session" := CfNum 63]})
  else if name ==? "usess_session_parameter" then
    if key ==? "cli" then Some cli
    else if key ==? "web_ui" then Some (parameter 256 511 true 20)
    else if key ==? "web_api" then Some (parameter 1024 65535 true 27)
    else if key ==? "fixed" then Some fixed
    else None
  else if name ==? "usess_conf_user" then Some {["hash" := CfNum 6]}
  else if name ==? "usess_conf_enable" then Some {["hash" := CfNum 6]}
  else None.

Definition file : ConfFile := file_with (parameter 1 127 true 16) (parameter 128 255 false 0).

(** ** The platform *)

Definition platform_with (reloaded : ConfFile) : Platform Db Tc := {|
  pl_odbc := odbc;
  pl_crypt := crypt;
  pl_regcomp := fun _ => 0;
  pl_regexec := fun _ s => (0, (0, Z.of_nat (String.length s)));
  pl_clock := fun log => (0, mkTimespec (1000 + Z.of_nat (length log)) 0);
  pl_lock := fun _ _ _ => 0;
  pl_output := fun _ _ => 0;
  pl_add_handler := fun _ => 0;
  pl_remove_handler := fun _ => 0;
  pl_reload := fun _ => (0, reloaded);
  pl_others := fun _ p => p
|}.
Definition platform : Platform Db Tc := platform_with file.

Definition module_new (f : ConfFile) : Usess Db :=
  mkUsess common_default (MgmtDatabase_new (mkDb false (Some "$6$enable") None None))
    UsessSessions_new user_default enable_default false f.

Definition st_new : USt Db Tc := mkUSt (module_new file) [] [] [].

Definition after {A} (P : Platform Db Tc) (m : U Db Tc A) (st : USt Db Tc) : USt Db Tc :=
  match m st with Some (_, st') => st' | None => st end.

(** Whether a run returns. *)
Definition returns {A} (o : option A) : bool := if o is Some _ then true else false.

Definition add_request : UsessValue :=
  VSessAdd (mkReqAdd "operator" "user" "login" USESS_TYPE_CLI 0 "").

Definition started : USt Db Tc := after platform (init platform) st_new.
Definition one_session : USt Db Tc :=
  after platform (ipcService platform [add_request] kUsessSessAdd) started.

(** Session 1 is enabled, session 2 is an operator's. *)
Definition enabled : USt Db Tc :=
  after platform (ipcService platform [VSessEnable (mkSessId 1) "enable"] kUsessEnable)
    one_session.
Definition two_sessions : USt Db Tc :=
  after platform (ipcService platform [add_request] kUsessSessAdd) enabled.

Definition session (k : Z) (st : USt Db Tc) : option usess_ipc_res_sess_info_t :=
  table_ (sessions_ (u_mod st)) !! k.

Example two_sessions_modes :
  sess_mode <$> session 1 two_sessions = Some USESS_MODE_ENABLE /\
  sess_mode <$> session 2 two_sessions = Some USESS_MODE_OPER /\
  u_out two_sessions = [VSessId (mkSessId 1); VSessId (mkSessId 2)].
Proof. vm_compute. auto. Qed.

End Sessions.
