(* ===== verification/UsessProps.v ===== *)
(** * Reasoning about the session manager

    Postconditions for the programs of [UsessBase] ([uwp]), the programs that
    leave the table of sessions alone ([Frames]), and the conditions under
    which a predicate of the table is kept by every request ([Kept]). *)

From S2P Require Import Prelude MgmtDb UsessTypes UsessBase UsessAuth UsessSessions UsessModule.

Local Open Scope Z_scope.

Section Wp.

Context {Db T : Type} `{TcSessions T}.
Implicit Type st : USt Db T.

(** ** Postconditions *)

Definition uwp {A} (m : U Db T A) (Q : A -> USt Db T -> Prop) st : Prop :=
  forall a st', m st = Some (a, st') -> Q a st'.

Lemma uwp_ret {A} (a : A) Q st : Q a st -> uwp (uret a) Q st.
Proof. intros HQ b st' E. by injection E as <- <-. Qed.

Lemma uwp_bind {A B} (m : U Db T A) (f : A -> U Db T B) Q st :
  uwp m (fun a => uwp (f a) Q) st -> uwp (ubind m f) Q st.
Proof.
  intros Hm b st' E. unfold ubind in E. destruct (m st) as [[a st1]|] eqn:E1; [|done].
  by eapply Hm.
Qed.

Lemma uwp_mono {A} (m : U Db T A) (Q Q' : A -> USt Db T -> Prop) st :
  uwp m Q st -> (forall a st', Q a st' -> Q' a st') -> uwp m Q' st.
Proof. intros Hm HQ a st' E. eauto. Qed.

Lemma uwp_stuck {A} (Q : A -> USt Db T -> Prop) st : uwp ustuck Q st.
Proof. by intros a st' E. Qed.

Lemma uwp_on_ok {A} (m : U Db T usess_ipc_err_e) label (k : U Db T A) Q st :
  uwp m (fun e st1 => if e !=? USESS_E_OK then uwp (label e) Q st1 else uwp k Q st1) st ->
  uwp (on_ok m label k) Q st.
Proof.
  intros Hm. apply uwp_bind. eapply uwp_mono; [done|]. intros e st1. cbn beta. by destruct (e !=? USESS_E_OK).
Qed.

Lemma uwp_member {A} (f : Usess Db -> A) Q st :
  Q (f (u_mod st)) st -> uwp (member f) Q st.
Proof. apply uwp_ret. Qed.

(** ** Programs that leave the sessions alone *)

Class Frames {A} (m : U Db T A) : Prop :=
  frames st : uwp m (fun _ st' => sessions_ (u_mod st') = sessions_ (u_mod st)) st.

Lemma uwp_frame {A} (m : U Db T A) `{!Frames m} (Q : A -> USt Db T -> Prop) st :
  (forall a st', sessions_ (u_mod st') = sessions_ (u_mod st) -> Q a st') -> uwp m Q st.
Proof. intros HQ. eapply uwp_mono; [apply frames|]. auto. Qed.

#[global] Instance frames_ret {A} (a : A) : Frames (uret a).
Proof. intros st. by apply uwp_ret. Qed.

#[global] Instance frames_stuck {A} : Frames (ustuck : U Db T A).
Proof. intros st. apply uwp_stuck. Qed.

#[global] Instance frames_bind {A B} (m : U Db T A) (f : A -> U Db T B) :
  Frames m -> (forall a, Frames (f a)) -> Frames (ubind m f).
Proof.
  intros Hm Hf st. apply uwp_bind, uwp_frame; [done|]. intros a st1 E1.
  apply uwp_frame; [apply Hf|]. intros b st2 E2. congruence.
Qed.

#[global] Instance frames_on_ok {A} m label (k : U Db T A) :
  Frames m -> (forall e, Frames (label e)) -> Frames k -> Frames (on_ok m label k).
Proof. intros ? ? ?. apply frames_bind; [done|]. intros e. by destruct (e !=? USESS_E_OK). Qed.

#[global] Instance frames_if {A} (b : bool) (m k : U Db T A) :
  Frames m -> Frames k -> Frames (if b then m else k).
Proof. by destruct b. Qed.

#[global] Instance frames_option {A B} (o : option A) (k : U Db T B) (m : A -> U Db T B) :
  Frames k -> (forall a, Frames (m a)) ->
  Frames (match o with Some a => m a | None => k end).
Proof. intros ? ?. by destruct o. Qed.

#[global] Instance frames_member {A} (f : Usess Db -> A) : Frames (member f).
Proof. intros st. by apply uwp_member. Qed.

#[global] Instance frames_uevent e : Frames (uevent e : U Db T unit).
Proof. intros st a st' E. by injection E as <- <-. Qed.

#[global] Instance frames_tc_instance : Frames (tc_instance : U Db T bool).
Proof. intros st a st' E. by injection E as <- <-. Qed.

#[global] Instance frames_release sid : Frames (TcReleaseSession sid : U Db T _).
Proof. intros st a st' E. unfold TcReleaseSession in E. repeat case_match; by simplify_eq/=. Qed.

#[global] Instance frames_get_config : Frames (TcGetConfigSession : U Db T _).
Proof. intros st a st' E. unfold TcGetConfigSession in E. repeat case_match; by simplify_eq/=. Qed.

#[global] Instance frames_database {A} (f : MgmtDatabase Db -> A * MgmtDatabase Db) :
  Frames (database_do f : U Db T A).
Proof. intros st a st' E. unfold database_do in E. case_match. by injection E as <- <-. Qed.

Context (P : Platform Db T).

#[global] Instance frames_exec sql b l : Frames (database_exec P sql b l).
Proof. intros st a st' E. unfold database_exec in E. repeat case_match; by simplify_eq/=. Qed.

#[global] Instance frames_clock : Frames (pfc_clock_get_realtime P).
Proof. intros st a st' E. unfold pfc_clock_get_realtime in E. by injection E as <- <-. Qed.

#[global] Instance frames_output v : Frames (addOutput P v).
Proof. intros st a st' E. unfold addOutput in E. by injection E as <- <-. Qed.

#[global] Instance frames_send v : Frames (send P v).
Proof. unfold send. apply _. Qed.

#[global] Instance frames_connect : Frames (CONNECT P).
Proof. unfold CONNECT. apply _. Qed.

#[global] Instance frames_disconnect : Frames (DISCONNECT P).
Proof. unfold DISCONNECT. apply _. Qed.

#[global] Instance frames_unlock : Frames (USESS_UNLOCK : U Db T unit).
Proof. unfold USESS_UNLOCK. apply _. Qed.

#[global] Instance frames_unlock_end e : Frames (unlock_end e : U Db T _).
Proof. unfold unlock_end. apply _. Qed.

#[global] Instance frames_disconnect_end e : Frames (disconnect_end P e).
Proof. unfold disconnect_end. apply _. Qed.

#[global] Instance frames_proc_end e : Frames (proc_end e : U Db T _).
Proof. unfold proc_end. apply _. Qed.

#[global] Instance frames_get_user name : Frames (GetUser P name).
Proof. unfold GetUser, Retrieve. apply _. Qed.

#[global] Instance frames_authenticate mode x passwd :
  Frames (Enable_Authenticate P mode x passwd).
Proof.
  unfold Enable_Authenticate. destruct mode.
  apply frames_if; [apply _|]. apply frames_bind; [apply _|]. intros c.
  apply frames_if; [apply _|]. apply frames_bind; [apply _|]. intros [e rows].
  apply frames_if; [apply _|]. cbn.
  repeat first [apply frames_option; [apply _|intros ?] | case_match; try apply _].
Qed.

#[global] Instance frames_enable_change passwd : Frames (Enable_ChangePassword P passwd).
Proof. unfold Enable_ChangePassword. apply _. Qed.

#[global] Instance frames_user_change user passwd : Frames (User_ChangePassword P user passwd).
Proof. unfold User_ChangePassword. apply _. Qed.

#[global] Instance frames_get_session target : Frames (GetSession target : U Db T _).
Proof. unfold GetSession. apply _. Qed.

#[global] Instance frames_get_list_id target : Frames (GetList_id target : U Db T _).
Proof. unfold GetList_id. apply _. Qed.

#[global] Instance frames_get_list_all : Frames (GetList_all : U Db T _).
Proof. unfold GetList_all. apply _. Qed.

#[global] Instance frames_send_list l : Frames (send_list P l).
Proof. induction l; cbn; apply _. Qed.

#[global] Instance frames_release_loop l : Frames (release_loop l : U Db T unit).
Proof. induction l as [|[k x] l IH]; cbn; apply _. Qed.

End Wp.

(** ** Predicates of the table that requests keep *)

(** What the operations on the table do to [I]. *)
Class Kept (I : UsessSessions -> Prop) : Prop := {
  kept_add s req user now n s' :
    I s -> IsSessType (add_sess_type req) = true -> IsUserType (u_type user) = true ->
    CheckSessTypeCount s (add_sess_type req) = Some true ->
    GetNewSessionId (add_sess_type req) s = Some (n, s') -> n <> USESS_ID_INVALID ->
    I (set_table (insert_new n (new_session n req user now) (table_ s')) s');
  kept_delete s k : I s -> I (set_table (delete k (table_ s)) s);
  kept_disable s k x :
    I s -> table_ s !! k = Some x ->
    I (set_table (<[k := with_mode USESS_MODE_OPER x]> (table_ s)) s)
}.

(** The step to the enable mode, which only administrators take. *)
Definition kept_enable (I : UsessSessions -> Prop) : Prop :=
  forall s k x, I s -> table_ s !! k = Some x -> user_type x = USER_TYPE_ADMIN ->
  I (set_table (<[k := with_mode USESS_MODE_ENABLE x]> (table_ s)) s).

Section Requests.

Context {Db T : Type} `{TcSessions T} (P : Platform Db T).
Context (I : UsessSessions -> Prop) `{!Kept I}.
Implicit Type st : USt Db T.

(** The other threads keep it. *)
Definition others_keep : Prop :=
  forall log m t, I (sessions_ m) -> I (sessions_ (pl_others P log (m, t)).1).

Context (Hothers : others_keep).

Notation keeps m := (forall st, I (sessions_ (u_mod st)) ->
  uwp m (fun _ st' => I (sessions_ (u_mod st'))) st).

Lemma frames_keeps {A} (m : U Db T A) : Frames m -> keeps m.
Proof. intros Hm st HI. apply uwp_frame; [done|]. intros a st' ->. done. Qed.

Lemma bind_keeps {A B} (m : U Db T A) (f : A -> U Db T B) :
  keeps m -> (forall a, keeps (f a)) -> keeps (ubind m f).
Proof.
  intros Hm Hf st HI. apply uwp_bind. eapply uwp_mono; [by apply Hm|].
  intros a st' HI'. by apply Hf.
Qed.

Lemma on_ok_keeps {A} m label (k : U Db T A) :
  keeps m -> (forall e, keeps (label e)) -> keeps k -> keeps (on_ok m label k).
Proof.
  intros Hm Hl Hk. apply bind_keeps; [done|]. intros e. destruct (e !=? USESS_E_OK); auto.
Qed.

Lemma update_keeps (f : UsessSessions -> UsessSessions) :
  (forall s, I s -> I (f s)) -> keeps (sessions_update f : U Db T unit).
Proof. intros Hf st HI a st' E. injection E as <- <-. by apply Hf. Qed.

Lemma lock_keeps mode : keeps (USESS_LOCK P mode).
Proof.
  unfold USESS_LOCK. apply bind_keeps; [|intros ?; by apply frames_keeps, _].
  unfold timedlock. apply bind_keeps; [by apply frames_keeps, _|]. intros c.
  apply bind_keeps.
  - intros st HI a st' E. unfold others in E.
    destruct (pl_others P _ _) as [m t] eqn:Eo. injection E as <- <-. cbn.
    specialize (Hothers (u_log st) (u_mod st) (u_tc st) HI). by rewrite Eo in Hothers.
  - intros _ st HI a st' E. injection E as <- <-. done.
Qed.

Lemma delete_keeps k :
  keeps (sessions_update (fun s => set_table (delete k (table_ s)) s) : U Db T unit).
Proof. apply update_keeps. intros s. apply kept_delete. Qed.

Lemma Del_id_keeps target : keeps (Del_id target : U Db T _).
Proof.
  unfold Del_id. apply bind_keeps; [by apply frames_keeps, _|]. intros s.
  case_match; [by apply frames_keeps, _|].
  apply bind_keeps; [by apply frames_keeps, _|]. intros tc.
  destruct tc; [|by apply frames_keeps, _]. cbn.
  apply bind_keeps; [by apply frames_keeps, _|]. intros ?.
  apply bind_keeps; [apply delete_keeps|]. intros ?. by apply frames_keeps, _.
Qed.

Lemma del_loop_keeps target l : keeps (del_loop target l : U Db T unit).
Proof.
  induction l as [|[k x] l IH]; cbn; [by apply frames_keeps, _|].
  case_match; [done|].
  apply bind_keeps; [by apply frames_keeps, _|]. intros ?.
  by apply bind_keeps; [apply delete_keeps|].
Qed.

Lemma Del_type_keeps target : keeps (Del_type target : U Db T _).
Proof.
  unfold Del_type. case_match; [by apply frames_keeps, _|].
  apply bind_keeps; [by apply frames_keeps, _|]. intros tc.
  destruct tc; [|by apply frames_keeps, _]. cbn.
  apply bind_keeps; [by apply frames_keeps, _|]. intros s.
  apply bind_keeps; [apply del_loop_keeps|]. intros ?. by apply frames_keeps, _.
Qed.

(** A new session keeps the predicate: its identifier was found in the table
    that was tested against the limits. *)
Lemma Add_keeps req user : keeps (Add P req user).
Proof.
  intros st HI. unfold Add.
  destruct (IsSessType _) eqn:Et; [|by apply frames_keeps; [apply _|]].
  destruct (IsUserType _) eqn:Eu; [|by apply frames_keeps; [apply _|]]. cbn.
  apply uwp_bind. intros room st1 E1. unfold sessions_do in E1.
  destruct (CheckSessTypeCount _ _) as [b|] eqn:Ec; [|done]. injection E1 as <- <-.
  destruct b; [|by apply frames_keeps; [apply _|]]. cbn.
  apply uwp_bind, uwp_frame; [apply _|]. intros [rc now] st2 E2. cbn in *.
  destruct (rc !=? 0); [by apply frames_keeps; [apply _|rewrite E2]|].
  apply uwp_bind. intros n st3 E3. unfold sessions_do in E3. rewrite E2 in E3.
  destruct (GetNewSessionId _ _) as [[n' s']|] eqn:En; [|done]. injection E3 as <- <-.
  destruct (n' ==? USESS_ID_INVALID) eqn:Ez; bool_norm.
  - apply uwp_ret. cbn. unfold GetNewSessionId in En.
    destruct (find_id _ _) as [m|] eqn:Em; [|done].
    destruct (m !=? USESS_ID_INVALID) eqn:Eb; bool_norm; by simplify_eq.
  - apply uwp_bind. intros ? st4 E4. injection E4 as <- <-. apply uwp_ret. cbn.
    by eapply kept_add.
Qed.

(** [GetSession] followed by [TransitMode] of the same session. *)
Lemma TransitMode_keeps k mode x st :
  table_ (sessions_ (u_mod st)) !! k = Some x -> I (sessions_ (u_mod st)) ->
  I (set_table (<[k := with_mode mode x]> (table_ (sessions_ (u_mod st))))
       (sessions_ (u_mod st))) ->
  uwp (TransitMode k mode) (fun _ st' => I (sessions_ (u_mod st'))) st.
Proof.
  intros Hx HI Hnew. unfold TransitMode. apply uwp_bind, uwp_member. rewrite Hx.
  destruct (_ && _); [by apply uwp_ret|].
  apply uwp_bind, uwp_frame; [apply _|]. intros tc st1 E1.
  destruct (_ && _); [by apply uwp_ret; rewrite E1|].
  apply uwp_bind, uwp_frame; [apply _|]. intros ? st2 E2.
  apply uwp_bind. intros ? st3 E3. injection E3 as <- <-. apply uwp_ret. cbn.
  by rewrite E2, E1.
Qed.

Lemma with_session_keeps target label k st :
  (forall e, keeps (label e)) -> I (sessions_ (u_mod st)) ->
  (forall x, table_ (sessions_ (u_mod st)) !! id target = Some x ->
     uwp (k x) (fun _ st' => I (sessions_ (u_mod st'))) st) ->
  uwp (with_session target label k) (fun _ st' => I (sessions_ (u_mod st'))) st.
Proof.
  intros Hl HI Hk. unfold with_session, GetSession.
  apply uwp_bind, uwp_bind, uwp_member.
  destruct (_ !! _) as [x|] eqn:Ex; apply uwp_ret; [by apply Hk|by apply Hl].
Qed.

Lemma getArgument_keeps {A} pick args (k : A -> U Db T _) :
  (forall a, keeps (k a)) -> keeps (getArgument pick args k).
Proof.
  intros Hk. destruct args as [|v ?]; [by apply frames_keeps, _|]. cbn.
  destruct (pick v); [apply Hk|by apply frames_keeps, _].
Qed.

(** *** The services *)

(** The start of most services: a request, the lock, the database. *)
Lemma locked_keeps {A} mode label (k : U Db T A) :
  (forall e, keeps (label e)) -> keeps k -> keeps (on_ok (USESS_LOCK P mode) label k).
Proof. intros Hl Hk. by apply on_ok_keeps; [apply lock_keeps| |]. Qed.

Lemma frame_ok_keeps {A} m label (k : U Db T A) :
  Frames m -> (forall e, Frames (label e)) -> keeps k -> keeps (on_ok m label k).
Proof. intros Hm Hl Hk. apply on_ok_keeps; [by apply frames_keeps| |done].
  intros e. by apply frames_keeps. Qed.

Lemma add_locked_keeps req user : keeps (add_locked P req user).
Proof.
  unfold add_locked. apply bind_keeps; [apply Add_keeps|]. intros [e n]. cbn.
  destruct (e !=? _); [by apply frames_keeps, _|].
  apply bind_keeps; [by apply frames_keeps, _|]. intros e'.
  apply bind_keeps; [|intros ?; by apply frames_keeps, _].
  destruct (e' !=? _); [|by apply frames_keeps, _].
  apply bind_keeps; [apply Del_id_keeps|]. intros ?. by apply frames_keeps, _.
Qed.

Lemma UsessSessAddHandler_keeps args : keeps (UsessSessAddHandler P args).
Proof.
  apply getArgument_keeps. intros req.
  apply locked_keeps; [intros ?; by apply frames_keeps, _|].
  apply frame_ok_keeps; [apply _..|].
  apply bind_keeps; [by apply frames_keeps, _|]. intros [e user]. cbn [fst snd].
  destruct (e !=? _); [by apply frames_keeps, _|].
  apply frame_ok_keeps; [apply _..|].
  apply bind_keeps; [by apply frames_keeps, _|]. intros ?.
  destruct (User_Authenticate P _ _ _ _) as [e'|]; [|by apply frames_keeps, _].
  destruct (e' !=? _); [by apply frames_keeps, _|].
  apply locked_keeps; [intros ?; by apply frames_keeps, _|apply add_locked_keeps].
Qed.

Lemma UsessSessDelHandler_keeps args : keeps (UsessSessDelHandler P args).
Proof.
  apply getArgument_keeps. intros [current delsess].
  apply locked_keeps; [intros ?; by apply frames_keeps, _|].
  apply bind_keeps; [by apply frames_keeps, _|]. intros s.
  apply frame_ok_keeps; [apply _..|].
  apply on_ok_keeps; [apply Del_id_keeps|intros ?|]; by apply frames_keeps, _.
Qed.

Lemma UsessSessTypeDelHandler_keeps args : keeps (UsessSessTypeDelHandler P args).
Proof.
  apply getArgument_keeps. intros t.
  apply locked_keeps; [intros ?; by apply frames_keeps, _|].
  apply on_ok_keeps; [apply Del_type_keeps|intros ?|]; by apply frames_keeps, _.
Qed.

Lemma UsessEnableHandler_keeps args : kept_enable I -> keeps (UsessEnableHandler P args).
Proof.
  intros Hen. apply getArgument_keeps. intros [current passwd].
  apply locked_keeps; [intros ?; by apply frames_keeps, _|].
  apply frame_ok_keeps; [apply _..|].
  intros st HI. apply with_session_keeps; [intros ?; by apply frames_keeps, _|done|].
  intros x Hx. apply uwp_on_ok, uwp_ret.
  destruct (_ !=? _) eqn:Ep; [by apply frames_keeps; [apply _|]|].
  assert (user_type x = USER_TYPE_ADMIN) as Ha.
  { cbn in Ep. destruct (user_type x !=? USER_TYPE_ADMIN) eqn:Ea; [done|]. by bool_norm. }
  apply uwp_on_ok, uwp_frame; [apply _|]. intros e st1 E1.
  destruct (e !=? _); [by apply frames_keeps; [apply _|rewrite E1]|].
  apply uwp_on_ok. eapply uwp_mono.
  - apply (TransitMode_keeps _ _ x); rewrite E1; [done..|]. by apply Hen.
  - intros e' st2 HI2. cbn beta. destruct (e' !=? _); by apply frames_keeps; [apply _|].
Qed.

Lemma UsessDisableHandler_keeps args : keeps (UsessDisableHandler P args).
Proof.
  apply getArgument_keeps. intros current.
  apply locked_keeps; [intros ?; by apply frames_keeps, _|].
  intros st HI. apply with_session_keeps; [intros ?; by apply frames_keeps, _|done|].
  intros x Hx. apply uwp_on_ok, uwp_ret. cbn -[TransitMode].
  apply uwp_on_ok. eapply uwp_mono.
  - apply (TransitMode_keeps _ _ x); [done..|]. by apply kept_disable.
  - intros e' st2 HI2. cbn beta. destruct (e' !=? _); by apply frames_keeps; [apply _|].
Qed.

Lemma UsessSessCountHandler_keeps args : keeps (UsessSessCountHandler P args).
Proof.
  apply getArgument_keeps. intros current.
  apply locked_keeps; [intros ?|]; by apply frames_keeps, _.
Qed.

Lemma UsessSessListHandler_keeps args : keeps (UsessSessListHandler P args).
Proof.
  apply getArgument_keeps. intros current.
  apply locked_keeps; [intros ?|]; by apply frames_keeps, _.
Qed.

Lemma UsessSessDetailHandler_keeps args : keeps (UsessSessDetailHandler P args).
Proof.
  apply getArgument_keeps. intros [current detail].
  apply locked_keeps; [intros ?; by apply frames_keeps, _|].
  apply bind_keeps; [by apply frames_keeps, _|]. intros s.
  apply frame_ok_keeps; [apply _..|].
  apply bind_keeps; [by apply frames_keeps, _|]. intros [e l]. cbn.
  destruct (e !=? _); [by apply frames_keeps, _|].
  destruct l; by apply frames_keeps, _.
Qed.

Lemma UserUserPasswdHandler_keeps args : keeps (UserUserPasswdHandler P args).
Proof.
  apply getArgument_keeps. intros [[current uname] passwd].
  apply locked_keeps; [intros ?; by apply frames_keeps, _|].
  apply frame_ok_keeps; [apply _..|].
  intros st HI. apply with_session_keeps; [intros ?; by apply frames_keeps, _|done|].
  intros x Hx. by apply frames_keeps; [apply _|].
Qed.

Lemma UserEnablePasswdHandler_keeps args : keeps (UserEnablePasswdHandler P args).
Proof.
  apply getArgument_keeps. intros [current passwd].
  apply locked_keeps; [intros ?; by apply frames_keeps, _|].
  apply frame_ok_keeps; [apply _..|].
  intros st HI. apply with_session_keeps; [intros ?; by apply frames_keeps, _|done|].
  intros x Hx. by apply frames_keeps; [apply _|].
Qed.

(** Every request keeps [I]; enabling needs the step of administrators. *)
Lemma ipcService_keeps args service :
  (service = kUsessEnable -> kept_enable I) -> keeps (ipcService P args service).
Proof.
  intros Hen. unfold ipcService. case_bool_decide; [by apply frames_keeps, _|].
  destruct (IpcHandler P !! Z.to_nat service) as [h|] eqn:Eh; [|by apply frames_keeps, _].
  destruct (Z.to_nat service) as [|[|[|[|[|[|[|[|[|[|n]]]]]]]]]] eqn:En; cbn in Eh;
    simplify_eq.
  - apply UsessSessAddHandler_keeps.
  - apply UsessSessDelHandler_keeps.
  - apply UsessSessTypeDelHandler_keeps.
  - apply UsessEnableHandler_keeps, Hen. unfold kUsessEnable. lia.
  - apply UsessDisableHandler_keeps.
  - apply UsessSessCountHandler_keeps.
  - apply UsessSessListHandler_keeps.
  - apply UsessSessDetailHandler_keeps.
  - apply UserUserPasswdHandler_keeps.
  - apply UserEnablePasswdHandler_keeps.
Qed.

(** *** The life cycle

    Start, stop and reload also empty the table and replace the
    configuration. *)

Context (Hconf : forall s c, I s -> I (set_session_conf c s)).
Context (Hclear : forall s f, I s -> I (mkSessions ∅ (sessions_conf_ s) f)).

Lemma Sessions_LoadConf_keeps : keeps (Sessions_LoadConf : U Db T _).
Proof.
  unfold Sessions_LoadConf. apply bind_keeps; [by apply frames_keeps, _|]. intros f.
  destruct (UsessConfSession_LoadConf f) as [e c].
  apply bind_keeps; [apply update_keeps; auto|]. intros ?. by apply frames_keeps, _.
Qed.

Lemma clear_keeps : keeps (sessions_update (set_table ∅) : U Db T unit).
Proof. apply update_keeps. intros s. apply Hclear. Qed.

Lemma Sessions_Fini_keeps : keeps (Sessions_Fini : U Db T _).
Proof.
  unfold Sessions_Fini, Del_all. repeat apply bind_keeps; try intros ?.
  - by apply frames_keeps, _.
  - case_match; [by apply frames_keeps, _|].
    apply bind_keeps; [by apply frames_keeps, _|]. intros s.
    apply bind_keeps; [by apply frames_keeps, _|]. intros ?.
    apply bind_keeps; [apply clear_keeps|]. intros ?. by apply frames_keeps, _.
  - apply bind_keeps; [apply clear_keeps|]. intros ?. by apply frames_keeps, _.
Qed.

#[local] Instance frames_update_other (f : Usess Db -> Usess Db) :
  (forall m, sessions_ (f m) = sessions_ m) -> Frames (update f : U Db T unit).
Proof. intros Hf st a st' E. injection E as <- <-. apply Hf. Qed.

Lemma timedlock_keeps mode : keeps (timedlock P mode).
Proof.
  intros st HI rc st' E.
  assert (USESS_LOCK P mode st = Some (if rc !=? 0 then USESS_E_NG else USESS_E_OK, st'))
    as E1 by (unfold USESS_LOCK, ubind; by rewrite E).
  exact (lock_keeps mode st HI _ _ E1).
Qed.

(** A program that begins by looking at the whole state. *)
Lemma here_keeps {A} (m : USt Db T -> U Db T A) :
  (forall st0, Frames (m st0)) -> keeps (fun st => m st st).
Proof. intros Hm st HI. exact (frames_keeps (m st) (Hm st) st HI). Qed.

Lemma fini_keeps : keeps (fini P).
Proof.
  unfold fini, fini_handler. apply bind_keeps.
  - apply bind_keeps; [by apply frames_keeps, _|]. intros b.
    destruct b; [|by apply frames_keeps, _].
    apply (here_keeps (fun st0 => do! uevent (ERemoveHandler (pl_remove_handler P (u_log st0))) in
      if pl_remove_handler P (u_log st0) ==? 0 then update (set_handler false) else uret tt)).
    intros st0. apply frames_bind; [apply _|]. intros ?.
    case_match; [|apply _]. by apply frames_update_other.
  - intros ?. apply bind_keeps; [apply timedlock_keeps|]. intros rc.
    apply bind_keeps; [by apply frames_keeps, _|]. intros b1.
    apply bind_keeps; [apply Sessions_Fini_keeps|]. intros b2. by apply frames_keeps, _.
Qed.

#[local] Instance frames_users_load : Frames (Users_LoadConf : U Db T _).
Proof.
  apply frames_bind; [apply _|]. intros f. case_match.
  apply frames_bind; [by apply frames_update_other|apply _].
Qed.

#[local] Instance frames_enable_load : Frames (Enable_LoadConf : U Db T _).
Proof.
  apply frames_bind; [apply _|]. intros f. case_match.
  apply frames_bind; [by apply frames_update_other|apply _].
Qed.

#[local] Instance frames_common_load : Frames (Common_LoadConf : U Db T _).
Proof.
  apply frames_bind; [apply _|]. intros f. case_match.
  apply frames_bind; [by apply frames_update_other|apply _].
Qed.

Lemma init_keeps : keeps (init P).
Proof.
  assert (keeps (do! fini P in uret false)) as Hf.
  { apply bind_keeps; [apply fini_keeps|]. intros ?. by apply frames_keeps, _. }
  assert (keeps (do! USESS_UNLOCK in do! fini P in uret false)) as Huf.
  { by apply bind_keeps; [apply frames_keeps, _|]. }
  unfold init. apply bind_keeps; [by apply frames_keeps, _|]. intros e.
  destruct (e !=? _); [done|]. apply bind_keeps; [apply lock_keeps|]. intros l.
  destruct (l !=? _); [done|]. apply bind_keeps.
  2:{ intros ok. destruct ok; [|done]. by apply frames_keeps, _. }
  unfold init_steps, Sessions_Init, Users_Init, Enable_Init.
  apply bind_keeps; [by apply frames_keeps, _|]. intros b1.
  destruct b1; [|by apply frames_keeps, _]. cbn -[Sessions_LoadConf register_reload].
  apply bind_keeps.
  { apply bind_keeps; [apply Sessions_LoadConf_keeps|]. intros e1.
    destruct (e1 !=? _); [by apply frames_keeps, _|].
    apply bind_keeps; [apply update_keeps; intros s; apply Hclear|].
    intros ?. by apply frames_keeps, _. }
  intros b2. destruct b2; [|by apply frames_keeps, _]. cbn -[register_reload].
  apply bind_keeps; [by apply frames_keeps, _|]. intros b3.
  destruct b3; [|by apply frames_keeps, _]. cbn -[register_reload].
  apply bind_keeps; [by apply frames_keeps, _|]. intros b4.
  destruct b4; [|by apply frames_keeps, _]. cbn -[register_reload].
  unfold register_reload. apply bind_keeps; [by apply frames_keeps, _|]. intros b5.
  destruct b5; [by apply frames_keeps, _|].
  apply (here_keeps (fun st0 => do! uevent (EAddHandler (pl_add_handler P (u_log st0))) in
    do! update (set_handler (pl_add_handler P (u_log st0) ==? 0)) in
    uret (pl_add_handler P (u_log st0) ==? 0))).
  intros st0. apply frames_bind; [apply _|]. intros ?. apply frames_bind; [|apply _].
  by apply frames_update_other.
Qed.

Lemma ReloadConfEventHandler_keeps b : keeps (ReloadConfEventHandler P b).
Proof.
  unfold ReloadConfEventHandler. destruct b; [|by apply frames_keeps, _]. cbn.
  apply bind_keeps.
  { intros st HI. destruct (pl_reload P (u_log st)) as [rc f] eqn:E.
    intros a st' E'. rewrite E in E'. revert E'. revert a st'.
    change (uwp (do! uevent (EReload rc) in
       do! (if rc ==? 0 then update (set_file f) else uret tt) in uret rc)
       (fun _ st' => I (sessions_ (u_mod st'))) st).
    apply frames_keeps; [|done]. apply frames_bind; [apply _|]. intros ?.
    apply frames_bind; [|apply _]. case_match; [|apply _]. by apply frames_update_other. }
  intros rc. case_match; [by apply frames_keeps, _|].
  apply bind_keeps; [apply lock_keeps|]. intros l.
  destruct (l !=? _); [by apply frames_keeps, _|].
  apply bind_keeps; [by apply frames_keeps, _|]. intros ?.
  apply bind_keeps; [apply Sessions_LoadConf_keeps|]. intros ?. by apply frames_keeps, _.
Qed.

End Requests.
