(* ===== verification/UsessIds.v ===== *)
(** * Identifiers of sessions

    The search for a new identifier against a reference definition: the first
    free one of the range, in cyclic order behind the last one given. *)

From S2P Require Import Prelude UsessTypes UsessBase UsessSessions UsessModule.

Local Open Scope Z_scope.

Implicit Type t : table.

(** ** The reference *)

Definition free (t : table) (k : Z) : Prop := t !! k = None.
#[export] Instance free_dec t k : Decision (free t k).
Proof. unfold free. apply _. Defined.

(** The identifiers of a range, those behind [last] first. *)
Definition cyclic_ids (r : usess_conf_session_id_range_t) (last : Z) : list Z :=
  if bool_decide (last <> USESS_ID_INVALID /\ last < end_ r)
  then seqZ (last + 1) (end_ r - last) ++ seqZ (start r) (last + 1 - start r)
  else seqZ (start r) (end_ r - start r + 1).

Definition first_free t (l : list Z) : option Z := head (filter (free t) l).

Definition next_free t (r : usess_conf_session_id_range_t) (last : Z) : option Z :=
  first_free t (cyclic_ids r last).

(** A range of the configuration that can be used: [usess.cfdef] has the lower
    bound, the order is left to the administrator. *)
Definition range_ok (r : usess_conf_session_id_range_t) : Prop :=
  1 <= start r /\ start r <= end_ r /\ end_ r <= UINT32_MAX.

Definition in_range (r : usess_conf_session_id_range_t) (k : Z) : Prop :=
  start r <= k <= end_ r.

Definition last_ok (r : usess_conf_session_id_range_t) (last : Z) : Prop :=
  last = USESS_ID_INVALID \/ in_range r last.

(** ** Facts about the reference *)

Lemma first_free_app t l1 l2 :
  first_free t (l1 ++ l2)
  = match first_free t l1 with Some n => Some n | None => first_free t l2 end.
Proof. unfold first_free. rewrite list.filter_app. by destruct (filter _ l1). Qed.

Lemma first_free_cons t a l :
  first_free t (a :: l) = match t !! a with None => Some a | Some _ => first_free t l end.
Proof.
  unfold first_free. rewrite filter_cons. destruct (decide (free t a)) as [F|F];
    unfold free in F; [by rewrite F|by destruct (t !! a)].
Qed.

Lemma first_free_some t l n : first_free t l = Some n -> n ∈ l /\ free t n.
Proof.
  unfold first_free. destruct (filter _ l) as [|m l'] eqn:E; [done|]. intros [= <-].
  assert (m ∈ filter (free t) l) as Hm by (rewrite E; left).
  apply list_elem_of_filter in Hm. tauto.
Qed.

Lemma first_free_none t l : first_free t l = None <-> forall k, k ∈ l -> is_Some (t !! k).
Proof.
  unfold first_free. split.
  - destruct (filter _ l) as [|m l'] eqn:E; [|done]. intros _ k Hk.
    destruct (t !! k) eqn:Ek; [done|].
    assert (k ∈ filter (free t) l) as Hf by (apply list_elem_of_filter; done).
    rewrite E in Hf. by apply elem_of_nil in Hf.
  - intros Hall. destruct (filter _ l) as [|m l'] eqn:E; [done|].
    assert (m ∈ filter (free t) l) as Hm by (rewrite E; left).
    apply list_elem_of_filter in Hm as [Hf Hm]. unfold free in Hf.
    destruct (Hall _ Hm) as [x Hx]. congruence.
Qed.

Lemma cyclic_ids_elem r last k :
  range_ok r -> last_ok r last -> k ∈ cyclic_ids r last <-> in_range r k.
Proof.
  intros Hr Hl. unfold cyclic_ids, in_range, last_ok, range_ok in *.
  unfold USESS_ID_INVALID, in_range in *.
  case_bool_decide; rewrite ?elem_of_app, !elem_of_seqZ; lia.
Qed.

Lemma next_free_some t r last n :
  range_ok r -> last_ok r last -> next_free t r last = Some n -> in_range r n /\ free t n.
Proof.
  intros Hr Hl H. apply first_free_some in H as [H Hf]. split; [|done].
  by apply cyclic_ids_elem in H.
Qed.

Lemma next_free_none t r last :
  range_ok r -> last_ok r last ->
  next_free t r last = None <-> forall k, in_range r k -> is_Some (t !! k).
Proof.
  intros Hr Hl. unfold next_free. rewrite first_free_none.
  split; intros H k Hk; apply H; by apply (cyclic_ids_elem r last k).
Qed.

(** ** The search *)

Lemma seqZ_next a e : a <= e -> seqZ a (e - a + 1) = a :: seqZ (a + 1) (e - (a + 1) + 1).
Proof.
  intros Hae. rewrite seqZ_cons by lia. f_equal. f_equal; lia.
Qed.

(** The entries from [a] on. *)
Definition from (a : Z) t : nat := size (filter (fun p => a <= p.1) t).

Lemma from_used a t x : t !! a = Some x -> from a t = S (from (a + 1) t).
Proof.
  intros Ha. unfold from.
  assert (filter (fun p => a <= p.1) t = <[a := x]> (filter (fun p => a + 1 <= p.1) t)) as ->.
  { apply map_eq. intros k. destruct (decide (k = a)) as [->|Hk].
    - rewrite lookup_insert_eq. apply map_lookup_filter_Some. cbn. split; [done|lia].
    - rewrite lookup_insert_ne by done. apply option_eq. intros y.
      rewrite !map_lookup_filter_Some. cbn. split; intros [? ?]; split; auto; lia. }
  apply map_size_insert_None, map_lookup_filter_None. right. intros y Hy. cbn. lia.
Qed.

Lemma from_le a t : (from a t <= size t)%nat.
Proof. apply map_subseteq_size, map_filter_subseteq. Qed.

(** The loop from [a] while the identifier is at most [e], with its
    wrap-around, finds the first free identifier. *)
Lemma search_first_free s fuel go_on a e :
  (forall k, go_on k = bool_decide (k <= e)) ->
  table_ s !! USESS_ID_INVALID = None -> 0 <= a -> -1 <= e <= UINT32_MAX ->
  (from a (table_ s) < fuel)%nat ->
  search s fuel go_on a
  = Some (default USESS_ID_INVALID (first_free (table_ s) (seqZ a (e - a + 1)))).
Proof.
  intros Hgo H0. revert a. induction fuel as [|fuel IH]; intros a Ha He Hfuel; [lia|].
  cbn. rewrite Hgo. case_bool_decide as Hae.
  2:{ by rewrite seqZ_nil by lia. }
  rewrite seqZ_next, first_free_cons by done.
  destruct (table_ s !! a) as [x|] eqn:Ea; [|done].
  rewrite (from_used _ _ _ Ea) in Hfuel.
  destruct (decide (a = UINT32_MAX)) as [->|Hmax].
  - (* the counter wraps to 0, which no session has *)
    assert (e = UINT32_MAX) as -> by lia.
    change (u32_inc UINT32_MAX) with 0. destruct fuel as [|fuel']; [lia|].
    cbn [search]. rewrite Hgo, bool_decide_eq_true_2 by (unfold UINT32_MAX; lia).
    change 0 with USESS_ID_INVALID. by rewrite H0.
  - rewrite u32_inc_small by lia. apply IH; lia.
Qed.

Lemma search_range s go_on e :
  (forall k, go_on k = bool_decide (k <= e)) -> table_ s !! USESS_ID_INVALID = None ->
  -1 <= e <= UINT32_MAX -> forall a, 0 <= a ->
  search s (S (size (table_ s))) go_on a
  = Some (default USESS_ID_INVALID (first_free (table_ s) (seqZ a (e - a + 1)))).
Proof.
  intros Ht H0 He a Ha. apply search_first_free; auto.
  pose proof (from_le a (table_ s)). lia.
Qed.

(** The two loops find the next free identifier, and the first one needs no
    more than the range. *)
Lemma find_id_next_free s (t : Z) :
  table_ s !! USESS_ID_INVALID = None -> range_ok (range (info_of s t)) ->
  last_ok (range (info_of s t)) (allocated_sess_id_ s (CONF_LOCAL_ID t)) ->
  find_id s t
  = Some (default USESS_ID_INVALID
            (next_free (table_ s) (range (info_of s t))
               (allocated_sess_id_ s (CONF_LOCAL_ID t)))).
Proof.
  intros H0 Hr Hl. unfold find_id.
  set (r := range (info_of s t)) in *. set (last := allocated_sess_id_ s _) in *.
  assert (start r <= id_search_start s t <= UINT32_MAX) as Hs.
  { unfold id_search_start. fold r last. unfold range_ok, last_ok, in_range in *.
    destruct (last !=? _) eqn:E; cbn; [|lia]. bool_norm.
    case_bool_decide; lia. }
  destruct Hr as (Hr1 & Hr2 & Hr3).
  rewrite (search_range s _ (end_ r)) by (auto; lia).
  rewrite (search_range s _ (id_search_start s t - 1))
    by (auto; try lia; intros k; apply bool_decide_ext; lia).
  assert (next_free (table_ s) r last
          = match first_free (table_ s) (seqZ (id_search_start s t)
                                           (end_ r - id_search_start s t + 1)) with
            | Some n => Some n
            | None => first_free (table_ s) (seqZ (start r)
                        (id_search_start s t - 1 - start r + 1))
            end) as ->.
  { rewrite <- first_free_app. unfold next_free, cyclic_ids, id_search_start. fold r last.
    destruct (last !=? USESS_ID_INVALID) eqn:E1; bool_norm;
      destruct (bool_decide (last < end_ r)) eqn:E2; bool_norm; cbn -[seqZ].
    all: case_bool_decide as E3; try (exfalso; tauto).
    1: f_equal; f_equal; f_equal; lia.
    all: replace (start r - 1 - start r + 1) with 0 by lia; by rewrite app_nil_r. }
  destruct (first_free _ (seqZ (id_search_start s t) _)) as [n|] eqn:E1; cbn.
  - apply first_free_some in E1 as [E1 _]. apply elem_of_seqZ in E1.
    rewrite bool_decide_eq_false_2; [done|]. unfold USESS_ID_INVALID. lia.
  - done.
Qed.

(** The identifier of a new session.  If the range of its type is usable and
    the last identifier given, if any, lies in it, the search - which counts in
    32 bits and wraps around - ends with the first free identifier of the range
    in cyclic order behind the last one, which it records, or with the invalid
    one if there is none.  What it finds is in the range and free, and it fails
    only if every identifier of the range is in use. *)
Theorem new_id_is_next_free (s : UsessSessions) (t : Z) :
  let r := range (info_of s t) in
  let next := next_free (table_ s) r (allocated_sess_id_ s (CONF_LOCAL_ID t)) in
  table_ s !! USESS_ID_INVALID = None -> range_ok r ->
  last_ok r (allocated_sess_id_ s (CONF_LOCAL_ID t)) ->
  GetNewSessionId t s
  = Some match next with
         | Some n => (n, set_allocated (CONF_LOCAL_ID t) n s)
         | None => (USESS_ID_INVALID, s)
         end /\
  (forall n, next = Some n -> in_range r n /\ free (table_ s) n) /\
  (next = None <-> forall k, in_range r k -> is_Some (table_ s !! k)).
Proof.
  intros r next H0 Hr Hl. split; [|split].
  - unfold GetNewSessionId. rewrite find_id_next_free by done. fold r next.
    destruct next as [n|] eqn:En; cbn; [|done].
    apply next_free_some in En as [[En _] _]; [|done..].
    rewrite bool_decide_eq_false_2; [done|]. destruct Hr. unfold USESS_ID_INVALID. lia.
  - intros n. by apply next_free_some.
  - by apply next_free_none.
Qed.

(** With sessions 1 and 2 in use, a third one gets 3. *)
Lemma new_id_is_next_free_witness :
  fst <$> GetNewSessionId USESS_TYPE_CLI (sessions_ (u_mod Sessions.two_sessions)) = Some 3.
Proof.
  destruct (new_id_is_next_free (sessions_ (u_mod Sessions.two_sessions)) USESS_TYPE_CLI)
    as [E _].
  - vm_compute. reflexivity.
  - vm_compute. repeat split; discriminate.
  - right. vm_compute. split; discriminate.
  - rewrite E. vm_compute. reflexivity.
Defined.

(** ** A range that moves *)

(** Identifiers after a reload.  The last identifier given is kept when the
    configuration is loaded again.  If the new range of a type begins behind
    the identifier that follows it and that one is free, the next session of
    the type gets it, although it is not in the range. *)
Theorem new_id_outside_reloaded_range (s : UsessSessions) (f : ConfFile)
    (c : usess_conf_session_t) (t : Z) :
  let s' := set_session_conf c s in
  let last := allocated_sess_id_ s (CONF_LOCAL_ID t) in
  UsessConfSession_LoadConf f = (USESS_E_OK, c) -> range_ok (range (info_of s' t)) ->
  0 < last -> last + 1 < start (range (info_of s' t)) -> free (table_ s) (last + 1) ->
  exists s'', GetNewSessionId t s' = Some (last + 1, s'') /\
    ~ in_range (range (info_of s' t)) (last + 1).
Proof.
  intros s' last _ Hr Hl Hs Hf.
  assert (id_search_start s' t = last + 1) as Hi.
  { unfold id_search_start. fold s'. change (allocated_sess_id_ s' _) with last.
    rewrite (bool_decide_eq_false_2 (last = _)) by (unfold USESS_ID_INVALID; lia).
    destruct Hr as (_ & Hr & _). rewrite bool_decide_eq_true_2; [done|]. lia. }
  exists (set_allocated (CONF_LOCAL_ID t) (last + 1) s').
  split; [|unfold in_range; lia].
  unfold GetNewSessionId, find_id. rewrite Hi. cbn [search].
  destruct Hr as (_ & Hr & _). rewrite bool_decide_eq_true_2 by lia.
  change (table_ s') with (table_ s). rewrite Hf.
  rewrite !(bool_decide_eq_false_2 (last + 1 = _)) by (unfold USESS_ID_INVALID; lia). done.
Qed.

(** With the range of terminals moved behind 500 and the fixed identifiers to
    1-127, a second session on a terminal gets the fixed identifier 2. *)
Definition moved : ConfFile :=
  Sessions.file_with (Sessions.parameter 500 600 true 16) (Sessions.parameter 1 127 false 0).

Lemma new_id_outside_reloaded_range_witness :
  let s := set_session_conf (UsessConfSession_LoadConf moved).2
             (sessions_ (u_mod Sessions.one_session)) in
  (exists s'', GetNewSessionId USESS_TYPE_CLI s = Some (2, s'')) /\ is_fixed s 2 = true.
Proof.
  destruct (new_id_outside_reloaded_range (sessions_ (u_mod Sessions.one_session)) moved
    (UsessConfSession_LoadConf moved).2 USESS_TYPE_CLI) as (s'' & E & _).
  - reflexivity.
  - vm_compute. repeat split; discriminate.
  - vm_compute. reflexivity.
  - vm_compute. reflexivity.
  - vm_compute. reflexivity.
  - split; [|vm_compute; reflexivity]. exists s''.
    change 2 with (allocated_sess_id_ (sessions_ (u_mod Sessions.one_session))
                     (CONF_LOCAL_ID USESS_TYPE_CLI) + 1). exact E.
Defined.
