(* ===== verification/UsessTable.v ===== *)
(** * Invariants of the table of sessions

    What holds of the sessions whatever is asked of the module: they are well
    formed, only administrators are in the enable mode, and the limits of the
    configuration are kept. *)

From S2P Require Import Prelude MgmtDb UsessTypes UsessBase UsessAuth UsessSessions UsessModule.
From S2P Require Import UsessProps UsessIds UsessModule.

Local Open Scope Z_scope.

(** ** Well-formed sessions *)

(** The fields of a session stored under the key [k]. *)
Record good_session (k : Z) (x : usess_ipc_res_sess_info_t) : Prop := {
  gs_id : id (sess x) = k;
  gs_valid : k <> USESS_ID_INVALID;
  gs_type : IsSessType (sess_type x) = true;
  gs_user : IsUserType (user_type x) = true;
  gs_mode : sess_mode x = USESS_MODE_OPER \/
            sess_mode x = USESS_MODE_ENABLE /\ user_type x = USER_TYPE_ADMIN;
  gs_config : config_status x = CONFIG_STATUS_NONE
}.

Definition well_formed (s : UsessSessions) : Prop := map_Forall good_session (table_ s).

#[export] Instance good_session_dec k x : Decision (good_session k x).
Proof.
  refine (cast_if (decide (id (sess x) = k /\ k <> USESS_ID_INVALID /\
    IsSessType (sess_type x) = true /\ IsUserType (user_type x) = true /\
    (sess_mode x = USESS_MODE_OPER \/
     sess_mode x = USESS_MODE_ENABLE /\ user_type x = USER_TYPE_ADMIN) /\
    config_status x = CONFIG_STATUS_NONE))); [abstract (by split; tauto)|abstract (by intros []; tauto)].
Defined.

Lemma insert_new_elem n x (t : table) k y :
  insert_new n x t !! k = Some y -> t !! k = Some y \/ k = n /\ y = x.
Proof.
  unfold insert_new. destruct (t !! n) eqn:E; [tauto|]. intros Hk.
  apply lookup_insert_Some in Hk as [[<- <-]|[? ?]]; tauto.
Qed.

Lemma GetNewSessionId_same t s n s' :
  GetNewSessionId t s = Some (n, s') ->
  table_ s' = table_ s /\ sessions_conf_ s' = sessions_conf_ s.
Proof. unfold GetNewSessionId. intros E. repeat case_match; by simplify_eq/=. Qed.

#[export] Instance well_formed_kept : Kept well_formed.
Proof.
  split.
  - intros s req user now n s' HI Ht Hu _ En Hn k x Hk. cbn in Hk.
    destruct (GetNewSessionId_same _ _ _ _ En) as [Es _].
    apply insert_new_elem in Hk as [Hk|[-> ->]]; [rewrite Es in Hk; by apply HI|].
    split; cbn; auto.
  - intros s k HI. by apply map_Forall_delete.
  - intros s k x HI Hx. apply map_Forall_insert_2; [|done].
    destruct (HI k x Hx). split; cbn; auto.
Qed.

Lemma well_formed_enable : kept_enable well_formed.
Proof.
  intros s k x HI Hx Ha. apply map_Forall_insert_2; [|done].
  destruct (HI k x Hx). split; cbn; auto.
Qed.

(** What may be asked of the module. *)
Inductive UsessCall :=
| CallInit | CallFini | CallReload (is_reload : bool)
| CallService (args : list UsessValue) (service : Z).

Definition run_call {Db T} `{TcSessions T} (P : Platform Db T) (c : UsessCall) : U Db T unit :=
  match c with
  | CallInit => do! init P in uret tt
  | CallFini => do! fini P in uret tt
  | CallReload b => ReloadConfEventHandler P b
  | CallService args service => do! ipcService P args service in uret tt
  end.

Section Calls.

Context {Db T : Type} `{TcSessions T} (P : Platform Db T).

(** C25: sessions stay well formed.  Whatever is asked of the module - start, stop,
    reload of the configuration, any service with any arguments - and whatever
    the database, the lock, the clock and the coordinator answer, every session
    in the table is stored under its own identifier, which is not the invalid
    one, has a known type, user type and mode, carries no configuration status,
    and is in the enable mode only if its user is an administrator; provided the
    other threads see to it as well. *)
Theorem sessions_well_formed (c : UsessCall) (st st' : USt Db T) (r : unit) :
  others_keep P well_formed -> well_formed (sessions_ (u_mod st)) ->
  run_call P c st = Some (r, st') -> well_formed (sessions_ (u_mod st')).
Proof.
  intros Ho HI E. revert r st' E. revert st HI.
  assert (forall s c', well_formed s -> well_formed (set_session_conf c' s)) as Hc by done.
  assert (forall s f, well_formed s -> well_formed (mkSessions ∅ (sessions_conf_ s) f)) as He.
  { intros s f _. apply map_Forall_empty. }
  pose proof well_formed_kept as K.
  destruct c as [| |b|args service]; cbn.
  - apply bind_keeps; [by apply init_keeps|]. intros ?. by apply frames_keeps, _.
  - apply bind_keeps; [by apply fini_keeps|]. intros ?. by apply frames_keeps, _.
  - by apply ReloadConfEventHandler_keeps.
  - apply bind_keeps; [|intros ?; by apply frames_keeps, _].
    apply ipcService_keeps; [done..|]. intros _. apply well_formed_enable.
Qed.

End Calls.

(** Adding a third session. *)
Lemma sessions_well_formed_witness :
  match run_call Sessions.platform (CallService [Sessions.add_request] kUsessSessAdd)
          Sessions.two_sessions with
  | Some (_, st') => well_formed (sessions_ (u_mod st'))
  | None => False
  end.
Proof.
  assert (Sessions.returns (run_call Sessions.platform (CallService [Sessions.add_request] kUsessSessAdd)
    Sessions.two_sessions) = true) as Hret by (vm_compute; reflexivity).
  destruct (run_call _ _ _) as [[r st']|] eqn:E; [|discriminate Hret].
  refine (sessions_well_formed Sessions.platform _ _ _ r _ _ E).
  - intros log m t Hm. exact Hm.
  - apply (bool_decide_unpack _). vm_compute. exact I.
Defined.

(** ** Limits *)

Definition apart (r r' : usess_conf_session_id_range_t) : Prop :=
  end_ r < start r' \/ end_ r' < start r.

(** The ranges of the four kinds are usable and do not overlap. *)
Definition conf_usable (c : usess_conf_session_t) : Prop :=
  (forall i, range_ok (range (local c i))) /\
  (forall i j, i <> j -> apart (range (local c i)) (range (local c j))).

Definition at_most (c : usess_conf_session_connect_num_t) (n : Z) : Prop :=
  limited c = true -> n <= max_session c.

Record within_limits (s : UsessSessions) : Prop := {
  wl_conf : conf_usable (sessions_conf_ s);
  wl_range : map_Forall (fun k x => in_range (range (info_of s (sess_type x))) k) (table_ s);
  wl_last : forall i, last_ok (range (local (sessions_conf_ s) i)) (allocated_sess_id_ s i);
  wl_global : at_most (global (sessions_conf_ s)) (GetCount s);
  wl_local : forall i, let p := local (sessions_conf_ s) i in
    at_most (connect p) (count_between s (start (range p)) (end_ (range p)))
}.

Lemma within_limits_invalid s : within_limits s -> table_ s !! USESS_ID_INVALID = None.
Proof.
  intros W. destruct (table_ s !! _) as [x|] eqn:E; [|done].
  destruct (wl_range s W _ _ E) as [H _]. destruct (wl_conf s W) as [Hr _].
  destruct (Hr (CONF_LOCAL_ID (sess_type x))) as [H1 _].
  unfold info_of, USESS_ID_INVALID in *. lia.
Qed.

(** Counting. *)
Lemma count_insert s a b n x :
  table_ s !! n = None ->
  count_between (set_table (<[n := x]> (table_ s)) s) a b
  = count_between s a b + (if bool_decide (a <= n <= b) then 1 else 0).
Proof.
  intros Hn. unfold count_between. cbn. case_bool_decide as Hab.
  - rewrite map_filter_insert_True by done.
    rewrite map_size_insert_None; [lia|]. apply map_lookup_filter_None. by left.
  - rewrite map_filter_insert_False by done. rewrite delete_id by done. lia.
Qed.

Lemma count_subset s t a b :
  t ⊆ table_ s -> count_between (set_table t s) a b <= count_between s a b.
Proof.
  intros Ht. unfold count_between. cbn. apply inj_le.
  apply map_subseteq_size. by apply map_filter_subseteq_mono.
Qed.

Lemma count_replace s a b k x y :
  table_ s !! k = Some x ->
  count_between (set_table (<[k := y]> (table_ s)) s) a b = count_between s a b.
Proof.
  intros Hk. unfold count_between. cbn. f_equal.
  rewrite <- !size_dom. f_equal. apply set_eq. intros j.
  rewrite !elem_of_dom. unfold is_Some. setoid_rewrite map_lookup_filter_Some. cbn.
  destruct (decide (j = k)) as [->|Hj].
  - rewrite lookup_insert_eq. split; intros (z & ? & ?); simplify_eq; eauto.
  - by rewrite lookup_insert_ne.
Qed.

Lemma count_delete_le s k a b :
  count_between (set_table (delete k (table_ s)) s) a b <= count_between s a b.
Proof. apply count_subset, delete_subseteq. Qed.

Lemma room_for_one s t :
  range_ok (range (info_of s t)) -> CheckSessTypeCount s t = Some true ->
  at_most (global (sessions_conf_ s)) (GetCount s + 1) /\
  at_most (connect (info_of s t))
    (count_between s (start (range (info_of s t))) (end_ (range (info_of s t))) + 1).
Proof.
  intros Hr Hc. unfold CheckSessTypeCount, count_range in Hc. unfold at_most.
  destruct (limited (global _)) eqn:Eg; cbn in Hc;
    [destruct (bool_decide (max_session _ <= GetCount s)) eqn:Em; [done|]; bool_norm|].
  all: destruct (limited (connect (info_of s t))) eqn:El; cbn in Hc; split; try done; try lia.
  all: intros _; destruct Hr as (? & ? & ?);
    rewrite (bool_decide_eq_false_2 (end_ _ < _)) in Hc by lia;
    injection Hc as Hc; bool_norm; lia.
Qed.

(** The session with the new identifier [n] of type [t]. *)
Lemma within_limits_add s t n x :
  within_limits s -> CheckSessTypeCount s t = Some true -> sess_type x = t ->
  in_range (range (info_of s t)) n -> free (table_ s) n ->
  within_limits (set_table (<[n := x]> (table_ s)) (set_allocated (CONF_LOCAL_ID t) n s)).
Proof.
  intros W Hc Hx Hn Hf. destruct (wl_conf s W) as [Hr Hd].
  destruct (room_for_one s t (Hr _) Hc) as [Hg Hl].
  split; cbn; [apply W| | | |].
  - apply map_Forall_insert_2; [by rewrite Hx|apply (wl_range s W)].
  - intros i. case_bool_decide as Hi; [subst i; by right|apply W].
  - unfold GetCount in *. cbn. rewrite map_size_insert_None by done.
    intros Hlim. specialize (Hg Hlim). lia.
  - intros i Hlim. change (count_between _ ?a ?b) with
      (count_between (set_table (<[n := x]> (table_ s)) s) a b).
    rewrite count_insert by done.
    destruct (decide (i = CONF_LOCAL_ID t)) as [->|Hi].
    + specialize (Hl Hlim). unfold info_of in Hl. case_bool_decide; lia.
    + rewrite bool_decide_eq_false_2; [pose proof (wl_local s W i Hlim); lia|].
      specialize (Hd _ _ Hi). unfold apart, in_range, info_of in *. lia.
Qed.

#[export] Instance within_limits_kept : Kept within_limits.
Proof.
  split.
  - intros s req user now n s' W _ _ Hc En Hn. unfold GetNewSessionId in En.
    pose proof (within_limits_invalid s W) as H0. destruct (wl_conf s W) as [Hr _].
    rewrite find_id_next_free in En by (try apply Hr; try apply (wl_last s W); done).
    destruct (next_free _ _ _) as [m|] eqn:Em; cbn in En; [|injection En as <- _; by destruct Hn].
    apply next_free_some in Em as [Hm Hf]; [|apply Hr|apply (wl_last s W)].
    destruct (m !=? USESS_ID_INVALID) eqn:Ez;
      [|bool_norm; injection En as <- _; by destruct Hn]. injection En as -> <-.
    unfold insert_new. cbn. rewrite Hf. by apply (within_limits_add s).
  - intros s k W. split; cbn; try apply W.
    + apply map_Forall_delete, W.
    + intros Hlim. pose proof (wl_global s W Hlim) as Hg. unfold GetCount in *. cbn.
      pose proof (map_subseteq_size _ _ (delete_subseteq (table_ s) k)). lia.
    + intros i Hlim. pose proof (wl_local s W i Hlim) as Hl.
      etrans; [apply count_delete_le|done].
  - intros s k x W Hx. split; cbn; try apply W.
    + apply map_Forall_insert_2; [exact (wl_range s W k x Hx)|apply W].
    + intros Hlim. pose proof (wl_global s W Hlim) as Hg. unfold GetCount in *. cbn.
      rewrite map_size_insert_Some by eauto. done.
    + intros i Hlim. pose proof (wl_local s W i Hlim) as Hl.
      by rewrite (count_replace _ _ _ _ x).
Qed.

Lemma within_limits_enable : kept_enable within_limits.
Proof.
  intros s k x W Hx _. split; cbn; try apply W.
  - apply map_Forall_insert_2; [exact (wl_range s W k x Hx)|apply W].
  - intros Hlim. pose proof (wl_global s W Hlim) as Hg. unfold GetCount in *. cbn.
    rewrite map_size_insert_Some by eauto. done.
  - intros i Hlim. pose proof (wl_local s W i Hlim) as Hl.
    by rewrite (count_replace _ _ _ _ x).
Qed.

(** C29: the limits are kept. With usable ranges that do not overlap, every
    request keeps the number of sessions within the limit for all and within
    the limit of each kind, keeps every session's identifier in the range of
    its kind - so that no session gets one of the fixed identifiers, which
    need no authorisation - and keeps the last identifiers given in their
    ranges. All of this has to hold before, and other threads have to keep it.
    A reload with other ranges breaks it: the last identifiers given are kept
    and may lie outside the new ranges ([new_id_outside_reloaded_range]). *)
Theorem session_limits_kept {Db T} `{TcSessions T} (P : Platform Db T)
    (args : list UsessValue) (service : Z) (st st' : USt Db T) (e : usess_ipc_err_e) :
  others_keep P within_limits -> within_limits (sessions_ (u_mod st)) ->
  ipcService P args service st = Some (e, st') ->
  within_limits (sessions_ (u_mod st')) /\
  forall k, is_Some (table_ (sessions_ (u_mod st')) !! k) -> is_fixed (sessions_ (u_mod st')) k = false.
Proof.
  intros Ho W E. pose proof within_limits_kept as K.
  assert (within_limits (sessions_ (u_mod st'))) as W'.
  { revert e st' E. revert st W.
    apply ipcService_keeps; [done..|]. intros _. apply within_limits_enable. }
  split; [done|]. intros k [x Hx]. pose proof (wl_range _ W' k x Hx) as Hk.
  destruct (wl_conf _ W') as [_ Hd].
  assert (CONF_LOCAL_ID (sess_type x) <> ID_FIXED) as Hi.
  { unfold CONF_LOCAL_ID. repeat case_match; done. }
  specialize (Hd _ _ Hi). unfold is_fixed, apart, in_range, info_of in *.
  apply andb_false_iff. rewrite !bool_decide_eq_false. lia.
Qed.

Lemma two_sessions_within : within_limits (sessions_ (u_mod Sessions.two_sessions)).
Proof.
  split.
  - split; [intros []; vm_compute; repeat split; discriminate|].
    intros [] [] Hij; try done; vm_compute; auto.
  - apply (bool_decide_unpack (map_Forall _ _)). vm_compute. exact I.
  - intros []; vm_compute; auto; right; split; discriminate.
  - intros _. vm_compute. discriminate.
  - intros []; vm_compute; intros; discriminate.
Qed.

Lemma session_limits_kept_witness :
  match ipcService Sessions.platform [Sessions.add_request] kUsessSessAdd
          Sessions.two_sessions with
  | Some (_, st') => within_limits (sessions_ (u_mod st'))
  | None => False
  end.
Proof.
  assert (Sessions.returns (ipcService Sessions.platform [Sessions.add_request] kUsessSessAdd
    Sessions.two_sessions) = true) as Hret by (vm_compute; reflexivity).
  destruct (ipcService _ _ _ _) as [[e st']|] eqn:E; [|discriminate Hret].
  refine (proj1 (session_limits_kept Sessions.platform _ _ _ _ e _ _ E)).
  - intros log m t Hm. exact Hm.
  - exact two_sessions_within.
Defined.
