(* ===== verification/UsessLocking.v ===== *)
(** * The lock and the connection

    Every request gives back the lock it takes and leaves the database
    disconnected, on every path.  The classes below say what a program does to
    the lock ([Quiet]: nothing; [Unlocks]: it gives it back at its end) and to
    the connection ([Stays]: a closed one stays closed; [Closes]: it is closed
    at the end). *)

From S2P Require Import Prelude TcDb MgmtDb UsessTypes UsessBase UsessAuth UsessSessions.
From S2P Require Import UsessModule UsessProps.

Local Open Scope Z_scope.

(** Is the lock held after these events, if it was ([h]) before?  [None] if a
    lock is taken twice or one that is not held is given back. *)
Fixpoint lock_run (h : bool) (l : list UEvent) : option bool :=
  match l with
  | [] => Some h
  | ELock _ rc :: l' =>
      if rc ==? 0 then (if h then None else lock_run true l') else lock_run h l'
  | EUnlock :: l' => if h then lock_run false l' else None
  | _ :: l' => lock_run h l'
  end.

Lemma lock_run_app h l1 l2 :
  lock_run h (l1 ++ l2) = match lock_run h l1 with Some h' => lock_run h' l2 | None => None end.
Proof.
  revert h. induction l1 as [|e l1 IH]; intros h; [done|].
  destruct e as [m rc| | | | | | |]; cbn; auto; [destruct (rc ==? 0)|]; destruct h; auto.
Qed.

Definition locks (e : UEvent) : bool :=
  match e with ELock _ _ | EUnlock => true | _ => false end.

Section Locking.

Context {Db T : Type} `{TcSessions T}.
Implicit Type st : USt Db T.

(** The events that a run adds to the log satisfy [R]. *)
Definition logs {A} (m : U Db T A) (R : list UEvent -> Prop) : Prop :=
  forall st, uwp m (fun _ st' => exists ev, u_log st' = u_log st ++ ev /\ R ev) st.

Definition no_lock (ev : list UEvent) : Prop := forall h, lock_run h ev = Some h.

(** ** What a program does to the lock *)

Class Quiet {A} (m : U Db T A) : Prop := quiet : logs m no_lock.
Class Unlocks {A} (m : U Db T A) : Prop :=
  unlocks : logs m (fun ev => lock_run true ev = Some false).

Lemma logs_bind {A B} (m : U Db T A) (f : A -> U Db T B) (R1 R2 R : list UEvent -> Prop) :
  logs m R1 -> (forall a, logs (f a) R2) ->
  (forall ev1 ev2, R1 ev1 -> R2 ev2 -> R (ev1 ++ ev2)) -> logs (ubind m f) R.
Proof.
  intros Hm Hf HR st. apply uwp_bind. eapply uwp_mono; [apply Hm|].
  intros a st1 (ev1 & E1 & H1). eapply uwp_mono; [apply Hf|].
  intros b st2 (ev2 & E2 & H2). exists (ev1 ++ ev2). split; [|auto].
  by rewrite E2, E1, (assoc_L (++)).
Qed.

Lemma no_lock_app ev1 ev2 : no_lock ev1 -> no_lock ev2 -> no_lock (ev1 ++ ev2).
Proof. intros H1 H2 h. by rewrite lock_run_app, H1. Qed.

#[global] Instance quiet_bind {A B} (m : U Db T A) (f : A -> U Db T B) :
  Quiet m -> (forall a, Quiet (f a)) -> Quiet (ubind m f).
Proof. intros Hm Hf. exact (logs_bind m f _ _ _ Hm Hf no_lock_app). Qed.

#[global] Instance unlocks_bind {A B} (m : U Db T A) (f : A -> U Db T B) :
  Quiet m -> (forall a, Unlocks (f a)) -> Unlocks (ubind m f).
Proof.
  intros Hm Hf. eapply logs_bind; [exact Hm|exact Hf|]. intros ev1 ev2 H1 H2. cbn in *.
  by rewrite lock_run_app, H1.
Qed.

(** A program that never returns does anything. *)
#[global] Instance unlocks_stuck {A} : Unlocks (ustuck : U Db T A).
Proof. intros st. apply uwp_stuck. Qed.
#[global] Instance quiet_stuck {A} : Quiet (ustuck : U Db T A).
Proof. intros st. apply uwp_stuck. Qed.

#[global] Instance quiet_if {A} (b : bool) (m k : U Db T A) :
  Quiet m -> Quiet k -> Quiet (if b then m else k).
Proof. by destruct b. Qed.
#[global] Instance unlocks_if {A} (b : bool) (m k : U Db T A) :
  Unlocks m -> Unlocks k -> Unlocks (if b then m else k).
Proof. by destruct b. Qed.

#[global] Instance quiet_option {A B} (o : option A) (k : U Db T B) (m : A -> U Db T B) :
  Quiet k -> (forall a, Quiet (m a)) -> Quiet (match o with Some a => m a | None => k end).
Proof. intros ? ?. by destruct o. Qed.

#[global] Instance unlocks_list {A B} (l : list A) (k : U Db T B) (m : A -> U Db T B) :
  Unlocks k -> (forall a, Unlocks (m a)) ->
  Unlocks (match l with [] => k | a :: _ => m a end).
Proof. intros ? ?. by destruct l. Qed.

#[global] Instance quiet_on_ok {A} m label (k : U Db T A) :
  Quiet m -> (forall e, Quiet (label e)) -> Quiet k -> Quiet (on_ok m label k).
Proof. intros ? ? ?. apply quiet_bind; [done|]. intros e. by destruct (e !=? _). Qed.
#[global] Instance unlocks_on_ok {A} m label (k : U Db T A) :
  Quiet m -> (forall e, Unlocks (label e)) -> Unlocks k -> Unlocks (on_ok m label k).
Proof. intros ? ? ?. apply unlocks_bind; [done|]. intros e. by destruct (e !=? _). Qed.

(** A program that adds at most one event. *)
Lemma quiet_event {A} (m : U Db T A) :
  (forall st, uwp m (fun _ st' => u_log st' = u_log st \/
                       exists e, u_log st' = u_log st ++ [e] /\ locks e = false) st) ->
  Quiet m.
Proof.
  intros Hm st. eapply uwp_mono; [apply Hm|]. intros a st' [E|(e & E & He)].
  - exists []. rewrite app_nil_r. by split; [|intros h].
  - exists [e]. split; [done|]. intros h. by destruct e.
Qed.

#[global] Instance quiet_ret {A} (a : A) : Quiet (uret a : U Db T A).
Proof. apply quiet_event. intros st. apply uwp_ret. auto. Qed.
#[global] Instance quiet_member {A} (f : Usess Db -> A) : Quiet (member f : U Db T A).
Proof. apply quiet_event. intros st. apply uwp_member. auto. Qed.
#[global] Instance quiet_tc_instance : Quiet (tc_instance : U Db T bool).
Proof. apply quiet_event. intros st a st' E. injection E as <- <-. auto. Qed.
#[global] Instance quiet_release sid : Quiet (TcReleaseSession sid : U Db T _).
Proof.
  apply quiet_event. intros st a st' E. unfold TcReleaseSession in E.
  repeat case_match; simplify_eq/=. eauto.
Qed.
#[global] Instance quiet_get_config : Quiet (TcGetConfigSession : U Db T _).
Proof.
  apply quiet_event. intros st a st' E. unfold TcGetConfigSession in E.
  repeat case_match; simplify_eq/=. eauto.
Qed.
#[global] Instance quiet_database {A} (f : MgmtDatabase Db -> A * MgmtDatabase Db) :
  Quiet (database_do f : U Db T A).
Proof.
  apply quiet_event. intros st a st' E. unfold database_do in E. case_match.
  injection E as <- <-. auto.
Qed.
#[global] Instance quiet_sessions {A} (f : UsessSessions -> option (A * UsessSessions)) :
  Quiet (sessions_do f : U Db T A).
Proof.
  apply quiet_event. intros st a st' E. unfold sessions_do in E.
  repeat case_match; simplify_eq/=. eauto.
Qed.
#[global] Instance quiet_update f : Quiet (sessions_update f : U Db T unit).
Proof. apply quiet_sessions. Qed.

Context (P : Platform Db T).

#[global] Instance quiet_exec sql b l : Quiet (database_exec P sql b l).
Proof.
  apply quiet_event. intros st a st' E. unfold database_exec in E.
  repeat case_match; simplify_eq/=. eauto.
Qed.
#[global] Instance quiet_clock : Quiet (pfc_clock_get_realtime P).
Proof. apply quiet_event. intros st a st' E. injection E as <- <-. eauto. Qed.
#[global] Instance quiet_output v : Quiet (addOutput P v).
Proof. apply quiet_event. intros st a st' E. injection E as <- <-. eauto. Qed.

#[global] Instance quiet_send v : Quiet (send P v).
Proof. unfold send. apply _. Qed.
#[global] Instance quiet_connect : Quiet (CONNECT P).
Proof. unfold CONNECT. apply _. Qed.
#[global] Instance quiet_disconnect : Quiet (DISCONNECT P).
Proof. unfold DISCONNECT. apply _. Qed.
#[global] Instance quiet_get_user name : Quiet (GetUser P name).
Proof. unfold GetUser, Retrieve. apply _. Qed.
#[global] Instance quiet_authenticate mode x passwd : Quiet (Enable_Authenticate P mode x passwd).
Proof.
  unfold Enable_Authenticate. destruct mode.
  apply quiet_if; [apply _|]. apply quiet_bind; [apply _|]. intros c.
  apply quiet_if; [apply _|]. apply quiet_bind; [apply _|]. intros [e rows].
  apply quiet_if; [apply _|]. cbn.
  repeat first [apply quiet_option; [apply _|intros ?] | case_match; try apply _].
Qed.
#[global] Instance quiet_enable_change passwd : Quiet (Enable_ChangePassword P passwd).
Proof. unfold Enable_ChangePassword. apply _. Qed.
#[global] Instance quiet_user_change user passwd : Quiet (User_ChangePassword P user passwd).
Proof. unfold User_ChangePassword. apply _. Qed.
#[global] Instance quiet_get_session target : Quiet (GetSession target : U Db T _).
Proof. unfold GetSession. apply _. Qed.
#[global] Instance quiet_get_list_id target : Quiet (GetList_id target : U Db T _).
Proof. unfold GetList_id. apply _. Qed.
#[global] Instance quiet_get_list_all : Quiet (GetList_all : U Db T _).
Proof. unfold GetList_all. apply _. Qed.
#[global] Instance quiet_send_list l : Quiet (send_list P l).
Proof. induction l; cbn; apply _. Qed.
#[global] Instance quiet_transit k mode : Quiet (TransitMode k mode : U Db T _).
Proof. unfold TransitMode. apply _. Qed.
#[global] Instance quiet_del_loop target l : Quiet (del_loop target l : U Db T unit).
Proof. induction l as [|[k x] l IH]; cbn; apply _. Qed.
#[global] Instance quiet_del_id target : Quiet (Del_id target : U Db T _).
Proof. unfold Del_id. apply _. Qed.
#[global] Instance quiet_del_type target : Quiet (Del_type target : U Db T _).
Proof. unfold Del_type. apply _. Qed.
#[global] Instance quiet_add req user : Quiet (Add P req user).
Proof. unfold Add. apply _. Qed.

#[global] Instance unlocks_unlock : Unlocks (USESS_UNLOCK : U Db T unit).
Proof. intros st a st' E. injection E as <- <-. by exists [EUnlock]. Qed.

#[global] Instance unlocks_unlock_end e : Unlocks (unlock_end e : U Db T _).
Proof. intros st a st' E. injection E as <- <-. by exists [EUnlock]. Qed.
#[global] Instance unlocks_disconnect_end e : Unlocks (disconnect_end P e).
Proof. unfold disconnect_end. apply _. Qed.
#[global] Instance unlocks_with_session target label k :
  (forall e, Unlocks (label e)) -> (forall x, Unlocks (k x)) ->
  Unlocks (with_session target label k : U Db T _).
Proof.
  intros Hl Hk. apply unlocks_bind; [apply _|]. intros [e [x|]]; destruct e; apply _ || done.
Qed.

#[global] Instance unlocks_add_locked req user : Unlocks (add_locked P req user).
Proof. unfold add_locked. apply _. Qed.

(** ** Requests *)

(** The lock is not held at the end, if not at the beginning. *)
Definition balanced {A} (m : U Db T A) : Prop := logs m (fun ev => lock_run false ev = Some false).

Lemma quiet_balanced {A} (m : U Db T A) : Quiet m -> balanced m.
Proof. intros Hm st. eapply uwp_mono; [apply Hm|]. intros a st' (ev & ? & He). eauto. Qed.

Lemma balanced_bind {A B} (m : U Db T A) (f : A -> U Db T B) :
  balanced m -> (forall a, balanced (f a)) -> balanced (ubind m f).
Proof.
  intros Hm Hf. eapply logs_bind; [exact Hm|exact Hf|]. intros ev1 ev2 H1 H2. cbn in *.
  by rewrite lock_run_app, H1.
Qed.

(** Taking the lock: what follows gives it back. *)
Lemma locked_balanced mode (k : U Db T usess_ipc_err_e) :
  Unlocks k -> balanced (on_ok (USESS_LOCK P mode) proc_end k).
Proof.
  intros Hk st. apply uwp_on_ok. intros e st1 E.
  unfold USESS_LOCK, timedlock, others, member, uevent, ubind, uret in E.
  destruct (pl_others P _ _) as [md t]. injection E as <- <-.
  set (rc := pl_lock P _ _ _). set (st1 := mkUSt _ _ _ _).
  destruct (rc !=? 0) eqn:Erc; cbn -[st1].
  - apply uwp_ret. exists [ELock mode rc]. split; [done|]. cbn. bool_norm.
    by rewrite bool_decide_eq_false_2.
  - eapply uwp_mono; [apply Hk|]. intros e st2 (ev & E & Hev).
    exists (ELock mode rc :: ev). split; [rewrite E; cbn; by rewrite <- (assoc_L (++))|].
    cbn. bool_norm. by rewrite bool_decide_eq_true_2.
Qed.


Lemma getArgument_balanced {A} pick args (k : A -> U Db T _) :
  (forall a, balanced (k a)) -> balanced (getArgument pick args k).
Proof.
  intros Hk. destruct args as [|v ?]; cbn; [by apply quiet_balanced, quiet_ret|].
  destruct (pick v); [done|by apply quiet_balanced, quiet_ret].
Qed.

Lemma UsessSessAddHandler_balanced args : balanced (UsessSessAddHandler P args).
Proof.
  apply getArgument_balanced. intros req. apply locked_balanced.
  apply unlocks_on_ok; [apply _..|]. apply unlocks_bind; [apply _|]. intros [e user].
  apply unlocks_if; [apply _|]. apply unlocks_on_ok; [apply _..|].
  eapply logs_bind; [apply unlocks_unlock| |].
  2:{ intros ev1 ev2 H1 H2. rewrite lock_run_app, H1. exact H2. }
  intros ?. destruct (User_Authenticate P _ _ _ _) as [e'|]; [|intros ?; apply uwp_stuck].
  destruct (e' !=? _); [by apply quiet_balanced, quiet_ret|].
  apply locked_balanced, _.
Qed.

Lemma ipcService_balanced args service : balanced (ipcService P args service).
Proof.
  unfold ipcService. case_bool_decide; [by apply quiet_balanced, quiet_ret|].
  destruct (IpcHandler P !! Z.to_nat service) as [h|] eqn:Eh; [|intros ?; apply uwp_stuck].
  destruct (Z.to_nat service) as [|[|[|[|[|[|[|[|[|[|n]]]]]]]]]] eqn:En; cbn in Eh;
    simplify_eq; [apply UsessSessAddHandler_balanced|..];
    apply getArgument_balanced; intros a; repeat case_match; apply locked_balanced, _.
Qed.

(** ** The connection *)

Definition closed (m : Usess Db) : Prop := status_database_ (database_ m) = STATUS_TRANSACTION_NONE.

Notation ends m := (forall st, uwp m (fun _ st' => closed (u_mod st')) st).
Notation stays m := (forall st, closed (u_mod st) -> uwp m (fun _ st' => closed (u_mod st')) st).

(** Programs that do not use the database. *)
Class NoDatabase {A} (m : U Db T A) : Prop :=
  no_database st : uwp m (fun _ st' => database_ (u_mod st') = database_ (u_mod st)) st.

Lemma no_database_stays {A} (m : U Db T A) : NoDatabase m -> stays m.
Proof.
  intros Hm st Hc. eapply uwp_mono; [apply Hm|]. intros a st' E. unfold closed. by rewrite E.
Qed.

#[global] Instance nodb_ret {A} (a : A) : NoDatabase (uret a : U Db T A).
Proof. intros st. by apply uwp_ret. Qed.
#[global] Instance nodb_stuck {A} : NoDatabase (ustuck : U Db T A).
Proof. intros st. apply uwp_stuck. Qed.
#[global] Instance nodb_bind {A B} (m : U Db T A) (f : A -> U Db T B) :
  NoDatabase m -> (forall a, NoDatabase (f a)) -> NoDatabase (ubind m f).
Proof.
  intros Hm Hf st. apply uwp_bind. eapply uwp_mono; [apply Hm|]. intros a st1 E1.
  eapply uwp_mono; [apply Hf|]. intros b st2 E2. cbn in *. congruence.
Qed.
#[global] Instance nodb_on_ok {A} m label (k : U Db T A) :
  NoDatabase m -> (forall e, NoDatabase (label e)) -> NoDatabase k -> NoDatabase (on_ok m label k).
Proof. intros ? ? ?. apply nodb_bind; [done|]. intros e. by destruct (e !=? _). Qed.
#[global] Instance nodb_if {A} (b : bool) (m k : U Db T A) :
  NoDatabase m -> NoDatabase k -> NoDatabase (if b then m else k).
Proof. by destruct b. Qed.
#[global] Instance nodb_option {A B} (o : option A) (k : U Db T B) (m : A -> U Db T B) :
  NoDatabase k -> (forall a, NoDatabase (m a)) ->
  NoDatabase (match o with Some a => m a | None => k end).
Proof. intros ? ?. by destruct o. Qed.
#[global] Instance nodb_list {A B} (l : list A) (k : U Db T B) (m : A -> U Db T B) :
  NoDatabase k -> (forall a, NoDatabase (m a)) ->
  NoDatabase (match l with [] => k | a :: _ => m a end).
Proof. intros ? ?. by destruct l. Qed.
#[global] Instance nodb_member {A} (f : Usess Db -> A) : NoDatabase (member f : U Db T A).
Proof. intros st. by apply uwp_member. Qed.
#[global] Instance nodb_event e : NoDatabase (uevent e : U Db T unit).
Proof. intros st a st' E. by injection E as <- <-. Qed.
#[global] Instance nodb_tc_instance : NoDatabase (tc_instance : U Db T bool).
Proof. intros st a st' E. by injection E as <- <-. Qed.
#[global] Instance nodb_release sid : NoDatabase (TcReleaseSession sid : U Db T _).
Proof. intros st a st' E. unfold TcReleaseSession in E. repeat case_match; by simplify_eq/=. Qed.
#[global] Instance nodb_get_config : NoDatabase (TcGetConfigSession : U Db T _).
Proof. intros st a st' E. unfold TcGetConfigSession in E. repeat case_match; by simplify_eq/=. Qed.
#[global] Instance nodb_sessions {A} (f : UsessSessions -> option (A * UsessSessions)) :
  NoDatabase (sessions_do f : U Db T A).
Proof. intros st a st' E. unfold sessions_do in E. repeat case_match; by simplify_eq/=. Qed.
#[global] Instance nodb_update f : NoDatabase (sessions_update f : U Db T unit).
Proof. apply nodb_sessions. Qed.
#[global] Instance nodb_clock : NoDatabase (pfc_clock_get_realtime P).
Proof. intros st a st' E. by injection E as <- <-. Qed.
#[global] Instance nodb_output v : NoDatabase (addOutput P v).
Proof. intros st a st' E. by injection E as <- <-. Qed.
#[global] Instance nodb_unlock_end e : NoDatabase (unlock_end e : U Db T _).
Proof. unfold unlock_end, USESS_UNLOCK. apply _. Qed.
#[global] Instance nodb_send v : NoDatabase (send P v).
Proof. unfold send. apply _. Qed.
#[global] Instance nodb_send_list l : NoDatabase (send_list P l).
Proof. induction l; cbn; apply _. Qed.
#[global] Instance nodb_del_loop target l : NoDatabase (del_loop target l : U Db T unit).
Proof. induction l as [|[k x] l IH]; cbn; apply _. Qed.
#[global] Instance nodb_del_id target : NoDatabase (Del_id target : U Db T _).
Proof. unfold Del_id. apply _. Qed.
#[global] Instance nodb_del_type target : NoDatabase (Del_type target : U Db T _).
Proof. unfold Del_type. apply _. Qed.
#[global] Instance nodb_transit k mode : NoDatabase (TransitMode k mode : U Db T _).
Proof. unfold TransitMode. apply _. Qed.
#[global] Instance nodb_get_list_id target : NoDatabase (GetList_id target : U Db T _).
Proof. unfold GetList_id. apply _. Qed.
#[global] Instance nodb_get_list_all : NoDatabase (GetList_all : U Db T _).
Proof. unfold GetList_all. apply _. Qed.
#[global] Instance nodb_add req user : NoDatabase (Add P req user).
Proof. unfold Add. apply _. Qed.

(** The driver manager closes a connection when asked to; a transaction may
    still fail to end. *)
Context (Hdisconnect : forall d, (m_disconnect (pl_odbc P) d).1 = SQL_SUCCESS).
Context (Hothers : forall log m t, closed m -> closed (pl_others P log (m, t)).1).

Lemma Disconnect_closes (d : MgmtDatabase Db) :
  status_database_ (Disconnect (pl_odbc P) d).2 = STATUS_TRANSACTION_NONE.
Proof.
  unfold Disconnect. destruct (_ ==? STATUS_TRANSACTION_NONE) eqn:E; bool_norm; [done|].
  destruct (EndTransaction _ _ _) as [e d1].
  pose proof (Hdisconnect (mdb d1)) as Hd. destruct (m_disconnect _ (mdb d1)) as [rc x].
  cbn in Hd. subst rc. done.
Qed.

Lemma database_closes :
  ends (database_do (Disconnect (pl_odbc P)) : U Db T db_err_e).
Proof.
  intros st a st' E. unfold database_do in E.
  pose proof (Disconnect_closes (database_ (u_mod st))) as Hd.
  destruct (Disconnect _ _) as [e d]. injection E as <- <-. exact Hd.
Qed.

Lemma then_stays {A B} (m : U Db T A) (f : A -> U Db T B) :
  ends m -> (forall a, stays (f a)) -> ends (ubind m f).
Proof.
  intros Hm Hf st. apply uwp_bind. eapply uwp_mono; [apply Hm|]. intros a st1 Hc. by apply Hf.
Qed.

Lemma disconnect_end_closes e : ends (disconnect_end P e).
Proof.
  apply then_stays; [apply database_closes|]. intros ?. apply no_database_stays, _.
Qed.

Lemma ends_bind {A B} (m : U Db T A) (f : A -> U Db T B) :
  (forall a, ends (f a)) -> ends (ubind m f).
Proof. intros Hf st. apply uwp_bind. intros a st1 _. apply Hf. Qed.

(** A step that goes to the disconnecting label when it fails. *)
Lemma ends_on_ok m (k : U Db T usess_ipc_err_e) : ends k -> ends (on_ok m (disconnect_end P) k).
Proof.
  intros Hk. apply ends_bind. intros e. destruct (e !=? _); [apply disconnect_end_closes|done].
Qed.

Lemma ends_disconnect (k : U Db T usess_ipc_err_e) :
  stays k -> ends (on_ok (DISCONNECT P) (disconnect_end P) k).
Proof.
  intros Hk. apply then_stays.
  - apply then_stays; [apply database_closes|]. intros ?. apply no_database_stays, _.
  - intros e. destruct (e !=? _); [|done]. intros st _. apply disconnect_end_closes.
Qed.

Lemma ends_with_session target k :
  (forall x, ends (k x)) -> ends (with_session target (disconnect_end P) k).
Proof.
  intros Hk. apply ends_bind. intros [e [x|]]; destruct e;
    (apply Hk || apply disconnect_end_closes || (intros ?; apply uwp_stuck)).
Qed.

Lemma stays_bind {A B} (m : U Db T A) (f : A -> U Db T B) :
  stays m -> (forall a, stays (f a)) -> stays (ubind m f).
Proof.
  intros Hm Hf st Hc. apply uwp_bind. eapply uwp_mono; [by apply Hm|].
  intros a st1 Hc1. by apply Hf.
Qed.

Lemma lock_stays mode : stays (USESS_LOCK P mode).
Proof.
  intros st Hc e st1 E.
  unfold USESS_LOCK, timedlock, others, member, uevent, ubind, uret in E.
  specialize (Hothers (u_log st) (u_mod st) (u_tc st) Hc).
  destruct (pl_others P _ _) as [md t]. by injection E as <- <-.
Qed.

Lemma locked_stays mode (k : U Db T usess_ipc_err_e) :
  stays k -> stays (on_ok (USESS_LOCK P mode) proc_end k).
Proof.
  intros Hk. apply stays_bind; [apply lock_stays|]. intros e. destruct (e !=? _); [|done].
  apply no_database_stays, _.
Qed.

Lemma getArgument_stays {A} pick args (k : A -> U Db T _) :
  (forall a, stays (k a)) -> stays (getArgument pick args k).
Proof.
  intros Hk. destruct args as [|v ?]; cbn; [apply no_database_stays, _|].
  destruct (pick v); [apply Hk|apply no_database_stays, _].
Qed.

Lemma ends_stays {A} (m : U Db T A) : ends m -> stays m.
Proof. intros Hm st _. apply Hm. Qed.

Lemma ends_if {A} (b : bool) (m k : U Db T A) : ends m -> ends k -> ends (if b then m else k).
Proof. by destruct b. Qed.

Lemma add_locked_stays req user : stays (add_locked P req user).
Proof.
  unfold add_locked. apply stays_bind; [apply no_database_stays, _|]. intros [e n].
  destruct (_ !=? _); [apply ends_stays, disconnect_end_closes|].
  apply stays_bind; [apply no_database_stays, _|]. intros e'.
  apply stays_bind; [apply no_database_stays, _|]. intros ?.
  destruct (e' !=? _); [apply ends_stays, disconnect_end_closes|apply no_database_stays, _].
Qed.

Lemma UsessSessAddHandler_stays args : stays (UsessSessAddHandler P args).
Proof.
  apply getArgument_stays. intros req. apply locked_stays, ends_stays, ends_on_ok, ends_bind.
  intros [e user]. apply ends_if; [apply disconnect_end_closes|]. apply ends_disconnect.
  apply stays_bind; [apply no_database_stays, _|]. intros ?.
  destruct (User_Authenticate P _ _ _ _) as [e'|]; [|apply no_database_stays, _].
  destruct (e' !=? _); [apply no_database_stays, _|]. apply locked_stays, add_locked_stays.
Qed.

Lemma password_handlers_stay args :
  stays (UserUserPasswdHandler P args) /\ stays (UserEnablePasswdHandler P args).
Proof.
  split; apply getArgument_stays; [intros [[current uname] passwd]|intros [current passwd]];
    apply locked_stays, ends_stays, ends_on_ok, ends_with_session; intros x.
  - apply ends_bind. intros [e user]. apply ends_if; [apply disconnect_end_closes|].
    apply ends_on_ok, ends_on_ok, ends_disconnect, no_database_stays, _.
  - apply ends_on_ok, ends_on_ok, ends_disconnect, no_database_stays, _.
Qed.

Lemma UsessEnableHandler_stays args : stays (UsessEnableHandler P args).
Proof.
  apply getArgument_stays. intros [current passwd].
  apply locked_stays, ends_stays, ends_on_ok, ends_with_session. intros x.
  apply ends_on_ok, ends_on_ok, ends_on_ok, ends_disconnect, no_database_stays, _.
Qed.

Lemma UsessDisableHandler_stays args : stays (UsessDisableHandler P args).
Proof.
  apply getArgument_stays. intros current. apply locked_stays.
  unfold with_session, GetSession. apply stays_bind; [apply no_database_stays, _|].
  intros [e [x|]]; destruct e; apply no_database_stays, _.
Qed.

Lemma ipcService_stays args service : stays (ipcService P args service).
Proof.
  unfold ipcService. case_bool_decide; [apply no_database_stays, _|].
  destruct (IpcHandler P !! Z.to_nat service) as [h|] eqn:Eh; [|apply no_database_stays, _].
  destruct (Z.to_nat service) as [|[|[|[|[|[|[|[|[|[|n]]]]]]]]]] eqn:En; cbn in Eh;
    simplify_eq.
  - apply UsessSessAddHandler_stays.
  - apply getArgument_stays. intros [c d]. apply locked_stays, no_database_stays, _.
  - apply getArgument_stays. intros t. apply locked_stays, no_database_stays, _.
  - apply UsessEnableHandler_stays.
  - apply UsessDisableHandler_stays.
  - apply getArgument_stays. intros c. apply locked_stays, no_database_stays, _.
  - apply getArgument_stays. intros c. apply locked_stays, no_database_stays, _.
  - apply getArgument_stays. intros [c d]. apply locked_stays, no_database_stays, _.
  - apply password_handlers_stay.
  - apply password_handlers_stay.
Qed.

(** C27: a request leaves nothing behind.  Whatever a request asks and whichever of
    its steps fails, it takes the lock only when it does not have it, gives back
    only what it has, and has given it back at the end; and if the database was
    not connected before, and the other threads leave it so, it is not connected
    afterwards, so that the next request can connect. *)
Theorem usess_request_leaves_nothing (args : list UsessValue) (service : Z)
    (st st' : USt Db T) (e : usess_ipc_err_e) :
  closed (u_mod st) -> ipcService P args service st = Some (e, st') ->
  closed (u_mod st') /\
  exists ev, u_log st' = u_log st ++ ev /\ lock_run false ev = Some false.
Proof.
  intros Hc E. split.
  - exact (ipcService_stays args service st Hc e st' E).
  - exact (ipcService_balanced args service st e st' E).
Qed.

End Locking.

Lemma usess_request_leaves_nothing_witness :
  match ipcService Sessions.platform [Sessions.add_request] kUsessSessAdd
          Sessions.two_sessions with
  | Some (_, st') => closed (u_mod st')
  | None => False
  end.
Proof.
  assert (Sessions.returns (ipcService Sessions.platform [Sessions.add_request] kUsessSessAdd
    Sessions.two_sessions) = true) as Hret by (vm_compute; reflexivity).
  destruct (ipcService _ _ _ _) as [[e st']|] eqn:E; [|discriminate Hret].
  refine (proj1 (usess_request_leaves_nothing Sessions.platform _ _ _ _ _ _ e _ E)).
  - intros d. reflexivity.
  - intros log m t Hm. exact Hm.
  - vm_compute. reflexivity.
Defined.

(** ** The start *)

Section Start.

Context {Db T : Type} `{TcSessions T} (P : Platform Db T).

Notation any := (fun _ : list UEvent => True).

Lemma any_bind {A B} (m : U Db T A) (f : A -> U Db T B) :
  logs m any -> (forall a, logs (f a) any) -> logs (ubind m f) any.
Proof. intros Hm Hf. by eapply logs_bind. Qed.

Lemma quiet_any {A} (m : U Db T A) : Quiet m -> logs m any.
Proof. intros Hm st. eapply uwp_mono; [apply Hm|]. intros a st' (ev & ? & _). eauto. Qed.

Lemma event_any e : logs (uevent e : U Db T unit) any.
Proof. intros st a st' E. injection E as <- <-. by exists [e]. Qed.

Lemma update_any f : logs (update f : U Db T unit) any.
Proof. intros st a st' E. injection E as <- <-. exists []. by rewrite app_nil_r. Qed.

Lemma timedlock_any mode : logs (timedlock P mode) any.
Proof.
  intros st rc st1 E. unfold timedlock, others, member, uevent, ubind, uret in E.
  destruct (pl_others P _ _) as [md t]. injection E as <- <-. eauto.
Qed.

#[local] Instance quiet_release_loop l : Quiet (release_loop l : U Db T unit).
Proof. induction l as [|[k x] l IH]; cbn; apply _. Qed.

Lemma fini_any : logs (fini P) any.
Proof.
  unfold fini, fini_handler. apply any_bind.
  { apply any_bind; [apply quiet_any, _|]. intros b.
    destruct b; [|apply quiet_any, _]. intros st.
    match goal with |- uwp _ ?Q _ => change (uwp (do! uevent (ERemoveHandler
      (pl_remove_handler P (u_log st))) in if pl_remove_handler P (u_log st) ==? 0
      then update (set_handler false) else uret tt) Q st) end.
    apply any_bind; [apply event_any|]. intros ?.
    case_match; [apply update_any|apply quiet_any, _]. }
  intros ?. apply any_bind; [apply timedlock_any|]. intros rc.
  apply any_bind; [apply quiet_any, _|]. intros b1.
  apply any_bind; [unfold Sessions_Fini, Del_all; apply quiet_any, _|]. intros b2.
  apply any_bind; [|intros ?; apply quiet_any, _].
  case_match; [apply event_any|apply quiet_any, _].
Qed.

Lemma unlock_failed : logs (do! USESS_UNLOCK in do! fini P in uret false)
  (fun ev => lock_run false ev = None).
Proof.
  apply (logs_bind _ _ (eq [EUnlock]) any).
  - intros st a st' E. injection E as <- <-. eauto.
  - intros ?. apply any_bind; [apply fini_any|]. intros ?. apply quiet_any, _.
  - by intros ev1 ev2 <- _.
Qed.

(** The lock when the start fails.  If the common block of the configuration
    cannot be loaded, [init] gives back the lock although it does not have it:
    what it does is not a correct use of the lock. *)
Theorem init_unlocks_unheld (st st' : USt Db T) (r : bool) :
  conf_file (u_mod st) "usess_conf_common" "" = None -> init P st = Some (r, st') ->
  r = false /\ exists ev, u_log st' = u_log st ++ ev /\ lock_run false ev = None.
Proof.
  intros Hf E.
  assert (exists st1, u_log st1 = u_log st /\
            (do! USESS_UNLOCK in do! fini P in uret false) st1 = Some (r, st'))
    as (st1 & <- & E1).
  { unfold init, Common_LoadConf, UsessConfCommon_LoadConf in E.
    unfold ubind at 1 2, member at 1 in E. rewrite Hf in E. eexists. split; [|exact E]. done. }
  split; [|exact (unlock_failed st1 r st' E1)].
  unfold ubind, USESS_UNLOCK, uevent, uret in E1. destruct (fini P _) as [[b st2]|]; [|done].
  by injection E1.
Qed.

End Start.

(** A file without the common block. *)
Lemma init_unlocks_unheld_witness :
  match init Sessions.platform (mkUSt (Sessions.module_new (fun _ _ => None)) [] [] []) with
  | Some (r, st') => lock_run false (u_log st') = None
  | None => False
  end.
Proof.
  assert (Sessions.returns (init Sessions.platform (mkUSt (Sessions.module_new (fun _ _ => None)) [] [] [])) = true) as Hret by (vm_compute; reflexivity).
  destruct (init _ _) as [[r st']|] eqn:E; [|discriminate Hret].
  destruct ((fun Hf => init_unlocks_unheld Sessions.platform _ _ r Hf E) eq_refl)
    as (_ & ev & -> & Hev).
  exact Hev.
Defined.
