(* ===== verification/UsessAccess.v ===== *)
(** * Who may do what

    The deletion of a session on every branch, and what it takes to enter the
    enable mode. *)

From S2P Require Import Prelude TcDb MgmtDb UsessTypes UsessBase UsessAuth UsessSessions.
From S2P Require Import UsessModule UsessProps UsessTable.

Local Open Scope Z_scope.

(** No other thread changes the sessions while this one waits for the lock. *)
Definition alone {Db T} (P : Platform Db T) : Prop :=
  forall log m t, pl_others P log (m, t) = (m, t).

(** ** Deletion *)

(** Fixed identifiers and enabled sessions may delete any session, operators
    their own. *)
Definition may_delete (s : UsessSessions) (current target : Z) : Prop :=
  is_fixed s current = true \/
  exists x, table_ s !! current = Some x /\
    (sess_mode x = USESS_MODE_ENABLE \/ sess_mode x = USESS_MODE_OPER /\ current = target).

Lemma own_or_enabled_ok current target x :
  own_or_enabled current target x = USESS_E_OK <->
  sess_mode x = USESS_MODE_ENABLE \/ sess_mode x = USESS_MODE_OPER /\ current = target.
Proof.
  unfold own_or_enabled, USESS_MODE_ENABLE, USESS_MODE_OPER.
  repeat case_bool_decide; split; try done; intros; try lia; auto.
Qed.

Lemma Privilege_del s current target :
  is_Some (table_ s !! id target) ->
  Privilege kPrivilegeSessDel current target s = USESS_E_OK <->
  may_delete s (id current) (id target).
Proof.
  intros Ht. unfold Privilege, may_delete. rewrite (bool_decide_eq_true_2 _ Ht), andb_false_r.
  destruct (is_fixed s (id current)); [by split; auto|].
  destruct (table_ s !! id current) as [x|].
  - rewrite own_or_enabled_ok. split; [eauto|]. by intros [?|(y & [= <-] & ?)].
  - split; [done|]. by intros [?|(y & ? & _)].
Qed.

Section Access.

Context {Db T : Type} `{TcSessions T} (P : Platform Db T) (Halone : alone P).
Implicit Type st : USt Db T.

(** The lock is granted in [st]. *)
Definition granted mode st : Prop :=
  pl_lock P (u_log st) mode (lock_timeout (conf_ (u_mod st))) = 0.

Lemma USESS_LOCK_alone mode st :
  let rc := pl_lock P (u_log st) mode (lock_timeout (conf_ (u_mod st))) in
  USESS_LOCK P mode st
  = Some (if rc !=? 0 then USESS_E_NG else USESS_E_OK,
          mkUSt (u_mod st) (u_tc st) (u_out st) (u_log st ++ [ELock mode rc])).
Proof.
  cbv zeta. unfold USESS_LOCK, timedlock, others, member, uevent, ubind, uret.
  by rewrite Halone.
Qed.

(** A locked section, from the state with the lock. *)
Lemma uwp_locked mode (k : U Db T usess_ipc_err_e) Q st :
  (~ granted mode st -> forall st1, u_mod st1 = u_mod st -> u_tc st1 = u_tc st ->
     Q USESS_E_NG st1) ->
  (granted mode st -> forall st1, u_mod st1 = u_mod st -> u_tc st1 = u_tc st ->
     u_log st1 = u_log st ++ [ELock mode 0] -> uwp k Q st1) ->
  uwp (on_ok (USESS_LOCK P mode) proc_end k) Q st.
Proof.
  intros Hno Hyes. apply uwp_on_ok. intros e st1 E. rewrite USESS_LOCK_alone in E.
  injection E as <- <-. unfold granted in *.
  destruct (_ !=? 0) eqn:Erc; bool_norm; cbn.
  - apply uwp_ret. by apply Hno.
  - apply Hyes; [done..|]. cbn. by rewrite Erc.
Qed.

(** C30: the deletion of a session.  If nobody else interferes, a request to delete
    a session succeeds exactly if the lock is granted, the coordinator is
    there, the session exists and the one that asks may delete it; then the
    session is gone from the table, nothing else of it has changed, and the
    coordinator has been told once.  Otherwise the table is as it was. *)
Theorem delete_session_outcome (current target : usess_ipc_sess_id_t) (rest : list UsessValue)
    (st st' : USt Db T) (e : usess_ipc_err_e) :
  let s := sessions_ (u_mod st) in
  ipcService P (VSessDel current target :: rest) kUsessSessDel st = Some (e, st') ->
  (e = USESS_E_OK <->
   granted WriteLock st /\ tc_present (u_tc st) = true /\ is_Some (table_ s !! id target) /\
   may_delete s (id current) (id target)) /\
  (e = USESS_E_OK ->
   sessions_ (u_mod st') = set_table (delete (id target) (table_ s)) s /\
   u_log st' = u_log st ++ [ELock WriteLock 0; ERelease (id target); EUnlock]) /\
  (e <> USESS_E_OK -> sessions_ (u_mod st') = s).
Proof.
  intros s E. revert e st' E.
  change (uwp (UsessSessDelHandler P (VSessDel current target :: rest)) (fun e st' =>
    (e = USESS_E_OK <->
     granted WriteLock st /\ tc_present (u_tc st) = true /\ is_Some (table_ s !! id target) /\
     may_delete s (id current) (id target)) /\
    (e = USESS_E_OK ->
     sessions_ (u_mod st') = set_table (delete (id target) (table_ s)) s /\
     u_log st' = u_log st ++ [ELock WriteLock 0; ERelease (id target); EUnlock]) /\
    (e <> USESS_E_OK -> sessions_ (u_mod st') = s)) st).
  cbn -[USESS_LOCK]. apply uwp_locked.
  { intros Hno st1 E1 _. split_and!; [|done|by rewrite E1]. split; [done|]. by intros [? _]. }
  intros Hyes st1 E1 Et El. apply uwp_bind, uwp_member. rewrite E1. fold s.
  apply uwp_on_ok, uwp_ret. cbn beta.
  assert (sessions_ (u_mod st1) = s) as Es by by rewrite E1.
  destruct (Privilege kPrivilegeSessDel current target s !=? USESS_E_OK) eqn:Ep; bool_norm.
  { intros e st2 E. injection E as <- <-. cbn. split_and!; [|done|done].
    split; [done|]. intros (_ & _ & Hs & Hm). by apply (Privilege_del s current target Hs) in Hm. }
  apply uwp_on_ok. unfold Del_id. apply uwp_bind, uwp_member. rewrite Es.
  destruct (negb (bool_decide (is_Some (table_ s !! id target)))) eqn:Ex; bool_norm.
  { apply uwp_ret. intros e st2 E. injection E as <- <-. cbn. split_and!; [|done|done].
    split; [done|]. by intros (_ & _ & ? & _). }
  apply uwp_bind. intros tc st2 E. injection E as <- <-. rewrite Et.
  destruct (tc_present (u_tc st)) eqn:Etc; cbn [negb].
  2:{ apply uwp_ret. intros e st2 E. injection E as <- <-. cbn. split_and!; [|done|done].
      split; [done|]. by intros (_ & ? & _). }
  apply uwp_bind. intros r st2 E. unfold TcReleaseSession in E.
  destruct (tc_release_session _ _) as [[r' t']|]; [|done]. injection E as <- <-.
  apply uwp_bind. intros ? st3 E. injection E as <- <-. apply uwp_ret. cbn -[unlock_end].
  intros e st4 E. injection E as <- <-. cbn. split_and!.
  - split; [|done]. intros _. split_and!; [done..|]. by apply (Privilege_del s current target).
  - intros _. rewrite Es, El. split; [done|]. by rewrite <- !(assoc_L (++)).
  - done.
Qed.

(** ** The enable mode *)

(** The sessions in the enable mode are among [E]. *)
Definition enabled_in (E : gset Z) (s : UsessSessions) : Prop :=
  map_Forall (fun k x => sess_mode x = USESS_MODE_ENABLE -> k ∈ E) (table_ s).

#[local] Instance enabled_in_kept E : Kept (enabled_in E).
Proof.
  split.
  - intros s req user now n s' HI _ _ _ En _ k x Hk. cbn in Hk.
    destruct (GetNewSessionId_same _ _ _ _ En) as [Es _].
    apply insert_new_elem in Hk as [Hk|[-> ->]]; [rewrite Es in Hk; by apply HI|done].
  - intros s k HI. by apply map_Forall_delete.
  - intros s k x HI Hx. by apply map_Forall_insert_2.
Qed.

(** What the database answers when asked for the digest. *)
Definition stored_digest (d : string) : Prop :=
  exists db db' c v,
    Exec (pl_odbc P) enable_select false [SQL_INTEGER; SQL_VARCHAR] db
    = Some (DB_E_OK, [[c; v]], db') /\ string_val v = Some d.

(** The password matches a digest: hashed with it, it yields it. *)
Definition matches (passwd d : string) : Prop := d <> ""%string /\ pl_crypt P passwd d = Some d.

Lemma CheckDigest_matches passwd d : CheckDigest P passwd d d = Some true -> matches passwd d.
Proof.
  unfold CheckDigest, Hash_salt. destruct (d ==? "") eqn:Ed; bool_norm; [done|]. cbn.
  destruct (pl_crypt P passwd d) as [h|] eqn:Eh; [|done]. intros [= Hh]. bool_norm.
  by subst h.
Qed.

Lemma Enable_Authenticate_ok x passwd :
  forall st, uwp (Enable_Authenticate P kAuthenticateEnable x passwd) (fun e st' =>
    sessions_ (u_mod st') = sessions_ (u_mod st) /\
    (e = USESS_E_OK ->
     web_admin x = true \/ exists d, stored_digest d /\ matches passwd d)) st.
Proof.
  intros st e st' E. split; [exact (frames st e st' E)|]. intros ->. revert E.
  unfold Enable_Authenticate. destruct (web_admin x); [auto|]. intros E. right.
  unfold ubind, member, uret, ustuck in E. destruct (Enable_CheckPassword _ _ _); [|done].
  cbn [negb] in E. unfold database_exec in E.
  destruct (Exec _ _ _ _ _) as [[[e rows] db']|] eqn:Ex; [|done]. cbn [fst snd] in E.
  destruct ((e !=? DB_E_OK) || _) eqn:Ee; [done|]. bool_norm. subst e.
  destruct rows as [|[|c [|v [|]]] [|]]; try done.
  destruct (string_val v) as [d|] eqn:Ev; [|done].
  destruct (CheckDigest _ _ _ _) as [[|]|] eqn:Ed; [|done..].
  exists d. split; [|by apply CheckDigest_matches]. by exists (database_ (u_mod st)), db', c, v.
Qed.

(** What the service does to the table. *)
Definition authorised (x : usess_ipc_res_sess_info_t) (passwd : string) : Prop :=
  user_type x = USER_TYPE_ADMIN /\
  (web_admin x = true \/ exists d, stored_digest d /\ matches passwd d).

Lemma TransitMode_effect k mode x st :
  table_ (sessions_ (u_mod st)) !! k = Some x ->
  uwp (TransitMode k mode) (fun _ st' =>
    sessions_ (u_mod st') = sessions_ (u_mod st) \/
    sessions_ (u_mod st') = set_table (<[k := with_mode mode x]> (table_ (sessions_ (u_mod st))))
                              (sessions_ (u_mod st))) st.
Proof.
  intros Hx. unfold TransitMode. apply uwp_bind, uwp_member. rewrite Hx.
  destruct (_ && _); [apply uwp_ret; auto|].
  apply uwp_bind, uwp_frame; [apply _|]. intros tc st1 E1.
  destruct (_ && _); [by apply uwp_ret; left|].
  apply uwp_bind, uwp_frame; [apply _|]. intros ? st2 E2.
  apply uwp_bind. intros ? st3 E3. injection E3 as <- <-. apply uwp_ret. right. cbn.
  by rewrite E2, E1.
Qed.

(** Unchanged, or the session [k] is enabled for good reason. *)
Definition same_or_enabled (s : UsessSessions) (k : Z) (passwd : string) (s' : UsessSessions)
    : Prop :=
  s' = s \/
  exists x, table_ s !! k = Some x /\ authorised x passwd /\
    s' = set_table (<[k := with_mode USESS_MODE_ENABLE x]> (table_ s)) s.

Lemma UsessEnableHandler_effect current passwd rest st :
  let s := sessions_ (u_mod st) in
  uwp (UsessEnableHandler P (VSessEnable current passwd :: rest)) (fun _ st' =>
    same_or_enabled s (id current) (passwd_of passwd) (sessions_ (u_mod st'))) st.
Proof.
  cbv zeta. set (s := sessions_ (u_mod st)).
  set (Q := fun (_ : usess_ipc_err_e) (st' : USt Db T) =>
    same_or_enabled s (id current) (passwd_of passwd) (sessions_ (u_mod st'))).
  assert (forall (m : U Db T usess_ipc_err_e) st0, Frames m ->
    same_or_enabled s (id current) (passwd_of passwd) (sessions_ (u_mod st0)) -> uwp m Q st0)
    as Hend.
  { intros m st0 Hm H0. apply uwp_frame; [done|]. intros ? st' E'. unfold Q. by rewrite E'. }
  assert (forall e st0, sessions_ (u_mod st0) = s -> uwp (disconnect_end P e) Q st0) as Hfail.
  { intros e st0 E0. apply Hend; [apply _|by left]. }
  cbn -[USESS_LOCK Enable_Authenticate Enable_Privilege TransitMode].
  apply uwp_locked; [intros _ st1 E1 _; left; by rewrite E1|]. intros _ st1 E1 _ _.
  apply uwp_on_ok, uwp_frame; [apply _|]. intros e st2 E2. rewrite E1 in E2. fold s in E2.
  destruct (e !=? _); [by apply Hfail|].
  unfold with_session, GetSession. apply uwp_bind, uwp_bind, uwp_member. rewrite E2.
  destruct (table_ s !! id current) as [x|] eqn:Ex; apply uwp_ret; [|by apply Hfail].
  apply uwp_on_ok, uwp_ret.
  destruct (Enable_Privilege _ x !=? _) eqn:Ep; [by apply Hfail|].
  assert (user_type x = USER_TYPE_ADMIN) as Ha.
  { cbn in Ep. destruct (user_type x !=? USER_TYPE_ADMIN) eqn:Ea; [done|]. by bool_norm. }
  apply uwp_on_ok. eapply uwp_mono; [apply Enable_Authenticate_ok|].
  intros e3 st3 [E3 Hauth]. cbn beta. rewrite E2 in E3.
  destruct (e3 !=? _) eqn:E3'; [by apply Hfail|]. bool_norm. specialize (Hauth E3').
  apply uwp_on_ok. eapply uwp_mono; [apply (TransitMode_effect _ _ x); by rewrite E3|].
  cbn beta. intros e4 st4 E4. rewrite E3 in E4.
  assert (same_or_enabled s (id current) (passwd_of passwd) (sessions_ (u_mod st4))) as H4.
  { destruct E4 as [E4|E4]; [by left|right]. by exists x. }
  destruct (e4 !=? _); by apply Hend; [apply _|].
Qed.

(** The enable mode is guarded.  If nobody else interferes, a session that is in
    the enable mode after a request and was not before was enabled by that
    request, which asked for it; its user is an administrator, and either is the
    web administrator on a web session or gave a password that hashes to the
    digest stored in the database. *)
Theorem enable_mode_guarded (args : list UsessValue) (service : Z) (st st' : USt Db T)
    (e : usess_ipc_err_e) (k : Z) (y : usess_ipc_res_sess_info_t) :
  ipcService P args service st = Some (e, st') ->
  table_ (sessions_ (u_mod st')) !! k = Some y -> sess_mode y = USESS_MODE_ENABLE ->
  (forall x, table_ (sessions_ (u_mod st)) !! k = Some x -> sess_mode x <> USESS_MODE_ENABLE) ->
  service = kUsessEnable /\
  exists passwd rest x,
    args = VSessEnable (mkSessId k) passwd :: rest /\
    table_ (sessions_ (u_mod st)) !! k = Some x /\ user_type x = USER_TYPE_ADMIN /\
    (web_admin x = true \/ exists d, stored_digest d /\ matches (passwd_of passwd) d).
Proof.
  intros E Hy Hmode Hbefore.
  set (s := sessions_ (u_mod st)) in *.
  set (En := dom (filter (fun p => sess_mode p.2 = USESS_MODE_ENABLE) (table_ s))).
  assert (enabled_in En s) as HI.
  { intros j x Hj Hx. apply elem_of_dom. exists x. by apply map_lookup_filter_Some. }
  assert (k ∉ En) as Hk.
  { intros Hk. apply elem_of_dom in Hk as [x Hx]. apply map_lookup_filter_Some in Hx as [Hx Hm].
    by apply (Hbefore x Hx). }
  assert (others_keep P (enabled_in En)) as Ho by (intros log m t Hm; by rewrite Halone).
  destruct (decide (service = kUsessEnable)) as [->|Hs].
  2:{ destruct Hk. refine (ipcService_keeps P (enabled_in En) Ho args service _ st HI e st' E
        k y Hy Hmode). done. }
  split; [done|]. change (UsessEnableHandler P args st = Some (e, st')) in E.
  destruct args as [|v rest]; [injection E as <- <-; by destruct Hk; apply (HI k y)|].
  destruct v as [| | |current passwd| | | | | |];
    try (injection E as <- <-; by destruct Hk; apply (HI k y)).
  destruct (UsessEnableHandler_effect current passwd rest st e st' E) as [Es|(x & Hx & [Ha Hp] & Es)].
  { rewrite Es in Hy. by destruct Hk; apply (HI k y). }
  rewrite Es in Hy. cbn in Hy. apply lookup_insert_Some in Hy as [[<- _]|[_ Hy]].
  2:{ by destruct Hk; apply (HI k y). }
  exists passwd, rest, x. destruct current. by split_and!.
Qed.

End Access.

(** The enabled session 1 deletes session 2. *)
Lemma delete_session_outcome_witness :
  match ipcService Sessions.platform [VSessDel (mkSessId 1) (mkSessId 2)] kUsessSessDel
          Sessions.two_sessions with
  | Some (e, st') => e = USESS_E_OK /\ Sessions.session 2 st' = None
  | None => False
  end.
Proof.
  assert (Sessions.returns (ipcService Sessions.platform [VSessDel (mkSessId 1) (mkSessId 2)] kUsessSessDel
    Sessions.two_sessions) = true) as Hret by (vm_compute; reflexivity).
  destruct (ipcService _ _ _ _) as [[e st']|] eqn:E; [|discriminate Hret].
  assert (alone Sessions.platform) as Ha by (intros log m t; reflexivity).
  destruct (delete_session_outcome Sessions.platform Ha _ _ _ _ _ _ E) as (Hok & Hdel & _).
  assert (e = USESS_E_OK) as He.
  { apply Hok. split; [reflexivity|]. split; [reflexivity|]. split.
    - vm_compute. eexists. reflexivity.
    - right. eexists. split; [vm_compute; reflexivity|]. left. reflexivity. }
  split; [exact He|]. destruct (Hdel He) as [Hs _]. unfold Sessions.session. rewrite Hs.
  vm_compute. reflexivity.
Defined.

(** Session 2 is enabled with the password. *)
Lemma enable_mode_guarded_witness :
  match ipcService Sessions.platform [VSessEnable (mkSessId 2) "enable"] kUsessEnable
          Sessions.two_sessions with
  | Some (e, st') => exists d, stored_digest Sessions.platform d /\
                       matches Sessions.platform (passwd_of "enable") d
  | None => False
  end.
Proof.
  assert (Sessions.returns (ipcService Sessions.platform [VSessEnable (mkSessId 2) "enable"] kUsessEnable
    Sessions.two_sessions) = true) as Hret by (vm_compute; reflexivity).
  destruct (ipcService _ _ _ _) as [[e st']|] eqn:E; [|discriminate Hret].
  assert (alone Sessions.platform) as Ha by (intros log m t; reflexivity).
  assert (exists y, Sessions.session 2 st' = Some y /\ sess_mode y = USESS_MODE_ENABLE)
    as (y & Hy & Hm).
  { assert (Sessions.session 2 st'
      = (ipcService Sessions.platform [VSessEnable (mkSessId 2) "enable"] kUsessEnable
           Sessions.two_sessions ≫= fun p => Sessions.session 2 p.2)) as -> by by rewrite E.
    vm_compute. eexists. split; reflexivity. }
  destruct (enable_mode_guarded Sessions.platform Ha _ _ _ _ _ 2 y E Hy Hm)
    as (_ & p & rest & x & Hargs & Hx & _ & Hp).
  - intros x Hx. vm_compute in Hx. injection Hx as <-. discriminate.
  - injection Hargs as <- _. destruct Hp as [Hw|Hp]; [|exact Hp].
    vm_compute in Hx. injection Hx as <-. discriminate Hw.
Defined.
