(* ===== verification/UsessPassword.v ===== *)
(** * Changing the password of the enable mode

    A password that was set opens the enable mode afterwards: the digest is
    computed, written in a transaction that the end of the connection commits,
    read back and compared.  What is assumed of the database and of [crypt] is
    what their documentation promises. *)

From S2P Require Import Prelude TcDb MgmtDb UsessTypes UsessBase UsessAuth UsessSessions.
From S2P Require Import UsessModule UsessProps UsessLocking UsessAccess.
From Stdlib Require Import Ascii.

Local Open Scope Z_scope.

Fixpoint no_quote (s : string) : bool :=
  match s with
  | EmptyString => true
  | String.String c s' => negb (bool_decide (c = "'"%char)) && no_quote s'
  end.

(** ** A database that works

    Views of its state: whether it is connected, the digest of the enable mode
    as it was last committed and as the transaction sees it, and the row of the
    statement that was executed last. *)
Class DependableDb {Db} (odbc : MOdbc Db) (conn : Db -> bool)
    (committed working selected : Db -> option string) : Prop := {
  dl_connect s d : conn d = false ->
    exists d', m_driver_connect odbc s d = (SQL_SUCCESS, d') /\ conn d' = true /\
      committed d' = committed d /\ working d' = committed d;
  dl_autocommit d : conn d = true ->
    exists d', m_autocommit_off odbc d = (SQL_SUCCESS, d') /\ conn d' = true /\
      committed d' = committed d /\ working d' = working d;
  dl_transact mode d : conn d = true ->
    exists d', m_transact odbc mode d = (SQL_SUCCESS, d') /\ conn d' = true /\
      committed d' = match mode with DB_COMMIT => working d | DB_ROLLBACK => committed d end;
  dl_disconnect d : conn d = true ->
    exists d', m_disconnect odbc d = (SQL_SUCCESS, d') /\ conn d' = false /\
      committed d' = committed d;
  dl_alloc d : conn d = true ->
    exists d', m_alloc_stmt odbc d = (true, d') /\ conn d' = true /\
      committed d' = committed d /\ working d' = working d;
  dl_free d : let d' := m_free_stmt odbc d in
    conn d' = conn d /\ committed d' = committed d /\ working d' = working d;
  dl_update h t d : conn d = true -> no_quote h = true ->
    exists d', m_exec_direct odbc (enable_update h t) d = (SQL_SUCCESS, d') /\ conn d' = true /\
      committed d' = committed d /\ working d' = Some h;
  dl_select h d : conn d = true -> working d = Some h ->
    exists d', m_exec_direct odbc enable_select d = (SQL_SUCCESS, d') /\ conn d' = true /\
      committed d' = committed d /\ working d' = working d /\ selected d' = Some h;
  dl_count h d : selected d = Some h ->
    exists d', m_row_count odbc d = (SQL_SUCCESS, 1, d') /\ conn d' = conn d /\
      committed d' = committed d /\ working d' = working d /\ selected d' = Some h;
  dl_fetch h d : selected d = Some h ->
    exists n d', m_fetch odbc [SQL_INTEGER; SQL_VARCHAR] d
                 = (SQL_SUCCESS, [CInt n; CStr h], d') /\ conn d' = conn d /\
      committed d' = committed d /\ working d' = working d
}.

(** Evaluate the tests between constants. *)
Ltac tests :=
  repeat match goal with
  | |- context [bool_decide (?a = ?b)] =>
      let v := eval vm_compute in (bool_decide (a = b)) in
      lazymatch v with true => idtac | false => idtac end;
      change (bool_decide (a = b)) with v
  end; cbn.

Section Database.

Context {Db : Type} (odbc : MOdbc Db) (conn : Db -> bool).
Context (committed working selected : Db -> option string).
Context `{!DependableDb odbc conn committed working selected}.
Implicit Type d : MgmtDatabase Db.

(** A transaction that is open, with its status. *)
Definition opened (s : transaction_status_e) (c w : option string) d : Prop :=
  status_database_ d = s /\ conn (mdb d) = true /\ committed (mdb d) = c /\
  working (mdb d) = w.

Definition shut (c : option string) d : Prop :=
  status_database_ d = STATUS_TRANSACTION_NONE /\ conn (mdb d) = false /\
  committed (mdb d) = c.

Lemma Connect_ok c d :
  shut c d -> exists d', Connect odbc d = (DB_E_OK, d') /\
    opened STATUS_TRANSACTION_BEGIN c c d'.
Proof.
  intros (Hs & Hc & Hcom). unfold Connect. rewrite Hs. tests.
  destruct (dl_connect MGMTDB_CONNECT_STRING (mdb d) Hc) as (x1 & -> & C1 & K1 & W1). tests.
  destruct (dl_autocommit x1 C1) as (x2 & -> & C2 & K2 & W2). tests.
  unfold BeginTransaction. tests. rewrite Hs. tests. eexists. split; [done|].
  unfold opened. cbn. repeat split; congruence.
Qed.

Lemma Disconnect_ok s c w d :
  opened s c w d -> s = STATUS_TRANSACTION_BEGIN \/ s = STATUS_TRANSACTION_UPDATE ->
  exists d', Disconnect odbc d = (DB_E_OK, d') /\
    shut (if s ==? STATUS_TRANSACTION_UPDATE then w else c) d'.
Proof.
  intros (Hs & Hc & Hcom & Hw) Hs'. unfold Disconnect, EndTransaction. rewrite Hs.
  destruct Hs' as [-> | ->]; tests.
  - destruct (dl_transact DB_ROLLBACK (mdb d) Hc) as (x1 & -> & C1 & K1). tests. rewrite Hs. tests.
    destruct (dl_disconnect x1 C1) as (x2 & -> & C2 & K2). tests.
    eexists. split; [done|]. unfold shut. cbn. repeat split; congruence.
  - destruct (dl_transact DB_COMMIT (mdb d) Hc) as (x1 & -> & C1 & K1). tests. rewrite Hs. tests.
    destruct (dl_disconnect x1 C1) as (x2 & -> & C2 & K2). tests.
    eexists. split; [done|]. unfold shut. cbn. repeat split; congruence.
Qed.

Lemma Exec_update_ok h t c w d :
  opened STATUS_TRANSACTION_BEGIN c w d -> no_quote h = true ->
  exists d', Exec odbc (enable_update h t) true [] d = Some (DB_E_OK, [], d') /\
    opened STATUS_TRANSACTION_UPDATE c (Some h) d'.
Proof.
  intros (Hs & Hc & Hcom & Hw) Hq. unfold Exec. rewrite Hs.
  rewrite (bool_decide_eq_false_2 (STATUS_TRANSACTION_BEGIN = _)) by done.
  rewrite (bool_decide_eq_false_2 (enable_update h t = _)) by done.
  destruct (dl_alloc (mdb d) Hc) as (x1 & -> & C1 & K1 & W1). cbn -[enable_update].
  destruct (dl_update h t x1 C1 Hq) as (x2 & -> & C2 & K2 & W2). tests. rewrite Hs. tests.
  eexists. split; [done|]. destruct (dl_free x2) as (C3 & K3 & W3).
  unfold opened. cbn. repeat split; congruence.
Qed.

Lemma DbField2Value_ok h x d :
  selected x = Some h -> mdb d = x ->
  exists x' v1, DbField2Value odbc [SQL_INTEGER; SQL_VARCHAR] d
    = Some (DB_E_OK, [[v1; mkVariant VARIANT_STRING (CStr h)]], set_mdb d x') /\
    conn x' = conn x /\ committed x' = committed x /\ working x' = working x.
Proof.
  intros Hx Ex. unfold DbField2Value. rewrite Ex.
  destruct (dl_count h x Hx) as (x1 & -> & C1 & K1 & W1 & S1). tests.
  assert (bind_columns [SQL_INTEGER; SQL_VARCHAR]
          = Some [mkVariant VARIANT_INT32 CNull; mkVariant VARIANT_STRING CNull]) as Hb
    by reflexivity.
  cbn [bind_columns] in Hb. rewrite Hb. rewrite bool_decide_eq_false_2 by lia.
  change (Z.to_nat 1) with 1%nat. cbn [fetch_rows].
  change (mdb (set_mdb d x1)) with x1.
  destruct (dl_fetch h x1 S1) as (n & x2 & -> & C2 & K2 & W2).
  change (sql_ok SQL_SUCCESS) with true. cbn. eexists x2, _. split; [done|].
  split_and!; congruence.
Qed.

Lemma Exec_select_ok h c d :
  opened STATUS_TRANSACTION_BEGIN c (Some h) d ->
  exists d' v1 v2, Exec odbc enable_select false [SQL_INTEGER; SQL_VARCHAR] d
                   = Some (DB_E_OK, [[v1; v2]], d') /\ string_val v2 = Some h /\
    opened STATUS_TRANSACTION_BEGIN c (Some h) d'.
Proof.
  intros (Hs & Hc & Hcom & Hw). unfold Exec. rewrite Hs.
  rewrite (bool_decide_eq_false_2 (STATUS_TRANSACTION_BEGIN = _)) by done.
  rewrite (bool_decide_eq_false_2 (enable_select = _)) by done.
  destruct (dl_alloc (mdb d) Hc) as (x1 & -> & C1 & K1 & W1).
  rewrite <- W1 in Hw. cbn [negb]. change (mdb (set_mdb d x1)) with x1.
  destruct (dl_select h x1 C1 Hw) as (x2 & -> & C2 & K2 & W2 & S2).
  change (sql_ok SQL_SUCCESS) with true. cbn [negb].
  rewrite (bool_decide_eq_false_2 ([SQL_INTEGER; SQL_VARCHAR] = [])) by done.
  destruct (DbField2Value_ok h x2 (set_mdb (set_mdb d x1) x2) S2 eq_refl)
    as (x3 & v1 & -> & C3 & K3 & W3).
  cbn [fst snd andb]. tests. eexists _, _, _. split; [done|]. split; [done|].
  destruct (dl_free x3) as (C5 & K5 & W5). unfold opened. cbn. repeat split; congruence.
Qed.

End Database.

(** ** The services *)

Section Runs.

Context {Db T : Type} `{TcSessions T}.
Implicit Type st : USt Db T.

Lemma ubind_run {A B} (m : U Db T A) (f : A -> U Db T B) st a st1 :
  m st = Some (a, st1) -> ubind m f st = f a st1.
Proof. intros E. unfold ubind. by rewrite E. Qed.

Lemma on_ok_run {A} m label (k : U Db T A) st st1 :
  m st = Some (USESS_E_OK, st1) -> on_ok m label k st = k st1.
Proof. intros E. unfold on_ok. by rewrite (ubind_run _ _ _ _ _ E). Qed.

Lemma with_session_run target label k st x :
  table_ (sessions_ (u_mod st)) !! id target = Some x ->
  with_session target label k st = k x st.
Proof.
  intros Hx. unfold with_session, GetSession, ubind, member, uret. by rewrite Hx.
Qed.

(** A step on the database that succeeds. *)
Lemma database_do_run {A} (f : MgmtDatabase Db -> A * MgmtDatabase Db) st a d :
  f (database_ (u_mod st)) = (a, d) ->
  database_do f st
  = Some (a, mkUSt (set_database d (u_mod st)) (u_tc st) (u_out st) (u_log st)).
Proof. intros E. unfold database_do. by rewrite E. Qed.

End Runs.

(** [crypt]: the result of hashing works as the salt that reproduces it, is not
    empty and has no quote (its characters are letters, digits and [./$]); a
    salt the program makes is accepted. *)
Class CryptLaws (crypt : string -> string -> option string) : Prop := {
  cl_salt p s h : crypt p s = Some h -> crypt p h = Some h;
  cl_shape p s h : crypt p s = Some h -> h <> ""%string /\ no_quote h = true;
  cl_accepts p ts t : is_hash_type t = true -> is_Some (crypt p (time_salt ts t))
}.

Section Password.

Context {Db T : Type} `{TcSessions T} (P : Platform Db T) (Halone : alone P).
Context (Hlock : forall log mode timeout, pl_lock P log mode timeout = 0).
Context (conn : Db -> bool) (committed working selected : Db -> option string).
Context `{!DependableDb (pl_odbc P) conn committed working selected}.
Context `{!CryptLaws (pl_crypt P)}.
Implicit Type st : USt Db T.

Notation shut := (shut conn committed).
Notation opened := (opened conn committed working).

Lemma lock_run_ok mode st :
  exists st1, USESS_LOCK P mode st = Some (USESS_E_OK, st1) /\
    u_mod st1 = u_mod st /\ u_tc st1 = u_tc st.
Proof.
  rewrite (USESS_LOCK_alone P Halone), Hlock. tests. eexists. split; [done|]. done.
Qed.

Lemma CONNECT_run c st :
  shut c (database_ (u_mod st)) ->
  exists d, CONNECT P st
    = Some (USESS_E_OK, mkUSt (set_database d (u_mod st)) (u_tc st) (u_out st) (u_log st)) /\
    opened STATUS_TRANSACTION_BEGIN c c d.
Proof.
  intros Hc. destruct (Connect_ok _ _ _ _ selected c _ Hc) as (d & E & Ho).
  exists d. split; [|done]. unfold CONNECT.
  by rewrite (ubind_run _ _ _ _ _ (database_do_run _ _ _ _ E)).
Qed.

Lemma DISCONNECT_run s c w st :
  opened s c w (database_ (u_mod st)) ->
  s = STATUS_TRANSACTION_BEGIN \/ s = STATUS_TRANSACTION_UPDATE ->
  exists d, DISCONNECT P st
    = Some (USESS_E_OK, mkUSt (set_database d (u_mod st)) (u_tc st) (u_out st) (u_log st)) /\
    shut (if s ==? STATUS_TRANSACTION_UPDATE then w else c) d.
Proof.
  intros Ho Hs. destruct (Disconnect_ok _ _ _ _ selected s c w _ Ho Hs) as (d & E & Hd).
  exists d. split; [|done]. unfold DISCONNECT.
  by rewrite (ubind_run _ _ _ _ _ (database_do_run _ _ _ _ E)).
Qed.

(** The new digest, when the password is acceptable. *)
Lemma Enable_ChangePassword_run passwd c w st :
  opened STATUS_TRANSACTION_BEGIN c w (database_ (u_mod st)) ->
  Enable_CheckPassword P (enable_ (u_mod st)) passwd = true ->
  is_hash_type (en_hash_type (enable_ (u_mod st))) = true ->
  exists h d log, Enable_ChangePassword P passwd st
    = Some (USESS_E_OK, mkUSt (set_database d (u_mod st)) (u_tc st) (u_out st) log) /\
    matches P passwd h /\ opened STATUS_TRANSACTION_UPDATE c (Some h) d.
Proof.
  intros Ho Hok Ht. unfold Enable_ChangePassword.
  rewrite (ubind_run (member enable_) _ _ (enable_ (u_mod st)) st) by done.
  rewrite Hok. cbn [negb].
  set (now := pl_clock P (u_log st)).
  rewrite (ubind_run _ _ st now (mkUSt (u_mod st) (u_tc st) (u_out st) (u_log st ++ [EClock])))
    by done.
  unfold Hash_time. rewrite Ht. cbn [negb]. unfold Hash_salt.
  rewrite (bool_decide_eq_false_2 (time_salt _ _ = _)) by done.
  destruct (cl_accepts passwd now.2 _ Ht) as [h Eh]. rewrite Eh.
  destruct (cl_shape _ _ _ Eh) as [Hne Hq]. rewrite (bool_decide_eq_false_2 (h = _)) by done.
  destruct (Exec_update_ok _ _ _ _ selected h (en_hash_type (enable_ (u_mod st))) c w _ Ho Hq)
    as (d & E & Hd).
  exists h, d, (u_log st ++ [EClock]). split_and!; [|split; [done|]|done].
  - unfold ubind, database_exec. cbn [u_mod]. by rewrite E.
  - by eapply cl_salt.
Qed.

Lemma enable_passwd_service current passwd rest x c st :
  shut c (database_ (u_mod st)) ->
  table_ (sessions_ (u_mod st)) !! id current = Some x -> sess_mode x = USESS_MODE_ENABLE ->
  Enable_CheckPassword P (enable_ (u_mod st)) (passwd_of passwd) = true ->
  is_hash_type (en_hash_type (enable_ (u_mod st))) = true ->
  exists h d st', UserEnablePasswdHandler P (VEnablePasswd current passwd :: rest) st
    = Some (USESS_E_OK, st') /\ matches P (passwd_of passwd) h /\
    u_mod st' = set_database d (u_mod st) /\ shut (Some h) d.
Proof.
  intros Hc Hx Hm Hok Ht. cbn -[USESS_LOCK].
  destruct (lock_run_ok WriteLock st) as (st1 & E1 & M1 & _).
  rewrite (on_ok_run _ _ _ _ _ E1). rewrite <- M1 in Hc, Hx, Hok, Ht |- *.
  destruct (CONNECT_run c st1 Hc) as (d2 & E2 & O2). rewrite (on_ok_run _ _ _ _ _ E2).
  set (st2 := mkUSt _ _ _ _). rewrite (with_session_run _ _ _ st2 x) by done.
  rewrite (on_ok_run _ _ _ st2 st2) by (unfold Enable_Privilege; rewrite Hm; done).
  destruct (Enable_ChangePassword_run (passwd_of passwd) c c st2 O2 Hok Ht)
    as (h & d3 & log & E3 & Hh & O3).
  rewrite (on_ok_run _ _ _ _ _ E3).
  set (st3 := mkUSt _ _ _ log).
  destruct (DISCONNECT_run STATUS_TRANSACTION_UPDATE c (Some h) st3 O3) as (d4 & E4 & O4); [auto|].
  rewrite (on_ok_run _ _ _ _ _ E4).
  exists h, d4. eexists. split; [done|]. split; [done|]. split; [done|]. exact O4.
Qed.

Lemma enable_service current passwd rest x h st :
  shut (Some h) (database_ (u_mod st)) -> matches P (passwd_of passwd) h ->
  table_ (sessions_ (u_mod st)) !! id current = Some x ->
  user_type x = USER_TYPE_ADMIN ->
  sess_mode x = USESS_MODE_OPER \/ sess_mode x = USESS_MODE_ENABLE ->
  Enable_CheckPassword P (enable_ (u_mod st)) (passwd_of passwd) = true ->
  exists st', UsessEnableHandler P (VSessEnable current passwd :: rest) st
    = Some (USESS_E_OK, st') /\
    table_ (sessions_ (u_mod st')) !! id current = Some (with_mode USESS_MODE_ENABLE x).
Proof.
  intros Hc Hh Hx Ha Hm Hok. cbn -[USESS_LOCK Enable_Authenticate TransitMode Enable_Privilege].
  destruct (lock_run_ok WriteLock st) as (st1 & E1 & M1 & _).
  rewrite (on_ok_run _ _ _ _ _ E1). rewrite <- M1 in Hc, Hx, Hok.
  destruct (CONNECT_run _ st1 Hc) as (d2 & E2 & O2). rewrite (on_ok_run _ _ _ _ _ E2).
  set (st2 := mkUSt _ _ _ _). rewrite (with_session_run _ _ _ st2 x) by done.
  rewrite (on_ok_run _ _ _ st2 st2) by (unfold Enable_Privilege; rewrite Ha; done).
  assert (exists d3, Enable_Authenticate P kAuthenticateEnable x (passwd_of passwd) st2
    = Some (USESS_E_OK, mkUSt (set_database d3 (u_mod st2)) (u_tc st2) (u_out st2) (u_log st2)) /\
    opened STATUS_TRANSACTION_BEGIN (Some h) (Some h) d3) as (d3 & E3 & O3).
  { unfold Enable_Authenticate. destruct (web_admin x).
    - exists d2. by split.
    - destruct (Exec_select_ok _ _ _ _ selected h (Some h) _ O2) as (d3 & v1 & v2 & E & Ev & O3).
      exists d3. split; [|done]. unfold ubind, member. change (enable_ (u_mod st2)) with (enable_ (u_mod st1)).
      rewrite Hok. cbn [negb]. unfold database_exec.
      change (database_ (u_mod st2)) with d2. rewrite E. cbn [fst snd length]. tests. rewrite Ev.
      destruct Hh as [Hne Hh]. unfold CheckDigest, Hash_salt.
      rewrite !(bool_decide_eq_false_2 (h = _)) by done. cbn [orb]. rewrite Hh.
      by rewrite bool_decide_eq_true_2. }
  rewrite (on_ok_run _ _ _ _ _ E3). set (st3 := mkUSt _ _ _ _).
  assert (exists st4, TransitMode (id current) USESS_MODE_ENABLE st3 = Some (USESS_E_OK, st4) /\
    u_mod st4 = set_sessions (set_table (<[id current := with_mode USESS_MODE_ENABLE x]>
      (table_ (sessions_ (u_mod st1)))) (sessions_ (u_mod st1))) (u_mod st3)) as (st4 & E4 & M4).
  { unfold TransitMode, ubind, member.
    change (sessions_ (u_mod st3)) with (sessions_ (u_mod st1)). rewrite Hx. destruct Hm as [-> | ->]; tests; eexists; split; done. }
  rewrite (on_ok_run _ _ _ _ _ E4).
  destruct (DISCONNECT_run STATUS_TRANSACTION_BEGIN (Some h) (Some h) st4) as (d5 & E5 & O5);
    [by rewrite M4|auto|].
  rewrite (on_ok_run _ _ _ _ _ E5). eexists. split; [done|]. cbn. rewrite M4. cbn.
  by rewrite lookup_insert_eq.
Qed.

(** C26: a new password works. If an enabled session sets a password for the
    enable mode that is acceptable and for which a known type of hash is
    configured, the service succeeds, and a request to enable the session of
    an administrator with that password, sent next, succeeds as well and
    leaves that session in the enable mode. It takes a database that works
    ([DependableDb]), a lock that is granted, no other thread at work, and a
    [crypt] that hashes with the salts made, without quotes, and for which its
    result serves as salt ([CryptLaws]). *)
Theorem new_password_enables (current admin : usess_ipc_sess_id_t) (passwd : string)
    (x y : usess_ipc_res_sess_info_t) (c : option string) (st : USt Db T) :
  shut c (database_ (u_mod st)) ->
  table_ (sessions_ (u_mod st)) !! id current = Some x -> sess_mode x = USESS_MODE_ENABLE ->
  table_ (sessions_ (u_mod st)) !! id admin = Some y -> user_type y = USER_TYPE_ADMIN ->
  sess_mode y = USESS_MODE_OPER \/ sess_mode y = USESS_MODE_ENABLE ->
  Enable_CheckPassword P (enable_ (u_mod st)) (passwd_of passwd) = true ->
  is_hash_type (en_hash_type (enable_ (u_mod st))) = true ->
  exists st1 st2,
    ipcService P [VEnablePasswd current passwd] kUserEnablePasswd st = Some (USESS_E_OK, st1) /\
    ipcService P [VSessEnable admin passwd] kUsessEnable st1 = Some (USESS_E_OK, st2) /\
    table_ (sessions_ (u_mod st2)) !! id admin = Some (with_mode USESS_MODE_ENABLE y).
Proof.
  intros Hc Hx Hm Hy Ha Hym Hok Ht.
  destruct (enable_passwd_service current passwd [] x c st Hc Hx Hm Hok Ht)
    as (h & d & st1 & E1 & Hh & M1 & O1).
  destruct (enable_service admin passwd [] y h st1) as (st2 & E2 & H2);
    [by rewrite M1|done|by rewrite M1|done..|by rewrite M1|].
  exists st1, st2. split_and!; [exact E1|exact E2|exact H2].
Qed.

End Password.

(** ** The laws hold of the small database *)

Lemma until_quote_app h s :
  no_quote h = true -> Sessions.until_quote (h +:+ String.String "'" s) = h.
Proof.
  induction h as [|c h IH]; [done|]. intros Hq. cbn [no_quote] in Hq. bool_norm.
  change (String.String c h +:+ String.String "'" s) with
    (String.String c (h +:+ String.String "'" s)). cbn [Sessions.until_quote].
  rewrite bool_decide_eq_false_2 by done. f_equal. by apply IH.
Qed.

Lemma scenario_exec_update h t d :
  no_quote h = true ->
  Sessions.exec (enable_update h t) d
  = (SQL_SUCCESS, Sessions.mkDb (Sessions.db_conn d) (Sessions.db_committed d) (Some h) None).
Proof.
  intros Hq. unfold Sessions.exec.
  assert (Sessions.strip_prefix "UPDATE tbl_unc_usess_enable SET passwd = '" (enable_update h t)
    = Some (h +:+ String.String "'" ("," +:+ "     passwd_hash = '" +:+ hash_number t +:+ "'," +:+
        "     modified = CURRENT_TIMESTAMP" +:+ "   WHERE mode ='" +:+
        pretty.pretty USESS_MODE_ENABLE +:+ "'"))) as -> by reflexivity.
  by rewrite until_quote_app.
Qed.

#[export] Instance sessions_dependable :
  DependableDb Sessions.odbc Sessions.db_conn Sessions.db_committed Sessions.db_working
    Sessions.db_selected.
Proof.
  split; cbn [Sessions.odbc m_driver_connect m_autocommit_off m_transact m_disconnect
    m_alloc_stmt m_free_stmt m_exec_direct m_row_count m_fetch].
  - intros s d _. by eexists.
  - intros d Hc. by exists d.
  - intros [] d Hc; by eexists.
  - intros d _. by eexists.
  - intros d Hc. by exists d.
  - done.
  - intros h t d Hc Hq. rewrite scenario_exec_update by done. by eexists.
  - intros h d Hc Hw. unfold Sessions.exec.
    change (Sessions.strip_prefix _ enable_select) with (@None string). by eexists.
  - intros h d Hs. by exists d.
  - intros h d Hs. exists 6, d. rewrite bool_decide_eq_true_2 by done. by rewrite Hs.
Qed.

Lemma without_quotes_no_quote s : no_quote (Sessions.without_quotes s) = true.
Proof. induction s as [|c s IH]; [done|]. cbn. rewrite IH, andb_true_r. by repeat case_bool_decide. Qed.

#[export] Instance sessions_crypt : CryptLaws Sessions.crypt.
Proof.
  split.
  - done.
  - intros p s h [= <-]. split; [done|]. cbn. apply without_quotes_no_quote.
  - intros. by eexists.
Qed.

Lemma two_sessions_known :
  exists x y,
    table_ (sessions_ (u_mod Sessions.two_sessions)) !! 1 = Some x /\
    sess_mode x = USESS_MODE_ENABLE /\
    table_ (sessions_ (u_mod Sessions.two_sessions)) !! 2 = Some y /\
    user_type y = USER_TYPE_ADMIN /\ sess_mode y = USESS_MODE_OPER.
Proof.
  assert ((sess_mode <$> table_ (sessions_ (u_mod Sessions.two_sessions)) !! 1)
    = Some USESS_MODE_ENABLE) as H1 by (vm_compute; reflexivity).
  assert ((fun y => (sess_mode y, user_type y)) <$>
    table_ (sessions_ (u_mod Sessions.two_sessions)) !! 2
    = Some (USESS_MODE_OPER, USER_TYPE_ADMIN)) as H2 by (vm_compute; reflexivity).
  destruct (table_ (sessions_ (u_mod Sessions.two_sessions)) !! 1) as [x|]; [|discriminate H1].
  destruct (table_ (sessions_ (u_mod Sessions.two_sessions)) !! 2) as [y|]; [|discriminate H2].
  injection H1 as Hm. injection H2 as Hmy Hty. by exists x, y.
Qed.

Lemma two_sessions_shut :
  shut Sessions.db_conn Sessions.db_committed (Some "$6$enable")
    (database_ (u_mod Sessions.two_sessions)).
Proof. split; [vm_compute; reflexivity|]. split; vm_compute; reflexivity. Qed.

Lemma two_sessions_password :
  Enable_CheckPassword Sessions.platform (enable_ (u_mod Sessions.two_sessions))
    (passwd_of "new") = true.
Proof. vm_compute. reflexivity. Qed.

Lemma two_sessions_hash :
  is_hash_type (en_hash_type (enable_ (u_mod Sessions.two_sessions))) = true.
Proof. vm_compute. reflexivity. Qed.

(** Session 1 sets a password with which session 2 is enabled. *)
Lemma new_password_enables_witness :
  exists st1 st2 y,
    ipcService Sessions.platform [VEnablePasswd (mkSessId 1) "new"] kUserEnablePasswd
      Sessions.two_sessions = Some (USESS_E_OK, st1) /\
    ipcService Sessions.platform [VSessEnable (mkSessId 2) "new"] kUsessEnable st1
      = Some (USESS_E_OK, st2) /\
    table_ (sessions_ (u_mod st2)) !! 2 = Some (with_mode USESS_MODE_ENABLE y).
Proof.
  destruct two_sessions_known as (x & y & Hx & Hm & Hy & Ht & Ho).
  destruct (new_password_enables Sessions.platform (fun log m t => eq_refl)
    (fun log mode timeout => eq_refl) Sessions.db_conn Sessions.db_committed
    Sessions.db_working Sessions.db_selected (mkSessId 1) (mkSessId 2) "new" x y
    (Some "$6$enable") Sessions.two_sessions two_sessions_shut Hx Hm Hy Ht (or_introl Ho)
    two_sessions_password two_sessions_hash) as (st1 & st2 & E1 & E2 & H2).
  exists st1, st2, y. split; [exact E1|]. split; [exact E2|exact H2].
Defined.
