(* ===== verification/UsessReturns.v ===== *)
(** * Every call of the session manager returns

    No request meets a member that is not there, an index that is out of range
    or a loop without end, if the coordinator returns and the limits of the
    sessions hold.  The calls that handle passwords also need that the database
    and [crypt] can be used ([PasswordsStored]). *)

From S2P Require Import Prelude TcDb MgmtDb UsessTypes UsessBase UsessAuth UsessSessions UsessModule.
From S2P Require Import UsessModule UsessProps UsessIds UsessTable.

Local Open Scope Z_scope.

(** ** What the environment answers *)

(** The coordinator returns from the two calls made of it. *)
Class CoordinatorReturns T `{TcSessions T} : Prop := {
  coord_release : forall sid (t : T), is_Some (tc_release_session sid t);
  coord_config : forall t : T, is_Some (tc_get_config_session t)
}.

(** A salt, or a digest used as one, that [crypt] can hash with: it returns NULL
    for the others. *)
Definition crypt_takes {Db T} (P : Platform Db T) (salt : string) : Prop :=
  forall p, is_Some (pl_crypt P p salt).

(** A stored digest is not there or was made by [crypt]. *)
Definition stored_digest {Db T} (P : Platform Db T) (d : string) : Prop :=
  d = ""%string \/ crypt_takes P d.

(** A row of a user and that of the enable mode, as [sql/usess.sql] declares the
    columns: of these types, and not NULL. *)
Definition user_columns : list Z := [SQL_VARCHAR; SQL_INTEGER; SQL_VARCHAR; SQL_INTEGER].
Definition enable_columns : list Z := [SQL_INTEGER; SQL_VARCHAR].

Definition stored_user {Db T} (P : Platform Db T) (cells : list SqlCell) : Prop :=
  exists name t digest ut, cells = [CStr name; CInt t; CStr digest; CInt ut] /\
    stored_digest P digest.

Definition stored_enable {Db T} (P : Platform Db T) (cells : list SqlCell) : Prop :=
  exists t digest, cells = [CInt t; CStr digest] /\ stored_digest P digest.

(** The database counts the rows that it selects, which ODBC leaves to the
    driver; it stores digests that [crypt] made; and [crypt] takes the salts
    that are made from the time for the three known types of hashes. *)
Class PasswordsStored {Db T} (P : Platform Db T) : Prop := {
  stored_count : forall x, 0 <= (m_row_count (pl_odbc P) x).1.2;
  stored_users : forall x, let r := m_fetch (pl_odbc P) user_columns x in
    sql_ok r.1.1 = true -> stored_user P r.1.2;
  stored_enables : forall x, let r := m_fetch (pl_odbc P) enable_columns x in
    sql_ok r.1.1 = true -> stored_enable P r.1.2;
  stored_salts : forall key t, is_hash_type t = true -> crypt_takes P (time_salt key t)
}.

(** The services that read or write passwords. *)
Definition password_services : list Z :=
  [kUsessSessAdd; kUsessEnable; kUserUserPasswd; kUserEnablePasswd].

Definition handles_passwords (service : Z) : Prop :=
  Z.to_nat service ∈ Z.to_nat <$> password_services.

(** ** Rows *)

Definition row_is (Q : list SqlCell -> Prop) (row : list variant_t) : Prop := Q (map val_data row).

Lemma store_row_cells bound cells :
  length bound = length cells -> Forall (fun c => c <> CNull) cells ->
  map val_data (store_row bound cells) = cells.
Proof.
  intros Hl Hc. revert bound Hl.
  induction Hc as [|c cells Hn Hc IH]; intros [|v bound] Hl; try done.
  injection Hl as Hl. by destruct c; [done|cbn; f_equal; auto..].
Qed.

Lemma store_row_length bound cells : length (store_row bound cells) = length bound.
Proof.
  revert cells. induction bound as [|v bound IH]; intros [|[] cells]; cbn; auto.
Qed.

Lemma bind_columns_length types vs : bind_columns types = Some vs -> length vs = length types.
Proof.
  revert vs. induction types as [|t ts IH]; intros vs E; cbn in E; [by simplify_eq|].
  destruct (SetBindCol t variant_new) as [rc v]. destruct (rc !=? DB_E_OK); [done|].
  destruct (bind_columns ts) as [vs'|]; [|done]. simplify_eq/=. by rewrite (IH vs').
Qed.

Section Returns.

Context {Db T : Type} `{CoordinatorReturns T} (P : Platform Db T).
Implicit Type st : USt Db T.

(** What a successful fetch of these columns gives. *)
Definition fetches (types : list Z) (Q : list SqlCell -> Prop) : Prop :=
  (forall cells, Q cells -> length cells = length types /\ Forall (fun c => c <> CNull) cells) /\
  forall x, let r := m_fetch (pl_odbc P) types x in sql_ok r.1.1 = true -> Q r.1.2.

Lemma fetch_rows_stored types Q n : fetches types Q -> forall bound d,
  length bound = length types ->
  Forall (row_is Q) (fetch_rows (pl_odbc P) n types bound d).1.2.
Proof.
  intros [Hq Hf]. induction n as [|n IH]; intros bound d Hb; cbn; [constructor|].
  specialize (Hf (mdb d)). cbv zeta in Hf.
  destruct (m_fetch (pl_odbc P) types (mdb d)) as [[rc cells] x]. cbn in Hf |- *.
  destruct (sql_ok rc); cbn; [|constructor].
  destruct (Hq cells (Hf eq_refl)) as [Hl Hn].
  specialize (IH (store_row bound cells) (set_mdb d x)).
  rewrite store_row_length in IH. specialize (IH Hb).
  destruct (fetch_rows _ n _ _ _) as [[e rows] d2]. constructor; [|done].
  unfold row_is. rewrite store_row_cells by (done || congruence). auto.
Qed.

Lemma DbField2Value_stored `{!PasswordsStored P} types d :
  exists e rows d', DbField2Value (pl_odbc P) types d = Some (e, rows, d') /\
    (forall Q, fetches types Q -> Forall (row_is Q) rows).
Proof.
  unfold DbField2Value. pose proof (stored_count (mdb d)) as Hn.
  destruct (m_row_count _ _) as [[rc n] x]. cbn in Hn.
  destruct (rc !=? SQL_SUCCESS); [by repeat eexists|].
  rewrite bool_decide_eq_false_2 by lia.
  destruct (bind_columns types) as [bound|] eqn:Eb; [|by repeat eexists].
  assert (forall Q, fetches types Q ->
    Forall (row_is Q) (fetch_rows (pl_odbc P) (Z.to_nat n) types bound (set_mdb d x)).1.2)
    as Hr by (intros Q HQ; by apply fetch_rows_stored, bind_columns_length).
  destruct (fetch_rows _ _ _ _ _) as [[e rows] d']. by repeat eexists.
Qed.

Lemma Exec_stored `{!PasswordsStored P} sql b types d :
  exists e rows d', Exec (pl_odbc P) sql b types d = Some (e, rows, d') /\
    (forall Q, fetches types Q -> Forall (row_is Q) rows).
Proof.
  unfold Exec. destruct (_ ==? STATUS_TRANSACTION_NONE); [by repeat eexists|].
  destruct (sql ==? ""); [by repeat eexists|].
  destruct (m_alloc_stmt _ _) as [[] x]; [|by repeat eexists]. cbn [negb].
  destruct (m_exec_direct _ _ _) as [rc y]. destruct (sql_ok rc); [|by repeat eexists].
  cbn [negb]. destruct (types ==? []).
  - by repeat eexists.
  - destruct (DbField2Value_stored types (set_mdb (set_mdb d x) y)) as (e & rows & d' & -> & Hr).
    by destruct (e !=? DB_E_OK); repeat eexists.
Qed.

Lemma fetches_user `{!PasswordsStored P} : fetches user_columns (stored_user P).
Proof.
  split; [|apply stored_users].
  intros cells (name & t & digest & ut & -> & _). split; [done|by repeat constructor].
Qed.

Lemma fetches_enable `{!PasswordsStored P} : fetches enable_columns (stored_enable P).
Proof.
  split; [|apply stored_enables].
  intros cells (t & digest & -> & _). split; [done|by repeat constructor].
Qed.

(** ** Programs that return *)

Definition runs {A} (m : U Db T A) st : Prop := is_Some (m st).

Class Returns {A} (m : U Db T A) : Prop := returns_at st : runs m st.

Lemma runs_bind {A B} (m : U Db T A) (f : A -> U Db T B) st :
  runs m st -> uwp m (fun a => runs (f a)) st -> runs (ubind m f) st.
Proof. intros [[a st1] E] Hf. unfold runs, ubind. rewrite E. by apply Hf. Qed.

#[local] Instance returns_ret {A} (a : A) : Returns (uret a).
Proof. intros st. by eexists. Qed.

#[local] Instance returns_bind {A B} (m : U Db T A) (f : A -> U Db T B) :
  Returns m -> (forall a, Returns (f a)) -> Returns (ubind m f).
Proof. intros Hm Hf st. apply runs_bind; [apply Hm|]. intros a st1 _. apply Hf. Qed.

#[local] Instance returns_if {A} (b : bool) (m k : U Db T A) :
  Returns m -> Returns k -> Returns (if b then m else k).
Proof. by destruct b. Qed.

#[local] Instance returns_on_ok {A} m label (k : U Db T A) :
  Returns m -> (forall e, Returns (label e)) -> Returns k -> Returns (on_ok m label k).
Proof. intros ? ? ?. apply returns_bind; [done|]. intros e. by destruct (e !=? USESS_E_OK). Qed.

#[local] Instance returns_member {A} (f : Usess Db -> A) : Returns (member f).
Proof. intros st. by eexists. Qed.

#[local] Instance returns_update f : Returns (update f : U Db T unit).
Proof. intros st. by eexists. Qed.

#[local] Instance returns_uevent e : Returns (uevent e : U Db T unit).
Proof. intros st. by eexists. Qed.

#[local] Instance returns_tc_instance : Returns (tc_instance : U Db T bool).
Proof. intros st. by eexists. Qed.

#[local] Instance returns_release sid : Returns (TcReleaseSession sid : U Db T _).
Proof.
  intros st. unfold runs, TcReleaseSession.
  destruct (coord_release sid (u_tc st)) as [[r t] ->]. by eexists.
Qed.

#[local] Instance returns_get_config : Returns (TcGetConfigSession : U Db T _).
Proof.
  intros st. unfold runs, TcGetConfigSession.
  destruct (coord_config (u_tc st)) as [[[r p] t] ->]. by eexists.
Qed.

#[local] Instance returns_database {A} (f : MgmtDatabase Db -> A * MgmtDatabase Db) :
  Returns (database_do f : U Db T A).
Proof. intros st. unfold runs, database_do. destruct (f _). by eexists. Qed.

(** A statement, with the rows that are stored. *)
Lemma database_exec_stored `{!PasswordsStored P} sql b types st :
  runs (database_exec P sql b types) st /\
  uwp (database_exec P sql b types) (fun p _ =>
    forall Q, fetches types Q -> Forall (row_is Q) p.2) st.
Proof.
  unfold runs, uwp, database_exec.
  destruct (Exec_stored sql b types (database_ (u_mod st))) as (e & rows & d & -> & Hr).
  split; [by eexists|]. intros p st' E. by simplify_eq.
Qed.

#[local] Instance returns_exec `{!PasswordsStored P} sql b types : Returns (database_exec P sql b types).
Proof. intros st. apply database_exec_stored. Qed.

#[local] Instance returns_clock : Returns (pfc_clock_get_realtime P).
Proof. intros st. by eexists. Qed.

#[local] Instance returns_output v : Returns (addOutput P v).
Proof. intros st. by eexists. Qed.

#[local] Instance returns_others : Returns (others P).
Proof. intros st. unfold runs, others. destruct (pl_others P _ _). by eexists. Qed.

#[local] Instance returns_timedlock mode : Returns (timedlock P mode).
Proof.
  unfold timedlock. apply returns_bind; [apply _|]. intros c.
  apply returns_bind; [apply _|]. intros _ st. by eexists.
Qed.

#[local] Instance returns_lock mode : Returns (USESS_LOCK P mode).
Proof. unfold USESS_LOCK. apply _. Qed.

#[local] Instance returns_sessions_update f : Returns (sessions_update f : U Db T unit).
Proof. intros st. by eexists. Qed.

#[local] Instance returns_unlock_end e : Returns (unlock_end e : U Db T _).
Proof. unfold unlock_end, USESS_UNLOCK. apply _. Qed.

#[local] Instance returns_disconnect_end e : Returns (disconnect_end P e).
Proof. unfold disconnect_end. apply _. Qed.

#[local] Instance returns_proc_end e : Returns (proc_end e : U Db T _).
Proof. unfold proc_end. apply _. Qed.

#[local] Instance returns_connect : Returns (CONNECT P).
Proof. unfold CONNECT. apply _. Qed.

#[local] Instance returns_disconnect : Returns (DISCONNECT P).
Proof. unfold DISCONNECT. apply _. Qed.

#[local] Instance returns_send v : Returns (send P v).
Proof. unfold send. apply _. Qed.

#[local] Instance returns_send_list l : Returns (send_list P l).
Proof. induction l; cbn; apply _. Qed.

(** ** Users and passwords *)

Lemma Hash_time_some `{!PasswordsStored P} str key t : is_Some (Hash_time P str key t).
Proof.
  unfold Hash_time, Hash_salt. destruct (is_hash_type t) eqn:Ht; [|by eexists]. cbn [negb].
  case_match; [by eexists|]. by apply stored_salts.
Qed.

Lemma CheckDigest_some str d : stored_digest P d -> is_Some (CheckDigest P str d d).
Proof.
  intros [-> |Hd]; [by eexists|]. unfold CheckDigest, Hash_salt.
  destruct (d ==? ""); [by eexists|]. cbn [orb].
  destruct (Hd str) as [c ->]. by eexists.
Qed.

(** The rows stored always fill a user. *)
Lemma SetUserData_some user rows : Forall (row_is (stored_user P)) rows ->
  exists e u, SetUserData user rows = Some (e, u) /\
    (e = USESS_E_OK -> stored_digest P (u_passwd_digest u)).
Proof.
  intros Hr. destruct rows as [|row [|row' rows]]; [by do 2 eexists| |
    by destruct row as [|? [|? [|? [|? []]]]]; do 2 eexists].
  apply Forall_inv in Hr as (name & t & digest & ut & E & Hd).
  destruct row as [|[? c0] [|[? c1] [|[? c2] [|[? c3] [|]]]]]; try discriminate E.
  injection E as -> -> -> ->. by do 2 eexists.
Qed.

Lemma GetUser_stored `{!PasswordsStored P} name st :
  runs (GetUser P name) st /\
  uwp (GetUser P name) (fun p _ =>
    p.1 = USESS_E_OK -> stored_digest P (u_passwd_digest p.2)) st.
Proof.
  unfold GetUser, Retrieve, runs, uwp, ubind, member.
  destruct (negb _); [split; [by eexists|]; intros p st' [= <- <-]; discriminate|].
  destruct (database_exec_stored (user_select name) false user_columns st) as [[[p st1] E] Hr].
  specialize (Hr p st1 E (stored_user P) fetches_user).
  unfold user_columns in E. rewrite E.
  destruct (_ || _); [split; [by eexists|]; intros q st' [= <- <-]; discriminate|].
  destruct (SetUserData_some (mkUser (u_name UsessUser_new) (u_passwd_type UsessUser_new)
    (u_passwd_digest UsessUser_new) (u_type UsessUser_new) (users_ (u_mod st))) p.2 Hr)
    as (e & u & -> & Hu).
  split; [by eexists|]. intros q st' [= <- <-]. exact Hu.
Qed.

#[local] Instance returns_get_user `{!PasswordsStored P} name : Returns (GetUser P name).
Proof. intros st. apply GetUser_stored. Qed.

#[local] Instance returns_authenticate `{!PasswordsStored P} mode x passwd :
  Returns (Enable_Authenticate P mode x passwd).
Proof.
  unfold Enable_Authenticate. destruct mode. apply returns_if; [apply _|].
  apply returns_bind; [apply _|]. intros c. apply returns_if; [apply _|].
  intros st. apply runs_bind; [apply returns_at|].
  eapply uwp_mono; [apply database_exec_stored|]. intros [e rows] st1 Hr. cbn [fst snd] in *.
  specialize (Hr _ fetches_enable).
  destruct (_ || _); [by eexists|].
  destruct rows as [|[|[? a] [|[? b] [|c' row]]] [|row' rows]]; try by eexists.
  apply Forall_inv in Hr as (t & digest & E & Hd). injection E as -> ->. cbn.
  destruct (CheckDigest_some passwd digest Hd) as [ok ->]. by eexists.
Qed.

#[local] Instance returns_enable_change `{!PasswordsStored P} passwd :
  Returns (Enable_ChangePassword P passwd).
Proof.
  unfold Enable_ChangePassword. apply returns_bind; [apply _|]. intros c.
  apply returns_if; [apply _|]. apply returns_bind; [apply _|]. intros now.
  destruct (Hash_time_some passwd now.2 (en_hash_type c)) as [h ->]. apply _.
Qed.

#[local] Instance returns_user_change `{!PasswordsStored P} user passwd :
  Returns (User_ChangePassword P user passwd).
Proof.
  unfold User_ChangePassword. apply returns_if; [apply _|]. apply returns_bind; [apply _|].
  intros now. destruct (Hash_time_some passwd now.2 (hash_type (u_conf user))) as [h ->].
  apply _.
Qed.

Lemma User_Authenticate_some user mode t passwd : stored_digest P (u_passwd_digest user) ->
  is_Some (User_Authenticate P user mode t passwd).
Proof.
  intros Hd. unfold User_Authenticate. destruct mode. destruct (_ || _ || _); [by eexists|].
  destruct (negb _); [by eexists|].
  destruct (CheckDigest_some passwd (u_passwd_digest user) Hd) as [ok ->]. by eexists.
Qed.

(** ** Sessions *)

#[local] Instance returns_del_id target : Returns (Del_id target : U Db T _).
Proof. unfold Del_id. apply _. Qed.

#[local] Instance returns_del_loop target l : Returns (del_loop target l : U Db T unit).
Proof. induction l as [|[k x] l IH]; cbn; apply _. Qed.

#[local] Instance returns_del_type target : Returns (Del_type target : U Db T _).
Proof. unfold Del_type. apply _. Qed.

#[local] Instance returns_release_loop l : Returns (release_loop l : U Db T unit).
Proof. induction l as [|[k x] l IH]; cbn; apply _. Qed.

#[local] Instance returns_sessions_fini : Returns (Sessions_Fini : U Db T bool).
Proof. unfold Sessions_Fini, Del_all. apply _. Qed.

#[local] Instance returns_get_list_all : Returns (GetList_all : U Db T _).
Proof.
  unfold GetList_all. apply returns_bind; [apply _|]. intros tc. apply returns_if; [apply _|].
  apply returns_bind; [apply _|]. intros r. destruct (config_owner r); apply _.
Qed.

#[local] Instance returns_get_list_id target : Returns (GetList_id target : U Db T _).
Proof.
  unfold GetList_id. apply returns_bind; [apply _|]. intros s.
  destruct (table_ s !! id target); [|apply _]. apply returns_bind; [apply _|]. intros tc.
  apply returns_if; [apply _|]. apply returns_bind; [apply _|]. intros r.
  destruct (config_owner r); apply _.
Qed.

(** The details of a session that is found are there. *)
Lemma GetList_id_some target st :
  uwp (GetList_id target : U Db T _) (fun p _ => p.1 = USESS_E_OK -> p.2 <> []) st.
Proof.
  apply uwp_bind, uwp_member. destruct (table_ _ !! id target) as [x|]; [|by apply uwp_ret].
  apply uwp_bind. intros tc st1 _. destruct tc; [|by apply uwp_ret]. cbn [negb].
  apply uwp_bind. intros r st2 _. destruct (config_owner r); by apply uwp_ret.
Qed.

Lemma runs_check s t : within_limits s -> is_Some (CheckSessTypeCount s t).
Proof.
  intros W. unfold CheckSessTypeCount, count_range. case_match; [by eexists|].
  case_match; [|by eexists]. destruct (wl_conf s W) as [Hr _].
  destruct (Hr (CONF_LOCAL_ID t)) as (_ & Hle & _).
  rewrite (bool_decide_eq_false_2 (end_ _ < _)); [by eexists|]. unfold info_of. lia.
Qed.

Lemma runs_new_id s t : within_limits s -> is_Some (GetNewSessionId t s).
Proof.
  intros W. unfold GetNewSessionId. destruct (wl_conf s W) as [Hr _].
  rewrite find_id_next_free; [by case_match; eexists|by apply within_limits_invalid|apply Hr|].
  apply (wl_last s W).
Qed.

Lemma runs_sessions_do {A} (f : UsessSessions -> option (A * UsessSessions)) st :
  is_Some (f (sessions_ (u_mod st))) -> runs (sessions_do f) st.
Proof. intros [[a s] E]. unfold runs, sessions_do. rewrite E. by eexists. Qed.

Lemma runs_Add req user st : within_limits (sessions_ (u_mod st)) -> runs (Add P req user) st.
Proof.
  intros W. unfold Add. destruct (IsSessType _); [|by eexists].
  destruct (IsUserType _); [|by eexists]. cbn [negb].
  apply runs_bind.
  { apply runs_sessions_do. destruct (runs_check _ (add_sess_type req) W) as [b ->].
    by eexists. }
  intros room st1 E. unfold sessions_do in E.
  destruct (CheckSessTypeCount _ _) as [b|]; [|done]. injection E as <- <-.
  destruct b; [|by eexists]. cbn [negb]. apply runs_bind; [apply returns_at|].
  apply uwp_frame; [apply _|]. intros now st2 E2. destruct (now.1 !=? 0); [by eexists|].
  apply runs_bind; [by apply runs_sessions_do, runs_new_id; rewrite E2|].
  intros n st3 _. apply (returns_at (Returns := _)).
Qed.

Lemma runs_TransitMode k mode st :
  is_Some (table_ (sessions_ (u_mod st)) !! k) -> runs (TransitMode k mode : U Db T _) st.
Proof.
  intros [x Hx]. apply runs_bind; [apply returns_at|]. apply uwp_member. rewrite Hx.
  apply (returns_at (Returns := _)).
Qed.

(** ** Services *)

Lemma runs_with_session target label k st :
  (forall e, Returns (label e)) ->
  (forall x, table_ (sessions_ (u_mod st)) !! id target = Some x -> runs (k x) st) ->
  runs (with_session (T := T) target label k) st.
Proof.
  intros Hl Hk. unfold with_session, GetSession, runs, ubind, member.
  destruct (table_ _ !! id target) as [x|] eqn:Ex; [by apply Hk|]. apply Hl.
Qed.

(** Steps that leave the sessions alone. *)
Lemma runs_frame_ok m label (k : U Db T usess_ipc_err_e) st :
  Returns m -> Frames m -> (forall e, Returns (label e)) ->
  (forall st', sessions_ (u_mod st') = sessions_ (u_mod st) -> runs k st') ->
  runs (on_ok m label k) st.
Proof.
  intros Hm Hf Hl Hk. apply runs_bind; [apply Hm|]. apply uwp_frame; [done|].
  intros e st' E. destruct (e !=? USESS_E_OK); [apply Hl|auto].
Qed.

Lemma returns_getArgument {A} pick args (k : A -> U Db T usess_ipc_err_e) :
  (forall a, Returns (k a)) -> Returns (getArgument pick args k).
Proof.
  intros Hk. destruct args as [|v args]; cbn; [apply _|]. destruct (pick v); [apply Hk|apply _].
Qed.

Lemma UsessEnableHandler_returns `{!PasswordsStored P} args : Returns (UsessEnableHandler P args).
Proof.
  apply returns_getArgument. intros [current passwd].
  apply returns_on_ok; [apply _..|]. apply returns_on_ok; [apply _..|].
  intros st. apply runs_with_session; [apply _|]. intros x Hx.
  apply runs_frame_ok; [apply _..|]. intros st1 E1.
  apply runs_frame_ok; [apply _..|]. intros st2 E2.
  apply runs_bind; [apply runs_TransitMode; rewrite E2, E1; by eexists|].
  intros e st3 _. apply (returns_at (Returns := _)).
Qed.

Lemma UsessDisableHandler_returns args : Returns (UsessDisableHandler P args).
Proof.
  apply returns_getArgument. intros current. apply returns_on_ok; [apply _..|].
  intros st. apply runs_with_session; [apply _|]. intros x Hx.
  apply runs_frame_ok; [apply _..|]. intros st1 E1.
  apply runs_bind; [apply runs_TransitMode; rewrite E1; by eexists|].
  intros e st3 _. apply (returns_at (Returns := _)).
Qed.

Lemma UsessSessDetailHandler_returns args : Returns (UsessSessDetailHandler P args).
Proof.
  apply returns_getArgument. intros [current detail]. apply returns_on_ok; [apply _..|].
  apply returns_bind; [apply _|]. intros s. apply returns_on_ok; [apply _..|].
  intros st. apply runs_bind; [apply returns_at|].
  eapply uwp_mono; [apply GetList_id_some|]. intros [e l] st1 Hl. cbn [fst snd] in *.
  destruct (e !=? USESS_E_OK) eqn:He; [apply returns_at|]. bool_norm.
  destruct l as [|x l]; [by destruct Hl|]. apply (returns_at (Returns := _)).
Qed.

Lemma password_handlers_return `{!PasswordsStored P} args :
  Returns (UserUserPasswdHandler P args) /\ Returns (UserEnablePasswdHandler P args).
Proof.
  split; apply returns_getArgument.
  - intros [[current uname] passwd]. do 2 (apply returns_on_ok; [apply _..|]).
    intros st. apply runs_with_session; [apply _|]. intros x _.
    apply (returns_at (Returns := _)).
  - intros [current passwd]. do 2 (apply returns_on_ok; [apply _..|]).
    intros st. apply runs_with_session; [apply _|]. intros x _.
    apply (returns_at (Returns := _)).
Qed.

Context (Hothers : others_keep P within_limits).

Lemma runs_locked mode (k : U Db T usess_ipc_err_e) st :
  within_limits (sessions_ (u_mod st)) ->
  (forall st', within_limits (sessions_ (u_mod st')) -> runs k st') ->
  runs (on_ok (USESS_LOCK P mode) proc_end k) st.
Proof.
  intros W Hk. apply runs_bind; [apply returns_at|].
  eapply uwp_mono; [by apply (lock_keeps P within_limits Hothers)|]. intros e st' W'.
  destruct (e !=? USESS_E_OK); [apply returns_at|auto].
Qed.

Lemma UsessSessAddHandler_returns `{!PasswordsStored P} args st :
  within_limits (sessions_ (u_mod st)) -> runs (UsessSessAddHandler P args) st.
Proof.
  intros W. destruct args as [|v args]; [by eexists|]. destruct v; try by eexists.
  apply runs_locked; [done|]. clear st W. intros st W.
  apply runs_frame_ok; [apply _..|]. intros st1 E1.
  apply runs_bind; [apply returns_at|]. intros p st2 Ep.
  assert (sessions_ (u_mod st2) = sessions_ (u_mod st1)) as E2.
  { revert p st2 Ep. by apply (uwp_frame (GetUser P (add_uname r))). }
  destruct (GetUser_stored (add_uname r) st1) as [_ Hd]. specialize (Hd p st2 Ep).
  destruct (p.1 !=? USESS_E_OK) eqn:He; [apply returns_at|]. bool_norm.
  apply runs_frame_ok; [apply _..|]. intros st3 E3.
  apply runs_bind; [apply returns_at|]. apply uwp_frame; [apply _|]. intros _ st4 E4.
  destruct (User_Authenticate_some p.2 kAuthenticateSessAdd (add_sess_type r)
    (passwd_of (add_passwd r)) (Hd He)) as [e ->].
  destruct (e !=? USESS_E_OK); [apply returns_at|].
  apply runs_locked; [by rewrite E4, E3, E2, E1|]. clear - H0. intros st W.
  apply runs_bind; [by apply runs_Add|]. intros q st' _. apply (returns_at (Returns := _)).
Qed.

Lemma usess_service_returns args service st :
  (handles_passwords service -> PasswordsStored P) ->
  within_limits (sessions_ (u_mod st)) -> runs (ipcService P args service) st.
Proof.
  intros Hp W. unfold ipcService. case_bool_decide as Hs; [by eexists|].
  unfold kUsessIpcNipcs in Hs.
  unfold handles_passwords in Hp.
  destruct (Z.to_nat service) as [|[|[|[|[|[|[|[|[|[|n]]]]]]]]]] eqn:En; cbn; [..|lia].
  - assert (PasswordsStored P) by (apply Hp; set_solver). by apply UsessSessAddHandler_returns.
  - apply (returns_getArgument _ _ _). intros [c d]. apply _.
  - apply (returns_getArgument _ _ _). intros t. apply _.
  - assert (PasswordsStored P) by (apply Hp; set_solver). apply UsessEnableHandler_returns.
  - apply UsessDisableHandler_returns.
  - apply (returns_getArgument _ _ _). intros t. apply _.
  - apply (returns_getArgument _ _ _). intros t. apply _.
  - apply UsessSessDetailHandler_returns.
  - assert (PasswordsStored P) by (apply Hp; set_solver). apply password_handlers_return.
  - assert (PasswordsStored P) by (apply Hp; set_solver). apply password_handlers_return.
Qed.

(** ** The life cycle *)

#[local] Instance returns_fini : Returns (fini P).
Proof.
  unfold fini. apply returns_bind; [|apply _].
  unfold fini_handler. apply returns_bind; [apply _|]. intros registered.
  apply returns_if; [apply _|]. intros st. unfold runs. apply (returns_at (Returns := _)).
Qed.

#[local] Instance returns_load_common : Returns (Common_LoadConf : U Db T _).
Proof.
  unfold Common_LoadConf. apply returns_bind; [apply _|]. intros f.
  destruct (UsessConfCommon_LoadConf f). apply _.
Qed.

#[local] Instance returns_load_sessions : Returns (Sessions_LoadConf : U Db T _).
Proof.
  unfold Sessions_LoadConf. apply returns_bind; [apply _|]. intros f.
  destruct (UsessConfSession_LoadConf f). apply _.
Qed.

#[local] Instance returns_load_users : Returns (Users_LoadConf : U Db T _).
Proof.
  unfold Users_LoadConf. apply returns_bind; [apply _|]. intros f.
  destruct (UsessConfUser_LoadConf f). apply _.
Qed.

#[local] Instance returns_load_enable : Returns (Enable_LoadConf : U Db T _).
Proof.
  unfold Enable_LoadConf. apply returns_bind; [apply _|]. intros f.
  destruct (UsessConfEnable_LoadConf f). apply _.
Qed.

#[local] Instance returns_register : Returns (register_reload P).
Proof.
  unfold register_reload. apply returns_bind; [apply _|]. intros registered.
  apply returns_if; [apply _|]. intros st. unfold runs. apply (returns_at (Returns := _)).
Qed.

#[local] Instance returns_init : Returns (init P).
Proof. unfold init, init_steps, Sessions_Init, Users_Init, Enable_Init. apply _. Qed.

#[local] Instance returns_reload b : Returns (ReloadConfEventHandler P b).
Proof.
  unfold ReloadConfEventHandler. apply returns_if; [apply _|]. apply returns_bind; [|apply _].
  intros st. unfold runs. destruct (pl_reload P (u_log st)) as [rc f]. apply (returns_at (Returns := _)).
Qed.

(** C28: every call of the session manager returns.  Start, stop, reload, and every
    service with any arguments end with a result: no pointer is NULL where it is
    used, no buffer is read that was not filled, no search for an identifier goes
    on for ever.  It takes that the coordinator returns from its calls, that the
    sessions are within usable limits, which requests keep and other threads
    have to, and, only for the four services that read or write passwords, that
    the database counts the rows it selects and gives no NULL, and that [crypt]
    takes the salts the code makes and the digests stored.  Everything else may
    answer whatever it likes. *)
Theorem usess_call_returns (c : UsessCall) (st : USt Db T) :
  (if c is CallService _ service then handles_passwords service -> PasswordsStored P else True) ->
  within_limits (sessions_ (u_mod st)) -> exists st', run_call P c st = Some (tt, st').
Proof.
  intros Hp W. assert (runs (run_call P c) st) as [[[] st'] E]; [|eauto].
  destruct c as [| |b|args service]; cbn; try apply (returns_at (Returns := _)).
  apply runs_bind; [by apply usess_service_returns|]. intros e st' _. by eexists.
Qed.

End Returns.

#[local] Instance sample_coordinator_returns : CoordinatorReturns Sessions.Tc.
Proof. split; by eexists. Qed.

#[local] Instance sample_passwords_stored : PasswordsStored Sessions.platform.
Proof.
  split; cbn; [lia|..]; intros; [..|by eexists]; repeat eexists; right; by eexists.
Qed.

(** A wrong password. *)
Lemma usess_call_returns_witness :
  exists st', run_call Sessions.platform
    (CallService [VSessEnable (mkSessId 2) "wrong"] kUsessEnable) Sessions.two_sessions
    = Some (tt, st').
Proof.
  apply (usess_call_returns Sessions.platform).
  - intros log m t Hm. exact Hm.
  - intros _. apply _.
  - exact two_sessions_within.
Defined.
