(* ===== verification/UsessTc.v ===== *)
(** * Sessions and the transaction coordinator

    The module of the coordinator is what the session manager calls when a
    session goes: it implements the interface [TcSessions].  Its calls return
    whatever its other threads do, and the configuration of a session that is
    deleted is free afterwards. *)

From S2P Require Import Prelude TcTypes TcRwLock TcLock TcIpc TcMsg TcServer TcOper.
From S2P Require Import TcOperSimple TcOperConfig TcModule TcOperProps TcTermination.
From S2P Require Import MgmtDb UsessTypes UsessBase UsessAuth UsessSessions UsessModule.
From S2P Require Import UsessProps UsessModule UsessTable UsessAccess UsessPassword.

Local Open Scope Z_scope.

Section Coordinator.

Context {D : Type} `{TcDbI D} (S : Setting D) (garbage : bool) (this : Z).

(** The module runs in the same daemon, so that its instance is there. *)
Definition tc_module_sessions : TcSessions (OpSt D Mod) := {|
  tc_present := fun _ => true;
  tc_release_session := fun sid st => TcModule.TcReleaseSession S garbage this sid st;
  tc_get_config_session := fun st =>
    match TcModule.TcGetConfigSession S st with
    | Some ((r, p), st') => Some (r, p, st')
    | None => None
    end
|}.

(** ** The calls return *)

Lemma total_ask {X A} (f : TcLock -> A) : total (ask (X := X) S f).
Proof. intros st. by eexists. Qed.

Lemma ReleaseConfigSession_total : total (ReleaseConfigSession S garbage this).
Proof.
  unfold ReleaseConfigSession, TcModule.TcGetConfigSession.
  apply total_bind; [apply total_bind; [apply total_ask|intros; apply total_ret]|].
  intros [r [[sid cid]|]]; destruct r; try apply total_ret.
  apply total_bind; [|intros; apply total_ret]. apply total_with_object. intros.
  apply Config_returns. cbn. discriminate.
Qed.

Lemma TcReleaseSession_total sid : total (TcModule.TcReleaseSession S garbage this sid).
Proof.
  unfold TcModule.TcReleaseSession. apply total_bind; [apply total_ask|]. intros state.
  destruct (_ && _); [apply total_ret|]. apply total_bind; [apply total_ask|]. intros pr.
  destruct pr; try apply total_ret.
  all: try (apply total_bind; [apply total_lock_do; reflexivity|]; intros r;
    destruct (r ==? _); apply total_ret).
  - apply total_bind; [apply ReleaseConfigSession_total|]. intros r.
    destruct (r ==? _); apply total_ret.
  - apply total_bind; [|intros; apply total_ret]. apply total_with_object. intros.
    apply Read_total.
Qed.

(** ** The configuration is free afterwards *)

(** No other thread changes the lock. *)
Definition undisturbed : Prop :=
  forall log sh, sh_lock (e_step (set_the_env S) log sh) = sh_lock sh.

Context (Hun : undisturbed).

(** The state of an operation without a server session. *)
Definition at_state {X} (l : TcLock) (b : OpBase) (x : X) (st : OpSt D X) : Prop :=
  sh_lock (st_shared st) = l /\ st_base st = b /\ st_ext st = x /\ st_srv st = None.

Notation sees l b x := (fun _ st' => at_state l b x st').

Lemma at_interfere {X} l b (x : X) st :
  at_state l b x st ->
  owp (interfere S) (fun sh st' => sh_lock sh = l /\ at_state l b x st') st.
Proof.
  intros (Hl & Hb & Hx & Hs). unfold owp, interfere. cbn. rewrite Hun.
  split; [done|]. repeat split; cbn; try done. by rewrite Hun.
Qed.

(** Steps that read or write the members. *)
Lemma at_base {X A} (f : OpBase -> A) (Q : A -> OpSt D X -> Prop) l b x st :
  at_state l b x st -> Q (f b) st -> owp (base f) Q st.
Proof. intros (_ & Hb & _ & _) HQ. unfold owp, base. by rewrite Hb. Qed.

Lemma at_ext {X A} (f : X -> A) (Q : A -> OpSt D X -> Prop) l b x st :
  at_state l b x st -> Q (f x) st -> owp (ext f) Q st.
Proof. intros (_ & _ & Hx & _) HQ. unfold owp, ext. by rewrite Hx. Qed.

Lemma at_session {X} (Q : option ServerSession -> OpSt D X -> Prop) l b x st :
  at_state l b x st -> Q None st -> owp session Q st.
Proof. intros (_ & _ & _ & Hs) HQ. unfold owp, session. by rewrite Hs. Qed.

Lemma at_set_base {X} f (Q : unit -> OpSt D X -> Prop) l b x st :
  at_state l b x st -> (forall st', at_state l (f b) x st' -> Q tt st') ->
  owp (set_base f) Q st.
Proof.
  intros (Hl & Hb & Hx & Hs) HQ. apply HQ. repeat split; cbn; auto. by rewrite Hb.
Qed.

Lemma at_ask {X A} (f : TcLock -> A) l b (x : X) st :
  at_state l b x st -> owp (ask S f) (fun a st' => a = f l /\ at_state l b x st') st.
Proof.
  intros Hst. apply owp_bind. eapply owp_mono; [by apply at_interfere|].
  intros sh st' [<- H']. by apply owp_ret.
Qed.

Lemma at_lock {X} o r l l' b (x : X) st :
  lock_call o l = Done r l' -> at_state l b x st ->
  owp (lock_do S o) (fun r' st' => r' = r /\ at_state l' b x st') st.
Proof.
  intros Ho Hst. apply owp_bind. eapply owp_mono; [by apply at_interfere|].
  intros sh st' [<- (Hl & Hb & Hx & Hs)]. cbn beta. rewrite Ho. split; [done|]. done.
Qed.

Lemma at_statics {A} (f : ConfigStatics -> A * ConfigStatics) l b x st :
  at_state l b x st -> owp (Config.statics S f) (sees l b x) st.
Proof.
  intros Hst. apply owp_bind. eapply owp_mono; [by apply at_interfere|].
  intros sh st' [<- (Hl & Hb & Hx & Hs)]. cbn beta. destruct (f _) as [a c]. done.
Qed.

Lemma at_execute {X} o l b (x : X) st :
  at_state l b x st -> owp (execute_msg S o) (sees l b x) st.
Proof.
  intros Hst. apply owp_bind. eapply owp_mono; [by apply at_interfere|].
  intros sh st' [_ H']. unfold owp. by destruct (TcMsg_Execute _ _ _ _) as [r ms].
Qed.

(** The lock when the release has begun and when it is over. *)
Definition releasing (l : TcLock) : TcLock :=
  let c := tc_config_lock_ l in
  TcLock.set_conf l (mkConf (config_id c) (session_id c) (marked_session_id c) false true
                TC_NOTIFY_RELEASE).

(** Session [sid] holds the configuration and nothing of it is in progress. *)
Record holds_configuration (sid : Z) (l : TcLock) : Prop := {
  hc_state : current_state (tc_state_lock_ l) = TC_ACT;
  hc_taken : is_taken (tc_config_lock_ l) = true;
  hc_session : session_id (tc_config_lock_ l) = sid;
  hc_pending : is_notify_pending (tc_config_lock_ l) = false;
  hc_notify : notify_operation (tc_config_lock_ l) = TC_NOTIFY_NONE;
  hc_write : write_progress sid l = None;
  hc_candidate : candidate_write_held l = false
}.

Definition unowned (l : TcLock) : Prop :=
  is_taken (tc_config_lock_ l) = false /\ is_notify_pending (tc_config_lock_ l) = false /\
  session_id (tc_config_lock_ l) = 0 /\ current_state (tc_state_lock_ l) = TC_ACT.

Lemma release_begins sid l :
  holds_configuration sid l ->
  lock_call (OpReleaseLock sid (config_id (tc_config_lock_ l)) TC_RELEASE_CONFIG_SESSION
               TC_WRITE_NONE) l = Done TC_LOCK_SUCCESS (releasing l).
Proof.
  intros [Ha Ht Hs Hp Hn Hw Hc]. cbn. unfold ReleaseConfigLock.
  rewrite Ht, Hs, Hp, Hc, !bool_decide_eq_true_2 by done. cbn. unfold releasing. by rewrite Hs.
Qed.

Lemma release_ends sid l :
  holds_configuration sid l ->
  exists l', lock_call (OpNotifyDone (config_id (tc_config_lock_ l)) sid TC_NOTIFY_RELEASE)
               (releasing l) = Done TC_LOCK_SUCCESS l' /\ unowned l'.
Proof.
  intros [Ha Ht Hs Hp Hn Hw Hc]. cbn. unfold NotifyConfigIdSessionIdDone. cbn.
  rewrite Hs, !bool_decide_eq_true_2 by done. cbn. eexists. split; [done|].
  by unfold unowned.
Qed.

(** *** The operation that releases it *)

Section Release.

Context (sid : Z) (l l' : TcLock) (Hhold : holds_configuration sid l).
Context (Hend : lock_call (OpNotifyDone (config_id (tc_config_lock_ l)) sid TC_NOTIFY_RELEASE)
                  (releasing l) = Done TC_LOCK_SUCCESS l').

Notation cid := (config_id (tc_config_lock_ l)).
Notation base_at ph ms := (mkBase sid TC_OP_CONFIG_RELEASE ms ph garbage).
Notation ext0 := (Config.mkExt this cid 0).

Lemma at_release_exclusion ph ms st :
  at_state (releasing l) (base_at ph ms) ext0 st ->
  owp (Config.TcReleaseExclusion S) (fun r st' =>
    r = TC_OPER_SUCCESS /\ at_state l' (base_at ph ms) ext0 st') st.
Proof.
  intros Hst. unfold Config.TcReleaseExclusion.
  apply owp_bind, (at_base _ _ _ _ _ _ Hst), owp_bind, (at_base _ _ _ _ _ _ Hst), owp_bind,
    (at_ext _ _ _ _ _ _ Hst).
  apply owp_bind. eapply owp_mono; [eapply at_lock; [exact Hend|exact Hst]|].
  intros r st' [-> H']. by apply owp_ret.
Qed.

Lemma at_respond_none r ll b x st :
  at_state ll b x st -> owp (v_SendResponse (Config.vtable S) r) (sees ll b x) st.
Proof.
  intros Hst. cbn. unfold SendResponse. apply owp_bind, (at_session _ _ _ _ _ Hst).
  by apply owp_ret.
Qed.

Lemma at_revoke r ms st :
  at_state (releasing l) (base_at EXECUTE_PHASE ms) ext0 st ->
  owp (RevokeOperation (Config.vtable S) r) (fun _ st' => sh_lock (st_shared st') = l') st.
Proof.
  intros Hst. unfold RevokeOperation. apply owp_bind, (at_base _ _ _ _ _ _ Hst).
  cbn [tc_oper_status_]. apply owp_bind. eapply owp_mono; [by apply at_release_exclusion|].
  intros r' st' [-> H']. rewrite bool_decide_eq_true_2 by done.
  eapply owp_mono; [by apply at_respond_none|]. by intros ? ? [].
Qed.

Lemma at_execute_list ms st :
  ms = [MSG_NOTIFY_CONFIGID] ->
  at_state (releasing l) (base_at EXECUTE_PHASE ms) ext0 st ->
  owp (v_Execute (Config.vtable S)) (sees (releasing l) (base_at EXECUTE_PHASE ms) ext0) st.
Proof.
  intros -> Hst. cbn [Config.vtable v_Execute]. unfold Execute.
  apply owp_bind, (at_base _ _ _ _ _ _ Hst). cbn [TcOperMessageList execute_list]. unfold create_msg.
  apply owp_bind, owp_bind, (at_base _ _ _ _ _ _ Hst), owp_ret.
  destruct (CreateInstance _ _ _) as [[c d]|]; [|by apply owp_ret].
  apply owp_bind. unfold Config.FillTcMsgData.
  apply owp_bind, (at_base _ _ _ _ _ _ Hst). cbn [tc_oper_].
  rewrite (bool_decide_eq_true_2 (TC_OP_CONFIG_RELEASE = _)) by done. apply owp_ret.
  cbn [fst snd]. rewrite (bool_decide_eq_true_2 (TC_OPER_SUCCESS = _)) by done. cbn [negb].
  apply owp_bind. eapply owp_mono; [by apply at_execute|]. intros [r o] st1 H1. cbn beta.
  assert (forall o, owp (delete_msg o) (sees (releasing l)
    (base_at EXECUTE_PHASE [MSG_NOTIFY_CONFIGID]) ext0) st1)
    as Hdel by (intros o'; by unfold owp, delete_msg).
  cbn [fst snd]. destruct (r !=? TCOPER_RET_SUCCESS).
  - apply owp_bind. eapply owp_mono; [apply Hdel|]. intros ? st2 H2.
    rewrite (bool_decide_eq_false_2 (MSG_NOTIFY_CONFIGID = _)) by done.
    apply owp_bind, owp_ret, owp_ret. exact H2.
  - rewrite (bool_decide_eq_false_2 (MSG_NOTIFY_CONFIGID = _)) by done.
    apply owp_bind, owp_ret, owp_bind. eapply owp_mono; [apply Hdel|].
    intros ? st2 H2. by apply owp_ret.
Qed.

(** From the collection of the messages on. *)
Lemma at_notify ph st :
  at_state (releasing l) (base_at ph []) ext0 st ->
  owp (Config.notify_phases S) (fun _ st' => sh_lock (st_shared st') = l') st.
Proof.
  intros Hst. unfold Config.notify_phases.
  apply owp_bind, (at_set_base _ _ _ _ _ _ Hst). intros st1 H1.
  unfold or_revoke at 1. apply owp_bind. unfold Config.TcCreateMsgList.
  apply owp_bind, (at_base _ _ _ _ _ _ H1). cbn [TcOperMessageList].
  apply owp_bind, (at_set_base _ _ _ _ _ _ H1). intros st2 H2. apply owp_ret.
  rewrite (bool_decide_eq_true_2 (TC_OPER_SUCCESS = _)) by done. cbn [negb].
  apply owp_bind, (at_set_base _ _ _ _ _ _ H2). intros st3 H3.
  cbn [op_session_id tc_oper_ TcOperMessageList audit_db_fail_ app] in H3.
  unfold or_revoke at 1. apply owp_bind. eapply owp_mono; [by apply at_execute_list|].
  intros r st4 H4. cbn beta in *. destruct (r !=? TC_OPER_SUCCESS); [by eapply at_revoke|].
  apply owp_bind, (at_set_base _ _ _ _ _ _ H4). intros st5 H5.
  unfold or_revoke at 1. apply owp_bind. eapply owp_mono; [by eapply at_release_exclusion|].
  intros r5 st6 [-> H6]. rewrite (bool_decide_eq_true_2 (TC_OPER_SUCCESS = _)) by done.
  cbn [negb]. apply owp_bind, (at_base _ _ _ _ _ _ H6). cbn [tc_oper_].
  rewrite (bool_decide_eq_true_2 (TC_OP_CONFIG_RELEASE = _)) by done.
  apply owp_bind. unfold Config.HandleConfigRelease. apply owp_bind.
  eapply owp_mono; [by apply at_statics|]. intros rq st7 H7. cbn beta in H7.
  assert (forall st8, sh_lock (st_shared st8) = l' -> st_srv st8 = None ->
    owp (v_SendResponse (Config.vtable S) TC_OPER_SUCCESS)
      (fun _ st' => sh_lock (st_shared st') = l') st8) as Hresp.
  { intros st8 El Es. cbn. unfold SendResponse. apply owp_bind. unfold owp at 1, session.
    rewrite Es. by apply owp_ret. }
  destruct H7 as (El & _ & _ & Es).
  destruct rq as [rq|]; [destruct (rq_cond rq)|]; by apply Hresp.
Qed.

(** Every way through the operation ends with the configuration free, also if
    the managers cannot be told. *)
Lemma at_dispatch st :
  at_state l (base_at INPUT_VALIDATION []) ext0 st ->
  owp (Config.Dispatch S) (fun _ st' => sh_lock (st_shared st') = l') st.
Proof.
  intros Hst. unfold Config.Dispatch.
  apply owp_bind, (at_set_base _ _ _ _ _ _ Hst). intros st1 H1.
  unfold or_revoke at 1. apply owp_bind. cbn [Config.vtable v_HandleArgs]. unfold HandleArgs.
  apply owp_bind, (at_session _ _ _ _ _ H1).
  apply owp_and_then. unfold Config.TcValidateOperType.
  apply owp_bind, (at_base _ _ _ _ _ _ H1). cbn [tc_oper_].
  rewrite (bool_decide_eq_false_2 (_ < TC_OP_CONFIG_ACQUIRE)) by done.
  rewrite (bool_decide_eq_false_2 (TC_OP_CONFIG_ACQUIRE_FORCE < _)) by done. cbn [orb].
  apply owp_ret. rewrite (bool_decide_eq_true_2 (TC_OPER_SUCCESS = _)) by done. apply owp_ret.
  rewrite (bool_decide_eq_true_2 (TC_OPER_SUCCESS = _)) by done. cbn [negb].
  apply owp_bind, (at_base _ _ _ _ _ _ H1). cbn [tc_oper_].
  rewrite (bool_decide_eq_false_2 (_ = TC_OP_CONFIG_ACQUIRE)) by done.
  apply owp_bind, owp_ret.
  rewrite (bool_decide_eq_false_2 (_ = TC_OP_CONFIG_ACQUIRE_TIMED)) by done.
  apply owp_bind, (at_set_base _ _ _ _ _ _ H1). intros st2 H2.
  unfold or_revoke at 1. apply owp_bind. unfold Config.TcGetExclusion.
  apply owp_bind, (at_base _ _ _ _ _ _ H2), owp_bind, (at_base _ _ _ _ _ _ H2), owp_bind,
    (at_ext _ _ _ _ _ _ H2). cbn [tc_oper_ op_session_id Config.config_id_].
  rewrite (bool_decide_eq_true_2 (TC_OP_CONFIG_RELEASE = _)) by done.
  apply owp_bind. eapply owp_mono; [eapply at_lock; [by apply (release_begins sid l)|exact H2]|].
  intros r st3 [-> H3]. rewrite (bool_decide_eq_true_2 (TC_LOCK_SUCCESS = _)) by done.
  cbn [negb]. apply owp_ret. rewrite (bool_decide_eq_true_2 (TC_OPER_SUCCESS = _)) by done.
  cbn [negb]. rewrite (bool_decide_eq_false_2 (_ = TC_OP_CONFIG_ACQUIRE_FORCE)) by done.
  cbn [orb]. apply owp_bind, owp_ret. by eapply at_notify.
Qed.

End Release.

(** *** The call of the session manager *)

Lemma ask_here {X A} (f : TcLock -> A) (st : OpSt D X) :
  owp (ask S f) (fun a st' => a = f (sh_lock (st_shared st)) /\
                   sh_lock (st_shared st') = sh_lock (st_shared st)) st.
Proof. unfold owp, ask, obind, interfere, oret. cbn. by rewrite Hun. Qed.

Lemma progress_free sid l :
  holds_configuration sid l -> GetSessionOperation sid l = TC_CONFIG_NO_NOTIFY_PROGRESS.
Proof.
  intros [Ha Ht Hs Hp Hn Hw Hc]. unfold GetSessionOperation. rewrite Hw, Ht, Hs, Hn.
  cbn [orb andb]. by rewrite bool_decide_eq_true_2.
Qed.

Lemma ReleaseConfigSession_frees sid (st : OpSt D Mod) :
  holds_configuration sid (sh_lock (st_shared st)) ->
  owp (ReleaseConfigSession S garbage this) (fun _ st' => unowned (sh_lock (st_shared st'))) st.
Proof.
  intros Hh. destruct (release_ends sid _ Hh) as (l' & Hend & Hun').
  unfold ReleaseConfigSession, TcModule.TcGetConfigSession. apply owp_bind, owp_bind.
  eapply owp_mono; [apply ask_here|]. intros p st1 [-> E1]. apply owp_ret.
  destruct (Hh) as [Ha Ht Hs _ _ _ _]. unfold GetConfigIdSessionId.
  rewrite Ha, Ht, Hs. rewrite (bool_decide_eq_true_2 (TC_ACT = _)) by done.
  cbn [negb fst snd api_ret]. apply owp_bind, owp_with_object.
  eapply owp_mono; [apply (at_dispatch sid (sh_lock (st_shared st)) l' Hh Hend); by repeat split|].
  cbn beta. intros r st2 E2. apply owp_ret. cbn. by rewrite E2.
Qed.

Lemma TcReleaseSession_frees sid (st : OpSt D Mod) :
  holds_configuration sid (sh_lock (st_shared st)) ->
  exists r st', TcModule.TcReleaseSession S garbage this sid st = Some (r, st') /\
    unowned (sh_lock (st_shared st')).
Proof.
  intros Hh. apply (total_owp _ (fun _ st' => unowned (sh_lock (st_shared st'))));
    [apply TcReleaseSession_total|].
  unfold TcModule.TcReleaseSession. apply owp_bind. eapply owp_mono; [apply ask_here|].
  intros state st1 [-> E1]. unfold GetUncCurrentState. rewrite (hc_state _ _ Hh).
  rewrite (bool_decide_eq_true_2 (TC_ACT = TC_ACT)) by done. cbn [negb andb].
  apply owp_bind. eapply owp_mono; [apply ask_here|]. intros pr st2 [-> E2].
  rewrite E1, (progress_free _ _ Hh). rewrite E1 in E2.
  apply owp_bind. eapply owp_mono; [apply (ReleaseConfigSession_frees sid); by rewrite E2|].
  cbn beta. intros r st3 H3. destruct (r ==? _); by apply owp_ret.
Qed.

(** ** Deleting a session *)

Section Deletion.

#[local] Existing Instance tc_module_sessions.

Context {Db : Type} (P : Platform Db (OpSt D Mod)) (Halone : alone P).

(** C24: a deleted session loses the configuration. The session manager and
    the coordinator together, with no other thread at work in either: if a
    session that holds the configuration is deleted by one that may do so, the
    lock of the session manager is granted, the coordinator is active and the
    session has no write, commit or notification in progress, the request
    succeeds, the session is gone from the table, and the coordinator has no
    configuration session any more - whatever UPLL and UPPL answer when they
    are told -, so that another session can acquire it. During a write of that
    session the coordinator only marks it. *)
Theorem deleted_session_frees_configuration (current target : usess_ipc_sess_id_t)
    (rest : list UsessValue) (st : USt Db (OpSt D Mod)) :
  let s := sessions_ (u_mod st) in
  granted P WriteLock st -> is_Some (table_ s !! id target) ->
  may_delete s (id current) (id target) ->
  holds_configuration (id target) (sh_lock (st_shared (u_tc st))) ->
  exists st', ipcService P (VSessDel current target :: rest) kUsessSessDel st
    = Some (USESS_E_OK, st') /\
    table_ (sessions_ (u_mod st')) !! id target = None /\
    unowned (sh_lock (st_shared (u_tc st'))).
Proof.
  intros s Hg Ht Hm Hh.
  change (exists st', UsessSessDelHandler P (VSessDel current target :: rest) st
    = Some (USESS_E_OK, st') /\ table_ (sessions_ (u_mod st')) !! id target = None /\
    unowned (sh_lock (st_shared (u_tc st')))).
  cbn -[USESS_LOCK]. pose proof (USESS_LOCK_alone P Halone WriteLock st) as El. cbv zeta in El.
  unfold granted in Hg. rewrite Hg in El. change (0 !=? 0) with false in El.
  rewrite (on_ok_run _ _ _ _ _ El). set (st1 := mkUSt _ _ _ _).
  rewrite (ubind_run (member sessions_) _ st1 s st1) by done.
  rewrite (on_ok_run (uret _) _ _ st1 st1)
    by (unfold uret; by rewrite (proj2 (Privilege_del s current target Ht))).
  destruct (TcReleaseSession_frees (id target) (u_tc st) Hh) as (r & t' & Er & Hu).
  assert (Del_id target st1 = Some (USESS_E_OK,
    mkUSt (set_sessions (set_table (delete (id target) (table_ s)) s) (u_mod st)) t' (u_out st)
      (u_log st1 ++ [ERelease (id target)]))) as Ed.
  { unfold Del_id. rewrite (ubind_run (member sessions_) _ st1 s st1) by done.
    rewrite (bool_decide_eq_true_2 _ Ht). cbn [negb].
    unfold ubind at 1, tc_instance. cbn [tc_present tc_module_sessions negb].
    unfold ubind at 1, TcReleaseSession. cbn [tc_release_session tc_module_sessions].
    change (u_tc st1) with (u_tc st). rewrite Er. done. }
  rewrite (on_ok_run _ _ _ _ _ Ed). eexists. split; [done|]. cbn.
  split; [by rewrite lookup_delete_eq|done].
Qed.

End Deletion.

End Coordinator.

(** ** Both modules at work *)

Module Both.

(** The session manager of [Sessions] beside the coordinator of [Scenario], in
    which session 5 holds configuration 1. *)
Definition platform : Platform Sessions.Db (OpSt Scenario.D Mod) := {|
  pl_odbc := Sessions.odbc;
  pl_crypt := Sessions.crypt;
  pl_regcomp := fun _ => 0;
  pl_regexec := fun _ s => (0, (0, Z.of_nat (String.length s)));
  pl_clock := fun log => (0, mkTimespec (1000 + Z.of_nat (length log)) 0);
  pl_lock := fun _ _ _ => 0;
  pl_output := fun _ _ => 0;
  pl_add_handler := fun _ => 0;
  pl_remove_handler := fun _ => 0;
  pl_reload := fun _ => (0, Sessions.file);
  pl_others := fun _ p => p
|}.

Definition session_of (i mode : Z) : usess_ipc_res_sess_info_t :=
  mkInfo (mkSessId i) USESS_TYPE_CLI mode USER_TYPE_ADMIN CONFIG_STATUS_NONE
    "login" "operator" 0 (mkTimespec 1000 0) "".

(** Session 1 is enabled. *)
Definition sessions : UsessSessions :=
  set_table {[1 := session_of 1 USESS_MODE_ENABLE; 5 := session_of 5 USESS_MODE_OPER]}
    UsessSessions_new.

Definition state : USt Sessions.Db (OpSt Scenario.D Mod) :=
  mkUSt (set_sessions sessions (Sessions.module_new Sessions.file)) Scenario.idle [] [].

End Both.

Lemma deleted_session_frees_configuration_witness :
  exists st', ipcService (H := tc_module_sessions Scenario.setting false 7) Both.platform
      [VSessDel (mkSessId 1) (mkSessId 5)] kUsessSessDel Both.state = Some (USESS_E_OK, st') /\
    table_ (sessions_ (u_mod st')) !! 5 = None /\
    unowned (sh_lock (st_shared (u_tc st'))).
Proof.
  apply (deleted_session_frees_configuration Scenario.setting false 7
    (fun log sh => eq_refl) Both.platform (fun log m t => eq_refl) (mkSessId 1) (mkSessId 5)).
  - reflexivity.
  - eexists. vm_compute. reflexivity.
  - right. exists (Both.session_of 1 USESS_MODE_ENABLE). split; [vm_compute; reflexivity|].
    left. reflexivity.
  - constructor; vm_compute; reflexivity.
Defined.
