(* ===== verification/CacheKeys.v ===== *)
(** * Keys of configuration nodes

    The drivers keep the configuration of a controller in a tree of nodes.
    [ConfUtil] ([modules/vtncacheutil/include/vtn_conf_utility.hh]) gives each
    kind of key its type, its name, its search key and the search key of its
    parent; [CacheElementUtil] ([vtn_conf_data_element_op.hh]) is a node's key,
    value and operation.  Names are the strings before their terminators. *)

From S2P Require Import Prelude.
From stdpp Require Import pretty.

Local Open Scope Z_scope.

(** ** Key types *)

Definition UNC_KT_ROOT : Z := 0.
Definition UNC_KT_FLOWLIST : Z := 1.
Definition UNC_KT_FLOWLIST_ENTRY : Z := 2.
Definition UNC_KT_VTN : Z := 8.
Definition UNC_KT_VBRIDGE : Z := 11.
Definition UNC_KT_VBR_VLANMAP : Z := 12.
Definition UNC_KT_VBR_FLOWFILTER : Z := 17.
Definition UNC_KT_VBR_FLOWFILTER_ENTRY : Z := 18.
Definition UNC_KT_VBR_IF : Z := 19.
Definition UNC_KT_VBRIF_FLOWFILTER : Z := 23.
Definition UNC_KT_VBRIF_FLOWFILTER_ENTRY : Z := 24.
Definition UNC_KT_VTERMINAL : Z := 33.
Definition UNC_KT_VTERM_IF : Z := 34.
Definition UNC_KT_VTERMIF_FLOWFILTER : Z := 37.
Definition UNC_KT_VTERMIF_FLOWFILTER_ENTRY : Z := 38.
Definition UNC_KT_VTN_FLOWFILTER : Z := 50.
Definition UNC_KT_VTN_FLOWFILTER_ENTRY : Z := 51.
Definition UNC_KT_CONTROLLER : Z := 512.
Definition UNC_KT_SWITCH : Z := 513.
Definition UNC_KT_PORT : Z := 514.
Definition UNC_KT_LINK : Z := 515.

(** ** Key structures *)

Record key_vtn_t := mkVtn { vtn_name : string }.
Record key_vbr_t := mkVbr { vbr_vtn_key : key_vtn_t; vbridge_name : string }.
Record key_vbr_if_t := mkVbrIf { if_vbr_key : key_vbr_t; vbr_if_name : string }.
Record key_vlan_map_t := mkVlanMap {
  vlan_vbr_key : key_vbr_t;
  logical_port_id : string;
  logical_port_id_valid : Z
}.
Record key_ctr_t := mkCtr { controller_name : string }.
Record key_switch_t := mkSwitch { sw_ctr_key : key_ctr_t; switch_id : string }.
Record key_port_t := mkPort { port_sw_key : key_switch_t; port_id : string }.
Record key_link_t := mkLink {
  link_ctr_key : key_ctr_t;
  switch_id1 : string;
  port_id1 : string;
  switch_id2 : string;
  port_id2 : string
}.
Record key_flowlist_t := mkFlowlist { flowlist_name : string }.
Record key_flowlist_entry_t := mkFlowlistEntry {
  fle_flowlist_key : key_flowlist_t;
  fle_sequence_num : Z
}.
Record key_vtn_flowfilter_t := mkVtnFf { vtnff_vtn_key : key_vtn_t; input_direction : Z }.
Record key_vtn_flowfilter_entry_t := mkVtnFfe {
  vtnffe_flowfilter_key : key_vtn_flowfilter_t;
  vtnffe_sequence_num : Z
}.
Record key_vbr_flowfilter_t := mkVbrFf { vbrff_vbr_key : key_vbr_t; vbrff_direction : Z }.
Record key_vbr_flowfilter_entry_t := mkVbrFfe {
  vbrffe_flowfilter_key : key_vbr_flowfilter_t;
  vbrffe_sequence_num : Z
}.
Record key_vbr_if_flowfilter_t := mkVbrIfFf {
  vbrifff_if_key : key_vbr_if_t;
  vbrifff_direction : Z
}.
Record key_vbr_if_flowfilter_entry_t := mkVbrIfFfe {
  vbrifffe_flowfilter_key : key_vbr_if_flowfilter_t;
  vbrifffe_sequence_num : Z
}.
Record key_vterm_t := mkVterm { vterm_vtn_key : key_vtn_t; vterminal_name : string }.
Record key_vterm_if_t := mkVtermIf { vtermif_vterm_key : key_vterm_t; vterm_if_name : string }.
Record key_vterm_if_flowfilter_t := mkVtermIfFf {
  vtermff_if_key : key_vterm_if_t;
  vtermff_direction : Z
}.
Record key_vterm_if_flowfilter_entry_t := mkVtermIfFfe {
  vtermffe_flowfilter_key : key_vterm_if_flowfilter_t;
  vtermffe_sequence_num : Z
}.

(** The overloads of the methods of [ConfUtil] are cases of these. *)
Inductive ConfKey :=
| KVtn (k : key_vtn_t) | KVbr (k : key_vbr_t) | KVbrIf (k : key_vbr_if_t)
| KVlanMap (k : key_vlan_map_t) | KSwitch (k : key_switch_t) | KPort (k : key_port_t)
| KLink (k : key_link_t) | KFlowlist (k : key_flowlist_t)
| KFlowlistEntry (k : key_flowlist_entry_t) | KVtnFf (k : key_vtn_flowfilter_t)
| KVtnFfe (k : key_vtn_flowfilter_entry_t) | KVbrFf (k : key_vbr_flowfilter_t)
| KVbrFfe (k : key_vbr_flowfilter_entry_t) | KVbrIfFf (k : key_vbr_if_flowfilter_t)
| KVbrIfFfe (k : key_vbr_if_flowfilter_entry_t) | KVterm (k : key_vterm_t)
| KVtermIf (k : key_vterm_if_t) | KVtermIfFf (k : key_vterm_if_flowfilter_t)
| KVtermIfFfe (k : key_vterm_if_flowfilter_entry_t).

(** ** [ConfUtil] *)

Definition get_key_type (k : ConfKey) : Z :=
  match k with
  | KVtn _ => UNC_KT_VTN
  | KVbr _ => UNC_KT_VBRIDGE
  | KVbrIf _ => UNC_KT_VBR_IF
  | KVlanMap _ => UNC_KT_VBR_VLANMAP
  | KSwitch _ => UNC_KT_SWITCH
  | KPort _ => UNC_KT_PORT
  | KLink _ => UNC_KT_LINK
  | KFlowlist _ => UNC_KT_FLOWLIST
  | KFlowlistEntry _ => UNC_KT_FLOWLIST_ENTRY
  | KVtnFf _ => UNC_KT_VTN_FLOWFILTER
  | KVtnFfe _ => UNC_KT_VTN_FLOWFILTER_ENTRY
  | KVbrFf _ => UNC_KT_VBR_FLOWFILTER
  | KVbrFfe _ => UNC_KT_VBR_FLOWFILTER_ENTRY
  | KVbrIfFf _ => UNC_KT_VBRIF_FLOWFILTER
  | KVbrIfFfe _ => UNC_KT_VBRIF_FLOWFILTER_ENTRY
  | KVterm _ => UNC_KT_VTERMINAL
  | KVtermIf _ => UNC_KT_VTERM_IF
  | KVtermIfFf _ => UNC_KT_VTERMIF_FLOWFILTER
  | KVtermIfFfe _ => UNC_KT_VTERMIF_FLOWFILTER_ENTRY
  end.

(** [snprintf(buff, 10, "%u", n)] *)
Definition print_u (n : Z) : string := String.substring 0 9 (pretty n).

(** The names that keys of several kinds are put together from. *)
Definition vbr_path (k : key_vbr_t) : string :=
  (vtn_name (vbr_vtn_key k) +:+ vbridge_name k)%string.
Definition vbr_if_path (k : key_vbr_if_t) : string :=
  (vbr_path (if_vbr_key k) +:+ vbr_if_name k)%string.
Definition vterm_path (k : key_vterm_t) : string :=
  (vtn_name (vterm_vtn_key k) +:+ vterminal_name k)%string.
Definition vterm_if_path (k : key_vterm_if_t) : string :=
  (vterm_path (vtermif_vterm_key k) +:+ vterm_if_name k)%string.
Definition switch_path (k : key_switch_t) : string :=
  (controller_name (sw_ctr_key k) +:+ switch_id k)%string.

Definition get_parent_key (k : ConfKey) : string :=
  match k with
  | KVtn _ | KSwitch _ | KLink _ | KFlowlist _ => "ROOT"
  | KVbr k => vtn_name (vbr_vtn_key k)
  | KVbrIf k => vbr_path (if_vbr_key k)
  | KVlanMap k => vbr_path (vlan_vbr_key k)
  | KPort k => switch_path (port_sw_key k)
  | KFlowlistEntry k => flowlist_name (fle_flowlist_key k)
  | KVtnFf k => vtn_name (vtnff_vtn_key k)
  | KVtnFfe k =>
      let f := vtnffe_flowfilter_key k in
      vtn_name (vtnff_vtn_key f) +:+ print_u (input_direction f)
  | KVbrFf k => vbr_path (vbrff_vbr_key k)
  | KVbrFfe k =>
      let f := vbrffe_flowfilter_key k in
      vbr_path (vbrff_vbr_key f) +:+ print_u (vbrff_direction f)
  | KVbrIfFf k => vbr_if_path (vbrifff_if_key k)
  | KVbrIfFfe k =>
      let f := vbrifffe_flowfilter_key k in
      vbr_if_path (vbrifff_if_key f) +:+ print_u (vbrifff_direction f)
  | KVterm k => vtn_name (vterm_vtn_key k)
  | KVtermIf k => vterm_path (vtermif_vterm_key k)
  | KVtermIfFf k => vterm_if_path (vtermff_if_key k)
  | KVtermIfFfe k =>
      let f := vtermffe_flowfilter_key k in
      vterm_if_path (vtermff_if_key f) +:+ print_u (vtermff_direction f)
  end%string.

(** The key of a VLAN map is the empty string: the variables that are assigned
    are those of the inner blocks. *)
Definition get_key (k : ConfKey) : string :=
  match k with
  | KVtn k => vtn_name k
  | KVbr k => vbridge_name k
  | KVbrIf k => vbr_if_name k
  | KVlanMap _ => ""
  | KSwitch k => switch_path k
  | KPort p => get_parent_key (KPort p) +:+ port_id p
  | KLink k =>
      controller_name (link_ctr_key k) +:+ switch_id1 k +:+ port_id1 k +:+ switch_id2 k
      +:+ port_id2 k
  | KFlowlist k => flowlist_name k
  | KFlowlistEntry k => flowlist_name (fle_flowlist_key k) +:+ print_u (fle_sequence_num k)
  | KVtnFf k => vtn_name (vtnff_vtn_key k) +:+ print_u (input_direction k)
  | KVtnFfe e => get_parent_key (KVtnFfe e) +:+ print_u (vtnffe_sequence_num e)
  | KVbrFf f => get_parent_key (KVbrFf f) +:+ print_u (vbrff_direction f)
  | KVbrFfe e => get_parent_key (KVbrFfe e) +:+ print_u (vbrffe_sequence_num e)
  | KVbrIfFf f => get_parent_key (KVbrIfFf f) +:+ print_u (vbrifff_direction f)
  | KVbrIfFfe e => get_parent_key (KVbrIfFfe e) +:+ print_u (vbrifffe_sequence_num e)
  | KVterm k => vterm_path k
  | KVtermIf k => get_parent_key (KVtermIf k) +:+ vterm_if_name k
  | KVtermIfFf f => get_parent_key (KVtermIfFf f) +:+ print_u (vtermff_direction f)
  | KVtermIfFfe e => get_parent_key (KVtermIfFfe e) +:+ print_u (vtermffe_sequence_num e)
  end%string.

(** [vlan_id] is [val.vm.vlan_id], the only part of a value that is used. *)
Definition get_search_key (k : ConfKey) (vlan_id : Z) : string :=
  match k with
  | KVbr k => vtn_name (vbr_vtn_key k) +:+ get_key (KVbr k)
  | KVbrIf k => get_parent_key (KVbrIf k) +:+ get_key (KVbrIf k)
  | KVlanMap k =>
      get_parent_key (KVlanMap k) +:+
      (if logical_port_id_valid k ==? 1 then logical_port_id k
       else "ANY." +:+ print_u vlan_id)
  | _ => get_key k
  end%string.

(** ** Elements *)

(** The kinds of values differ; what the cache looks at is the VLAN. *)
Class ValueStruct (V : Type) := vm_vlan_id : V -> Z.

Record CacheElementUtil (V : Type) := mkElement {
  key_ : ConfKey;
  value_ : V;
  element_operation_ : Z
}.
#[global] Arguments mkElement {V}.
#[global] Arguments key_ {V}.
#[global] Arguments value_ {V}.
#[global] Arguments element_operation_ {V}.

Definition set_val_structure {V} (v : V) (e : CacheElementUtil V) : CacheElementUtil V :=
  mkElement (key_ e) v (element_operation_ e).
