(* ===== verification/CacheTree.v ===== *)
(** * The configuration cache of the drivers

    [ConfigNode] ([modules/vtncacheutil/confignode.cc]), [KeyTree] and
    [CommonIterator] ([keytree.cc], [keytree.hh]): nodes form a tree below a
    root, a search map finds a node by its type and search key, and a vector
    holds the nodes to be iterated over or committed.  Tree, map and vector
    share the nodes: a node is a location in a heap, a pointer is an optional
    location.  Use of a node that was deleted has no result ([None]).

    [delete] of a node leaves its children alone, so that only an explicit
    traversal frees a subtree.  Traversals go down the tree; their fuel is one
    more than the number of levels that [key_tree_table] allows. *)

From S2P Require Import Prelude CacheKeys.
From stdpp Require Import sorting.

Local Open Scope Z_scope.

Inductive UncRespCode := UNC_RC_SUCCESS | UNC_DRV_RC_ERR_GENERIC.

#[export] Instance UncRespCode_eq_dec : EqDecision UncRespCode.
Proof. solve_decision. Defined.

(** ** Types of keys *)

Record key_tree := mkKeyTree { kt_id : Z; kt_parent : Z; kt_order : Z }.

Definition key_tree_table : list key_tree :=
  [mkKeyTree UNC_KT_CONTROLLER UNC_KT_ROOT 0;
   mkKeyTree UNC_KT_VTN UNC_KT_ROOT 1;
   mkKeyTree UNC_KT_VBRIDGE UNC_KT_VTN 0;
   mkKeyTree UNC_KT_VBR_IF UNC_KT_VBRIDGE 0;
   mkKeyTree UNC_KT_VBR_VLANMAP UNC_KT_VBRIDGE 1;
   mkKeyTree UNC_KT_SWITCH UNC_KT_ROOT 0;
   mkKeyTree UNC_KT_PORT UNC_KT_SWITCH 1;
   mkKeyTree UNC_KT_LINK UNC_KT_ROOT 0;
   mkKeyTree UNC_KT_FLOWLIST_ENTRY UNC_KT_FLOWLIST 0;
   mkKeyTree UNC_KT_VTN_FLOWFILTER UNC_KT_VTN 0;
   mkKeyTree UNC_KT_VTN_FLOWFILTER_ENTRY UNC_KT_VTN_FLOWFILTER 0;
   mkKeyTree UNC_KT_VBR_FLOWFILTER UNC_KT_VBRIDGE 0;
   mkKeyTree UNC_KT_VBR_FLOWFILTER_ENTRY UNC_KT_VBR_FLOWFILTER 0;
   mkKeyTree UNC_KT_VBRIF_FLOWFILTER UNC_KT_VBR_IF 0;
   mkKeyTree UNC_KT_VBRIF_FLOWFILTER_ENTRY UNC_KT_VBRIF_FLOWFILTER 0;
   mkKeyTree UNC_KT_VTERMINAL UNC_KT_VTN 6;
   mkKeyTree UNC_KT_VTERM_IF UNC_KT_VTERMINAL 0;
   mkKeyTree UNC_KT_VTERMIF_FLOWFILTER UNC_KT_VTERM_IF 0;
   mkKeyTree UNC_KT_VTERMIF_FLOWFILTER_ENTRY UNC_KT_VTERMIF_FLOWFILTER 0].

(** The first entry of the type. *)
Fixpoint find_parent (child_type : Z) (table : list key_tree) : Z :=
  match table with
  | [] => UNC_KT_ROOT
  | e :: rest => if kt_id e ==? child_type then kt_parent e else find_parent child_type rest
  end.
Definition get_parenttype (child_type : Z) : Z := find_parent child_type key_tree_table.

(** ** Nodes *)

Notation loc := positive.

(** A [RootNode] has no element. *)
Record ConfigNode (V : Type) := mkNode {
  element : option (CacheElementUtil V);
  child_list_ : gmap Z (list loc)
}.
#[global] Arguments mkNode {V}.
#[global] Arguments element {V}.
#[global] Arguments child_list_ {V}.

Record key_information := mkKeyInfo { info_key : string; info_type : Z }.

Definition type_le {A} : relation (Z * A) := fun p q => p.1 <= q.1.
#[export] Instance type_le_dec {A} : RelDecision (type_le (A := A)).
Proof. intros p q. unfold type_le. apply _. Defined.

(** The children in the order of iteration: by type, then as they were added. *)
Definition children_of (m : gmap Z (list loc)) : list loc :=
  concat (snd <$> merge_sort type_le (map_to_list m)).

(** ** The cache *)

(** [ConfigHashArr] is an array of maps. *)
Record KeyTree (V : Type) := mkCache {
  heap : gmap loc (ConfigNode V);
  ConfigHashArr : gmap (Z * string) loc;
  cfg_node_list_ : list loc;
  cfgnode_count_ : Z
}.
#[global] Arguments mkCache {V}.
#[global] Arguments heap {V}.
#[global] Arguments ConfigHashArr {V}.
#[global] Arguments cfg_node_list_ {V}.
#[global] Arguments cfgnode_count_ {V}.

(** The member [node_tree_]. *)
Definition node_tree_ : loc := 1%positive.

Definition K (V A : Type) : Type := KeyTree V -> option (A * KeyTree V).

Definition kret {V A} (a : A) : K V A := fun k => Some (a, k).
Definition kbind {V A B} (m : K V A) (f : A -> K V B) : K V B := fun k =>
  match m k with
  | Some (a, k1) => f a k1
  | None => None
  end.
Definition kstuck {V A} : K V A := fun _ => None.

Declare Scope cache_scope.
Delimit Scope cache_scope with cache.
Notation "'let@' x ':=' m 'in' k" := (kbind m (fun x => k))
  (at level 200, x binder, m at level 100, k at level 200, only parsing) : cache_scope.
Notation "'do@' m 'in' k" := (kbind m (fun _ => k))
  (at level 200, m at level 100, k at level 200, only parsing) : cache_scope.
#[global] Open Scope cache_scope.

Section Cache.

Context {V : Type} `{ValueStruct V}.
Implicit Types (p q : loc) (n : ConfigNode V).

Definition set_heap (h : gmap loc (ConfigNode V)) (k : KeyTree V) : KeyTree V :=
  mkCache h (ConfigHashArr k) (cfg_node_list_ k) (cfgnode_count_ k).
Definition set_hash (h : gmap (Z * string) loc) (k : KeyTree V) : KeyTree V :=
  mkCache (heap k) h (cfg_node_list_ k) (cfgnode_count_ k).
Definition set_list (l : list loc) (k : KeyTree V) : KeyTree V :=
  mkCache (heap k) (ConfigHashArr k) l (cfgnode_count_ k).
Definition set_count (c : Z) (k : KeyTree V) : KeyTree V :=
  mkCache (heap k) (ConfigHashArr k) (cfg_node_list_ k) c.

(** Access to the heap. *)
Definition kupdate (f : KeyTree V -> KeyTree V) : K V unit := fun k => Some (tt, f k).
Definition kget {A} (f : KeyTree V -> A) : K V A := fun k => Some (f k, k).
Definition load p : K V (ConfigNode V) := fun k =>
  match heap k !! p with
  | Some n => Some (n, k)
  | None => None
  end.
Definition store p n : K V unit := fun k =>
  match heap k !! p with
  | Some _ => Some (tt, set_heap (<[p := n]> (heap k)) k)
  | None => None
  end.
Definition delete_node p : K V unit := fun k =>
  match heap k !! p with
  | Some _ => Some (tt, set_heap (delete p (heap k)) k)
  | None => None
  end.

(** *** The virtual methods *)

Definition get_type_name n : Z :=
  match element n with Some e => get_key_type (key_ e) | None => UNC_KT_ROOT end.
Definition get_key_generate n : string :=
  match element n with Some e => get_search_key (key_ e) (vm_vlan_id (value_ e)) | None => "" end.
Definition get_key_name n : string :=
  match element n with Some e => get_key (key_ e) | None => "" end.
Definition get_parent_key_name n : string :=
  match element n with Some e => get_parent_key (key_ e) | None => "" end.

(** *** [ConfigNode] *)

Definition children n : list loc := children_of (child_list_ n).

(** The nodes below [p] are added to the vector, each before its children. *)
Fixpoint get_node_list (fuel : nat) p : K V (list loc) :=
  match fuel with
  | 0%nat => kstuck
  | S fuel' =>
      let@ n := load p in
      (fix go (l : list loc) : K V (list loc) :=
         match l with
         | [] => kret []
         | q :: l' =>
             let@ below := get_node_list fuel' q in
             let@ rest := go l' in
             kret (q :: below ++ rest)
         end) (children n)
  end.

Definition key_info n : key_information := mkKeyInfo (get_key_generate n) (get_type_name n).

(** The nodes below [p] are deleted, each after its children. *)
Fixpoint clear_child_list (fuel : nat) p : K V (list key_information) :=
  match fuel with
  | 0%nat => kstuck
  | S fuel' =>
      let@ n := load p in
      (fix go (l : list loc) : K V (list key_information) :=
         match l with
         | [] => kret []
         | q :: l' =>
             let@ below := clear_child_list fuel' q in
             let@ m := load q in
             do@ delete_node q in
             let@ rest := go l' in
             kret (below ++ key_info m :: rest)
         end) (children n)
  end.

(** [UNC_KT_ROOT] has no parent, and the longest branch of the table five
    levels below it. *)
Definition levels : nat := 6.

(** [node_list.erase(node_itr)] of the first that is equal. *)
Fixpoint erase_first p (l : list loc) : list loc :=
  match l with
  | [] => []
  | q :: l' => if q ==? p then l' else q :: erase_first p l'
  end.

(** The second result is what is added to [erased_key_list]. *)
Definition delete_child_node p (node_ptr : option loc)
    : K V (UncRespCode * list key_information) :=
  match node_ptr with
  | None => kret (UNC_DRV_RC_ERR_GENERIC, [])
  | Some q =>
      let@ m := load q in
      let@ n := load p in
      match child_list_ n !! get_type_name m with
      | None => kret (UNC_DRV_RC_ERR_GENERIC, [])
      | Some node_list =>
          if bool_decide (q ∈ node_list) then
            do@ store p (mkNode (element n)
                  (<[get_type_name m := erase_first q node_list]> (child_list_ n))) in
            let@ below := clear_child_list levels q in
            do@ delete_node q in
            kret (UNC_RC_SUCCESS, key_info m :: below)
          else kret (UNC_RC_SUCCESS, [])
      end
  end.

Definition add_child_to_list p (node_ptr : option loc) : K V UncRespCode :=
  match node_ptr with
  | None => kret UNC_DRV_RC_ERR_GENERIC
  | Some q =>
      let@ m := load q in
      let@ n := load p in
      let node_list := default [] (child_list_ n !! get_type_name m) in
      do@ store p (mkNode (element n)
            (<[get_type_name m := node_list ++ [q]]> (child_list_ n))) in
      kret UNC_RC_SUCCESS
  end.

(** *** [KeyTree] *)

(** The constructor; nodes of the caller may be in the heap already. *)
Definition KeyTree_new (h : gmap loc (ConfigNode V)) : KeyTree V :=
  mkCache (<[node_tree_ := mkNode None ∅]> h) {[(UNC_KT_ROOT, "ROOT"%string) := node_tree_]} [] 0.

Definition get_nodelist_keytree : K V UncRespCode :=
  do@ kupdate (set_list []) in
  let@ l := get_node_list levels node_tree_ in
  do@ kupdate (set_list l) in
  kret UNC_RC_SUCCESS.

(** No caller passes a null pointer. *)
Definition append_commit_node p : K V UncRespCode :=
  do@ kupdate (fun k => set_list (cfg_node_list_ k ++ [p]) k) in
  kret UNC_RC_SUCCESS.

Definition get_node_from_hash (key : string) (key_type : Z) : K V (option loc) :=
  kget (fun k => ConfigHashArr k !! (key_type, key)).

(** [std::map::insert] keeps an entry that exists. *)
Definition hash_insert (i : Z * string) p (h : gmap (Z * string) loc) : gmap (Z * string) loc :=
  match h !! i with Some _ => h | None => <[i := p]> h end.

Definition add_child_to_hash p : K V UncRespCode :=
  let@ n := load p in
  do@ kupdate (fun k =>
        set_hash (hash_insert (get_type_name n, get_key_generate n) p (ConfigHashArr k)) k) in
  kret UNC_RC_SUCCESS.

Definition add_node_to_tree (child_ptr : option loc) : K V UncRespCode :=
  match child_ptr with
  | None => kret UNC_DRV_RC_ERR_GENERIC
  | Some p =>
      let@ n := load p in
      let@ parent := get_node_from_hash (get_parent_key_name n)
                       (get_parenttype (get_type_name n)) in
      match parent with
      | None => kret UNC_DRV_RC_ERR_GENERIC
      | Some parent_ptr =>
          let@ err := add_child_to_list parent_ptr (Some p) in
          if err !=? UNC_RC_SUCCESS then kret UNC_DRV_RC_ERR_GENERIC
          else
            let@ err := add_child_to_hash p in
            do@ (if err ==? UNC_RC_SUCCESS
                 then kupdate (fun k => set_count (u32_inc (cfgnode_count_ k)) k)
                 else kret tt) in
            kret UNC_RC_SUCCESS
      end
  end.

(** A node that is there already is freed. *)
Definition append_audit_node (value_node : option loc) : K V UncRespCode :=
  match value_node with
  | None => kret UNC_DRV_RC_ERR_GENERIC
  | Some p =>
      let@ n := load p in
      let@ real := get_node_from_hash (get_key_generate n) (get_type_name n) in
      match real with
      | None =>
          let@ err := add_node_to_tree (Some p) in
          if err !=? UNC_RC_SUCCESS then kret UNC_DRV_RC_ERR_GENERIC else kret UNC_RC_SUCCESS
      | Some _ => do@ delete_node p in kret UNC_RC_SUCCESS
      end
  end.

(** The two methods for lists have the same body. *)
Fixpoint append_audit_configuration_list (value_list : list (option loc)) : K V UncRespCode :=
  match value_list with
  | [] => kret UNC_RC_SUCCESS
  | None :: _ => kret UNC_DRV_RC_ERR_GENERIC
  | Some p :: rest =>
      let@ err := append_audit_node (Some p) in
      if err !=? UNC_RC_SUCCESS then kret UNC_DRV_RC_ERR_GENERIC
      else append_audit_configuration_list rest
  end.
Definition append_physical_attribute_configuration_list := append_audit_configuration_list.

Definition append_Physical_attribute_node (value_node : option loc) : K V UncRespCode :=
  let@ err := append_audit_node value_node in
  if err !=? UNC_RC_SUCCESS then kret UNC_DRV_RC_ERR_GENERIC else kret UNC_RC_SUCCESS.

(** Ports, switches and links; their types are compared by name. *)
Definition is_physical (t : Z) : bool :=
  (t ==? UNC_KT_PORT) || (t ==? UNC_KT_SWITCH) || (t ==? UNC_KT_LINK).

(** The old value is deleted before the new one is copied: the node of the
    cache itself cannot be passed. *)
Definition update_physical_attribute_node (child_ptr : option loc) : K V UncRespCode :=
  match child_ptr with
  | None => kret UNC_DRV_RC_ERR_GENERIC
  | Some p =>
      let@ n := load p in
      let@ old := get_node_from_hash (get_key_name n) (get_type_name n) in
      match old with
      | None => kret UNC_DRV_RC_ERR_GENERIC
      | Some old_cfgptr =>
          if is_physical (get_type_name n) then
            let@ o := load old_cfgptr in
            if old_cfgptr ==? p then kstuck
            else match element n, element o with
            | Some e, Some eo =>
                do@ store old_cfgptr (mkNode (Some (set_val_structure (value_ e) eo))
                                        (child_list_ o)) in
                kret UNC_RC_SUCCESS
            | _, _ => kstuck
            end
          else kret UNC_DRV_RC_ERR_GENERIC
      end
  end.

Definition erase_keys (l : list key_information) (h : gmap (Z * string) loc)
    : gmap (Z * string) loc :=
  foldl (fun h i => delete (info_type i, info_key i) h) h l.

Definition delete_physical_attribute_node (child_ptr : option loc) : K V UncRespCode :=
  match child_ptr with
  | None => kret UNC_DRV_RC_ERR_GENERIC
  | Some p =>
      let@ n := load p in
      let@ parent := get_node_from_hash (get_parent_key_name n)
                       (get_parenttype (get_type_name n)) in
      match parent with
      | None => kret UNC_DRV_RC_ERR_GENERIC
      | Some parent_ptr =>
          let@ old := get_node_from_hash (get_key_name n) (get_type_name n) in
          match old with
          | None => kret UNC_DRV_RC_ERR_GENERIC
          | Some old_cfgptr =>
              if is_physical (get_type_name n) then
                let@ r := delete_child_node parent_ptr (Some old_cfgptr) in
                if r.1 !=? UNC_RC_SUCCESS then kret UNC_DRV_RC_ERR_GENERIC
                else
                  do@ kupdate (set_list []) in
                  do@ kupdate (fun k => set_hash (erase_keys r.2 (ConfigHashArr k)) k) in
                  kret UNC_RC_SUCCESS
              else kret UNC_DRV_RC_ERR_GENERIC
          end
      end
  end.

(** The node that is found, if any. *)
Definition compare_is_physical_node_found (new_compare_node : option loc) : K V (option loc) :=
  match new_compare_node with
  | None => kret None
  | Some p =>
      let@ n := load p in
      get_node_from_hash (get_key_name n) (get_type_name n)
  end.

Definition clear_root_cache : K V unit := kupdate (set_hash ∅).

Fixpoint delete_all (l : list loc) : K V unit :=
  match l with
  | [] => kret tt
  | p :: l' => do@ delete_node p in delete_all l'
  end.

Definition clear_audit_commit_cache : K V unit :=
  let@ l := kget cfg_node_list_ in
  do@ (if l ==? [] then (do@ get_nodelist_keytree in kret tt) else kret tt) in
  let@ l := kget cfg_node_list_ in
  do@ delete_all l in
  kupdate (set_list []).

(** The destructor, before the members go. *)
Definition KeyTree_destroy : K V unit :=
  do@ clear_root_cache in
  do@ clear_audit_commit_cache in
  kupdate (set_count 0).

(** *** [CommonIterator]

    An iterator is its index.  The second result is the node it points to. *)

Definition KeyTree_item (i : nat) : K V (option loc) := kget (fun k => cfg_node_list_ k !! i).
Definition FirstItem : K V (nat * option loc) :=
  let@ x := KeyTree_item 0 in kret (0%nat, x).
Definition IsDone (i : nat) : K V bool :=
  kget (fun k => negb (bool_decide (i < length (cfg_node_list_ k))%nat)).
Definition NextItem (i : nat) : K V (nat * option loc) :=
  let@ b := IsDone (S i) in
  let@ x := (if b : bool then kret None else KeyTree_item (S i)) in kret (S i, x).
Definition AuditFirstItem : K V (nat * option loc) :=
  do@ get_nodelist_keytree in
  let@ x := KeyTree_item 0 in kret (0%nat, x).

Definition PhysicalNodeFirstItem := AuditFirstItem.

(** The loops of the clients: the nodes from [i] on, given how many rounds. *)
Fixpoint iterate (rounds : nat) (i : nat) (p : option loc) : K V (list (option loc)) :=
  let@ b := IsDone i in
  if b : bool then kret []
  else match rounds with
       | 0%nat => kstuck
       | S r =>
           let@ next := NextItem i in
           let@ rest := iterate r next.1 next.2 in
           kret (p :: rest)
       end.

Definition audit_cfg_list_count : K V Z := kget cfgnode_count_.

End Cache.
