(* ===== verification/CacheProps.v ===== *)
(** * The tree, the search map and the heap

    What holds of a cache between two operations ([tree_ok]): search map and
    tree have the same nodes, each at the place its key says.  The levels of
    the types make the tree well-founded; traversals reach every node below a
    node exactly once. *)

From stdpp Require Import relations.
From S2P Require Import Prelude CacheKeys CacheTree.
From stdpp Require Import sorting relations.

Local Open Scope Z_scope.

(** ** Levels *)

Fixpoint climb (fuel : nat) (t : Z) : nat :=
  match fuel with
  | 0%nat => 0
  | S fuel' => if t ==? UNC_KT_ROOT then 0 else S (climb fuel' (get_parenttype t))
  end%nat.
Definition level (t : Z) : nat := climb levels t.

Lemma level_parent (c : ConfKey) :
  level (get_key_type c) = S (level (get_parenttype (get_key_type c))).
Proof. by destruct c. Qed.

Lemma level_bound (c : ConfKey) : (level (get_key_type c) < levels)%nat.
Proof. destruct c; unfold levels; vm_compute; lia. Qed.

(** ** Lists of children *)

Lemma concat_pairs_NoDup (l : list (Z * list loc)) :
  NoDup l.*1 -> Forall (fun x => NoDup x.2) l ->
  (forall t t' ps ps' p, (t, ps) ∈ l -> (t', ps') ∈ l -> p ∈ ps -> p ∈ ps' -> t = t') ->
  NoDup (concat l.*2).
Proof.
  induction l as [|[t ps] l IH]; cbn; intros Hk Hn Hd; [constructor|].
  apply NoDup_cons in Hk as [Hk Hk']. apply Forall_cons in Hn as [Hn Hn'].
  apply NoDup_app. split_and!; [done| |].
  - intros p Hp Hin. apply list_elem_of_In, in_concat in Hin as (ps' & Hps' & Hin).
    apply list_elem_of_In in Hps'. apply list_elem_of_In in Hin.
    apply list_elem_of_fmap in Hps' as ([t' ps''] & -> & Hl). cbn in Hin.
    assert (t = t') as -> by (eapply Hd; [by left|by right|done|done]).
    apply Hk, list_elem_of_fmap. by exists (t', ps'').
  - apply IH; [done..|]. intros t1 t2 ps1 ps2 p H1 H2 H3 H4. eapply Hd; [by right|by right|done|done].
Qed.

Lemma sorted_elem (m : gmap Z (list loc)) t ps :
  (t, ps) ∈ merge_sort type_le (map_to_list m) <-> m !! t = Some ps.
Proof. rewrite merge_sort_Permutation. apply elem_of_map_to_list. Qed.

Lemma children_of_elem (m : gmap Z (list loc)) p :
  p ∈ children_of m <-> exists t ps, m !! t = Some ps /\ p ∈ ps.
Proof.
  unfold children_of. rewrite list_elem_of_In, in_concat. setoid_rewrite <- list_elem_of_In.
  split.
  - intros (ps & Hps & Hp). apply list_elem_of_fmap in Hps as ([t ps'] & -> & Hin).
    exists t, ps'. by rewrite <- sorted_elem.
  - intros (t & ps & Hm & Hp). exists ps. split; [|done].
    apply list_elem_of_fmap. exists (t, ps). by rewrite sorted_elem.
Qed.

Lemma children_of_NoDup (m : gmap Z (list loc)) :
  (forall t ps, m !! t = Some ps -> NoDup ps) ->
  (forall t t' ps ps' p, m !! t = Some ps -> m !! t' = Some ps' -> p ∈ ps -> p ∈ ps' -> t = t') ->
  NoDup (children_of m).
Proof.
  intros Hn Hd. apply concat_pairs_NoDup.
  - rewrite merge_sort_Permutation. apply NoDup_fst_map_to_list.
  - apply Forall_forall. intros [t ps] Hin. apply (Hn t ps). by apply sorted_elem.
  - intros t t' ps ps' p H1 H2. apply sorted_elem in H1, H2. eauto.
Qed.

Lemma erase_first_elem p q (l : list loc) :
  NoDup l -> q ∈ erase_first p l <-> q ∈ l /\ q <> p.
Proof.
  induction 1 as [|x l Hx Hl IH]; cbn; [set_solver|].
  case_bool_decide as E; [subst|]; set_solver.
Qed.

Lemma erase_first_NoDup p (l : list loc) : NoDup l -> NoDup (erase_first p l).
Proof.
  induction 1 as [|x l Hx Hl IH]; cbn; [constructor|]. case_bool_decide; [done|].
  constructor; [|done]. rewrite erase_first_elem; [|done]. by intros [? _].
Qed.

Section Tree.

Context {V : Type} `{ValueStruct V}.
Implicit Types (p q : loc) (n m : ConfigNode V) (e : CacheElementUtil V).

(** ** Places *)

Definition ident e : Z * string :=
  (get_key_type (key_ e), get_search_key (key_ e) (vm_vlan_id (value_ e))).
Definition parent_ident e : Z * string :=
  (get_parenttype (get_key_type (key_ e)), get_parent_key (key_ e)).
Definition root_ident : Z * string := (UNC_KT_ROOT, "ROOT"%string).

Record tree_ok (h : gmap loc (ConfigNode V)) (H : gmap (Z * string) loc) : Prop := {
  ok_root : exists n, h !! node_tree_ = Some n /\ element n = None;
  ok_root_hash : forall i, H !! i = Some node_tree_ <-> i = root_ident;
  ok_hash : forall i p, H !! i = Some p -> p <> node_tree_ ->
    exists n e, h !! p = Some n /\ element n = Some e /\ ident e = i;
  ok_child : forall q n t l p, h !! q = Some n -> child_list_ n !! t = Some l -> p ∈ l ->
    exists m e, h !! p = Some m /\ element m = Some e /\ get_key_type (key_ e) = t /\
      H !! ident e = Some p /\ H !! parent_ident e = Some q;
  ok_parent : forall i p m e, H !! i = Some p -> h !! p = Some m -> element m = Some e ->
    exists q n l, H !! parent_ident e = Some q /\ h !! q = Some n /\
      child_list_ n !! get_key_type (key_ e) = Some l /\ p ∈ l;
  ok_nodup : forall q n t l, h !! q = Some n -> child_list_ n !! t = Some l -> NoDup l
}.

Section Ok.

Context (h : gmap loc (ConfigNode V)) (H0 : gmap (Z * string) loc) (Hok : tree_ok h H0).

Definition is_child q p : Prop := exists n, h !! q = Some n /\ p ∈ children n.

Definition lv p : nat :=
  match h !! p with Some n => level (get_type_name n) | None => 0 end.

Lemma child_found q p :
  is_child q p -> exists m e, h !! p = Some m /\ element m = Some e /\
    H0 !! ident e = Some p /\ H0 !! parent_ident e = Some q.
Proof.
  intros (n & Hn & Hp). apply children_of_elem in Hp as (t & l & Hl & Hp).
  destruct (ok_child _ _ Hok q n t l p Hn Hl Hp) as (m & e & Hm & He & _ & Hh & Hq). eauto 6.
Qed.

Lemma hash_type i q n : H0 !! i = Some q -> h !! q = Some n -> get_type_name n = i.1.
Proof.
  intros Hi Hn. destruct (decide (q = node_tree_)) as [->|Hq].
  - destruct (ok_root _ _ Hok) as (n' & Hn' & He). simplify_eq.
    apply (ok_root_hash _ _ Hok) in Hi as ->. unfold get_type_name. by rewrite He.
  - destruct (ok_hash _ _ Hok i q Hi Hq) as (n' & e & Hn' & He & <-). simplify_eq.
    unfold get_type_name. by rewrite He.
Qed.

Lemma child_level q p : is_child q p -> lv p = S (lv q).
Proof.
  intros Hc. destruct (child_found q p Hc) as (m & e & Hm & He & Hp & Hq).
  destruct Hc as (n & Hn & _). unfold lv. rewrite Hm, Hn, (hash_type _ q n Hq Hn).
  unfold get_type_name. rewrite He. apply level_parent.
Qed.

Lemma lv_bound p : (lv p < levels)%nat.
Proof.
  unfold lv, get_type_name. destruct (h !! p) as [n|]; [|unfold levels; lia].
  destruct (element n); [apply level_bound|]. unfold levels. vm_compute. lia.
Qed.

Lemma child_unique q q' p : is_child q p -> is_child q' p -> q = q'.
Proof.
  intros H1 H2. destruct (child_found q p H1) as (m & e & Hm & He & _ & Hq).
  destruct (child_found q' p H2) as (m' & e' & Hm' & He' & _ & Hq'). by simplify_eq.
Qed.

Lemma below_level c p : rtc is_child c p -> (lv c <= lv p)%nat.
Proof. induction 1 as [|x y z Hc _ IH]; [done|]. apply child_level in Hc. lia. Qed.

Lemma below_lt c p : tc is_child c p -> (lv c < lv p)%nat.
Proof. induction 1 as [x y Hc|x y z Hc _ IH]; apply child_level in Hc; lia. Qed.

Lemma same_level c1 c2 p :
  rtc is_child c1 p -> rtc is_child c2 p -> lv c1 = lv c2 -> c1 = c2.
Proof.
  intros R1. revert c2.
  apply (rtc_ind_r (R := is_child) (fun p => forall c2, rtc is_child c2 p -> lv c1 = lv c2 -> c1 = c2) c1);
    [| |done].
  - intros c2 [->|(y & Hy & Hc)]%rtc_inv_r Hl; [done|].
    apply below_level in Hy. apply child_level in Hc. lia.
  - intros y z R Hc IH c2 [->|(y' & Hy' & Hc')]%rtc_inv_r Hl.
    + apply below_level in R. apply child_level in Hc. lia.
    + rewrite (child_unique _ _ _ Hc' Hc) in Hy'. auto.
Qed.

Lemma children_NoDup q n : h !! q = Some n -> NoDup (children n).
Proof.
  intros Hn. apply children_of_NoDup; [intros t ps; by apply (ok_nodup _ _ Hok q n)|].
  intros t t' ps ps' p H1 H2 Hp Hp'.
  destruct (ok_child _ _ Hok q n t ps p Hn H1 Hp) as (m & e & Hm & He & Ht & _).
  destruct (ok_child _ _ Hok q n t' ps' p Hn H2 Hp') as (m' & e' & Hm' & He' & Ht' & _).
  congruence.
Qed.

(** ** Traversals *)

Definition kids q : list loc := match h !! q with Some n => children n | None => [] end.

Lemma kids_elem q p : p ∈ kids q <-> is_child q p.
Proof.
  unfold kids, is_child. destruct (h !! q) as [n|]; [naive_solver|]. set_solver.
Qed.

(** A node before or after the nodes below it. *)
Fixpoint pre (f : nat) q : list loc :=
  match f with
  | 0%nat => []
  | S f' => concat ((fun c => c :: pre f' c) <$> kids q)
  end.
Fixpoint post (f : nat) q : list loc :=
  match f with
  | 0%nat => []
  | S f' => concat ((fun c => post f' c ++ [c]) <$> kids q)
  end.

Lemma pre_post f q : pre f q ≡ₚ post f q.
Proof.
  revert q. induction f as [|f IH]; intros q; cbn; [done|].
  induction (kids q) as [|c l IHl]; cbn; [done|].
  rewrite IHl, (IH c). by rewrite <- app_assoc, Permutation_middle.
Qed.

Lemma concat_map_elem {A B} (g : A -> list B) (l : list A) (b : B) :
  b ∈ concat (g <$> l) <-> exists a, a ∈ l /\ b ∈ g a.
Proof.
  rewrite list_elem_of_In, in_concat. setoid_rewrite <- list_elem_of_In.
  setoid_rewrite list_elem_of_fmap. naive_solver.
Qed.

Lemma pre_elem f q p :
  (levels <= f + lv q)%nat -> p ∈ pre f q <-> tc is_child q p.
Proof.
  revert q. induction f as [|f IH]; intros q Hf.
  - pose proof (lv_bound q). lia.
  - cbn [pre]. rewrite concat_map_elem. split.
    + intros (c & Hc & Hp). apply kids_elem in Hc. apply elem_of_cons in Hp as [->|Hp].
      { by apply tc_once. }
      apply IH in Hp; [|pose proof (child_level q c Hc); lia]. by eapply tc_l.
    + intros Ht. assert (exists c, is_child q c /\ rtc is_child c p) as (c & Hc & R).
      { destruct Ht as [x y Hc|x y z Hc Ht]; exists y; [done|].
        split; [done|by apply tc_rtc]. }
      exists c. split; [by apply kids_elem|]. apply elem_of_cons.
      apply rtc_tc in R as [->|R]; [by left|]. right.
      apply IH; [pose proof (child_level q c Hc); lia|done].
Qed.

Lemma concat_map_NoDup {A B} (g : A -> list B) (l : list A) :
  NoDup l -> (forall a, a ∈ l -> NoDup (g a)) ->
  (forall a a' b, a ∈ l -> a' ∈ l -> b ∈ g a -> b ∈ g a' -> a = a') ->
  NoDup (concat (g <$> l)).
Proof.
  induction 1 as [|x l Hx Hl IH]; cbn; intros Hn Hd; [constructor|].
  apply NoDup_app. split_and!.
  - apply Hn. by left.
  - intros b Hb Hin. apply concat_map_elem in Hin as (a & Ha & Hb').
    apply Hx. rewrite (Hd x a b); [done|by left|by right|done|done].
  - apply IH; [intros; apply Hn; by right|]. intros a a' b H1 H2. apply Hd; by right.
Qed.

Lemma pre_NoDup f q : (levels <= f + lv q)%nat -> NoDup (pre f q).
Proof.
  revert q. induction f as [|f IH]; intros q Hf; [constructor|]. cbn [pre].
  assert (forall c p, c ∈ kids q -> p ∈ c :: pre f c -> rtc is_child c p) as Hr.
  { intros c p Hc Hp. apply kids_elem, child_level in Hc.
    apply elem_of_cons in Hp as [->|Hp]; [done|]. apply pre_elem in Hp; [|lia].
    by apply tc_rtc. }
  apply concat_map_NoDup.
  - unfold kids. destruct (h !! q) as [n|] eqn:Hn; [|constructor]. by eapply children_NoDup.
  - intros c Hc. apply kids_elem, child_level in Hc. apply NoDup_cons.
    split; [|apply IH; lia]. rewrite pre_elem by lia. intros Ht.
    apply below_lt in Ht. lia.
  - intros c c' p Hc Hc' Hp Hp'. apply (same_level c c' p); [by apply Hr..|].
    apply kids_elem, child_level in Hc, Hc'. lia.
Qed.

End Ok.

End Tree.

(** ** Runs of the traversals

    In a cache that is in order, the recursive methods of [ConfigNode] return
    and do what the traversals [pre] and [post] describe. *)

Section Runs.

Context {V : Type} `{ValueStruct V}.
Implicit Types (p q c : loc) (n m : ConfigNode V) (k : KeyTree V).

(** ** Freeing *)

Definition free (l : list loc) (h : gmap loc (ConfigNode V)) : gmap loc (ConfigNode V) :=
  foldl (fun h p => delete p h) h l.

Lemma free_app l1 l2 h : free (l1 ++ l2) h = free l2 (free l1 h).
Proof. apply foldl_app. Qed.

Lemma free_lookup l h p : free l h !! p = if bool_decide (p ∈ l) then None else h !! p.
Proof.
  revert h. induction l as [|q l IH]; intros h; [done|].
  change (free (q :: l) h) with (free l (delete q h)). rewrite IH.
  destruct (decide (p = q)) as [->|Hpq].
  - rewrite (bool_decide_eq_true_2 (q ∈ q :: l)) by by left.
    rewrite lookup_delete_eq. by destruct (bool_decide _).
  - rewrite lookup_delete_ne by done. by rewrite (bool_decide_ext (p ∈ q :: l) (p ∈ l)) by set_solver.
Qed.

Lemma free_notin l h p : p ∉ l -> free l h !! p = h !! p.
Proof. intros Hp. by rewrite free_lookup, bool_decide_eq_false_2. Qed.

Lemma load_run p n k : heap k !! p = Some n -> load p k = Some (n, k).
Proof. intros Hp. unfold load. by rewrite Hp. Qed.

Lemma delete_run p n k :
  heap k !! p = Some n -> delete_node p k = Some (tt, set_heap (free [p] (heap k)) k).
Proof. intros Hp. unfold delete_node. by rewrite Hp. Qed.

Lemma kbind_run {A B} (m : K V A) (f : A -> K V B) k a k1 :
  m k = Some (a, k1) -> kbind m f k = f a k1.
Proof. intros E. unfold kbind. by rewrite E. Qed.

Lemma set_heap_heap k : set_heap (heap k) k = k.
Proof. by destruct k. Qed.

(** ** Collecting nodes *)

Section InOrder.

Context (h : gmap loc (ConfigNode V)) (H0 : gmap (Z * string) loc) (Hok : tree_ok h H0).

Lemma child_alive q c : is_child h q c -> is_Some (h !! c).
Proof. intros Hc. destruct (child_found h H0 Hok q c Hc) as (m & e & -> & _). by eexists. Qed.

Lemma get_node_list_run f q k :
  heap k = h -> is_Some (h !! q) -> (levels <= f + lv h q)%nat ->
  get_node_list f q k = Some (pre h f q, k).
Proof.
  revert q. induction f as [|f IH]; intros q Hh [n Hn] Hf.
  - pose proof (lv_bound h q). lia.
  - cbn [get_node_list]. rewrite (kbind_run _ _ _ n k) by (by apply load_run; rewrite Hh).
    cbn [pre]. unfold kids. rewrite Hn.
    assert (forall c, c ∈ children n -> is_child h q c) as Hc by (intros c ?; by exists n).
    induction (children n) as [|c l IHl]; [done|].
    assert (is_child h q c) as Hqc by (apply Hc; by left).
    rewrite (kbind_run _ _ _ (pre h f c) k).
    2:{ apply IH; [done|by eapply child_alive|].
        pose proof (child_level h H0 Hok q c Hqc). lia. }
    erewrite kbind_run by (apply IHl; intros c' ?; apply Hc; by right). done.
Qed.

(** ** Clearing *)

Definition infos (l : list loc) : list key_information :=
  omap (fun p => key_info <$> h !! p) l.

Lemma clear_child_list_run f q k :
  (forall p, rtc (is_child h) q p -> heap k !! p = h !! p) -> is_Some (h !! q) ->
  (levels <= f + lv h q)%nat ->
  clear_child_list f q k = Some (infos (post h f q), set_heap (free (post h f q) (heap k)) k).
Proof.
  revert q k. induction f as [|f IH]; intros q k Hh [n Hn] Hf.
  - pose proof (lv_bound h q). lia.
  - cbn [clear_child_list]. rewrite (kbind_run _ _ _ n k) by (by apply load_run; rewrite Hh).
    cbn [post]. unfold kids. rewrite Hn.
    assert (forall c p, c ∈ children n -> rtc (is_child h) c p -> heap k !! p = h !! p) as Hb.
    { intros c p Hc R. apply Hh. eapply rtc_l; [|done]. by exists n. }
    assert (forall c, c ∈ children n -> is_child h q c) as Hc by (intros c ?; by exists n).
    assert (NoDup (children n)) as Hnd by by eapply children_NoDup.
    clear Hh. revert k Hb. induction Hnd as [|c l Hcl Hnd IHl]; intros k Hb.
    { cbn. by rewrite set_heap_heap. }
    assert (is_child h q c) as Hqc by (apply Hc; by left).
    pose proof (child_level h H0 Hok q c Hqc) as Hlv.
    assert (forall p, p ∈ post h f c ++ [c] -> rtc (is_child h) c p) as Hpost.
    { intros p [Hp|Hp]%elem_of_app.
      - rewrite <- pre_post, (pre_elem h H0 Hok) in Hp by lia. by apply tc_rtc.
      - apply list_elem_of_singleton in Hp as ->. done. }
    assert (c ∉ post h f c) as Hcc.
    { rewrite <- pre_post, (pre_elem h H0 Hok) by lia. intros Ht.
      apply (below_lt h H0 Hok) in Ht. lia. }
    destruct (child_alive q c Hqc) as [m Hm].
    erewrite kbind_run by (apply IH; [intros p R; apply (Hb c p); [by left|done]|by eexists|lia]).
    assert (heap (set_heap (free (post h f c) (heap k)) k) !! c = Some m) as Hm'.
    { cbn. rewrite free_notin, (Hb c c) by (done || by left). done. }
    rewrite (kbind_run _ _ _ m _ (load_run _ _ _ Hm')).
    rewrite (kbind_run _ _ _ _ _ (delete_run _ _ _ Hm')). cbn [heap set_heap].
    rewrite <- free_app. erewrite kbind_run.
    2:{ apply IHl; [intros c' ?; apply Hc; by right|]. intros c' p Hc' R. cbn.
        rewrite free_notin; [apply (Hb c' p); [by right|done]|]. intros Hp.
        assert (c = c') as ->; [|done]. apply (same_level h H0 Hok c c' p); [by apply Hpost|done|].
        rewrite Hlv. symmetry. apply (child_level h H0 Hok), Hc. by right. }
    cbn [heap set_heap fmap list_fmap concat]. rewrite <- free_app. unfold kret, infos.
    rewrite !omap_app. cbn [omap list_omap]. rewrite Hm. cbn [fmap option_fmap option_map].
    apply f_equal, f_equal2; [|done]. by rewrite <- app_assoc.
Qed.

End InOrder.

End Runs.
