(* ===== verification/CacheOps.v ===== *)
(** * Changes of the cache

    The elementary changes of heap and search map that the operations consist
    of keep the cache in order: a node is added below its parent, its value is
    replaced, a node outside the tree is freed, a node is removed with all
    nodes below it. *)

From S2P Require Import Prelude CacheKeys CacheTree CacheProps.
From stdpp Require Import relations.

Local Open Scope Z_scope.

Section Changes.

Context {V : Type} `{ValueStruct V}.
Implicit Types (p q c : loc) (n m : ConfigNode V) (e : CacheElementUtil V).
Implicit Types (h : gmap loc (ConfigNode V)) (idx : gmap (Z * string) loc).

(** A node that the search map does not know. *)
Definition detached idx p : Prop := forall i, idx !! i <> Some p.

Lemma key_type_not_root (c : ConfKey) : get_key_type c <> UNC_KT_ROOT.
Proof. by destruct c. Qed.

Lemma ident_not_root e : ident e <> root_ident.
Proof. intros E. apply (f_equal fst) in E. by apply key_type_not_root in E. Qed.

Lemma detached_not_root h idx p : tree_ok h idx -> detached idx p -> p <> node_tree_.
Proof. intros Hok Hd ->. apply (Hd root_ident). by apply (ok_root_hash _ _ Hok). Qed.

Lemma hash_alive h idx i p : tree_ok h idx -> idx !! i = Some p -> is_Some (h !! p).
Proof.
  intros Hok Hi. destruct (decide (p = node_tree_)) as [->|Hp].
  - destruct (ok_root _ _ Hok) as (n & -> & _). by eexists.
  - destruct (ok_hash _ _ Hok i p Hi Hp) as (n & e & -> & _). by eexists.
Qed.

Lemma hash_inj h idx i j p : tree_ok h idx -> idx !! i = Some p -> idx !! j = Some p -> i = j.
Proof.
  intros Hok Hi Hj. destruct (decide (p = node_tree_)) as [->|Hp].
  - apply (ok_root_hash _ _ Hok) in Hi, Hj. congruence.
  - destruct (ok_hash _ _ Hok i p Hi Hp) as (n & e & Hn & He & <-).
    destruct (ok_hash _ _ Hok j p Hj Hp) as (n' & e' & Hn' & He' & <-). by simplify_eq.
Qed.

(** ** A new node *)

Definition with_child q p (t : Z) (nq : ConfigNode V) h : gmap loc (ConfigNode V) :=
  <[q := mkNode (element nq) (<[t := default [] (child_list_ nq !! t) ++ [p]]>
          (child_list_ nq))]> h.

Section Add.

Context h idx (Hok : tree_ok h idx) (p q : loc) (n nq : ConfigNode V) (e : CacheElementUtil V).
Context (Hp : h !! p = Some n) (He : element n = Some e) (Hd : detached idx p).
Context (Hnew : idx !! ident e = None) (Hpar : idx !! parent_ident e = Some q).
Context (Hq : h !! q = Some nq).

Notation t := (get_key_type (key_ e)).
Notation h' := (with_child q p t nq h).
Notation idx' := (<[ident e := p]> idx).

Lemma add_lookup x m : h' !! x = Some m ->
  exists m0, h !! x = Some m0 /\ element m = element m0 /\
    (forall t' l, child_list_ m !! t' = Some l ->
       child_list_ m0 !! t' = Some l \/
       x = q /\ t' = t /\ l = default [] (child_list_ nq !! t) ++ [p]).
Proof.
  unfold with_child. destruct (decide (x = q)) as [->|Hx].
  - rewrite lookup_insert_eq. intros [= <-]. exists nq. cbn. split_and!; [done..|].
    intros t' l. destruct (decide (t' = t)) as [->|Ht].
    + rewrite lookup_insert_eq. intros [= <-]. auto.
    + rewrite lookup_insert_ne by done. auto.
  - rewrite lookup_insert_ne by done. intros Hm. eauto.
Qed.

Lemma add_same x m0 : h !! x = Some m0 -> exists m, h' !! x = Some m /\ element m = element m0 /\
  forall t' l, child_list_ m0 !! t' = Some l -> exists l', child_list_ m !! t' = Some l' /\
    forall y, y ∈ l -> y ∈ l'.
Proof.
  intros Hx. unfold with_child. destruct (decide (x = q)) as [->|Hne].
  - rewrite lookup_insert_eq. eexists. split; [done|]. simplify_eq. split; [done|]. cbn.
    intros t' l Hl. destruct (decide (t' = t)) as [->|Ht].
    + rewrite lookup_insert_eq, Hl. eexists. split; [done|]. set_solver.
    + rewrite lookup_insert_ne by done. eauto.
  - rewrite lookup_insert_ne by done. eauto 6.
Qed.

Lemma add_hash i x : idx' !! i = Some x <-> (i = ident e /\ x = p) \/ idx !! i = Some x.
Proof.
  destruct (decide (i = ident e)) as [->|Hi].
  - rewrite lookup_insert_eq, Hnew. naive_solver.
  - rewrite lookup_insert_ne by done. naive_solver.
Qed.

Lemma tree_ok_add : tree_ok h' idx'.
Proof.
  pose proof (detached_not_root _ _ _ Hok Hd) as Hpr. split.
  - destruct (ok_root _ _ Hok) as (r & Hr & Her). destruct (add_same _ _ Hr) as (r' & Hr' & Ee & _).
    exists r'. by rewrite Ee.
  - intros i. rewrite add_hash, (ok_root_hash _ _ Hok). naive_solver.
  - intros i x [[-> ->]|Hi]%add_hash Hx.
    + destruct (add_same _ _ Hp) as (m & Hm & Ee & _). exists m, e. by rewrite Ee.
    + destruct (ok_hash _ _ Hok i x Hi Hx) as (m0 & ex & Hm0 & Hex & <-).
      destruct (add_same _ _ Hm0) as (m & Hm & Ee & _). exists m, ex. by rewrite Ee.
  - intros x m t' l y Hm Hl Hy. destruct (add_lookup x m Hm) as (m0 & Hm0 & _ & Hch).
    assert (y = p /\ x = q /\ t' = t \/ exists l0, child_list_ m0 !! t' = Some l0 /\ y ∈ l0)
      as [(-> & -> & ->)|(l0 & Hl0 & Hy0)].
    { destruct (Hch _ _ Hl) as [Hl0|(-> & -> & ->)]; [eauto|].
      apply elem_of_app in Hy as [Hy|Hy%list_elem_of_singleton]; [|by auto].
      assert (m0 = nq) as -> by congruence.
      destruct (child_list_ nq !! t) eqn:E; [eauto|set_solver]. }
    + destruct (add_same _ _ Hp) as (m' & Hm' & Ee & _). exists m', e.
      rewrite Ee, !add_hash. split_and!; auto.
    + destruct (ok_child _ _ Hok x m0 t' l0 y Hm0 Hl0 Hy0) as (my & ey & Hmy & Hey & Ht & Hi & Hpi).
      destruct (add_same _ _ Hmy) as (m' & Hm' & Ee & _). exists m', ey.
      rewrite Ee, !add_hash. split_and!; auto.
  - intros i x m ex Hi Hm Hex. destruct (add_lookup x m Hm) as (m0 & Hm0 & Ee & _).
    rewrite Ee in Hex. apply add_hash in Hi as [[-> ->]|Hi].
    + simplify_eq. unfold with_child. exists q. eexists _, _. rewrite add_hash, lookup_insert_eq.
      split_and!; [by right|done|cbn; by rewrite lookup_insert_eq|set_solver].
    + destruct (ok_parent _ _ Hok i x m0 ex Hi Hm0 Hex) as (y & my & l & Hy & Hmy & Hl & Hx).
      destruct (add_same _ _ Hmy) as (m' & Hm' & _ & Hch). destruct (Hch _ _ Hl) as (l' & Hl' & Hsub).
      exists y, m', l'. rewrite add_hash. auto.
  - intros x m t' l Hm Hl. destruct (add_lookup x m Hm) as (m0 & Hm0 & _ & Hch).
    destruct (Hch _ _ Hl) as [Hl0|(-> & -> & ->)]; [by eapply (ok_nodup _ _ Hok)|].
    assert (p ∉ default [] (child_list_ nq !! t)) as Hnin.
    { destruct (child_list_ nq !! t) as [l0|] eqn:E; [|set_solver]. cbn. intros Hin.
      destruct (ok_child _ _ Hok q nq t l0 p Hq E Hin) as (? & ex & _ & _ & _ & Hi & _).
      by apply (Hd (ident ex)). }
    apply NoDup_app. split_and!; [|set_solver|by apply NoDup_singleton].
    destruct (child_list_ nq !! t) as [l0|] eqn:E; [|constructor].
    exact (ok_nodup _ _ Hok q nq t l0 Hq E).
Qed.

End Add.

(** ** A new value *)

Section Replace.

Context h idx (Hok : tree_ok h idx) (p : loc) (n : ConfigNode V) (e e' : CacheElementUtil V).
Context (Hp : h !! p = Some n) (He : element n = Some e) (Hkey : key_ e' = key_ e).
Context (Hid : ident e' = ident e).

Notation h' := (<[p := mkNode (Some e') (child_list_ n)]> h).

Lemma replace_parent : parent_ident e' = parent_ident e.
Proof. unfold parent_ident. by rewrite Hkey. Qed.

(** Nodes keep their children and their places. *)
Lemma replace_lookup x m : h' !! x = Some m ->
  exists m0, h !! x = Some m0 /\ child_list_ m = child_list_ m0 /\
    match element m, element m0 with
    | Some a, Some b =>
        ident a = ident b /\ parent_ident a = parent_ident b /\
        get_key_type (key_ a) = get_key_type (key_ b)
    | None, None => True
    | _, _ => False
    end.
Proof.
  destruct (decide (x = p)) as [->|Hx].
  - rewrite lookup_insert_eq. intros [= <-]. exists n. rewrite He. cbn.
    by rewrite replace_parent, Hkey, Hid.
  - rewrite lookup_insert_ne by done. intros Hm. exists m. by destruct (element m).
Qed.

Lemma replace_same x m0 : h !! x = Some m0 ->
  exists m, h' !! x = Some m /\ child_list_ m = child_list_ m0 /\
    forall b, element m0 = Some b -> exists a, element m = Some a /\ ident a = ident b /\
      parent_ident a = parent_ident b /\ get_key_type (key_ a) = get_key_type (key_ b).
Proof.
  intros Hx. destruct (decide (x = p)) as [->|Hne].
  - rewrite lookup_insert_eq. assert (m0 = n) as -> by congruence. eexists. split; [done|].
    split; [done|]. intros b Hb. assert (b = e) as -> by congruence. exists e'.
    by rewrite replace_parent, Hkey, Hid.
  - rewrite lookup_insert_ne by done. eauto 9.
Qed.

Lemma tree_ok_replace : tree_ok h' idx.
Proof.
  split; try apply Hok.
  - destruct (ok_root _ _ Hok) as (r & Hr & Her). rewrite lookup_insert_ne; [eauto|].
    intros ->. congruence.
  - intros i x Hi Hx. destruct (ok_hash _ _ Hok i x Hi Hx) as (m0 & b & Hm0 & Hb & <-).
    destruct (replace_same _ _ Hm0) as (m & Hm & _ & Hel). destruct (Hel b Hb) as (a & Ha & E & _).
    eauto.
  - intros q nq t l x Hq Hl Hx. destruct (replace_lookup _ _ Hq) as (nq0 & Hq0 & Ec & _).
    rewrite Ec in Hl.
    destruct (ok_child _ _ Hok q nq0 t l x Hq0 Hl Hx) as (m0 & b & Hm0 & Hb & Ht & Hi & Hpi).
    destruct (replace_same _ _ Hm0) as (m & Hm & _ & Hel).
    destruct (Hel b Hb) as (a & Ha & E1 & E2 & E3). exists m, a. rewrite E1, E2, E3. auto.
  - intros i x m a Hi Hm Ha. destruct (replace_lookup _ _ Hm) as (m0 & Hm0 & _ & Hel).
    rewrite Ha in Hel. destruct (element m0) as [b|] eqn:Hb; [|done].
    destruct Hel as (_ & E2 & E3). rewrite E2, E3.
    destruct (ok_parent _ _ Hok i x m0 b Hi Hm0 Hb) as (q & nq & l & Hq & Hnq & Hl & Hx).
    destruct (replace_same _ _ Hnq) as (nq' & Hnq' & Ec & _). exists q, nq', l. by rewrite Ec.
  - intros q nq t l Hq Hl. destruct (replace_lookup _ _ Hq) as (nq0 & Hq0 & Ec & _).
    rewrite Ec in Hl. by eapply (ok_nodup _ _ Hok).
Qed.

End Replace.

(** ** Freeing a node outside the tree *)

Lemma tree_ok_free h idx p : tree_ok h idx -> detached idx p -> tree_ok (delete p h) idx.
Proof.
  intros Hok Hd. pose proof (detached_not_root _ _ _ Hok Hd) as Hr.
  assert (forall i x, idx !! i = Some x -> delete p h !! x = h !! x) as Hkeep.
  { intros i x Hi. apply lookup_delete_ne. intros <-. by apply (Hd i). }
  assert (forall x m, delete p h !! x = Some m -> h !! x = Some m) as Hsub.
  { intros x m. apply lookup_delete_Some. }
  split; try apply Hok.
  - destruct (ok_root _ _ Hok) as (r & Hroot & He). exists r. by rewrite lookup_delete_ne.
  - intros i x Hi Hx. rewrite (Hkeep i x Hi). by apply (ok_hash _ _ Hok).
  - intros q n t l x Hq Hl Hx. apply Hsub in Hq.
    destruct (ok_child _ _ Hok q n t l x Hq Hl Hx) as (m & e & Hm & He & Ht & Hi & Hpi).
    exists m, e. by rewrite (Hkeep _ _ Hi).
  - intros i x m e Hi Hm He. apply Hsub in Hm.
    destruct (ok_parent _ _ Hok i x m e Hi Hm He) as (q & n & l & Hq & Hn & Hl & Hx).
    exists q, n, l. by rewrite (Hkeep _ _ Hq).
  - intros q n t l Hq. apply Hsub in Hq. by apply (ok_nodup _ _ Hok q n).
Qed.

(** ** Removing a node and all below it *)

Section Remove.

Context h idx (Hok : tree_ok h idx) (p q : loc) (nq : ConfigNode V) (t : Z) (l D : list loc).
Context (Hq : h !! q = Some nq) (Hl : child_list_ nq !! t = Some l) (Hp : p ∈ l).
Context (HD : forall x, x ∈ D <-> rtc (is_child h) p x).

Notation h' := (free D (<[q := mkNode (element nq) (<[t := erase_first p l]> (child_list_ nq))]> h)).

Context (idx' : gmap (Z * string) loc).
Context (Hidx : forall i x, idx' !! i = Some x <-> idx !! i = Some x /\ x ∉ D).

Lemma remove_is_child : is_child h q p.
Proof. exists nq. split; [done|]. apply children_of_elem. eauto. Qed.

Lemma remove_above : q ∉ D.
Proof.
  rewrite HD. intros R%(below_level h idx Hok).
  pose proof (child_level h idx Hok q p remove_is_child). lia.
Qed.

Lemma remove_root : node_tree_ ∉ D.
Proof.
  rewrite HD. intros R%(below_level h idx Hok).
  pose proof (child_level h idx Hok q p remove_is_child) as E. unfold lv at 2 in R.
  destruct (ok_root _ _ Hok) as (r & Hr & He). rewrite Hr in R. unfold get_type_name in R.
  rewrite He in R. change (level UNC_KT_ROOT) with 0%nat in R. lia.
Qed.

(** What stays is closed. *)
Lemma remove_closed x y : x ∉ D -> is_child h x y -> y <> p -> y ∉ D.
Proof.
  rewrite !HD. intros Hx Hc Hy [->|(z & R & Hz)]%rtc_inv_r; [done|].
  by rewrite (child_unique h idx Hok _ _ _ Hc Hz) in Hx.
Qed.

Lemma remove_lookup x m : h' !! x = Some m ->
  x ∉ D /\ exists m0, h !! x = Some m0 /\ element m = element m0 /\
    forall t' l', child_list_ m !! t' = Some l' ->
      exists l0, child_list_ m0 !! t' = Some l0 /\ NoDup l' /\
        forall y, y ∈ l' <-> y ∈ l0 /\ (x = q -> t' = t -> y <> p).
Proof.
  rewrite free_lookup. case_bool_decide as Hx; [done|]. intros Hm. split; [done|].
  destruct (decide (x = q)) as [->|Hxq].
  - rewrite lookup_insert_eq in Hm. injection Hm as <-. exists nq. cbn. split_and!; [done..|].
    intros t' l' Hl'. pose proof (ok_nodup _ _ Hok q nq t l Hq Hl) as Hn.
    destruct (decide (t' = t)) as [->|Ht].
    + rewrite lookup_insert_eq in Hl'. injection Hl' as <-. exists l. split; [done|].
      split; [by apply erase_first_NoDup|]. intros y. rewrite erase_first_elem by done. naive_solver.
    + rewrite lookup_insert_ne in Hl' by done. exists l'. split; [done|].
      split; [by eapply (ok_nodup _ _ Hok)|]. naive_solver.
  - rewrite lookup_insert_ne in Hm by done. exists m. split_and!; [done..|].
    intros t' l' Hl'. exists l'. split; [done|]. split; [by eapply (ok_nodup _ _ Hok)|]. naive_solver.
Qed.

Lemma remove_same x m0 : x ∉ D -> h !! x = Some m0 ->
  exists m, h' !! x = Some m /\ element m = element m0 /\
    forall t' l0 y, child_list_ m0 !! t' = Some l0 -> y ∈ l0 -> y <> p ->
      exists l', child_list_ m !! t' = Some l' /\ y ∈ l'.
Proof.
  intros Hx Hm. rewrite free_notin by done. destruct (decide (x = q)) as [->|Hxq].
  - rewrite lookup_insert_eq. assert (m0 = nq) as -> by congruence. eexists. split; [done|].
    split; [done|]. cbn. intros t' l0 y Hl0 Hy Hyp. destruct (decide (t' = t)) as [->|Ht].
    + rewrite lookup_insert_eq. eexists. split; [done|].
      rewrite erase_first_elem by by eapply (ok_nodup _ _ Hok). split; [congruence|done].
    + rewrite lookup_insert_ne by done. eauto.
  - rewrite lookup_insert_ne by done. eauto 6.
Qed.

Lemma tree_ok_remove : tree_ok h' idx'.
Proof.
  split.
  - destruct (ok_root _ _ Hok) as (r & Hr & Her).
    destruct (remove_same _ _ remove_root Hr) as (r' & Hr' & Ee & _). exists r'. by rewrite Ee.
  - intros i. rewrite Hidx, (ok_root_hash _ _ Hok). pose proof remove_root. tauto.
  - intros i x [Hi HxD]%Hidx Hx. destruct (ok_hash _ _ Hok i x Hi Hx) as (m0 & e & Hm0 & He & <-).
    destruct (remove_same _ _ HxD Hm0) as (m & Hm & Ee & _). exists m, e. by rewrite Ee.
  - intros x m t' l' y Hm Hl' Hy. destruct (remove_lookup x m Hm) as (HxD & m0 & Hm0 & _ & Hch).
    destruct (Hch _ _ Hl') as (l0 & Hl0 & _ & Hsub). apply Hsub in Hy as [Hy Hyp].
    destruct (ok_child _ _ Hok x m0 t' l0 y Hm0 Hl0 Hy) as (my & e & Hmy & He & Ht & Hi & Hpi).
    assert (is_child h x y) as Hc by (exists m0; split; [done|]; apply children_of_elem; eauto).
    assert (y ∉ D) as HyD.
    { apply (remove_closed x y HxD Hc). intros ->.
      pose proof (child_unique h idx Hok _ _ _ Hc remove_is_child) as ->. apply Hyp; [done| |done].
      destruct (ok_child _ _ Hok q nq t l p Hq Hl Hp) as (mp & ep & Hmp & Hep & <- & _).
      congruence. }
    destruct (remove_same _ _ HyD Hmy) as (m' & Hm' & Ee & _). exists m', e.
    rewrite Ee, !Hidx. auto 7.
  - intros i x m e [Hi HxD]%Hidx Hm He. destruct (remove_lookup x m Hm) as (_ & m0 & Hm0 & Ee & _).
    rewrite Ee in He. destruct (ok_parent _ _ Hok i x m0 e Hi Hm0 He) as (y & my & l0 & Hy & Hmy & Hl0 & Hx).
    assert (is_child h y x) as Hc by (exists my; split; [done|]; apply children_of_elem; eauto).
    assert (y ∉ D) as HyD.
    { rewrite HD. intros R. apply HxD, HD. by eapply rtc_r. }
    assert (x <> p) as Hxp by (intros ->; apply HxD, HD; done).
    destruct (remove_same _ _ HyD Hmy) as (m' & Hm' & _ & Hch).
    destruct (Hch _ _ x Hl0 Hx Hxp) as (l' & Hl' & Hx'). exists y, m', l'. rewrite Hidx. auto.
  - intros x m t' l' Hm Hl'. destruct (remove_lookup x m Hm) as (_ & m0 & _ & _ & Hch).
    by destruct (Hch _ _ Hl') as (l0 & _ & Hn & _).
Qed.

End Remove.

End Changes.
