(* ===== verification/CacheSpec.v ===== *)
(** * What the cache promises

    The abstract state of a cache is a finite map from the identity of a node
    (type and search key) to its element.  Adding, updating and deleting nodes
    refine operations on that map. *)

From S2P Require Import Prelude CacheKeys CacheTree CacheProps CacheOps.
From stdpp Require Import relations.

Local Open Scope Z_scope.

Section Spec.

Context {V : Type} `{ValueStruct V}.
Implicit Types (p q c : loc) (n m : ConfigNode V) (e o : CacheElementUtil V) (k : KeyTree V).

Notation Entries := (gmap (Z * string) (CacheElementUtil V)).
Implicit Type E : Entries.

(** ** The abstract operations *)

Definition has_place e E : bool :=
  (parent_ident e ==? root_ident) || bool_decide (is_Some (E !! parent_ident e)).

Definition spec_append e E : UncRespCode * Entries :=
  if bool_decide (is_Some (E !! ident e)) then (UNC_RC_SUCCESS, E)
  else if has_place e E then (UNC_RC_SUCCESS, <[ident e := e]> E)
  else (UNC_DRV_RC_ERR_GENERIC, E).

(** Updates and deletions name a node by its type and key. *)
Definition name_ident e : Z * string := (get_key_type (key_ e), get_key (key_ e)).

Definition spec_update e E : UncRespCode * Entries :=
  match E !! name_ident e with
  | Some o =>
      if is_physical (get_key_type (key_ e))
      then (UNC_RC_SUCCESS, <[name_ident e := set_val_structure (value_ e) o]> E)
      else (UNC_DRV_RC_ERR_GENERIC, E)
  | None => (UNC_DRV_RC_ERR_GENERIC, E)
  end.

(** [j] is [i] or lies below it. *)
Fixpoint under (fuel : nat) E (i j : Z * string) : bool :=
  (j ==? i) ||
  match fuel with
  | 0%nat => false
  | S fuel' => match E !! j with
               | Some e => under fuel' E i (parent_ident e)
               | None => false
               end
  end.

Definition without (i : Z * string) E : Entries :=
  filter (fun x => under levels E i x.1 = false) E.

(** A node whose parent is not the one that its name is taken to say stays; the
    answer then depends on the other children of that parent. *)
Definition spec_delete e E (r : UncRespCode) E' : Prop :=
  match E !! name_ident e with
  | Some o =>
      if has_place e E && is_physical (get_key_type (key_ e)) then
        if parent_ident o ==? parent_ident e
        then r = UNC_RC_SUCCESS /\ E' = without (name_ident e) E
        else E' = E
      else r = UNC_DRV_RC_ERR_GENERIC /\ E' = E
  | None => r = UNC_DRV_RC_ERR_GENERIC /\ E' = E
  end.

(** ** The state *)

Definition node_element (h : gmap loc (ConfigNode V)) p : option (CacheElementUtil V) :=
  h !! p ≫= element.

Definition entries k : Entries := omap (node_element (heap k)) (ConfigHashArr k).

Record cache_ok k : Prop := {
  co_tree : tree_ok (heap k) (ConfigHashArr k);
  co_list : Forall (fun p => is_Some (heap k !! p)) (cfg_node_list_ k);
  co_nodup : NoDup (cfg_node_list_ k)
}.

Lemma entries_lookup k i e :
  entries k !! i = Some e <->
  exists p n, ConfigHashArr k !! i = Some p /\ heap k !! p = Some n /\ element n = Some e.
Proof.
  unfold entries. rewrite lookup_omap. unfold node_element.
  destruct (ConfigHashArr k !! i) as [p|]; cbn; [|naive_solver].
  destruct (heap k !! p) as [n|] eqn:En; cbn; naive_solver.
Qed.

Section Ok.

Context k (Hok : cache_ok k).
Notation h := (heap k).
Notation idx := (ConfigHashArr k).
Notation tok := (co_tree k Hok).

Lemma entries_ident i e : entries k !! i = Some e -> ident e = i.
Proof.
  intros (p & n & Hi & Hn & He)%entries_lookup.
  assert (p <> node_tree_) as Hp.
  { intros ->. destruct (ok_root _ _ tok) as (r & Hr & Her). congruence. }
  destruct (ok_hash _ _ tok i p Hi Hp) as (n' & e' & Hn' & He' & <-). congruence.
Qed.

(** The search map knows the entries and the root. *)
Lemma hash_entry i p :
  idx !! i = Some p -> i <> root_ident ->
  exists n e, h !! p = Some n /\ element n = Some e /\ entries k !! i = Some e.
Proof.
  intros Hi Hr. assert (p <> node_tree_) as Hp.
  { intros ->. by apply (ok_root_hash _ _ tok) in Hi. }
  destruct (ok_hash _ _ tok i p Hi Hp) as (n & e & Hn & He & _).
  exists n, e. split_and!; [done..|]. apply entries_lookup. eauto.
Qed.

Lemma entries_none i : i <> root_ident -> entries k !! i = None <-> idx !! i = None.
Proof.
  intros Hr. split; intros E.
  - destruct (idx !! i) as [p|] eqn:Hi; [|done].
    destruct (hash_entry i p Hi Hr) as (n & e & _ & _ & He). congruence.
  - destruct (entries k !! i) as [e|] eqn:He; [|done].
    apply entries_lookup in He as (p & n & Hi & _). congruence.
Qed.

Lemma has_place_hash e : has_place e (entries k) = bool_decide (is_Some (idx !! parent_ident e)).
Proof.
  unfold has_place. destruct (decide (parent_ident e = root_ident)) as [E|E].
  - rewrite (bool_decide_eq_true_2 _ E). symmetry. apply bool_decide_eq_true_2. rewrite E.
    exists node_tree_. by apply (ok_root_hash _ _ tok).
  - rewrite (bool_decide_eq_false_2 _ E). apply bool_decide_ext.
    rewrite <- !not_eq_None_Some. by rewrite entries_none.
Qed.

(** *** Below *)

Lemma parent_is_child i p n e :
  idx !! i = Some p -> h !! p = Some n -> element n = Some e ->
  exists q, idx !! parent_ident e = Some q /\ is_child h q p.
Proof.
  intros Hi Hn He. destruct (ok_parent _ _ tok i p n e Hi Hn He) as (q & m & l & Hq & Hm & Hl & Hp).
  exists q. split; [done|]. exists m. split; [done|]. apply children_of_elem. eauto.
Qed.

Lemma under_rtc i q : idx !! i = Some q -> forall f j p,
  idx !! j = Some p -> (lv h p <= f)%nat ->
  under f (entries k) i j = true <-> rtc (is_child h) q p.
Proof.
  intros Hi. induction f as [|f IH]; intros j p Hj Hf; cbn [under];
    (destruct (decide (j = i)) as [->|Hne];
     [rewrite bool_decide_eq_true_2 by done; assert (p = q) as -> by congruence; done|]);
    rewrite bool_decide_eq_false_2 by done; cbn [orb].
  - split; [done|]. intros [->|(y & _ & Hc)]%rtc_inv_r.
    + by destruct Hne; eapply hash_inj; [apply tok|..].
    + apply (child_level h idx tok) in Hc. lia.
  - split.
    + destruct (entries k !! j) as [e|] eqn:Ee; [|done]. intros Hu.
      apply entries_lookup in Ee as (p' & n & Hp' & Hn & He). assert (p' = p) as -> by congruence.
      destruct (parent_is_child j p n e Hj Hn He) as (y & Hy & Hc).
      apply (IH _ y Hy) in Hu; [by eapply rtc_r|].
      apply (child_level h idx tok) in Hc. lia.
    + intros [->|(y & R & Hc)]%rtc_inv_r.
      { by destruct Hne; eapply hash_inj; [apply tok|..]. }
      destruct (child_found h idx tok y p Hc) as (m & e & Hm & He & _ & Hy).
      assert (entries k !! j = Some e) as -> by (apply entries_lookup; eauto).
      apply (IH _ y Hy); [|done]. apply (child_level h idx tok) in Hc. lia.
Qed.

End Ok.

End Spec.

(** ** The operations refine the abstract map *)

Section Refine.

Context {V : Type} `{ValueStruct V}.
Implicit Types (p q c : loc) (n m : ConfigNode V) (e o : CacheElementUtil V) (k : KeyTree V).

Lemma entries_eq k E :
  (forall i e, (exists p n, ConfigHashArr k !! i = Some p /\ heap k !! p = Some n /\
                  element n = Some e) <-> E !! i = Some e) ->
  entries k = E.
Proof. intros HE. apply map_eq. intros i. apply option_eq. intros e. by rewrite entries_lookup. Qed.

(** The pieces of a node's description. *)
Lemma node_idents n e : element n = Some e ->
  (get_type_name n, get_key_generate n) = ident e /\
  (get_parenttype (get_type_name n), get_parent_key_name n) = parent_ident e /\
  (get_type_name n, get_key_name n) = name_ident e.
Proof.
  intros He. unfold get_type_name, get_key_generate, get_parent_key_name, get_key_name.
  by rewrite He.
Qed.

(** A node the caller made and hands over. *)
Record handed k p e : Prop := {
  hd_node : exists n, heap k !! p = Some n /\ element n = Some e;
  hd_detached : detached (ConfigHashArr k) p;
  hd_list : p ∉ cfg_node_list_ k
}.

Lemma list_alive_insert (h : gmap loc (ConfigNode V)) q n l :
  Forall (fun p => is_Some (h !! p)) l -> Forall (fun p => is_Some (<[q := n]> h !! p)) l.
Proof.
  intros Hl. eapply Forall_impl; [exact Hl|]. intros p Hp. cbn in *. destruct (decide (p = q)) as [->|Hpq].
  - rewrite lookup_insert_eq. by eexists.
  - by rewrite lookup_insert_ne.
Qed.

(** ** Adding *)

Lemma add_child_to_list_run p q k n nq :
  heap k !! p = Some n -> heap k !! q = Some nq ->
  add_child_to_list q (Some p) k
  = Some (UNC_RC_SUCCESS, set_heap (with_child q p (get_type_name n) nq (heap k)) k).
Proof.
  intros Hp Hq. unfold add_child_to_list.
  rewrite (kbind_run _ _ _ _ _ (load_run _ _ _ Hp)), (kbind_run _ _ _ _ _ (load_run _ _ _ Hq)).
  unfold kbind, store. by rewrite Hq.
Qed.

Lemma add_child_to_hash_run p k n :
  heap k !! p = Some n ->
  add_child_to_hash p k
  = Some (UNC_RC_SUCCESS,
          set_hash (hash_insert (get_type_name n, get_key_generate n) p (ConfigHashArr k)) k).
Proof.
  intros Hp. unfold add_child_to_hash. by rewrite (kbind_run _ _ _ _ _ (load_run _ _ _ Hp)).
Qed.

Section Append.

Context k (Hok : cache_ok k) p n e (Hp : heap k !! p = Some n) (He : element n = Some e).
Context (Hd : detached (ConfigHashArr k) p) (Hl : p ∉ cfg_node_list_ k).
Notation tok := (co_tree k Hok).

Definition added q (nq : ConfigNode V) : KeyTree V :=
  mkCache (with_child q p (get_key_type (key_ e)) nq (heap k)) (<[ident e := p]> (ConfigHashArr k))
    (cfg_node_list_ k) (u32_inc (cfgnode_count_ k)).

Lemma add_node_to_tree_run q nq :
  ConfigHashArr k !! ident e = None -> ConfigHashArr k !! parent_ident e = Some q ->
  heap k !! q = Some nq ->
  add_node_to_tree (Some p) k = Some (UNC_RC_SUCCESS, added q nq).
Proof.
  intros Hnew Hpar Hq. destruct (node_idents n e He) as (Ei & Ep & _).
  assert (get_type_name n = get_key_type (key_ e)) as Et by (unfold get_type_name; by rewrite He).
  cbn [add_node_to_tree]. rewrite (kbind_run _ _ _ _ _ (load_run _ _ _ Hp)).
  unfold get_node_from_hash at 1. rewrite (kbind_run _ _ _ (Some q) k)
    by (unfold kget; by rewrite Ep, Hpar).
  rewrite (kbind_run _ _ _ _ _ (add_child_to_list_run p q k n nq Hp Hq)).
  assert (q <> p) as Hqp by (intros ->; by apply (Hd (parent_ident e))).
  set (k1 := set_heap _ k). assert (heap k1 !! p = Some n) as Hp1.
  { unfold k1, with_child. cbn. by rewrite lookup_insert_ne. }
  change (UNC_RC_SUCCESS !=? UNC_RC_SUCCESS) with false. cbv iota.
  rewrite (kbind_run _ _ _ _ _ (add_child_to_hash_run p k1 n Hp1)).
  rewrite Ei. unfold hash_insert, k1. cbn [ConfigHashArr set_heap]. rewrite Hnew.
  unfold added. by rewrite <- Et.
Qed.

Lemma added_ok q nq :
  ConfigHashArr k !! ident e = None -> ConfigHashArr k !! parent_ident e = Some q ->
  heap k !! q = Some nq ->
  cache_ok (added q nq) /\ entries (added q nq) = <[ident e := e]> (entries k).
Proof.
  intros Hnew Hpar Hq.
  assert (tree_ok (heap (added q nq)) (ConfigHashArr (added q nq))) as Hok'
    by exact (tree_ok_add _ _ tok p q n nq e Hp He Hd Hnew Hpar Hq).
  split; [split; [done| |apply Hok]; cbn; by apply list_alive_insert, Hok|].
  assert (forall x m, heap (added q nq) !! x = Some m ->
    exists m0, heap k !! x = Some m0 /\ element m = element m0) as Hsub.
  { intros x m Hm. destruct (add_lookup (heap k) p q nq e Hq x m Hm) as (m0 & ? & ? & _). eauto. }
  assert (forall x m0, heap k !! x = Some m0 ->
    exists m, heap (added q nq) !! x = Some m /\ element m = element m0) as Hsup.
  { intros x m0 Hm. destruct (add_same _ _ tok p q n nq e Hp He Hd Hnew Hpar Hq x m0 Hm) as (m & ? & ? & _). eauto. }
  apply entries_eq. intros i a. cbn [ConfigHashArr added].
  destruct (decide (i = ident e)) as [->|Hi].
  - rewrite !lookup_insert_eq. split.
    + intros (x & m & [= <-] & Hm & Ha). destruct (Hsub _ _ Hm) as (m0 & Hm0 & Ee). congruence.
    + intros [= <-]. destruct (Hsup _ _ Hp) as (m & Hm & Ee). exists p, m. by rewrite Ee.
  - rewrite !lookup_insert_ne by done. rewrite entries_lookup. split.
    + intros (x & m & Hx & Hm & Ha). destruct (Hsub _ _ Hm) as (m0 & Hm0 & Ee).
      exists x, m0. by rewrite <- Ee.
    + intros (x & m0 & Hx & Hm0 & Ha). destruct (Hsup _ _ Hm0) as (m & Hm & Ee).
      exists x, m. by rewrite Ee.
Qed.

Definition freed : KeyTree V := set_heap (delete p (heap k)) k.

Lemma freed_ok : cache_ok freed /\ entries freed = entries k.
Proof.
  split; [split; cbn; [by apply tree_ok_free; [apply tok|]| |apply Hok]|].
  - apply Forall_forall. intros x Hx. rewrite lookup_delete_ne by (intros <-; done).
    pose proof (co_list k Hok) as Hf. rewrite Forall_forall in Hf. by apply Hf.
  - apply entries_eq. intros i a. rewrite entries_lookup. cbn.
    assert (forall x, ConfigHashArr k !! i = Some x -> delete p (heap k) !! x = heap k !! x) as Hx.
    { intros x Hx. apply lookup_delete_ne. intros <-. by apply (Hd i). }
    split; intros (x & m & Hi & Hm & Ha); exists x, m; split_and!; try done.
    + by rewrite <- Hx.
    + by rewrite Hx.
Qed.

Lemma append_refines :
  exists r k', append_audit_node (Some p) k = Some (r, k') /\ cache_ok k' /\
    (r, entries k') = spec_append e (entries k) /\
    cfg_node_list_ k' = cfg_node_list_ k /\
    (forall x, x <> p -> detached (ConfigHashArr k) x -> heap k' !! x = heap k !! x) /\
    (forall i x, ConfigHashArr k' !! i = Some x -> x = p \/ ConfigHashArr k !! i = Some x) /\
    (forall x a, x <> p -> node_element (heap k) x = Some a -> node_element (heap k') x = Some a).
Proof.
  destruct (node_idents n e He) as (Ei & Ep & _).
  cbn [append_audit_node]. rewrite (kbind_run _ _ _ _ _ (load_run _ _ _ Hp)).
  unfold get_node_from_hash. rewrite (kbind_run _ _ _ (ConfigHashArr k !! ident e) k)
    by (unfold kget; by rewrite Ei).
  unfold spec_append. rewrite has_place_hash by done.
  pose proof (entries_none k Hok (ident e) (ident_not_root e)) as Hnone.
  destruct (ConfigHashArr k !! ident e) as [x|] eqn:Hx.
  - rewrite bool_decide_eq_true_2.
    2:{ apply not_eq_None_Some. rewrite Hnone. done. }
    rewrite (kbind_run _ _ _ _ _ (delete_run _ _ _ Hp)). destruct freed_ok as [H1 H2].
    exists UNC_RC_SUCCESS, freed. split_and!; [done..|by rewrite H2|done| |by auto|].
    + intros y Hy Ha. cbn. by rewrite lookup_delete_ne.
    + intros y a Hy Ha. unfold node_element. cbn. by rewrite lookup_delete_ne.
  - rewrite bool_decide_eq_false_2.
    2:{ rewrite (proj2 Hnone) by done. by intros [? ?]. }
    destruct (ConfigHashArr k !! parent_ident e) as [q|] eqn:Hpar.
    + destruct (hash_alive _ _ _ _ tok Hpar) as [nq Hq].
      rewrite (kbind_run _ _ _ _ _ (add_node_to_tree_run q nq Hx Hpar Hq)).
      destruct (added_ok q nq Hx Hpar Hq) as [H1 H2]. exists UNC_RC_SUCCESS, (added q nq).
      rewrite bool_decide_eq_true_2 by by eexists.
      split_and!; [done..|by rewrite H2|done| | |].
      * intros y _ Ha. cbn. unfold with_child. rewrite lookup_insert_ne; [done|].
        intros <-. by apply (Ha (parent_ident e)).
      * intros i y Hi. cbn in Hi. destruct (decide (i = ident e)) as [->|Hne].
        { rewrite lookup_insert_eq in Hi. left. congruence. }
        rewrite lookup_insert_ne in Hi by done. by right.
      * intros y a _ Ha. unfold node_element in *. destruct (heap k !! y) as [m0|] eqn:Hy; [|done].
        destruct (add_same _ _ tok p q n nq e Hp He Hd Hx Hpar Hq y m0 Hy) as (m & Hm & Em & _).
        cbn [heap added]. rewrite Hm. cbn in Ha |- *. congruence.
    + rewrite bool_decide_eq_false_2 by by intros [? ?].
      cbn [add_node_to_tree]. unfold kbind at 1.
      rewrite (kbind_run _ _ _ _ _ (load_run _ _ _ Hp)). unfold get_node_from_hash, kbind, kget.
      rewrite Ep, Hpar. exists UNC_DRV_RC_ERR_GENERIC, k. split_and!; auto; done.
Qed.

End Append.

(** ** Updating *)

Lemma name_not_root e : name_ident e <> root_ident.
Proof. unfold name_ident, root_ident. by destruct (key_ e). Qed.

(** What is known of physical nodes is not part of their search keys. *)
Lemma physical_ident e v :
  is_physical (get_key_type (key_ e)) = true -> ident (set_val_structure v e) = ident e.
Proof. unfold ident. destruct e as [[] ? ?]; done. Qed.

Lemma physical_name e : is_physical (get_key_type (key_ e)) = true -> name_ident e = ident e.
Proof. unfold ident, name_ident. destruct e as [[] ? ?]; done. Qed.

Lemma ident_type e o : ident o = name_ident e -> get_key_type (key_ o) = get_key_type (key_ e).
Proof. by intros [= E _]. Qed.

Section Update.

Context k (Hok : cache_ok k) p n e (Hp : heap k !! p = Some n) (He : element n = Some e).
Context (Hd : detached (ConfigHashArr k) p).
Notation tok := (co_tree k Hok).

Definition replaced q (nq : ConfigNode V) o : KeyTree V :=
  set_heap (<[q := mkNode (Some (set_val_structure (value_ e) o)) (child_list_ nq)]> (heap k)) k.

Lemma replaced_ok i q nq o :
  ConfigHashArr k !! i = Some q -> heap k !! q = Some nq -> element nq = Some o ->
  ident o = i -> is_physical (get_key_type (key_ o)) = true ->
  cache_ok (replaced q nq o) /\
  entries (replaced q nq o) = <[i := set_val_structure (value_ e) o]> (entries k).
Proof.
  intros Hi Hq Ho <- Hph. split.
  - split; cbn; [|by apply list_alive_insert, Hok|apply Hok].
    eapply tree_ok_replace; [apply tok|done|done|done|by apply physical_ident].
  - apply entries_eq. intros j a. cbn [ConfigHashArr heap replaced set_heap].
    destruct (decide (j = ident o)) as [->|Hj].
    + rewrite lookup_insert_eq. split.
      * intros (x & m & Hx & Hm & Ha). assert (x = q) as -> by congruence.
        rewrite lookup_insert_eq in Hm. by injection Hm as <-.
      * intros [= <-]. exists q. eexists. by rewrite lookup_insert_eq.
    + rewrite lookup_insert_ne by done. rewrite entries_lookup.
      assert (forall x, ConfigHashArr k !! j = Some x -> x <> q) as Hne.
      { intros x Hx ->. apply Hj. by eapply hash_inj; [apply tok|..]. }
      split; intros (x & m & Hx & Hm & Ha); exists x, m; split_and!; try done.
      * by rewrite lookup_insert_ne in Hm by (apply not_eq_sym, Hne, Hx).
      * by rewrite lookup_insert_ne by (apply not_eq_sym, Hne, Hx).
Qed.

Lemma update_refines :
  exists r k', update_physical_attribute_node (Some p) k = Some (r, k') /\ cache_ok k' /\
    (r, entries k') = spec_update e (entries k) /\
    ConfigHashArr k' = ConfigHashArr k /\ cfg_node_list_ k' = cfg_node_list_ k /\
    (forall x, is_Some (heap k !! x) -> is_Some (heap k' !! x)).
Proof.
  destruct (node_idents n e He) as (_ & _ & En).
  assert (get_type_name n = get_key_type (key_ e)) as Et by (unfold get_type_name; by rewrite He).
  cbn [update_physical_attribute_node]. rewrite (kbind_run _ _ _ _ _ (load_run _ _ _ Hp)).
  unfold get_node_from_hash. rewrite (kbind_run _ _ _ (ConfigHashArr k !! name_ident e) k)
    by (unfold kget; by rewrite En).
  unfold spec_update. destruct (ConfigHashArr k !! name_ident e) as [q|] eqn:Hq.
  - destruct (hash_entry k Hok _ _ Hq (name_not_root e)) as (nq & o & Hnq & Ho & ->).
    assert (ident o = name_ident e) as Eo.
    { apply (entries_ident k Hok), entries_lookup. eauto. }
    rewrite Et. destruct (is_physical (get_key_type (key_ e))) eqn:Hph.
    + rewrite (kbind_run _ _ _ _ _ (load_run _ _ _ Hnq)).
      rewrite bool_decide_eq_false_2 by (intros ->; by apply (Hd (name_ident e))).
      rewrite He, Ho. unfold kbind, store. rewrite Hnq.
      destruct (replaced_ok _ _ _ _ Hq Hnq Ho Eo) as [H1 H2]; [by rewrite (ident_type e o)|].
      eexists _, _. split; [reflexivity|]. split_and!; [exact H1|by rewrite <- H2|done|done|].
      intros x Hx. cbn. destruct (decide (x = q)) as [->|Hne].
      { rewrite lookup_insert_eq. by eexists. } by rewrite lookup_insert_ne.
    + exists UNC_DRV_RC_ERR_GENERIC, k. split_and!; auto; done.
  - rewrite (proj2 (entries_none k Hok _ (name_not_root e)) Hq).
    exists UNC_DRV_RC_ERR_GENERIC, k. split_and!; auto; done.
Qed.

End Update.

End Refine.
