(* ===== verification/CacheDelete.v ===== *)
(** * Deletion refines removal of a subtree *)

From S2P Require Import Prelude CacheKeys CacheTree CacheProps CacheOps CacheSpec.
From stdpp Require Import relations.

Local Open Scope Z_scope.

Section Delete.

Context {V : Type} `{ValueStruct V}.
Implicit Types (p q x : loc) (n m : ConfigNode V) (e o : CacheElementUtil V) (k : KeyTree V).

Lemma erase_keys_lookup (l : list key_information) (idx : gmap (Z * string) loc) (i : Z * string) :
  erase_keys l idx !! i
  = if bool_decide (i ∈ (fun a => (info_type a, info_key a)) <$> l) then None else idx !! i.
Proof.
  revert idx. induction l as [|a l IH]; intros idx; [done|].
  change (erase_keys (a :: l) idx) with (erase_keys l (delete (info_type a, info_key a) idx)).
  rewrite IH, fmap_cons. destruct (decide (i = (info_type a, info_key a))) as [->|Hi].
  - rewrite (bool_decide_eq_true_2 (_ ∈ _ :: _)) by by left.
    rewrite lookup_delete_eq. by destruct (bool_decide _).
  - rewrite lookup_delete_ne by done. erewrite bool_decide_ext; [done|]. set_solver.
Qed.

Section Remove.

Context k (Hok : cache_ok k) (q x : loc) (nq nx : ConfigNode V) (o : CacheElementUtil V).
Context (l : list loc) (Hq : heap k !! q = Some nq) (Ho : element nq = Some o).
Context (Hx : heap k !! x = Some nx).
Context (Hl : child_list_ nx !! get_key_type (key_ o) = Some l) (Hin : q ∈ l).
Notation h := (heap k).
Notation idx := (ConfigHashArr k).
Notation tok := (co_tree k Hok).

(** The nodes that go. *)
Definition gone : list loc := post h levels q ++ [q].

Lemma gone_elem y : y ∈ gone <-> rtc (is_child h) q y.
Proof.
  unfold gone. rewrite elem_of_app, list_elem_of_singleton, <- pre_post.
  rewrite (pre_elem h idx tok) by lia. split.
  - intros [Ht| ->]; [by apply tc_rtc|done].
  - intros [->|Ht]%rtc_tc; auto.
Qed.

Lemma gone_child : is_child h x q.
Proof. exists nx. split; [done|]. apply children_of_elem. eauto. Qed.

(** Each of them is known by its identity. *)
Lemma gone_known y : y ∈ gone ->
  exists m a, h !! y = Some m /\ element m = Some a /\ idx !! ident a = Some y.
Proof.
  intros Hy%gone_elem. assert (exists z, is_child h z y) as [z Hz].
  { apply rtc_inv_r in Hy as [<-|(z & _ & Hz)]; [|eauto]. exists x. apply gone_child. }
  destruct (child_found h idx tok z y Hz) as (m & a & Hm & Ha & Hi & _). eauto.
Qed.

Definition erased : gmap (Z * string) loc :=
  erase_keys (key_info nq :: infos h (post h levels q)) idx.

Lemma infos_elem L i : i ∈ (fun a => (info_type a, info_key a)) <$> infos h L <->
  exists y m, y ∈ L /\ h !! y = Some m /\ i = (get_type_name m, get_key_generate m).
Proof.
  unfold infos. rewrite list_elem_of_fmap. split.
  - intros (a & -> & Ha). apply list_elem_of_omap in Ha as (y & Hy & E).
    destruct (h !! y) as [m|] eqn:Hm; [|done]. injection E as <-. eauto.
  - intros (y & m & Hy & Hm & ->). exists (key_info m). split; [done|].
    apply list_elem_of_omap. exists y. by rewrite Hm.
Qed.

Lemma erased_lookup i y : erased !! i = Some y <-> idx !! i = Some y /\ y ∉ gone.
Proof.
  unfold erased. rewrite erase_keys_lookup.
  assert (i ∈ (fun a => (info_type a, info_key a)) <$> key_info nq :: infos h (post h levels q) <->
          exists z m, z ∈ gone /\ h !! z = Some m /\ i = (get_type_name m, get_key_generate m)) as Ei.
  { rewrite fmap_cons, elem_of_cons, infos_elem. unfold gone. setoid_rewrite elem_of_app.
    setoid_rewrite list_elem_of_singleton. naive_solver. }
  case_bool_decide as Hi; rewrite Ei in Hi; clear Ei.
  - split; [done|]. intros [Hiy Hy]. destruct Hi as (z & m & Hz & Hm & ->).
    destruct (gone_known z Hz) as (m' & a & Hm' & Ha & Hia). assert (m' = m) as -> by congruence.
    destruct (node_idents m a Ha) as (E & _). congruence.
  - split; [|by intros [? _]]. intros Hiy. split; [done|]. intros Hy. apply Hi.
    destruct (gone_known y Hy) as (m & a & Hm & Ha & Hia). exists y, m. split_and!; [done..|].
    destruct (node_idents m a Ha) as (-> & _). by eapply hash_inj; [apply tok|..].
Qed.

Definition removed : KeyTree V :=
  mkCache (free gone (<[x := mkNode (element nx)
             (<[get_key_type (key_ o) := erase_first q l]> (child_list_ nx))]> h))
    erased [] (cfgnode_count_ k).

Lemma removed_tree : tree_ok (heap removed) (ConfigHashArr removed).
Proof.
  exact (tree_ok_remove h idx tok q x nx _ l gone Hx Hl Hin gone_elem erased erased_lookup).
Qed.

Lemma removed_entries : entries removed = without (ident o) (entries k).
Proof.
  destruct (gone_known q) as (m0 & a0 & Hm0 & Ha0 & Hi0).
  { apply gone_elem. done. }
  assert (a0 = o) as -> by congruence.
  assert (forall i y, idx !! i = Some y ->
    under levels (entries k) (ident o) i = false <-> y ∉ gone) as Hu.
  { intros i y Hy. rewrite gone_elem, <- not_true_iff_false.
    rewrite (under_rtc k Hok (ident o) q Hi0 levels i y Hy); [done|].
    pose proof (lv_bound h y). lia. }
  apply entries_eq. intros i a. unfold without. rewrite map_lookup_filter_Some, entries_lookup.
  cbn [fst]. split.
  - intros (y & m & [Hy HyD]%erased_lookup & Hm & Ha).
    destruct (remove_lookup h idx tok q x nx _ l gone Hx Hl gone_elem _ erased_lookup y m Hm) as (_ & m1 & Hm1 & E & _).
    split; [exists y, m1; by rewrite <- E|]. by apply (Hu i y).
  - intros [(y & m1 & Hy & Hm1 & Ha) Hn]. apply (Hu i y Hy) in Hn.
    destruct (remove_same h idx tok q x nx _ l gone Hx Hl y m1 Hn Hm1) as (m & Hm & E & _).
    exists y, m. rewrite E. split_and!; [by apply erased_lookup|done..].
Qed.

Lemma removed_detached y : detached idx y -> heap removed !! y = <[x := mkNode (element nx)
  (<[get_key_type (key_ o) := erase_first q l]> (child_list_ nx))]> h !! y.
Proof.
  intros Hd. apply free_notin. intros Hy. destruct (gone_known y Hy) as (m & a & _ & _ & Hi).
  by apply (Hd (ident a)).
Qed.

Lemma delete_child_node_run :
  delete_child_node x (Some q) k
  = Some ((UNC_RC_SUCCESS, key_info nq :: infos h (post h levels q)),
          set_heap (heap removed) k).
Proof.
  assert (get_type_name nq = get_key_type (key_ o)) as Et by (unfold get_type_name; by rewrite Ho).
  cbn [delete_child_node]. rewrite (kbind_run _ _ _ _ _ (load_run _ _ _ Hq)).
  rewrite (kbind_run _ _ _ _ _ (load_run _ _ _ Hx)), Et, Hl, bool_decide_eq_true_2 by done.
  unfold kbind at 1, store. rewrite Hx.
  assert (x ∉ gone) as Hxg.
  { rewrite gone_elem. intros R%(below_level h idx tok).
    pose proof (child_level h idx tok x q gone_child). lia. }
  set (h1 := <[x := _]> h). assert (forall y, y <> x -> h1 !! y = h !! y) as Hh1.
  { intros y Hy. by apply lookup_insert_ne. }
  erewrite kbind_run.
  2:{ apply (clear_child_list_run h idx tok levels q (set_heap h1 k)); [|by eexists|lia].
      intros y Hy. apply Hh1. intros E. apply Hxg. rewrite <- E. by apply gone_elem. }
  assert (heap (set_heap (free (post h levels q) h1) (set_heap h1 k)) !! q = Some nq) as Hq'.
  { cbn [heap set_heap]. rewrite free_notin.
    - rewrite Hh1; [done|]. intros E. apply Hxg. rewrite <- E. by apply gone_elem.
    - rewrite <- pre_post, (pre_elem h idx tok) by lia. intros Ht.
      apply (below_lt h idx tok) in Ht. lia. }
  rewrite (kbind_run _ _ _ _ _ (delete_run _ _ _ Hq')). cbn [heap set_heap].
  rewrite <- free_app. done.
Qed.

End Remove.

(** A node that is not below the parent it is looked for at. *)
Lemma misplaced_run k x q nq nx o :
  cache_ok k -> heap k !! q = Some nq -> element nq = Some o -> heap k !! x = Some nx ->
  (forall l, child_list_ nx !! get_key_type (key_ o) = Some l -> q ∉ l) ->
  exists r, delete_child_node x (Some q) k = Some ((r, []), k).
Proof.
  intros Hok Hq Ho Hx Hn.
  assert (get_type_name nq = get_key_type (key_ o)) as Et by (unfold get_type_name; by rewrite Ho).
  cbn [delete_child_node]. rewrite (kbind_run _ _ _ _ _ (load_run _ _ _ Hq)).
  rewrite (kbind_run _ _ _ _ _ (load_run _ _ _ Hx)), Et.
  destruct (child_list_ nx !! get_key_type (key_ o)) as [l|]; [|by eexists].
  rewrite bool_decide_eq_false_2 by auto. by eexists.
Qed.

(** The whole operation.  A node that the caller keeps stays. *)
Lemma delete_refines k p n e :
  cache_ok k -> heap k !! p = Some n -> element n = Some e ->
  exists r k', delete_physical_attribute_node (Some p) k = Some (r, k') /\ cache_ok k' /\
    spec_delete e (entries k) r (entries k') /\
    (forall y, detached (ConfigHashArr k) y -> is_Some (heap k !! y) -> is_Some (heap k' !! y)) /\
    (forall i y, ConfigHashArr k' !! i = Some y -> ConfigHashArr k !! i = Some y) /\
    (cfg_node_list_ k' = [] \/ cfg_node_list_ k' = cfg_node_list_ k).
Proof.
  intros Hok Hp He. pose proof (co_tree k Hok) as tok. destruct (node_idents n e He) as (_ & Ep & En).
  assert (get_type_name n = get_key_type (key_ e)) as Et by (unfold get_type_name; by rewrite He).
  cbn [delete_physical_attribute_node]. rewrite (kbind_run _ _ _ _ _ (load_run _ _ _ Hp)).
  unfold get_node_from_hash. rewrite (kbind_run _ _ _ (ConfigHashArr k !! parent_ident e) k)
    by (unfold kget; by rewrite Ep).
  unfold spec_delete. rewrite has_place_hash by done.
  destruct (ConfigHashArr k !! parent_ident e) as [x|] eqn:Hx.
  2:{ exists UNC_DRV_RC_ERR_GENERIC, k. rewrite bool_decide_eq_false_2 by by intros [? ?].
      cbn [andb]. destruct (entries k !! name_ident e); split_and!; auto; done. }
  rewrite bool_decide_eq_true_2 by by eexists. cbn [andb].
  rewrite (kbind_run _ _ _ (ConfigHashArr k !! name_ident e) k) by (unfold kget; by rewrite En).
  destruct (ConfigHashArr k !! name_ident e) as [q|] eqn:Hq.
  2:{ rewrite (proj2 (entries_none k Hok _ (name_not_root e)) Hq).
      exists UNC_DRV_RC_ERR_GENERIC, k. split_and!; auto; done. }
  destruct (hash_entry k Hok _ _ Hq (name_not_root e)) as (nq & o & Hnq & Ho & Eo). rewrite Eo.
  apply (entries_ident k Hok) in Eo. rewrite Et. destruct (is_physical (get_key_type (key_ e))).
  2:{ exists UNC_DRV_RC_ERR_GENERIC, k. split_and!; auto; done. }
  destruct (hash_alive _ _ _ _ tok Hx) as [nx Hnx].
  destruct (ok_parent _ _ tok _ _ _ _ Hq Hnq Ho) as (x' & nx' & l & Hx' & Hnx' & Hl & Hin).
  destruct (decide (parent_ident o = parent_ident e)) as [Epar|Epar].
  - rewrite (bool_decide_eq_true_2 _ Epar). rewrite Epar in Hx'.
    assert (x' = x) as -> by congruence. assert (nx' = nx) as -> by congruence.
    rewrite (kbind_run _ _ _ _ _ (delete_child_node_run k Hok q x nq nx o l Hnq Ho Hnx Hl Hin)).
    change ((UNC_RC_SUCCESS, key_info nq :: infos (heap k) (post (heap k) levels q)).1
              !=? UNC_RC_SUCCESS) with false. cbv iota.
    exists UNC_RC_SUCCESS, (removed k q x nq nx o l). split; [reflexivity|]. split_and!; [|done|..].
    + split; [by apply removed_tree|constructor..].
    + rewrite <- Eo. by apply removed_entries.
    + intros y Hd Hy. rewrite (removed_detached k Hok q x nq nx o l) by done.
      destruct (decide (y = x)) as [->|Hne]; [rewrite lookup_insert_eq; by eexists|].
      by rewrite lookup_insert_ne.
    + intros i y Hi. by apply (erased_lookup k Hok q x nq nx o l) in Hi as [? _].
    + by left.
  - rewrite (bool_decide_eq_false_2 _ Epar).
    destruct (misplaced_run k x q nq nx o Hok Hnq Ho Hnx) as [r Er].
    { intros l0 Hl0 Hin0. destruct (ok_child _ _ tok x nx _ l0 q Hnx Hl0 Hin0)
        as (m & a & Hm & Ha & _ & _ & Hpa). apply Epar. assert (a = o) as -> by congruence.
      by eapply hash_inj; [apply tok|..]. }
    rewrite (kbind_run _ _ _ _ _ Er). cbn [fst snd]. case_bool_decide.
    + exists UNC_RC_SUCCESS, (set_list [] k). split_and!; auto; try done; by split; [|constructor..].
    + exists UNC_DRV_RC_ERR_GENERIC, k. split_and!; auto; done.
Qed.

End Delete.

(** ** Visits of the nodes

    [AuditFirstItem] and the loops of [CommonIterator] over an intact cache meet
    every entry once, each after the entry it belongs to. *)

Section Visit.

Context {V : Type} `{ValueStruct V}.
Implicit Types (p q x y : loc) (n m : ConfigNode V) (e : CacheElementUtil V) (k : KeyTree V).

(** [seen] are the identities that came earlier. *)
Fixpoint parents_first (seen : list (Z * string)) (l : list (CacheElementUtil V)) : Prop :=
  match l with
  | [] => True
  | e :: l' => parent_ident e ∈ seen /\ parents_first (ident e :: seen) l'
  end.

Lemma parents_first_mono seen seen' l :
  seen ⊆ seen' -> parents_first seen l -> parents_first seen' l.
Proof.
  revert seen seen'. induction l as [|e l IH]; intros seen seen' Hs; cbn; [done|].
  intros [Hp Hl]. split; [set_solver|]. apply (IH (ident e :: seen)); [set_solver|done].
Qed.

Lemma parents_first_app seen l1 l2 :
  parents_first seen l1 -> parents_first seen l2 -> parents_first seen (l1 ++ l2).
Proof.
  revert seen. induction l1 as [|e l1 IH]; intros seen; cbn; [done|].
  intros [Hp Hl] H2. split; [done|]. apply IH; [done|].
  apply (parents_first_mono seen); [set_solver|done].
Qed.

(** The elements at some nodes. *)
Definition elems (h : gmap loc (ConfigNode V)) (l : list loc) : list (CacheElementUtil V) :=
  omap (node_element h) l.

Definition tagged (l : list (CacheElementUtil V)) : list ((Z * string) * CacheElementUtil V) :=
  (fun e => (ident e, e)) <$> l.

Section Ok.

Context k (Hok : cache_ok k).
Notation h := (heap k).
Notation idx := (ConfigHashArr k).
Notation tok := (co_tree k Hok).

Definition in_order : list loc := pre h levels node_tree_.

Lemma reachable i p : idx !! i = Some p -> p <> node_tree_ -> tc (is_child h) node_tree_ p.
Proof.
  intros Hi Hp. remember (lv h p) as d eqn:Ed. revert i p Hi Hp Ed.
  induction d as [|d IH]; intros i p Hi Hp Ed;
    destruct (ok_hash _ _ tok i p Hi Hp) as (n & e & Hn & He & _);
    destruct (parent_is_child k Hok i p n e Hi Hn He) as (q & Hq & Hc);
    pose proof (child_level h idx tok q p Hc); [lia|].
  destruct (decide (q = node_tree_)) as [->|Hqr]; [by apply tc_once|].
  eapply tc_r; [|exact Hc]. apply (IH (parent_ident e) q Hq Hqr). lia.
Qed.

Lemma in_order_elem p :
  p ∈ in_order <-> exists n e, h !! p = Some n /\ element n = Some e /\ idx !! ident e = Some p.
Proof.
  unfold in_order. rewrite (pre_elem h idx tok) by lia. split.
  - intros Ht. assert (exists q, is_child h q p) as [q Hq].
    { clear -Ht. induction Ht; eauto. }
    destruct (child_found h idx tok q p Hq) as (n & e & Hn & He & Hi & _). eauto.
  - intros (n & e & Hn & He & Hi). apply (reachable _ _ Hi). intros ->.
    destruct (ok_root _ _ tok) as (r & Hr & Her). congruence.
Qed.

Lemma in_order_NoDup : NoDup in_order.
Proof. apply (pre_NoDup h idx tok). lia. Qed.

Lemma elems_elem p l e : node_element h p = Some e -> p ∈ l -> e ∈ elems h l.
Proof. intros He Hp. apply list_elem_of_omap. eauto. Qed.

(** Every entry once. *)
Lemma in_order_entries : tagged (elems h in_order) ≡ₚ map_to_list (entries k).
Proof.
  assert (forall p e, p ∈ in_order -> node_element h p = Some e -> idx !! ident e = Some p) as Hid.
  { intros p e (n & e' & Hn & He & Hi)%in_order_elem Hne. unfold node_element in Hne.
    rewrite Hn in Hne. cbn in Hne. congruence. }
  apply NoDup_Permutation.
  - apply (NoDup_fmap_1 fst). unfold tagged. rewrite <- list_fmap_compose.
    pose proof in_order_NoDup as Hn. induction Hn as [|p l Hp Hn IH]; [constructor|].
    unfold elems. cbn [omap list_omap]. destruct (node_element h p) as [e|] eqn:He.
    + rewrite fmap_cons. constructor; [|apply IH; intros; apply Hid; [by right|done]].
      intros (e' & Ee & Hin)%list_elem_of_fmap. apply list_elem_of_omap in Hin as (p' & Hp' & He').
      pose proof (Hid p e ltac:(by left) He) as H1. pose proof (Hid p' e' ltac:(by right) He') as H2.
      cbn in Ee. rewrite Ee in H1. assert (p' = p) as -> by congruence. done.
    + apply IH. intros; apply Hid; [by right|done].
  - apply NoDup_map_to_list.
  - intros [i e]. unfold tagged. rewrite list_elem_of_fmap, elem_of_map_to_list, entries_lookup. split.
    + intros (e' & [= -> ->] & Hin). apply list_elem_of_omap in Hin as (p & Hp & He).
      pose proof (Hid p e' Hp He) as Hi. unfold node_element in He.
      destruct (h !! p) as [n|] eqn:Hn; [|done]. eauto.
    + intros (p & n & Hi & Hn & He).
      assert (ident e = i) as <- by (apply (entries_ident k Hok), entries_lookup; eauto).
      exists e. split; [done|]. apply (elems_elem p); [unfold node_element; by rewrite Hn|].
      apply in_order_elem. eauto.
Qed.

(** Parents first. *)
Lemma pre_parents f q i seen :
  idx !! i = Some q -> i ∈ seen -> parents_first seen (elems h (pre h f q)).
Proof.
  revert q i seen. induction f as [|f IH]; intros q i seen Hi Hs; [done|]. cbn [pre].
  assert (forall c, c ∈ kids h q -> is_child h q c) as Hc by (intros c; exact (proj1 (kids_elem h idx tok q c))).
  induction (kids h q) as [|c l IHl]; [done|]. rewrite fmap_cons. cbn [concat].
  unfold elems. rewrite omap_app. apply parents_first_app; [|apply IHl; intros; apply Hc; by right].
  destruct (child_found h idx tok q c) as (m & e & Hm & He & Hie & Hpe); [apply Hc; by left|].
  cbn [omap list_omap]. unfold node_element at 1. rewrite Hm. cbn [mbind option_bind]. rewrite He.
  cbn [parents_first]. split; [by rewrite (hash_inj _ _ _ _ _ tok Hpe Hi)|].
  apply (IH c (ident e)); [done|by left].
Qed.

Lemma in_order_parents : parents_first [root_ident] (elems h in_order).
Proof.
  apply (pre_parents levels node_tree_ root_ident); [by apply (ok_root_hash _ _ tok)|by left].
Qed.

(** ** Runs *)

Lemma AuditFirstItem_run :
  AuditFirstItem k = Some ((0%nat, in_order !! 0%nat), set_list in_order k).
Proof.
  assert (get_node_list levels node_tree_ (set_list [] k) = Some (in_order, set_list [] k)) as E.
  { apply (get_node_list_run h idx tok levels node_tree_ (set_list [] k)); [done| |lia].
    destruct (ok_root _ _ tok) as (r & Hr & _). by eexists. }
  unfold AuditFirstItem, get_nodelist_keytree, kbind. cbn [kupdate]. by rewrite E.
Qed.

Lemma in_order_ok : cache_ok (set_list in_order k).
Proof.
  split; [apply tok| |by apply in_order_NoDup]. apply Forall_forall. intros p (n & e & Hn & _)%in_order_elem. by eexists.
Qed.

End Ok.

Lemma iterate_run k rounds i :
  (length (cfg_node_list_ k) <= i + rounds)%nat ->
  iterate rounds i (cfg_node_list_ k !! i) k = Some (Some <$> drop i (cfg_node_list_ k), k).
Proof.
  revert i. induction rounds as [|r IH]; intros i Hl; cbn [iterate]; unfold kbind at 1, IsDone, kget.
  - rewrite bool_decide_eq_false_2 by lia. cbn. by rewrite drop_ge by lia.
  - case_bool_decide as Hi; cbn [negb].
    2:{ unfold kret. by rewrite drop_ge by lia. }
    apply lookup_lt_is_Some in Hi as [p Hp]. rewrite Hp, (drop_S _ p i Hp).
    assert (NextItem i k = Some ((S i, cfg_node_list_ k !! S i), k)) as E.
    { unfold NextItem, IsDone, KeyTree_item, kget, kbind, kret. case_bool_decide as Hs; cbn; [done|].
      by rewrite lookup_ge_None_2 by lia. }
    rewrite (kbind_run _ _ _ _ _ E). cbn [fst snd].
    rewrite (kbind_run _ _ _ _ _ (IH (S i) ltac:(lia))). done.
Qed.

End Visit.
