(* ===== verification/CacheClient.v ===== *)
(** * Clients of the cache

    A client makes the nodes that it passes to the operations.  Whatever it
    asks for, in any order, the answers and the contents of the cache are those
    of the abstract map. *)

From S2P Require Import Prelude CacheKeys CacheTree CacheProps CacheOps CacheSpec CacheDelete.
From stdpp Require Import relations.

Local Open Scope Z_scope.

Section Client.

Context {V : Type} `{ValueStruct V}.
Implicit Types (p q x y : loc) (n m : ConfigNode V) (e : CacheElementUtil V) (k : KeyTree V).
Notation Entries := (gmap (Z * string) (CacheElementUtil V)).
Implicit Type E : Entries.

(** ** Requests *)

Inductive request :=
| RAppend e
| RAppendList (es : list (CacheElementUtil V))
| RUpdate e
| RDelete e
| RFind e
| RCommit e
| RTraverse.

Inductive answer :=
| Code (r : UncRespCode)
| Found (o : option (CacheElementUtil V))
| Visited (l : list (CacheElementUtil V)).

(** The allocator of the heap. *)
Variable alloc : gmap loc (ConfigNode V) -> loc.

Definition new_node e : K V loc := fun k =>
  let p := alloc (heap k) in Some (p, set_heap (<[p := mkNode (Some e) ∅]> (heap k)) k).

Fixpoint new_nodes (es : list (CacheElementUtil V)) : K V (list loc) :=
  match es with
  | [] => kret []
  | e :: es' => let@ p := new_node e in let@ ps := new_nodes es' in kret (p :: ps)
  end.

Definition visit (ps : list (option loc)) : K V (list (CacheElementUtil V)) :=
  kget (fun k => omap (fun o => o ≫= node_element (heap k)) ps).

Definition run_request (r : request) : K V answer :=
  match r with
  | RAppend e =>
      let@ p := new_node e in
      let@ c := append_Physical_attribute_node (Some p) in kret (Code c)
  | RAppendList es =>
      let@ ps := new_nodes es in
      let@ c := append_audit_configuration_list (Some <$> ps) in kret (Code c)
  | RUpdate e =>
      let@ p := new_node e in
      let@ c := update_physical_attribute_node (Some p) in kret (Code c)
  | RDelete e =>
      let@ p := new_node e in
      let@ c := delete_physical_attribute_node (Some p) in kret (Code c)
  | RFind e =>
      let@ p := new_node e in
      let@ o := compare_is_physical_node_found (Some p) in
      kget (fun k => Found (o ≫= node_element (heap k)))
  | RCommit e =>
      let@ p := new_node e in
      let@ c := append_commit_node p in kret (Code c)
  | RTraverse =>
      let@ first := AuditFirstItem in
      let@ l := kget cfg_node_list_ in
      let@ ps := iterate (length l) first.1 first.2 in
      let@ es := visit ps in kret (Visited es)
  end.

Fixpoint run_requests (rs : list request) : K V (list answer) :=
  match rs with
  | [] => kret []
  | r :: rs' => let@ a := run_request r in let@ l := run_requests rs' in kret (a :: l)
  end.

(** ** What they mean *)

Fixpoint spec_append_list (es : list (CacheElementUtil V)) E : UncRespCode * Entries :=
  match es with
  | [] => (UNC_RC_SUCCESS, E)
  | e :: es' =>
      match spec_append e E with
      | (UNC_RC_SUCCESS, E') => spec_append_list es' E'
      | (_, E') => (UNC_DRV_RC_ERR_GENERIC, E')
      end
  end.

Definition spec_request (r : request) E (a : answer) E' : Prop :=
  match r, a with
  | RAppend e, Code c => (c, E') = spec_append e E
  | RAppendList es, Code c => (c, E') = spec_append_list es E
  | RUpdate e, Code c => (c, E') = spec_update e E
  | RDelete e, Code c => spec_delete e E c E'
  | RFind e, Found o => o = E !! name_ident e /\ E' = E
  | RCommit _, Code c => c = UNC_RC_SUCCESS /\ E' = E
  | RTraverse, Visited l =>
      tagged l ≡ₚ map_to_list E /\ parents_first [root_ident] l /\ E' = E
  | _, _ => False
  end.

Inductive spec_requests : list request -> Entries -> list answer -> Entries -> Prop :=
| spec_nil E : spec_requests [] E [] E
| spec_cons r rs a l E1 E2 E3 :
    spec_request r E1 a E2 -> spec_requests rs E2 l E3 ->
    spec_requests (r :: rs) E1 (a :: l) E3.

(** ** A new cache, and new nodes *)

Lemma new_cache_ok : cache_ok (KeyTree_new (V := V) ∅).
Proof.
  assert (forall p n, heap (KeyTree_new (V := V) ∅) !! p = Some n ->
            p = node_tree_ /\ n = mkNode None ∅) as Hn.
  { intros p n. cbn. rewrite lookup_insert_Some, lookup_empty. naive_solver. }
  split; [split|constructor..].
  - exists (mkNode None ∅). split; [apply lookup_insert_eq|done].
  - intros i. cbn. rewrite lookup_singleton_Some. unfold root_ident. naive_solver.
  - intros i p Hi Hp. cbn in Hi. apply lookup_singleton_Some in Hi as [_ <-]. done.
  - intros q n t l p [_ ->]%Hn Hl. cbn in Hl. by rewrite lookup_empty in Hl.
  - intros i p m e _ [_ ->]%Hn He. done.
  - intros q n t l [_ ->]%Hn Hl. cbn in Hl. by rewrite lookup_empty in Hl.
Qed.

Lemma new_cache_entries : entries (KeyTree_new (V := V) ∅) = ∅.
Proof.
  apply map_eq. intros i. rewrite lookup_empty. apply eq_None_not_Some. intros [e He].
  apply entries_lookup in He as (p & n & Hi & Hn & Hel). cbn in Hi, Hn.
  apply lookup_singleton_Some in Hi as [_ <-]. rewrite lookup_insert_eq in Hn.
  by injection Hn as <-.
Qed.

Hypothesis alloc_fresh : forall h, h !! alloc h = None.

Definition with_node e k : KeyTree V :=
  set_heap (<[alloc (heap k) := mkNode (Some e) ∅]> (heap k)) k.

Lemma dead_detached k p : cache_ok k -> heap k !! p = None -> detached (ConfigHashArr k) p.
Proof.
  intros Hok Hp i Hi. destruct (hash_alive _ _ _ _ (co_tree k Hok) Hi) as [n Hn]. congruence.
Qed.

Lemma with_node_other e k p n :
  heap k !! p = Some n -> heap (with_node e k) !! p = Some n.
Proof.
  intros Hp. cbn. rewrite lookup_insert_ne; [done|]. intros <-. by rewrite alloc_fresh in Hp.
Qed.

Lemma with_node_ok e k : cache_ok k ->
  cache_ok (with_node e k) /\ entries (with_node e k) = entries k /\
  handed (with_node e k) (alloc (heap k)) e.
Proof.
  intros Hok. pose proof (co_tree k Hok) as tok. pose proof (with_node_other e k) as Hother.
  assert (detached (ConfigHashArr k) (alloc (heap k))) as Hd by by apply dead_detached.
  assert (forall p n, heap (with_node e k) !! p = Some n ->
            heap k !! p = Some n \/ p = alloc (heap k) /\ n = mkNode (Some e) ∅) as Hinv.
  { intros p n. cbn. rewrite lookup_insert_Some. naive_solver. }
  split_and!.
  - split.
    + split; try apply tok.
      * destruct (ok_root _ _ tok) as (r & Hr & He). exists r. auto.
      * intros i p Hi Hp. destruct (ok_hash _ _ tok i p Hi Hp) as (n & a & Hn & Ha & <-). exists n, a. auto.
      * intros q n t l p [Hq|[-> ->]]%Hinv Hl Hp; [|cbn in Hl; by rewrite lookup_empty in Hl].
        destruct (ok_child _ _ tok q n t l p Hq Hl Hp) as (m & a & Hm & Hr). exists m, a. auto.
      * intros i p m a Hi [Hm|[-> _]]%Hinv Ha; [|by destruct (Hd i)].
        destruct (ok_parent _ _ tok i p m a Hi Hm Ha) as (q & n & l & Hq & Hn & Hr).
        exists q, n, l. auto.
      * intros q n t l [Hq|[-> ->]]%Hinv Hl; [|cbn in Hl; by rewrite lookup_empty in Hl].
        by apply (ok_nodup _ _ tok q n t l).
    + cbn. apply list_alive_insert, Hok.
    + apply Hok.
  - apply entries_eq. intros i a. rewrite entries_lookup. split.
    + intros (p & n & Hi & [Hn|[-> _]]%Hinv & Ha); [eauto|]. by destruct (Hd i).
    + intros (p & n & Hi & Hn & Ha). exists p, n. auto.
  - split; [|done|].
    + eexists. split; [cbn; apply lookup_insert_eq|done].
    + cbn. intros Hin. pose proof (co_list k Hok) as Hl. rewrite Forall_forall in Hl.
      destruct (Hl _ Hin) as [n Hn]. by rewrite alloc_fresh in Hn.
Qed.

Lemma handed_later e k p a : handed k p a -> handed (with_node e k) p a.
Proof. intros [(n & Hn & He) Hd Hl]. split; [|done..]. exists n. by split; [apply with_node_other|]. Qed.

Lemma new_node_run e k : new_node e k = Some (alloc (heap k), with_node e k).
Proof. done. Qed.

(** ** Each request *)

(** How [append_audit_node] is called. *)
Lemma append_run k p e :
  cache_ok k -> handed k p e ->
  exists r k', append_audit_node (Some p) k = Some (r, k') /\ cache_ok k' /\
    (r, entries k') = spec_append e (entries k) /\
    cfg_node_list_ k' = cfg_node_list_ k /\
    (forall x a, x <> p -> node_element (heap k) x = Some a -> node_element (heap k') x = Some a) /\
    (forall x a, x <> p -> handed k x a -> handed k' x a).
Proof.
  intros Hok [(n & Hn & He) Hd Hl].
  destruct (append_refines k Hok p n e Hn He Hd Hl) as (r & k' & E & Hok' & Hs & Hli & Hh & Hi & Hel).
  exists r, k'. split_and!; [done..|]. intros x a Hx [(m & Hm & Ha) Hdx Hlx]. split.
  - exists m. by rewrite Hh.
  - intros i Hix. destruct (Hi i x Hix) as [->|Hix']; [done|]. by apply (Hdx i).
  - by rewrite Hli.
Qed.

Lemma append_physical_run k p :
  append_Physical_attribute_node (Some p) k = append_audit_node (Some p) k.
Proof.
  unfold append_Physical_attribute_node. unfold kbind at 1.
  by destruct (append_audit_node (Some p) k) as [[[] k']|].
Qed.

Lemma append_list_run ps es k :
  cache_ok k -> NoDup ps -> Forall2 (handed k) ps es ->
  exists r k', append_audit_configuration_list (Some <$> ps) k = Some (r, k') /\ cache_ok k' /\
    (r, entries k') = spec_append_list es (entries k) /\
    cfg_node_list_ k' = cfg_node_list_ k /\
    (forall x a, x ∉ ps -> node_element (heap k) x = Some a -> node_element (heap k') x = Some a).
Proof.
  intros Hok Hnd Hf. revert k Hok Hf. revert es. induction Hnd as [|p ps Hp Hnd IH]; intros es k Hok Hf.
  - apply Forall2_nil_inv_l in Hf as ->. by exists UNC_RC_SUCCESS, k.
  - apply Forall2_cons_inv_l in Hf as (e & es' & Hpe & Hf & ->).
    destruct (append_run k p e Hok Hpe) as (r & k1 & E & Hok1 & Hs & Hli & Hel & Hkeep).
    cbn [append_audit_configuration_list fmap list_fmap spec_append_list].
    rewrite (kbind_run _ _ _ _ _ E), <- Hs. destruct r; cbn.
    + destruct (IH es' k1 Hok1) as (r & k2 & E2 & Hok2 & Hs2 & Hli2 & Hel2).
      { apply Forall2_same_length_lookup_2; [by eapply Forall2_length|].
        intros i x a Hx Ha. apply Hkeep; [|by eapply Forall2_lookup_lr].
        intros ->. apply Hp. by eapply list_elem_of_lookup_2. }
      exists r, k2. split_and!; [done..|congruence|]. intros x a Hx Ha. apply Hel2; set_solver.
    + exists UNC_DRV_RC_ERR_GENERIC, k1. split_and!; [done..|]. intros x a Hx. apply Hel. set_solver.
Qed.

Lemma new_nodes_run es k :
  cache_ok k -> exists ps k', new_nodes es k = Some (ps, k') /\ cache_ok k' /\
    entries k' = entries k /\ NoDup ps /\ Forall2 (handed k') ps es /\
    Forall (fun p => heap k !! p = None) ps /\ (forall p a, handed k p a -> handed k' p a) /\
    cfg_node_list_ k' = cfg_node_list_ k /\
    (forall x a, node_element (heap k) x = Some a -> node_element (heap k') x = Some a).
Proof.
  revert k. induction es as [|e es IH]; intros k Hok.
  - exists [], k. split_and!; auto; try constructor; done.
  - destruct (with_node_ok e k Hok) as (Hok1 & He1 & Hh1).
    destruct (IH _ Hok1) as (ps & k' & E & Hok' & He' & Hnd & Hf & Hfr & Hl & Hli & Hel).
    exists (alloc (heap k) :: ps), k'. cbn [new_nodes]. rewrite (kbind_run _ _ _ _ _ (new_node_run e k)).
    rewrite (kbind_run _ _ _ _ _ E). rewrite Forall_forall in Hfr.
    split_and!; [done|done|by rewrite He'| | | | |by rewrite Hli|].
    + constructor; [|done]. intros Hin. specialize (Hfr _ Hin). cbn in Hfr.
      by rewrite lookup_insert_eq in Hfr.
    + constructor; [by apply Hl|done].
    + apply Forall_cons. split; [apply alloc_fresh|]. apply Forall_forall. intros p Hp.
      specialize (Hfr p Hp). cbn in Hfr. by apply lookup_insert_None in Hfr as [? _].
    + intros p a Hp. by apply Hl, handed_later.
    + intros x a Hx. apply Hel. unfold node_element in *.
      destruct (heap k !! x) as [n|] eqn:Hn; [|done]. by rewrite (with_node_other e k x n Hn).
Qed.

(** Nodes that a caller makes and adds. *)
Lemma append_new_run es k :
  cache_ok k ->
  exists r k', (let@ ps := new_nodes es in append_audit_configuration_list (Some <$> ps)) k = Some (r, k') /\
    cache_ok k' /\ (r, entries k') = spec_append_list es (entries k) /\
    cfg_node_list_ k' = cfg_node_list_ k /\
    (forall x a, node_element (heap k) x = Some a -> node_element (heap k') x = Some a).
Proof.
  intros Hok.
  destruct (new_nodes_run es k Hok) as (ps & k1 & E & Hok1 & He1 & Hnd & Hf & Hfr & _ & Hli & Hel).
  destruct (append_list_run ps es k1 Hok1 Hnd Hf) as (c & k' & E' & Hok' & Hs & Hli' & Hel').
  exists c, k'. rewrite (kbind_run _ _ _ _ _ E), <- He1. split_and!; [done..|congruence|].
  intros x a Hx. apply Hel'; [|by apply Hel]. intros Hin. rewrite Forall_forall in Hfr.
  specialize (Hfr _ Hin). unfold node_element in Hx. by rewrite Hfr in Hx.
Qed.

Lemma find_run k p e :
  cache_ok k -> handed k p e ->
  compare_is_physical_node_found (Some p) k = Some (ConfigHashArr k !! name_ident e, k) /\
  ConfigHashArr k !! name_ident e ≫= node_element (heap k) = entries k !! name_ident e.
Proof.
  intros Hok [(n & Hn & He) _ _]. destruct (node_idents n e He) as (_ & _ & En). split.
  - cbn [compare_is_physical_node_found]. rewrite (kbind_run _ _ _ _ _ (load_run _ _ _ Hn)).
    unfold get_node_from_hash, kget. by rewrite En.
  - unfold entries. by rewrite lookup_omap.
Qed.

Lemma traverse_run k :
  cache_ok k ->
  run_request RTraverse k
  = Some (Visited (elems (heap k) (in_order k)), set_list (in_order k) k).
Proof.
  intros Hok. cbn [run_request]. rewrite (kbind_run _ _ _ _ _ (AuditFirstItem_run k Hok)).
  cbn [fst snd]. unfold kget at 1, kbind at 1.
  rewrite (kbind_run _ _ _ _ _ (iterate_run (set_list (in_order k) k) (length (in_order k)) 0 (le_n _))).
  unfold visit, kget, kbind, kret. cbn [cfg_node_list_ set_list heap drop].
  apply f_equal, f_equal2; [|done]. apply f_equal. unfold elems.
  change (drop 0 (in_order k)) with (in_order k).
  induction (in_order k) as [|p l IH]; [done|]. cbn. by rewrite IH.
Qed.

Lemma request_refines r k :
  cache_ok k -> exists a k', run_request r k = Some (a, k') /\ cache_ok k' /\
    spec_request r (entries k) a (entries k').
Proof.
  intros Hok. destruct r as [e|es|e|e|e|e|].
  all: try (destruct (with_node_ok e k Hok) as (Hok1 & He1 & Hh1); rewrite <- He1;
            cbn [run_request]; rewrite (kbind_run _ _ _ _ _ (new_node_run e k));
            destruct (hd_node _ _ _ Hh1) as (n & Hn & Hel)).
  - destruct (append_run _ _ _ Hok1 Hh1) as (c & k' & E & Hok' & Hs & _ & _).
    rewrite <- append_physical_run in E. rewrite (kbind_run _ _ _ _ _ E). by exists (Code c), k'.
  - destruct (append_new_run es k Hok) as (c & k' & E & Hok' & Hs & _).
    exists (Code c), k'. cbn [run_request]. unfold kbind in *.
    destruct (new_nodes es k) as [[ps k1]|]; [|done]. by rewrite E.
  - destruct (update_refines _ Hok1 _ _ _ Hn Hel (hd_detached _ _ _ Hh1)) as (c & k' & E & Hok' & Hs & _).
    rewrite (kbind_run _ _ _ _ _ E). by exists (Code c), k'.
  - destruct (delete_refines _ _ _ _ Hok1 Hn Hel) as (c & k' & E & Hok' & Hs & _).
    rewrite (kbind_run _ _ _ _ _ E). by exists (Code c), k'.
  - destruct (find_run _ _ _ Hok1 Hh1) as [E Hs]. rewrite (kbind_run _ _ _ _ _ E).
    eexists (Found _), _. split; [done|]. split; [done|]. by split.
  - exists (Code UNC_RC_SUCCESS). eexists. split; [reflexivity|]. split; [|done].
    split; [apply Hok1| |].
    + cbn. apply Forall_app. split; [apply Hok1|].
      apply Forall_singleton. rewrite lookup_insert_eq. by eexists.
    + cbn. apply NoDup_app. split_and!; [apply Hok1| |apply NoDup_singleton].
      intros x Hx Hxs%list_elem_of_singleton. subst x. by apply (hd_list _ _ _ Hh1).
  - rewrite traverse_run by done. eexists (Visited _), _. split; [done|].
    split; [by apply in_order_ok|]. split; [|split; [|done]].
    + by apply in_order_entries.
    + by apply in_order_parents.
Qed.

End Client.
