(* ===== verification/CacheTheorems.v ===== *)
(** * Theorems on the configuration cache

    Refinement of the abstract map by every sequence of requests, what the
    destructor frees, and nodes that cannot be told apart. *)

From S2P Require Import Prelude CacheKeys CacheTree CacheProps CacheOps CacheSpec CacheDelete CacheClient.
From stdpp Require Import relations.

Local Open Scope Z_scope.

Section Theorems.

Context {V : Type} `{ValueStruct V}.
Implicit Types (p : loc) (e : CacheElementUtil V) (k : KeyTree V).

Lemma requests_refine alloc rs k :
  (forall h, h !! alloc h = None) -> cache_ok k ->
  exists l k', run_requests alloc rs k = Some (l, k') /\ cache_ok k' /\
    spec_requests rs (entries k) l (entries k').
Proof.
  intros Ha. revert k. induction rs as [|r rs IH]; intros k Hok.
  - exists [], k. split_and!; [done..|constructor].
  - destruct (request_refines alloc Ha r k Hok) as (a & k1 & E & Hok1 & Hs).
    destruct (IH k1 Hok1) as (l & k' & E' & Hok' & Hs'). exists (a :: l), k'. cbn [run_requests].
    rewrite (kbind_run _ _ _ _ _ E), (kbind_run _ _ _ _ _ E'). split_and!; [done..|].
    by econstructor.
Qed.

(** C14: Whatever a client asks of a new configuration cache, in any order and
    wherever its nodes are allocated, the requests return without touching a
    freed node, tree and search map agree after them, and answers and contents
    are those of a map from identities to elements: a node is added below its
    parent unless its identity is taken, an update replaces the value of a
    physical node, a deletion removes the node with all below it, and an
    iteration meets every element once, after its parent. *)
Theorem cache_refines (alloc : gmap loc (ConfigNode V) -> loc)
    (Ha : forall h, h !! alloc h = None) (rs : list request) :
  exists l k', run_requests alloc rs (KeyTree_new ∅) = Some (l, k') /\ cache_ok k' /\
    spec_requests rs ∅ l (entries k').
Proof.
  rewrite <- (new_cache_entries (V := V)). apply (requests_refine alloc rs _ Ha), new_cache_ok.
Qed.

(** ** The destructor *)

(** The nodes that it deletes. *)
Definition doomed k : list loc :=
  if cfg_node_list_ k ==? [] then in_order k else cfg_node_list_ k.

Lemma delete_all_run l k :
  NoDup l -> Forall (fun p => is_Some (heap k !! p)) l ->
  delete_all l k = Some (tt, set_heap (free l (heap k)) k).
Proof.
  intros Hn. revert k. induction Hn as [|p l Hp Hn IH]; intros k Hf.
  { by rewrite <- (set_heap_heap k) at 1. }
  apply Forall_cons in Hf as [[n Hpn] Hf]. cbn [delete_all].
  rewrite (kbind_run _ _ _ _ _ (delete_run _ _ _ Hpn)). rewrite IH; [done|].
  apply Forall_forall. intros q Hq. rewrite Forall_forall in Hf. cbn.
  rewrite lookup_delete_ne by (intros <-; done). by apply Hf.
Qed.

Lemma in_order_alive k idx :
  tree_ok (heap k) idx -> Forall (fun p => is_Some (heap k !! p)) (in_order k).
Proof.
  intros tok. apply Forall_forall. intros p Hp.
  apply (pre_elem (heap k) idx tok) in Hp; [|lia].
  assert (exists q, is_child (heap k) q p) as [q Hq] by (clear -Hp; induction Hp; eauto).
  by apply (child_alive (heap k) idx tok q).
Qed.

(** The search map plays no part in it. *)
Lemma clear_audit_commit_cache_run k idx :
  tree_ok (heap k) idx -> Forall (fun p => is_Some (heap k !! p)) (cfg_node_list_ k) ->
  NoDup (cfg_node_list_ k) ->
  clear_audit_commit_cache k
  = Some (tt, mkCache (free (doomed k) (heap k)) (ConfigHashArr k) [] (cfgnode_count_ k)).
Proof.
  intros tok Hf Hn. unfold clear_audit_commit_cache, doomed.
  rewrite (kbind_run _ _ k (cfg_node_list_ k) k) by done. case_bool_decide as El.
  - assert (get_nodelist_keytree k = Some (UNC_RC_SUCCESS, set_list (in_order k) k)) as E.
    { unfold get_nodelist_keytree, kbind. cbn [kupdate].
      rewrite (get_node_list_run (heap k) idx tok levels node_tree_ (set_list [] k)); [done..| |lia].
      destruct (ok_root _ _ tok) as (r & Hr & _). by eexists. }
    rewrite (kbind_run _ _ _ tt (set_list (in_order k) k)) by (unfold kbind; by rewrite E).
    rewrite (kbind_run _ _ _ (in_order k) (set_list (in_order k) k)) by done.
    rewrite (kbind_run _ _ _ _ _ (delete_all_run (in_order k) (set_list (in_order k) k)
              (pre_NoDup _ _ tok levels node_tree_ ltac:(lia)) (in_order_alive k idx tok))).
    done.
  - rewrite (kbind_run _ _ _ tt k), (kbind_run _ _ _ (cfg_node_list_ k) k) by done.
    by rewrite (kbind_run _ _ _ _ _ (delete_all_run (cfg_node_list_ k) k Hn Hf)).
Qed.

Lemma destroy_run k :
  cache_ok k ->
  KeyTree_destroy k = Some (tt, mkCache (free (doomed k) (heap k)) ∅ [] 0).
Proof.
  intros Hok. unfold KeyTree_destroy, clear_root_cache.
  rewrite (kbind_run _ _ _ tt (set_hash ∅ k)) by done.
  by rewrite (kbind_run _ _ _ _ _
    (clear_audit_commit_cache_run (set_hash ∅ k) _ (co_tree k Hok) (co_list k Hok) (co_nodup k Hok))).
Qed.

(** The destructor of the cache returns and deletes no node twice.  Of the
    nodes of the tree it deletes those of the vector that an iteration left, or
    all of them when the vector is empty: a node that was added after an
    iteration is never deleted. *)
Theorem destructor_frees k (Hok : cache_ok k) :
  exists k', KeyTree_destroy k = Some (tt, k') /\
    forall i p, ConfigHashArr k !! i = Some p -> p <> node_tree_ ->
      heap k' !! p = None <-> cfg_node_list_ k = [] \/ p ∈ cfg_node_list_ k.
Proof.
  rewrite destroy_run by done. eexists. split; [done|]. intros i p Hi Hp. cbn [heap].
  destruct (ok_hash _ _ (co_tree k Hok) i p Hi Hp) as (n & e & Hn & He & Hid).
  assert (p ∈ in_order k) as Hin by (apply (in_order_elem k Hok); exists n, e; by rewrite Hid).
  unfold doomed. case_bool_decide as El; rewrite free_lookup.
  - rewrite bool_decide_eq_true_2 by done. by split; [left|].
  - case_bool_decide; [by split; [right|]|]. rewrite Hn. split; [done|by intros [?|?]].
Qed.

(** ** Names without separators *)

Definition vbridge_element (vtn vbr : string) (v : V) (op : Z) : CacheElementUtil V :=
  mkElement (KVbr (mkVbr (mkVtn vtn) vbr)) v op.

Lemma string_app_assoc (a b c : string) : (a +:+ b +:+ c = (a +:+ b) +:+ c)%string.
Proof. induction a as [|x a IH]; [done|]. exact (f_equal (String x) IH). Qed.

Lemma string_app_nil (a b : string) : (a +:+ b)%string = a -> b = ""%string.
Proof.
  induction a as [|c a IH]; cbn; [done|]. intros [= E]. by apply IH.
Qed.

(** The search key of a bridge is its tenant's name followed by its own.
    Two bridges whose names split the same text at different places are taken
    for one: adding the second to a cache that has the first answers success,
    and it is not in the cache. *)
Theorem colliding_node_dropped (alloc : gmap loc (ConfigNode V) -> loc)
    (Ha : forall h, h !! alloc h = None) k (Hok : cache_ok k) (a b c : string) v1 v2 op1 op2
    (Hb : b <> ""%string)
    (Hin : entries k !! ident (vbridge_element (a +:+ b) c v1 op1)
           = Some (vbridge_element (a +:+ b) c v1 op1)) :
  exists k', run_request alloc (RAppend (vbridge_element a (b +:+ c) v2 op2)) k
             = Some (Code UNC_RC_SUCCESS, k') /\
    entries k' = entries k /\
    key_ (vbridge_element a (b +:+ c) v2 op2) <> key_ (vbridge_element (a +:+ b) c v1 op1).
Proof.
  destruct (request_refines alloc Ha (RAppend (vbridge_element a (b +:+ c) v2 op2)) k Hok)
    as (ans & k' & E & _ & Hs).
  assert (ident (vbridge_element a (b +:+ c) v2 op2)
          = ident (vbridge_element (a +:+ b) c v1 op1)) as Eid.
  { unfold ident. cbn. by rewrite string_app_assoc. }
  destruct ans as [r| |]; [|done..]. cbn in Hs. unfold spec_append in Hs.
  rewrite Eid, Hin, bool_decide_eq_true_2 in Hs by by eexists. injection Hs as -> Ee.
  exists k'. split_and!; [done..|]. intros [= E1 _]. by apply Hb, (string_app_nil a b).
Qed.

End Theorems.

(** ** Witnesses *)

(** Addresses that grow. *)
Definition next_address {V} (h : gmap loc (ConfigNode V)) : loc :=
  Pos.succ (map_fold (fun p _ m => Pos.max p m) 1%positive h).

Lemma next_address_fresh {V} (h : gmap loc (ConfigNode V)) : h !! next_address h = None.
Proof.
  assert (forall p, is_Some (h !! p) -> (p <= map_fold (fun p _ m => Pos.max p m) 1%positive h)%positive)
    as Hle.
  { apply (map_fold_weak_ind (fun m (h : gmap loc (ConfigNode V)) =>
      forall p, is_Some (h !! p) -> (p <= m)%positive)).
    - intros p [? Hp]. by rewrite lookup_empty in Hp.
    - intros q n h' m Hq IH p Hp. destruct (decide (p = q)) as [->|Hne]; [lia|].
      rewrite lookup_insert_ne in Hp by done. specialize (IH p Hp). lia. }
  destruct (h !! next_address h) as [n|] eqn:E; [|done].
  specialize (Hle _ (mk_is_Some _ _ E)). unfold next_address in Hle. lia.
Qed.

(** Values that are VLANs. *)
#[local] Instance vlan_value : ValueStruct Z := fun v => v.

Definition sample_switch (id : string) (v : Z) : CacheElementUtil Z :=
  mkElement (KSwitch (mkSwitch (mkCtr "odc") id)) v 0.
Definition sample_port (id port : string) (v : Z) : CacheElementUtil Z :=
  mkElement (KPort (mkPort (mkSwitch (mkCtr "odc") id) port)) v 0.
Definition sample_vtn (vtn : string) : CacheElementUtil Z := mkElement (KVtn (mkVtn vtn)) 0 0.

(** Two switches and a port; the second switch comes after an iteration. *)
Definition sample_requests : list (request (V := Z)) :=
  [RAppend (sample_switch "s1" 1); RAppend (sample_port "s1" "p" 2); RTraverse;
   RAppend (sample_switch "s2" 3)].
Definition sample_cache : KeyTree Z :=
  match run_requests next_address sample_requests (KeyTree_new ∅) with
  | Some (_, k) => k
  | None => KeyTree_new ∅
  end.

Example sample_answers :
  fst <$> run_requests next_address
    (sample_requests ++ [RDelete (sample_switch "s1" 0); RFind (sample_port "s1" "p" 0); RTraverse])
    (KeyTree_new ∅)
  = Some [Code UNC_RC_SUCCESS; Code UNC_RC_SUCCESS;
          Visited [sample_switch "s1" 1; sample_port "s1" "p" 2]; Code UNC_RC_SUCCESS;
          Code UNC_RC_SUCCESS; Found None; Visited [sample_switch "s2" 3]].
Proof. vm_compute. reflexivity. Qed.

Lemma ran_ok rs : cache_ok (match run_requests next_address rs (KeyTree_new (V := Z) ∅) with
                            | Some (_, k) => k | None => KeyTree_new ∅ end).
Proof.
  destruct (requests_refine next_address rs _ next_address_fresh new_cache_ok)
    as (l & k & E & Hok & _). by rewrite E.
Qed.

Lemma cache_refines_witness :
  exists l k', run_requests next_address sample_requests (KeyTree_new ∅) = Some (l, k') /\
    cache_ok k' /\ spec_requests sample_requests ∅ l (entries k').
Proof. exact (cache_refines next_address next_address_fresh sample_requests). Defined.

Lemma destructor_frees_witness :
  exists k', KeyTree_destroy sample_cache = Some (tt, k') /\
    heap k' !! 2%positive = None /\ heap k' !! 4%positive <> None.
Proof.
  destruct (destructor_frees sample_cache (ran_ok sample_requests)) as (k' & E & Hf).
  exists k'. split; [exact E|]. split.
  - apply (Hf (UNC_KT_SWITCH, "odcs1"%string)); [by vm_compute|done|]. right.
    apply (bool_decide_eq_true_1 _). by vm_compute.
  - intros Hn. apply (Hf (UNC_KT_SWITCH, "odcs2"%string)) in Hn; [|by vm_compute|done].
    destruct Hn as [Hn|Hn].
    + by vm_compute in Hn.
    + apply (bool_decide_eq_true_2 _) in Hn. by vm_compute in Hn.
Defined.

Definition vtn_requests : list (request (V := Z)) :=
  [RAppend (sample_vtn "ab"); RAppend (sample_vtn "a"); RAppend (vbridge_element "ab" "c" 0 0)].
Definition vtn_cache : KeyTree Z :=
  match run_requests next_address vtn_requests (KeyTree_new ∅) with
  | Some (_, k) => k
  | None => KeyTree_new ∅
  end.

Lemma colliding_node_dropped_witness :
  exists k', run_request next_address (RAppend (vbridge_element "a" "bc" 0 0)) vtn_cache
             = Some (Code UNC_RC_SUCCESS, k') /\
    entries k' = entries vtn_cache /\
    key_ (vbridge_element (V := Z) "a" "bc" 0 0) <> key_ (vbridge_element (V := Z) "ab" "c" 0 0).
Proof.
  apply (colliding_node_dropped next_address next_address_fresh vtn_cache (ran_ok vtn_requests)
           "a" "b" "c" 0 0 0 0); [done|]. by vm_compute.
Defined.
