(* ===== verification/DrvCtr.v ===== *)
(** * Controllers and their framework

    [controller_exclusion], [controller_operation] ([controller_utils.hh],
    [controller_fw.cc] of [modules/vtndrvintf]) and [ControllerFramework]: the
    controllers a driver process knows, and the access to them.  A controller
    is a location of a heap; [delete] removes it, and use of a controller that
    is gone has no result ([None]).

    [controller_list_rwlock_] is held from the constructor of an operation that
    adds, updates or deletes to its destructor, and only within the constructor
    and within the destructor of one that reads or writes. *)

From S2P Require Import Prelude CacheKeys CacheTree.

Local Open Scope Z_scope.

Inductive ConnectionStatus := CONNECTION_UP | CONNECTION_DOWN.
#[export] Instance ConnectionStatus_eq_dec : EqDecision ConnectionStatus.
Proof. solve_decision. Defined.

Inductive ControllerOps :=
| CONTROLLER_ADD | CONTROLLER_UPDATE | CONTROLLER_DELETE | READ_FROM_CONTROLLER
| WRITE_TO_CONTROLLER.
#[export] Instance ControllerOps_eq_dec : EqDecision ControllerOps.
Proof. solve_decision. Defined.

(** ** [controller_exclusion] *)

Record controller_exclusion := mkExcl {
  read_count_ : Z;
  write_count_ : Z;
  write_in_progress_ : bool;
  write_wait_count_ : Z;
  read_wait_count_ : Z;
  controller_marked_for_delete_ : bool;
  controller_marked_for_update_ : bool
}.

Definition exclusion_new : controller_exclusion := mkExcl 0 0 false 0 0 false false.

Section Exclusion.

Context (a : controller_exclusion).

Definition set_read_count (n : Z) : controller_exclusion :=
  mkExcl n (write_count_ a) (write_in_progress_ a) (write_wait_count_ a) (read_wait_count_ a)
    (controller_marked_for_delete_ a) (controller_marked_for_update_ a).
Definition set_write_count (n : Z) : controller_exclusion :=
  mkExcl (read_count_ a) n (write_in_progress_ a) (write_wait_count_ a) (read_wait_count_ a)
    (controller_marked_for_delete_ a) (controller_marked_for_update_ a).
Definition set_write_in_progress (b : bool) : controller_exclusion :=
  mkExcl (read_count_ a) (write_count_ a) b (write_wait_count_ a) (read_wait_count_ a)
    (controller_marked_for_delete_ a) (controller_marked_for_update_ a).
Definition set_write_wait_count (n : Z) : controller_exclusion :=
  mkExcl (read_count_ a) (write_count_ a) (write_in_progress_ a) n (read_wait_count_ a)
    (controller_marked_for_delete_ a) (controller_marked_for_update_ a).
Definition set_read_wait_count (n : Z) : controller_exclusion :=
  mkExcl (read_count_ a) (write_count_ a) (write_in_progress_ a) (write_wait_count_ a) n
    (controller_marked_for_delete_ a) (controller_marked_for_update_ a).
Definition mark_controller_for_delete : controller_exclusion :=
  mkExcl (read_count_ a) (write_count_ a) (write_in_progress_ a) (write_wait_count_ a)
    (read_wait_count_ a) true (controller_marked_for_update_ a).
Definition set_controller_marked_for_update (b : bool) : controller_exclusion :=
  mkExcl (read_count_ a) (write_count_ a) (write_in_progress_ a) (write_wait_count_ a)
    (read_wait_count_ a) (controller_marked_for_delete_ a) b.

Definition can_delete_update : bool := (read_count_ a ==? 0) && (write_count_ a ==? 0).

End Exclusion.

(** The condition variables of a controller: [parellel_write_wait_cond_],
    [update_in_progress_cond_] and [delete_waiting_cond_]. *)
Inductive Cond := WriteCond | UpdateCond | DeleteCond.
#[export] Instance Cond_eq_dec : EqDecision Cond.
Proof. solve_decision. Defined.

(** ** Controllers *)

(** The timers [timed_] and [physical_timed_] are there or not. *)
Record controller (V : Type) := mkCtl {
  controller_cache : option (KeyTree V);
  physical_port_cache : option (KeyTree V);
  timed_ : bool;
  physical_timed_ : bool;
  access_ : controller_exclusion;
  audit_result_ : bool;
  connection_status_ : ConnectionStatus
}.
#[global] Arguments mkCtl {V}.
#[global] Arguments controller_cache {V}.
#[global] Arguments physical_port_cache {V}.
#[global] Arguments timed_ {V}.
#[global] Arguments physical_timed_ {V}.
#[global] Arguments access_ {V}.
#[global] Arguments audit_result_ {V}.
#[global] Arguments connection_status_ {V}.

Definition controller_new {V} : controller V :=
  mkCtl None None false false exclusion_new false CONNECTION_DOWN.

Section Setters.

Context {V : Type} (c : controller V).

Definition set_access (a : controller_exclusion) : controller V :=
  mkCtl (controller_cache c) (physical_port_cache c) (timed_ c) (physical_timed_ c) a
    (audit_result_ c) (connection_status_ c).
Definition set_audit_result (b : bool) : controller V :=
  mkCtl (controller_cache c) (physical_port_cache c) (timed_ c) (physical_timed_ c) (access_ c)
    b (connection_status_ c).
Definition set_connection_status (s : ConnectionStatus) : controller V :=
  mkCtl (controller_cache c) (physical_port_cache c) (timed_ c) (physical_timed_ c) (access_ c)
    (audit_result_ c) s.
Definition set_controller_cache (k : option (KeyTree V)) : controller V :=
  mkCtl k (physical_port_cache c) (timed_ c) (physical_timed_ c) (access_ c)
    (audit_result_ c) (connection_status_ c).
Definition set_physical_port_cache (k : option (KeyTree V)) : controller V :=
  mkCtl (controller_cache c) k (timed_ c) (physical_timed_ c) (access_ c)
    (audit_result_ c) (connection_status_ c).
Definition set_timed (b : bool) : controller V :=
  mkCtl (controller_cache c) (physical_port_cache c) b (physical_timed_ c) (access_ c)
    (audit_result_ c) (connection_status_ c).
Definition set_physical_timed (b : bool) : controller V :=
  mkCtl (controller_cache c) (physical_port_cache c) (timed_ c) b (access_ c)
    (audit_result_ c) (connection_status_ c).

End Setters.

(** A driver is known by the type of its controllers. *)
Record ControllerContainer := mkContainer { ctr : loc; drv : Z; Domain_event_ : bool }.

Inductive TimerKind := PingTimer | PhysicalTimer.

(** [posts] are the timers posted so far, latest first: kind, controller and
    interval. *)
Record ControllerFramework (V : Type) := mkFw {
  ctrs : gmap loc (controller V);
  controller_list : gmap string ControllerContainer;
  driver_container : gset Z;
  time_interval_ : Z;
  posts : list (TimerKind * string * Z)
}.
#[global] Arguments mkFw {V}.
#[global] Arguments ctrs {V}.
#[global] Arguments controller_list {V}.
#[global] Arguments driver_container {V}.
#[global] Arguments time_interval_ {V}.
#[global] Arguments posts {V}.

Section Framework.

Context {V : Type}.
Implicit Types (fw : ControllerFramework V) (c : loc) (name : string).

Definition set_ctrs (h : gmap loc (controller V)) fw : ControllerFramework V :=
  mkFw h (controller_list fw) (driver_container fw) (time_interval_ fw) (posts fw).
Definition set_controller_list (l : gmap string ControllerContainer) fw : ControllerFramework V :=
  mkFw (ctrs fw) l (driver_container fw) (time_interval_ fw) (posts fw).
Definition add_post (p : TimerKind * string * Z) fw : ControllerFramework V :=
  mkFw (ctrs fw) (controller_list fw) (driver_container fw) (time_interval_ fw) (p :: posts fw).

(** A change of the controller at [c]. *)
Definition with_ctr c (f : controller V -> controller V) fw : option (ControllerFramework V) :=
  match ctrs fw !! c with
  | Some k => Some (set_ctrs (<[c := f k]> (ctrs fw)) fw)
  | None => None
  end.
Definition with_access c (f : controller_exclusion -> controller_exclusion) fw
    : option (ControllerFramework V) :=
  with_ctr c (fun k => set_access k (f (access_ k))) fw.

(** ** [controller_operation] *)

(** What the constructor comes to: the mutex is held and the handle is set or
    not; the mutex is released; the thread waits. *)
Inductive Entry := Locked (handle : option loc) | Entered (c : loc) | Waits (cv : Cond) (c : loc).

Definition enter_read c fw : option (Entry * ControllerFramework V) :=
  fw1 ← with_access c (fun a => set_read_count a (u32_inc (read_count_ a))) fw;
  Some (Entered c, fw1).
Definition enter_write c fw : option (Entry * ControllerFramework V) :=
  fw1 ← with_access c (fun a => set_write_count (set_write_in_progress a true) 1) fw;
  Some (Entered c, fw1).

(** [GetDriverByControllerName] *)
Definition GetDriverByControllerName name fw : option ControllerContainer :=
  controller_list fw !! name.

(** The case [CONTROLLER_DELETE] falls through to [CONTROLLER_UPDATE]. *)
Definition controller_operation_new (op : ControllerOps) name fw
    : option (Entry * ControllerFramework V) :=
  match GetDriverByControllerName name fw with
  | None => Some (Locked None, fw)
  | Some ct =>
      let c := ctr ct in
      k ← ctrs fw !! c;
      let a := access_ k in
      match op with
      | CONTROLLER_DELETE | CONTROLLER_UPDATE =>
          fw1 ← with_access c (fun a =>
                  if op ==? CONTROLLER_DELETE then mark_controller_for_delete a
                  else set_controller_marked_for_update a true) fw;
          if can_delete_update a then Some (Locked (Some c), fw1)
          else Some (Waits DeleteCond c, fw1)
      | READ_FROM_CONTROLLER =>
          if controller_marked_for_delete_ a then Some (Locked None, fw)
          else if controller_marked_for_update_ a then
            fw1 ← with_access c (fun a =>
                    set_read_wait_count a (u32_inc (read_wait_count_ a))) fw;
            Some (Waits UpdateCond c, fw1)
          else enter_read c fw
      | WRITE_TO_CONTROLLER =>
          if controller_marked_for_delete_ a then Some (Locked None, fw)
          else if (write_count_ a !=? 0) || controller_marked_for_update_ a then
            fw1 ← with_access c (fun a =>
                    set_write_wait_count a (u32_inc (write_wait_count_ a))) fw;
            Some (Waits WriteCond c, fw1)
          else enter_write c fw
      | CONTROLLER_ADD => Some (Locked (Some c), fw)
      end
  end.

(** [get_controller_status] *)
Definition get_controller_status name fw : bool :=
  match GetDriverByControllerName name fw with Some _ => true | None => false end.

(** The constructor after its wait, which is not repeated. *)
Definition controller_operation_resume (op : ControllerOps) c fw
    : option (Entry * ControllerFramework V) :=
  match op with
  | READ_FROM_CONTROLLER =>
      fw1 ← with_access c (fun a => set_read_wait_count a (u32_dec (read_wait_count_ a))) fw;
      enter_read c fw1
  | WRITE_TO_CONTROLLER =>
      fw1 ← with_access c (fun a => set_write_wait_count a (u32_dec (write_wait_count_ a))) fw;
      enter_write c fw1
  | _ => Some (Locked (Some c), fw)
  end.

(** The destructor, with the condition variables on which it broadcasts.  The
    counters are unsigned: [write_count <= 0] is [write_count == 0]. *)
Definition controller_operation_delete (op : ControllerOps) (handle : option loc) fw
    : option (list Cond * ControllerFramework V) :=
  match handle with
  | None => Some ([], fw)
  | Some c =>
      match op with
      | CONTROLLER_UPDATE =>
          fw1 ← with_access c (fun a => set_controller_marked_for_update a false) fw;
          k ← ctrs fw1 !! c;
          Some (UpdateCond ::
                (if bool_decide (write_wait_count_ (access_ k) > 0) then [WriteCond] else []), fw1)
      | CONTROLLER_DELETE | CONTROLLER_ADD => Some ([], fw)
      | READ_FROM_CONTROLLER | WRITE_TO_CONTROLLER =>
          k ← ctrs fw !! c;
          let a := access_ k in
          let read_count :=
            if op ==? READ_FROM_CONTROLLER then u32_dec (read_count_ a) else read_count_ a in
          let write_count :=
            if op ==? WRITE_TO_CONTROLLER then u32_dec (write_count_ a) else write_count_ a in
          fw1 ← with_access c (fun a =>
                  let a1 := if op ==? WRITE_TO_CONTROLLER
                            then set_write_in_progress a false else a in
                  set_write_count (set_read_count a1 read_count) write_count) fw;
          Some ((if (write_count ==? 0) && bool_decide (write_wait_count_ a > 0)
                 then [WriteCond] else []) ++
                (if (write_count ==? 0) && (write_wait_count_ a ==? 0) && (read_count ==? 0)
                 then [DeleteCond] else []), fw1)
      end
  end.

(** ** [ControllerFramework] *)

Definition first_ping_interval : Z := 10.
Definition first_physical_task_interval : Z := 15.

Definition PostTimer name (ping_interval : Z) fw : ControllerFramework V :=
  if ping_interval ==? 0 then fw else add_post (PingTimer, name, ping_interval) fw.
Definition post_physical_taskq name (time_interval : Z) fw : ControllerFramework V :=
  if time_interval ==? 0 then fw else add_post (PhysicalTimer, name, time_interval) fw.

(** [std::map::insert] keeps a container that is there. *)
Definition insert_container name (ct : ControllerContainer) fw : ControllerFramework V :=
  match controller_list fw !! name with
  | Some _ => fw
  | None => set_controller_list (<[name := ct]> (controller_list fw)) fw
  end.

(** [ping] and [physical] are what the driver says is needed. *)
Definition AddController name c (d : Z) (ping physical : bool) fw
    : option (ControllerFramework V) :=
  let fw1 := insert_container name (mkContainer c d false) fw in
  fw2 ← (if ping then
           fw2 ← with_ctr c (fun k => set_timed k true) fw1;
           Some (PostTimer name first_ping_interval fw2)
         else Some fw1);
  if physical then
    fw3 ← with_ctr c (fun k => set_physical_timed k true) fw2;
    Some (post_physical_taskq name first_physical_task_interval fw3)
  else Some fw2.

(** Of a controller that is known; [update_controller] of the driver changes
    what is not part of this model. *)
Definition UpdateControllerConfiguration name c (d : Z) (ping physical : bool) fw
    : option (UncRespCode * ControllerFramework V) :=
  match controller_list fw !! name with
  | Some ct =>
      let fw1 := set_controller_list
                   (<[name := mkContainer c (drv ct) (Domain_event_ ct)]> (controller_list fw)) fw in
      let fw2 := if physical then post_physical_taskq name first_physical_task_interval fw1
                 else fw1 in
      let fw3 := if ping then PostTimer name first_ping_interval fw2 else fw2 in
      Some (UNC_RC_SUCCESS, fw3)
  | None =>
      let fw1 := insert_container name (mkContainer c d false) fw in
      fw2 ← (if physical then
               fw2 ← with_ctr c (fun k => set_physical_timed k true) fw1;
               Some (post_physical_taskq name (time_interval_ fw) fw2)
             else Some fw1);
      fw3 ← (if ping then
               fw3 ← with_ctr c (fun k => set_timed k true) fw2;
               Some (PostTimer name first_ping_interval fw3)
             else Some fw2);
      Some (UNC_RC_SUCCESS, fw3)
  end.

(** The destructor of the container deletes the controller. *)
Definition RemoveControllerConfiguration name fw : UncRespCode * ControllerFramework V :=
  match controller_list fw !! name with
  | Some ct =>
      (UNC_RC_SUCCESS,
       set_controller_list (delete name (controller_list fw))
         (set_ctrs (delete (ctr ct) (ctrs fw)) fw))
  | None => (UNC_DRV_RC_ERR_GENERIC, fw)
  end.

Definition RegisterDriver (t : Z) fw : ControllerFramework V :=
  mkFw (ctrs fw) (controller_list fw) ({[t]} ∪ driver_container fw) (time_interval_ fw) (posts fw).
Definition GetDriverInstance (t : Z) fw : option Z :=
  if bool_decide (t ∈ driver_container fw) then Some t else None.

Definition SetDomainFlag name (flag : bool) fw : ControllerFramework V :=
  match controller_list fw !! name with
  | Some ct => set_controller_list (<[name := mkContainer (ctr ct) (drv ct) flag]>
                                      (controller_list fw)) fw
  | None => fw
  end.
Definition GetDomainFlag name fw : bool :=
  match controller_list fw !! name with Some ct => Domain_event_ ct | None => true end.

(** *** Pings *)

(** The event for UPPL: old and new status, and whether the version is valid. *)
Record StateEvent := mkStateEvent {
  ev_controller : string;
  oper_status_new : ConnectionStatus;
  oper_status_old : ConnectionStatus;
  version_valid : bool
}.
Definition SendNotificationToPhysical name (type : ConnectionStatus) : StateEvent :=
  match type with
  | CONNECTION_DOWN => mkStateEvent name CONNECTION_DOWN CONNECTION_UP false
  | CONNECTION_UP => mkStateEvent name CONNECTION_UP CONNECTION_DOWN true
  end.

(** [PingController] with the handles of a read operation; [alive] is the
    driver's answer and [interval] its interval. *)
Definition PingController name c (alive : bool) (interval : Z) fw
    : option (list StateEvent * ControllerFramework V) :=
  k ← ctrs fw !! c;
  if alive then
    let ev := if connection_status_ k ==? CONNECTION_DOWN
              then [SendNotificationToPhysical name CONNECTION_UP] else [] in
    fw1 ← with_ctr c (fun k => set_connection_status k CONNECTION_UP) fw;
    Some (ev, PostTimer name interval fw1)
  else
    let ev := if connection_status_ k ==? CONNECTION_UP
              then [SendNotificationToPhysical name CONNECTION_DOWN] else [] in
    fw1 ← with_ctr c (fun k => set_connection_status k CONNECTION_DOWN)
            (SetDomainFlag name false fw);
    Some (ev, PostTimer name interval fw1).

(** [GetPhysicalConfig]; [details] is the driver's work on the cache. *)
Definition GetPhysicalConfig name c (details : KeyTree V -> KeyTree V) fw
    : option (ControllerFramework V) :=
  fw1 ← with_ctr c (fun k =>
          set_physical_port_cache k
            (Some (details (default (KeyTree_new ∅) (physical_port_cache k))))) fw;
  Some (post_physical_taskq name (time_interval_ fw) fw1).

End Framework.

(** ** Threads that operate on controllers

    The transition system of any number of threads that construct and destroy
    [controller_operation]s.  A step is what a thread does while it holds
    [controller_list_rwlock_]; a wait releases the mutex, and a thread that was
    woken goes on when it gets the mutex again.  A thread is woken by a
    broadcast, or spuriously, as POSIX allows it ([EWake]).

    An operation that deletes calls [RemoveControllerConfiguration] before its
    destructor, with the mutex held throughout; one that adds is a single step
    for the same reason. *)

Notation tid := positive.

Inductive Phase :=
| Working (op : ControllerOps) (name : string) (handle : option loc)
| Waiting (op : ControllerOps) (name : string) (cv : Cond) (c : loc) (woken : bool).

Record System (V : Type) := mkSys {
  fw : ControllerFramework V;
  mutex : option tid;
  threads : gmap tid Phase
}.
#[global] Arguments mkSys {V}.
#[global] Arguments fw {V}.
#[global] Arguments mutex {V}.
#[global] Arguments threads {V}.

Inductive Event :=
| EStart (t : tid) (op : ControllerOps) (name : string)
| EResume (t : tid)
| EFinish (t : tid)
| EWake (t : tid)
| EAdd (name : string) (c : loc) (d : Z) (ping physical : bool).

(** A step that is not possible now, the use of a deleted controller, or the
    next state. *)
Inductive Outcome (V : Type) := Disabled | Fault | Next (s : System V).
#[global] Arguments Disabled {V}.
#[global] Arguments Fault {V}.
#[global] Arguments Next {V}.

(** A broadcast on some of the condition variables of [c]. *)
Definition wake_phase (cvs : list Cond) (c : loc) (ph : Phase) : Phase :=
  match ph with
  | Waiting op name cv c' _ =>
      if bool_decide (cv ∈ cvs) && (c' ==? c) then Waiting op name cv c' true else ph
  | _ => ph
  end.
Definition broadcast (cvs : list Cond) (h : option loc) (m : gmap tid Phase) : gmap tid Phase :=
  match h with
  | Some c => wake_phase cvs c <$> m
  | None => m
  end.

Section System.

Context {V : Type}.
Implicit Types (s : System V) (t : tid).

(** The state after a constructor. *)
Definition entered s t (op : ControllerOps) (name : string)
    (r : option (Entry * ControllerFramework V)) : Outcome V :=
  match r with
  | None => Fault
  | Some (Locked h, fw1) => Next (mkSys fw1 (Some t) (<[t := Working op name h]> (threads s)))
  | Some (Entered c, fw1) => Next (mkSys fw1 None (<[t := Working op name (Some c)]> (threads s)))
  | Some (Waits cv c, fw1) => Next (mkSys fw1 None (<[t := Waiting op name cv c false]> (threads s)))
  end.

(** The body of an operation that has the mutex. *)
Definition locked_body (op : ControllerOps) (name : string) (h : option loc)
    (f : ControllerFramework V) : ControllerFramework V :=
  match op, h with
  | CONTROLLER_DELETE, Some _ => (RemoveControllerConfiguration name f).2
  | _, _ => f
  end.

(** Whether the destructor starts with the mutex: all but operations that read
    or write and have a handle. *)
Definition keeps_mutex (op : ControllerOps) (h : option loc) : bool :=
  match op, h with
  | (READ_FROM_CONTROLLER | WRITE_TO_CONTROLLER), Some _ => false
  | _, _ => true
  end.

Definition step (e : Event) s : Outcome V :=
  match e with
  | EStart t op name =>
      match mutex s, threads s !! t with
      | None, None => entered s t op name (controller_operation_new op name (fw s))
      | _, _ => Disabled
      end
  | EResume t =>
      match mutex s, threads s !! t with
      | None, Some (Waiting op name cv c true) =>
          entered s t op name (controller_operation_resume op c (fw s))
      | _, _ => Disabled
      end
  | EFinish t =>
      match threads s !! t with
      | Some (Working op name h) =>
          if mutex s ==? (if keeps_mutex op h then Some t else None) then
            match controller_operation_delete op h (locked_body op name h (fw s)) with
            | Some (cvs, fw1) => Next (mkSys fw1 None (broadcast cvs h (delete t (threads s))))
            | None => Fault
            end
          else Disabled
      | _ => Disabled
      end
  | EWake t =>
      match threads s !! t with
      | Some (Waiting op name cv c false) =>
          Next (mkSys (fw s) (mutex s) (<[t := Waiting op name cv c true]> (threads s)))
      | _ => Disabled
      end
  | EAdd name c d ping physical =>
      match mutex s, ctrs (fw s) !! c with
      | None, None =>
          match AddController name c d ping physical
                  (set_ctrs (<[c := controller_new]> (ctrs (fw s))) (fw s)) with
          | Some fw1 => Next (mkSys fw1 None (threads s))
          | None => Fault
          end
      | _, _ => Disabled
      end
  end.

Definition init_fw : ControllerFramework V := mkFw ∅ ∅ ∅ 0 [].
Definition init : System V := mkSys init_fw None ∅.

(** A sequence of steps that are all possible. *)
Fixpoint run (l : list Event) s : Outcome V :=
  match l with
  | [] => Next s
  | e :: l' => match step e s with Next s1 => run l' s1 | o => o end
  end.

(** ** Rules

    The operations that change a controller are started one at a time, as the
    configuration lock of the coordinator makes them; an update or a deletion
    is not started while readers still wait for an earlier update.  No thread
    is woken spuriously.  Addresses
    of controllers are not used again while a thread holds one; the number of
    threads fits the counters. *)

Definition points_to (c : loc) (ph : Phase) : bool :=
  match ph with
  | Working _ _ h => h ==? Some c
  | Waiting _ _ _ c' _ => c' ==? c
  end.
Definition phase_op (ph : Phase) : ControllerOps :=
  match ph with Working op _ _ | Waiting op _ _ _ _ => op end.
Definition is_mutator (op : ControllerOps) : bool :=
  match op with CONTROLLER_UPDATE | CONTROLLER_DELETE | WRITE_TO_CONTROLLER => true | _ => false end.
Definition mutates (c : loc) (ph : Phase) : bool := points_to c ph && is_mutator (phase_op ph).
Definition waits_to_read (c : loc) (ph : Phase) : bool :=
  match ph with
  | Waiting READ_FROM_CONTROLLER _ _ c' _ => c' ==? c
  | _ => false
  end.

Definition none_of (P : Phase -> bool) (m : gmap tid Phase) : bool :=
  forallb (fun x => negb (P x.2)) (map_to_list m).

Definition allowed (e : Event) s : bool :=
  match e with
  | EStart t op name =>
      bool_decide (Z.of_nat (size (threads s)) < UINT32_MAX) &&
      match controller_list (fw s) !! name with
      | None => true
      | Some ct =>
          match op with
          | WRITE_TO_CONTROLLER => none_of (mutates (ctr ct)) (threads s)
          | CONTROLLER_UPDATE | CONTROLLER_DELETE =>
              none_of (mutates (ctr ct)) (threads s) && none_of (waits_to_read (ctr ct)) (threads s)
          | READ_FROM_CONTROLLER => true
          | CONTROLLER_ADD => false
          end
      end
  | EAdd _ c _ _ _ => none_of (points_to c) (threads s)
  | EWake _ => false
  | _ => true
  end.

Inductive reachable : System V -> Prop :=
| reach_init : reachable init
| reach_step s e s1 : reachable s -> allowed e s = true -> step e s = Next s1 -> reachable s1.

End System.
