(* ===== verification/DrvLocal.v ===== *)
(** * One controller and the threads that operate on it

    What a thread does with a controller is its role.  The counters and flags
    of [controller_exclusion] agree with the roles ([local_ok]), and every
    operation that the rules allow keeps it so. *)

From S2P Require Import Prelude CacheKeys CacheTree DrvCtr.

Local Open Scope Z_scope.

Inductive Role :=
| Reads | Writes | Updates | Deletes
| WaitsRead (woken : bool) | WaitsWrite | WaitsUpdate (woken : bool) | WaitsDelete (woken : bool).
#[export] Instance Role_eq_dec : EqDecision Role.
Proof. solve_decision. Defined.

Definition is_reads (r : Role) : bool := match r with Reads => true | _ => false end.
Definition is_writes (r : Role) : bool := match r with Writes => true | _ => false end.
Definition is_wait_read (r : Role) : bool := match r with WaitsRead _ => true | _ => false end.
Definition is_update (r : Role) : bool :=
  match r with Updates | WaitsUpdate _ => true | _ => false end.
Definition is_delete (r : Role) : bool :=
  match r with Deletes | WaitsDelete _ => true | _ => false end.
Definition is_exclusive (r : Role) : bool := is_update r || is_delete r.
Definition is_changer (r : Role) : bool :=
  is_exclusive r || match r with Writes | WaitsWrite => true | _ => false end.

(** A broadcast on the condition variable of readers, or of those who update
    and delete. *)
Definition wake_readers (r : Role) : Role :=
  match r with WaitsRead _ => WaitsRead true | _ => r end.
Definition wake_exclusive (r : Role) : Role :=
  match r with
  | WaitsUpdate _ => WaitsUpdate true
  | WaitsDelete _ => WaitsDelete true
  | _ => r
  end.

(** ** Counting *)

Section Count.

Context {A : Type} (P : A -> bool).
Implicit Types (v : gmap tid A) (t : tid).

Definition count v : nat := size (filter (fun x => P x.2 = true) v).
Definition b2n (b : bool) : nat := if b then 1 else 0.

Lemma roles_insert v t x :
  v !! t = None -> count (<[t := x]> v) = (b2n (P x) + count v)%nat.
Proof.
  intros Ht. unfold count. destruct (P x) eqn:E; cbn [b2n Nat.add].
  - rewrite map_filter_insert_True by done. apply map_size_insert_None, map_lookup_filter_None_2. by left.
  - rewrite map_filter_insert_False by (cbn; congruence). by rewrite delete_id.
Qed.

Lemma count_delete v t x :
  v !! t = Some x -> count v = (b2n (P x) + count (delete t v))%nat.
Proof.
  intros Ht. rewrite <- (roles_insert (delete t v) t x) by apply lookup_delete_eq.
  by rewrite insert_delete_id.
Qed.

Lemma roles_replace v t x y :
  v !! t = Some x -> (b2n (P x) + count (<[t := y]> v) = b2n (P y) + count v)%nat.
Proof.
  intros Ht. rewrite (count_delete v t x Ht).
  rewrite <- (insert_delete_eq v t y), roles_insert by apply lookup_delete_eq. lia.
Qed.

Lemma count_size v : (count v <= size v)%nat.
Proof. unfold count. apply map_subseteq_size, map_filter_subseteq. Qed.

Lemma count_zero v : count v = 0%nat <-> forall t x, v !! t = Some x -> P x = false.
Proof.
  unfold count. rewrite map_size_empty_iff. split.
  - intros E t x Ht. destruct (P x) eqn:EP; [|done].
    assert (filter (fun x => P x.2 = true) v !! t = Some x) as Hf
      by by apply map_lookup_filter_Some_2.
    by rewrite E, lookup_empty in Hf.
  - intros Hn. apply map_empty. intros t. apply map_lookup_filter_None_2. right.
    intros x Ht HP. cbn in HP. by rewrite (Hn t x Ht) in HP.
Qed.

Lemma count_pos v : (0 < count v)%nat <-> exists t x, v !! t = Some x /\ P x = true.
Proof.
  split.
  - intros Hp. destruct (decide (map_Exists (fun _ x => P x = true) v)) as [(t & x & ?)|Hn]; [eauto|].
    assert (count v = 0%nat); [|lia]. apply count_zero. intros t x Ht.
    destruct (P x) eqn:E; [|done]. destruct Hn. by exists t, x.
  - intros (t & x & Ht & E). assert (count v <> 0%nat); [|lia]. rewrite count_zero. intros Hn.
    rewrite (Hn t x Ht) in E. done.
Qed.

Lemma count_fmap (f : A -> A) v : (forall x, P (f x) = P x) -> count (f <$> v) = count v.
Proof.
  intros Hf. induction v as [|t x v Ht IH] using map_ind; [by rewrite fmap_empty|].
  rewrite fmap_insert, !roles_insert, IH, Hf; [done|done|]. by rewrite lookup_fmap, Ht.
Qed.

End Count.
#[global] Arguments count : simpl never.

Notation readers := (count is_reads).
Notation writers := (count is_writes).
Notation waiting_readers := (count is_wait_read).

(** ** The invariant *)

Record local_ok (a : controller_exclusion) (v : gmap tid Role) : Prop := {
  lo_read : read_count_ a = Z.of_nat (readers v);
  lo_write : write_count_ a = Z.of_nat (writers v);
  lo_write_wait : write_wait_count_ a = 0;
  lo_read_wait : read_wait_count_ a = Z.of_nat (waiting_readers v);
  lo_changer : forall t t' r r', v !! t = Some r -> v !! t' = Some r' ->
    is_changer r = true -> is_changer r' = true -> t = t';
  lo_update : controller_marked_for_update_ a = true <->
    exists t r, v !! t = Some r /\ is_update r = true;
  lo_delete : controller_marked_for_delete_ a = true <->
    exists t r, v !! t = Some r /\ is_delete r = true;
  lo_waits : forall t w, v !! t = Some (WaitsRead w) ->
    if w then controller_marked_for_update_ a = false /\ controller_marked_for_delete_ a = false
    else controller_marked_for_update_ a = true;
  lo_alone : forall t t', v !! t = Some Updates \/ v !! t = Some Deletes -> v !! t' <> Some Reads;
  lo_pending : forall t w, v !! t = Some (WaitsUpdate w) \/ v !! t = Some (WaitsDelete w) ->
    if w then forall t', v !! t' <> Some Reads else exists t', v !! t' = Some Reads;
  lo_no_wait : forall t, v !! t <> Some WaitsWrite
}.

Lemma local_ok_empty : local_ok exclusion_new ∅.
Proof.
  split; try done; try (intros * Hx; rewrite ?lookup_empty in *; naive_solver); cbn.
  - split; [done|]. intros (t & r & Ht & _). by rewrite lookup_empty in Ht.
  - split; [done|]. intros (t & r & Ht & _). by rewrite lookup_empty in Ht.
Qed.

(** ** What each operation does *)

Ltac roles :=
  repeat match goal with
  | H : <[_ := _]> _ !! _ = Some _ |- _ => apply lookup_insert_Some in H as [[? ?]|[? ?]]
  | H : delete _ _ !! _ = Some _ |- _ => apply lookup_delete_Some in H as [? ?]
  | H : (_ <$> _) !! _ = Some _ |- _ => apply lookup_fmap_Some in H as (? & ? & ?)
  | H : _ \/ _ |- _ => destruct H
  end; simplify_eq; try done.

(** Nobody has a role that the flags rule out. *)
Ltac refute Nu Nd :=
  match goal with
  | H : _ !! _ = Some _ |- _ => first [by specialize (Nu _ _ H) | by specialize (Nd _ _ H)]
  end.

Section Local.

Context (a : controller_exclusion) (v : gmap tid Role) (Hok : local_ok a v) (t : tid).

Lemma not_updated : controller_marked_for_update_ a = false ->
  forall t r, v !! t = Some r -> is_update r = false.
Proof.
  intros E t0 r Ht. destruct (is_update r) eqn:Er; [|done].
  assert (controller_marked_for_update_ a = true); [apply (lo_update _ _ Hok); eauto|congruence].
Qed.

Lemma not_deleted : controller_marked_for_delete_ a = false ->
  forall t r, v !! t = Some r -> is_delete r = false.
Proof.
  intros E t0 r Ht. destruct (is_delete r) eqn:Er; [|done].
  assert (controller_marked_for_delete_ a = true); [apply (lo_delete _ _ Hok); eauto|congruence].
Qed.

(** Flags that are set for threads other than [t]. *)
Lemma exists_other (P : Role -> bool) r :
  (forall r0, v !! t = Some r0 -> P r0 = false) -> P r = false ->
  (exists t' r', v !! t' = Some r' /\ P r' = true) <->
  (exists t' r', <[t := r]> v !! t' = Some r' /\ P r' = true).
Proof.
  intros Hold Hr. split; intros (t' & r' & Ht & HP).
  - exists t', r'. split; [|done]. rewrite lookup_insert_ne; [done|]. intros <-.
    rewrite (Hold r' Ht) in HP. done.
  - roles; [congruence|eauto].
Qed.

Lemma exists_deleted (P : Role -> bool) r0 :
  v !! t = Some r0 -> P r0 = false ->
  (exists t' r', v !! t' = Some r' /\ P r' = true) <->
  (exists t' r', delete t v !! t' = Some r' /\ P r' = true).
Proof.
  intros Hold Hr. split; intros (t' & r' & Ht & HP).
  - exists t', r'. split; [|done]. rewrite lookup_delete_ne; [done|]. intros <-. congruence.
  - roles. eauto.
Qed.

Lemma exists_woken (P : Role -> bool) (f : Role -> Role) (m : gmap tid Role) :
  (forall r, P (f r) = P r) ->
  (exists t' r', m !! t' = Some r' /\ P r' = true) <->
  (exists t' r', (f <$> m) !! t' = Some r' /\ P r' = true).
Proof.
  intros Hf. split; intros (t' & r' & Ht & HP).
  - exists t', (f r'). by rewrite lookup_fmap, Ht, Hf.
  - roles. eauto.
Qed.

Lemma read_entered :
  v !! t = None -> controller_marked_for_update_ a = false ->
  controller_marked_for_delete_ a = false -> Z.of_nat (size (<[t := Reads]> v)) <= UINT32_MAX ->
  local_ok (set_read_count a (u32_inc (read_count_ a))) (<[t := Reads]> v).
Proof.
  intros Ht Hu Hd Hs. pose proof (not_updated Hu) as Nu. pose proof (not_deleted Hd) as Nd.
  pose proof (count_size is_reads (<[t := Reads]> v)) as Hc.
  rewrite roles_insert in Hc by done. cbn in Hc.
  split; cbn [read_count_ write_count_ write_wait_count_ read_wait_count_ set_read_count
              controller_marked_for_update_ controller_marked_for_delete_]; try apply Hok.
  - rewrite (lo_read _ _ Hok), u32_inc_small, roles_insert by (ulia || done). cbn. lia.
  - rewrite roles_insert by done. cbn. apply Hok.
  - rewrite roles_insert by done. cbn. apply Hok.
  - intros. roles. by eapply (lo_changer _ _ Hok).
  - rewrite <- (exists_other is_update); [apply Hok|congruence|done].
  - rewrite <- (exists_other is_delete); [apply Hok|congruence|done].
  - intros t0 w H0. roles. by apply (lo_waits _ _ Hok t0).
  - intros t0 t' H0. roles; refute Nu Nd.
  - intros t0 w H0. roles; refute Nu Nd.
  - intros t0 H0. roles. by apply (lo_no_wait _ _ Hok t0).
Qed.

Lemma read_waits :
  v !! t = None -> controller_marked_for_update_ a = true ->
  Z.of_nat (size (<[t := WaitsRead false]> v)) <= UINT32_MAX ->
  local_ok (set_read_wait_count a (u32_inc (read_wait_count_ a))) (<[t := WaitsRead false]> v).
Proof.
  intros Ht Hu Hs. pose proof (count_size is_wait_read (<[t := WaitsRead false]> v)) as Hc.
  rewrite roles_insert in Hc by done. cbn in Hc.
  assert (forall t', v !! t' = Some Reads <-> <[t := WaitsRead false]> v !! t' = Some Reads) as Hr.
  { intros t'. rewrite lookup_insert_Some. naive_solver. }
  split; cbn [read_count_ write_count_ write_wait_count_ read_wait_count_ set_read_wait_count
              controller_marked_for_update_ controller_marked_for_delete_]; try apply Hok.
  - rewrite roles_insert by done. cbn. apply Hok.
  - rewrite roles_insert by done. cbn. apply Hok.
  - rewrite (lo_read_wait _ _ Hok), u32_inc_small, roles_insert by (ulia || done). cbn. lia.
  - intros. roles. by eapply (lo_changer _ _ Hok).
  - rewrite <- (exists_other is_update); [apply Hok|congruence|done].
  - rewrite <- (exists_other is_delete); [apply Hok|congruence|done].
  - intros t0 w H0. roles. by apply (lo_waits _ _ Hok t0).
  - intros t0 t' H0. rewrite <- Hr. roles; eapply (lo_alone _ _ Hok t0); auto.
  - intros t0 w H0. assert (v !! t0 = Some (WaitsUpdate w) \/ v !! t0 = Some (WaitsDelete w)) as H1
      by (roles; auto). pose proof (lo_pending _ _ Hok t0 w H1) as H2. clear H0.
    destruct w; setoid_rewrite <- Hr; done.
  - intros t0 H0. roles. by apply (lo_no_wait _ _ Hok t0).
Qed.

Lemma read_resumed :
  v !! t = Some (WaitsRead true) -> Z.of_nat (size v) <= UINT32_MAX ->
  local_ok (let a1 := set_read_wait_count a (u32_dec (read_wait_count_ a)) in
            set_read_count a1 (u32_inc (read_count_ a1))) (<[t := Reads]> v).
Proof.
  intros Ht Hs. destruct (lo_waits _ _ Hok t true Ht) as [Hu Hd].
  pose proof (not_updated Hu) as Nu. pose proof (not_deleted Hd) as Nd.
  pose proof (roles_replace is_reads v t _ Reads Ht) as Hr.
  pose proof (roles_replace is_writes v t _ Reads Ht) as Hw.
  pose proof (roles_replace is_wait_read v t _ Reads Ht) as Hwr.
  pose proof (count_size is_reads (<[t := Reads]> v)) as Hc.
  rewrite map_size_insert_Some in Hc by by eexists. cbn in Hr, Hw, Hwr.
  pose proof (count_size is_wait_read v).
  split; cbn [read_count_ write_count_ write_wait_count_ read_wait_count_ set_read_count
              set_read_wait_count controller_marked_for_update_ controller_marked_for_delete_];
    try apply Hok.
  - rewrite (lo_read _ _ Hok), u32_inc_small by ulia. lia.
  - rewrite Hw. apply Hok.
  - rewrite (lo_read_wait _ _ Hok), u32_dec_small by ulia. lia.
  - intros. roles. by eapply (lo_changer _ _ Hok).
  - rewrite <- (exists_other is_update); [apply Hok|naive_solver|done].
  - rewrite <- (exists_other is_delete); [apply Hok|naive_solver|done].
  - intros t0 w H0. roles. by apply (lo_waits _ _ Hok t0).
  - intros t0 t' H0. roles; refute Nu Nd.
  - intros t0 w H0. roles; refute Nu Nd.
  - intros t0 H0. roles. by apply (lo_no_wait _ _ Hok t0).
Qed.

(** *** Leaving *)

(** Those who wait to update or delete are woken, or not. *)
Definition wake_if (b : bool) : Role -> Role := if b then wake_exclusive else id.

Lemma wake_if_same b r :
  is_reads (wake_if b r) = is_reads r /\ is_writes (wake_if b r) = is_writes r /\
  is_wait_read (wake_if b r) = is_wait_read r /\ is_update (wake_if b r) = is_update r /\
  is_delete (wake_if b r) = is_delete r /\ is_changer (wake_if b r) = is_changer r.
Proof. by destruct b, r. Qed.

Lemma wake_if_plain b r r' :
  wake_if b r = r' -> match r' with WaitsUpdate _ | WaitsDelete _ => False | _ => True end -> r = r'.
Proof. by destruct b, r; cbn; intros <-. Qed.

Lemma wake_if_pending b r r' :
  wake_if b r = r' ->
  match r' with
  | WaitsUpdate w => exists w0, r = WaitsUpdate w0 /\ w = b || w0
  | WaitsDelete w => exists w0, r = WaitsDelete w0 /\ w = b || w0
  | _ => True
  end.
Proof. destruct b, r; cbn; intros <-; cbn; eauto. Qed.

(** A thread that reads or writes goes; [pending] is what is left to show of
    those who wait. *)
Lemma left_ok a' r0 b :
  v !! t = Some r0 -> r0 = Reads \/ r0 = Writes ->
  read_count_ a' = Z.of_nat (readers (delete t v)) ->
  write_count_ a' = Z.of_nat (writers (delete t v)) ->
  write_wait_count_ a' = write_wait_count_ a -> read_wait_count_ a' = read_wait_count_ a ->
  controller_marked_for_update_ a' = controller_marked_for_update_ a ->
  controller_marked_for_delete_ a' = controller_marked_for_delete_ a ->
  (forall t0 w, v !! t0 = Some (WaitsUpdate w) \/ v !! t0 = Some (WaitsDelete w) ->
     if b || w then forall t', delete t v !! t' <> Some Reads
     else exists t', delete t v !! t' = Some Reads) ->
  local_ok a' (wake_if b <$> delete t v).
Proof.
  intros Ht Hr0 Er Ew Eww Erw Eu Ed Hp.
  assert (is_wait_read r0 = false /\ is_update r0 = false /\ is_delete r0 = false) as (P1 & P2 & P3)
    by (by destruct Hr0 as [-> | ->]).
  clear Hr0. split.
  - rewrite count_fmap; [done|]. intros r. apply wake_if_same.
  - rewrite count_fmap; [done|]. intros r. apply wake_if_same.
  - rewrite Eww. apply Hok.
  - rewrite count_fmap by (intros r; apply wake_if_same). rewrite Erw, (lo_read_wait _ _ Hok).
    by rewrite (count_delete is_wait_read v t r0 Ht), P1.
  - intros t1 t2 r1 r2 H1 H2 C1 C2. roles.
    assert (forall r, is_changer (wake_if b r) = is_changer r) as Ec by (intros r; apply wake_if_same).
    rewrite Ec in C1, C2. by eapply (lo_changer _ _ Hok).
  - rewrite Eu, (lo_update _ _ Hok), (exists_deleted is_update r0 Ht P2).
    apply exists_woken. intros r. apply wake_if_same.
  - rewrite Ed, (lo_delete _ _ Hok), (exists_deleted is_delete r0 Ht P3).
    apply exists_woken. intros r. apply wake_if_same.
  - intros t1 w H1. rewrite Eu, Ed. apply lookup_fmap_Some in H1 as (x & Hx & H1).
    apply wake_if_plain in Hx as ->; [|done]. roles. by apply (lo_waits _ _ Hok t1).
  - intros t1 t2 H1 H2. apply lookup_fmap_Some in H2 as (y & Hy & H2).
    apply wake_if_plain in Hy as ->; [|done]. apply lookup_delete_Some in H2 as [_ H2].
    destruct H1 as [H1|H1]; apply lookup_fmap_Some in H1 as (x & Hx & H1);
      apply wake_if_plain in Hx as ->; try done; apply lookup_delete_Some in H1 as [_ H1];
      eapply (lo_alone _ _ Hok t1 t2); auto.
  - intros t1 w H1.
    assert (exists w0, w = b || w0 /\ (v !! t1 = Some (WaitsUpdate w0) \/ v !! t1 = Some (WaitsDelete w0)))
      as (w0 & -> & H2).
    { destruct H1 as [H1|H1]; apply lookup_fmap_Some in H1 as (x & Hx & H1);
        apply wake_if_pending in Hx as (w0 & -> & ->); apply lookup_delete_Some in H1 as [_ H1]; eauto. }
    specialize (Hp t1 w0 H2). destruct (b || w0).
    + intros t2 H3. apply lookup_fmap_Some in H3 as (y & Hy & H3).
      apply wake_if_plain in Hy as ->; [|done]. by apply (Hp t2).
    + destruct Hp as (t2 & H3). exists t2. rewrite lookup_fmap, H3. by destruct b.
  - intros t1 H1. apply lookup_fmap_Some in H1 as (x & Hx & H1).
    apply wake_if_plain in Hx as ->; [|done]. roles. by apply (lo_no_wait _ _ Hok t1).
Qed.

(** With someone waiting to update or delete nobody writes. *)
Lemma pending_no_writer t0 w :
  v !! t0 = Some (WaitsUpdate w) \/ v !! t0 = Some (WaitsDelete w) -> write_count_ a = 0.
Proof.
  intros H0. rewrite (lo_write _ _ Hok). assert (writers v = 0%nat) as ->; [|done].
  apply count_zero. intros t1 r1 H1. destruct r1; try done.
  assert (t0 = t1) as ->; [|destruct H0; congruence].
  destruct H0 as [H0|H0]; by eapply (lo_changer _ _ Hok).
Qed.

Lemma read_left :
  v !! t = Some Reads -> Z.of_nat (size v) <= UINT32_MAX ->
  let rc := u32_dec (read_count_ a) in
  local_ok (set_write_count (set_read_count a rc) (write_count_ a))
    (wake_if ((write_count_ a ==? 0) && (write_wait_count_ a ==? 0) && (rc ==? 0)) <$> delete t v).
Proof.
  intros Ht Hs rc. pose proof (count_delete is_reads v t Reads Ht) as Hr.
  pose proof (count_delete is_writes v t Reads Ht) as Hw. cbn in Hr, Hw.
  pose proof (count_size is_reads v) as Hc.
  assert (rc = Z.of_nat (readers (delete t v))) as Erc.
  { unfold rc. rewrite (lo_read _ _ Hok), u32_dec_small by ulia. lia. }
  eapply (left_ok _ Reads); try done; [by left| |].
  { cbn. rewrite (lo_write _ _ Hok). lia. }
  intros t0 w H0. rewrite (pending_no_writer t0 w H0), (lo_write_wait _ _ Hok).
  pose proof (lo_pending _ _ Hok t0 w H0) as Hp. change (0 ==? 0) with true. cbn [andb].
  destruct w; [by destruct (Hp t)|]. rewrite orb_false_r. case_bool_decide as E.
  - rewrite Erc in E. assert (readers (delete t v) = 0%nat) as E0 by lia.
    intros t' H1. rewrite count_zero in E0. by specialize (E0 _ _ H1).
  - assert (0 < readers (delete t v))%nat as Hpos by lia.
    apply count_pos in Hpos as (t' & r & H1 & Er). exists t'. by destruct r.
Qed.

Lemma write_left b :
  v !! t = Some Writes ->
  local_ok (set_write_count (set_read_count (set_write_in_progress a false) (read_count_ a))
              (u32_dec (write_count_ a)))
    (wake_if b <$> delete t v).
Proof.
  intros Ht. pose proof (count_delete is_reads v t Writes Ht) as Hr.
  pose proof (count_delete is_writes v t Writes Ht) as Hw. cbn in Hr, Hw.
  assert (writers (delete t v) = 0%nat) as Hz.
  { apply count_zero. intros t1 r1 H1. roles. destruct r1; try done.
    by destruct (lo_changer _ _ Hok t t1 _ _ Ht H0). }
  eapply (left_ok _ Writes); try done; [by right|..]; cbn.
  - rewrite (lo_read _ _ Hok). lia.
  - rewrite (lo_write _ _ Hok), Hw, Hz. done.
  - intros t0 w H0. destruct H0 as [H0|H0];
      pose proof (lo_changer _ _ Hok t t0 _ _ Ht H0 eq_refl eq_refl); simplify_eq.
Qed.

(** *** Operations that change the controller *)

Lemma write_entered :
  v !! t = None -> (forall t' r, v !! t' = Some r -> is_changer r = false) ->
  local_ok (set_write_count (set_write_in_progress a true) 1) (<[t := Writes]> v).
Proof.
  intros Ht Hn.
  assert (forall t' r, v !! t' = Some r -> is_update r = false) as Nu
    by (intros t' r H0; specialize (Hn _ _ H0); by destruct r).
  assert (forall t' r, v !! t' = Some r -> is_delete r = false) as Nd
    by (intros t' r H0; specialize (Hn _ _ H0); by destruct r).
  assert (writers v = 0%nat) as Hz.
  { apply count_zero. intros t1 r1 H1. specialize (Hn _ _ H1). by destruct r1. }
  split; cbn [read_count_ write_count_ write_wait_count_ read_wait_count_ set_write_count
              set_write_in_progress controller_marked_for_update_ controller_marked_for_delete_];
    try apply Hok.
  - rewrite roles_insert by done. cbn. apply Hok.
  - rewrite roles_insert, Hz by done. done.
  - rewrite roles_insert by done. cbn. apply Hok.
  - intros t1 t2 r1 r2 H1 H2 C1 C2. roles;
      repeat match goal with H : v !! _ = Some _ |- _ => specialize (Hn _ _ H) as ?; clear H end; congruence.
  - rewrite <- (exists_other is_update); [apply Hok|congruence|done].
  - rewrite <- (exists_other is_delete); [apply Hok|congruence|done].
  - intros t0 w H0. roles. by apply (lo_waits _ _ Hok t0).
  - intros t0 t' H0. roles; refute Nu Nd.
  - intros t0 w H0. roles; refute Nu Nd.
  - intros t0 H0. roles. by apply (lo_no_wait _ _ Hok t0).
Qed.

(** An update or a deletion is marked, and goes on or waits. *)
Definition marked (del : bool) : controller_exclusion :=
  if del then mark_controller_for_delete a else set_controller_marked_for_update a true.
Definition exclusive_role (del now : bool) : Role :=
  if now then (if del then Deletes else Updates)
  else (if del then WaitsDelete false else WaitsUpdate false).

Lemma exclusive_started (del : bool) :
  v !! t = None -> (forall t' r, v !! t' = Some r -> is_changer r = false /\ is_wait_read r = false) ->
  local_ok (marked del) (<[t := exclusive_role del (can_delete_update a)]> v).
Proof.
  intros Ht Hn. set (now := can_delete_update a).
  assert (writers v = 0%nat) as Hz.
  { apply count_zero. intros t1 r1 H1. destruct (Hn _ _ H1) as [H2 _]. by destruct r1. }
  assert (if now then readers v = 0%nat else (0 < readers v)%nat) as Hr.
  { unfold now, can_delete_update. rewrite (lo_read _ _ Hok), (lo_write _ _ Hok), Hz.
    do 2 case_bool_decide; cbn; lia. }
  assert (is_update (exclusive_role del now) = negb del /\ is_delete (exclusive_role del now) = del /\
          is_reads (exclusive_role del now) = false /\ is_writes (exclusive_role del now) = false /\
          is_wait_read (exclusive_role del now) = false) as (Eu & Ed & Er & Ew & Ewr)
    by (by destruct del, now).
  assert (forall t', <[t := exclusive_role del now]> v !! t' = Some Reads <-> v !! t' = Some Reads) as Hrd.
  { intros t'. rewrite lookup_insert_Some. split; [|intros; right; split; [congruence|done]].
    intros [[_ E]|[_ ?]]; [|done]. rewrite E in Er. done. }
  split.
  - rewrite roles_insert, Er by done. destruct del; apply Hok.
  - rewrite roles_insert, Ew by done. destruct del; apply Hok.
  - destruct del; apply Hok.
  - rewrite roles_insert, Ewr by done. destruct del; apply Hok.
  - intros t1 t2 r1 r2 H1 H2 C1 C2.
    apply lookup_insert_Some in H1 as [[? ?]|[? H1]]; apply lookup_insert_Some in H2 as [[? ?]|[? H2]];
      [congruence|destruct (Hn _ _ H2); congruence|destruct (Hn _ _ H1); congruence..].
  - destruct del; cbn [marked controller_marked_for_update_ mark_controller_for_delete
                       set_controller_marked_for_update].
    + rewrite <- (exists_other is_update); [apply Hok|congruence|done].
    + split; [|done]. intros _. exists t. eexists. split; [apply lookup_insert_eq|done].
  - destruct del; cbn [marked controller_marked_for_delete_ mark_controller_for_delete
                       set_controller_marked_for_update].
    + split; [|done]. intros _. exists t. eexists. split; [apply lookup_insert_eq|done].
    + rewrite <- (exists_other is_delete); [apply Hok|congruence|done].
  - intros t0 w H0. apply lookup_insert_Some in H0 as [[_ E]|[_ H0]].
    + rewrite E in Ewr. done.
    + by destruct (Hn _ _ H0) as [_ ?].
  - intros t0 t' H0. rewrite Hrd. intros H1. destruct now.
    + rewrite count_zero in Hr. by specialize (Hr _ _ H1).
    + destruct del; cbn in H0; roles;
        match goal with H : v !! t0 = Some _ |- _ => by destruct (Hn _ _ H) end.
  - intros t0 w H0. destruct now.
    + destruct del; cbn in H0; roles;
        match goal with H : v !! t0 = Some _ |- _ => by destruct (Hn _ _ H) end.
    + assert (w = false) as ->.
      { destruct del; cbn in H0; roles;
          match goal with H : v !! t0 = Some _ |- _ => by destruct (Hn _ _ H) end. }
      apply count_pos in Hr as (t' & r & H1 & E). exists t'. rewrite Hrd. by destruct r.
  - intros t0 H0. apply lookup_insert_Some in H0 as [[_ E]|[_ H0]].
    + by destruct del, now.
    + by apply (lo_no_wait _ _ Hok t0).
Qed.

Lemma exclusive_resumed (del : bool) :
  v !! t = Some (if del then WaitsDelete true else WaitsUpdate true) ->
  local_ok a (<[t := exclusive_role del true]> v).
Proof.
  intros Ht.
  assert (forall t', v !! t' <> Some Reads) as Hnr.
  { apply (lo_pending _ _ Hok t true). destruct del; auto. }
  assert (forall P : Role -> bool, P Updates = P (WaitsUpdate true) -> P Deletes = P (WaitsDelete true) ->
    count P (<[t := exclusive_role del true]> v) = count P v) as Hc.
  { intros P P1 P2. pose proof (roles_replace P v t _ (exclusive_role del true) Ht) as E.
    destruct del; cbn in E |- *; rewrite ?P1, ?P2 in E; lia. }
  assert (forall P : Role -> bool, P Updates = P (WaitsUpdate true) -> P Deletes = P (WaitsDelete true) ->
    (exists t' r', v !! t' = Some r' /\ P r' = true) <->
    (exists t' r', <[t := exclusive_role del true]> v !! t' = Some r' /\ P r' = true)) as He.
  { intros P P1 P2. rewrite <- !count_pos, Hc by done. done. }
  split.
  - rewrite Hc by done. apply Hok.
  - rewrite Hc by done. apply Hok.
  - apply Hok.
  - rewrite Hc by done. apply Hok.
  - assert (forall t1 r1, <[t := exclusive_role del true]> v !! t1 = Some r1 -> is_changer r1 = true ->
      exists r, v !! t1 = Some r /\ is_changer r = true) as Hch.
    { intros t1 r1 H1 C1. apply lookup_insert_Some in H1 as [[<- _]|[_ H1]]; [|eauto].
      eexists. split; [done|by destruct del]. }
    intros t1 t2 r1 r2 H1 H2 C1 C2. destruct (Hch _ _ H1 C1) as (x & Hx & Cx).
    destruct (Hch _ _ H2 C2) as (y & Hy & Cy). by eapply (lo_changer _ _ Hok).
  - rewrite <- He by done. apply Hok.
  - rewrite <- He by done. apply Hok.
  - intros t0 w H0. apply lookup_insert_Some in H0 as [[_ E]|[_ H0]]; [by destruct del|].
    by apply (lo_waits _ _ Hok t0).
  - intros t0 t' _ H1. apply lookup_insert_Some in H1 as [[_ E]|[_ H1]]; [by destruct del|].
    by apply (Hnr t').
  - intros t0 w H0.
    assert (v !! t0 = Some (WaitsUpdate w) \/ v !! t0 = Some (WaitsDelete w)) as H1.
    { destruct del; cbn in H0; roles; auto. }
    pose proof (lo_pending _ _ Hok t0 w H1) as H2. destruct w.
    + intros t' H3. apply lookup_insert_Some in H3 as [[_ E]|[_ H3]]; [by destruct del|by apply (H2 t')].
    + destruct H2 as [t' H2]. by destruct (Hnr t').
  - intros t0 H0. apply lookup_insert_Some in H0 as [[_ E]|[_ H0]]; [by destruct del|].
    by apply (lo_no_wait _ _ Hok t0).
Qed.

(** The other roles while one updates or deletes. *)
Lemma alone_roles r t' r' :
  v !! t = Some r -> r = Updates \/ r = Deletes -> v !! t' = Some r' -> t' <> t ->
  exists w, r' = WaitsRead w.
Proof.
  intros Ht Hr H1 Hne. destruct r'; try (by eexists).
  1:{ exfalso. apply (lo_alone _ _ Hok t t'); [|done]. destruct Hr; subst; auto. }
  all: exfalso; apply Hne; eapply (lo_changer _ _ Hok); [exact H1|exact Ht|done|by destruct Hr; subst].
Qed.

Lemma update_finished :
  v !! t = Some Updates ->
  local_ok (set_controller_marked_for_update a false) (wake_readers <$> delete t v).
Proof.
  intros Ht.
  assert (forall t' r, (wake_readers <$> delete t v) !! t' = Some r -> r = WaitsRead true) as Hall.
  { intros t' r H0. apply lookup_fmap_Some in H0 as (x & <- & H0). apply lookup_delete_Some in H0 as [Hne H0].
    by destruct (alone_roles Updates t' x Ht (or_introl eq_refl) H0 (not_eq_sym Hne)) as [w ->]. }
  assert (forall P : Role -> bool, P (WaitsRead true) = false ->
    count P (wake_readers <$> delete t v) = 0%nat) as Hz.
  { intros P HP. apply count_zero. intros t' r H0. by rewrite (Hall t' r H0). }
  pose proof (count_delete is_reads v t _ Ht) as Cr. pose proof (count_delete is_writes v t _ Ht) as Cw.
  pose proof (count_delete is_wait_read v t _ Ht) as Cwr. cbn in Cr, Cw, Cwr.
  assert (forall P : Role -> bool, (forall r, P (wake_readers r) = P r) ->
    count P (delete t v) = count P (wake_readers <$> delete t v)) as Hf.
  { intros P HP. by rewrite count_fmap. }
  assert (controller_marked_for_delete_ a = false) as Hd.
  { destruct (controller_marked_for_delete_ a) eqn:E; [|done].
    apply (lo_delete _ _ Hok) in E as (t' & r & H0 & Er). destruct (decide (t' = t)) as [->|Hne].
    - rewrite Ht in H0. injection H0 as <-. done.
    - by destruct (alone_roles Updates t' r Ht (or_introl eq_refl) H0 Hne) as [w ->]. }
  split; cbn [read_count_ write_count_ write_wait_count_ read_wait_count_
              set_controller_marked_for_update controller_marked_for_update_
              controller_marked_for_delete_]; try apply Hok.
  - rewrite (lo_read _ _ Hok), Cr, <- Hf; [done|by intros []].
  - rewrite (lo_write _ _ Hok), Cw, <- Hf; [done|by intros []].
  - rewrite (lo_read_wait _ _ Hok), Cwr, <- Hf; [done|by intros []].
  - intros t1 t2 r1 r2 H1 H2 C1 C2. by rewrite (Hall _ _ H1) in C1.
  - split; [done|]. intros (t' & r & H0 & Er). by rewrite (Hall _ _ H0) in Er.
  - split; [congruence|]. intros (t' & r & H0 & Er). by rewrite (Hall _ _ H0) in Er.
  - intros t0 w H0. apply Hall in H0 as [= ->]. done.
  - intros t0 t' [H0|H0]; by apply Hall in H0.
  - intros t0 w [H0|H0]; by apply Hall in H0.
  - intros t0 H0. by apply Hall in H0.
Qed.

(** Nobody else knows a controller that is being deleted. *)
Lemma deletes_alone t' r : v !! t = Some Deletes -> v !! t' = Some r -> t' = t.
Proof.
  intros Ht H0. destruct (decide (t' = t)) as [->|Hne]; [done|].
  destruct (alone_roles Deletes t' r Ht (or_intror eq_refl) H0 Hne) as [w ->].
  assert (controller_marked_for_delete_ a = true) as Hd by (apply (lo_delete _ _ Hok); eauto).
  pose proof (lo_waits _ _ Hok t' w H0) as Hw. destruct w; [destruct Hw; congruence|].
  apply (lo_update _ _ Hok) in Hw as (t1 & r1 & H1 & E1).
  assert (t1 = t) as ->.
  { eapply (lo_changer _ _ Hok); [done|done| |done]. unfold is_changer, is_exclusive. by rewrite E1. }
  rewrite Ht in H1. by injection H1 as <-.
Qed.

End Local.
