(* ===== verification/DrvInv.v ===== *)
(** * The invariant of the threads and controllers

    Every state that the rules allow is in order: each controller agrees with
    the roles of the threads that point to it, and none of them points to a
    controller that is gone. *)

From S2P Require Import Prelude CacheKeys CacheTree DrvCtr DrvLocal.

Local Open Scope Z_scope.

(** ** Roles *)

Definition role (c : loc) (ph : Phase) : option Role :=
  match ph with
  | Working op _ (Some c') =>
      if c' ==? c then
        match op with
        | READ_FROM_CONTROLLER => Some Reads
        | WRITE_TO_CONTROLLER => Some Writes
        | CONTROLLER_UPDATE => Some Updates
        | CONTROLLER_DELETE => Some Deletes
        | CONTROLLER_ADD => None
        end
      else None
  | Working _ _ None => None
  | Waiting op _ _ c' w =>
      if c' ==? c then
        match op with
        | READ_FROM_CONTROLLER => Some (WaitsRead w)
        | WRITE_TO_CONTROLLER => Some WaitsWrite
        | CONTROLLER_UPDATE => Some (WaitsUpdate w)
        | CONTROLLER_DELETE => Some (WaitsDelete w)
        | CONTROLLER_ADD => None
        end
      else None
  end.

(** A thread waits on the condition variable of its operation. *)
Definition op_cond (op : ControllerOps) : Cond :=
  match op with
  | READ_FROM_CONTROLLER => UpdateCond
  | WRITE_TO_CONTROLLER => WriteCond
  | _ => DeleteCond
  end.
Definition is_exclusive_op (op : ControllerOps) : bool :=
  match op with READ_FROM_CONTROLLER | WRITE_TO_CONTROLLER => false | _ => true end.
Definition is_read_op (op : ControllerOps) : bool :=
  match op with READ_FROM_CONTROLLER => true | _ => false end.
Definition wf_phase (ph : Phase) : Prop :=
  match ph with
  | Working op _ h => op = CONTROLLER_ADD -> h = None
  | Waiting op _ cv _ _ => op <> CONTROLLER_ADD /\ cv = op_cond op
  end.
Definition phase_name (ph : Phase) : string :=
  match ph with Working _ n _ | Waiting _ n _ _ _ => n end.
Definition has_mutex (ph : Phase) : bool :=
  match ph with Working op _ h => keeps_mutex op h | Waiting _ _ _ _ _ => false end.

Definition view (c : loc) (m : gmap tid Phase) : gmap tid Role := omap (role c) m.

Lemma role_points c ph r : role c ph = Some r -> points_to c ph = true.
Proof. destruct ph as [op n [c'|]|op n cv c' w]; cbn; [|done|]; repeat case_bool_decide; by simplify_eq. Qed.

Lemma points_role c ph : wf_phase ph -> points_to c ph = true -> exists r, role c ph = Some r.
Proof.
  destruct ph as [op n [c'|]|op n cv c' w]; cbn; intros Hwf Hp.
  - apply bool_decide_eq_true_1 in Hp as [= ->]. rewrite bool_decide_eq_true_2 by done.
    destruct op; eauto. by specialize (Hwf eq_refl).
  - by apply bool_decide_eq_true_1 in Hp.
  - rewrite Hp. destruct Hwf as [Ho _]. destruct op; eauto; done.
Qed.

(** A phase has a role at one controller at most. *)
Lemma role_unique c c' ph r : role c ph = Some r -> c' <> c -> role c' ph = None.
Proof.
  destruct ph as [op n [c0|]|op n cv c0 w]; cbn; intros Hr Hne; try done.
  all: case_bool_decide; [|done]; subst; by rewrite bool_decide_eq_false_2 by congruence.
Qed.

Section View.

Implicit Types (m : gmap tid Phase) (t : tid) (c : loc).

Lemma view_lookup c m t : view c m !! t = m !! t ≫= role c.
Proof. apply lookup_omap. Qed.

Lemma view_insert c m t ph r :
  role c ph = Some r -> view c (<[t := ph]> m) = <[t := r]> (view c m).
Proof. intros Hr. unfold view. by rewrite (omap_insert_Some _ _ _ _ _ Hr). Qed.

Lemma view_delete c m t : view c (delete t m) = delete t (view c m).
Proof. apply omap_delete. Qed.

Lemma view_size c m : (size (view c m) <= size m)%nat.
Proof.
  rewrite <- !size_dom. apply subseteq_size. intros t. rewrite !elem_of_dom, view_lookup.
  intros [r Hr]. destruct (m !! t); [by eexists|done].
Qed.

(** Only the thread changes, and its phases concern another controller. *)
Lemma view_other c m m' t :
  (forall t', t' <> t -> m' !! t' = m !! t') -> m !! t ≫= role c = None ->
  m' !! t ≫= role c = None -> view c m' = view c m.
Proof.
  intros Hs H1 H2. apply map_eq. intros t'. rewrite !view_lookup.
  destruct (decide (t' = t)) as [->|Hne]; [congruence|by rewrite Hs].
Qed.

(** Broadcasts. *)
Lemma role_woken_other cvs c c' ph : c' <> c -> role c' (wake_phase cvs c ph) = role c' ph.
Proof.
  intros Hne. destruct ph as [op n h|op n cv c0 w]; [done|]. cbn. case_bool_decide; [|done].
  cbn. case_bool_decide; [|done]. subst. cbn. by rewrite bool_decide_eq_false_2 by congruence.
Qed.

Lemma role_woken c ph :
  wf_phase ph ->
  role c (wake_phase [] c ph) = role c ph /\
  role c (wake_phase [DeleteCond] c ph) = wake_exclusive <$> role c ph /\
  role c (wake_phase [UpdateCond] c ph) = wake_readers <$> role c ph.
Proof.
  destruct ph as [op n [c0|]|op n cv c0 w]; intros Hwf.
  - cbn. case_bool_decide; [|done]. by destruct op.
  - done.
  - destruct Hwf as [Ho ->]. unfold wake_phase. destruct (decide (c0 = c)) as [->|Hc].
    + rewrite !(bool_decide_eq_true_2 (c = c)) by done.
      assert (bool_decide (op_cond op ∈ @nil Cond) = false) as -> by done.
      assert (bool_decide (op_cond op ∈ [DeleteCond]) = is_exclusive_op op) as -> by (by destruct op).
      assert (bool_decide (op_cond op ∈ [UpdateCond]) = is_read_op op) as ->
        by (by destruct op).
      destruct op; try done; cbn [role is_exclusive_op is_read_op andb];
        rewrite ?(bool_decide_eq_true_2 (c = c)) by done; done.
    + rewrite !(bool_decide_eq_false_2 (c0 = c)) by done. rewrite !andb_false_r. cbn.
      by rewrite bool_decide_eq_false_2.
Qed.

Lemma wake_phase_same cvs c ph :
  phase_op (wake_phase cvs c ph) = phase_op ph /\
  (forall c', points_to c' (wake_phase cvs c ph) = points_to c' ph) /\
  phase_name (wake_phase cvs c ph) = phase_name ph /\
  has_mutex (wake_phase cvs c ph) = has_mutex ph /\
  (wf_phase (wake_phase cvs c ph) <-> wf_phase ph).
Proof. destruct ph; [done|]. cbn. by destruct (_ && _). Qed.

Lemma view_woken_other cvs c c' m : c' <> c -> view c' (wake_phase cvs c <$> m) = view c' m.
Proof.
  intros Hne. apply map_eq. intros t. rewrite !view_lookup, lookup_fmap.
  destruct (m !! t) as [ph|]; [|done]. cbn. by apply role_woken_other.
Qed.

Lemma view_woken c m :
  (forall t ph, m !! t = Some ph -> wf_phase ph) ->
  view c (wake_phase [] c <$> m) = view c m /\
  view c (wake_phase [DeleteCond] c <$> m) = wake_exclusive <$> view c m /\
  view c (wake_phase [UpdateCond] c <$> m) = wake_readers <$> view c m.
Proof.
  intros Hwf.
  split_and!; apply map_eq; intros t; rewrite ?lookup_fmap, !view_lookup, lookup_fmap;
    destruct (m !! t) as [ph|] eqn:Et; try done; cbn;
    destruct (role_woken c ph (Hwf _ _ Et)) as (E1 & E2 & E3); by rewrite ?E1, ?E2, ?E3.
Qed.

End View.

(** ** The invariant *)

Section Inv.

Context {V : Type}.
Implicit Types (s : System V) (t : tid) (c : loc).

Record inv s : Prop := {
  iv_size : Z.of_nat (size (threads s)) <= UINT32_MAX;
  iv_wf : forall t ph, threads s !! t = Some ph -> wf_phase ph;
  iv_list : forall name ct, controller_list (fw s) !! name = Some ct ->
    is_Some (ctrs (fw s) !! ctr ct);
  iv_inj : forall name name' ct ct', controller_list (fw s) !! name = Some ct ->
    controller_list (fw s) !! name' = Some ct' -> ctr ct = ctr ct' -> name = name';
  iv_alive : forall t ph c, threads s !! t = Some ph -> points_to c ph = true ->
    is_Some (ctrs (fw s) !! c);
  iv_delete : forall t ph c, threads s !! t = Some ph -> phase_op ph = CONTROLLER_DELETE ->
    points_to c ph = true ->
    exists ct, controller_list (fw s) !! phase_name ph = Some ct /\ ctr ct = c;
  iv_local : forall c k, ctrs (fw s) !! c = Some k -> local_ok (access_ k) (view c (threads s));
  iv_mutex : forall t ph, threads s !! t = Some ph -> has_mutex ph = true -> mutex s = Some t;
  iv_holder : forall t, mutex s = Some t -> exists ph, threads s !! t = Some ph /\ has_mutex ph = true
}.

Lemma inv_init : inv (init (V := V)).
Proof.
  split; cbn; try (intros *; rewrite ?lookup_empty; done).
Qed.

(** *** A thread changes its phase at a controller *)

Definition with_excl (c : loc) (k : controller V) (a : controller_exclusion)
    (f : ControllerFramework V) : ControllerFramework V :=
  set_ctrs (<[c := set_access k a]> (ctrs f)) f.

Lemma with_access_run c k g (f : ControllerFramework V) :
  ctrs f !! c = Some k -> with_access c g f = Some (with_excl c k (g (access_ k)) f).
Proof. intros Hc. unfold with_access, with_ctr. by rewrite Hc. Qed.

Lemma with_excl_alive c k a f c' : ctrs f !! c = Some k ->
  is_Some (ctrs (with_excl c k a f) !! c') <-> is_Some (ctrs f !! c').
Proof.
  intros Hc. cbn. destruct (decide (c' = c)) as [->|Hne].
  - rewrite lookup_insert_eq, Hc. by split; eexists.
  - by rewrite lookup_insert_ne.
Qed.

Section Change.

Context s (Hinv : inv s) (t : tid) (c : loc) (k : controller V) (a : controller_exclusion).
Context (Hk : ctrs (fw s) !! c = Some k).

Lemma inv_phase ph r mtx :
  role c ph = Some r -> wf_phase ph ->
  (forall ph0, threads s !! t = Some ph0 -> points_to c ph0 = true) ->
  Z.of_nat (size (<[t := ph]> (threads s))) <= UINT32_MAX ->
  local_ok a (<[t := r]> (view c (threads s))) ->
  (phase_op ph = CONTROLLER_DELETE ->
     exists ct, controller_list (fw s) !! phase_name ph = Some ct /\ ctr ct = c) ->
  mutex s = None -> mtx = (if has_mutex ph then Some t else None) ->
  inv (mkSys (with_excl c k a (fw s)) mtx (<[t := ph]> (threads s))).
Proof.
  intros Hr Hwf Hold Hs Hlo Hdel Hm Hmtx. pose proof (role_points c ph r Hr) as Hpt.
  assert (forall c', points_to c' ph = true -> c' = c) as Hone.
  { intros c' Hc'. destruct (points_role c' ph Hwf Hc') as [r' Hr'].
    destruct (decide (c' = c)) as [->|Hne]; [done|]. rewrite (role_unique c c' ph r Hr Hne) in Hr'. done. }
  split; cbn [fw mutex threads].
  - done.
  - intros t' ph' H0. apply lookup_insert_Some in H0 as [[_ <-]|[_ H0]]; [done|]. by apply (iv_wf s Hinv t').
  - intros name ct H0. rewrite with_excl_alive by done. by apply (iv_list s Hinv name).
  - apply (iv_inj s Hinv).
  - intros t' ph' c' H0 Hp. rewrite with_excl_alive by done.
    apply lookup_insert_Some in H0 as [[_ <-]|[_ H0]].
    + rewrite (Hone c' Hp). by eexists.
    + by apply (iv_alive s Hinv t' ph').
  - intros t' ph' c' H0 Hop Hp. apply lookup_insert_Some in H0 as [[_ <-]|[_ H0]].
    + rewrite (Hone c' Hp). auto.
    + by apply (iv_delete s Hinv t').
  - intros c' k' Hc'. cbn in Hc'. destruct (decide (c' = c)) as [->|Hne].
    + rewrite lookup_insert_eq in Hc'. injection Hc' as <-. by rewrite (view_insert c _ _ _ r Hr).
    + rewrite lookup_insert_ne in Hc' by done. rewrite (view_other c' (threads s) _ t).
      * by apply (iv_local s Hinv).
      * intros t' Ht'. by rewrite lookup_insert_ne.
      * destruct (threads s !! t) as [ph0|] eqn:E0; [|done]. cbn.
        destruct (points_role c ph0) as [r0 Hr0]; [by apply (iv_wf s Hinv t)|by apply Hold|].
        by eapply role_unique.
      * rewrite lookup_insert_eq. cbn. by eapply role_unique.
  - intros t' ph' H0 Hh. apply lookup_insert_Some in H0 as [[<- <-]|[_ H0]]; [by rewrite Hmtx, Hh|].
    by rewrite (iv_mutex s Hinv t' ph' H0 Hh) in Hm.
  - intros t'. rewrite Hmtx. destruct (has_mutex ph) eqn:E; [|done]. intros [= <-].
    exists ph. by rewrite lookup_insert_eq.
Qed.

(** A thread leaves a controller and wakes some others. *)
Lemma inv_leave ph0 cvs g :
  threads s !! t = Some ph0 -> points_to c ph0 = true ->
  view c (wake_phase cvs c <$> delete t (threads s)) = g <$> delete t (view c (threads s)) ->
  local_ok a (g <$> delete t (view c (threads s))) ->
  (mutex s = None \/ mutex s = Some t) ->
  inv (mkSys (with_excl c k a (fw s)) None (wake_phase cvs c <$> delete t (threads s))).
Proof.
  intros Ht Hp Hv Hlo Hm.
  assert (forall t' ph', (wake_phase cvs c <$> delete t (threads s)) !! t' = Some ph' ->
    exists ph1, ph' = wake_phase cvs c ph1 /\ threads s !! t' = Some ph1 /\ t' <> t) as Hth.
  { intros t' ph' H0. apply lookup_fmap_Some in H0 as (ph1 & <- & H0).
    apply lookup_delete_Some in H0 as [Hne H0]. eauto. }
  split; cbn [fw mutex threads].
  - rewrite map_size_fmap, map_size_delete_Some by by eexists. pose proof (iv_size s Hinv). lia.
  - intros t' ph' H0. destruct (Hth _ _ H0) as (ph1 & -> & H1 & _).
    apply wake_phase_same. by apply (iv_wf s Hinv t').
  - intros name ct H0. rewrite with_excl_alive by done. by apply (iv_list s Hinv name).
  - apply (iv_inj s Hinv).
  - intros t' ph' c' H0 Hpt. rewrite with_excl_alive by done.
    destruct (Hth _ _ H0) as (ph1 & -> & H1 & _).
    rewrite (proj1 (proj2 (wake_phase_same cvs c ph1))) in Hpt. by apply (iv_alive s Hinv t' ph1).
  - intros t' ph' c' H0 Hop Hpt. destruct (Hth _ _ H0) as (ph1 & -> & H1 & _).
    destruct (wake_phase_same cvs c ph1) as (E1 & E2 & E3 & _). rewrite E1 in Hop. rewrite E2 in Hpt.
    rewrite E3. by apply (iv_delete s Hinv t').
  - intros c' k' Hc'. cbn in Hc'. destruct (decide (c' = c)) as [->|Hne].
    + rewrite lookup_insert_eq in Hc'. injection Hc' as <-. by rewrite Hv.
    + rewrite lookup_insert_ne in Hc' by done. rewrite view_woken_other by done.
      rewrite (view_other c' (threads s) _ t); [by apply (iv_local s Hinv)| | |].
      * intros t' Ht'. by rewrite lookup_delete_ne.
      * rewrite Ht. cbn. destruct (points_role c ph0) as [r0 Hr0]; [by apply (iv_wf s Hinv t)|done|].
        by eapply role_unique.
      * by rewrite lookup_delete_eq.
  - intros t' ph' H0 Hh. destruct (Hth _ _ H0) as (ph1 & -> & H1 & Hne).
    destruct (wake_phase_same cvs c ph1) as (_ & _ & _ & E4 & _). rewrite E4 in Hh.
    pose proof (iv_mutex s Hinv t' ph1 H1 Hh). destruct Hm; congruence.
  - done.
Qed.

End Change.

(** *** A thread without a controller *)

Lemma inv_refused s t op name :
  inv s -> threads s !! t = None -> mutex s = None -> Z.of_nat (size (threads s)) < UINT32_MAX ->
  inv (mkSys (fw s) (Some t) (<[t := Working op name None]> (threads s))).
Proof.
  intros Hinv Ht Hm Hs. split; cbn [fw mutex threads]; try apply Hinv.
  - rewrite map_size_insert_None by done. lia.
  - intros t' ph' H0. apply lookup_insert_Some in H0 as [[_ <-]|[_ H0]]; [done|]. by apply (iv_wf s Hinv t').
  - intros t' ph' c' H0 Hp. apply lookup_insert_Some in H0 as [[_ <-]|[_ H0]]; [done|].
    by apply (iv_alive s Hinv t' ph').
  - intros t' ph' c' H0 Hop Hp. apply lookup_insert_Some in H0 as [[_ <-]|[_ H0]]; [done|].
    by apply (iv_delete s Hinv t').
  - intros c' k' Hc'. rewrite (view_other c' (threads s) _ t); [by apply (iv_local s Hinv)| | |].
    + intros t' Ht'. by rewrite lookup_insert_ne.
    + by rewrite Ht.
    + by rewrite lookup_insert_eq.
  - intros t' ph' H0 Hh. apply lookup_insert_Some in H0 as [[<- <-]|[_ H0]]; [done|].
    by rewrite (iv_mutex s Hinv t' ph' H0 Hh) in Hm.
  - intros t' [= <-]. eexists. split; [apply lookup_insert_eq|by destruct op].
Qed.

Lemma inv_gone s t op name :
  inv s -> threads s !! t = Some (Working op name None) -> mutex s = Some t ->
  inv (mkSys (fw s) None (delete t (threads s))).
Proof.
  intros Hinv Ht Hm. split; cbn [fw mutex threads]; try apply Hinv.
  - rewrite map_size_delete_Some by by eexists. pose proof (iv_size s Hinv). lia.
  - intros t' ph' [_ H0]%lookup_delete_Some. by apply (iv_wf s Hinv t').
  - intros t' ph' c' [_ H0]%lookup_delete_Some Hp. by apply (iv_alive s Hinv t' ph').
  - intros t' ph' c' [_ H0]%lookup_delete_Some Hop Hp. by apply (iv_delete s Hinv t').
  - intros c' k' Hc'. rewrite (view_other c' (threads s) _ t); [by apply (iv_local s Hinv)| | |].
    + intros t' Ht'. by rewrite lookup_delete_ne.
    + by rewrite Ht.
    + by rewrite lookup_delete_eq.
  - intros t' ph' [Hne H0]%lookup_delete_Some Hh.
    pose proof (iv_mutex s Hinv t' ph' H0 Hh). congruence.
  - done.
Qed.

End Inv.
