(* ===== verification/DrvSteps.v ===== *)
(** * Steps keep the invariant *)

From S2P Require Import Prelude CacheKeys CacheTree DrvCtr DrvLocal DrvInv.

Local Open Scope Z_scope.

Section Steps.

Context {V : Type}.
Implicit Types (s : System V) (t : tid) (c : loc).

(** A step either is not possible or leads to a state in order. *)
Definition good (o : Outcome V) : Prop :=
  match o with Disabled => True | Fault => False | Next s => inv s end.

Lemma none_of_spec P (m : gmap tid Phase) :
  none_of P m = true <-> forall t ph, m !! t = Some ph -> P ph = false.
Proof.
  unfold none_of. rewrite forallb_forall. setoid_rewrite <- list_elem_of_In. split.
  - intros Hn t ph Ht. apply elem_of_map_to_list in Ht. specialize (Hn _ Ht). by apply negb_true_iff.
  - intros Hn [t ph] Ht. apply elem_of_map_to_list in Ht. cbn. by rewrite (Hn t ph Ht).
Qed.

Lemma role_kinds c ph r :
  role c ph = Some r -> mutates c ph = is_changer r /\ waits_to_read c ph = is_wait_read r.
Proof.
  unfold mutates. destruct ph as [op n [c'|]|op n cv c' w]; cbn; [|done|].
  - case_bool_decide as E; [|done]. subst. rewrite bool_decide_eq_true_2 by done.
    destruct op; intros; by simplify_eq.
  - case_bool_decide as E; [|done]. subst. destruct op; intros; by simplify_eq.
Qed.

Lemma view_kinds c (m : gmap tid Phase) :
  none_of (mutates c) m = true -> forall t r, view c m !! t = Some r -> is_changer r = false.
Proof.
  intros Hn t r. rewrite view_lookup. destruct (m !! t) as [ph|] eqn:Et; [|done]. cbn. intros Hr.
  destruct (role_kinds c ph r Hr) as [<- _]. by apply (proj1 (none_of_spec _ _) Hn t).
Qed.

Lemma view_no_waits c (m : gmap tid Phase) :
  none_of (waits_to_read c) m = true -> forall t r, view c m !! t = Some r -> is_wait_read r = false.
Proof.
  intros Hn t r. rewrite view_lookup. destruct (m !! t) as [ph|] eqn:Et; [|done]. cbn. intros Hr.
  destruct (role_kinds c ph r Hr) as [_ <-]. by apply (proj1 (none_of_spec _ _) Hn t).
Qed.

Lemma view_fresh c (m : gmap tid Phase) t : m !! t = None -> view c m !! t = None.
Proof. intros Ht. by rewrite view_lookup, Ht. Qed.

Lemma view_insert_size c (m : gmap tid Phase) t r :
  Z.of_nat (size m) < UINT32_MAX -> Z.of_nat (size (<[t := r]> (view c m))) <= UINT32_MAX.
Proof.
  intros Hs. pose proof (view_size c m).
  assert (size (<[t := r]> (view c m)) <= S (size (view c m)))%nat; [|lia].
  destruct (view c m !! t) eqn:E.
  - rewrite map_size_insert_Some by by eexists. lia.
  - by rewrite map_size_insert_None.
Qed.

(** ** Starting *)

Section Start.

Context s (Hinv : inv s) (t : tid) (name : string) (ct : ControllerContainer) (k : controller V).
Context (Hm : mutex s = None) (Ht : threads s !! t = None).
Context (Hs : Z.of_nat (size (threads s)) < UINT32_MAX).
Context (Hl : controller_list (fw s) !! name = Some ct) (Hk : ctrs (fw s) !! ctr ct = Some k).
Notation c := (ctr ct).
Notation v := (view c (threads s)).
Notation lo := (iv_local s Hinv c k Hk).

(** A new phase at the controller. *)
Lemma start_phase op ph r a mtx :
  role c ph = Some r -> wf_phase ph -> phase_op ph = op -> phase_name ph = name ->
  local_ok a (<[t := r]> v) -> mtx = (if has_mutex ph then Some t else None) ->
  inv (mkSys (with_excl c k a (fw s)) mtx (<[t := ph]> (threads s))).
Proof.
  intros Hr Hwf Hop Hn Hlo Hmtx. eapply inv_phase; try done.
  - intros ph0 H0. congruence.
  - rewrite map_size_insert_None by done. lia.
  - intros _. rewrite Hn. eauto.
Qed.

Lemma start_run op :
  controller_operation_new op name (fw s)
  = (let a := access_ k in
     match op with
     | CONTROLLER_DELETE | CONTROLLER_UPDATE =>
         let fw1 := with_excl c k (marked a (op ==? CONTROLLER_DELETE)) (fw s) in
         if can_delete_update a then Some (Locked (Some c), fw1) else Some (Waits DeleteCond c, fw1)
     | READ_FROM_CONTROLLER =>
         if controller_marked_for_delete_ a then Some (Locked None, fw s)
         else if controller_marked_for_update_ a then
           Some (Waits UpdateCond c,
                 with_excl c k (set_read_wait_count a (u32_inc (read_wait_count_ a))) (fw s))
         else Some (Entered c, with_excl c k (set_read_count a (u32_inc (read_count_ a))) (fw s))
     | WRITE_TO_CONTROLLER =>
         if controller_marked_for_delete_ a then Some (Locked None, fw s)
         else if (write_count_ a !=? 0) || controller_marked_for_update_ a then
           Some (Waits WriteCond c,
                 with_excl c k (set_write_wait_count a (u32_inc (write_wait_count_ a))) (fw s))
         else Some (Entered c,
                    with_excl c k (set_write_count (set_write_in_progress a true) 1) (fw s))
     | CONTROLLER_ADD => Some (Locked (Some c), fw s)
     end).
Proof.
  unfold controller_operation_new, GetDriverByControllerName, enter_read, enter_write.
  rewrite Hl. cbn [mbind option_bind]. rewrite Hk. cbn [mbind option_bind].
  destruct op; rewrite ?(with_access_run _ _ _ _ Hk); cbn [mbind option_bind]; try done;
    by repeat destruct (_ : bool).
Qed.

Lemma role_working op : role c (Working op name (Some c)) =
  match op with
  | READ_FROM_CONTROLLER => Some Reads | WRITE_TO_CONTROLLER => Some Writes
  | CONTROLLER_UPDATE => Some Updates | CONTROLLER_DELETE => Some Deletes
  | CONTROLLER_ADD => None
  end.
Proof. cbn. by rewrite bool_decide_eq_true_2. Qed.

Lemma role_waiting op cv w : role c (Waiting op name cv c w) =
  match op with
  | READ_FROM_CONTROLLER => Some (WaitsRead w) | WRITE_TO_CONTROLLER => Some WaitsWrite
  | CONTROLLER_UPDATE => Some (WaitsUpdate w) | CONTROLLER_DELETE => Some (WaitsDelete w)
  | CONTROLLER_ADD => None
  end.
Proof. cbn. by rewrite bool_decide_eq_true_2. Qed.

Lemma start_read_good :
  good (entered s t READ_FROM_CONTROLLER name (controller_operation_new READ_FROM_CONTROLLER name (fw s))).
Proof.
  rewrite start_run. cbv zeta. destruct (controller_marked_for_delete_ (access_ k)) eqn:Ed.
  { by apply inv_refused. }
  destruct (controller_marked_for_update_ (access_ k)) eqn:Eu; cbn [entered good].
  - eapply start_phase; [by rewrite role_waiting|done|done|done| |done].
    apply (read_waits _ _ lo); [by apply view_fresh|done|by apply view_insert_size].
  - eapply start_phase; [by rewrite role_working|done|done|done| |done].
    apply (read_entered _ _ lo); [by apply view_fresh|done|done|by apply view_insert_size].
Qed.

Lemma start_write_good :
  none_of (mutates c) (threads s) = true ->
  good (entered s t WRITE_TO_CONTROLLER name (controller_operation_new WRITE_TO_CONTROLLER name (fw s))).
Proof.
  intros Hn. pose proof (view_kinds c _ Hn) as Hv. rewrite start_run. cbv zeta.
  destruct (controller_marked_for_delete_ (access_ k)) eqn:Ed.
  { by apply inv_refused. }
  destruct (controller_marked_for_update_ (access_ k)) eqn:Eu.
  { apply (lo_update _ _ lo) in Eu as (t' & r & Hr & Er). specialize (Hv _ _ Hr).
    unfold is_changer, is_exclusive in Hv. by rewrite Er in Hv. }
  assert (write_count_ (access_ k) = 0) as ->.
  { rewrite (lo_write _ _ lo). assert (writers v = 0%nat) as ->; [|done].
    apply count_zero. intros t' r Hr. specialize (Hv _ _ Hr). by destruct r. }
  change ((0 !=? 0) || false) with false. cbn [entered good].
  eapply start_phase; [by rewrite role_working|done|done|done| |done].
  apply (write_entered _ _ lo); [by apply view_fresh|done].
Qed.

Lemma start_exclusive_good op :
  op = CONTROLLER_UPDATE \/ op = CONTROLLER_DELETE ->
  none_of (mutates c) (threads s) = true -> none_of (waits_to_read c) (threads s) = true ->
  good (entered s t op name (controller_operation_new op name (fw s))).
Proof.
  intros Hop H1 H2. rewrite start_run. cbv zeta.
  pose proof (exclusive_started _ _ lo t (op ==? CONTROLLER_DELETE) (view_fresh _ _ _ Ht)) as Hlo.
  assert (local_ok (marked (access_ k) (op ==? CONTROLLER_DELETE))
            (<[t := exclusive_role (op ==? CONTROLLER_DELETE) (can_delete_update (access_ k))]> v)) as Hlo'.
  { apply Hlo. intros t' r Hr. split; [by eapply view_kinds|by eapply view_no_waits]. }
  clear Hlo. destruct Hop as [-> | ->]; destruct (can_delete_update (access_ k)); cbn [entered good];
    (eapply start_phase; [first [by rewrite role_working|by rewrite role_waiting]|done|done|done|exact Hlo'|done]).
Qed.

End Start.

Lemma start_good s t op name :
  inv s -> allowed (EStart t op name) s = true -> good (step (EStart t op name) s).
Proof.
  intros Hinv Ha. cbn [step]. destruct (mutex s) eqn:Hm; [done|].
  destruct (threads s !! t) eqn:Ht; [done|]. cbn [allowed] in Ha. apply andb_true_iff in Ha as [Hs Ha].
  apply bool_decide_eq_true_1 in Hs.
  destruct (controller_list (fw s) !! name) as [ct|] eqn:Hl.
  2:{ unfold controller_operation_new, GetDriverByControllerName. rewrite Hl. cbn. by apply inv_refused. }
  destruct (iv_list s Hinv name ct Hl) as [k Hk]. destruct op; try done.
  - apply andb_true_iff in Ha as [H1 H2]. eapply start_exclusive_good; eauto.
  - apply andb_true_iff in Ha as [H1 H2]. eapply start_exclusive_good; eauto.
  - by eapply start_read_good.
  - by eapply start_write_good.
Qed.

(** ** Going on after a wait *)

Lemma with_excl_twice c (k : controller V) a a' f :
  with_excl c (set_access k a) a' (with_excl c k a f) = with_excl c k a' f.
Proof. unfold with_excl, set_ctrs. cbn. by rewrite insert_insert_eq. Qed.

Lemma with_excl_same c (k : controller V) f :
  ctrs f !! c = Some k -> with_excl c k (access_ k) f = f.
Proof.
  intros Hk. unfold with_excl, set_ctrs. rewrite insert_id; [by destruct f|]. rewrite Hk. by destruct k.
Qed.

Lemma resume_good s t : inv s -> good (step (EResume t) s).
Proof.
  intros Hinv. cbn [step]. destruct (mutex s) eqn:Hm; [done|].
  destruct (threads s !! t) as [[|op name cv c []]|] eqn:Ht; try done.
  pose proof (iv_wf s Hinv t _ Ht) as [Hadd _].
  assert (points_to c (Waiting op name cv c true) = true) as Hp by by apply bool_decide_eq_true_2.
  destruct (iv_alive s Hinv t _ c Ht Hp) as [k Hk]. pose proof (iv_local s Hinv c k Hk) as lo.
  assert (size (<[t := Working op name (Some c)]> (threads s)) = size (threads s)) as Hsz
    by (apply map_size_insert_Some; by eexists).
  pose proof (iv_size s Hinv) as Hs. pose proof (view_size c (threads s)) as Hvs.
  assert (forall r a mtx, role c (Working op name (Some c)) = Some r ->
    local_ok a (<[t := r]> (view c (threads s))) ->
    mtx = (if keeps_mutex op (Some c) then Some t else None) ->
    inv (mkSys (with_excl c k a (fw s)) mtx (<[t := Working op name (Some c)]> (threads s)))) as Hgo.
  { intros r a mtx Hr Hlo Hmtx. eapply inv_phase; try done.
    - congruence.
    - rewrite Ht. by intros ph0 [= <-].
    - by rewrite Hsz.
    - intros Hop. by apply (iv_delete s Hinv t _ c Ht). }
  assert (view c (threads s) !! t = role c (Waiting op name cv c true)) as Hv by by rewrite view_lookup, Ht.
  cbn [role] in Hv. rewrite bool_decide_eq_true_2 in Hv by done.
  destruct op; try done; cbn [controller_operation_resume].
  - cbn [entered good]. rewrite <- (with_excl_same c k (fw s) Hk).
    eapply Hgo; [cbn; by rewrite bool_decide_eq_true_2| |done].
    by apply (exclusive_resumed _ _ lo t false).
  - cbn [entered good]. rewrite <- (with_excl_same c k (fw s) Hk).
    eapply Hgo; [cbn; by rewrite bool_decide_eq_true_2| |done].
    by apply (exclusive_resumed _ _ lo t true).
  - rewrite (with_access_run _ _ _ _ Hk). cbn [mbind option_bind]. unfold enter_read.
    rewrite (with_access_run c (set_access k _) _ (with_excl _ _ _ _)) by apply lookup_insert_eq.
    cbn [mbind option_bind entered good]. rewrite with_excl_twice.
    eapply Hgo; [cbn; by rewrite bool_decide_eq_true_2| |done].
    apply (read_resumed _ _ lo t Hv). lia.
  - by apply (lo_no_wait _ _ lo) in Hv.
Qed.

(** ** Finishing *)

Section Finish.

Context s (Hinv : inv s) (t : tid) (name : string) (c : loc) (k : controller V).
Context (Hk : ctrs (fw s) !! c = Some k).
Notation lo := (iv_local s Hinv c k Hk).

Lemma working_view op : threads s !! t = Some (Working op name (Some c)) ->
  view c (threads s) !! t = role c (Working op name (Some c)) /\
  points_to c (Working op name (Some c)) = true.
Proof. intros Ht. rewrite view_lookup, Ht. split; [done|by apply bool_decide_eq_true_2]. Qed.

Lemma delete_wf : forall t' ph, delete t (threads s) !! t' = Some ph -> wf_phase ph.
Proof. intros t' ph [_ H0]%lookup_delete_Some. by apply (iv_wf s Hinv t'). Qed.

(** Who is woken when a reader or writer goes. *)
Lemma woken_view b :
  view c (wake_phase (if b : bool then [DeleteCond] else []) c <$> delete t (threads s))
  = wake_if b <$> delete t (view c (threads s)).
Proof.
  destruct (view_woken c _ delete_wf) as (E1 & E2 & _). rewrite <- view_delete.
  destruct b; [done|]. rewrite E1. cbn. by rewrite map_fmap_id.
Qed.

Lemma finish_read_good :
  threads s !! t = Some (Working READ_FROM_CONTROLLER name (Some c)) -> mutex s = None ->
  good (step (EFinish t) s).
Proof.
  intros Ht Hm. cbn [step]. rewrite Ht, Hm. cbn [keeps_mutex].
  destruct (working_view _ Ht) as [Hv Hp]. cbn [role] in Hv. rewrite bool_decide_eq_true_2 in Hv by done.
  cbn [locked_body controller_operation_delete]. rewrite Hk. cbn [mbind option_bind].
  rewrite (with_access_run _ _ _ _ Hk). cbn [mbind option_bind].
  change (READ_FROM_CONTROLLER ==? READ_FROM_CONTROLLER) with true.
  change (READ_FROM_CONTROLLER ==? WRITE_TO_CONTROLLER) with false.
  rewrite (bool_decide_eq_true_2 (@None tid = None)) by done. cbv iota. cbn [good broadcast].
  rewrite (lo_write_wait _ _ lo). change (bool_decide (0 > 0)) with false.
  rewrite andb_false_r. cbn [app].
  pose proof (iv_size s Hinv) as Hs. pose proof (view_size c (threads s)) as Hvs.
  pose proof (read_left _ _ lo t Hv ltac:(lia)) as Hlo. cbv zeta in Hlo.
  rewrite (lo_write_wait _ _ lo) in Hlo.
  eapply inv_leave; [done|done|done|done| |exact Hlo|by left]. apply woken_view.
Qed.

Lemma finish_write_good :
  threads s !! t = Some (Working WRITE_TO_CONTROLLER name (Some c)) -> mutex s = None ->
  good (step (EFinish t) s).
Proof.
  intros Ht Hm. cbn [step]. rewrite Ht, Hm. cbn [keeps_mutex].
  destruct (working_view _ Ht) as [Hv Hp]. cbn [role] in Hv. rewrite bool_decide_eq_true_2 in Hv by done.
  cbn [locked_body controller_operation_delete]. rewrite Hk. cbn [mbind option_bind].
  rewrite (with_access_run _ _ _ _ Hk). cbn [mbind option_bind].
  change (WRITE_TO_CONTROLLER ==? READ_FROM_CONTROLLER) with false.
  change (WRITE_TO_CONTROLLER ==? WRITE_TO_CONTROLLER) with true.
  rewrite (bool_decide_eq_true_2 (@None tid = None)) by done. cbv iota. cbn [good broadcast].
  rewrite (lo_write_wait _ _ lo). change (bool_decide (0 > 0)) with false.
  rewrite andb_false_r. cbn [app].
  eapply inv_leave; [done|done|done|done|apply woken_view| |by left]. by apply (write_left _ _ lo t).
Qed.

Lemma finish_update_good :
  threads s !! t = Some (Working CONTROLLER_UPDATE name (Some c)) ->
  good (step (EFinish t) s).
Proof.
  intros Ht. cbn [step]. rewrite Ht. rewrite (iv_mutex s Hinv t _ Ht) by done. cbn [keeps_mutex].
  destruct (working_view _ Ht) as [Hv Hp]. cbn [role] in Hv. rewrite bool_decide_eq_true_2 in Hv by done.
  rewrite bool_decide_eq_true_2 by done. cbn [locked_body controller_operation_delete].
  rewrite (with_access_run _ _ _ _ Hk). cbn [mbind option_bind].
  cbn [with_excl set_ctrs ctrs]. rewrite lookup_insert_eq. cbn [mbind option_bind access_ set_access].
  cbn [set_controller_marked_for_update write_wait_count_]. rewrite (lo_write_wait _ _ lo).
  change (bool_decide (0 > 0)) with false. cbv iota. cbn [good broadcast].
  eapply inv_leave; [done|done|exact Ht|done| |by apply (update_finished _ _ lo t Hv)|].
  - destruct (view_woken c _ delete_wf) as (_ & _ & E3). by rewrite E3, view_delete.
  - right. by apply (iv_mutex s Hinv t _ Ht).
Qed.

(** Nobody is left at a controller that is deleted. *)
Lemma finish_delete_good :
  threads s !! t = Some (Working CONTROLLER_DELETE name (Some c)) ->
  good (step (EFinish t) s).
Proof.
  intros Ht. cbn [step]. rewrite Ht. rewrite (iv_mutex s Hinv t _ Ht) by done. cbn [keeps_mutex].
  destruct (working_view _ Ht) as [Hv Hp]. cbn [role] in Hv. rewrite bool_decide_eq_true_2 in Hv by done.
  rewrite bool_decide_eq_true_2 by done. cbn [locked_body controller_operation_delete].
  destruct (iv_delete s Hinv t _ c Ht eq_refl Hp) as (ct & Hl & Ec). cbn [phase_name] in Hl.
  unfold RemoveControllerConfiguration. rewrite Hl, Ec. cbn [snd good broadcast].
  assert (forall t' ph, (wake_phase [] c <$> delete t (threads s)) !! t' = Some ph ->
    threads s !! t' = Some ph /\ t' <> t /\ points_to c ph = false) as Hth.
  { intros t' ph H0. apply lookup_fmap_Some in H0 as (ph1 & <- & H0).
    apply lookup_delete_Some in H0 as [Hne H0].
    assert (wake_phase [] c ph1 = ph1) as -> by (by destruct ph1). split_and!; [done|done|].
    destruct (points_to c ph1) eqn:E; [|done].
    destruct (points_role c ph1 (iv_wf s Hinv t' _ H0) E) as [r Hr].
    assert (view c (threads s) !! t' = Some r) as Hv' by by rewrite view_lookup, H0.
    by destruct Hne; rewrite (deletes_alone _ _ lo t t' r Hv Hv'). }
  split; cbn [fw mutex threads ctrs controller_list set_controller_list set_ctrs].
  - rewrite map_size_fmap, map_size_delete_Some by by eexists. pose proof (iv_size s Hinv). lia.
  - intros t' ph (H0 & _)%Hth. by apply (iv_wf s Hinv t').
  - intros name' ct' [Hne H0]%lookup_delete_Some. rewrite lookup_delete_ne; [by apply (iv_list s Hinv name')|].
    intros E. apply Hne. apply (iv_inj s Hinv name name' ct ct' Hl H0). congruence.
  - intros n1 n2 c1 c2 [_ H1]%lookup_delete_Some [_ H2]%lookup_delete_Some. by apply (iv_inj s Hinv).
  - intros t' ph c' (H0 & _ & Hn)%Hth Hpt. rewrite lookup_delete_ne; [by apply (iv_alive s Hinv t' ph)|].
    intros <-. congruence.
  - intros t' ph c' (H0 & _ & Hn)%Hth Hop Hpt.
    destruct (iv_delete s Hinv t' ph c' H0 Hop Hpt) as (ct' & Hl' & Ec'). exists ct'.
    rewrite lookup_delete_ne; [done|]. intros E. rewrite <- E in Hl'. congruence.
  - intros c' k' [Hne Hc']%lookup_delete_Some. rewrite view_woken_other by done.
    rewrite (view_other c' (threads s) _ t); [by apply (iv_local s Hinv)| | |].
    + intros t' Ht'. by rewrite lookup_delete_ne.
    + rewrite Ht. cbn. by rewrite bool_decide_eq_false_2 by congruence.
    + by rewrite lookup_delete_eq.
  - intros t' ph (H0 & Hne & _)%Hth Hh. pose proof (iv_mutex s Hinv t' _ H0 Hh).
    pose proof (iv_mutex s Hinv t _ Ht eq_refl). congruence.
  - done.
Qed.

End Finish.

Lemma finish_good s t : inv s -> good (step (EFinish t) s).
Proof.
  intros Hinv. destruct (threads s !! t) as [[op name [c|]|]|] eqn:Ht.
  - assert (points_to c (Working op name (Some c)) = true) as Hp by by apply bool_decide_eq_true_2.
    destruct (iv_alive s Hinv t _ c Ht Hp) as [k Hk]. destruct op.
    + by specialize (iv_wf s Hinv t _ Ht eq_refl).
    + by eapply finish_update_good.
    + by eapply finish_delete_good.
    + destruct (mutex s) eqn:Hm; [|by eapply finish_read_good]. cbn [step]. by rewrite Ht, Hm.
    + destruct (mutex s) eqn:Hm; [|by eapply finish_write_good]. cbn [step]. by rewrite Ht, Hm.
  - assert (has_mutex (Working op name None) = true) as Hh by by destruct op.
    pose proof (iv_mutex s Hinv t _ Ht Hh) as Hm. cbn [step]. rewrite Ht, Hm.
    assert (keeps_mutex op None = true) as -> by by destruct op.
    rewrite bool_decide_eq_true_2 by done.
    assert (locked_body op name None (fw s) = fw s) as -> by by destruct op.
    cbn. by eapply inv_gone.
  - cbn [step]. by rewrite Ht.
  - cbn [step]. by rewrite Ht.
Qed.

(** ** Adding *)

Lemma AddController_run name c d ping physical (f : ControllerFramework V) k :
  ctrs f !! c = Some k ->
  exists f' k', AddController name c d ping physical f = Some f' /\
    ctrs f' = <[c := k']> (ctrs f) /\ access_ k' = access_ k /\
    controller_list f' = controller_list (insert_container name (mkContainer c d false) f).
Proof.
  intros Hk. unfold AddController. set (f1 := insert_container _ _ f).
  assert (ctrs f1 = ctrs f) as E1 by (unfold f1, insert_container; by destruct (_ !! name)).
  rewrite <- E1 in Hk |- *. clearbody f1. clear E1.
  unfold with_ctr, PostTimer, post_physical_taskq. rewrite Hk.
  change (first_ping_interval ==? 0) with false.
  change (first_physical_task_interval ==? 0) with false.
  destruct ping, physical; cbn; rewrite ?lookup_insert_eq, ?Hk; cbn;
    (eexists _, _; split; [reflexivity|]; cbn; rewrite ?insert_insert_eq); try done.
  by rewrite insert_id.
Qed.

Lemma add_good s name c d ping physical :
  inv s -> allowed (EAdd name c d ping physical) s = true ->
  good (step (EAdd name c d ping physical) s).
Proof.
  intros Hinv Ha. cbn [step]. destruct (mutex s) eqn:Hm; [done|].
  destruct (ctrs (fw s) !! c) eqn:Hc; [done|]. cbn [allowed] in Ha. rewrite none_of_spec in Ha.
  set (f0 := set_ctrs _ (fw s)).
  destruct (AddController_run name c d ping physical f0 controller_new) as (f' & k' & -> & Ec & Ea & El).
  { apply lookup_insert_eq. }
  cbn [f0 set_ctrs ctrs] in Ec. rewrite insert_insert_eq in Ec. cbn [good].
  assert (forall c', is_Some (ctrs (fw s) !! c') -> is_Some (ctrs f' !! c')) as Hal.
  { intros c' Hc'. rewrite Ec. destruct (decide (c' = c)) as [->|Hne]; [rewrite lookup_insert_eq; by eexists|].
    by rewrite lookup_insert_ne. }
  assert (forall n ct, controller_list f' !! n = Some ct ->
    controller_list (fw s) !! n = Some ct \/
    n = name /\ ctr ct = c /\ controller_list (fw s) !! name = None) as Hli.
  { intros n ct. rewrite El. unfold insert_container. cbn [f0 set_ctrs controller_list].
    destruct (controller_list (fw s) !! name) eqn:En; [by left|]. cbn.
    intros [[<- <-]|[_ ?]]%lookup_insert_Some; auto. }
  assert (forall n ct, controller_list (fw s) !! n = Some ct -> ctr ct <> c) as Hnc.
  { intros n ct Hn E. destruct (iv_list s Hinv n ct Hn) as [k0 Hk0]. congruence. }
  split; cbn [fw mutex threads]; try apply Hinv.
  - intros n ct [H0|(-> & E & _)]%Hli; [by eapply Hal, (iv_list s Hinv n)|].
    rewrite Ec, E, lookup_insert_eq. by eexists.
  - intros n n' ct ct' [H0|(-> & E & _)]%Hli [H1|(-> & E' & _)]%Hli Eq; [by eapply (iv_inj s Hinv)| | |done].
    + by destruct (Hnc _ _ H0); congruence.
    + by destruct (Hnc _ _ H1); congruence.
  - intros t ph c' H0 Hp. by eapply Hal, (iv_alive s Hinv t ph).
  - intros t ph c' H0 Hop Hp. destruct (iv_delete s Hinv t ph c' H0 Hop Hp) as (ct & Hn & E).
    exists ct. split; [|done]. rewrite El. unfold insert_container. cbn [f0 set_ctrs controller_list].
    destruct (controller_list (fw s) !! name) eqn:En; [done|]. cbn.
    rewrite lookup_insert_ne; [done|]. intros E0. congruence.
  - intros c' k0. rewrite Ec. intros [[<- <-]|[_ Hk0]]%lookup_insert_Some; [|by apply (iv_local s Hinv)].
    rewrite Ea. assert (view c (threads s) = ∅) as ->; [|apply local_ok_empty].
    apply map_empty. intros t. rewrite view_lookup. destruct (threads s !! t) as [ph|] eqn:Et; [|done].
    cbn. destruct (role c ph) eqn:Er; [|done]. apply role_points in Er. by rewrite (Ha t ph Et) in Er.
  - intros t ph H0 Hh. rewrite (iv_mutex s Hinv t ph H0 Hh) in Hm. done.
  - done.
Qed.

Lemma step_good e s : inv s -> allowed e s = true -> good (step e s).
Proof.
  intros Hinv Ha. destruct e; [by apply start_good|by apply resume_good|by apply finish_good|done|by apply add_good].
Qed.

Lemma threads_inv s : reachable s -> inv s.
Proof.
  induction 1 as [|s e s1 _ IH Ha Hs]; [apply inv_init|].
  pose proof (step_good e s IH Ha) as Hg. by rewrite Hs in Hg.
Qed.

End Steps.
