(* ===== verification/DrvTheorems.v ===== *)
(** * Theorems on the access to controllers *)

From S2P Require Import Prelude CacheKeys CacheTree DrvCtr DrvLocal DrvInv DrvSteps.

Local Open Scope Z_scope.

Section Theorems.

Context {V : Type}.
Implicit Types (s : System V) (t : tid) (c : loc).

Definition works_on s t (op : ControllerOps) c : Prop :=
  exists name, threads s !! t = Some (Working op name (Some c)).

Lemma works_role s t op c : works_on s t op c ->
  view c (threads s) !! t
  = match op with
    | READ_FROM_CONTROLLER => Some Reads | WRITE_TO_CONTROLLER => Some Writes
    | CONTROLLER_UPDATE => Some Updates | CONTROLLER_DELETE => Some Deletes
    | CONTROLLER_ADD => None
    end.
Proof. intros [name Ht]. rewrite view_lookup, Ht. cbn. by rewrite bool_decide_eq_true_2. Qed.


(** ** Progress *)

Lemma good_next (o : Outcome V) : good o -> o <> Disabled -> exists s1, o = Next s1.
Proof. destruct o; [done..|eauto]. Qed.

(** A thread at work can finish, or the one that has the mutex can. *)
Lemma finish_enabled s t op name h :
  inv s -> threads s !! t = Some (Working op name h) ->
  exists t' s1, step (EFinish t') s = Next s1.
Proof.
  intros Hinv Ht. destruct (mutex s) as [t0|] eqn:Hm.
  - destruct (iv_holder s Hinv t0 Hm) as ([op0 name0 h0|] & Ht0 & Hh); [|done].
    exists t0. apply (good_next _ (finish_good s t0 Hinv)). cbn [step]. rewrite Ht0, Hm.
    cbn in Hh. rewrite Hh, bool_decide_eq_true_2 by done. by destruct (controller_operation_delete _ _ _) as [[]|].
  - exists t. apply (good_next _ (finish_good s t Hinv)). cbn [step]. rewrite Ht, Hm.
    destruct (keeps_mutex op h) eqn:E.
    + pose proof (iv_mutex s Hinv t _ Ht E). congruence.
    + by destruct (controller_operation_delete _ _ _) as [[]|].
Qed.

(** Somebody who waits unwoken waits for a thread that is at work or woken. *)
Lemma waiter_waits_for s t op name cv c :
  inv s -> threads s !! t = Some (Waiting op name cv c false) ->
  exists t' ph, threads s !! t' = Some ph /\
    match ph with Working _ _ _ => True | Waiting _ _ _ _ w => w = true end.
Proof.
  intros Hinv Ht. destruct (iv_alive s Hinv t _ c Ht) as [k Hk]; [by apply bool_decide_eq_true_2|].
  pose proof (iv_local s Hinv c k Hk) as lo. destruct (iv_wf s Hinv t _ Ht) as [Hadd _].
  assert (forall t' r, view c (threads s) !! t' = Some r ->
    exists ph, threads s !! t' = Some ph /\ role c ph = Some r) as Hv.
  { intros t' r. rewrite view_lookup. destruct (threads s !! t'); [cbn; eauto|done]. }
  assert (forall t', view c (threads s) !! t' = Some Reads -> exists t' ph, threads s !! t' = Some ph /\
    match ph with Working _ _ _ => True | Waiting _ _ _ _ w => w = true end) as Hread.
  { intros t' H0. destruct (Hv _ _ H0) as (ph & Hp & Hr). exists t', ph. split; [done|].
    destruct ph as [|op' ? ? c' w]; [done|]. cbn in Hr. case_bool_decide; [|done]. by destruct op'. }
  assert (view c (threads s) !! t = role c (Waiting op name cv c false)) as R by by rewrite view_lookup, Ht.
  cbn in R. rewrite bool_decide_eq_true_2 in R by done. destruct op; try done.
  - destruct (lo_pending _ _ lo t false) as [t' H0]; [auto|eauto].
  - destruct (lo_pending _ _ lo t false) as [t' H0]; [auto|eauto].
  - pose proof (lo_waits _ _ lo t false R) as Hu. apply (lo_update _ _ lo) in Hu as (t' & r & H0 & Er).
    destruct r as [| | | | | |[]|]; try done.
    + destruct (Hv _ _ H0) as (ph & Hp & Hr). exists t', ph. split; [done|].
      destruct ph as [|op' ? ? c' w]; [done|]. cbn in Hr. case_bool_decide; [|done]. by destruct op'.
    + destruct (Hv _ _ H0) as (ph & Hp & Hr). exists t', ph. split; [done|].
      destruct ph as [|op' ? ? c' w]; [done|]. cbn in Hr. case_bool_decide; [|done].
      destruct op'; by simplify_eq.
    + destruct (lo_pending _ _ lo t' false) as [t1 H1]; [auto|eauto].
  - by apply (lo_no_wait _ _ lo) in R.
Qed.

(** C40: Under the same rules the threads never block one another: while there
    is an operation on a controller, one that is at work can finish or one
    that waited was woken and can go on. *)
Theorem controller_threads_progress s (Hr : reachable s) (Hne : threads s <> ∅) :
  exists t s1, step (EFinish t) s = Next s1 \/ step (EResume t) s = Next s1.
Proof.
  pose proof (threads_inv s Hr) as Hinv.
  assert (exists t ph, threads s !! t = Some ph /\
    match ph with Working _ _ _ => True | Waiting _ _ _ _ w => w = true end) as (t & ph & Ht & Hp).
  { apply map_choose in Hne as (t & ph & Ht). destruct ph as [|op name cv c []];
      [by exists t; eexists..|].
    by eapply waiter_waits_for. }
  destruct ph as [op name h|op name cv c w].
  - destruct (finish_enabled s t op name h Hinv Ht) as (t' & s1 & E). eauto.
  - subst w. destruct (mutex s) as [t0|] eqn:Hm.
    + destruct (iv_holder s Hinv t0 Hm) as ([op0 name0 h0|] & Ht0 & Hh); [|done].
      destruct (finish_enabled s t0 op0 name0 h0 Hinv Ht0) as (t' & s1 & E). eauto.
    + destruct (good_next _ (resume_good s t Hinv)) as [s1 E]; [|eauto]. cbn [step]. rewrite Hm, Ht.
      unfold entered. by destruct (controller_operation_resume _ _ _) as [[[] ?]|].
Qed.

(** ** Writers at the same time *)

(** The first writer leaves, and a third comes before the second, who was
    woken, goes on. *)
Definition writers_meet : list Event :=
  [EAdd "odc" 1 0 false false; EStart 1 WRITE_TO_CONTROLLER "odc"; EStart 2 WRITE_TO_CONTROLLER "odc";
   EFinish 1; EStart 3 WRITE_TO_CONTROLLER "odc"; EResume 2].

(** What operations leave alone. *)
Lemma with_access_other c g (f f' : ControllerFramework V) :
  with_access c g f = Some f' ->
  controller_list f' = controller_list f /\ (forall c', c' <> c -> ctrs f' !! c' = ctrs f !! c') /\
  exists k, ctrs f !! c = Some k /\ ctrs f' !! c = Some (set_access k (g (access_ k))).
Proof.
  unfold with_access, with_ctr. destruct (ctrs f !! c) as [k|] eqn:Hk; [|done]. intros [= <-].
  split_and!; [done| |].
  - intros c' Hne. cbn. by rewrite lookup_insert_ne.
  - exists k. split; [done|apply lookup_insert_eq].
Qed.

(** What a started operation does to the controller [c] of its name or to any
    other. *)
Inductive started (op : ControllerOps) (f : ControllerFramework V) (c : loc) (e : Entry)
    (f' : ControllerFramework V) : Prop :=
| started_nothing : e = Locked None -> f' = f -> started op f c e f'
| started_at k a :
    ctrs f !! c = Some k -> ctrs f' !! c = Some (set_access k a) ->
    (op <> WRITE_TO_CONTROLLER -> write_count_ a = write_count_ (access_ k)) ->
    match e with
    | Locked h => h = Some c /\ (op = CONTROLLER_ADD \/ can_delete_update (access_ k) = true)
    | Entered c' => c' = c /\
        (op = READ_FROM_CONTROLLER \/ op = WRITE_TO_CONTROLLER /\ write_count_ (access_ k) = 0)
    | Waits cv c' => c' = c /\ op <> CONTROLLER_ADD /\ cv = op_cond op /\
        write_count_ a = write_count_ (access_ k)
    end ->
    controller_list f' = controller_list f ->
    (forall c', c' <> c -> ctrs f' !! c' = ctrs f !! c') -> started op f c e f'.

Lemma set_access_same (k : controller V) : set_access k (access_ k) = k.
Proof. by destruct k. Qed.

Lemma new_started op name (f f' : ControllerFramework V) e ct :
  controller_list f !! name = Some ct -> controller_operation_new op name f = Some (e, f') ->
  started op f (ctr ct) e f'.
Proof.
  intros Hl. unfold controller_operation_new, GetDriverByControllerName. rewrite Hl.
  destruct (ctrs f !! ctr ct) as [k|] eqn:Hk; [|done]. cbn [mbind option_bind].
  assert (forall g f1, with_access (ctr ct) g f = Some f1 ->
    f1 = with_excl (ctr ct) k (g (access_ k)) f) as Hw.
  { intros g f1. rewrite (with_access_run _ _ _ _ Hk). congruence. }
  unfold enter_read, enter_write. destruct op; rewrite ?(with_access_run _ _ _ _ Hk); cbn [mbind option_bind].
  - intros [= <- <-]. eapply (started_at _ _ _ _ _ k (access_ k)); auto. by rewrite set_access_same.
  - destruct (can_delete_update (access_ k)) eqn:Ed; intros [= <- <-];
      (eapply (started_at _ _ _ _ _ k); [done|apply lookup_insert_eq|done|auto|done|];
       intros c' Hne; cbn; by rewrite lookup_insert_ne).
  - destruct (can_delete_update (access_ k)) eqn:Ed; intros [= <- <-];
      (eapply (started_at _ _ _ _ _ k); [done|apply lookup_insert_eq|done|auto|done|];
       intros c' Hne; cbn; by rewrite lookup_insert_ne).
  - destruct (controller_marked_for_delete_ _); [intros [= <- <-]; by apply started_nothing|].
    destruct (controller_marked_for_update_ _); intros [= <- <-];
      (eapply (started_at _ _ _ _ _ k); [done|apply lookup_insert_eq|done|auto|done|];
       intros c' Hne; cbn; by rewrite lookup_insert_ne).
  - destruct (controller_marked_for_delete_ _); [intros [= <- <-]; by apply started_nothing|].
    destruct (_ || _) eqn:Ew; intros [= <- <-];
      (eapply (started_at _ _ _ _ _ k); [done|apply lookup_insert_eq|done| |done|];
       [|intros c' Hne; cbn; by rewrite lookup_insert_ne]); [done|].
    apply orb_false_iff in Ew as [Ew _]. bool_norm. auto.
Qed.

(** From then on, whatever happens: the counter is at its end, and those who
    wait to change the controller are not woken. *)
Record wedged c s : Prop := {
  wd_list : exists ct, controller_list (fw s) !! "odc"%string = Some ct /\ ctr ct = c;
  wd_names : forall name ct, controller_list (fw s) !! name = Some ct -> ctr ct = c -> name = "odc"%string;
  wd_count : exists k, ctrs (fw s) !! c = Some k /\ write_count_ (access_ k) = UINT32_MAX;
  wd_phase : forall t ph, threads s !! t = Some ph -> points_to c ph = true ->
    match ph with
    | Working op _ _ => op = READ_FROM_CONTROLLER \/ op = CONTROLLER_ADD
    | Waiting op _ _ _ w => op <> READ_FROM_CONTROLLER -> w = false
    end;
  wd_handle : forall t ph c', threads s !! t = Some ph -> phase_name ph = "odc"%string ->
    points_to c' ph = true -> c' = c
}.

(** A change of a thread that fits. *)
Lemma wedged_change c s s1 t ph :
  wedged c s -> controller_list (fw s1) = controller_list (fw s) ->
  (exists k, ctrs (fw s1) !! c = Some k /\ write_count_ (access_ k) = UINT32_MAX) ->
  threads s1 = <[t := ph]> (threads s) ->
  (points_to c ph = true ->
     match ph with
     | Working op _ _ => op = READ_FROM_CONTROLLER \/ op = CONTROLLER_ADD
     | Waiting op _ _ _ w => op <> READ_FROM_CONTROLLER -> w = false
     end) ->
  (forall c', phase_name ph = "odc"%string -> points_to c' ph = true -> c' = c) ->
  wedged c s1.
Proof.
  intros [W1 W2 W3 W4 W5] El Ek Et Hph Hh. split; rewrite ?El; [done|done|done|..].
  - rewrite Et. intros t' ph' H0. apply lookup_insert_Some in H0 as [[_ <-]|[_ H0]]; [done|].
    by apply (W4 t').
  - rewrite Et. intros t' ph' c' H0. apply lookup_insert_Some in H0 as [[_ <-]|[_ H0]]; [auto|].
    by apply (W5 t').
Qed.

Lemma wedged_start c s t op name s1 :
  wedged c s -> step (EStart t op name) s = Next s1 -> wedged c s1.
Proof.
  intros W Hs. cbn [step] in Hs. destruct (mutex s); [done|]. destruct (threads s !! t); [done|].
  destruct (controller_operation_new op name (fw s)) as [[e f']|] eqn:En; [|done].
  destruct (controller_list (fw s) !! name) as [ct|] eqn:Hl.
  2:{ unfold controller_operation_new, GetDriverByControllerName in En. rewrite Hl in En.
      injection En as <- <-. injection Hs as <-. eapply wedged_change; try done. apply W. }
  destruct (new_started _ _ _ _ _ _ Hl En) as [-> ->|k a Hk Hk' Hcnt He El Ho].
  { injection Hs as <-. eapply wedged_change; try done. apply W. }
  assert (exists ph, fw s1 = f' /\ threads s1 = <[t := ph]> (threads s) /\ phase_op ph = op /\
    phase_name ph = name /\ points_to (ctr ct) ph = true /\
    (ctr ct = c -> match ph with
                   | Working op _ _ => op = READ_FROM_CONTROLLER \/ op = CONTROLLER_ADD
                   | Waiting op _ _ _ w => op <> READ_FROM_CONTROLLER -> w = false
                   end)) as (ph & E1 & E2 & E3 & E4 & E5 & E6).
  { assert (ctr ct = c -> write_count_ (access_ k) = UINT32_MAX) as Hm.
    { intros Ec. destruct (wd_count c s W) as (k0 & Hk0 & E0). rewrite Ec in Hk. congruence. }
    destruct e as [h|c'|cv c']; injection Hs as <-; eexists; (split; [done|]); (split; [done|]); cbn.
    - destruct He as [-> He]. split_and!; try done; [by apply bool_decide_eq_true_2|].
      intros Ec. specialize (Hm Ec). destruct He as [->|He]; [by right|]. unfold can_delete_update in He.
      rewrite Hm in He. by rewrite andb_false_r in He.
    - destruct He as [-> He]. split_and!; try done; [by apply bool_decide_eq_true_2|].
      intros Ec. specialize (Hm Ec). destruct He as [->|[_ He]]; [by left|]. by rewrite Hm in He.
    - destruct He as (-> & _ & _ & _). split_and!; try done. by apply bool_decide_eq_true_2. }
  assert (forall c', points_to c' ph = true -> c' = ctr ct) as Hone.
  { destruct ph as [? ? [c0|]|? ? ? c0 ?]; cbn in E5 |- *; bool_norm; intros c' Hc'; bool_norm; congruence. }
  eapply (wedged_change c s s1 t ph W); [by rewrite E1, El| |done| |].
  - rewrite E1. destruct (decide (ctr ct = c)) as [<-|Hne].
    + eexists. split; [exact Hk'|]. cbn. destruct (wd_count _ s W) as (k0 & Hk0 & E0).
      assert (k0 = k) as -> by congruence. destruct (decide (op = WRITE_TO_CONTROLLER)) as [->|Hop].
      * destruct e as [h|c'|cv c'].
        -- destruct He as [_ [?|He]]; [done|]. unfold can_delete_update in He. rewrite E0 in He.
           by rewrite andb_false_r in He.
        -- destruct He as [_ [?|[_ He]]]; [done|]. by rewrite E0 in He.
        -- destruct He as (_ & _ & _ & ->). done.
      * by rewrite Hcnt.
    + rewrite Ho by done. apply W.
  - intros Hp. apply E6. symmetry. by apply Hone.
  - intros c' Hn Hp. rewrite (Hone c' Hp). rewrite E4 in Hn. rewrite Hn in Hl.
    destruct (wd_list c s W) as (ct' & Hl' & E'). congruence.
Qed.

Lemma resumed_effect op c (f f' : ControllerFramework V) e :
  controller_operation_resume op c f = Some (e, f') ->
  controller_list f' = controller_list f /\ (forall c', c' <> c -> ctrs f' !! c' = ctrs f !! c') /\
  (op = READ_FROM_CONTROLLER -> exists k a, ctrs f !! c = Some k /\
     ctrs f' !! c = Some (set_access k a) /\ write_count_ a = write_count_ (access_ k)) /\
  (e = Entered c \/ e = Locked (Some c)).
Proof.
  destruct op; cbn [controller_operation_resume]; try (intros [= <- <-]; split_and!; auto; done).
  - destruct (with_access c _ f) as [f1|] eqn:E1; [|done]. cbn [mbind option_bind]. unfold enter_read.
    destruct (with_access c _ f1) as [f2|] eqn:E2; [|done]. cbn. intros [= <- <-].
    destruct (with_access_other _ _ _ _ E1) as (L1 & O1 & k & K1 & K1').
    destruct (with_access_other _ _ _ _ E2) as (L2 & O2 & k' & K2 & K2').
    rewrite K1' in K2. injection K2 as <-. split_and!; [by rewrite L2|..].
    + intros c' Hne. by rewrite O2, O1.
    + intros _. eexists _, _. split; [exact K1|]. by rewrite K2'.
    + by left.
  - destruct (with_access c _ f) as [f1|] eqn:E1; [|done]. cbn [mbind option_bind]. unfold enter_write.
    destruct (with_access c _ f1) as [f2|] eqn:E2; [|done]. cbn. intros [= <- <-].
    destruct (with_access_other _ _ _ _ E1) as (L1 & O1 & _).
    destruct (with_access_other _ _ _ _ E2) as (L2 & O2 & _).
    split_and!; [by rewrite L2| |done|by left]. intros c' Hne. by rewrite O2, O1.
Qed.

Lemma wedged_resume c s t s1 : wedged c s -> step (EResume t) s = Next s1 -> wedged c s1.
Proof.
  intros W Hs. cbn [step] in Hs. destruct (mutex s); [done|].
  destruct (threads s !! t) as [[|op name cv c' []]|] eqn:Ht; try done.
  destruct (controller_operation_resume op c' (fw s)) as [[e f']|] eqn:En; [|done].
  destruct (resumed_effect _ _ _ _ _ En) as (El & Ho & Hr & He).
  assert (c' = c -> op = READ_FROM_CONTROLLER) as Hop.
  { intros ->. destruct (decide (op = READ_FROM_CONTROLLER)) as [|Hn]; [done|].
    by specialize (wd_phase c s W t _ Ht (bool_decide_eq_true_2 _ eq_refl) Hn). }
  assert (fw s1 = f' /\ threads s1 = <[t := Working op name (Some c')]> (threads s)) as [E1 E2]
    by (by destruct He as [-> | ->]; injection Hs as <-).
  eapply (wedged_change c s s1 t _ W); [by rewrite E1| |exact E2| |].
  - rewrite E1. destruct (decide (c' = c)) as [->|Hne].
    + destruct (Hr (Hop eq_refl)) as (k & a & Hk & Hk' & Ea). destruct (wd_count c s W) as (k0 & Hk0 & E0).
      eexists. split; [exact Hk'|]. cbn. rewrite Ea. congruence.
    + rewrite Ho by congruence. apply W.
  - cbn. intros Hp. bool_norm. injection Hp as ->. auto.
  - cbn. intros c0 Hn Hp. bool_norm. injection Hp as <-.
    by apply (wd_handle c s W t _ c' Ht Hn), bool_decide_eq_true_2.
Qed.

(** Threads that are left after one is gone and others are woken. *)
Lemma wedged_left c s f1 t cvs h :
  wedged c s -> (exists ct, controller_list f1 !! "odc"%string = Some ct /\ ctr ct = c) ->
  (forall name ct, controller_list f1 !! name = Some ct -> ctr ct = c -> name = "odc"%string) ->
  (exists k, ctrs f1 !! c = Some k /\ write_count_ (access_ k) = UINT32_MAX) ->
  (h = Some c -> cvs = []) ->
  wedged c (mkSys f1 None (broadcast cvs h (delete t (threads s)))).
Proof.
  intros W H1 H2 H3 Hb.
  assert (forall t' ph, broadcast cvs h (delete t (threads s)) !! t' = Some ph ->
    exists ph0, threads s !! t' = Some ph0 /\ phase_name ph = phase_name ph0 /\
      (forall c', points_to c' ph = points_to c' ph0) /\ (points_to c ph0 = true -> ph = ph0)) as Hth.
  { intros t' ph H0. destruct h as [c0|]; cbn in H0.
    - apply lookup_fmap_Some in H0 as (ph0 & <- & H0). apply lookup_delete_Some in H0 as [_ H0].
      exists ph0. destruct (wake_phase_same cvs c0 ph0) as (_ & E2 & E3 & _).
      split_and!; [done|done|done|]. intros Hp. destruct ph0 as [|op n cv c1 w]; [done|]. cbn in Hp |- *.
      bool_norm. subst c1. destruct (decide (c = c0)) as [<-|Hne].
      + by rewrite (Hb eq_refl).
      + by rewrite (bool_decide_eq_false_2 (c = c0)), andb_false_r by done.
    - apply lookup_delete_Some in H0 as [_ H0]. eauto. }
  split; cbn [fw threads]; [done|done|done|..].
  - intros t' ph H0 Hp. destruct (Hth _ _ H0) as (ph0 & Ht & _ & Ep & Esame). rewrite Ep in Hp.
    rewrite (Esame Hp). by apply (wd_phase c s W t').
  - intros t' ph c' H0 Hn Hp. destruct (Hth _ _ H0) as (ph0 & Ht & En & Ep & _). rewrite Ep in Hp.
    rewrite En in Hn. by apply (wd_handle c s W t' ph0).
Qed.

Lemma deleted_effect op c (f f' : ControllerFramework V) cvs :
  controller_operation_delete op (Some c) f = Some (cvs, f') ->
  f' = f \/ exists g, with_access c g f = Some f'.
Proof.
  destruct op; cbn [controller_operation_delete]; try (intros [= _ <-]; by left).
  - destruct (with_access c _ f) as [f1|] eqn:E; [|done]. cbn [mbind option_bind].
    destruct (ctrs f1 !! c); [|done]. cbn [mbind option_bind]. intros [= _ <-]. eauto.
  - destruct (ctrs f !! c); [|done]. cbn [mbind option_bind].
    destruct (with_access c _ f) as [f1|] eqn:E; [|done]. intros [= _ <-]. eauto.
  - destruct (ctrs f !! c); [|done]. cbn [mbind option_bind].
    destruct (with_access c _ f) as [f1|] eqn:E; [|done]. intros [= _ <-]. eauto.
Qed.

(** Destructors away from [c], and of readers at [c]. *)
Lemma finished_effect op h (f f' : ControllerFramework V) cvs c :
  controller_operation_delete op h f = Some (cvs, f') ->
  (exists k, ctrs f !! c = Some k /\ write_count_ (access_ k) = UINT32_MAX) ->
  (h = Some c -> op = READ_FROM_CONTROLLER \/ op = CONTROLLER_ADD) ->
  controller_list f' = controller_list f /\
  (exists k, ctrs f' !! c = Some k /\ write_count_ (access_ k) = UINT32_MAX) /\ (h = Some c -> cvs = []).
Proof.
  intros Hd Hk Hop. destruct h as [c0|]; cbn [controller_operation_delete] in Hd; [|by simplify_eq].
  destruct (decide (c0 = c)) as [->|Hne].
  - destruct Hk as (k & Hk & Ek). destruct (Hop eq_refl) as [-> | ->]; [|simplify_eq; eauto].
    rewrite Hk in Hd. cbn [mbind option_bind] in Hd. rewrite (with_access_run _ _ _ _ Hk) in Hd.
    cbn [mbind option_bind] in Hd. rewrite Ek in Hd. injection Hd as <- <-. split; [done|]. split; [|done].
    eexists. split; [apply lookup_insert_eq|]. cbn. done.
  - destruct (deleted_effect _ _ _ _ _ Hd) as [->|[g Hg]]; [by split_and!; [| |congruence]|].
    destruct (with_access_other _ _ _ _ Hg) as (El & Ho & _).
    split_and!; [done| |congruence]. by rewrite Ho by congruence.
Qed.

Lemma wedged_finish c s t s1 : wedged c s -> step (EFinish t) s = Next s1 -> wedged c s1.
Proof.
  intros W Hs. cbn [step] in Hs. destruct (threads s !! t) as [[op name h|]|] eqn:Ht; try done.
  destruct (bool_decide _); [|done].
  destruct (controller_operation_delete op h (locked_body op name h (fw s))) as [[cvs f1]|] eqn:Ed; [|done].
  injection Hs as <-.
  assert (h = Some c -> op = READ_FROM_CONTROLLER \/ op = CONTROLLER_ADD) as Hop.
  { intros ->. by apply (wd_phase c s W t _ Ht), bool_decide_eq_true_2. }
  set (f0 := locked_body op name h (fw s)) in *.
  assert ((exists ct, controller_list f0 !! "odc"%string = Some ct /\ ctr ct = c) /\
    (forall name ct, controller_list f0 !! name = Some ct -> ctr ct = c -> name = "odc"%string) /\
    (exists k, ctrs f0 !! c = Some k /\ write_count_ (access_ k) = UINT32_MAX)) as (F1 & F2 & F3).
  { destruct (decide (op = CONTROLLER_DELETE)) as [->|Hn].
    2:{ assert (f0 = fw s) as -> by (unfold f0; destruct op; done). split_and!; apply W. }
    destruct h as [c0|]; [|split_and!; apply W]. cbn in f0. unfold f0, RemoveControllerConfiguration.
    destruct (controller_list (fw s) !! name) as [ct|] eqn:Hl; cbn [snd]; [|split_and!; apply W].
    assert (name <> "odc"%string) as Hname.
    { intros ->. assert (c0 = c) as -> by (by apply (wd_handle c s W t _ c0 Ht), bool_decide_eq_true_2).
      by destruct (Hop eq_refl). }
    cbn. split_and!.
    - rewrite lookup_delete_ne by done. apply W.
    - intros n' ct' [_ H0]%lookup_delete_Some. by apply (wd_names c s W).
    - rewrite lookup_delete_ne; [apply W|]. intros E. by apply Hname, (wd_names c s W name ct). }
  destruct (finished_effect _ _ _ _ _ c Ed F3 Hop) as (El & Ek & Eb).
  apply wedged_left; rewrite ?El; done.
Qed.

Lemma wedged_add c s name c' d ping physical s1 :
  wedged c s -> step (EAdd name c' d ping physical) s = Next s1 -> wedged c s1.
Proof.
  intros W Hs. cbn [step] in Hs. destruct (mutex s); [done|]. destruct (ctrs (fw s) !! c') eqn:Hc; [done|].
  destruct (AddController_run name c' d ping physical
    (set_ctrs (<[c' := controller_new]> (ctrs (fw s))) (fw s)) controller_new) as (f' & k' & E & Ec & _ & El);
    [apply lookup_insert_eq|]. rewrite E in Hs. injection Hs as <-.
  destruct (wd_list c s W) as (ct & Hl & Ect). destruct (wd_count c s W) as (k & Hk & Ek).
  assert (c' <> c) as Hne by congruence. unfold insert_container in El. cbn in El.
  assert (forall n ct0, controller_list f' !! n = Some ct0 ->
    controller_list (fw s) !! n = Some ct0 \/ ctr ct0 = c') as Hli.
  { rewrite El. intros n ct0. destruct (controller_list (fw s) !! name); [by left|]. cbn.
    intros [[_ <-]|[_ ?]]%lookup_insert_Some; auto. }
  split; cbn [fw threads]; try apply W.
  - exists ct. split; [|done]. rewrite El. destruct (controller_list (fw s) !! name) eqn:En; [done|]. cbn.
    rewrite lookup_insert_ne; [done|]. intros ->. congruence.
  - intros n ct0 H0 E0. destruct (Hli _ _ H0) as [H1|H1]; [by apply (wd_names c s W n ct0)|congruence].
  - exists k. split; [|done]. rewrite Ec. cbn. by rewrite !lookup_insert_ne.
Qed.

Definition is_wake (e : Event) : bool := match e with EWake _ => true | _ => false end.

Lemma wedged_run c l s s1 : existsb is_wake l = false -> wedged c s -> run l s = Next s1 -> wedged c s1.
Proof.
  revert s. induction l as [|e l IH]; cbn; intros s Hl W Hs; [by simplify_eq|].
  apply orb_false_iff in Hl as [He Hl].
  destruct (step e s) as [| |s2] eqn:E; [done..|]. apply (IH s2); [done| |done].
  destruct e; [by eapply wedged_start|by eapply wedged_resume|by eapply wedged_finish|done|by eapply wedged_add].
Qed.

Lemma map_lookup_none {A} (m : gmap tid A) (t : tid) x : m = ∅ -> m !! t = Some x -> False.
Proof. intros ->. by rewrite lookup_empty. Qed.

(** When writers meet, two of them are at work on the controller at once:
    a writer that was woken does not look at the counter again.  When both have
    left, the counter has wrapped around, and whatever happens then, but for
    spurious wake-ups, nobody ever writes, updates or deletes the controller
    any more. *)
Theorem meeting_writers_lock_out :
  exists s1 s2 : System V, run writers_meet init = Next s1 /\
    works_on s1 2%positive WRITE_TO_CONTROLLER 1%positive /\
    works_on s1 3%positive WRITE_TO_CONTROLLER 1%positive /\
    run [EFinish 2; EFinish 3]%positive s1 = Next s2 /\ threads s2 = ∅ /\
    forall l s t op, existsb is_wake l = false -> run l s2 = Next s -> is_mutator op = true -> ~ works_on s t op 1%positive.
Proof.
  eexists _, _. split; [vm_compute; reflexivity|].
  split; [by eexists; vm_compute|]. split; [by eexists; vm_compute|].
  split; [vm_compute; reflexivity|]. split; [vm_compute; reflexivity|].
  intros l s t op Hl Hr Hop [name Ht].
  assert (wedged 1%positive s) as W.
  { eapply wedged_run; [exact Hl| |exact Hr]. split.
    - eexists. split; [vm_compute; reflexivity|done].
    - intros n ct H0 _. destruct (decide (n = "odc"%string)) as [|Hne]; [done|].
      change (controller_list _) with ({["odc"%string := mkContainer 1 0 false]} : gmap string _) in H0.
      by rewrite lookup_singleton_ne in H0.
    - eexists. split; [vm_compute; reflexivity|done].
    - intros t' ph H0. exfalso. revert H0. by apply map_lookup_none.
    - intros t' ph c' H0. exfalso. revert H0. by apply map_lookup_none. }
  destruct (wd_phase _ _ W t _ Ht (bool_decide_eq_true_2 _ eq_refl)) as [-> | ->]; done.
Qed.

(** ** A deletion after an update *)

(** Every operation that changes the controller is over before the next one
    starts. *)
Definition update_then_delete : list Event :=
  [EAdd "odc" 1 0 false false; EStart 1 READ_FROM_CONTROLLER "odc"; EStart 2 CONTROLLER_UPDATE "odc";
   EStart 3 READ_FROM_CONTROLLER "odc"; EFinish 1; EResume 2; EFinish 2;
   EStart 4 CONTROLLER_DELETE "odc"; EFinish 4].

(** A reader that waited for an update and was woken may find the
    controller deleted: the deletion does not wait for it, and it goes on with
    the freed controller. *)
Theorem woken_reader_uses_deleted :
  exists s : System V, run update_then_delete init = Next s /\ step (EResume 3) s = Fault.
Proof. eexists. split; [vm_compute; reflexivity|]. vm_compute. reflexivity. Qed.

(** ** Spurious wake-ups *)

(** A deletion waits for a reader, is woken without a broadcast, and goes on
    without a look at the counters: it deletes the controller while the reader
    is at work on it, and the reader's destructor uses the freed
    controller. *)
Definition delete_woken : list Event :=
  [EAdd "odc" 1 0 false false; EStart 1 READ_FROM_CONTROLLER "odc"; EStart 2 CONTROLLER_DELETE "odc";
   EWake 2; EResume 2].
Theorem spurious_wakeup_deletes :
  exists s : System V, run delete_woken init = Next s /\
    works_on s 1%positive READ_FROM_CONTROLLER 1%positive /\
    works_on s 2%positive CONTROLLER_DELETE 1%positive /\
    run [EFinish 2; EFinish 1]%positive s = Fault.
Proof.
  eexists. split; [vm_compute; reflexivity|].
  split; [exists "odc"%string; vm_compute; reflexivity|].
  split; [exists "odc"%string; vm_compute; reflexivity|]. vm_compute. reflexivity.
Qed.

(** ** Runs by the rules *)

Fixpoint follows_rules (l : list Event) s : bool :=
  match l with
  | [] => true
  | e :: l' => allowed e s && match step e s with Next s1 => follows_rules l' s1 | _ => false end
  end.

Lemma events_reachable l s s1 :
  reachable s -> follows_rules l s = true -> run l s = Next s1 -> reachable s1.
Proof.
  revert s. induction l as [|e l IH]; cbn; intros s Hr Hf Hs; [by simplify_eq|].
  apply andb_true_iff in Hf as [Ha Hf]. destruct (step e s) as [| |s2] eqn:E; [done..|].
  eapply IH; [by eapply reach_step|done|done].
Qed.

End Theorems.

(** An update that waits for a reader, beside a second controller. *)
Definition sample_events : list Event :=
  [EAdd "odc" 1 0 true true; EAdd "pfc" 2 0 false false; EStart 1 READ_FROM_CONTROLLER "odc";
   EStart 2 CONTROLLER_UPDATE "odc"; EStart 3 READ_FROM_CONTROLLER "odc";
   EStart 4 WRITE_TO_CONTROLLER "pfc"].
Definition sample_system : System Z :=
  match run sample_events init with Next s => s | _ => init end.

Lemma sample_reachable : reachable sample_system.
Proof.
  apply (events_reachable sample_events init); [apply reach_init|vm_compute; reflexivity..].
Qed.


Lemma controller_threads_progress_witness :
  exists t s1, step (EFinish t) sample_system = Next s1 \/ step (EResume t) sample_system = Next s1.
Proof.
  apply (controller_threads_progress sample_system sample_reachable).
  intros E. apply (f_equal size) in E. vm_compute in E. done.
Defined.
