(* ===== verification/DrvTxn.v ===== *)
(** * Transactions of the drivers

    [DriverTxnInterface] ([modules/vtndrvintf/vtn_drv_transaction_handle.cc]):
    what a driver process does when the coordinator asks it, through the
    participants' library, to vote, commit, abort or audit.  It is an instance
    of [TcLibInterface].

    A driver that has no two-phase commit keeps what is asked of a controller
    in the controller's cache and executes it when it votes.

    The drivers proper ([driver], [driver_command]) are parameters; [W] is the
    world they work on, the controllers out there.  A null pointer that is
    dereferenced ends the process: the result is [None]. *)

From S2P Require Import Prelude TcTypes TcIpc TcServer TcLibTypes TcLib CacheKeys CacheTree DrvCtr.

Local Open Scope Z_scope.

Definition RC_SUCCESS : Z := 0.
Definition RC_ERR_GENERIC : Z := 3000.
Definition RC_INVALID_OPERATION : Z := 3005.
Definition RC_CTR_DISCONNECTED : Z := 4005.

Definition UNC_OP_CREATE : Z := 1.
Definition UNC_OP_DELETE : Z := 2.
Definition UNC_OP_UPDATE : Z := 3.

(** [driver], with the commands that [create_driver_command] gives. *)
Record driver (V W : Type) := mkDriver {
  is_2ph_commit_support_needed : bool;
  HandleVote : loc -> W -> Z * W;
  HandleCommit : loc -> W -> Z * W;
  HandleAbort : loc -> W -> Z * W;
  create_cmd : CacheElementUtil V -> loc -> W -> Z * W;
  delete_cmd : CacheElementUtil V -> loc -> W -> Z * W;
  update_cmd : CacheElementUtil V -> loc -> W -> Z * W
}.
#[global] Arguments mkDriver {V W}.
#[global] Arguments is_2ph_commit_support_needed {V W}.
#[global] Arguments HandleVote {V W}.
#[global] Arguments HandleCommit {V W}.
#[global] Arguments HandleAbort {V W}.
#[global] Arguments create_cmd {V W}.
#[global] Arguments delete_cmd {V W}.
#[global] Arguments update_cmd {V W}.

(** The types for which [VtnDrvIntf::init] makes handlers. *)
Definition kt_handler_map_ : list Z :=
  [UNC_KT_ROOT; UNC_KT_CONTROLLER; UNC_KT_VTN; UNC_KT_VBRIDGE; UNC_KT_VBR_IF; UNC_KT_VBR_VLANMAP;
   UNC_KT_FLOWLIST; UNC_KT_FLOWLIST_ENTRY; UNC_KT_VTN_FLOWFILTER; UNC_KT_VTN_FLOWFILTER_ENTRY;
   UNC_KT_VBR_FLOWFILTER; UNC_KT_VBR_FLOWFILTER_ENTRY; UNC_KT_VBRIF_FLOWFILTER;
   UNC_KT_VBRIF_FLOWFILTER_ENTRY; UNC_KT_VTERMINAL; UNC_KT_VTERM_IF; UNC_KT_VTERMIF_FLOWFILTER;
   UNC_KT_VTERMIF_FLOWFILTER_ENTRY].

(** [crashed] is set when the process is gone. *)
Record DrvState (V W : Type) := mkDrv {
  framework : ControllerFramework V;
  world : W;
  crashed : bool
}.
#[global] Arguments mkDrv {V W}.
#[global] Arguments framework {V W}.
#[global] Arguments world {V W}.
#[global] Arguments crashed {V W}.

(** Programs write to the library, whose answers they ignore. *)
Definition T (V W A : Type) : Type := DrvState V W -> option A * DrvState V W * list ApiCall.

Definition tret {V W A} (a : A) : T V W A := fun st => (Some a, st, []).
Definition tbind {V W A B} (m : T V W A) (f : A -> T V W B) : T V W B := fun st =>
  match m st with
  | (Some a, st1, l1) => let '(r, st2, l2) := f a st1 in (r, st2, l1 ++ l2)
  | (None, st1, l1) => (None, st1, l1)
  end.
Definition tcrash {V W A} : T V W A := fun st => (None, mkDrv (framework st) (world st) true, []).

Declare Scope txn_scope.
Notation "'let&' x ':=' m 'in' k" := (tbind m (fun x => k))
  (at level 200, x binder, m at level 100, k at level 200, only parsing) : txn_scope.
Notation "'do&' m 'in' k" := (tbind m (fun _ => k))
  (at level 200, m at level 100, k at level 200, only parsing) : txn_scope.
#[global] Open Scope txn_scope.

Section Txn.

Context {V W : Type} `{ValueStruct V}.

(** The drivers, the structures as the library knows them, and what the other
    threads do to the framework while this one waits. *)
Variables (drivers : Z -> driver V W) (key_sdf val_sdf : Z -> string).
Variables (key_struct : ConfKey -> string) (val_struct : V -> string).
Variable others : ControllerFramework V -> ControllerFramework V.

Implicit Types (name : string) (c : loc).

Definition tclib (call : ApiCall) : T V W unit := fun st => (Some tt, st, [call]).
Definition WriteControllerInfo name (code errors : Z) : T V W unit :=
  tclib (TcLibWriteControllerInfo name code errors).

(** Calls of the framework and of the drivers. *)
Definition fw_get {A} (f : ControllerFramework V -> A) : T V W A := fun st =>
  (Some (f (framework st)), st, []).
Definition fw_do {A} (f : ControllerFramework V -> option (A * ControllerFramework V)) : T V W A :=
  fun st =>
    match f (framework st) with
    | Some (a, fw1) => (Some a, mkDrv fw1 (world st) (crashed st), [])
    | None => tcrash st
    end.
Definition world_do (f : W -> Z * W) : T V W Z := fun st =>
  let '(r, w1) := f (world st) in (Some r, mkDrv (framework st) w1 (crashed st), []).

Definition load_ctr c : T V W (controller V) :=
  fw_do (fun fw => match ctrs fw !! c with Some k => Some (k, fw) | None => None end).
Definition change_ctr c (f : controller V -> controller V) : T V W unit :=
  fw_do (fun fw => match with_ctr c f fw with Some fw1 => Some (tt, fw1) | None => None end).

(** *** [controller_operation] around a body *)

(** The handle; after a wait the constructor goes on. *)
Definition open_operation (op : ControllerOps) name : T V W (option loc) :=
  let& e := fw_do (controller_operation_new op name) in
  match e with
  | Locked h => tret h
  | Entered c => tret (Some c)
  | Waits _ c =>
      do& fw_do (fun fw => Some (tt, others fw)) in
      let& e := fw_do (controller_operation_resume op c) in
      tret (Some c)
  end.
Definition close_operation (op : ControllerOps) (h : option loc) : T V W unit :=
  do& fw_do (controller_operation_delete op h) in tret tt.

(** The body gets [get_controller_status] and the handle. *)
Definition with_operation {A} (op : ControllerOps) name (body : bool -> option loc -> T V W A)
    : T V W A :=
  let& status := fw_get (get_controller_status name) in
  let& h := open_operation op name in
  let& r := body status h in
  do& close_operation op h in
  tret r.

(** The handle is used without a test. *)
Definition deref {A} (h : option loc) (f : loc -> T V W A) : T V W A :=
  match h with Some c => f c | None => tcrash end.

(** The driver that the framework has for the controller. *)
Definition driver_of name : T V W (driver V W) :=
  let& ct := fw_get (fun fw => controller_list fw !! name) in
  match ct with Some ct => tret (drivers (drv ct)) | None => tcrash end.

(** *** The cache *)

Definition delete_cache c : T V W unit :=
  let& k := load_ctr c in
  match controller_cache k with
  | Some cache =>
      match KeyTree_destroy cache with
      | Some _ => change_ctr c (fun k => set_controller_cache k None)
      | None => tcrash
      end
  | None => tret tt
  end.

(** [KtRequestHandler::execute_cmd] *)
Definition execute_cmd (d : driver V W) (e : CacheElementUtil V) c : T V W Z :=
  let op := element_operation_ e in
  if op ==? UNC_OP_CREATE then world_do (create_cmd d e c)
  else if op ==? UNC_OP_DELETE then world_do (delete_cmd d e c)
  else if op ==? UNC_OP_UPDATE then world_do (update_cmd d e c)
  else tret RC_INVALID_OPERATION.

(** The loop of [HandleCommitCache] at index [i] of the cache, with the nodes
    that are left. *)
Fixpoint commit_loop (rounds : nat) (d : driver V W) name c (cache : KeyTree V) (i : nat)
    (cfgnode : option loc) (ret_code : Z) : T V W Z :=
  match IsDone i cache with
  | Some (true, _) => tret ret_code
  | Some (false, _) =>
      match rounds with
      | 0%nat => tcrash
      | S r =>
          match (p ← cfgnode; n ← heap cache !! p; element n) with
          | None => tcrash
          | Some e =>
              let keytype := get_key_type (key_ e) in
              if bool_decide (keytype ∈ kt_handler_map_) then
                let& retc := execute_cmd d e c in
                if retc ==? RC_SUCCESS then
                  match NextItem i cache with
                  | Some ((j, p), _) => commit_loop r d name c cache j p TC_SUCCESS
                  | None => tcrash
                  end
                else
                  do& WriteControllerInfo name retc 1 in
                  do& tclib (TcLibWriteKeyValueDataInfo name keytype (key_sdf keytype)
                               (val_sdf keytype) (key_struct (key_ e)) (Some (val_struct (value_ e)))) in
                  tret TC_FAILURE
              else tcrash
          end
      end
  | None => tcrash
  end.

Definition HandleCommitCache name c (d : driver V W) : T V W Z :=
  let& k := load_ctr c in
  match controller_cache k with
  | None => tret TC_FAILURE
  | Some cache =>
      match FirstItem cache with
      | Some ((i, p), _) => commit_loop (length (cfg_node_list_ cache)) d name c cache i p TC_FAILURE
      | None => tcrash
      end
  end.

(** *** The handlers *)

Fixpoint AbortControllers (controllers : list string) : T V W unit :=
  match controllers with
  | [] => tret tt
  | name :: rest =>
      do& with_operation WRITE_TO_CONTROLLER name (fun _ h =>
            deref h (fun c =>
              let& d := driver_of name in
              if is_2ph_commit_support_needed d then
                do& world_do (HandleAbort d c) in tret tt
              else delete_cache c)) in
      AbortControllers rest
  end.

(** How an iteration ends: [return], [break] with the abort, or the next
    controller with [ret_code] and [retc]. *)
Inductive Flow := FReturn (r : Z) | FBreak (r : Z) | FNext (ret_code retc : Z).

Definition vote_one (config_id : Z) name (retc : Z) : T V W Flow :=
  with_operation WRITE_TO_CONTROLLER name (fun status h =>
    if negb status then
      do& WriteControllerInfo name RC_CTR_DISCONNECTED 0 in tret (FReturn TC_SUCCESS)
    else
      deref h (fun c =>
        let& k := load_ctr c in
        if connection_status_ k ==? CONNECTION_DOWN then
          do& WriteControllerInfo name RC_CTR_DISCONNECTED 0 in tret (FNext TC_SUCCESS retc)
        else if (config_id !=? 0) && negb (audit_result_ k) then
          do& WriteControllerInfo name RC_CTR_DISCONNECTED 0 in tret (FNext TC_SUCCESS retc)
        else
          let& d := driver_of name in
          if is_2ph_commit_support_needed d then
            let& r := world_do (HandleVote d c) in
            if r !=? TC_SUCCESS then tret (FBreak r)
            else
              do& WriteControllerInfo name retc 0 in
              do& delete_cache c in tret (FNext r retc)
          else
            let& r := HandleCommitCache name c d in
            if r !=? TC_SUCCESS then
              do& change_ctr c (fun k => set_audit_result k false) in tret (FBreak r)
            else
              do& WriteControllerInfo name RC_SUCCESS 0 in
              do& delete_cache c in tret (FNext r RC_SUCCESS))).

(** The result and whether to abort. *)
Fixpoint vote_loop (config_id : Z) (controllers : list string) (ret_code retc : Z)
    : T V W (Z * bool) :=
  match controllers with
  | [] => tret (ret_code, false)
  | name :: rest =>
      let& f := vote_one config_id name retc in
      match f with
      | FReturn r => tret (r, false)
      | FBreak r => tret (r, true)
      | FNext r retc => vote_loop config_id rest r retc
      end
  end.

Definition Txn_CommitVoteRequest (config_id : Z) (controllers : list string) : T V W Z :=
  let& p := vote_loop config_id controllers TC_SUCCESS RC_ERR_GENERIC in
  do& (if p.2 : bool then AbortControllers controllers else tret tt) in
  tret p.1.

Definition commit_one (config_id : Z) name (ret_code : Z) : T V W Flow :=
  with_operation WRITE_TO_CONTROLLER name (fun status h =>
    if negb status then
      do& WriteControllerInfo name RC_CTR_DISCONNECTED 0 in tret (FReturn TC_SUCCESS)
    else
      deref h (fun c =>
        let& k := load_ctr c in
        if connection_status_ k ==? CONNECTION_DOWN then
          do& WriteControllerInfo name RC_CTR_DISCONNECTED 0 in tret (FNext ret_code 0)
        else if (config_id !=? 0) && negb (audit_result_ k) then
          do& WriteControllerInfo name RC_CTR_DISCONNECTED 0 in tret (FNext TC_SUCCESS 0)
        else
          let& d := driver_of name in
          if is_2ph_commit_support_needed d then
            let& r := world_do (HandleCommit d c) in
            if r !=? TC_SUCCESS then tret (FBreak r) else tret (FNext r 0)
          else
            do& WriteControllerInfo name RC_SUCCESS 0 in tret (FNext ret_code 0))).

Fixpoint global_commit_loop (config_id : Z) (controllers : list string) (ret_code : Z)
    : T V W (Z * bool) :=
  match controllers with
  | [] => tret (ret_code, false)
  | name :: rest =>
      let& f := commit_one config_id name ret_code in
      match f with
      | FReturn r => tret (r, false)
      | FBreak r => tret (r, true)
      | FNext r _ => global_commit_loop config_id rest r
      end
  end.

Definition Txn_CommitGlobalCommit (config_id : Z) (controllers : list string) : T V W Z :=
  let& p := global_commit_loop config_id controllers TC_SUCCESS in
  do& (if p.2 : bool then AbortControllers controllers else tret tt) in
  tret p.1.

Definition audit_ret (r : Z) : Z := if r ==? TC_FAILURE then TC_FAILURE else TC_SUCCESS.
Definition Txn_AuditVoteRequest (controllers : list string) : T V W Z :=
  let& r := Txn_CommitVoteRequest 0 controllers in tret (audit_ret r).
Definition Txn_AuditGlobalCommit (controllers : list string) : T V W Z :=
  let& r := Txn_CommitGlobalCommit 0 controllers in tret (audit_ret r).

(** [TC_AUDIT_SUCCESS] *)
Definition Txn_AuditEnd (controller_id : string) (audit_result : Z) : T V W Z :=
  with_operation READ_FROM_CONTROLLER controller_id (fun status h =>
    if negb status then
      do& WriteControllerInfo controller_id RC_CTR_DISCONNECTED 0 in tret TC_SUCCESS
    else
      do& (if audit_result ==? 1
           then deref h (fun c => change_ctr c (fun k => set_audit_result k true))
           else tret tt) in
      tret TC_SUCCESS).
Definition Txn_AuditStart (controller_id : string) : T V W Z :=
  with_operation READ_FROM_CONTROLLER controller_id (fun status h =>
    if negb status then
      do& WriteControllerInfo controller_id RC_CTR_DISCONNECTED 0 in tret TC_SUCCESS
    else
      do& deref h (fun c => change_ctr c (fun k => set_audit_result k false)) in
      tret TC_SUCCESS).

(** *** The interface *)

(** The methods that are constants are in the header of the class. *)
Definition txn_handle (call : HandlerCall) : T V W Z :=
  match call with
  | HandleCommitVoteRequest_drv _ cid ctrs => Txn_CommitVoteRequest cid ctrs
  | HandleCommitGlobalCommit_drv _ cid ctrs => Txn_CommitGlobalCommit cid ctrs
  | HandleAuditVoteRequest_drv _ _ ctrs => Txn_AuditVoteRequest ctrs
  | HandleAuditGlobalCommit_drv _ _ ctrs => Txn_AuditGlobalCommit ctrs
  | HandleAuditStart _ _ controller_id _ _ _ _ => Txn_AuditStart controller_id
  | HandleAuditEnd _ _ controller_id result => Txn_AuditEnd controller_id result
  | HandleCommitTransactionStart _ _ | HandleCommitTransactionEnd _ _ _
  | HandleAuditStart_drv _ _ _ _ | HandleAuditTransactionStart _ _ _
  | HandleAuditTransactionEnd _ _ _ _ | HandleAuditGlobalAbort _ _ _ _ => tret TC_SUCCESS
  | HandleGetControllerType _ => tret UNC_CT_ODC
  | _ => tret TC_FAILURE
  end.

(** A process that is gone does nothing any more. *)
Fixpoint prog_of {A} (calls : list ApiCall) (a : A) : Prog A :=
  match calls with
  | [] => PRet a
  | call :: rest => PCall call (fun _ => prog_of rest a)
  end.
Definition txn_Handle (call : HandlerCall) (st : DrvState V W)
    : Prog (HandlerResult * DrvState V W) :=
  if crashed st then PRet (mkHRes TC_FAILURE [] None, st)
  else
    let '(r, st1, calls) := txn_handle call st in
    prog_of calls (mkHRes (default TC_FAILURE r) [] None, st1).

Lemma prog_of_returns {A} (P : A -> Prop) calls a : P a -> returns P (prog_of calls a).
Proof. intros Ha. induction calls as [|call calls IH]; cbn; [done|]. intros _. apply IH. Qed.

End Txn.
