(* ===== verification/DrvEvents.v ===== *)
(** * Events for the physical network manager

    The events that [VtnDrvIntf] ([modules/vtndrvintf/vtn_drv_module.cc]) posts
    for domains, logical ports, switches, ports and links, its configuration
    and the registration of drivers.  A domain is announced before the first
    logical port of a controller, and again after the controller was down. *)

From S2P Require Import Prelude CacheKeys CacheTree DrvCtr DrvTxn.

Local Open Scope Z_scope.

Inductive oper_type :=
| VTN_SWITCH_CREATE | VTN_SWITCH_UPDATE | VTN_SWITCH_DELETE
| VTN_LP_CREATE | VTN_LP_UPDATE | VTN_LP_DELETE
| VTN_PORT_CREATE | VTN_PORT_UPDATE | VTN_PORT_DELETE
| VTN_LINK_CREATE | VTN_LINK_UPDATE | VTN_LINK_DELETE.

#[export] Instance oper_type_eq_dec : EqDecision oper_type.
Proof. solve_decision. Defined.

Definition UNC_KT_CTR_DOMAIN : Z := 516.
Definition UNC_KT_LOGICAL_PORT : Z := 517.
Definition DEFAULT_DOMAIN_ID : string := "(DEFAULT)".
Definition default_time_interval : Z := 70.

(** The outputs of an event; the type of data is [UNC_DT_STATE].  Structures
    are what the library makes of them. *)
Record PhysEvent := mkPhys {
  pe_controller : string;
  pe_domain : string;
  pe_operation : Z;
  pe_key_type : Z;
  pe_key : string;
  pe_vals : list string
}.

#[export] Instance PhysEvent_eq_dec : EqDecision PhysEvent.
Proof. solve_decision. Defined.

Section Events.

Context {V : Type}.
(** The structures of a domain, made from two names. *)
Variables (key_ctr_domain val_ctr_domain : string -> string -> string).
Implicit Types (fw : ControllerFramework V) (name domain key val : string) (op : oper_type).

Definition domain_event name domain : PhysEvent :=
  mkPhys name domain UNC_OP_CREATE UNC_KT_CTR_DOMAIN (key_ctr_domain name domain)
    [val_ctr_domain name domain].

Definition logicalport_event op name domain key val fw : list PhysEvent * ControllerFramework V :=
  let '(announce, fw1) :=
    if GetDomainFlag name fw then ([], fw)
    else ([domain_event name domain], SetDomainFlag name true fw) in
  (announce ++
   match op with
   | VTN_LP_CREATE => [mkPhys name domain UNC_OP_CREATE UNC_KT_LOGICAL_PORT key [val]]
   | VTN_LP_DELETE => [mkPhys name domain UNC_OP_DELETE UNC_KT_LOGICAL_PORT key []]
   | _ => []
   end, fw1).

(** [switch_event], [port_event] and [link_event] have two overloads each: the
    first creates and deletes, the second updates. *)
Definition switch_event op name key val : list PhysEvent :=
  match op with
  | VTN_SWITCH_CREATE => [mkPhys name DEFAULT_DOMAIN_ID UNC_OP_CREATE UNC_KT_SWITCH key [val]]
  | VTN_SWITCH_DELETE => [mkPhys name DEFAULT_DOMAIN_ID UNC_OP_DELETE UNC_KT_SWITCH key []]
  | _ => []
  end.
Definition switch_update_event op name key (new_val old_val : string) : list PhysEvent :=
  if op ==? VTN_SWITCH_UPDATE
  then [mkPhys name DEFAULT_DOMAIN_ID UNC_OP_UPDATE UNC_KT_SWITCH key [new_val; old_val]] else [].

Definition port_event op name key val : list PhysEvent :=
  match op with
  | VTN_PORT_CREATE => [mkPhys name DEFAULT_DOMAIN_ID UNC_OP_CREATE UNC_KT_PORT key [val]]
  | VTN_PORT_DELETE => [mkPhys name DEFAULT_DOMAIN_ID UNC_OP_DELETE UNC_KT_PORT key []]
  | _ => []
  end.
Definition port_update_event op name key (new_val old_val : string) : list PhysEvent :=
  if op ==? VTN_PORT_UPDATE
  then [mkPhys name DEFAULT_DOMAIN_ID UNC_OP_UPDATE UNC_KT_PORT key [new_val; old_val]] else [].

Definition link_event op name key val : list PhysEvent :=
  match op with
  | VTN_LINK_CREATE => [mkPhys name DEFAULT_DOMAIN_ID UNC_OP_CREATE UNC_KT_LINK key [val]]
  | VTN_LINK_DELETE => [mkPhys name DEFAULT_DOMAIN_ID UNC_OP_DELETE UNC_KT_LINK key []]
  | _ => []
  end.
Definition link_update_event op name key (new_val old_val : string) : list PhysEvent :=
  if op ==? VTN_LINK_UPDATE
  then [mkPhys name DEFAULT_DOMAIN_ID UNC_OP_UPDATE UNC_KT_LINK key [new_val; old_val]] else [].

(** [register_driver]: a null pointer is refused. *)
Definition register_driver (t : option Z) fw : bool * ControllerFramework V :=
  match t with
  | None => (false, fw)
  | Some t => (true, RegisterDriver t fw)
  end.

(** [read_conf_file]: the block, and in it the interval, may be missing. *)
Definition read_conf_file (block : option (option Z)) : Z :=
  match block with
  | Some interval => default default_time_interval interval
  | None => default_time_interval
  end.

(** ** The module *)

(** [taskq_] and [ctrl_inst_] may be null; [registered]: the library of the
    participants has the transaction handler. *)
Record VtnDrvIntf := mkIntf {
  taskq_ : bool;
  ctrl_inst_ : option (ControllerFramework V);
  map_kt_ : list Z;
  stdefs : bool;                       (* [key_map] and [val_map] are filled *)
  registered : bool
}.

Definition ControllerFramework_new (time_interval : Z) : ControllerFramework V :=
  mkFw ∅ ∅ ∅ time_interval [].
(** The destructor deletes the containers, and they their controllers. *)
Definition ControllerFramework_delete fw : ControllerFramework V :=
  mkFw (foldr (fun ct h => delete (ctr ct) h) (ctrs fw) (snd <$> map_to_list (controller_list fw)))
    ∅ ∅ (time_interval_ fw) (posts fw).

Definition get_kt_handler (kt : Z) (m : VtnDrvIntf) : bool := bool_decide (kt ∈ map_kt_ m).

Definition init (block : option (option Z)) (tclib_found : bool) (m : VtnDrvIntf) : bool * VtnDrvIntf :=
  (tclib_found,
   mkIntf true (Some (ControllerFramework_new (read_conf_file block))) kt_handler_map_ true
     (registered m || tclib_found)).
Definition fini (m : VtnDrvIntf) : bool * VtnDrvIntf :=
  (true, mkIntf false None [] false (registered m)).

(** ** Announcements *)

(** What happens to a controller: events of its logical ports, and pings that
    fail ([PingController] clears the flag). *)
Inductive PortStep := PLogical op domain key val | PDown.

Inductive Mark := MEvent (e : PhysEvent) | MDown.

Fixpoint port_trace name (l : list PortStep) fw : list Mark * ControllerFramework V :=
  match l with
  | [] => ([], fw)
  | PLogical op domain key val :: rest =>
      let '(es, fw1) := logicalport_event op name domain key val fw in
      let '(t, fw2) := port_trace name rest fw1 in ((MEvent <$> es) ++ t, fw2)
  | PDown :: rest =>
      let '(t, fw2) := port_trace name rest (SetDomainFlag name false fw) in (MDown :: t, fw2)
  end.

Definition is_domain (e : PhysEvent) : bool := pe_key_type e ==? UNC_KT_CTR_DOMAIN.

(** [b]: the domain is announced. *)
Fixpoint announced (b : bool) (t : list Mark) : bool :=
  match t with
  | [] => true
  | MDown :: rest => announced false rest
  | MEvent e :: rest => if is_domain e then negb b && announced true rest else b && announced b rest
  end.

Lemma set_flag_get name b fw :
  is_Some (controller_list fw !! name) ->
  GetDomainFlag name (SetDomainFlag name b fw) = b /\
  is_Some (controller_list (SetDomainFlag name b fw) !! name).
Proof.
  intros [ct E]. unfold GetDomainFlag, SetDomainFlag. rewrite E. cbn. rewrite lookup_insert_eq.
  by split; [|eexists].
Qed.

(** Of a controller that is known, UPPL hears of every logical port after the
    domain was announced, and of the domain only when it is not announced. *)
Theorem ports_announced name (l : list PortStep) fw (Hn : is_Some (controller_list fw !! name)) :
  announced (GetDomainFlag name fw) (port_trace name l fw).1 = true.
Proof.
  revert fw Hn. induction l as [|[op domain key val|] l IH]; intros fw Hn; cbn [port_trace]; [done| |].
  - unfold logicalport_event. destruct (set_flag_get name true fw Hn) as [Ht Hn1].
    destruct (GetDomainFlag name fw) eqn:Ef.
    + specialize (IH fw Hn). rewrite Ef in IH. destruct (port_trace name l fw) as [t fw2].
      by destruct op; cbn.
    + specialize (IH _ Hn1). rewrite Ht in IH. destruct (port_trace name l _) as [t fw2].
      by destruct op; cbn.
  - destruct (set_flag_get name false fw Hn) as [Ht Hn1]. specialize (IH _ Hn1). rewrite Ht in IH.
    by destruct (port_trace name l _) as [t fw2].
Qed.

End Events.
