(* ===== verification/DrvVote.v ===== *)
(** * What a vote of the drivers promises

    The abstract state of a driver process is, for each controller by name,
    whether it is up, whether its audit was successful, and the commands that
    are kept for it.  For drivers without a two-phase commit, a vote refines a
    function on that state: locks, handles, nodes and iterators are gone. *)

From S2P Require Import Prelude TcTypes TcIpc TcServer TcLibTypes TcLib CacheKeys CacheTree CacheProps CacheOps CacheSpec CacheDelete CacheClient CacheTheorems DrvCtr DrvTxn.

Local Open Scope Z_scope.

Section Vote.

Context {V W : Type} `{ValueStruct V}.
Variables (drivers : Z -> driver V W) (key_sdf val_sdf : Z -> string).
Variables (key_struct : ConfKey -> string) (val_struct : V -> string).
Variable others : ControllerFramework V -> ControllerFramework V.
Implicit Types (name : string) (c : loc) (k : controller V) (fw : ControllerFramework V)
  (st : DrvState V W) (w : W) (e : CacheElementUtil V) (cache : KeyTree V) (names : list string).

(** ** The abstract state *)

Record Kept := mkKept {
  kept_at : loc;
  kept_driver : Z;
  kept_up : bool;
  kept_audited : bool;
  pending : option (list (CacheElementUtil V))
}.
Implicit Types (a : Kept) (A : gmap string Kept).

Definition commands (cache : KeyTree V) : list (CacheElementUtil V) :=
  elems (heap cache) (cfg_node_list_ cache).
Definition kept (ct : ControllerContainer) k : Kept :=
  mkKept (ctr ct) (drv ct) (connection_status_ k ==? CONNECTION_UP) (audit_result_ k)
    (commands <$> controller_cache k).
Definition abstract fw : gmap string Kept :=
  omap (fun ct => k ← ctrs fw !! ctr ct; Some (kept ct k)) (controller_list fw).

Definition without_pending a : Kept :=
  mkKept (kept_at a) (kept_driver a) (kept_up a) (kept_audited a) None.
Definition not_audited a : Kept :=
  mkKept (kept_at a) (kept_driver a) (kept_up a) false (pending a).

(** ** The vote on it *)

Definition run_command (d : driver V W) c e w : Z * W :=
  if element_operation_ e ==? UNC_OP_CREATE then create_cmd d e c w
  else if element_operation_ e ==? UNC_OP_DELETE then delete_cmd d e c w
  else if element_operation_ e ==? UNC_OP_UPDATE then update_cmd d e c w
  else (RC_INVALID_OPERATION, w).

(** The first command that fails, with its code. *)
Fixpoint run_commands (d : driver V W) c (es : list (CacheElementUtil V)) w
    : option (CacheElementUtil V * Z) * W :=
  match es with
  | [] => (None, w)
  | e :: rest =>
      let '(r, w1) := run_command d c e w in
      if r ==? RC_SUCCESS then run_commands d c rest w1 else (Some (e, r), w1)
  end.

(** A controller takes part when it is up and, except in an audit, audited. *)
Definition takes_part (config_id : Z) a : bool :=
  kept_up a && ((config_id ==? 0) || kept_audited a).

Definition report_failure name e (r : Z) : list ApiCall :=
  let t := get_key_type (key_ e) in
  [TcLibWriteControllerInfo name r 1;
   TcLibWriteKeyValueDataInfo name t (key_sdf t) (val_sdf t) (key_struct (key_ e))
     (Some (val_struct (value_ e)))].

(** Whether a controller failed, the state, the world and what was reported. *)
Fixpoint vote_spec (config_id : Z) names A w : bool * gmap string Kept * W * list ApiCall :=
  match names with
  | [] => (false, A, w, [])
  | name :: rest =>
      match A !! name with
      | None => (false, A, w, [TcLibWriteControllerInfo name RC_CTR_DISCONNECTED 0])
      | Some a =>
          if takes_part config_id a then
            match pending a with
            | None | Some [] => (true, <[name := not_audited a]> A, w, [])
            | Some es =>
                match run_commands (drivers (kept_driver a)) (kept_at a) es w with
                | (None, w1) =>
                    let '(b, A2, w2, l) := vote_spec config_id rest (<[name := without_pending a]> A) w1 in
                    (b, A2, w2, TcLibWriteControllerInfo name RC_SUCCESS 0 :: l)
                | (Some (e, r), w1) => (true, <[name := not_audited a]> A, w1, report_failure name e r)
                end
            end
          else
            let '(b, A2, w2, l) := vote_spec config_id rest A w in
            (b, A2, w2, TcLibWriteControllerInfo name RC_CTR_DISCONNECTED 0 :: l)
      end
  end.

Definition all_known names A : bool := forallb (fun name => bool_decide (is_Some (A !! name))) names.
Definition drop_pending names A : gmap string Kept :=
  foldl (fun A name => alter without_pending name A) A names.

(** ** Frameworks at rest *)

(** Nobody writes, updates or deletes; there may be readers. *)
Record quiet (x : controller_exclusion) : Prop := {
  q_read : 0 <= read_count_ x < UINT32_MOD;
  q_write : write_count_ x = 0;
  q_progress : write_in_progress_ x = false;
  q_delete : controller_marked_for_delete_ x = false;
  q_update : controller_marked_for_update_ x = false
}.

Definition handled (cache : KeyTree V) : Prop :=
  Forall (fun p => exists e, node_element (heap cache) p = Some e /\
            get_key_type (key_ e) ∈ kt_handler_map_) (cfg_node_list_ cache).

Record ctl_ok k : Prop := {
  ok_quiet : quiet (access_ k);
  ok_cache cache : controller_cache k = Some cache -> cache_ok cache /\ handled cache
}.

Record fw_ok fw : Prop := {
  ok_alive name ct : controller_list fw !! name = Some ct ->
    exists k, ctrs fw !! ctr ct = Some k /\ ctl_ok k;
  ok_apart n1 n2 ct1 ct2 : controller_list fw !! n1 = Some ct1 -> controller_list fw !! n2 = Some ct2 ->
    ctr ct1 = ctr ct2 -> n1 = n2
}.

Hypothesis one_phase : forall t, is_2ph_commit_support_needed (drivers t) = false.

(** ** Operations that write *)

Definition put c k w st : DrvState V W :=
  mkDrv (set_ctrs (<[c := k]> (ctrs (framework st))) (framework st)) w (crashed st).
Definition writing k : controller V :=
  set_access k (set_write_count (set_write_in_progress (access_ k) true) 1).

Lemma put_put c k1 k2 w1 w2 st : put c k2 w2 (put c k1 w1 st) = put c k2 w2 st.
Proof. unfold put, set_ctrs; cbn. by rewrite insert_insert_eq. Qed.

Lemma put_same c k st : ctrs (framework st) !! c = Some k -> put c k (world st) st = st.
Proof.
  intros Hk. destruct st as [fw w b], fw as [h l d t p]. unfold put, set_ctrs; cbn in *.
  by rewrite insert_id.
Qed.

Lemma tbind_run {R S : Type} (m : T V W R) (f : R -> T V W S) st r st1 l1 :
  m st = (Some r, st1, l1) ->
  tbind m f st = let '(s, st2, l2) := f r st1 in (s, st2, l1 ++ l2).
Proof. intros E. unfold tbind. by rewrite E. Qed.

Lemma tbind_run0 {R S : Type} (m : T V W R) (f : R -> T V W S) st r st1 :
  m st = (Some r, st1, []) -> tbind m f st = f r st1.
Proof. intros E. rewrite (tbind_run _ _ _ _ _ _ E). by destruct (f r st1) as [[s st2] l2]. Qed.

Lemma tbind_run1 {R S : Type} (m : T V W R) (f : R -> T V W S) st r st1 l1 s st2 l2 :
  m st = (Some r, st1, l1) -> f r st1 = (s, st2, l2) -> tbind m f st = (s, st2, l1 ++ l2).
Proof. intros E1 E2. by rewrite (tbind_run _ _ _ _ _ _ E1), E2. Qed.

Lemma open_write name ct k st :
  controller_list (framework st) !! name = Some ct -> ctrs (framework st) !! ctr ct = Some k ->
  quiet (access_ k) ->
  open_operation others WRITE_TO_CONTROLLER name st
  = (Some (Some (ctr ct)), put (ctr ct) (writing k) (world st) st, []).
Proof.
  intros Hn Hk [_ Hw _ Hd Hu]. unfold open_operation.
  rewrite (tbind_run0 _ _ _ (Entered (ctr ct)) (put (ctr ct) (writing k) (world st) st)); [done|].
  unfold fw_do, controller_operation_new, GetDriverByControllerName. rewrite Hn. cbn.
  rewrite Hk. cbn. rewrite Hd, Hu, Hw. rewrite bool_decide_eq_true_2 by done. cbn.
  unfold enter_write, with_access, with_ctr. by rewrite Hk.
Qed.

Lemma close_write c k w st :
  quiet (access_ k) ->
  close_operation WRITE_TO_CONTROLLER (Some c) (put c (writing k) w st)
  = (Some tt, put c k w st, []).
Proof.
  intros [_ Hw Hp _ _]. unfold close_operation, tbind, fw_do, controller_operation_delete. cbn.
  rewrite lookup_insert_eq. cbn. unfold with_access, with_ctr. cbn. rewrite lookup_insert_eq. cbn.
  unfold put, set_ctrs. cbn. rewrite insert_insert_eq. repeat f_equal.
  destruct k as [a b t t' [rc wc wp ww rw md mu] au cs]. cbn in *. subst. done.
Qed.

(** The body finds the controller marked as written to. *)
Lemma write_run {R : Type} name ct k k1 w1 st (body : bool -> option loc -> T V W R) (r : R) l :
  controller_list (framework st) !! name = Some ct -> ctrs (framework st) !! ctr ct = Some k ->
  quiet (access_ k) -> access_ k1 = access_ k ->
  body true (Some (ctr ct)) (put (ctr ct) (writing k) (world st) st)
  = (Some r, put (ctr ct) (writing k1) w1 st, l) ->
  with_operation others WRITE_TO_CONTROLLER name body st = (Some r, put (ctr ct) k1 w1 st, l).
Proof.
  intros Hn Hk Hq Ha E. unfold with_operation.
  rewrite (tbind_run0 _ _ _ true st)
    by (unfold fw_get, get_controller_status, GetDriverByControllerName; by rewrite Hn).
  rewrite (tbind_run0 _ _ _ _ _ (open_write _ _ _ _ Hn Hk Hq)).
  rewrite (tbind_run _ _ _ _ _ _ E).
  rewrite (tbind_run0 _ _ _ tt (put (ctr ct) k1 w1 st)) by (apply close_write; by rewrite Ha).
  cbn. by rewrite app_nil_r.
Qed.

(** The status of a controller that is not known is false. *)
Lemma unknown_run {R : Type} name st (body : bool -> option loc -> T V W R) (r : option R) st1 l :
  controller_list (framework st) !! name = None ->
  body false None st = (r, st1, l) ->
  with_operation others WRITE_TO_CONTROLLER name body st = (r, st1, l).
Proof.
  intros Hn E. unfold with_operation.
  rewrite (tbind_run0 _ _ _ false st)
    by (unfold fw_get, get_controller_status, GetDriverByControllerName; by rewrite Hn).
  assert (open_operation others WRITE_TO_CONTROLLER name st = (Some None, st, [])) as Eo.
  { unfold open_operation, tbind, fw_do, controller_operation_new, GetDriverByControllerName.
    rewrite Hn. by destruct st. }
  rewrite (tbind_run0 _ _ _ _ _ Eo). unfold tbind at 1. rewrite E. destruct r as [r|]; [|done].
  destruct st1. cbn. by rewrite app_nil_r.
Qed.

Lemma load_ctr_run c k w st :
  load_ctr c (put c k w st) = (Some k, put c k w st, []).
Proof. unfold load_ctr, fw_do. cbn. by rewrite lookup_insert_eq. Qed.

Lemma change_run c k w st f :
  change_ctr c f (put c k w st) = (Some tt, put c (f k) w st, []).
Proof.
  unfold change_ctr, fw_do, with_ctr, put, set_ctrs. cbn. rewrite lookup_insert_eq. cbn.
  by rewrite insert_insert_eq.
Qed.

Lemma driver_run name ct k w st :
  controller_list (framework st) !! name = Some ct ->
  driver_of drivers name (put (ctr ct) k w st) = (Some (drivers (drv ct)), put (ctr ct) k w st, []).
Proof. intros Hn. unfold driver_of, tbind, fw_get. cbn. by rewrite Hn. Qed.

Lemma delete_cache_run c k w st :
  (forall cache, controller_cache k = Some cache -> cache_ok cache) ->
  delete_cache c (put c (writing k) w st)
  = (Some tt, put c (writing (set_controller_cache k None)) w st, []).
Proof.
  intros Hc. unfold delete_cache. rewrite (tbind_run0 _ _ _ _ _ (load_ctr_run _ _ _ _)).
  cbn [writing set_access controller_cache].
  destruct (controller_cache k) as [cache|] eqn:E.
  - rewrite destroy_run by auto. by rewrite change_run.
  - unfold tret. repeat f_equal. destruct k. cbn in *. by subst.
Qed.

(** ** The cache *)

Lemma execute_run d e c k w st :
  execute_cmd d e c (put c k w st)
  = (Some (run_command d c e w).1, put c k (run_command d c e w).2 st, []).
Proof.
  unfold execute_cmd, run_command.
  repeat (case_bool_decide; [unfold world_do; cbn [world put];
    match goal with |- context [let '(_, _) := ?x in _] => by destruct x end|]). done.
Qed.

Lemma next_item_run (cache : KeyTree V) (i : nat) :
  NextItem i cache = Some ((S i, cfg_node_list_ cache !! S i), cache).
Proof.
  unfold NextItem, IsDone, KeyTree_item, kget, kbind, kret. case_bool_decide; cbn; [done|].
  by rewrite lookup_ge_None_2 by lia.
Qed.

Lemma commit_loop_run rounds (d : driver V W) name c cache (i : nat) r0 k w st :
  handled cache -> (length (cfg_node_list_ cache) <= i + rounds)%nat ->
  commit_loop key_sdf val_sdf key_struct val_struct rounds d name c cache i
    (cfg_node_list_ cache !! i) r0 (put c k w st)
  = let '(f, w1) := run_commands d c (elems (heap cache) (drop i (cfg_node_list_ cache))) w in
    match f with
    | None => (Some (if bool_decide (i < length (cfg_node_list_ cache))%nat then TC_SUCCESS else r0),
               put c k w1 st, [])
    | Some (e, r) => (Some TC_FAILURE, put c k w1 st, report_failure name e r)
    end.
Proof.
  intros Hh. revert i r0 w. induction rounds as [|n IH]; intros i r0 w Hl;
    cbn [commit_loop]; unfold IsDone, kget; case_bool_decide as Hi; cbn [negb]; try lia;
    try (by rewrite drop_ge by lia).
  apply lookup_lt_is_Some in Hi as [p Hp]. rewrite Hp, (drop_S _ p i Hp).
  destruct (proj1 (Forall_lookup _ _) Hh _ _ Hp) as (e & He & Ht). unfold elems in *. cbn [omap list_omap].
  rewrite He. unfold node_element in He. cbn [mbind option_bind] in He |- *.
  destruct (heap cache !! p) as [nd|]; [|done]. cbn [mbind option_bind] in He |- *. rewrite He.
  cbn [run_commands].
  rewrite bool_decide_eq_true_2 by done.
  rewrite (tbind_run0 _ _ _ _ _ (execute_run d e c k w st)).
  destruct (run_command d c e w) as [r w1]. cbn [fst snd]. case_bool_decide as Hr.
  - rewrite next_item_run, IH by lia.
    destruct (run_commands d c _ w1) as [[[e2 r2]|] w2]; [done|]. by case_bool_decide.
  - done.
Qed.

(** A cache without commands fails, as no cache does. *)
Definition cache_outcome (d : driver V W) name c (es : list (CacheElementUtil V)) w
    : Z * W * list ApiCall :=
  match es with
  | [] => (TC_FAILURE, w, [])
  | _ =>
      match run_commands d c es w with
      | (None, w1) => (TC_SUCCESS, w1, [])
      | (Some (e, r), w1) => (TC_FAILURE, w1, report_failure name e r)
      end
  end.

Lemma commit_cache_run d name c k w st :
  ctl_ok k ->
  HandleCommitCache key_sdf val_sdf key_struct val_struct name c d (put c (writing k) w st)
  = let '(r, w1, l) := cache_outcome d name c (default [] (commands <$> controller_cache k)) w in
    (Some r, put c (writing k) w1 st, l).
Proof.
  intros Hok. unfold HandleCommitCache. rewrite (tbind_run0 _ _ _ _ _ (load_ctr_run _ _ _ _)).
  cbn [writing set_access controller_cache].
  destruct (controller_cache k) as [cache|] eqn:E; [|done].
  destruct (ok_cache k Hok cache E) as [_ Hh].
  unfold FirstItem, KeyTree_item, kget, kbind, kret. rewrite commit_loop_run by (done || lia).
  cbn [fmap option_fmap option_map default]. unfold commands, cache_outcome.
  rewrite drop_0. unfold handled in Hh. destruct (cfg_node_list_ cache) as [|p l]; [done|].
  destruct (Forall_cons_1 _ _ _ Hh) as [(e & He & _) _]. unfold elems, id. cbn [omap list_omap]. rewrite He.
  destruct (run_commands d c _ w) as [[[e2 r2]|] w2]; done.
Qed.

(** ** The abstract state of a framework at rest *)

Lemma abstract_known fw name ct k :
  controller_list fw !! name = Some ct -> ctrs fw !! ctr ct = Some k ->
  abstract fw !! name = Some (kept ct k).
Proof. intros Hn Hk. unfold abstract. rewrite lookup_omap, Hn. cbn. by rewrite Hk. Qed.

Lemma abstract_unknown fw name :
  controller_list fw !! name = None -> abstract fw !! name = None.
Proof. intros Hn. unfold abstract. by rewrite lookup_omap, Hn. Qed.

Lemma put_fw_ok st name ct k w :
  fw_ok (framework st) -> controller_list (framework st) !! name = Some ct -> ctl_ok k ->
  fw_ok (framework (put (ctr ct) k w st)).
Proof.
  intros [Ha Hi] Hn Hk. split; [|exact Hi]. intros n1 ct1 Hn1. cbn in Hn1 |- *.
  destruct (decide (ctr ct1 = ctr ct)) as [->|Hne].
  - rewrite lookup_insert_eq. eauto.
  - rewrite lookup_insert_ne by done. by apply (Ha n1).
Qed.

Lemma put_abstract st name ct k w :
  fw_ok (framework st) -> controller_list (framework st) !! name = Some ct ->
  abstract (framework (put (ctr ct) k w st)) = <[name := kept ct k]> (abstract (framework st)).
Proof.
  intros [_ Hi] Hn. apply map_eq. intros n1. unfold abstract. cbn [framework put set_ctrs controller_list ctrs].
  rewrite lookup_omap. destruct (decide (n1 = name)) as [->|Hne].
  - rewrite Hn, lookup_insert_eq. cbn. by rewrite lookup_insert_eq.
  - rewrite lookup_insert_ne by done. rewrite lookup_omap.
    destruct (controller_list (framework st) !! n1) as [ct1|] eqn:E; [|done]. cbn.
    rewrite lookup_insert_ne; [done|]. intros Ec. by apply Hne, (Hi _ _ _ _ E Hn).
Qed.

Lemma without_cache_ok k : ctl_ok k -> ctl_ok (set_controller_cache k None).
Proof. intros [Hq _]. by split. Qed.
Lemma set_audit_ok k b : ctl_ok k -> ctl_ok (set_audit_result k b).
Proof. intros [Hq Hc]. by split. Qed.
Hint Resolve without_cache_ok set_audit_ok ok_quiet put_fw_ok : core.

(** ** One controller *)

Notation vote_one := (vote_one drivers key_sdf val_sdf key_struct val_struct others).
Notation vote_loop := (vote_loop drivers key_sdf val_sdf key_struct val_struct others).
Notation Txn_CommitVoteRequest :=
  (Txn_CommitVoteRequest drivers key_sdf val_sdf key_struct val_struct others).
Notation AbortControllers := (AbortControllers drivers others).

Lemma vote_unknown config_id name retc st :
  controller_list (framework st) !! name = None ->
  vote_one config_id name retc st
  = (Some (FReturn TC_SUCCESS), st, [TcLibWriteControllerInfo name RC_CTR_DISCONNECTED 0]).
Proof. intros Hn. unfold DrvTxn.vote_one. by apply unknown_run. Qed.

Section Known.

Context st name ct k (Hn : controller_list (framework st) !! name = Some ct)
  (Hk : ctrs (framework st) !! ctr ct = Some k) (Hok : ctl_ok k).

Lemma vote_apart config_id retc :
  takes_part config_id (kept ct k) = false ->
  vote_one config_id name retc st
  = (Some (FNext TC_SUCCESS retc), st, [TcLibWriteControllerInfo name RC_CTR_DISCONNECTED 0]).
Proof.
  intros Ht. rewrite <- (put_same _ _ _ Hk) at 2. unfold DrvTxn.vote_one.
  apply (write_run _ _ k _ _ _ _ _ _ Hn Hk (ok_quiet k Hok) eq_refl). cbn [negb deref].
  rewrite (tbind_run0 _ _ _ _ _ (load_ctr_run _ _ _ _)).
  unfold takes_part, kept in Ht. cbn in Ht |- *. destruct (connection_status_ k); [|done]. cbn in Ht |- *.
  apply orb_false_iff in Ht as [Hc ->]. by rewrite Hc.
Qed.

Lemma vote_takes_part config_id retc :
  takes_part config_id (kept ct k) = true ->
  vote_one config_id name retc st
  = let '(r, w1, l) := cache_outcome (drivers (drv ct)) name (ctr ct)
                         (default [] (pending (kept ct k))) (world st) in
    if r ==? TC_SUCCESS
    then (Some (FNext TC_SUCCESS RC_SUCCESS), put (ctr ct) (set_controller_cache k None) w1 st,
          l ++ [TcLibWriteControllerInfo name RC_SUCCESS 0])
    else (Some (FBreak r), put (ctr ct) (set_audit_result k false) w1 st, l).
Proof.
  intros Ht. unfold takes_part, kept in Ht. cbn in Ht. destruct (connection_status_ k) eqn:Ec; [|done].
  rewrite (bool_decide_eq_true_2 (CONNECTION_UP = CONNECTION_UP)) in Ht by done. cbn [andb] in Ht. unfold DrvTxn.vote_one.
  pose proof (commit_cache_run (drivers (drv ct)) name (ctr ct) k (world st) st Hok) as E.
  cbn [pending kept]. destruct (cache_outcome _ _ _ _ _) as [[r w1] l].
  case (bool_decide_reflect (r = TC_SUCCESS)); intros Hr;
    (eapply write_run; [exact Hn|exact Hk|apply Hok|done|]); cbn [negb deref].
  all: rewrite (tbind_run0 _ _ _ _ _ (load_ctr_run _ _ _ _)).
  all: cbn [writing set_access connection_status_ audit_result_]; rewrite Ec.
  all: rewrite (bool_decide_eq_false_2 (CONNECTION_UP = CONNECTION_DOWN)) by done.
  all: replace ((config_id !=? 0) && negb (audit_result_ k)) with false
         by (case_bool_decide; cbn in Ht |- *; [done|by rewrite Ht]).
  all: rewrite (tbind_run0 _ _ _ _ _ (driver_run _ _ _ _ _ Hn)), one_phase.
  all: rewrite (tbind_run _ _ _ _ _ _ E).
  - subst r. rewrite (bool_decide_eq_true_2 (TC_SUCCESS = TC_SUCCESS)) by done. cbn [negb].
    rewrite (tbind_run _ _ _ tt _ _ eq_refl).
    rewrite (tbind_run0 _ _ _ _ _ (delete_cache_run _ _ _ _ (fun cache E => proj1 (ok_cache k Hok cache E)))).
    done.
  - rewrite (bool_decide_eq_false_2 (r = TC_SUCCESS)) by done. cbn [negb].
    rewrite (tbind_run0 _ _ _ _ _ (change_run _ _ _ _ _)). cbn. by rewrite app_nil_r.
Qed.

Lemma abort_known :
  with_operation others WRITE_TO_CONTROLLER name (fun _ h =>
    deref h (fun c =>
      let& d := driver_of drivers name in
      if is_2ph_commit_support_needed d then do& world_do (HandleAbort d c) in tret tt
      else delete_cache c)) st
  = (Some tt, put (ctr ct) (set_controller_cache k None) (world st) st, []).
Proof.
  eapply write_run; [exact Hn|exact Hk|apply Hok|done|]. cbn [deref].
  rewrite (tbind_run0 _ _ _ _ _ (driver_run _ _ _ _ _ Hn)), one_phase.
  apply delete_cache_run. intros cache E. by apply (ok_cache k Hok cache E).
Qed.

End Known.

(** ** The loops *)

Lemma abort_one name rest st ct k :
  controller_list (framework st) !! name = Some ct -> ctrs (framework st) !! ctr ct = Some k -> ctl_ok k ->
  AbortControllers (name :: rest) st
  = AbortControllers rest (put (ctr ct) (set_controller_cache k None) (world st) st).
Proof.
  intros Hn Hk Hok. cbn [DrvTxn.AbortControllers].
  by rewrite (tbind_run0 _ _ _ _ _ (abort_known st name ct k Hn Hk Hok)).
Qed.

Lemma drop_step name ct k st :
  fw_ok (framework st) ->
  controller_list (framework st) !! name = Some ct -> ctrs (framework st) !! ctr ct = Some k ->
  abstract (framework (put (ctr ct) (set_controller_cache k None) (world st) st))
  = alter without_pending name (abstract (framework st)).
Proof.
  intros Hf Hn Hk. rewrite (put_abstract _ name) by done. apply map_eq. intros n1.
  destruct (decide (n1 = name)) as [->|Hne].
  - by rewrite lookup_insert_eq, lookup_alter_eq, (abstract_known _ _ ct k).
  - by rewrite lookup_insert_ne, lookup_alter_ne by done.
Qed.

Lemma known_alter names name A f : all_known names (alter f name A) = all_known names A.
Proof.
  unfold all_known. induction names as [|n names IH]; cbn; [done|]. rewrite IH. f_equal.
  apply bool_decide_ext. destruct (decide (n = name)) as [->|Hne].
  - rewrite lookup_alter_eq. by rewrite fmap_is_Some.
  - by rewrite lookup_alter_ne by done.
Qed.

(** What an abort does; it does not survive a controller that is not known. *)
Lemma abort_run names st :
  fw_ok (framework st) ->
  exists st', world st' = world st /\
    if all_known names (abstract (framework st))
    then AbortControllers names st = (Some tt, st', []) /\ fw_ok (framework st') /\
         crashed st' = crashed st /\
         abstract (framework st') = drop_pending names (abstract (framework st))
    else AbortControllers names st = (None, st', []) /\ crashed st' = true.
Proof.
  revert st. induction names as [|name names IH]; intros st Hf; [by exists st|].
  destruct (controller_list (framework st) !! name) as [ct|] eqn:Hn.
  - destruct (ok_alive _ Hf _ _ Hn) as (k & Hk & Hok).
    destruct (IH (put (ctr ct) (set_controller_cache k None) (world st) st)) as (st' & Hw & H1); [eauto|].
    exists st'. split; [done|]. rewrite (drop_step name) in H1 by done.
    rewrite (abort_one _ _ _ _ _ Hn Hk Hok), known_alter in *.
    cbn [all_known forallb]. rewrite (abstract_known _ _ _ _ Hn Hk), bool_decide_eq_true_2 by by eexists.
    done.
  - exists (mkDrv (framework st) (world st) true). split; [done|].
    cbn [all_known forallb]. rewrite (abstract_unknown _ _ Hn), bool_decide_eq_false_2 by by intros [].
    cbn [andb]. split; [|done]. cbn [DrvTxn.AbortControllers]. unfold tbind at 1.
    by rewrite (unknown_run _ _ _ None (mkDrv (framework st) (world st) true) [] Hn).
Qed.

(** The iteration in which a controller fails is the last. *)
Lemma vote_break config_id name rest retc st ct k w1 l :
  fw_ok (framework st) -> controller_list (framework st) !! name = Some ct -> ctl_ok k ->
  vote_one config_id name retc st
  = (Some (FBreak TC_FAILURE), put (ctr ct) (set_audit_result k false) w1 st, l) ->
  exists st', vote_loop config_id (name :: rest) TC_SUCCESS retc st
              = (Some (TC_FAILURE, true), st', l) /\ fw_ok (framework st') /\
    abstract (framework st') = <[name := not_audited (kept ct k)]> (abstract (framework st)) /\
    world st' = w1 /\ crashed st' = crashed st.
Proof.
  intros Hf Hn Hok E. cbn [DrvTxn.vote_loop]. eexists. rewrite (tbind_run _ _ _ _ _ _ E). cbn.
  rewrite app_nil_r. split_and!; [done|eauto| |done..]. by rewrite (put_abstract _ name).
Qed.

Lemma vote_loop_run config_id names r0 retc st :
  fw_ok (framework st) -> r0 = TC_SUCCESS ->
  let '(failed, A1, w1, l) := vote_spec config_id names (abstract (framework st)) (world st) in
  exists st', vote_loop config_id names r0 retc st
              = (Some (if failed : bool then TC_FAILURE else TC_SUCCESS, failed), st', l) /\
    fw_ok (framework st') /\ abstract (framework st') = A1 /\ world st' = w1 /\
    crashed st' = crashed st.
Proof.
  intros Hf ->. revert retc st Hf. induction names as [|name names IH]; intros retc st Hf; [by exists st|].
  cbn [vote_spec]. destruct (controller_list (framework st) !! name) as [ct|] eqn:Hn.
  2:{ rewrite (abstract_unknown _ _ Hn). exists st. split; [|done].
      cbn [DrvTxn.vote_loop]. by rewrite (tbind_run _ _ _ _ _ _ (vote_unknown config_id name retc st Hn)). }
  destruct (ok_alive _ Hf _ _ Hn) as (k & Hk & Hok). rewrite (abstract_known _ _ _ _ Hn Hk).
  destruct (takes_part config_id (kept ct k)) eqn:Ht.
  2:{ specialize (IH retc st Hf). destruct (vote_spec _ _ _ _) as [[[failed A2] w2] l].
      destruct IH as (st' & E & Hr). exists st'. split; [|done].
      cbn [DrvTxn.vote_loop]. by rewrite (tbind_run1 _ _ _ _ _ _ _ _ _ (vote_apart _ _ _ _ Hn Hk Hok config_id retc Ht) E). }
  pose proof (vote_takes_part _ _ _ _ Hn Hk Hok config_id retc Ht) as E. unfold cache_outcome in E.
  pose proof (fun w1 l => vote_break config_id name names retc st ct k w1 l Hf Hn Hok) as Hfail.
  destruct (pending (kept ct k)) as [[|e es]|]; cbn [default id] in E.
  1,3: by apply Hfail.
  cbn [kept_driver kept_at kept].
  destruct (run_commands (drivers (drv ct)) (ctr ct) (e :: es) (world st)) as [[[e1 r]|] w1].
  { by apply Hfail. }
  rewrite bool_decide_eq_true_2 in E by done. cbn [app] in E.
  specialize (IH RC_SUCCESS (put (ctr ct) (set_controller_cache k None) w1 st) ltac:(eauto)).
  rewrite (put_abstract _ name) in IH by done. cbn [world put] in IH.
  change (kept ct (set_controller_cache k None)) with (without_pending (kept ct k)) in IH.
  destruct (vote_spec _ _ _ _) as [[[failed A2] w2] l]. destruct IH as (st' & E2 & Hr).
  exists st'. split; [|done]. cbn [DrvTxn.vote_loop]. by rewrite (tbind_run1 _ _ _ _ _ _ _ _ _ E E2).
Qed.

Lemma vote_request_run config_id names st :
  fw_ok (framework st) ->
  let '(failed, A1, w1, l) := vote_spec config_id names (abstract (framework st)) (world st) in
  exists st', world st' = w1 /\
    if failed && negb (all_known names A1)
    then Txn_CommitVoteRequest config_id names st = (None, st', l) /\ crashed st' = true
    else Txn_CommitVoteRequest config_id names st
           = (Some (if failed : bool then TC_FAILURE else TC_SUCCESS), st', l) /\
         fw_ok (framework st') /\ crashed st' = crashed st /\
         abstract (framework st') = (if failed then drop_pending names A1 else A1).
Proof.
  intros Hf. pose proof (vote_loop_run config_id names TC_SUCCESS RC_ERR_GENERIC st Hf eq_refl) as H1.
  destruct (vote_spec _ _ _ _) as [[[failed A1] w1] l].
  destruct H1 as (st1 & E & Hf1 & HA & Hw & Hc). unfold DrvTxn.Txn_CommitVoteRequest.
  destruct failed; cbn [andb].
  - destruct (abort_run names st1 Hf1) as (st' & Hw' & H2). rewrite HA in H2.
    exists st'. split; [congruence|]. rewrite (tbind_run _ _ _ _ _ _ E). cbn [fst snd].
    destruct (all_known names A1); cbn [negb].
    + destruct H2 as (E2 & Hf2 & Hc2 & HA2). rewrite (tbind_run0 _ _ _ _ _ E2). cbn.
      rewrite app_nil_r. split_and!; [done..|congruence|done].
    + destruct H2 as (E2 & Hc2). unfold tbind. rewrite E2. by rewrite app_nil_r.
  - exists st1. split; [done|]. rewrite (tbind_run _ _ _ _ _ _ E). cbn. by rewrite app_nil_r.
Qed.

End Vote.
