(* ===== verification/DrvRequest.v ===== *)
(** * Requests to the drivers

    [VtnDrvIntf::ipcService] ([modules/vtndrvintf/vtn_drv_module.cc]) with the
    handlers of configuration, audit, controller ([request_template.hh]) and
    read ([vtn_read_handler.cc]) requests.

    A request is its header arguments with the structures that follow; the
    response is a list of outputs, whose errors come from a parameter.  What the
    drivers fetch and read are parameters too. *)

From S2P Require Import Prelude TcTypes TcIpc TcServer TcLibTypes TcLib CacheKeys CacheTree CacheClient DrvCtr DrvTxn.

Local Open Scope Z_scope.

Definition RC_MISSING_KEY_STRUCT : Z := 3010.
Definition RC_MISSING_VAL_STRUCT : Z := 3011.
Definition RC_NOT_SUPPORTED_BY_CTRLR : Z := 3014.
Definition RC_NO_SUCH_INSTANCE : Z := 4007.

Definition UNC_OP_READ : Z := 6.
Definition UPLL_FLOWFILTER_DIR_OUT : Z := 1.
Definition PFC_IPCRESP_FATAL : Z := -1.

(** ** Headers *)

Record odl_drv_common_header_t := mkCommon {
  h_session_id : Z;
  h_config_id : Z;
  h_operation : Z;
  h_domain_id : string;
  h_max_rep_count : Z;
  h_option1 : Z;
  h_option2 : Z;
  h_data_type : Z
}.
Record odl_drv_request_header_t := mkReqHdr {
  rq_header : odl_drv_common_header_t;
  rq_key_type : Z;
  rq_controller_name : string
}.
Record odl_drv_response_header_t := mkRespHdr {
  rs_header : odl_drv_common_header_t;
  rs_controller_name : string;
  rs_result : Z;
  rs_key_type : Z
}.

Definition arg_u32 (args : list IpcValue) (i : nat) : option Z :=
  match args !! i with Some (VU32 n) => Some n | _ => None end.
Definition arg_string (args : list IpcValue) (i : nat) : option string :=
  match args !! i with Some (VStr s) => Some s | _ => None end.

(** [strncpy] into a field of 32 zeroes. *)
Definition to_field (s : string) : string := String.substring 0 31 s.

(** [max_rep_count], argument 5, is not read. *)
Definition get_request_header (args : list IpcValue) : option odl_drv_request_header_t :=
  session_id ← arg_u32 args 0;
  config_id ← arg_u32 args 1;
  ctr_name ← arg_string args 2;
  domain_name ← arg_string args 3;
  operation ← arg_u32 args 4;
  option1 ← arg_u32 args 6;
  option2 ← arg_u32 args 7;
  data_type ← arg_u32 args 8;
  keytype ← arg_u32 args 9;
  Some (mkReqHdr (mkCommon session_id config_id operation (to_field domain_name) 0 option1 option2
                    data_type) keytype (to_field ctr_name)).

Definition create_response_header (h : odl_drv_request_header_t) (resp_code : Z)
    : odl_drv_response_header_t :=
  mkRespHdr (rq_header h) (rq_controller_name h) resp_code (rq_key_type h).

(** ** Outputs *)

(** A value, or the empty output that separates entries. *)
Inductive Out := OVal (v : IpcValue) | OEmpty.

#[export] Instance Out_eq_dec : EqDecision Out.
Proof. solve_decision. Defined.

Section Output.

(** The error of [addOutput] after what was added before. *)
Variable add_err : list Out -> Out -> Z.
Implicit Types s : list Out.

Definition addOutput (o : Out) s : Z * list Out :=
  let r := add_err s o in (r, if r ==? 0 then s ++ [o] else s).

(** Outputs up to the first error; whether there was none. *)
Fixpoint add_all (l : list Out) s : bool * list Out :=
  match l with
  | [] => (true, s)
  | o :: rest =>
      let '(err, s1) := addOutput o s in
      if err !=? 0 then (false, s1) else add_all rest s1
  end.
(** Outputs whose errors are ignored. *)
Fixpoint add_ignoring (l : list Out) s : list Out :=
  match l with
  | [] => s
  | o :: rest => add_ignoring rest (addOutput o s).2
  end.

Definition header_outputs (h : odl_drv_response_header_t) : list Out :=
  let c := rs_header h in
  OVal <$> [VU32 (h_session_id c); VU32 (h_config_id c); VStr (rs_controller_name h);
            VStr (h_domain_id c); VU32 (h_operation c); VU32 (h_max_rep_count c);
            VU32 (h_option1 c); VU32 (h_option2 c); VU32 (h_data_type c)].
Definition populate_response_header (h : odl_drv_response_header_t) s : bool * list Out :=
  add_all (header_outputs h) s.

End Output.

(** ** Requests *)

(** The structures after the header: a key and a value, or the key and the
    value (its type) of a controller. *)
Record Request (V : Type) := mkRequest {
  rq_args : list IpcValue;
  rq_key : option ConfKey;
  rq_val : option V;
  rq_ctr_key : bool;
  rq_ctr_type : option Z
}.
#[global] Arguments mkRequest {V}.
#[global] Arguments rq_args {V}.
#[global] Arguments rq_key {V}.
#[global] Arguments rq_val {V}.
#[global] Arguments rq_ctr_key {V}.
#[global] Arguments rq_ctr_type {V}.

(** What the drivers do besides commands: the driver's number comes first. *)
Record services (V W : Type) := mkServices {
  fetch_config : Z -> Z -> loc -> option ConfKey -> W -> Z * list (CacheElementUtil V) * W;
  read_cmd : Z -> Z -> option (loc -> list IpcValue -> W -> Z * list Out * W);
  add_controller : Z -> string -> W -> bool * W;
  is_ping_needed : Z -> bool;
  is_physicalconfig_needed : Z -> bool
}.
#[global] Arguments mkServices {V W}.
#[global] Arguments fetch_config {V W}.
#[global] Arguments read_cmd {V W}.
#[global] Arguments add_controller {V W}.
#[global] Arguments is_ping_needed {V W}.
#[global] Arguments is_physicalconfig_needed {V W}.

(** [audit_key]: types with those of their parents. *)
Definition audit_key : list (Z * Z) :=
  [(UNC_KT_VTN, UNC_KT_ROOT); (UNC_KT_FLOWLIST, UNC_KT_ROOT); (UNC_KT_VBRIDGE, UNC_KT_VTN);
   (UNC_KT_VTERMINAL, UNC_KT_VTN); (UNC_KT_VTN_FLOWFILTER, UNC_KT_VTN);
   (UNC_KT_VTERM_IF, UNC_KT_VTERMINAL); (UNC_KT_VBR_IF, UNC_KT_VBRIDGE);
   (UNC_KT_VBR_FLOWFILTER, UNC_KT_VBRIDGE); (UNC_KT_VBRIF_FLOWFILTER, UNC_KT_VBR_IF);
   (UNC_KT_VBR_VLANMAP, UNC_KT_VBRIDGE); (UNC_KT_VTERMIF_FLOWFILTER, UNC_KT_VTERM_IF)].

Section Handlers.

Context {V W : Type} `{ValueStruct V}.
Variables (drivers : Z -> driver V W) (S : services V W) (zero_val : V).
Variables (key_sdf val_sdf : Z -> string) (key_struct : ConfKey -> string) (val_struct : V -> string).
Variable others : ControllerFramework V -> ControllerFramework V.
Variable alloc : gmap loc (ConfigNode V) -> loc.
Variable new_address : gmap loc (controller V) -> loc.
Variable add_err : list Out -> Out -> Z.
Implicit Types (h : odl_drv_request_header_t) (rq : Request V) (c : loc) (s : list Out)
  (e : CacheElementUtil V) (k : ConfKey) (v : V).

Notation addOutput := (addOutput add_err).
Notation add_all := (add_all add_err).
Notation add_ignoring := (add_ignoring add_err).
Notation populate_response_header := (populate_response_header add_err).
Notation with_operation := (with_operation others).

(** A step on the cache of a controller. *)
Definition cache_do {A} c (f : K V A) : T V W A :=
  let& kc := load_ctr c in
  match controller_cache kc with
  | Some cache =>
      match f cache with
      | Some (a, cache1) =>
          do& change_ctr c (fun kc => set_controller_cache kc (Some cache1)) in tret a
      | None => tcrash
      end
  | None => tcrash
  end.

Definition driver_number name : T V W Z :=
  let& ct := fw_get (fun fw => controller_list fw !! name) in
  match ct with Some ct => tret (drv ct) | None => tcrash end.

(** *** Configuration requests *)

(** [getArgument] of the key: it must be of the type. *)
Definition key_argument h rq : option ConfKey :=
  k ← rq_key rq; if get_key_type k ==? rq_key_type h then Some k else None.

(** The value may be missing. *)
Definition parse_request h rq : Z * option (ConfKey * V) :=
  match key_argument h rq with
  | Some k =>
      match k with
      | KVtnFf ff =>
          if input_direction ff ==? UPLL_FLOWFILTER_DIR_OUT then (RC_NOT_SUPPORTED_BY_CTRLR, None)
          else (RC_SUCCESS, Some (k, default zero_val (rq_val rq)))
      | _ => (RC_SUCCESS, Some (k, default zero_val (rq_val rq)))
      end
  | None => (RC_MISSING_KEY_STRUCT, None)
  end.

(** Keep a command in the cache. *)
Definition cache_command c e : T V W Z :=
  do& change_ctr c (fun kc =>
        set_controller_cache kc (Some (default (KeyTree_new ∅) (controller_cache kc)))) in
  let& r := cache_do c (let@ p := new_node alloc e in append_commit_node p) in
  tret (match r with UNC_RC_SUCCESS => RC_SUCCESS | UNC_DRV_RC_ERR_GENERIC => RC_ERR_GENERIC end).

Definition execute h k v : T V W Z :=
  let name := rq_controller_name h in
  with_operation WRITE_TO_CONTROLLER name (fun status handle =>
    if negb status then tret RC_CTR_DISCONNECTED
    else
      deref handle (fun c =>
        let& kc := load_ctr c in
        if connection_status_ kc ==? CONNECTION_DOWN then tret RC_CTR_DISCONNECTED
        else
          let& d := driver_of drivers name in
          let e := mkElement k v (h_operation (rq_header h)) in
          if negb (is_2ph_commit_support_needed d) then cache_command c e
          else execute_cmd d e c)).

Definition handle_response h (code : Z) k s : Z * list Out :=
  let resp := create_response_header h code in
  match populate_response_header resp s with
  | (false, s1) => (RC_ERR_GENERIC, s1)
  | (true, s1) =>
      match add_all ([OVal (VU32 (rs_result resp)); OVal (VU32 (rs_key_type resp))] ++
                     (if h_data_type (rs_header resp) !=? UNC_DT_RUNNING
                      then [OVal (VStruct (key_sdf (rq_key_type h)) (key_struct k))] else [])) s1 with
      | (false, s2) => (RC_ERR_GENERIC, s2)
      | (true, s2) => (RC_SUCCESS, s2)
      end
  end.

(** *** Audits *)

(** The children, of type [kt], of the nodes from index [i] on: a code with
    which to return, or the last one. *)
Fixpoint fetch_children (rounds : nat) (d kt parent_kt : Z) c (i : nat) (cfgnode : option loc)
    (resp_code : Z) : T V W (Z + Z) :=
  let& finished := cache_do c (IsDone i) in
  if finished : bool then tret (inr resp_code)
  else
    match rounds with
    | 0%nat => tcrash
    | Datatypes.S r =>
        let& o := cache_do c (kget (fun cache => p ← cfgnode; n ← heap cache !! p; element n)) in
        match o with
        | None => tcrash
        | Some e =>
            if parent_kt ==? get_key_type (key_ e) then
              let& f := (fun st => let '(code, es, w1) :=
                           fetch_config S d kt c (Some (key_ e)) (world st) in
                         (Some (code, es), mkDrv (framework st) w1 (crashed st), [])) in
              if f.1 !=? RC_SUCCESS then tret (inl f.1)
              else
                do& (match f.2 with
                     | [] => tret tt
                     | es =>
                         do& cache_do c (let@ ps := new_nodes alloc es in
                               append_audit_configuration_list (Some <$> ps)) in tret tt
                     end) in
                let& next := cache_do c (NextItem i) in
                fetch_children r d kt parent_kt c next.1 next.2 f.1
            else
              let& next := cache_do c (NextItem i) in
              fetch_children r d kt parent_kt c next.1 next.2 resp_code
        end
    end.

Fixpoint fetch_types (types : list (Z * Z)) (d : Z) c (resp_code : Z) : T V W Z :=
  match types with
  | [] => tret resp_code
  | (kt, parent_kt) :: rest =>
      if parent_kt ==? UNC_KT_ROOT then
        let& f := (fun st => let '(code, es, w1) := fetch_config S d kt c None (world st) in
                   (Some (code, es), mkDrv (framework st) w1 (crashed st), [])) in
        if f.1 !=? RC_SUCCESS then tret f.1
        else
          do& cache_do c (let@ ps := new_nodes alloc f.2 in
                append_audit_configuration_list (Some <$> ps)) in
          fetch_types rest d c f.1
      else
        let& first := cache_do c AuditFirstItem in
        let& l := cache_do c (kget cfg_node_list_) in
        let& r := fetch_children (length l) d kt parent_kt c first.1 first.2 resp_code in
        match r with
        | inl code => tret code
        | inr code => fetch_types rest d c code
        end
  end.

(** The cache is made anew; the handles are not tested. *)
Definition execute_root h : T V W Z :=
  let name := rq_controller_name h in
  with_operation WRITE_TO_CONTROLLER name (fun _ handle =>
    deref handle (fun c =>
      do& delete_cache c in
      do& change_ctr c (fun kc => set_controller_cache kc (Some (KeyTree_new ∅))) in
      let& d := driver_number name in
      fetch_types audit_key d c RC_ERR_GENERIC)).

(** The entries of the response from index [i] on. *)
Fixpoint audit_entries (rounds : nat) c (i : nat) (cfgnode : option loc) (first : bool) s
    : T V W (bool * list Out) :=
  let& finished := cache_do c (IsDone i) in
  if finished : bool then tret (true, s)
  else
    match rounds with
    | 0%nat => tcrash
    | Datatypes.S r =>
        match cfgnode with
        | None => tret (false, s)
        | Some p =>
            let s1 := if first then s else (addOutput OEmpty s).2 in
            let& o := cache_do c (kget (fun cache => n ← heap cache !! p; element n)) in
            match o with
            | None => tcrash
            | Some e =>
                let t := get_key_type (key_ e) in
                match addOutput (OVal (VU32 t)) s1 with
                | (err, s2) =>
                    if err !=? 0 then tret (false, s2)
                    else if bool_decide (t ∈ kt_handler_map_) then
                      match add_all [OVal (VStruct (key_sdf t) (key_struct (key_ e)));
                                     OVal (VStruct (val_sdf t) (val_struct (value_ e)))] s2 with
                      | (false, s3) => tret (false, s3)
                      | (true, s3) =>
                          let& next := cache_do c (NextItem i) in
                          audit_entries r c next.1 next.2 false s3
                      end
                    else tcrash
                end
            end
        end
    end.

Definition key_root : Out := OVal (VStruct "key_root" "").

Definition handle_response_root h (code : Z) s : T V W (Z * list Out) :=
  let resp := create_response_header h code in
  match populate_response_header resp s with
  | (false, s1) => tret (RC_ERR_GENERIC, s1)
  | (true, s1) =>
      if h_data_type (rs_header resp) ==? UNC_DT_RUNNING then
        with_operation READ_FROM_CONTROLLER (rs_controller_name resp) (fun _ handle =>
          match handle with
          | None => tret (RC_ERR_GENERIC, s1)
          | Some c =>
              let& kc := load_ctr c in
              match controller_cache kc with
              | None => tret (RC_ERR_GENERIC, s1)
              | Some cache =>
                  if (cfgnode_count_ cache ==? 0) && (rs_result resp ==? RC_NO_SUCH_INSTANCE) then
                    do& delete_cache c in
                    tret (RC_SUCCESS, add_ignoring [OVal (VU32 RC_NO_SUCH_INSTANCE);
                                        OVal (VU32 UNC_KT_ROOT); key_root] s1)
                  else if rs_result resp !=? RC_SUCCESS then
                    do& delete_cache c in
                    tret (RC_ERR_GENERIC, add_ignoring [OVal (VU32 (rs_result resp));
                                            OVal (VU32 UNC_KT_ROOT); key_root] s1)
                  else
                    match addOutput (OVal (VU32 (rs_result resp))) s1 with
                    | (err, s2) =>
                        if err !=? 0 then tret (RC_ERR_GENERIC, s2)
                        else
                          let& first := cache_do c AuditFirstItem in
                          let& l := cache_do c (kget cfg_node_list_) in
                          let& r := audit_entries (length l) c first.1 first.2 true s2 in
                          do& delete_cache c in
                          tret (if r.1 : bool then RC_SUCCESS else RC_ERR_GENERIC, r.2)
                    end
              end
          end)
      else tret (RC_ERR_GENERIC, s1)
  end.

(** *** Controllers *)

Definition parse_request_ctr h rq : Z :=
  if negb (rq_ctr_key rq) then RC_MISSING_KEY_STRUCT
  else if ((h_operation (rq_header h) ==? UNC_OP_CREATE) ||
           (h_operation (rq_header h) ==? UNC_OP_UPDATE)) &&
          negb (bool_decide (is_Some (rq_ctr_type rq)))
  then RC_MISSING_VAL_STRUCT
  else RC_SUCCESS.

Definition code_of (r : UncRespCode) : Z :=
  match r with UNC_RC_SUCCESS => RC_SUCCESS | UNC_DRV_RC_ERR_GENERIC => RC_ERR_GENERIC end.

(** A driver for the type, which must be registered, makes the controller. *)
Definition execute_ctr h rq : T V W Z :=
  let name := rq_controller_name h in
  let op := h_operation (rq_header h) in
  if op ==? UNC_OP_CREATE then
    let& d := fw_get (GetDriverInstance (default 0 (rq_ctr_type rq))) in
    match d with
    | None => tcrash
    | Some d =>
        let& made := (fun st => let '(b, w1) := add_controller S d name (world st) in
                      (Some b, mkDrv (framework st) w1 (crashed st), [])) in
        if made : bool then
          fw_do (fun fw =>
            let c := new_address (ctrs fw) in
            fw1 ← AddController name c d (is_ping_needed S d) (is_physicalconfig_needed S d)
                    (set_ctrs (<[c := controller_new]> (ctrs fw)) fw);
            Some (RC_SUCCESS, fw1))
        else tret RC_ERR_GENERIC
    end
  else if op ==? UNC_OP_UPDATE then
    with_operation CONTROLLER_UPDATE name (fun _ handle =>
      deref handle (fun c =>
        let& d := driver_number name in
        fw_do (fun fw =>
          '(r, fw1) ← UpdateControllerConfiguration name c d (is_ping_needed S d)
                        (is_physicalconfig_needed S d) fw;
          Some (code_of r, fw1))))
  else if op ==? UNC_OP_DELETE then
    with_operation CONTROLLER_DELETE name (fun _ _ =>
      fw_do (fun fw => let '(r, fw1) := RemoveControllerConfiguration name fw in
                       Some (code_of r, fw1)))
  else tret RC_INVALID_OPERATION.

Definition handle_response_ctr h (code : Z) s : Z * list Out :=
  let resp := create_response_header h code in
  match populate_response_header resp s with
  | (false, s1) => (RC_ERR_GENERIC, s1)
  | (true, s1) =>
      match add_all ([OVal (VU32 (rs_result resp)); OVal (VU32 (rs_key_type resp))] ++
                     (if h_data_type (rs_header resp) !=? UNC_DT_RUNNING
                      then [OVal (VStruct "key_ctr" (rq_controller_name h))] else [])) s1 with
      | (false, s2) => (RC_ERR_GENERIC, s2)
      | (true, s2) => (RC_SUCCESS, s2)
      end
  end.

(** *** Reads *)

(** The results of the driver are written when there are any. *)
Definition execute_read h rq : T V W (Z * list Out) :=
  let name := rq_controller_name h in
  with_operation WRITE_TO_CONTROLLER name (fun status handle =>
    if negb status then tret (RC_CTR_DISCONNECTED, [])
    else
      deref handle (fun c =>
        let& kc := load_ctr c in
        if connection_status_ kc ==? CONNECTION_DOWN then tret (RC_CTR_DISCONNECTED, [])
        else
          let& d := driver_number name in
          match read_cmd S d (rq_key_type h) with
          | None => tret (RC_INVALID_OPERATION, [])
          | Some cmd =>
              if h_operation (rq_header h) ==? UNC_OP_READ then
                (fun st => let '(code, outs, w1) := cmd c (rq_args rq) (world st) in
                 (Some (code, outs), mkDrv (framework st) w1 (crashed st), []))
              else tret (RC_ERR_GENERIC, [])
          end)).

Definition handle_response_read h (code : Z) (results : list Out) s : Z * list Out :=
  let resp := create_response_header h code in
  match populate_response_header resp s with
  | (false, s1) => (RC_ERR_GENERIC, s1)
  | (true, s1) =>
      match add_all [OVal (VU32 (rs_result resp)); OVal (VU32 (rs_key_type resp))] s1 with
      | (false, s2) => (RC_ERR_GENERIC, s2)
      | (true, s2) => (RC_SUCCESS, add_ignoring results s2)
      end
  end.

Definition handle_request_read h rq s : T V W (Z * list Out) :=
  let& r := execute_read h rq in
  tret (handle_response_read h r.1 r.2 s).

(** *** Pings *)

(** [ReadParams::PingController] *)
Definition ping name (alive : bool) (interval : Z) : T V W (list StateEvent) :=
  with_operation READ_FROM_CONTROLLER name (fun _ handle =>
    match handle with
    | None => tret []
    | Some c => fw_do (PingController name c alive interval)
    end).

(** *** Dispatch *)

(** The key of a response is that of the request, or zeroes. *)
Variable zero_key : Z -> ConfKey.

Definition handle_request h rq s : T V W (Z * list Out) :=
  if rq_key_type h ==? UNC_KT_ROOT then
    let& code := execute_root h in
    handle_response_root h code s
  else if rq_key_type h ==? UNC_KT_CONTROLLER then
    let code := parse_request_ctr h rq in
    let& code := (if code ==? RC_SUCCESS then execute_ctr h rq else tret code) in
    tret (handle_response_ctr h code s)
  else
    match parse_request h rq with
    | (code, Some (k, v)) =>
        let& code := execute h k v in
        tret (handle_response h code k s)
    | (code, None) =>
        tret (handle_response h code (default (zero_key (rq_key_type h)) (key_argument h rq)) s)
    end.

(** The result of the service and the outputs. *)
Definition ipcService rq : T V W (Z * list Out) :=
  match get_request_header (rq_args rq) with
  | None => tret (PFC_IPCRESP_FATAL, [])
  | Some h =>
      if (h_operation (rq_header h) ==? UNC_OP_READ) && (rq_key_type h !=? UNC_KT_ROOT) &&
         (rq_key_type h !=? UNC_KT_CONTROLLER) then
        let& r := handle_request_read h rq [] in
        tret (if r.1 !=? RC_SUCCESS then PFC_IPCRESP_FATAL else RC_SUCCESS, r.2)
      else if bool_decide (rq_key_type h ∈ kt_handler_map_) then
        let& r := handle_request h rq [] in
        tret (if r.1 !=? RC_SUCCESS then PFC_IPCRESP_FATAL else RC_SUCCESS, r.2)
      else tret (PFC_IPCRESP_FATAL, [])
  end.

End Handlers.
