(* ===== verification/DrvSession.v ===== *)
(** * Sessions of a driver process

    Configuration requests, pings and the calls of the participants' library,
    in any order, on a framework at rest.  They refine operations on the
    abstract state: commands are kept until a vote executes them. *)

From S2P Require Import Prelude TcTypes TcIpc TcServer TcLibTypes TcLib CacheKeys CacheTree CacheProps CacheOps CacheSpec CacheDelete CacheClient CacheTheorems DrvCtr DrvTxn DrvVote DrvRequest.

Local Open Scope Z_scope.

Section Session.

Context {V W : Type} `{ValueStruct V}.
Variables (drivers : Z -> driver V W) (S : services V W) (zero_val : V) (zero_key : Z -> ConfKey).
Variables (key_sdf val_sdf : Z -> string) (key_struct : ConfKey -> string) (val_struct : V -> string).
Variable others : ControllerFramework V -> ControllerFramework V.
Variable alloc : gmap loc (ConfigNode V) -> loc.
Variable new_address : gmap loc (controller V) -> loc.
Variable add_err : list Out -> Out -> Z.
Hypothesis one_phase : forall t, is_2ph_commit_support_needed (drivers t) = false.
Hypothesis alloc_fresh : forall h, h !! alloc h = None.
Implicit Types (name : string) (c : loc) (k : controller V) (fw : ControllerFramework V)
  (st : DrvState V W) (w : W) (e : CacheElementUtil V) (cache : KeyTree V) (names : list string)
  (a : Kept (V := V)) (A : gmap string (Kept (V := V))).

(** ** Operations *)

Inductive DrvOp :=
| DRequest (rq : Request V)
| DPing name (alive : bool) (interval : Z)
| DCall (call : HandlerCall).

Inductive DrvAns :=
| AResponse (r : Z) (out : list Out)
| AEvents (l : list StateEvent)
| ARet (r : Z).

Definition run_op (o : DrvOp) : T V W DrvAns :=
  match o with
  | DRequest rq =>
      let& r := ipcService drivers S zero_val key_sdf val_sdf key_struct val_struct others alloc
                  new_address add_err zero_key rq in
      tret (AResponse r.1 r.2)
  | DPing name alive interval =>
      let& l := ping others name alive interval in tret (AEvents l)
  | DCall call =>
      let& r := txn_handle drivers key_sdf val_sdf key_struct val_struct others call in tret (ARet r)
  end.

Fixpoint run_ops (l : list DrvOp) : T V W (list DrvAns) :=
  match l with
  | [] => tret []
  | o :: rest => let& r := run_op o in let& rs := run_ops rest in tret (r :: rs)
  end.

(** Requests that configure; those that audit, read or concern the
    controllers themselves are apart. *)
Definition configures (rq : Request V) : bool :=
  match get_request_header (rq_args rq) with
  | None => true
  | Some h =>
      (h_operation (rq_header h) !=? UNC_OP_READ) && (rq_key_type h !=? UNC_KT_ROOT) &&
      (rq_key_type h !=? UNC_KT_CONTROLLER)
  end.
Definition in_session (o : DrvOp) : bool :=
  match o with DRequest rq => configures rq | _ => true end.

(** ** What they mean *)

Definition set_up (b : bool) a : Kept :=
  mkKept (kept_at a) (kept_driver a) b (kept_audited a) (pending a).
Definition set_audited (b : bool) a : Kept :=
  mkKept (kept_at a) (kept_driver a) (kept_up a) b (pending a).
Definition add_pending e a : Kept :=
  mkKept (kept_at a) (kept_driver a) (kept_up a) (kept_audited a)
    (Some (default [] (pending a) ++ [e])).

(** The command of a request is kept when the controller is up. *)
Definition execute_spec name e A : Z * gmap string Kept :=
  match A !! name with
  | Some a => if kept_up a then (RC_SUCCESS, <[name := add_pending e a]> A)
              else (RC_CTR_DISCONNECTED, A)
  | None => (RC_CTR_DISCONNECTED, A)
  end.

Definition answer (h : odl_drv_request_header_t) (code : Z) (key : ConfKey) : DrvAns :=
  let '(r, out) := handle_response key_sdf key_struct add_err h code key [] in
  AResponse (if r !=? RC_SUCCESS then PFC_IPCRESP_FATAL else RC_SUCCESS) out.

Definition request_spec (rq : Request V) A : DrvAns * gmap string Kept :=
  match get_request_header (rq_args rq) with
  | None => (AResponse PFC_IPCRESP_FATAL [], A)
  | Some h =>
      if bool_decide (rq_key_type h ∈ kt_handler_map_) then
        match parse_request zero_val h rq with
        | (_, Some (key, v)) =>
            let '(code, A1) := execute_spec (rq_controller_name h)
                                 (mkElement key v (h_operation (rq_header h))) A in
            (answer h code key, A1)
        | (code, None) =>
            (answer h code (default (zero_key (rq_key_type h)) (key_argument h rq)), A)
        end
      else (AResponse PFC_IPCRESP_FATAL [], A)
  end.

(** UPPL hears of changes. *)
Definition ping_spec name (alive : bool) A : list StateEvent * gmap string Kept :=
  match A !! name with
  | None => ([], A)
  | Some a =>
      (if kept_up a ==? alive then []
       else [SendNotificationToPhysical name (if alive then CONNECTION_UP else CONNECTION_DOWN)],
       <[name := set_up alive a]> A)
  end.

(** A vote that fails aborts all controllers, which must be known. *)
Definition vote_call (config_id : Z) names A w : option Z * gmap string Kept * W * list ApiCall :=
  let '(failed, A1, w1, l) :=
    vote_spec drivers key_sdf val_sdf key_struct val_struct config_id names A w in
  if failed then
    if all_known names A1 then (Some TC_FAILURE, drop_pending names A1, w1, l) else (None, A1, w1, l)
  else (Some TC_SUCCESS, A1, w1, l).

Fixpoint commit_reports (config_id : Z) names A : list ApiCall :=
  match names with
  | [] => []
  | name :: rest =>
      match A !! name with
      | None => [TcLibWriteControllerInfo name RC_CTR_DISCONNECTED 0]
      | Some a =>
          TcLibWriteControllerInfo name
            (if takes_part config_id a then RC_SUCCESS else RC_CTR_DISCONNECTED) 0
          :: commit_reports config_id rest A
      end
  end.

Definition audited_call name (b : option bool) A : gmap string Kept * list ApiCall :=
  match A !! name with
  | None => (A, [TcLibWriteControllerInfo name RC_CTR_DISCONNECTED 0])
  | Some a => (match b with Some b => <[name := set_audited b a]> A | None => A end, [])
  end.

Definition call_spec (call : HandlerCall) A w : option Z * gmap string Kept * W * list ApiCall :=
  match call with
  | HandleCommitVoteRequest_drv _ cid names => vote_call cid names A w
  | HandleAuditVoteRequest_drv _ _ names => vote_call 0 names A w
  | HandleCommitGlobalCommit_drv _ cid names => (Some TC_SUCCESS, A, w, commit_reports cid names A)
  | HandleAuditGlobalCommit_drv _ _ names => (Some TC_SUCCESS, A, w, commit_reports 0 names A)
  | HandleAuditStart _ _ name _ _ _ _ =>
      let '(A1, l) := audited_call name (Some false) A in (Some TC_SUCCESS, A1, w, l)
  | HandleAuditEnd _ _ name result =>
      let '(A1, l) := audited_call name (if result ==? 1 then Some true else None) A in
      (Some TC_SUCCESS, A1, w, l)
  | HandleCommitTransactionStart _ _ | HandleCommitTransactionEnd _ _ _
  | HandleAuditStart_drv _ _ _ _ | HandleAuditTransactionStart _ _ _
  | HandleAuditTransactionEnd _ _ _ _ | HandleAuditGlobalAbort _ _ _ _ => (Some TC_SUCCESS, A, w, [])
  | HandleGetControllerType _ => (Some UNC_CT_ODC, A, w, [])
  | _ => (Some TC_FAILURE, A, w, [])
  end.

Definition op_spec (o : DrvOp) A w : option DrvAns * gmap string Kept * W * list ApiCall :=
  match o with
  | DRequest rq => let '(r, A1) := request_spec rq A in (Some r, A1, w, [])
  | DPing name alive _ => let '(l, A1) := ping_spec name alive A in (Some (AEvents l), A1, w, [])
  | DCall call => let '(r, A1, w1, l) := call_spec call A w in (ARet <$> r, A1, w1, l)
  end.

Fixpoint ops_spec (l : list DrvOp) A w
    : option (list DrvAns) * gmap string Kept * W * list ApiCall :=
  match l with
  | [] => (Some [], A, w, [])
  | o :: rest =>
      match op_spec o A w with
      | (Some r, A1, w1, l1) =>
          let '(rs, A2, w2, l2) := ops_spec rest A1 w1 in (cons r <$> rs, A2, w2, l1 ++ l2)
      | (None, A1, w1, l1) => (None, A1, w1, l1)
      end
  end.

(** What a program does on a framework at rest. *)
Definition refines {R : Type} (m : T V W R) st (spec : option R * gmap string Kept * W * list ApiCall)
    : Prop :=
  let '(r, A1, w1, l) := spec in
  exists st', m st = (r, st', l) /\ world st' = w1 /\
    match r with
    | Some _ => fw_ok (framework st') /\ abstract (framework st') = A1 /\ crashed st' = crashed st
    | None => crashed st' = true
    end.

(** ** Operations that read *)

Definition reading k : controller V :=
  set_access k (set_read_count (access_ k) (u32_inc (read_count_ (access_ k)))).

Lemma read_back (n : Z) : 0 <= n < UINT32_MOD -> u32_dec (u32_inc n) = n.
Proof. intros Hn. unfold u32_dec, u32_inc. rewrite Zminus_mod_idemp_l. rewrite Z.mod_small; lia. Qed.

Lemma close_read c k w st :
  quiet (access_ k) ->
  close_operation READ_FROM_CONTROLLER (Some c) (put c (reading k) w st)
  = (Some tt, put c k w st, []).
Proof.
  intros [Hr _ _ _ _]. unfold close_operation, tbind, fw_do, controller_operation_delete. cbn.
  rewrite lookup_insert_eq. cbn. unfold with_access, with_ctr. cbn. rewrite lookup_insert_eq. cbn.
  unfold put, set_ctrs. cbn. rewrite insert_insert_eq. repeat f_equal.
  destruct k as [ca b t t' [rc wc wp ww rw md mu] au cs]. cbn in *. unfold set_access. cbn.
  by rewrite read_back.
Qed.

Lemma open_read name ct k st :
  controller_list (framework st) !! name = Some ct -> ctrs (framework st) !! ctr ct = Some k ->
  quiet (access_ k) ->
  open_operation others READ_FROM_CONTROLLER name st
  = (Some (Some (ctr ct)), put (ctr ct) (reading k) (world st) st, []).
Proof.
  intros Hn Hk [_ _ _ Hd Hu]. unfold open_operation.
  rewrite (tbind_run0 _ _ _ (Entered (ctr ct)) (put (ctr ct) (reading k) (world st) st)); [done|].
  unfold fw_do, controller_operation_new, GetDriverByControllerName. rewrite Hn. cbn.
  rewrite Hk. cbn. rewrite Hd, Hu. unfold enter_read, with_access, with_ctr. by rewrite Hk.
Qed.

Lemma read_run {R : Type} name ct k k1 w1 st st1 (body : bool -> option loc -> T V W R) (r : R) l :
  controller_list (framework st) !! name = Some ct -> ctrs (framework st) !! ctr ct = Some k ->
  quiet (access_ k) -> access_ k1 = access_ k ->
  body true (Some (ctr ct)) (put (ctr ct) (reading k) (world st) st)
  = (Some r, put (ctr ct) (reading k1) w1 st1, l) ->
  with_operation others READ_FROM_CONTROLLER name body st = (Some r, put (ctr ct) k1 w1 st1, l).
Proof.
  intros Hn Hk Hq Ha E. unfold with_operation.
  rewrite (tbind_run0 _ _ _ true st)
    by (unfold fw_get, get_controller_status, GetDriverByControllerName; by rewrite Hn).
  rewrite (tbind_run0 _ _ _ _ _ (open_read _ _ _ _ Hn Hk Hq)).
  rewrite (tbind_run _ _ _ _ _ _ E).
  rewrite (tbind_run0 _ _ _ tt (put (ctr ct) k1 w1 st1)) by (apply close_read; by rewrite Ha).
  cbn. by rewrite app_nil_r.
Qed.

(** ** Commands that are kept *)

Definition with_command e cache : KeyTree V :=
  set_list (cfg_node_list_ cache ++ [alloc (heap cache)]) (with_node alloc e cache).

Lemma command_ok e cache :
  cache_ok cache -> handled cache -> get_key_type (key_ e) ∈ kt_handler_map_ ->
  cache_ok (with_command e cache) /\ handled (with_command e cache) /\
  commands (with_command e cache) = commands cache ++ [e].
Proof.
  intros Hok Hh He.
  assert (forall p x, node_element (heap cache) p = Some x ->
            node_element (heap (with_node alloc e cache)) p = Some x) as Hold.
  { intros p x. unfold node_element. destruct (heap cache !! p) as [n|] eqn:E; [|done].
    by rewrite (with_node_other alloc alloc_fresh e cache p n E). }
  assert (node_element (heap (with_node alloc e cache)) (alloc (heap cache)) = Some e) as Hnew.
  { unfold node_element. cbn. by rewrite lookup_insert_eq. }
  split_and!.
  - destruct (request_refines alloc alloc_fresh (RCommit e) cache Hok) as (ans & k' & E & Hok' & _).
    by injection E as <- <-.
  - unfold handled, with_command. cbn [cfg_node_list_ set_list heap]. apply Forall_app. split.
    + refine (Forall_impl _ _ Hh). intros p (x & Hx & Ht). eauto.
    + apply Forall_singleton. eauto.
  - unfold commands, with_command, elems. cbn [cfg_node_list_ set_list heap].
    rewrite omap_app. cbn [omap list_omap]. rewrite Hnew. f_equal. clear Hok. unfold handled in Hh.
    induction Hh as [|p l (x & Hx & _) Hh IH]; [done|]. cbn [omap list_omap].
    by rewrite Hx, (Hold _ _ Hx), IH.
Qed.

Definition keeping e k : controller V :=
  set_controller_cache k (Some (with_command e (default (KeyTree_new ∅) (controller_cache k)))).

Lemma keeping_ok e k :
  ctl_ok k -> get_key_type (key_ e) ∈ kt_handler_map_ ->
  ctl_ok (keeping e k) /\ forall ct, kept ct (keeping e k) = add_pending e (kept ct k).
Proof.
  intros [Hq Hc] He. unfold keeping.
  assert (cache_ok (default (KeyTree_new ∅) (controller_cache k)) /\
          handled (default (KeyTree_new ∅) (controller_cache k))) as [Hok Hh].
  { destruct (controller_cache k) as [cache|]; [by apply Hc|]. by split; [apply new_cache_ok|constructor]. }
  destruct (command_ok e _ Hok Hh He) as (Hok' & Hh' & Hl). split.
  - split; [done|]. intros cache [= <-]. done.
  - intros ct. unfold kept, add_pending.
    cbn [kept_at kept_driver kept_up kept_audited pending set_controller_cache controller_cache
         connection_status_ audit_result_ fmap option_fmap option_map]. rewrite Hl. by destruct (controller_cache k).
Qed.

Lemma cache_command_run e c k w st :
  cache_command alloc c e (put c (writing k) w st)
  = (Some RC_SUCCESS, put c (writing (keeping e k)) w st, []).
Proof.
  unfold cache_command. rewrite (tbind_run0 _ _ _ _ _ (change_run _ _ _ _ _)).
  unfold cache_do. unfold tbind at 1. rewrite (tbind_run0 _ _ _ _ _ (load_ctr_run _ _ _ _)).
  cbn [set_controller_cache controller_cache writing set_access].
  change ((let@ p := new_node alloc e in append_commit_node p) ?x)
    with (Some (UNC_RC_SUCCESS, with_command e x)). cbv iota beta.
  rewrite (tbind_run0 _ _ _ _ _ (change_run _ _ _ _ _)). done.
Qed.

(** ** Each operation *)

Lemma refines_bind {R1 R2 : Type} (m : T V W R1) (f : R1 -> T V W R2) st r A1 w1 l1 spec :
  refines m st (Some r, A1, w1, l1) ->
  (forall st1, fw_ok (framework st1) -> abstract (framework st1) = A1 -> world st1 = w1 ->
     crashed st1 = crashed st -> refines (f r) st1 spec) ->
  refines (tbind m f) st (let '(r2, A2, w2, l2) := spec in (r2, A2, w2, l1 ++ l2)).
Proof.
  intros (st1 & E & Hw & Hf & HA & Hc) Hnext. specialize (Hnext st1 Hf HA Hw Hc).
  destruct spec as [[[r2 A2] w2] l2]. destruct Hnext as (st2 & E2 & Hw2 & H2). exists st2.
  rewrite (tbind_run1 _ _ _ _ _ _ _ _ _ E E2), <- Hc. done.
Qed.

Lemma refines_then {R1 R2 : Type} (m : T V W R1) (f : R1 -> R2) st r A1 w1 l1 :
  refines m st (r, A1, w1, l1) ->
  refines (let& x := m in tret (f x)) st (f <$> r, A1, w1, l1).
Proof.
  intros (st1 & E & Hw & H1). exists st1. unfold tbind. rewrite E. destruct r as [r|]; cbn.
  - by rewrite app_nil_r.
  - done.
Qed.

Section Rest.

Context st (Hf : fw_ok (framework st)).

(** The state after a change of a controller. *)
Lemma refines_put {R : Type} (m : T V W R) name ct k1 w1 r l A1 :
  controller_list (framework st) !! name = Some ct -> ctl_ok k1 ->
  m st = (Some r, put (ctr ct) k1 w1 st, l) -> A1 = <[name := kept ct k1]> (abstract (framework st)) ->
  refines m st (Some r, A1, w1, l).
Proof.
  intros Hn Hok E ->. eexists. split; [exact E|]. split_and!; [done|by eapply put_fw_ok| |done].
  by apply put_abstract.
Qed.

Lemma refines_same {R : Type} (m : T V W R) r l :
  m st = (Some r, st, l) -> refines m st (Some r, abstract (framework st), world st, l).
Proof. intros E. by exists st. Qed.

Lemma execute_refines h key v :
  get_key_type key ∈ kt_handler_map_ ->
  refines (execute drivers others alloc h key v) st
    (let '(code, A1) := execute_spec (rq_controller_name h) (mkElement key v (h_operation (rq_header h)))
                          (abstract (framework st)) in
     (Some code, A1, world st, [])).
Proof.
  intros Ht. unfold execute, execute_spec.
  destruct (controller_list (framework st) !! rq_controller_name h) as [ct|] eqn:Hn.
  2:{ rewrite (abstract_unknown _ _ Hn). apply refines_same. by apply unknown_run. }
  destruct (ok_alive _ Hf _ _ Hn) as (k & Hk & Hok). rewrite (abstract_known _ _ _ _ Hn Hk).
  cbn [kept_up kept]. destruct (connection_status_ k) eqn:Ec.
  - rewrite (bool_decide_eq_true_2 (CONNECTION_UP = CONNECTION_UP)) by done.
    destruct (keeping_ok (mkElement key v (h_operation (rq_header h))) k Hok Ht) as [Hok1 Hkept].
    eapply refines_put; [exact Hn|exact Hok1| |by rewrite Hkept].
    eapply write_run; [exact Hn|exact Hk|apply Hok|done|]. cbn [negb deref].
    rewrite (tbind_run0 _ _ _ _ _ (load_ctr_run _ _ _ _)).
    cbn [writing set_access connection_status_]. rewrite Ec.
    rewrite (bool_decide_eq_false_2 (CONNECTION_UP = CONNECTION_DOWN)) by done.
    rewrite (tbind_run0 _ _ _ _ _ (driver_run _ _ _ _ _ _ Hn)), one_phase. apply cache_command_run.
  - rewrite (bool_decide_eq_false_2 (CONNECTION_DOWN = CONNECTION_UP)) by done.
    apply refines_same. rewrite <- (put_same _ _ _ Hk) at 2.
    eapply write_run; [exact Hn|exact Hk|apply Hok|done|]. cbn [negb deref].
    rewrite (tbind_run0 _ _ _ _ _ (load_ctr_run _ _ _ _)).
    cbn [writing set_access connection_status_]. by rewrite Ec.
Qed.

Lemma vote_refines config_id names :
  refines (Txn_CommitVoteRequest drivers key_sdf val_sdf key_struct val_struct others config_id names) st
    (vote_call config_id names (abstract (framework st)) (world st)).
Proof.
  pose proof (vote_request_run drivers key_sdf val_sdf key_struct val_struct others one_phase
    config_id names st Hf) as H1. unfold vote_call.
  destruct (vote_spec _ _ _ _ _ _ _ _ _) as [[[failed A1] w1] l]. destruct H1 as (st' & Hw & H1).
  destruct failed; [destruct (all_known names A1)|]; cbn [andb negb] in H1.
  - destruct H1 as (E & Hf1 & Hc & HA). by exists st'.
  - destruct H1 as (E & Hc). by exists st'.
  - destruct H1 as (E & Hf1 & Hc & HA). by exists st'.
Qed.

Lemma commit_loop_refines config_id names :
  global_commit_loop drivers others config_id names TC_SUCCESS st
  = (Some (TC_SUCCESS, false), st, commit_reports config_id names (abstract (framework st))).
Proof.
  induction names as [|name names IH]; [done|]. cbn [global_commit_loop commit_reports].
  destruct (controller_list (framework st) !! name) as [ct|] eqn:Hn.
  2:{ rewrite (abstract_unknown _ _ Hn). eapply (tbind_run1 _ _ _ (FReturn TC_SUCCESS) st [_] _ _ []); [|done].
      by apply unknown_run. }
  destruct (ok_alive _ Hf _ _ Hn) as (k & Hk & Hok). rewrite (abstract_known _ _ _ _ Hn Hk).
  eapply (tbind_run1 _ _ _ (FNext TC_SUCCESS 0) st [_]); [|exact IH]. unfold commit_one.
  rewrite <- (put_same _ _ _ Hk) at 2.
  eapply write_run; [exact Hn|exact Hk|apply Hok|done|]. cbn [negb deref].
  rewrite (tbind_run0 _ _ _ _ _ (load_ctr_run _ _ _ _)).
  unfold takes_part. cbn [writing set_access connection_status_ audit_result_ kept_up kept_audited kept].
  destruct (connection_status_ k).
  2:{ by rewrite (bool_decide_eq_true_2 (CONNECTION_DOWN = CONNECTION_DOWN)),
        (bool_decide_eq_false_2 (CONNECTION_DOWN = CONNECTION_UP)). }
  rewrite (bool_decide_eq_true_2 (CONNECTION_UP = CONNECTION_UP)),
    (bool_decide_eq_false_2 (CONNECTION_UP = CONNECTION_DOWN)) by done. cbn [andb].
  destruct (config_id ==? 0); cbn [negb andb orb]; [|destruct (audit_result_ k); cbn [negb]; [|done]].
  all: by rewrite (tbind_run0 _ _ _ _ _ (driver_run _ _ _ _ _ _ Hn)), one_phase.
Qed.

Lemma commit_refines config_id names :
  Txn_CommitGlobalCommit drivers others config_id names st
  = (Some TC_SUCCESS, st, commit_reports config_id names (abstract (framework st))).
Proof.
  unfold Txn_CommitGlobalCommit. rewrite (tbind_run _ _ _ _ _ _ (commit_loop_refines config_id names)).
  cbn. by rewrite app_nil_r.
Qed.

(** [HandleAuditStart] and [HandleAuditEnd]. *)
Lemma audited_refines name (b : option bool) :
  refines (with_operation others READ_FROM_CONTROLLER name (fun status h =>
      if negb status then
        do& WriteControllerInfo name RC_CTR_DISCONNECTED 0 in tret TC_SUCCESS
      else
        do& (match b with
             | Some b => deref h (fun c => change_ctr c (fun k => set_audit_result k b))
             | None => tret tt
             end) in
        tret TC_SUCCESS)) st
    (let '(A1, l) := audited_call name b (abstract (framework st)) in
     (Some TC_SUCCESS, A1, world st, l)).
Proof.
  unfold audited_call. destruct (controller_list (framework st) !! name) as [ct|] eqn:Hn.
  2:{ rewrite (abstract_unknown _ _ Hn). apply refines_same. unfold with_operation.
      unfold tbind, fw_get, get_controller_status, GetDriverByControllerName, open_operation,
        tbind, fw_do, controller_operation_new, GetDriverByControllerName.
      rewrite Hn. by destruct st. }
  destruct (ok_alive _ Hf _ _ Hn) as (k & Hk & Hok). rewrite (abstract_known _ _ _ _ Hn Hk).
  destruct b as [b|].
  - eapply (refines_put _ name ct (set_audit_result k b)); [done|by apply set_audit_ok| |done].
    eapply read_run; [exact Hn|exact Hk|apply Hok|done|]. cbn [negb deref].
    by rewrite (tbind_run0 _ _ _ _ _ (change_run _ _ _ _ _)).
  - apply refines_same. rewrite <- (put_same _ _ _ Hk) at 2.
    by eapply read_run; [exact Hn|exact Hk|apply Hok|done|].
Qed.

End Rest.

(** *** Pings *)

(** Flags of containers and timers are not part of the abstract state. *)
Lemma same_abstract fw fw' :
  ctrs fw' = ctrs fw ->
  (forall n, (fun ct => (ctr ct, drv ct)) <$> controller_list fw' !! n
             = (fun ct => (ctr ct, drv ct)) <$> controller_list fw !! n) ->
  fw_ok fw -> fw_ok fw' /\ abstract fw' = abstract fw.
Proof.
  intros Hc Hl [Ha Hi].
  assert (forall n ct', controller_list fw' !! n = Some ct' ->
            exists ct, controller_list fw !! n = Some ct /\ ctr ct = ctr ct') as Hback.
  { intros n ct' Hn. specialize (Hl n). rewrite Hn in Hl. cbn in Hl. symmetry in Hl.
    apply fmap_Some in Hl as (ct & Hct & [= E1 E2]). eauto. }
  split; [split|].
  - intros n ct' (ct & Hct & E)%Hback. rewrite Hc, <- E. by apply (Ha n).
  - intros n1 n2 c1 c2 (d1 & H1 & E1)%Hback (d2 & H2 & E2)%Hback E. apply (Hi _ _ _ _ H1 H2). congruence.
  - apply map_eq. intros n. unfold abstract. rewrite !lookup_omap, Hc. specialize (Hl n).
    destruct (controller_list fw' !! n) as [ct'|], (controller_list fw !! n) as [ct|]; try done.
    cbn in Hl |- *. injection Hl as E1 E2. rewrite E1. unfold kept. by rewrite E1, E2.
Qed.

Definition after_ping name (alive : bool) (interval : Z) fw : ControllerFramework V :=
  PostTimer name interval (if alive then fw else SetDomainFlag name false fw).

Lemma after_ping_same name alive interval fw :
  fw_ok fw -> fw_ok (after_ping name alive interval fw) /\
  abstract (after_ping name alive interval fw) = abstract fw.
Proof.
  apply same_abstract.
  - unfold after_ping, PostTimer, SetDomainFlag. repeat case_match; done.
  - intros n. unfold after_ping, PostTimer. destruct (interval ==? 0);
      cbn [add_post controller_list]; (destruct alive; [done|]); unfold SetDomainFlag;
      (destruct (controller_list fw !! name) as [ct|] eqn:E; [|done]);
      cbn [set_controller_list controller_list];
      (destruct (decide (n = name)) as [->|Hne];
       [by rewrite lookup_insert_eq, E|by rewrite lookup_insert_ne]).
Qed.

Lemma ping_body name (alive : bool) interval c k st :
  PingController name c alive interval (framework (put c (reading k) (world st) st))
  = Some (if (connection_status_ k ==? CONNECTION_UP) ==? alive then []
          else [SendNotificationToPhysical name (if alive then CONNECTION_UP else CONNECTION_DOWN)],
          set_ctrs (<[c := reading (set_connection_status k
                             (if alive then CONNECTION_UP else CONNECTION_DOWN))]>
                      (ctrs (after_ping name alive interval (framework st))))
            (after_ping name alive interval (framework st))).
Proof.
  unfold PingController, with_ctr. cbn [put framework set_ctrs ctrs]. rewrite lookup_insert_eq.
  cbn [mbind option_bind]. unfold after_ping, PostTimer, SetDomainFlag.
  destruct alive; cbn [set_ctrs ctrs controller_list].
  - cbn [mbind option_bind reading set_access connection_status_].
    rewrite insert_insert_eq. apply f_equal, f_equal2.
    + by destruct (connection_status_ k).
    + by destruct (interval ==? 0).
  - destruct (controller_list (framework st) !! name) as [ct|];
      cbn [set_ctrs set_controller_list ctrs controller_list]; rewrite lookup_insert_eq;
      cbn [mbind option_bind reading set_access connection_status_]; rewrite insert_insert_eq;
      (apply f_equal, f_equal2; [by destruct (connection_status_ k)|by destruct (interval ==? 0)]).
Qed.

Lemma ping_refines name alive interval st :
  fw_ok (framework st) ->
  refines (ping others name alive interval) st
    (let '(l, A1) := ping_spec name alive (abstract (framework st)) in (Some l, A1, world st, [])).
Proof.
  intros Hf. unfold ping_spec, ping. destruct (controller_list (framework st) !! name) as [ct|] eqn:Hn.
  2:{ rewrite (abstract_unknown _ _ Hn). apply refines_same; [done|]. unfold with_operation.
      unfold tbind, fw_get, get_controller_status, GetDriverByControllerName, open_operation,
        tbind, fw_do, controller_operation_new, GetDriverByControllerName.
      rewrite Hn. by destruct st. }
  destruct (ok_alive _ Hf _ _ Hn) as (k & Hk & Hok). rewrite (abstract_known _ _ _ _ Hn Hk).
  set (st1 := mkDrv (after_ping name alive interval (framework st)) (world st) (crashed st)).
  set (k1 := set_connection_status k (if alive then CONNECTION_UP else CONNECTION_DOWN)).
  destruct (after_ping_same name alive interval _ Hf) as [Hf1 HA1].
  assert (exists ct1, controller_list (framework st1) !! name = Some ct1 /\ ctr ct1 = ctr ct /\
            drv ct1 = drv ct) as (ct1 & Hn1 & Ec & Ed).
  { unfold st1, after_ping, PostTimer, SetDomainFlag. cbn [framework]. rewrite Hn.
    destruct alive, (interval ==? 0); cbn [add_post controller_list set_controller_list];
      rewrite ?lookup_insert_eq; eauto. }
  exists (put (ctr ct) k1 (world st) st1). split_and!.
  - eapply read_run; [exact Hn|exact Hk|apply Hok|done|]. cbv iota beta.
    unfold fw_do. by rewrite ping_body.
  - done.
  - rewrite <- Ec. eapply put_fw_ok; [done|exact Hn1|]. destruct Hok. by split.
  - rewrite <- Ec. rewrite (put_abstract _ name) by done. cbn [framework st1]. rewrite HA1.
    unfold kept. rewrite Ec, Ed. unfold set_up. cbn. by destruct alive.
  - done.
Qed.

(** *** Requests and calls *)

Lemma parse_known h rq code key v :
  parse_request zero_val h rq = (code, Some (key, v)) -> get_key_type key = rq_key_type h.
Proof.
  unfold parse_request. destruct (key_argument h rq) as [k'|] eqn:E; [|done].
  assert (get_key_type k' = rq_key_type h) as Et.
  { unfold key_argument in E. destruct (rq_key rq) as [k2|]; cbn in E; [|done].
    case_bool_decide; [|done]. congruence. }
  intros Hp. assert (k' = key) as -> by (destruct k'; repeat case_match; congruence). done.
Qed.

Lemma request_run_refines rq st :
  fw_ok (framework st) -> configures rq = true ->
  refines (run_op (DRequest rq)) st
    (let '(r, A1) := request_spec rq (abstract (framework st)) in (Some r, A1, world st, [])).
Proof.
  intros Hf Hc. cbn [run_op]. unfold ipcService, request_spec, configures in *.
  destruct (get_request_header (rq_args rq)) as [h|]; [|by apply refines_same].
  apply andb_prop in Hc as [[Ho Hr]%andb_prop Hct].
  destruct (h_operation (rq_header h) ==? UNC_OP_READ); [done|]. cbn [andb].
  case (bool_decide_reflect (rq_key_type h ∈ kt_handler_map_)); intros Ht; [|by apply refines_same].
  unfold handle_request. destruct (rq_key_type h ==? UNC_KT_ROOT); [done|].
  destruct (rq_key_type h ==? UNC_KT_CONTROLLER); [done|].
  destruct (parse_request zero_val h rq) as [code [[key v]|]] eqn:Ep.
  - pose proof (execute_refines st Hf h key v) as He. rewrite (parse_known _ _ _ _ _ Ep) in He.
    specialize (He Ht). destruct (execute_spec _ _ _) as [code1 A1].
    eapply (refines_then _ (fun code => handle_response key_sdf key_struct add_err h code key [])) in He.
    eapply (refines_then _ (fun r => (if r.1 !=? RC_SUCCESS then PFC_IPCRESP_FATAL else RC_SUCCESS, r.2))) in He.
    eapply (refines_then _ (fun r => AResponse r.1 r.2)) in He. cbn in He.
    unfold answer. by destruct (handle_response _ _ _ _ _ _ _).
  - apply refines_same; [done|]. unfold answer, tbind, tret. cbn.
    by destruct (handle_response _ _ _ _ _ _ _).
Qed.

Lemma audit_vote_refines names st :
  fw_ok (framework st) ->
  refines (Txn_AuditVoteRequest drivers key_sdf val_sdf key_struct val_struct others names) st
    (vote_call 0 names (abstract (framework st)) (world st)).
Proof.
  intros Hf. pose proof (vote_refines st Hf 0 names) as H1. revert H1. unfold vote_call.
  destruct (vote_spec _ _ _ _ _ _ _ _ _) as [[[[] A1] w1] l]; [destruct (all_known names A1)|];
    intros H1; apply (refines_then _ audit_ret) in H1; exact H1.
Qed.

Lemma call_refines call st :
  fw_ok (framework st) ->
  refines (txn_handle drivers key_sdf val_sdf key_struct val_struct others call) st
    (call_spec call (abstract (framework st)) (world st)).
Proof.
  intros Hf. destruct call; cbn [txn_handle call_spec]; try by apply refines_same.
  all: try by apply vote_refines.
  all: try by apply audit_vote_refines.
  - apply refines_same; [done|by apply commit_refines].
  - apply (audited_refines st Hf controller_id (Some false)).
  - unfold Txn_AuditEnd. pose proof (audited_refines st Hf controller_id) as Ha.
    case_bool_decide; [exact (Ha (Some true))|exact (Ha None)].
  - apply refines_same; [done|]. unfold Txn_AuditGlobalCommit.
    rewrite (tbind_run _ _ _ _ _ _ (commit_refines st Hf 0 controllers)). cbn. by rewrite app_nil_r.
Qed.

Lemma op_refines o st :
  fw_ok (framework st) -> in_session o = true ->
  refines (run_op o) st (op_spec o (abstract (framework st)) (world st)).
Proof.
  intros Hf Hi. destruct o as [rq|name alive interval|call]; cbn [op_spec].
  - pose proof (request_run_refines rq st Hf Hi) as Hr. by destruct (request_spec _ _).
  - pose proof (ping_refines name alive interval st Hf) as Hr.
    destruct (ping_spec _ _ _) as [l A1]. by apply (refines_then _ AEvents) in Hr.
  - pose proof (call_refines call st Hf) as Hr.
    destruct (call_spec _ _ _) as [[[r A1] w1] l]. by apply (refines_then _ ARet) in Hr.
Qed.

Lemma ops_refine l st :
  fw_ok (framework st) -> Forall (fun o => in_session o = true) l ->
  refines (run_ops l) st (ops_spec l (abstract (framework st)) (world st)).
Proof.
  intros Hf Hl. revert st Hf. induction Hl as [|o l Ho Hl IH]; intros st Hf; [by exists st|].
  pose proof (op_refines o st Hf Ho) as Hr. cbn [run_ops ops_spec].
  destruct (op_spec _ _ _) as [[[[r|] A1] w1] l1].
  - destruct (ops_spec l A1 w1) as [[[rs A2] w2] l2] eqn:E2.
    apply (refines_bind _ _ _ _ _ _ _ (cons r <$> rs, A2, w2, l2)) with (1 := Hr).
    intros st1 Hf1 HA Hw _. specialize (IH st1 Hf1). rewrite HA, Hw, E2 in IH.
    by apply (refines_then _ (cons r)) in IH.
  - destruct Hr as (st' & E & Hw & Hc). exists st'. unfold tbind at 1. by rewrite E.
Qed.

End Session.
