(* ===== verification/DrvSessionTheorems.v ===== *)
(** * Theorems on the sessions of a driver process

    Refinement of the abstract state by every session, and what becomes of the
    commands that are sent to a controller. *)

From S2P Require Import Prelude TcTypes TcIpc TcServer TcLibTypes TcLib CacheKeys CacheTree CacheProps CacheOps CacheSpec CacheDelete CacheClient CacheTheorems DrvCtr DrvTxn DrvVote DrvRequest DrvSession.

Local Open Scope Z_scope.

(** The transaction handlers are a participant of the coordinator. *)

Lemma drivers_type {V W} `{ValueStruct V} (drivers : Z -> driver V W) key_sdf val_sdf key_struct
    val_struct others call (st : DrvState V W) :
  returns (fun p => UNC_CT_ODC = UNC_CT_ODC)
    (txn_Handle drivers key_sdf val_sdf key_struct val_struct others call st).
Proof.
  unfold txn_Handle. destruct (crashed st); [done|].
  destruct (txn_handle _ _ _ _ _ _ call st) as [[r st1] calls]. by apply prog_of_returns.
Qed.

Definition DriverTxnInterface {V W} `{ValueStruct V} (drivers : Z -> driver V W)
    (key_sdf val_sdf : Z -> string) (key_struct : ConfKey -> string) (val_struct : V -> string)
    (others : ControllerFramework V -> ControllerFramework V) : TcLibInterface (DrvState V W) := {|
  Handle := txn_Handle drivers key_sdf val_sdf key_struct val_struct others;
  controller_type _ := UNC_CT_ODC;
  controller_type_const := drivers_type drivers key_sdf val_sdf key_struct val_struct others
|}.

Section Theorems.

Context {V W : Type} `{ValueStruct V}.
Variables (drivers : Z -> driver V W) (S : services V W) (zero_val : V) (zero_key : Z -> ConfKey).
Variables (key_sdf val_sdf : Z -> string) (key_struct : ConfKey -> string) (val_struct : V -> string).
Variable others : ControllerFramework V -> ControllerFramework V.
Variable alloc : gmap loc (ConfigNode V) -> loc.
Variable new_address : gmap loc (controller V) -> loc.
Variable add_err : list Out -> Out -> Z.
Hypothesis one_phase : forall t, is_2ph_commit_support_needed (drivers t) = false.
Hypothesis alloc_fresh : forall h, h !! alloc h = None.

Notation run_ops := (run_ops drivers S zero_val zero_key key_sdf val_sdf key_struct val_struct others
                       alloc new_address add_err).
Notation ops_spec := (ops_spec drivers zero_val zero_key key_sdf val_sdf key_struct val_struct add_err).


(** ** Commands end to end *)

(** The request for a command. *)
Definition command_request (session_id config_id : Z) (name : string) (e : CacheElementUtil V)
    : Request V :=
  mkRequest
    [VU32 session_id; VU32 config_id; VStr name; VStr "(DEFAULT)"; VU32 (element_operation_ e); VU32 0;
     VU32 0; VU32 0; VU32 2; VU32 (get_key_type (key_ e))]
    (Some (key_ e)) (Some (value_ e)) false None.

(** Commands that are not refused at once. *)
Definition sendable (e : CacheElementUtil V) : Prop :=
  get_key_type (key_ e) ∈ kt_handler_map_ /\ element_operation_ e <> UNC_OP_READ /\
  match key_ e with KVtnFf ff => input_direction ff <> UPLL_FLOWFILTER_DIR_OUT | _ => True end.

Lemma sendable_spec sid cid name e A a :
  sendable e -> to_field name = name -> A !! name = Some a -> kept_up a = true ->
  exists r, request_spec zero_val zero_key key_sdf key_struct add_err (command_request sid cid name e) A
            = (r, <[name := add_pending e a]> A).
Proof.
  intros (Ht & _ & Hff) Hname HA Hup. unfold request_spec. cbn. rewrite Hname.
  rewrite (bool_decide_eq_true_2 (get_key_type (key_ e) ∈ _)) by done. unfold parse_request, key_argument. cbn.
  rewrite bool_decide_eq_true_2 by done.
  assert (mkElement (key_ e) (value_ e) (element_operation_ e) = e) as Ee by by destruct e.
  unfold execute_spec. destruct (key_ e) as [| | | | | | | | |ff| | | | | | | | |] eqn:Ek;
    try rewrite (bool_decide_eq_false_2 (input_direction ff = _)) by done; cbn;
    rewrite Ee, HA, Hup; eauto.
Qed.

Definition send (sid cid : Z) name (es : list (CacheElementUtil V)) : list (DrvOp (V := V)) :=
  (fun e => DRequest (command_request sid cid name e)) <$> es.

Lemma send_spec sid cid name es A a w rest :
  Forall sendable es -> to_field name = name -> A !! name = Some a -> kept_up a = true ->
  exists rs,
    ops_spec (send sid cid name es ++ rest) A w
    = let '(r, A2, w2, l2) :=
        ops_spec rest (<[name := foldl (fun a e => add_pending e a) a es]> A) w in
      (app rs <$> r, A2, w2, l2).
Proof.
  intros Hs Hname. revert A a. induction Hs as [|e es He Hs IH]; intros A a HA Hup.
  - exists []. cbn. rewrite insert_id by done. destruct (ops_spec rest A w) as [[[[r|] A2] w2] l2]; done.
  - destruct (sendable_spec sid cid name e A a He Hname HA Hup) as [r Er].
    destruct (IH (<[name := add_pending e a]> A) (add_pending e a)) as [rs Ers];
      [apply lookup_insert_eq|done|].
    exists (r :: rs). cbn [send fmap list_fmap app DrvSession.ops_spec op_spec foldl].
    rewrite Er. fold (send sid cid name es). rewrite Ers, insert_insert_eq.
    by destruct (ops_spec rest (<[name := foldl (fun a e => add_pending e a) (add_pending e a) es]> A) w)
      as [[[[r2|] A2] w2] l2].
Qed.

Lemma kept_commands (a : Kept (V := V)) es l :
  pending a = Some l ->
  foldl (fun a e => add_pending e a) a es
  = mkKept (kept_at a) (kept_driver a) (kept_up a) (kept_audited a) (Some (l ++ es)).
Proof.
  revert a l. induction es as [|e es IH]; intros a l Hl; cbn [foldl].
  - rewrite app_nil_r, <- Hl. by destruct a.
  - rewrite (IH _ (l ++ [e])); [|unfold add_pending; cbn; by rewrite Hl]. cbn.
    by rewrite <- app_assoc.
Qed.

(** C12: Commands that are sent to a controller, one or more of them, have
    been executed on it once each, in the order in which they were sent, when
    the vote of the driver process comes back; the vote and the global commit
    report success for the controller, and the state of the controllers is as
    before: nothing is left to execute. It takes that the controller is known,
    up and audited and its name has at most 31 characters, that nothing is
    pending for it, that the commands are of handled types and do not read,
    and that the driver, which has no two-phase commit, carries out every one
    of them with success. *)
Theorem sent_commands_executed (st : DrvState V W) (name : string) (a : Kept (V := V))
    (es : list (CacheElementUtil V)) (sid cid : Z) (w1 : W)
    (Hf : fw_ok (framework st)) (Ha : abstract (framework st) !! name = Some a)
    (Hup : kept_up a = true) (Hau : kept_audited a = true) (Hp : pending a = None)
    (Hname : to_field name = name) (Hes : es <> []) (Hs : Forall sendable es)
    (Hw : run_commands (drivers (kept_driver a)) (kept_at a) es (world st) = (None, w1)) :
  exists answers st',
    run_ops (send sid cid name es ++
             [DCall (HandleCommitVoteRequest_drv sid cid [name]);
              DCall (HandleCommitGlobalCommit_drv sid cid [name])]) st
    = (Some (answers ++ [ARet TC_SUCCESS; ARet TC_SUCCESS]), st',
       [TcLibWriteControllerInfo name RC_SUCCESS 0; TcLibWriteControllerInfo name RC_SUCCESS 0]) /\
    world st' = w1 /\ fw_ok (framework st') /\ abstract (framework st') = abstract (framework st).
Proof.
  set (calls := [DCall (HandleCommitVoteRequest_drv sid cid [name]);
                 DCall (HandleCommitGlobalCommit_drv sid cid [name])]).
  assert (Forall (fun o => in_session o = true) (send sid cid name es ++ calls)) as Hin.
  { apply Forall_app. split; [|repeat constructor]. apply Forall_fmap. eapply Forall_impl; [|exact Hs].
    intros e (Ht & Hr & _). cbn. unfold configures. cbn. rewrite bool_decide_eq_false_2 by done.
    assert (get_key_type (key_ e) <> UNC_KT_ROOT /\ get_key_type (key_ e) <> UNC_KT_CONTROLLER) as [H1 H2]
      by (split; by destruct (key_ e)).
    by rewrite !bool_decide_eq_false_2. }
  pose proof (ops_refine drivers S zero_val zero_key key_sdf val_sdf key_struct val_struct others alloc
    new_address add_err one_phase alloc_fresh _ st Hf Hin) as H1. unfold refines in H1.
  destruct (send_spec sid cid name es _ a (world st) calls Hs Hname Ha Hup) as [rs Ers].
  rewrite Ers in H1. clear Ers.
  assert (foldl (fun a e => add_pending e a) a es
          = mkKept (kept_at a) (kept_driver a) true true (Some es)) as Ek.
  { destruct es as [|e es]; [done|]. cbn [foldl]. rewrite (kept_commands _ es [e]).
    - cbn. by rewrite Hup, Hau.
    - unfold add_pending. cbn. by rewrite Hp. }
  rewrite Ek in H1.
  assert (ops_spec calls (<[name := mkKept (kept_at a) (kept_driver a) true true (Some es)]>
                            (abstract (framework st))) (world st)
          = (Some [ARet TC_SUCCESS; ARet TC_SUCCESS], abstract (framework st), w1,
             [TcLibWriteControllerInfo name RC_SUCCESS 0; TcLibWriteControllerInfo name RC_SUCCESS 0])) as Ec.
  { cbn [DrvSession.ops_spec op_spec calls call_spec]. unfold vote_call. cbn [vote_spec].
    rewrite lookup_insert_eq. unfold takes_part. cbn [kept_up kept_audited pending kept_driver kept_at].
    rewrite orb_true_r. cbn [andb]. destruct es as [|e es]; [done|]. rewrite Hw.
    rewrite insert_insert_eq. cbn [fmap option_fmap option_map app].
    rewrite insert_id by (rewrite Ha; destruct a; cbn in *; by subst).
    cbn [commit_reports]. rewrite Ha. unfold takes_part. by rewrite Hup, Hau, orb_true_r. }
  rewrite Ec in H1. destruct H1 as (st' & E & Hw' & Hf' & HA' & _). by exists rs, st'.
Qed.

End Theorems.

(** ** Witnesses *)

Module Sample.

#[local] Instance sample_value : ValueStruct Z := fun v => v.

(** Controllers remember the commands; a command whose value is 666 fails. *)
Definition Log : Type := list (loc * CacheElementUtil Z).
Definition remember (e : CacheElementUtil Z) (c : loc) (w : Log) : Z * Log :=
  if value_ e ==? 666 then (RC_ERR_GENERIC, w) else (RC_SUCCESS, w ++ [(c, e)]).
Definition odc : driver Z Log :=
  mkDriver false (fun _ w => (TC_SUCCESS, w)) (fun _ w => (TC_SUCCESS, w))
    (fun _ w => (TC_SUCCESS, w)) remember remember remember.
Definition no_services : services Z Log :=
  mkServices (fun _ _ _ _ w => (RC_SUCCESS, [], w)) (fun _ _ => None) (fun _ _ w => (true, w))
    (fun _ => true) (fun _ => true).

Definition ready_ctl (up : ConnectionStatus) : controller Z :=
  mkCtl None None true true exclusion_new true up.
Definition sample_fw : ControllerFramework Z :=
  mkFw {[1%positive := ready_ctl CONNECTION_UP; 2%positive := ready_ctl CONNECTION_UP]}
    {["c1"%string := mkContainer 1 3 true; "c2"%string := mkContainer 2 3 true]} {[3]} 40 [].
Definition sample_st : DrvState Z Log := mkDrv sample_fw [] false.

Lemma ready_ok up : ctl_ok (ready_ctl up).
Proof. split; [|done]. by split. Qed.

Lemma sample_fw_ok : fw_ok sample_fw.
Proof.
  assert (forall n ct, controller_list sample_fw !! n = Some ct ->
            n = "c1"%string /\ ctr ct = 1%positive \/ n = "c2"%string /\ ctr ct = 2%positive) as Hl.
  { intros n ct. cbn. rewrite lookup_insert_Some, lookup_singleton_Some.
    intros [[<- <-]|[_ [<- <-]]]; auto. }
  split.
  - intros n ct [[_ ->]|[_ ->]]%Hl; eexists; (split; [reflexivity|apply ready_ok]).
  - intros n1 n2 c1 c2 [[-> E1]|[-> E1]]%Hl [[-> E2]|[-> E2]]%Hl; rewrite E1, E2; done.
Qed.

Definition vtn (name : string) (v op : Z) : CacheElementUtil Z := mkElement (KVtn (mkVtn name)) v op.
Definition request_to (name : string) (e : CacheElementUtil Z) : DrvOp (V := Z) :=
  DRequest (command_request 5 1 name e).
Definition vote_on (names : list string) : DrvOp (V := Z) :=
  DCall (HandleCommitVoteRequest_drv 5 1 names).

Definition run (l : list (DrvOp (V := Z))) : option (list DrvAns) * DrvState Z Log * list ApiCall :=
  run_ops (fun _ => odc) no_services 0 (fun _ => KVtn (mkVtn "")) (fun _ => "key"%string)
    (fun _ => "val"%string) (fun _ => "k"%string) (fun _ => "v"%string) (fun fw => fw) next_address
    (fun _ => 1%positive) (fun _ _ => 0) l sample_st.

(** A vote that fails at its second controller, and one in which the controller
    that it does not know ends the process. *)
Definition sample_session (third : string) : list (DrvOp (V := Z)) :=
  [request_to "c1" (vtn "a" 1 UNC_OP_CREATE); request_to "c1" (vtn "a" 2 UNC_OP_UPDATE);
   request_to "c2" (vtn "a" 666 UNC_OP_CREATE); DPing "c2" false 5;
   request_to "c2" (vtn "a" 4 UNC_OP_CREATE); DPing "c2" true 5; vote_on ["c1"; "c2"; third]]%string.

Example failing_vote :
  let '(r, st, calls) := run (sample_session "c1") in
  (bool_decide (is_Some r), crashed st, world st, calls)
  = (true, false, [(1%positive, vtn "a" 1 UNC_OP_CREATE); (1%positive, vtn "a" 2 UNC_OP_UPDATE)],
     [TcLibWriteControllerInfo "c1" RC_SUCCESS 0; TcLibWriteControllerInfo "c2" RC_ERR_GENERIC 1;
      TcLibWriteKeyValueDataInfo "c2" UNC_KT_VTN "key" "val" "k" (Some "v"%string)]).
Proof. vm_compute. reflexivity. Qed.

Example unknown_controller_ends :
  let '(r, st, _) := run (sample_session "c3") in (r, crashed st) = (None, true).
Proof. vm_compute. reflexivity. Qed.

End Sample.

#[local] Existing Instance Sample.sample_value.


Lemma sent_commands_executed_witness :
  exists answers st',
    Sample.run (send 5 1 "c1" [Sample.vtn "a" 1 UNC_OP_CREATE; Sample.vtn "a" 2 UNC_OP_UPDATE] ++
             [DCall (HandleCommitVoteRequest_drv 5 1 ["c1"%string]);
              DCall (HandleCommitGlobalCommit_drv 5 1 ["c1"%string])])
    = (Some (answers ++ [ARet TC_SUCCESS; ARet TC_SUCCESS]), st',
       [TcLibWriteControllerInfo "c1" RC_SUCCESS 0; TcLibWriteControllerInfo "c1" RC_SUCCESS 0]) /\
    world st' = [(1%positive, Sample.vtn "a" 1 UNC_OP_CREATE); (1%positive, Sample.vtn "a" 2 UNC_OP_UPDATE)].
Proof.
  destruct (sent_commands_executed (fun _ => Sample.odc) Sample.no_services 0 (fun _ => KVtn (mkVtn ""))
    (fun _ => "key"%string) (fun _ => "val"%string) (fun _ => "k"%string) (fun _ => "v"%string)
    (fun fw => fw) next_address (fun _ => 1%positive) (fun _ _ => 0) (fun _ => eq_refl) next_address_fresh
    Sample.sample_st "c1" (mkKept 1 3 true true None)
    [Sample.vtn "a" 1 UNC_OP_CREATE; Sample.vtn "a" 2 UNC_OP_UPDATE] 5 1
    [(1%positive, Sample.vtn "a" 1 UNC_OP_CREATE); (1%positive, Sample.vtn "a" 2 UNC_OP_UPDATE)])
    as (answers & st' & E & Hw & _).
  - exact Sample.sample_fw_ok.
  - vm_compute. reflexivity.
  - reflexivity.
  - reflexivity.
  - reflexivity.
  - reflexivity.
  - discriminate.
  - repeat constructor; (apply (bool_decide_eq_true_1 _); vm_compute; reflexivity) || discriminate.
  - vm_compute. reflexivity.
  - exists answers, st'. split; [exact E|exact Hw].
Defined.
