(* ===== verification/DrvAudit.v ===== *)
(** * Audits of a controller

    The request for the configuration of a controller ([KtRequestHandler] for
    [UNC_KT_ROOT]): types are fetched from the driver level by level into a
    cache, and its entries are the response.  For drivers that only read, and
    whose answers belong where they were asked for, the response lists the
    whole configuration. *)

From S2P Require Import Prelude TcTypes TcIpc TcServer TcLibTypes TcLib CacheKeys CacheTree CacheProps CacheOps CacheSpec CacheDelete CacheClient CacheTheorems DrvCtr DrvTxn DrvVote DrvRequest DrvSession DrvSessionTheorems.

Local Open Scope Z_scope.

Section Grow.

Context {V : Type} `{ValueStruct V}.
Notation Entries := (gmap (Z * string) (CacheElementUtil V)).
Implicit Types (e p : CacheElementUtil V) (es : list (CacheElementUtil V)) (E : Entries).

(** ** Elements that are added *)

Definition grow1 E e : Entries :=
  match E !! ident e with Some _ => E | None => <[ident e := e]> E end.
Definition grow E es : Entries := foldl grow1 E es.

Lemma grow1_old E e i x : E !! i = Some x -> grow1 E e !! i = Some x.
Proof.
  intros Hi. unfold grow1. destruct (E !! ident e) eqn:He; [done|].
  rewrite lookup_insert_ne; [done|]. intros <-. congruence.
Qed.

Lemma grow_old E es i x : E !! i = Some x -> grow E es !! i = Some x.
Proof. revert E. induction es as [|e es IH]; intros E Hi; [done|]. by apply IH, grow1_old. Qed.

Lemma grow_inv E es i x :
  grow E es !! i = Some x -> E !! i = Some x \/ x ∈ es /\ ident x = i.
Proof.
  revert E. induction es as [|e es IH]; intros E; cbn; [by left|]. intros [Hi|[Hx Hi]]%IH.
  - unfold grow1 in Hi. destruct (E !! ident e); [by left|].
    apply lookup_insert_Some in Hi as [[<- <-]|[_ Hi]]; [right; split; [left|done]|by left].
  - right. split; [by right|done].
Qed.

Lemma grow_in E es e : e ∈ es -> is_Some (grow E es !! ident e).
Proof.
  revert E. induction es as [|e1 es IH]; intros E Hin; [by apply not_elem_of_nil in Hin|].
  apply elem_of_cons in Hin as [->|Hin]; [|by apply IH]. cbn.
  destruct (E !! ident e1) as [x|] eqn:Ex.
  - exists x. by apply grow_old, grow1_old.
  - exists e1. apply grow_old. unfold grow1. by rewrite Ex, lookup_insert_eq.
Qed.

Lemma grow_app E es1 es2 : grow E (es1 ++ es2) = grow (grow E es1) es2.
Proof. unfold grow. by rewrite foldl_app. Qed.

Lemma has_place_mono E E' e :
  (forall i, is_Some (E !! i) -> is_Some (E' !! i)) -> has_place e E = true -> has_place e E' = true.
Proof.
  intros Hs. unfold has_place. intros [Hr|Hp]%orb_prop; [by rewrite Hr|].
  apply bool_decide_eq_true in Hp. rewrite (bool_decide_eq_true_2 (is_Some (E' !! _))) by auto.
  by rewrite orb_true_r.
Qed.

Lemma append_list_grow E es :
  Forall (fun e => has_place e E = true) es -> spec_append_list es E = (UNC_RC_SUCCESS, grow E es).
Proof.
  revert E. induction es as [|e es IH]; intros E Hf; [done|].
  destruct (Forall_cons_1 _ _ _ Hf) as [He Hf'].
  cbn [spec_append_list grow foldl]. unfold spec_append. rewrite He.
  assert ((if bool_decide (is_Some (E !! ident e)) then (UNC_RC_SUCCESS, E)
           else (UNC_RC_SUCCESS, <[ident e := e]> E)) = (UNC_RC_SUCCESS, grow1 E e)) as ->.
  { unfold grow1. destruct (E !! ident e) as [x|] eqn:Ex.
    - by rewrite bool_decide_eq_true_2 by by eexists.
    - by rewrite bool_decide_eq_false_2 by by intros []. }
  apply IH. refine (Forall_impl _ _ Hf'). intros x. apply has_place_mono.
  intros i [y Hy]. exists y. by apply grow1_old.
Qed.

End Grow.

(** ** What an audit collects *)

Section Served.

Context {V : Type} `{ValueStruct V}.
Notation Entries := (gmap (Z * string) (CacheElementUtil V)).
Implicit Types (e p : CacheElementUtil V) (es l : list (CacheElementUtil V)) (E : Entries)
  (ts : list (Z * Z)) (kt pkt : Z).

(** What the driver answers: a type, below a parent or the root. *)
Variable F : Z -> option ConfKey -> list (CacheElementUtil V).

Definition asked kt pkt l : list (CacheElementUtil V) :=
  concat ((fun p => if pkt ==? get_key_type (key_ p) then F kt (Some (key_ p)) else []) <$> l).

(** The types are collected one after the other; the parents come in any order. *)
Inductive collected : list (Z * Z) -> Entries -> Entries -> Prop :=
| col_nil E : collected [] E E
| col_root kt rest E E' :
    collected rest (grow E (F kt None)) E' -> collected ((kt, UNC_KT_ROOT) :: rest) E E'
| col_child kt pkt rest l E E' :
    pkt <> UNC_KT_ROOT -> tagged l ≡ₚ map_to_list E ->
    collected rest (grow E (asked kt pkt l)) E' -> collected ((kt, pkt) :: rest) E E'.

(** The answers belong where they were asked for. *)
Record serves : Prop := {
  sv_root kt e : (kt, UNC_KT_ROOT) ∈ audit_key -> e ∈ F kt None ->
    get_key_type (key_ e) = kt /\ parent_ident e = root_ident;
  sv_child kt pkt p e : (kt, pkt) ∈ audit_key -> pkt <> UNC_KT_ROOT -> get_key_type (key_ p) = pkt ->
    e ∈ F kt (Some (key_ p)) -> get_key_type (key_ e) = kt /\ parent_ident e = ident p
}.

(** Where an element comes from. *)
Definition served E e : Prop :=
  (exists kt, (kt, UNC_KT_ROOT) ∈ audit_key /\ e ∈ F kt None) \/
  (exists kt pkt p, (kt, pkt) ∈ audit_key /\ pkt <> UNC_KT_ROOT /\ E !! ident p = Some p /\
     get_key_type (key_ p) = pkt /\ e ∈ F kt (Some (key_ p))).

Definition sound E : Prop := forall i e, E !! i = Some e -> ident e = i /\ served E e.

(** Everything that the driver has below something that is there is there. *)
Record complete ts E : Prop := {
  cm_root kt e : (kt, UNC_KT_ROOT) ∈ ts -> e ∈ F kt None -> is_Some (E !! ident e);
  cm_child kt pkt i p e : (kt, pkt) ∈ ts -> pkt <> UNC_KT_ROOT -> E !! i = Some p ->
    get_key_type (key_ p) = pkt -> e ∈ F kt (Some (key_ p)) -> is_Some (E !! ident e)
}.

(** Parents are collected before their children. *)
Fixpoint ordered ts : bool :=
  match ts with
  | [] => true
  | (kt, pkt) :: rest => bool_decide (pkt ∉ kt :: (fst <$> rest)) && ordered rest
  end.

Lemma served_mono E E' e :
  (forall i x, E !! i = Some x -> E' !! i = Some x) -> served E e -> served E' e.
Proof. intros Hs [Hr|(kt & pkt & p & ? & ? & Hp & ?)]; [by left|right]. exists kt, pkt, p. eauto. Qed.

Lemma collected_old ts E E' i x : collected ts E E' -> E !! i = Some x -> E' !! i = Some x.
Proof. induction 1; intros Hi; [done|..]; by apply IHcollected, grow_old. Qed.

Lemma asked_elem kt pkt l e :
  e ∈ asked kt pkt l <-> exists p, p ∈ l /\ get_key_type (key_ p) = pkt /\ e ∈ F kt (Some (key_ p)).
Proof.
  unfold asked. rewrite list_elem_of_In, in_concat. setoid_rewrite <- list_elem_of_In. split.
  - intros (x & Hx & He). apply list_elem_of_fmap in Hx as (p & -> & Hp). exists p.
    case_bool_decide; [done|]. by apply not_elem_of_nil in He.
  - intros (p & Hp & Ht & He). exists (F kt (Some (key_ p))). split; [|done].
    apply list_elem_of_fmap. exists p. by rewrite bool_decide_eq_true_2.
Qed.

Lemma tagged_elem l E p : tagged l ≡ₚ map_to_list E -> p ∈ l <-> E !! ident p = Some p.
Proof.
  intros Hl. split.
  - intros Hp. apply elem_of_map_to_list. rewrite <- Hl. apply list_elem_of_fmap. eauto.
  - intros Hp. apply elem_of_map_to_list in Hp. rewrite <- Hl in Hp.
    apply list_elem_of_fmap in Hp as (q & Eq & Hq).
    apply (f_equal snd) in Eq. cbn in Eq. by subst q.
Qed.

Lemma grow_sound E es :
  sound E -> (forall e, e ∈ es -> served E e) -> sound (grow E es).
Proof.
  intros Hs He i e Hi. destruct (grow_inv _ _ _ _ Hi) as [Ho|[Hin Hid]].
  - destruct (Hs _ _ Ho) as [? Hv]. split; [done|]. eapply served_mono; [|exact Hv]. apply grow_old.
  - split; [done|]. eapply served_mono; [|by apply He]. apply grow_old.
Qed.

Lemma collected_sound ts E E' : collected ts E E' -> ts ⊆ audit_key -> sound E -> sound E'.
Proof.
  induction 1 as [|kt rest E E' Hc IH|kt pkt rest l E E' Hp Hl Hc IH]; intros Hts Hs; [done|..];
    (apply IH; [set_solver|]); apply grow_sound; try done.
  - intros e He. left. exists kt. split; [set_solver|done].
  - intros e (p & Hin & Ht & He)%asked_elem. right. exists kt, pkt, p.
    apply (tagged_elem _ _ _ Hl) in Hin. split_and!; [set_solver|done..].
Qed.

Lemma collected_types ts E E' i x :
  serves -> collected ts E E' -> ts ⊆ audit_key -> E' !! i = Some x ->
  E !! i = Some x \/ get_key_type (key_ x) ∈ fst <$> ts.
Proof.
  intros Hsv. induction 1 as [|kt rest E E' Hc IH|kt pkt rest l E E' Hp Hl Hc IH]; intros Hts Hi; [by left|..].
  - destruct IH as [Ho|Ht]; [set_solver|done| |right; set_solver].
    apply grow_inv in Ho as [Ho|[Hin _]]; [by left|right].
    destruct (sv_root Hsv kt x) as [-> _]; [set_solver|done|set_solver].
  - destruct IH as [Ho|Ht]; [set_solver|done| |right; set_solver].
    apply grow_inv in Ho as [Ho|[Hin _]]; [by left|right]. apply asked_elem in Hin as (p & _ & Ht & He).
    destruct (sv_child Hsv kt pkt p x) as [-> _]; [set_solver|done|done|done|set_solver].
Qed.

Lemma collected_complete ts E E' :
  serves -> collected ts E E' -> ts ⊆ audit_key -> ordered ts = true -> sound E' -> complete ts E'.
Proof.
  intros Hsv. induction 1 as [|kt rest E E' Hc IH|kt pkt rest l E E' Hp Hl Hc IH]; intros Hts Ho Hs.
  - split; intros * Hin; by apply not_elem_of_nil in Hin.
  - cbn in Ho. apply andb_prop in Ho as [_ Ho]. destruct IH as [IHr IHc]; [set_solver|done|done|]. split.
    + intros kt1 e [[= ->]|Hin]%elem_of_cons He; [|by eapply IHr].
      destruct (grow_in E (F kt None) e He) as [x Hx]. exists x. by eapply collected_old.
    + intros kt1 pkt1 i p e [[= -> ->]|Hin]%elem_of_cons; [done|]. by apply IHc.
  - cbn [ordered] in Ho. apply andb_prop in Ho as [Hfresh Ho]. apply bool_decide_eq_true in Hfresh.
    destruct IH as [IHr IHc]; [set_solver|done|done|]. split.
    + intros kt1 e [[= -> ?]|Hin]%elem_of_cons He; [done|by eapply IHr].
    + intros kt1 pkt1 i p e [[= -> ->]|Hin]%elem_of_cons Hr Hi Ht He; [|by eapply IHc].
      destruct (Hs _ _ Hi) as [Hid _].
      destruct (collected_types ((kt, pkt) :: rest) E E' i p Hsv) as [Hold|Hn]; [by econstructor|done|done| |].
      2:{ exfalso. apply Hfresh. by rewrite <- Ht. }
      destruct (grow_in E (asked kt pkt l) e) as [x Hx]; [|exists x; by eapply collected_old].
      apply asked_elem. exists p. split_and!; [|done..]. apply (tagged_elem _ _ _ Hl). by rewrite Hid.
Qed.

End Served.

(** ** The runs *)

Section Runs.

Context {V W : Type} `{ValueStruct V}.
Variable S : services V W.
Variable alloc : gmap loc (ConfigNode V) -> loc.
Hypothesis alloc_fresh : forall h, h !! alloc h = None.
Implicit Types (c : loc) (kc : controller V) (st : DrvState V W) (cache : KeyTree V)
  (e : CacheElementUtil V) (es : list (CacheElementUtil V)).

Definition hold c kc (w : W) st cache : DrvState V W :=
  put c (set_controller_cache kc (Some cache)) w st.

Lemma cache_do_run {A : Type} c kc w st (f : K V A) cache a cache1 :
  f cache = Some (a, cache1) ->
  cache_do c f (hold c kc w st cache) = (Some a, hold c kc w st cache1, []).
Proof.
  intros E. unfold cache_do, hold. rewrite (tbind_run0 _ _ _ _ _ (load_ctr_run _ _ _ _)).
  cbn [controller_cache set_controller_cache]. rewrite E.
  by rewrite (tbind_run0 _ _ _ _ _ (change_run _ _ _ _ _)).
Qed.

Lemma cache_get_run {A : Type} c kc w st (f : KeyTree V -> A) cache :
  cache_do c (kget f) (hold c kc w st cache) = (Some (f cache), hold c kc w st cache, []).
Proof. by apply cache_do_run. Qed.

Variable F : Z -> option ConfKey -> list (CacheElementUtil V).
Variables (c : loc) (d : Z) (w : W) (st : DrvState V W) (kc : controller V).
Hypothesis fetches : forall kt parent, fetch_config S d kt c parent w = (RC_SUCCESS, F kt parent, w).
Hypothesis Hsv : serves F.

Notation at_ := (hold c kc w st).

Lemma fetched_run kt parent cache :
  (fun st => let '(code, es, w1) := fetch_config S d kt c parent (world st) in
   (Some (code, es), mkDrv (framework st) w1 (crashed st), [])) (at_ cache)
  = (Some (RC_SUCCESS, F kt parent), at_ cache, [] : list ApiCall).
Proof. cbn [world at_ hold put]. by rewrite fetches. Qed.

(** Elements that have a place are added. *)
Lemma added_run es cache :
  cache_ok cache -> Forall (fun e => has_place e (entries cache) = true) es ->
  exists r cache',
    cache_do c (let@ ps := new_nodes alloc es in append_audit_configuration_list (Some <$> ps)) (at_ cache)
    = (Some r, at_ cache', []) /\
    cache_ok cache' /\ entries cache' = grow (entries cache) es /\
    cfg_node_list_ cache' = cfg_node_list_ cache /\
    (forall x a, node_element (heap cache) x = Some a -> node_element (heap cache') x = Some a).
Proof.
  intros Hok Hp. destruct (append_new_run alloc alloc_fresh es cache Hok) as (r & k' & E & Hok' & Hs & Hl & He).
  exists r, k'. rewrite (cache_do_run _ _ _ _ _ _ _ _ E). rewrite append_list_grow in Hs by done.
  injection Hs as _ Hs. done.
Qed.

Lemma placed kt pkt p cache :
  (kt, pkt) ∈ audit_key -> pkt <> UNC_KT_ROOT -> get_key_type (key_ p) = pkt ->
  is_Some (entries cache !! ident p) ->
  Forall (fun e => has_place e (entries cache) = true) (F kt (Some (key_ p))).
Proof.
  intros Hin Hr Ht Hp. apply list.Forall_forall. intros e He. unfold has_place.
  destruct (sv_child F Hsv kt pkt p e) as [_ ->]; [done..|].
  rewrite (bool_decide_eq_true_2 (is_Some _)) by done. by rewrite orb_true_r.
Qed.

(** One parent. *)
Lemma fetch_parent kt pkt p cache :
  cache_ok cache -> (kt, pkt) ∈ audit_key -> pkt <> UNC_KT_ROOT -> get_key_type (key_ p) = pkt ->
  is_Some (entries cache !! ident p) ->
  exists cache',
    (match F kt (Some (key_ p)) with
     | [] => tret tt
     | es => do& cache_do c (let@ ps := new_nodes alloc es in
                   append_audit_configuration_list (Some <$> ps)) in tret tt
     end) (at_ cache) = (Some tt, at_ cache', []) /\
    cache_ok cache' /\ entries cache' = grow (entries cache) (F kt (Some (key_ p))) /\
    cfg_node_list_ cache' = cfg_node_list_ cache /\
    (forall x a, node_element (heap cache) x = Some a -> node_element (heap cache') x = Some a).
Proof.
  intros Hok Hin Hr Ht Hp. pose proof (placed kt pkt p cache Hin Hr Ht Hp) as Hpl.
  destruct (F kt (Some (key_ p))) as [|e es]; [by exists cache|].
  destruct (added_run (e :: es) cache Hok Hpl) as (r & cache' & E & Hrest).
  exists cache'. by rewrite (tbind_run0 _ _ _ _ _ E).
Qed.

Definition vector cache es : Prop :=
  Forall2 (fun p e => node_element (heap cache) p = Some e) (cfg_node_list_ cache) es /\
  Forall (fun e => is_Some (entries cache !! ident e)) es.

Lemma fetch_children_run kt pkt rounds i resp cache es :
  (kt, pkt) ∈ audit_key -> pkt <> UNC_KT_ROOT -> cache_ok cache -> vector cache es ->
  (length (cfg_node_list_ cache) <= i + rounds)%nat -> resp = RC_SUCCESS ->
  exists cache',
    fetch_children S alloc rounds d kt pkt c i (cfg_node_list_ cache !! i) resp (at_ cache)
    = (Some (inr RC_SUCCESS), at_ cache', []) /\
    cache_ok cache' /\ entries cache' = grow (entries cache) (asked F kt pkt (drop i es)).
Proof.
  intros Hin Hr. revert i resp cache. induction rounds as [|r IH]; intros i resp cache Hok [Hv Hen] Hl ->;
    pose proof (list.Forall2_length _ _ _ Hv) as Hlen; cbn [fetch_children]; unfold IsDone;
    rewrite (tbind_run0 _ _ _ _ _ (cache_get_run _ _ _ _ _ _));
    case_bool_decide as Hi; cbn [negb]; try lia;
    try (exists cache; split_and!; [done..|]; by rewrite drop_ge by lia).
  apply lookup_lt_is_Some in Hi as [q Hq]. rewrite Hq.
  destruct (list.Forall2_lookup_l _ _ _ _ _ Hv Hq) as (p & Hpi & Hp). cbn beta in Hp.
  rewrite (drop_S _ p i Hpi). rewrite (tbind_run0 _ _ _ _ _ (cache_get_run _ _ _ _ _ _)).
  assert ((p0 ← Some q; n ← heap cache !! p0; element n) = Some p) as Ep.
  { unfold node_element in Hp. cbn. by destruct (heap cache !! q). }
  rewrite Ep. assert (is_Some (entries cache !! ident p)) as Hpe.
  { rewrite list.Forall_forall in Hen. apply Hen. by eapply list_elem_of_lookup_2. }
  unfold asked. rewrite fmap_cons. cbn [concat]. fold (asked F kt pkt (drop (Datatypes.S i) es)).
  assert (forall x, (pkt ==? x) = true -> pkt = x) as Heq by (intros x Hx; by apply bool_decide_eq_true in Hx).
  destruct (pkt ==? get_key_type (key_ p)) eqn:Et.
  - apply Heq in Et. rewrite (tbind_run0 _ _ _ _ _ (fetched_run kt (Some (key_ p)) cache)).
    cbn [fst snd]. rewrite (bool_decide_eq_true_2 (RC_SUCCESS = RC_SUCCESS)) by done. cbn [negb].
    destruct (fetch_parent kt pkt p cache Hok Hin Hr (eq_sym Et) Hpe) as (cache1 & E & Hok1 & He1 & Hl1 & Hn1).
    rewrite (tbind_run0 _ _ _ _ _ E).
    rewrite (tbind_run0 _ _ _ _ _ (cache_do_run _ _ _ _ _ _ _ _ (next_item_run cache1 i))). cbn [fst snd].
    destruct (IH (Datatypes.S i) RC_SUCCESS cache1 Hok1) as (cache' & E' & Hok' & He'); [|rewrite Hl1; lia|done|].
    { split.
      - rewrite Hl1. refine (list.Forall2_impl _ _ _ _ Hv _). intros; by apply Hn1.
      - refine (Forall_impl _ _ Hen). intros x [y Hy]. rewrite He1. exists y. by apply grow_old. }
    exists cache'. split_and!; [done..|]. by rewrite He', He1, grow_app.
  - rewrite (tbind_run0 _ _ _ _ _ (cache_do_run _ _ _ _ _ _ _ _ (next_item_run cache i))). cbn [fst snd].
    destruct (IH (Datatypes.S i) RC_SUCCESS cache Hok) as (cache' & E' & Hok' & He'); [by split|lia|done|].
    by exists cache'.
Qed.

Lemma in_order_vector cache :
  cache_ok cache ->
  vector (set_list (in_order cache) cache) (elems (heap cache) (in_order cache)) /\
  tagged (elems (heap cache) (in_order cache)) ≡ₚ map_to_list (entries cache).
Proof.
  intros Hok. pose proof (in_order_entries cache Hok) as Ht. split; [split|done].
  - cbn [cfg_node_list_ set_list heap].
    assert (forall p, p ∈ in_order cache -> is_Some (node_element (heap cache) p)) as Hs.
    { intros p (n & e & Hn & He & _)%(in_order_elem cache Hok). exists e. unfold node_element. by rewrite Hn. }
    clear Ht. unfold elems. revert Hs. generalize (in_order cache) as l.
    induction l as [|p l IH]; intros Hs; [constructor|]. destruct (Hs p) as [e He]; [by left|]. cbn [omap list_omap]. rewrite He.
    constructor; [done|]. apply IH. intros q Hq. apply Hs. by right.
  - apply list.Forall_forall. intros e He. exists e. by apply (tagged_elem _ _ _ Ht).
Qed.

Lemma fetch_root_run kt rest resp cache :
  (kt, UNC_KT_ROOT) ∈ audit_key -> cache_ok cache ->
  exists cache1, cache_ok cache1 /\ entries cache1 = grow (entries cache) (F kt None) /\
    fetch_types S alloc ((kt, UNC_KT_ROOT) :: rest) d c resp (at_ cache)
    = fetch_types S alloc rest d c RC_SUCCESS (at_ cache1).
Proof.
  intros Hin Hok.
  destruct (added_run (F kt None) cache Hok) as (r & cache1 & E & Hok1 & He1 & _).
  { apply list.Forall_forall. intros e He. unfold has_place.
    destruct (sv_root F Hsv kt e) as [_ ->]; [done..|]. by rewrite bool_decide_eq_true_2. }
  exists cache1. split_and!; [done..|]. cbn [fetch_types].
  rewrite (bool_decide_eq_true_2 (UNC_KT_ROOT = UNC_KT_ROOT)) by done.
  rewrite (tbind_run0 _ _ _ _ _ (fetched_run kt None cache)).
  cbn [fst snd]. rewrite (bool_decide_eq_true_2 (RC_SUCCESS = RC_SUCCESS)) by done. cbn [negb].
  by rewrite (tbind_run0 _ _ _ _ _ E).
Qed.

Lemma fetch_types_run ts cache :
  ts ⊆ audit_key -> cache_ok cache ->
  exists cache', fetch_types S alloc ts d c RC_SUCCESS (at_ cache) = (Some RC_SUCCESS, at_ cache', []) /\
    cache_ok cache' /\ collected F ts (entries cache) (entries cache').
Proof.
  revert cache. induction ts as [|[kt pkt] ts IH]; intros cache Hts Hok.
  { exists cache. split_and!; [done..|constructor]. }
  destruct (decide (pkt = UNC_KT_ROOT)) as [->|Hr].
  - destruct (fetch_root_run kt ts RC_SUCCESS cache) as (cache1 & Hok1 & He1 & ->); [set_solver|done|].
    destruct (IH cache1) as (cache' & E & Hok' & Hc); [set_solver|done|].
    exists cache'. split_and!; [done..|]. constructor. by rewrite <- He1.
  - cbn [fetch_types]. rewrite (bool_decide_eq_false_2 (pkt = UNC_KT_ROOT)) by done.
    rewrite (tbind_run0 _ _ _ _ _ (cache_do_run _ _ _ _ _ _ _ _ (AuditFirstItem_run cache Hok))).
    rewrite (tbind_run0 _ _ _ _ _ (cache_get_run _ _ _ _ _ _)). cbn [fst snd].
    destruct (in_order_vector cache Hok) as [Hv Ht].
    destruct (fetch_children_run kt pkt (length (in_order cache)) 0 RC_SUCCESS
      (set_list (in_order cache) cache) _ ltac:(set_solver) Hr (in_order_ok cache Hok) Hv) as (cache1 & E & Hok1 & He1);
      [done|done|].
    rewrite (tbind_run0 _ _ _ _ _ E). destruct (IH cache1) as (cache' & E' & Hok' & Hc); [set_solver|done|].
    exists cache'. split_and!; [done..|]. eapply col_child; [done|exact Ht|]. rewrite drop_0 in He1.
    change (entries cache) with (entries (set_list (in_order cache) cache)). by rewrite <- He1.
Qed.

(** All types, into a new cache. *)
Lemma fetch_all_run resp :
  exists cache', fetch_types S alloc audit_key d c resp (at_ (KeyTree_new ∅)) = (Some RC_SUCCESS, at_ cache', []) /\
    cache_ok cache' /\ collected F audit_key ∅ (entries cache').
Proof.
  destruct (fetch_root_run UNC_KT_VTN (drop 1 audit_key) resp (KeyTree_new ∅)) as (cache1 & Hok1 & He1 & E1);
    [by left|apply new_cache_ok|].
  change audit_key with ((UNC_KT_VTN, UNC_KT_ROOT) :: drop 1 audit_key) at 1. rewrite E1.
  destruct (fetch_types_run (drop 1 audit_key) cache1) as (cache' & E & Hok' & Hc);
    [apply subseteq_drop|done|].
  exists cache'. split_and!; [done..|].
  change audit_key with ((UNC_KT_VTN, UNC_KT_ROOT) :: drop 1 audit_key). constructor.
  by rewrite <- (new_cache_entries (V := V)), <- He1.
Qed.

(** ** The response *)

Variable add_err : list Out -> Out -> Z.
Hypothesis no_error : forall s o, add_err s o = 0.

Lemma add_run o (s : list Out) : addOutput add_err o s = (0, s ++ [o]).
Proof. unfold addOutput. by rewrite no_error. Qed.

Lemma add_all_run l (s : list Out) : add_all add_err l s = (true, s ++ l).
Proof.
  revert s. induction l as [|o l IH]; intros s; [by rewrite app_nil_r|]. cbn [add_all].
  rewrite add_run. cbn. by rewrite IH, <- app_assoc.
Qed.

Variables (key_sdf val_sdf : Z -> string) (key_struct : ConfKey -> string) (val_struct : V -> string).

Definition entry_out e : list Out :=
  let t := get_key_type (key_ e) in
  [OVal (VU32 t); OVal (VStruct (key_sdf t) (key_struct (key_ e)));
   OVal (VStruct (val_sdf t) (val_struct (value_ e)))].
(** Entries are separated by empty outputs. *)
Fixpoint entries_out (first : bool) es : list Out :=
  match es with
  | [] => []
  | e :: rest => (if first then [] else [OEmpty]) ++ entry_out e ++ entries_out false rest
  end.

Lemma audit_entries_run rounds i first s cache es :
  vector cache es -> Forall (fun e => get_key_type (key_ e) ∈ kt_handler_map_) es ->
  (length (cfg_node_list_ cache) <= i + rounds)%nat ->
  audit_entries key_sdf val_sdf key_struct val_struct add_err rounds c i (cfg_node_list_ cache !! i)
    first s (at_ cache)
  = (Some (true, s ++ entries_out first (drop i es)), at_ cache, []).
Proof.
  intros [Hv _] Hk. pose proof (list.Forall2_length _ _ _ Hv) as Hlen.
  revert i first s. induction rounds as [|r IH]; intros i first s Hl; cbn [audit_entries]; unfold IsDone;
    rewrite (tbind_run0 _ _ _ _ _ (cache_get_run _ _ _ _ _ _));
    case_bool_decide as Hi; cbn [negb]; try lia;
    try (rewrite drop_ge by lia; cbn [entries_out]; by rewrite app_nil_r).
  apply lookup_lt_is_Some in Hi as [q Hq]. rewrite Hq.
  destruct (list.Forall2_lookup_l _ _ _ _ _ Hv Hq) as (e & He & Hp). cbn beta in Hp.
  rewrite (drop_S _ e i He), (tbind_run0 _ _ _ _ _ (cache_get_run _ _ _ _ _ _)).
  assert ((n ← heap cache !! q; element n) = Some e) as Ee by exact Hp. rewrite Ee, add_run.
  assert (get_key_type (key_ e) ∈ kt_handler_map_) as Ht.
  { rewrite list.Forall_forall in Hk. apply Hk. by eapply list_elem_of_lookup_2. }
  cbn [negb]. rewrite (bool_decide_eq_true_2 (0 = 0)) by done. cbn [negb].
  rewrite (bool_decide_eq_true_2 (_ ∈ kt_handler_map_)), add_all_run by done.
  rewrite (tbind_run0 _ _ _ _ _ (cache_do_run _ _ _ _ _ _ _ _ (next_item_run cache i))). cbn [fst snd].
  rewrite IH by lia. cbn [entries_out]. unfold entry_out.
  destruct first; rewrite ?add_run; cbn [snd app]; by rewrite <- !app_assoc.
Qed.

Lemma delete_cache_any kk :
  (forall cache, controller_cache kk = Some cache -> cache_ok cache) ->
  delete_cache c (put c kk w st) = (Some tt, put c (set_controller_cache kk None) w st, []).
Proof.
  intros Hc. unfold delete_cache. rewrite (tbind_run0 _ _ _ _ _ (load_ctr_run _ _ _ _)).
  destruct (controller_cache kk) as [cache|] eqn:E.
  - rewrite destroy_run by auto. by rewrite change_run.
  - unfold tret. repeat f_equal. destruct kk. cbn in *. by subst.
Qed.

End Runs.


(** ** The audit *)

Section Audit.

Context {V W : Type} `{ValueStruct V}.
Variables (drivers : Z -> driver V W) (S : services V W) (zero_val : V) (zero_key : Z -> ConfKey).
Variables (key_sdf val_sdf : Z -> string) (key_struct : ConfKey -> string) (val_struct : V -> string).
Variable others : ControllerFramework V -> ControllerFramework V.
Variable alloc : gmap loc (ConfigNode V) -> loc.
Variable new_address : gmap loc (controller V) -> loc.
Variable add_err : list Out -> Out -> Z.
Hypothesis alloc_fresh : forall h, h !! alloc h = None.
Hypothesis no_error : forall s o, add_err s o = 0.
Implicit Types (h : odl_drv_request_header_t) (cache : KeyTree V) (l : list (CacheElementUtil V)).

Variable F : Z -> option ConfKey -> list (CacheElementUtil V).
Variables (st : DrvState V W) (ct : ControllerContainer) (k : controller V) (h : odl_drv_request_header_t).
Hypothesis fetches : forall kt parent,
  fetch_config S (drv ct) kt (ctr ct) parent (world st) = (RC_SUCCESS, F kt parent, world st).
Hypothesis Hsv : serves F.
Hypothesis Hn : controller_list (framework st) !! rq_controller_name h = Some ct.
Hypothesis Hk : ctrs (framework st) !! ctr ct = Some k.
Hypothesis Hok : ctl_ok k.

Lemma execute_root_run :
  exists cache, execute_root S others alloc h st
    = (Some RC_SUCCESS, put (ctr ct) (set_controller_cache k (Some cache)) (world st) st, []) /\
    cache_ok cache /\ collected F audit_key ∅ (entries cache).
Proof.
  destruct (fetch_all_run S alloc alloc_fresh F (ctr ct) (drv ct) (world st) st (writing k) fetches Hsv
    RC_ERR_GENERIC) as (cache & E & Hc & Hcol).
  exists cache. split_and!; [|done..].
  eapply write_run; [exact Hn|exact Hk|apply Hok|done|]. cbn [deref].
  rewrite (tbind_run0 _ _ _ _ _ (delete_cache_run _ _ _ _ (fun x Hx => proj1 (ok_cache _ Hok x Hx)))).
  rewrite (tbind_run0 _ _ _ _ _ (change_run _ _ _ _ _)).
  rewrite (tbind_run0 _ _ _ (drv ct)
    (hold (ctr ct) (writing k) (world st) st (KeyTree_new ∅))); [exact E|].
  unfold driver_number, tbind, fw_get. cbn. by rewrite Hn.
Qed.

(** Types that are fetched have handlers. *)
Lemma collected_handled E i e :
  collected F audit_key ∅ E -> E !! i = Some e -> get_key_type (key_ e) ∈ kt_handler_map_.
Proof.
  intros Hc Hi. destruct (collected_types F audit_key ∅ E i e Hsv Hc) as [Hm|Ht]; [done|done| |].
  { by rewrite lookup_empty in Hm. }
  revert Ht. generalize (get_key_type (key_ e)). apply list.Forall_forall.
  apply (bool_decide_eq_true_1 _). vm_compute. reflexivity.
Qed.

Definition audit_response l : list Out :=
  header_outputs (create_response_header h RC_SUCCESS) ++ [OVal (VU32 RC_SUCCESS)] ++
  entries_out key_sdf val_sdf key_struct val_struct true l.

Lemma response_root_run cache :
  h_data_type (rq_header h) = UNC_DT_RUNNING ->
  cache_ok cache -> collected F audit_key ∅ (entries cache) ->
  handle_response_root key_sdf val_sdf key_struct val_struct others add_err h RC_SUCCESS []
    (put (ctr ct) (set_controller_cache k (Some cache)) (world st) st)
  = (Some (RC_SUCCESS, audit_response (elems (heap cache) (in_order cache))),
     put (ctr ct) (set_controller_cache k None) (world st) st, []).
Proof.
  intros Hd Hc Hcol. unfold handle_response_root, populate_response_header.
  rewrite (add_all_run add_err no_error). cbn [app create_response_header rs_header rs_result rs_controller_name].
  rewrite Hd, (bool_decide_eq_true_2 (UNC_DT_RUNNING = _)) by done.
  eapply (read_run others _ ct (set_controller_cache k (Some cache))); [exact Hn|apply lookup_insert_eq|apply Hok|done|].
  rewrite put_put. rewrite (tbind_run0 _ _ _ _ _ (load_ctr_run _ _ _ _)).
  cbn [reading set_access set_controller_cache controller_cache].
  rewrite (bool_decide_eq_false_2 (RC_SUCCESS = RC_NO_SUCH_INSTANCE)) by done. rewrite andb_false_r.
  rewrite (bool_decide_eq_true_2 (RC_SUCCESS = RC_SUCCESS)) by done. cbn [negb].
  rewrite (add_run add_err no_error), (bool_decide_eq_true_2 (0 = 0)) by done. cbn [negb].
  rewrite (tbind_run0 _ _ _ _ _ (cache_do_run (ctr ct) (reading k) (world st) st _ _ _ _ (AuditFirstItem_run cache Hc))).
  rewrite (tbind_run0 _ _ _ _ _ (cache_get_run _ _ _ _ _ _)). cbn [fst snd].
  destruct (in_order_vector cache Hc) as [Hv Ht].
  assert (Forall (fun e => get_key_type (key_ e) ∈ kt_handler_map_) (elems (heap cache) (in_order cache))) as Hh.
  { apply list.Forall_forall. intros e He. eapply collected_handled; [done|]. by apply (tagged_elem _ _ _ Ht). }
  rewrite (tbind_run0 _ _ _ _ _ (audit_entries_run (ctr ct) (world st) st (reading k) add_err no_error key_sdf
    val_sdf key_struct val_struct (length (in_order cache)) 0 true _ (set_list (in_order cache) cache) _ Hv Hh
    (le_n _))).
  assert (forall x, Some (set_list (in_order cache) cache) = Some x -> cache_ok x) as Hx.
  { intros x [= <-]. by apply in_order_ok. }
  unfold hold. rewrite (tbind_run0 _ _ _ _ _ (delete_cache_any _ _ _
    (set_controller_cache (reading k) (Some (set_list (in_order cache) cache))) Hx)).
  cbn [fst snd]. unfold audit_response. rewrite drop_0, <- app_assoc. done.
Qed.

Lemma audit_run rq :
  get_request_header (rq_args rq) = Some h -> rq_key_type h = UNC_KT_ROOT ->
  h_data_type (rq_header h) = UNC_DT_RUNNING ->
  exists cache,
    ipcService drivers S zero_val key_sdf val_sdf key_struct val_struct others alloc new_address add_err
      zero_key rq st
    = (Some (RC_SUCCESS, audit_response (elems (heap cache) (in_order cache))),
       put (ctr ct) (set_controller_cache k None) (world st) st, []) /\
    cache_ok cache /\ collected F audit_key ∅ (entries cache).
Proof.
  intros Hh Ht Hd. destruct execute_root_run as (cache & E & Hc & Hcol). exists cache. split_and!; [|done..].
  unfold ipcService, handle_request. rewrite Hh, Ht.
  rewrite (bool_decide_eq_true_2 (UNC_KT_ROOT = UNC_KT_ROOT)) by done. cbn [negb]. rewrite andb_false_r. cbn [andb].
  replace (bool_decide (UNC_KT_ROOT ∈ kt_handler_map_)) with true by by vm_compute.
  rewrite (tbind_run0 _ _ _ (RC_SUCCESS, audit_response (elems (heap cache) (in_order cache)))
    (put (ctr ct) (set_controller_cache k None) (world st) st)); [done|].
  rewrite (tbind_run0 _ _ _ _ _ E). by apply response_root_run.
Qed.

End Audit.

(** The elements of the cache, in order. *)
Lemma listed {V} `{ValueStruct V} (F : Z -> option ConfKey -> list (CacheElementUtil V)) (cache : KeyTree V) :
  serves F -> cache_ok cache -> collected F audit_key ∅ (entries cache) ->
  let l := elems (heap cache) (in_order cache) in
  NoDup (ident <$> l) /\ parents_first [root_ident] l /\
  (forall e, e ∈ l ->
     (exists kt, (kt, UNC_KT_ROOT) ∈ audit_key /\ e ∈ F kt None) \/
     (exists kt p, p ∈ l /\ (kt, get_key_type (key_ p)) ∈ audit_key /\ e ∈ F kt (Some (key_ p)))) /\
  (forall kt e, (kt, UNC_KT_ROOT) ∈ audit_key -> e ∈ F kt None -> ident e ∈ ident <$> l) /\
  (forall kt p e, p ∈ l -> (kt, get_key_type (key_ p)) ∈ audit_key -> e ∈ F kt (Some (key_ p)) ->
     ident e ∈ ident <$> l).
Proof.
  intros Hsv Hc Hcol l. destruct (in_order_vector cache Hc) as [_ Ht]. fold l in Ht.
  pose proof (tagged_elem l (entries cache)) as Hin.
  assert (sound F (entries cache)) as Hso.
  { apply (collected_sound F audit_key ∅); [done|done|]. intros i e Hi. by rewrite lookup_empty in Hi. }
  destruct (collected_complete F audit_key ∅ (entries cache) Hsv Hcol) as [Hcr Hcc];
    [done|vm_compute; reflexivity|done|].
  assert (forall i, is_Some (entries cache !! i) -> i ∈ ident <$> l) as Hid.
  { intros i [e He]. apply list_elem_of_fmap. exists e. destruct (Hso _ _ He) as [<- _].
    split; [done|]. by apply Hin. }
  split_and!.
  - assert (ident <$> l = (tagged l).*1) as ->.
    { unfold tagged. by rewrite <- list_fmap_compose. }
    rewrite Ht. apply NoDup_fst_map_to_list.
  - by apply in_order_parents.
  - intros e He. apply Hin in He; [|done]. destruct (Hso _ _ He) as [_ [Hr|(kt & pkt & p & ? & ? & Hp & <- & ?)]];
      [by left|right]. exists kt, p. split; [by apply Hin|done].
  - intros kt e Hkt He. apply Hid. by eapply Hcr.
  - intros kt p e Hp Hkt He. apply Hid. apply Hin in Hp; [|done]. eapply Hcc; [exact Hkt| |exact Hp|done|done].
    by destruct (key_ p).
Qed.

Section Listing.

Context {V W : Type} `{ValueStruct V}.
Variables (drivers : Z -> driver V W) (S : services V W) (zero_val : V) (zero_key : Z -> ConfKey).
Variables (key_sdf val_sdf : Z -> string) (key_struct : ConfKey -> string) (val_struct : V -> string).
Variable others : ControllerFramework V -> ControllerFramework V.
Variable alloc : gmap loc (ConfigNode V) -> loc.
Variable new_address : gmap loc (controller V) -> loc.
Variable add_err : list Out -> Out -> Z.
Hypothesis alloc_fresh : forall h, h !! alloc h = None.
Hypothesis no_error : forall s o, add_err s o = 0.

(** C13: The request for the running configuration of a known controller,
    below the root, for a driver that answers what it has, changes nothing,
    and whose answers are of the type and below the parent that it was asked
    for: it succeeds and lists elements, no two of the same identity and each
    after its parent, such that each is an answer for the root or for a listed
    parent, and for every answer for the root or for a listed parent an
    element of its identity is listed. Elements of equal identity, which are
    the same element unless their search keys collide, are thus listed once.
    The commands that were pending for this controller are dropped; otherwise
    the controllers are as before. It takes that everything can be added to
    the response. *)
Theorem audit_lists_configuration (F : Z -> option ConfKey -> list (CacheElementUtil V))
    (st : DrvState V W) (rq : Request V) (h : odl_drv_request_header_t) (a : Kept (V := V))
    (Hf : fw_ok (framework st)) (Hh : get_request_header (rq_args rq) = Some h)
    (Ht : rq_key_type h = UNC_KT_ROOT) (Hd : h_data_type (rq_header h) = UNC_DT_RUNNING)
    (Ha : abstract (framework st) !! rq_controller_name h = Some a)
    (fetches : forall kt parent, fetch_config S (kept_driver a) kt (kept_at a) parent (world st)
                                 = (RC_SUCCESS, F kt parent, world st))
    (Hsv : serves F) :
  exists l st',
    ipcService drivers S zero_val key_sdf val_sdf key_struct val_struct others alloc new_address add_err
      zero_key rq st
    = (Some (RC_SUCCESS,
             header_outputs (create_response_header h RC_SUCCESS) ++ [OVal (VU32 RC_SUCCESS)] ++
             entries_out key_sdf val_sdf key_struct val_struct true l), st', []) /\
    NoDup (ident <$> l) /\ parents_first [root_ident] l /\
    (forall e, e ∈ l ->
       (exists kt, (kt, UNC_KT_ROOT) ∈ audit_key /\ e ∈ F kt None) \/
       (exists kt p, p ∈ l /\ (kt, get_key_type (key_ p)) ∈ audit_key /\ e ∈ F kt (Some (key_ p)))) /\
    (forall kt e, (kt, UNC_KT_ROOT) ∈ audit_key -> e ∈ F kt None -> ident e ∈ ident <$> l) /\
    (forall kt p e, p ∈ l -> (kt, get_key_type (key_ p)) ∈ audit_key -> e ∈ F kt (Some (key_ p)) ->
       ident e ∈ ident <$> l) /\
    world st' = world st /\ crashed st' = crashed st /\ fw_ok (framework st') /\
    abstract (framework st') = <[rq_controller_name h := without_pending a]> (abstract (framework st)).
Proof.
  assert (exists ct k, controller_list (framework st) !! rq_controller_name h = Some ct /\
            ctrs (framework st) !! ctr ct = Some k /\ a = kept ct k) as (ct & k & Hn & Hk & ->).
  { unfold abstract in Ha. rewrite lookup_omap in Ha. apply bind_Some in Ha as (ct & Hn & Ha).
    apply bind_Some in Ha as (k & Hk & [= <-]). eauto. }
  assert (ctl_ok k) as Hok by (destruct (ok_alive _ Hf _ _ Hn) as (k' & Hk' & Hok'); congruence).
  destruct (audit_run drivers S zero_val zero_key key_sdf val_sdf key_struct val_struct others alloc
    new_address add_err alloc_fresh no_error F st ct k h fetches Hsv Hn Hk Hok rq Hh Ht Hd)
    as (cache & E & Hc & Hcol).
  destruct (listed F cache Hsv Hc Hcol) as (Hnd & Hpf & Hso & Hr & Hch).
  eexists _, _. split; [exact E|]. split_and!; [done..| |].
  - eapply put_fw_ok; [done|exact Hn|]. destruct Hok as [Hq _]. by split.
  - rewrite (put_abstract _ (rq_controller_name h)) by done. done.
Qed.

End Listing.

(** ** Witness *)

Module AuditSample.

#[local] Existing Instance Sample.sample_value.

(** Two networks, each with a bridge. *)
Definition bridge (n : key_vtn_t) : CacheElementUtil Z := mkElement (KVbr (mkVbr n "b")) 7 UNC_OP_CREATE.
Definition answers (kt : Z) (parent : option ConfKey) : list (CacheElementUtil Z) :=
  match parent with
  | None => if kt ==? UNC_KT_VTN
            then [Sample.vtn "v" 1 UNC_OP_CREATE; Sample.vtn "w" 2 UNC_OP_CREATE] else []
  | Some (KVtn n) => if kt ==? UNC_KT_VBRIDGE then [bridge n] else []
  | Some _ => []
  end.
Definition reader : services Z Sample.Log :=
  mkServices (fun _ kt _ parent w => (RC_SUCCESS, answers kt parent, w)) (fun _ _ => None)
    (fun _ _ w => (true, w)) (fun _ => true) (fun _ => true).

Lemma answers_served : serves answers.
Proof.
  split.
  - intros kt e _ He. cbn in He. destruct (decide (kt = UNC_KT_VTN)) as [->|Hne].
    + rewrite bool_decide_eq_true_2 in He by done.
      apply elem_of_cons in He as [->|He]; [done|]. apply list_elem_of_singleton in He as ->. done.
    + rewrite bool_decide_eq_false_2 in He by done. by apply not_elem_of_nil in He.
  - intros kt pkt p e _ _ _ He. destruct p as [key v op]. cbn [key_] in *.
    destruct key; cbn in He; try by apply not_elem_of_nil in He.
    destruct (decide (kt = UNC_KT_VBRIDGE)) as [->|Hne].
    + rewrite bool_decide_eq_true_2 in He by done. apply list_elem_of_singleton in He as ->. done.
    + rewrite bool_decide_eq_false_2 in He by done. by apply not_elem_of_nil in He.
Qed.

Definition audit_header : odl_drv_request_header_t :=
  mkReqHdr (mkCommon 5 1 UNC_OP_READ "(DEFAULT)" 0 0 0 UNC_DT_RUNNING) UNC_KT_ROOT "c1".
Definition audit_request : Request Z :=
  mkRequest [VU32 5; VU32 1; VStr "c1"; VStr "(DEFAULT)"; VU32 UNC_OP_READ; VU32 0; VU32 0; VU32 0;
             VU32 UNC_DT_RUNNING; VU32 UNC_KT_ROOT] None None false None.
Definition run : option (Z * list Out) * DrvState Z Sample.Log * list ApiCall :=
  ipcService (fun _ => Sample.odc) reader 0 (fun _ => "key"%string) (fun _ => "val"%string)
    (fun k => get_key k) (fun _ => "v"%string) (fun fw => fw) next_address (fun _ => 1%positive)
    (fun _ _ => 0) (fun _ => KVtn (mkVtn "")) audit_request Sample.sample_st.

End AuditSample.

#[local] Existing Instance Sample.sample_value.

Lemma audit_lists_configuration_witness :
  exists l st' out, AuditSample.run = (Some (RC_SUCCESS, out), st', []) /\
    drop 10 out
    = [OVal (VU32 UNC_KT_VTN); OVal (VStruct "key" "v"); OVal (VStruct "val" "v"); OEmpty;
       OVal (VU32 UNC_KT_VBRIDGE); OVal (VStruct "key" "b"); OVal (VStruct "val" "v"); OEmpty;
       OVal (VU32 UNC_KT_VTN); OVal (VStruct "key" "w"); OVal (VStruct "val" "v"); OEmpty;
       OVal (VU32 UNC_KT_VBRIDGE); OVal (VStruct "key" "b"); OVal (VStruct "val" "v")] /\
    NoDup (ident <$> l) /\ ident (Sample.vtn "w" 2 UNC_OP_CREATE) ∈ ident <$> l.
Proof.
  destruct (audit_lists_configuration (fun _ => Sample.odc) AuditSample.reader 0 (fun _ => KVtn (mkVtn ""))
    (fun _ => "key"%string) (fun _ => "val"%string) (fun k => get_key k) (fun _ => "v"%string) (fun fw => fw)
    next_address (fun _ => 1%positive) (fun _ _ => 0) next_address_fresh (fun _ _ => eq_refl)
    AuditSample.answers Sample.sample_st AuditSample.audit_request AuditSample.audit_header
    (mkKept 1 3 true true None) Sample.sample_fw_ok eq_refl eq_refl eq_refl)
    as (l & st' & E & Hnd & _ & _ & Hr & Hc & _).
  - vm_compute. reflexivity.
  - intros kt parent. reflexivity.
  - exact AuditSample.answers_served.
  - eexists l, st', _. split; [exact E|]. split_and!; [|exact Hnd|].
    + change (drop 10 ?x) with
        (match Some (RC_SUCCESS, x) with Some r => drop 10 r.2 | None => [] end).
      change (Some (RC_SUCCESS, ?x)) with (Some (RC_SUCCESS, x), st', @nil ApiCall).1.1.
      rewrite <- E. vm_compute. reflexivity.
    + apply (Hr UNC_KT_VTN (Sample.vtn "w" 2 UNC_OP_CREATE)).
      * apply (bool_decide_eq_true_1 _). vm_compute. reflexivity.
      * right. left.
Defined.
