(* ===== verification/Capa.v ===== *)
(** * Capabilities

    The capability module ([modules/capa]) says which types of keys a version
    of a controller supports, how many instances of them, and which attributes
    can be created, updated and read.  It is loaded from a configuration file
    per type of controller, in which a version inherits what it does not define
    from its parent ([capa_module.cc], [ctrlr_capability.cc]).  Files are read
    by [libpfc_util/conf.c]. *)

From S2P Require Import Prelude TcTypes CacheKeys DrvEvents.

Local Open Scope Z_scope.

(** ** The tables

    Types of keys with their names in the configuration files and their
    attributes ([capa/ctrlr_capa_defines.cc]); the index of an attribute is a
    member of an enumeration of [ctrlr_capa_defines.hh]. *)

(** *** Types *)

Definition UNC_KT_POLICING_PROFILE : Z := 3.
Definition UNC_KT_POLICING_PROFILE_ENTRY : Z := 4.
Definition UNC_KT_VBR_NWMONITOR : Z := 13.
Definition UNC_KT_VBR_NWMONITOR_HOST : Z := 14.
Definition UNC_KT_VBR_POLICINGMAP : Z := 15.
Definition UNC_KT_VBR_POLICINGMAP_ENTRY : Z := 16.
Definition UNC_KT_VBRIF_POLICINGMAP : Z := 21.
Definition UNC_KT_VBRIF_POLICINGMAP_ENTRY : Z := 22.
Definition UNC_KT_VROUTER : Z := 25.
Definition UNC_KT_VRT_IF : Z := 26.
Definition UNC_KT_VRTIF_FLOWFILTER : Z := 27.
Definition UNC_KT_VRTIF_FLOWFILTER_ENTRY : Z := 28.
Definition UNC_KT_VRT_IPROUTE : Z := 29.
Definition UNC_KT_DHCPRELAY_SERVER : Z := 30.
Definition UNC_KT_DHCPRELAY_IF : Z := 31.
Definition UNC_KT_VTERMIF_POLICINGMAP : Z := 35.
Definition UNC_KT_VTERMIF_POLICINGMAP_ENTRY : Z := 36.
Definition UNC_KT_VTEP : Z := 41.
Definition UNC_KT_VTEP_IF : Z := 42.
Definition UNC_KT_VTEP_GRP : Z := 43.
Definition UNC_KT_VTEP_GRP_MEMBER : Z := 44.
Definition UNC_KT_VTUNNEL : Z := 45.
Definition UNC_KT_VTUNNEL_IF : Z := 46.
Definition UNC_KT_VLINK : Z := 47.
Definition UNC_KT_VTN_POLICINGMAP : Z := 48.
Definition UNC_KT_VTN_POLICINGMAP_CONTROLLER : Z := 49.
Definition UNC_KT_VTN_FLOWFILTER_CONTROLLER : Z := 52.
Definition UNC_KT_VTN_DATAFLOW : Z := 55.
Definition UNC_KT_BOUNDARY : Z := 519.
Definition UNC_KT_DATAFLOW : Z := 520.
Definition UNC_KT_CTR_DATAFLOW : Z := 521.

(** *** Attributes *)

Record KtAttrMap := mkAttr { attr_name : string; attr_index : Z }.
Record KtMap := mkKt { kt_name : string; keytype : Z; attr_map : list KtAttrMap }.

Definition kam_vtn : list KtAttrMap :=
  [mkAttr "description" 0; mkAttr "operstatus" 1; mkAttr "alarm_status" 2;
   mkAttr "creation_time" 3; mkAttr "last_update_time" 4]%string.
Definition kam_vbridge : list KtAttrMap :=
  [mkAttr "domain_id" 0; mkAttr "description" 1; mkAttr "host_address" 2;
   mkAttr "host_address_prefixlen" 3; mkAttr "operstatus" 4]%string.
Definition kam_vlan_map : list KtAttrMap :=
  [mkAttr "vlan_id" 0]%string.
Definition kam_vbr_if : list KtAttrMap :=
  [mkAttr "description" 0; mkAttr "admin_status" 1; mkAttr "logical_port_id" 2;
   mkAttr "vlan_id" 3; mkAttr "tagged" 4; mkAttr "operstatus" 5]%string.
Definition kam_vrouter : list KtAttrMap :=
  [mkAttr "domain_id" 0; mkAttr "description" 1; mkAttr "dhcp_relay_admin_status" 2;
   mkAttr "operstatus" 3]%string.
Definition kam_dhcp_relay_server : list KtAttrMap := [].
Definition kam_dhcp_relay_interface : list KtAttrMap := [].
Definition kam_static_ip_route : list KtAttrMap :=
  [mkAttr "group_metric" 0]%string.
Definition kam_vrouter_interface : list KtAttrMap :=
  [mkAttr "description" 0; mkAttr "ip_address" 1; mkAttr "prefixlen" 2; mkAttr "mac_address" 3;
   mkAttr "admin_status" 4; mkAttr "operstatus" 5]%string.
Definition kam_vterminal : list KtAttrMap :=
  [mkAttr "domain_id" 0; mkAttr "description" 1; mkAttr "operstatus" 2]%string.
Definition kam_vterm_if : list KtAttrMap :=
  [mkAttr "description" 0; mkAttr "admin_status" 1; mkAttr "logical_port_id" 2;
   mkAttr "vlan_id" 3; mkAttr "tagged" 4; mkAttr "operstatus" 5]%string.
Definition kam_vtep : list KtAttrMap :=
  [mkAttr "description" 0; mkAttr "operstatus" 1]%string.
Definition kam_vtep_if : list KtAttrMap :=
  [mkAttr "description" 0; mkAttr "admin_status" 1; mkAttr "logical_port_id" 2;
   mkAttr "vlan_id" 3; mkAttr "tagged" 4; mkAttr "operstatus" 5]%string.
Definition kam_vtep_grp : list KtAttrMap :=
  [mkAttr "description" 0]%string.
Definition kam_vtep_grp_member : list KtAttrMap := [].
Definition kam_vtunnel : list KtAttrMap :=
  [mkAttr "description" 0; mkAttr "vtep_name" 1; mkAttr "vtep_group_name" 2; mkAttr "label" 3;
   mkAttr "operstatus" 4]%string.
Definition kam_vtunnel_if : list KtAttrMap :=
  [mkAttr "description" 0; mkAttr "admin_status" 1; mkAttr "logical_port_id" 2;
   mkAttr "vlan_id" 3; mkAttr "tagged" 4; mkAttr "operstatus" 5]%string.
Definition kam_vlink : list KtAttrMap :=
  [mkAttr "description" 0; mkAttr "admin_status" 1; mkAttr "vnode1_name" 2;
   mkAttr "vnode1_interface_name" 3; mkAttr "vnode2_name" 4; mkAttr "vnode2_interface_name" 5;
   mkAttr "boundary_name" 6; mkAttr "vlan_id" 7; mkAttr "operstatus" 8]%string.
Definition kam_nwm : list KtAttrMap :=
  [mkAttr "admin_status" 0; mkAttr "status" 1]%string.
Definition kam_nwm_host : list KtAttrMap :=
  [mkAttr "health_interval" 0; mkAttr "recovery_interval" 1; mkAttr "failure_count" 2;
   mkAttr "recovery_count" 3; mkAttr "wait_time" 4]%string.
Definition kam_flow_list : list KtAttrMap :=
  [mkAttr "ip_type" 0]%string.
Definition kam_flow_list_entry : list KtAttrMap :=
  [mkAttr "mac_destination" 0; mkAttr "mac_source" 1; mkAttr "mac_eth_type" 2;
   mkAttr "destination_ip" 3; mkAttr "destination_ip_prefix" 4; mkAttr "source_ip" 5;
   mkAttr "source_ip_prefix" 6; mkAttr "vlan_priority" 7; mkAttr "destination_ip_v6" 8;
   mkAttr "destination_ip_v6_prefix" 9; mkAttr "source_ip_v6" 10; mkAttr "source_ip_v6_prefix" 11;
   mkAttr "ip_protocol" 12; mkAttr "ip_dscp" 13; mkAttr "l4_destination_port" 14;
   mkAttr "l4_destination_port_endpt" 15; mkAttr "l4_source_port" 16;
   mkAttr "l4_source_port_endpt" 17; mkAttr "icmp_type" 18; mkAttr "icmp_code" 19;
   mkAttr "icmp_v6_type" 20; mkAttr "icmp_v6_code" 21]%string.
Definition kam_policing_profile : list KtAttrMap :=
  [mkAttr "policer_name" 0]%string.
Definition kam_policing_profile_entry : list KtAttrMap :=
  [mkAttr "flowlist" 0; mkAttr "rate" 1; mkAttr "cir" 2; mkAttr "cbs" 3; mkAttr "pir" 4;
   mkAttr "pbs" 5; mkAttr "green_action" 6; mkAttr "green_priority" 7; mkAttr "green_dscp" 8;
   mkAttr "green_drop" 9; mkAttr "yellow_action" 10; mkAttr "yellow_priority" 11;
   mkAttr "yellow_dscp" 12; mkAttr "yellow_drop" 13; mkAttr "red_action" 14;
   mkAttr "red_priority" 15; mkAttr "red_dscp" 16; mkAttr "red_drop" 17]%string.
Definition kam_vtn_flow_filter : list KtAttrMap := [].
Definition kam_vtn_flow_filter_entry : list KtAttrMap :=
  [mkAttr "flowlist_name" 0; mkAttr "action" 1; mkAttr "network_monitor" 2; mkAttr "dscp" 3;
   mkAttr "priority" 4]%string.
Definition kam_vtn_flow_filter_controller : list KtAttrMap :=
  [mkAttr "direction" 0; mkAttr "sequence_number" 1]%string.
Definition kam_vtn_policing_map : list KtAttrMap :=
  [mkAttr "policer_name" 0]%string.
Definition kam_vtn_policing_map_controller : list KtAttrMap :=
  [mkAttr "sequence_number" 0]%string.
Definition kam_vbridge_flow_filter : list KtAttrMap := [].
Definition kam_vbridge_flow_filter_entry : list KtAttrMap :=
  [mkAttr "flowlist_name" 0; mkAttr "action" 1; mkAttr "redirect_node" 2;
   mkAttr "redirect_port" 3; mkAttr "redirect_direction" 4; mkAttr "modify_destination_mac" 5;
   mkAttr "modify_source_mac" 6; mkAttr "network_monitor" 7; mkAttr "dscp" 8; mkAttr "priority" 9]%string.
Definition kam_vbridge_policing_map : list KtAttrMap :=
  [mkAttr "policer_name" 0]%string.
Definition kam_vbridge_policing_map_entry : list KtAttrMap := [].
Definition kam_vbridge_if_flow_filter : list KtAttrMap := [].
Definition kam_vbridge_if_flow_filter_entry : list KtAttrMap :=
  [mkAttr "flowlist_name" 0; mkAttr "action" 1; mkAttr "redirect_node" 2;
   mkAttr "redirect_port" 3; mkAttr "redirect_direction" 4; mkAttr "modify_destination_mac" 5;
   mkAttr "modify_source_mac" 6; mkAttr "network_monitor" 7; mkAttr "dscp" 8; mkAttr "priority" 9]%string.
Definition kam_vbridge_if_policing_map : list KtAttrMap :=
  [mkAttr "policer_name" 0]%string.
Definition kam_vbridge_if_policing_map_entry : list KtAttrMap := [].
Definition kam_vrouter_if_flow_filter : list KtAttrMap := [].
Definition kam_vrouter_if_flow_filter_entry : list KtAttrMap :=
  [mkAttr "flowlist_name" 0; mkAttr "action" 1; mkAttr "redirect_node" 2;
   mkAttr "redirect_port" 3; mkAttr "redirect_direction" 4; mkAttr "modify_destination_mac" 5;
   mkAttr "modify_source_mac" 6; mkAttr "network_monitor" 7; mkAttr "dscp" 8; mkAttr "priority" 9]%string.
Definition kam_vterminal_if_flow_filter : list KtAttrMap := [].
Definition kam_vterminal_if_flow_filter_entry : list KtAttrMap :=
  [mkAttr "flowlist_name" 0; mkAttr "action" 1; mkAttr "redirect_node" 2;
   mkAttr "redirect_port" 3; mkAttr "redirect_direction" 4; mkAttr "modify_destination_mac" 5;
   mkAttr "modify_source_mac" 6; mkAttr "network_monitor" 7; mkAttr "dscp" 8; mkAttr "priority" 9]%string.
Definition kam_vterminal_if_policing_map : list KtAttrMap :=
  [mkAttr "policer_name" 0]%string.
Definition kam_vterminal_if_policing_map_entry : list KtAttrMap := [].
Definition kam_controller : list KtAttrMap :=
  [mkAttr "type" 0; mkAttr "version" 1; mkAttr "description" 2; mkAttr "ip_address" 3;
   mkAttr "user" 4; mkAttr "password" 5; mkAttr "enable_audit" 6]%string.
Definition kam_ctr_domain : list KtAttrMap := [].
Definition kam_switch : list KtAttrMap := [].
Definition kam_port : list KtAttrMap := [].
Definition kam_link : list KtAttrMap := [].
Definition kam_boundary : list KtAttrMap := [].
Definition kam_ctr_data_flow : list KtAttrMap := [].
Definition kam_data_flow : list KtAttrMap := [].
Definition kam_vtn_dataflow : list KtAttrMap := [].

Definition kt_map : list KtMap :=
  [mkKt "vtn" UNC_KT_VTN kam_vtn;
   mkKt "vbridge" UNC_KT_VBRIDGE kam_vbridge;
   mkKt "vlan_map" UNC_KT_VBR_VLANMAP kam_vlan_map;
   mkKt "vbridge_interface" UNC_KT_VBR_IF kam_vbr_if;
   mkKt "vrouter" UNC_KT_VROUTER kam_vrouter;
   mkKt "dhcp_relay_server" UNC_KT_DHCPRELAY_SERVER kam_dhcp_relay_server;
   mkKt "dhcp_relay_interface" UNC_KT_DHCPRELAY_IF kam_dhcp_relay_interface;
   mkKt "static_ip_route" UNC_KT_VRT_IPROUTE kam_static_ip_route;
   mkKt "vrouter_interface" UNC_KT_VRT_IF kam_vrouter_interface;
   mkKt "vterminal" UNC_KT_VTERMINAL kam_vterminal;
   mkKt "vterminal_interface" UNC_KT_VTERM_IF kam_vterm_if;
   mkKt "vtep" UNC_KT_VTEP kam_vtep;
   mkKt "vtep_interface" UNC_KT_VTEP_IF kam_vtep_if;
   mkKt "vtep_group" UNC_KT_VTEP_GRP kam_vtep_grp;
   mkKt "vtep_group_member" UNC_KT_VTEP_GRP_MEMBER kam_vtep_grp_member;
   mkKt "vtunnel" UNC_KT_VTUNNEL kam_vtunnel;
   mkKt "vtunnel_interface" UNC_KT_VTUNNEL_IF kam_vtunnel_if;
   mkKt "vlink" UNC_KT_VLINK kam_vlink;
   mkKt "network_monitor_group" UNC_KT_VBR_NWMONITOR kam_nwm;
   mkKt "network_monitor_ip_host" UNC_KT_VBR_NWMONITOR_HOST kam_nwm_host;
   mkKt "flow_list" UNC_KT_FLOWLIST kam_flow_list;
   mkKt "flow_list_entry" UNC_KT_FLOWLIST_ENTRY kam_flow_list_entry;
   mkKt "policing_profile" UNC_KT_POLICING_PROFILE kam_policing_profile;
   mkKt "policing_profile_entry" UNC_KT_POLICING_PROFILE_ENTRY kam_policing_profile_entry;
   mkKt "vtn_flow_filter" UNC_KT_VTN_FLOWFILTER kam_vtn_flow_filter;
   mkKt "vtn_flow_filter_entry" UNC_KT_VTN_FLOWFILTER_ENTRY kam_vtn_flow_filter_entry;
   mkKt "vtn_flow_filter_controller" UNC_KT_VTN_FLOWFILTER_CONTROLLER kam_vtn_flow_filter_controller;
   mkKt "vtn_policing_map" UNC_KT_VTN_POLICINGMAP kam_vtn_policing_map;
   mkKt "vtn_policing_map_controller" UNC_KT_VTN_POLICINGMAP_CONTROLLER kam_vtn_policing_map_controller;
   mkKt "vbridge_flow_filter" UNC_KT_VBR_FLOWFILTER kam_vbridge_flow_filter;
   mkKt "vbridge_flow_filter_entry" UNC_KT_VBR_FLOWFILTER_ENTRY kam_vbridge_flow_filter_entry;
   mkKt "vbridge_policing_map" UNC_KT_VBR_POLICINGMAP kam_vbridge_policing_map;
   mkKt "vbridge_policing_map_entry" UNC_KT_VBR_POLICINGMAP_ENTRY kam_vbridge_policing_map_entry;
   mkKt "vbridge_interface_flow_filter" UNC_KT_VBRIF_FLOWFILTER kam_vbridge_if_flow_filter;
   mkKt "vbridge_interface_flow_filter_entry" UNC_KT_VBRIF_FLOWFILTER_ENTRY kam_vbridge_if_flow_filter_entry;
   mkKt "vbridge_interface_policing_map" UNC_KT_VBRIF_POLICINGMAP kam_vbridge_if_policing_map;
   mkKt "vbridge_interface_policing_map_entry" UNC_KT_VBRIF_POLICINGMAP_ENTRY kam_vbridge_if_policing_map_entry;
   mkKt "vrouter_interface_flow_filter" UNC_KT_VRTIF_FLOWFILTER kam_vrouter_if_flow_filter;
   mkKt "vrouter_interface_flow_filter_entry" UNC_KT_VRTIF_FLOWFILTER_ENTRY kam_vrouter_if_flow_filter_entry;
   mkKt "vterminal_interface_flow_filter" UNC_KT_VTERMIF_FLOWFILTER kam_vterminal_if_flow_filter;
   mkKt "vterminal_interface_flow_filter_entry" UNC_KT_VTERMIF_FLOWFILTER_ENTRY kam_vterminal_if_flow_filter_entry;
   mkKt "vterminal_interface_policing_map" UNC_KT_VTERMIF_POLICINGMAP kam_vterminal_if_policing_map;
   mkKt "vterminal_interface_policing_map_entry" UNC_KT_VTERMIF_POLICINGMAP_ENTRY kam_vterminal_if_policing_map_entry;
   mkKt "controller" UNC_KT_CONTROLLER kam_controller;
   mkKt "ctr_domain" UNC_KT_CTR_DOMAIN kam_ctr_domain;
   mkKt "switch" UNC_KT_SWITCH kam_switch;
   mkKt "port" UNC_KT_PORT kam_port;
   mkKt "link" UNC_KT_LINK kam_link;
   mkKt "boundary" UNC_KT_BOUNDARY kam_boundary;
   mkKt "dataflow" UNC_KT_DATAFLOW kam_data_flow;
   mkKt "ctr_dataflow" UNC_KT_CTR_DATAFLOW kam_ctr_data_flow;
   mkKt "vtn_dataflow" UNC_KT_VTN_DATAFLOW kam_vtn_dataflow]%string.

(** The index of an attribute is its position, and no type has two rows. *)
Lemma kt_map_indexed :
  Forall (fun row => attr_index <$> attr_map row = Z.of_nat <$> seq 0 (length (attr_map row))) kt_map.
Proof. repeat constructor. Qed.

Lemma kt_map_NoDup : NoDup (keytype <$> kt_map).
Proof. apply (bool_decide_eq_true_1 _). vm_compute. reflexivity. Qed.

(** ** Configuration files *)

(** Parameters of the types in use; of the others the number of elements when
    they are arrays. *)
Inductive conf_param_t :=
| CONF_STRING (s : string)
| CONF_UINT32 (n : Z)
| CONF_STRING_ARRAY (l : list string)
| CONF_INT32_ARRAY (l : list Z)
| CONF_BOOL_ARRAY (l : list bool)
| CONF_OTHER (nelems : option nat).

Definition conf_block_t : Type := gmap string conf_param_t.
Record conf_file_t := mkConf {
  cf_blocks : gmap string conf_block_t;
  cf_maps : gmap string (gmap string conf_block_t)
}.

(** A block, or [PFC_CFBLK_INVALID]. *)
Definition pfc_cfblk_t : Type := option conf_block_t.
Implicit Types (conf : conf_file_t) (block : pfc_cfblk_t) (name version ver : string).

Definition conf_get_block conf (bname : string) : pfc_cfblk_t := cf_blocks conf !! bname.
Definition conf_get_map conf (mname key : string) : pfc_cfblk_t :=
  blkmap ← cf_maps conf !! mname; blkmap !! key.
(** With the parser's lock. *)
Definition pfc_conf_get_block := conf_get_block.
Definition pfc_conf_get_map := conf_get_map.

Definition conf_get_param block name : option conf_param_t := b ← block; b !! name.

Definition pfc_conf_get_string block name (defvalue : string) : string :=
  match conf_get_param block name with Some (CONF_STRING s) => s | _ => defvalue end.
Definition pfc_conf_get_uint32 block name (defvalue : Z) : Z :=
  match conf_get_param block name with Some (CONF_UINT32 n) => n | _ => defvalue end.
Definition pfc_conf_is_defined block name : bool := bool_decide (is_Some (conf_get_param block name)).

(** -1 for what is not an array. *)
Definition pfc_conf_array_size block name : Z :=
  match conf_get_param block name with
  | Some (CONF_STRING_ARRAY l) => Z.of_nat (length l)
  | Some (CONF_INT32_ARRAY l) => Z.of_nat (length l)
  | Some (CONF_BOOL_ARRAY l) => Z.of_nat (length l)
  | Some (CONF_OTHER (Some n)) => Z.of_nat n
  | _ => -1
  end.
Definition pfc_conf_array_stringat block name (index : nat) (defvalue : option string) : option string :=
  match conf_get_param block name with
  | Some (CONF_STRING_ARRAY l) => match l !! index with Some s => Some s | None => defvalue end
  | _ => defvalue
  end.
Definition pfc_conf_array_int32at block name (index : nat) (defvalue : Z) : Z :=
  match conf_get_param block name with
  | Some (CONF_INT32_ARRAY l) => default defvalue (l !! index)
  | _ => defvalue
  end.

Definition PFC_CF_MAX_ARRAY_SIZE : nat := 256.
(** The buffer afterwards: elements from [start] on, or as before on an error. *)
Definition pfc_conf_array_bool_range block name (start nelems : nat) (buffer : list bool) : list bool :=
  match conf_get_param block name with
  | Some (CONF_BOOL_ARRAY l) =>
      if bool_decide (start < PFC_CF_MAX_ARRAY_SIZE)%nat && bool_decide (nelems <= PFC_CF_MAX_ARRAY_SIZE)%nat &&
         bool_decide (start + nelems <= length l)%nat
      then take nelems (drop start l) ++ drop nelems buffer
      else buffer
  | _ => buffer
  end.

(** ** Runs *)

(** A run ends, does what the language does not define, or goes on for ever. *)
Inductive Run (A : Type) := Ret (a : A) | Undefined | Diverges.
#[global] Arguments Ret {A} a.
#[global] Arguments Undefined {A}.
#[global] Arguments Diverges {A}.

Definition rbind {A B} (m : Run A) (f : A -> Run B) : Run B :=
  match m with Ret a => f a | Undefined => Undefined | Diverges => Diverges end.
Notation "'let+' x ':=' m 'in' k" := (rbind m (fun x => k))
  (at level 200, x pattern, m at level 100, k at level 200, right associativity).

(** ** Attributes of a type *)

(** Arrays that are not allocated are [None]. *)
Record KtAttrCapability := mkAttrCap {
  num_attrs_ : Z;
  create_cap_ : option (list Z);
  update_cap_ : option (list Z);
  read_cap_ : option (list Z);
  state_cap_ : option (list Z)
}.
Definition KtAttrCapability_new : KtAttrCapability := mkAttrCap 0 None None None None.

Definition KtAttrCapability_Init (num_attrs : Z) : KtAttrCapability :=
  let n := if num_attrs ==? 0 then 1 else num_attrs in
  let zeroes := Some (replicate (Z.to_nat n) 0) in
  mkAttrCap num_attrs zeroes zeroes zeroes zeroes.

(** A write outside of an array is not defined. *)
Definition write (a : option (list Z)) (i v : Z) : Run (option (list Z)) :=
  match a with
  | Some l =>
      if bool_decide (0 <= i < Z.of_nat (length l)) then Ret (Some (<[Z.to_nat i := v]> l)) else Undefined
  | None => Undefined
  end.

Definition kCapaConfCreate : nat := 0.
Definition kCapaConfUpdate : nat := 1.
Definition kCapaConfRead : nat := 2.
Definition kCapaConfStateRead : nat := 3.

Definition SetAttrCap (ac : KtAttrCapability) (attr_index : Z) (capa_list : list Z)
    : Run (bool * KtAttrCapability) :=
  if bool_decide (num_attrs_ ac < attr_index) then Ret (false, ac)
  else
    let at_ i := default 0 (capa_list !! i) in
    let+ c := write (create_cap_ ac) attr_index (at_ kCapaConfCreate) in
    let+ u := write (update_cap_ ac) attr_index (at_ kCapaConfUpdate) in
    let+ r := write (read_cap_ ac) attr_index (at_ kCapaConfRead) in
    let+ s := write (state_cap_ ac) attr_index (at_ kCapaConfStateRead) in
    Ret (true, mkAttrCap (num_attrs_ ac) c u r s).

(** The number of attributes and the array. *)
Definition attr_get (f : KtAttrCapability -> option (list Z)) (ac : KtAttrCapability)
    : option (Z * list Z) :=
  l ← f ac; Some (num_attrs_ ac, l).
Definition Attr_GetCreateCapability := attr_get create_cap_.
Definition Attr_GetUpdateCapability := attr_get update_cap_.
Definition Attr_GetReadCapability := attr_get read_cap_.
Definition Attr_GetStateCapability := attr_get state_cap_.

(** ** Types of keys *)

Record KtCapability := mkKtCap { instance_count_ : Z; attr_cap_ : option KtAttrCapability }.
Definition KtCapability_new : KtCapability := mkKtCap 0 None.
Definition set_instance_count (count : Z) (kc : KtCapability) : KtCapability :=
  mkKtCap count (attr_cap_ kc).

Definition GetKtCreateCapability (kc : KtCapability) : option (Z * (Z * list Z)) :=
  ac ← attr_cap_ kc; r ← Attr_GetCreateCapability ac; Some (instance_count_ kc, r).
Definition GetKtUpdateCapability (kc : KtCapability) : option (Z * list Z) :=
  ac ← attr_cap_ kc; Attr_GetUpdateCapability ac.
Definition GetKtReadCapability (kc : KtCapability) : option (Z * list Z) :=
  ac ← attr_cap_ kc; Attr_GetReadCapability ac.
Definition GetKtStateCapability (kc : KtCapability) : option (Z * list Z) :=
  ac ← attr_cap_ kc; Attr_GetStateCapability ac.

(** ** Versions *)

Definition GetCtrlrParentVersion (pm : gmap string string) version : string :=
  default ""%string (pm !! version).

(** The loops of the sources that go from a version to its parents until one
    has what they look for, or the name of a version is empty. *)
Fixpoint find_version {A} (fuel : nat) (pm : gmap string string) (look : string -> option A) ver
    : Run (option A) :=
  if ver ==? ""%string then Ret None
  else
    match fuel with
    | 0%nat => Diverges
    | S f =>
        match look ver with
        | Some a => Ret (Some a)
        | None => find_version f pm look (GetCtrlrParentVersion pm ver)
        end
    end.
(** Rounds that are enough ([find_version_diverges]). *)
Definition rounds (pm : gmap string string) : nat := S (size pm).

Section Load.

(** What the buffer on the stack holds before it is written. *)
Variable junk : list bool.
Variable conf : conf_file_t.
Variable pm : gmap string string.

Definition LoadInstanceCount (ktname version : string) : Run Z :=
  let+ r := find_version (rounds pm) pm (fun ver =>
    let kt_blk := pfc_conf_get_map conf ktname ver in
    if pfc_conf_is_defined kt_blk "instance_count"
    then Some (pfc_conf_get_uint32 kt_blk "instance_count" 0) else None) version in
  Ret (default 0 r).

Definition LoadAttrCapability (ktname attrname : string) (attr_index : Z) version (ac : KtAttrCapability)
    : Run (bool * KtAttrCapability) :=
  let+ r := find_version (rounds pm) pm (fun ver =>
    let kt_blk := pfc_conf_get_map conf ktname ver in
    if pfc_conf_is_defined kt_blk attrname then Some kt_blk else None) version in
  match r with
  | None => Ret (false, ac)
  | Some kt_blk =>
      let buffer := pfc_conf_array_bool_range kt_blk attrname 0 4 junk in
      let capa_list := (fun b : bool => if b then 1 else 0) <$> buffer in
      let+ (_, ac1) := SetAttrCap ac attr_index capa_list in
      Ret (true, ac1)
  end.

(** The attributes from [index] on; the first that is not found ends it. *)
Fixpoint load_attrs (ktname : string) version (index : Z) (l : list KtAttrMap) (ac : KtAttrCapability)
    : Run (bool * KtAttrCapability) :=
  match l with
  | [] => Ret (true, ac)
  | a :: rest =>
      let+ (found, ac1) := LoadAttrCapability ktname (attr_name a) index version ac in
      if found : bool then load_attrs ktname version (index + 1) rest ac1 else Ret (false, ac1)
  end.

Definition LoadKtCapability (row : KtMap) version (kc : KtCapability) : Run (bool * KtCapability) :=
  let ac := KtAttrCapability_Init (Z.of_nat (length (attr_map row))) in
  let+ (r, ac1) := load_attrs (kt_name row) version 0 (attr_map row) ac in
  Ret (r, mkKtCap (instance_count_ kc) (Some ac1)).

(** ** Versions of a controller *)

Definition CtrlrCapability : Type := gmap Z KtCapability.

Fixpoint load_types version (rows : list KtMap) (kt_cap_map_ : CtrlrCapability) : Run CtrlrCapability :=
  match rows with
  | [] => Ret kt_cap_map_
  | row :: rest =>
      let+ r := find_version (rounds pm) pm (fun ver =>
        match pfc_conf_get_map conf (kt_name row) ver with
        | Some _ => Some ver
        | None => None
        end) version in
      match r with
      | None => load_types version rest kt_cap_map_
      | Some ver =>
          let+ instance_count := LoadInstanceCount (kt_name row) ver in
          let+ (_, kc) := LoadKtCapability row ver (set_instance_count instance_count KtCapability_new) in
          load_types version rest (<[keytype row := kc]> kt_cap_map_)
      end
  end.
Definition LoadCtrlrCapability version : Run (bool * CtrlrCapability) :=
  let+ m := load_types version kt_map ∅ in Ret (true, m).

End Load.

Definition Ctrlr_GetCreateCapability (c : CtrlrCapability) (kt : Z) : option (Z * (Z * list Z)) :=
  kc ← c !! kt; GetKtCreateCapability kc.
Definition Ctrlr_GetUpdateCapability (c : CtrlrCapability) (kt : Z) : option (Z * list Z) :=
  kc ← c !! kt; GetKtUpdateCapability kc.
Definition Ctrlr_GetReadCapability (c : CtrlrCapability) (kt : Z) : option (Z * list Z) :=
  kc ← c !! kt; GetKtReadCapability kc.
Definition Ctrlr_GetStateCapability (c : CtrlrCapability) (kt : Z) : option (Z * list Z) :=
  kc ← c !! kt; GetKtStateCapability kc.
Definition Ctrlr_GetCapability (c : CtrlrCapability) (kt : Z) : option Z :=
  kc ← c !! kt; Some (instance_count_ kc).

(** ** The module *)

Record ActualVersion := mkVer { major1 : Z; major2 : Z; minor : Z; update : Z }.
Record CapaCtrlrCommon := mkCommonCapa {
  capa_map : gmap string CtrlrCapability;
  actual_version_map_ : gmap string (list ActualVersion)
}.
(** The members, and how many files are open. *)
Record CapaModule := mkCapa {
  parent_map_ : gmap string string;
  ctrlr_common_map_ : gmap Z CapaCtrlrCommon;
  open_files : nat
}.
Implicit Types (m : CapaModule) (ctrlr_type kt : Z).

Definition set_parent_map pm m := mkCapa pm (ctrlr_common_map_ m) (open_files m).
Definition set_common ctrlr_type (ccc : CapaCtrlrCommon) m :=
  mkCapa (parent_map_ m) (<[ctrlr_type := ccc]> (ctrlr_common_map_ m)) (open_files m).
Definition set_open_files n m := mkCapa (parent_map_ m) (ctrlr_common_map_ m) n.

Section Module_.

(** [pfc_conf_open]: the parsed file, when it is one. *)
Variable pfc_conf_open : string -> option conf_file_t.
Variable junk : list bool.

Definition LoadParentVersion conf version (pm : gmap string string) : gmap string string :=
  match pfc_conf_get_map conf "version_definition" version with
  | None => <[version := ""%string]> pm
  | Some b => <[version := pfc_conf_get_string (Some b) "parent" ""]> pm
  end.

(** Versions [array_index / 4] and following. *)
Fixpoint actual_versions block (count array_index : nat) : option (list ActualVersion) :=
  match count with
  | 0%nat => Some []
  | S n =>
      let actual_version_size := pfc_conf_array_size block "actual_version" mod UINT32_MOD in
      if (actual_version_size ==? 0) || (actual_version_size mod 4 !=? 0) then None
      else
        let at_ i := pfc_conf_array_int32at block "actual_version" (array_index + i) 0 in
        l ← actual_versions block n (array_index + 4);
        Some (mkVer (at_ 0%nat) (at_ 1%nat) (at_ 2%nat) (at_ 3%nat) :: l)
  end.
Definition LoadActualVersion conf version : option (list ActualVersion) :=
  let ver_def_cfblk := pfc_conf_get_map conf "version_definition" version in
  actual_versions ver_def_cfblk
    (Z.to_nat (pfc_conf_get_uint32 ver_def_cfblk "actual_version_count" 0)) 0.

(** Casts to [uint8_t]. *)
Fixpoint validate (l : list ActualVersion) (v1 v2 v3 v4 : Z) : bool :=
  match l with
  | [] => false
  | a :: rest =>
      if (major1 a ==? -1) || (u8 (major1 a) <? v1) then true
      else if (u8 (major1 a) ==? v1) && ((major2 a ==? -1) || (u8 (major2 a) <? v2)) then true
      else if (u8 (major1 a) ==? v1) && (u8 (major2 a) ==? v2) && ((minor a ==? -1) || (u8 (minor a) <? v3))
      then true
      else if (u8 (major1 a) ==? v1) && (u8 (major2 a) ==? v2) && (u8 (minor a) ==? v3) &&
              ((update a ==? -1) || (u8 (update a) <=? v4)) then true
      else validate rest v1 v2 v3 v4
  end.
(** A type that is not in the map is the iterator at its end. *)
Definition ValidateVersion m ctrlr_type (config_version : string) (v1 v2 v3 v4 : Z) : Run bool :=
  match ctrlr_common_map_ m !! ctrlr_type with
  | None => Undefined
  | Some ccc =>
      match actual_version_map_ ccc !! config_version with
      | None => Ret false
      | Some l => Ret (validate l v1 v2 v3 v4)
      end
  end.
(** The front of an empty list is not defined. *)
Definition GetSupportedVersion m ctrlr_type (config_version : string) : Run (option (Z * Z * Z * Z)) :=
  match ctrlr_common_map_ m !! ctrlr_type with
  | None => Undefined
  | Some ccc =>
      match actual_version_map_ ccc !! config_version with
      | None => Ret None
      | Some [] => Undefined
      | Some (a :: _) => Ret (Some (u8 (major1 a), u8 (major2 a), u8 (minor a), u8 (update a)))
      end
  end.

Definition capa_file ctrlr_type : option string :=
  if ctrlr_type ==? UNC_CT_PFC then Some "pfc_capa.conf"%string
  else if ctrlr_type ==? UNC_CT_VNP then Some "vnp_capa.conf"%string
  else if ctrlr_type ==? UNC_CT_POLC then Some "polc_capa.conf"%string
  else if ctrlr_type ==? UNC_CT_ODC then Some "odc_capa.conf"%string
  else None.

(** The names of the versions, from [index] on. *)
Fixpoint load_parents conf (cfblk : pfc_cfblk_t) (num index : nat) (pm : gmap string string)
    : gmap string string :=
  match num with
  | 0%nat => pm
  | S n =>
      load_parents conf cfblk n (S index)
        match pfc_conf_array_stringat cfblk "names" index None with
        | None => pm
        | Some version_name => LoadParentVersion conf version_name pm
        end
  end.
Fixpoint load_versions conf (cfblk : pfc_cfblk_t) (pm : gmap string string) (num index : nat)
    (ccc : CapaCtrlrCommon) : Run (bool * CapaCtrlrCommon) :=
  match num with
  | 0%nat => Ret (true, ccc)
  | S n =>
      match pfc_conf_array_stringat cfblk "names" index None with
      | None => load_versions conf cfblk pm n (S index) ccc
      | Some version_name =>
          let+ (loaded, cap_ptr) := LoadCtrlrCapability junk conf pm version_name in
          if negb loaded then Ret (false, ccc)
          else
            let ccc1 := mkCommonCapa (<[version_name := cap_ptr]> (capa_map ccc)) (actual_version_map_ ccc) in
            match LoadActualVersion conf version_name with
            | None => Ret (false, ccc1)
            | Some version_list =>
                load_versions conf cfblk pm n (S index)
                  (mkCommonCapa (capa_map ccc1) (<[version_name := version_list]> (actual_version_map_ ccc1)))
            end
      end
  end.

Definition LoadCapabilityFile ctrlr_type m : Run (bool * CapaModule) :=
  match capa_file ctrlr_type, ctrlr_common_map_ m !! ctrlr_type with
  | None, _ | _, None => Ret (false, m)
  | Some file, Some ccc =>
      let m0 := set_common ctrlr_type (mkCommonCapa ∅ (actual_version_map_ ccc)) m in
      match pfc_conf_open file with
      | None => Ret (false, m0)
      | Some conf =>
          let m1 := set_open_files (S (open_files m0)) m0 in
          match pfc_conf_get_block conf "version_list" with
          | None => Ret (false, m1)
          | Some b =>
              let num_versions := Z.to_nat (pfc_conf_array_size (Some b) "names") in
              let pm := load_parents conf (Some b) num_versions 0 (parent_map_ m1) in
              let+ (r, ccc1) := load_versions conf (Some b) pm num_versions 0 (mkCommonCapa ∅ ∅) in
              let m2 := set_common ctrlr_type ccc1 (set_parent_map pm m1) in
              if r : bool then Ret (true, set_open_files (open_files m) m2) else Ret (false, m2)
          end
      end
  end.

Definition LoadCapabilityFiles m : Run CapaModule :=
  let+ (_, m1) := LoadCapabilityFile UNC_CT_PFC m in
  let+ (_, m2) := LoadCapabilityFile UNC_CT_VNP m1 in
  let+ (_, m3) := LoadCapabilityFile UNC_CT_POLC m2 in
  let+ (_, m4) := LoadCapabilityFile UNC_CT_ODC m3 in
  Ret m4.

Definition no_common : CapaCtrlrCommon := mkCommonCapa ∅ ∅.
Definition init : Run CapaModule :=
  LoadCapabilityFiles
    (mkCapa ∅ (<[UNC_CT_PFC := no_common]> (<[UNC_CT_VNP := no_common]>
                 (<[UNC_CT_POLC := no_common]> (<[UNC_CT_ODC := no_common]> ∅)))) 0).

(** ** Queries *)

Definition find_capability m ctrlr_type version : option CtrlrCapability :=
  ccc ← ctrlr_common_map_ m !! ctrlr_type; capa_map ccc !! version.

Definition GetCreateCapability m ctrlr_type version kt : option (Z * (Z * list Z)) :=
  c ← find_capability m ctrlr_type version; Ctrlr_GetCreateCapability c kt.
Definition GetUpdateCapability m ctrlr_type version kt : option (Z * list Z) :=
  c ← find_capability m ctrlr_type version; Ctrlr_GetUpdateCapability c kt.
Definition GetReadCapability m ctrlr_type version kt : option (Z * list Z) :=
  c ← find_capability m ctrlr_type version; Ctrlr_GetReadCapability c kt.
Definition GetStateCapability m ctrlr_type version kt : option (Z * list Z) :=
  c ← find_capability m ctrlr_type version; Ctrlr_GetStateCapability c kt.
Definition GetInstanceCount m ctrlr_type version kt : option Z :=
  c ← find_capability m ctrlr_type version; Ctrlr_GetCapability c kt.

End Module_.
