(* ===== verification/CapaTheorems.v ===== *)
(** * Theorems on capabilities

    What is loaded is what the nearest version defines, from a version through
    its parents; the loops end exactly when the parents do. *)

From stdpp Require Import finite.
From S2P Require Import Prelude TcTypes CacheKeys DrvEvents Capa.

Local Open Scope Z_scope.

Implicit Types (conf : conf_file_t) (block : pfc_cfblk_t) (ver v : string) (l names : list string)
  (pm : gmap string string).

(** ** Versions and their parents *)

Fixpoint first {A} (look : string -> option A) l : option A :=
  match l with
  | [] => None
  | v :: rest => match look v with Some a => Some a | None => first look rest end
  end.

Fixpoint lineage (fuel : nat) pm ver : option (list string) :=
  if ver ==? ""%string then Some []
  else match fuel with
       | 0%nat => None
       | S f => cons ver <$> lineage f pm (GetCtrlrParentVersion pm ver)
       end.

Lemma find_version_first {A} fuel pm (look : string -> option A) ver l :
  lineage fuel pm ver = Some l -> find_version fuel pm look ver = Ret (first look l).
Proof.
  revert ver l. induction fuel as [|f IH]; intros ver l; cbn [lineage find_version];
    case_bool_decide; try (intros [= <-]; done).
  intros (l1 & Hl & ->)%fmap_Some. cbn [first]. destruct (look ver); [done|]. by apply IH.
Qed.

Lemma lineage_more f f' pm ver l : lineage f pm ver = Some l -> (length l <= f')%nat -> lineage f' pm ver = Some l.
Proof.
  revert f' ver l. induction f as [|f IH]; intros f' ver l; cbn [lineage].
  - case_bool_decide; [|done]. intros [= <-] _. subst. by destruct f'.
  - case_bool_decide as Hv.
    + intros [= <-] _. subst. by destruct f'.
    + intros (l1 & Hl & ->)%fmap_Some Hlen. cbn in Hlen. destruct f' as [|f']; [lia|]. cbn [lineage].
      rewrite bool_decide_eq_false_2 by done. rewrite (IH f' _ l1); [done|done|lia].
Qed.

Lemma lineage_length f pm ver l : lineage f pm ver = Some l -> (length l <= f)%nat.
Proof.
  revert ver l. induction f as [|f IH]; intros ver l; cbn [lineage]; case_bool_decide;
    try (intros [= <-]; cbn; lia).
  intros (l1 & Hl & ->)%fmap_Some. apply IH in Hl. cbn. lia.
Qed.

(** ** Loops that do not end *)

Definition ancestor pm ver (n : nat) : string := Nat.iter n (GetCtrlrParentVersion pm) ver.

Lemma ancestor_S pm ver n : ancestor pm (GetCtrlrParentVersion pm ver) n = ancestor pm ver (S n).
Proof. unfold ancestor. by rewrite Nat.iter_succ_r. Qed.

Lemma diverges_inv {A} fuel pm (look : string -> option A) ver :
  find_version fuel pm look ver = Diverges <->
  (forall n, (n <= fuel)%nat -> ancestor pm ver n <> ""%string) /\
  (forall n, (n < fuel)%nat -> look (ancestor pm ver n) = None).
Proof.
  revert ver. induction fuel as [|f IH]; intros ver; cbn [find_version]; case_bool_decide as Hv.
  - split; [done|]. intros [H1 _]. by destruct (H1 0%nat).
  - split; [|done]. intros _. split; [|lia]. intros n Hn. by assert (n = 0%nat) as -> by lia.
  - split; [done|]. intros [H1 _]. destruct (H1 0%nat); [lia|done].
  - destruct (look ver) as [a|] eqn:El.
    + split; [done|]. intros [_ H2]. specialize (H2 0%nat ltac:(lia)). cbn in H2. congruence.
    + rewrite IH. split; intros [H1 H2]; split; intros n Hn.
      * destruct n as [|n]; [done|]. rewrite <- ancestor_S. apply H1. lia.
      * destruct n as [|n]; [done|]. rewrite <- ancestor_S. apply H2. lia.
      * rewrite ancestor_S. apply H1. lia.
      * rewrite ancestor_S. apply H2. lia.
Qed.

Lemma ancestor_repeats pm ver i j n :
  (i < j)%nat -> ancestor pm ver i = ancestor pm ver j ->
  exists k, (k < j)%nat /\ ancestor pm ver n = ancestor pm ver k.
Proof.
  intros Hij He. induction n as [|n (k & Hk & IH)]; [exists 0%nat; split; [lia|done]|].
  unfold ancestor in *. cbn [Nat.iter nat_rect]. fold (Nat.iter n (GetCtrlrParentVersion pm) ver). rewrite IH.
  destruct (decide (S k = j)) as [<-|Hne].
  - exists i. split; [lia|]. by rewrite He.
  - exists (S k). split; [lia|done].
Qed.

(** The rounds are enough: a loop that has not ended then never does. *)
Lemma find_version_diverges {A} pm (look : string -> option A) ver :
  find_version (rounds pm) pm look ver = Diverges ->
  forall fuel, find_version fuel pm look ver = Diverges.
Proof.
  rewrite diverges_inv. intros [H1 H2].
  assert (exists i j, (i < j <= size pm)%nat /\ ancestor pm ver i = ancestor pm ver j) as (i & j & Hij & He).
  { destruct (list_pigeonhole (ancestor pm ver <$> seq 0 (S (size pm))) (elements (dom pm)))
      as (i & j & v & Hij & Hi & Hj).
    - intros v. rewrite elem_of_elements, list_elem_of_fmap. intros (n & -> & Hn%elem_of_seq).
      apply elem_of_dom. specialize (H1 (S n)). unfold rounds in H1. specialize (H1 ltac:(lia)).
      change (ancestor pm ver (S n)) with (GetCtrlrParentVersion pm (ancestor pm ver n)) in H1.
      unfold GetCtrlrParentVersion in H1. destruct (pm !! _) eqn:E; [by eexists|done].
    - rewrite length_fmap, length_seq. change (length (elements (dom pm))) with (size (dom pm)).
      rewrite size_dom. lia.
    - rewrite list_lookup_fmap in Hi, Hj. apply fmap_Some in Hi as (i' & Hi & Ei), Hj as (j' & Hj & Ej).
      apply lookup_seq in Hi as [-> Hi], Hj as [-> Hj]. exists i, j. split; [lia|].
      etransitivity; [symmetry; exact Ei|exact Ej]. }
  intros fuel. apply diverges_inv. unfold rounds in *.
  split; intros n _; destruct (ancestor_repeats pm ver i j n ltac:(lia) He) as (k & Hk & ->);
    [apply H1|apply H2]; lia.
Qed.

(** ** What a file says *)

Definition parent_of conf v : string :=
  pfc_conf_get_string (pfc_conf_get_map conf "version_definition" v) "parent" "".

(** A version and its parents, up to one that has none. *)
Inductive ancestors conf : string -> list string -> Prop :=
| anc_nil : ancestors conf "" []
| anc_cons v l : v <> ""%string -> ancestors conf (parent_of conf v) l -> ancestors conf v (v :: l).

Lemma ancestors_fun conf v l1 l2 : ancestors conf v l1 -> ancestors conf v l2 -> l1 = l2.
Proof.
  intros H1. revert l2. induction H1 as [|v l Hv H1 IH]; intros l2 H2; inversion H2; try done.
  f_equal. by apply IH.
Qed.

Lemma ancestors_suffix conf v l x : ancestors conf v l -> x ∈ l -> exists l', ancestors conf x l' /\ l' `suffix_of` l.
Proof.
  induction 1 as [|v l Hv H1 IH]; [by intros ?%not_elem_of_nil|]. intros [->|Hx]%elem_of_cons.
  - exists (v :: l). split; [by constructor|done].
  - destruct (IH Hx) as (l' & Ha & Hs). exists l'. split; [done|]. by apply suffix_cons_r.
Qed.

Lemma ancestors_NoDup conf v l : ancestors conf v l -> NoDup l.
Proof.
  induction 1 as [|v l Hv H1 IH]; [constructor|]. constructor; [|done]. intros Hin.
  destruct (ancestors_suffix _ _ _ _ H1 Hin) as (l' & Ha & Hs).
  rewrite (ancestors_fun _ _ _ (v :: l) Ha) in Hs by by constructor.
  apply suffix_length in Hs. cbn in Hs. lia.
Qed.

(** *** A type of keys, for the versions [l] *)

Section Spec.

Variables (junk : list bool) (conf : conf_file_t).

(** The versions from the first that has a block for the type. *)
Fixpoint from_block (ktname : string) l : list string :=
  match l with
  | [] => []
  | v :: rest => match pfc_conf_get_map conf ktname v with Some _ => l | None => from_block ktname rest end
  end.

Definition count_spec (ktname : string) l : Z :=
  default 0 (first (fun v => let b := pfc_conf_get_map conf ktname v in
    if pfc_conf_is_defined b "instance_count" then Some (pfc_conf_get_uint32 b "instance_count" 0) else None) l).

(** Create, update, read and read of state. *)
Definition Availability : Type := Z * Z * Z * Z.
Definition q_create (q : Availability) : Z := q.1.1.1.
Definition q_update (q : Availability) : Z := q.1.1.2.
Definition q_read (q : Availability) : Z := q.1.2.
Definition q_state (q : Availability) : Z := q.2.

Definition availability block (attrname : string) : Availability :=
  let l := (fun b : bool => if b then 1 else 0) <$> pfc_conf_array_bool_range block attrname 0 4 junk in
  let at_ i := default 0 (l !! i) in (at_ 0%nat, at_ 1%nat, at_ 2%nat, at_ 3%nat).

Definition attr_block (ktname attrname : string) l : option pfc_cfblk_t :=
  first (fun v => let b := pfc_conf_get_map conf ktname v in
    if pfc_conf_is_defined b attrname then Some b else None) l.

(** Each attribute as the nearest version defines it; after the first that no
    version defines, nothing is available. *)
Fixpoint attrs_spec (ktname : string) (attrs : list KtAttrMap) l : list Availability :=
  match attrs with
  | [] => []
  | a :: rest =>
      match attr_block ktname (attr_name a) l with
      | Some b => availability b (attr_name a) :: attrs_spec ktname rest l
      | None => replicate (length attrs) (0, 0, 0, 0)
      end
  end.

Definition cells (q : list Availability) (f : Availability -> Z) : list Z :=
  match q with [] => [0] | _ => f <$> q end.
Definition kt_spec (row : KtMap) l : option KtCapability :=
  match from_block (kt_name row) l with
  | [] => None
  | l' =>
      let q := attrs_spec (kt_name row) (attr_map row) l' in
      Some (mkKtCap (count_spec (kt_name row) l')
              (Some (mkAttrCap (Z.of_nat (length (attr_map row))) (Some (cells q q_create))
                       (Some (cells q q_update)) (Some (cells q q_read)) (Some (cells q q_state)))))
  end.

Lemma attrs_spec_length ktname attrs l : length (attrs_spec ktname attrs l) = length attrs.
Proof.
  induction attrs as [|a rest IH]; [done|]. cbn [attrs_spec]. destruct (attr_block _ _ _); cbn [length].
  - by rewrite IH.
  - by rewrite length_replicate.
Qed.

(** ** The loops *)

Context (pm : gmap string string).

Lemma write_cell_run d k x (v : Z) :
  x = 0 -> write (Some (d ++ replicate (S k) x)) (Z.of_nat (length d)) v = Ret (Some ((d ++ [v]) ++ replicate k 0)).
Proof.
  intros ->. unfold write. rewrite length_app, length_replicate, bool_decide_eq_true_2 by lia.
  rewrite Nat2Z.id, insert_app_r_alt by lia. rewrite Nat.sub_diag. cbn. by rewrite <- app_assoc.
Qed.

(** Attributes that are loaded, and those that are not yet. *)
Definition loaded (n : Z) (q : list Availability) (k : nat) : KtAttrCapability :=
  mkAttrCap n (Some ((q_create <$> q) ++ replicate k 0)) (Some ((q_update <$> q) ++ replicate k 0))
    (Some ((q_read <$> q) ++ replicate k 0)) (Some ((q_state <$> q) ++ replicate k 0)).

Lemma set_attr_run n q k capa_list :
  n = Z.of_nat (length q + S k) ->
  SetAttrCap (loaded n q (S k)) (Z.of_nat (length q)) capa_list
  = Ret (true, loaded n (q ++ [(default 0 (capa_list !! 0%nat), default 0 (capa_list !! 1%nat),
                                default 0 (capa_list !! 2%nat), default 0 (capa_list !! 3%nat))]) k).
Proof.
  intros ->. unfold SetAttrCap. cbn [loaded num_attrs_ create_cap_ update_cap_ read_cap_ state_cap_].
  rewrite bool_decide_eq_false_2 by lia.
  replace (Z.of_nat (length q)) with (Z.of_nat (length (q_create <$> q))) at 1 by by rewrite length_fmap.
  rewrite write_cell_run by done. cbn [rbind].
  replace (Z.of_nat (length q)) with (Z.of_nat (length (q_update <$> q))) at 1 by by rewrite length_fmap.
  rewrite write_cell_run by done. cbn [rbind].
  replace (Z.of_nat (length q)) with (Z.of_nat (length (q_read <$> q))) at 1 by by rewrite length_fmap.
  rewrite write_cell_run by done. cbn [rbind].
  replace (Z.of_nat (length q)) with (Z.of_nat (length (q_state <$> q))) at 1 by by rewrite length_fmap.
  rewrite write_cell_run by done. cbn [rbind]. unfold loaded. by rewrite !fmap_app.
Qed.

Lemma load_attrs_run ktname ver l q attrs n :
  lineage (rounds pm) pm ver = Some l -> n = Z.of_nat (length q + length attrs) ->
  exists b, load_attrs junk conf pm ktname ver (Z.of_nat (length q)) attrs (loaded n q (length attrs))
            = Ret (b, loaded n (q ++ attrs_spec ktname attrs l) 0).
Proof.
  intros Hl. revert q. induction attrs as [|a rest IH]; intros q Hn; cbn [load_attrs length attrs_spec].
  { exists true. by rewrite app_nil_r. }
  unfold LoadAttrCapability. rewrite (find_version_first _ _ _ _ _ Hl). cbn [rbind].
  fold (attr_block ktname (attr_name a) l). destruct (attr_block ktname (attr_name a) l) as [b|].
  - rewrite set_attr_run by done. cbn [rbind].
    destruct (IH (q ++ [availability b (attr_name a)])) as [r Er].
    { rewrite length_app. cbn [length] in *. lia. }
    exists r. rewrite length_app in Er. cbn [length] in Er.
    replace (Z.of_nat (length q + 1)) with (Z.of_nat (length q) + 1) in Er by lia.
    rewrite <- app_assoc in Er. exact Er.
  - exists false. unfold loaded. rewrite !fmap_app, !fmap_replicate, !app_nil_r. done.
Qed.

Lemma load_kt_run row ver l kc :
  lineage (rounds pm) pm ver = Some l ->
  exists b, LoadKtCapability junk conf pm row ver kc
    = Ret (b, let q := attrs_spec (kt_name row) (attr_map row) l in
              mkKtCap (instance_count_ kc)
                (Some (mkAttrCap (Z.of_nat (length (attr_map row))) (Some (cells q q_create))
                         (Some (cells q q_update)) (Some (cells q q_read)) (Some (cells q q_state))))).
Proof.
  intros Hl. unfold LoadKtCapability. destruct (attr_map row) as [|a rest] eqn:Ea; [by exists true|].
  rewrite <- Ea.
  destruct (load_attrs_run (kt_name row) ver l [] (attr_map row) (Z.of_nat (length (attr_map row))) Hl) as [b E];
    [done|]. exists b.
  assert (KtAttrCapability_Init (Z.of_nat (length (attr_map row)))
          = loaded (Z.of_nat (length (attr_map row))) [] (length (attr_map row))) as ->.
  { unfold KtAttrCapability_Init, loaded. rewrite bool_decide_eq_false_2 by (rewrite Ea; cbn; lia).
    by rewrite Nat2Z.id. }
  change (Z.of_nat (length [])) with 0 in E. rewrite E. cbn [rbind app]. unfold loaded. rewrite !app_nil_r.
  pose proof (attrs_spec_length (kt_name row) (attr_map row) l) as Hlen.
  destruct (attrs_spec (kt_name row) (attr_map row) l); [by rewrite Ea in Hlen|done].
Qed.

(** From the version of the block on, the parents are the rest. *)
Lemma from_block_first ktname ver l :
  lineage (rounds pm) pm ver = Some l ->
  match from_block ktname l with
  | [] => first (fun v => match pfc_conf_get_map conf ktname v with Some _ => Some v | None => None end) l = None
  | v :: l' =>
      first (fun v => match pfc_conf_get_map conf ktname v with Some _ => Some v | None => None end) l = Some v /\
      lineage (rounds pm) pm v = Some (v :: l')
  end.
Proof.
  revert ver. induction l as [|x l IH]; intros ver Hl; [done|]. cbn [from_block first].
  assert (ver = x /\ exists f, lineage f pm (GetCtrlrParentVersion pm x) = Some l) as [-> [f Hf]].
  { unfold rounds in Hl. cbn [lineage] in Hl. destruct (ver ==? ""%string); [done|].
    apply fmap_Some in Hl as (l1 & Hl & [= -> ->]). eauto. }
  destruct (pfc_conf_get_map conf ktname x) as [b|]; [done|].
  apply (IH (GetCtrlrParentVersion pm x)).
  apply (lineage_more f); [done|]. apply lineage_length in Hl. cbn in Hl. lia.
Qed.

(** What is loaded for a version. *)
Lemma load_types_run ver l rows acc :
  lineage (rounds pm) pm ver = Some l ->
  load_types junk conf pm ver rows acc
  = Ret (foldl (fun acc row => match kt_spec row l with
                               | Some kc => <[keytype row := kc]> acc
                               | None => acc
                               end) acc rows).
Proof.
  intros Hl. revert acc. induction rows as [|row rows IH]; intros acc; [done|]. cbn [load_types foldl].
  rewrite (find_version_first _ _ _ _ _ Hl). cbn [rbind].
  pose proof (from_block_first (kt_name row) ver l Hl) as Hb. unfold kt_spec.
  destruct (from_block (kt_name row) l) as [|v l']; [rewrite Hb; apply IH|].
  destruct Hb as [-> Hv]. unfold LoadInstanceCount. rewrite (find_version_first _ _ _ _ _ Hv). cbn [rbind].
  destruct (load_kt_run row v (v :: l') (set_instance_count (count_spec (kt_name row) (v :: l')) KtCapability_new) Hv)
    as [b E].
  unfold count_spec in E at 1. rewrite E. cbn [rbind]. apply IH.
Qed.

End Spec.

(** ** A file *)

Lemma types_lookup junk conf l rows (acc : CtrlrCapability) kt :
  NoDup (keytype <$> rows) ->
  foldl (fun acc row => match kt_spec junk conf row l with
                        | Some kc => <[keytype row := kc]> acc
                        | None => acc
                        end) acc rows !! kt
  = match list_find (fun row => keytype row = kt) rows with
    | Some (_, row) => match kt_spec junk conf row l with Some kc => Some kc | None => acc !! kt end
    | None => acc !! kt
    end.
Proof.
  revert acc. induction rows as [|row rows IH]; intros acc Hnd; [done|]. cbn [foldl].
  rewrite fmap_cons in Hnd. apply list.NoDup_cons in Hnd as [Hrow Hnd]. rewrite IH by done. cbn [list_find].
  destruct (decide (keytype row = kt)) as [<-|Hne].
  - assert (list_find (fun row' => keytype row' = keytype row) rows = None) as ->.
    { apply list_find_None. apply list.Forall_forall. intros x Hx Hk. apply Hrow.
      apply list_elem_of_fmap. eauto. }
    destruct (kt_spec junk conf row l); [exact (lookup_insert_eq _ _ _)|done].
  - assert (match kt_spec junk conf row l with
            | Some kc => <[keytype row := kc]> acc | None => acc end !! kt = acc !! kt) as ->.
    { destruct (kt_spec junk conf row l); [exact (lookup_insert_ne _ _ _ _ Hne)|done]. }
    destruct (list_find (fun row' => keytype row' = kt) rows) as [[i r]|]; done.
Qed.

(** The row of a type. *)
Definition row_of (kt : Z) : option KtMap := snd <$> list_find (fun row => keytype row = kt) kt_map.
Definition capability_spec junk conf l (kt : Z) : option KtCapability :=
  row ← row_of kt; kt_spec junk conf row l.

Lemma load_ctrlr_run junk conf pm ver l :
  lineage (rounds pm) pm ver = Some l ->
  exists c, LoadCtrlrCapability junk conf pm ver = Ret (true, c) /\
            forall kt, c !! kt = capability_spec junk conf l kt.
Proof.
  intros Hl. unfold LoadCtrlrCapability. rewrite (load_types_run _ _ _ _ _ _ _ Hl). eexists. split; [done|].
  intros kt. rewrite types_lookup by apply kt_map_NoDup. unfold capability_spec, row_of.
  destruct (list_find _ kt_map) as [[i row]|]; cbn; [|done]. by destruct (kt_spec junk conf row l).
Qed.

Section File.

Context (junk : list bool) conf (b : conf_block_t) names.
Hypothesis Hnames : b !! "names"%string = Some (CONF_STRING_ARRAY names).

Lemma name_at (i : nat) : pfc_conf_array_stringat (Some b) "names" i None = names !! i.
Proof. unfold pfc_conf_array_stringat, conf_get_param. cbn. rewrite Hnames. by destruct (names !! i). Qed.

Lemma load_parent pm v : LoadParentVersion conf v pm = <[v := parent_of conf v]> pm.
Proof. unfold LoadParentVersion, parent_of. by destruct (pfc_conf_get_map _ _ _). Qed.

Lemma load_parents_run num i pm :
  (i + num = length names)%nat ->
  let pm' := load_parents conf (Some b) num i pm in
  (forall v, v ∈ drop i names -> pm' !! v = Some (parent_of conf v)) /\
  (forall v, pm !! v = Some (parent_of conf v) -> pm' !! v = Some (parent_of conf v)).
Proof.
  revert i pm. induction num as [|num IH]; intros i pm Hi; cbn [load_parents].
  { split; [|done]. intros v. rewrite drop_ge by lia. by intros ?%not_elem_of_nil. }
  destruct (lookup_lt_is_Some_2 names i) as [x Hx]; [lia|]. rewrite name_at, Hx, load_parent.
  destruct (IH (S i) (<[x := parent_of conf x]> pm)) as [H1 H2]; [lia|]. split.
  - intros v. rewrite (drop_S _ x i Hx). intros [->|Hv]%elem_of_cons; [|by apply H1].
    apply H2. by rewrite lookup_insert_eq.
  - intros v Hv. apply H2. destruct (decide (x = v)) as [->|Hne];
      [by rewrite lookup_insert_eq|by rewrite lookup_insert_ne].
Qed.

(** Versions with their parents, all listed. *)
Hypothesis Hanc : forall v, v ∈ names -> exists l, ancestors conf v l /\ l ⊆ names.
Hypothesis Hact : forall v, v ∈ names -> is_Some (LoadActualVersion conf v).

Lemma ancestors_lineage pm v l :
  (forall v, v ∈ names -> pm !! v = Some (parent_of conf v)) -> ancestors conf v l -> l ⊆ names ->
  lineage (rounds pm) pm v = Some l.
Proof.
  intros Hpm Ha Hl.
  assert (exists f, lineage f pm v = Some l) as [f Hf].
  { induction Ha as [|v l Hv Ha IH]; [by exists 0%nat|]. destruct IH as [f Hf]; [set_solver|].
    exists (S f). cbn [lineage]. rewrite bool_decide_eq_false_2 by done.
    assert (GetCtrlrParentVersion pm v = parent_of conf v) as ->.
    { unfold GetCtrlrParentVersion. by rewrite Hpm by set_solver. }
    by rewrite Hf. }
  apply (lineage_more f); [done|].
  assert (list_to_set l ⊆ dom pm) as Hs.
  { intros x Hx%elem_of_list_to_set. apply elem_of_dom. rewrite Hpm by set_solver. eauto. }
  apply subseteq_size in Hs. rewrite size_list_to_set, size_dom in Hs by by eapply ancestors_NoDup.
  unfold rounds. lia.
Qed.

Lemma load_versions_run pm num i ccc :
  (forall v, v ∈ names -> pm !! v = Some (parent_of conf v)) -> (i + num = length names)%nat ->
  exists ccc', load_versions junk conf (Some b) pm num i ccc = Ret (true, ccc') /\
    (forall v, v ∈ drop i names -> exists c l, capa_map ccc' !! v = Some c /\ ancestors conf v l /\
       (forall kt, c !! kt = capability_spec junk conf l kt) /\
       actual_version_map_ ccc' !! v = LoadActualVersion conf v) /\
    (forall v, v ∉ drop i names -> capa_map ccc' !! v = capa_map ccc !! v /\
       actual_version_map_ ccc' !! v = actual_version_map_ ccc !! v).
Proof.
  intros Hpm. revert i ccc. induction num as [|num IH]; intros i ccc Hi; cbn [load_versions].
  { exists ccc. rewrite drop_ge by lia. split_and!; [done| |done]. by intros v ?%not_elem_of_nil. }
  destruct (lookup_lt_is_Some_2 names i) as [x Hx]; [lia|]. rewrite name_at, Hx.
  assert (x ∈ names) as Hin by by eapply list_elem_of_lookup_2.
  destruct (Hanc x Hin) as (l & Ha & Hsub), (Hact x Hin) as [vl Hvl].
  destruct (load_ctrlr_run junk conf pm x l) as (c & E & Hc); [by apply ancestors_lineage|].
  rewrite E, Hvl. cbn [rbind negb].
  destruct (IH (S i) (mkCommonCapa (<[x := c]> (capa_map ccc)) (<[x := vl]> (actual_version_map_ ccc))))
    as (ccc' & E' & H1 & H2); [lia|].
  exists ccc'. rewrite (drop_S _ x i Hx). split_and!; [done| |].
  - intros v [->|Hv]%elem_of_cons; [|by apply H1].
    destruct (decide (x ∈ drop (S i) names)) as [Hd|Hd]; [by apply H1|]. destruct (H2 x Hd) as [-> ->].
    exists c, l. cbn. by rewrite !lookup_insert_eq.
  - intros v [Hne Hv]%not_elem_of_cons. destruct (H2 v Hv) as [-> ->]. cbn. by rewrite !lookup_insert_ne.
Qed.

End File.

(** ** Queries after a load *)


Section Theorems.

Variables (pfc_conf_open : string -> option conf_file_t) (junk : list bool).
Implicit Types (m : CapaModule) (ctrlr_type : Z).

(** C15: A file in which every version reaches one without a parent through
    versions that are listed, and whose actual versions are well formed, is
    loaded completely and closed.  Then, for every listed version and type of
    keys, the module answers what the nearest version defines: a type is known
    if the version or one of its parents has a block for it; its number of
    instances and each attribute are those of the first version, from that
    block on, that defines them, as long as all attributes before it are
    defined.  The answers do not depend on what was loaded before, other
    versions are unknown, and other types of controllers are as they were. *)
Theorem capabilities_inherited m ctrlr_type file ccc conf (b : conf_block_t) names
    (Hfile : capa_file ctrlr_type = Some file) (Hccc : ctrlr_common_map_ m !! ctrlr_type = Some ccc)
    (Hopen : pfc_conf_open file = Some conf)
    (Hb : pfc_conf_get_block conf "version_list" = Some b)
    (Hnames : b !! "names"%string = Some (CONF_STRING_ARRAY names))
    (Hanc : forall v, v ∈ names -> exists l, ancestors conf v l /\ l ⊆ names)
    (Hact : forall v, v ∈ names -> is_Some (LoadActualVersion conf v)) :
  exists m', LoadCapabilityFile pfc_conf_open junk ctrlr_type m = Ret (true, m') /\
    open_files m' = open_files m /\
    (forall v l kt, v ∈ names -> ancestors conf v l ->
       let kc := capability_spec junk conf l kt in
       GetInstanceCount m' ctrlr_type v kt = instance_count_ <$> kc /\
       GetCreateCapability m' ctrlr_type v kt = kc ≫= GetKtCreateCapability /\
       GetUpdateCapability m' ctrlr_type v kt = kc ≫= GetKtUpdateCapability /\
       GetReadCapability m' ctrlr_type v kt = kc ≫= GetKtReadCapability /\
       GetStateCapability m' ctrlr_type v kt = kc ≫= GetKtStateCapability) /\
    (forall v, v ∉ names -> find_capability m' ctrlr_type v = None) /\
    (forall t, t <> ctrlr_type -> ctrlr_common_map_ m' !! t = ctrlr_common_map_ m !! t).
Proof.
  unfold LoadCapabilityFile. rewrite Hfile, Hccc, Hopen, Hb.
  assert (Z.to_nat (pfc_conf_array_size (Some b) "names") = length names) as ->.
  { unfold pfc_conf_array_size, conf_get_param. cbn. rewrite Hnames. lia. }
  set (m1 := set_open_files _ _).
  destruct (load_parents_run conf b names Hnames (length names) 0 (parent_map_ m1)) as [Hpm _]; [done|].
  destruct (load_versions_run junk conf b names Hnames Hanc Hact _ (length names) 0 (mkCommonCapa ∅ ∅) Hpm)
    as (ccc' & -> & Hv & Hn); [done|].
  cbn [rbind]. eexists. split_and!; [done|done| | |].
  - intros v l kt Hin Hl. destruct (Hv v Hin) as (c & l' & Hc & Hl' & Hkt & _).
    rewrite (ancestors_fun _ _ _ _ Hl' Hl) in Hkt.
    unfold GetInstanceCount, GetCreateCapability, GetUpdateCapability, GetReadCapability, GetStateCapability,
      find_capability. cbn [ctrlr_common_map_ set_open_files set_common]. rewrite lookup_insert_eq. cbn [mbind option_bind].
    rewrite Hc. cbn [mbind option_bind]. unfold Ctrlr_GetCapability, Ctrlr_GetCreateCapability, Ctrlr_GetUpdateCapability,
      Ctrlr_GetReadCapability, Ctrlr_GetStateCapability. rewrite Hkt. by destruct (capability_spec junk conf l kt).
  - intros v Hin. destruct (Hn v Hin) as [Hc _]. unfold find_capability.
    cbn [ctrlr_common_map_ set_open_files set_common]. rewrite lookup_insert_eq. cbn. by rewrite Hc.
  - intros t Ht. cbn. by rewrite !lookup_insert_ne.
Qed.

(** ** Actual versions *)

(** -1 accepts everything from there on. *)
Fixpoint bound (l : list Z) : list Z :=
  match l with
  | [] => []
  | x :: rest => if x ==? -1 then [] else x :: bound rest
  end.
Fixpoint lex_le (xs ys : list Z) : bool :=
  match xs, ys with
  | [], _ => true
  | x :: xs', y :: ys' => (x <? y) || ((x ==? y) && lex_le xs' ys')
  | _ :: _, [] => false
  end.
Definition components (a : ActualVersion) : list Z := [major1 a; major2 a; minor a; update a].
Definition in_range (a : ActualVersion) : Prop := Forall (fun x => -1 <= x < 256) (components a).

Lemma validate_cons a rest (v1 v2 v3 v4 : Z) :
  in_range a -> validate (a :: rest) v1 v2 v3 v4 = lex_le (bound (components a)) [v1; v2; v3; v4] || validate rest v1 v2 v3 v4.
Proof.
  unfold in_range. destruct a as [a1 a2 a3 a4]. intros Hr.
  assert (forall x, x ∈ [a1; a2; a3; a4] -> x <> -1 -> u8 x = x) as Hu.
  { intros x Hx Hne. rewrite list.Forall_forall in Hr. specialize (Hr x Hx). apply Z.mod_small. lia. }
  cbn [validate components major1 major2 minor update bound].
  destruct (decide (a1 = -1)) as [->|H1]; [done|]. rewrite (bool_decide_eq_false_2 (a1 = -1)), (Hu a1) by set_solver.
  cbn [orb lex_le]. destruct (a1 <? v1) eqn:E1; [done|]. destruct (decide (a1 = v1)) as [->|N1].
  2:{ by rewrite (bool_decide_eq_false_2 (a1 = v1)). }
  rewrite (bool_decide_eq_true_2 (v1 = v1)) by done. cbn [andb orb].
  destruct (decide (a2 = -1)) as [->|H2]; [done|]. rewrite (bool_decide_eq_false_2 (a2 = -1)), (Hu a2) by set_solver.
  cbn [orb lex_le]. destruct (a2 <? v2) eqn:E2; [done|]. destruct (decide (a2 = v2)) as [->|N2].
  2:{ by rewrite (bool_decide_eq_false_2 (a2 = v2)). }
  rewrite (bool_decide_eq_true_2 (v2 = v2)) by done. cbn [andb orb].
  destruct (decide (a3 = -1)) as [->|H3]; [done|]. rewrite (bool_decide_eq_false_2 (a3 = -1)), (Hu a3) by set_solver.
  cbn [orb lex_le]. destruct (a3 <? v3) eqn:E3; [done|]. destruct (decide (a3 = v3)) as [->|N3].
  2:{ by rewrite (bool_decide_eq_false_2 (a3 = v3)). }
  rewrite (bool_decide_eq_true_2 (v3 = v3)) by done. cbn [andb orb].
  destruct (decide (a4 = -1)) as [->|H4]; [done|]. rewrite (bool_decide_eq_false_2 (a4 = -1)), (Hu a4) by set_solver.
  cbn [orb lex_le]. rewrite andb_true_r.
  assert ((a4 <=? v4) = (a4 <? v4) || (a4 ==? v4)) as ->.
  { destruct (decide (a4 = v4)) as [->|N4].
    - rewrite bool_decide_eq_true_2, orb_true_r by done. apply Z.leb_refl.
    - rewrite bool_decide_eq_false_2, orb_false_r by done. apply eq_true_iff_eq. rewrite Z.leb_le, Z.ltb_lt. lia. }
  by destruct ((a4 <? v4) || (a4 ==? v4)).
Qed.

(** What the casts to [uint8_t] make of a component, -1 apart. *)
Definition taken_as (x : Z) : Z := if x ==? -1 then x else u8 x.
Definition taken (a : ActualVersion) : ActualVersion :=
  mkVer (taken_as (major1 a)) (taken_as (major2 a)) (taken_as (minor a)) (taken_as (update a)).

Lemma taken_as_range x : -1 <= taken_as x < 256.
Proof. unfold taken_as. case_bool_decide; [lia|]. pose proof (Z.mod_pos_bound x 256). unfold u8. lia. Qed.

Lemma taken_as_id x : -1 <= x < 256 -> taken_as x = x.
Proof. unfold taken_as. case_bool_decide; [done|]. intros. apply Z.mod_small. lia. Qed.

Lemma u8_taken_as x : u8 (taken_as x) = u8 x.
Proof. unfold taken_as. case_bool_decide; [done|]. apply Z.mod_mod. lia. Qed.

Lemma taken_as_any x : (taken_as x ==? -1) = (x ==? -1).
Proof.
  destruct (decide (x = -1)) as [->|Hx]; [done|]. unfold taken_as.
  rewrite (bool_decide_eq_false_2 (x = -1)) by done. pose proof (Z.mod_pos_bound x 256).
  apply bool_decide_eq_false_2. unfold u8. lia.
Qed.

Lemma taken_in_range a : in_range (taken a).
Proof. unfold in_range. repeat constructor; apply taken_as_range. Qed.

Lemma taken_id a : in_range a -> taken a = a.
Proof.
  unfold in_range. destruct a as [a1 a2 a3 a4]. intros Hr. rewrite list.Forall_forall in Hr.
  unfold taken. by f_equal; apply taken_as_id, Hr; set_solver.
Qed.

Lemma validate_taken a rest (v1 v2 v3 v4 : Z) :
  validate (a :: rest) v1 v2 v3 v4 = validate (taken a :: rest) v1 v2 v3 v4.
Proof. cbn [validate taken major1 major2 minor update]. by rewrite !taken_as_any, !u8_taken_as. Qed.

(** C31: A version that a controller reports is accepted for a configured
    version exactly if, for one of its actual versions, it is not less in the
    order of versions, in which only the components before the first -1 count.
    Components of actual versions are taken modulo 256, except for -1; those
    that fit a byte are thus taken as they are. *)
Theorem validation_is_order m ctrlr_type ccc (config_version : string) (vs : list ActualVersion)
    (v1 v2 v3 v4 : Z)
    (Hccc : ctrlr_common_map_ m !! ctrlr_type = Some ccc)
    (Hvs : actual_version_map_ ccc !! config_version = Some vs) :
  ValidateVersion m ctrlr_type config_version v1 v2 v3 v4
  = Ret (existsb (fun a => lex_le (bound (components (taken a))) [v1; v2; v3; v4]) vs) /\
  (forall a, in_range a -> taken a = a).
Proof.
  split; [|exact taken_id].
  unfold ValidateVersion. rewrite Hccc, Hvs. f_equal. clear Hvs.
  induction vs as [|a vs IH]; [done|].
  rewrite validate_taken, validate_cons by apply taken_in_range. cbn [existsb]. by rewrite IH.
Qed.

End Theorems.

(** ** Limits *)

(** A version that is its own ancestor, below which a type has no block, is
    loaded for ever. *)
Theorem cyclic_versions_hang junk conf pm ver row rows acc
    (Hc : forall n, ancestor pm ver n <> ""%string)
    (Hn : forall n, pfc_conf_get_map conf (kt_name row) (ancestor pm ver n) = None) :
  load_types junk conf pm ver (row :: rows) acc = Diverges /\
  forall fuel, find_version fuel pm (fun v => match pfc_conf_get_map conf (kt_name row) v with
                                              | Some _ => Some v | None => None end) ver = Diverges.
Proof.
  assert (forall fuel, find_version fuel pm (fun v => match pfc_conf_get_map conf (kt_name row) v with
                                              | Some _ => Some v | None => None end) ver = Diverges) as Hd.
  { intros fuel. apply diverges_inv. split; [done|]. intros n _. by rewrite Hn. }
  split; [|done]. cbn [load_types]. by rewrite Hd.
Qed.

(** ** Witnesses *)

Module CapaSample.

Definition bools (l : list bool) : conf_param_t := CONF_BOOL_ARRAY l.
Definition all : conf_param_t := bools [true; true; true; true].
Definition reads : conf_param_t := bools [false; false; true; true].
(** 5.1 changes the number of networks and their description. *)
Definition conf : conf_file_t :=
  mkConf {["version_list" := {["names" := CONF_STRING_ARRAY ["5.0"; "5.1"]]}]}
    {["version_definition" :=
        {["5.0" := {["actual_version_count" := CONF_UINT32 1; "actual_version" := CONF_INT32_ARRAY [5; 0; -1; -1]]};
          "5.1" := {["parent" := CONF_STRING "5.0"; "actual_version_count" := CONF_UINT32 1;
                     "actual_version" := CONF_INT32_ARRAY [5; 1; -1; -1]]}]};
      "vtn" :=
        {["5.0" := {["instance_count" := CONF_UINT32 25; "description" := reads; "operstatus" := reads;
                     "alarm_status" := reads; "creation_time" := all; "last_update_time" := reads]};
          "5.1" := {["instance_count" := CONF_UINT32 30; "description" := all]}]}]}%string.
Definition open (file : string) : option conf_file_t :=
  if file ==? "pfc_capa.conf"%string then Some conf else None.
Definition junk : list bool := replicate 4 true.

Example inherited :
  match init open junk with
  | Ret m => (GetCreateCapability m UNC_CT_PFC "5.0" UNC_KT_VTN, GetCreateCapability m UNC_CT_PFC "5.1" UNC_KT_VTN,
              GetCreateCapability m UNC_CT_PFC "5.1" UNC_KT_VBRIDGE, GetInstanceCount m UNC_CT_ODC "5.0" UNC_KT_VTN)
  | _ => (None, None, None, None)
  end = (Some (25, (5, [0; 0; 0; 1; 0])), Some (30, (5, [1; 0; 0; 1; 0])), None, None).
Proof. vm_compute. reflexivity. Qed.

(** The wildcard is reported as the byte 255. *)
Example wildcard_reported :
  match init open junk with
  | Ret m => GetSupportedVersion m UNC_CT_PFC "5.0"
  | _ => Undefined
  end = Ret (Some (5, 0, 255, 255)).
Proof. vm_compute. reflexivity. Qed.

(** Files with one version and a block for networks. *)
Definition one_version (def vtn : conf_block_t) : conf_file_t :=
  mkConf {["version_list" := {["names" := CONF_STRING_ARRAY ["1.0"]]}]}
    {["version_definition" := {["1.0" := def]}; "vtn" := {["1.0" := vtn]}]}%string.
Definition odc_only (conf : conf_file_t) (file : string) : option conf_file_t :=
  if file ==? "odc_capa.conf"%string then Some conf else None.

(** An attribute that is missing hides those after it. *)
Example missing_hides :
  match init (odc_only (one_version ∅ {["operstatus" := all; "alarm_status" := all]}%string)) junk with
  | Ret m => GetCreateCapability m UNC_CT_ODC "1.0" UNC_KT_VTN
  | _ => None
  end = Some (0, (5, [0; 0; 0; 0; 0])).
Proof. vm_compute. reflexivity. Qed.

(** A count that is too large makes up a version that accepts all. *)
Example surplus_accepts :
  match init (odc_only (one_version {["actual_version_count" := CONF_UINT32 2;
                                      "actual_version" := CONF_INT32_ARRAY [9; 0; 0; 0]]}%string ∅)) junk with
  | Ret m => ValidateVersion m UNC_CT_ODC "1.0" 1 0 0 0
  | _ => Undefined
  end = Ret true.
Proof. vm_compute. reflexivity. Qed.

(** Actual versions that are not well formed leave the file open. *)
Example file_left_open :
  match init (odc_only (one_version {["actual_version_count" := CONF_UINT32 1]}%string ∅)) junk with
  | Ret m => open_files m
  | _ => 0%nat
  end = 1%nat.
Proof. vm_compute. reflexivity. Qed.

(** A version without actual versions, and a type that is not kept. *)
Example supported_undefined :
  match init (odc_only (one_version ∅ ∅)) junk with
  | Ret m => (GetSupportedVersion m UNC_CT_ODC "1.0", ValidateVersion m UNC_CT_VAN "1.0" 1 0 0 0)
  | _ => (Ret None, Ret true)
  end = (Undefined, Undefined).
Proof. vm_compute. reflexivity. Qed.

(** The guard of an index lets the one past the end through. *)
Example set_past_end : SetAttrCap (KtAttrCapability_Init 2) 2 [1; 1; 1; 1] = Undefined.
Proof. reflexivity. Qed.

Example logical_ports_unknown : row_of UNC_KT_LOGICAL_PORT = None.
Proof. reflexivity. Qed.

Definition start : CapaModule :=
  mkCapa ∅ (<[UNC_CT_PFC := no_common]> ∅) 0.

End CapaSample.

Lemma capabilities_inherited_witness :
  exists m', LoadCapabilityFile CapaSample.open CapaSample.junk UNC_CT_PFC CapaSample.start = Ret (true, m') /\
    GetInstanceCount m' UNC_CT_PFC "5.1" UNC_KT_VTN = Some 30.
Proof.
  assert (ancestors CapaSample.conf "5.0" ["5.0"%string]) as H0.
  { constructor; [done|]. apply anc_nil. }
  assert (ancestors CapaSample.conf "5.1" ["5.1"; "5.0"]%string) as H1 by by constructor.
  destruct (capabilities_inherited CapaSample.open CapaSample.junk CapaSample.start UNC_CT_PFC "pfc_capa.conf"
    no_common CapaSample.conf {["names"%string := CONF_STRING_ARRAY ["5.0"; "5.1"]%string]} ["5.0"; "5.1"]%string)
    as (m' & E & _ & Hq & _).
  - reflexivity.
  - reflexivity.
  - reflexivity.
  - reflexivity.
  - reflexivity.
  - intros v [->|[->|[]%not_elem_of_nil]%elem_of_cons]%elem_of_cons; [exists ["5.0"%string]|exists ["5.1"; "5.0"]%string];
      (split; [done|]); set_solver.
  - intros v [->|[->|[]%not_elem_of_nil]%elem_of_cons]%elem_of_cons; by eexists.
  - exists m'. split; [exact E|]. assert ("5.1"%string ∈ ["5.0"; "5.1"]%string) as Hin by (right; left).
    etransitivity; [exact (proj1 (Hq "5.1"%string ["5.1"; "5.0"]%string UNC_KT_VTN Hin H1))|].
    vm_compute. reflexivity.
Defined.

Lemma validation_is_order_witness :
  let m := mkCapa ∅ (<[UNC_CT_ODC := mkCommonCapa ∅ (<["1.0"%string := [mkVer 1 256 (-1) (-1)]]> ∅)]> ∅) 0 in
  ValidateVersion m UNC_CT_ODC "1.0" 1 2 0 0 = Ret true /\ ValidateVersion m UNC_CT_ODC "1.0" 0 2 0 0 = Ret false.
Proof.
  intros m. set (vs := [mkVer 1 256 (-1) (-1)]). split.
  - rewrite (proj1 (validation_is_order m UNC_CT_ODC (mkCommonCapa ∅ (<["1.0"%string := vs]> ∅)) "1.0" vs
      1 2 0 0 eq_refl eq_refl)). reflexivity.
  - rewrite (proj1 (validation_is_order m UNC_CT_ODC (mkCommonCapa ∅ (<["1.0"%string := vs]> ∅)) "1.0" vs
      0 2 0 0 eq_refl eq_refl)). reflexivity.
Defined.
