(* ===== verification/UpllLock.v ===== *)
(** * The locks of UPLL on its configurations

    UPLL has a readers/writer lock per configuration ([upll/config_lock.cc]).
    A handler locks those that it needs for a scope ([ScopedConfigLock]), in an
    order of their own; requests on keys take and give back the same way
    ([upll/config_mgr.cc]).  Threads that run such work exclude one another as
    the locks say and never wait for each other in a circle. *)

From Stdlib Require Import Sorting.Sorted.
From S2P Require Import Prelude TcTypes DrvTxn DrvRequest.

Local Open Scope Z_scope.

(** ** Configurations *)

Definition UPLL_DT_INVALID : Z := UNC_DT_INVALID.
Definition UPLL_DT_STATE : Z := UNC_DT_STATE.
Definition UPLL_DT_CANDIDATE : Z := UNC_DT_CANDIDATE.
Definition UPLL_DT_RUNNING : Z := UNC_DT_RUNNING.
Definition UPLL_DT_STARTUP : Z := UNC_DT_STARTUP.
Definition UPLL_DT_IMPORT : Z := UNC_DT_IMPORT.
Definition UPLL_DT_AUDIT : Z :=
  UNC_DT_STATE + UNC_DT_CANDIDATE + UNC_DT_RUNNING + UNC_DT_STARTUP + UNC_DT_IMPORT.

Inductive LockType := CFG_READ_LOCK | CFG_WRITE_LOCK.

#[export] Instance LockType_eq_dec : EqDecision LockType.
Proof. solve_decision. Defined.

Implicit Types (dt : Z) (lt : LockType).

(** ** Operations of [ConfigLock] *)

(** The calls that an operation makes on the five locks, in order; what it
    returns depends on its arguments only. *)
Inductive Act :=
| Acquire dt lt
| Release dt.
Definition Calls : Type := list Act * bool.

(** The configurations that have a lock. *)
Definition lockable dt : bool :=
  (dt ==? UPLL_DT_CANDIDATE) || (dt ==? UPLL_DT_RUNNING) || (dt ==? UPLL_DT_STARTUP) ||
  (dt ==? UPLL_DT_IMPORT) || (dt ==? UPLL_DT_AUDIT).

Definition ReadLock dt : Calls := if lockable dt then ([Acquire dt CFG_READ_LOCK], true) else ([], false).
Definition WriteLock dt : Calls := if lockable dt then ([Acquire dt CFG_WRITE_LOCK], true) else ([], false).
Definition Lock dt lt : Calls :=
  match lt with CFG_READ_LOCK => ReadLock dt | CFG_WRITE_LOCK => WriteLock dt end.
Definition Unlock dt : Calls := if lockable dt then ([Release dt], true) else ([], false).

(** [if (c1) return c2; return false;] *)
Definition and_then (c1 c2 : Calls) : Calls := if c1.2 then (c1.1 ++ c2.1, c2.2) else (c1.1, false).

Definition Lock2 dt1 lt1 dt2 lt2 : Calls :=
  if dt1 ==? dt2 then ([], false)
  else if dt1 <? dt2 then and_then (Lock dt1 lt1) (Lock dt2 lt2)
  else and_then (Lock dt2 lt2) (Lock dt1 lt1).
Definition Unlock2 dt1 dt2 : Calls :=
  if dt1 ==? dt2 then ([], false)
  else
    let (lower, higher) := if dt1 <? dt2 then (dt1, dt2) else (dt2, dt1) in
    let c1 := Unlock higher in
    let c2 := Unlock lower in
    (c1.1 ++ c2.1, c1.2 && c2.2).

Definition Lock3 dt1 lt1 dt2 lt2 dt3 lt3 : Calls :=
  let min_dt := Z.min dt1 (Z.min dt2 dt3) in
  if min_dt ==? dt1 then and_then (Lock dt1 lt1) (Lock2 dt2 lt2 dt3 lt3)
  else if min_dt ==? dt2 then and_then (Lock dt2 lt2) (Lock2 dt1 lt1 dt3 lt3)
  else and_then (Lock dt3 lt3) (Lock2 dt1 lt1 dt2 lt2).
Definition Unlock3 dt1 dt2 dt3 : Calls :=
  let max_dt := Z.max dt1 (Z.max dt2 dt3) in
  if max_dt ==? dt1 then and_then (Unlock dt1) (Unlock2 dt2 dt3)
  else if max_dt ==? dt2 then and_then (Unlock dt2) (Unlock2 dt1 dt3)
  else and_then (Unlock dt3) (Unlock2 dt1 dt2).

(** [std::map]: sorted, one entry per key. *)
Fixpoint map_set {A} dt (v : A) (m : list (Z * A)) : list (Z * A) :=
  match m with
  | [] => [(dt, v)]
  | (k, x) :: rest =>
      if dt <? k then (dt, v) :: m
      else if dt ==? k then (dt, v) :: rest
      else (k, x) :: map_set dt v rest
  end.
Definition map_of {A} (l : list (Z * A)) : list (Z * A) := foldl (fun m p => map_set p.1 p.2 m) [] l.

Fixpoint lock_all (m : list (Z * LockType)) : Calls :=
  match m with
  | [] => ([], true)
  | (dt, lt) :: rest => if dt ==? UPLL_DT_INVALID then lock_all rest else and_then (Lock dt lt) (lock_all rest)
  end.
Fixpoint unlock_all (l : list Z) : Calls :=
  match l with
  | [] => ([], true)
  | dt :: rest => if dt ==? UPLL_DT_INVALID then unlock_all rest else and_then (Unlock dt) (unlock_all rest)
  end.
Definition Lock5 dt1 lt1 dt2 lt2 dt3 lt3 dt4 lt4 dt5 lt5 : Calls :=
  lock_all (map_of [(dt1, lt1); (dt2, lt2); (dt3, lt3); (dt4, lt4); (dt5, lt5)]).
Definition Unlock5 dt1 dt2 dt3 dt4 dt5 : Calls :=
  unlock_all (reverse (map_of ((fun dt => (dt, CFG_READ_LOCK)) <$> [dt1; dt2; dt3; dt4; dt5])).*1).

(** ** Scopes *)

(** The constructors of [ScopedConfigLock]. *)
Inductive Scope :=
| Scope1 dt lt
| Scope2 dt1 lt1 dt2 lt2
| Scope3 dt1 lt1 dt2 lt2 dt3 lt3
| Scope5 dt1 lt1 dt2 lt2 dt3 lt3 dt4 lt4 dt5 lt5.

(** What they and the destructor return is ignored. *)
Definition enter (s : Scope) : list Act :=
  (match s with
   | Scope1 dt lt => Lock dt lt
   | Scope2 dt1 lt1 dt2 lt2 => Lock2 dt1 lt1 dt2 lt2
   | Scope3 dt1 lt1 dt2 lt2 dt3 lt3 => Lock3 dt1 lt1 dt2 lt2 dt3 lt3
   | Scope5 dt1 lt1 dt2 lt2 dt3 lt3 dt4 lt4 dt5 lt5 => Lock5 dt1 lt1 dt2 lt2 dt3 lt3 dt4 lt4 dt5 lt5
   end).1.
Definition leave (s : Scope) : list Act :=
  (match s with
   | Scope1 dt _ => Unlock dt
   | Scope2 dt1 _ dt2 _ => Unlock2 dt1 dt2
   | Scope3 dt1 _ dt2 _ dt3 _ => Unlock3 dt1 dt2 dt3
   | Scope5 dt1 _ dt2 _ dt3 _ dt4 _ dt5 _ => Unlock5 dt1 dt2 dt3 dt4 dt5
   end).1.

(** ** Requests *)

Definition UNC_OP_CONTROL : Z := 4.
Definition UNC_OP_RENAME : Z := 5.
Definition UNC_OP_READ_NEXT : Z := 7.
Definition UNC_OP_READ_BULK : Z := 8.
Definition UNC_OP_READ_SIBLING : Z := 9.
Definition UNC_OP_READ_SIBLING_BEGIN : Z := 10.
Definition UNC_OP_READ_SIBLING_COUNT : Z := 11.

(** The locks of an operation: [None] where it returns [false]; the second
    stays [UPLL_DT_INVALID] where one lock is enough. *)
Definition FindRequiredLocks (oper : Z) dt : option (Z * LockType * option (Z * LockType)) :=
  if (oper ==? UNC_OP_READ) || (oper ==? UNC_OP_READ_NEXT) || (oper ==? UNC_OP_READ_BULK) ||
     (oper ==? UNC_OP_READ_SIBLING) || (oper ==? UNC_OP_READ_SIBLING_BEGIN) ||
     (oper ==? UNC_OP_READ_SIBLING_COUNT)
  then if dt ==? UPLL_DT_AUDIT then None else Some (dt, CFG_READ_LOCK, None)
  else if (oper ==? UNC_OP_CREATE) || (oper ==? UNC_OP_UPDATE) || (oper ==? UNC_OP_DELETE)
  then if dt ==? UPLL_DT_CANDIDATE
       then Some (UPLL_DT_CANDIDATE, CFG_WRITE_LOCK, Some (UPLL_DT_RUNNING, CFG_READ_LOCK))
       else if dt ==? UPLL_DT_IMPORT
       then Some (UPLL_DT_IMPORT, CFG_WRITE_LOCK, Some (UPLL_DT_RUNNING, CFG_READ_LOCK))
       else if dt ==? UPLL_DT_AUDIT
       then Some (UPLL_DT_AUDIT, CFG_WRITE_LOCK, Some (UPLL_DT_RUNNING, CFG_READ_LOCK))
       else None
  else if oper ==? UNC_OP_RENAME
  then if dt ==? UPLL_DT_IMPORT
       then Some (UPLL_DT_IMPORT, CFG_WRITE_LOCK, Some (UPLL_DT_CANDIDATE, CFG_READ_LOCK))
       else None
  else if oper ==? UNC_OP_CONTROL
  then if dt ==? UPLL_DT_RUNNING then Some (dt, CFG_READ_LOCK, None) else None
  else None.

Definition TakeConfigLock (oper : Z) dt : Calls :=
  let dt := if dt ==? UPLL_DT_STATE then UPLL_DT_RUNNING else dt in
  match FindRequiredLocks oper dt with
  | Some (dt1, lt1, None) => Lock dt1 lt1
  | Some (dt1, lt1, Some (dt2, lt2)) => Lock2 dt1 lt1 dt2 lt2
  | None => ([], false)
  end.
Definition ReleaseConfigLock (oper : Z) dt : Calls :=
  let dt := if dt ==? UPLL_DT_STATE then UPLL_DT_RUNNING else dt in
  match FindRequiredLocks oper dt with
  | Some (dt1, _, None) => Unlock dt1
  | Some (dt1, _, Some (dt2, _)) => Unlock2 dt1 dt2
  | None => ([], false)
  end.

(** The scope of [ReadBulkMo], which [READ_NEXT] calls too, where the request
    has no value and asks for something ([bulk]). *)
Definition bulk_scope (oper : Z) dt (bulk : bool) : option Scope :=
  if ((oper ==? UNC_OP_READ_NEXT) || (oper ==? UNC_OP_READ_BULK)) && bulk &&
     ((dt ==? UPLL_DT_CANDIDATE) || (dt ==? UPLL_DT_RUNNING) || (dt ==? UPLL_DT_STARTUP) ||
      (dt ==? UPLL_DT_IMPORT))
  then Some (Scope1 dt CFG_READ_LOCK) else None.

(** ** Work *)

(** The scopes of the functions of [tx_mgr.cc], [config_mgr.cc] and
    [vtn_momgr.cc]; [InOnEvent] is that of each handler of an event of a
    controller. *)
Inductive Handler :=
| InOnTxStart | InOnAuditTxStart | InOnTxVote | InOnTxVoteCtrlrStatus | InOnAuditTxVoteCtrlrStatus
| InOnTxCommitCtrlrStatus | InOnAuditTxCommitCtrlrStatus | InOnTxEnd | InOnAuditStart | InOnAuditEnd
| InOnLoadStartup | InOnSaveRunningConfig | InOnAbortCandidateConfig | InOnClearStartupConfig
| InClearImport | InDbCommitIfInBatchMode | InStartImport | InOnMerge (full : bool)
| InIsCandidateDirty | InIsKeyInUse dt | InOnEvent | InOnBatchEnd.

Definition scope_of (w : Handler) : Scope :=
  let C := UPLL_DT_CANDIDATE in let R := UPLL_DT_RUNNING in let A := UPLL_DT_AUDIT in
  let St := UPLL_DT_STARTUP in let I := UPLL_DT_IMPORT in
  let rd := CFG_READ_LOCK in let wr := CFG_WRITE_LOCK in
  match w with
  | InOnTxStart => Scope2 C wr R rd
  | InOnAuditTxStart => Scope2 A rd R rd
  | InOnTxVote => Scope2 C rd R rd
  | InOnTxVoteCtrlrStatus => Scope2 C rd R rd
  | InOnAuditTxVoteCtrlrStatus => Scope2 A rd R rd
  | InOnTxCommitCtrlrStatus => Scope2 C wr R wr
  | InOnAuditTxCommitCtrlrStatus => Scope2 A rd R rd
  | InOnTxEnd => Scope2 C wr R wr
  | InOnAuditStart => Scope2 A wr R rd
  | InOnAuditEnd => Scope1 A wr
  | InOnLoadStartup => Scope3 St rd C wr R wr
  | InOnSaveRunningConfig => Scope2 St wr R rd
  | InOnAbortCandidateConfig => Scope2 C wr R rd
  | InOnClearStartupConfig => Scope1 St wr
  | InClearImport => Scope1 I wr
  | InDbCommitIfInBatchMode => Scope5 C wr R wr I wr St wr UPLL_DT_INVALID rd
  | InStartImport => Scope3 I wr C rd R rd
  | InOnMerge true => Scope3 I rd C wr R rd
  | InOnMerge false => Scope3 I wr C wr R rd
  | InIsCandidateDirty => Scope2 C rd R rd
  | InIsKeyInUse dt => Scope1 dt rd
  | InOnEvent => Scope1 R rd
  | InOnBatchEnd => Scope5 C wr R rd I rd St rd UPLL_DT_INVALID rd
  end.

(** What locks configurations: the handling of a request on a key, and a scope
    of a handler.  A request whose locks are refused ends at once. *)
Inductive Work :=
| KtRequest (oper dt : Z) (bulk : bool)
| Scoped (w : Handler).

Definition opening (w : Work) : list Act :=
  match w with
  | KtRequest oper dt bulk =>
      if (TakeConfigLock oper dt).2
      then (TakeConfigLock oper dt).1 ++ from_option enter [] (bulk_scope oper dt bulk)
      else (TakeConfigLock oper dt).1
  | Scoped w => enter (scope_of w)
  end.
Definition closing (w : Work) : list Act :=
  match w with
  | KtRequest oper dt bulk =>
      if (TakeConfigLock oper dt).2
      then from_option leave [] (bulk_scope oper dt bulk) ++ (ReleaseConfigLock oper dt).1
      else []
  | Scoped w => leave (scope_of w)
  end.

(** Requests that lock a configuration for reading while they have it. *)
Definition rereads (w : Work) : bool :=
  match w with KtRequest oper dt bulk => bool_decide (is_Some (bulk_scope oper dt bulk)) | Scoped _ => false end.

(** ** Threads *)

(** What a thread holds, and the calls that it has still to make. *)
Record Thread := mkThread { t_held : list (Z * LockType); t_calls : list Act }.
Implicit Types (S : list Thread) (t u : nat) (th : Thread).

(** The calls of pieces of work, one after the other. *)
Fixpoint calls_of (l : list Work) : list Act :=
  match l with [] => [] | w :: rest => opening w ++ closing w ++ calls_of rest end.
Definition start (l : list Work) : Thread := mkThread [] (calls_of l).

Section System.

(** Whether a reader waits for writers that are about to lock.  Without, every
    run is possible; with it, a step is one that any policy of the locks
    allows. *)
Variable writers_first : bool.

Definition holds_write dt th : bool := bool_decide ((dt, CFG_WRITE_LOCK) ∈ t_held th).
Definition holds dt th : bool := bool_decide (dt ∈ (t_held th).*1).
Definition waits_to_write dt th : bool :=
  match t_calls th with Acquire dt' CFG_WRITE_LOCK :: _ => dt ==? dt' | _ => false end.

(** [rdlock] and [wrlock] return. *)
Definition granted S dt lt : bool :=
  match lt with
  | CFG_READ_LOCK =>
      negb (existsb (holds_write dt) S) && negb (writers_first && existsb (waits_to_write dt) S)
  | CFG_WRITE_LOCK => negb (existsb (holds dt) S)
  end.

(** [unlock]: the last of the thread's own. *)
Fixpoint drop_last dt (l : list (Z * LockType)) : option (list (Z * LockType)) :=
  match l with
  | [] => None
  | p :: rest =>
      match drop_last dt rest with
      | Some l' => Some (p :: l')
      | None => if p.1 ==? dt then Some rest else None
      end
  end.

(** [None]: a lock that is not held is unlocked, which is not defined. *)
Inductive step S t : option (list Thread) -> Prop :=
| step_acquire h dt lt rest :
    S !! t = Some (mkThread h (Acquire dt lt :: rest)) -> granted S dt lt = true ->
    step S t (Some (<[t := mkThread (h ++ [(dt, lt)]) rest]> S))
| step_release h h' dt rest :
    S !! t = Some (mkThread h (Release dt :: rest)) -> drop_last dt h = Some h' ->
    step S t (Some (<[t := mkThread h' rest]> S))
| step_undefined h dt rest :
    S !! t = Some (mkThread h (Release dt :: rest)) -> drop_last dt h = None -> step S t None.

End System.

(** Runs of [n] steps, whatever the policy. *)
Inductive steps : nat -> list Thread -> list Thread -> Prop :=
| steps_0 S : steps 0 S S
| steps_S n S S' t S'' : steps n S S' -> step false S' t (Some S'') -> steps (Datatypes.S n) S S''.

(** ** Scopes that are in order *)

Definition keys (h : list (Z * LockType)) : list Z := h.*1.
Definition acquisitions (h : list (Z * LockType)) : list Act := (fun p => Acquire p.1 p.2) <$> h.
Definition releases (h : list (Z * LockType)) : list Act := Release <$> reverse (keys h).
Definition ascending (h : list (Z * LockType)) : Prop := StronglySorted Z.lt (keys h).

(** A scope takes locks upwards and gives the same ones back downwards. *)
Definition in_order (s : Scope) : Prop :=
  exists h, enter s = acquisitions h /\ leave s = releases h /\ ascending h.

(** The same of work, which may lock for reading again. *)
Definition before (wf : bool) (p q : Z * LockType) : Prop :=
  p.1 < q.1 \/ (wf = false /\ p = q /\ p.2 = CFG_READ_LOCK).
Definition work_in_order (wf : bool) (w : Work) : Prop :=
  exists h, opening w = acquisitions h /\ closing w = releases h /\ StronglySorted (before wf) h.

Lemma Lock_run dt lt : Lock dt lt = if lockable dt then ([Acquire dt lt], true) else ([], false).
Proof. by destruct lt. Qed.

Lemma in_order_single dt lt : in_order (Scope1 dt lt).
Proof.
  unfold in_order, enter, leave, Unlock. rewrite Lock_run.
  destruct (lockable dt); [exists [(dt, lt)]|exists []]; (split_and!; [done..|]); repeat constructor.
Qed.

Lemma in_order_pair dt1 lt1 dt2 lt2 :
  lockable dt1 = true -> lockable dt2 = true -> in_order (Scope2 dt1 lt1 dt2 lt2).
Proof.
  intros H1 H2. unfold in_order, enter, leave, Lock2, Unlock2. case_bool_decide as He.
  { exists []. split_and!; [done..|constructor]. }
  unfold and_then, Unlock. destruct (Z.ltb_spec dt1 dt2); rewrite !Lock_run, H1, H2; cbn.
  - exists [(dt1, lt1); (dt2, lt2)]. split_and!; [done..|]. repeat constructor; done.
  - exists [(dt2, lt2); (dt1, lt1)]. split_and!; [done..|]. repeat constructor; cbn; lia.
Qed.

Lemma in_order_triple dt1 lt1 dt2 lt2 dt3 lt3 :
  lockable dt1 = true -> lockable dt2 = true -> lockable dt3 = true ->
  NoDup [dt1; dt2; dt3] -> in_order (Scope3 dt1 lt1 dt2 lt2 dt3 lt3).
Proof.
  intros H1 H2 H3 Hnd.
  assert (dt1 <> dt2 /\ dt1 <> dt3 /\ dt2 <> dt3) as (N12 & N13 & N23).
  { apply list.NoDup_cons in Hnd as [Ha Hnd]. apply list.NoDup_cons in Hnd as [Hb _]. set_solver. }
  assert (forall a la b lb c lc, a < b -> b < c ->
    ascending [(a, la); (b, lb); (c, lc)]) as Hasc.
  { intros. repeat constructor; cbn; lia. }
  unfold in_order, enter, leave, Lock3, Unlock3, Lock2, Unlock2, and_then, Unlock. rewrite !Lock_run, H1, H2, H3.
  rewrite ?(bool_decide_eq_false_2 (dt1 = dt2)), ?(bool_decide_eq_false_2 (dt1 = dt3)),
    ?(bool_decide_eq_false_2 (dt2 = dt3)) by done.
  destruct (Z.ltb_spec dt1 dt2), (Z.ltb_spec dt1 dt3), (Z.ltb_spec dt2 dt3); try lia;
    repeat case_bool_decide; try lia; rewrite ?H1, ?H2, ?H3; cbn [fst snd app andb].
  all: first
    [ exists [(dt1, lt1); (dt2, lt2); (dt3, lt3)]; split_and!; [done..|apply Hasc; lia]
    | exists [(dt1, lt1); (dt3, lt3); (dt2, lt2)]; split_and!; [done..|apply Hasc; lia]
    | exists [(dt2, lt2); (dt1, lt1); (dt3, lt3)]; split_and!; [done..|apply Hasc; lia]
    | exists [(dt2, lt2); (dt3, lt3); (dt1, lt1)]; split_and!; [done..|apply Hasc; lia]
    | exists [(dt3, lt3); (dt1, lt1); (dt2, lt2)]; split_and!; [done..|apply Hasc; lia]
    | exists [(dt3, lt3); (dt2, lt2); (dt1, lt1)]; split_and!; [done..|apply Hasc; lia] ].
Qed.

(** The map of the form with five arguments. *)

Lemma map_set_keys {A B} dt (v : A) (w : B) (m : list (Z * A)) (m' : list (Z * B)) :
  m.*1 = m'.*1 -> (map_set dt v m).*1 = (map_set dt w m').*1.
Proof.
  revert m'. induction m as [|[k x] m IH]; intros [|[k' x'] m'] E; try done.
  rewrite !fmap_cons in E. injection E as Ek E. cbn in Ek. subst k'. cbn [map_set].
  destruct (dt <? k); [by rewrite !fmap_cons, E|].
  case_bool_decide; rewrite !fmap_cons; [by rewrite E|]. by rewrite (IH m' E).
Qed.

Lemma map_set_elem {A} dt (v : A) m x : x ∈ (map_set dt v m).*1 -> x = dt \/ x ∈ m.*1.
Proof.
  induction m as [|[k y] m IH]; cbn [map_set]; [set_solver|].
  destruct (dt <? k); [set_solver|]. case_bool_decide; set_solver.
Qed.

Lemma map_set_sorted {A} dt (v : A) m :
  StronglySorted Z.lt m.*1 -> StronglySorted Z.lt (map_set dt v m).*1.
Proof.
  induction m as [|[k y] m IH]; intros Hs; [repeat constructor|].
  rewrite fmap_cons in Hs. apply StronglySorted_inv in Hs as [Hs Hk]. cbn [map_set].
  destruct (Z.ltb_spec dt k).
  - rewrite !fmap_cons. constructor; [by constructor|]. constructor; [done|].
    refine (Forall_impl _ _ Hk). cbn. intros; lia.
  - case_bool_decide as He.
    + subst. by constructor.
    + rewrite fmap_cons. constructor; [by apply IH|]. apply list.Forall_forall. intros x Hx.
      apply map_set_elem in Hx as [->|Hx]; [cbn; lia|]. rewrite list.Forall_forall in Hk. by apply Hk.
Qed.

Lemma map_of_spec {A} (l : list (Z * A)) m :
  StronglySorted Z.lt m.*1 ->
  let r := foldl (fun m p => map_set p.1 p.2 m) m l in
  StronglySorted Z.lt r.*1 /\ forall x, x ∈ r.*1 -> x ∈ m.*1 \/ x ∈ l.*1.
Proof.
  revert m. induction l as [|[dt v] l IH]; intros m Hm; [split; auto|]. cbn [foldl].
  destruct (IH (map_set dt v m)) as [H1 H2]; [by apply map_set_sorted|]. split; [done|].
  intros x [Hx|Hx]%H2; [|right; set_solver]. apply map_set_elem in Hx as [->|Hx]; [right; set_solver|by left].
Qed.

Lemma map_of_keys {A B} (l : list (Z * A)) (l' : list (Z * B)) (m : list (Z * A)) (m' : list (Z * B)) :
  l.*1 = l'.*1 -> m.*1 = m'.*1 ->
  (foldl (fun m p => map_set p.1 p.2 m) m l).*1 = (foldl (fun m p => map_set p.1 p.2 m) m' l').*1.
Proof.
  revert l' m m'. induction l as [|[dt v] l IH]; intros [|[dt' v'] l'] m m' E Em; try done.
  rewrite !fmap_cons in E. injection E as Ek E. cbn in Ek. subst dt'. cbn [foldl]. apply IH; [done|].
  by apply map_set_keys.
Qed.

Definition valid_keys (h : list (Z * LockType)) : list (Z * LockType) :=
  filter (fun p => p.1 <> UPLL_DT_INVALID) h.

Lemma lock_all_run h :
  Forall (fun p => p.1 = UPLL_DT_INVALID \/ lockable p.1 = true) h ->
  lock_all h = (acquisitions (valid_keys h), true).
Proof.
  induction 1 as [|[dt lt] h Hp Hh IH]; [done|]. cbn [lock_all]. unfold valid_keys. rewrite filter_cons.
  fold (valid_keys h). cbn [fst] in *. case_bool_decide as He.
  - rewrite decide_False; [done|]. intros Hn. by apply Hn.
  - destruct Hp as [?|Hp]; [done|]. rewrite decide_True by done. rewrite Lock_run, Hp, IH. done.
Qed.

Lemma unlock_all_run l :
  Forall (fun dt => dt = UPLL_DT_INVALID \/ lockable dt = true) l ->
  unlock_all l = (Release <$> filter (fun dt => dt <> UPLL_DT_INVALID) l, true).
Proof.
  induction 1 as [|dt l Hp Hh IH]; [done|]. cbn [unlock_all]. rewrite filter_cons. case_bool_decide as He.
  - rewrite decide_False; [done|]. intros Hn. by apply Hn.
  - destruct Hp as [?|Hp]; [done|]. rewrite decide_True by done. unfold Unlock. rewrite Hp, IH. done.
Qed.

Lemma filter_reversed (l : list Z) :
  filter (fun dt => dt <> UPLL_DT_INVALID) (reverse l) = reverse (filter (fun dt => dt <> UPLL_DT_INVALID) l).
Proof.
  induction l as [|x l IH]; [done|]. rewrite reverse_cons, list.filter_app, IH, !filter_cons, filter_nil.
  case_decide; [by rewrite reverse_cons|by rewrite app_nil_r].
Qed.

Lemma in_order_map dt1 lt1 dt2 lt2 dt3 lt3 dt4 lt4 dt5 lt5 :
  Forall (fun dt => dt = UPLL_DT_INVALID \/ lockable dt = true) [dt1; dt2; dt3; dt4; dt5] ->
  in_order (Scope5 dt1 lt1 dt2 lt2 dt3 lt3 dt4 lt4 dt5 lt5).
Proof.
  intros Hl. set (l := [(dt1, lt1); (dt2, lt2); (dt3, lt3); (dt4, lt4); (dt5, lt5)]).
  assert (l.*1 = [dt1; dt2; dt3; dt4; dt5]) as El by done.
  destruct (map_of_spec l []) as [Hs Hin]; [constructor|]. fold (map_of l) in Hs, Hin.
  assert (forall x, x ∈ (map_of l).*1 -> x = UPLL_DT_INVALID \/ lockable x = true) as Hx.
  { intros x [Hx|Hx]%Hin; [by apply not_elem_of_nil in Hx|]. rewrite El in Hx.
    rewrite list.Forall_forall in Hl. by apply Hl. }
  exists (valid_keys (map_of l)). unfold enter, leave, Lock5, Unlock5. fold l. split_and!.
  - rewrite lock_all_run; [done|]. apply list.Forall_forall. intros p Hp. apply Hx.
    apply list_elem_of_fmap. eauto.
  - assert ((map_of ((fun dt => (dt, CFG_READ_LOCK)) <$> [dt1; dt2; dt3; dt4; dt5])).*1 = (map_of l).*1) as ->.
    { by apply map_of_keys. }
    rewrite unlock_all_run.
    + cbn [fst]. unfold releases, keys, valid_keys. rewrite filter_reversed. do 2 f_equal.
      clear. induction (map_of l) as [|p h IH]; [done|]. rewrite fmap_cons, !filter_cons.
      case_decide; [by rewrite fmap_cons, IH|done].
    + apply list.Forall_forall. intros x Hr. apply Hx. by apply elem_of_reverse.
  - unfold ascending, keys, valid_keys. revert Hs. generalize (map_of l) as h. clear.
    induction h as [|p h IH]; intros Hs; [constructor|]. rewrite fmap_cons in Hs.
    apply StronglySorted_inv in Hs as [Hs Hp]. rewrite filter_cons. case_decide; [|by apply IH].
    rewrite fmap_cons. constructor; [by apply IH|]. rewrite list.Forall_forall in Hp. apply list.Forall_forall.
    intros x (q & -> & Hq)%list_elem_of_fmap. apply Hp. apply list_elem_of_fmap. exists q. split; [done|].
    by apply list_elem_of_filter in Hq as [_ Hq].
Qed.

(** ** Work is in order *)

Lemma ascending_upwards wf h : ascending h -> StronglySorted (before wf) h.
Proof.
  unfold ascending, keys. induction h as [|p h IH]; intros Hs; [constructor|]. rewrite fmap_cons in Hs.
  apply StronglySorted_inv in Hs as [Hs Hp]. constructor; [by apply IH|]. rewrite Forall_fmap in Hp.
  refine (Forall_impl _ _ Hp). intros q Hq. by left.
Qed.

Lemma scopes_in_order w : in_order (scope_of w).
Proof.
  destruct w; try apply in_order_single; try (apply in_order_pair; reflexivity);
    try (apply in_order_map; repeat (constructor; [by (left; reflexivity) || (right; reflexivity)|]); constructor);
    try (destruct full); apply in_order_triple; try reflexivity;
    repeat (apply list.NoDup_cons; split; [by compute_done|]); apply NoDup_nil_2.
Qed.

(** The locks of a request. *)
Lemma find_single oper dt dt1 lt1 :
  FindRequiredLocks oper dt = Some (dt1, lt1, None) -> dt1 = dt /\ lt1 = CFG_READ_LOCK.
Proof. unfold FindRequiredLocks. intros Hf. repeat case_match; naive_solver. Qed.

Lemma find_pair oper dt dt1 lt1 dt2 lt2 :
  FindRequiredLocks oper dt = Some (dt1, lt1, Some (dt2, lt2)) ->
  lockable dt1 = true /\ lockable dt2 = true /\ dt1 <> dt2 /\ forall bulk, bulk_scope oper dt bulk = None.
Proof.
  unfold FindRequiredLocks. intros Hf.
  destruct (_ || (oper ==? UNC_OP_READ_SIBLING_COUNT)) eqn:Er.
  { by destruct (dt ==? UPLL_DT_AUDIT). }
  assert (forall bulk, bulk_scope oper dt bulk = None) as Hb.
  { intros bulk. unfold bulk_scope. rewrite !orb_false_iff in Er.
    destruct Er as (((((_ & En) & Eb) & _) & _) & _). by rewrite En, Eb. }
  repeat case_match; simplify_eq; split_and!; done.
Qed.

Lemma request_in_order wf oper dt bulk :
  (wf = true -> rereads (KtRequest oper dt bulk) = false) -> work_in_order wf (KtRequest oper dt bulk).
Proof.
  intros Hwf. set (dt' := if dt ==? UPLL_DT_STATE then UPLL_DT_RUNNING else dt).
  assert (dt' = dt \/ bulk_scope oper dt bulk = None) as Hdt.
  { unfold dt'. destruct (dt ==? UPLL_DT_STATE) eqn:Es; [right|by left]. apply bool_decide_eq_true in Es.
    subst dt. unfold bulk_scope. by rewrite andb_false_r. }
  unfold work_in_order, opening, closing, TakeConfigLock, ReleaseConfigLock. fold dt'.
  destruct (FindRequiredLocks oper dt') as [[[dt1 lt1] [[dt2 lt2]|]]|] eqn:Ef.
  - destruct (find_pair _ _ _ _ _ _ Ef) as (H1 & H2 & Hne & Hb).
    assert (bulk_scope oper dt bulk = None) as ->.
    { destruct Hdt as [E|E]; [by rewrite <- E|done]. }
    destruct (in_order_pair dt1 lt1 dt2 lt2 H1 H2) as (h & He & Hl & Ha). cbn in He, Hl. exists h.
    assert ((Lock2 dt1 lt1 dt2 lt2).2 = true) as ->.
    { unfold Lock2, and_then. rewrite (bool_decide_eq_false_2 _ Hne). rewrite !Lock_run, H1, H2.
      by destruct (dt1 <? dt2). }
    cbn [from_option]. rewrite app_nil_r. split_and!; [done..|by apply ascending_upwards].
  - destruct (find_single _ _ _ _ Ef) as [-> ->]. rewrite Lock_run. unfold Unlock.
    destruct (lockable dt') eqn:El; cbn [fst snd]; [|by exists []; split_and!; [..|constructor]].
    destruct (bulk_scope oper dt bulk) as [sc|] eqn:Eb.
    + destruct Hdt as [Hdt|]; [|done]. rewrite Hdt in *. cbn [rereads] in Hwf. rewrite Eb in Hwf.
      destruct wf; [by specialize (Hwf eq_refl)|]. unfold bulk_scope in Eb.
      destruct (_ && _); [|done]. injection Eb as <-.
      cbn [from_option]. unfold enter, leave. rewrite Lock_run. unfold Unlock. rewrite El.
      exists [(dt, CFG_READ_LOCK); (dt, CFG_READ_LOCK)]. split_and!; [done..|].
      constructor; [repeat constructor|]. constructor; [by right|constructor].
    + exists [(dt', CFG_READ_LOCK)]. split_and!; [done..|]. repeat constructor.
  - exists []. split_and!; [done..|constructor].
Qed.

Lemma work_ordered wf w : (wf = true -> rereads w = false) -> work_in_order wf w.
Proof.
  destruct w as [oper dt bulk|w]; intros Hw; [by apply request_in_order|].
  destruct (scopes_in_order w) as (h & He & Hl & Ha). exists h. split_and!; [done..|]. by apply ascending_upwards.
Qed.

(** ** Threads that work in order *)

Section Order.

Variable wf : bool.
Notation work_in_order := (work_in_order wf).
Notation before := (before wf).

Definition thread_ok th : Prop :=
  exists todo work,
    Forall work_in_order work /\ StronglySorted before (t_held th ++ todo) /\
    t_calls th = acquisitions todo ++ releases (t_held th ++ todo) ++ calls_of work.

Lemma start_ok l : Forall work_in_order l -> thread_ok (start l).
Proof. intros Hl. exists [], l. split_and!; [done|constructor|done]. Qed.

Lemma releases_last h p : releases (h ++ [p]) = Release p.1 :: releases h.
Proof. unfold releases, keys. by rewrite fmap_app, reverse_app. Qed.

Lemma thread_done h : thread_ok (mkThread h []) -> h = [].
Proof.
  intros (todo & work & _ & _ & E). cbn [t_held t_calls] in E. destruct todo as [|p todo]; [|discriminate E].
  rewrite app_nil_r in E. destruct h as [|p h _] using rev_ind; [done|]. by rewrite releases_last in E.
Qed.

(** The next call is one of work that takes or has a lock. *)
Lemma thread_next h a rest :
  thread_ok (mkThread h (a :: rest)) ->
  exists todo work,
    Forall work_in_order work /\ StronglySorted before (h ++ todo) /\ h ++ todo <> [] /\
    a :: rest = acquisitions todo ++ releases (h ++ todo) ++ calls_of work.
Proof.
  intros (todo & work & Hs & Ha & E). cbn in Ha, E.
  destruct (decide (h ++ todo = [])) as [He|Hne]; [|by exists todo, work].
  apply app_eq_nil in He as [-> ->]. clear Ha. cbn in E. induction Hs as [|s work (k & He & Hl & Hk) Hs IH]; [done|].
  cbn [calls_of] in E. rewrite He, Hl in E. destruct k as [|p k]; [by apply IH|].
  by exists (p :: k), work.
Qed.

Lemma sorted_split (h1 h2 : list (Z * LockType)) :
  StronglySorted before (h1 ++ h2) ->
  StronglySorted before h1 /\ forall p q, p ∈ h1 -> q ∈ h2 -> before p q.
Proof.
  induction h1 as [|x h1 IH]; intros Hs.
  { split; [constructor|]. intros p q Hp. by apply not_elem_of_nil in Hp. }
  cbn [app] in Hs. apply StronglySorted_inv in Hs as [Hs Hx].
  destruct (IH Hs) as [H1 H2]. rewrite list.Forall_forall in Hx. split.
  - constructor; [done|]. apply list.Forall_forall. intros y Hy. apply Hx, elem_of_app. by left.
  - intros p q [->|Hp]%elem_of_cons Hq; [|by apply H2]. apply Hx, elem_of_app. by right.
Qed.

Lemma thread_cases h a rest :
  thread_ok (mkThread h (a :: rest)) ->
  (exists dt lt, a = Acquire dt lt /\ thread_ok (mkThread (h ++ [(dt, lt)]) rest) /\
                 forall p, p ∈ h -> before p (dt, lt)) \/
  (exists dt lt h0, a = Release dt /\ h = h0 ++ [(dt, lt)] /\ thread_ok (mkThread h0 rest)).
Proof.
  intros (todo & work & Hs & Ha & Hne & E)%thread_next. destruct todo as [|[dt lt] todo].
  - rewrite app_nil_r in *. destruct (exists_last Hne) as (h0 & [dt lt] & ->).
    rewrite releases_last in E. injection E as -> ->. right. exists dt, lt, h0. split_and!; [done..|].
    exists [], work. cbn. rewrite app_nil_r. split_and!; [done| |done]. by apply sorted_split in Ha as [Ha _].
  - injection E as -> ->. left. exists dt, lt. split_and!; [done| |].
    + exists todo, work. cbn [t_held t_calls]. rewrite <- app_assoc. done.
    + intros p Hp. apply sorted_split in Ha as [_ Ha]. apply (Ha p (dt, lt)); [done|by left].
Qed.

End Order.

Lemma drop_last_app dt lt h : drop_last dt (h ++ [(dt, lt)]) = Some h.
Proof.
  induction h as [|p h IH]; cbn [app drop_last].
  - cbn. by rewrite bool_decide_eq_true_2.
  - by rewrite IH.
Qed.

(** ** All states *)

Section Safety.

Variable writers_first : bool.
Notation may_step := step.
Notation may_have := granted.
Notation step := (step writers_first).
Notation granted := (granted writers_first).
Notation thread_ok := (thread_ok writers_first).
Notation work_in_order := (work_in_order writers_first).
Notation thread_cases := (thread_cases writers_first).

(** A writer is alone. *)
Definition exclusive S : Prop :=
  forall t u th1 th2 dt, t <> u -> S !! t = Some th1 -> S !! u = Some th2 ->
    (dt, CFG_WRITE_LOCK) ∈ t_held th1 -> dt ∉ keys (t_held th2).
Record locks_ok S : Prop := {
  lk_threads : Forall thread_ok S;
  lk_exclusive : exclusive S
}.

Lemma start_locks_ok (l : list (list Work)) : Forall (Forall work_in_order) l -> locks_ok (start <$> l).
Proof.
  intros Hl. split.
  - apply Forall_fmap. refine (Forall_impl _ _ Hl). apply (start_ok writers_first).
  - intros t u th1 th2 dt _ Ht _. apply list_lookup_fmap_Some in Ht as (x & -> & _). cbn.
    by intros ?%not_elem_of_nil.
Qed.

Lemma ok_at S t th : locks_ok S -> S !! t = Some th -> thread_ok th.
Proof. intros [Hs _] Ht. rewrite list.Forall_forall in Hs. apply Hs. by eapply list_elem_of_lookup_2. Qed.

Lemma lookup_change S t th u th' :
  <[t := th]> S !! u = Some th' -> t = u /\ th' = th \/ t <> u /\ S !! u = Some th'.
Proof. intros [(-> & -> & _)|[? ?]]%list_lookup_insert_Some; auto. Qed.

(** A lock that is granted conflicts with nobody. *)
Lemma granted_free policy S dt lt u th :
  may_have policy S dt lt = true -> S !! u = Some th ->
  (dt, CFG_WRITE_LOCK) ∉ t_held th /\ (lt = CFG_WRITE_LOCK -> dt ∉ keys (t_held th)).
Proof.
  intros Hg Hu. apply list_elem_of_lookup_2, list_elem_of_In in Hu.
  assert (forall f, existsb f S = false -> f th = false) as Hall.
  { intros f Hf. destruct (f th) eqn:E; [|done]. rewrite <- Hf. symmetry. apply existsb_exists. eauto. }
  destruct lt; cbn in Hg.
  - apply andb_prop in Hg as [Hg _]. apply negb_true_iff, Hall in Hg. apply bool_decide_eq_false in Hg. done.
  - apply negb_true_iff, Hall in Hg. apply bool_decide_eq_false in Hg. split; [|done].
    intros Hin. apply Hg. apply list_elem_of_fmap. by exists (dt, CFG_WRITE_LOCK).
Qed.

Lemma step_ok policy S t o : locks_ok S -> may_step policy S t o -> exists S', o = Some S' /\ locks_ok S'.
Proof.
  intros Hok Hst. destruct Hst as [h dt lt rest Ht Hg|h h' dt rest Ht Hd|h dt rest Ht Hd];
    pose proof (ok_at _ _ _ Hok Ht) as Hth;
    apply thread_cases in Hth as [(dt1 & lt1 & Ea & Hth & _)|(dt1 & lt1 & h0 & Ea & -> & Hth)]; try done.
  - injection Ea as -> ->. eexists. split; [done|]. split; [apply Forall_insert; [apply Hok|done]|].
    intros u v th1 th2 d Huv [(-> & ->)|[Hu Hlu]]%lookup_change [(-> & ->)|[Hv Hlv]]%lookup_change Hin; try done.
    + cbn [t_held] in Hin. apply elem_of_app in Hin as [Hin|Hin].
      * by apply (lk_exclusive _ Hok _ _ _ _ _ Huv Ht Hlv).
      * apply list_elem_of_singleton in Hin. injection Hin as -> <-.
        by apply (granted_free _ _ _ _ _ _ Hg Hlv).
    + cbn [t_held]. unfold keys. rewrite fmap_app, not_elem_of_app. split.
      * by apply (lk_exclusive _ Hok _ _ _ _ _ Huv Hlu Ht).
      * intros Hd%list_elem_of_singleton. cbn in Hd. subst d. by destruct (granted_free _ _ _ _ _ _ Hg Hlu).
    + by apply (lk_exclusive _ Hok _ _ _ _ _ Huv Hlu Hlv).
  - injection Ea as ->. rewrite drop_last_app in Hd. injection Hd as <-. eexists. split; [done|].
    split; [apply Forall_insert; [apply Hok|done]|].
    intros u v th1 th2 d Huv [(-> & ->)|[Hu Hlu]]%lookup_change [(-> & ->)|[Hv Hlv]]%lookup_change Hin; try done.
    + apply (lk_exclusive _ Hok _ _ _ _ _ Huv Ht Hlv). cbn. set_solver.
    + intros Hk. apply (lk_exclusive _ Hok _ _ _ _ _ Huv Hlu Ht Hin). cbn. unfold keys.
      rewrite fmap_app. set_solver.
    + by apply (lk_exclusive _ Hok _ _ _ _ _ Huv Hlu Hlv).
  - injection Ea as ->. by rewrite drop_last_app in Hd.
Qed.

(** ** Progress *)

Definition wanted th : option Z := match t_calls th with Acquire dt _ :: _ => Some dt | _ => None end.

Lemma greatest (l : list Z) : l <> [] -> exists x, x ∈ l /\ forall y, y ∈ l -> y <= x.
Proof.
  induction l as [|a l IH]; [done|]. intros _. destruct l as [|b l].
  { exists a. split; [by left|]. by intros y ->%list_elem_of_singleton. }
  destruct IH as (x & Hx & Hmax); [done|]. destruct (Z.le_ge_cases a x).
  - exists x. split; [by right|]. by intros y [->|Hy]%elem_of_cons; [|apply Hmax].
  - exists a. split; [by left|]. intros y [->|Hy]%elem_of_cons; [done|]. specialize (Hmax y Hy). lia.
Qed.

Lemma exists_thread (f : Thread -> bool) S : existsb f S = true -> exists u th, S !! u = Some th /\ f th = true.
Proof.
  intros (th & Hin & Hf)%existsb_exists. apply list_elem_of_In, list_elem_of_lookup in Hin as [u Hu]. eauto.
Qed.

(** A lock that is not granted is held, or a writer waits for it. *)
Lemma not_granted S dt lt :
  granted S dt lt = false ->
  (exists u th, S !! u = Some th /\ dt ∈ keys (t_held th)) \/
  (exists u th, S !! u = Some th /\ waits_to_write dt th = true).
Proof.
  destruct lt; cbn; intros Hg.
  - apply andb_false_iff in Hg as [Hg|Hg]; apply negb_false_iff in Hg.
    + apply exists_thread in Hg as (u & th & Hu & Hh). apply bool_decide_eq_true in Hh. left.
      exists u, th. split; [done|]. apply list_elem_of_fmap. by exists (dt, CFG_WRITE_LOCK).
    + apply andb_prop in Hg as [_ Hg]. right. by apply exists_thread.
  - apply negb_false_iff, exists_thread in Hg as (u & th & Hu & Hh). apply bool_decide_eq_true in Hh. left. eauto.
Qed.

(** A thread that has a lock for reading may have it again. *)
Lemma reread_granted S u h dt rest :
  locks_ok S -> S !! u = Some (mkThread h (Acquire dt CFG_READ_LOCK :: rest)) ->
  (dt, CFG_READ_LOCK) ∈ h -> writers_first = false -> granted S dt CFG_READ_LOCK = true.
Proof.
  intros Hok Hu Hin ->. cbn. rewrite andb_true_r. apply negb_true_iff.
  destruct (existsb (holds_write dt) S) eqn:E; [|done]. exfalso.
  apply exists_thread in E as (v & th & Hv & Hw). apply bool_decide_eq_true in Hw.
  destruct (decide (v = u)) as [->|Hne].
  - rewrite Hu in Hv. injection Hv as <-.
    destruct (thread_cases _ _ _ (ok_at _ _ _ Hok Hu)) as [(d & lt & Ea & _ & Hb)|(? & ? & ? & ? & _)]; [|done].
    injection Ea as <- <-. destruct (Hb _ Hw) as [Hlt|(_ & Heq & _)]; [cbn in Hlt; lia|done].
  - apply (lk_exclusive _ Hok _ _ _ _ _ Hne Hv Hu Hw). apply list_elem_of_fmap. by exists (dt, CFG_READ_LOCK).
Qed.

Lemma progress S t th :
  locks_ok S -> S !! t = Some th -> t_calls th <> [] -> exists u S', step S u (Some S').
Proof.
  intros Hok Ht Hne.
  assert (forall u h dt rest, S !! u = Some (mkThread h (Release dt :: rest)) -> exists S', step S u (Some S')) as Hrel.
  { intros u h dt rest Hu. destruct (thread_cases _ _ _ (ok_at _ _ _ Hok Hu)) as [(? & ? & ? & _)|(d & lt & h0 & Ea & -> & _)];
      [done|]. injection Ea as <-. eexists. eapply step_release; [exact Hu|apply drop_last_app]. }
  destruct (decide (omap wanted S = [])) as [Hno|Hw].
  { destruct th as [h [|[dt lt|dt] rest]]; [done| |by edestruct Hrel; eauto].
    assert (dt ∈ omap wanted S) as Hin.
    { apply list_elem_of_omap. eexists. split; [by eapply list_elem_of_lookup_2|done]. }
    rewrite Hno in Hin. by apply not_elem_of_nil in Hin. }
  destruct (greatest _ Hw) as (dt & (thm & Hm & Hwm)%list_elem_of_omap & Hmax).
  apply list_elem_of_lookup in Hm as [m Hm].
  assert (forall u thu, S !! u = Some thu -> dt ∈ keys (t_held thu) -> exists v S', step S v (Some S')) as Hheld.
  { intros u [h calls] Hu Hin. cbn [t_held] in Hin. destruct calls as [|[d lt|d] rest].
    - pose proof (thread_done _ _ (ok_at _ _ _ Hok Hu)) as ->. by apply not_elem_of_nil in Hin.
    - destruct (thread_cases _ _ _ (ok_at _ _ _ Hok Hu)) as [(d1 & lt1 & Ea & _ & Hlt)|(? & ? & ? & ? & _)]; [|done].
      injection Ea as <- <-. apply list_elem_of_fmap in Hin as (p & -> & Hp).
      assert (d <= p.1) as Hle.
      { apply Hmax, list_elem_of_omap. eexists. split; [by eapply list_elem_of_lookup_2|done]. }
      destruct (Hlt p Hp) as [Hd|(Hwf & -> & Hr)]; [cbn in Hd; lia|]. cbn in Hr. subst lt.
      eexists u, _. eapply step_acquire; [exact Hu|]. by eapply reread_granted.
    - by edestruct Hrel; eauto. }
  destruct thm as [h [|[d lt|d] rest]]; try done. injection Hwm as ->.
  destruct (granted S dt lt) eqn:Hg; [by eexists m, _; eapply step_acquire|].
  destruct (not_granted _ _ _ Hg) as [(u & thu & Hu & Hin)|(u & [hu cu] & Hu & Hwr)]; [by eapply Hheld|].
  destruct cu as [|[d [|]|d] ru]; try done. apply bool_decide_eq_true in Hwr. subst d.
  destruct (granted S dt CFG_WRITE_LOCK) eqn:Hg2; [by eexists u, _; eapply step_acquire|].
  cbn in Hg2. apply negb_false_iff, exists_thread in Hg2 as (v & thv & Hv & Hh). apply bool_decide_eq_true in Hh.
  by eapply Hheld.
Qed.

(** Every step is a call less to make. *)
Fixpoint remaining S : nat :=
  match S with [] => 0 | th :: rest => length (t_calls th) + remaining rest end%nat.

Lemma remaining_change S t th th' :
  S !! t = Some th -> (remaining (<[t := th']> S) + length (t_calls th) = remaining S + length (t_calls th'))%nat.
Proof.
  revert t. induction S as [|x S IH]; intros [|t] Ht; try done.
  - injection Ht as ->. cbn [insert list_insert remaining]. lia.
  - specialize (IH t Ht). change (<[Datatypes.S t:=th']> (x :: S)) with (x :: <[t:=th']> S).
    cbn [remaining]. lia.
Qed.

Lemma step_remaining policy S t S' : may_step policy S t (Some S') -> Datatypes.S (remaining S') = remaining S.
Proof.
  intros Hst. inversion Hst as [h dt lt rest Ht _ E|h h' dt rest Ht _ E|]; subst S'.
  - pose proof (remaining_change _ _ _ (mkThread (h ++ [(dt, lt)]) rest) Ht) as Er. cbn in Er.
    lia.
  - pose proof (remaining_change _ _ _ (mkThread h' rest) Ht) as Er. cbn in Er. lia.
Qed.

Lemma steps_ok n S S' : locks_ok S -> steps n S S' -> locks_ok S' /\ (n + remaining S' = remaining S)%nat.
Proof.
  intros Hok Hst. induction Hst as [S|n S S' t S'' Hst IH Hs]; [done|]. destruct (IH Hok) as [Hok' Hr].
  destruct (step_ok _ _ _ _ Hok' Hs) as (S3 & E & Hok3). injection E as <-.
  apply step_remaining in Hs. split; [done|lia].
Qed.

End Safety.

(** C16: Whatever number of threads run the requests and handlers of UPLL, in
    whatever order and interleaving, a thread that has a configuration locked
    for writing is alone with it, no lock is unlocked that the thread does not
    hold, and no call is made twice. As long as a thread has a call to make
    some thread can make its next, so that all calls are made in the end and
    nothing is left locked; this provided either that a waiting writer does
    not keep new readers out, or that no request locks a configuration for
    reading twice: [READ_NEXT] and [READ_BULK] do, and with locks that prefer
    writers they may wait for ever ([read_bulk_waits_forever]). *)
Theorem config_locks_progress writers_first (l : list (list Work)) n S' :
  (writers_first = true -> Forall (Forall (fun w => rereads w = false)) l) ->
  steps n (start <$> l) S' ->
  exclusive S' /\ (forall t, ~ step false S' t None) /\
  (n + remaining S' = remaining (start <$> l))%nat /\
  (S' = (fun _ => mkThread [] []) <$> S' \/ exists t S'', step writers_first S' t (Some S'')).
Proof.
  intros Hl Hst. assert (locks_ok writers_first (start <$> l)) as Hok.
  { apply start_locks_ok, list.Forall_forall. intros x Hx. apply list.Forall_forall. intros w Hw.
    apply work_ordered. intros Hwf. specialize (Hl Hwf). rewrite list.Forall_forall in Hl.
    specialize (Hl x Hx). rewrite list.Forall_forall in Hl. by apply Hl. }
  destruct (steps_ok _ _ _ _ Hok Hst) as [Hok' Hr]. split_and!; [apply Hok'| |done|].
  - intros t Ht. destruct (step_ok _ _ _ _ _ Hok' Ht) as (? & ? & _). done.
  - destruct (decide (Forall (fun th => t_calls th = []) S')) as [Hd|Hn].
    + left. assert (forall th, th ∈ S' -> th = mkThread [] []) as Hall.
      { intros [h c] Hin. pose proof Hin as Hin2. rewrite list.Forall_forall in Hd. specialize (Hd _ Hin). cbn in Hd. subst c.
        apply list_elem_of_lookup in Hin2 as [u Hu].
        by rewrite (thread_done _ _ (ok_at _ _ _ _ Hok' Hu)). }
      clear -Hall. induction S' as [|th S' IH]; [done|]. rewrite fmap_cons. f_equal; [apply Hall; by left|].
      apply IH. intros x Hx. apply Hall. by right.
    + right. apply not_Forall_Exists in Hn; [|apply _]. apply list.Exists_exists in Hn as (th & Hin & Hne).
      apply list_elem_of_lookup in Hin as [t Ht]. by eapply progress.
Qed.

(** One step of a thread whose call is granted, by computation. *)
Definition advance S t : option (list Thread) :=
  match S !! t with
  | Some (mkThread h (Acquire dt lt :: rest)) =>
      if granted false S dt lt then Some (<[t := mkThread (h ++ [(dt, lt)]) rest]> S) else None
  | Some (mkThread h (Release dt :: rest)) =>
      (fun h' => <[t := mkThread h' rest]> S) <$> drop_last dt h
  | _ => None
  end.

Lemma advance_step S t S' : advance S t = Some S' -> step false S t (Some S').
Proof.
  unfold advance. destruct (S !! t) as [[h [|[dt lt|dt] rest]]|] eqn:Ht; try done.
  - destruct (granted false S dt lt) eqn:Hg; [|done]. intros [= <-]. by eapply step_acquire.
  - destruct (drop_last dt h) as [h'|] eqn:Hd; [|done]. intros [= <-]. by eapply step_release.
Qed.

Fixpoint advances S (l : list nat) : option (list Thread) :=
  match l with [] => Some S | t :: rest => S' ← advance S t; advances S' rest end.

Lemma steps_cons n S t S1 S2 : step false S t (Some S1) -> steps n S1 S2 -> steps (Datatypes.S n) S S2.
Proof.
  intros H1 Hst. induction Hst as [S'|n S' S3 u S4 Hst IH Hs].
  - econstructor; [constructor|exact H1].
  - econstructor; [by apply IH|exact Hs].
Qed.

Lemma advances_steps S l S' : advances S l = Some S' -> steps (length l) S S'.
Proof.
  revert S. induction l as [|t l IH]; intros S; cbn [advances length].
  - intros [= <-]. constructor.
  - destruct (advance S t) as [S1|] eqn:E; [|done]. cbn. intros H. eapply steps_cons; [by apply advance_step|by apply IH].
Qed.

(** A commit and an import wait for a reader, which ends. *)
Lemma config_locks_progress_witness :
  let l := [[KtRequest UNC_OP_READ_BULK UPLL_DT_CANDIDATE true];
            [Scoped InDbCommitIfInBatchMode; Scoped InOnTxStart]; [Scoped (InOnMerge false)]] in
  exists S', steps 2 (start <$> l) S' /\ (2 + remaining S' = remaining (start <$> l))%nat /\
    exclusive S' /\ exists t S'', step false S' t (Some S'').
Proof.
  intros l.
  assert (advances (start <$> l) [0; 0]%nat = Some (default [] (advances (start <$> l) [0; 0]%nat))) as E
    by reflexivity.
  pose proof (advances_steps _ _ _ E) as Hst. cbn [length] in Hst.
  eexists. split; [exact Hst|].
  destruct (config_locks_progress false l 2 _ (fun H => False_ind _ (Bool.diff_false_true H)) Hst)
    as (H1 & _ & H2 & [H3|H3]).
  - vm_compute in H3. discriminate H3.
  - split; [exact H2|]. split; [exact H1|exact H3].
Defined.

(** Where the locks prefer writers, a reader that locks the candidate
    configuration again waits for a writer that waits for it. *)
Theorem read_bulk_waits_forever :
  exists S', steps 1 (start <$> [[KtRequest UNC_OP_READ_BULK UPLL_DT_CANDIDATE true];
                                      [KtRequest UNC_OP_CREATE UPLL_DT_CANDIDATE false]]) S' /\
    remaining S' = 7%nat /\ forall t o, ~ step true S' t o.
Proof.
  set (S := start <$> _). exists (default [] (advances S [0%nat])).
  split; [apply (advances_steps _ [0%nat]); reflexivity|]. split; [reflexivity|].
  intros t o Hst. destruct Hst as [h dt lt rest Ht Hg|h h' dt rest Ht Hd|h dt rest Ht Hd];
    destruct t as [|[|t]]; vm_compute in Ht; try discriminate Ht.
  - injection Ht as <- <- <- <-. vm_compute in Hg. discriminate Hg.
  - injection Ht as <- <- <- <-. vm_compute in Hg. discriminate Hg.
Qed.

(** Scopes that are not in order, and unlock what they did not lock: two equal
    configurations above a third one, and a configuration without a lock below
    another. *)
Theorem scope_of_equals_unlocks :
  let s := Scope3 UPLL_DT_CANDIDATE CFG_READ_LOCK UPLL_DT_RUNNING CFG_READ_LOCK UPLL_DT_RUNNING CFG_READ_LOCK in
  enter s = [Acquire UPLL_DT_CANDIDATE CFG_READ_LOCK] /\ leave s = [Release UPLL_DT_RUNNING; Release UPLL_DT_RUNNING; Release UPLL_DT_CANDIDATE].
Proof. done. Qed.

Theorem scope_of_state_unlocks :
  let s := Scope2 UPLL_DT_STATE CFG_READ_LOCK UPLL_DT_RUNNING CFG_READ_LOCK in
  enter s = [] /\ leave s = [Release UPLL_DT_RUNNING].
Proof. done. Qed.
