(* ===== verification/UpllCtrlr.v ===== *)
(** * The controllers that UPLL knows

    [CtrlrMgr] ([upll/ctrlr_mgr.cc], [ctrlr_mgr.hh]) keeps the controllers of
    the candidate and the running configuration in one list, counts the path
    faults of the domains of controllers, and keeps the states of ports of
    controllers that are disconnected.  The list implements a map from names
    and configurations to controllers; a walk with [GetFirstCtrlrName] and
    [GetNextCtrlrName] meets each controller once; a domain has a path fault
    exactly while more of them were raised than recovered. *)

From Stdlib Require Import Sorting.Sorted.
From S2P Require Import Prelude TcTypes TcMsgCommit TcDriverInfo UpllLock.

Local Open Scope Z_scope.

(** ** Results *)

(** [upll_rc_t]; its values are those of [UncRespCode]. *)
Abbreviation upll_rc := Z (only parsing).
Definition UPLL_RC_SUCCESS : Z := 0.
Definition UPLL_RC_ERR_GENERIC : Z := 1000.
Definition UPLL_RC_ERR_NO_SUCH_INSTANCE : Z := 1010.
Definition UPLL_RC_ERR_INSTANCE_EXISTS : Z := 1016.
Definition UPLL_RC_ERR_NOT_ALLOWED_FOR_THIS_DT : Z := 1017.

(** ** Controllers *)

Record Ctrlr := mkCtrlr {
  name_ : string;
  type_ : Z;
  version_ : string;
  audit_done_ : bool;
  config_done_ : bool;
  invalid_config_ : bool;
  audit_type_ : bool;
  datatype_ : Z
}.

Implicit Types (c p : Ctrlr) (l : list Ctrlr) (n : string) (b : bool).

(** The first constructor. *)
Definition new_Ctrlr n (type : Z) (version : string) (audit_type : bool) : Ctrlr :=
  mkCtrlr n type version false false false audit_type UPLL_DT_CANDIDATE.
(** The second: a copy for a configuration. *)
Definition copy_Ctrlr c (dt : Z) : Ctrlr :=
  mkCtrlr (name_ c) (type_ c) (version_ c) (audit_done_ c) (config_done_ c) (invalid_config_ c) (audit_type_ c) dt.

Definition with_version (v : string) c : Ctrlr :=
  mkCtrlr (name_ c) (type_ c) v (audit_done_ c) (config_done_ c) (invalid_config_ c) (audit_type_ c) (datatype_ c).
Definition with_audit_done b c : Ctrlr :=
  mkCtrlr (name_ c) (type_ c) (version_ c) b (config_done_ c) (invalid_config_ c) (audit_type_ c) (datatype_ c).
Definition with_config_done b c : Ctrlr :=
  mkCtrlr (name_ c) (type_ c) (version_ c) (audit_done_ c) b (invalid_config_ c) (audit_type_ c) (datatype_ c).
Definition with_invalid_config b c : Ctrlr :=
  mkCtrlr (name_ c) (type_ c) (version_ c) (audit_done_ c) (config_done_ c) b (audit_type_ c) (datatype_ c).
Definition with_audit_type b c : Ctrlr :=
  mkCtrlr (name_ c) (type_ c) (version_ c) (audit_done_ c) (config_done_ c) (invalid_config_ c) b (datatype_ c).

Definition is_ctrlr n (dt : Z) c : bool := (name_ c ==? n) && (datatype_ c ==? dt).
Definition stored_dt (dt : Z) : bool := (dt ==? UPLL_DT_CANDIDATE) || (dt ==? UPLL_DT_RUNNING).

Module CtrlrMgr.

(** *** The list [ctrlrs_] *)

(** The loop of [Add]: [None] where the controller is there. *)
Fixpoint insert_ctrlr p l : option (list Ctrlr) :=
  match l with
  | [] => Some [p]
  | c :: rest =>
      if is_ctrlr (name_ p) (datatype_ p) c then None
      else if str_lt (name_ c) (name_ p) then cons c <$> insert_ctrlr p rest
      else if str_lt (name_ p) (name_ c) then Some (p :: c :: rest)
      else cons c <$> insert_ctrlr p rest
  end.
Definition Add c (dt : Z) l : list Ctrlr * upll_rc :=
  if negb (stored_dt dt) then (l, UPLL_RC_ERR_NOT_ALLOWED_FOR_THIS_DT)
  else match insert_ctrlr (copy_Ctrlr c dt) l with
       | Some l' => (l', UPLL_RC_SUCCESS)
       | None => (l, UPLL_RC_ERR_INSTANCE_EXISTS)
       end.

(** The first element that matches, and the list without it. *)
Fixpoint take_ctrlr n (dt : Z) l : option (Ctrlr * list Ctrlr) :=
  match l with
  | [] => None
  | c :: rest =>
      if is_ctrlr n dt c then Some (c, rest)
      else '(c', rest') ← take_ctrlr n dt rest; Some (c', c :: rest')
  end.
(** Also the controller whose alarm of an invalid configuration it clears. *)
Definition Delete n (dt : Z) l : list Ctrlr * (upll_rc * option string) :=
  if negb (stored_dt dt) then (l, (UPLL_RC_ERR_NOT_ALLOWED_FOR_THIS_DT, None))
  else match take_ctrlr n dt l with
       | Some (c, l') =>
           (l', (UPLL_RC_SUCCESS, if invalid_config_ c && (dt ==? UPLL_DT_RUNNING) then Some n else None))
       | None => (l, (UPLL_RC_ERR_NO_SUCH_INSTANCE, None))
       end.

(** The loop of the updates. *)
Fixpoint update_ctrlr n (dt : Z) (f : Ctrlr -> Ctrlr) l : option (list Ctrlr) :=
  match l with
  | [] => None
  | c :: rest => if is_ctrlr n dt c then Some (f c :: rest) else cons c <$> update_ctrlr n dt f rest
  end.
Definition updated (o : option (list Ctrlr)) l : list Ctrlr * upll_rc :=
  match o with Some l' => (l', UPLL_RC_SUCCESS) | None => (l, UPLL_RC_ERR_NO_SUCH_INSTANCE) end.

Definition UpdateVersion n (dt : Z) (v : string) l : list Ctrlr * upll_rc :=
  if negb (stored_dt dt) then (l, UPLL_RC_ERR_NOT_ALLOWED_FOR_THIS_DT)
  else updated (update_ctrlr n dt (with_version v) l) l.
Definition UpdateAuditDone n b l : list Ctrlr * upll_rc :=
  updated (update_ctrlr n UPLL_DT_RUNNING (with_audit_done b) l) l.
Definition UpdateConfigDone n b l : list Ctrlr * upll_rc :=
  updated (update_ctrlr n UPLL_DT_RUNNING (with_config_done b) l) l.
Definition UpdateInvalidConfig n b l : list Ctrlr * upll_rc :=
  updated (update_ctrlr n UPLL_DT_RUNNING (with_invalid_config b) l) l.
Definition UpdateAuditType n (dt : Z) b l : list Ctrlr * upll_rc :=
  if negb (stored_dt dt) then (l, UPLL_RC_ERR_NOT_ALLOWED_FOR_THIS_DT)
  else updated (update_ctrlr n dt (with_audit_type b) l) l.

Definition MapDataType (dt : Z) : Z :=
  if (dt ==? UPLL_DT_STATE) || (dt ==? UPLL_DT_RUNNING) || (dt ==? UPLL_DT_AUDIT) then UPLL_DT_RUNNING
  else if (dt ==? UPLL_DT_CANDIDATE) || (dt ==? UPLL_DT_IMPORT) then UPLL_DT_CANDIDATE
  else if dt ==? UPLL_DT_STARTUP then UPLL_DT_STARTUP
  else UPLL_DT_INVALID.

(** The loops of the queries. *)
Fixpoint find_ctrlr n (dt : Z) l : option Ctrlr :=
  match l with [] => None | c :: rest => if is_ctrlr n dt c then Some c else find_ctrlr n dt rest end.

(** Names are C strings ([None]: [NULL]); [out]: the place of the result is
    given.  A result that is not written is [None]. *)
Definition GetCtrlrType (on : option string) (dt : Z) (out : bool) l : option Z :=
  match on with
  | Some n => if out then type_ <$> find_ctrlr n (MapDataType dt) l else None
  | None => None
  end.
Definition GetCtrlrTypeAndVersion (on : option string) (dt : Z) (out : bool) l : option (Z * string) :=
  match on with
  | Some n => if out then (fun c => (type_ c, version_ c)) <$> find_ctrlr n (MapDataType dt) l else None
  | None => None
  end.
Definition read_flag (f : Ctrlr -> bool) n (dt : Z) l : upll_rc * option bool :=
  match find_ctrlr n dt l with
  | Some c => (UPLL_RC_SUCCESS, Some (f c))
  | None => (UPLL_RC_ERR_NO_SUCH_INSTANCE, None)
  end.
Definition IsConfigInvalid (on : option string) (out : bool) l : upll_rc * option bool :=
  match on with
  | Some n => if out then read_flag invalid_config_ n UPLL_DT_RUNNING l else (UPLL_RC_ERR_GENERIC, None)
  | None => (UPLL_RC_ERR_GENERIC, None)
  end.
Definition IsConfigDone (on : option string) (out : bool) l : upll_rc * option bool :=
  match on with
  | Some n => if out then read_flag config_done_ n UPLL_DT_RUNNING l else (UPLL_RC_ERR_GENERIC, None)
  | None => (UPLL_RC_ERR_GENERIC, None)
  end.
(** These two do not test the place of the result, which is given. *)
Definition IsAuditDone (on : option string) l : upll_rc * option bool :=
  match on with
  | Some n => read_flag audit_done_ n UPLL_DT_RUNNING l
  | None => (UPLL_RC_ERR_GENERIC, None)
  end.
Definition GetAuditType n (dt : Z) l : upll_rc * option bool :=
  if negb (stored_dt dt || (dt ==? UPLL_DT_IMPORT)) then (UPLL_RC_ERR_NOT_ALLOWED_FOR_THIS_DT, None)
  else read_flag audit_type_ n dt l.

Definition name_of (o : option Ctrlr) : upll_rc * option string :=
  match o with Some c => (UPLL_RC_SUCCESS, Some (name_ c)) | None => (UPLL_RC_ERR_NO_SUCH_INSTANCE, None) end.
Definition GetFirstCtrlrName (dt : Z) (out : bool) l : upll_rc * option string :=
  if out then name_of (List.find (fun c => datatype_ c ==? MapDataType dt) l) else (UPLL_RC_ERR_GENERIC, None).
Definition GetNextCtrlrName n (dt : Z) l : upll_rc * option string :=
  name_of (List.find (fun c => (datatype_ c ==? MapDataType dt) && str_lt n (name_ c)) l).
Definition GetInvalidConfigList l : list string :=
  name_ <$> List.filter (fun c => (datatype_ c ==? UPLL_DT_RUNNING) && invalid_config_ c) l.
Definition CleanUp l : list Ctrlr := [].

(** *** [path_fault_map_] *)

Abbreviation FaultMap := (gmap string (gmap string Z)).
Implicit Types (m : FaultMap) (d : string).

Definition uint32_wrap (z : Z) : Z := z mod 2 ^ 32.

Definition UpdatePathFault (octr od : option string) (assert_alarm : bool) m : FaultMap * bool :=
  match octr, od with
  | Some ctr, Some d =>
      if assert_alarm then
        match m !! ctr with
        | None => (<[ctr := {[d := 1]}]> m, true)
        | Some domains =>
            match domains !! d with
            | None => (<[ctr := <[d := 1]> domains]> m, true)
            | Some count => (<[ctr := <[d := uint32_wrap (count + 1)]> domains]> m, false)
            end
        end
      else
        match m !! ctr with
        | None => (m, false)
        | Some domains =>
            match domains !! d with
            | None => (m, false)
            | Some count =>
                if uint32_wrap (count - 1) ==? 0
                then let domains' := delete d domains in
                     (if decide (domains' = ∅) then delete ctr m else <[ctr := domains']> m, true)
                else (<[ctr := <[d := uint32_wrap (count - 1)]> domains]> m, false)
            end
        end
  | _, _ => (m, false)
  end.
Definition IsPathFaultOccured (octr od : option string) m : bool :=
  match octr, od with
  | Some ctr, Some d =>
      if decide (m = ∅) then false
      else if ctr ==? "*"%string then true
      else match m !! ctr with
           | None => false
           | Some domains => if d ==? "*"%string then true else bool_decide (is_Some (domains !! d))
           end
  | _, _ => false
  end.
Definition ClearPathfault (octr od : option string) m : FaultMap :=
  match octr, od with
  | Some ctr, Some d =>
      if ctr ==? "*"%string then ∅
      else match m !! ctr with
           | None => m
           | Some domains =>
               if d ==? "*"%string then delete ctr m
               else match domains !! d with
                    | None => m
                    | Some _ =>
                        let domains' := delete d domains in
                        if decide (domains' = ∅) then delete ctr m else <[ctr := domains']> m
                    end
           end
  | _, _ => m
  end.

(** *** [ctr_discon_map_] *)

Implicit Types (q : gmap string (gmap string Z)).

Definition IsCtrDisconnected (octr : option string) q : bool :=
  match octr with Some ctr => bool_decide (is_Some (q !! ctr)) | None => false end.
Definition GetLogicalPortSt (octr oport : option string) q : option Z :=
  match octr, oport with Some ctr, Some port => q !! ctr ≫= (fun ports => ports !! port) | _, _ => None end.
Definition AddCtrToDisconnectList (octr : option string) q : gmap string (gmap string Z) :=
  match octr with Some ctr => <[ctr := ∅]> q | None => q end.
Definition AddLogicalPort (octr oport : option string) (state : Z) q : gmap string (gmap string Z) :=
  match octr, oport with
  | Some ctr, Some port =>
      match q !! ctr with Some ports => <[ctr := <[port := state]> ports]> q | None => q end
  | _, _ => q
  end.
Definition RemoveCtrFromDisconnectList (octr : option string) q : gmap string (gmap string Z) :=
  match octr with Some ctr => delete ctr q | None => q end.

End CtrlrMgr.
Import CtrlrMgr.

(** ** Sequences of operations on the list *)

Inductive Cmd :=
| CAdd c (dt : Z)
| CDelete n (dt : Z)
| CUpdateVersion n (dt : Z) (v : string)
| CUpdateAuditDone n b
| CUpdateConfigDone n b
| CUpdateInvalidConfig n b
| CUpdateAuditType n (dt : Z) b
| CCleanUp
| CGetCtrlrType (on : option string) (dt : Z) (out : bool)
| CGetCtrlrTypeAndVersion (on : option string) (dt : Z) (out : bool)
| CIsConfigInvalid (on : option string) (out : bool)
| CIsConfigDone (on : option string) (out : bool)
| CIsAuditDone (on : option string)
| CGetAuditType n (dt : Z)
| CGetFirstCtrlrName (dt : Z) (out : bool)
| CGetNextCtrlrName n (dt : Z)
| CGetInvalidConfigList.

Inductive Reply :=
| RDone
| RRc (rc : upll_rc)
| RDelete (rc : upll_rc) (alarm : option string)
| RType (o : option Z)
| RTypeVersion (o : option (Z * string))
| RFlag (rc : upll_rc) (o : option bool)
| RName (rc : upll_rc) (o : option string)
| RNames (names : list string).

Definition exec (cmd : Cmd) l : list Ctrlr * Reply :=
  let rc (r : list Ctrlr * upll_rc) := (r.1, RRc r.2) in
  let flag (r : upll_rc * option bool) := (l, RFlag r.1 r.2) in
  let name (r : upll_rc * option string) := (l, RName r.1 r.2) in
  match cmd with
  | CAdd c dt => rc (Add c dt l)
  | CDelete n dt => let r := Delete n dt l in (r.1, RDelete r.2.1 r.2.2)
  | CUpdateVersion n dt v => rc (UpdateVersion n dt v l)
  | CUpdateAuditDone n b => rc (UpdateAuditDone n b l)
  | CUpdateConfigDone n b => rc (UpdateConfigDone n b l)
  | CUpdateInvalidConfig n b => rc (UpdateInvalidConfig n b l)
  | CUpdateAuditType n dt b => rc (UpdateAuditType n dt b l)
  | CCleanUp => (CleanUp l, RDone)
  | CGetCtrlrType on dt out => (l, RType (GetCtrlrType on dt out l))
  | CGetCtrlrTypeAndVersion on dt out => (l, RTypeVersion (GetCtrlrTypeAndVersion on dt out l))
  | CIsConfigInvalid on out => flag (IsConfigInvalid on out l)
  | CIsConfigDone on out => flag (IsConfigDone on out l)
  | CIsAuditDone on => flag (IsAuditDone on l)
  | CGetAuditType n dt => flag (GetAuditType n dt l)
  | CGetFirstCtrlrName dt out => name (GetFirstCtrlrName dt out l)
  | CGetNextCtrlrName n dt => name (GetNextCtrlrName n dt l)
  | CGetInvalidConfigList => (l, RNames (GetInvalidConfigList l))
  end.
Fixpoint exec_all (cmds : list Cmd) l : list Ctrlr * list Reply :=
  match cmds with
  | [] => (l, [])
  | cmd :: rest =>
      let (l', r) := exec cmd l in
      let (l'', rs) := exec_all rest l' in
      (l'', r :: rs)
  end.

(** ** The map *)

Abbreviation Registry := (gmap (string * Z) Ctrlr).
Implicit Types (M : Registry).

Definition spec_flag (f : Ctrlr -> bool) n (dt : Z) M : Reply :=
  match M !! (n, dt) with
  | Some c => RFlag UPLL_RC_SUCCESS (Some (f c))
  | None => RFlag UPLL_RC_ERR_NO_SUCH_INSTANCE None
  end.
(** The least name of a configuration of those that satisfy [P]. *)
Definition spec_least (dt : Z) (P : string -> Prop) M (r : Reply) : Prop :=
  (exists n c, r = RName UPLL_RC_SUCCESS (Some n) /\ M !! (n, dt) = Some c /\ P n /\
     forall n' c', M !! (n', dt) = Some c' -> P n' -> str_le n n') \/
  (r = RName UPLL_RC_ERR_NO_SUCH_INSTANCE None /\ forall n c, M !! (n, dt) = Some c -> ~ P n).

(** What a command leaves. *)
Definition spec_next (cmd : Cmd) M : Registry :=
  match cmd with
  | CAdd c dt =>
      if stored_dt dt then
        match M !! (name_ c, dt) with Some _ => M | None => <[(name_ c, dt) := copy_Ctrlr c dt]> M end
      else M
  | CDelete n dt => delete (n, dt) M
  | CUpdateVersion n dt v => alter (with_version v) (n, dt) M
  | CUpdateAuditDone n b => alter (with_audit_done b) (n, UPLL_DT_RUNNING) M
  | CUpdateConfigDone n b => alter (with_config_done b) (n, UPLL_DT_RUNNING) M
  | CUpdateInvalidConfig n b => alter (with_invalid_config b) (n, UPLL_DT_RUNNING) M
  | CUpdateAuditType n dt b => alter (with_audit_type b) (n, dt) M
  | CCleanUp => ∅
  | _ => M
  end.

Definition found (o : option Ctrlr) : upll_rc :=
  match o with Some _ => UPLL_RC_SUCCESS | None => UPLL_RC_ERR_NO_SUCH_INSTANCE end.

Definition spec_reply (cmd : Cmd) M (r : Reply) : Prop :=
  match cmd with
  | CAdd c dt =>
      r = RRc (if stored_dt dt
               then match M !! (name_ c, dt) with Some _ => UPLL_RC_ERR_INSTANCE_EXISTS | None => UPLL_RC_SUCCESS end
               else UPLL_RC_ERR_NOT_ALLOWED_FOR_THIS_DT)
  | CDelete n dt =>
      r = if stored_dt dt
          then RDelete (found (M !! (n, dt)))
                 (c ← M !! (n, dt); if invalid_config_ c && (dt ==? UPLL_DT_RUNNING) then Some n else None)
          else RDelete UPLL_RC_ERR_NOT_ALLOWED_FOR_THIS_DT None
  | CUpdateVersion n dt _ | CUpdateAuditType n dt _ =>
      r = RRc (if stored_dt dt then found (M !! (n, dt)) else UPLL_RC_ERR_NOT_ALLOWED_FOR_THIS_DT)
  | CUpdateAuditDone n _ | CUpdateConfigDone n _ | CUpdateInvalidConfig n _ =>
      r = RRc (found (M !! (n, UPLL_DT_RUNNING)))
  | CCleanUp => r = RDone
  | CGetCtrlrType on dt out =>
      r = RType (n ← on; if out then type_ <$> M !! (n, MapDataType dt) else None)
  | CGetCtrlrTypeAndVersion on dt out =>
      r = RTypeVersion (n ← on; if out then (fun c => (type_ c, version_ c)) <$> M !! (n, MapDataType dt) else None)
  | CIsConfigInvalid on out =>
      r = match on with
          | Some n => if out then spec_flag invalid_config_ n UPLL_DT_RUNNING M else RFlag UPLL_RC_ERR_GENERIC None
          | None => RFlag UPLL_RC_ERR_GENERIC None
          end
  | CIsConfigDone on out =>
      r = match on with
          | Some n => if out then spec_flag config_done_ n UPLL_DT_RUNNING M else RFlag UPLL_RC_ERR_GENERIC None
          | None => RFlag UPLL_RC_ERR_GENERIC None
          end
  | CIsAuditDone on =>
      r = match on with
          | Some n => spec_flag audit_done_ n UPLL_DT_RUNNING M
          | None => RFlag UPLL_RC_ERR_GENERIC None
          end
  | CGetAuditType n dt =>
      r = if stored_dt dt then spec_flag audit_type_ n dt M
          else RFlag (if dt ==? UPLL_DT_IMPORT then UPLL_RC_ERR_NO_SUCH_INSTANCE
                      else UPLL_RC_ERR_NOT_ALLOWED_FOR_THIS_DT) None
  | CGetFirstCtrlrName dt out =>
      if out then spec_least (MapDataType dt) (fun _ => True) M r else r = RName UPLL_RC_ERR_GENERIC None
  | CGetNextCtrlrName n dt => spec_least (MapDataType dt) (fun n' => str_lt n n' = true) M r
  | CGetInvalidConfigList =>
      exists names, r = RNames names /\ StronglySorted (fun x y => str_lt x y = true) names /\
        forall n, n ∈ names <-> exists c, M !! (n, UPLL_DT_RUNNING) = Some c /\ invalid_config_ c = true
  end.

Inductive spec_run : Registry -> list Cmd -> list Reply -> Registry -> Prop :=
| spec_run_nil M : spec_run M [] [] M
| spec_run_cons M cmd cmds r rs M' :
    spec_reply cmd M r -> spec_run (spec_next cmd M) cmds rs M' -> spec_run M (cmd :: cmds) (r :: rs) M'.

(** ** The list implements the map *)

Definition ctrlr_key c : string * Z := (name_ c, datatype_ c).
Definition abs l : Registry := list_to_map ((fun c => (ctrlr_key c, c)) <$> l).

Record ctrlrs_ok l : Prop := {
  co_sorted : StronglySorted str_le (name_ <$> l);
  co_distinct : NoDup (ctrlr_key <$> l);
  co_stored : Forall (fun c => stored_dt (datatype_ c) = true) l
}.

Lemma is_ctrlr_spec n dt c : reflect (ctrlr_key c = (n, dt)) (is_ctrlr n dt c).
Proof.
  unfold is_ctrlr, ctrlr_key. destruct (bool_decide_reflect (name_ c = n)), (bool_decide_reflect (datatype_ c = dt));
    cbn; constructor; congruence.
Qed.

Lemma abs_cons c l : abs (c :: l) = <[ctrlr_key c := c]> (abs l).
Proof. done. Qed.

Lemma abs_find n dt l : find_ctrlr n dt l = abs l !! (n, dt).
Proof.
  induction l as [|c l IH]; [done|]. rewrite abs_cons. cbn [find_ctrlr].
  destruct (is_ctrlr_spec n dt c) as [<-|Hne]; [by rewrite lookup_insert_eq|].
  by rewrite lookup_insert_ne by congruence.
Qed.

Lemma abs_elem l k c : abs l !! k = Some c -> c ∈ l /\ ctrlr_key c = k.
Proof.
  intros H%elem_of_list_to_map_2. apply list_elem_of_fmap in H as (c' & [= -> ->] & Hin). done.
Qed.

Lemma elem_abs l c : NoDup (ctrlr_key <$> l) -> c ∈ l -> abs l !! ctrlr_key c = Some c.
Proof.
  intros Hnd Hin. apply elem_of_list_to_map_1.
  - rewrite <- list_fmap_compose. exact Hnd.
  - apply list_elem_of_fmap. by exists c.
Qed.

Lemma abs_none l k : abs l !! k = None <-> k ∉ ctrlr_key <$> l.
Proof.
  unfold abs. rewrite <- not_elem_of_list_to_map, <- list_fmap_compose. done.
Qed.

(** *** Changes *)

Lemma str_le_refl n : str_le n n.
Proof. apply str_lt_irrefl. Qed.

Lemma sorted_cons c l :
  StronglySorted str_le (name_ <$> (c :: l)) <->
  StronglySorted str_le (name_ <$> l) /\ forall c', c' ∈ l -> str_le (name_ c) (name_ c').
Proof.
  rewrite fmap_cons. split.
  - intros [Hs Hc]%StronglySorted_inv. split; [done|]. rewrite list.Forall_forall in Hc. intros c' Hc'.
    apply Hc, list_elem_of_fmap. eauto.
  - intros [Hs Hc]. constructor; [done|]. apply list.Forall_forall. intros x (c' & -> & Hc')%list_elem_of_fmap. auto.
Qed.

Lemma insert_ctrlr_spec p l :
  StronglySorted str_le (name_ <$> l) ->
  match insert_ctrlr p l with
  | None => is_Some (abs l !! ctrlr_key p)
  | Some l' => abs l !! ctrlr_key p = None /\ l' ≡ₚ p :: l /\ StronglySorted str_le (name_ <$> l')
  end.
Proof.
  induction l as [|c l IH]; intros Hs.
  { cbn. split_and!; [done..|repeat constructor]. }
  pose proof Hs as [Hs' Hc]%sorted_cons. specialize (IH Hs'). cbn [insert_ctrlr].
  destruct (is_ctrlr_spec (name_ p) (datatype_ p) c) as [Hk|Hk].
  { rewrite abs_cons, Hk. unfold ctrlr_key. rewrite lookup_insert_eq. eauto. }
  assert (str_le (name_ c) (name_ p) ->
    match cons c <$> insert_ctrlr p l with
    | None => is_Some (abs (c :: l) !! ctrlr_key p)
    | Some l' => abs (c :: l) !! ctrlr_key p = None /\ l' ≡ₚ p :: c :: l /\ StronglySorted str_le (name_ <$> l')
    end) as Hrec.
  { intros Hle. rewrite abs_cons, lookup_insert_ne by done. destruct (insert_ctrlr p l) as [l'|]; cbn; [|done].
    destruct IH as (Hn & Hp & Hs2). split_and!; [done| |].
    - rewrite Hp. apply perm_swap.
    - apply sorted_cons. split; [done|]. intros c' Hin. rewrite Hp in Hin.
      apply elem_of_cons in Hin as [->|Hin]; auto. }
  destruct (str_lt (name_ c) (name_ p)) eqn:E1; [by apply Hrec, str_lt_le|].
  destruct (str_lt (name_ p) (name_ c)) eqn:E2.
  - assert (forall c', c' ∈ c :: l -> str_lt (name_ p) (name_ c') = true) as Hlt.
    { intros c' [->|Hin]%elem_of_cons; [done|]. destruct (str_le_cases _ _ (Hc c' Hin)) as [<-|Hl]; [done|].
      by eapply str_lt_trans. }
    split_and!; [|done|].
    + apply abs_none. intros (c' & Hk' & Hin)%list_elem_of_fmap. specialize (Hlt c' Hin).
      injection Hk' as Hn _. rewrite Hn, str_lt_irrefl in Hlt. done.
    + apply sorted_cons. split; [done|]. intros c' Hin. by apply str_lt_le, Hlt.
  - apply Hrec. exact E2.
Qed.

Lemma abs_perm l l' : NoDup (ctrlr_key <$> l) -> l ≡ₚ l' -> abs l = abs l'.
Proof.
  intros Hnd Hp. apply list_to_map_proper; [|by rewrite Hp]. rewrite <- list_fmap_compose. exact Hnd.
Qed.

Lemma Add_spec c dt l :
  ctrlrs_ok l ->
  ctrlrs_ok (Add c dt l).1 /\ abs (Add c dt l).1 = spec_next (CAdd c dt) (abs l) /\
  spec_reply (CAdd c dt) (abs l) (RRc (Add c dt l).2).
Proof.
  intros [Hs Hd Hst]. unfold Add. cbn [spec_next spec_reply]. destruct (stored_dt dt) eqn:Edt; [|done]. cbn [negb].
  pose proof (insert_ctrlr_spec (copy_Ctrlr c dt) l Hs) as Hi.
  change (ctrlr_key (copy_Ctrlr c dt)) with (name_ c, dt) in Hi.
  destruct (insert_ctrlr (copy_Ctrlr c dt) l) as [l'|]; [|destruct Hi as [x ->]; done].
  destruct Hi as (Hn & Hp & Hs2). cbn [fst snd].
  assert (NoDup (ctrlr_key <$> (copy_Ctrlr c dt :: l))) as Hnd.
  { rewrite fmap_cons. apply list.NoDup_cons. split; [|done]. apply abs_none. exact Hn. }
  rewrite Hn. split_and!; [split|..]; [done| | | |done].
  - by rewrite Hp.
  - rewrite Hp. by constructor.
  - symmetry. rewrite <- (abs_perm _ _ Hnd (symmetry Hp)). done.
Qed.

Lemma take_ctrlr_spec n dt l :
  match take_ctrlr n dt l with
  | None => abs l !! (n, dt) = None
  | Some (c, l') => abs l !! (n, dt) = Some c /\ exists l1 l2, l = l1 ++ c :: l2 /\ l' = l1 ++ l2
  end.
Proof.
  induction l as [|c l IH]; [done|]. cbn [take_ctrlr]. rewrite abs_cons.
  destruct (is_ctrlr_spec n dt c) as [<-|Hk].
  { rewrite lookup_insert_eq. split; [done|]. by exists [], l. }
  rewrite lookup_insert_ne by congruence. destruct (take_ctrlr n dt l) as [[c' l']|]; cbn; [|done].
  destruct IH as (Hl & l1 & l2 & -> & ->). split; [done|]. by exists (c :: l1), l2.
Qed.

Lemma ctrlrs_ok_remove c l1 l2 :
  ctrlrs_ok (l1 ++ c :: l2) -> ctrlrs_ok (l1 ++ l2) /\ abs (l1 ++ l2) = delete (ctrlr_key c) (abs (l1 ++ c :: l2)).
Proof.
  intros [Hs Hd Hst]. assert (l1 ++ c :: l2 ≡ₚ c :: (l1 ++ l2)) as Hp by by rewrite Permutation_middle.
  assert (NoDup (ctrlr_key <$> (c :: (l1 ++ l2)))) as Hd' by by rewrite <- Hp.
  rewrite (abs_perm _ _ Hd Hp), abs_cons. rewrite fmap_cons in Hd'. apply list.NoDup_cons in Hd' as [Hn Hd'].
  split; [split; [|done|]|].
  - clear Hd Hst Hp Hd' Hn. induction l1 as [|c1 l1 IH]; cbn [app] in *.
    + by apply sorted_cons in Hs as [Hs _].
    + apply sorted_cons in Hs as [Hs Hc]. apply sorted_cons. split; [by apply IH|]. intros c' Hin. apply Hc.
      apply elem_of_app in Hin as [Hin|Hin]; apply elem_of_app; [by left|]. right. by right.
  - rewrite Hp in Hst. by apply Forall_cons_1 in Hst as [_ Hst].
  - symmetry. rewrite delete_insert_eq. apply delete_id. by apply abs_none.
Qed.

Lemma stored_lookup l n dt : ctrlrs_ok l -> stored_dt dt = false -> abs l !! (n, dt) = None.
Proof.
  intros Hok Hdt. apply abs_none. intros (c & [= -> ->] & Hin)%list_elem_of_fmap.
  pose proof (co_stored _ Hok) as Hst. rewrite list.Forall_forall in Hst. rewrite (Hst c Hin) in Hdt. done.
Qed.

Lemma Delete_spec n dt l :
  ctrlrs_ok l ->
  ctrlrs_ok (Delete n dt l).1 /\ abs (Delete n dt l).1 = spec_next (CDelete n dt) (abs l) /\
  spec_reply (CDelete n dt) (abs l) (RDelete (Delete n dt l).2.1 (Delete n dt l).2.2).
Proof.
  intros Hok. unfold Delete. cbn [spec_next spec_reply]. destruct (stored_dt dt) eqn:Edt; cbn [negb fst snd].
  2: { rewrite delete_id by by apply stored_lookup. done. }
  pose proof (take_ctrlr_spec n dt l) as Ht. destruct (take_ctrlr n dt l) as [[c l']|]; cbn [fst snd].
  - destruct Ht as (Hl & l1 & l2 & -> & ->). destruct (ctrlrs_ok_remove _ _ _ Hok) as [Hok' Ha].
    rewrite Hl. split_and!; [done| |done]. apply abs_elem in Hl as [_ <-]. done.
  - rewrite Ht, delete_id by done. done.
Qed.

(** An update that keeps names and configurations. *)
Definition keeps_key (f : Ctrlr -> Ctrlr) : Prop := forall c, name_ (f c) = name_ c /\ datatype_ (f c) = datatype_ c.

Lemma update_ctrlr_spec n dt f l :
  keeps_key f ->
  match update_ctrlr n dt f l with
  | None => abs l !! (n, dt) = None
  | Some l' => is_Some (abs l !! (n, dt)) /\ abs l' = alter f (n, dt) (abs l) /\
               ctrlr_key <$> l' = ctrlr_key <$> l
  end.
Proof.
  intros Hf. assert (forall c, ctrlr_key (f c) = ctrlr_key c) as Hk.
  { intros c. unfold ctrlr_key. by destruct (Hf c) as [-> ->]. }
  induction l as [|c l IH]; [done|]. cbn [update_ctrlr]. rewrite abs_cons.
  destruct (is_ctrlr_spec n dt c) as [<-|Hne].
  - rewrite lookup_insert_eq, abs_cons, Hk, alter_insert_eq, !fmap_cons, Hk. eauto.
  - rewrite lookup_insert_ne by congruence. destruct (update_ctrlr n dt f l) as [l'|]; cbn [fmap option_fmap option_map]; [|done].
    destruct IH as (Hs & Ha & Hl). rewrite abs_cons, Ha, alter_insert_ne by congruence.
    split_and!; [done..|]. by rewrite !fmap_cons, Hl.
Qed.

Lemma ctrlrs_ok_keys l l' : ctrlr_key <$> l' = ctrlr_key <$> l -> ctrlrs_ok l -> ctrlrs_ok l'.
Proof.
  intros E [Hs Hd Hst]. split.
  - assert (name_ <$> l' = name_ <$> l) as ->; [|done].
    change name_ with (fst ∘ ctrlr_key). by rewrite !list_fmap_compose, E.
  - by rewrite E.
  - assert (Forall (fun k : string * Z => stored_dt k.2 = true) (ctrlr_key <$> l)) as H by by apply Forall_fmap.
    rewrite <- E in H. by apply Forall_fmap in H.
Qed.

Lemma updated_spec n dt f l :
  keeps_key f -> ctrlrs_ok l ->
  let r := updated (update_ctrlr n dt f l) l in
  ctrlrs_ok r.1 /\ abs r.1 = alter f (n, dt) (abs l) /\ r.2 = found (abs l !! (n, dt)).
Proof.
  intros Hf Hok. pose proof (update_ctrlr_spec n dt f l Hf) as Hu.
  destruct (update_ctrlr n dt f l) as [l'|]; cbn.
  - destruct Hu as ([c ->] & Ha & Hk). split_and!; [by eapply ctrlrs_ok_keys|done..].
  - rewrite Hu. split_and!; [done| |done]. symmetry. by apply alter_id'.
Qed.

(** One that is refused changes nothing. *)
Lemma refused_alter f n dt l :
  ctrlrs_ok l -> stored_dt dt = false -> alter f (n, dt) (abs l) = abs l.
Proof. intros Hok Hdt. by apply alter_id', stored_lookup. Qed.

(** *** Queries *)

Lemma read_flag_spec f n dt l :
  RFlag (read_flag f n dt l).1 (read_flag f n dt l).2 = spec_flag f n dt (abs l).
Proof. unfold read_flag, spec_flag. rewrite abs_find. by destruct (abs l !! (n, dt)). Qed.

(** In a sorted list the first name that is found is the least. *)
Lemma find_least (f : Ctrlr -> bool) dt (P : string -> Prop) l :
  ctrlrs_ok l -> (forall c, f c = true <-> datatype_ c = dt /\ P (name_ c)) ->
  spec_least dt P (abs l) (RName (name_of (List.find f l)).1 (name_of (List.find f l)).2).
Proof.
  intros [Hs Hd _] Hf.
  assert (forall n c, abs l !! (n, dt) = Some c -> P n -> c ∈ l /\ name_ c = n /\ f c = true) as Habs.
  { intros n c [Hin Hk]%abs_elem HP. injection Hk as <- Hdt. split_and!; [done..|]. by apply Hf. }
  destruct (List.find f l) as [c|] eqn:E.
  - left. apply List.find_some in E as E'. destruct E' as [Hin Hc]. apply list_elem_of_In in Hin.
    pose proof (elem_abs l c Hd Hin) as Hl. apply Hf in Hc as [Hdt HP]. unfold ctrlr_key in Hl. rewrite Hdt in Hl.
    exists (name_ c), c. split_and!; [done..|]. intros n' c' Hl' HP'.
    destruct (Habs n' c' Hl' HP') as (Hin' & <- & Hf'). clear - Hs E Hin' Hf'.
    induction l as [|x l IH]; [done|]. apply sorted_cons in Hs as [Hs Hx]. cbn [List.find] in E.
    destruct (f x) eqn:Ex.
    + injection E as ->. apply elem_of_cons in Hin' as [->|Hin']; [apply str_le_refl|by apply Hx].
    + apply elem_of_cons in Hin' as [->|Hin']; [congruence|by apply IH].
  - right. split; [done|]. intros n c Hl HP. destruct (Habs n c Hl HP) as (Hin & _ & Hc).
    apply list_elem_of_In in Hin. by rewrite (List.find_none _ _ E c Hin) in Hc.
Qed.

(** Names of one configuration are distinct. *)
Lemma names_ascend (f : Ctrlr -> bool) dt l :
  ctrlrs_ok l -> (forall c, f c = true -> datatype_ c = dt) ->
  StronglySorted (fun x y => str_lt x y = true) (name_ <$> List.filter f l).
Proof.
  intros [Hs Hd _] Hf. induction l as [|c l IH]; [constructor|]. apply sorted_cons in Hs as [Hs Hc].
  rewrite fmap_cons in Hd. apply list.NoDup_cons in Hd as [Hn Hd]. cbn [List.filter].
  destruct (f c) eqn:Ec; [|by apply IH]. rewrite fmap_cons. constructor; [by apply IH|].
  apply list.Forall_forall. intros x (c' & -> & Hin)%list_elem_of_fmap.
  apply list_elem_of_In, List.filter_In in Hin as [Hin Ec']. apply list_elem_of_In in Hin.
  destruct (str_le_cases _ _ (Hc c' Hin)) as [Heq|Hlt]; [|done]. exfalso. apply Hn.
  apply list_elem_of_fmap. exists c'. split; [|done]. unfold ctrlr_key. rewrite Heq, (Hf c Ec), (Hf c' Ec'). done.
Qed.

Lemma filter_names (f : Ctrlr -> bool) dt (P : Ctrlr -> Prop) l n :
  ctrlrs_ok l -> (forall c, f c = true <-> datatype_ c = dt /\ P c) ->
  n ∈ name_ <$> List.filter f l <-> exists c, abs l !! (n, dt) = Some c /\ P c.
Proof.
  intros Hok Hf. rewrite list_elem_of_fmap. split.
  - intros (c & -> & Hin). apply list_elem_of_In, List.filter_In in Hin as [Hin Hc].
    apply list_elem_of_In in Hin. pose proof (elem_abs l c (co_distinct _ Hok) Hin) as Hl.
    apply Hf in Hc as [Hdt HP]. unfold ctrlr_key in Hl. rewrite Hdt in Hl. eauto.
  - intros (c & Hl & HP). apply abs_elem in Hl as [Hin Hk]. injection Hk as <- Hdt. exists c. split; [done|].
    apply list_elem_of_In, List.filter_In. rewrite list_elem_of_In in Hin. split; [done|]. by apply Hf.
Qed.

Lemma exec_refines cmd l :
  ctrlrs_ok l ->
  ctrlrs_ok (exec cmd l).1 /\ abs (exec cmd l).1 = spec_next cmd (abs l) /\ spec_reply cmd (abs l) (exec cmd l).2.
Proof.
  intros Hok.
  assert (forall f n dt, keeps_key f ->
    let r := updated (update_ctrlr n dt f l) l in
    ctrlrs_ok r.1 /\ abs r.1 = alter f (n, dt) (abs l) /\ RRc r.2 = RRc (found (abs l !! (n, dt)))) as Hup.
  { intros f n dt Hf r. destruct (updated_spec n dt f l Hf Hok) as (? & ? & E). unfold r. by rewrite E. }
  assert (forall f n dt, keeps_key f ->
    let r := if negb (stored_dt dt) then (l, UPLL_RC_ERR_NOT_ALLOWED_FOR_THIS_DT)
             else updated (update_ctrlr n dt f l) l in
    ctrlrs_ok r.1 /\ abs r.1 = alter f (n, dt) (abs l) /\
    RRc r.2 = RRc (if stored_dt dt then found (abs l !! (n, dt)) else UPLL_RC_ERR_NOT_ALLOWED_FOR_THIS_DT)) as Hup2.
  { intros f n dt Hf. destruct (stored_dt dt) eqn:E; [by apply Hup|]. cbn.
    split_and!; [done| |done]. symmetry. by apply refused_alter. }
  destruct cmd as [| | | | | | | |on dt out|on dt out|on out|on out|on|n dt|dt out|n dt|];
    cbn [exec spec_next spec_reply fst snd].
  - by apply Add_spec.
  - by apply Delete_spec.
  - by apply Hup2.
  - by apply Hup.
  - by apply Hup.
  - by apply Hup.
  - by apply Hup2.
  - split_and!; [split; constructor|done..].
  - split_and!; [done..|]. unfold GetCtrlrType. destruct on; [|done]. cbn. by rewrite abs_find.
  - split_and!; [done..|]. unfold GetCtrlrTypeAndVersion. destruct on; [|done]. cbn. by rewrite abs_find.
  - split_and!; [done..|]. unfold IsConfigInvalid. destruct on, out; try done. apply read_flag_spec.
  - split_and!; [done..|]. unfold IsConfigDone. destruct on, out; try done. apply read_flag_spec.
  - split_and!; [done..|]. unfold IsAuditDone. destruct on; [|done]. apply read_flag_spec.
  - split_and!; [done..|]. unfold GetAuditType. destruct (stored_dt dt) eqn:E; cbn [orb negb]; [apply read_flag_spec|].
    destruct (dt ==? UPLL_DT_IMPORT); cbn [negb]; [|done]. rewrite read_flag_spec. unfold spec_flag.
    by rewrite stored_lookup.
  - split_and!; [done..|]. unfold GetFirstCtrlrName. destruct out; [|done]. apply find_least; [done|].
    intros c. rewrite bool_decide_eq_true. tauto.
  - split_and!; [done..|]. apply find_least; [done|]. intros c. rewrite andb_true_iff, bool_decide_eq_true. done.
  - split_and!; [done..|]. eexists. split_and!; [done| |].
    + apply (names_ascend _ UPLL_DT_RUNNING); [done|]. intros c [H _]%andb_prop. by apply bool_decide_eq_true in H.
    + intros n. apply filter_names; [done|]. intros c. rewrite andb_true_iff, bool_decide_eq_true. done.
Qed.

(** A controller in both configurations, deleted from the candidate one: the
    running configuration still has it, and the candidate one has none. *)
Example delete_leaves_other_configuration :
  let c := new_Ctrlr "c1" UNC_CT_PFC "5.1" false in
  (exec_all [CAdd c UPLL_DT_CANDIDATE; CAdd c UPLL_DT_RUNNING; CDelete "c1" UPLL_DT_CANDIDATE;
             CGetCtrlrType (Some "c1"%string) UPLL_DT_CANDIDATE true;
             CGetCtrlrType (Some "c1"%string) UPLL_DT_RUNNING true] []).2
  = [RRc UPLL_RC_SUCCESS; RRc UPLL_RC_SUCCESS; RDelete UPLL_RC_SUCCESS None; RType None; RType (Some UNC_CT_PFC)].
Proof. vm_compute. reflexivity. Qed.


Lemma exec_all_ok cmds l : ctrlrs_ok l -> ctrlrs_ok (exec_all cmds l).1.
Proof.
  revert l. induction cmds as [|cmd cmds IH]; intros l Hok; [done|]. cbn [exec_all].
  destruct (exec_refines cmd l Hok) as (H1 & _ & _). destruct (exec cmd l) as [l1 r].
  specialize (IH l1 H1). by destruct (exec_all cmds l1).
Qed.

(** *** A walk over the names *)

(** As the users of [GetFirstCtrlrName] and [GetNextCtrlrName] loop: while they
    succeed. *)
Definition named (r : upll_rc * option string) : option string :=
  if r.1 ==? UPLL_RC_SUCCESS then r.2 else None.
Fixpoint walk_from (fuel : nat) (dt : Z) n l : list string :=
  match fuel with
  | O => []
  | S fuel =>
      match named (GetNextCtrlrName n dt l) with
      | Some n' => n' :: walk_from fuel dt n' l
      | None => []
      end
  end.
Definition walk (fuel : nat) (dt : Z) l : list string :=
  match named (GetFirstCtrlrName dt true l) with
  | Some n => n :: walk_from fuel dt n l
  | None => []
  end.

Definition names_of (dt : Z) l : list string := name_ <$> List.filter (fun c => datatype_ c ==? MapDataType dt) l.

Lemma find_names (f : Ctrlr -> bool) (g : string -> bool) l :
  name_ <$> List.find (fun c => f c && g (name_ c)) l = List.find g (name_ <$> List.filter f l).
Proof.
  induction l as [|c l IH]; [done|]. cbn [List.find List.filter]. destruct (f c); cbn [andb]; [|done].
  rewrite fmap_cons. cbn [List.find]. by destruct (g (name_ c)).
Qed.

Lemma next_names n dt l :
  GetNextCtrlrName n dt l =
  match List.find (str_lt n) (names_of dt l) with
  | Some n' => (UPLL_RC_SUCCESS, Some n')
  | None => (UPLL_RC_ERR_NO_SUCH_INSTANCE, None)
  end.
Proof.
  unfold GetNextCtrlrName, names_of. rewrite <- find_names. unfold name_of. by destruct (List.find _ l).
Qed.

Lemma walk_from_names fuel dt n l before after :
  names_of dt l = before ++ after ->
  Forall (fun x => str_lt n x = false) before -> StronglySorted (fun x y => str_lt x y = true) (n :: after) ->
  (length after <= fuel)%nat -> walk_from fuel dt n l = after.
Proof.
  revert fuel n before. induction after as [|x after IH]; intros fuel n before E Hb Hs Hf.
  - destruct fuel as [|fuel]; [done|]. cbn [walk_from]. rewrite next_names, E, app_nil_r.
    replace (List.find (str_lt n) before) with (@None string); [done|].
    clear -Hb. induction Hb as [|y before Hy Hb IH]; [done|]. cbn. by rewrite Hy.
  - destruct fuel as [|fuel]; [cbn in Hf; lia|]. cbn [walk_from]. rewrite next_names, E.
    apply StronglySorted_inv in Hs as [Hs Hn]. apply Forall_cons_1 in Hn as [Hx Hn].
    replace (List.find (str_lt n) (before ++ x :: after)) with (Some x).
    + f_equal. apply (IH fuel x (before ++ [x])); [by rewrite <- app_assoc| |done|cbn in Hf; lia].
      apply Forall_app. split; [|constructor; [apply str_lt_irrefl|constructor]].
      refine (Forall_impl _ _ Hb). intros y Hy. cbn. change (str_le y x). eapply str_le_trans; [exact Hy|].
      by apply str_lt_le.
    + clear -Hb Hx. induction Hb as [|y before Hy Hb IH]; cbn; [by rewrite Hx|by rewrite Hy].
Qed.

Lemma first_names dt l :
  GetFirstCtrlrName dt true l =
  match names_of dt l with
  | n :: _ => (UPLL_RC_SUCCESS, Some n)
  | [] => (UPLL_RC_ERR_NO_SUCH_INSTANCE, None)
  end.
Proof.
  unfold GetFirstCtrlrName, names_of, name_of. induction l as [|c l IH]; [done|]. cbn [List.find List.filter].
  by destruct (datatype_ c ==? MapDataType dt).
Qed.

Lemma names_of_sorted dt l :
  ctrlrs_ok l -> StronglySorted (fun x y => str_lt x y = true) (names_of dt l).
Proof.
  intros Hok. apply (names_ascend _ (MapDataType dt)); [done|]. intros c H. by apply bool_decide_eq_true in H.
Qed.

Lemma walk_names dt l : ctrlrs_ok l -> walk (length l) dt l = names_of dt l.
Proof.
  intros Hok. pose proof (names_of_sorted dt l Hok) as Hs. unfold walk. rewrite first_names.
  destruct (names_of dt l) as [|n rest] eqn:En; [done|]. f_equal.
  apply (walk_from_names _ _ _ _ [n]); [done| |done|].
  - constructor; [apply str_lt_irrefl|constructor].
  - assert (length (names_of dt l) <= length l)%nat as Hlen.
    { unfold names_of. rewrite length_fmap. apply List.filter_length_le. }
    rewrite En in Hlen. cbn in Hlen. lia.
Qed.

(** A walk from the first controller of a configuration to the next ones
    ends after as many calls as there are controllers, and meets exactly the
    controllers of the configuration, in ascending order and so once each. *)
Theorem walk_meets_all (cmds : list Cmd) (dt : Z) :
  let l := (exec_all cmds []).1 in
  StronglySorted (fun x y => str_lt x y = true) (walk (length l) dt l) /\
  forall n, n ∈ walk (length l) dt l <-> is_Some (abs l !! (n, MapDataType dt)).
Proof.
  intros l. assert (ctrlrs_ok l) as Hok by by apply exec_all_ok; split; constructor.
  rewrite walk_names by done. split; [by apply names_of_sorted|]. intros n. unfold names_of.
  rewrite (filter_names _ (MapDataType dt) (fun _ => True)); [|done|].
  - split; [intros (c & -> & _); eauto|intros [c ->]; eauto].
  - intros c. rewrite bool_decide_eq_true. tauto.
Qed.

(** ** Path faults *)

Inductive FaultEvent :=
| Raise (ctr d : string)
| Recover (ctr d : string)
| Clear (ctr d : string).

Implicit Types (ctr d : string) (ev : FaultEvent) (h : list FaultEvent) (m : FaultMap).

Definition handle ev m : FaultMap :=
  match ev with
  | Raise ctr d => (UpdatePathFault (Some ctr) (Some d) true m).1
  | Recover ctr d => (UpdatePathFault (Some ctr) (Some d) false m).1
  | Clear ctr d => ClearPathfault (Some ctr) (Some d) m
  end.
Definition handle_all h : FaultMap := foldl (fun m ev => handle ev m) ∅ h.

(** Which domains a pair of names means: a star is every controller, or every
    domain of the controller. *)
Definition means (cw dw ctr d : string) : Prop := cw = "*"%string \/ (cw = ctr /\ (dw = "*"%string \/ dw = d)).
#[export] Instance means_dec cw dw ctr d : Decision (means cw dw ctr d).
Proof. apply _. Defined.

(** The faults of a domain that are not recovered. *)
Definition count_event ctr d ev (k : nat) : nat :=
  match ev with
  | Raise ctr' d' => if decide (ctr' = ctr /\ d' = d) then S k else k
  | Recover ctr' d' => if decide (ctr' = ctr /\ d' = d) then pred k else k
  | Clear cw dw => if decide (means cw dw ctr d) then O else k
  end.
Definition faults h ctr d : nat := foldl (fun k ev => count_event ctr d ev k) O h.

Definition fault_of m ctr d : option Z := m !! ctr ≫= (fun domains => domains !! d).

Record faults_ok h m : Prop := {
  fo_domains : forall ctr domains, m !! ctr = Some domains -> domains <> ∅;
  fo_count : forall ctr d, fault_of m ctr d = if faults h ctr d is O then None else Some (Z.of_nat (faults h ctr d))
}.

Lemma faults_le h ctr d : (faults h ctr d <= length h)%nat.
Proof.
  unfold faults. induction h as [|ev h IH] using rev_ind; [done|]. rewrite foldl_app, length_app. cbn.
  unfold count_event at 1. repeat case_match; lia.
Qed.

Lemma faults_snoc h ev ctr d : faults (h ++ [ev]) ctr d = count_event ctr d ev (faults h ctr d).
Proof. unfold faults. by rewrite foldl_app. Qed.

(** What remains after the domains of a controller changed. *)
Definition put ctr (domains : gmap string Z) m : FaultMap :=
  if decide (domains = ∅) then delete ctr m else <[ctr := domains]> m.

Lemma put_insert ctr d k domains m : <[ctr := <[d := k]> domains]> m = put ctr (<[d := k]> domains) m.
Proof. unfold put. rewrite decide_False; [done|]. apply insert_non_empty. Qed.

Lemma put_fault ctr domains m ctr' d' :
  fault_of (put ctr domains m) ctr' d' = if decide (ctr' = ctr) then domains !! d' else fault_of m ctr' d'.
Proof.
  unfold put, fault_of. destruct (decide (domains = ∅)) as [->|Hne].
  - case_decide as E; [subst; by rewrite lookup_delete_eq|by rewrite lookup_delete_ne by congruence].
  - case_decide as E; [subst; by rewrite lookup_insert_eq|by rewrite lookup_insert_ne by congruence].
Qed.

Lemma put_domains ctr domains m :
  (forall x D, m !! x = Some D -> D <> ∅) -> forall x D, put ctr domains m !! x = Some D -> D <> ∅.
Proof.
  intros Hm x D. unfold put. destruct (decide (domains = ∅)) as [->|Hne].
  - intros [_ Hl]%lookup_delete_Some. by eapply Hm.
  - intros [[-> ->]|[_ Hl]]%lookup_insert_Some; [done|by eapply Hm].
Qed.

(** The entry of a domain with [k] faults. *)
Definition entry (k : nat) : option Z := if k is O then None else Some (Z.of_nat k).

Lemma domains_of h m ctr d :
  faults_ok h m -> default ∅ (m !! ctr) !! d = entry (faults h ctr d).
Proof. intros [_ Hc]. unfold entry. rewrite <- Hc. unfold fault_of. by destruct (m !! ctr). Qed.

(** An event that changes the domains of one controller, and one that changes
    nothing. *)
Lemma change_ok h ev m ctr domains :
  faults_ok h m -> (forall d, domains !! d = entry (faults (h ++ [ev]) ctr d)) ->
  (forall ctr' d, ctr' <> ctr -> faults (h ++ [ev]) ctr' d = faults h ctr' d) ->
  faults_ok (h ++ [ev]) (put ctr domains m).
Proof.
  intros [Hd Hc] Hnew Hother. split; [by apply put_domains|]. intros ctr' d. rewrite put_fault.
  destruct (decide (ctr' = ctr)) as [->|Hne]; [by rewrite Hnew|]. by rewrite Hother, Hc.
Qed.

Lemma same_ok h ev m :
  faults_ok h m -> (forall ctr d, faults (h ++ [ev]) ctr d = faults h ctr d) -> faults_ok (h ++ [ev]) m.
Proof. intros [Hd Hc] E. split; [done|]. intros ctr d. by rewrite E, Hc. Qed.

Lemma raise_ok h ctr d m :
  Z.of_nat (length h) + 1 < 2 ^ 32 -> faults_ok h m ->
  faults_ok (h ++ [Raise ctr d]) (UpdatePathFault (Some ctr) (Some d) true m).1.
Proof.
  intros Hlen Hok. pose proof (faults_le h ctr d) as Hle. pose proof (domains_of h m ctr d Hok) as Hk.
  assert ((UpdatePathFault (Some ctr) (Some d) true m).1 =
          put ctr (<[d := Z.of_nat (S (faults h ctr d))]> (default ∅ (m !! ctr))) m) as ->.
  { unfold UpdatePathFault. destruct (m !! ctr) as [domains|]; cbn [from_option id] in *.
    - rewrite Hk. destruct (faults h ctr d) as [|f]; cbn [entry fst]; [apply put_insert|].
      rewrite <- put_insert. do 3 f_equal. unfold uint32_wrap. rewrite Z.mod_small; lia.
    - destruct (faults h ctr d); [|done]. apply (put_insert ctr d 1 ∅ m). }
  apply (change_ok h); [done|..].
  - intros d'. rewrite faults_snoc. cbn [count_event]. destruct (decide (d = d')) as [->|Hnd].
    + by rewrite lookup_insert_eq, decide_True.
    + rewrite lookup_insert_ne, decide_False by naive_solver. by apply domains_of.
  - intros ctr' d' Hne. rewrite faults_snoc. cbn [count_event]. by rewrite decide_False by naive_solver.
Qed.

Lemma recover_ok h ctr d m :
  Z.of_nat (length h) + 1 < 2 ^ 32 -> faults_ok h m ->
  faults_ok (h ++ [Recover ctr d]) (UpdatePathFault (Some ctr) (Some d) false m).1.
Proof.
  intros Hlen Hok. pose proof (faults_le h ctr d) as Hle. pose proof (domains_of h m ctr d Hok) as Hk.
  assert (faults h ctr d = O -> faults_ok (h ++ [Recover ctr d]) m) as Hsame.
  { intros E. apply same_ok; [done|]. intros ctr' d'. rewrite faults_snoc. cbn [count_event].
    case_decide as Hd; [|done]. destruct Hd as [-> ->]. by rewrite E. }
  assert (forall domains, (forall d', domains !! d' = if decide (d = d') then entry (pred (faults h ctr d))
      else default ∅ (m !! ctr) !! d') -> faults_ok (h ++ [Recover ctr d]) (put ctr domains m)) as Hput.
  { intros domains Hd. apply (change_ok h); [done|..].
    - intros d'. rewrite Hd, faults_snoc. cbn [count_event]. destruct (decide (d = d')) as [->|Hnd].
      + by rewrite decide_True.
      + rewrite decide_False by naive_solver. by apply domains_of.
    - intros ctr' d' Hne. rewrite faults_snoc. cbn [count_event]. by rewrite decide_False by naive_solver. }
  unfold UpdatePathFault. destruct (m !! ctr) as [domains|]; cbn [from_option id] in *.
  2: { apply Hsame. by destruct (faults h ctr d). }
  rewrite Hk. destruct (faults h ctr d) as [|f]; cbn [entry]; [by apply Hsame|].
  unfold uint32_wrap. rewrite Z.mod_small by lia. replace (Z.of_nat (S f) - 1) with (Z.of_nat f) by lia.
  cbn [pred] in Hput. destruct f as [|f].
  - rewrite bool_decide_eq_true_2 by done. apply Hput. intros d'.
    destruct (decide (d = d')) as [->|Hnd]; [apply lookup_delete_eq|by apply lookup_delete_ne].
  - rewrite bool_decide_eq_false_2 by lia. cbn [fst]. rewrite put_insert. apply Hput. intros d'.
    destruct (decide (d = d')) as [->|Hnd]; [apply lookup_insert_eq|by apply lookup_insert_ne].
Qed.

Lemma clear_ok h cw dw m :
  faults_ok h m -> faults_ok (h ++ [Clear cw dw]) (ClearPathfault (Some cw) (Some dw) m).
Proof.
  intros Hok. unfold ClearPathfault. case_bool_decide as Hcw.
  { split; [intros x D Hl; by rewrite lookup_empty in Hl|]. intros ctr d. rewrite faults_snoc. cbn [count_event].
    rewrite decide_True by by left. unfold fault_of. by rewrite lookup_empty. }
  assert (forall domains, (forall d, domains !! d = if decide (dw = "*"%string \/ dw = d) then None
      else default ∅ (m !! cw) !! d) -> faults_ok (h ++ [Clear cw dw]) (put cw domains m)) as Hput.
  { intros domains Hd. apply (change_ok h); [done|..].
    - intros d. rewrite Hd, faults_snoc. cbn [count_event]. unfold means.
      destruct (decide (dw = "*"%string \/ dw = d)) as [Hm|Hm].
      + rewrite decide_True by auto. done.
      + rewrite decide_False by naive_solver. by apply domains_of.
    - intros ctr' d' Hne. rewrite faults_snoc. cbn [count_event]. unfold means.
      by rewrite decide_False by naive_solver. }
  assert ((forall d, dw = "*"%string \/ dw = d -> default ∅ (m !! cw) !! d = None) ->
    faults_ok (h ++ [Clear cw dw]) m) as Hsame.
  { intros Hno. apply same_ok; [done|]. intros ctr d. rewrite faults_snoc. cbn [count_event].
    destruct (decide (means cw dw ctr d)) as [Hm|]; [|done]. destruct Hm as [|[-> Hm]]; [done|]. specialize (Hno d Hm).
    rewrite (domains_of h) in Hno by done. by destruct (faults h ctr d). }
  destruct (m !! cw) as [domains|] eqn:El; cbn [from_option id] in *; [|apply Hsame; intros; apply lookup_empty].
  case_bool_decide as Hdw.
  - assert (delete cw m = put cw ∅ m) as ->; [by unfold put; rewrite decide_True|]. apply Hput. intros d.
    rewrite decide_True by auto. apply lookup_empty.
  - destruct (domains !! dw) as [k|] eqn:Ek; [|apply Hsame; naive_solver]. apply (Hput (delete dw domains)).
    intros d. destruct (decide (dw = d)) as [<-|Hnd].
    + rewrite decide_True by auto. apply lookup_delete_eq.
    + rewrite decide_False by naive_solver. by apply lookup_delete_ne.
Qed.

Lemma handle_all_ok h : Z.of_nat (length h) < 2 ^ 32 -> faults_ok h (handle_all h).
Proof.
  induction h as [|ev h IH] using rev_ind; intros Hlen.
  { change (handle_all []) with (∅ : FaultMap). split; [intros x D Hl; by rewrite lookup_empty in Hl|]. intros ctr d. unfold fault_of. by rewrite lookup_empty. }
  rewrite length_app in Hlen. cbn [length] in Hlen. unfold handle_all. rewrite foldl_app. cbn [foldl].
  specialize (IH ltac:(lia)). destruct ev; cbn [handle].
  - apply raise_ok; [lia|exact IH].
  - apply recover_ok; [lia|exact IH].
  - apply clear_ok. exact IH.
Qed.

Lemma has_fault h m ctr d : faults_ok h m -> is_Some (fault_of m ctr d) <-> (0 < faults h ctr d)%nat.
Proof.
  intros [_ Hc]. rewrite Hc. destruct (faults h ctr d); split; intros H; try lia; try (by destruct H); eauto.
Qed.

Lemma occurred_spec h m cw dw :
  faults_ok h m ->
  IsPathFaultOccured (Some cw) (Some dw) m = true <->
  exists ctr d, means cw dw ctr d /\ (0 < faults h ctr d)%nat.
Proof.
  intros Hok.
  assert (forall ctr domains, m !! ctr = Some domains -> exists d, (0 < faults h ctr d)%nat) as Hdom.
  { intros ctr domains Hl. pose proof (fo_domains _ _ Hok _ _ Hl) as Hne.
    destruct (map_choose _ Hne) as (d & k & Hk). exists d. apply (has_fault h m); [done|].
    unfold fault_of. rewrite Hl. cbn. eauto. }
  assert (forall ctr d, (0 < faults h ctr d)%nat -> is_Some (fault_of m ctr d)) as Hf.
  { intros ctr d. by apply has_fault. }
  unfold IsPathFaultOccured. destruct (decide (m = ∅)) as [->|Hne].
  { split; [done|]. intros (ctr & d & _ & Hpos). apply Hf in Hpos as [k Hk]. unfold fault_of in Hk.
    by rewrite lookup_empty in Hk. }
  case_bool_decide as Hcw.
  { split; [|done]. intros _. destruct (map_choose _ Hne) as (ctr & domains & Hl).
    destruct (Hdom _ _ Hl) as [d Hd]. exists ctr, d. split; [by left|done]. }
  destruct (m !! cw) as [domains|] eqn:El.
  2: { split; [done|]. intros (ctr & d & [?|[-> _]] & Hpos); [done|]. apply Hf in Hpos as [k Hk]. unfold fault_of in Hk.
       by rewrite El in Hk. }
  case_bool_decide as Hdw.
  { split; [|done]. intros _. destruct (Hdom _ _ El) as [d Hd]. exists cw, d. split; [by right; auto|done]. }
  rewrite bool_decide_eq_true. split.
  - intros Hs. exists cw, dw. split; [by right; auto|]. apply (has_fault h m); [done|]. unfold fault_of. by rewrite El.
  - intros (ctr & d & [?|[-> [?| ->]]] & Hpos); [done..|]. apply Hf in Hpos. unfold fault_of in Hpos. by rewrite El in Hpos.
Qed.

Lemma changed_spec h m ctr d b :
  Z.of_nat (length h) < 2 ^ 32 -> faults_ok h m ->
  (UpdatePathFault (Some ctr) (Some d) b m).2 =
  negb (Nat.eqb (faults h ctr d) 0 ==? Nat.eqb (faults (h ++ [if b then Raise ctr d else Recover ctr d]) ctr d) 0).
Proof.
  intros Hlen Hok. pose proof (faults_le h ctr d) as Hle. pose proof (domains_of h m ctr d Hok) as Hk.
  rewrite faults_snoc. unfold UpdatePathFault. destruct b; cbn [count_event]; rewrite decide_True by done.
  - destruct (m !! ctr) as [domains|]; cbn [from_option id] in Hk.
    + rewrite Hk. by destruct (faults h ctr d).
    + by destruct (faults h ctr d).
  - destruct (m !! ctr) as [domains|]; cbn [from_option id] in Hk.
    + rewrite Hk. destruct (faults h ctr d) as [|f]; [done|]. cbn [entry]. unfold uint32_wrap.
      rewrite Z.mod_small by lia. replace (Z.of_nat (S f) - 1) with (Z.of_nat f) by lia. by destruct f.
    + by destruct (faults h ctr d).
Qed.

(** C18: After any sequence of fewer than 2^32 path faults, recoveries and
    clearings, a path fault is reported for a controller and a domain, stars
    included, exactly where more faults were raised than recovered since the
    last clearing; and raising or recovering a fault asks for an update of the
    state exactly where it makes the first fault or removes the last one. *)
Theorem path_faults_counted (events : list FaultEvent) :
  Z.of_nat (length events) < 2 ^ 32 ->
  (forall cw dw, IsPathFaultOccured (Some cw) (Some dw) (handle_all events) = true <->
     exists ctr d, means cw dw ctr d /\ (0 < faults events ctr d)%nat) /\
  (forall ctr d b, (UpdatePathFault (Some ctr) (Some d) b (handle_all events)).2 = true <->
     (faults events ctr d = 0%nat <-> faults (events ++ [if b then Raise ctr d else Recover ctr d]) ctr d <> 0%nat)).
Proof.
  intros Hlen. pose proof (handle_all_ok _ Hlen) as Hok. split.
  - intros cw dw. by apply occurred_spec.
  - intros ctr d b. rewrite (changed_spec events) by done. rewrite negb_true_iff, bool_decide_eq_false.
    destruct (Nat.eqb_spec (faults events ctr d) 0),
      (Nat.eqb_spec (faults (events ++ [if b then Raise ctr d else Recover ctr d]) ctr d) 0); naive_solver.
Qed.

Lemma path_faults_counted_witness :
  let h := [Raise "c1" "d1"; Raise "c1" "d1"; Raise "c2" "d1"; Recover "c1" "d1"; Clear "c2" "*"]%string in
  IsPathFaultOccured (Some "c1"%string) (Some "*"%string) (handle_all h) = true /\
  (UpdatePathFault (Some "c1"%string) (Some "d1"%string) false (handle_all h)).2 = true.
Proof.
  intros h. destruct (path_faults_counted h) as [H1 H2]; [reflexivity|]. split.
  - apply H1. exists "c1"%string, "d1"%string. split; [right; split; [reflexivity|left; reflexivity]|].
    vm_compute. apply le_n.
  - apply H2. vm_compute. split; [discriminate|intros Hn; destruct Hn; reflexivity].
Defined.

(** ** Disconnected controllers *)

Inductive PortEvent :=
| Disconnected (ctr : string)
| PortState (ctr port : string) (state : Z)
| Reconnected (ctr : string).

Definition handle_port (e : PortEvent) (q : gmap string (gmap string Z)) : gmap string (gmap string Z) :=
  match e with
  | Disconnected ctr => AddCtrToDisconnectList (Some ctr) q
  | PortState ctr port state => AddLogicalPort (Some ctr) (Some port) state q
  | Reconnected ctr => RemoveCtrFromDisconnectList (Some ctr) q
  end.

(** The events of a controller since it was disconnected last, the latest
    first; [None] where it is connected. *)
Fixpoint since_disconnected (ctr : string) (latest : list PortEvent) : option (list (string * Z)) :=
  match latest with
  | [] => None
  | Disconnected ctr' :: rest => if decide (ctr' = ctr) then Some [] else since_disconnected ctr rest
  | Reconnected ctr' :: rest => if decide (ctr' = ctr) then None else since_disconnected ctr rest
  | PortState ctr' port state :: rest =>
      if decide (ctr' = ctr) then cons (port, state) <$> since_disconnected ctr rest
      else since_disconnected ctr rest
  end.

(** While a controller is disconnected the latest state of a port is kept, and
    states are forgotten when it is disconnected anew or connected. *)
Theorem ports_kept (latest : list PortEvent) (ctr port : string) :
  let q := foldr handle_port ∅ latest in
  IsCtrDisconnected (Some ctr) q = bool_decide (is_Some (since_disconnected ctr latest)) /\
  GetLogicalPortSt (Some ctr) (Some port) q =
    since_disconnected ctr latest ≫= (fun states => (list_to_map states : gmap string Z) !! port).
Proof.
  intros q. assert (q !! ctr = list_to_map <$> since_disconnected ctr latest) as E.
  { unfold q. induction latest as [|e latest IH]; [done|]. cbn [foldr since_disconnected].
    destruct e as [ctr'|ctr' port' state|ctr']; cbn [handle_port AddCtrToDisconnectList AddLogicalPort
      RemoveCtrFromDisconnectList]; destruct (decide (ctr' = ctr)) as [->|Hne].
    - by rewrite lookup_insert_eq.
    - by rewrite lookup_insert_ne.
    - rewrite IH. destruct (since_disconnected ctr latest) as [states|]; cbn [fmap option_fmap option_map].
      + by rewrite lookup_insert_eq.
      + exact IH.
    - destruct (foldr handle_port ∅ latest !! ctr') as [ports|]; [by rewrite lookup_insert_ne|done].
    - by rewrite lookup_delete_eq.
    - by rewrite lookup_delete_ne. }
  unfold IsCtrDisconnected, GetLogicalPortSt. rewrite E.
  destruct (since_disconnected ctr latest); split; done.
Qed.
