(* ===== verification/UpllTx.v ===== *)
(** * Transactions of UPLL

    How UPLL takes part in commits, audits and the other operations of the
    coordinator ([upll/tx_mgr.cc]), and the handlers with which it answers the
    coordinator ([upll/tclib_intf_impl.cc]).  The managers of the types of keys,
    the connections to the database and the library [tclib] are the
    environment: every call to them is recorded, and what it answers may depend
    on all that was called before. *)

From S2P Require Import Prelude TcTypes TcMsgCommit TcMsgAudit CacheKeys DrvTxn Capa UpllLock UpllCtrlr.

Local Open Scope Z_scope.

(** ** Results *)

Definition UPLL_RC_ERR_BAD_REQUEST : Z := 1001.
Definition UPLL_RC_ERR_CFG_SYNTAX : Z := 1006.
Definition UPLL_RC_ERR_CFG_SEMANTIC : Z := 1007.
Definition UPLL_RC_ERR_NOT_SUPPORTED_BY_CTRLR : Z := 1013.
Definition UPLL_RC_ERR_NOT_SUPPORTED_BY_STANDBY : Z := 1014.
Definition UPLL_RC_ERR_PARENT_DOES_NOT_EXIST : Z := 1015.
Definition UPLL_RC_ERR_NOT_ALLOWED_FOR_THIS_KT : Z := 1018.
Definition UPLL_RC_ERR_NOT_ALLOWED_AT_THIS_TIME : Z := 1019.
Definition UPLL_RC_ERR_SHUTTING_DOWN : Z := 1023.
Definition UPLL_RC_ERR_CTR_DISCONNECTED : Z := 4005.
Definition UPLL_RC_ERR_DRIVER_NOT_PRESENT : Z := 200.

Definition UNC_DRV_RC_ERR_ATTRIBUTE_SYNTAX : Z := 3012.
Definition UNC_DRV_RC_ERR_ATTRIBUTE_SEMANTIC : Z := 3013.
Definition UNC_RC_INTERNAL_ERR : Z := 4000.
Definition UNC_RC_CONFIG_INVAL : Z := 4001.
Definition UNC_RC_CTRLAPI_FAILURE : Z := 4002.
Definition UNC_RC_CTR_CONFIG_STATUS_ERR : Z := 4003.
Definition UNC_RC_CTR_BUSY : Z := 4004.
Definition UNC_RC_CTR_DISCONNECTED : Z := 4005.
Definition UNC_RC_REQ_NOT_SENT_TO_CTR : Z := 4006.
Definition UNC_RC_NO_SUCH_INSTANCE : Z := 4007.
Definition UNC_RC_UNSUPPORTED_CTRL_CONFIG : Z := 4008.
Definition UNC_RC_ERR_DRIVER_NOT_PRESENT : Z := 200.

(** ** Calls to the environment *)

Inductive UpdateCtrlrPhase := kUpllUcpCreate | kUpllUcpUpdate | kUpllUcpDelete | kUpllUcpDelete2.

(** The methods of a manager. *)
Inductive MoCall :=
| TxUpdateController (ph : UpdateCtrlrPhase)
| AuditUpdateController (ctr : string) (ph : UpdateCtrlrPhase)
| TxVote
| TxVoteCtrlrStatus
| AuditVoteCtrlrStatus
| TxCopyCandidateToRunning
| TxUpdateDtState
| TxClearCreateUpdateFlag
| AuditCommitCtrlrStatus
| TxEnd
| AuditEnd (ctr : string)
| ClearConfiguration (dt : Z)
| LoadStartup
| CopyRunningToStartup
| CopyRunningToCandidate (op : Z)
| ClearStartup
| ImportClear (ctr : string).

(** [GetConfigRwConn] and [GetAuditRwConn]. *)
Inductive Conn := ConfigRwConn | AuditRwConn.

Inductive Event :=
| EMo (f : MoCall) (kt : Z) (rc : upll_rc)
| EConn (k : Conn) (found : bool)
| EClose (k : Conn) (commit : bool) (rc : upll_rc)
| ERelease (k : Conn)
| EClearAllDirtyTblInDB (rc : upll_rc)
| EClearDirtyTblCache
| EAlarm (ctr : string) (raised : bool)
| ENotifications (sent : bool)
| EImportCtrlrConfig (ctr : string) (rc : upll_rc)
| EPathFaultAlarm (ctr : string)
| EEnter (h : Handler)
| ELeave (h : Handler)
| EWriteInfo (ctr : string) (code : Z) (written : bool).

Implicit Types (tr : list Event) (ctr : string) (kt : Z) (urc : upll_rc).

Inductive KTxCtrlrAffectedState := kCtrlrAffectedNoDiff | kCtrlrAffectedOnlyCSDiff | kCtrlrAffectedConfigDiff.

#[export] Instance affected_eq_dec : EqDecision KTxCtrlrAffectedState.
Proof. solve_decision. Defined.

(** What the environment answers after a sequence of calls, the latest first. *)
Record Env := mkEnv {
  IsShuttingDown : list Event -> bool;
  IsActiveNode : list Event -> bool;
  preorder : list Z;
  reverse_postorder : list Z;
  has_momgr : Z -> bool;
  momgr_rc : list Event -> MoCall -> Z -> upll_rc;
  affected_names : list Event -> list string;     (* what [TxUpdateController] adds to the set *)
  err_ckv_set : list Event -> bool;               (* [*err_ckv != NULL] *)
  ctrlr_affected : list Event -> KTxCtrlrAffectedState;
  conn_found : list Event -> Conn -> bool;
  close_rc : list Event -> Conn -> bool -> upll_rc;
  dirty_rc : list Event -> upll_rc;
  session_rc : list Event -> Z -> Z -> upll_rc;   (* [ValidSession] *)
  import_rc : list Event -> string -> upll_rc;
  tclib_found : bool;                             (* [GetTcLibModule() != NULL] *)
  startup_valid : bool;                           (* [IsStartupConfigValid] *)
  keys_read : list Event -> string -> bool;       (* [GetTxKtResult] *)
  info_written : list Event -> string -> Z -> bool;
  keys_written : list Event -> string -> bool
}.

(** ** State *)

Record Mgr := mkMgr {
  commit_in_progress_ : bool;
  audit_in_progress_ : bool;
  audit_ctrlr_id_ : string;
  audit_ctrlr_affected_state_ : KTxCtrlrAffectedState;
  affected_ctrlr_set_ : gset string;
  batch_mode_in_progress_ : bool;
  import_in_progress_ : bool;
  import_ctrlr_id_ : string;
  import_state_progress : Z;
  candidate_dirty_qc_ : bool;
  candidate_dirty_qc_initialized_ : bool;
  sem_path_fault_ : Z;
  ctrlrs_ : list Ctrlr;
  path_fault_map_ : gmap string (gmap string Z);
  ctr_discon_map_ : gmap string (gmap string Z)
}.

Definition set_commit (b : bool) (m : Mgr) : Mgr :=
  mkMgr b (audit_in_progress_ m) (audit_ctrlr_id_ m) (audit_ctrlr_affected_state_ m) (affected_ctrlr_set_ m)
    (batch_mode_in_progress_ m) (import_in_progress_ m) (import_ctrlr_id_ m) (import_state_progress m)
    (candidate_dirty_qc_ m) (candidate_dirty_qc_initialized_ m) (sem_path_fault_ m) (ctrlrs_ m) (path_fault_map_ m)
    (ctr_discon_map_ m).
Definition set_audit (b : bool) ctr (m : Mgr) : Mgr :=
  mkMgr (commit_in_progress_ m) b ctr (audit_ctrlr_affected_state_ m) (affected_ctrlr_set_ m)
    (batch_mode_in_progress_ m) (import_in_progress_ m) (import_ctrlr_id_ m) (import_state_progress m)
    (candidate_dirty_qc_ m) (candidate_dirty_qc_initialized_ m) (sem_path_fault_ m) (ctrlrs_ m) (path_fault_map_ m)
    (ctr_discon_map_ m).
Definition set_audit_affected (a : KTxCtrlrAffectedState) (m : Mgr) : Mgr :=
  mkMgr (commit_in_progress_ m) (audit_in_progress_ m) (audit_ctrlr_id_ m) a (affected_ctrlr_set_ m)
    (batch_mode_in_progress_ m) (import_in_progress_ m) (import_ctrlr_id_ m) (import_state_progress m)
    (candidate_dirty_qc_ m) (candidate_dirty_qc_initialized_ m) (sem_path_fault_ m) (ctrlrs_ m) (path_fault_map_ m)
    (ctr_discon_map_ m).
Definition set_affected (s : gset string) (m : Mgr) : Mgr :=
  mkMgr (commit_in_progress_ m) (audit_in_progress_ m) (audit_ctrlr_id_ m) (audit_ctrlr_affected_state_ m) s
    (batch_mode_in_progress_ m) (import_in_progress_ m) (import_ctrlr_id_ m) (import_state_progress m)
    (candidate_dirty_qc_ m) (candidate_dirty_qc_initialized_ m) (sem_path_fault_ m) (ctrlrs_ m) (path_fault_map_ m)
    (ctr_discon_map_ m).
Definition end_import (m : Mgr) : Mgr :=
  mkMgr (commit_in_progress_ m) (audit_in_progress_ m) (audit_ctrlr_id_ m) (audit_ctrlr_affected_state_ m)
    (affected_ctrlr_set_ m) (batch_mode_in_progress_ m) false ""%string 0
    (candidate_dirty_qc_ m) (candidate_dirty_qc_initialized_ m) (sem_path_fault_ m) (ctrlrs_ m) (path_fault_map_ m)
    (ctr_discon_map_ m).
(** [candidate_dirty_qc_ = false; candidate_dirty_qc_initialized_ = true]. *)
Definition set_clean (m : Mgr) : Mgr :=
  mkMgr (commit_in_progress_ m) (audit_in_progress_ m) (audit_ctrlr_id_ m) (audit_ctrlr_affected_state_ m)
    (affected_ctrlr_set_ m) (batch_mode_in_progress_ m) (import_in_progress_ m) (import_ctrlr_id_ m)
    (import_state_progress m) false true (sem_path_fault_ m) (ctrlrs_ m) (path_fault_map_ m) (ctr_discon_map_ m).
Definition set_sem (n : Z) (m : Mgr) : Mgr :=
  mkMgr (commit_in_progress_ m) (audit_in_progress_ m) (audit_ctrlr_id_ m) (audit_ctrlr_affected_state_ m)
    (affected_ctrlr_set_ m) (batch_mode_in_progress_ m) (import_in_progress_ m) (import_ctrlr_id_ m)
    (import_state_progress m) (candidate_dirty_qc_ m) (candidate_dirty_qc_initialized_ m) n (ctrlrs_ m)
    (path_fault_map_ m) (ctr_discon_map_ m).
(** The members of [CtrlrMgr]. *)
Definition set_ctrlr_mgr (l : list Ctrlr) (f q : gmap string (gmap string Z)) (m : Mgr) : Mgr :=
  mkMgr (commit_in_progress_ m) (audit_in_progress_ m) (audit_ctrlr_id_ m) (audit_ctrlr_affected_state_ m)
    (affected_ctrlr_set_ m) (batch_mode_in_progress_ m) (import_in_progress_ m) (import_ctrlr_id_ m)
    (import_state_progress m) (candidate_dirty_qc_ m) (candidate_dirty_qc_initialized_ m) (sem_path_fault_ m) l f q.

(** ** The state of the node

    The manager has two flags, and so has every object of [TcLibIntfImpl].  The
    manager holds one such object, whose flags it sets together with its own;
    another one is registered with [tclib] as the handler of the coordinator's
    calls. *)

Record TcLibIntfImpl := mkImpl {
  impl_node_active_ : bool;
  impl_shutting_down_ : bool
}.
Definition new_impl : TcLibIntfImpl := mkImpl false false.

Record NodeState := mkNode {
  node_active_ : bool;
  shutting_down_ : bool;
  tclib_impl_ : TcLibIntfImpl;
  tlii : TcLibIntfImpl
}.
(** After the constructor and [Init]. *)
Definition new_node : NodeState := mkNode false false new_impl new_impl.

Definition set_shutting_down (shutdown : bool) (n : NodeState) : NodeState :=
  mkNode (node_active_ n) shutdown (mkImpl (impl_node_active_ (tclib_impl_ n)) shutdown) (tlii n).
(** The part of it that concerns the flags. *)
Definition SetClusterState (active : bool) (n : NodeState) : NodeState :=
  mkNode active (shutting_down_ n) (mkImpl active (impl_shutting_down_ (tclib_impl_ n))) (tlii n).

Inductive NodeChange :=
| ShuttingDown (shutdown : bool)
| ClusterState (active : bool).

Definition change (c : NodeChange) : NodeState -> NodeState :=
  match c with ShuttingDown b => set_shutting_down b | ClusterState b => SetClusterState b end.
Definition node_after (cs : list NodeChange) : NodeState := fold_left (fun n c => change c n) cs new_node.

(** The object that the manager holds follows the manager; the one that is
    registered does not. *)
Lemma node_flags cs :
  let n := node_after cs in
  tclib_impl_ n = mkImpl (node_active_ n) (shutting_down_ n) /\ tlii n = new_impl.
Proof.
  unfold node_after. assert (tclib_impl_ new_node = mkImpl (node_active_ new_node) (shutting_down_ new_node) /\
    tlii new_node = new_impl) as H by done. revert H. generalize new_node as n.
  induction cs as [|c cs IH]; intros n [H1 H2]; cbn [fold_left]; [done|].
  apply IH. by destruct c; cbn; rewrite H1.
Qed.

(** ** Programs *)

Definition Tx (A : Type) : Type := Mgr -> list Event -> A * Mgr * list Event.

Definition xret {A} (a : A) : Tx A := fun m tr => (a, m, tr).
Definition xbind {A B} (p : Tx A) (k : A -> Tx B) : Tx B := fun m tr => let '(a, m', tr') := p m tr in k a m' tr'.
Definition xget : Tx Mgr := fun m tr => (m, m, tr).
Definition xset (f : Mgr -> Mgr) : Tx unit := fun m tr => (tt, f m, tr).
Definition xask {A} (q : list Event -> A) : Tx A := fun m tr => (q tr, m, tr).
Definition xlog (e : Event) : Tx unit := fun m tr => (tt, m, e :: tr).

Declare Scope tx_scope.
Delimit Scope tx_scope with tx.
Notation "'let%' x := p 'in' k" := (xbind p (fun x => k))
  (at level 200, x name, p at level 100, k at level 200, right associativity) : tx_scope.
Notation "'do%' p 'in' k" := (xbind p (fun _ => k))
  (at level 200, p at level 100, k at level 200, right associativity) : tx_scope.
Local Open Scope tx_scope.

Definition ok urc : bool := urc ==? UPLL_RC_SUCCESS.

Section Handlers.

Context (E : Env).

(** *** The environment *)

Definition momgr_call (f : MoCall) kt : Tx upll_rc :=
  let% urc := xask (fun tr => momgr_rc E tr f kt) in
  do% xlog (EMo f kt urc) in
  match f with
  | TxUpdateController _ =>
      let% names := xask (affected_names E) in
      do% xset (fun m => set_affected (affected_ctrlr_set_ m ∪ list_to_set names) m) in xret urc
  | _ => xret urc
  end.
(** [None]: [NULL]. *)
Definition get_conn (k : Conn) : Tx bool :=
  let% found := xask (fun tr => conn_found E tr k) in do% xlog (EConn k found) in xret found.
Definition DalTxClose (k : Conn) (commit : bool) : Tx upll_rc :=
  let% urc := xask (fun tr => close_rc E tr k commit) in do% xlog (EClose k commit urc) in xret urc.
Definition ReleaseRwConn (k : Conn) : Tx unit := xlog (ERelease k).
(** The lock of a scope, and its destructor on every way out. *)
Definition scoped {A} (h : Handler) (body : Tx A) : Tx A :=
  do% xlog (EEnter h) in let% a := body in do% xlog (ELeave h) in xret a.

Definition ContinueActiveProcess : Tx upll_rc :=
  let% down := xask (IsShuttingDown E) in
  if down : bool then xret UPLL_RC_ERR_SHUTTING_DOWN
  else
    let% active := xask (IsActiveNode E) in
    xret (if active : bool then UPLL_RC_SUCCESS else UPLL_RC_ERR_NOT_SUPPORTED_BY_STANDBY).

(** [CALL_MOMGRS_PREORDER] and [CALL_MOMGRS_REVERSE_ORDER]: [urc] is the value
    that the variable has before. *)
Fixpoint call_momgrs (f : MoCall) (kts : list Z) urc : Tx upll_rc :=
  match kts with
  | [] => xret urc
  | kt :: rest =>
      if has_momgr E kt then
        let% rc := momgr_call f kt in
        if rc ==? UPLL_RC_ERR_DRIVER_NOT_PRESENT then call_momgrs f rest rc
        else if negb (ok rc) then xret rc
        else
          let% rc := ContinueActiveProcess in
          if negb (ok rc) then xret rc else call_momgrs f rest rc
      else call_momgrs f rest urc
  end.
Definition call_preorder (f : MoCall) urc : Tx upll_rc := call_momgrs f (preorder E) urc.
Definition call_reverse (f : MoCall) urc : Tx upll_rc := call_momgrs f (reverse_postorder E) urc.

(** The loops over some types of keys, which stop at every error. *)
Fixpoint call_some (f : MoCall) (kts : list Z) urc : Tx upll_rc :=
  match kts with
  | [] => xret urc
  | kt :: rest =>
      if has_momgr E kt then
        let% rc := momgr_call f kt in
        let% rc := if ok rc then ContinueActiveProcess else xret rc in
        if negb (ok rc) then xret rc else call_some f rest rc
      else call_some f rest urc
  end.
Definition phase2_kts : list Z :=
  [UNC_KT_POLICING_PROFILE_ENTRY; UNC_KT_POLICING_PROFILE; UNC_KT_FLOWLIST_ENTRY; UNC_KT_FLOWLIST].
Definition state_kts : list Z := [UNC_KT_VLINK; UNC_KT_VBRIDGE; UNC_KT_VROUTER; UNC_KT_VTERMINAL].

(** The end of a transaction of the database, as most handlers have it: commit
    if all went well, then the result of the commit counts. *)
Definition close_release (k : Conn) urc : Tx upll_rc :=
  let% db_urc := DalTxClose k (ok urc) in
  do% ReleaseRwConn k in
  xret (if ok urc then db_urc else urc).
(** The early returns: roll back. *)
Definition roll_back (k : Conn) urc : Tx upll_rc :=
  do% DalTxClose k false in do% ReleaseRwConn k in xret urc.

Definition ClearAllDirtyTblInDB : Tx upll_rc :=
  let% urc := xask (dirty_rc E) in do% xlog (EClearAllDirtyTblInDB urc) in xret urc.

(** *** Validation *)

Definition ValidateCommit : Tx upll_rc :=
  let% down := xask (IsShuttingDown E) in
  if down : bool then xret UPLL_RC_ERR_SHUTTING_DOWN
  else
    let% active := xask (IsActiveNode E) in
    if negb active then xret UPLL_RC_ERR_NOT_SUPPORTED_BY_STANDBY
    else
      let% m := xget in
      xret (if commit_in_progress_ m then UPLL_RC_SUCCESS else UPLL_RC_ERR_NOT_ALLOWED_AT_THIS_TIME).

Definition ValidateAudit ctr : Tx upll_rc :=
  let% down := xask (IsShuttingDown E) in
  if down : bool then xret UPLL_RC_ERR_SHUTTING_DOWN
  else
    let% active := xask (IsActiveNode E) in
    if negb active then xret UPLL_RC_ERR_NOT_SUPPORTED_BY_STANDBY
    else
      let% m := xget in
      xret (if negb (audit_in_progress_ m) then UPLL_RC_ERR_NOT_ALLOWED_AT_THIS_TIME
            else if audit_ctrlr_id_ m ==? ctr then UPLL_RC_SUCCESS
            else UPLL_RC_ERR_NOT_ALLOWED_AT_THIS_TIME).

(** The test of the operations that are not commits. *)
Definition validate_active (k : Tx upll_rc) : Tx upll_rc :=
  let% down := xask (IsShuttingDown E) in
  if down : bool then xret UPLL_RC_ERR_SHUTTING_DOWN
  else
    let% active := xask (IsActiveNode E) in
    if negb active then xret UPLL_RC_ERR_NOT_SUPPORTED_BY_STANDBY else k.

Definition DbCommitIfInBatchMode : Tx upll_rc :=
  scoped InDbCommitIfInBatchMode (
    let% m := xget in
    if batch_mode_in_progress_ m then
      let% found := get_conn ConfigRwConn in
      if negb found then xret UPLL_RC_ERR_GENERIC
      else
        let% urc := DalTxClose ConfigRwConn true in
        do% ReleaseRwConn ConfigRwConn in
        xret urc
    else xret UPLL_RC_SUCCESS).

(** *** Alarms *)

Definition SendInvalidConfigAlarm ctr (raised : bool) : Tx unit := xlog (EAlarm ctr raised).
Definition update_invalid_config ctr (b : bool) : Tx unit :=
  xset (fun m => set_ctrlr_mgr (CtrlrMgr.UpdateInvalidConfig ctr b (ctrlrs_ m)).1 (path_fault_map_ m)
                   (ctr_discon_map_ m) m).
Definition is_config_invalid ctr : Tx (upll_rc * option bool) :=
  let% m := xget in xret (CtrlrMgr.IsConfigInvalid (Some ctr) true (ctrlrs_ m)).

Definition TriggerInvalidConfigAlarm urc ctr : Tx unit :=
  let assert_alarm := negb (ok urc) in
  let% r := is_config_invalid ctr in
  match r with
  | (rc, Some alarm_exists) =>
      if negb (ok rc) then xret tt
      else if bool_decide (assert_alarm = alarm_exists) then xret tt
      else do% SendInvalidConfigAlarm ctr assert_alarm in update_invalid_config ctr assert_alarm
  | _ => xret tt
  end.

(** The alarm of the domains ([OnPathFaultAlarm], [SendPathFaultAlarm]) and the
    end of the faults. *)
Definition ClearPathFaultAlarms ctr : Tx unit :=
  let% m := xget in
  if CtrlrMgr.IsPathFaultOccured (Some ctr) (Some "*"%string) (path_fault_map_ m) then
    do% xlog (EPathFaultAlarm ctr) in
    xset (fun m => set_ctrlr_mgr (ctrlrs_ m)
                     (CtrlrMgr.ClearPathfault (Some ctr) (Some "*"%string) (path_fault_map_ m)) (ctr_discon_map_ m) m)
  else xret tt.

(** *** Commits *)

Definition OnTxStart : Tx upll_rc :=
  let% m := xget in
  if commit_in_progress_ m then xret UPLL_RC_ERR_NOT_ALLOWED_AT_THIS_TIME
  else
    do% xset (set_commit true) in
    let% urc := ValidateCommit in
    if negb (ok urc) then xret urc
    else
      let% urc := DbCommitIfInBatchMode in
      if negb (ok urc) then xret urc
      else
        do% xset (set_affected ∅) in
        scoped InOnTxStart (
          let% found := get_conn ConfigRwConn in
          if negb found then xret UPLL_RC_ERR_GENERIC
          else
            let% urc := call_reverse (TxUpdateController kUpllUcpDelete) urc in
            if negb (ok urc) then roll_back ConfigRwConn urc
            else
              let% urc := call_preorder (TxUpdateController kUpllUcpCreate) urc in
              if negb (ok urc) then roll_back ConfigRwConn urc
              else
                let% urc := call_preorder (TxUpdateController kUpllUcpUpdate) urc in
                if negb (ok urc) then roll_back ConfigRwConn urc
                else
                  let% urc := call_some (TxUpdateController kUpllUcpDelete2) phase2_kts urc in
                  close_release ConfigRwConn urc).

(** Also the set that is handed out. *)
Definition OnTxVote : Tx (upll_rc * option (gset string)) :=
  let% urc := ValidateCommit in
  if negb (ok urc) then xret (urc, None)
  else
    scoped InOnTxVote (
      let% found := get_conn ConfigRwConn in
      if negb found then xret (UPLL_RC_ERR_GENERIC, None)
      else
        let% urc := call_preorder TxVote urc in
        let% urc := close_release ConfigRwConn urc in
        let% m := xget in
        xret (urc, if ok urc then Some (affected_ctrlr_set_ m) else None)).

Definition OnTxVoteCtrlrStatus : Tx upll_rc :=
  let% urc := ValidateCommit in
  if negb (ok urc) then xret urc
  else
    scoped InOnTxVoteCtrlrStatus (
      let% found := get_conn ConfigRwConn in
      if negb found then xret UPLL_RC_ERR_GENERIC
      else
        let% urc := call_preorder TxVoteCtrlrStatus urc in
        close_release ConfigRwConn urc).

Definition OnTxGlobalCommit : Tx (upll_rc * option (gset string)) :=
  let% urc := ValidateCommit in
  let% m := xget in
  xret (urc, if ok urc then Some (affected_ctrlr_set_ m) else None).

(** [status]: [ctrlr_commit_status != NULL]. *)
Definition OnTxCommitCtrlrStatus (status : bool) : Tx upll_rc :=
  let% urc := if status then ValidateCommit else xret UPLL_RC_SUCCESS in
  if negb (ok urc) then xret urc
  else
    scoped InOnTxCommitCtrlrStatus (
      let% found := get_conn ConfigRwConn in
      if negb found then xret UPLL_RC_ERR_GENERIC
      else
        let% urc := call_preorder TxCopyCandidateToRunning (if status then urc else UPLL_RC_ERR_GENERIC) in
        let% urc := if ok urc then call_some TxUpdateDtState state_kts urc else xret urc in
        let% urc := if ok urc then call_preorder TxClearCreateUpdateFlag urc else xret urc in
        let% urc := if ok urc then ClearAllDirtyTblInDB else xret urc in
        let% urc := close_release ConfigRwConn urc in
        if ok urc then
          do% xset set_clean in
          do% xlog EClearDirtyTblCache in
          do% xlog (ENotifications true) in xret urc
        else do% xlog (ENotifications false) in xret urc).

Definition OnTxEnd : Tx upll_rc :=
  let% urc := ValidateCommit in
  if negb (ok urc) then xret urc
  else
    scoped InOnTxEnd (
      let% found := get_conn ConfigRwConn in
      if negb found then xret UPLL_RC_ERR_GENERIC
      else
        let% urc := call_preorder TxEnd urc in
        let% urc := close_release ConfigRwConn urc in
        do% xset (set_commit false) in
        do% xset (set_affected ∅) in
        xret urc).

(** *** Audits *)

Definition OnAuditStart ctr (skip_audit : bool) : Tx upll_rc :=
  let% m := xget in
  match CtrlrMgr.GetCtrlrType (Some ctr) UPLL_DT_RUNNING true (ctrlrs_ m) with
  | None => xret UPLL_RC_ERR_NO_SUCH_INSTANCE
  | Some _ =>
      do% xset (fun m => set_ctrlr_mgr (ctrlrs_ m) (path_fault_map_ m)
                           (CtrlrMgr.AddCtrToDisconnectList (Some ctr) (ctr_discon_map_ m)) m) in
      do% ClearPathFaultAlarms ctr in
      let% m := xget in
      if audit_in_progress_ m then xret UPLL_RC_ERR_NOT_ALLOWED_AT_THIS_TIME
      else
        do% xset (set_audit true ctr) in
        let% urc := ValidateAudit ctr in
        if negb (ok urc) || skip_audit then xret urc
        else
          scoped InOnAuditStart (
            let% urc := xask (fun tr => import_rc E tr ctr) in
            do% xlog (EImportCtrlrConfig ctr urc) in xret urc)
  end.

(** The alarm of the early returns of [OnAuditTxStart]. *)
Definition alarm_if_err urc ctr : Tx unit :=
  let% err := xask (err_ckv_set E) in
  if err : bool then TriggerInvalidConfigAlarm urc ctr else xret tt.
Definition audit_roll_back urc ctr : Tx upll_rc :=
  do% roll_back AuditRwConn urc in do% alarm_if_err urc ctr in xret urc.

Definition OnAuditTxStart ctr : Tx upll_rc :=
  let% urc := ValidateAudit ctr in
  if negb (ok urc) then xret urc
  else
    scoped InOnAuditTxStart (
      let% found := get_conn AuditRwConn in
      if negb found then xret UPLL_RC_ERR_GENERIC
      else
        do% xset (set_affected ∅) in
        do% xset (set_audit_affected kCtrlrAffectedNoDiff) in
        let% urc := call_reverse (AuditUpdateController ctr kUpllUcpDelete) urc in
        if negb (ok urc) then audit_roll_back urc ctr
        else
          let% urc := call_preorder (AuditUpdateController ctr kUpllUcpCreate) urc in
          if negb (ok urc) then audit_roll_back urc ctr
          else
            let% urc := call_preorder (AuditUpdateController ctr kUpllUcpUpdate) urc in
            if negb (ok urc) then audit_roll_back urc ctr
            else
              let% urc := call_some (AuditUpdateController ctr kUpllUcpDelete2) phase2_kts urc in
              let% db_urc := DalTxClose AuditRwConn (ok urc) in
              do% ReleaseRwConn AuditRwConn in
              do% alarm_if_err urc ctr in
              let urc := if ok urc then db_urc else urc in
              if ok urc then
                let% affected := xask (ctrlr_affected E) in
                do% xset (set_audit_affected affected) in
                match affected with
                | kCtrlrAffectedConfigDiff =>
                    do% xset (fun m => set_affected (affected_ctrlr_set_ m ∪ {[ audit_ctrlr_id_ m ]}) m) in xret urc
                | kCtrlrAffectedOnlyCSDiff => xret urc
                | kCtrlrAffectedNoDiff => do% TriggerInvalidConfigAlarm UPLL_RC_SUCCESS ctr in xret urc
                end
              else xret urc).

Definition OnAuditTxVote ctr : Tx (upll_rc * option (gset string)) :=
  let% urc := ValidateAudit ctr in
  let% m := xget in
  xret (urc, if ok urc then Some (affected_ctrlr_set_ m) else None).
Definition OnAuditTxGlobalCommit ctr : Tx (upll_rc * option (gset string)) :=
  let% urc := ValidateAudit ctr in
  let% m := xget in
  xret (urc, if ok urc then Some (affected_ctrlr_set_ m) else None).
Definition OnAuditTxEnd ctr : Tx upll_rc := ValidateAudit ctr.

(** [ctrlr_vote_status]: its controller and result. *)
Definition OnAuditTxVoteCtrlrStatus ctr (result : upll_rc) : Tx upll_rc :=
  let% urc := ValidateAudit ctr in
  if negb (ok urc) then xret urc
  else
    scoped InOnAuditTxVoteCtrlrStatus (
      let% found := get_conn AuditRwConn in
      if negb found then xret UPLL_RC_ERR_GENERIC
      else
        let% urc := call_preorder AuditVoteCtrlrStatus urc in
        let% db_urc := DalTxClose AuditRwConn (ok urc) in
        do% ReleaseRwConn AuditRwConn in
        if negb (ok db_urc) then xret (if negb (ok urc) then urc else db_urc)
        else if negb (ok result) && (result !=? UPLL_RC_ERR_CTR_DISCONNECTED) then
          let% r := is_config_invalid ctr in
          match r with
          | (rc, Some config_invalid) =>
              if negb (ok rc) then xret rc
              else if config_invalid then xret urc
              else do% update_invalid_config ctr true in do% SendInvalidConfigAlarm ctr true in xret urc
          | (rc, None) => if negb (ok rc) then xret rc else xret urc
          end
        else xret urc).

Definition OnAuditTxCommitCtrlrStatus ctr (result : upll_rc) : Tx upll_rc :=
  let% urc := ValidateAudit ctr in
  if negb (ok urc) then xret urc
  else
    scoped InOnAuditTxCommitCtrlrStatus (
      let% found := get_conn AuditRwConn in
      if negb found then xret UPLL_RC_ERR_GENERIC
      else
        let% urc := call_preorder AuditCommitCtrlrStatus urc in
        let% db_urc := DalTxClose AuditRwConn (ok urc) in
        do% ReleaseRwConn AuditRwConn in
        if negb (ok db_urc) then xret (if negb (ok urc) then urc else db_urc)
        else do% TriggerInvalidConfigAlarm result ctr in xret urc).

(** The rest of [OnAuditEnd], with the value of [urc] before. *)
Definition audit_end ctr urc : Tx upll_rc :=
  do% xset (set_audit_affected kCtrlrAffectedNoDiff) in
  scoped InOnAuditEnd (
    let% found := get_conn AuditRwConn in
    if negb found then xret UPLL_RC_ERR_GENERIC
    else
      let% urc := call_reverse (AuditEnd ctr) urc in
      let% urc := close_release AuditRwConn urc in
      if negb (ok urc) then xret urc
      else
        do% xset (set_audit false ""%string) in
        do% xset (set_affected ∅) in
        xret urc).
Definition OnAuditEnd ctr (sby2act_trans : bool) : Tx upll_rc :=
  if sby2act_trans then audit_end ctr UPLL_RC_ERR_GENERIC
  else
    let% urc := ValidateAudit ctr in
    if negb (ok urc) then xret urc
    else
      let% m := xget in
      if bool_decide (audit_ctrlr_affected_state_ m = kCtrlrAffectedOnlyCSDiff) then
        do% xset (set_audit_affected kCtrlrAffectedNoDiff) in
        let% urc := OnAuditTxCommitCtrlrStatus ctr UPLL_RC_SUCCESS in
        if negb (ok urc) then xret urc else audit_end ctr urc
      else audit_end ctr urc.

(** *** The other operations *)

Definition OnLoadStartup : Tx upll_rc :=
  validate_active (
    scoped InOnLoadStartup (
      let% found := get_conn ConfigRwConn in
      if negb found then xret UPLL_RC_ERR_GENERIC
      else
        let% urc := call_reverse (ClearConfiguration UPLL_DT_CANDIDATE) UPLL_RC_ERR_GENERIC in
        if negb (ok urc) then roll_back ConfigRwConn urc
        else if negb (tclib_found E) then xret urc
        else
          let% urc := if startup_valid E then call_reverse (ClearConfiguration UPLL_DT_RUNNING) urc else xret urc in
          if startup_valid E && negb (ok urc) then roll_back ConfigRwConn urc
          else
            let% urc := call_preorder LoadStartup urc in
            let% urc := if ok urc then ClearAllDirtyTblInDB else xret urc in
            let% urc := close_release ConfigRwConn urc in
            if ok urc then do% xset set_clean in do% xlog EClearDirtyTblCache in xret urc else xret urc)).

Definition OnSaveRunningConfig : Tx upll_rc :=
  validate_active (
    let% urc := DbCommitIfInBatchMode in
    if negb (ok urc) then xret urc
    else
      scoped InOnSaveRunningConfig (
        let% found := get_conn ConfigRwConn in
        if negb found then xret UPLL_RC_ERR_GENERIC
        else
          let% urc := call_reverse (ClearConfiguration UPLL_DT_STARTUP) urc in
          if negb (ok urc) then roll_back ConfigRwConn urc
          else
            let% urc := call_preorder CopyRunningToStartup urc in
            close_release ConfigRwConn urc)).

Definition OnAbortCandidateConfig : Tx upll_rc :=
  validate_active (
    let% urc := DbCommitIfInBatchMode in
    if negb (ok urc) then xret urc
    else
      scoped InOnAbortCandidateConfig (
        let% found := get_conn ConfigRwConn in
        if negb found then xret UPLL_RC_ERR_GENERIC
        else
          let% urc := call_reverse (CopyRunningToCandidate UNC_OP_DELETE) urc in
          if negb (ok urc) then roll_back ConfigRwConn urc
          else
            let% urc := call_preorder (CopyRunningToCandidate UNC_OP_CREATE) urc in
            if negb (ok urc) then roll_back ConfigRwConn urc
            else
              let% urc := call_preorder (CopyRunningToCandidate UNC_OP_UPDATE) urc in
              let% urc := if ok urc then call_preorder TxClearCreateUpdateFlag urc else xret urc in
              let% urc := if ok urc then ClearAllDirtyTblInDB else xret urc in
              let% db_urc := DalTxClose ConfigRwConn (ok urc) in
              let urc := if ok urc then db_urc else urc in
              do% (if ok urc then do% xset set_clean in xlog EClearDirtyTblCache else xret tt) in
              do% ReleaseRwConn ConfigRwConn in
              xret urc)).

Definition OnClearStartupConfig : Tx upll_rc :=
  validate_active (
    let% urc := DbCommitIfInBatchMode in
    if negb (ok urc) then xret urc
    else
      scoped InOnClearStartupConfig (
        let% found := get_conn ConfigRwConn in
        if negb found then xret UPLL_RC_ERR_GENERIC
        else
          let% urc := call_reverse ClearStartup urc in
          close_release ConfigRwConn urc)).

(** [ValidateImport] for a clearing. *)
Definition validate_clear_import (session_id config_id : Z) ctr : Tx upll_rc :=
  let% urc := xask (fun tr => session_rc E tr session_id config_id) in
  if negb (ok urc) then xret urc
  else
    let% m := xget in
    xret (match CtrlrMgr.GetCtrlrType (Some ctr) UPLL_DT_CANDIDATE true (ctrlrs_ m) with
          | None => UPLL_RC_ERR_NO_SUCH_INSTANCE
          | Some type =>
              if (type !=? UNC_CT_PFC) && (type !=? UNC_CT_ODC) then UPLL_RC_ERR_NOT_ALLOWED_FOR_THIS_KT
              else UPLL_RC_SUCCESS
          end).
(** After the checks. *)
Definition clear_import : Tx upll_rc :=
  let% urc := DbCommitIfInBatchMode in
  if negb (ok urc) then xret urc
  else
    scoped InClearImport (
      let% found := get_conn ConfigRwConn in
      if negb found then xret UPLL_RC_ERR_GENERIC
      else
        let% m := xget in
        let% urc := call_reverse (ImportClear (import_ctrlr_id_ m)) urc in
        let% urc := close_release ConfigRwConn urc in
        if negb (ok urc) then xret urc else do% xset end_import in xret urc).
Definition ClearImport (session_id config_id : Z) (sby2act_trans : bool) : Tx upll_rc :=
  if sby2act_trans then clear_import
  else
    let% m := xget in
    if negb (import_in_progress_ m) then xret UPLL_RC_ERR_NOT_ALLOWED_AT_THIS_TIME
    else
      let% urc := validate_clear_import session_id config_id (import_ctrlr_id_ m) in
      if negb (ok urc) then xret urc else clear_import.

(** ** The handlers of the coordinator's calls *)

(** Results of controllers: the result for UPLL and the one of the driver. *)
Record CtrlrTxResult := mkTxResult { tx_ctrlr_id : string; upll_ctrlr_result : upll_rc; ctrlr_orig_result : Z }.
Implicit Types (res : list CtrlrTxResult).

Definition kUpllCtrlrId : string := "".

Definition DriverResultCodeToTxURC (ctrlr_type code : Z) : upll_rc :=
  if (ctrlr_type ==? UNC_CT_PFC) || (ctrlr_type ==? UNC_CT_VNP) || (ctrlr_type ==? UNC_CT_ODC) ||
     (ctrlr_type ==? UNC_CT_POLC)
  then if code ==? UPLL_RC_SUCCESS then UPLL_RC_SUCCESS
       else if (code ==? UNC_RC_CTR_DISCONNECTED) || (code ==? UNC_RC_ERR_DRIVER_NOT_PRESENT)
       then UPLL_RC_ERR_CTR_DISCONNECTED
       else if code ==? UNC_DRV_RC_ERR_ATTRIBUTE_SYNTAX then UPLL_RC_ERR_CFG_SYNTAX
       else if code ==? UNC_DRV_RC_ERR_ATTRIBUTE_SEMANTIC then UPLL_RC_ERR_CFG_SEMANTIC
       else if code ==? UNC_RC_REQ_NOT_SENT_TO_CTR then UPLL_RC_SUCCESS
       else if code ==? UNC_RC_UNSUPPORTED_CTRL_CONFIG then code
       else UPLL_RC_ERR_GENERIC
  else UPLL_RC_ERR_GENERIC.

Definition ConvertToTcErrorCode (code : Z) : Z :=
  if code ==? UPLL_RC_SUCCESS then UPLL_RC_SUCCESS
  else if (code ==? UPLL_RC_ERR_CFG_SYNTAX) || (code ==? UPLL_RC_ERR_CFG_SEMANTIC) ||
          (code ==? UPLL_RC_ERR_NO_SUCH_INSTANCE) || (code ==? UPLL_RC_ERR_NOT_SUPPORTED_BY_CTRLR) ||
          (code ==? UPLL_RC_ERR_PARENT_DOES_NOT_EXIST) || (code ==? UPLL_RC_ERR_INSTANCE_EXISTS)
  then UNC_RC_CONFIG_INVAL
  else if (code ==? UNC_RC_INTERNAL_ERR) || (code ==? UNC_RC_CONFIG_INVAL) || (code ==? UNC_RC_CTRLAPI_FAILURE) ||
          (code ==? UNC_RC_UNSUPPORTED_CTRL_CONFIG) || (code ==? UNC_RC_ERR_DRIVER_NOT_PRESENT) ||
          (code ==? UNC_RC_CTR_CONFIG_STATUS_ERR) || (code ==? UNC_RC_CTR_BUSY) ||
          (code ==? UNC_RC_CTR_DISCONNECTED) || (code ==? UNC_RC_REQ_NOT_SENT_TO_CTR) ||
          (code ==? UNC_RC_NO_SUCH_INSTANCE)
  then code
  else UNC_RC_INTERNAL_ERR.

(** The type of a controller, in the candidate or else the running
    configuration. *)
Definition known_type ctr (m : Mgr) : option Z :=
  match CtrlrMgr.GetCtrlrType (Some ctr) UPLL_DT_CANDIDATE true (ctrlrs_ m) with
  | Some t => Some t
  | None => CtrlrMgr.GetCtrlrType (Some ctr) UPLL_DT_RUNNING true (ctrlrs_ m)
  end.

(** The results of drivers are controllers and response codes. *)
Fixpoint GetTxResult (driver_result : list (string * Z)) : Tx (option (list CtrlrTxResult)) :=
  match driver_result with
  | [] => xret (Some [])
  | (ctr, code) :: rest =>
      let% m := xget in
      match known_type ctr m with
      | None => xret None
      | Some type =>
          let% read := xask (fun tr => tclib_found E && keys_read E tr ctr) in
          if negb read then xret None
          else
            let% rs := GetTxResult rest in
            xret (cons (mkTxResult ctr (DriverResultCodeToTxURC type code) code) <$> rs)
      end
  end.

Fixpoint write_back res : Tx bool :=
  match res with
  | [] => xret true
  | r :: rest =>
      if negb (tx_ctrlr_id r ==? kUpllCtrlrId) && (ctrlr_orig_result r ==? UPLL_RC_SUCCESS) then write_back rest
      else
        let unc_rc := ConvertToTcErrorCode (ctrlr_orig_result r) in
        let% written := xask (fun tr => info_written E tr (tx_ctrlr_id r) unc_rc) in
        do% xlog (EWriteInfo (tx_ctrlr_id r) unc_rc written) in
        if negb written then xret false
        else if unc_rc ==? UNC_RC_CTR_BUSY then write_back rest
        else
          let% keys := xask (fun tr => keys_written E tr (tx_ctrlr_id r)) in
          if negb keys then xret false else write_back rest
  end.
Definition WriteBackTxResult res : Tx bool := if tclib_found E then write_back res else xret false.

Definition WriteUpllErrorBlock urc : Tx upll_rc :=
  if ok urc then xret urc
  else
    let% written := WriteBackTxResult [mkTxResult kUpllCtrlrId urc urc] in
    xret (if written : bool then urc else UPLL_RC_ERR_GENERIC).

Definition tc_ret urc : Z := if ok urc then TC_SUCCESS else TC_FAILURE.

(** The types that are reported, with their controllers in the order of the
    set. *)
Fixpoint fill_info (audit : bool) (l : list Ctrlr) (names : list string) (info : gmap Z (list string)) :
    option (gmap Z (list string)) :=
  match names with
  | [] => Some info
  | n :: rest =>
      let type :=
        match CtrlrMgr.GetCtrlrType (Some n) (if audit then UPLL_DT_RUNNING else UPLL_DT_CANDIDATE) true l with
        | Some t => Some t
        | None => if audit then None else CtrlrMgr.GetCtrlrType (Some n) UPLL_DT_RUNNING true l
        end in
      match type with
      | None => None
      | Some t =>
          if (t ==? UNC_CT_PFC) || (t ==? UNC_CT_VNP) || (t ==? UNC_CT_POLC) || (t ==? UNC_CT_ODC)
          then fill_info audit l rest (<[t := default [] (info !! t) ++ [n]]> info)
          else None
      end
  end.
Definition FillTcDriverInfoMap (ctrlr_set : gset string) (audit : bool) : Tx (upll_rc * gmap Z (list string)) :=
  let% m := xget in
  xret (match fill_info audit (ctrlrs_ m) (list_sort (elements ctrlr_set)) ∅ with
        | Some info => (UPLL_RC_SUCCESS, info)
        | None => (UPLL_RC_ERR_GENERIC, ∅)
        end).

(** The controller of an error, where the manager names one. *)
Definition HandleCommitTransactionStart (err_ctr : string) : Tx Z :=
  let% urc := OnTxStart in
  if ok urc then xret TC_SUCCESS
  else
    let% written := WriteBackTxResult [mkTxResult err_ctr urc urc] in
    let urc := if written : bool then urc else UPLL_RC_ERR_GENERIC in
    do% (if urc !=? UPLL_RC_ERR_DRIVER_NOT_PRESENT then do% OnTxEnd in xret tt else xret tt) in
    xret (if ok urc || (urc ==? UPLL_RC_ERR_DRIVER_NOT_PRESENT) then TC_SUCCESS else TC_FAILURE).
Definition HandleCommitTransactionEnd : Tx Z :=
  let% urc := OnTxEnd in let% urc := WriteUpllErrorBlock urc in xret (tc_ret urc).
Definition HandleCommitVoteRequest : Tx (Z * gmap Z (list string)) :=
  let% r := OnTxVote in
  match r.2 with
  | Some set => let% f := FillTcDriverInfoMap set false in xret (tc_ret f.1, f.2)
  | None =>
      let% written := WriteBackTxResult [mkTxResult kUpllCtrlrId r.1 r.1] in
      xret (tc_ret (if written : bool then r.1 else UPLL_RC_ERR_GENERIC), ∅)
  end.
(** [pfc_sem_init] to 0, and [pfc_sem_post]. *)
Definition LockPathFaultEvent : Tx unit := xset (set_sem 0).
Definition UnlockPathFaultEvent : Tx unit := xset (fun m => set_sem (sem_path_fault_ m + 1) m).

Definition HandleCommitGlobalCommit : Tx (Z * gmap Z (list string)) :=
  do% LockPathFaultEvent in
  let% r := OnTxGlobalCommit in
  match r.2 with
  | Some set =>
      let% f := FillTcDriverInfoMap set false in
      let% urc := WriteUpllErrorBlock f.1 in xret (tc_ret urc, f.2)
  | None => let% urc := WriteUpllErrorBlock r.1 in xret (tc_ret urc, ∅)
  end.

(** A result of a controller that fails a phase. *)
Definition fails_phase (phase : Z) (r : CtrlrTxResult) : bool :=
  if phase ==? TC_COMMIT_VOTE_PHASE then
    (ctrlr_orig_result r !=? UPLL_RC_SUCCESS) && (ctrlr_orig_result r !=? UNC_RC_CTR_DISCONNECTED) &&
    (ctrlr_orig_result r !=? UNC_RC_ERR_DRIVER_NOT_PRESENT)
  else if phase ==? TC_AUDIT_VOTE_PHASE then ctrlr_orig_result r !=? UPLL_RC_SUCCESS
  else false.
Definition HandleCommonTxDriverResult (phase : Z) (driver_result : list (string * Z)) : Tx Z :=
  let% o := GetTxResult driver_result in
  match o with
  | None => do% WriteUpllErrorBlock UPLL_RC_ERR_GENERIC in xret TC_FAILURE
  | Some res =>
      let% urc :=
        if phase ==? TC_COMMIT_VOTE_PHASE then OnTxVoteCtrlrStatus
        else if phase ==? TC_COMMIT_GLOBAL_COMMIT_PHASE then OnTxCommitCtrlrStatus true
        else if phase ==? TC_AUDIT_VOTE_PHASE then
          match res with
          | [r] => OnAuditTxVoteCtrlrStatus (tx_ctrlr_id r) (upll_ctrlr_result r)
          | _ => xret UPLL_RC_SUCCESS
          end
        else if phase ==? TC_AUDIT_GLOBAL_COMMIT_PHASE then
          match res with
          | [r] => OnAuditTxCommitCtrlrStatus (tx_ctrlr_id r) (upll_ctrlr_result r)
          | _ => xret UPLL_RC_SUCCESS
          end
        else xret UPLL_RC_ERR_BAD_REQUEST in
      if ok urc then
        let% written := WriteBackTxResult res in
        xret (if negb written || existsb (fails_phase phase) res then TC_FAILURE else TC_SUCCESS)
      else do% WriteUpllErrorBlock urc in xret TC_FAILURE
  end.
Definition HandleCommitDriverResult (phase : Z) (driver_result : list (string * Z)) : Tx Z :=
  let% tcr := HandleCommonTxDriverResult phase driver_result in do% UnlockPathFaultEvent in xret tcr.
Definition HandleCommitGlobalAbort : Tx Z := xret TC_SUCCESS.

Definition HandleAuditStart ctr (simplified_audit : bool) : Tx Z :=
  let% urc := OnAuditStart ctr simplified_audit in
  do% (if negb (ok urc) then do% OnAuditEnd ctr false in xret tt else xret tt) in
  let% urc := WriteUpllErrorBlock urc in xret (tc_ret urc).
Definition HandleAuditEnd ctr : Tx Z :=
  let% urc := OnAuditEnd ctr false in let% urc := WriteUpllErrorBlock urc in xret (tc_ret urc).
Definition HandleAuditTransactionStart ctr (err_ctr : string) : Tx Z :=
  let% urc := OnAuditTxStart ctr in
  if ok urc then xret TC_SUCCESS
  else
    let% written := WriteBackTxResult [mkTxResult err_ctr urc urc] in
    xret (tc_ret (if written : bool then urc else UPLL_RC_ERR_GENERIC)).
Definition HandleAuditTransactionEnd ctr : Tx Z :=
  let% urc := OnAuditTxEnd ctr in let% urc := WriteUpllErrorBlock urc in xret (tc_ret urc).
Definition audit_answer (r : upll_rc * option (gset string)) : Tx (Z * gmap Z (list string)) :=
  match r.2 with
  | Some set =>
      let% f := FillTcDriverInfoMap set true in
      let% urc := WriteUpllErrorBlock f.1 in xret (tc_ret urc, f.2)
  | None => let% urc := WriteUpllErrorBlock r.1 in xret (tc_ret urc, ∅)
  end.
Definition HandleAuditVoteRequest ctr : Tx (Z * gmap Z (list string)) :=
  let% r := OnAuditTxVote ctr in audit_answer r.
Definition HandleAuditGlobalCommit ctr : Tx (Z * gmap Z (list string)) :=
  do% LockPathFaultEvent in let% r := OnAuditTxGlobalCommit ctr in audit_answer r.
(** Also the result of the audit. *)
Definition HandleAuditDriverResult (phase : Z) (driver_result : list (string * Z)) : Tx (Z * bool) :=
  let% tcr := HandleCommonTxDriverResult phase driver_result in
  let audit_result :=
    if phase ==? TC_AUDIT_GLOBAL_COMMIT_PHASE
    then (tcr ==? TC_SUCCESS) && forallb (fun r => r.2 ==? UPLL_RC_SUCCESS) driver_result
    else true in
  do% UnlockPathFaultEvent in xret (tcr, audit_result).
Definition HandleAuditGlobalAbort : Tx Z := xret TC_SUCCESS.

Definition HandleSaveConfiguration : Tx Z := let% urc := OnSaveRunningConfig in xret (tc_ret urc).
Definition HandleAbortCandidate : Tx Z := let% urc := OnAbortCandidateConfig in xret (tc_ret urc).
Definition HandleClearStartup : Tx Z := let% urc := OnClearStartupConfig in xret (tc_ret urc).
(** [this]: the object that is called.  The flags that it tests are its own. *)
Definition HandleAuditConfig (this : TcLibIntfImpl) (fail_oper : TcServiceType) : Tx Z :=
  if impl_node_active_ this then xret TC_FAILURE
  else if impl_shutting_down_ this then xret TC_FAILURE
  else if fail_oper ==? TC_OP_CANDIDATE_COMMIT then
    let% urc := OnTxCommitCtrlrStatus false in xret (tc_ret urc)
  else if fail_oper ==? TC_OP_CANDIDATE_ABORT then HandleAbortCandidate
  else if fail_oper ==? TC_OP_RUNNING_SAVE then HandleSaveConfiguration
  else if fail_oper ==? TC_OP_CLEAR_STARTUP then HandleClearStartup
  else if (fail_oper ==? TC_OP_USER_AUDIT) || (fail_oper ==? TC_OP_DRIVER_AUDIT) then xret TC_SUCCESS
  else xret TC_FAILURE.
Definition HandleSetup : Tx Z := let% urc := OnLoadStartup in xret (tc_ret urc).
Definition HandleSetupComplete : Tx Z := xret TC_SUCCESS.

(** ** Sequences of calls *)

Inductive TcCall :=
| CCommitTransactionStart (err_ctr : string)
| CCommitTransactionEnd
| CCommitVoteRequest
| CCommitGlobalCommit
| CCommitDriverResult (phase : Z) (results : list (string * Z))
| CAuditStart ctr (simplified : bool)
| CAuditEnd ctr
| CAuditTransactionStart ctr (err_ctr : string)
| CAuditTransactionEnd ctr
| CAuditVoteRequest ctr
| CAuditGlobalCommit ctr
| CAuditDriverResult (phase : Z) (results : list (string * Z))
| CGlobalAbort
| CSaveConfiguration
| CAbortCandidate
| CClearStartup
| CAuditConfig (fail_oper : TcServiceType)
| CSetup
| CSetupComplete
| CClearImport (session_id config_id : Z) (sby2act_trans : bool).

(** What the coordinator is told: [TC_SUCCESS] or [TC_FAILURE].  The object
    that is registered is as its constructor left it ([node_flags]). *)
Definition handle_call (c : TcCall) : Tx Z :=
  match c with
  | CCommitTransactionStart e => HandleCommitTransactionStart e
  | CCommitTransactionEnd => HandleCommitTransactionEnd
  | CCommitVoteRequest => let% r := HandleCommitVoteRequest in xret r.1
  | CCommitGlobalCommit => let% r := HandleCommitGlobalCommit in xret r.1
  | CCommitDriverResult phase results => HandleCommitDriverResult phase results
  | CAuditStart ctr simplified => HandleAuditStart ctr simplified
  | CAuditEnd ctr => HandleAuditEnd ctr
  | CAuditTransactionStart ctr e => HandleAuditTransactionStart ctr e
  | CAuditTransactionEnd ctr => HandleAuditTransactionEnd ctr
  | CAuditVoteRequest ctr => let% r := HandleAuditVoteRequest ctr in xret r.1
  | CAuditGlobalCommit ctr => let% r := HandleAuditGlobalCommit ctr in xret r.1
  | CAuditDriverResult phase results => let% r := HandleAuditDriverResult phase results in xret r.1
  | CGlobalAbort => HandleCommitGlobalAbort
  | CSaveConfiguration => HandleSaveConfiguration
  | CAbortCandidate => HandleAbortCandidate
  | CClearStartup => HandleClearStartup
  | CAuditConfig oper => HandleAuditConfig new_impl oper
  | CSetup => HandleSetup
  | CSetupComplete => HandleSetupComplete
  | CClearImport sid cid sby => let% urc := ClearImport sid cid sby in xret urc
  end.
Fixpoint handle_calls (cs : list TcCall) : Tx (list Z) :=
  match cs with
  | [] => xret []
  | c :: rest => let% r := handle_call c in let% rs := handle_calls rest in xret (r :: rs)
  end.

End Handlers.

(** ** What is allowed

    A scope is entered and left, one at a time; in a scope a connection is
    taken, managers are called, and the transaction of the database is closed
    and the connection released.  It is committed only if no manager failed. *)

Inductive Db := DIdle | DOpen (k : Conn) (good : bool) | DClosed (k : Conn).

#[export] Instance Conn_eq_dec : EqDecision Conn.
Proof. solve_decision. Defined.
#[export] Instance Handler_eq_dec : EqDecision Handler.
Proof. solve_decision. Defined.

(** What follows an event; [None] where it is not allowed. *)
Definition watch (e : Event) (w : Db * option Handler) : option (Db * option Handler) :=
  match e, w with
  | EEnter h, (DIdle, None) => Some (DIdle, Some h)
  | EEnter _, _ => None
  | ELeave h, (DIdle, Some h') => if decide (h = h') then Some (DIdle, None) else None
  | ELeave _, _ => None
  | EConn k found, (DIdle, Some h) => Some (if found then DOpen k true else DIdle, Some h)
  | EConn _ _, _ => None
  | EMo _ _ rc, (DOpen k good, Some h) =>
      Some (DOpen k (good && (ok rc || (rc ==? UPLL_RC_ERR_DRIVER_NOT_PRESENT))), Some h)
  | EMo _ _ _, _ => None
  | EClearAllDirtyTblInDB rc, (DOpen k good, Some h) => Some (DOpen k (good && ok rc), Some h)
  | EClearAllDirtyTblInDB _, _ => None
  | EClose k commit _, (DOpen k' good, o) =>
      if decide (k = k') then if implb commit good then Some (DClosed k, o) else None else None
  | EClose _ _ _, _ => None
  | ERelease k, (DClosed k', o) => if decide (k = k') then Some (DIdle, o) else None
  | ERelease _, _ => None
  | EImportCtrlrConfig _ _, (DIdle, Some _) => Some w
  | EImportCtrlrConfig _ _, _ => None
  | _, _ => Some w
  end.
(** After a sequence of events, the latest first. *)
Fixpoint watched tr : option (Db * option Handler) :=
  match tr with [] => Some (DIdle, None) | e :: rest => watched rest ≫= watch e end.

(** ** Programs that keep to it *)

Section Safe.

Context (E : Env).
Implicit Types (w : Db * option Handler).

Definition safe {A} w (p : Tx A) (Q : A -> Db * option Handler -> Prop) : Prop :=
  forall m tr, watched tr = Some w ->
    exists w', watched (p m tr).2 = Some w' /\ Q (p m tr).1.1 w'.

Lemma safe_ret {A} w (a : A) Q : Q a w -> safe w (xret a) Q.
Proof. intros HQ m tr Hw. by exists w. Qed.

Lemma safe_bind {A B} w (p : Tx A) (k : A -> Tx B) R Q :
  safe w p R -> (forall a w', R a w' -> safe w' (k a) Q) -> safe w (xbind p k) Q.
Proof.
  intros Hp Hk m tr Hw. unfold xbind. destruct (Hp m tr Hw) as (w1 & Hw1 & HR).
  destruct (p m tr) as [[a m1] tr1]. cbn in *. by apply (Hk a w1).
Qed.

Lemma safe_mono {A} w (p : Tx A) (R Q : A -> Db * option Handler -> Prop) :
  safe w p R -> (forall a w', R a w' -> Q a w') -> safe w p Q.
Proof. intros Hp HRQ m tr Hw. destruct (Hp m tr Hw) as (w1 & ? & ?). eauto. Qed.

Lemma safe_get {B} w (k : Mgr -> Tx B) Q : (forall m, safe w (k m) Q) -> safe w (xbind xget k) Q.
Proof. intros Hk m tr Hw. by apply Hk. Qed.
Lemma safe_set {B} w f (k : unit -> Tx B) Q : safe w (k tt) Q -> safe w (xbind (xset f) k) Q.
Proof. intros Hk m tr Hw. by apply Hk. Qed.
Lemma safe_ask {A B} w (q : list Event -> A) (k : A -> Tx B) Q :
  (forall a, safe w (k a) Q) -> safe w (xbind (xask q) k) Q.
Proof. intros Hk m tr Hw. by apply Hk. Qed.
Lemma safe_log {B} w w' e (k : unit -> Tx B) Q :
  watch e w = Some w' -> safe w' (k tt) Q -> safe w (xbind (xlog e) k) Q.
Proof. intros He Hk m tr Hw. apply Hk. cbn. by rewrite Hw. Qed.
Lemma safe_assoc {A B C} w (p : Tx A) (k1 : A -> Tx B) (k2 : B -> Tx C) Q :
  safe w (xbind p (fun a => xbind (k1 a) k2)) Q -> safe w (xbind (xbind p k1) k2) Q.
Proof. intros H m tr Hw. specialize (H m tr Hw). unfold xbind in *. by destruct (p m tr) as [[a m1] tr1]. Qed.
Lemma safe_ret_bind {A B} w (a : A) (k : A -> Tx B) Q : safe w (k a) Q -> safe w (xbind (xret a) k) Q.
Proof. done. Qed.
(** A tail without continuation. *)
Lemma safe_tail {A} w (p : Tx A) Q : safe w (xbind p xret) Q -> safe w p Q.
Proof. intros H m tr Hw. specialize (H m tr Hw). unfold xbind, xret in H. by destruct (p m tr) as [[a m1] tr1]. Qed.

(** *** Database *)

Lemma safe_conn {B} h c (k : bool -> Tx B) Q :
  safe (DOpen c true, Some h) (k true) Q -> safe (DIdle, Some h) (k false) Q ->
  safe (DIdle, Some h) (xbind (get_conn E c) k) Q.
Proof.
  intros Ht Hf. unfold get_conn. apply safe_assoc, safe_ask. intros found.
  apply safe_assoc. eapply safe_log; [reflexivity|]. apply safe_ret_bind. by destruct found.
Qed.

Lemma safe_close {B} h c good commit (k : upll_rc -> Tx B) Q :
  (commit = true -> good = true) -> (forall rc, safe (DClosed c, Some h) (k rc) Q) ->
  safe (DOpen c good, Some h) (xbind (DalTxClose E c commit) k) Q.
Proof.
  intros Hg Hk. unfold DalTxClose. apply safe_assoc, safe_ask. intros rc. apply safe_assoc.
  eapply safe_log; [|apply safe_ret_bind, Hk]. cbn. rewrite decide_True by done.
  destruct commit; cbn; [rewrite Hg by done|]; done.
Qed.

Lemma safe_release {B} h c (k : unit -> Tx B) Q :
  safe (DIdle, Some h) (k tt) Q -> safe (DClosed c, Some h) (xbind (ReleaseRwConn c) k) Q.
Proof. intros Hk. eapply safe_log; [|exact Hk]. cbn. by rewrite decide_True. Qed.

(** After managers were called: a success means that none failed. *)
Definition inside (c : Conn) (h : Handler) urc w : Prop :=
  exists good, w = (DOpen c good, Some h) /\ (ok urc = true -> good = true).

Lemma safe_close_release {B} h c urc w (k : upll_rc -> Tx B) Q :
  inside c h urc w -> (forall rc, safe (DIdle, Some h) (k rc) Q) -> safe w (xbind (close_release E c urc) k) Q.
Proof.
  intros (good & -> & Hg) Hk. unfold close_release. apply safe_assoc, safe_close; [done|]. intros rc.
  apply safe_assoc, safe_release, safe_ret_bind, Hk.
Qed.

Lemma safe_roll_back {B} h c urc good (k : upll_rc -> Tx B) Q :
  safe (DIdle, Some h) (k urc) Q -> safe (DOpen c good, Some h) (xbind (roll_back E c urc) k) Q.
Proof.
  intros Hk. unfold roll_back. apply safe_assoc, safe_close; [done|]. intros rc. by apply safe_assoc, safe_release, safe_ret_bind.
Qed.

Lemma safe_momgr {B} h c good f kt (k : upll_rc -> Tx B) Q :
  (forall rc, safe (DOpen c (good && (ok rc || (rc ==? UPLL_RC_ERR_DRIVER_NOT_PRESENT))), Some h) (k rc) Q) ->
  safe (DOpen c good, Some h) (xbind (momgr_call E f kt) k) Q.
Proof.
  intros Hk. unfold momgr_call. apply safe_assoc, safe_ask. intros rc. apply safe_assoc.
  eapply safe_log; [reflexivity|]. destruct f; try by apply safe_ret_bind, Hk.
  apply safe_assoc, safe_ask. intros names. by apply safe_assoc, safe_set, safe_ret_bind, Hk.
Qed.

Lemma safe_continue {B} w (k : upll_rc -> Tx B) Q :
  (forall rc, safe w (k rc) Q) -> safe w (xbind (ContinueActiveProcess E) k) Q.
Proof.
  intros Hk. unfold ContinueActiveProcess. apply safe_assoc, safe_ask. intros [|]; [by apply safe_ret_bind|].
  apply safe_assoc, safe_ask. intros b. by apply safe_ret_bind.
Qed.

Lemma momgrs_safe h c f kts urc :
  safe (DOpen c true, Some h) (call_momgrs E f kts urc) (inside c h).
Proof.
  revert urc. induction kts as [|kt kts IH]; intros urc; cbn [call_momgrs].
  { apply safe_ret. by exists true. }
  destruct (has_momgr E kt); [|apply IH]. apply safe_momgr. intros rc. cbn [andb].
  destruct (rc ==? UPLL_RC_ERR_DRIVER_NOT_PRESENT); [rewrite orb_true_r; apply IH|].
  destruct (ok rc) eqn:Erc; cbn [negb orb].
  - apply safe_continue. intros rc'. destruct (ok rc') eqn:E2; cbn [negb]; [apply IH|]. apply safe_ret. by exists true.
  - apply safe_ret. exists false. split; [done|]. by rewrite Erc.
Qed.

Lemma some_safe h c f kts urc :
  safe (DOpen c true, Some h) (call_some E f kts urc) (inside c h).
Proof.
  revert urc. induction kts as [|kt kts IH]; intros urc; cbn [call_some].
  { apply safe_ret. by exists true. }
  destruct (has_momgr E kt); [|apply IH]. apply safe_momgr. intros rc. cbn [andb].
  destruct (ok rc) eqn:Erc; cbn [orb].
  - apply safe_continue. intros rc'. destruct (ok rc') eqn:E2; cbn [negb]; [apply IH|]. apply safe_ret. by exists true.
  - apply safe_ret_bind. rewrite Erc. cbn [negb]. apply safe_ret. eexists. split; [done|]. by rewrite Erc.
Qed.

Lemma safe_calls {B} h c (p : Tx upll_rc) (k : upll_rc -> Tx B) Q :
  safe (DOpen c true, Some h) p (inside c h) ->
  (forall rc, ok rc = true -> safe (DOpen c true, Some h) (k rc) Q) ->
  (forall rc good, ok rc = false -> safe (DOpen c good, Some h) (k rc) Q) ->
  safe (DOpen c true, Some h) (xbind p k) Q.
Proof.
  intros Hp Ht Hf. eapply safe_bind; [exact Hp|]. intros rc w (good & -> & Hg).
  destruct (ok rc) eqn:E1; [rewrite Hg by done; by apply Ht|by apply Hf].
Qed.

Lemma safe_dirty {B} h c (k : upll_rc -> Tx B) Q :
  (forall rc, safe (DOpen c (ok rc), Some h) (k rc) Q) ->
  safe (DOpen c true, Some h) (xbind (ClearAllDirtyTblInDB E) k) Q.
Proof.
  intros Hk. unfold ClearAllDirtyTblInDB. apply safe_assoc, safe_ask. intros rc. apply safe_assoc.
  eapply safe_log; [reflexivity|]. apply safe_ret_bind, Hk.
Qed.

Lemma safe_scoped {A B} h (body : Tx A) (k : A -> Tx B) Q :
  safe (DIdle, Some h) body (fun _ w => w = (DIdle, Some h)) -> (forall a, safe (DIdle, None) (k a) Q) ->
  safe (DIdle, None) (xbind (scoped h body) k) Q.
Proof.
  intros Hb Hk. unfold scoped. apply safe_assoc. eapply safe_log; [reflexivity|]. apply safe_assoc.
  eapply safe_bind; [exact Hb|]. intros a w ->. apply safe_assoc. eapply safe_log; [cbn; by rewrite decide_True|].
  apply safe_ret_bind, Hk.
Qed.

(** Programs that do nothing that is watched, and programs that leave no scope
    open. *)
Definition quiet {A} (p : Tx A) : Prop :=
  forall B w (k : A -> Tx B) Q, (forall a, safe w (k a) Q) -> safe w (xbind p k) Q.
Definition orderly {A} (p : Tx A) : Prop :=
  forall B (k : A -> Tx B) Q, (forall a, safe (DIdle, None) (k a) Q) -> safe (DIdle, None) (xbind p k) Q.

Lemma quiet_orderly {A} (p : Tx A) : quiet p -> orderly p.
Proof. intros Hp B k Q. apply Hp. Qed.

Lemma orderly_safe {A} (p : Tx A) : orderly p -> safe (DIdle, None) p (fun _ w => w = (DIdle, None)).
Proof. intros Hp. apply safe_tail, Hp. intros a. by apply safe_ret. Qed.

Create HintDb tx.

Ltac tx_step :=
  match goal with
  | H : forall a, safe ?w (?k a) ?Q |- safe ?w (?k _) ?Q => apply H
  | |- safe _ (xbind (xbind _ _) _) _ => apply safe_assoc
  | |- safe _ (xbind xget _) _ => apply safe_get; intros ?
  | |- safe _ (xbind (xset _) _) _ => apply safe_set
  | |- safe _ (xbind (xask _) _) _ => apply safe_ask; intros ?
  | |- safe _ (xbind (xret _) _) _ => apply safe_ret_bind
  | |- safe _ (xbind (xlog _) _) _ => eapply safe_log; [reflexivity|]
  | |- safe _ (xbind (get_conn _ _) _) _ => apply safe_conn; cbn [negb]
  | |- safe _ (xbind (ReleaseRwConn _) _) _ => apply safe_release
  | |- safe _ (xbind (roll_back _ _ _) _) _ => apply safe_roll_back
  | |- safe _ (xbind (DalTxClose _ _ _) _) _ => apply safe_close; [congruence|intros ?]
  | |- safe _ (xbind (close_release _ _ _) _) _ =>
      eapply safe_close_release; [eexists; split; [reflexivity|congruence]|intros ?]
  | |- safe _ (xbind (ClearAllDirtyTblInDB _) _) _ => apply safe_dirty; intros ?
  | |- safe _ (xbind (call_preorder _ _ _) _) _ =>
      apply safe_calls; [apply momgrs_safe|intros ? ?|intros ? ? ?]
  | |- safe _ (xbind (call_reverse _ _ _) _) _ =>
      apply safe_calls; [apply momgrs_safe|intros ? ?|intros ? ? ?]
  | |- safe _ (xbind (call_some _ _ _ _) _) _ =>
      apply safe_calls; [apply some_safe|intros ? ?|intros ? ? ?]
  | H : ok ?rc = _ |- safe _ _ _ => progress (rewrite ?H; cbn [negb andb orb])
  | |- safe _ (xbind ?p _) _ =>
      let H := fresh in assert (quiet p) as H by auto with tx nocore; apply H; clear H; intros ?
  | |- safe _ (xbind ?p _) _ =>
      let H := fresh in assert (orderly p) as H by auto with tx nocore; apply H; clear H; intros ?
  | |- safe _ (xbind (scoped _ _) _) _ => apply safe_scoped; [|intros ?]
  | |- safe _ (xbind (if ?b then _ else _) _) _ => destruct b eqn:?; cbn [negb]
  | |- safe _ (if ?b then _ else _) _ => destruct b eqn:?; cbn [negb]
  | |- safe _ (xret _) _ => apply safe_ret; try done
  | |- safe _ (xbind _ _) _ => fail 1
  | |- safe _ (match _ with _ => _ end) _ => fail 1
  | |- safe _ _ _ => apply safe_tail
  end.
Ltac tx := repeat tx_step; try done.

Lemma ValidateCommit_quiet : quiet (ValidateCommit E).
Proof. intros B w k Q Hk. unfold ValidateCommit. tx; auto. Qed.
#[local] Hint Resolve ValidateCommit_quiet : tx.
Lemma ValidateAudit_quiet ctr : quiet (ValidateAudit E ctr).
Proof. intros B w k Q Hk. unfold ValidateAudit. tx; auto. Qed.
#[local] Hint Resolve ValidateAudit_quiet : tx.

Lemma alarm_quiet rc ctr : quiet (TriggerInvalidConfigAlarm rc ctr).
Proof.
  intros B w k Q Hk. unfold TriggerInvalidConfigAlarm, is_config_invalid, SendInvalidConfigAlarm, update_invalid_config.
  tx. destruct (CtrlrMgr.IsConfigInvalid _ _ _) as [rc' [exists_|]]; tx.
Qed.
#[local] Hint Resolve alarm_quiet : tx.

Lemma batch_orderly : orderly (DbCommitIfInBatchMode E).
Proof. intros B k Q Hk. unfold DbCommitIfInBatchMode. tx. Qed.
#[local] Hint Resolve batch_orderly : tx.

Lemma OnTxStart_orderly : orderly (OnTxStart E).
Proof.
  intros B k Q Hk. unfold OnTxStart. tx.
Qed.
#[local] Hint Resolve OnTxStart_orderly : tx.

Lemma OnTxVote_orderly : orderly (OnTxVote E).
Proof. intros B k Q Hk. unfold OnTxVote. tx. Qed.
#[local] Hint Resolve OnTxVote_orderly : tx.
Lemma OnTxVoteCtrlrStatus_orderly : orderly (OnTxVoteCtrlrStatus E).
Proof. intros B k Q Hk. unfold OnTxVoteCtrlrStatus. tx. Qed.
#[local] Hint Resolve OnTxVoteCtrlrStatus_orderly : tx.
Lemma OnTxGlobalCommit_orderly : orderly (OnTxGlobalCommit E).
Proof. intros B k Q Hk. unfold OnTxGlobalCommit. tx. Qed.
#[local] Hint Resolve OnTxGlobalCommit_orderly : tx.
Lemma OnTxCommitCtrlrStatus_orderly status : orderly (OnTxCommitCtrlrStatus E status).
Proof. intros B k Q Hk. unfold OnTxCommitCtrlrStatus. tx. Qed.
#[local] Hint Resolve OnTxCommitCtrlrStatus_orderly : tx.
Lemma OnTxEnd_orderly : orderly (OnTxEnd E).
Proof. intros B k Q Hk. unfold OnTxEnd. tx. Qed.
#[local] Hint Resolve OnTxEnd_orderly : tx.

Lemma OnAuditStart_orderly ctr skip : orderly (OnAuditStart E ctr skip).
Proof.
  intros B k Q Hk. unfold OnAuditStart, ClearPathFaultAlarms. tx.
Qed.
#[local] Hint Resolve OnAuditStart_orderly : tx.
Lemma OnAuditTxVote_orderly ctr : orderly (OnAuditTxVote E ctr).
Proof. intros B k Q Hk. unfold OnAuditTxVote. tx. Qed.
#[local] Hint Resolve OnAuditTxVote_orderly : tx.
Lemma OnAuditTxGlobalCommit_orderly ctr : orderly (OnAuditTxGlobalCommit E ctr).
Proof. intros B k Q Hk. unfold OnAuditTxGlobalCommit. tx. Qed.
#[local] Hint Resolve OnAuditTxGlobalCommit_orderly : tx.
Lemma OnAuditTxCommitCtrlrStatus_orderly ctr rc : orderly (OnAuditTxCommitCtrlrStatus E ctr rc).
Proof.
  intros B k Q Hk. unfold OnAuditTxCommitCtrlrStatus. tx.
Qed.
#[local] Hint Resolve OnAuditTxCommitCtrlrStatus_orderly : tx.
Lemma OnAuditTxVoteCtrlrStatus_orderly ctr rc : orderly (OnAuditTxVoteCtrlrStatus E ctr rc).
Proof.
  intros B k Q Hk. unfold OnAuditTxVoteCtrlrStatus, is_config_invalid, update_invalid_config, SendInvalidConfigAlarm. tx;
    destruct (CtrlrMgr.IsConfigInvalid _ _ _) as [rc' [exists_|]]; tx.
Qed.
#[local] Hint Resolve OnAuditTxVoteCtrlrStatus_orderly : tx.
Lemma OnAuditEnd_orderly ctr sby : orderly (OnAuditEnd E ctr sby).
Proof.
  intros B k Q Hk. unfold OnAuditEnd, audit_end. tx.
Qed.
#[local] Hint Resolve OnAuditEnd_orderly : tx.
Lemma OnAuditTxStart_orderly ctr : orderly (OnAuditTxStart E ctr).
Proof.
  intros B k Q Hk.
  assert (forall rc, quiet (alarm_if_err E rc ctr)) as Hal.
  { intros rc B' w k' Q' Hk'. unfold alarm_if_err. tx. }
  unfold OnAuditTxStart, audit_roll_back. tx.
  all: match goal with |- context [match ?a with _ => _ end] => destruct a end; tx.
Qed.
#[local] Hint Resolve OnAuditTxStart_orderly : tx.

Lemma OnLoadStartup_orderly : tclib_found E = true -> orderly (OnLoadStartup E).
Proof. intros Ht B k Q Hk. unfold OnLoadStartup, validate_active. rewrite Ht. cbn [negb]. tx. Qed.
#[local] Hint Resolve OnLoadStartup_orderly : tx.
Lemma OnSaveRunningConfig_orderly : orderly (OnSaveRunningConfig E).
Proof. intros B k Q Hk. unfold OnSaveRunningConfig, validate_active. tx. Qed.
#[local] Hint Resolve OnSaveRunningConfig_orderly : tx.
Lemma OnAbortCandidateConfig_orderly : orderly (OnAbortCandidateConfig E).
Proof. intros B k Q Hk. unfold OnAbortCandidateConfig, validate_active. tx. Qed.
#[local] Hint Resolve OnAbortCandidateConfig_orderly : tx.
Lemma OnClearStartupConfig_orderly : orderly (OnClearStartupConfig E).
Proof. intros B k Q Hk. unfold OnClearStartupConfig, validate_active. tx. Qed.
#[local] Hint Resolve OnClearStartupConfig_orderly : tx.
Lemma ClearImport_orderly sid cid sby : orderly (ClearImport E sid cid sby).
Proof. intros B k Q Hk. unfold ClearImport, clear_import, validate_clear_import. tx. Qed.
#[local] Hint Resolve ClearImport_orderly : tx.

(** *** The handlers *)

Lemma GetTxResult_quiet results : quiet (GetTxResult E results).
Proof.
  induction results as [|[ctr code] results IH]; intros B w k Q Hk; cbn [GetTxResult]; tx.
  destruct (known_type ctr m); tx.
Qed.
#[local] Hint Resolve GetTxResult_quiet : tx.
Lemma write_back_quiet res : quiet (write_back E res).
Proof.
  induction res as [|r res IH]; intros B w k Q Hk; cbn [write_back]; tx; try by apply IH.
Qed.
Lemma WriteBackTxResult_quiet res : quiet (WriteBackTxResult E res).
Proof. intros B w k Q Hk. unfold WriteBackTxResult. tx. by apply write_back_quiet. Qed.
#[local] Hint Resolve WriteBackTxResult_quiet : tx.
Lemma WriteUpllErrorBlock_quiet rc : quiet (WriteUpllErrorBlock E rc).
Proof. intros B w k Q Hk. unfold WriteUpllErrorBlock. tx. Qed.
#[local] Hint Resolve WriteUpllErrorBlock_quiet : tx.
Lemma FillTcDriverInfoMap_quiet s audit : quiet (FillTcDriverInfoMap s audit).
Proof. intros B w k Q Hk. unfold FillTcDriverInfoMap. tx. Qed.
#[local] Hint Resolve FillTcDriverInfoMap_quiet : tx.

Lemma driver_result_orderly phase results : orderly (HandleCommonTxDriverResult E phase results).
Proof.
  intros B k Q Hk. unfold HandleCommonTxDriverResult. tx.
  match goal with o : option _ |- _ => destruct o as [[|? [|]]|] end; tx.
Qed.
#[local] Hint Resolve driver_result_orderly : tx.

(** The load of the start-up configuration needs [tclib]. *)
Definition loads (c : TcCall) : bool := match c with CSetup => true | _ => false end.

Lemma call_orderly c : implb (loads c) (tclib_found E) = true -> orderly (handle_call E c).
Proof.
  intros Ht B k Q Hk.
  destruct c; cbn [loads implb] in Ht; cbn [handle_call];
    unfold HandleCommitTransactionStart, HandleCommitTransactionEnd, HandleCommitVoteRequest,
      HandleCommitGlobalCommit, HandleCommitDriverResult, HandleAuditStart, HandleAuditEnd,
      HandleAuditTransactionStart, HandleAuditTransactionEnd, HandleAuditVoteRequest, HandleAuditGlobalCommit,
      HandleAuditDriverResult, HandleCommitGlobalAbort, HandleAuditConfig, HandleSaveConfiguration,
      HandleAbortCandidate, HandleClearStartup, HandleSetup, HandleSetupComplete, audit_answer, LockPathFaultEvent,
      UnlockPathFaultEvent, OnAuditTxEnd; tx.
  all: match goal with r : _ * option (gset string) |- _ => destruct r as [? [?|]]; cbn [snd] end; tx.
Qed.

Lemma calls_orderly cs : implb (existsb loads cs) (tclib_found E) = true -> orderly (handle_calls E cs).
Proof.
  induction cs as [|c cs IH]; intros Ht B k Q Hk; cbn [handle_calls]; tx.
  cbn [existsb] in Ht. apply call_orderly; [by destruct (loads c), (tclib_found E)|].
  specialize (IH ltac:(by destruct (loads c), (existsb loads cs), (tclib_found E))). intros r. tx.
Qed.

End Safe.

(** C19: Whatever the coordinator asks of UPLL, whatever the managers and the
    database answer: a connection is taken and managers are called only in the
    scope of a lock; every connection is closed once and released once before
    the scope is left, on every path; and a transaction of the database is
    committed only if no manager failed, but for drivers that are not present.
    The exception is the load of the start-up configuration in a process where
    the library [tclib] is not found: see [load_startup_leaks_connection]. *)
Theorem upll_database_discipline (E : Env) (calls : list TcCall) (m : Mgr) :
  tclib_found E = true \/ CSetup ∉ calls ->
  watched (handle_calls E calls m []).2 = Some (DIdle, None).
Proof.
  intros Ht. assert (implb (existsb loads calls) (tclib_found E) = true) as Hl.
  { destruct Ht as [-> |Ht]; [apply implb_true_r|]. destruct (existsb loads calls) eqn:Ex; [|done].
    apply existsb_exists in Ex as (c & Hin & Hc). destruct c; try done. by apply list_elem_of_In in Hin. }
  destruct (orderly_safe _ (calls_orderly E calls Hl) m []) as (w & Hw & ->); done.
Qed.

(** ** Commits come in order *)

Section Commits.

Context (E : Env).

(** Programs that neither begin nor end a commit. *)
Definition keeps {A} (p : Tx A) : Prop :=
  forall m tr, commit_in_progress_ (p m tr).1.2 = commit_in_progress_ m.

Lemma kept_ret {A} (a : A) : keeps (xret a).
Proof. done. Qed.
Lemma kept_ask {A} (q : list Event -> A) : keeps (xask q).
Proof. done. Qed.
Lemma kept_log e : keeps (xlog e).
Proof. done. Qed.
Lemma kept_get : keeps xget.
Proof. done. Qed.
Lemma kept_bind {A B} (p : Tx A) (k : A -> Tx B) : keeps p -> (forall a, keeps (k a)) -> keeps (xbind p k).
Proof.
  intros Hp Hk m tr. unfold xbind. specialize (Hp m tr). destruct (p m tr) as [[a m1] tr1]. cbn in Hp. rewrite <- Hp. apply Hk.
Qed.
Lemma kept_if {A} (b : bool) (p q : Tx A) : keeps p -> keeps q -> keeps (if b then p else q).
Proof. by destruct b. Qed.
Lemma kept_scoped {A} h (p : Tx A) : keeps p -> keeps (scoped h p).
Proof. intros Hp. unfold scoped. apply kept_bind; [done|]. intros _. apply kept_bind; [done|]. intros a. by apply kept_bind. Qed.

Lemma kept_set f : (forall m, commit_in_progress_ (f m) = commit_in_progress_ m) -> keeps (xset f).
Proof. intros Hf m tr. apply Hf. Qed.

Create HintDb keeps.
Ltac keep := repeat match goal with
  | |- keeps (xbind _ _) => apply kept_bind; [|intros ?]
  | |- keeps (xset _) => apply kept_set; reflexivity
  | |- keeps (scoped _ _) => apply kept_scoped
  | |- keeps (match ?x with _ => _ end) => destruct x
  | |- keeps _ => done || solve [auto with keeps nocore]
  end.

Lemma momgr_keep f kt : keeps (momgr_call E f kt).
Proof. unfold momgr_call. keep. Qed.
Lemma conn_keep k : keeps (get_conn E k).
Proof. unfold get_conn. keep. Qed.
Lemma close_keep k b : keeps (DalTxClose E k b).
Proof. unfold DalTxClose. keep. Qed.
Lemma continue_keep : keeps (ContinueActiveProcess E).
Proof. unfold ContinueActiveProcess. keep. Qed.
Lemma dirty_keep : keeps (ClearAllDirtyTblInDB E).
Proof. unfold ClearAllDirtyTblInDB. keep. Qed.
Lemma commit_valid_keep : keeps (ValidateCommit E).
Proof. unfold ValidateCommit. keep. Qed.
Lemma audit_valid_keep ctr : keeps (ValidateAudit E ctr).
Proof. unfold ValidateAudit. keep. Qed.
#[local] Hint Resolve momgr_keep conn_keep close_keep continue_keep dirty_keep commit_valid_keep audit_valid_keep : keeps.

Lemma close_release_keep k urc : keeps (close_release E k urc).
Proof. unfold close_release, ReleaseRwConn. keep. Qed.
Lemma roll_back_keep k urc : keeps (roll_back E k urc).
Proof. unfold roll_back, ReleaseRwConn. keep. Qed.
Lemma batch_keep : keeps (DbCommitIfInBatchMode E).
Proof. unfold DbCommitIfInBatchMode, ReleaseRwConn. keep. Qed.
Lemma alarm_keep urc ctr : keeps (TriggerInvalidConfigAlarm urc ctr).
Proof. unfold TriggerInvalidConfigAlarm, is_config_invalid, SendInvalidConfigAlarm, update_invalid_config. keep. Qed.
Lemma momgrs_keep f kts urc : keeps (call_momgrs E f kts urc).
Proof. revert urc. induction kts as [|kt kts IH]; intros urc; cbn [call_momgrs]; keep; apply IH. Qed.
Lemma some_keep f kts urc : keeps (call_some E f kts urc).
Proof. revert urc. induction kts as [|kt kts IH]; intros urc; cbn [call_some]; keep; apply IH. Qed.
Lemma preorder_keep f urc : keeps (call_preorder E f urc).
Proof. apply momgrs_keep. Qed.
Lemma reverse_keep f urc : keeps (call_reverse E f urc).
Proof. apply momgrs_keep. Qed.
#[local] Hint Resolve close_release_keep roll_back_keep batch_keep alarm_keep some_keep preorder_keep reverse_keep : keeps.

Lemma GetTxResult_keep results : keeps (GetTxResult E results).
Proof. induction results as [|[ctr code] results IH]; cbn [GetTxResult]; keep. Qed.
Lemma write_back_keep res : keeps (write_back E res).
Proof. induction res as [|r res IH]; cbn [write_back]; keep. Qed.
Lemma WriteBackTxResult_keep res : keeps (WriteBackTxResult E res).
Proof. unfold WriteBackTxResult. keep. apply write_back_keep. Qed.
#[local] Hint Resolve GetTxResult_keep WriteBackTxResult_keep : keeps.
Lemma WriteUpllErrorBlock_keep urc : keeps (WriteUpllErrorBlock E urc).
Proof. unfold WriteUpllErrorBlock. keep. Qed.
Lemma FillTcDriverInfoMap_keep s audit : keeps (FillTcDriverInfoMap s audit).
Proof. unfold FillTcDriverInfoMap. keep. Qed.
Lemma audit_commit_keep ctr rc : keeps (OnAuditTxCommitCtrlrStatus E ctr rc).
Proof. unfold OnAuditTxCommitCtrlrStatus, ReleaseRwConn. keep. Qed.
#[local] Hint Resolve WriteUpllErrorBlock_keep FillTcDriverInfoMap_keep audit_commit_keep : keeps.
Lemma OnAuditEnd_keep ctr sby : keeps (OnAuditEnd E ctr sby).
Proof. unfold OnAuditEnd, audit_end. keep. Qed.
Lemma OnTxCommitCtrlrStatus_keep status : keeps (OnTxCommitCtrlrStatus E status).
Proof. unfold OnTxCommitCtrlrStatus. keep. Qed.
#[local] Hint Resolve OnAuditEnd_keep OnTxCommitCtrlrStatus_keep : keeps.

Lemma driver_result_keep phase results : keeps (HandleCommonTxDriverResult E phase results).
Proof.
  unfold HandleCommonTxDriverResult, OnTxVoteCtrlrStatus, OnAuditTxVoteCtrlrStatus, is_config_invalid,
    update_invalid_config, SendInvalidConfigAlarm, ReleaseRwConn. keep.
Qed.
#[local] Hint Resolve driver_result_keep : keeps.

Lemma other_call_keep c :
  match c with CCommitTransactionStart _ | CCommitTransactionEnd => True | _ => keeps (handle_call E c) end.
Proof.
  destruct c; cbn [handle_call]; try done;
    unfold HandleCommitVoteRequest, HandleCommitGlobalCommit, HandleCommitDriverResult, HandleAuditStart, HandleAuditEnd,
      HandleAuditTransactionStart, HandleAuditTransactionEnd, HandleAuditVoteRequest, HandleAuditGlobalCommit,
      HandleAuditDriverResult, HandleCommitGlobalAbort, HandleAuditConfig, HandleSaveConfiguration,
      HandleAbortCandidate, HandleClearStartup, HandleSetup, HandleSetupComplete, OnTxVote, OnTxGlobalCommit,
      LockPathFaultEvent, UnlockPathFaultEvent, OnAuditStart, ClearPathFaultAlarms, OnAuditTxStart, audit_roll_back,
      alarm_if_err, OnAuditTxVote, OnAuditTxGlobalCommit, OnAuditTxEnd, OnLoadStartup, OnSaveRunningConfig,
      OnAbortCandidateConfig, OnClearStartupConfig, validate_active, ClearImport, clear_import, validate_clear_import,
      audit_answer, ReleaseRwConn; keep.
Qed.

(** Nothing of a commit succeeds outside one. *)
Lemma ValidateCommit_refuses m tr :
  commit_in_progress_ m = false ->
  exists urc, ok urc = false /\ ValidateCommit E m tr = (urc, m, tr).
Proof.
  intros Hf. unfold ValidateCommit, xbind, xask, xget, xret.
  destruct (IsShuttingDown E tr); [by exists UPLL_RC_ERR_SHUTTING_DOWN|].
  destruct (IsActiveNode E tr); cbn [negb]; [|by exists UPLL_RC_ERR_NOT_SUPPORTED_BY_STANDBY].
  rewrite Hf. by exists UPLL_RC_ERR_NOT_ALLOWED_AT_THIS_TIME.
Qed.

Lemma error_block_fails urc m tr : ok urc = false -> ok (WriteUpllErrorBlock E urc m tr).1.1 = false.
Proof.
  intros Hu. unfold WriteUpllErrorBlock. rewrite Hu. unfold xbind.
  destruct (WriteBackTxResult E _ m tr) as [[[|] m1] tr1]; done.
Qed.

Lemma answer_fails urc m tr :
  ok urc = false -> (xbind (WriteUpllErrorBlock E urc) (fun urc => xret (tc_ret urc)) m tr).1.1 = TC_FAILURE.
Proof.
  intros Hu. unfold xbind, xret, tc_ret. pose proof (error_block_fails urc m tr Hu) as Hw.
  destruct (WriteUpllErrorBlock E urc m tr) as [[rc m1] tr1]. cbn in *. by rewrite Hw.
Qed.

Lemma End_refused m tr : commit_in_progress_ m = false -> (HandleCommitTransactionEnd E m tr).1.1 = TC_FAILURE.
Proof.
  intros Hf. destruct (ValidateCommit_refuses m tr Hf) as (urc & Hu & Hv).
  unfold HandleCommitTransactionEnd, OnTxEnd, xbind at 1 2. rewrite Hv, Hu. by apply answer_fails.
Qed.

Lemma Vote_refused m tr : commit_in_progress_ m = false -> (HandleCommitVoteRequest E m tr).1.1.1 = TC_FAILURE.
Proof.
  intros Hf. destruct (ValidateCommit_refuses m tr Hf) as (urc & Hu & Hv).
  unfold HandleCommitVoteRequest, OnTxVote, xbind at 1 2. rewrite Hv, Hu. cbn [negb xret fst snd].
  unfold xbind. destruct (WriteBackTxResult E _ m tr) as [[[|] m1] tr1]; cbn; [|done]. unfold tc_ret. by rewrite Hu.
Qed.

Lemma GlobalCommit_refused m tr : commit_in_progress_ m = false -> (HandleCommitGlobalCommit E m tr).1.1.1 = TC_FAILURE.
Proof.
  intros Hf. destruct (ValidateCommit_refuses (set_sem 0 m) tr Hf) as (urc & Hu & Hv).
  unfold HandleCommitGlobalCommit, LockPathFaultEvent, OnTxGlobalCommit, xset, xget, xbind at 1 2 3 4. rewrite Hv, Hu.
  cbn [xret fst snd]. unfold xbind, xret, tc_ret. pose proof (error_block_fails urc (set_sem 0 m) tr Hu) as Hw.
  destruct (WriteUpllErrorBlock E urc _ tr) as [[rc m1] tr1]. cbn in *. by rewrite Hw.
Qed.

Definition commit_phase (phase : Z) : bool :=
  (phase ==? TC_COMMIT_VOTE_PHASE) || (phase ==? TC_COMMIT_GLOBAL_COMMIT_PHASE).

Lemma DriverResult_refused phase results m tr :
  commit_phase phase = true -> commit_in_progress_ m = false ->
  (HandleCommitDriverResult E phase results m tr).1.1 = TC_FAILURE.
Proof.
  intros Hp Hf. unfold HandleCommitDriverResult, HandleCommonTxDriverResult, xbind at 1 2 3.
  pose proof (GetTxResult_keep results m tr) as Hk. destruct (GetTxResult E results m tr) as [[[res|] m1] tr1]; cbn in Hk.
  2:{ unfold xbind. by destruct (WriteUpllErrorBlock E _ m1 tr1) as [[? ?] ?]. }
  destruct (ValidateCommit_refuses m1 tr1 (eq_trans Hk Hf)) as (urc & Hu & Hv).
  assert ((if phase ==? TC_COMMIT_VOTE_PHASE then OnTxVoteCtrlrStatus E
           else OnTxCommitCtrlrStatus E true) m1 tr1 = (urc, m1, tr1)) as Hc.
  { destruct (phase ==? TC_COMMIT_VOTE_PHASE); unfold OnTxVoteCtrlrStatus, OnTxCommitCtrlrStatus, xbind at 1; by rewrite Hv, Hu. }
  unfold xbind at 1. unfold commit_phase in Hp.
  destruct (phase ==? TC_COMMIT_VOTE_PHASE); [|cbn [orb] in Hp; rewrite Hp];
    rewrite Hc, Hu; unfold xbind; by destruct (WriteUpllErrorBlock E urc m1 tr1) as [[? ?] ?].
Qed.

(** A node that stays active and has its database. *)
Definition healthy : Prop :=
  forall tr, IsShuttingDown E tr = false /\ IsActiveNode E tr = true /\ forall k, conn_found E tr k = true.

(** Programs after which no commit is in progress. *)
Definition ends {A} (p : Tx A) : Prop := forall m tr, commit_in_progress_ (p m tr).1.2 = false.

Lemma ends_then {A B} (p : Tx A) (k : A -> Tx B) : (forall a, ends (k a)) -> ends (xbind p k).
Proof. intros Hk m tr. unfold xbind. destruct (p m tr) as [[a m1] tr1]. apply Hk. Qed.
Lemma ends_keeps {A B} (p : Tx A) (k : A -> Tx B) : ends p -> (forall a, keeps (k a)) -> ends (xbind p k).
Proof.
  intros Hp Hk m tr. unfold xbind. specialize (Hp m tr). destruct (p m tr) as [[a m1] tr1]. by rewrite Hk.
Qed.
Lemma ends_conn {B} c (k : bool -> Tx B) : healthy -> ends (k true) -> ends (xbind (get_conn E c) k).
Proof. intros Hh Hk m tr. unfold get_conn, xbind, xask, xlog, xret. destruct (Hh tr) as (_ & _ & ->). apply Hk. Qed.

Lemma OnTxEnd_ends : healthy -> ends (OnTxEnd E).
Proof.
  intros Hh m tr. destruct (commit_in_progress_ m) eqn:Hf.
  - assert (ValidateCommit E m tr = (UPLL_RC_SUCCESS, m, tr)) as Hv.
    { unfold ValidateCommit, xbind, xask, xget, xret. destruct (Hh tr) as (-> & -> & _). cbn [negb]. by rewrite Hf. }
    unfold OnTxEnd, xbind at 1. rewrite Hv. change (ok UPLL_RC_SUCCESS) with true. cbn [negb].
    unfold scoped. apply ends_then. intros _. apply ends_keeps; [|intros a; keep].
    apply ends_conn; [done|]. apply ends_then. intros urc. apply ends_then. intros urc'. by intros ? ?.
  - destruct (ValidateCommit_refuses m tr Hf) as (urc & Hu & Hv). unfold OnTxEnd, xbind at 1. by rewrite Hv, Hu.
Qed.

Lemma End_ends : healthy -> ends (HandleCommitTransactionEnd E).
Proof. intros Hh. apply ends_keeps; [by apply OnTxEnd_ends|]. intros urc. keep. Qed.

(** A start that is refused leaves no commit, one that is not finds none. *)
Lemma OnTxStart_begins m tr :
  if commit_in_progress_ m then OnTxStart E m tr = (UPLL_RC_ERR_NOT_ALLOWED_AT_THIS_TIME, m, tr)
  else commit_in_progress_ (OnTxStart E m tr).1.2 = true.
Proof.
  destruct (commit_in_progress_ m) eqn:Hf; unfold OnTxStart, xbind at 1; cbn [xget]; rewrite Hf; [done|].
  unfold xbind at 1. cbn [xset].
  match goal with |- context [xbind ?p ?k (set_commit true m) tr] => assert (keeps (xbind p k)) as Hp by keep end.
  by rewrite Hp.
Qed.

Lemma Start_begins err m tr :
  healthy ->
  let '(reply, m', _) := HandleCommitTransactionStart E err m tr in
  reply = TC_SUCCESS /\ commit_in_progress_ m = false /\ commit_in_progress_ m' = true \/
  reply = TC_FAILURE /\ commit_in_progress_ m' = false.
Proof.
  intros Hh. unfold HandleCommitTransactionStart, xbind at 1. pose proof (OnTxStart_begins m tr) as Hb.
  destruct (OnTxStart E m tr) as [[urc m1] tr1] eqn:Es. destruct (ok urc) eqn:Eu.
  { destruct (commit_in_progress_ m); [by simplify_eq|]. by left. }
  unfold xbind at 1. pose proof (WriteBackTxResult_keep [mkTxResult err urc urc] m1 tr1) as Hk.
  destruct (WriteBackTxResult E [mkTxResult err urc urc] m1 tr1) as [[written m2] tr2]. cbn in Hk.
  set (urc' := if written then urc else UPLL_RC_ERR_GENERIC).
  assert (ok urc' = false) as Eu' by by destruct written.
  destruct (urc' ==? UPLL_RC_ERR_DRIVER_NOT_PRESENT) eqn:Ed; rewrite Eu'; cbn [negb orb].
  - unfold xbind, xret. left. split; [done|].
    assert (urc = UPLL_RC_ERR_DRIVER_NOT_PRESENT) as ->.
    { apply bool_decide_eq_true in Ed. by destruct written. }
    destruct (commit_in_progress_ m); [by simplify_eq|]. split; [done|]. by rewrite Hk.
  - unfold xbind, xret. pose proof (OnTxEnd_ends Hh m2 tr2) as He. destruct (OnTxEnd E m2 tr2) as [[r m3] tr3]. by right.
Qed.

(** What the replies mean: whether a commit is in progress after a call, and
    [None] where the reply is not allowed. *)
Definition commit_step (b : bool) (c : TcCall) (reply : Z) : option bool :=
  match c with
  | CCommitTransactionStart _ => if reply ==? TC_SUCCESS then (if b then None else Some true) else Some false
  | CCommitTransactionEnd => if (reply ==? TC_SUCCESS) && negb b then None else Some false
  | CCommitVoteRequest | CCommitGlobalCommit => if (reply ==? TC_SUCCESS) && negb b then None else Some b
  | CCommitDriverResult phase _ => if (reply ==? TC_SUCCESS) && commit_phase phase && negb b then None else Some b
  | _ => Some b
  end.
Fixpoint commit_steps (b : bool) (l : list (TcCall * Z)) : option bool :=
  match l with [] => Some b | (c, reply) :: rest => commit_step b c reply ≫= fun b => commit_steps b rest end.

Lemma call_steps c m tr :
  healthy ->
  let '(reply, m', _) := handle_call E c m tr in
  commit_step (commit_in_progress_ m) c reply = Some (commit_in_progress_ m').
Proof.
  intros Hh. pose proof (other_call_keep c) as Hk. destruct (handle_call E c m tr) as [[reply m'] tr'] eqn:Ec.
  destruct c; try (specialize (Hk m tr); rewrite Ec in Hk; cbn in Hk); cbn [commit_step]; try by rewrite Hk.
  - cbn [handle_call] in Ec. pose proof (Start_begins err_ctr m tr Hh) as Hs. rewrite Ec in Hs.
    destruct Hs as [(-> & -> & ->)|(-> & ->)]; done.
  - cbn [handle_call] in Ec. pose proof (End_ends Hh m tr) as He. pose proof (End_refused m tr) as Hr.
    rewrite Ec in He, Hr. cbn in He, Hr. rewrite He.
    destruct (commit_in_progress_ m); [by rewrite andb_false_r|]. by rewrite Hr.
  - cbn [handle_call] in Ec. unfold xbind, xret in Ec. pose proof (Vote_refused m tr) as Hr.
    destruct (HandleCommitVoteRequest E m tr) as [[r ?] ?]. simplify_eq. cbn in Hr. rewrite Hk.
    destruct (commit_in_progress_ m); [by rewrite andb_false_r|]. by rewrite Hr.
  - cbn [handle_call] in Ec. unfold xbind, xret in Ec. pose proof (GlobalCommit_refused m tr) as Hr.
    destruct (HandleCommitGlobalCommit E m tr) as [[r ?] ?]. simplify_eq. cbn in Hr. rewrite Hk.
    destruct (commit_in_progress_ m); [by rewrite andb_false_r|]. by rewrite Hr.
  - cbn [handle_call] in Ec. pose proof (DriverResult_refused phase results m tr) as Hr. rewrite Ec in Hr. cbn in Hr.
    rewrite Hk. destruct (commit_in_progress_ m); [by rewrite andb_false_r|].
    destruct (commit_phase phase); [|by rewrite andb_false_r]. by rewrite Hr.
Qed.

Lemma calls_steps cs m tr :
  healthy ->
  let '(replies, m', _) := handle_calls E cs m tr in
  commit_steps (commit_in_progress_ m) (zip cs replies) = Some (commit_in_progress_ m').
Proof.
  intros Hh. revert m tr. induction cs as [|c cs IH]; intros m tr; [done|]. cbn [handle_calls]. unfold xbind, xret.
  pose proof (call_steps c m tr Hh) as Hc. destruct (handle_call E c m tr) as [[reply m1] tr1].
  specialize (IH m1 tr1). destruct (handle_calls E cs m1 tr1) as [[replies m2] tr2].
  cbn [zip zip_with commit_steps]. by rewrite Hc.
Qed.

End Commits.

(** C20: On a node that stays active, the replies to the coordinator keep the
    order of a commit whatever it asks: a start succeeds only if no commit is in
    progress, votes, global commits, results of the drivers and ends succeed
    only during one, and after a start that fails and after every end, also one
    that fails, none is in progress. *)
Theorem commit_calls_in_order (E : Env) (calls : list TcCall) (m : Mgr) tr :
  healthy E ->
  let '(replies, m', _) := handle_calls E calls m tr in
  commit_steps (commit_in_progress_ m) (zip calls replies) = Some (commit_in_progress_ m').
Proof. apply calls_steps. Qed.

(** ** Recovery after a failover *)

(** The commits of the database among events. *)
Fixpoint db_commits tr : nat :=
  match tr with
  | [] => O
  | EClose _ true _ :: rest => S (db_commits rest)
  | _ :: rest => db_commits rest
  end.

Section Recovery.

Context (E : Env).

(** Programs that commit nothing to the database, and what they return. *)
Definition commits_nothing {A} (p : Tx A) (Q : A -> Prop) : Prop :=
  forall m tr, Q (p m tr).1.1 /\ db_commits (p m tr).2 = db_commits tr.

Lemma nothing_ret {A} (a : A) (Q : A -> Prop) : Q a -> commits_nothing (xret a) Q.
Proof. intros HQ m tr. by split. Qed.

Lemma nothing_bind {A B} (p : Tx A) (k : A -> Tx B) (R : A -> Prop) (Q : B -> Prop) :
  commits_nothing p R -> (forall a, R a -> commits_nothing (k a) Q) -> commits_nothing (xbind p k) Q.
Proof.
  intros Hp Hk m tr. unfold xbind. destruct (Hp m tr) as [HR Hc]. destruct (p m tr) as [[a m1] tr1].
  cbn in *. destruct (Hk a HR m1 tr1) as [HQ Hc']. split; [done|congruence].
Qed.

(** Programs that succeed. *)
Definition yields {A} (p : Tx A) (Q : A -> Prop) : Prop := forall m tr, Q (p m tr).1.1.

Lemma gives_ret {A} (a : A) (Q : A -> Prop) : Q a -> yields (xret a) Q.
Proof. by intros HQ m tr. Qed.

Lemma gives_bind {A B} (p : Tx A) (k : A -> Tx B) (R : A -> Prop) (Q : B -> Prop) :
  yields p R -> (forall a, R a -> yields (k a) Q) -> yields (xbind p k) Q.
Proof.
  intros Hp Hk m tr. unfold xbind. specialize (Hp m tr). destruct (p m tr) as [[a m1] tr1]. by apply Hk.
Qed.

(** *** A node that may not work *)

Section Standby.

Context (standby : forall tr, IsActiveNode E tr = false \/ IsShuttingDown E tr = true).

Lemma standby_momgrs f kts urc :
  ok urc = false -> commits_nothing (call_momgrs E f kts urc) (fun rc => ok rc = false).
Proof.
  revert urc. induction kts as [|kt kts IH]; intros urc Hu; cbn [call_momgrs]; [by apply nothing_ret|].
  destruct (has_momgr E kt); [|by apply IH]. apply (nothing_bind _ _ (fun _ => True)).
  { intros m tr. split; [done|]. unfold momgr_call, xbind, xask, xlog. cbn. by destruct f. }
  intros rc _. destruct (rc ==? UPLL_RC_ERR_DRIVER_NOT_PRESENT) eqn:Ed.
  { apply IH. apply bool_decide_eq_true in Ed as ->. done. }
  destruct (ok rc) eqn:Erc; cbn [negb]; [|by apply nothing_ret].
  apply (nothing_bind _ _ (fun rc => ok rc = false)).
  - intros m tr. unfold ContinueActiveProcess, xbind, xask. destruct (standby tr) as [Hs|Hs];
      destruct (IsShuttingDown E tr); cbn; rewrite ?Hs; done.
  - intros rc' Hrc'. rewrite Hrc'. by apply nothing_ret.
Qed.

Lemma standby_refused k : commits_nothing (validate_active E k) (fun rc => ok rc = false).
Proof.
  intros m tr. unfold validate_active, xbind, xask. destruct (standby tr) as [Hs|Hs];
    destruct (IsShuttingDown E tr); cbn; rewrite ?Hs; done.
Qed.

Lemma nothing_released c urc :
  ok urc = false -> commits_nothing (close_release E c urc) (fun rc => ok rc = false).
Proof. intros Hu m tr. unfold close_release, xbind, DalTxClose, xask, ReleaseRwConn, xlog. cbn. by rewrite Hu. Qed.

(** The redo of a commit is rolled back. *)
Lemma standby_commit : commits_nothing (OnTxCommitCtrlrStatus E false) (fun rc => ok rc = false).
Proof.
  unfold OnTxCommitCtrlrStatus.
  apply (nothing_bind _ _ (fun a => a = UPLL_RC_SUCCESS)); [by apply nothing_ret|]. intros ? ->.
  change (ok UPLL_RC_SUCCESS) with true. cbn [negb]. unfold scoped.
  apply (nothing_bind _ _ (fun _ => True)); [by intros m tr|]. intros _ _.
  apply (nothing_bind _ _ (fun rc => ok rc = false)); [|intros rc Hrc m tr; done].
  apply (nothing_bind _ _ (fun _ => True)); [by intros m tr|]. intros found _.
  destruct found; cbn [negb]; [|by apply nothing_ret].
  apply (nothing_bind _ _ (fun rc => ok rc = false)); [by apply standby_momgrs|]. intros rc Hrc. rewrite Hrc.
  do 3 (apply (nothing_bind _ _ (fun a => a = rc)); [by apply nothing_ret|]; intros ? ->; rewrite ?Hrc).
  apply (nothing_bind _ _ (fun rc => ok rc = false)); [by apply nothing_released|].
  intros rc' Hrc'. rewrite Hrc'. apply (nothing_bind _ _ (fun _ => True)); [by intros m tr|]. intros _ _.
  by apply nothing_ret.
Qed.

End Standby.

(** *** A node that works *)

(** Managers and database succeed, and there is a manager. *)
Definition all_well : Prop :=
  (forall tr f kt, momgr_rc E tr f kt = UPLL_RC_SUCCESS) /\ (forall tr k, conn_found E tr k = true) /\
  (forall tr k b, close_rc E tr k b = UPLL_RC_SUCCESS) /\ (forall tr, dirty_rc E tr = UPLL_RC_SUCCESS) /\
  existsb (has_momgr E) (preorder E) = true.

Context (up : forall tr, IsActiveNode E tr = true /\ IsShuttingDown E tr = false) (well : all_well).

Let good (rc : upll_rc) : Prop := rc = UPLL_RC_SUCCESS.

Lemma up_continue : yields (ContinueActiveProcess E) good.
Proof. intros m tr. unfold ContinueActiveProcess, xbind, xask. destruct (up tr) as [Ha ->]. cbn. by rewrite Ha. Qed.

Lemma well_momgr f kt : yields (momgr_call E f kt) good.
Proof.
  intros m tr. destruct well as (Hm & _). unfold momgr_call, xbind, xask, xlog. cbn. rewrite Hm.
  by destruct f.
Qed.

Lemma well_momgrs f kts urc :
  good urc \/ existsb (has_momgr E) kts = true -> yields (call_momgrs E f kts urc) good.
Proof.
  revert urc. induction kts as [|kt kts IH]; intros urc Hu; cbn [call_momgrs existsb] in *.
  { apply gives_ret. by destruct Hu. }
  destruct (has_momgr E kt); [|by apply IH]. eapply gives_bind; [apply well_momgr|]. intros ? ->.
  change (UPLL_RC_SUCCESS ==? UPLL_RC_ERR_DRIVER_NOT_PRESENT) with false.
  change (ok UPLL_RC_SUCCESS) with true. cbn [negb].
  eapply gives_bind; [apply up_continue|]. intros ? ->. change (ok UPLL_RC_SUCCESS) with true. cbn [negb].
  apply IH. by left.
Qed.

Lemma well_some f kts urc : good urc -> yields (call_some E f kts urc) good.
Proof.
  revert urc. induction kts as [|kt kts IH]; intros urc Hu; cbn [call_some]; [by apply gives_ret|].
  destruct (has_momgr E kt); [|by apply IH]. eapply gives_bind; [apply well_momgr|]. intros ? ->.
  change (ok UPLL_RC_SUCCESS) with true. cbn iota.
  eapply gives_bind; [apply up_continue|]. intros ? ->. change (ok UPLL_RC_SUCCESS) with true. cbn [negb].
  by apply IH.
Qed.

Lemma well_conn k : yields (get_conn E k) (fun found => found = true).
Proof. intros m tr. unfold get_conn, xbind, xask, xlog. cbn. apply well. Qed.
Lemma well_close k b : yields (DalTxClose E k b) good.
Proof. intros m tr. unfold DalTxClose, xbind, xask, xlog. cbn. apply well. Qed.
Lemma well_dirty : yields (ClearAllDirtyTblInDB E) good.
Proof. intros m tr. unfold ClearAllDirtyTblInDB, xbind, xask, xlog. cbn. apply well. Qed.
Lemma well_close_release k urc : good urc -> yields (close_release E k urc) good.
Proof.
  intros ->. unfold close_release. eapply gives_bind; [apply well_close|]. intros ? ->.
  eapply (gives_bind _ _ (fun _ => True)); [done|]. intros _ _. by apply gives_ret.
Qed.

Lemma yields_scoped {A} h (p : Tx A) Q : yields p Q -> yields (scoped h p) Q.
Proof.
  intros Hp. unfold scoped. eapply (gives_bind _ _ (fun _ => True)); [done|]. intros _ _.
  eapply gives_bind; [exact Hp|]. intros a Ha. by intros m tr.
Qed.

(** Steps of a program in which everything succeeds. *)
Ltac well_step :=
  match goal with
  | |- yields (xret _) _ => apply gives_ret; done
  | |- yields (scoped _ _) _ => apply yields_scoped
  | |- yields (close_release _ _ _) _ => by apply well_close_release
  | |- yields (xbind (call_preorder _ _ _) _) _ =>
      eapply gives_bind; [apply well_momgrs; first [by left|right; apply well]|intros ? ->]
  | |- yields (xbind (call_reverse _ _ _) _) _ =>
      eapply gives_bind; [apply well_momgrs; by left|intros ? ->]
  | |- yields (xbind (call_some _ _ _ _) _) _ => eapply gives_bind; [by apply well_some|intros ? ->]
  | |- yields (xbind (get_conn _ _) _) _ => eapply gives_bind; [apply well_conn|intros ? ->]
  | |- yields (xbind (DalTxClose _ _ _) _) _ => eapply gives_bind; [apply well_close|intros ? ->]
  | |- yields (xbind (ClearAllDirtyTblInDB _) _) _ => eapply gives_bind; [apply well_dirty|intros ? ->]
  | |- yields (xbind (close_release _ _ _) _) _ =>
      eapply gives_bind; [by apply well_close_release|intros ? ->]
  | |- yields (xbind (xret _) _) _ => eapply (gives_bind _ _ (fun a => a = _)); [by apply gives_ret|intros ? ->]
  | |- yields (xbind _ _) _ => eapply (gives_bind _ _ (fun _ => True)); [done|intros ? _]
  end; change (ok UPLL_RC_SUCCESS) with true; cbn [negb].

Lemma well_batch : yields (DbCommitIfInBatchMode E) good.
Proof.
  apply yields_scoped. eapply (gives_bind _ _ (fun _ => True)); [done|]. intros m _.
  destruct (batch_mode_in_progress_ m); repeat well_step.
Qed.

Lemma up_validated k : yields k good -> yields (validate_active E k) good.
Proof. intros Hk m tr. unfold validate_active, xbind, xask. destruct (up tr) as [Ha ->]. cbn. rewrite Ha. apply Hk. Qed.

Ltac after_batch := apply up_validated; (eapply gives_bind; [apply well_batch|]); intros ? ->;
  change (ok UPLL_RC_SUCCESS) with true; cbn [negb]; repeat well_step.

Lemma well_commit : yields (OnTxCommitCtrlrStatus E false) good.
Proof. unfold OnTxCommitCtrlrStatus. repeat well_step. Qed.
Lemma well_save : yields (OnSaveRunningConfig E) good.
Proof. unfold OnSaveRunningConfig. after_batch. Qed.
Lemma well_abort : yields (OnAbortCandidateConfig E) good.
Proof. unfold OnAbortCandidateConfig. after_batch. Qed.
Lemma well_clear : yields (OnClearStartupConfig E) good.
Proof. unfold OnClearStartupConfig. after_batch. Qed.

End Recovery.

(** Operations that a recovery does again. *)
Definition redone (oper : TcServiceType) : bool :=
  bool_decide (oper ∈ [TC_OP_CANDIDATE_COMMIT; TC_OP_CANDIDATE_ABORT; TC_OP_RUNNING_SAVE; TC_OP_CLEAR_STARTUP]).

(** C21: The recovery of an operation after a failover, as the handler that is
    registered carries it out, whatever changes of the state of the node came
    before.  The handler's own test, which is to refuse a recovery on an active
    node, never refuses one, since nobody sets the flags that it reads.  A
    commit, an abort of the candidate configuration, a saving and a clearing
    of the start-up configuration are done again: on a node that is active and
    is not shutting down this succeeds if managers and database do; on any
    other node it fails and nothing is committed to the database.  An audit
    needs no recovery and succeeds, other operations fail. *)
Theorem recovery_needs_active_node (E : Env) (changes : list NodeChange) (oper : TcServiceType) (m : Mgr) tr :
  let n := node_after changes in
  (forall tr, IsActiveNode E tr = node_active_ n) -> (forall tr, IsShuttingDown E tr = shutting_down_ n) ->
  let '(reply, m', tr') := HandleAuditConfig E (tlii n) oper m tr in
  if redone oper then
    if node_active_ n && negb (shutting_down_ n) then all_well E -> reply = TC_SUCCESS
    else reply = TC_FAILURE /\ db_commits tr' = db_commits tr
  else reply = (if (oper ==? TC_OP_USER_AUDIT) || (oper ==? TC_OP_DRIVER_AUDIT) then TC_SUCCESS else TC_FAILURE) /\
    m' = m /\ tr' = tr.
Proof.
  intros n Ha Hd. unfold HandleAuditConfig. assert (tlii n = new_impl) as -> by apply node_flags.
  cbn [impl_node_active_ impl_shutting_down_ new_impl].
  destruct (redone oper) eqn:Hr; [apply bool_decide_eq_true in Hr|apply bool_decide_eq_false in Hr]; cycle 1.
  { assert (forall x, x ∈ [TC_OP_CANDIDATE_COMMIT; TC_OP_CANDIDATE_ABORT; TC_OP_RUNNING_SAVE; TC_OP_CLEAR_STARTUP] ->
      (oper ==? x) = false) as Hn by (intros x Hx; apply bool_decide_eq_false_2; by intros ->).
    rewrite !Hn by (rewrite !elem_of_cons; auto). by destruct (_ || _). }
  assert (forall p : Tx upll_rc,
    (commits_nothing p (fun rc => ok rc = false) -> 
     let '(reply, m', tr') := xbind p (fun urc => xret (tc_ret urc)) m tr in
     reply = TC_FAILURE /\ db_commits tr' = db_commits tr) /\
    (yields p (fun rc => rc = UPLL_RC_SUCCESS) ->
     let '(reply, m', tr') := xbind p (fun urc => xret (tc_ret urc)) m tr in reply = TC_SUCCESS)) as Hrep.
  { intros p. unfold xbind, xret, tc_ret. split; intros Hp; specialize (Hp m tr);
      destruct (p m tr) as [[rc m1] tr1]; cbn in *; [destruct Hp as [-> ?]|subst rc]; done. }
  destruct (node_active_ n && negb (shutting_down_ n)) eqn:Hup.
  - apply andb_prop in Hup as [H1 H2%negb_true_iff].
    assert (forall tr, IsActiveNode E tr = true /\ IsShuttingDown E tr = false) as Hn
      by (intros t; by rewrite Ha, Hd).
    assert (forall p : Tx upll_rc, (all_well E -> yields p (fun rc => rc = UPLL_RC_SUCCESS)) ->
      let '(reply, m', tr') := xbind p (fun urc => xret (tc_ret urc)) m tr in
      all_well E -> reply = TC_SUCCESS) as Hw.
    { intros p Hp. pose proof (proj2 (Hrep p)) as H. destruct (xbind _ _ m tr) as [[? ?] ?]. intros W.
      by apply H, Hp. }
    rewrite !elem_of_cons, elem_of_nil in Hr. destruct Hr as [-> |[-> |[-> |[-> |[]]]]].
    + apply (Hw (OnTxCommitCtrlrStatus E false)). by apply well_commit.
    + apply (Hw (OnAbortCandidateConfig E)). by apply well_abort.
    + apply (Hw (OnSaveRunningConfig E)). by apply well_save.
    + apply (Hw (OnClearStartupConfig E)). by apply well_clear.
  - assert (forall tr, IsActiveNode E tr = false \/ IsShuttingDown E tr = true) as Hn
      by (intros t; rewrite Ha, Hd; destruct (node_active_ n), (shutting_down_ n); auto).
    rewrite !elem_of_cons, elem_of_nil in Hr. destruct Hr as [-> |[-> |[-> |[-> |[]]]]].
    + apply (Hrep (OnTxCommitCtrlrStatus E false)). by apply standby_commit.
    + apply (Hrep (OnAbortCandidateConfig E)). by apply standby_refused.
    + apply (Hrep (OnSaveRunningConfig E)). by apply standby_refused.
    + apply (Hrep (OnClearStartupConfig E)). by apply standby_refused.
Qed.

(** A node that is active until it is asked, and one that is not. *)
Definition steady_env (active : bool) : Env :=
  mkEnv (fun _ => false) (fun _ => active) [UNC_KT_VTN; UNC_KT_VBRIDGE] [UNC_KT_VBRIDGE; UNC_KT_VTN]
    (fun _ => true) (fun _ _ _ => UPLL_RC_SUCCESS) (fun _ => []) (fun _ => false) (fun _ => kCtrlrAffectedNoDiff)
    (fun _ _ => true) (fun _ _ _ => UPLL_RC_SUCCESS) (fun _ => UPLL_RC_SUCCESS) (fun _ _ _ => UPLL_RC_SUCCESS)
    (fun _ _ => UPLL_RC_SUCCESS) true true (fun _ _ => true) (fun _ _ _ => true) (fun _ _ => true).
Definition new_mgr : Mgr :=
  mkMgr false false "" kCtrlrAffectedNoDiff ∅ false false "" 0 true false 1
    [copy_Ctrlr (new_Ctrlr "c1" UNC_CT_ODC "1.0" true) UPLL_DT_RUNNING] ∅ ∅.

(** A node that becomes active, and one that is shut down then. *)
Lemma recovery_needs_active_node_witness :
  (HandleAuditConfig (steady_env true) (tlii (node_after [ClusterState true])) TC_OP_CANDIDATE_COMMIT new_mgr []).1.1
    = TC_SUCCESS /\
  (HandleAuditConfig (steady_env false) (tlii (node_after [ClusterState true; ClusterState false]))
     TC_OP_CLEAR_STARTUP new_mgr []).1.1 = TC_FAILURE.
Proof.
  split.
  - pose proof (recovery_needs_active_node (steady_env true) [ClusterState true] TC_OP_CANDIDATE_COMMIT new_mgr []
      (fun _ => eq_refl) (fun _ => eq_refl)) as H.
    destruct (HandleAuditConfig _ _ _ _ _) as [[reply m'] tr']. apply H.
    split; [reflexivity|]. split; [reflexivity|]. split; [reflexivity|]. split; reflexivity.
  - pose proof (recovery_needs_active_node (steady_env false) [ClusterState true; ClusterState false]
      TC_OP_CLEAR_STARTUP new_mgr [] (fun _ => eq_refl) (fun _ => eq_refl)) as H.
    destruct (HandleAuditConfig _ _ _ _ _) as [[reply m'] tr']. apply H.
Defined.

Lemma upll_database_discipline_witness :
  watched (handle_calls (steady_env true)
    [CSetup; CCommitTransactionStart ""; CCommitVoteRequest; CCommitDriverResult TC_COMMIT_VOTE_PHASE [];
     CCommitGlobalCommit; CCommitDriverResult TC_COMMIT_GLOBAL_COMMIT_PHASE []; CCommitTransactionEnd]
    new_mgr []).2 = Some (DIdle, None).
Proof. apply (upll_database_discipline (steady_env true)). left. reflexivity. Defined.

(** Where the library [tclib] is missing, a load of the start-up configuration
    leaves its scope with the connection open. *)
Definition no_tclib_env : Env :=
  mkEnv (fun _ => false) (fun _ => true) [UNC_KT_VTN] [UNC_KT_VTN] (fun _ => true) (fun _ _ _ => UPLL_RC_SUCCESS)
    (fun _ => []) (fun _ => false) (fun _ => kCtrlrAffectedNoDiff) (fun _ _ => true) (fun _ _ _ => UPLL_RC_SUCCESS)
    (fun _ => UPLL_RC_SUCCESS) (fun _ _ _ => UPLL_RC_SUCCESS) (fun _ _ => UPLL_RC_SUCCESS) false true (fun _ _ => true)
    (fun _ _ _ => true) (fun _ _ => true).
Example load_startup_leaks_connection :
  let '(replies, _, tr) := handle_calls no_tclib_env [CSetup] new_mgr [] in
  replies = [TC_SUCCESS] /\ watched tr = None.
Proof. vm_compute. done. Qed.

(** A second start ends the commit that it disturbs. *)
Definition disturbed_commit : list TcCall :=
  [CCommitTransactionStart ""; CCommitTransactionStart ""; CCommitVoteRequest].
Lemma commit_calls_in_order_witness :
  (handle_calls (steady_env true) disturbed_commit new_mgr []).1.1 = [TC_SUCCESS; TC_FAILURE; TC_FAILURE] /\
  (let '(replies, m', _) := handle_calls (steady_env true) disturbed_commit new_mgr [] in
   commit_steps (commit_in_progress_ new_mgr) (zip disturbed_commit replies) = Some (commit_in_progress_ m')).
Proof.
  split; [vm_compute; reflexivity|]. apply (commit_calls_in_order (steady_env true)).
  intros tr. split; [reflexivity|]. split; [reflexivity|]. intros k. reflexivity.
Defined.
