(* ===== verification/UpplTx.v ===== *)
(** * Transactions of UPPL

    How UPPL, the manager of the physical network, takes part in commits and
    serves the other operations on its databases ([uppl/itc_transaction_request.cc],
    [uppl/itc_db_config.cc]), and the handlers with which it answers the
    coordinator ([uppl/physical_core.cc]).  The tables of the database, UPLL, the
    drivers and the receivers of notifications are the environment: every call
    to them is recorded with its answer, and what is answered may depend on all
    that was called before. *)

From S2P Require Import Prelude TcTypes TcMsgCommit DrvTxn.

Local Open Scope Z_scope.

(** ** Results *)

Definition UNC_RC_SUCCESS : Z := 0.
Definition UNC_RC_INTERNAL_ERR : Z := 4000.
Definition UNC_UPPL_RC_FAILURE : Z := 2001.
Definition UNC_UPPL_RC_ERR_NO_SUCH_INSTANCE : Z := 2015.
Definition UNC_UPPL_RC_ERR_DB_ACCESS : Z := 2018.
Definition UNC_UPPL_RC_ERR_LOGICAL_COMMUNICATION_FAILURE : Z := 2025.
Definition UNC_UPPL_RC_ERR_DB_UPDATE : Z := 2028.
Definition UNC_UPPL_RC_ERR_DB_GET : Z := 2029.
Definition UNC_UPPL_RC_ERR_FATAL_COPYDB_CANDID_RUNNING : Z := 2043.
Definition UNC_UPPL_RC_ERR_COPY_CANDID_TO_RUNNING : Z := 2044.
Definition UNC_UPPL_RC_ERR_COPY_RUNNING_TO_CANDID : Z := 2045.
Definition UNC_UPPL_RC_ERR_COPY_RUNNING_TO_START : Z := 2048.
Definition UNC_UPPL_RC_ERR_COPY_STARTUP_TO_CANDID : Z := 2049.
Definition UNC_UPPL_RC_ERR_CLEAR_DB : Z := 2050.
Definition UNC_UPPL_RC_ERR_COMMIT_OPERATION_NOT_ALLOWED : Z := 2054.
Definition UNC_UPPL_RC_ERR_TRANSACTION_START : Z := 2056.
Definition UNC_UPPL_RC_ERR_INVALID_TRANSACT_START_REQ : Z := 2057.
Definition UNC_UPPL_RC_ERR_VOTE_INVALID_REQ : Z := 2060.

Definition ODBCM_RC_SUCCESS : Z := 0.
Definition ODBCM_RC_CONNECTION_ERROR : Z := 5.

(** ** Data *)

Inductive TransState :=
| TRANS_END
| TRANS_START
| TRANS_START_SUCCESS
| VOTE_BEGIN
| VOTE_WAIT_DRIVER_RESULT
| VOTE_SUCCESS
| GLOBAL_COMMIT_BEGIN
| GLOBAL_COMMIT_WAIT_DRIVER_RESULT
| GLOBAL_COMMIT_DRIVER_RESULT
| GLOBAL_COMMIT_SUCCESS.

(** The tables that take part in a commit. *)
Inductive Kt := KtController | KtDomain | KtBoundary.
Inductive CsRowStatus := CREATED | UPDATED | DELETED | APPLIED.

#[export] Instance TransState_eq_dec : EqDecision TransState.
Proof. solve_decision. Defined.
#[export] Instance Kt_eq_dec : EqDecision Kt.
Proof. solve_decision. Defined.
#[export] Instance CsRowStatus_eq_dec : EqDecision CsRowStatus.
Proof. solve_decision. Defined.

(** The names that make up a key: those of a controller, of a controller and a
    domain, or of a boundary. *)
Definition Key := list string.
Definition ctr_of (k : Key) : string := default ""%string (head k).

(** A row: the type of a controller, and the other columns. *)
Record Val := mkVal { val_type : Z; val_data : string }.
(** The columns of the version of the last commit. *)
Record Ver := mkVer { commit_number : Z; commit_date : Z; commit_application : string }.

(** A value that a notification carries; a boundary that was created is
    notified with a variable that was never set. *)
Inductive NVal := NNull | NVal_ (v : Val) | NUnset.

(** Keys that a transaction has found in a table. *)
Record Rows := mkRows { created : list Key; updated : list Key; deleted : list Key }.

(** The members of [TransactionRequest], and the state of the transaction. *)
Record Txn := mkTxn {
  trans_state_ : TransState;
  controllers : Rows;
  domains : Rows;
  boundaries : Rows;
  controller_type_map : gmap string Z;
  controller_old_upd_val : gmap string (Val * Ver);
  controller_old_del_val : gmap string (Val * Ver)
}.

Inductive Event :=
| ERows (kt : Kt) (rs : CsRowStatus) (r : Z * list Key)
| EExists (kt : Kt) (k : Key) (rc : Z)
| EType (dt : Z) (ctr : string) (r : option Z)
| ERead (kt : Kt) (dt : Z) (k : Key) (r : Val + Z)
| EReadAll (dt : Z) (r : Z * list (string * Val))
| EVer (ctr : string) (r : option Ver)
| EUpdateVer (dt : Z) (ctr : string) (v : Ver) (rc : Z)
| ECommitAll (rc : Z)
| EClearOne (dt : Z) (ctr : string) (rc : Z)
| ECopy (src dst : Z) (rc : Z)
| EClear (dt : Z) (rc : Z)
| EWriteInfo (ctr : string) (code : Z)
| ERemoveAlarm (ctr : string) (category : string)
| EDelTaskq (ctr : string)
| ECreateTaskq (ctr : string)
| EOperStatus (kt : Kt) (k : Key)
| ENotify (op : Z) (kt : Kt) (k : Key) (old new : NVal)
| EUpll (dt op : Z) (ctr : string) (v : option Val) (rc : Z)
| ESession (ctrtype : Z) (rc : Z)
| EDriver (ctrtype op : Z) (ctr : string) (new old : option (Val * Ver)) (rc : Z)
| EOpen (opened : bool).

Implicit Types (tr : list Event) (kt : Kt) (rs : CsRowStatus) (k : Key) (ctr : string) (dt op rc : Z) (v : Val).

(** What the environment answers after a sequence of calls, the latest first. *)
Record Env := mkEnv {
  fini_invoked : list Event -> bool;
  standby : list Event -> bool;
  db_opened : list Event -> bool;
  modified_rows : list Event -> Kt -> CsRowStatus -> Z * list Key;
  key_exists : list Event -> Kt -> Key -> Z;                 (* in the running configuration *)
  ctr_type : list Event -> Z -> string -> option Z;
  read : list Event -> Kt -> Z -> Key -> Val + Z;
  read_all : list Event -> Z -> Z * list (string * Val);
  commit_ver : list Event -> string -> option Ver;
  update_ver : list Event -> Z -> string -> Z;
  commit_all : list Event -> Z;
  clear_one : list Event -> Z -> string -> Z;
  copy_db : list Event -> Z -> Z -> Z;
  clear_db : list Event -> Z -> Z;
  upll_rc : list Event -> Z;
  session_rc : list Event -> Z -> Z;                         (* [IPCClientDriverHandler] *)
  outputs_added : list Event -> bool;                        (* [err == 0] *)
  driver_rc : list Event -> Z;
  has_driver_name : Z -> bool;                               (* [GetDriverName] *)
  coexists : bool;                                           (* [UNC_COEXISTS_MODE] *)
  startup_valid : bool
}.

(** ** Programs

    A run returns, is undefined, or has not ended with the fuel it was given. *)

Inductive Out (A : Type) := Ret (a : A) (s : Txn) (tr : list Event) | Wild | More.
Arguments Ret {A} a s tr.
Arguments Wild {A}.
Arguments More {A}.

Definition Ux (A : Type) : Type := Txn -> list Event -> Out A.

Definition uret {A} (a : A) : Ux A := fun s tr => Ret a s tr.
Definition ubind {A B} (p : Ux A) (f : A -> Ux B) : Ux B := fun s tr =>
  match p s tr with Ret a s' tr' => f a s' tr' | Wild => Wild | More => More end.
Definition uget : Ux Txn := fun s tr => Ret s s tr.
Definition uset (f : Txn -> Txn) : Ux unit := fun s tr => Ret tt (f s) tr.
Definition uask {A} (q : list Event -> A) : Ux A := fun s tr => Ret (q tr) s tr.
Definition ulog (e : Event) : Ux unit := fun s tr => Ret tt s (e :: tr).
Definition uwild {A} : Ux A := fun _ _ => Wild.
Definition umore {A} : Ux A := fun _ _ => More.

Declare Scope uppl_scope.
Notation "'let^' x := p 'in' f" := (ubind p (fun x => f))
  (at level 200, x name, p at level 100, f at level 200, right associativity) : uppl_scope.
Notation "'do^' p 'in' f" := (ubind p (fun _ => f))
  (at level 200, p at level 100, f at level 200, right associativity) : uppl_scope.
Local Open Scope uppl_scope.

(** A question to the environment, recorded with its answer. *)
Definition query {A} (q : list Event -> A) (e : A -> Event) : Ux A :=
  let^ a := uask q in do^ ulog (e a) in uret a.

Definition set_trans_state (t : TransState) : Ux unit :=
  uset (fun s => mkTxn t (controllers s) (domains s) (boundaries s) (controller_type_map s) (controller_old_upd_val s)
                   (controller_old_del_val s)).
Definition rows_of kt (s : Txn) : Rows :=
  match kt with KtController => controllers s | KtDomain => domains s | KtBoundary => boundaries s end.
Definition set_rows kt (f : Rows -> Rows) : Ux unit :=
  uset (fun s =>
    match kt with
    | KtController => mkTxn (trans_state_ s) (f (controllers s)) (domains s) (boundaries s) (controller_type_map s)
                        (controller_old_upd_val s) (controller_old_del_val s)
    | KtDomain => mkTxn (trans_state_ s) (controllers s) (f (domains s)) (boundaries s) (controller_type_map s)
                    (controller_old_upd_val s) (controller_old_del_val s)
    | KtBoundary => mkTxn (trans_state_ s) (controllers s) (domains s) (f (boundaries s)) (controller_type_map s)
                      (controller_old_upd_val s) (controller_old_del_val s)
    end).
Definition push_created k (r : Rows) : Rows := mkRows (created r ++ [k]) (updated r) (deleted r).
Definition push_updated k (r : Rows) : Rows := mkRows (created r) (updated r ++ [k]) (deleted r).
Definition push_deleted k (r : Rows) : Rows := mkRows (created r) (updated r) (deleted r ++ [k]).
Definition keep_updated (l : list Key) (r : Rows) : Rows := mkRows (created r) l (deleted r).
Definition keep_deleted (l : list Key) (r : Rows) : Rows := mkRows (created r) (updated r) l.
Definition no_rows : Rows := mkRows [] [] [].
Definition set_type ctr (t : Z) : Ux unit :=
  uset (fun s => mkTxn (trans_state_ s) (controllers s) (domains s) (boundaries s) (<[ctr := t]> (controller_type_map s))
                   (controller_old_upd_val s) (controller_old_del_val s)).
Definition set_old_upd ctr (w : Val * Ver) : Ux unit :=
  uset (fun s => mkTxn (trans_state_ s) (controllers s) (domains s) (boundaries s) (controller_type_map s)
                   (<[ctr := w]> (controller_old_upd_val s)) (controller_old_del_val s)).
Definition set_old_del ctr (w : Val * Ver) : Ux unit :=
  uset (fun s => mkTxn (trans_state_ s) (controllers s) (domains s) (boundaries s) (controller_type_map s)
                   (controller_old_upd_val s) (<[ctr := w]> (controller_old_del_val s))).
Definition clear_old : Ux unit :=
  uset (fun s => mkTxn (trans_state_ s) (controllers s) (domains s) (boundaries s) (controller_type_map s) ∅ ∅).

(** The old values are not among the maps that are cleared. *)
Definition ClearMaps : Ux unit :=
  uset (fun s => mkTxn (trans_state_ s) no_rows no_rows no_rows ∅ (controller_old_upd_val s) (controller_old_del_val s)).

Definition ok rc : bool := rc ==? UNC_RC_SUCCESS.

Section Handlers.

Context (E : Env) (fuel : nat).

(** *** The environment *)

Definition WriteInfo ctr : Ux unit := ulog (EWriteInfo ctr UNC_RC_INTERNAL_ERR).
Definition GetModifiedRows kt rs : Ux (Z * list Key) := query (fun tr => modified_rows E tr kt rs) (ERows kt rs).
Definition IsKeyExists kt k : Ux Z := query (fun tr => key_exists E tr kt k) (EExists kt k).
Definition get_controller_type dt ctr : Ux (option Z) := query (fun tr => ctr_type E tr dt ctr) (EType dt ctr).
Definition ReadInternal kt dt k : Ux (Val + Z) := query (fun tr => read E tr kt dt k) (ERead kt dt k).
Definition ReadAll dt : Ux (Z * list (string * Val)) := query (fun tr => read_all E tr dt) (EReadAll dt).
Definition ReadCtrCommitVerFromDB ctr : Ux (option Ver) := query (fun tr => commit_ver E tr ctr) (EVer ctr).
Definition UpdateKeyInstance dt ctr (w : Ver) : Ux Z := query (fun tr => update_ver E tr dt ctr) (EUpdateVer dt ctr w).
Definition CommitAllConfiguration : Ux Z := query (commit_all E) ECommitAll.
Definition ClearOneInstance dt ctr : Ux Z := query (fun tr => clear_one E tr dt ctr) (EClearOne dt ctr).
Definition CopyDatabase (src dst : Z) : Ux Z := query (fun tr => copy_db E tr src dst) (ECopy src dst).
Definition ClearDatabase dt : Ux Z := query (fun tr => clear_db E tr dt) (EClear dt).
Definition SendUpdatedControllerInfoToUPLL dt op ctr (v : option Val) : Ux Z := query (upll_rc E) (EUpll dt op ctr v).
Definition driver_session (ctrtype : Z) : Ux Z := query (fun tr => session_rc E tr ctrtype) (ESession ctrtype).
Definition SendReqAndGetResp (ctrtype : Z) op ctr (new old : option (Val * Ver)) : Ux Z :=
  query (driver_rc E) (EDriver ctrtype op ctr new old).
Definition notify op kt k (old new : NVal) : Ux unit := ulog (ENotify op kt k old new).

(** *** The start of a transaction *)

(** The loop over modified controllers. *)
Fixpoint modified_controllers rs (keys : list Key) : Ux Z :=
  match keys with
  | [] => uret UNC_RC_SUCCESS
  | k :: rest =>
      let name := ctr_of k in
      let^ exist := IsKeyExists KtController k in
      if exist ==? UNC_UPPL_RC_ERR_DB_ACCESS then do^ WriteInfo name in uret UNC_UPPL_RC_ERR_TRANSACTION_START
      else
        let recreated := (rs ==? CREATED) && ok exist in
        do^ (match rs with
             | CREATED =>
                 do^ set_rows KtController (push_created k) in
                 if ok exist then set_rows KtController (push_deleted k) else uret tt
             | UPDATED => set_rows KtController (push_updated k)
             | DELETED => if ok exist then set_rows KtController (push_deleted k) else uret tt
             | APPLIED => uret tt
             end) in
        let^ type := get_controller_type UNC_DT_CANDIDATE name in
        match type with
        | None => do^ WriteInfo name in uret UNC_UPPL_RC_ERR_TRANSACTION_START
        | Some t =>
            do^ (if rs ==? DELETED then set_type name t else uret tt) in
            if recreated then
              let^ type := get_controller_type UNC_DT_RUNNING name in
              match type with
              | None => do^ WriteInfo name in uret UNC_UPPL_RC_ERR_TRANSACTION_START
              | Some t => do^ set_type name t in modified_controllers rs rest
              end
            else modified_controllers rs rest
        end
  end.
Definition rows_failed rc : bool := (rc ==? UNC_UPPL_RC_ERR_DB_ACCESS) || (rc ==? UNC_UPPL_RC_ERR_DB_GET).
Definition GetModifiedController rs : Ux Z :=
  let^ r := GetModifiedRows KtController rs in
  if rows_failed r.1 then do^ WriteInfo "" in uret UNC_UPPL_RC_ERR_TRANSACTION_START
  else modified_controllers rs r.2.

(** The loop over modified domains and that over modified boundaries; [info] is
    the controller that an error is reported for. *)
Fixpoint modified_keys kt rs (info : Key -> string) (keys : list Key) : Ux Z :=
  match keys with
  | [] => uret UNC_RC_SUCCESS
  | k :: rest =>
      match rs with
      | CREATED => do^ set_rows kt (push_created k) in modified_keys kt rs info rest
      | UPDATED => do^ set_rows kt (push_updated k) in modified_keys kt rs info rest
      | DELETED =>
          let^ exist := IsKeyExists kt k in
          if ok exist then do^ set_rows kt (push_deleted k) in modified_keys kt rs info rest
          else if exist ==? UNC_UPPL_RC_ERR_DB_ACCESS then
            do^ WriteInfo (info k) in uret UNC_UPPL_RC_ERR_TRANSACTION_START
          else modified_keys kt rs info rest
      | APPLIED => modified_keys kt rs info rest
      end
  end.
Definition GetModifiedDomain rs : Ux Z :=
  let^ r := GetModifiedRows KtDomain rs in
  if rows_failed r.1 then do^ WriteInfo "" in uret r.1 else modified_keys KtDomain rs ctr_of r.2.
Definition GetModifiedBoundary rs : Ux Z :=
  let^ r := GetModifiedRows KtBoundary rs in
  if rows_failed r.1 then do^ WriteInfo "" in uret UNC_UPPL_RC_ERR_TRANSACTION_START
  else modified_keys KtBoundary rs (fun _ => ""%string) r.2.

Definition GetModifiedConfiguration rs : Ux Z :=
  let^ rc := GetModifiedController rs in
  if negb (ok rc) then uret rc
  else
    let^ rc := GetModifiedDomain rs in
    if negb (ok rc) then uret rc
    else
      let^ rc := GetModifiedBoundary rs in
      if negb (ok rc) then uret rc else uret UNC_RC_SUCCESS.

Definition start_failed : Ux Z := do^ set_trans_state TRANS_END in uret UNC_UPPL_RC_ERR_TRANSACTION_START.
Definition StartTransaction : Ux Z :=
  let^ s := uget in
  if trans_state_ s ==? TRANS_END then
    do^ set_trans_state TRANS_START in
    do^ ClearMaps in
    let^ rc := GetModifiedConfiguration CREATED in
    if negb (ok rc) then start_failed
    else
      let^ rc := GetModifiedConfiguration UPDATED in
      if negb (ok rc) then start_failed
      else
        let^ rc := GetModifiedConfiguration DELETED in
        if negb (ok rc) then start_failed
        else do^ set_trans_state TRANS_START_SUCCESS in uret UNC_RC_SUCCESS
  else do^ set_trans_state TRANS_END in uret UNC_UPPL_RC_ERR_INVALID_TRANSACT_START_REQ.

(** *** Votes and the global commit *)

Definition HandleVoteRequest : Ux Z :=
  let^ s := uget in
  if trans_state_ s ==? TRANS_START_SUCCESS then
    do^ set_trans_state VOTE_BEGIN in
    do^ set_trans_state VOTE_WAIT_DRIVER_RESULT in uret UNC_RC_SUCCESS
  else uret UNC_UPPL_RC_ERR_VOTE_INVALID_REQ.

Definition HandleGlobalCommitRequest : Ux Z :=
  let^ s := uget in
  if trans_state_ s ==? VOTE_SUCCESS then
    do^ set_trans_state GLOBAL_COMMIT_BEGIN in
    do^ set_trans_state GLOBAL_COMMIT_WAIT_DRIVER_RESULT in uret UNC_RC_SUCCESS
  else uret UNC_UPPL_RC_ERR_COMMIT_OPERATION_NOT_ALLOWED.

Definition no_version : Ver := mkVer 0 0 "".

(** After a failover: the versions of all controllers are reset. *)
Fixpoint reset_versions (ctrs : list (string * Val)) : Ux Z :=
  match ctrs with
  | [] => uret UNC_RC_SUCCESS
  | (ctr, _) :: rest =>
      let^ rc := UpdateKeyInstance UNC_DT_RUNNING ctr no_version in
      if negb (ok rc) then uret rc else reset_versions rest
  end.
Definition failover_versions : Ux Z :=
  let^ r := ReadAll UNC_DT_RUNNING in
  if negb (ok r.1) && negb (r.1 ==? UNC_UPPL_RC_ERR_NO_SUCH_INSTANCE) then uret r.1 else reset_versions r.2.

(** The versions that the drivers report. *)
Fixpoint update_versions (results : list (string * Ver)) : Ux Z :=
  match results with
  | [] => uret UNC_RC_SUCCESS
  | (ctr, w) :: rest =>
      let^ rc := UpdateKeyInstance UNC_DT_CANDIDATE ctr w in
      if negb (ok rc) then
        do^ ClearMaps in
        uret (if rc ==? UNC_UPPL_RC_ERR_DB_ACCESS then rc else UNC_UPPL_RC_ERR_DB_UPDATE)
      else
        let^ rc := UpdateKeyInstance UNC_DT_RUNNING ctr w in
        if ok rc then update_versions rest
        else if rc ==? UNC_UPPL_RC_ERR_DB_ACCESS then do^ ClearMaps in uret rc
        else
          let^ s := uget in
          if existsb (fun k => ctr_of k ==? ctr) (created (controllers s)) then update_versions rest
          else do^ ClearMaps in uret UNC_UPPL_RC_ERR_DB_UPDATE
  end.

Definition is_empty (r : Rows) : bool :=
  match r with mkRows [] [] [] => true | _ => false end.

(** The loops over deleted and over updated controllers: a controller that is
    not in the running configuration is erased; where its version cannot be
    read the loop goes on with the same controller. *)
Fixpoint old_deleted (n : nat) (keys : list Key) : Ux (list Key) :=
  match n, keys with
  | _, [] => uret []
  | O, _ => umore
  | S n, k :: rest =>
      let^ r := ReadInternal KtController UNC_DT_RUNNING k in
      match r with
      | inr _ => old_deleted n rest
      | inl v =>
          let^ w := ReadCtrCommitVerFromDB (ctr_of k) in
          match w with
          | None => old_deleted n keys
          | Some w =>
              do^ set_old_del (ctr_of k) (v, w) in
              let^ kept := old_deleted n rest in uret (k :: kept)
          end
      end
  end.
Fixpoint old_updated (n : nat) (keys : list Key) : Ux (list Key * list Val) :=
  match n, keys with
  | _, [] => uret ([], [])
  | O, _ => umore
  | S n, k :: rest =>
      let^ r := ReadInternal KtController UNC_DT_RUNNING k in
      match r with
      | inr _ => old_updated n rest
      | inl v =>
          let^ w := ReadCtrCommitVerFromDB (ctr_of k) in
          match w with
          | None => old_updated n keys
          | Some w =>
              do^ set_old_upd (ctr_of k) (v, w) in
              let^ r := old_updated n rest in uret (k :: r.1, v :: r.2)
          end
      end
  end.
(** Updated domains and boundaries. *)
Fixpoint old_values kt (keys : list Key) : Ux (list Key * list Val) :=
  match keys with
  | [] => uret ([], [])
  | k :: rest =>
      let^ r := ReadInternal kt UNC_DT_RUNNING k in
      match r with
      | inr _ => old_values kt rest
      | inl v => let^ r := old_values kt rest in uret (k :: r.1, v :: r.2)
      end
  end.

Definition forget_controller ctr : Ux unit :=
  do^ ulog (ERemoveAlarm ctr "1") in do^ ulog (ERemoveAlarm ctr "2") in do^ ulog (ERemoveAlarm ctr "3") in
  ulog (EDelTaskq ctr).
Fixpoint clear_deleted (keys : list Key) : Ux Z :=
  match keys with
  | [] => uret UNC_RC_SUCCESS
  | k :: rest =>
      let^ rc := ClearOneInstance UNC_DT_STATE (ctr_of k) in
      if negb (rc ==? ODBCM_RC_SUCCESS) then do^ WriteInfo (ctr_of k) in uret UNC_UPPL_RC_ERR_CLEAR_DB
      else
        let^ rc := ClearOneInstance UNC_DT_IMPORT (ctr_of k) in
        if negb (rc ==? ODBCM_RC_SUCCESS) then do^ WriteInfo (ctr_of k) in uret UNC_UPPL_RC_ERR_CLEAR_DB
        else do^ forget_controller (ctr_of k) in clear_deleted rest
  end.

(** The loop over created boundaries, which goes on with the same boundary if
    it cannot be read. *)
Fixpoint boundary_status (n : nat) (keys : list Key) : Ux unit :=
  match n, keys with
  | _, [] => uret tt
  | O, _ => umore
  | S n, k :: rest =>
      let^ r := ReadInternal KtBoundary UNC_DT_RUNNING k in
      match r with
      | inr _ => boundary_status n keys
      | inl _ => do^ ulog (EOperStatus KtBoundary k) in boundary_status n rest
      end
  end.

(** *** Notifications *)

Fixpoint notify_deleted kt (oper : bool) (keys : list Key) : Ux unit :=
  match keys with
  | [] => uret tt
  | k :: rest =>
      do^ (if oper then ulog (EOperStatus kt k) else uret tt) in
      do^ notify UNC_OP_DELETE kt k NNull NNull in notify_deleted kt oper rest
  end.
(** A row that cannot be read, but for one that does not exist, is an error. *)
Fixpoint notify_created kt (oper : bool) (keys : list Key) : Ux Z :=
  match keys with
  | [] => uret UNC_RC_SUCCESS
  | k :: rest =>
      do^ (if oper then ulog (EOperStatus kt k) else uret tt) in
      let^ r := ReadInternal kt UNC_DT_CANDIDATE k in
      match r with
      | inl v =>
          do^ notify UNC_OP_CREATE kt k NNull (if kt ==? KtBoundary then NUnset else NVal_ v) in notify_created kt oper rest
      | inr rc =>
          if rc ==? UNC_UPPL_RC_ERR_NO_SUCH_INSTANCE then notify_created kt oper rest
          else uret UNC_UPPL_RC_ERR_COMMIT_OPERATION_NOT_ALLOWED
      end
  end.
(** The loop runs to the end of the old values. *)
Fixpoint notify_updated kt (keys : list Key) (olds : list Val) : Ux Z :=
  match olds, keys with
  | [], _ => uret UNC_RC_SUCCESS
  | _ :: _, [] => uwild
  | old :: olds, k :: rest =>
      let^ r := ReadInternal kt UNC_DT_CANDIDATE k in
      match r with
      | inl v => do^ notify UNC_OP_UPDATE kt k (NVal_ old) (NVal_ v) in notify_updated kt rest olds
      | inr rc =>
          if rc ==? UNC_UPPL_RC_ERR_NO_SUCH_INSTANCE then notify_updated kt rest olds
          else uret UNC_UPPL_RC_ERR_COMMIT_OPERATION_NOT_ALLOWED
      end
  end.

Definition SendControllerNotification (olds : list Val) : Ux Z :=
  let^ s := uget in
  do^ notify_deleted KtController false (deleted (controllers s)) in
  let^ rc := notify_created KtController false (created (controllers s)) in
  if negb (ok rc) then uret rc else notify_updated KtController (updated (controllers s)) olds.
Definition SendDomainNotification (olds : list Val) : Ux Z :=
  let^ s := uget in
  do^ notify_deleted KtDomain true (deleted (domains s)) in
  let^ rc := notify_updated KtDomain (updated (domains s)) olds in
  if negb (ok rc) then uret rc else notify_created KtDomain true (created (domains s)).
Definition SendBoundaryNotification (olds : list Val) : Ux Z :=
  let^ s := uget in
  do^ notify_deleted KtBoundary false (deleted (boundaries s)) in
  let^ rc := notify_created KtBoundary false (created (boundaries s)) in
  if negb (ok rc) then uret rc else notify_updated KtBoundary (updated (boundaries s)) olds.

(** *** The results of the drivers *)

(** After the versions: the part of [HandleDriverResult] that commits. *)
Definition commit_modified : Ux Z :=
  let^ s := uget in
  let^ kept := old_deleted fuel (deleted (controllers s)) in
  do^ set_rows KtController (keep_deleted kept) in
  let^ ctr_old := old_updated fuel (updated (controllers s)) in
  do^ set_rows KtController (keep_updated ctr_old.1) in
  let^ dom_old := old_values KtDomain (updated (domains s)) in
  do^ set_rows KtDomain (keep_updated dom_old.1) in
  let^ bnd_old := old_values KtBoundary (updated (boundaries s)) in
  do^ set_rows KtBoundary (keep_updated bnd_old.1) in
  let^ rc := CommitAllConfiguration in
  if negb (rc ==? ODBCM_RC_SUCCESS) then uret UNC_UPPL_RC_ERR_FATAL_COPYDB_CANDID_RUNNING
  else
    let^ rc := clear_deleted kept in
    if negb (ok rc) then uret rc
    else
      do^ set_trans_state GLOBAL_COMMIT_SUCCESS in
      do^ boundary_status fuel (created (boundaries s)) in
      let^ rc := SendControllerNotification ctr_old.2 in
      if negb (ok rc) then uret rc
      else
        let^ rc := SendDomainNotification dom_old.2 in
        if negb (ok rc) then uret rc
        else
          let^ rc := SendBoundaryNotification bnd_old.2 in
          if negb (ok rc) then uret rc else uret UNC_RC_SUCCESS.
(** The part for the global commit. *)
Definition global_commit_result (session_id config_id : Z) (results : list (string * Ver)) : Ux Z :=
  do^ set_trans_state GLOBAL_COMMIT_DRIVER_RESULT in
  let^ rc := if (length results =? 0)%nat && (session_id ==? 0) && (config_id ==? 0) then failover_versions
             else uret UNC_RC_SUCCESS in
  if negb (ok rc) then uret rc
  else
    let^ rc := update_versions results in
    if negb (ok rc) then uret rc
    else
      let^ s := uget in
      if is_empty (controllers s) && is_empty (domains s) && is_empty (boundaries s) then
        do^ set_trans_state GLOBAL_COMMIT_SUCCESS in uret UNC_RC_SUCCESS
      else commit_modified.
Definition HandleDriverResult (session_id config_id phase : Z) (results : list (string * Ver)) : Ux Z :=
  let^ s := uget in
  if (phase ==? TC_COMMIT_VOTE_PHASE) && negb (trans_state_ s ==? VOTE_WAIT_DRIVER_RESULT) then
    uret UNC_UPPL_RC_ERR_VOTE_INVALID_REQ
  else
    do^ (if phase ==? TC_COMMIT_VOTE_PHASE then set_trans_state VOTE_SUCCESS else uret tt) in
    if (phase ==? TC_COMMIT_GLOBAL_COMMIT_PHASE) && (trans_state_ s ==? GLOBAL_COMMIT_WAIT_DRIVER_RESULT) then
      global_commit_result session_id config_id results
    else if negb (phase ==? TC_COMMIT_VOTE_PHASE) && negb (phase ==? TC_COMMIT_GLOBAL_COMMIT_PHASE) then
      uret UNC_UPPL_RC_ERR_COMMIT_OPERATION_NOT_ALLOWED
    else uret UNC_RC_SUCCESS.

Definition AbortTransaction : Ux Z :=
  do^ ClearMaps in do^ set_trans_state TRANS_END in uret UNC_RC_SUCCESS.

(** *** The end of a transaction *)

Definition driver_types : list Z := [UNC_CT_PFC; UNC_CT_VNP; UNC_CT_POLC; UNC_CT_ODC].
Fixpoint open_sessions (types : list Z) : Ux Z :=
  match types with
  | [] => uret UNC_RC_SUCCESS
  | t :: rest => let^ rc := driver_session t in if negb (ok rc) then uret rc else open_sessions rest
  end.

Fixpoint tell_deleted (audit_flag : bool) (keys : list Key) : Ux unit :=
  match keys with
  | [] => uret tt
  | k :: rest =>
      let name := ctr_of k in
      do^ SendUpdatedControllerInfoToUPLL UNC_DT_RUNNING UNC_OP_DELETE name None in
      let^ s := uget in
      match controller_type_map s !! name with
      | Some t =>
          if has_driver_name E t && bool_decide (t ∈ driver_types) && audit_flag then
            do^ SendReqAndGetResp t UNC_OP_DELETE name None (controller_old_del_val s !! name) in
            do^ forget_controller name in tell_deleted audit_flag rest
          else tell_deleted audit_flag rest
      | None => tell_deleted audit_flag rest
      end
  end.

Fixpoint tell_modified op (audit_flag : bool) (keys : list Key) : Ux unit :=
  match keys with
  | [] => uret tt
  | k :: rest =>
      let name := ctr_of k in
      let^ r := ReadInternal KtController UNC_DT_CANDIDATE k in
      match r with
      | inr _ => tell_modified op audit_flag rest
      | inl v =>
          do^ SendUpdatedControllerInfoToUPLL UNC_DT_RUNNING op name (Some v) in
          if negb (has_driver_name E (val_type v)) then tell_modified op audit_flag rest
          else
            let^ w := ReadCtrCommitVerFromDB name in
            match w with
            | None => tell_modified op audit_flag rest
            | Some w =>
                if negb (bool_decide (val_type v ∈ driver_types)) then tell_modified op audit_flag rest
                else
                  let^ s := uget in
                  let old := if op ==? UNC_OP_UPDATE then controller_old_upd_val s !! name else None in
                  let^ added := uask (outputs_added E) in
                  let^ rc := if audit_flag then SendReqAndGetResp (val_type v) op name (Some (v, w)) old
                             else uret UNC_RC_SUCCESS in
                  do^ (if added && ok rc && (op ==? UNC_OP_CREATE) then ulog (ECreateTaskq name) else uret tt) in
                  tell_modified op audit_flag rest
            end
      end
  end.
Definition SendControllerInfo op (audit_flag : bool) : Ux unit :=
  let^ rc := open_sessions driver_types in
  if negb (ok rc) then uret tt
  else
    let^ s := uget in
    tell_modified op audit_flag
      (if op ==? UNC_OP_CREATE then created (controllers s)
       else if op ==? UNC_OP_UPDATE then updated (controllers s) else []).

Definition EndTransaction (trans_res : TcTransEndResult) (audit_flag : bool) : Ux Z :=
  match trans_res with
  | TRANS_END_FAILURE => do^ set_trans_state TRANS_END in do^ ClearMaps in uret UNC_RC_SUCCESS
  | TRANS_END_SUCCESS =>
      let^ s := uget in
      if is_empty (controllers s) then do^ set_trans_state TRANS_END in uret UNC_RC_SUCCESS
      else
        let^ rc := open_sessions driver_types in
        if negb (ok rc) then uret rc
        else
          do^ tell_deleted audit_flag (deleted (controllers s)) in
          do^ SendControllerInfo UNC_OP_CREATE audit_flag in
          do^ SendControllerInfo UNC_OP_UPDATE audit_flag in
          do^ set_trans_state TRANS_END in
          do^ clear_old in
          uret UNC_RC_SUCCESS
  end.

(** *** The databases *)

(** What a failure of the database is reported as. *)
Definition db_code (status code : Z) : Z :=
  if status ==? ODBCM_RC_CONNECTION_ERROR then UNC_UPPL_RC_ERR_DB_ACCESS else code.

Definition LoadAndCommitStartup : Ux Z :=
  let^ rc :=
    if coexists E then
      let^ st := ClearDatabase UNC_DT_CANDIDATE in
      uret (if st ==? ODBCM_RC_SUCCESS then UNC_RC_SUCCESS else UNC_UPPL_RC_ERR_CLEAR_DB)
    else
      let^ st := CopyDatabase UNC_DT_STARTUP UNC_DT_CANDIDATE in
      uret (if st ==? ODBCM_RC_SUCCESS then UNC_RC_SUCCESS else db_code st UNC_UPPL_RC_ERR_COPY_STARTUP_TO_CANDID) in
  if negb (ok rc) then uret rc
  else
    let^ st := ClearDatabase UNC_DT_RUNNING in
    if negb (st ==? ODBCM_RC_SUCCESS) then uret UNC_UPPL_RC_ERR_CLEAR_DB
    else
      let^ st := ClearDatabase UNC_DT_IMPORT in
      if negb (st ==? ODBCM_RC_SUCCESS) then uret UNC_UPPL_RC_ERR_CLEAR_DB
      else
        let^ rc :=
          if coexists E then uret UNC_RC_SUCCESS
          else
            let^ st := CopyDatabase UNC_DT_CANDIDATE UNC_DT_RUNNING in
            uret (if st ==? ODBCM_RC_SUCCESS then UNC_RC_SUCCESS else db_code st UNC_UPPL_RC_ERR_COPY_CANDID_TO_RUNNING) in
        if negb (ok rc) then uret rc
        else
          let^ st := ClearDatabase UNC_DT_STATE in
          uret (if st ==? ODBCM_RC_SUCCESS then UNC_RC_SUCCESS else UNC_UPPL_RC_ERR_CLEAR_DB).

Definition CopyRunningtoCandidate : Ux Z :=
  let^ st := CopyDatabase UNC_DT_RUNNING UNC_DT_CANDIDATE in
  uret (if st ==? ODBCM_RC_SUCCESS then UNC_RC_SUCCESS else db_code st UNC_UPPL_RC_ERR_COPY_RUNNING_TO_CANDID).
Definition ClearStartUpDb : Ux Z :=
  let^ st := ClearDatabase UNC_DT_STARTUP in
  uret (if st ==? ODBCM_RC_SUCCESS then UNC_RC_SUCCESS else db_code st UNC_UPPL_RC_ERR_CLEAR_DB).
Definition SaveRunningToStartUp : Ux Z :=
  let^ st := CopyDatabase UNC_DT_RUNNING UNC_DT_STARTUP in
  uret (if st ==? ODBCM_RC_SUCCESS then UNC_RC_SUCCESS else db_code st UNC_UPPL_RC_ERR_COPY_RUNNING_TO_START).

(** UPLL is told to undo what was done to the candidate configuration. *)
Fixpoint tell_undone (keys : list Key) : Ux Z :=
  match keys with
  | [] => uret UNC_RC_SUCCESS
  | k :: rest =>
      let^ rc := SendUpdatedControllerInfoToUPLL UNC_DT_CANDIDATE UNC_OP_DELETE (ctr_of k) None in
      if negb (ok rc) then uret UNC_UPPL_RC_ERR_LOGICAL_COMMUNICATION_FAILURE else tell_undone rest
  end.
Definition SendDeletedControllerToLogical : Ux Z :=
  let^ r := GetModifiedRows KtController CREATED in
  if negb (ok r.1) then uret UNC_RC_SUCCESS else tell_undone r.2.
Fixpoint tell_running op (keys : list Key) : Ux Z :=
  match keys with
  | [] => uret UNC_RC_SUCCESS
  | k :: rest =>
      let^ r := ReadInternal KtController UNC_DT_RUNNING k in
      match r with
      | inr _ => tell_running op rest
      | inl v =>
          let^ rc := SendUpdatedControllerInfoToUPLL UNC_DT_CANDIDATE op (ctr_of k) (Some v) in
          if negb (ok rc) then uret UNC_UPPL_RC_ERR_LOGICAL_COMMUNICATION_FAILURE else tell_running op rest
      end
  end.
Definition SendCreatedControllerToLogical : Ux Z :=
  let^ r := GetModifiedRows KtController DELETED in
  if negb (ok r.1) then uret UNC_RC_SUCCESS else tell_running UNC_OP_CREATE r.2.
Definition SendUpdatedControllerToLogical : Ux Z :=
  let^ r := GetModifiedRows KtController UPDATED in
  if negb (ok r.1) then uret UNC_RC_SUCCESS else tell_running UNC_OP_UPDATE r.2.
Definition SendAppliedControllerToLogical : Ux Z :=
  let^ r := GetModifiedRows KtController APPLIED in
  if negb (ok r.1) then uret UNC_RC_SUCCESS else tell_running UNC_OP_CREATE r.2.

(** The result of the copy is overwritten. *)
Definition AbortCandidateDb : Ux Z :=
  let^ rc := SendDeletedControllerToLogical in
  if negb (ok rc) then uret rc
  else
    let^ rc := SendCreatedControllerToLogical in
    if negb (ok rc) then uret rc
    else
      let^ rc := SendUpdatedControllerToLogical in
      if negb (ok rc) then uret rc
      else
        do^ CopyDatabase UNC_DT_RUNNING UNC_DT_CANDIDATE in
        SendAppliedControllerToLogical.

(** *** The handlers of the coordinator's calls *)

Definition tc_ret rc : Z := if ok rc then TC_SUCCESS else TC_FAILURE.
(** [PHY_FINI_IPC_LOCK], and the test of the state of the system. *)
Definition in_active (body : Ux Z) : Ux Z :=
  let^ fini := uask (fini_invoked E) in
  if fini : bool then uret TC_SUCCESS
  else
    let^ sby := uask (standby E) in
    if sby : bool then uret TC_FAILURE else body.
(** [OPEN_DB_CONNECTION_TC_REQUEST]. *)
Definition with_db (body : Ux Z) : Ux Z :=
  let^ opened := query (db_opened E) EOpen in
  if opened : bool then body else do^ WriteInfo "" in uret TC_FAILURE.

Definition HandleCommitTransactionStart : Ux Z :=
  in_active (with_db (let^ rc := StartTransaction in uret (tc_ret rc))).
Definition HandleCommitTransactionEnd (trans_res : TcTransEndResult) : Ux Z :=
  in_active (with_db (let^ rc := EndTransaction trans_res true in uret (tc_ret rc))).
Definition HandleCommitVoteRequest : Ux Z := in_active (let^ rc := HandleVoteRequest in uret (tc_ret rc)).
Definition HandleCommitGlobalCommit : Ux Z := in_active (let^ rc := HandleGlobalCommitRequest in uret (tc_ret rc)).
Definition HandleCommitDriverResult (session_id config_id phase : Z) (results : list (string * Ver)) : Ux Z :=
  in_active (with_db (let^ rc := HandleDriverResult session_id config_id phase results in uret (tc_ret rc))).
Definition HandleCommitGlobalAbort : Ux Z := in_active (let^ rc := AbortTransaction in uret (tc_ret rc)).
Definition HandleSaveConfiguration : Ux Z := in_active (with_db (let^ rc := SaveRunningToStartUp in uret (tc_ret rc))).
Definition HandleClearStartup : Ux Z := in_active (with_db (let^ rc := ClearStartUpDb in uret (tc_ret rc))).
(** The result is narrowed to [uint8_t]. *)
Definition HandleAbortCandidate : Ux Z :=
  in_active (with_db (let^ rc := AbortCandidateDb in uret (tc_ret (rc `mod` 256)))).
Definition HandleSetup : Ux Z :=
  in_active (with_db (
    if startup_valid E then let^ rc := LoadAndCommitStartup in uret (tc_ret rc)
    else do^ CopyRunningtoCandidate in uret TC_SUCCESS)).

Fixpoint tell_all dt (ctrs : list (string * Val)) (status : Z) : Ux Z :=
  match ctrs with
  | [] => uret status
  | (ctr, v) :: rest =>
      let^ rc := SendUpdatedControllerInfoToUPLL dt UNC_OP_CREATE ctr (Some v) in
      tell_all dt rest (if ok rc then status else rc)
  end.
Definition SendControllerInfoToUPLL dt : Ux Z :=
  let^ r := ReadAll dt in
  if negb (ok r.1) && negb (r.1 ==? UNC_UPPL_RC_ERR_NO_SUCH_INSTANCE) then uret TC_FAILURE
  else let^ rc := tell_all dt r.2 UNC_RC_SUCCESS in uret (tc_ret rc).

(** The phases of a commit, one after the other, up to the first that fails. *)
Fixpoint all_phases (phases : list (Ux Z)) : Ux Z :=
  match phases with
  | [] => uret TC_SUCCESS
  | p :: rest => let^ rc := p in if negb (ok rc) then uret TC_FAILURE else all_phases rest
  end.
Definition redo_phases : list (Ux Z) :=
  [StartTransaction; HandleVoteRequest; HandleDriverResult 0 0 TC_COMMIT_VOTE_PHASE []; HandleGlobalCommitRequest;
   HandleDriverResult 0 0 TC_COMMIT_GLOBAL_COMMIT_PHASE []; EndTransaction TRANS_END_SUCCESS false].
Definition tell_both (body : Ux Z) : Ux Z :=
  let^ st := SendControllerInfoToUPLL UNC_DT_CANDIDATE in
  if negb (st ==? TC_SUCCESS) then uret TC_FAILURE
  else
    let^ st := SendControllerInfoToUPLL UNC_DT_RUNNING in
    if negb (st ==? TC_SUCCESS) then uret TC_FAILURE else body.
Definition HandleAuditConfig (fail_oper : TcServiceType) : Ux Z :=
  in_active (with_db (
    if fail_oper ==? TC_OP_CANDIDATE_COMMIT then tell_both (all_phases redo_phases)
    else if fail_oper ==? TC_OP_CLEAR_STARTUP then let^ rc := ClearStartUpDb in uret (tc_ret rc)
    else if fail_oper ==? TC_OP_RUNNING_SAVE then let^ rc := SaveRunningToStartUp in uret (tc_ret rc)
    else if fail_oper ==? TC_OP_CANDIDATE_ABORT then tell_both (let^ rc := AbortCandidateDb in uret (tc_ret rc))
    else uret TC_SUCCESS)).

(** ** Sequences of calls *)

Inductive TcCall :=
| CStart
| CVote
| CDriverResult (session_id config_id phase : Z) (results : list (string * Ver))
| CGlobalCommit
| CAbort
| CEnd (trans_res : TcTransEndResult)
| CSave
| CClearStartup
| CAbortCandidate
| CSetup
| CRecover (fail_oper : TcServiceType).

Definition handle_call (c : TcCall) : Ux Z :=
  match c with
  | CStart => HandleCommitTransactionStart
  | CVote => HandleCommitVoteRequest
  | CDriverResult sid cid phase results => HandleCommitDriverResult sid cid phase results
  | CGlobalCommit => HandleCommitGlobalCommit
  | CAbort => HandleCommitGlobalAbort
  | CEnd res => HandleCommitTransactionEnd res
  | CSave => HandleSaveConfiguration
  | CClearStartup => HandleClearStartup
  | CAbortCandidate => HandleAbortCandidate
  | CSetup => HandleSetup
  | CRecover oper => HandleAuditConfig oper
  end.
(** The replies, with the state after each. *)
Fixpoint handle_calls (cs : list TcCall) : Ux (list (Z * TransState)) :=
  match cs with
  | [] => uret []
  | c :: rest =>
      let^ reply := handle_call c in
      let^ s := uget in
      let^ replies := handle_calls rest in
      uret ((reply, trans_state_ s) :: replies)
  end.

End Handlers.
