(* ===== verification/UpplTheorems.v ===== *)
(** * Theorems about the transactions of UPPL

    That UPPL keeps the phases of a commit, commits its database once for a
    transaction and always answers, and which notifications a commit sends; the
    model is in UpplTx.  At the end there are tables to evaluate it on. *)

From S2P Require Import Prelude TcTypes TcMsgCommit DrvTxn UpplTx.

Local Open Scope Z_scope.
Local Open Scope uppl_scope.

Implicit Types (tr : list Event) (kt : Kt) (rs : CsRowStatus) (k : Key) (ctr : string) (dt op rc : Z) (v : Val).

(** ** Reasoning about programs *)

(** A run that ends is defined and satisfies [Q]. *)
Definition post {A} (p : Ux A) (Q : A -> Txn -> list Event -> Prop) (s : Txn) tr : Prop :=
  match p s tr with Ret a s' tr' => Q a s' tr' | Wild => False | More => True end.

Lemma post_ret {A} (a : A) (Q : A -> Txn -> list Event -> Prop) s tr : Q a s tr -> post (uret a) Q s tr.
Proof. done. Qed.
Lemma post_bind {A B} (p : Ux A) (f : A -> Ux B) Q s tr :
  post p (fun a s' tr' => post (f a) Q s' tr') s tr -> post (ubind p f) Q s tr.
Proof. unfold post, ubind. by destruct (p s tr). Qed.
Lemma post_mono {A} (p : Ux A) (R Q : A -> Txn -> list Event -> Prop) s tr :
  post p R s tr -> (forall a s' tr', R a s' tr' -> Q a s' tr') -> post p Q s tr.
Proof. unfold post. intros Hp Hm. destruct (p s tr); auto. Qed.

Lemma post_get {B} (f : Txn -> Ux B) Q s tr : post (f s) Q s tr -> post (ubind uget f) Q s tr.
Proof. done. Qed.
Lemma post_set {B} g (f : unit -> Ux B) Q s tr : post (f tt) Q (g s) tr -> post (ubind (uset g) f) Q s tr.
Proof. done. Qed.
Lemma post_ask {A B} (q : list Event -> A) (f : A -> Ux B) Q s tr : post (f (q tr)) Q s tr -> post (ubind (uask q) f) Q s tr.
Proof. done. Qed.
Lemma post_query {A B} (q : list Event -> A) e (f : A -> Ux B) Q s tr :
  post (f (q tr)) Q s (e (q tr) :: tr) -> post (ubind (query q e) f) Q s tr.
Proof. done. Qed.

(** Commits of the database. *)
Definition is_commit (e : Event) : bool := match e with ECommitAll _ => true | _ => false end.
Fixpoint commits tr : nat :=
  match tr with [] => 0 | e :: rest => if is_commit e then S (commits rest) else commits rest end.

(** A program that leaves the transaction alone and does not commit; one that
    changes only what it remembers of old values. *)
Definition calm {A} (p : Ux A) : Prop :=
  forall s tr, post p (fun _ s' tr' => s' = s /\ commits tr' = commits tr) s tr.
Definition same_rows (s s' : Txn) : Prop :=
  trans_state_ s' = trans_state_ s /\ controllers s' = controllers s /\ domains s' = domains s /\
  boundaries s' = boundaries s.

Lemma calm_ret {A} (a : A) : calm (uret a).
Proof. by intros s tr. Qed.
Lemma calm_ask {A} (q : list Event -> A) : calm (uask q).
Proof. by intros s tr. Qed.
Lemma calm_get : calm uget.
Proof. by intros s tr. Qed.
Lemma calm_more {A} : calm (@umore A).
Proof. by intros s tr. Qed.
Lemma calm_log e : is_commit e = false -> calm (ulog e).
Proof. intros He s tr. cbn. by rewrite He. Qed.
Lemma calm_bind {A B} (p : Ux A) (f : A -> Ux B) : calm p -> (forall a, calm (f a)) -> calm (ubind p f).
Proof.
  intros Hp Hf s tr. apply post_bind. eapply post_mono; [apply Hp|]. intros a s' tr' [-> Hc]. cbn.
  eapply post_mono; [apply Hf|]. cbn. intros b s' tr'' [-> Hc']. split; [done|]. lia.
Qed.

Lemma post_calm {A B} (p : Ux A) (f : A -> Ux B) Q s tr :
  calm p -> (forall a tr', commits tr' = commits tr -> post (f a) Q s tr') -> post (ubind p f) Q s tr.
Proof.
  intros Hp Hf. apply post_bind. eapply post_mono; [apply Hp|]. intros a s' tr' [-> Hc]. by apply Hf.
Qed.

Create HintDb calm.
#[export] Hint Resolve calm_ret calm_ask calm_get calm_more : calm.
Ltac calm :=
  repeat match goal with
  | |- calm (ubind _ _) => apply calm_bind; [|intros ?]
  | |- calm (ulog _) => apply calm_log; reflexivity
  | |- calm (match ?x with _ => _ end) => destruct x
  | |- calm _ => solve [auto with calm nocore]
  end.

Section Calm.

Context (E : Env).

Lemma query_calm {A} (q : list Event -> A) e : (forall a, is_commit (e a) = false) -> calm (query q e).
Proof. intros He. unfold query. calm. by apply calm_log. Qed.
#[local] Hint Extern 1 (calm (query _ _)) => apply query_calm; reflexivity : calm.
#[local] Hint Unfold WriteInfo GetModifiedRows IsKeyExists get_controller_type ReadInternal ReadAll ReadCtrCommitVerFromDB
  UpdateKeyInstance ClearOneInstance CopyDatabase ClearDatabase SendUpdatedControllerInfoToUPLL driver_session
  SendReqAndGetResp notify : env.
Ltac env := autounfold with env; calm.

Lemma reset_versions_calm l : calm (reset_versions E l).
Proof. induction l as [|[ctr v] l IH]; cbn [reset_versions]; env. Qed.
Lemma failover_calm : calm (failover_versions E).
Proof. unfold failover_versions. env. apply reset_versions_calm. Qed.
Lemma old_values_calm kt l : calm (old_values E kt l).
Proof. induction l as [|k l IH]; cbn [old_values]; env. Qed.
Lemma forget_calm ctr : calm (forget_controller ctr).
Proof. unfold forget_controller. env. Qed.
#[local] Hint Resolve forget_calm : calm.
Lemma clear_deleted_calm l : calm (clear_deleted E l).
Proof. induction l as [|k l IH]; cbn [clear_deleted]; env. Qed.
Lemma boundary_status_calm n l : calm (boundary_status E n l).
Proof. revert l. induction n as [|n IH]; intros [|k l]; cbn [boundary_status]; env; apply IH. Qed.
Lemma notify_deleted_calm kt oper l : calm (notify_deleted kt oper l).
Proof. induction l as [|k l IH]; cbn [notify_deleted]; env. Qed.
Lemma notify_created_calm kt oper l : calm (notify_created E kt oper l).
Proof. induction l as [|k l IH]; cbn [notify_created]; env. Qed.
Lemma notify_updated_calm kt keys olds : (length olds <= length keys)%nat -> calm (notify_updated E kt keys olds).
Proof.
  revert keys. induction olds as [|o olds IH]; intros [|k keys] Hl; cbn [notify_updated]; try (cbn in Hl; lia); env;
    apply IH; cbn in Hl; lia.
Qed.
Lemma sessions_calm l : calm (open_sessions E l).
Proof. induction l as [|t l IH]; cbn [open_sessions]; env. Qed.
#[local] Hint Resolve sessions_calm : calm.
Lemma tell_deleted_calm flag l : calm (tell_deleted E flag l).
Proof. induction l as [|k l IH]; cbn [tell_deleted]; env. Qed.
Lemma tell_modified_calm op flag l : calm (tell_modified E op flag l).
Proof. induction l as [|k l IH]; cbn [tell_modified]; env. Qed.
#[local] Hint Resolve tell_deleted_calm tell_modified_calm : calm.
Lemma send_info_calm op flag : calm (SendControllerInfo E op flag).
Proof. unfold SendControllerInfo. env. Qed.
Lemma tell_undone_calm l : calm (tell_undone E l).
Proof. induction l as [|k l IH]; cbn [tell_undone]; env. Qed.
Lemma tell_running_calm op l : calm (tell_running E op l).
Proof. induction l as [|k l IH]; cbn [tell_running]; env. Qed.
#[local] Hint Resolve tell_undone_calm tell_running_calm : calm.
Lemma abort_candidate_calm : calm (AbortCandidateDb E).
Proof.
  unfold AbortCandidateDb, SendDeletedControllerToLogical, SendCreatedControllerToLogical, SendUpdatedControllerToLogical,
    SendAppliedControllerToLogical. env.
Qed.
Lemma load_startup_calm : calm (LoadAndCommitStartup E).
Proof. unfold LoadAndCommitStartup. env. Qed.
Lemma save_calm : calm (SaveRunningToStartUp E).
Proof. unfold SaveRunningToStartUp. env. Qed.
Lemma clear_startup_calm : calm (ClearStartUpDb E).
Proof. unfold ClearStartUpDb. env. Qed.
Lemma copy_running_calm : calm (CopyRunningtoCandidate E).
Proof. unfold CopyRunningtoCandidate. env. Qed.
Lemma tell_all_calm dt l st : calm (tell_all E dt l st).
Proof. revert st. induction l as [|[ctr v] l IH]; intros st; cbn [tell_all]; env; apply IH. Qed.
Lemma info_to_upll_calm dt : calm (SendControllerInfoToUPLL E dt).
Proof. unfold SendControllerInfoToUPLL. env. apply tell_all_calm. Qed.

End Calm.

(** ** The phases of a commit *)

Inductive Phase := PIdle | PStarted | PVoting | PVoted | PCommitting | PDone.
#[export] Instance Phase_eq_dec : EqDecision Phase.
Proof. solve_decision. Defined.

Definition phase_of (t : TransState) : Phase :=
  match t with
  | TRANS_END => PIdle
  | TRANS_START_SUCCESS => PStarted
  | VOTE_WAIT_DRIVER_RESULT => PVoting
  | VOTE_SUCCESS => PVoted
  | GLOBAL_COMMIT_WAIT_DRIVER_RESULT => PCommitting
  | _ => PDone
  end.

(** Which replies and phases may follow a call: an operation succeeds only in
    its phase and leads to the next; one that fails leaves the phase, but for a
    start, which may give up a transaction under way.  A result of the global
    commit that comes in another phase has no effect, whatever is replied. *)
Definition allowed (p : Phase) (c : TcCall) (reply : Z) (p' : Phase) : bool :=
  let good := reply ==? TC_SUCCESS in
  let bad := reply ==? TC_FAILURE in
  let refused := bad && (p' ==? p) in
  match c with
  | CStart =>
      if p ==? PIdle then (good && (p' ==? PStarted)) || refused else bad && bool_decide (p' ∈ [p; PIdle])
  | CVote => if p ==? PStarted then good && (p' ==? PVoting) else refused
  | CDriverResult _ _ phase _ =>
      if phase ==? TC_COMMIT_VOTE_PHASE then
        if p ==? PVoting then (good && (p' ==? PVoted)) || refused else refused
      else if phase ==? TC_COMMIT_GLOBAL_COMMIT_PHASE then
        if p ==? PCommitting then (p' ==? PDone) || refused else p' ==? p
      else refused
  | CGlobalCommit => if p ==? PVoted then good && (p' ==? PCommitting) else refused
  | CAbort => good && (p' ==? PIdle)
  | CEnd _ => (good && (p' ==? PIdle)) || refused
  | CRecover oper =>
      if oper ==? TC_OP_CANDIDATE_COMMIT then
        (good && (p ==? PIdle) && (p' ==? PIdle)) || (bad && bool_decide (p' ∈ [p; PIdle; PDone]))
      else p' ==? p
  | _ => p' ==? p
  end.
(** How often a call may commit the database. *)
Definition may_commit (p : Phase) (c : TcCall) : nat :=
  match c with
  | CDriverResult _ _ phase _ => if (phase ==? TC_COMMIT_GLOBAL_COMMIT_PHASE) && (p ==? PCommitting) then 1 else 0
  | CRecover oper => if (oper ==? TC_OP_CANDIDATE_COMMIT) && (p ==? PIdle) then 1 else 0
  | _ => 0
  end.
(** Over a sequence: the number of commits that are allowed, [None] where a
    reply or a phase is not. *)
Fixpoint follows (p : Phase) (cs : list TcCall) (l : list (Z * TransState)) : option nat :=
  match cs, l with
  | c :: cs, (reply, t) :: l =>
      if allowed p c reply (phase_of t) then Nat.add (may_commit p c) <$> follows (phase_of t) cs l else None
  | [], [] => Some O
  | _, _ => None
  end.

Section Phases.

Context (E : Env) (fuel : nat).

(** Programs that leave the phase and do not commit. *)
Definition tame {A} (p : Ux A) : Prop :=
  forall s tr, post p (fun _ s' tr' => trans_state_ s' = trans_state_ s /\ commits tr' = commits tr) s tr.
Lemma calm_tame {A} (p : Ux A) : calm p -> tame p.
Proof. intros Hp s tr. eapply post_mono; [apply Hp|]. by intros a s' tr' [-> Hc]. Qed.
Lemma tame_bind {A B} (p : Ux A) (f : A -> Ux B) : tame p -> (forall a, tame (f a)) -> tame (ubind p f).
Proof.
  intros Hp Hf s tr. apply post_bind. eapply post_mono; [apply Hp|]. cbn. intros a s' tr' [Ht Hc].
  eapply post_mono; [apply Hf|]. cbn. intros b s'' tr'' [Ht' Hc']. split; congruence.
Qed.
Lemma tame_set f : (forall s, trans_state_ (f s) = trans_state_ s) -> tame (uset f).
Proof. intros Hf s tr. split; [apply Hf|done]. Qed.
Lemma tame_rows kt f : tame (set_rows kt f).
Proof. apply tame_set. by destruct kt. Qed.
Lemma query_tame {A} (q : list Event -> A) e : (forall a, is_commit (e a) = false) -> tame (query q e).
Proof. intros He. by apply calm_tame, query_calm. Qed.

Ltac tame :=
  unfold WriteInfo, GetModifiedRows, IsKeyExists, get_controller_type, ReadInternal, ReadAll, ReadCtrCommitVerFromDB,
    UpdateKeyInstance, ClearMaps, set_type, set_old_upd, set_old_del;
  repeat match goal with
  | |- tame (ubind _ _) => apply tame_bind; [|intros ?]
  | |- tame (query _ _) => apply query_tame; reflexivity
  | |- tame (set_rows _ _) => apply tame_rows
  | |- tame (uset _) => apply tame_set; reflexivity
  | |- tame (match ?x with _ => _ end) => destruct x
  | |- tame (ulog _) => apply calm_tame, calm_log; reflexivity
  | |- tame (uret _) => apply calm_tame, calm_ret
  | |- tame uget => apply calm_tame, calm_get
  | H : tame ?p |- tame ?p => exact H
  | H : forall _, tame _ |- tame _ => apply H
  end.

Lemma modified_controllers_tame rs l : tame (modified_controllers E rs l).
Proof. induction l as [|k l IH]; cbn [modified_controllers]; tame. Qed.
Lemma modified_keys_tame kt rs info l : tame (modified_keys E kt rs info l).
Proof. induction l as [|k l IH]; cbn [modified_keys]; tame. Qed.
Lemma modified_tame rs : tame (GetModifiedConfiguration E rs).
Proof.
  unfold GetModifiedConfiguration, GetModifiedController, GetModifiedDomain, GetModifiedBoundary. tame;
    apply modified_controllers_tame || apply modified_keys_tame.
Qed.
Lemma update_versions_tame l : tame (update_versions E l).
Proof. induction l as [|[ctr w] l IH]; cbn [update_versions]; tame. Qed.

(** The state and the number of commits after a program. *)
Definition leads (Q : Z -> TransState -> nat -> Prop) (p : Ux Z) (t : TransState) : Prop :=
  forall s tr, trans_state_ s = t ->
    post p (fun rc s' tr' => exists n, (commits tr' <= commits tr + n)%nat /\ Q rc (trans_state_ s') n) s tr.

Lemma Start_leads t :
  leads (fun rc t' n => n = O /\ (if t ==? TRANS_END then ok rc = true /\ t' = TRANS_START_SUCCESS \/ ok rc = false /\ t' = TRANS_END
                                  else ok rc = false /\ t' = TRANS_END)) (StartTransaction E) t.
Proof.
  intros s tr Hs. unfold StartTransaction. apply post_bind. cbn. rewrite Hs.
  destruct (t ==? TRANS_END) eqn:Et; [|exists O; cbn; split; [lia|done]].
  do 2 (apply post_bind; cbn).
  do 3 (apply post_bind; eapply post_mono; [apply modified_tame|]; cbn; intros ? ? ? [? ?];
        case_match; [exists O; cbn; split; [lia|]; split; [done|]; right; done|]).
  exists O. cbn. split; [lia|]. split; [done|]. by left.
Qed.

Lemma Vote_leads t :
  leads (fun rc t' n => n = O /\ (if t ==? TRANS_START_SUCCESS then ok rc = true /\ t' = VOTE_WAIT_DRIVER_RESULT
                                  else ok rc = false /\ t' = t)) HandleVoteRequest t.
Proof.
  intros s tr Hs. unfold HandleVoteRequest. apply post_bind. cbn. rewrite Hs.
  destruct (t ==? TRANS_START_SUCCESS); exists O; cbn; split; try lia; done.
Qed.
Lemma GlobalCommit_leads t :
  leads (fun rc t' n => n = O /\ (if t ==? VOTE_SUCCESS then ok rc = true /\ t' = GLOBAL_COMMIT_WAIT_DRIVER_RESULT
                                  else ok rc = false /\ t' = t)) HandleGlobalCommitRequest t.
Proof.
  intros s tr Hs. unfold HandleGlobalCommitRequest. apply post_bind. cbn. rewrite Hs.
  destruct (t ==? VOTE_SUCCESS); exists O; cbn; split; try lia; done.
Qed.
Lemma Abort_leads t : leads (fun rc t' n => n = O /\ ok rc = true /\ t' = TRANS_END) AbortTransaction t.
Proof. intros s tr Hs. exists O. cbn. split; [lia|done]. Qed.

Lemma End_leads t res flag :
  leads (fun rc t' n => n = O /\ (ok rc = true /\ t' = TRANS_END \/ res = TRANS_END_SUCCESS /\ ok rc = false /\ t' = t))
    (EndTransaction E res flag) t.
Proof.
  intros s tr Hs. destruct res; cbn [EndTransaction].
  { exists O. cbn. split; [lia|]. split; [done|]. by left. }
  apply post_get. destruct (is_empty (controllers s)); [exists O; cbn; split; [lia|]; split; [done|]; by left|].
  apply post_calm; [apply sessions_calm|]. intros rc tr1 Hc.
  destruct (ok rc) eqn:Erc; cbn [negb]; [|apply post_ret; exists O; split; [lia|]; split; [done|]; by right].
  apply post_calm; [apply tell_deleted_calm|]. intros _ tr2 Hc2.
  do 2 (apply post_calm; [apply send_info_calm|]; intros ? ? ?).
  exists O. cbn. split; [lia|]. split; [done|]. by left.
Qed.

(** The loops over controllers change only the old values. *)
Lemma old_deleted_rows n l s tr :
  post (old_deleted E n l) (fun _ s' tr' => same_rows s s' /\ commits tr' = commits tr) s tr.
Proof.
  revert l s tr. induction n as [|n IH]; intros [|k l] s tr; cbn [old_deleted]; try done.
  apply post_query. destruct (read E tr KtController UNC_DT_RUNNING k) as [v|rc].
  2:{ eapply post_mono; [apply IH|]. done. }
  apply post_query. destruct (commit_ver _ _ _) as [w|].
  - apply post_set, post_bind. eapply post_mono; [apply IH|]. done.
  - eapply post_mono; [apply IH|]. done.
Qed.
Lemma old_updated_rows n l s tr :
  post (old_updated E n l) (fun r s' tr' => same_rows s s' /\ commits tr' = commits tr /\ length r.1 = length r.2) s tr.
Proof.
  revert l s tr. induction n as [|n IH]; intros [|k l] s tr; cbn [old_updated]; try done.
  apply post_query. destruct (read E tr KtController UNC_DT_RUNNING k) as [v|rc].
  2:{ eapply post_mono; [apply IH|]. done. }
  apply post_query. destruct (commit_ver _ _ _) as [w|].
  - apply post_set, post_bind. eapply post_mono; [apply IH|]. cbn. intros r s' tr' (Hs & Hc & Hl). split; [done|].
    split; [done|]. by rewrite Hl.
  - eapply post_mono; [apply IH|]. done.
Qed.
Lemma old_values_length kt l s tr :
  post (old_values E kt l) (fun r s' tr' => s' = s /\ commits tr' = commits tr /\ length r.1 = length r.2) s tr.
Proof.
  revert s tr. induction l as [|k l IH]; intros s tr; cbn [old_values]; [done|]. apply post_query.
  destruct (read E tr kt UNC_DT_RUNNING k) as [v|rc]; [apply post_bind|]; (eapply post_mono; [apply IH|]); [|done].
  cbn. intros r s' tr' (-> & Hc & Hl). split; [done|]. split; [done|]. by rewrite Hl.
Qed.

(** A program that leaves this transaction alone. *)
Definition rests {A} (s : Txn) (p : Ux A) : Prop :=
  forall tr, post p (fun _ s' tr' => s' = s /\ commits tr' = commits tr) s tr.
Lemma calm_rests {A} s (p : Ux A) : calm p -> rests s p.
Proof. intros Hp tr. apply Hp. Qed.
Lemma rests_bind {A B} s (p : Ux A) (f : A -> Ux B) : rests s p -> (forall a, rests s (f a)) -> rests s (ubind p f).
Proof.
  intros Hp Hf tr. apply post_bind. eapply post_mono; [apply Hp|]. intros a s' tr' [-> Hc]. cbn.
  eapply post_mono; [apply Hf|]. cbn. intros b s' tr'' [-> Hc']. split; [done|congruence].
Qed.
Lemma rests_get {B} s (f : Txn -> Ux B) : rests s (f s) -> rests s (ubind uget f).
Proof. intros Hf tr. apply post_get, Hf. Qed.

Ltac rest := repeat match goal with
  | |- rests _ (ubind uget _) => apply rests_get
  | |- rests _ (ubind _ _) => apply rests_bind; [|intros ?]
  | |- rests _ (if ?b then _ else _) => destruct b
  | |- rests _ (uret _) => apply calm_rests, calm_ret
  | |- rests _ (notify_deleted _ _ _) => apply calm_rests, notify_deleted_calm
  | |- rests _ (notify_created _ _ _ _) => apply calm_rests, notify_created_calm
  | |- rests _ (notify_updated _ _ _ _) => apply calm_rests, notify_updated_calm; assumption
  | |- rests _ (boundary_status _ _ _) => apply calm_rests, boundary_status_calm
  end.

Lemma send_rest (c d b : list Val) s :
  (length c <= length (updated (controllers s)))%nat -> (length d <= length (updated (domains s)))%nat ->
  (length b <= length (updated (boundaries s)))%nat ->
  rests s (SendControllerNotification E c) /\ rests s (SendDomainNotification E d) /\
  rests s (SendBoundaryNotification E b).
Proof.
  intros Hc Hd Hb. unfold SendControllerNotification, SendDomainNotification, SendBoundaryNotification.
  split; [|split]; rest.
Qed.

Lemma commit_leads s tr :
  post (commit_modified E fuel) (fun _ s' tr' =>
    trans_state_ s' ∈ [trans_state_ s; GLOBAL_COMMIT_SUCCESS] /\ commits tr' = S (commits tr)) s tr.
Proof.
  unfold commit_modified. apply post_get, post_bind. eapply post_mono; [apply old_deleted_rows|].
  intros kept s1 tr1 [(Ht & _) Hc]. apply post_set, post_bind. eapply post_mono; [apply old_updated_rows|].
  intros r s2 tr2 ((Ht2 & _) & Hc2 & Hl2). cbn in Ht2. apply post_set, post_bind. eapply post_mono; [apply old_values_length|].
  intros r3 s3 tr3 (-> & Hc3 & Hl3). apply post_set, post_bind. eapply post_mono; [apply old_values_length|].
  intros r4 s4 tr4 (-> & Hc4 & Hl4). apply post_set, post_query. destruct (commit_all E tr4 ==? ODBCM_RC_SUCCESS); cbn [negb].
  2:{ apply post_ret. cbn. split; [rewrite Ht2, Ht; left|lia]. }
  apply post_calm; [apply clear_deleted_calm|]. intros rc tr5 Hc5. cbn in Hc5. destruct (ok rc); cbn [negb].
  2:{ apply post_ret. cbn. split; [rewrite Ht2, Ht; left|lia]. }
  apply post_set. cbn.
  match goal with |- post _ _ ?t _ => set (s5 := t) end.
  destruct (send_rest r.2 r3.2 r4.2 s5) as (H1 & H2 & H3); [cbn; lia..|].
  match goal with |- post ?p _ _ _ => assert (rests s5 p) as Hr by (rest; assumption) end.
  eapply post_mono; [apply Hr|]. intros a s' tr' [-> Hc6]. split; [right; left|]. lia.
Qed.

Lemma global_leads sid cid results s tr :
  post (global_commit_result E fuel sid cid results) (fun _ s' tr' =>
    phase_of (trans_state_ s') = PDone /\ (commits tr' <= S (commits tr))%nat) s tr.
Proof.
  unfold global_commit_result. apply post_set. cbn [trans_state_].
  match goal with |- post _ _ ?t _ => assert (trans_state_ t = GLOBAL_COMMIT_DRIVER_RESULT) as Hs by done;
    generalize t Hs; clear s Hs end.
  intros s Hs. apply post_calm; [destruct (_ && _); [apply failover_calm|apply calm_ret]|]. intros rc tr1 Hc1.
  destruct (ok rc); cbn [negb]; [|apply post_ret; rewrite Hs; split; [done|lia]].
  apply post_bind. eapply post_mono; [apply update_versions_tame|]. intros rc2 s2 tr2 [Ht2 Hc2].
  destruct (ok rc2); cbn [negb]; [|apply post_ret; rewrite Ht2, Hs; split; [done|lia]].
  apply post_get. destruct (_ && _); [cbn; split; [done|lia]|].
  eapply post_mono; [apply commit_leads|]. intros rc3 s3 tr3 [Hin Hc3]. split; [|lia].
  rewrite Ht2, Hs in Hin. set_unfold. destruct Hin as [->|[->|[]]]; done.
Qed.

(** The result of the drivers, with the database at hand. *)
Definition result_leads (p : Phase) (phase : Z) (good : bool) (p' : Phase) : bool :=
  if phase ==? TC_COMMIT_VOTE_PHASE then
    if p ==? PVoting then good && (p' ==? PVoted) else negb good && (p' ==? p)
  else if phase ==? TC_COMMIT_GLOBAL_COMMIT_PHASE then
    if p ==? PCommitting then p' ==? PDone else good && (p' ==? p)
  else negb good && (p' ==? p).

Lemma DriverResult_leads t sid cid phase results :
  leads (fun rc t' n =>
      result_leads (phase_of t) phase (ok rc) (phase_of t') = true /\
      n = may_commit (phase_of t) (CDriverResult sid cid phase results)) (HandleDriverResult E fuel sid cid phase results) t.
Proof.
  intros s tr Hs. unfold HandleDriverResult. apply post_get. rewrite Hs. unfold result_leads. cbn [may_commit].
  destruct (phase ==? TC_COMMIT_VOTE_PHASE) eqn:Ev.
  { apply bool_decide_eq_true in Ev as ->. cbn [andb].
    destruct (decide (t = VOTE_WAIT_DRIVER_RESULT)) as [->|Hn].
    - exists O. cbn. split; [lia|done].
    - rewrite bool_decide_false by done. cbn [negb]. apply post_ret. exists O. rewrite Hs. split; [lia|]. by destruct t. }
  cbn [andb negb]. apply post_bind, post_ret. destruct (phase ==? TC_COMMIT_GLOBAL_COMMIT_PHASE) eqn:Eg; cbn [andb negb].
  - destruct (decide (t = GLOBAL_COMMIT_WAIT_DRIVER_RESULT)) as [->|Hn].
    + rewrite bool_decide_true by done. eapply post_mono; [apply global_leads|]. intros rc s' tr' [Hp Hc].
      exists 1%nat. rewrite Hp. split; [lia|]. done.
    + rewrite bool_decide_false by done. apply post_ret. exists O. rewrite Hs. split; [lia|]. by destruct t.
  - apply post_ret. exists O. rewrite Hs. split; [lia|]. split; [|done]. by destruct t.
Qed.

(** A sequence of programs of which each leads on from the state of the one
    before; the last state is the one of the first that fails. *)
Lemma leads_bind (Q R : Z -> TransState -> nat -> Prop) p (f : Z -> Ux Z) t :
  leads R p t ->
  (forall rc t' n, R rc t' n -> leads (fun rc' t'' n' => Q rc' t'' (n + n')%nat) (f rc) t') ->
  leads Q (ubind p f) t.
Proof.
  intros Hp Hf s tr Hs. apply post_bind. eapply post_mono; [apply (Hp s tr Hs)|]. cbn. intros rc s' tr' (n & Hn & HR).
  eapply post_mono; [apply (Hf rc (trans_state_ s') n HR s' tr' eq_refl)|]. cbn. intros rc' s'' tr'' (n' & Hn' & HQ).
  exists (n + n')%nat. split; [lia|done].
Qed.
Lemma leads_ret (Q : Z -> TransState -> nat -> Prop) rc t : Q rc t O -> leads Q (uret rc) t.
Proof. intros HQ s tr Hs. exists O. rewrite Hs. split; [lia|done]. Qed.
Lemma leads_mono (Q R : Z -> TransState -> nat -> Prop) p t :
  leads R p t -> (forall rc t' n, R rc t' n -> Q rc t' n) -> leads Q p t.
Proof.
  intros Hp HRQ s tr Hs. eapply post_mono; [apply (Hp s tr Hs)|]. intros rc s' tr' (n & Hn & HR). eauto.
Qed.
Lemma leads_calm {A} (p : Ux A) (Q : Z -> TransState -> nat -> Prop) (f : A -> Ux Z) t :
  calm p -> (forall a, leads Q (f a) t) -> leads Q (ubind p f) t.
Proof.
  intros Hp Hf s tr Hs. apply post_calm; [done|]. intros a tr' Hc. eapply post_mono; [apply (Hf a s tr' Hs)|].
  cbn. intros rc s' tr'' (n & Hn & HQ). exists n. split; [lia|done].
Qed.

Lemma redo_leads t :
  leads (fun reply t' n =>
      (reply = TC_SUCCESS /\ t = TRANS_END /\ t' = TRANS_END \/
       reply = TC_FAILURE /\ phase_of t' ∈ [PIdle; PDone]) /\
      (n <= if decide (t = TRANS_END) then 1 else 0)%nat) (all_phases (redo_phases E fuel)) t.
Proof.
  unfold redo_phases. cbn [all_phases].
  eapply leads_bind; [apply Start_leads|]. cbn beta. intros rc t1 n1 [-> H1].
  destruct (decide (t = TRANS_END)) as [->|Ht].
  2:{ rewrite bool_decide_false in H1 by done. destruct H1 as [-> ->]. apply leads_ret. split; [|done]. right. split; [done|left]. }
  rewrite bool_decide_true in H1 by done. destruct H1 as [[-> ->]|[-> ->]]; cbn [negb].
  2:{ apply leads_ret. split; [|lia]. right. split; [done|left]. }
  eapply leads_bind; [apply Vote_leads|]. cbn beta. intros rc2 t2 n2 (-> & H2). rewrite bool_decide_true in H2 by done.
  destruct H2 as [-> ->]. cbn [negb]. eapply leads_bind; [apply DriverResult_leads|]. intros rc3 t3 n3 (H3 & ->).
  cbn in H3. destruct (ok rc3) eqn:E3; cbn in H3; [|done]. cbn [negb].
  destruct t3; try done. eapply leads_bind; [apply GlobalCommit_leads|]. cbn beta. intros rc4 t4 n4 (-> & H4).
  rewrite bool_decide_true in H4 by done. destruct H4 as [-> ->]. cbn [negb].
  eapply leads_bind; [apply DriverResult_leads|]. intros rc5 t5 n5 (H5 & ->). cbn in H5. apply bool_decide_eq_true in H5.
  destruct (ok rc5); cbn [negb]. 2:{ apply leads_ret. split; [|vm_compute; lia]. right. rewrite H5. split; [done|]. right. left. }
  eapply leads_bind; [apply End_leads|]. cbn beta. intros rc6 t6 n6 (-> & [(-> & ->)|(_ & -> & ->)]); cbn [negb].
  - apply leads_ret. split; [|vm_compute; lia]. by left.
  - apply leads_ret. split; [|vm_compute; lia]. right. rewrite H5. split; [done|]. right. left.
Qed.

(** *** The handlers *)

(** A node that stays active. *)
Definition healthy : Prop := forall tr, fini_invoked E tr = false /\ standby E tr = false.

Lemma leads_active Q p t : healthy -> leads Q p t -> leads Q (in_active E p) t.
Proof.
  intros Hh Hp s tr Hs. unfold in_active. apply post_ask. destruct (Hh tr) as (-> & Hsb). cbn [negb].
  apply post_ask. rewrite Hsb. by apply Hp.
Qed.
(** Where the database cannot be opened the call fails and nothing changes. *)
Lemma leads_db (Q : Z -> TransState -> nat -> Prop) p t :
  Q TC_FAILURE t O -> leads Q p t -> leads Q (with_db E p) t.
Proof.
  intros HF Hp s tr Hs. unfold with_db. apply post_query. destruct (db_opened E tr).
  - eapply post_mono; [apply (Hp s _ Hs)|]. intros rc s' tr' (n & Hn & HQ). by exists n.
  - apply post_bind. cbn. exists O. rewrite Hs. split; [lia|done].
Qed.
Lemma leads_reply (Q : Z -> TransState -> nat -> Prop) p t :
  leads (fun rc => Q (tc_ret rc)) p t -> leads Q (let^ rc := p in uret (tc_ret rc)) t.
Proof.
  intros Hp. eapply leads_bind; [exact Hp|]. cbn beta. intros rc t' n HQ. apply leads_ret. by rewrite Nat.add_0_r.
Qed.

Definition call_leads (c : TcCall) (p : Phase) (reply : Z) (t' : TransState) (n : nat) : Prop :=
  allowed p c reply (phase_of t') = true /\ (n <= may_commit p c)%nat.

Lemma calm_call c t p :
  (forall reply, allowed (phase_of t) c reply (phase_of t) = true) -> calm p -> leads (call_leads c (phase_of t)) p t.
Proof.
  intros Ha Hp s tr Hs. eapply post_mono; [apply Hp|]. cbn. intros reply s' tr' [-> Hc]. exists O. rewrite Hs.
  split; [lia|]. split; [apply Ha|lia].
Qed.

Lemma tell_both_leads (Q : Z -> TransState -> nat -> Prop) p t :
  Q TC_FAILURE t O -> leads Q p t -> leads Q (tell_both E p) t.
Proof.
  intros HF Hp. unfold tell_both.
  apply leads_calm; [apply info_to_upll_calm|]. intros st. case_match; [by apply leads_ret|].
  apply leads_calm; [apply info_to_upll_calm|]. intros st'. case_match; [by apply leads_ret|done].
Qed.

Lemma call_follows c t : healthy -> leads (call_leads c (phase_of t)) (handle_call E fuel c) t.
Proof.
  intros Hh.
  destruct c; cbn [handle_call];
    unfold HandleCommitTransactionStart, HandleCommitTransactionEnd, HandleCommitVoteRequest, HandleCommitGlobalCommit,
      HandleCommitDriverResult, HandleCommitGlobalAbort, HandleSaveConfiguration, HandleClearStartup,
      HandleAbortCandidate, HandleSetup, HandleAuditConfig;
    apply leads_active; try done; try (apply leads_db; [split; [destruct t; cbn; repeat case_match; done|apply Nat.le_0_l]|]).
  - apply leads_reply. eapply leads_mono; [apply Start_leads|]. cbn beta. intros rc t' n (-> & H). split; [|done].
    unfold tc_ret. destruct t; cbn in H; try (destruct H as [-> ->]; done); destruct H as [[-> ->]|[-> ->]]; done.
  - apply leads_reply. eapply leads_mono; [apply Vote_leads|]. cbn beta. intros rc t' n (-> & H). split; [|done].
    unfold tc_ret. cbn. destruct t; cbn in H |- *; destruct H as [-> ->]; done.
  - apply leads_reply. eapply leads_mono; [apply DriverResult_leads|]. cbn beta. intros rc t' n (H & ->). split; [|lia].
    unfold result_leads in H. cbn [allowed]. unfold tc_ret.
    destruct (phase ==? TC_COMMIT_VOTE_PHASE); [|destruct (phase ==? TC_COMMIT_GLOBAL_COMMIT_PHASE)];
      repeat case_match; destruct (ok rc); cbn in H |- *; try done; by rewrite H.
  - apply leads_reply. eapply leads_mono; [apply GlobalCommit_leads|]. cbn beta. intros rc t' n (-> & H). split; [|done].
    unfold tc_ret. cbn. destruct t; cbn in H |- *; destruct H as [-> ->]; done.
  - apply leads_reply. eapply leads_mono; [apply Abort_leads|]. cbn beta. intros rc t' n (-> & H & ->). split; [|done].
    unfold tc_ret. by rewrite H.
  - apply leads_reply. eapply leads_mono; [apply End_leads|]. cbn beta. intros rc t' n (-> & H). split; [|done].
    unfold tc_ret. destruct H as [(-> & ->)|(Hres & -> & ->)]; [done|]. by destruct t.
  - apply calm_call; [by destruct t|]. apply calm_bind; [apply save_calm|]. intros ?. apply calm_ret.
  - apply calm_call; [by destruct t|]. apply calm_bind; [apply clear_startup_calm|]. intros ?. apply calm_ret.
  - apply calm_call; [by destruct t|]. apply calm_bind; [apply abort_candidate_calm|]. intros ?. apply calm_ret.
  - apply calm_call; [by destruct t|]. destruct (startup_valid E); apply calm_bind.
    all: try apply load_startup_calm; try apply copy_running_calm; intros ?; apply calm_ret.
  - destruct (fail_oper ==? TC_OP_CANDIDATE_COMMIT) eqn:Ec.
    + apply bool_decide_eq_true in Ec as ->. apply tell_both_leads.
      { split; [|lia]. by destruct t. }
      eapply leads_mono; [apply redo_leads|]. cbn beta. intros reply t' n (H & Hn). split.
      * destruct H as [(-> & -> & ->)|(-> & H)]; [done|]. cbn [allowed]. change (TC_FAILURE ==? TC_SUCCESS) with false.
        change (TC_FAILURE ==? TC_FAILURE) with true. cbn [andb orb]. apply bool_decide_eq_true. by right.
      * cbn. destruct (decide (t = TRANS_END)) as [->|Ht]; [done|]. lia.
    + assert (forall reply, allowed (phase_of t) (CRecover fail_oper) reply (phase_of t) = true) as Ha.
      { intros reply. cbn. rewrite Ec. by destruct t. }
      repeat case_match; try (apply tell_both_leads; [split; [apply Ha|lia]|]); (apply calm_call; [done|]).
      all: try (apply calm_bind; [|intros ?; apply calm_ret]).
      all: auto using clear_startup_calm, save_calm, abort_candidate_calm, calm_ret.
Qed.

Lemma calls_follow cs s tr :
  healthy ->
  post (handle_calls E fuel cs) (fun l _ tr' => exists n,
    follows (phase_of (trans_state_ s)) cs l = Some n /\ (commits tr' <= commits tr + n)%nat) s tr.
Proof.
  intros Hh. revert s tr. induction cs as [|c cs IH]; intros s tr; cbn [handle_calls].
  { apply post_ret. exists O. split; [done|lia]. }
  apply post_bind. eapply post_mono; [apply (call_follows c (trans_state_ s) Hh s tr eq_refl)|].
  cbn beta. intros reply s' tr' (n & Hn & Ha & Hm). apply post_get, post_bind. eapply post_mono; [apply IH|].
  cbn beta. intros l s'' tr'' (n' & Hf & Hn'). apply post_ret. exists (may_commit (phase_of (trans_state_ s)) c + n')%nat.
  cbn [follows]. rewrite Ha, Hf. split; [done|lia].
Qed.

End Phases.

(** ** Every call returns *)

Section Returns.

Context (E : Env) (fuel : nat).

(** Boundaries that can be read once the database was committed. *)
Context (Good : Key -> Prop).

(** Lists of at most [n] keys. *)
Definition fits (n : nat) (s : Txn) : Prop :=
  (forall kt, (length (created (rows_of kt s)) <= n)%nat /\ (length (updated (rows_of kt s)) <= n)%nat /\
              (length (deleted (rows_of kt s)) <= n)%nat) /\
  Forall Good (created (boundaries s)).
(** From lists of at most [n] keys a program gets to lists of at most [n']. *)
Definition goes {A} (n n' : nat) (p : Ux A) : Prop :=
  forall s tr, fits n s -> match p s tr with Ret _ s' _ => fits n' s' | Wild => True | More => False end.

Lemma goes_ret {A} n (a : A) : goes n n (uret a).
Proof. by intros s tr. Qed.
Lemma goes_ask {A} n (q : list Event -> A) : goes n n (uask q).
Proof. by intros s tr. Qed.
Lemma goes_get n : goes n n uget.
Proof. by intros s tr. Qed.
Lemma goes_log n e : goes n n (ulog e).
Proof. by intros s tr. Qed.
Lemma goes_wild {A} n n' : goes n n' (@uwild A).
Proof. by intros s tr. Qed.
Lemma goes_query {A} n (q : list Event -> A) e : goes n n (query q e).
Proof. by intros s tr. Qed.
Lemma goes_set n n' f : (forall s, fits n s -> fits n' (f s)) -> goes n n' (uset f).
Proof. intros Hf s tr Hs. by apply Hf. Qed.
Lemma goes_bind {A B} n n1 n2 (p : Ux A) (f : A -> Ux B) :
  goes n n1 p -> (forall a, goes n1 n2 (f a)) -> goes n n2 (ubind p f).
Proof.
  intros Hp Hf s tr Hs. unfold ubind. specialize (Hp s tr Hs). destruct (p s tr) as [a s' tr'| |]; [|done|done].
  by apply Hf.
Qed.
Lemma goes_get_bind {B} n n' (f : Txn -> Ux B) : (forall s, fits n s -> goes n n' (f s)) -> goes n n' (ubind uget f).
Proof. intros Hf s tr Hs. by apply (Hf s Hs). Qed.
Lemma fits_mono n n' s : (n <= n')%nat -> fits n s -> fits n' s.
Proof. intros Hn [Hs HG]. split; [|done]. intros kt. destruct (Hs kt) as (? & ? & ?). lia. Qed.
Lemma goes_mono {A} n n1 n2 (p : Ux A) : (n1 <= n2)%nat -> goes n n1 p -> goes n n2 p.
Proof.
  intros Hn Hp s tr Hs. specialize (Hp s tr Hs). destruct (p s tr); [by eapply fits_mono|done..].
Qed.
Lemma goes_if {A} (b : bool) n n' (p q : Ux A) : goes n n' p -> goes n n' q -> goes n n' (if b then p else q).
Proof. by destruct b. Qed.

(** What the lists are set to. *)
Lemma goes_rows_set n n' kt g :
  (n <= n')%nat ->
  (forall r, (length (created r) <= n)%nat -> (length (updated r) <= n)%nat -> (length (deleted r) <= n)%nat ->
     (length (created (g r)) <= n')%nat /\ (length (updated (g r)) <= n')%nat /\ (length (deleted (g r)) <= n')%nat) ->
  (kt = KtBoundary -> forall r, Forall Good (created r) -> Forall Good (created (g r))) ->
  goes n n' (set_rows kt g).
Proof.
  intros Hn Hg HG s tr [Hs HGs]. split.
  - intros kt'. pose proof (Hs kt) as (H1 & H2 & H3). pose proof (Hs kt') as (? & ? & ?).
    pose proof (Hg _ H1 H2 H3) as (? & ? & ?). destruct kt, kt'; cbn in *; lia.
  - destruct kt; cbn; [done|done|]. by apply HG.
Qed.
Lemma goes_created n kt k : (kt = KtBoundary -> Good k) -> goes n (S n) (set_rows kt (push_created k)).
Proof.
  intros Hk. apply goes_rows_set; [lia|intros r; cbn; rewrite length_app; cbn; lia|]. intros Hkt r Hr. cbn.
  apply list.Forall_app. split; [done|]. constructor; [by apply Hk|done].
Qed.
Lemma goes_updated n kt k : goes n (S n) (set_rows kt (push_updated k)).
Proof. apply goes_rows_set; [lia|intros r; cbn; rewrite length_app; cbn; lia|done]. Qed.
Lemma goes_deleted n kt k : goes n (S n) (set_rows kt (push_deleted k)).
Proof. apply goes_rows_set; [lia|intros r; cbn; rewrite length_app; cbn; lia|done]. Qed.
(** A change of something else. *)
Lemma goes_other n f : (forall s, rows_of KtController (f s) = rows_of KtController s /\ rows_of KtDomain (f s) = rows_of KtDomain s /\
    rows_of KtBoundary (f s) = rows_of KtBoundary s) -> goes n n (uset f).
Proof.
  intros Hf. apply goes_set. intros s [Hs HG]. destruct (Hf s) as (H1 & H2 & H3). split; [|cbn in H3; by rewrite H3].
  intros kt. pose proof (Hs kt). destruct kt; congruence.
Qed.

Ltac go := repeat match goal with
  | |- goes _ _ (ubind uget _) => apply goes_get_bind; intros ? ?
  | |- goes ?n _ (ubind (query _ _) _) => apply (goes_bind n n); [apply goes_query|intros ?]
  | |- goes ?n _ (ubind (uask _) _) => apply (goes_bind n n); [apply goes_ask|intros ?]
  | |- goes ?n _ (ubind (ulog _) _) => apply (goes_bind n n); [apply goes_log|intros ?]
  | |- goes ?n _ (ubind (uret _) _) => apply (goes_bind n n); [apply goes_ret|intros ?]
  | |- goes ?n _ (ubind (uset _) _) => apply (goes_bind n n); [apply goes_other; done|intros ?]
  | |- goes ?n _ (ubind (if _ then _ else _) _) => apply (goes_bind n n); [|intros ?]
  | |- goes _ _ (match ?x with _ => _ end) => destruct x
  | |- goes ?n ?n (uret _) => apply goes_ret
  | |- goes ?n ?n (ulog _) => apply goes_log
  | |- goes ?n ?n (query _ _) => apply goes_query
  end.

Lemma goes_stay {A} n n' (p : Ux A) : goes n n p -> (n <= n')%nat -> goes n n' p.
Proof. intros Hp Hn. by eapply goes_mono. Qed.

(** The start of a transaction, if the database finds at most [B] keys. *)
Context (B : nat) (few : forall tr kt rs, (length (modified_rows E tr kt rs).2 <= B)%nat)
  (good_rows : forall tr, Forall Good (modified_rows E tr KtBoundary CREATED).2).

Lemma modified_controllers_go rs l n : goes n (n + 2 * length l) (modified_controllers E rs l).
Proof.
  revert n. induction l as [|k l IH]; intros n; cbn [modified_controllers length]; [eapply goes_stay; [apply goes_ret|lia]|].
  unfold IsKeyExists, get_controller_type, WriteInfo, set_type. apply (goes_bind n n); [apply goes_query|]. intros exist.
  case_match; [eapply goes_stay; [go|lia]|].
  apply (goes_bind n (S (S n))).
  { destruct rs.
    - apply (goes_bind n (S n)); [by apply goes_created|]. intros _. case_match; [apply goes_deleted|eapply goes_stay; [apply goes_ret|lia]].
    - eapply goes_mono; [|apply goes_updated]. lia.
    - case_match; [eapply goes_mono; [|apply goes_deleted]; lia|eapply goes_stay; [apply goes_ret|lia]].
    - eapply goes_stay; [apply goes_ret|lia]. }
  intros _. apply (goes_bind (S (S n)) (S (S n))); [apply goes_query|]. intros [t|]; [|eapply goes_stay; [go|lia]].
  apply (goes_bind (S (S n)) (S (S n))); [case_match; [by apply goes_other|apply goes_ret]|]. intros _.
  assert (goes (S (S n)) (n + 2 * S (length l)) (modified_controllers E rs l)) as Hl.
  { eapply goes_mono; [|apply IH]. lia. }
  case_match; [|done]. apply (goes_bind (S (S n)) (S (S n))); [apply goes_query|]. intros [t'|]; [|eapply goes_stay; [go|lia]].
  apply (goes_bind (S (S n)) (S (S n))); [by apply goes_other|]. by intros _.
Qed.

Lemma modified_keys_go kt rs info l n :
  (kt = KtBoundary -> rs = CREATED -> Forall Good l) -> goes n (n + length l) (modified_keys E kt rs info l).
Proof.
  revert n. induction l as [|k l IH]; intros n HG; cbn [modified_keys length]; [eapply goes_stay; [apply goes_ret|lia]|].
  assert (forall m, (m <= S n)%nat -> goes m (n + S (length l)) (modified_keys E kt rs info l)) as Hl.
  { intros m Hm. eapply goes_mono; [|apply IH]; [lia|]. intros H1 H2. specialize (HG H1 H2). by inv HG. }
  unfold IsKeyExists, WriteInfo. destruct rs.
  - apply (goes_bind n (S n)); [apply goes_created; intros ->; specialize (HG eq_refl eq_refl); by inv HG|]. intros _. by apply Hl.
  - apply (goes_bind n (S n)); [apply goes_updated|]. intros _. by apply Hl.
  - apply (goes_bind n n); [apply goes_query|]. intros exist. case_match.
    + apply (goes_bind n (S n)); [apply goes_deleted|]. intros _. by apply Hl.
    + case_match; [eapply goes_stay; [go|lia]|]. apply Hl. lia.
  - apply Hl. lia.
Qed.

Lemma goes_rows {A} n n' kt rs (f : Z * list Key -> Ux A) :
  (forall r, (length r.2 <= B)%nat -> (kt = KtBoundary -> rs = CREATED -> Forall Good r.2) -> goes n n' (f r)) ->
  goes n n' (ubind (GetModifiedRows E kt rs) f).
Proof. intros Hf s tr Hs. apply Hf; [done| |done]. by intros -> ->. Qed.

Lemma modified_go rs n : goes n (n + 4 * B) (GetModifiedConfiguration E rs).
Proof.
  unfold GetModifiedConfiguration, GetModifiedController, GetModifiedDomain, GetModifiedBoundary, WriteInfo.
  apply (goes_bind n (n + 2 * B)).
  { apply goes_rows. intros r Hr HG. case_match; [eapply goes_stay; [go|lia]|].
    eapply goes_mono; [|apply modified_controllers_go]. lia. }
  intros rc. case_match; [eapply goes_stay; [go|lia]|]. apply (goes_bind _ (n + 3 * B)).
  { apply goes_rows. intros r Hr HG. case_match; [eapply goes_stay; [go|lia]|].
    eapply goes_mono; [|by apply modified_keys_go]. lia. }
  intros rc2. case_match; [eapply goes_stay; [go|lia]|]. apply (goes_bind _ (n + 4 * B)).
  { apply goes_rows. intros r Hr HG. case_match; [eapply goes_stay; [go|lia]|].
    eapply goes_mono; [|by apply modified_keys_go]. lia. }
  intros rc3. case_match; go.
Qed.

Context (enough : (12 * B <= fuel)%nat).

Lemma fits_none s : fits 0 (mkTxn (trans_state_ s) no_rows no_rows no_rows ∅ (controller_old_upd_val s) (controller_old_del_val s)).
Proof. split; [by intros [| |]|constructor]. Qed.

Lemma Start_go : goes fuel fuel (StartTransaction E).
Proof.
  unfold StartTransaction, ClearMaps, start_failed, set_trans_state. go.
  apply (goes_bind _ 0); [apply goes_set; intros s' _; apply fits_none|]. intros _.
  apply (goes_bind _ (4 * B)); [apply modified_go|]. intros rc1. case_match; [eapply goes_stay; [go|lia]|].
  apply (goes_bind _ (4 * B + 4 * B)); [apply modified_go|]. intros rc2. case_match; [eapply goes_stay; [go|lia]|].
  apply (goes_bind _ (4 * B + 4 * B + 4 * B)); [apply modified_go|]. intros rc3.
  case_match; (eapply goes_stay; [go|lia]).
Qed.

(** The rest needs to read what it asks for. *)
Context (versions : forall tr ctr, commit_ver E tr ctr <> None)
  (readable : forall tr k, Good k -> (0 < commits tr)%nat -> exists v, read E tr KtBoundary UNC_DT_RUNNING k = inl v).

Lemma old_deleted_ret n l s tr :
  (length l <= n)%nat ->
  match old_deleted E n l s tr with Ret kept s' _ => same_rows s s' /\ (length kept <= length l)%nat | _ => False end.
Proof.
  revert l s tr. induction n as [|n IH]; intros [|k l] s tr Hl; try done; [cbn in Hl; lia|]. cbn [length] in Hl.
  cbn [old_deleted]. unfold ReadInternal, query, ubind at 1 2 3, uask, ulog, uret.
  destruct (read E tr KtController UNC_DT_RUNNING k) as [v|rc].
  2:{ specialize (IH l s (ERead KtController UNC_DT_RUNNING k (inr rc) :: tr) ltac:(lia)).
      destruct (old_deleted E n l _ _); [|done..]. destruct IH. cbn. split; [done|lia]. }
  unfold ReadCtrCommitVerFromDB, query, ubind, uask, ulog, uret, set_old_del, uset.
  destruct (commit_ver E _ (ctr_of k)) as [w|] eqn:Ew; [|by destruct (versions _ _ Ew)].
  match goal with |- context [old_deleted E n l ?s1 ?t1] => specialize (IH l s1 t1 ltac:(lia)); destruct (old_deleted E n l s1 t1) end;
    [|done..]. destruct IH as [Hs Hn]. cbn. split; [done|lia].
Qed.
Lemma old_updated_ret n l s tr :
  (length l <= n)%nat ->
  match old_updated E n l s tr with Ret r s' _ => same_rows s s' /\ (length r.1 <= length l)%nat | _ => False end.
Proof.
  revert l s tr. induction n as [|n IH]; intros [|k l] s tr Hl; try done; [cbn in Hl; lia|]. cbn [length] in Hl.
  cbn [old_updated]. unfold ReadInternal, query, ubind at 1 2 3, uask, ulog, uret.
  destruct (read E tr KtController UNC_DT_RUNNING k) as [v|rc].
  2:{ specialize (IH l s (ERead KtController UNC_DT_RUNNING k (inr rc) :: tr) ltac:(lia)).
      destruct (old_updated E n l _ _); [|done..]. destruct IH. cbn. split; [done|lia]. }
  unfold ReadCtrCommitVerFromDB, query, ubind, uask, ulog, uret, set_old_upd, uset.
  destruct (commit_ver E _ (ctr_of k)) as [w|] eqn:Ew; [|by destruct (versions _ _ Ew)].
  match goal with |- context [old_updated E n l ?s1 ?t1] => specialize (IH l s1 t1 ltac:(lia)); destruct (old_updated E n l s1 t1) end;
    [|done..]. destruct IH as [Hs Hn]. cbn. split; [done|lia].
Qed.

Lemma old_values_ret kt l s tr :
  match old_values E kt l s tr with Ret r s' _ => s' = s /\ (length r.1 <= length l)%nat | _ => False end.
Proof.
  revert s tr. induction l as [|k l IH]; intros s tr; [done|]. cbn [old_values].
  unfold ReadInternal, query, ubind at 1 2 3, uask, ulog, uret.
  destruct (read E tr kt UNC_DT_RUNNING k) as [v|rc]; unfold ubind;
    match goal with |- context [old_values E kt l ?s1 ?t1] => specialize (IH s1 t1); destruct (old_values E kt l s1 t1) end;
    try done; destruct IH; cbn; split; try done; lia.
Qed.

Lemma boundary_status_ret n l s tr :
  (length l <= n)%nat -> Forall Good l -> (0 < commits tr)%nat ->
  match boundary_status E n l s tr with Ret _ s' _ => s' = s | _ => False end.
Proof.
  revert l s tr. induction n as [|n IH]; intros [|k l] s tr Hl HG Hc; try done; [cbn in Hl; lia|]. cbn [length] in Hl.
  inv HG. cbn [boundary_status]. unfold ReadInternal, query, ubind at 1 2 3, uask, ulog, uret.
  destruct (readable tr k) as [v Hv]; [done..|]. rewrite Hv. unfold ubind. apply IH; [lia|done|]. cbn. lia.
Qed.

Lemma clear_deleted_go l n : goes n n (clear_deleted E l).
Proof.
  induction l as [|k l IH]; cbn [clear_deleted]; unfold ClearOneInstance, WriteInfo, forget_controller; go.
  apply (goes_bind n n); [go|]. by intros _.
Qed.
Lemma notify_deleted_go kt oper l n : goes n n (notify_deleted kt oper l).
Proof. induction l as [|k l IH]; cbn [notify_deleted]; unfold notify; go; done. Qed.
Lemma notify_created_go kt oper l n : goes n n (notify_created E kt oper l).
Proof. induction l as [|k l IH]; cbn [notify_created]; unfold notify, ReadInternal; go; done. Qed.
Lemma notify_updated_go kt keys olds n : goes n n (notify_updated E kt keys olds).
Proof.
  revert keys. induction olds as [|o olds IH]; intros [|k keys]; cbn [notify_updated]; unfold notify, ReadInternal; go;
    apply IH || apply goes_wild.
Qed.
Lemma send_go c d b n :
  goes n n (SendControllerNotification E c) /\ goes n n (SendDomainNotification E d) /\ goes n n (SendBoundaryNotification E b).
Proof.
  unfold SendControllerNotification, SendDomainNotification, SendBoundaryNotification.
  split; [|split]; go; (apply (goes_bind n n); [apply notify_deleted_go|]; intros _; apply (goes_bind n n);
    [apply notify_created_go || apply notify_updated_go|]; intros rc; case_match; [apply goes_ret|];
    apply notify_created_go || apply notify_updated_go).
Qed.

(** A run that ends or is undefined. *)
Definition runs {A} (p : Ux A) (Q : A -> Txn -> list Event -> Prop) (s : Txn) tr : Prop :=
  match p s tr with Ret a s' tr' => Q a s' tr' | Wild => True | More => False end.
Lemma runs_ubind {A B'} (p : Ux A) (f : A -> Ux B') Q s tr :
  runs p (fun a s' tr' => runs (f a) Q s' tr') s tr -> runs (ubind p f) Q s tr.
Proof. unfold runs, ubind. by destruct (p s tr). Qed.
Lemma runs_mono {A} (p : Ux A) (R Q : A -> Txn -> list Event -> Prop) s tr :
  runs p R s tr -> (forall a s' tr', R a s' tr' -> Q a s' tr') -> runs p Q s tr.
Proof. unfold runs. intros Hp Hm. destruct (p s tr); auto. Qed.
Lemma runs_goes {A} n n' (p : Ux A) s tr : goes n n' p -> fits n s -> runs p (fun _ s' _ => fits n' s') s tr.
Proof. intros Hp Hs. apply (Hp s tr Hs). Qed.
Lemma runs_ret {A} (p : Ux A) (Q : A -> Txn -> list Event -> Prop) s tr :
  match p s tr with Ret a s' tr' => Q a s' tr' | _ => False end -> runs p Q s tr.
Proof. unfold runs. by destruct (p s tr). Qed.

Lemma fits_same n s s' : same_rows s s' -> fits n s -> fits n s'.
Proof.
  intros (_ & H1 & H2 & H3) [Hs HG]. split; [|by rewrite H3]. intros kt. pose proof (Hs kt). destruct kt; cbn in *; congruence.
Qed.
Lemma fits_keep n kt g s tr :
  fits n s -> (forall r, created (g r) = created r) ->
  (length (updated (g (rows_of kt s))) <= n)%nat -> (length (deleted (g (rows_of kt s))) <= n)%nat ->
  runs (set_rows kt g) (fun _ s' tr' => fits n s' /\ tr' = tr) s tr.
Proof.
  intros [Hs HG] Hg Hu Hd. split; [|done]. split; [|destruct kt; cbn; by rewrite ?Hg].
  intros kt'. pose proof (Hs kt') as (? & ? & ?). pose proof (Hs kt) as (? & ? & ?).
  destruct kt, kt'; cbn in *; rewrite ?Hg; lia.
Qed.

Lemma after_commit_go kept l c d b s tr :
  fits fuel s -> (0 < commits tr)%nat -> (length l <= fuel)%nat -> Forall Good l ->
  runs (let^ rc := clear_deleted E kept in
        if negb (ok rc) then uret rc
        else
          do^ set_trans_state GLOBAL_COMMIT_SUCCESS in
          do^ boundary_status E fuel l in
          let^ rc := SendControllerNotification E c in
          if negb (ok rc) then uret rc
          else
            let^ rc := SendDomainNotification E d in
            if negb (ok rc) then uret rc
            else
              let^ rc := SendBoundaryNotification E b in
              if negb (ok rc) then uret rc else uret UNC_RC_SUCCESS) (fun _ s' _ => fits fuel s') s tr.
Proof.
  intros Hs Hc Hl HG. pose proof (clear_deleted_calm E kept s tr) as Hcalm.
  pose proof (clear_deleted_go kept fuel s tr Hs) as Hgo. unfold post in Hcalm.
  apply runs_ubind, runs_ret. destruct (clear_deleted E kept s tr) as [rc s1 tr1| |]; [|done..].
  destruct Hcalm as [-> Hc1]. destruct (ok rc); cbn [negb]; [|done]. apply runs_ubind. cbn.
  match goal with |- runs _ _ ?t _ => assert (fits fuel t) as Ht by (split; [intros kt; by apply Hs|apply Hs]); set (s2 := t) in * end.
  apply runs_ubind, runs_ret.
  pose proof (boundary_status_ret fuel l s2 tr1 Hl HG ltac:(lia)) as Hb.
  destruct (boundary_status E fuel l s2 tr1) as [[] s3 tr3| |]; [|done..]. rewrite Hb.
  destruct (send_go c d b fuel) as (H1 & H2 & H3).
  apply (runs_goes fuel fuel); [|done]. apply (goes_bind fuel fuel); [done|]. intros rc1. case_match; [apply goes_ret|].
  apply (goes_bind fuel fuel); [done|]. intros rc2. case_match; [apply goes_ret|].
  apply (goes_bind fuel fuel); [done|]. intros rc3. case_match; apply goes_ret.
Qed.

Lemma commit_go : goes fuel fuel (commit_modified E fuel).
Proof.
  intros s tr Hs. change (runs (commit_modified E fuel) (fun _ s' _ => fits fuel s') s tr).
  pose proof (proj1 Hs) as Hl. pose proof (Hl KtController) as (_ & Hu & Hd). pose proof (Hl KtDomain) as (_ & Hud & _).
  pose proof (Hl KtBoundary) as (_ & Hub & _). cbn in Hu, Hd, Hud, Hub.
  unfold commit_modified. apply runs_ubind. unfold uget, runs at 1. 
  apply runs_ubind, runs_ret. pose proof (old_deleted_ret fuel (deleted (controllers s)) s tr Hd) as H1.
  destruct (old_deleted E fuel _ s tr) as [kept s1 tr1| |]; [|done..]. destruct H1 as [Hs1 Hk].
  apply runs_ubind. eapply runs_mono.
  { apply (fits_keep fuel); [by apply (fits_same _ s)|done|..].
    - cbn. destruct Hs1 as (_ & -> & _). done.
    - cbn. lia. }
  intros _ s2 tr2 [Hs2 ->]. apply runs_ubind, runs_ret.
  pose proof (old_updated_ret fuel (updated (controllers s)) s2 tr1 Hu) as H2.
  destruct (old_updated E fuel _ s2 tr1) as [r s3 tr3| |]; [|done..]. destruct H2 as [Hs3 Hr].
  apply runs_ubind. pose proof (fits_same _ _ _ Hs3 Hs2) as Hf3. eapply runs_mono.
  { apply (fits_keep fuel); [done|done|cbn; lia|apply (proj1 Hf3 KtController)]. }
  intros _ s4 tr4 [Hs4 ->].
  apply runs_ubind, runs_ret. pose proof (old_values_ret KtDomain (updated (domains s)) s4 tr3) as H3.
  destruct (old_values E KtDomain _ s4 tr3) as [r5 s5 tr5| |]; [|done..]. destruct H3 as [-> Hr5].
  apply runs_ubind. eapply runs_mono.
  { apply (fits_keep fuel); [done|done|cbn; lia|apply (proj1 Hs4 KtDomain)]. }
  intros _ s6 tr6 [Hs6 ->].
  apply runs_ubind, runs_ret. pose proof (old_values_ret KtBoundary (updated (boundaries s)) s6 tr5) as H4.
  destruct (old_values E KtBoundary _ s6 tr5) as [r7 s7 tr7| |]; [|done..]. destruct H4 as [-> Hr7].
  apply runs_ubind. eapply runs_mono.
  { apply (fits_keep fuel); [done|done|cbn; lia|apply (proj1 Hs6 KtBoundary)]. }
  intros _ s8 tr8 [Hs8 ->]. apply runs_ubind. unfold CommitAllConfiguration, query, runs at 1, ubind at 1 2, uask, ulog, uret at 1.
  case_match; [done|]. apply after_commit_go; [done|cbn; lia|apply (Hl KtBoundary)|apply Hs].
Qed.

Lemma failover_go n : goes n n (failover_versions E).
Proof.
  assert (forall l, goes n n (reset_versions E l)) as Hl.
  { induction l as [|[ctr v] l IH]; cbn [reset_versions]; unfold UpdateKeyInstance; go; done. }
  unfold failover_versions, ReadAll. go. apply Hl.
Qed.
Lemma clear_maps_go n : goes n n ClearMaps.
Proof. apply goes_set. intros s Hs. eapply fits_mono; [|apply fits_none]. lia. Qed.
Lemma update_versions_go l n : goes n n (update_versions E l).
Proof.
  induction l as [|[ctr w] l IH]; cbn [update_versions]; unfold UpdateKeyInstance; go; try done;
    (apply (goes_bind n n); [apply clear_maps_go|]; intros _; go).
Qed.
Lemma DriverResult_go sid cid phase results : goes fuel fuel (HandleDriverResult E fuel sid cid phase results).
Proof.
  unfold HandleDriverResult, global_commit_result, set_trans_state. go; try by apply goes_other.
  all: try apply failover_go.
  all: apply (goes_bind fuel fuel); [apply update_versions_go|]; intros rc2; go; apply commit_go.
Qed.

Lemma sessions_go l n : goes n n (open_sessions E l).
Proof. induction l as [|t l IH]; cbn [open_sessions]; unfold driver_session; go; done. Qed.
Lemma tell_deleted_go flag l n : goes n n (tell_deleted E flag l).
Proof.
  induction l as [|k l IH]; cbn [tell_deleted]; unfold SendUpdatedControllerInfoToUPLL, SendReqAndGetResp, forget_controller; go;
    try done. apply (goes_bind n n); [go|]. by intros _.
Qed.
Lemma tell_modified_go op flag l n : goes n n (tell_modified E op flag l).
Proof.
  induction l as [|k l IH]; cbn [tell_modified];
    unfold SendUpdatedControllerInfoToUPLL, SendReqAndGetResp, ReadInternal, ReadCtrCommitVerFromDB; go; done.
Qed.
Lemma send_info_go op flag n : goes n n (SendControllerInfo E op flag).
Proof.
  unfold SendControllerInfo. apply (goes_bind n n); [apply sessions_go|]. intros rc. go; apply tell_modified_go.
Qed.
Lemma End_go res flag n : goes n n (EndTransaction E res flag).
Proof.
  unfold EndTransaction, set_trans_state, clear_old. destruct res; go.
  - apply (goes_bind n n); [apply clear_maps_go|]. intros _. go.
  - apply (goes_bind n n); [apply sessions_go|]. intros rc. go.
    apply (goes_bind n n); [apply tell_deleted_go|]. intros _.
    do 2 (apply (goes_bind n n); [apply send_info_go|]; intros _). go.
Qed.

(** *** The other operations *)

Lemma tell_undone_go l n : goes n n (tell_undone E l).
Proof. induction l as [|k l IH]; cbn [tell_undone]; unfold SendUpdatedControllerInfoToUPLL; go; done. Qed.
Lemma tell_running_go op l n : goes n n (tell_running E op l).
Proof. induction l as [|k l IH]; cbn [tell_running]; unfold SendUpdatedControllerInfoToUPLL, ReadInternal; go; done. Qed.
Lemma abort_candidate_go n : goes n n (AbortCandidateDb E).
Proof.
  unfold AbortCandidateDb, SendDeletedControllerToLogical, SendCreatedControllerToLogical, SendUpdatedControllerToLogical,
    SendAppliedControllerToLogical, GetModifiedRows, CopyDatabase.
  apply (goes_bind n n); [go; apply tell_undone_go|]. intros rc. go.
  apply (goes_bind n n); [go; apply tell_running_go|]. intros rc2. go.
  apply (goes_bind n n); [go; apply tell_running_go|]. intros rc3. go. apply tell_running_go.
Qed.
Lemma load_startup_go n : goes n n (LoadAndCommitStartup E).
Proof. unfold LoadAndCommitStartup, CopyDatabase, ClearDatabase. go. Qed.
Lemma tell_both_go p n : goes n n p -> goes n n (tell_both E p).
Proof.
  intros Hp. assert (forall dt l st, goes n n (tell_all E dt l st)) as Hl.
  { intros dt l. induction l as [|[ctr v] l IH]; intros st; cbn [tell_all]; unfold SendUpdatedControllerInfoToUPLL; go; apply IH. }
  assert (forall dt, goes n n (SendControllerInfoToUPLL E dt)) as Hs.
  { intros dt. unfold SendControllerInfoToUPLL, ReadAll. go. apply (goes_bind n n); [apply Hl|]. intros rc. go. }
  unfold tell_both. apply (goes_bind n n); [apply Hs|]. intros st. go. apply (goes_bind n n); [apply Hs|]. intros st'. go. done.
Qed.
Lemma Vote_go n : goes n n HandleVoteRequest.
Proof. unfold HandleVoteRequest, set_trans_state. go. Qed.
Lemma GlobalCommit_go n : goes n n HandleGlobalCommitRequest.
Proof. unfold HandleGlobalCommitRequest, set_trans_state. go. Qed.
Lemma Abort_go n : goes n n AbortTransaction.
Proof. unfold AbortTransaction, set_trans_state. apply (goes_bind n n); [apply clear_maps_go|]. intros _. go. Qed.
Lemma redo_go : goes fuel fuel (all_phases (redo_phases E fuel)).
Proof.
  assert (forall l, Forall (goes fuel fuel) l -> goes fuel fuel (all_phases l)) as Hl.
  { induction 1 as [|p l Hp Hl IH]; cbn [all_phases]; [go|]. apply (goes_bind fuel fuel); [done|]. intros rc. go. done. }
  apply Hl. unfold redo_phases.
  repeat constructor; auto using Start_go, Vote_go, DriverResult_go, GlobalCommit_go, End_go.
Qed.

Lemma call_go c : goes fuel fuel (handle_call E fuel c).
Proof.
  assert (forall p, goes fuel fuel p -> goes fuel fuel (in_active E p)) as Ha by (intros p Hp; unfold in_active; go; done).
  assert (forall p, goes fuel fuel p -> goes fuel fuel (with_db E p)) as Hd by (intros p Hp; unfold with_db, WriteInfo; go; done).
  assert (forall p (g : Z -> Z), goes fuel fuel p -> goes fuel fuel (let^ rc := p in uret (g rc))) as Hr.
  { intros p g Hp. apply (goes_bind fuel fuel); [done|]. intros rc. go. }
  assert (goes fuel fuel (SaveRunningToStartUp E) /\ goes fuel fuel (ClearStartUpDb E) /\ goes fuel fuel (CopyRunningtoCandidate E))
    as (Hs1 & Hs2 & Hs3).
  { unfold SaveRunningToStartUp, ClearStartUpDb, CopyRunningtoCandidate, CopyDatabase, ClearDatabase. split; [|split]; go. }
  destruct c; cbn [handle_call]; apply Ha; try apply Hd.
  all: try (apply (Hr _ tc_ret)).
  all: auto using Start_go, Vote_go, DriverResult_go, GlobalCommit_go, Abort_go, End_go.
  - apply (Hr _ (fun rc => tc_ret (rc `mod` 256))), abort_candidate_go.
  - case_match; [apply (Hr _ tc_ret), load_startup_go|]. apply (Hr _ (fun _ => TC_SUCCESS)). done.
  - repeat case_match; try apply tell_both_go; auto using redo_go, abort_candidate_go, goes_ret.
Qed.

Lemma calls_go cs : goes fuel fuel (handle_calls E fuel cs).
Proof.
  induction cs as [|c cs IH]; cbn [handle_calls]; [go|]. apply (goes_bind fuel fuel); [apply call_go|]. intros reply. go.
  apply (goes_bind fuel fuel); [done|]. intros l. go.
Qed.

End Returns.


(** Where a version cannot be read although its controller can, and where a
    created boundary cannot be read, the loop never ends. *)
Theorem unreadable_version_hangs (E : Env) n k l v s tr :
  (forall tr, read E tr KtController UNC_DT_RUNNING k = inl v) -> (forall tr, commit_ver E tr (ctr_of k) = None) ->
  old_updated E n (k :: l) s tr = More.
Proof.
  intros Hr Hv. revert tr. induction n as [|n IH]; intros tr; [done|].
  cbn [old_updated]. unfold ReadInternal, ReadCtrCommitVerFromDB, query, ubind, uask, ulog, uret. rewrite Hr, Hv. apply IH.
Qed.
Theorem unreadable_boundary_hangs (E : Env) n k l rc s tr :
  (forall tr, read E tr KtBoundary UNC_DT_RUNNING k = inr rc) -> boundary_status E n (k :: l) s tr = More.
Proof.
  intros Hr. revert tr. induction n as [|n IH]; intros tr; [done|].
  cbn [boundary_status]. unfold ReadInternal, query, ubind, uask, ulog, uret. rewrite Hr. apply IH.
Qed.

(** ** A commit and its notifications *)

(** The tables: the keys that were modified, and the rows of the candidate and of
    the running configuration. *)
Record Db := mkDb { rows : Kt -> CsRowStatus -> list Key; cand : Kt -> Key -> option Val; run : Kt -> Key -> option Val }.

Definition is_note (e : Event) : bool := match e with ENotify _ _ _ _ _ => true | _ => false end.
(** Notifications, the earliest first. *)
Fixpoint notes tr : list Event :=
  match tr with [] => [] | e :: rest => if is_note e then notes rest ++ [e] else notes rest end.

(** What is to be notified: keys that vanish, keys that are new with their
    values, and keys that change with the values before and after. *)
Definition gone (D : Db) kt : list Key :=
  List.filter (fun k => bool_decide (is_Some (run D kt k)))
    (match kt with KtController => rows D kt CREATED | _ => [] end ++ rows D kt DELETED).
Definition note_gone (D : Db) kt : list Event := map (fun k => ENotify UNC_OP_DELETE kt k NNull NNull) (gone D kt).
Definition note_new (D : Db) kt : list Event :=
  omap (fun k => (fun v => ENotify UNC_OP_CREATE kt k NNull (if kt ==? KtBoundary then NUnset else NVal_ v)) <$> cand D kt k)
    (rows D kt CREATED).
Definition note_changed (D : Db) kt : list Event :=
  omap (fun k => match run D kt k, cand D kt k with
                 | Some o, Some v => Some (ENotify UNC_OP_UPDATE kt k (NVal_ o) (NVal_ v))
                 | _, _ => None
                 end) (rows D kt UPDATED).
Definition all_notes (D : Db) : list Event :=
  note_gone D KtController ++ note_new D KtController ++ note_changed D KtController ++
  note_gone D KtDomain ++ note_changed D KtDomain ++ note_new D KtDomain ++
  note_gone D KtBoundary ++ note_new D KtBoundary ++ note_changed D KtBoundary.

(** What a start finds in a table, and whether there is anything. *)
Definition collected (D : Db) kt : Rows := mkRows (rows D kt CREATED) (rows D kt UPDATED) (gone D kt).
Definition changes (D : Db) : bool :=
  negb (is_empty (collected D KtController) && is_empty (collected D KtDomain) && is_empty (collected D KtBoundary)).

Definition row (o : option Val) : Val + Z := match o with Some v => inl v | None => inr UNC_UPPL_RC_ERR_NO_SUCH_INSTANCE end.

(** An update of the version of a controller that has no row fails. *)
Definition updated_row (o : option Val) : Z := if o then UNC_RC_SUCCESS else UNC_UPPL_RC_ERR_DB_UPDATE.

(** An environment that answers from the tables, and whose drivers can be
    reached; a commit makes the running
    configuration the candidate one. *)
Record answers (E : Env) (D : Db) : Prop := mkAnswers {
  a_open : forall tr, db_opened E tr = true;
  a_rows : forall tr kt rs, commits tr = O -> modified_rows E tr kt rs = (UNC_RC_SUCCESS, rows D kt rs);
  a_exists : forall tr kt k, commits tr = O ->
    key_exists E tr kt k = if run D kt k then UNC_RC_SUCCESS else UNC_UPPL_RC_ERR_NO_SUCH_INSTANCE;
  a_type : forall tr k rs, k ∈ rows D KtController rs -> ctr_type E tr UNC_DT_CANDIDATE (ctr_of k) <> None;
  a_type_run : forall tr k, commits tr = O -> is_Some (run D KtController k) ->
    ctr_type E tr UNC_DT_RUNNING (ctr_of k) <> None;
  a_cand : forall tr kt k, read E tr kt UNC_DT_CANDIDATE k = row (cand D kt k);
  a_run : forall tr kt k, read E tr kt UNC_DT_RUNNING k = row (if (commits tr =? 0)%nat then run D kt k else cand D kt k);
  a_ver : forall tr k, commits tr = O -> is_Some (run D KtController k) -> commit_ver E tr (ctr_of k) <> None;
  a_update : forall tr ctr, update_ver E tr UNC_DT_CANDIDATE ctr = updated_row (cand D KtController [ctr]);
  a_update_run : forall tr ctr, commits tr = O ->
    update_ver E tr UNC_DT_RUNNING ctr = updated_row (run D KtController [ctr]);
  a_commit : forall tr, commit_all E tr = ODBCM_RC_SUCCESS;
  a_clear : forall tr dt ctr, clear_one E tr dt ctr = ODBCM_RC_SUCCESS;
  a_session : forall tr t, session_rc E tr t = UNC_RC_SUCCESS
}.

(** A run that ends with [Q]. *)
Definition total {A} (p : Ux A) (Q : A -> Txn -> list Event -> Prop) (s : Txn) tr : Prop :=
  match p s tr with Ret a s' tr' => Q a s' tr' | _ => False end.
Lemma total_uret {A} (a : A) (Q : A -> Txn -> list Event -> Prop) s tr : Q a s tr -> total (uret a) Q s tr.
Proof. done. Qed.
Lemma total_ubind {A B} (p : Ux A) (f : A -> Ux B) Q s tr :
  total p (fun a s' tr' => total (f a) Q s' tr') s tr -> total (ubind p f) Q s tr.
Proof. unfold total, ubind. by destruct (p s tr). Qed.
Lemma total_mono {A} (p : Ux A) (R Q : A -> Txn -> list Event -> Prop) s tr :
  total p R s tr -> (forall a s' tr', R a s' tr' -> Q a s' tr') -> total p Q s tr.
Proof. unfold total. intros Hp Hm. destruct (p s tr); auto. Qed.
Lemma total_get {B} (f : Txn -> Ux B) Q s tr : total (f s) Q s tr -> total (ubind uget f) Q s tr.
Proof. done. Qed.
Lemma total_set {B} g (f : unit -> Ux B) Q s tr : total (f tt) Q (g s) tr -> total (ubind (uset g) f) Q s tr.
Proof. done. Qed.
Lemma total_query {A B} (q : list Event -> A) e (f : A -> Ux B) Q s tr :
  total (f (q tr)) Q s (e (q tr) :: tr) -> total (ubind (query q e) f) Q s tr.
Proof. done. Qed.
Lemma total_log {B} e (f : unit -> Ux B) Q s tr : total (f tt) Q s (e :: tr) -> total (ubind (ulog e) f) Q s tr.
Proof. done. Qed.
Lemma total_uask {A B} (q : list Event -> A) (f : A -> Ux B) Q s tr : total (f (q tr)) Q s tr -> total (ubind (uask q) f) Q s tr.
Proof. done. Qed.

Section Commit.

Context (E : Env) (D : Db) (fuel : nat) (A : answers E D).
Notation collected := (collected D).

Definition still tr tr' : Prop := notes tr' = notes tr /\ commits tr' = commits tr.

(** What a list of modified controllers adds. *)
Definition in_run kt k : bool := bool_decide (is_Some (run D kt k)).
Definition found (kt : Kt) rs (l : list Key) (r : Rows) : Rows :=
  match rs with
  | CREATED => mkRows (created r ++ l) (updated r)
                 (deleted r ++ match kt with KtController => List.filter (in_run kt) l | _ => [] end)
  | UPDATED => mkRows (created r) (updated r ++ l) (deleted r)
  | DELETED => mkRows (created r) (updated r) (deleted r ++ List.filter (in_run kt) l)
  | APPLIED => r
  end.

Lemma run_exists tr kt k : commits tr = O -> ok (key_exists E tr kt k) = in_run kt k.
Proof.
  intros Hc. rewrite (a_exists _ _ A) by done. unfold in_run. destruct (run D kt k).
  - by rewrite bool_decide_true.
  - rewrite bool_decide_false by (intros []; done). done.
Qed.
Lemma run_access tr kt k : commits tr = O -> (key_exists E tr kt k ==? UNC_UPPL_RC_ERR_DB_ACCESS) = false.
Proof. intros Hc. rewrite (a_exists _ _ A) by done. by destruct (run D kt k). Qed.

Lemma found_cons kt rs k l r : found kt rs l (found kt rs [k] r) = found kt rs (k :: l) r.
Proof.
  destruct rs, kt; cbn; rewrite <- ?(assoc_L (++)), ?app_nil_r; cbn; try done; by destruct (in_run _ k).
Qed.
Lemma found_nil kt rs r : found kt rs [] r = r.
Proof. destruct rs, kt, r; cbn; by rewrite ?app_nil_r. Qed.

(** Other members than the lists of a table. *)
Definition others (kt : Kt) (s s' : Txn) : Prop :=
  trans_state_ s' = trans_state_ s /\ forall kt', kt' <> kt -> rows_of kt' s' = rows_of kt' s.

Lemma others_trans kt s1 s2 s3 : others kt s1 s2 -> others kt s2 s3 -> others kt s1 s3.
Proof. intros [H1 H2] [H3 H4]. split; [congruence|]. intros kt' Hk. rewrite H4, H2; done. Qed.

Lemma push_total rs k s tr :
  total (match rs with
         | CREATED =>
             do^ set_rows KtController (push_created k) in
             if in_run KtController k then set_rows KtController (push_deleted k) else uret tt
         | UPDATED => set_rows KtController (push_updated k)
         | DELETED => if in_run KtController k then set_rows KtController (push_deleted k) else uret tt
         | APPLIED => uret tt
         end) (fun _ s' tr' => tr' = tr /\ others KtController s s' /\
           controllers s' = found KtController rs [k] (controllers s)) s tr.
Proof.
  assert (forall s', trans_state_ s' = trans_state_ s -> domains s' = domains s -> boundaries s' = boundaries s ->
    others KtController s s') as Ho by (intros s' ? ? ?; split; [done|]; by intros [| |]).
  destruct rs; cbn; destruct (in_run KtController k); cbn; (split; [done|]); (split; [by apply Ho|]); cbn; rewrite ?app_nil_r;
    try done; by destruct (controllers s).
Qed.

Lemma modified_controllers_total rs l s tr :
  commits tr = O -> (forall k, k ∈ l -> exists rs, k ∈ rows D KtController rs) ->
  total (modified_controllers E rs l) (fun rc s' tr' => rc = UNC_RC_SUCCESS /\ still tr tr' /\ others KtController s s' /\
    controllers s' = found KtController rs l (controllers s)) s tr.
Proof.
  revert s tr. induction l as [|k l IH]; intros s tr Hc Hrows; cbn [modified_controllers].
  { apply total_uret. by rewrite found_nil. }
  apply total_query. rewrite run_access, run_exists by done. apply total_ubind. eapply total_mono; [apply push_total|].
  intros _ s1 tr1 (-> & Ho & Hf). apply total_query.
  destruct (ctr_type E _ _ _) as [t|] eqn:Et.
  2:{ destruct (Hrows k ltac:(left)) as [rs' Hin]. by destruct (a_type _ _ A _ _ _ Hin Et). }
  assert (forall s2 tr2, controllers s2 = controllers s1 -> others KtController s1 s2 -> commits tr2 = O -> still tr tr2 ->
      total (modified_controllers E rs l) (fun rc s' tr' => rc = UNC_RC_SUCCESS /\ still tr tr' /\ others KtController s s' /\
        controllers s' = found KtController rs (k :: l) (controllers s)) s2 tr2) as Hrec.
  { intros s2 tr2 Hs2 Ho2 Hc2 Hst. eapply total_mono; [apply IH; [done|]; intros k' Hk'; apply Hrows; by right|].
    intros rc s3 tr3 (-> & [Hn3 Hc3] & Ho3 & Hf3).
    split; [done|]. destruct Hst as [Hn2 Hc2']. split; [split; congruence|].
    split; [by do 2 (eapply others_trans; [eassumption|])|]. rewrite Hf3, Hs2, Hf. apply found_cons. }
  apply total_ubind. unfold set_type.
  assert (forall t s', others KtController s' (mkTxn (trans_state_ s') (controllers s') (domains s') (boundaries s')
    (<[ctr_of k := t]> (controller_type_map s')) (controller_old_upd_val s') (controller_old_del_val s'))) as Hmap.
  { intros t' s'. split; [done|]. by intros [| |]. }
  assert (forall s', others KtController s' s') as Hrefl by done.
  destruct (rs ==? DELETED); cbn [total uset uret]; destruct (_ && in_run KtController k) eqn:Er.
  all: try (apply andb_prop in Er as [_ Er]; apply bool_decide_eq_true in Er;
            apply total_query; destruct (ctr_type E _ UNC_DT_RUNNING _) as [t'|] eqn:Et';
            [|by eapply (a_type_run _ _ A) in Et'; [|exact Hc|exact Er]]; apply total_set).
  all: by apply Hrec.
Qed.

Lemma modified_keys_total kt rs info l s tr :
  kt <> KtController -> commits tr = O ->
  total (modified_keys E kt rs info l) (fun rc s' tr' => rc = UNC_RC_SUCCESS /\ still tr tr' /\ others kt s s' /\
    rows_of kt s' = found kt rs l (rows_of kt s)) s tr.
Proof.
  intros Hkt. revert s tr. induction l as [|k l IH]; intros s tr Hc; cbn [modified_keys].
  { apply total_uret. by rewrite found_nil. }
  assert (forall s2 tr2, rows_of kt s2 = found kt rs [k] (rows_of kt s) -> others kt s s2 -> commits tr2 = O -> still tr tr2 ->
    total (modified_keys E kt rs info l) (fun rc s' tr' => rc = UNC_RC_SUCCESS /\ still tr tr' /\ others kt s s' /\
      rows_of kt s' = found kt rs (k :: l) (rows_of kt s)) s2 tr2) as Hrec.
  { intros s2 tr2 Hs2 Ho2 Hc2 Hst. eapply total_mono; [by apply IH|]. intros rc s3 tr3 (-> & [Hn3 Hc3] & Ho3 & Hf3).
    split; [done|]. destruct Hst as [Hn2 Hc2']. split; [split; congruence|].
    split; [by eapply others_trans|]. rewrite Hf3, Hs2. apply found_cons. }
  assert (forall g, (forall r, g r = found kt rs [k] r) -> forall tr2, commits tr2 = O -> still tr tr2 ->
    total (do^ set_rows kt g in modified_keys E kt rs info l) (fun rc s' tr' => rc = UNC_RC_SUCCESS /\ still tr tr' /\ others kt s s' /\
      rows_of kt s' = found kt rs (k :: l) (rows_of kt s)) s tr2) as Hpush.
  { intros g Hg tr2 Hc2 Hst. unfold set_rows. apply total_set, Hrec; [..|done|done].
    - destruct kt; cbn; apply Hg.
    - split; [by destruct kt|]. intros kt' Hk. by destruct kt, kt'. }
  destruct rs; cbn [modified_keys].
  - apply Hpush; [|done|done]. intros r. destruct kt; [done|..]; cbn; by rewrite app_nil_r.
  - by apply Hpush.
  - apply total_query. rewrite run_access, run_exists by done. destruct (in_run kt k) eqn:Ei.
    + apply Hpush; [|done|done]. intros r. cbn. by rewrite Ei.
    + apply Hrec; [|done|done|done]. cbn. rewrite Ei, app_nil_r. by destruct (rows_of kt s).
  - apply Hrec; done.
Qed.

(** All three tables. *)
Lemma modified_total rs s tr :
  commits tr = O ->
  total (GetModifiedConfiguration E rs) (fun rc s' tr' => rc = UNC_RC_SUCCESS /\ still tr tr' /\
    trans_state_ s' = trans_state_ s /\ forall kt, rows_of kt s' = found kt rs (rows D kt rs) (rows_of kt s)) s tr.
Proof.
  intros Hc. unfold GetModifiedConfiguration, GetModifiedController, GetModifiedDomain, GetModifiedBoundary.
  apply total_ubind, total_query. rewrite (a_rows _ _ A) by done. change (rows_failed (UNC_RC_SUCCESS, rows D KtController rs).1) with false.
  cbn iota. eapply total_mono; [apply modified_controllers_total; [done|by eauto]|].
  intros rc s1 tr1 (-> & [Hn1 Hc1] & [Ht1 Ho1] & Hf1). cbn in Hn1, Hc1. change (ok UNC_RC_SUCCESS) with true. cbn [negb].
  apply total_ubind, total_query. rewrite (a_rows _ _ A) by congruence. change (rows_failed (UNC_RC_SUCCESS, rows D KtDomain rs).1) with false.
  cbn iota. eapply total_mono; [apply modified_keys_total; [done|]; cbn; congruence|].
  intros rc s2 tr2 (-> & [Hn2 Hc2] & [Ht2 Ho2] & Hf2). cbn in Hn2, Hc2. change (ok UNC_RC_SUCCESS) with true. cbn [negb].
  apply total_ubind, total_query. rewrite (a_rows _ _ A) by congruence. change (rows_failed (UNC_RC_SUCCESS, rows D KtBoundary rs).1) with false.
  cbn iota. eapply total_mono; [apply modified_keys_total; [done|]; cbn; congruence|].
  intros rc s3 tr3 (-> & [Hn3 Hc3] & [Ht3 Ho3] & Hf3). cbn in Hn3, Hc3. change (ok UNC_RC_SUCCESS) with true. cbn [negb].
  apply total_uret. split; [done|]. split; [split; congruence|]. split; [congruence|].
  intros [| |].
  - rewrite (Ho3 KtController), (Ho2 KtController) by done. exact Hf1.
  - rewrite (Ho3 KtDomain), Hf2 by done. f_equal. by apply (Ho1 KtDomain).
  - rewrite Hf3. f_equal. rewrite (Ho2 KtBoundary) by done. by apply (Ho1 KtBoundary).
Qed.


Lemma Start_total s tr :
  trans_state_ s = TRANS_END -> commits tr = O ->
  total (StartTransaction E) (fun rc s' tr' => rc = UNC_RC_SUCCESS /\ still tr tr' /\
    trans_state_ s' = TRANS_START_SUCCESS /\ forall kt, rows_of kt s' = collected kt) s tr.
Proof.
  intros Hs Hc. unfold StartTransaction, ClearMaps, set_trans_state. apply total_get. rewrite Hs.
  change (TRANS_END ==? TRANS_END) with true. cbn iota. apply total_set, total_set.
  match goal with |- total _ _ ?t _ => assert (forall kt, rows_of kt t = no_rows) as H0 by (by intros [| |]);
    generalize t H0; clear s Hs H0 end. intros s H0.
  apply total_ubind. eapply total_mono; [by apply modified_total|]. intros rc s1 tr1 (-> & [Hn1 Hc1] & _ & Hf1).
  change (ok UNC_RC_SUCCESS) with true. cbn [negb].
  apply total_ubind. eapply total_mono; [apply modified_total; congruence|]. intros rc s2 tr2 (-> & [Hn2 Hc2] & _ & Hf2).
  change (ok UNC_RC_SUCCESS) with true. cbn [negb].
  apply total_ubind. eapply total_mono; [apply modified_total; congruence|]. intros rc s3 tr3 (-> & [Hn3 Hc3] & _ & Hf3).
  change (ok UNC_RC_SUCCESS) with true. cbn [negb]. apply total_set, total_uret. split; [done|].
  split; [split; congruence|]. split; [done|]. intros kt.
  transitivity (rows_of kt s3); [by destruct kt|]. rewrite Hf3, Hf2, Hf1, H0. unfold collected, gone.
  destruct kt; cbn; by rewrite ?filter_app.
Qed.

(** The controllers that results name: rows of the candidate configuration,
    which are in the running one or were created. *)
Definition committable (p : string * Ver) : Prop :=
  is_Some (cand D KtController [p.1]) /\
  (is_Some (run D KtController [p.1]) \/ [p.1] ∈ rows D KtController CREATED).

Lemma update_versions_total l s tr :
  commits tr = O -> Forall committable l -> created (controllers s) = rows D KtController CREATED ->
  total (update_versions E l) (fun rc s' tr' => rc = UNC_RC_SUCCESS /\ s' = s /\ still tr tr') s tr.
Proof.
  intros Hc Hl Hs. revert tr Hc. induction Hl as [|[ctr w] l [[v Hv] Hr] Hl IH]; intros tr Hc; cbn [update_versions]; [done|].
  cbn [fst] in Hv, Hr. apply total_query. rewrite (a_update _ _ A), Hv. change (ok (updated_row (Some v))) with true. cbn [negb].
  apply total_query. rewrite (a_update_run _ _ A) by done. destruct (run D KtController [ctr]) as [o|].
  { change (ok (updated_row (Some o))) with true. cbn iota. eapply total_mono; [by apply IH|]. done. }
  change (ok (updated_row None)) with false. change (updated_row None ==? UNC_UPPL_RC_ERR_DB_ACCESS) with false. cbn iota.
  apply total_get. rewrite Hs. assert (existsb (fun k => ctr_of k ==? ctr) (rows D KtController CREATED) = true) as ->.
  { destruct Hr as [[? ?]|Hr]; [done|]. apply existsb_exists. exists [ctr]. split; [by apply list_elem_of_In|].
    by apply bool_decide_eq_true. }
  eapply total_mono; [by apply IH|]. done.
Qed.

(** Keys with the values that the running configuration had. *)
Definition with_old kt (l : list Key) : list (Key * Val) := omap (fun k => pair k <$> run D kt k) l.

Lemma version_read tr k : commits tr = O -> is_Some (run D KtController k) -> exists w, commit_ver E tr (ctr_of k) = Some w.
Proof.
  intros Hc Hk. destruct (commit_ver E tr (ctr_of k)) as [w|] eqn:Ew; [by exists w|].
  by destruct (a_ver _ _ A _ _ Hc Hk Ew).
Qed.

Lemma old_deleted_total n l s tr :
  (length l <= n)%nat -> Forall (fun k => is_Some (run D KtController k)) l -> commits tr = O ->
  total (old_deleted E n l) (fun kept s' tr' => kept = l /\ same_rows s s' /\ still tr tr') s tr.
Proof.
  revert l s tr. induction n as [|n IH]; intros [|k l] s tr Hl Hr Hc; try done; [cbn in Hl; lia|]. cbn [length] in Hl.
  inversion Hr as [|? ? [v Hv] Hr']; subst; clear Hr; rename Hr' into Hr. cbn [old_deleted]. apply total_query. rewrite (a_run _ _ A), Hc, Hv. cbn [row Nat.eqb].
  apply total_query. destruct (version_read (ERead KtController UNC_DT_RUNNING k (inl v) :: tr) k) as [w Hw]; [done|by rewrite Hv|].
  rewrite Hw. apply total_set, total_ubind. eapply total_mono; [by apply IH; [lia|..]|]. cbn. by intros kept s' tr' (-> & Hs & Ht).
Qed.

Lemma old_updated_total n l s tr :
  (length l <= n)%nat -> commits tr = O ->
  total (old_updated E n l) (fun r s' tr' =>
    r = ((with_old KtController l).*1, (with_old KtController l).*2) /\ same_rows s s' /\ still tr tr') s tr.
Proof.
  revert l s tr. induction n as [|n IH]; intros [|k l] s tr Hl Hc; try done; [cbn in Hl; lia|]. cbn [length] in Hl.
  cbn [old_updated]. apply total_query. rewrite (a_run _ _ A), Hc. cbn [Nat.eqb with_old omap list_omap].
  destruct (run D KtController k) as [v|] eqn:Ev; cbn [row fmap option_fmap option_map].
  - apply total_query. destruct (version_read (ERead KtController UNC_DT_RUNNING k (inl v) :: tr) k) as [w Hw]; [done|by rewrite Ev|].
    rewrite Hw. apply total_set, total_ubind. eapply total_mono; [by apply IH; [lia|..]|]. cbn. by intros r s' tr' (-> & Hs & Ht).
  - eapply total_mono; [by apply IH; [lia|..]|]. done.
Qed.
Lemma old_values_total kt l s tr :
  commits tr = O ->
  total (old_values E kt l) (fun r s' tr' => r = ((with_old kt l).*1, (with_old kt l).*2) /\ s' = s /\ still tr tr') s tr.
Proof.
  revert s tr. induction l as [|k l IH]; intros s tr Hc; cbn [old_values]; [done|]. apply total_query.
  rewrite (a_run _ _ A), Hc. cbn [Nat.eqb with_old omap list_omap].
  destruct (run D kt k) as [v|]; cbn [row fmap option_fmap option_map].
  - apply total_ubind. eapply total_mono; [by apply IH|]. cbn. by intros r s' tr' (-> & -> & Ht).
  - eapply total_mono; [by apply IH|]. done.
Qed.

Lemma clear_deleted_total l s tr :
  total (clear_deleted E l) (fun rc s' tr' => rc = UNC_RC_SUCCESS /\ s' = s /\ still tr tr') s tr.
Proof.
  revert tr. induction l as [|k l IH]; intros tr; cbn [clear_deleted]; [done|].
  apply total_query. rewrite (a_clear _ _ A). change (ODBCM_RC_SUCCESS ==? ODBCM_RC_SUCCESS) with true. cbn [negb].
  apply total_query. rewrite (a_clear _ _ A). change (ODBCM_RC_SUCCESS ==? ODBCM_RC_SUCCESS) with true. cbn [negb].
  apply total_ubind. cbn. eapply total_mono; [apply IH|]. done.
Qed.
Lemma boundary_status_total n l s tr :
  (length l <= n)%nat -> Forall (fun k => is_Some (cand D KtBoundary k)) l -> commits tr <> O ->
  total (boundary_status E n l) (fun _ s' tr' => s' = s /\ still tr tr') s tr.
Proof.
  revert l s tr. induction n as [|n IH]; intros [|k l] s tr Hl Hr Hc; try done; [cbn in Hl; lia|]. cbn [length] in Hl.
  inversion Hr as [|? ? [v Hv] Hr']; subst; clear Hr; rename Hr' into Hr. cbn [boundary_status]. apply total_query. rewrite (a_run _ _ A), Hv.
  destruct (commits tr =? 0)%nat eqn:E0; [apply Nat.eqb_eq in E0; done|]. cbn [row].
  apply total_log. eapply total_mono; [by apply IH; [lia|..]|]. done.
Qed.

(** Notifications. *)
Definition noted (l : list Event) tr tr' : Prop := notes tr' = notes tr ++ l /\ commits tr' = commits tr.

Lemma notify_deleted_total kt oper l s tr :
  total (notify_deleted kt oper l)
    (fun _ s' tr' => s' = s /\ noted (map (fun k => ENotify UNC_OP_DELETE kt k NNull NNull) l) tr tr') s tr.
Proof.
  revert tr. induction l as [|k l IH]; intros tr; cbn [notify_deleted map].
  { split; [done|]. split; [by rewrite app_nil_r|done]. }
  apply total_ubind. destruct oper; cbn; (eapply total_mono; [apply IH|]); cbn; intros _ s' tr' (-> & Hn & Hc); (split; [done|]);
    (split; [|done]); cbn in Hn; by rewrite Hn, <- (assoc_L (++)).
Qed.
Lemma notify_created_total kt oper l s tr :
  total (notify_created E kt oper l) (fun rc s' tr' => rc = UNC_RC_SUCCESS /\ s' = s /\
    noted (omap (fun k => (fun v => ENotify UNC_OP_CREATE kt k NNull (if kt ==? KtBoundary then NUnset else NVal_ v))
                            <$> cand D kt k) l) tr tr') s tr.
Proof.
  revert tr. induction l as [|k l IH]; intros tr; cbn [notify_created omap list_omap].
  { split; [done|]. split; [done|]. split; [by rewrite app_nil_r|done]. }
  apply total_ubind. assert (forall tr2, still tr tr2 -> total
    (let^ r := ReadInternal E kt UNC_DT_CANDIDATE k in
     match r with
     | inl v => do^ notify UNC_OP_CREATE kt k NNull (if kt ==? KtBoundary then NUnset else NVal_ v) in notify_created E kt oper l
     | inr rc => if rc ==? UNC_UPPL_RC_ERR_NO_SUCH_INSTANCE then notify_created E kt oper l
                 else uret UNC_UPPL_RC_ERR_COMMIT_OPERATION_NOT_ALLOWED
     end) (fun rc s' tr' => rc = UNC_RC_SUCCESS /\ s' = s /\
    noted (omap (fun k => (fun v => ENotify UNC_OP_CREATE kt k NNull (if kt ==? KtBoundary then NUnset else NVal_ v))
                            <$> cand D kt k) (k :: l)) tr tr') s tr2) as Hk.
  { intros tr2 [Hn2 Hc2]. apply total_query. rewrite (a_cand _ _ A). cbn [omap list_omap].
    destruct (cand D kt k) as [v|]; cbn [row fmap option_fmap option_map].
    - apply total_log. eapply total_mono; [apply IH|]. intros rc s' tr' (-> & -> & Hn & Hc). split; [done|]. split; [done|].
      split; [|by rewrite <- Hc2]. cbn in Hn. by rewrite Hn, Hn2, <- (assoc_L (++)).
    - change (UNC_UPPL_RC_ERR_NO_SUCH_INSTANCE ==? UNC_UPPL_RC_ERR_NO_SUCH_INSTANCE) with true. cbn iota.
      eapply total_mono; [apply IH|]. intros rc s' tr' (-> & -> & Hn & Hc). split; [done|]. split; [done|].
      split; [|by rewrite <- Hc2]. cbn in Hn. by rewrite Hn, Hn2. }
  destruct oper; by apply Hk.
Qed.

Lemma notify_updated_total kt (l : list (Key * Val)) s tr :
  total (notify_updated E kt l.*1 l.*2) (fun rc s' tr' => rc = UNC_RC_SUCCESS /\ s' = s /\
    noted (omap (fun p => (fun v => ENotify UNC_OP_UPDATE kt p.1 (NVal_ p.2) (NVal_ v)) <$> cand D kt p.1) l) tr tr') s tr.
Proof.
  revert tr. induction l as [|[k o] l IH]; intros tr; cbn [notify_updated omap list_omap fmap list_fmap fst snd].
  { split; [done|]. split; [done|]. split; [by rewrite app_nil_r|done]. }
  apply total_query. rewrite (a_cand _ _ A). destruct (cand D kt k) as [v|]; cbn [row fmap option_fmap option_map].
  - apply total_log. eapply total_mono; [apply IH|]. intros rc s' tr' (-> & -> & Hn & Hc). split; [done|]. split; [done|].
    split; [|done]. cbn in Hn. by rewrite Hn, <- (assoc_L (++)).
  - change (UNC_UPPL_RC_ERR_NO_SUCH_INSTANCE ==? UNC_UPPL_RC_ERR_NO_SUCH_INSTANCE) with true. cbn iota.
    eapply total_mono; [apply IH|]. done.
Qed.
Lemma note_changed_old kt :
  note_changed D kt = omap (fun p => (fun v => ENotify UNC_OP_UPDATE kt p.1 (NVal_ p.2) (NVal_ v)) <$> cand D kt p.1)
                        (with_old kt (rows D kt UPDATED)).
Proof.
  unfold note_changed, with_old. induction (rows D kt UPDATED) as [|k l IH]; [done|]. cbn [omap list_omap].
  destruct (run D kt k) as [o|]; [|exact IH]. cbn [fmap option_fmap option_map omap list_omap fst snd].
  destruct (cand D kt k); cbn [fmap option_fmap option_map]; by rewrite IH.
Qed.

Lemma noted_trans l1 l2 tr1 tr2 tr3 : noted l1 tr1 tr2 -> noted l2 tr2 tr3 -> noted (l1 ++ l2) tr1 tr3.
Proof. intros [H1 H2] [H3 H4]. split; [by rewrite H3, H1, (assoc_L (++))|congruence]. Qed.

(** The notifications of a table, in the order in which they are sent. *)
Lemma send_total (s : Txn) olds :
  (forall kt, created (rows_of kt s) = rows D kt CREATED /\ deleted (rows_of kt s) = gone D kt /\
     updated (rows_of kt s) = (with_old kt (rows D kt UPDATED)).*1) ->
  (forall kt, olds kt = (with_old kt (rows D kt UPDATED)).*2) ->
  forall tr,
    total (SendControllerNotification E (olds KtController)) (fun rc s' tr' => rc = UNC_RC_SUCCESS /\ s' = s /\
      noted (note_gone D KtController ++ note_new D KtController ++ note_changed D KtController) tr tr') s tr /\
    total (SendDomainNotification E (olds KtDomain)) (fun rc s' tr' => rc = UNC_RC_SUCCESS /\ s' = s /\
      noted (note_gone D KtDomain ++ note_changed D KtDomain ++ note_new D KtDomain) tr tr') s tr /\
    total (SendBoundaryNotification E (olds KtBoundary)) (fun rc s' tr' => rc = UNC_RC_SUCCESS /\ s' = s /\
      noted (note_gone D KtBoundary ++ note_new D KtBoundary ++ note_changed D KtBoundary) tr tr') s tr.
Proof.
  intros Hs Ho tr. unfold SendControllerNotification, SendDomainNotification, SendBoundaryNotification.
  pose proof (Hs KtController) as (Hc1 & Hd1 & Hu1). pose proof (Hs KtDomain) as (Hc2 & Hd2 & Hu2).
  pose proof (Hs KtBoundary) as (Hc3 & Hd3 & Hu3). cbn [rows_of] in *. rewrite !note_changed_old.
  split; [|split]; apply total_get; rewrite ?Hc1, ?Hd1, ?Hu1, ?Hc2, ?Hd2, ?Hu2, ?Hc3, ?Hd3, ?Hu3, Ho; apply total_ubind;
    (eapply total_mono; [apply notify_deleted_total|]); intros _ s1 tr1 (-> & Hn1); apply total_ubind;
    (eapply total_mono; [apply notify_created_total || apply notify_updated_total|]); intros rc s2 tr2 (-> & -> & Hn2);
    change (ok UNC_RC_SUCCESS) with true; cbn [negb];
    (eapply total_mono; [apply notify_created_total || apply notify_updated_total|]); intros rc s3 tr3 (-> & -> & Hn3);
    (split; [done|]); (split; [done|]); (eapply noted_trans; [exact Hn1|]); (eapply noted_trans; [exact Hn2|exact Hn3]).
Qed.

Context (room : forall kt rs, (2 * length (rows D kt rs) <= fuel)%nat)
  (new_boundaries : Forall (fun k => is_Some (cand D KtBoundary k)) (rows D KtBoundary CREATED)).

Lemma gone_fits kt : (length (gone D kt) <= fuel)%nat.
Proof.
  unfold gone. pose proof (room kt CREATED). pose proof (room kt DELETED).
  etransitivity; [apply List.filter_length_le|]. rewrite length_app. destruct kt; cbn; lia.
Qed.
Lemma gone_run kt : Forall (fun k => is_Some (run D kt k)) (gone D kt).
Proof.
  apply List.Forall_forall. intros k [_ Hk]%List.filter_In. by apply bool_decide_eq_true in Hk.
Qed.

Lemma commit_total s tr :
  (forall kt, rows_of kt s = collected kt) -> commits tr = O ->
  total (commit_modified E fuel) (fun rc s' tr' => rc = UNC_RC_SUCCESS /\ trans_state_ s' = GLOBAL_COMMIT_SUCCESS /\
    notes tr' = notes tr ++ all_notes D /\ commits tr' = 1%nat) s tr.
Proof.
  intros Hs Hc. unfold commit_modified. apply total_get.
  pose proof (Hs KtController) as Hs1. pose proof (Hs KtDomain) as Hs2. pose proof (Hs KtBoundary) as Hs3. cbn [rows_of] in *.
  rewrite Hs1, Hs2, Hs3. cbn [collected created updated deleted].
  apply total_ubind. eapply total_mono; [apply old_deleted_total; [apply gone_fits|apply gone_run|done]|].
  intros kept s4 tr4 (-> & (Ht4 & Hr4 & Hd4 & Hb4) & Hn4 & Hc4). unfold set_rows. apply total_set.
  apply total_ubind. eapply total_mono; [apply old_updated_total; [pose proof (room KtController UPDATED); lia|congruence]|].
  intros r s5 tr5 (-> & (Ht5 & Hr5 & Hd5 & Hb5) & Hn5 & Hc5). cbn in Ht5, Hr5, Hd5, Hb5. apply total_set.
  apply total_ubind. eapply total_mono; [apply old_values_total; congruence|]. intros r s6 tr6 (-> & -> & Hn6 & Hc6). apply total_set.
  apply total_ubind. eapply total_mono; [apply old_values_total; congruence|]. intros r s7 tr7 (-> & -> & Hn7 & Hc7). apply total_set.
  apply total_query. rewrite (a_commit _ _ A). change (ODBCM_RC_SUCCESS ==? ODBCM_RC_SUCCESS) with true. cbn [negb].
  apply total_ubind. eapply total_mono; [apply clear_deleted_total|]. intros rc s8 tr8 (-> & -> & Hn8 & Hc8). cbn in Hn8, Hc8.
  change (ok UNC_RC_SUCCESS) with true. cbn [negb]. unfold set_trans_state. apply total_set.
  apply total_ubind. eapply total_mono.
  { apply boundary_status_total; [pose proof (room KtBoundary CREATED); lia|done|]. rewrite Hc8. done. }
  intros _ s9 tr9 (-> & Hn9 & Hc9). cbn.
  match goal with |- total _ _ ?t _ => set (s10 := t) end.
  assert (forall kt, created (rows_of kt s10) = rows D kt CREATED /\ deleted (rows_of kt s10) = gone D kt /\
     updated (rows_of kt s10) = (with_old kt (rows D kt UPDATED)).*1) as Hrows.
  { intros [| |]; cbn; rewrite ?Hr5, ?Hd5, ?Hb5, ?Hr4, ?Hd4, ?Hb4, ?Hs1, ?Hs2, ?Hs3; done. }
  pose proof (send_total s10 (fun kt => (with_old kt (rows D kt UPDATED)).*2) Hrows (fun _ => eq_refl)) as Hsend.
  apply total_ubind. eapply total_mono; [apply (Hsend tr9)|]. intros rc s11 tr11 (-> & -> & Hn11).
  change (ok UNC_RC_SUCCESS) with true. cbn [negb].
  apply total_ubind. eapply total_mono; [apply (Hsend tr11)|]. intros rc s12 tr12 (-> & -> & Hn12).
  change (ok UNC_RC_SUCCESS) with true. cbn [negb].
  apply total_ubind. eapply total_mono; [apply (Hsend tr12)|]. intros rc s13 tr13 (-> & -> & Hn13).
  change (ok UNC_RC_SUCCESS) with true. cbn [negb]. apply total_uret. split; [done|]. split; [done|].
  destruct (noted_trans _ _ _ _ _ Hn11 (noted_trans _ _ _ _ _ Hn12 Hn13)) as [Hn Hcc]. split.
  - rewrite Hn, Hn9, Hn8, Hn7, Hn6, Hn5, Hn4. unfold all_notes. by rewrite !(assoc_L (++)).
  - rewrite Hcc, Hc9, Hc8, Hc7, Hc6, Hc5, Hc4, Hc. done.
Qed.

(** *** The end of the transaction *)

(** A program that returns, leaves the transaction alone and notifies nobody. *)
Definition hushed {B} (p : Ux B) : Prop := forall s tr, total p (fun _ s' tr' => s' = s /\ still tr tr') s tr.

Lemma hushed_ret {B} (a : B) : hushed (uret a).
Proof. by intros s tr. Qed.
Lemma hushed_get : hushed uget.
Proof. by intros s tr. Qed.
Lemma hushed_ask {B} (q : list Event -> B) : hushed (uask q).
Proof. by intros s tr. Qed.
Lemma hushed_log e : is_note e = false -> is_commit e = false -> hushed (ulog e).
Proof. intros Hn Hc s tr. cbn. unfold still. cbn. by rewrite Hn, Hc. Qed.
Lemma hushed_bind {B B'} (p : Ux B) (f : B -> Ux B') : hushed p -> (forall a, hushed (f a)) -> hushed (ubind p f).
Proof.
  intros Hp Hf s tr. apply total_ubind. eapply total_mono; [apply Hp|]. cbn. intros a s' tr' (-> & Hn & Hc).
  eapply total_mono; [apply Hf|]. cbn. intros b s' tr'' (-> & Hn' & Hc'). split; [done|]. split; congruence.
Qed.

Ltac hush :=
  unfold SendUpdatedControllerInfoToUPLL, SendReqAndGetResp, ReadInternal, ReadCtrCommitVerFromDB, forget_controller,
    driver_session, query;
  repeat match goal with
  | H : hushed ?p |- hushed ?p => exact H
  | |- hushed (ubind _ _) => apply hushed_bind; [|intros ?]
  | |- hushed (ulog _) => apply hushed_log; reflexivity
  | |- hushed (uret _) => apply hushed_ret
  | |- hushed uget => apply hushed_get
  | |- hushed (uask _) => apply hushed_ask
  | |- hushed (match ?x with _ => _ end) => destruct x
  end.

Lemma tell_deleted_hushed flag l : hushed (tell_deleted E flag l).
Proof. induction l as [|k l IH]; cbn [tell_deleted]; hush. Qed.
Lemma tell_modified_hushed op flag l : hushed (tell_modified E op flag l).
Proof. induction l as [|k l IH]; cbn [tell_modified]; hush. Qed.
Lemma sessions_hushed l : hushed (open_sessions E l).
Proof. induction l as [|t l IH]; cbn [open_sessions]; hush. Qed.
Lemma send_info_hushed op flag : hushed (SendControllerInfo E op flag).
Proof. unfold SendControllerInfo. hush; apply sessions_hushed || apply tell_modified_hushed. Qed.

Lemma sessions_total l s tr :
  total (open_sessions E l) (fun rc s' tr' => rc = UNC_RC_SUCCESS /\ s' = s /\ still tr tr') s tr.
Proof.
  revert tr. induction l as [|t l IH]; intros tr; cbn [open_sessions]; [done|]. apply total_query.
  rewrite (a_session _ _ A). change (ok UNC_RC_SUCCESS) with true. cbn [negb]. eapply total_mono; [apply IH|]. done.
Qed.

Lemma total_hushed {B B'} (p : Ux B) (f : B -> Ux B') Q s tr :
  hushed p -> (forall a tr', still tr tr' -> total (f a) Q s tr') -> total (ubind p f) Q s tr.
Proof. intros Hp Hf. apply total_ubind. eapply total_mono; [apply Hp|]. cbn. intros a s' tr' [-> Hst]. by apply Hf. Qed.

Lemma End_total s tr :
  total (EndTransaction E TRANS_END_SUCCESS true) (fun rc s' tr' =>
    rc = UNC_RC_SUCCESS /\ trans_state_ s' = TRANS_END /\ still tr tr') s tr.
Proof.
  cbn [EndTransaction]. apply total_get. destruct (is_empty (controllers s)); [done|].
  apply total_ubind. eapply total_mono; [apply sessions_total|]. intros rc s1 tr1 (-> & -> & Hn1 & Hc1).
  change (ok UNC_RC_SUCCESS) with true. cbn [negb].
  apply total_hushed; [apply tell_deleted_hushed|]. intros _ tr2 [Hn2 Hc2].
  apply total_hushed; [apply send_info_hushed|]. intros _ tr3 [Hn3 Hc3].
  apply total_hushed; [apply send_info_hushed|]. intros _ tr4 [Hn4 Hc4].
  apply total_set, total_set, total_uret. split; [done|]. split; [done|]. split; congruence.
Qed.

(** *** The whole commit *)

Definition commit_calls (sid cid : Z) (results : list (string * Ver)) : list TcCall :=
  [CStart; CVote; CDriverResult sid cid TC_COMMIT_VOTE_PHASE []; CGlobalCommit;
   CDriverResult sid cid TC_COMMIT_GLOBAL_COMMIT_PHASE results; CEnd TRANS_END_SUCCESS].

Context (H : healthy E).

Lemma total_active (p : Ux Z) Q s tr : total p Q s tr -> total (in_active E p) Q s tr.
Proof.
  intros Hp. unfold in_active. apply total_uask. destruct (H tr) as (-> & Hs). apply total_uask. by rewrite Hs.
Qed.
Lemma total_db (p : Ux Z) Q s tr : total p Q s (EOpen true :: tr) -> total (with_db E p) Q s tr.
Proof. intros Hp. unfold with_db. apply total_query. by rewrite (a_open _ _ A). Qed.
Lemma total_call {B} c (k : Z -> TransState -> Ux B) Q s tr :
  total (handle_call E fuel c) (fun reply s' tr' => total (k reply (trans_state_ s')) Q s' tr') s tr ->
  total (let^ reply := handle_call E fuel c in let^ s := uget in k reply (trans_state_ s)) Q s tr.
Proof. intros Hp. apply total_ubind. eapply total_mono; [exact Hp|]. intros reply s' tr' Hk. by apply total_get. Qed.

Lemma empty_notes : changes D = false -> all_notes D = [].
Proof.
  intros He%negb_false_iff. revert He.
  assert (forall kt, is_empty (collected kt) = true -> note_gone D kt = [] /\ note_new D kt = [] /\ note_changed D kt = []) as Hk.
  { intros kt He. unfold note_gone, note_new, note_changed, collected in *. cbn in He.
    destruct (rows D kt CREATED), (rows D kt UPDATED), (gone D kt); done. }
  intros [[H1 H2]%andb_prop H3]%andb_prop. unfold all_notes.
  destruct (Hk _ H1) as (-> & -> & ->), (Hk _ H2) as (-> & -> & ->), (Hk _ H3) as (-> & -> & ->). done.
Qed.

Lemma global_total sid cid results s tr :
  sid <> 0 -> (forall kt, rows_of kt s = collected kt) -> commits tr = O -> Forall committable results ->
  total (global_commit_result E fuel sid cid results) (fun rc s' tr' => rc = UNC_RC_SUCCESS /\
    trans_state_ s' = GLOBAL_COMMIT_SUCCESS /\ notes tr' = notes tr ++ all_notes D /\
    commits tr' = if changes D then 1%nat else 0%nat) s tr.
Proof.
  intros Hsid Hs Hc Hres. pose proof (Hs KtController) as Hctr. cbn [rows_of] in Hctr. unfold global_commit_result, set_trans_state. apply total_set.
  rewrite (bool_decide_false (sid = 0)) by done. rewrite andb_false_r. cbn [andb]. apply total_ubind, total_uret.
  change (ok UNC_RC_SUCCESS) with true. cbn [negb].
  apply total_ubind. eapply total_mono; [apply update_versions_total; [done|done|cbn; by rewrite Hctr]|].
  intros rc s1 tr1 (-> & -> & Hn1 & Hc1).
  change (ok UNC_RC_SUCCESS) with true. cbn [negb]. apply total_get.
  pose proof (Hs KtController) as Hs1. pose proof (Hs KtDomain) as Hs2. pose proof (Hs KtBoundary) as Hs3. cbn [rows_of] in *.
  cbn [controllers domains boundaries]. rewrite Hs1, Hs2, Hs3.
  destruct (_ && _) eqn:Ee.
  - assert (changes D = false) as Hch by (unfold changes; by rewrite Ee).
    apply total_set, total_uret. split; [done|]. split; [done|]. rewrite empty_notes, Hch, app_nil_r by done. split; [done|congruence].
  - eapply total_mono; [apply commit_total; [|congruence]|].
    + intros [| |]; cbn; done.
    + assert (changes D = true) as Hch by (unfold changes; by rewrite Ee).
      intros rc s2 tr2 (-> & Ht & Hn & Hc2). rewrite Hn1 in Hn. by rewrite Hch.
Qed.

Lemma commit_notifies sid cid results s tr :
  sid <> 0 -> trans_state_ s = TRANS_END -> commits tr = O -> Forall committable results ->
  total (handle_calls E fuel (commit_calls sid cid results)) (fun l s' tr' =>
    l.*1 = replicate 6 TC_SUCCESS /\ trans_state_ s' = TRANS_END /\ notes tr' = notes tr ++ all_notes D /\
    commits tr' = if changes D then 1%nat else 0%nat) s tr.
Proof.
  intros Hsid Hs Hc Hres. unfold commit_calls. cbn [handle_calls]. apply total_ubind.
  unfold handle_call at 1, HandleCommitTransactionStart. apply total_active, total_db, total_ubind.
  eapply total_mono; [by apply Start_total|]. intros rc s1 tr1 (-> & [Hn1 Hc1] & Ht1 & Hr1). cbn in Hn1, Hc1.
  apply total_uret, total_get, total_ubind, total_ubind.
  unfold handle_call at 1, HandleCommitVoteRequest, HandleVoteRequest, set_trans_state. apply total_active, total_ubind, total_get.
  rewrite Ht1. change (TRANS_START_SUCCESS ==? TRANS_START_SUCCESS) with true. cbn iota. apply total_set, total_set, total_uret, total_uret.
  apply total_get, total_ubind, total_ubind.
  unfold handle_call at 1, HandleCommitDriverResult. apply total_active, total_db, total_ubind.
  unfold HandleDriverResult at 1, set_trans_state. apply total_get. cbn [trans_state_].
  change ((TC_COMMIT_VOTE_PHASE ==? TC_COMMIT_VOTE_PHASE) && negb (VOTE_WAIT_DRIVER_RESULT ==? VOTE_WAIT_DRIVER_RESULT)) with false.
  change (TC_COMMIT_VOTE_PHASE ==? TC_COMMIT_VOTE_PHASE) with true.
  change (TC_COMMIT_VOTE_PHASE ==? TC_COMMIT_GLOBAL_COMMIT_PHASE) with false. cbn [negb andb].
  apply total_set, total_uret, total_uret, total_get, total_ubind, total_ubind.
  unfold handle_call at 1, HandleCommitGlobalCommit, HandleGlobalCommitRequest, set_trans_state. apply total_active, total_ubind, total_get.
  cbn [trans_state_]. change (VOTE_SUCCESS ==? VOTE_SUCCESS) with true. cbn iota. apply total_set, total_set, total_uret, total_uret.
  apply total_get, total_ubind, total_ubind.
  unfold handle_call at 1, HandleCommitDriverResult. apply total_active, total_db, total_ubind.
  unfold HandleDriverResult. apply total_get. cbn [trans_state_].
  change (TC_COMMIT_GLOBAL_COMMIT_PHASE ==? TC_COMMIT_VOTE_PHASE) with false.
  change (TC_COMMIT_GLOBAL_COMMIT_PHASE ==? TC_COMMIT_GLOBAL_COMMIT_PHASE) with true.
  change (GLOBAL_COMMIT_WAIT_DRIVER_RESULT ==? GLOBAL_COMMIT_WAIT_DRIVER_RESULT) with true. cbn [andb negb].
  apply total_ubind, total_uret. eapply total_mono; [apply global_total; [done| | |done]|].
  - intros kt. rewrite <- Hr1. by destruct kt.
  - cbn. congruence.
  - intros rc s2 tr2 (-> & Ht2 & Hn2 & Hc2). apply total_uret, total_get, total_ubind, total_ubind.
    unfold handle_call, HandleCommitTransactionEnd. apply total_active, total_db, total_ubind.
    eapply total_mono; [apply End_total|]. intros rc s3 tr3 (-> & Ht3 & Hn3 & Hc3). cbn in Hn3, Hc3.
    apply total_uret, total_get, total_ubind, total_uret. do 6 apply total_uret.
    split; [done|]. split; [done|]. split; [|congruence]. rewrite Hn3, Hn2. cbn. by rewrite Hn1.
Qed.

End Commit.

(** C23: A whole commit in UPPL, from the start to the end of the transaction,
    on a node that stays active, whose database answers from its tables and
    whose drivers can be reached: every phase is answered with success, the
    transaction is over, the database was committed once if there was anything
    to commit and not otherwise, and the notifications are, in this order, those
    of the keys that vanish from the running configuration, of the new ones and
    of the changed ones of each table (of domains the new ones last), the changed
    ones each with the value that the running configuration had before and the
    value of the candidate configuration.  The results of the drivers name
    controllers that are in the candidate configuration and are in the running
    one or new; created boundaries can be read. *)
Theorem uppl_commit_notifies (E : Env) (D : Db) (fuel : nat) (sid cid : Z) (results : list (string * Ver)) (s : Txn) tr :
  healthy E -> answers E D -> (forall kt rs, (2 * length (rows D kt rs) <= fuel)%nat) ->
  Forall (fun k => is_Some (cand D KtBoundary k)) (rows D KtBoundary CREATED) ->
  Forall (committable D) results ->
  sid <> 0 -> trans_state_ s = TRANS_END -> commits tr = O ->
  exists l s' tr', handle_calls E fuel (commit_calls sid cid results) s tr = Ret l s' tr' /\
    l.*1 = replicate 6 TC_SUCCESS /\ trans_state_ s' = TRANS_END /\ notes tr' = notes tr ++ all_notes D /\
    commits tr' = if changes D then 1%nat else 0%nat.
Proof.
  intros Hh HA Hroom Hnew Hres Hsid Hs Hc.
  pose proof (commit_notifies E D fuel HA Hroom Hnew Hh sid cid results s tr Hsid Hs Hc Hres) as Ht.
  unfold total in Ht. destruct (handle_calls E fuel _ s tr) as [l s' tr'| |]; [|done..]. by exists l, s', tr'.
Qed.

(** ** Samples *)

(** An environment that answers from tables, with the result of copies. *)
Definition db_env (D : Db) (copied : Z) : Env :=
  mkEnv (fun _ => false) (fun _ => false) (fun _ => true) (fun _ kt rs => (UNC_RC_SUCCESS, rows D kt rs))
    (fun _ kt k => if run D kt k then UNC_RC_SUCCESS else UNC_UPPL_RC_ERR_NO_SUCH_INSTANCE)
    (fun _ _ _ => Some UNC_CT_ODC)
    (fun tr kt dt k => row (if (dt ==? UNC_DT_CANDIDATE) then cand D kt k
                            else if (commits tr =? 0)%nat then run D kt k else cand D kt k))
    (fun _ _ => (UNC_UPPL_RC_ERR_NO_SUCH_INSTANCE, [])) (fun _ _ => Some (mkVer 7 1 "app"))
    (fun _ dt ctr => updated_row ((if dt ==? UNC_DT_CANDIDATE then cand D else run D) KtController [ctr]))
    (fun _ => ODBCM_RC_SUCCESS) (fun _ _ _ => ODBCM_RC_SUCCESS) (fun _ _ _ => copied) (fun _ _ => ODBCM_RC_SUCCESS)
    (fun _ => UNC_RC_SUCCESS) (fun _ _ => UNC_RC_SUCCESS) (fun _ => true) (fun _ => UNC_RC_SUCCESS)
    (fun t => t ==? UNC_CT_ODC) false true.
Definition no_txn : Txn := mkTxn TRANS_END no_rows no_rows no_rows ∅ ∅ ∅.

(** A controller is created, one is changed, one is deleted, and a boundary is
    created. *)
Definition sample_db : Db :=
  mkDb (fun kt rs => match kt, rs with
                     | KtController, CREATED => [["c1"%string]]
                     | KtController, UPDATED => [["c2"%string]]
                     | KtController, DELETED => [["c3"%string]]
                     | KtBoundary, CREATED => [["b1"%string]]
                     | _, _ => []
                     end)
    (fun kt k => match kt with
                 | KtController => if k ==? ["c1"%string] then Some (mkVal UNC_CT_ODC "new")
                                   else if k ==? ["c2"%string] then Some (mkVal UNC_CT_ODC "after") else None
                 | KtBoundary => if k ==? ["b1"%string] then Some (mkVal 0 "b") else None
                 | KtDomain => None
                 end)
    (fun kt k => match kt with
                 | KtController => if k ==? ["c2"%string] then Some (mkVal UNC_CT_ODC "before")
                                   else if k ==? ["c3"%string] then Some (mkVal UNC_CT_ODC "old") else None
                 | _ => None
                 end).

Lemma db_env_healthy D copied : healthy (db_env D copied).
Proof. intros tr. split; reflexivity. Qed.
Lemma db_env_answers D copied : answers (db_env D copied) D.
Proof. constructor; try reflexivity; try discriminate. Qed.

Lemma uppl_commit_notifies_witness :
  all_notes sample_db =
    [ENotify UNC_OP_DELETE KtController ["c3"%string] NNull NNull;
     ENotify UNC_OP_CREATE KtController ["c1"%string] NNull (NVal_ (mkVal UNC_CT_ODC "new"));
     ENotify UNC_OP_UPDATE KtController ["c2"%string] (NVal_ (mkVal UNC_CT_ODC "before")) (NVal_ (mkVal UNC_CT_ODC "after"));
     ENotify UNC_OP_CREATE KtBoundary ["b1"%string] NNull NUnset] /\
  exists l s' tr', handle_calls (db_env sample_db 0) 2
      (commit_calls 5 6 [("c1"%string, mkVer 1 2 "x"); ("c2"%string, mkVer 8 2 "x")]) no_txn [] = Ret l s' tr' /\
    l.*1 = replicate 6 TC_SUCCESS /\ trans_state_ s' = TRANS_END /\ notes tr' = notes [] ++ all_notes sample_db /\
    commits tr' = if changes sample_db then 1%nat else 0%nat.
Proof.
  split; [reflexivity|]. apply (uppl_commit_notifies (db_env sample_db 0) sample_db).
  - apply db_env_healthy.
  - apply db_env_answers.
  - intros [| |] [| | |]; cbn; lia.
  - repeat constructor. exists (mkVal 0 "b"). reflexivity.
  - constructor; [|constructor; [|constructor]].
    + split; [exists (mkVal UNC_CT_ODC "new"); reflexivity|]. right. left.
    + split; [exists (mkVal UNC_CT_ODC "after"); reflexivity|]. left. exists (mkVal UNC_CT_ODC "before"). reflexivity.
  - discriminate.
  - reflexivity.
  - reflexivity.
Defined.

(** A whole transaction and a start that comes too early. *)
Definition sample_calls : list TcCall :=
  commit_calls 5 6 [] ++ [CStart; CStart; CVote].
Example sample_replies :
  match handle_calls (db_env sample_db 0) 12 sample_calls no_txn [] with
  | Ret l _ tr => l.*1 = replicate 7 TC_SUCCESS ++ [TC_FAILURE; TC_FAILURE] /\ commits tr = 1%nat
  | _ => False
  end.
Proof. vm_compute. done. Qed.

(** A candidate configuration that could not be restored is reported as
    aborted. *)
Example abort_hides_failed_copy :
  match handle_calls (db_env sample_db ODBCM_RC_CONNECTION_ERROR) 2 [CAbortCandidate] no_txn [] with
  | Ret l _ tr => l.*1 = [TC_SUCCESS] /\ ECopy UNC_DT_RUNNING UNC_DT_CANDIDATE ODBCM_RC_CONNECTION_ERROR ∈ tr
  | _ => False
  end.
Proof. vm_compute. split; [done|]. apply elem_of_cons. right. apply elem_of_cons. by left. Qed.

(** The end of a transaction that cannot reach a driver leaves the transaction
    as it is, and the next start is refused. *)
Definition no_session (E : Env) : Env :=
  mkEnv (fini_invoked E) (standby E) (db_opened E) (modified_rows E) (key_exists E) (ctr_type E) (read E) (read_all E)
    (commit_ver E) (update_ver E) (commit_all E) (clear_one E) (copy_db E) (clear_db E) (upll_rc E)
    (fun _ _ => UNC_UPPL_RC_FAILURE) (outputs_added E) (driver_rc E) (has_driver_name E) (coexists E) (startup_valid E).
Example failed_end_blocks_start :
  match handle_calls (no_session (db_env sample_db 0)) 2 (commit_calls 5 6 [] ++ [CStart]) no_txn [] with
  | Ret l _ _ => l.*1 = replicate 5 TC_SUCCESS ++ [TC_FAILURE; TC_FAILURE]
  | _ => False
  end.
Proof. vm_compute. done. Qed.

(** A start during a transaction is refused and gives the transaction up; a
    result of a global commit that was never asked for is answered with
    success. *)
Example start_gives_up :
  match handle_calls (db_env sample_db 0) 12 [CStart; CVote; CStart; CStart] no_txn [] with
  | Ret l _ _ => l = [(TC_SUCCESS, TRANS_START_SUCCESS); (TC_SUCCESS, VOTE_WAIT_DRIVER_RESULT);
                      (TC_FAILURE, TRANS_END); (TC_SUCCESS, TRANS_START_SUCCESS)]
  | _ => False
  end.
Proof. vm_compute. done. Qed.
Example stray_result_succeeds :
  match handle_calls (db_env sample_db 0) 12 [CDriverResult 5 6 TC_COMMIT_GLOBAL_COMMIT_PHASE []] no_txn [] with
  | Ret l _ tr => l = [(TC_SUCCESS, TRANS_END)] /\ commits tr = O
  | _ => False
  end.
Proof. vm_compute. done. Qed.
